(* ===== verification/_CoqProject ===== *)
-Q . S2P
Prelude.v
Crc32.v
Blocks.v
Md5.v
Sha1.v
Rc4.v
HddKey.v
Layout.v
Eeprom.v
Hardware.v
Settings.v
FlashTypes.v
FlashLowLevel.v
FlashDriver.v
FlashContract.v
FlashJedec.v
FlashTheorems.v
FlashProperties.v
Identify.v
LcdRing.v
Allocator.v
CallbackTimer.v
Strtol.v
Format.v
Strings.v
Smbus.v
SmbusHost.v
Ide.v
AtaDevice.v
IdeTheorems.v
IdeSecurity.v
IdeBoot.v
Partition.v
DiskIo.v
FatFiles.v
VirtualRoot.v
FatStore.v
MinIni.v
MinIniText.v
MinIniRun.v
SettingsFile.v
SettingsText.v
LwipTcp.v
Sfifo.v
Ftpd.v
FtpdRun.v
FtpdText.v
FtpdSession.v
FtpdList.v
FtpdFaults.v
Script.v
ScriptText.v
ScriptTheorems.v
ScriptAssign.v
FlashUi.v
ScriptDevices.v
Deflate.v
Inflate.v
InflateBits.v
Huft.v
HuftBuild.v
InflateWindow.v
InflateCodes.v
InflateBlocks.v
InflateDynamic.v
Gunzip.v
GunzipChecks.v
BootRom.v
LoaderSmbus.v
