(* ===== verification/Prelude.v ===== *)
(** * XBlast OS: a verification development of the firmware's core logic

    XBlast OS is the firmware of Xbox modchips (C, 32-bit x86).  A boot loader in
    flash checks and unpacks the system; the system identifies the console and the
    modchip, drives menus, rewrites the BIOS banks, keeps its settings in flash and
    in a text file, edits the EEPROM, locks and partitions the hard disk, runs
    scripts and serves the disk over FTP.  This library models these parts and
    proves what they promise.  Definitions keep the names of the C functions; every
    file names the sources it translates.

    ** Conventions

    A machine integer is a [Z] followed by the wrap of its type ([u8], [u16],
    [u32], [s32]).  An operation that the C standard leaves undefined (an index
    out of range, a null or released pointer, a division by zero) ends in [UB]
    of [outcome]; code that changes globals is a function of the state or runs
    in the state monad [ST].  [wp m Q s] is total: [m] has no undefined
    behaviour from [s] and ends in [Q].  Memory is a total function [mem], with
    bounds checked where the object has a size.  A packed structure is a list
    of octets with named fields ([Layout]); a string is the list of its octets
    before the terminating zero.  Hardware, and functions whose source is not in
    the tree, are parameters: a bus, the values read from ports, clock readings,
    uninitialised stack contents.

    ** Files

    - [Prelude]: integers, the monad, byte memory, notations, automation.
    - [Crc32]: [src/lib/misc/crc32.c] against a bitwise shift register.
    - [Blocks], [Md5], [Sha1]: [src/lib/crypt/md5.c], [sha1.c] against
      digests of the padded message; [Blocks] is the shared buffering argument.
    - [Rc4], [HddKey]: [src/lib/crypt/rc4.c], [src/drivers/ide/BootHddKey.c]
      (the EEPROM hash with the chaining values of each console version,
      HMAC-SHA1, the identification strings of a disk).
    - [Layout], [Eeprom]: [src/lib/eeprom/BootEEPROM.c]: checksums, the
      encrypted section, edits, write-back, the list of changes.
    - [Hardware], [Identify]: [src/xblast/HardwareIdentifier.c] and
      [src/lib/LPCMod/BootLPCMod.c]: modchip kinds, banks, output lines.
    - [Settings]: the settings structure of [src/xblast/settings/].
    - [FlashTypes], [FlashLowLevel], [FlashDriver]: [src/drivers/flash/]: the
      device table, both command sets, the whole state machine.
    - [FlashContract], [FlashJedec]: what the driver needs of the level below,
      as a class, and that the low level meets it on every device that follows
      the published command protocol; a concrete device.
    - [FlashTheorems], [FlashProperties]: runs of the driver, end to end.
    - [FlashUi]: [src/drivers/flash/FlashUi.c] and the boot requests of
      [src/xblast/PowerManagement.c].
    - [LcdRing]: [src/lib/LPCMod/LCDRingBuffer.c] against a bounded queue.
    - [Allocator]: the memory manager of [src/lib/misc/BootLibrary.c] against a
      set of disjoint blocks.
    - [CallbackTimer]: [src/lib/cromwell/CallbackTimer.c] against a list.
    - [Strtol], [Format], [Strings]: number parsing, [vsprintf], the string
      library and the natural order of names ([src/lib/cromwell/],
      [src/lib/misc/]).
    - [Smbus]: [src/drivers/pci/i2cio.c], the front panel and the EEPROM transfers,
      over ports; [SmbusHost]: a controller, devices, and the transfers on them;
      [LoaderSmbus]: the transfers of the boot loader and the challenge of the
      system controller ([src/boot_rom/2bPicResponseAction.c]).
    - [Ide]: [src/drivers/ide/BootIde.c] over ports; [AtaDevice]: drives that
      follow the ATA standard; [IdeTheorems], [IdeSecurity], [IdeBoot]: sectors,
      passwords and detection on such drives.
    - [Partition]: the FATX partition tables and layouts of
      [src/fs/ff13b/source/ff.c] and the disk menu; [DiskIo]:
      [src/fs/ff13b/source/diskio.c] on the IDE driver.
    - [FatFiles]: [src/fs/ff13b/source/FatFSAccessor.c] over an interface with the
      functions of FatFs; [FatStore]: what FatFs documents about the contents of
      files, as a class, and a volume in memory that meets it.
    - [VirtualRoot]: [src/fs/VirtualRoot/VirtualRoot.c].
    - [MinIni], [MinIniText], [MinIniRun]: [src/lib/minIni/dev/]: the functions,
      the lines of a file, the runs.
    - [SettingsFile], [SettingsText]: import, export and change tracker of
      [src/xblast/settings/].
    - [LwipTcp], [Sfifo], [Ftpd]: the raw interface of lwIP as a class with a sample
      network, the FIFO, and the server [src/lib/lwip-ftpd/]; [FtpdRun],
      [FtpdText], [FtpdSession], [FtpdList], [FtpdFaults]: its transfers, texts,
      sessions, listings, and the inputs on which it leaves defined behaviour.
    - [Script]: the engine of [src/xblast/scriptEngine/]; [ScriptText]: its files
      as lines, trimmed and parsed; [ScriptTheorems]: its variables and its
      tokenizer; [ScriptAssign]: assignments; [ScriptDevices]: the functions that
      scripts call.
    - [Deflate]: the compressed format; [Inflate]: [src/lib/gzip/] and the memcpy of
      the loader; [InflateBits], [Huft], [HuftBuild], [InflateWindow],
      [InflateCodes], [InflateBlocks], [InflateDynamic], [Gunzip], [GunzipChecks]:
      that it unpacks every file of the format, and what it accepts.
    - [BootRom]: the image builder [src/pc_tools/imagebld/imagebld.c] and the boot
      loader [src/boot_rom/].

    ** How the parts meet

    Components meet at classes.  [Bus] is reading and writing an address;
    [FlashLowLevel] is the interface the driver calls; [FlashContract] states the
    laws the driver's theorems use; [Jedec] states the documented behaviour of a
    device on the bus.  [ll_contract] discharges the contract from [Jedec], so a
    theorem about the driver holds on every such device.  [IdeBus] is the hardware
    below the IDE driver, [AtaDevice] an instance of it.  [SmbusPorts] is the hardware
    below the SMBus driver, the controller of [SmbusHost] an instance of it over any
    [SmbusDevices].  [FatFs] is the library
    below the accessor and [FatFsFiles] its laws; [Tcp] and [TcpLaws] are the stack
    below the FTP server.

    The boot image passes [Sha1] and the decompressor.  Saved settings pass
    [Crc32] and the flash driver, or [Format], [MinIni], the accessor and [Strtol].
    The EEPROM code uses [HddKey], which uses [Sha1], and [Rc4]; the IDE driver
    takes the disk password from them.  A file that goes to a client passes the
    accessor, the virtual root, the FIFO and the stack.

    ** What the theorems show

    - Boot: an image made by the builder is started by the loader with exactly the
      kernel that was packed; the loader starts nothing whose hash differs; the
      decompressor restores every file of the format (complete codes, no header
      checksum) and accepts only what matches its checksum and length.
    - Flash: flashing an image of a power of two octets ends; the flash then holds
      the image over the bank, or the erase failure is reported.  On a recognised
      chip whose sector erase works and with the settings at 192KB, saved settings
      are what any later boot reads from the flash, and a request to boot a bank
      saves them first and restarts.  Polling reports a device ready only when it
      is.  The driver is a step function called from the main loop, so a run is
      "some number of steps" ([reaches]); the bound comes from the contract's busy
      count.
    - EEPROM: encryption and decryption are inverse, an edit of the region
      changes nothing else, checksums detect changes; what is written back over a
      bus that loses cycles is what the next start reads.
    - Digests and ciphers: any split of the input gives the digest of the whole,
      the table CRC is the polynomial register and detects bursts, RC4 and the
      hash of the hard-disk key are what their definitions say.
    - Memory manager: an allocation is fresh and large enough; a release frees
      exactly its block, but for the blocks of five sectors and those at the end of
      the pool, for which the theorem says what happens instead.  LCD queue and
      FIFO: refinement of bounded queues.  Timers: one round calls and removes the right timers.
    - Disk: sectors read and written through FatFs's disk functions are an array on
      every ATA drive; a locked master disk opens with the key of its console; a
      layout that is offered fits the disk and, on a disk that already has a table,
      is read back.
    - Files: handles are a map; setting an entry of a text file changes that entry
      only; exported settings are imported unchanged, within the lengths that the
      import accepts.
    - FTP: a file, a listing and an upload arrive octet for octet however the
      network paces them, over active connections; a line runs the command that its
      first letters name.
    - Scripts: trimming and both parse passes are functions of the lines of a text
      file, with the lines on which they leave defined behaviour; an assignment line
      computes, with the exchange of operands that the code has; constants stay.
    - Faults of the code that the model exhibits are lemmas too, among them: the
      image mirror that overruns its buffer, the save that never ends on an unknown
      chip, the five-sector blocks that are never released, the allocation that never reports failure, the timer node read
      after its release, the commands of a client that make the FTP server follow
      a null pointer.

    ** Bounds

    Loops that C bounds by a counter run on that counter.  The others have fuel:
    [mirror_loop] 32, as the image doubles each time and its size is 32 bits;
    [directory_loop] 2048, as each round puts an octet into a FIFO of that size;
    [bind_port] 32768, the number of ports; [power_above] 30 doublings; the polls of
    [Ide] the counter of the source where it has one; list walks the number of nodes; the loops of
    the decompressor a bound from the input or the window.  Where the length of a
    run depends on a device or a file (polls without a counter, the interface
    around the flash machine, minIni), fuel is an argument and the theorems say how much is enough.  Running
    out counts as undefined, so a total theorem proves that the fuel suffices.

    ** Not modelled

    The volume layer of FatFs and the lwIP stack below its raw interface are
    third-party code that the firmware only calls: they are classes with laws taken
    from their documentation.  USB, video, network and PCI drivers consist of
    register accesses whose meaning is in the hardware.  Assembly other than the
    copy of the loader is not translated.  Menus, dialogs and drawing are left out,
    as are XZ Embedded and NanoJPEG, the second FatFs and the FATX reader, which
    the build does not link.  The percentage the flash driver displays and the temperatures
    are floating point. *)

From stdpp Require Export base tactics list numbers option.
From Stdlib Require Export ZArith Lia Bool.

Open Scope Z_scope.
Set Default Proof Using "Type".

(** ** Machine integers

    The firmware is 32-bit x86 C: [unsigned char], [unsigned short],
    [unsigned int] and [int] are 8, 16, 32 and 32 bits.  A machine integer is a
    [Z] and every operation that can leave its range is followed by the wrap
    of its type. *)

Definition u8 (z : Z) : Z := z mod 2 ^ 8.
Definition u16 (z : Z) : Z := z mod 2 ^ 16.
Definition u32 (z : Z) : Z := z mod 2 ^ 32.
Definition s32 (z : Z) : Z := (z + 2 ^ 31) mod 2 ^ 32 - 2 ^ 31.

(** [byte z]: [z] is the value of an [unsigned char]. *)
Definition byte (z : Z) : Prop := 0 <= z < 256.
Definition word32 (z : Z) : Prop := 0 <= z < 2 ^ 32.

#[export] Instance byte_dec z : Decision (byte z).
Proof. unfold byte; apply _. Defined.
#[export] Instance word32_dec z : Decision (word32 z).
Proof. unfold word32; apply _. Defined.

(** C truth value of an integer, and the integer of a C comparison. *)
Definition truthy (z : Z) : bool := negb (z =? 0).
Definition c_bool (b : bool) : Z := if b then 1 else 0.

(** ** Undefined behaviour and the state monad

    An operation of the C program either returns or has no defined result (an
    array access out of bounds, a null dereference, a division by zero).
    [ST S A] threads a state [S] and stops at the first undefined operation. *)

Inductive outcome (A : Type) : Type :=
| Ok (a : A)
| UB.
Arguments Ok {A} a.
Arguments UB {A}.

Definition outcome_bind {A B} (m : outcome A) (f : A → outcome B) : outcome B :=
  match m with Ok a => f a | UB => UB end.

Definition ST (S A : Type) : Type := S → outcome (A * S).

#[export] Instance outcome_mret : MRet outcome := λ A a, Ok a.
#[export] Instance outcome_mbind : MBind outcome := λ A B f m, outcome_bind m f.
#[export] Instance ST_mret {S} : MRet (ST S) := λ A a s, Ok (a, s).
#[export] Instance ST_mbind {S} : MBind (ST S) := λ A B f m s,
  match m s with Ok (a, s') => f a s' | UB => UB end.

Definition ub {S A} : ST S A := λ _, UB.
Definition gets {S A} (f : S → A) : ST S A := λ s, Ok (f s, s).
Definition modify {S} (f : S → S) : ST S unit := λ s, Ok (tt, f s).
Definition assert_ub {S} (b : bool) : ST S unit := λ s, if b then Ok (tt, s) else UB.
Definition liftO {S A} (o : outcome A) : ST S A :=
  λ s, match o with Ok a => Ok (a, s) | UB => UB end.

(** [zoom get set m] runs [m] on the component of the state that [get] and
    [set] focus on. *)
Definition zoom {S T A} (get : S → T) (set : T → S → S) (m : ST T A) : ST S A :=
  λ s, match m (get s) with Ok (a, t) => Ok (a, set t s) | UB => UB end.

Fixpoint repeatM {S} (n : nat) (m : ST S unit) : ST S unit :=
  match n with
  | O => mret tt
  | Datatypes.S n' => m ;; repeatM n' m
  end.

(** Up to [p] rounds of a loop body; [Some] leaves the loop. *)
Fixpoint iter_until {S A} (p : positive) (m : ST S (option A)) : ST S (option A) :=
  match p with
  | xH => m
  | xO p =>
      r ← iter_until p m;
      match r with Some a => mret (Some a) | None => iter_until p m end
  | xI p =>
      r ← m;
      match r with
      | Some a => mret (Some a)
      | None =>
          r ← iter_until p m;
          match r with Some a => mret (Some a) | None => iter_until p m end
      end
  end.

(** A loop without a bound of its own; [fuel] rounds must be enough. *)
Definition loop_until {S A} (fuel : positive) (m : ST S (option A)) : ST S A :=
  r ← iter_until fuel m;
  match r with Some a => mret a | None => ub end.

(** [wp m Q s]: running [m] from [s] has no undefined behaviour and ends with a
    value and a state that satisfy [Q]. *)
Definition wp {S A} (m : ST S A) (Q : A → S → Prop) (s : S) : Prop :=
  match m s with Ok (a, s') => Q a s' | UB => False end.

Section wp_rules.
Context {S : Type}.

Lemma wp_ret {A} (a : A) (Q : A → S → Prop) s : Q a s → wp (mret a) Q s.
Proof. done. Qed.

Lemma wp_bind {A B} (m : ST S A) (f : A → ST S B) (Q : B → S → Prop) s :
  wp m (λ a s', wp (f a) Q s') s → wp (m ≫= f) Q s.
Proof. unfold wp, mbind, ST_mbind. destruct (m s) as [[a s']|]; done. Qed.

Lemma wp_gets {A} (f : S → A) (Q : A → S → Prop) s : Q (f s) s → wp (gets f) Q s.
Proof. done. Qed.

Lemma wp_modify (f : S → S) (Q : unit → S → Prop) s : Q tt (f s) → wp (modify f) Q s.
Proof. done. Qed.

Lemma wp_mono {A} (m : ST S A) (P Q : A → S → Prop) s :
  wp m P s → (∀ a s', P a s' → Q a s') → wp m Q s.
Proof. unfold wp. destruct (m s) as [[a s']|]; naive_solver. Qed.

Lemma wp_run {A} (m : ST S A) (Q : A → S → Prop) s :
  wp m Q s ↔ ∃ a s', m s = Ok (a, s') ∧ Q a s'.
Proof.
  unfold wp. destruct (m s) as [[a s']|] eqn:E; split; [|naive_solver| |naive_solver].
  - intros HQ. by exists a, s'.
  - done.
Qed.

Lemma wp_zoom {T A} (get : S → T) (set : T → S → S) (m : ST T A) (Q : A → S → Prop) s :
  wp m (λ a t, Q a (set t s)) (get s) → wp (zoom get set m) Q s.
Proof. unfold wp, zoom. destruct (m (get s)) as [[a t]|]; done. Qed.

Lemma bind_run {A B} (m : ST S A) (f : A → ST S B) s a s' :
  m s = Ok (a, s') → (m ≫= f) s = f a s'.
Proof. unfold mbind, ST_mbind. by intros ->. Qed.

Lemma bind_cases {A B} (m : ST S A) (f : A → ST S B) s :
  (m ≫= f) s = match m s with Ok (a, s') => f a s' | UB => UB end.
Proof. reflexivity. Qed.

(** The body [m] leaves the loop after [n] rounds that go on. *)
Inductive ends_after {A} (m : ST S (option A)) : nat → S → A → S → Prop :=
| ends_now s a s' : m s = Ok (Some a, s') → ends_after m O s a s'
| ends_later n s s1 a s' : m s = Ok (None, s1) → ends_after m n s1 a s' → ends_after m (Datatypes.S n) s a s'.

Lemma iter_until_split {A} p (m : ST S (option A)) : ∀ n s a s', ends_after m n s a s' →
  if (n <? Pos.to_nat p)%nat then iter_until p m s = Ok (Some a, s')
  else ∃ s1, iter_until p m s = Ok (None, s1) ∧ ends_after m (n - Pos.to_nat p) s1 a s'.
Proof.
  assert (∀ p n s a s', (∀ n s a s', ends_after m n s a s' →
      if (n <? Pos.to_nat p)%nat then iter_until p m s = Ok (Some a, s')
      else ∃ s1, iter_until p m s = Ok (None, s1) ∧ ends_after m (n - Pos.to_nat p) s1 a s') →
    ends_after m n s a s' →
    if (n <? Pos.to_nat (xO p))%nat then iter_until (xO p) m s = Ok (Some a, s')
    else ∃ s1, iter_until (xO p) m s = Ok (None, s1) ∧ ends_after m (n - Pos.to_nat (xO p)) s1 a s') as Hdouble.
  { clear p. intros p n s a s' IH Hn. pose proof (IH n s a s' Hn) as H. cbn [iter_until].
    rewrite bind_cases. rewrite Pos2Nat.inj_xO.
    destruct (Nat.ltb_spec n (Pos.to_nat p)) as [Hlt|Hge].
    - destruct (Nat.ltb_spec n (2 * Pos.to_nat p)); [|lia]. by rewrite H.
    - destruct H as (s1 & -> & H1). specialize (IH _ _ _ _ H1).
      destruct (Nat.ltb_spec (n - Pos.to_nat p) (Pos.to_nat p)), (Nat.ltb_spec n (2 * Pos.to_nat p)); try lia; [done|].
      replace (n - 2 * Pos.to_nat p)%nat with (n - Pos.to_nat p - Pos.to_nat p)%nat by lia. done. }
  induction p as [p IH|p IH|]; intros n s a s' Hn; [|by apply Hdouble|].
  - rewrite Pos2Nat.inj_xI. cbn [iter_until]. destruct Hn as [s a s' E|n s s1 a s' E Hn]; rewrite bind_cases, E; [done|].
    specialize (Hdouble p n s1 a s' IH Hn). rewrite Pos2Nat.inj_xO in Hdouble. exact Hdouble.
  - destruct Hn as [s a s' E|n s s1 a s' E Hn]; cbn; rewrite E; [done|].
    exists s1. split; [done|]. by destruct n.
Qed.

Lemma iter_until_ends {A} p (m : ST S (option A)) n s a s' :
  ends_after m n s a s' → (n < Pos.to_nat p)%nat → iter_until p m s = Ok (Some a, s').
Proof.
  intros Hn Hp. pose proof (iter_until_split p m n s a s' Hn) as H.
  by destruct (Nat.ltb_spec n (Pos.to_nat p)); [|lia].
Qed.

Lemma loop_until_ends {A} p (m : ST S (option A)) n s a s' :
  ends_after m n s a s' → (n < Pos.to_nat p)%nat → loop_until p m s = Ok (a, s').
Proof. intros Hn Hp. unfold loop_until. by erewrite bind_run by by eapply iter_until_ends. Qed.
End wp_rules.

(** ** Notations of C operators *)

Declare Scope c_scope.
Delimit Scope c_scope with C.
Notation "a .& b" := (Z.land a b) (at level 38, left associativity) : c_scope.
Notation "a .| b" := (Z.lor a b) (at level 42, left associativity) : c_scope.
Notation "a .^ b" := (Z.lxor a b) (at level 40, left associativity) : c_scope.
Open Scope c_scope.

(** ** Automation *)

(** Lengths of composed lists, by normalisation and [lia]. *)
Create Rewrite HintDb lengths.
#[export] Hint Rewrite @length_app @length_take @length_drop @length_replicate @length_insert
  @length_fmap : lengths.

Ltac len := repeat (progress (autorewrite with lengths; cbn [length])); lia.

(** Case analysis on every comparison of integers in the goal. *)
Ltac cells :=
  repeat match goal with
  | |- context [?a =? ?b] => destruct (Z.eqb_spec a b)
  | |- context [?a <=? ?b] => destruct (Z.leb_spec a b)
  | |- context [?a <? ?b] => destruct (Z.ltb_spec a b)
  end; cbn [andb orb negb]; try (lia || done).

Lemma bind_ok {A B} (a : A) (f : A → outcome B) : (Ok a ≫= f) = f a.
Proof. reflexivity. Qed.

(** One step of an evaluated bind in the [outcome] monad. *)
Ltac obind := cbn [mbind mret outcome_mbind outcome_mret outcome_bind].

(** ** Bounded integers *)

Lemma u8_range z : byte (u8 z).
Proof. apply Z.mod_pos_bound. lia. Qed.
Lemma u32_range z : word32 (u32 z).
Proof. apply Z.mod_pos_bound. lia. Qed.
Lemma u8_id z : byte z → u8 z = z.
Proof. apply Z.mod_small. Qed.
Lemma u32_id z : word32 z → u32 z = z.
Proof. apply Z.mod_small. Qed.
Lemma s32_range z : - 2 ^ 31 <= s32 z < 2 ^ 31.
Proof. unfold s32. pose proof (Z.mod_pos_bound (z + 2 ^ 31) (2 ^ 32) ltac:(lia)). lia. Qed.
Lemma s32_id z : - 2 ^ 31 <= z < 2 ^ 31 → s32 z = z.
Proof. intros. unfold s32. rewrite Z.mod_small; lia. Qed.

(** Ranges of machine integers, for [auto with machine]. *)
Create HintDb machine.
#[export] Hint Resolve u8_range u32_range s32_range : machine.
#[export] Hint Unfold byte word32 : machine.


(** A nonnegative integer is below [2 ^ n] exactly when its bits from [n] up
    are clear; the bound lemmas of the bitwise operators follow. *)
Lemma bits_above_bound a n :
  0 <= n → 0 <= a → (∀ i, n <= i → Z.testbit a i = false) → a < 2 ^ n.
Proof.
  intros Hn Ha Hbits. destruct (Z.lt_ge_cases a (2 ^ n)) as [|Hge]; [done|].
  assert (0 < a) as Hpos by (pose proof (Z.pow_pos_nonneg 2 n); lia).
  pose proof (Z.bit_log2 a Hpos) as Hb.
  rewrite Hbits in Hb; [done|]. rewrite <- (Z.log2_pow2 n) by done.
  by apply Z.log2_le_mono.
Qed.

Lemma testbit_above a n i : 0 <= a < 2 ^ n → n <= i → Z.testbit a i = false.
Proof.
  intros [Ha Hlt] Hi. destruct (decide (a = 0)) as [->|]; [apply Z.bits_0|].
  apply Z.bits_above_log2; [done|]. apply Z.log2_lt_pow2; [lia|].
  eapply Z.lt_le_trans; [exact Hlt|]. apply Z.pow_le_mono_r; lia.
Qed.

Lemma lxor_bound a b n :
  0 <= n → 0 <= a < 2 ^ n → 0 <= b < 2 ^ n → 0 <= Z.lxor a b < 2 ^ n.
Proof.
  intros Hn Ha Hb. assert (0 <= Z.lxor a b) by (apply Z.lxor_nonneg; lia).
  split; [done|]. apply bits_above_bound; [done..|]. intros i Hi.
  rewrite Z.lxor_spec. by rewrite (testbit_above a n), (testbit_above b n).
Qed.

Lemma lor_bound a b n :
  0 <= n → 0 <= a < 2 ^ n → 0 <= b < 2 ^ n → 0 <= Z.lor a b < 2 ^ n.
Proof.
  intros Hn Ha Hb. assert (0 <= Z.lor a b) by (apply Z.lor_nonneg; lia).
  split; [done|]. apply bits_above_bound; [done..|]. intros i Hi.
  rewrite Z.lor_spec. by rewrite (testbit_above a n), (testbit_above b n).
Qed.

Lemma land_bound a b n :
  0 <= n → 0 <= a → 0 <= b < 2 ^ n → 0 <= Z.land a b < 2 ^ n.
Proof.
  intros Hn Ha Hb. assert (0 <= Z.land a b) by (apply Z.land_nonneg; lia).
  split; [done|]. apply bits_above_bound; [done..|]. intros i Hi.
  rewrite Z.land_spec. by rewrite (testbit_above b n), andb_false_r.
Qed.

Lemma shiftr_bound a k n : 0 <= k → 0 <= n → 0 <= a < 2 ^ n → 0 <= Z.shiftr a k < 2 ^ n.
Proof.
  intros Hk Hn Ha. rewrite Z.shiftr_div_pow2 by done.
  assert (0 < 2 ^ k) by (apply Z.pow_pos_nonneg; lia). split.
  - apply Z.div_pos; lia.
  - apply Z.le_lt_trans with a; [|lia]. apply Z.div_le_upper_bound; nia.
Qed.

(** ** Little-endian words *)

Fixpoint le_bytes (n : nat) (z : Z) : list Z :=
  match n with
  | O => []
  | S n' => z mod 256 :: le_bytes n' (z / 256)
  end.

Fixpoint le_val (l : list Z) : Z :=
  match l with
  | [] => 0
  | b :: l' => b + 256 * le_val l'
  end.

Lemma length_le_bytes n z : length (le_bytes n z) = n.
Proof. revert z; induction n; intros; simpl; auto. Qed.

Lemma le_bytes_byte n z : Forall byte (le_bytes n z).
Proof.
  revert z; induction n; intros; simpl; constructor; auto.
  apply Z.mod_pos_bound. lia.
Qed.

Lemma le_val_bytes n z : 0 <= z < 256 ^ Z.of_nat n → le_val (le_bytes n z) = z.
Proof.
  revert z. induction n as [|n IH]; intros z Hz.
  - simpl in *. change (256 ^ Z.of_nat 0) with 1 in Hz. lia.
  - cbn [le_bytes le_val]. rewrite Nat2Z.inj_succ, Z.pow_succ_r in Hz by lia.
    rewrite IH; [|split; [apply Z.div_pos|apply Z.div_lt_upper_bound]; lia].
    rewrite Z.add_comm. symmetry. apply Z.div_mod. lia.
Qed.

Lemma le_bytes_val l : Forall byte l → le_bytes (length l) (le_val l) = l.
Proof.
  induction 1 as [|b l Hb Hl IH]; [done|]. cbn [length le_bytes le_val]. unfold byte in Hb.
  rewrite Z.mul_comm, Z.mod_add, Z.mod_small, Z.div_add, Z.div_small by lia.
  by rewrite Z.add_0_l, IH.
Qed.

Lemma le_val_range l : Forall byte l → 0 <= le_val l < 256 ^ Z.of_nat (length l).
Proof.
  induction 1 as [|b l Hb Hl IH]; [simpl; lia|].
  cbn [length le_val]. rewrite Nat2Z.inj_succ, Z.pow_succ_r by lia. unfold byte in Hb. lia.
Qed.

(** ** Byte memory

    A region of memory the program indexes is a total function from indices to
    bytes; a C object with a size is such a function together with the bounds
    its accesses are checked against. *)

Definition mem := Z → Z.

Definition mem_set (m : mem) (a v : Z) : mem := λ x, if x =? a then v else m x.

(** [memcpy]/[memset] on a destination region [dst, dst + n). *)
Definition mem_copy (m : mem) (dst : Z) (src : mem) (soff n : Z) : mem :=
  λ x, if (dst <=? x) && (x <? dst + n) then src (soff + (x - dst)) else m x.
Definition mem_fill (m : mem) (dst v n : Z) : mem :=
  λ x, if (dst <=? x) && (x <? dst + n) then v else m x.

(** The bytes [off, off + n) of a memory, and a memory that starts with the
    bytes of a list. *)
Definition mem_read (m : mem) (off : Z) (n : nat) : list Z :=
  map (λ i, m (off + Z.of_nat i)) (seq 0 n).
Arguments mem_read : simpl never.
Definition mem_of_list (l : list Z) : mem := λ x, if x <? 0 then 0 else nth (Z.to_nat x) l 0.

Lemma mem_set_eq m a v : mem_set m a v a = v.
Proof. unfold mem_set. by rewrite Z.eqb_refl. Qed.
Lemma mem_set_ne m a v x : x ≠ a → mem_set m a v x = m x.
Proof. intros H. unfold mem_set. by rewrite (proj2 (Z.eqb_neq _ _) H). Qed.

Lemma mem_copy_in m dst src soff n x :
  dst <= x < dst + n → mem_copy m dst src soff n x = src (soff + (x - dst)).
Proof.
  intros H. unfold mem_copy. destruct (Z.leb_spec dst x), (Z.ltb_spec x (dst + n)); simpl; lia || done.
Qed.
Lemma mem_copy_out m dst src soff n x :
  x < dst ∨ dst + n <= x → mem_copy m dst src soff n x = m x.
Proof.
  intros H. unfold mem_copy. destruct (Z.leb_spec dst x), (Z.ltb_spec x (dst + n)); simpl; lia || done.
Qed.
Lemma mem_fill_in m dst v n x : dst <= x < dst + n → mem_fill m dst v n x = v.
Proof.
  intros H. unfold mem_fill. destruct (Z.leb_spec dst x), (Z.ltb_spec x (dst + n)); simpl; lia || done.
Qed.
Lemma mem_fill_out m dst v n x : x < dst ∨ dst + n <= x → mem_fill m dst v n x = m x.
Proof.
  intros H. unfold mem_fill. destruct (Z.leb_spec dst x), (Z.ltb_spec x (dst + n)); simpl; lia || done.
Qed.

Lemma length_mem_read m off n : length (mem_read m off n) = n.
Proof. unfold mem_read. by rewrite length_map, length_seq. Qed.

Lemma mem_read_lookup m off n i :
  (i < n)%nat → mem_read m off n !! i = Some (m (off + Z.of_nat i)).
Proof.
  intros Hi. unfold mem_read. rewrite list_lookup_fmap, lookup_seq_lt by done. done.
Qed.

Lemma mem_read_ext m m' off off' n :
  (∀ i, 0 <= i < Z.of_nat n → m (off + i) = m' (off' + i)) →
  mem_read m off n = mem_read m' off' n.
Proof.
  intros H. apply map_ext_in. intros i Hi. apply in_seq in Hi. apply H. lia.
Qed.

Lemma mem_read_of_list l : mem_read (mem_of_list l) 0 (length l) = l.
Proof.
  apply list_eq. intros i. destruct (decide (i < length l)%nat) as [Hi|Hi].
  - rewrite mem_read_lookup by done. unfold mem_of_list.
    destruct (Z.ltb_spec (0 + Z.of_nat i) 0); [lia|].
    rewrite Z.add_0_l, Nat2Z.id. destruct (lookup_lt_is_Some_2 l i Hi) as [v Hv].
    rewrite Hv. f_equal. by apply nth_lookup_Some.
  - rewrite !lookup_ge_None_2; [done|lia|rewrite length_mem_read; lia].
Qed.
