(* ===== verification/Crc32.v ===== *)
(** * CRC-32 ([src/lib/misc/crc32.c])

    The checksum that protects the settings saved in flash.  [table],
    [UPDC32] and [crc32buf] are the source's table-driven routine;
    [bit_step] and [crc_ref] are the shift-register definition of the same
    checksum, one bit at a time, that the source's comments describe.  The
    routine is shown to compute the register's value, and the checksum to
    separate any two messages that differ only within four consecutive
    bytes. *)

From S2P Require Import Prelude.

Module Crc32.

(** Table of feedback terms, CRC polynomial 0xedb88320. *)
Definition table : list Z :=
  [
   0x00000000; 0x77073096; 0xee0e612c; 0x990951ba; 0x076dc419; 0x706af48f;
   0xe963a535; 0x9e6495a3; 0x0edb8832; 0x79dcb8a4; 0xe0d5e91e; 0x97d2d988;
   0x09b64c2b; 0x7eb17cbd; 0xe7b82d07; 0x90bf1d91; 0x1db71064; 0x6ab020f2;
   0xf3b97148; 0x84be41de; 0x1adad47d; 0x6ddde4eb; 0xf4d4b551; 0x83d385c7;
   0x136c9856; 0x646ba8c0; 0xfd62f97a; 0x8a65c9ec; 0x14015c4f; 0x63066cd9;
   0xfa0f3d63; 0x8d080df5; 0x3b6e20c8; 0x4c69105e; 0xd56041e4; 0xa2677172;
   0x3c03e4d1; 0x4b04d447; 0xd20d85fd; 0xa50ab56b; 0x35b5a8fa; 0x42b2986c;
   0xdbbbc9d6; 0xacbcf940; 0x32d86ce3; 0x45df5c75; 0xdcd60dcf; 0xabd13d59;
   0x26d930ac; 0x51de003a; 0xc8d75180; 0xbfd06116; 0x21b4f4b5; 0x56b3c423;
   0xcfba9599; 0xb8bda50f; 0x2802b89e; 0x5f058808; 0xc60cd9b2; 0xb10be924;
   0x2f6f7c87; 0x58684c11; 0xc1611dab; 0xb6662d3d; 0x76dc4190; 0x01db7106;
   0x98d220bc; 0xefd5102a; 0x71b18589; 0x06b6b51f; 0x9fbfe4a5; 0xe8b8d433;
   0x7807c9a2; 0x0f00f934; 0x9609a88e; 0xe10e9818; 0x7f6a0dbb; 0x086d3d2d;
   0x91646c97; 0xe6635c01; 0x6b6b51f4; 0x1c6c6162; 0x856530d8; 0xf262004e;
   0x6c0695ed; 0x1b01a57b; 0x8208f4c1; 0xf50fc457; 0x65b0d9c6; 0x12b7e950;
   0x8bbeb8ea; 0xfcb9887c; 0x62dd1ddf; 0x15da2d49; 0x8cd37cf3; 0xfbd44c65;
   0x4db26158; 0x3ab551ce; 0xa3bc0074; 0xd4bb30e2; 0x4adfa541; 0x3dd895d7;
   0xa4d1c46d; 0xd3d6f4fb; 0x4369e96a; 0x346ed9fc; 0xad678846; 0xda60b8d0;
   0x44042d73; 0x33031de5; 0xaa0a4c5f; 0xdd0d7cc9; 0x5005713c; 0x270241aa;
   0xbe0b1010; 0xc90c2086; 0x5768b525; 0x206f85b3; 0xb966d409; 0xce61e49f;
   0x5edef90e; 0x29d9c998; 0xb0d09822; 0xc7d7a8b4; 0x59b33d17; 0x2eb40d81;
   0xb7bd5c3b; 0xc0ba6cad; 0xedb88320; 0x9abfb3b6; 0x03b6e20c; 0x74b1d29a;
   0xead54739; 0x9dd277af; 0x04db2615; 0x73dc1683; 0xe3630b12; 0x94643b84;
   0x0d6d6a3e; 0x7a6a5aa8; 0xe40ecf0b; 0x9309ff9d; 0x0a00ae27; 0x7d079eb1;
   0xf00f9344; 0x8708a3d2; 0x1e01f268; 0x6906c2fe; 0xf762575d; 0x806567cb;
   0x196c3671; 0x6e6b06e7; 0xfed41b76; 0x89d32be0; 0x10da7a5a; 0x67dd4acc;
   0xf9b9df6f; 0x8ebeeff9; 0x17b7be43; 0x60b08ed5; 0xd6d6a3e8; 0xa1d1937e;
   0x38d8c2c4; 0x4fdff252; 0xd1bb67f1; 0xa6bc5767; 0x3fb506dd; 0x48b2364b;
   0xd80d2bda; 0xaf0a1b4c; 0x36034af6; 0x41047a60; 0xdf60efc3; 0xa867df55;
   0x316e8eef; 0x4669be79; 0xcb61b38c; 0xbc66831a; 0x256fd2a0; 0x5268e236;
   0xcc0c7795; 0xbb0b4703; 0x220216b9; 0x5505262f; 0xc5ba3bbe; 0xb2bd0b28;
   0x2bb45a92; 0x5cb36a04; 0xc2d7ffa7; 0xb5d0cf31; 0x2cd99e8b; 0x5bdeae1d;
   0x9b64c2b0; 0xec63f226; 0x756aa39c; 0x026d930a; 0x9c0906a9; 0xeb0e363f;
   0x72076785; 0x05005713; 0x95bf4a82; 0xe2b87a14; 0x7bb12bae; 0x0cb61b38;
   0x92d28e9b; 0xe5d5be0d; 0x7cdcefb7; 0x0bdbdf21; 0x86d3d2d4; 0xf1d4e242;
   0x68ddb3f8; 0x1fda836e; 0x81be16cd; 0xf6b9265b; 0x6fb077e1; 0x18b74777;
   0x88085ae6; 0xff0f6a70; 0x66063bca; 0x11010b5c; 0x8f659eff; 0xf862ae69;
   0x616bffd3; 0x166ccf45; 0xa00ae278; 0xd70dd2ee; 0x4e048354; 0x3903b3c2;
   0xa7672661; 0xd06016f7; 0x4969474d; 0x3e6e77db; 0xaed16a4a; 0xd9d65adc;
   0x40df0b66; 0x37d83bf0; 0xa9bcae53; 0xdebb9ec5; 0x47b2cf7f; 0x30b5ffe9;
   0xbdbdf21c; 0xcabac28a; 0x53b39330; 0x24b4a3a6; 0xbad03605; 0xcdd70693;
   0x54de5729; 0x23d967bf; 0xb3667a2e; 0xc4614ab8; 0x5d681b02; 0x2a6f2b94;
   0xb40bbe37; 0xc30c8ea1; 0x5a05df1b; 0x2d02ef8d
  ].

Definition UPDC32 (octet crc : Z) : Z :=
  Z.lxor (nth (Z.to_nat (Z.land (Z.lxor crc octet) 0xFF)) table 0) (Z.shiftr crc 8).

(** The loop of [crc32buf]; [n] counts the iterations left.  A read past the
    end of the buffer is undefined. *)
Fixpoint crc32_loop (n nbytes : nat) (buf : list Z) (state : Z) : outcome Z :=
  match n with
  | O => Ok state
  | S n' =>
      match buf !! nbytes with
      | Some o => crc32_loop n' (S nbytes) buf (UPDC32 o state)
      | None => UB
      end
  end.

(** [nbytes < len] compares as [unsigned int]. *)
Definition crc32buf (buf : list Z) (len : Z) : outcome Z :=
  crc32_loop (Z.to_nat (u32 len)) 0 buf 0xFFFFFFFF.

(** ** The shift register *)

Definition poly : Z := 0xedb88320.

Definition bit_step (c : Z) : Z :=
  if Z.odd c then Z.lxor (Z.shiftr c 1) poly else Z.shiftr c 1.

(** One message octet: it enters the low bits of the register, which is then
    clocked eight times. *)
Definition crc_octet (c octet : Z) : Z := Nat.iter 8 bit_step (Z.lxor c octet).

Definition crc_ref (msg : list Z) : Z := foldl crc_octet 0xFFFFFFFF msg.

(** *** The register is linear over exclusive or *)

Lemma bit_step_lxor a b : bit_step (Z.lxor a b) = Z.lxor (bit_step a) (bit_step b).
Proof.
  unfold bit_step. rewrite Z.shiftr_lxor, <- !Z.bit0_odd, Z.lxor_spec.
  destruct (Z.testbit a 0), (Z.testbit b 0); simpl; try done.
  - rewrite (Z.lxor_comm (Z.shiftr b 1) poly), Z.lxor_assoc, <- (Z.lxor_assoc poly).
    by rewrite Z.lxor_nilpotent, Z.lxor_0_l.
  - by rewrite !Z.lxor_assoc, (Z.lxor_comm poly).
  - by rewrite Z.lxor_assoc.
Qed.

Lemma iter_step_lxor n a b :
  Nat.iter n bit_step (Z.lxor a b) = Z.lxor (Nat.iter n bit_step a) (Nat.iter n bit_step b).
Proof. induction n as [|n IH]; simpl; [done|]. by rewrite IH, bit_step_lxor. Qed.

Lemma bit_step_range c : word32 c → word32 (bit_step c).
Proof.
  unfold word32, bit_step. intros Hc.
  assert (0 <= Z.shiftr c 1 < 2 ^ 32) by (apply shiftr_bound; lia).
  destruct (Z.odd c); [|done]. apply lxor_bound; unfold poly; lia.
Qed.

Lemma iter_step_range n c : word32 c → word32 (Nat.iter n bit_step c).
Proof. induction n; simpl; auto using bit_step_range. Qed.

(** Clocking an even register is a shift, so the bits above the lowest eight
    only move down during an octet. *)
Lemma bit_step_even c : bit_step (2 * c) = c.
Proof.
  unfold bit_step. rewrite Z.odd_mul. simpl. rewrite Z.shiftr_div_pow2 by lia.
  change (2 ^ 1) with 2. by rewrite Z.mul_comm, Z.div_mul by lia.
Qed.

Lemma iter_step_shift n c : Nat.iter n bit_step (2 ^ Z.of_nat n * c) = c.
Proof.
  revert c. induction n as [|n IH]; intros c; [by rewrite Z.mul_1_l|].
  rewrite Nat.iter_succ_r, Nat2Z.inj_succ, Z.pow_succ_r by lia.
  by rewrite <- Z.mul_assoc, bit_step_even.
Qed.

(** The register's two parts: [c] is the exclusive or of its low [n] bits and
    of the rest. *)
Lemma split_low n c :
  0 <= n → Z.lxor (Z.land c (Z.ones n)) (2 ^ n * Z.shiftr c n) = c.
Proof.
  intros Hn. rewrite Z.mul_comm, <- Z.shiftl_mul_pow2 by done.
  apply Z.bits_inj'. intros i Hi. rewrite Z.lxor_spec, Z.land_spec.
  destruct (Z.lt_ge_cases i n).
  - rewrite Z.ones_spec_low, Z.shiftl_spec_low by lia.
    by rewrite andb_true_r, xorb_false_r.
  - rewrite Z.ones_spec_high, Z.shiftl_spec, Z.shiftr_spec by lia.
    rewrite andb_false_r, xorb_false_l. f_equal; lia.
Qed.

(** The table holds the register's value after eight clocks of each octet. *)
Lemma table_steps i : 0 <= i < 256 → nth (Z.to_nat i) table 0 = Nat.iter 8 bit_step i.
Proof.
  assert (forallb (λ k, nth k table 0 =? Nat.iter 8 bit_step (Z.of_nat k)) (seq 0 256) = true)
    as H by (vm_compute; reflexivity).
  intros Hi. rewrite forallb_forall in H. specialize (H (Z.to_nat i)).
  rewrite Z2Nat.id in H by lia. apply Z.eqb_eq, H, in_seq. lia.
Qed.

Lemma UPDC32_octet o c : byte o → UPDC32 o c = crc_octet c o.
Proof.
  intros Ho. unfold UPDC32, crc_octet. rewrite <- (split_low 8 (Z.lxor c o)) at 2 by lia.
  change (Z.ones 8) with 0xFF. rewrite iter_step_lxor, (iter_step_shift 8).
  assert (0 <= Z.land (Z.lxor c o) 0xFF < 256) as Hl.
  { change 0xFF with (Z.ones 8). rewrite Z.land_ones by lia. apply Z.mod_pos_bound. lia. }
  rewrite table_steps by done. f_equal. rewrite Z.shiftr_lxor.
  rewrite (Z.shiftr_div_pow2 o) by lia.
  rewrite (Z.div_small o) by done. by rewrite Z.lxor_0_r.
Qed.

Lemma foldl_UPDC32 msg c :
  Forall byte msg → foldl (λ st o, UPDC32 o st) c msg = foldl crc_octet c msg.
Proof.
  intros H. revert c. induction H as [|o msg Ho _ IH]; intros c; simpl; [done|].
  by rewrite UPDC32_octet, IH.
Qed.

Lemma crc32_loop_foldl n k buf c :
  (k + n <= length buf)%nat →
  crc32_loop n k buf c = Ok (foldl (λ st o, UPDC32 o st) c (take n (drop k buf))).
Proof.
  revert k c. induction n as [|n IH]; intros k c Hlen; [done|]. cbn [crc32_loop].
  destruct (lookup_lt_is_Some_2 buf k) as [o Ho]; [lia|].
  rewrite Ho, IH by lia. by rewrite (drop_S buf o k Ho).
Qed.

(** *** Injectivity *)

Lemma bit_step_zero c : word32 c → bit_step c = 0 → c = 0.
Proof.
  unfold word32, bit_step. intros Hc. rewrite Z.shiftr_div_pow2 by lia. change (2 ^ 1) with 2.
  destruct (Z.odd c) eqn:Hodd.
  - intros H%Z.lxor_eq. unfold poly in H.
    pose proof (Z.div_lt_upper_bound c 2 (2 ^ 31) ltac:(lia) ltac:(lia)). lia.
  - intros H. rewrite (Z.div_mod c 2), H by lia. rewrite Zmod_odd, Hodd. done.
Qed.

Lemma iter_step_inj n a b :
  word32 a → word32 b → Nat.iter n bit_step a = Nat.iter n bit_step b → a = b.
Proof.
  induction n as [|n IH]; simpl; [done|]. intros Ha Hb Heq. apply IH; [done..|].
  apply Z.lxor_eq, bit_step_zero; [apply lxor_bound; [lia|apply iter_step_range..]; done|].
  by rewrite bit_step_lxor, Heq, Z.lxor_nilpotent.
Qed.

Lemma crc_octet_range c o : word32 c → byte o → word32 (crc_octet c o).
Proof.
  unfold byte. intros Hc Ho. apply iter_step_range, lxor_bound; unfold word32 in *; lia.
Qed.

Lemma foldl_octet_range msg c :
  Forall byte msg → word32 c → word32 (foldl crc_octet c msg).
Proof.
  intros H. revert c. induction H; intros c Hc; simpl; auto using crc_octet_range.
Qed.

Lemma foldl_octet_inj msg a b :
  Forall byte msg → word32 a → word32 b →
  foldl crc_octet a msg = foldl crc_octet b msg → a = b.
Proof.
  intros H. revert a b. induction H as [|o msg Ho _ IH]; intros a b Ha Hb; simpl; [done|].
  intros Heq. apply IH in Heq; [|by apply crc_octet_range..].
  unfold byte, word32 in *. apply iter_step_inj in Heq; [|apply lxor_bound; lia..].
  apply (f_equal (λ z, Z.lxor z o)) in Heq.
  by rewrite !Z.lxor_assoc, !Z.lxor_nilpotent, !Z.lxor_0_r in Heq.
Qed.

Lemma lxor_octet b v : byte b → Z.lxor b (256 * v) = b + 256 * v.
Proof.
  intros Hb. symmetry. apply Z.add_nocarry_lxor. change 256 with (2 ^ 8).
  rewrite (Z.mul_comm _ v), <- Z.shiftl_mul_pow2 by lia.
  apply Z.bits_inj'. intros i Hi. rewrite Z.land_spec, Z.bits_0. destruct (Z.lt_ge_cases i 8).
  - by rewrite Z.shiftl_spec_low, andb_false_r.
  - by rewrite (testbit_above b 8).
Qed.

(** A run of octets is the register clocked on the little-endian word they
    spell: this is what makes the checksum a polynomial remainder. *)
Lemma foldl_octet_word msg c :
  Forall byte msg →
  foldl crc_octet c msg = Nat.iter (8 * length msg) bit_step (Z.lxor c (le_val msg)).
Proof.
  intros H. revert c. induction H as [|b msg Hb _ IH]; intros c.
  - cbn. by rewrite Z.lxor_0_r.
  - cbn [foldl length le_val]. rewrite IH. unfold crc_octet.
    rewrite <- (iter_step_shift 8 (le_val msg)) at 1. rewrite <- iter_step_lxor.
    change (2 ^ Z.of_nat 8) with 256.
    rewrite Z.lxor_assoc, lxor_octet, <- Nat.iter_add by done.
    f_equal. lia.
Qed.

Lemma crc32buf_eval buf len :
  Forall byte buf → 0 <= len <= Z.of_nat (length buf) → len < 2 ^ 31 →
  crc32buf buf len = Ok (crc_ref (take (Z.to_nat len) buf)).
Proof.
  intros Hb Hlen Hmax. unfold crc32buf, crc_ref. rewrite u32_id by (unfold word32; lia).
  rewrite crc32_loop_foldl by lia. rewrite drop_0, foldl_UPDC32; [done|].
  by apply Forall_take.
Qed.

(** ** Properties *)

(** C28: the table-driven [crc32buf] returns, for every buffer of octets and
    every length within it, the value of the bit-serial CRC shift register on
    the first [len] octets; no read leaves the buffer. *)
Theorem crc32buf_shift_register buf len :
  Forall byte buf → 0 <= len <= Z.of_nat (length buf) → len < 2 ^ 31 →
  crc32buf buf len = Ok (crc_ref (take (Z.to_nat len) buf)).
Proof. apply crc32buf_eval. Qed.

Lemma crc32buf_shift_register_witness :
  crc32buf [0x31; 0x32; 0x33; 0x34; 0x35; 0x36; 0x37; 0x38; 0x39] 9 = Ok 0x340BC6D9.
Proof.
  rewrite crc32buf_shift_register.
  - vm_compute. reflexivity.
  - repeat constructor; done.
  - simpl; lia.
  - lia.
Defined.

Lemma crc_ref_burst pre w1 w2 post :
  Forall byte pre → Forall byte w1 → Forall byte w2 → Forall byte post →
  length w1 = length w2 → (length w1 <= 4)%nat → w1 ≠ w2 →
  crc_ref (pre ++ w1 ++ post) ≠ crc_ref (pre ++ w2 ++ post).
Proof.
  intros Hpre H1 H2 Hpost Hlen Hle Hne. unfold crc_ref. rewrite !foldl_app.
  set (s := foldl crc_octet 0xFFFFFFFF pre).
  assert (word32 s) as Hs by (apply foldl_octet_range; [done|unfold word32; lia]).
  intros Heq. apply foldl_octet_inj in Heq; [|by auto using foldl_octet_range..].
  assert (∀ w, Forall byte w → (length w <= 4)%nat → word32 (Z.lxor s (le_val w))) as Hr.
  { intros w Hw Hl. pose proof (le_val_range w Hw) as Hv. unfold word32 in *.
    apply lxor_bound; [lia..|]. split; [lia|]. eapply Z.lt_le_trans; [apply Hv|].
    change (2 ^ 32) with (256 ^ 4). apply Z.pow_le_mono_r; lia. }
  rewrite !foldl_octet_word, <- Hlen in Heq by done.
  apply iter_step_inj in Heq; [|apply Hr; [done|lia]..].
  apply (f_equal (Z.lxor s)) in Heq. rewrite <- !Z.lxor_assoc, !Z.lxor_nilpotent in Heq.
  rewrite !Z.lxor_0_l in Heq. apply Hne.
  by rewrite <- (le_bytes_val w1), <- (le_bytes_val w2), Heq, Hlen.
Qed.

(** C29: the checksum detects every corruption confined to four consecutive
    octets: two buffers of the same length that agree outside such a window
    and differ in it have different checksums. *)
Theorem crc32buf_detects_burst pre w1 w2 post :
  Forall byte pre → Forall byte w1 → Forall byte w2 → Forall byte post →
  length w1 = length w2 → (length w1 <= 4)%nat → w1 ≠ w2 →
  Z.of_nat (length (pre ++ w1 ++ post)) < 2 ^ 31 →
  crc32buf (pre ++ w1 ++ post) (Z.of_nat (length (pre ++ w1 ++ post))) ≠
  crc32buf (pre ++ w2 ++ post) (Z.of_nat (length (pre ++ w1 ++ post))).
Proof.
  intros Hpre H1 H2 Hpost Hlen Hle Hne Hmax.
  assert (length (pre ++ w1 ++ post) = length (pre ++ w2 ++ post)) as Hl
    by (rewrite !length_app; lia).
  rewrite crc32buf_eval; [|by rewrite !Forall_app|lia|done].
  rewrite Hl, crc32buf_eval; [|by rewrite !Forall_app|lia|lia].
  rewrite Nat2Z.id. rewrite <- Hl at 1. rewrite !firstn_all.
  intros [= Heq]. by eapply crc_ref_burst in Heq.
Qed.

Lemma crc32buf_detects_burst_witness :
  crc32buf [1; 2; 3; 4; 5; 6] 6 ≠ crc32buf [1; 2; 9; 0; 5; 6] 6.
Proof.
  refine (crc32buf_detects_burst [1; 2] [3; 4] [9; 0] [5; 6] _ _ _ _ _ _ _ _);
    try (repeat constructor; done); try (simpl; lia); done.
Defined.

End Crc32.
