(* ===== verification/Blocks.v ===== *)
(** * Block-wise hashing

    What the MD5 and SHA-1 components share: 32-bit complement, checked copies
    between byte buffers, and the iteration of a compression function over the
    64-byte blocks of a message. *)

From S2P Require Import Prelude.

Definition not32 (x : Z) : Z := Z.lxor x 0xFFFFFFFF.

(** The [n] bytes of [l] at [off]; undefined when they leave the buffer. *)
Definition sub_bytes (l : list Z) (off n : Z) : outcome (list Z) :=
  if (0 <=? off) && (0 <=? n) && (off + n <=? Z.of_nat (length l))
  then Ok (take (Z.to_nat n) (drop (Z.to_nat off) l)) else UB.

(** [l] with the bytes [v] stored at [off]; undefined when they do not fit. *)
Definition put_bytes (l : list Z) (off : Z) (v : list Z) : outcome (list Z) :=
  if (0 <=? off) && (off + Z.of_nat (length v) <=? Z.of_nat (length l))
  then Ok (take (Z.to_nat off) l ++ v ++ drop (Z.to_nat off + length v) l) else UB.

Lemma sub_bytes_ok l off n :
  0 <= off → 0 <= n → off + n <= Z.of_nat (length l) →
  sub_bytes l off n = Ok (take (Z.to_nat n) (drop (Z.to_nat off) l)).
Proof.
  intros. unfold sub_bytes.
  destruct (Z.leb_spec 0 off), (Z.leb_spec 0 n), (Z.leb_spec (off + n) (Z.of_nat (length l)));
    simpl; done || lia.
Qed.

Lemma put_bytes_ok l off v :
  0 <= off → off + Z.of_nat (length v) <= Z.of_nat (length l) →
  put_bytes l off v = Ok (take (Z.to_nat off) l ++ v ++ drop (Z.to_nat off + length v) l).
Proof.
  intros. unfold put_bytes.
  destruct (Z.leb_spec 0 off), (Z.leb_spec (off + Z.of_nat (length v)) (Z.of_nat (length l)));
    simpl; done || lia.
Qed.

Section absorb.
Context {St : Type} (compress : St → list Z → St).

(** [absorb st m] compresses the whole 64-byte blocks of [m], in order, and
    returns the bytes left over. *)
Fixpoint absorb_fuel (n : nat) (st : St) (m : list Z) : St * list Z :=
  match n with
  | O => (st, m)
  | S n' =>
      if (64 <=? length m)%nat
      then absorb_fuel n' (compress st (take 64 m)) (drop 64 m)
      else (st, m)
  end.

Definition absorb (st : St) (m : list Z) : St * list Z := absorb_fuel (length m) st m.

Lemma absorb_fuel_enough n m st :
  (length m <= n)%nat → absorb_fuel n st m = absorb_fuel (length m) st m.
Proof.
  revert m st. induction n as [n IH] using lt_wf_ind. intros m st Hn.
  destruct n as [|n]; [by destruct m; simpl in *; [|lia]|].
  destruct (length m) as [|k] eqn:Hk.
  - cbn [absorb_fuel]. by rewrite Hk.
  - cbn [absorb_fuel]. rewrite Hk. destruct (Nat.leb_spec 64 (S k)); [|done].
    rewrite (IH n), (IH k); [done|lia|rewrite length_drop; lia|lia|rewrite length_drop; lia].
Qed.

Lemma absorb_short st m : (length m < 64)%nat → absorb st m = (st, m).
Proof.
  intros Hm. unfold absorb. destruct (length m) eqn:E; [done|]. cbn [absorb_fuel].
  rewrite E. by rewrite (proj2 (Nat.leb_gt 64 _) Hm).
Qed.

Lemma absorb_block st m :
  (64 <= length m)%nat → absorb st m = absorb (compress st (take 64 m)) (drop 64 m).
Proof.
  intros Hm. unfold absorb. destruct (length m) eqn:E; [lia|]. cbn [absorb_fuel].
  rewrite E, (proj2 (Nat.leb_le 64 _) Hm). apply absorb_fuel_enough.
  rewrite length_drop. lia.
Qed.

(** Absorbing a concatenation: what the first part leaves over is put in
    front of the second part. *)
Lemma absorb_app st a b :
  absorb st (a ++ b) = let '(st', r) := absorb st a in absorb st' (r ++ b).
Proof.
  remember (length a) as n eqn:Hn. revert st a Hn.
  induction n as [n IH] using lt_wf_ind. intros st a ->.
  destruct (decide (length a < 64)%nat) as [Ha|Ha].
  - by rewrite (absorb_short st a).
  - rewrite (absorb_block st (a ++ b)) by (rewrite length_app; lia).
    rewrite (absorb_block st a), take_app_le, drop_app_le by lia.
    apply (IH (length (drop 64 a))); rewrite ?length_drop; lia.
Qed.

Lemma absorb_tail st m : (length (absorb st m).2 < 64)%nat.
Proof.
  remember (length m) as n eqn:Hn. revert st m Hn.
  induction n as [n IH] using lt_wf_ind. intros st m ->.
  destruct (decide (length m < 64)%nat); [by rewrite absorb_short|].
  rewrite absorb_block by lia. apply (IH (length (drop 64 m))); rewrite ?length_drop; lia.
Qed.

Lemma absorb_tail_mod st m :
  Z.of_nat (length (absorb st m).2) = Z.of_nat (length m) mod 64.
Proof.
  remember (length m) as n eqn:Hn. revert st m Hn.
  induction n as [n IH] using lt_wf_ind. intros st m ->.
  destruct (decide (length m < 64)%nat).
  - rewrite absorb_short by done. simpl. rewrite Z.mod_small; lia.
  - rewrite absorb_block by lia.
    rewrite (IH (length (drop 64 m))); rewrite ?length_drop; [|lia|done].
    rewrite Nat2Z.inj_sub by lia.
    rewrite <- (Z.mod_add _ 1 64) by lia. f_equal. lia.
Qed.
End absorb.
