(* ===== verification/Md5.v ===== *)
(** * MD5 ([src/lib/crypt/md5.c], [src/lib/crypt/md5.h])

    The digest that authenticates an XBlast OS image before it is flashed.
    The context, [MD5Init], [MD5Update], [MD5Final], [MD5Transform], [Encode]
    and [Decode] are the source's.  [md5_padded] is the message of RFC 1321 the
    digest is a function of; the theorems show that feeding a message in any
    pieces gives the digest of the whole message. *)

From S2P Require Import Prelude Blocks.

Module Md5.

(** ** Data *)

Record MD5_CTX := mkMD5 {
  state : Z * Z * Z * Z;
  count0 : Z;
  count1 : Z;
  buffer : list Z
}.

Definition S11 : Z := 7.
Definition S12 : Z := 12.
Definition S13 : Z := 17.
Definition S14 : Z := 22.
Definition S21 : Z := 5.
Definition S22 : Z := 9.
Definition S23 : Z := 14.
Definition S24 : Z := 20.
Definition S31 : Z := 4.
Definition S32 : Z := 11.
Definition S33 : Z := 16.
Definition S34 : Z := 23.
Definition S41 : Z := 6.
Definition S42 : Z := 10.
Definition S43 : Z := 15.
Definition S44 : Z := 21.

Definition PADDING : list Z := 0x80 :: replicate 63 0.

(** ** The compression function *)

Definition F (x y z : Z) : Z := Z.lor (Z.land x y) (Z.land (not32 x) z).
Definition G (x y z : Z) : Z := Z.lor (Z.land x z) (Z.land y (not32 z)).
Definition H (x y z : Z) : Z := Z.lxor (Z.lxor x y) z.
Definition I (x y z : Z) : Z := Z.lxor y (Z.lor x (not32 z)).

Definition ROTATE_LEFT (x n : Z) : Z := Z.lor (u32 (Z.shiftl x n)) (Z.shiftr x (32 - n)).

Definition FF (a b c d x s ac : Z) : Z := u32 (ROTATE_LEFT (u32 (a + (F b c d + x + ac))) s + b).
Definition GG (a b c d x s ac : Z) : Z := u32 (ROTATE_LEFT (u32 (a + (G b c d + x + ac))) s + b).
Definition HH (a b c d x s ac : Z) : Z := u32 (ROTATE_LEFT (u32 (a + (H b c d + x + ac))) s + b).
Definition II (a b c d x s ac : Z) : Z := u32 (ROTATE_LEFT (u32 (a + (I b c d + x + ac))) s + b).

(** [Decode]: word [i] of the block; [Encode]: the octets of a word list. *)
Definition Decode (block : list Z) (i : nat) : Z :=
  let b k := nth (4 * i + k) block 0 in
  Z.lor (Z.lor (Z.lor (b 0%nat) (Z.shiftl (b 1%nat) 8)) (Z.shiftl (b 2%nat) 16))
        (Z.shiftl (b 3%nat) 24).

Definition Encode (input : list Z) : list Z :=
  flat_map (λ w, [Z.land w 0xff; Z.land (Z.shiftr w 8) 0xff;
                  Z.land (Z.shiftr w 16) 0xff; Z.land (Z.shiftr w 24) 0xff]) input.

Definition MD5Transform (st : Z * Z * Z * Z) (block : list Z) : Z * Z * Z * Z :=
  let '(s0, s1, s2, s3) := st in
  let x := Decode block in
  let a := s0 in let b := s1 in let c := s2 in let d := s3 in
  let a := FF a b c d (x 0%nat) S11 0xd76aa478 in
  let d := FF d a b c (x 1%nat) S12 0xe8c7b756 in
  let c := FF c d a b (x 2%nat) S13 0x242070db in
  let b := FF b c d a (x 3%nat) S14 0xc1bdceee in
  let a := FF a b c d (x 4%nat) S11 0xf57c0faf in
  let d := FF d a b c (x 5%nat) S12 0x4787c62a in
  let c := FF c d a b (x 6%nat) S13 0xa8304613 in
  let b := FF b c d a (x 7%nat) S14 0xfd469501 in
  let a := FF a b c d (x 8%nat) S11 0x698098d8 in
  let d := FF d a b c (x 9%nat) S12 0x8b44f7af in
  let c := FF c d a b (x 10%nat) S13 0xffff5bb1 in
  let b := FF b c d a (x 11%nat) S14 0x895cd7be in
  let a := FF a b c d (x 12%nat) S11 0x6b901122 in
  let d := FF d a b c (x 13%nat) S12 0xfd987193 in
  let c := FF c d a b (x 14%nat) S13 0xa679438e in
  let b := FF b c d a (x 15%nat) S14 0x49b40821 in
  let a := GG a b c d (x 1%nat) S21 0xf61e2562 in
  let d := GG d a b c (x 6%nat) S22 0xc040b340 in
  let c := GG c d a b (x 11%nat) S23 0x265e5a51 in
  let b := GG b c d a (x 0%nat) S24 0xe9b6c7aa in
  let a := GG a b c d (x 5%nat) S21 0xd62f105d in
  let d := GG d a b c (x 10%nat) S22 0x2441453 in
  let c := GG c d a b (x 15%nat) S23 0xd8a1e681 in
  let b := GG b c d a (x 4%nat) S24 0xe7d3fbc8 in
  let a := GG a b c d (x 9%nat) S21 0x21e1cde6 in
  let d := GG d a b c (x 14%nat) S22 0xc33707d6 in
  let c := GG c d a b (x 3%nat) S23 0xf4d50d87 in
  let b := GG b c d a (x 8%nat) S24 0x455a14ed in
  let a := GG a b c d (x 13%nat) S21 0xa9e3e905 in
  let d := GG d a b c (x 2%nat) S22 0xfcefa3f8 in
  let c := GG c d a b (x 7%nat) S23 0x676f02d9 in
  let b := GG b c d a (x 12%nat) S24 0x8d2a4c8a in
  let a := HH a b c d (x 5%nat) S31 0xfffa3942 in
  let d := HH d a b c (x 8%nat) S32 0x8771f681 in
  let c := HH c d a b (x 11%nat) S33 0x6d9d6122 in
  let b := HH b c d a (x 14%nat) S34 0xfde5380c in
  let a := HH a b c d (x 1%nat) S31 0xa4beea44 in
  let d := HH d a b c (x 4%nat) S32 0x4bdecfa9 in
  let c := HH c d a b (x 7%nat) S33 0xf6bb4b60 in
  let b := HH b c d a (x 10%nat) S34 0xbebfbc70 in
  let a := HH a b c d (x 13%nat) S31 0x289b7ec6 in
  let d := HH d a b c (x 0%nat) S32 0xeaa127fa in
  let c := HH c d a b (x 3%nat) S33 0xd4ef3085 in
  let b := HH b c d a (x 6%nat) S34 0x4881d05 in
  let a := HH a b c d (x 9%nat) S31 0xd9d4d039 in
  let d := HH d a b c (x 12%nat) S32 0xe6db99e5 in
  let c := HH c d a b (x 15%nat) S33 0x1fa27cf8 in
  let b := HH b c d a (x 2%nat) S34 0xc4ac5665 in
  let a := II a b c d (x 0%nat) S41 0xf4292244 in
  let d := II d a b c (x 7%nat) S42 0x432aff97 in
  let c := II c d a b (x 14%nat) S43 0xab9423a7 in
  let b := II b c d a (x 5%nat) S44 0xfc93a039 in
  let a := II a b c d (x 12%nat) S41 0x655b59c3 in
  let d := II d a b c (x 3%nat) S42 0x8f0ccc92 in
  let c := II c d a b (x 10%nat) S43 0xffeff47d in
  let b := II b c d a (x 1%nat) S44 0x85845dd1 in
  let a := II a b c d (x 8%nat) S41 0x6fa87e4f in
  let d := II d a b c (x 15%nat) S42 0xfe2ce6e0 in
  let c := II c d a b (x 6%nat) S43 0xa3014314 in
  let b := II b c d a (x 13%nat) S44 0x4e0811a1 in
  let a := II a b c d (x 4%nat) S41 0xf7537e82 in
  let d := II d a b c (x 11%nat) S42 0xbd3af235 in
  let c := II c d a b (x 2%nat) S43 0x2ad7d2bb in
  let b := II b c d a (x 9%nat) S44 0xeb86d391 in
  (u32 (s0 + a), u32 (s1 + b), u32 (s2 + c), u32 (s3 + d)).

(** ** Operations *)

Definition md5_iv : Z * Z * Z * Z := (0x67452301, 0xefcdab89, 0x98badcfe, 0x10325476).

(** [MD5Init] leaves the context's buffer as it is. *)
Definition MD5Init (ctx : MD5_CTX) : MD5_CTX := mkMD5 md5_iv 0 0 (buffer ctx).

(** The loop [for (i = partLen; i + 63 < inputLen; i += 64)]; one unit of fuel
    per iteration. *)
Fixpoint md5_loop (fuel : nat) (i inputLen : Z) (st : Z * Z * Z * Z) (input : list Z)
  : outcome ((Z * Z * Z * Z) * Z) :=
  match fuel with
  | O => UB
  | S fuel' =>
      if i + 63 <? inputLen then
        blk ← sub_bytes input i 64;
        md5_loop fuel' (i + 64) inputLen (MD5Transform st blk) input
      else Ok (st, i)
  end.

Definition MD5Update (ctx : MD5_CTX) (input : list Z) (inputLen : Z) : outcome MD5_CTX :=
  let index := Z.land (Z.shiftr (count0 ctx) 3) 0x3F in
  let bits := u32 (Z.shiftl inputLen 3) in
  let c0 := u32 (count0 ctx + bits) in
  let c1 := if c0 <? bits then u32 (count1 ctx + 1) else count1 ctx in
  let c1 := u32 (c1 + Z.shiftr inputLen 29) in
  let partLen := 64 - index in
  if partLen <=? inputLen then
    part ← sub_bytes input 0 partLen;
    buf ← put_bytes (buffer ctx) index part;
    '(st, i) ← md5_loop (S (Z.to_nat (inputLen / 64))) partLen inputLen
                        (MD5Transform (state ctx) buf) input;
    rest ← sub_bytes input i (inputLen - i);
    buf ← put_bytes buf 0 rest;
    mret (mkMD5 st c0 c1 buf)
  else
    rest ← sub_bytes input 0 inputLen;
    buf ← put_bytes (buffer ctx) index rest;
    mret (mkMD5 (state ctx) c0 c1 buf).

Definition state_words (st : Z * Z * Z * Z) : list Z :=
  let '(a, b, c, d) := st in [a; b; c; d].

(** [MD5Final] returns the digest and the zeroized context. *)
Definition MD5Final (ctx : MD5_CTX) : outcome (list Z * MD5_CTX) :=
  let bits := Encode [count0 ctx; count1 ctx] in
  let index := Z.land (Z.shiftr (count0 ctx) 3) 0x3f in
  let padLen := if index <? 56 then 56 - index else 120 - index in
  ctx ← MD5Update ctx PADDING padLen;
  ctx ← MD5Update ctx bits 8;
  mret (Encode (state_words (state ctx)), mkMD5 (0, 0, 0, 0) 0 0 (replicate 64 0)).

(** ** The message the digest is a function of *)

(** RFC 1321, 3.1 and 3.2: a one bit, zeros up to 56 bytes modulo 64, then the
    length in bits modulo 2^64, low octet first. *)
Definition md5_padded (m : list Z) : list Z :=
  let n := Z.of_nat (length m) in
  m ++ 0x80 :: replicate (Z.to_nat ((55 - n) mod 64)) 0 ++ le_bytes 8 ((8 * n) mod 2 ^ 64).

Definition md5_hash (m : list Z) : list Z :=
  Encode (state_words (absorb MD5Transform md5_iv (md5_padded m)).1).

(** [md5_inv ctx m]: [ctx] is a context that has been fed the message [m]. *)
Definition md5_inv (ctx : MD5_CTX) (m : list Z) : Prop :=
  let n := Z.of_nat (length m) in
  length (buffer ctx) = 64%nat ∧
  word32 (count0 ctx) ∧ word32 (count1 ctx) ∧
  count0 ctx + 2 ^ 32 * count1 ctx = (8 * n) mod 2 ^ 64 ∧
  absorb MD5Transform md5_iv m = (state ctx, take (Z.to_nat (n mod 64)) (buffer ctx)).

Lemma md5_index ctx m :
  md5_inv ctx m → Z.land (Z.shiftr (count0 ctx) 3) 0x3F = Z.of_nat (length m) mod 64.
Proof.
  intros (_ & Hc0 & Hc1 & Hc & _). change 0x3F with (Z.ones 6).
  rewrite Z.land_ones, Z.shiftr_div_pow2 by lia. unfold word32 in *.
  change (2 ^ 6) with 64. change (2 ^ 3) with 8. change (2 ^ 32) with 4294967296 in *.
  change (2 ^ 64) with 18446744073709551616 in *. Z.to_euclidean_division_equations. lia.
Qed.

Lemma md5_count c0 c1 n L :
  word32 c0 → word32 c1 → word32 L → c0 + 2 ^ 32 * c1 = (8 * n) mod 2 ^ 64 →
  let bits := u32 (Z.shiftl L 3) in
  let c0' := u32 (c0 + bits) in
  let c1' := u32 ((if c0' <? bits then u32 (c1 + 1) else c1) + Z.shiftr L 29) in
  word32 c0' ∧ word32 c1' ∧ c0' + 2 ^ 32 * c1' = (8 * (n + L)) mod 2 ^ 64.
Proof.
  intros H0 H1 HL Hc bits c0' c1'. split; [apply u32_range|]. split; [apply u32_range|].
  unfold c1', c0', bits, u32, word32 in *.
  rewrite Z.shiftl_mul_pow2, Z.shiftr_div_pow2 by lia.
  change (2 ^ 3) with 8. change (2 ^ 29) with 536870912.
  change (2 ^ 32) with 4294967296 in *. change (2 ^ 64) with 18446744073709551616 in *.
  destruct (Z.ltb_spec ((c0 + (L * 8) mod 4294967296) mod 4294967296) ((L * 8) mod 4294967296));
    Z.to_euclidean_division_equations; lia.
Qed.

Lemma md5_loop_absorb fuel i n st input :
  0 <= i <= n → n <= Z.of_nat (length input) → (n - i) / 64 < Z.of_nat fuel →
  ∃ st' i', md5_loop fuel i n st input = Ok (st', i') ∧ i <= i' <= n ∧ n - i' < 64 ∧
    absorb MD5Transform st (take (Z.to_nat (n - i)) (drop (Z.to_nat i) input)) =
    (st', take (Z.to_nat (n - i')) (drop (Z.to_nat i') input)).
Proof.
  revert i st. induction fuel as [|fuel IH]; intros i st Hi Hn Hf.
  { pose proof (Z.div_pos (n - i) 64). lia. }
  cbn [md5_loop]. destruct (Z.ltb_spec (i + 63) n).
  - rewrite sub_bytes_ok by lia. cbn.
    destruct (IH (i + 64) (MD5Transform st (take (Z.to_nat 64) (drop (Z.to_nat i) input))))
      as (st' & i' & -> & Hi' & Hlt & Habs); [lia|lia|Z.to_euclidean_division_equations; lia|].
    exists st', i'. split; [done|]. split; [lia|]. split; [lia|].
    rewrite absorb_block by (rewrite length_take, length_drop; lia).
    rewrite take_take, skipn_firstn_comm, drop_drop, <- Habs. f_equal; [do 2 f_equal; lia|].
    do 2 f_equal; lia.
  - exists st, i. split; [done|]. split; [lia|]. split; [lia|].
    rewrite absorb_short; [done|]. rewrite length_take. lia.
Qed.

(** What a context holds after an update, from the state and the buffered
    bytes it had: the two branches of [MD5Update]. *)
Lemma md5_update_short st buf idx n input :
  length buf = 64%nat → 0 <= idx < 64 → 0 <= n <= Z.of_nat (length input) → idx + n < 64 →
  ∃ buf', put_bytes buf idx (take (Z.to_nat n) input) = Ok buf' ∧ length buf' = 64%nat ∧
    absorb MD5Transform st (take (Z.to_nat idx) buf ++ take (Z.to_nat n) input) =
    (st, take (Z.to_nat (idx + n)) buf').
Proof.
  intros Hbuf Hidx Hn Hlt. rewrite put_bytes_ok by len.
  eexists; split; [reflexivity|]. split; [len|].
  rewrite absorb_short by len. f_equal. rewrite app_assoc, take_app_length'; [done|len].
Qed.

Lemma md5_update_full st buf idx n input :
  length buf = 64%nat → 0 <= idx < 64 → n <= Z.of_nat (length input) → 64 <= idx + n →
  ∃ buf1 st' i' buf2,
    put_bytes buf idx (take (Z.to_nat (64 - idx)) input) = Ok buf1 ∧
    md5_loop (S (Z.to_nat (n / 64))) (64 - idx) n (MD5Transform st buf1) input = Ok (st', i') ∧
    0 <= i' <= n ∧
    put_bytes buf1 0 (take (Z.to_nat (n - i')) (drop (Z.to_nat i') input)) = Ok buf2 ∧
    length buf2 = 64%nat ∧
    absorb MD5Transform st (take (Z.to_nat idx) buf ++ take (Z.to_nat n) input) =
    (st', take (Z.to_nat ((idx + n) mod 64)) buf2).
Proof.
  intros Hbuf Hidx Hn Hge. rewrite put_bytes_ok by len.
  set (buf1 := _ ++ _ ++ _).
  assert (length buf1 = 64%nat) as Hbl by (unfold buf1; len).
  destruct (md5_loop_absorb (S (Z.to_nat (n / 64))) (64 - idx) n (MD5Transform st buf1) input)
    as (st' & i' & Hl & Hi' & Hl64 & Hloop);
    [lia|lia|rewrite Nat2Z.inj_succ, Z2Nat.id; Z.to_euclidean_division_equations; lia|].
  exists buf1, st', i'. rewrite put_bytes_ok by len.
  eexists. split; [done|]. split; [done|]. split; [lia|]. split; [done|]. split; [len|].
  rewrite absorb_block by len.
  assert (take 64 (take (Z.to_nat idx) buf ++ take (Z.to_nat n) input) = buf1) as ->.
  { rewrite take_app_ge, take_take by len. unfold buf1.
    rewrite (drop_ge buf), app_nil_r by len. do 2 f_equal. len. }
  rewrite drop_app_ge, skipn_firstn_comm by len.
  replace (64 - length (take (Z.to_nat idx) buf))%nat with (Z.to_nat (64 - idx)) by len.
  replace (Z.to_nat n - Z.to_nat (64 - idx))%nat with (Z.to_nat (n - (64 - idx))) by lia.
  rewrite Hloop. f_equal.
  assert (Z.to_nat ((idx + n) mod 64) = Z.to_nat (n - i')) as ->.
  { pose proof (absorb_tail_mod MD5Transform (MD5Transform st buf1)
      (take (Z.to_nat (n - (64 - idx))) (drop (Z.to_nat (64 - idx)) input))) as Hmod.
    rewrite Hloop in Hmod. cbn [snd] in Hmod. rewrite !length_take, !length_drop in Hmod.
    Z.to_euclidean_division_equations. lia. }
  rewrite take_0, app_nil_l, take_app_length'; [done|len].
Qed.

Lemma MD5Update_inv ctx m input n :
  md5_inv ctx m → 0 <= n <= Z.of_nat (length input) → n < 2 ^ 32 →
  ∃ ctx', MD5Update ctx input n = Ok ctx' ∧ md5_inv ctx' (m ++ take (Z.to_nat n) input).
Proof.
  intros Hinv Hn Hmax. pose proof (md5_index ctx m Hinv) as Hidx.
  destruct Hinv as (Hbuf & Hc0 & Hc1 & Hc & Habs).
  pose proof (md5_count _ _ _ n Hc0 Hc1 ltac:(unfold word32; lia) Hc) as (Hc0' & Hc1' & Hc').
  unfold MD5Update. rewrite Hidx. set (idx := Z.of_nat (length m) mod 64) in *.
  assert (0 <= idx < 64) as Hb by (apply Z.mod_pos_bound; lia).
  assert (Z.of_nat (length (m ++ take (Z.to_nat n) input)) = Z.of_nat (length m) + n) as Hlen by len.
  assert ((idx + n) mod 64 = (Z.of_nat (length m) + n) mod 64) as Hmod
    by (unfold idx; by rewrite Z.add_mod_idemp_l).
  destruct (Z.leb_spec (64 - idx) n) as [Hge|Hlt].
  - destruct (md5_update_full (state ctx) (buffer ctx) idx n input)
      as (buf1 & st' & i' & buf2 & Hput1 & Hloop & Hi & Hput2 & Hl2 & Hfull); [done..|lia|lia|].
    rewrite sub_bytes_ok by lia. obind. rewrite drop_0, Hput1. obind. rewrite Hloop. obind.
    rewrite sub_bytes_ok by lia. obind. rewrite Hput2.
    eexists; split; [reflexivity|]. unfold md5_inv. cbn [state count0 count1 buffer].
    rewrite Hlen, absorb_app, Habs, Hfull, Hmod. done.
  - destruct (md5_update_short (state ctx) (buffer ctx) idx n input)
      as (buf' & Hput & Hl & Hshort); [done..|lia|].
    rewrite sub_bytes_ok by lia. obind. rewrite drop_0, Hput.
    eexists; split; [reflexivity|]. unfold md5_inv. cbn [state count0 count1 buffer].
    rewrite Hlen, absorb_app, Habs, Hshort, <- Hmod, (Z.mod_small (idx + n) 64) by lia. done.
Qed.

Lemma MD5Init_inv ctx : length (buffer ctx) = 64%nat → md5_inv (MD5Init ctx) [].
Proof. intros Hb. repeat split; try done. Qed.

(** ** Finalisation *)

Lemma encode_word w : word32 w → Encode [w] = le_bytes 4 w.
Proof.
  unfold word32. intros Hw. cbn [Encode flat_map le_bytes app].
  change 0xff with (Z.ones 8). rewrite !Z.land_ones, !Z.shiftr_div_pow2 by lia.
  change (2 ^ 8) with 256. change (2 ^ 16) with (256 * 256). change (2 ^ 24) with (256 * 256 * 256).
  rewrite !Z.div_div by lia. done.
Qed.

Lemma encode_count c0 c1 :
  word32 c0 → word32 c1 → Encode [c0; c1] = le_bytes 8 (c0 + 2 ^ 32 * c1).
Proof.
  intros H0 H1. change (Encode [c0; c1]) with (Encode [c0] ++ Encode [c1]).
  rewrite !encode_word by done.
  rewrite <- (le_bytes_val (le_bytes 4 c0 ++ le_bytes 4 c1))
    by (apply Forall_app; split; apply le_bytes_byte).
  rewrite length_app, !length_le_bytes. f_equal. unfold word32 in *.
  cbn [le_bytes le_val app]. change (2 ^ 32) with 4294967296 in *.
  Z.to_euclidean_division_equations. lia.
Qed.

Lemma PADDING_take k :
  0 < k <= 64 → take (Z.to_nat k) PADDING = 0x80 :: replicate (Z.to_nat (k - 1)) 0.
Proof.
  intros Hk. replace (Z.to_nat k) with (S (Z.to_nat (k - 1))) by lia.
  unfold PADDING. rewrite firstn_cons, take_replicate. do 3 f_equal. lia.
Qed.

Lemma MD5Final_hash ctx m :
  md5_inv ctx m →
  MD5Final ctx = Ok (md5_hash m, mkMD5 (0, 0, 0, 0) 0 0 (replicate 64 0)).
Proof.
  intros Hinv. pose proof (md5_index ctx m Hinv) as Hidx. unfold MD5Final. rewrite Hidx.
  set (idx := Z.of_nat (length m) mod 64) in *.
  assert (0 <= idx < 64) as Hb by (apply Z.mod_pos_bound; lia).
  set (padLen := if idx <? 56 then 56 - idx else 120 - idx).
  assert (1 <= padLen <= 64 ∧ padLen - 1 = (55 - Z.of_nat (length m)) mod 64) as [Hpad Hp1].
  { unfold padLen, idx in *. destruct (Z.ltb_spec (Z.of_nat (length m) mod 64) 56);
      split; Z.to_euclidean_division_equations; lia. }
  destruct (MD5Update_inv ctx m PADDING padLen Hinv) as (ctx1 & -> & Hinv1);
    [cbn; lia|lia|]. obind.
  rewrite encode_count by apply Hinv.
  destruct (MD5Update_inv ctx1 _ (le_bytes 8 (count0 ctx + 2 ^ 32 * count1 ctx)) 8 Hinv1)
    as (ctx2 & -> & Hinv2); [by rewrite length_le_bytes|lia|]. obind.
  destruct Hinv2 as (_ & _ & _ & _ & Habs). do 2 f_equal. unfold md5_hash, md5_padded.
  destruct Hinv as (_ & _ & _ & Hc & _). rewrite <- Hc.
  rewrite (take_ge (le_bytes _ _)) in Habs by (rewrite length_le_bytes; lia).
  rewrite PADDING_take, Hp1 in Habs by lia.
  rewrite <- app_assoc in Habs. cbn [app] in Habs. by rewrite Habs.
Qed.

(** Feeding a message in pieces. *)
Fixpoint md5_feed (ctx : MD5_CTX) (parts : list (list Z)) : outcome MD5_CTX :=
  match parts with
  | [] => Ok ctx
  | p :: parts' => ctx' ← MD5Update ctx p (Z.of_nat (length p)); md5_feed ctx' parts'
  end.

Lemma md5_feed_inv parts ctx m :
  md5_inv ctx m → Forall (λ p, Z.of_nat (length p) < 2 ^ 32) parts →
  ∃ ctx', md5_feed ctx parts = Ok ctx' ∧ md5_inv ctx' (m ++ concat parts).
Proof.
  intros Hinv Hparts. revert ctx m Hinv.
  induction Hparts as [|p parts Hp _ IH]; intros ctx m Hinv; cbn [md5_feed concat].
  - exists ctx. by rewrite app_nil_r.
  - destruct (MD5Update_inv ctx m p (Z.of_nat (length p)) Hinv) as (ctx1 & -> & Hinv1); [lia..|].
    rewrite take_ge in Hinv1 by lia. obind. rewrite app_assoc. by apply IH.
Qed.

(** ** Properties *)

(** C26: MD5 is a streaming hash: whatever pieces a message is fed to
    [MD5Update] in, after [MD5Init] on any context, [MD5Final] returns the
    RFC 1321 digest of the whole message (padding and 64-bit length included),
    never reading or writing outside a buffer, and leaves the context zeroed. *)
Theorem md5_streaming ctx parts :
  length (buffer ctx) = 64%nat → Forall (λ p, Z.of_nat (length p) < 2 ^ 32) parts →
  (c ← md5_feed (MD5Init ctx) parts; MD5Final c) =
  Ok (md5_hash (concat parts), mkMD5 (0, 0, 0, 0) 0 0 (replicate 64 0)).
Proof.
  intros Hbuf Hparts.
  destruct (md5_feed_inv parts _ [] (MD5Init_inv ctx Hbuf) Hparts) as (c & -> & Hinv).
  obind. by apply MD5Final_hash.
Qed.

(** "message digest", fed in two pieces, against the digest of RFC 1321, A.5. *)
Lemma md5_streaming_witness :
  (c ← md5_feed (MD5Init (mkMD5 (1, 2, 3, 4) 5 6 (replicate 64 7)))
        [[109; 101; 115]; [115; 97; 103; 101; 32; 100; 105; 103; 101; 115; 116]];
   MD5Final c) =
  Ok ([0xf9; 0x6b; 0x69; 0x7d; 0x7c; 0xb7; 0x93; 0x8d;
       0x52; 0x5a; 0x2f; 0x31; 0xaa; 0xf1; 0x61; 0xd0],
      mkMD5 (0, 0, 0, 0) 0 0 (replicate 64 0)).
Proof.
  rewrite md5_streaming.
  - vm_compute. reflexivity.
  - reflexivity.
  - repeat constructor; done.
Defined.

End Md5.
