(* ===== verification/Sha1.v ===== *)
(** * SHA-1 ([src/lib/crypt/sha1.c], [src/lib/crypt/sha1.h])

    The context and the five routines of the source.  A context can also be
    started from a chaining value other than the standard one with a length
    already counted (the console's HMAC does this), so the invariant carries
    the chaining value [iv] and the number [base] of bytes already counted.
    The theorem shows that feeding a message in any pieces gives the FIPS 180-1
    digest of the whole message. *)

From S2P Require Import Prelude Blocks.

Module Sha1.

(** ** Data *)

Definition hash5 : Type := Z * Z * Z * Z * Z.

Record SHA1Context := mkSHA1 {
  Intermediate_Hash : hash5;
  Length_Low : Z;
  Length_High : Z;
  Message_Block_Index : Z;
  Message_Block : list Z;
  Computed : Z;
  Corrupted : Z
}.

Definition shaSuccess : Z := 0.
Definition shaNull : Z := 1.
Definition shaInputTooLong : Z := 2.
Definition shaStateError : Z := 3.

Definition set_block (b : list Z) (i : Z) (c : SHA1Context) : SHA1Context :=
  mkSHA1 (Intermediate_Hash c) (Length_Low c) (Length_High c) i b (Computed c) (Corrupted c).

(** ** Operations *)

Definition sha1_iv : hash5 := (0x67452301, 0xEFCDAB89, 0x98BADCFE, 0x10325476, 0xC3D2E1F0).

(** [SHA1Reset] leaves the message block as it is. *)
Definition SHA1Reset (c : SHA1Context) : SHA1Context :=
  mkSHA1 sha1_iv 0 0 0 (Message_Block c) 0 0.

Definition SHA1CircularShift (bits word : Z) : Z :=
  Z.lor (u32 (Z.shiftl word bits)) (Z.shiftr word (32 - bits)).

Definition word_be (b : list Z) (t : nat) : Z :=
  let m k := nth (t * 4 + k) b 0 in
  Z.lor (Z.lor (Z.lor (u32 (Z.shiftl (m 0%nat) 24)) (Z.shiftl (m 1%nat) 16))
               (Z.shiftl (m 2%nat) 8)) (m 3%nat).

(** The word sequence: [n] more words appended to [W]. *)
Fixpoint expand_W (n : nat) (W : list Z) : list Z :=
  match n with
  | O => W
  | S n' =>
      let t := length W in
      let w k := nth (t - k) W 0 in
      expand_W n' (W ++ [SHA1CircularShift 1
        (Z.lxor (Z.lxor (Z.lxor (w 3%nat) (w 8%nat)) (w 14%nat)) (w 16%nat))])
  end.

(** One round of the four loops; [f] is the loop's function of B, C and D. *)
Definition sha1_round (f : Z → Z → Z → Z) (K : Z) (s : hash5) (w : Z) : hash5 :=
  let '(A, B, C, D, E) := s in
  let temp := u32 (SHA1CircularShift 5 A + f B C D + E + w + K) in
  (temp, A, SHA1CircularShift 30 B, C, D).

Definition sha1_compress (h : hash5) (block : list Z) : hash5 :=
  let W := expand_W 64 (map (word_be block) (seq 0 16)) in
  let ch B C D := Z.lor (Z.land B C) (Z.land (not32 B) D) in
  let par B C D := Z.lxor (Z.lxor B C) D in
  let maj B C D := Z.lor (Z.lor (Z.land B C) (Z.land B D)) (Z.land C D) in
  let s := foldl (sha1_round ch 0x5A827999) h (take 20 W) in
  let s := foldl (sha1_round par 0x6ED9EBA1) s (take 20 (drop 20 W)) in
  let s := foldl (sha1_round maj 0x8F1BBCDC) s (take 20 (drop 40 W)) in
  let s := foldl (sha1_round par 0xCA62C1D6) s (take 20 (drop 60 W)) in
  let '(H0, H1, H2, H3, H4) := h in
  let '(A, B, C, D, E) := s in
  (u32 (H0 + A), u32 (H1 + B), u32 (H2 + C), u32 (H3 + D), u32 (H4 + E)).

Definition SHA1ProcessMessageBlock (c : SHA1Context) : SHA1Context :=
  mkSHA1 (sha1_compress (Intermediate_Hash c) (Message_Block c))
         (Length_Low c) (Length_High c) 0 (Message_Block c) (Computed c) (Corrupted c).

(** [Message_Block[Message_Block_Index++] = v]. *)
Definition store_byte (c : SHA1Context) (v : Z) : outcome SHA1Context :=
  b ← put_bytes (Message_Block c) (Message_Block_Index c) [v];
  mret (set_block b (Message_Block_Index c + 1) c).

(** The body of [SHA1Input]'s loop for one octet of the message. *)
Definition input_byte (c : SHA1Context) (v : Z) : outcome SHA1Context :=
  c ← store_byte c (Z.land v 0xFF);
  let low := u32 (Length_Low c + 8) in
  let high := if low =? 0 then u32 (Length_High c + 1) else Length_High c in
  let corr := if (low =? 0) && (high =? 0) then 1 else Corrupted c in
  let c := mkSHA1 (Intermediate_Hash c) low high (Message_Block_Index c)
                  (Message_Block c) (Computed c) corr in
  mret (if Message_Block_Index c =? 64 then SHA1ProcessMessageBlock c else c).

Fixpoint input_loop (c : SHA1Context) (msg : list Z) : outcome SHA1Context :=
  match msg with
  | [] => Ok c
  | v :: msg' =>
      if Corrupted c =? 0 then c ← input_byte c v; input_loop c msg' else Ok c
  end.

(** [SHA1Input] of the [length] octets of [msg]; returns the error code.  The
    pointers are never null in this program. *)
Definition SHA1Input (c : SHA1Context) (msg : list Z) : outcome (Z * SHA1Context) :=
  match msg with
  | [] => Ok (shaSuccess, c)
  | _ =>
      if truthy (Computed c) then
        Ok (shaStateError,
            mkSHA1 (Intermediate_Hash c) (Length_Low c) (Length_High c)
                   (Message_Block_Index c) (Message_Block c) (Computed c) shaStateError)
      else if truthy (Corrupted c) then Ok (Corrupted c, c)
      else c ← input_loop c msg; Ok (shaSuccess, c)
  end.

(** [while(Message_Block_Index < lim) Message_Block[Message_Block_Index++] = 0];
    at most 64 iterations. *)
Fixpoint zero_loop (fuel : nat) (lim : Z) (c : SHA1Context) : outcome SHA1Context :=
  if Message_Block_Index c <? lim then
    match fuel with
    | O => UB
    | S fuel' => c ← store_byte c 0; zero_loop fuel' lim c
    end
  else Ok c.

Definition length_octets (c : SHA1Context) : list Z :=
  [u8 (Z.shiftr (Length_High c) 24); u8 (Z.shiftr (Length_High c) 16);
   u8 (Z.shiftr (Length_High c) 8); u8 (Length_High c);
   u8 (Z.shiftr (Length_Low c) 24); u8 (Z.shiftr (Length_Low c) 16);
   u8 (Z.shiftr (Length_Low c) 8); u8 (Length_Low c)].

Definition SHA1PadMessage (c : SHA1Context) : outcome SHA1Context :=
  c ← (if 55 <? Message_Block_Index c then
         c ← store_byte c 0x80;
         c ← zero_loop 64 64 c;
         zero_loop 64 56 (SHA1ProcessMessageBlock c)
       else
         c ← store_byte c 0x80;
         zero_loop 64 56 c);
  b ← put_bytes (Message_Block c) 56 (length_octets c);
  Ok (SHA1ProcessMessageBlock (set_block b (Message_Block_Index c) c)).

Definition hash_octets (h : hash5) : list Z :=
  let '(h0, h1, h2, h3, h4) := h in
  flat_map (λ w, map (λ i, u8 (Z.shiftr w (8 * (3 - i)))) [0; 1; 2; 3]) [h0; h1; h2; h3; h4].

(** [SHA1Result]: the error code, the digest, and the context. *)
Definition SHA1Result (c : SHA1Context) : outcome (Z * list Z * SHA1Context) :=
  if truthy (Corrupted c) then Ok (Corrupted c, [], c)
  else
    c ← (if truthy (Computed c) then Ok c
         else c ← SHA1PadMessage c;
              Ok (mkSHA1 (Intermediate_Hash c) 0 0 (Message_Block_Index c)
                         (replicate 64 0) 1 (Corrupted c)));
    Ok (shaSuccess, hash_octets (Intermediate_Hash c), c).

(** ** The message the digest is a function of *)

(** FIPS 180-1, 4: a one bit, zeros up to 56 bytes modulo 64, then the length in
    bits, high octet first; [base] bytes were counted before the message. *)
Definition sha1_padding (n : Z) : list Z :=
  0x80 :: replicate (Z.to_nat ((55 - n) mod 64)) 0 ++ rev (le_bytes 8 (8 * n)).

Definition sha1_hash_from (iv : hash5) (base : Z) (m : list Z) : list Z :=
  hash_octets (absorb sha1_compress iv (m ++ sha1_padding (base + Z.of_nat (length m)))).1.

Definition sha1_hash (m : list Z) : list Z := sha1_hash_from sha1_iv 0 m.

(** [sha1_inv iv base c m]: [c] was started from the chaining value [iv] with
    [base] bytes counted and has been fed the message [m]. *)
Definition sha1_inv (iv : hash5) (base : Z) (c : SHA1Context) (m : list Z) : Prop :=
  let n := base + Z.of_nat (length m) in
  base mod 64 = 0 ∧ 0 <= base ∧
  length (Message_Block c) = 64%nat ∧
  word32 (Length_Low c) ∧ word32 (Length_High c) ∧
  Length_Low c + 2 ^ 32 * Length_High c = 8 * n ∧
  Message_Block_Index c = n mod 64 ∧
  Computed c = 0 ∧ Corrupted c = 0 ∧
  absorb sha1_compress iv m =
    (Intermediate_Hash c, take (Z.to_nat (Message_Block_Index c)) (Message_Block c)).

Lemma store_byte_ok c v :
  length (Message_Block c) = 64%nat → 0 <= Message_Block_Index c < 64 →
  ∃ b, store_byte c v = Ok (set_block b (Message_Block_Index c + 1) c) ∧
    length b = 64%nat ∧
    take (Z.to_nat (Message_Block_Index c + 1)) b =
    take (Z.to_nat (Message_Block_Index c)) (Message_Block c) ++ [v].
Proof.
  intros Hl Hi. unfold store_byte. rewrite put_bytes_ok by len. obind.
  eexists; split; [reflexivity|]. split; [len|].
  rewrite app_assoc, take_app_length'; [done|len].
Qed.

(** The 64-bit bit counter: no carry is lost below 2^64 bits. *)
Lemma sha1_count low high n :
  word32 low → word32 high → low + 2 ^ 32 * high = 8 * n → 8 * (n + 1) < 2 ^ 64 →
  let low' := u32 (low + 8) in
  let high' := if low' =? 0 then u32 (high + 1) else high in
  word32 low' ∧ word32 high' ∧ low' + 2 ^ 32 * high' = 8 * (n + 1) ∧
  (low' =? 0) && (high' =? 0) = false.
Proof.
  intros Hl Hh Hn Hmax low' high'. assert (word32 low') by apply u32_range.
  assert (word32 high') by (unfold high'; destruct (low' =? 0); [apply u32_range|done]).
  split; [done|]. split; [done|]. unfold high', low', u32, word32 in *.
  change (2 ^ 64) with (4294967296 * 4294967296) in *. change (2 ^ 32) with 4294967296 in *.
  destruct (decide (low + 8 < 4294967296)).
  - rewrite (Z.mod_small (low + 8)) by lia. destruct (Z.eqb_spec (low + 8) 0); [lia|].
    split; [lia|done].
  - assert (low = 4294967288) as -> by lia. change ((4294967288 + 8) mod 4294967296) with 0.
    rewrite Z.eqb_refl, Z.mod_small by lia. split; [lia|].
    destruct (Z.eqb_spec (high + 1) 0); [lia|done].
Qed.

Lemma next_index n : n mod 64 + 1 ≠ 64 → (n + 1) mod 64 = n mod 64 + 1.
Proof. Z.to_euclidean_division_equations. lia. Qed.
Lemma next_index_wrap n : n mod 64 + 1 = 64 → (n + 1) mod 64 = 0.
Proof. Z.to_euclidean_division_equations. lia. Qed.

Lemma input_byte_inv iv base c m v :
  sha1_inv iv base c m → byte v → 8 * (base + Z.of_nat (length m) + 1) < 2 ^ 64 →
  ∃ c', input_byte c v = Ok c' ∧ sha1_inv iv base c' (m ++ [v]).
Proof.
  intros (Hbase & Hb0 & Hl & Hlow & Hhigh & Hlen & Hidx & Hcomp & Hcorr & Habs) Hv Hmax.
  set (n := base + Z.of_nat (length m)) in *.
  assert (0 <= n mod 64 < 64) as Hn by (apply Z.mod_pos_bound; lia).
  destruct (store_byte_ok c v Hl ltac:(lia)) as (b & Hst & Hbl & Htake).
  unfold input_byte. change 0xFF with (Z.ones 8).
  rewrite (Z.land_ones v 8), (Z.mod_small v) by (unfold byte in *; lia).
  rewrite Hst. obind. cbn [set_block Length_Low Length_High Message_Block_Index Message_Block
    Intermediate_Hash Computed Corrupted].
  set (low := u32 (Length_Low c + 8)).
  set (high := if low =? 0 then u32 (Length_High c + 1) else Length_High c).
  assert (word32 low ∧ word32 high ∧ low + 2 ^ 32 * high = 8 * (n + 1) ∧
          ((low =? 0) && (high =? 0) = false)) as (Hlow' & Hhigh' & Hlen' & Hnc).
  { by apply sha1_count. }
  rewrite Hnc. eexists; split; [reflexivity|]. unfold sha1_inv.
  rewrite length_app, Nat2Z.inj_add, Z.add_assoc. fold n. cbn [length]. change (Z.of_nat 1) with 1.
  rewrite absorb_app, Habs, <- Htake. destruct (Z.eqb_spec (Message_Block_Index c + 1) 64) as [E|E].
  - cbn. rewrite absorb_block, absorb_short by len.
    rewrite E, !take_ge, drop_ge, take_0 by len.
    split_and!; try done; try lia. by rewrite next_index_wrap by lia.
  - cbn. rewrite absorb_short by len. split_and!; try done; try lia.
    rewrite next_index by lia. lia.
Qed.


Lemma input_loop_inv iv base msg c m :
  sha1_inv iv base c m → Forall byte msg →
  8 * (base + Z.of_nat (length m) + Z.of_nat (length msg)) < 2 ^ 64 →
  ∃ c', input_loop c msg = Ok c' ∧ sha1_inv iv base c' (m ++ msg).
Proof.
  intros Hinv Hmsg. revert c m Hinv. induction Hmsg as [|v msg Hv _ IH]; intros c m Hinv Hmax.
  - exists c. by rewrite app_nil_r.
  - cbn [input_loop]. assert (Corrupted c = 0) as -> by apply Hinv. rewrite Z.eqb_refl.
    cbn [length] in Hmax.
    destruct (input_byte_inv iv base c m v Hinv Hv) as (c1 & -> & Hinv1); [lia|]. obind.
    destruct (IH c1 (m ++ [v]) Hinv1) as (c2 & -> & Hinv2); [len|].
    exists c2. split; [done|]. by rewrite <- app_assoc in Hinv2.
Qed.

Lemma SHA1Input_inv iv base msg c m :
  sha1_inv iv base c m → Forall byte msg →
  8 * (base + Z.of_nat (length m) + Z.of_nat (length msg)) < 2 ^ 64 →
  ∃ c', SHA1Input c msg = Ok (shaSuccess, c') ∧ sha1_inv iv base c' (m ++ msg).
Proof.
  intros Hinv Hmsg Hmax. unfold SHA1Input. destruct msg as [|v msg].
  { exists c. by rewrite app_nil_r. }
  assert (Computed c = 0) as -> by apply Hinv. assert (Corrupted c = 0) as -> by apply Hinv.
  cbn [truthy Z.eqb negb]. destruct (input_loop_inv iv base (v :: msg) c m) as (c' & -> & Hinv');
    [done..|]. by exists c'.
Qed.

Lemma SHA1Reset_inv c :
  length (Message_Block c) = 64%nat → sha1_inv sha1_iv 0 (SHA1Reset c) [].
Proof. intros Hb. unfold sha1_inv. cbn. split_and!; done || (unfold word32; lia). Qed.

(** ** Padding *)

Lemma zero_loop_ok fuel lim c :
  length (Message_Block c) = 64%nat → 0 <= Message_Block_Index c <= lim → lim <= 64 →
  lim - Message_Block_Index c <= Z.of_nat fuel →
  ∃ b, zero_loop fuel lim c = Ok (set_block b lim c) ∧ length b = 64%nat ∧
    take (Z.to_nat lim) b =
    take (Z.to_nat (Message_Block_Index c)) (Message_Block c) ++
    replicate (Z.to_nat (lim - Message_Block_Index c)) 0.
Proof.
  revert c. induction fuel as [|fuel IH]; intros c Hl Hi Hlim Hf; cbn [zero_loop];
    destruct (Z.ltb_spec (Message_Block_Index c) lim) as [Hlt|Hge].
  - lia.
  - exists (Message_Block c). assert (Message_Block_Index c = lim) as Hx by lia.
    rewrite Hx, Z.sub_diag, app_nil_r. split_and!; [|done..].
    unfold set_block. rewrite <- Hx. by destruct c.
  - destruct (store_byte_ok c 0 Hl ltac:(lia)) as (b & -> & Hbl & Htake). obind.
    destruct (IH (set_block b (Message_Block_Index c + 1) c)) as (b' & -> & Hbl' & Htake');
      cbn [set_block Message_Block Message_Block_Index]; [done|lia..|].
    exists b'. split_and!; [done..|]. rewrite Htake'. cbn [set_block Message_Block Message_Block_Index].
    rewrite Htake, <- app_assoc. f_equal. cbn [app].
    by replace (Z.to_nat (lim - Message_Block_Index c))
      with (S (Z.to_nat (lim - (Message_Block_Index c + 1)))) by lia.
  - exists (Message_Block c). assert (Message_Block_Index c = lim) as Hx by lia.
    rewrite Hx, Z.sub_diag, app_nil_r. split_and!; [|done..].
    unfold set_block. rewrite <- Hx. by destruct c.
Qed.

Lemma length_octets_be c :
  word32 (Length_Low c) → word32 (Length_High c) →
  length_octets c = rev (le_bytes 8 (Length_Low c + 2 ^ 32 * Length_High c)).
Proof.
  unfold word32. intros Hl Hh. unfold length_octets, u8.
  cbn [le_bytes rev app]. rewrite !Z.shiftr_div_pow2 by lia.
  change (2 ^ 24) with 16777216. change (2 ^ 16) with 65536. change (2 ^ 8) with 256.
  change (2 ^ 32) with 4294967296 in *. rewrite !Z.div_div by lia. cbn [Z.mul Pos.mul].
  set (l := Length_Low c) in *. set (h := Length_High c) in *.
  repeat (f_equal; [Z.to_euclidean_division_equations; lia|]).
  f_equal. Z.to_euclidean_division_equations. lia.
Qed.

Lemma absorb_one st x : length x = 64%nat → absorb sha1_compress st x = (sha1_compress st x, []).
Proof.
  intros Hx. rewrite absorb_block, take_ge, drop_ge by lia. by apply absorb_short; cbn; lia.
Qed.

Lemma put_length_octets c b z :
  length b = 64%nat → word32 (Length_Low c) → word32 (Length_High c) →
  Length_Low c + 2 ^ 32 * Length_High c = z →
  put_bytes b 56 (length_octets c) = Ok (take (Z.to_nat 56) b ++ rev (le_bytes 8 z)).
Proof.
  intros Hb Hl Hh Hz. rewrite put_bytes_ok by (rewrite ?Hb; done || lia).
  rewrite drop_ge, app_nil_r by (rewrite Hb; done). by rewrite length_octets_be, Hz.
Qed.

(** The two shapes of the padding: the length fits in the current block, or it
    takes another one. *)
Lemma pad_short iv base c m :
  sha1_inv iv base c m → Message_Block_Index c <= 55 →
  ∃ c', SHA1PadMessage c = Ok c' ∧ Corrupted c' = 0 ∧
    (absorb sha1_compress iv (m ++ sha1_padding (base + Z.of_nat (length m)))).1 =
    Intermediate_Hash c'.
Proof.
  intros (Hbase & Hb0 & Hl & Hlow & Hhigh & Hlen & Hidx & Hcomp & Hcorr & Habs) Hle.
  set (n := base + Z.of_nat (length m)) in *.
  assert (0 <= n mod 64 < 64) as Hn by (apply Z.mod_pos_bound; lia).
  unfold SHA1PadMessage. destruct (Z.ltb_spec 55 (Message_Block_Index c)); [lia|].
  destruct (store_byte_ok c 0x80 Hl ltac:(lia)) as (b & -> & Hbl & Htake). obind.
  destruct (zero_loop_ok 64 56 (set_block b (Message_Block_Index c + 1) c))
    as (b1 & -> & Hbl1 & Htake1); cbn [set_block Message_Block Message_Block_Index]; [done|lia..|].
  obind. cbn [set_block Message_Block Message_Block_Index] in Htake1 |- *.
  rewrite (put_length_octets _ b1 (8 * n)) by done. obind.
  eexists; split; [reflexivity|]. split; [done|].
  rewrite absorb_app, Habs, absorb_one.
  - cbn. f_equal. rewrite Htake1, Htake, <- !app_assoc. unfold sha1_padding.
    assert ((55 - n) mod 64 = 56 - (Message_Block_Index c + 1)) as ->; [|done].
    rewrite Hidx in *. Z.to_euclidean_division_equations. lia.
  - unfold sha1_padding. cbn [length app]. rewrite !length_app. cbn [length].
    rewrite length_app, length_replicate, length_rev, length_le_bytes, length_take, Hl.
    rewrite Hidx in *. Z.to_euclidean_division_equations. lia.
Qed.

Lemma pad_long iv base c m :
  sha1_inv iv base c m → 55 < Message_Block_Index c →
  ∃ c', SHA1PadMessage c = Ok c' ∧ Corrupted c' = 0 ∧
    (absorb sha1_compress iv (m ++ sha1_padding (base + Z.of_nat (length m)))).1 =
    Intermediate_Hash c'.
Proof.
  intros (Hbase & Hb0 & Hl & Hlow & Hhigh & Hlen & Hidx & Hcomp & Hcorr & Habs) Hgt.
  set (n := base + Z.of_nat (length m)) in *.
  assert (0 <= n mod 64 < 64) as Hn by (apply Z.mod_pos_bound; lia).
  unfold SHA1PadMessage. destruct (Z.ltb_spec 55 (Message_Block_Index c)); [|lia].
  destruct (store_byte_ok c 0x80 Hl ltac:(lia)) as (b & -> & Hbl & Htake). obind.
  destruct (zero_loop_ok 64 64 (set_block b (Message_Block_Index c + 1) c))
    as (b1 & -> & Hbl1 & Htake1); cbn [set_block Message_Block Message_Block_Index]; [done|lia..|].
  obind. set (c1 := SHA1ProcessMessageBlock _).
  destruct (zero_loop_ok 64 56 c1) as (b2 & -> & Hbl2 & Htake2); [done|cbn; lia..|].
  obind. cbn [set_block Message_Block Message_Block_Index] in Htake1, Htake2 |- *.
  rewrite (put_length_octets _ b2 (8 * n)) by done. obind.
  eexists; split; [reflexivity|]. split; [done|].
  rewrite Htake2. cbn [c1 SHA1ProcessMessageBlock Message_Block_Index Message_Block]. rewrite take_0.
  assert (sha1_padding n = ([0x80] ++ replicate (Z.to_nat (63 - Message_Block_Index c)) 0) ++
            (replicate 56 0 ++ rev (le_bytes 8 (8 * n)))) as ->.
  { unfold sha1_padding. rewrite <- !app_assoc. cbn [app]. f_equal. rewrite app_assoc.
    rewrite <- replicate_add. do 2 f_equal. rewrite Hidx in *.
    Z.to_euclidean_division_equations. lia. }
  rewrite !app_assoc, <- (app_assoc _ (replicate 56 0)), <- (app_assoc m), absorb_app.
  rewrite (absorb_app _ iv m), Habs.
  assert (take (Z.to_nat (Message_Block_Index c)) (Message_Block c) ++
          [0x80] ++ replicate (Z.to_nat (63 - Message_Block_Index c)) 0 = b1) as ->.
  { rewrite app_assoc, <- Htake, <- (take_ge b1 (Z.to_nat 64)), Htake1 by (rewrite Hbl1; done).
    do 3 f_equal. lia. }
  rewrite !absorb_one; [done| |done].
  rewrite app_nil_l, length_app, length_replicate, length_rev, length_le_bytes. done.
Qed.

Lemma SHA1Result_hash iv base c m :
  sha1_inv iv base c m →
  ∃ c', SHA1Result c = Ok (shaSuccess, sha1_hash_from iv base m, c') ∧
    Message_Block c' = replicate 64 0.
Proof.
  intros Hinv. unfold SHA1Result.
  assert (Corrupted c = 0) as -> by apply Hinv. assert (Computed c = 0) as -> by apply Hinv.
  cbn [truthy Z.eqb negb].
  assert (∃ c', SHA1PadMessage c = Ok c' ∧ Corrupted c' = 0 ∧
    (absorb sha1_compress iv (m ++ sha1_padding (base + Z.of_nat (length m)))).1 =
    Intermediate_Hash c') as (c' & -> & _ & Hh).
  { destruct (Z.le_gt_cases (Message_Block_Index c) 55); [by apply pad_short|by apply pad_long]. }
  obind. eexists. split; [unfold sha1_hash_from; rewrite Hh; reflexivity|done].
Qed.

(** Feeding a message in pieces; stops on an error code. *)
Fixpoint sha1_feed (c : SHA1Context) (parts : list (list Z)) : outcome SHA1Context :=
  match parts with
  | [] => Ok c
  | p :: parts' => '(_, c') ← SHA1Input c p; sha1_feed c' parts'
  end.

Lemma sha1_feed_inv iv base parts c m :
  sha1_inv iv base c m → Forall (Forall byte) parts →
  8 * (base + Z.of_nat (length m) + Z.of_nat (length (concat parts))) < 2 ^ 64 →
  ∃ c', sha1_feed c parts = Ok c' ∧ sha1_inv iv base c' (m ++ concat parts).
Proof.
  intros Hinv Hparts. revert c m Hinv.
  induction Hparts as [|p parts Hp _ IH]; intros c m Hinv Hmax; cbn [sha1_feed concat] in *.
  - exists c. by rewrite app_nil_r.
  - rewrite length_app in Hmax.
    destruct (SHA1Input_inv iv base p c m Hinv Hp) as (c1 & -> & Hinv1); [lia|]. obind.
    rewrite app_assoc. apply IH; [done|]. rewrite length_app. lia.
Qed.

(** ** Properties *)

(** C25: SHA-1 is a streaming hash: whatever pieces a message of octets is fed to
    [SHA1Input] in, after [SHA1Reset] on any context, [SHA1Result] succeeds with
    the FIPS 180-1 digest of the whole message (for messages below 2^64 bits),
    the one- and the two-block padding included, and wipes the message block. *)
Theorem sha1_streaming c parts :
  length (Message_Block c) = 64%nat → Forall (Forall byte) parts →
  8 * Z.of_nat (length (concat parts)) < 2 ^ 64 →
  ∃ c', (c ← sha1_feed (SHA1Reset c) parts; SHA1Result c) =
          Ok (shaSuccess, sha1_hash (concat parts), c') ∧
        Message_Block c' = replicate 64 0.
Proof.
  intros Hb Hparts Hmax.
  destruct (sha1_feed_inv sha1_iv 0 parts _ [] (SHA1Reset_inv c Hb) Hparts) as (c1 & -> & Hinv);
    [cbn [length]; lia|]. obind. by apply SHA1Result_hash.
Qed.

(** "abc", fed in two pieces, against the digest of FIPS 180-1, appendix A. *)
Lemma sha1_streaming_witness :
  sha1_hash [97; 98; 99] =
    [0xA9; 0x99; 0x3E; 0x36; 0x47; 0x06; 0x81; 0x6A; 0xBA; 0x3E;
     0x25; 0x71; 0x78; 0x50; 0xC2; 0x6C; 0x9C; 0xD0; 0xD8; 0x9D] ∧
  ∃ c', (c ← sha1_feed (SHA1Reset (mkSHA1 sha1_iv 9 9 9 (replicate 64 5) 1 1)) [[97]; [98; 99]];
         SHA1Result c) = Ok (shaSuccess, sha1_hash [97; 98; 99], c') ∧
        Message_Block c' = replicate 64 0.
Proof.
  split; [vm_compute; reflexivity|].
  apply (sha1_streaming (mkSHA1 sha1_iv 9 9 9 (replicate 64 5) 1 1) [[97]; [98; 99]]).
  - reflexivity.
  - repeat constructor; done.
  - cbn; lia.
Defined.

End Sha1.
