(* ===== verification/Rc4.v ===== *)
(** * RC4 ([src/lib/crypt/rc4.c], [src/lib/crypt/rc4.h])

    The stream cipher that protects the encrypted section of the console's
    EEPROM.  The key schedule keeps a permutation of the 256 octets, and
    encryption is its own inverse. *)

From S2P Require Import Prelude.

Module Rc4.

Record rc4_key := mkRc4 { state : list Z; x : Z; y : Z }.

Definition at_ (s : list Z) (i : Z) : Z := nth (Z.to_nat i) s 0.

Definition swap_byte (s : list Z) (a b : Z) : list Z :=
  let swapByte := at_ s a in
  let s := <[Z.to_nat a := at_ s b]> s in
  <[Z.to_nat b := swapByte]> s.

(** The second loop of [rc4_prepare_key], from [counter] on, [n] iterations
    left.  [key_data_ptr[index1]] is undefined outside the key, and so is the
    remainder by a key length of zero. *)
Fixpoint schedule (n : nat) (counter index1 index2 : Z) (key_data : list Z) (len : Z)
    (s : list Z) : outcome (list Z) :=
  match n with
  | O => Ok s
  | S n' =>
      if (len =? 0) then UB else
      match key_data !! Z.to_nat index1 with
      | None => UB
      | Some k =>
          let index2 := (k + at_ s counter + index2) mod 256 in
          let s := swap_byte s counter index2 in
          schedule n' (counter + 1) (u8 ((index1 + 1) mod len)) index2 key_data len s
      end
  end.

Definition rc4_prepare_key (key_data : list Z) (key_data_len : Z) : outcome rc4_key :=
  s ← schedule 256 0 0 0 key_data key_data_len (map Z.of_nat (seq 0 256));
  mret (mkRc4 s 0 0).

(** One octet of keystream. *)
Definition rc4_next (k : rc4_key) : Z * rc4_key :=
  let x := (x k + 1) mod 256 in
  let y := (at_ (state k) x + y k) mod 256 in
  let s := swap_byte (state k) x y in
  let xorIndex := (at_ s x + at_ s y) mod 256 in
  (at_ s xorIndex, mkRc4 s x y).

(** [rc4_crypt] over the octets of the buffer, in order. *)
Fixpoint rc4_crypt (buffer : list Z) (k : rc4_key) : list Z * rc4_key :=
  match buffer with
  | [] => ([], k)
  | b :: rest =>
      let '(o, k) := rc4_next k in
      let '(rest, k) := rc4_crypt rest k in
      (Z.lxor b o :: rest, k)
  end.

(** ** The state stays a permutation *)

Definition octets : list Z := map Z.of_nat (seq 0 256).

Definition rc4_wf (k : rc4_key) : Prop :=
  state k ≡ₚ octets ∧ byte (x k) ∧ byte (y k).

(** Exchanging two entries of a list permutes it. *)
Lemma insert_Permutation (s : list Z) i a b :
  s !! i = Some b → b :: <[i := a]> s ≡ₚ a :: s.
Proof.
  intros Hi. rewrite insert_take_drop by (by eapply lookup_lt_Some).
  rewrite <- (take_drop_middle s i b) at 3 by done.
  rewrite <- !Permutation_middle. apply Permutation_swap.
Qed.

Lemma swap_Permutation (s : list Z) i j a b :
  s !! i = Some a → s !! j = Some b → <[j := a]> (<[i := b]> s) ≡ₚ s.
Proof.
  revert i j. induction s as [|h s IH]; intros [|i] [|j] Hi Hj; simplify_eq/=;
    [done|by apply insert_Permutation..|by rewrite IH].
Qed.

Lemma at_lookup s i : length s = 256%nat → byte i → s !! Z.to_nat i = Some (at_ s i).
Proof.
  intros Hs Hi. unfold byte in Hi.
  destruct (lookup_lt_is_Some_2 s (Z.to_nat i)) as [v Hv]; [lia|].
  rewrite Hv. unfold at_. by erewrite nth_lookup_Some.
Qed.

Lemma swap_byte_perm s a b :
  s ≡ₚ octets → byte a → byte b → swap_byte s a b ≡ₚ octets.
Proof.
  intros Hs Ha Hb. assert (length s = 256%nat) as Hl by (rewrite Hs; done).
  rewrite <- Hs. unfold swap_byte. apply swap_Permutation; by apply at_lookup.
Qed.

Lemma mod_byte z : byte (z mod 256).
Proof. apply Z.mod_pos_bound. lia. Qed.

Lemma at_byte s i : s ≡ₚ octets → byte i → byte (at_ s i).
Proof.
  intros Hs Hi. assert (length s = 256%nat) as Hl by (rewrite Hs; done).
  pose proof (list_elem_of_lookup_2 s _ _ (at_lookup s i Hl Hi)) as Hin.
  apply list_elem_of_In in Hin. eapply Permutation_in in Hin; [|exact Hs].
  apply in_map_iff in Hin as (k & <- & Hk%in_seq). unfold byte. lia.
Qed.

Lemma schedule_perm n counter i1 i2 key len s :
  0 < len <= 256 → (Z.to_nat len <= length key)%nat → Forall byte key →
  0 <= counter → counter + Z.of_nat n <= 256 → 0 <= i1 < len → s ≡ₚ octets →
  ∃ s', schedule n counter i1 i2 key len s = Ok s' ∧ s' ≡ₚ octets.
Proof.
  intros Hlen Hkey Hkb. revert counter i1 i2 s.
  induction n as [|n IH]; intros counter i1 i2 s Hc Hn Hi Hs; cbn [schedule]; [by exists s|].
  destruct (Z.eqb_spec len 0); [lia|].
  destruct (lookup_lt_is_Some_2 key (Z.to_nat i1)) as [k Hk]; [lia|]. rewrite Hk.
  assert (0 <= (i1 + 1) mod len < len) as Hm by (apply Z.mod_pos_bound; lia).
  apply IH; [lia|lia| |apply swap_byte_perm; [done|unfold byte; lia|apply mod_byte]].
  rewrite u8_id; [done|unfold byte; lia].
Qed.

Lemma rc4_prepare_wf key len :
  0 < len <= 256 → (Z.to_nat len <= length key)%nat → Forall byte key →
  ∃ k, rc4_prepare_key key len = Ok k ∧ rc4_wf k.
Proof.
  intros Hlen Hk Hb. unfold rc4_prepare_key. fold octets.
  destruct (schedule_perm 256 0 0 0 key len octets) as (s & -> & Hs); [done..|lia|lia|done|].
  obind. eexists; split; [reflexivity|]. repeat split; done.
Qed.

Lemma rc4_next_wf k : rc4_wf k → byte (rc4_next k).1 ∧ rc4_wf (rc4_next k).2.
Proof.
  intros (Hs & Hx & Hy). cbn.
  assert (∀ a b, byte a → byte b → swap_byte (state k) a b ≡ₚ octets) as Hp
    by (intros; by apply swap_byte_perm).
  split; [apply at_byte; [apply Hp; apply mod_byte|apply mod_byte]|].
  split_and!; cbn; [apply Hp|..]; apply mod_byte.
Qed.

Lemma rc4_crypt_length buf k : length (rc4_crypt buf k).1 = length buf.
Proof.
  revert k. induction buf as [|b buf IH]; intros k; cbn [rc4_crypt]; [done|].
  destruct (rc4_next k) as [o k1]. specialize (IH k1). destruct (rc4_crypt buf k1). cbn in *. lia.
Qed.

Lemma rc4_crypt_wf buf k :
  rc4_wf k → Forall byte buf → Forall byte (rc4_crypt buf k).1 ∧ rc4_wf (rc4_crypt buf k).2.
Proof.
  intros Hk Hb. revert k Hk. induction Hb as [|b buf Hb _ IH]; intros k Hk; cbn [rc4_crypt]; [done|].
  pose proof (rc4_next_wf k Hk) as [Ho Hk1]. destruct (rc4_next k) as [o k1].
  specialize (IH k1 Hk1). destruct (rc4_crypt buf k1) as [r k2]. cbn in *.
  split; [constructor; [|apply IH]|apply IH]. apply (lxor_bound b o 8); unfold byte in *; lia.
Qed.

Lemma rc4_crypt_involutive buf k :
  rc4_crypt (rc4_crypt buf k).1 k = (buf, (rc4_crypt buf k).2).
Proof.
  revert k. induction buf as [|b buf IH]; intros k; cbn [rc4_crypt]; [done|].
  destruct (rc4_next k) as [o k1] eqn:E. specialize (IH k1).
  destruct (rc4_crypt buf k1) as [r k2] eqn:E2. cbn [fst snd rc4_crypt] in *. rewrite E, IH.
  by rewrite Z.lxor_assoc, Z.lxor_nilpotent, Z.lxor_0_r.
Qed.

(** ** Properties *)

(** C30: for every key of 1 to 256 octets the key schedule is defined and yields
    a permutation of the 256 octets; encrypting any buffer with it gives octets,
    leaves the state a permutation, and encrypting the result again from the
    same key returns the buffer. *)
Theorem rc4_roundtrip key buf :
  (0 < length key <= 256)%nat → Forall byte key → Forall byte buf →
  ∃ k, rc4_prepare_key key (Z.of_nat (length key)) = Ok k ∧ rc4_wf k ∧
    Forall byte (rc4_crypt buf k).1 ∧ rc4_wf (rc4_crypt buf k).2 ∧
    rc4_crypt (rc4_crypt buf k).1 k = (buf, (rc4_crypt buf k).2).
Proof.
  intros Hl Hk Hb. destruct (rc4_prepare_wf key (Z.of_nat (length key))) as (k & Hp & Hwf); [lia..|done|].
  exists k. pose proof (rc4_crypt_wf buf k Hwf Hb) as [? ?].
  split_and!; try done. apply rc4_crypt_involutive.
Qed.

Lemma rc4_roundtrip_witness :
  (k ← rc4_prepare_key [75; 101; 121] 3; mret (rc4_crypt [80; 108; 97] k).1) =
    Ok [0xBB; 0xF3; 0x16] ∧
  ∃ k, rc4_prepare_key [75; 101; 121] 3 = Ok k ∧ rc4_wf k ∧
    Forall byte (rc4_crypt [80; 108; 97] k).1 ∧ rc4_wf (rc4_crypt [80; 108; 97] k).2 ∧
    rc4_crypt (rc4_crypt [80; 108; 97] k).1 k = ([80; 108; 97], (rc4_crypt [80; 108; 97] k).2).
Proof.
  split; [vm_compute; reflexivity|].
  apply (rc4_roundtrip [75; 101; 121] [80; 108; 97]).
  - cbn; lia.
  - repeat constructor; done.
  - repeat constructor; done.
Defined.

End Rc4.
