(* ===== verification/HddKey.v ===== *)
(** * The console's HMAC ([src/drivers/ide/BootHddKey.c])

    [HMAC_SHA1] is the keyed hash over a key the program has; the EEPROM's
    keyed hash, [HMAC_hdd_calculation], starts both SHA-1 passes from chaining
    values that stand for a key block the program does not have, and keeps the
    inner digest in the context's own message block.  [copy_swap_trim] decodes
    the byte-swapped, space-padded strings of the IDE identify data. *)

From S2P Require Import Prelude Blocks Sha1.

Module HddKey.
Import Sha1.

(** ** copy_swap_trim *)

(** The first loop; the source reads octets in pairs. *)
Fixpoint swap_pairs (l : list Z) : list Z :=
  match l with
  | a :: b :: l' => b :: a :: swap_pairs l'
  | _ => l
  end.

(** The second loop, from [i] down: [dst] has been moved back by one, so
    [dst[i]] is octet [i - 1] of the destination. *)
Fixpoint trim_loop (i : nat) (dst : list Z) : Z * list Z :=
  match i with
  | O => (0, dst)
  | S i' =>
      if nth i' dst 0 =? 32 then trim_loop i' dst
      else (Z.of_nat i, <[i := 0]> dst)
  end.

(** [len] octets of [src] into [dst]; an odd length reads and writes one octet
    beyond, and the terminator needs [dst] to have room for [len + 1]. *)
Definition copy_swap_trim (dst src : list Z) (len : Z) : outcome (Z * list Z) :=
  let n := Z.to_nat len in
  if (0 <=? len) && Z.even len && (n <=? length src)%nat && (S n <=? length dst)%nat then
    Ok (trim_loop n (swap_pairs (take n src) ++ drop n dst))
  else UB.

(** ** HMAC over the EEPROM *)

Definition with_hash (h : hash5) (c : SHA1Context) : SHA1Context :=
  mkSHA1 h (Length_Low c) (Length_High c) (Message_Block_Index c) (Message_Block c)
         (Computed c) (Corrupted c).

Definition with_low (l : Z) (c : SHA1Context) : SHA1Context :=
  mkSHA1 (Intermediate_Hash c) l (Length_High c) (Message_Block_Index c) (Message_Block c)
         (Computed c) (Corrupted c).

(** The chaining values of the two [switch] statements; a version without a
    case keeps the one of [SHA1Reset]. *)
Definition hmac1_iv (version : Z) : hash5 :=
  if version =? 9 then (0x85F9E51A, 0xE04613D2, 0x6D86A50C, 0x77C32E3C, 0x4BD717A4)
  else if version =? 10 then (0x72127625, 0x336472B9, 0xBE609BEA, 0xF55E226B, 0x99958DAC)
  else if version =? 11 then (0x39B06E79, 0xC9BD25E8, 0xDBC6B498, 0x40B4389D, 0x86BBD7ED)
  else if version =? 12 then (0x8058763a, 0xf97d4e0e, 0x865a9762, 0x8a3d920d, 0x08995b2c)
  else sha1_iv.

Definition hmac2_iv (version : Z) : hash5 :=
  if version =? 9 then (0x5D7A9C6B, 0xE1922BEB, 0xB82CCDBC, 0x3137AB34, 0x486B52B3)
  else if version =? 10 then (0x76441D41, 0x4DE82659, 0x2E8EF85E, 0xB256FACA, 0xC4FE2DE8)
  else if version =? 11 then (0x9B49BED3, 0x84B430FC, 0x6B8749CD, 0xEBFE5FE5, 0xD96E7393)
  else if version =? 12 then (0x01075307, 0xa2f1e037, 0x1186eeea, 0x88da9992, 0x168a5609)
  else sha1_iv.

Definition HMAC1hddReset (version : Z) (c : SHA1Context) : SHA1Context :=
  with_low 512 (with_hash (hmac1_iv version) (SHA1Reset c)).

Definition HMAC2hddReset (version : Z) (c : SHA1Context) : SHA1Context :=
  with_low 512 (with_hash (hmac2_iv version) (SHA1Reset c)).

(** [SHA1Input(&context, &context.Message_Block[0], n)]: the message is read
    from the block the loop is writing, octet [k] at a time. *)
Fixpoint input_self_loop (n k : nat) (c : SHA1Context) : outcome SHA1Context :=
  match n with
  | O => Ok c
  | S n' =>
      if Corrupted c =? 0 then
        c ← input_byte c (nth k (Message_Block c) 0);
        input_self_loop n' (S k) c
      else Ok c
  end.

(** The context is on the stack: [stack] is what it holds on entry.  The parts
    are the (buffer, length) pairs before the closing [NULL]. *)
Definition HMAC_hdd_calculation (stack : SHA1Context) (version : Z) (parts : list (list Z))
  : outcome (list Z) :=
  let c := HMAC1hddReset version stack in
  c ← sha1_feed c parts;
  '(_, digest, c) ← SHA1Result c;
  b ← put_bytes (Message_Block c) 0 digest;
  let c := HMAC2hddReset version (set_block b (Message_Block_Index c) c) in
  c ← input_self_loop 0x14 0 c;
  '(_, result, _) ← SHA1Result c;
  mret result.

(** ** HMAC_SHA1 *)

(** [for(i=0x40-1; i>=key_length;--i) state[i] = pad;
     for(;i>=0;--i) state[i] = key[i] ^ pad;] *)
Definition hmac_key_block (key : list Z) (pad : Z) : list Z :=
  map (λ i, if (i <? length key)%nat then Z.lxor (nth i key 0) pad else pad) (seq 0 64).

Definition HMAC_SHA1 (stack : SHA1Context) (key text1 text2 : list Z) : outcome (list Z) :=
  c ← sha1_feed (SHA1Reset stack) [hmac_key_block key 0x36; text1; text2];
  '(_, inner, c) ← SHA1Result c;
  c ← sha1_feed (SHA1Reset c) [hmac_key_block key 0x5C ++ inner];
  '(_, result, _) ← SHA1Result c;
  mret result.

(** ** The hash in place *)

Lemma hash_octets_byte h : Forall byte (hash_octets h) ∧ length (hash_octets h) = 20%nat.
Proof. destruct h as [[[[h0 h1] h2] h3] h4]. split; [|done]. repeat constructor; apply u8_range. Qed.

Lemma sha1_hash_from_octets iv base m :
  Forall byte (sha1_hash_from iv base m) ∧ length (sha1_hash_from iv base m) = 20%nat.
Proof. apply hash_octets_byte. Qed.

Lemma reset_inv iv c :
  length (Message_Block c) = 64%nat →
  sha1_inv iv 64 (with_low 512 (with_hash iv (SHA1Reset c))) [].
Proof. intros Hb. unfold sha1_inv. cbn. split_and!; done || (unfold word32; lia). Qed.

(** Storing an octet where it already is does not change the block. *)
Lemma put_same (b : list Z) (k : nat) :
  (k < length b)%nat → put_bytes b (Z.of_nat k) [nth k b 0] = Ok b.
Proof.
  intros Hk. rewrite put_bytes_ok by (cbn [length]; lia). f_equal. rewrite Nat2Z.id. cbn [length app].
  rewrite Nat.add_1_r. apply take_drop_middle.
  destruct (lookup_lt_is_Some_2 b k Hk) as [v Hv]. by erewrite nth_lookup_Some.
Qed.

(** Reading the message out of the block while writing it back is the same as
    reading it from elsewhere, as long as the block does not fill up. *)
Lemma input_self_eq n k c :
  Message_Block_Index c = Z.of_nat k → (k + n < 64)%nat → length (Message_Block c) = 64%nat →
  Forall byte (Message_Block c) →
  input_self_loop n k c = input_loop c (take n (drop k (Message_Block c))).
Proof.
  revert k c. induction n as [|n IH]; intros k c Hk Hn Hl Hb; cbn [input_self_loop]; [done|].
  destruct (lookup_lt_is_Some_2 (Message_Block c) k) as [v Hv]; [lia|].
  rewrite (drop_S _ v k Hv). cbn [take input_loop].
  destruct (Corrupted c =? 0); [|done].
  erewrite nth_lookup_Some by exact Hv.
  assert (Z.land v 0xFF = v) as Hland.
  { change 0xFF with (Z.ones 8). rewrite Z.land_ones by lia. apply Z.mod_small.
    by eapply Forall_lookup_1 in Hb. }
  unfold input_byte, store_byte. rewrite Hland, Hk.
  assert (put_bytes (Message_Block c) (Z.of_nat k) [v] = Ok (Message_Block c)) as ->.
  { rewrite <- (nth_lookup_Some _ _ 0 _ Hv). apply put_same. lia. }
  obind. cbn [set_block Length_Low Length_High Message_Block_Index
    Message_Block Intermediate_Hash Computed Corrupted].
  destruct (Z.eqb_spec (Z.of_nat k + 1) 64); [lia|].
  rewrite IH; cbn [Message_Block_Index Message_Block]; [done|lia|lia|done|done].
Qed.

Lemma HMAC_hdd_hash stack version parts :
  length (Message_Block stack) = 64%nat → Forall (Forall byte) parts →
  Z.of_nat (length (concat parts)) < 2 ^ 32 →
  HMAC_hdd_calculation stack version parts =
  Ok (sha1_hash_from (hmac2_iv version) 64
        (sha1_hash_from (hmac1_iv version) 64 (concat parts))).
Proof.
  intros Hb Hparts Hmax. unfold HMAC_hdd_calculation, HMAC1hddReset, HMAC2hddReset.
  destruct (sha1_feed_inv (hmac1_iv version) 64 parts _ []
              (reset_inv (hmac1_iv version) stack Hb) Hparts) as (c1 & -> & Hinv1);
    [cbn [length]; change (2 ^ 64) with (2 ^ 32 * 2 ^ 32); lia|]. obind.
  destruct (SHA1Result_hash _ _ _ _ Hinv1) as (c2 & -> & Hblk). obind. rewrite app_nil_l.
  destruct (sha1_hash_from_octets (hmac1_iv version) 64 (concat parts)) as [Hdb Hdl].
  set (d := sha1_hash_from (hmac1_iv version) 64 (concat parts)) in *.
  rewrite Hblk, put_bytes_ok by (cbn [Z.add]; rewrite ?Hdl; done || lia). obind.
  rewrite take_0, app_nil_l, Nat.add_0_l, Hdl, drop_replicate.
  set (c3 := set_block _ _ _).
  assert (Message_Block c3 = d ++ replicate 44 0) as Hb3 by done.
  rewrite input_self_eq; cbn [with_low with_hash SHA1Reset Message_Block_Index Message_Block];
    rewrite ?Hb3; [|done|lia|rewrite length_app, Hdl; done|
      apply Forall_app; split; [done|apply Forall_replicate; unfold byte; lia]].
  rewrite drop_0, take_app_length' by done.
  destruct (input_loop_inv (hmac2_iv version) 64 d _ [] (reset_inv (hmac2_iv version) c3
    ltac:(rewrite Hb3, length_app, Hdl; done)) Hdb) as (c4 & -> & Hinv4);
    [rewrite Hdl; cbn [length]; lia|]. obind.
  destruct (SHA1Result_hash _ _ _ _ Hinv4) as (c5 & -> & _). done.
Qed.

(** ** The keyed hash over a known key *)

(** RFC 2104: the key, padded with zeros to a block, exclusive-or the pad. *)
Definition hmac_pad (key : list Z) (pad : Z) : list Z :=
  map (λ k, Z.lxor k pad) (key ++ replicate (64 - length key) 0).

Lemma hmac_key_block_pad key pad :
  (length key <= 64)%nat → hmac_key_block key pad = hmac_pad key pad.
Proof.
  intros Hk. apply list_eq. intros i. unfold hmac_key_block, hmac_pad.
  rewrite !list_lookup_fmap. destruct (decide (i < 64)%nat) as [Hi|Hi].
  - rewrite lookup_seq_lt by done. cbn [fmap option_fmap option_map Nat.add]. destruct (Nat.ltb_spec i (length key)) as [Hlt|Hge].
    + rewrite lookup_app_l by done. destruct (lookup_lt_is_Some_2 key i Hlt) as [v Hv].
      rewrite Hv. cbn. by erewrite nth_lookup_Some.
    + rewrite lookup_app_r, lookup_replicate_2 by lia. cbn. by rewrite Z.lxor_0_l.
  - rewrite lookup_seq_ge by lia. rewrite (lookup_ge_None_2 (key ++ _)) by len. done.
Qed.

Lemma hmac_pad_octets key pad :
  (length key <= 64)%nat → Forall byte key → byte pad →
  Forall byte (hmac_pad key pad) ∧ length (hmac_pad key pad) = 64%nat.
Proof.
  intros Hk Hb Hp. unfold hmac_pad. split; [|len].
  apply Forall_fmap, Forall_app. unfold compose, byte in *. split.
  - eapply Forall_impl; [|exact Hb]. cbn. intros v Hv. apply (lxor_bound v pad 8); lia.
  - apply Forall_replicate. by rewrite Z.lxor_0_l.
Qed.

Lemma sha1_feed_hash c parts :
  length (Message_Block c) = 64%nat → Forall (Forall byte) parts →
  Z.of_nat (length (concat parts)) < 2 ^ 32 →
  ∃ c1 c2, sha1_feed (SHA1Reset c) parts = Ok c1 ∧
    SHA1Result c1 = Ok (shaSuccess, sha1_hash (concat parts), c2) ∧
    Message_Block c2 = replicate 64 0.
Proof.
  intros Hb Hparts Hmax.
  destruct (sha1_feed_inv sha1_iv 0 parts _ [] (SHA1Reset_inv c Hb) Hparts) as (c1 & Hf & Hinv);
    [cbn [length]; change (2 ^ 64) with (2 ^ 32 * 2 ^ 32); lia|].
  destruct (SHA1Result_hash _ _ _ _ Hinv) as (c2 & Hr & Hblk). by exists c1, c2.
Qed.

(** ** Trailing spaces *)

Fixpoint drop_spaces (l : list Z) : list Z :=
  match l with
  | v :: l' => if v =? 32 then drop_spaces l' else l
  | [] => []
  end.

(** A string without its trailing spaces. *)
Definition rtrim (l : list Z) : list Z := rev (drop_spaces (rev l)).

Lemma rtrim_snoc l v : rtrim (l ++ [v]) = if v =? 32 then rtrim l else l ++ [v].
Proof.
  unfold rtrim. rewrite rev_app_distr. cbn [rev app drop_spaces]. destruct (v =? 32); [done|].
  cbn [rev]. by rewrite rev_involutive.
Qed.

Lemma length_drop_spaces l : (length (drop_spaces l) <= length l)%nat.
Proof. induction l as [|v l IH]; cbn [drop_spaces]; [done|]. destruct (v =? 32); cbn; lia. Qed.

Lemma length_rtrim l : (length (rtrim l) <= length l)%nat.
Proof. unfold rtrim. rewrite length_rev, <- (length_rev l). apply length_drop_spaces. Qed.

Lemma trim_loop_spec i dst :
  (i < length dst)%nat →
  let s := rtrim (take i dst) in
  trim_loop i dst = (Z.of_nat (length s), if decide (s = []) then dst else <[length s := 0]> dst) ∧
  take (length s) dst = s.
Proof.
  induction i as [|i IH]; intros Hi; [by cbn|]. cbn [trim_loop].
  destruct (lookup_lt_is_Some_2 dst i) as [v Hv]; [lia|].
  rewrite (take_S_r _ _ _ Hv), rtrim_snoc. erewrite nth_lookup_Some by exact Hv.
  destruct (Z.eqb_spec v 32); [apply IH; lia|]. rewrite <- (take_S_r _ _ _ Hv).
  rewrite length_take, Nat.min_l by lia. split; [|done].
  case_decide as Hnil; [|done]. apply (f_equal length) in Hnil.
  rewrite length_take in Hnil. cbn [length] in Hnil. lia.
Qed.

Lemma length_swap_pairs l : length (swap_pairs l) = length l.
Proof.
  remember (length l) as n eqn:Hn. revert l Hn.
  induction n as [n IH] using lt_wf_ind. intros [|a [|b l]] ->; [done..|].
  cbn [swap_pairs length]. by rewrite (IH (length l)) by (cbn; lia).
Qed.

Lemma HMAC_SHA1_value stack key text1 text2 :
  length (Message_Block stack) = 64%nat → (length key <= 64)%nat → Forall byte key →
  Forall byte text1 → Forall byte text2 →
  Z.of_nat (length text1 + length text2) < 2 ^ 31 →
  HMAC_SHA1 stack key text1 text2 =
  Ok (sha1_hash (hmac_pad key 0x5C ++ sha1_hash (hmac_pad key 0x36 ++ text1 ++ text2))).
Proof.
  intros Hb Hk Hkb H1 H2 Hmax. unfold HMAC_SHA1. rewrite !hmac_key_block_pad by done.
  destruct (hmac_pad_octets key 0x36) as [Hib Hil]; [done..|].
  destruct (hmac_pad_octets key 0x5C) as [Hob Hol]; [done..|].
  destruct (sha1_feed_hash stack [hmac_pad key 0x36; text1; text2]) as (c1 & c2 & -> & Hr & Hblk);
    [done|by repeat constructor|cbn [concat]; rewrite app_nil_r, !length_app, Hil; lia|].
  obind. rewrite Hr. obind. cbn [concat]. rewrite !app_nil_r.
  destruct (sha1_hash_from_octets sha1_iv 0 (hmac_pad key 0x36 ++ text1 ++ text2)) as [Hdb Hdl].
  fold (sha1_hash (hmac_pad key 0x36 ++ text1 ++ text2)) in Hdb, Hdl.
  destruct (sha1_feed_hash c2
    [hmac_pad key 0x5C ++ sha1_hash (hmac_pad key 0x36 ++ text1 ++ text2)])
    as (c3 & c4 & -> & Hr4 & _);
    [by rewrite Hblk|constructor; [by apply Forall_app|done]|
     cbn [concat]; rewrite app_nil_r, length_app, Hol, Hdl; lia|].
  obind. rewrite Hr4. cbn [concat]. by rewrite app_nil_r.
Qed.

(** ** Properties *)

(** C31: [HMAC_SHA1] is HMAC (RFC 2104) over SHA-1 of the concatenation of its two
    texts, for every key of at most one block, whatever the stack held. *)
Theorem HMAC_SHA1_rfc2104 stack key text1 text2 :
  length (Message_Block stack) = 64%nat → (length key <= 64)%nat → Forall byte key →
  Forall byte text1 → Forall byte text2 →
  Z.of_nat (length text1 + length text2) < 2 ^ 31 →
  HMAC_SHA1 stack key text1 text2 =
  Ok (sha1_hash (hmac_pad key 0x5C ++ sha1_hash (hmac_pad key 0x36 ++ text1 ++ text2))).
Proof. apply HMAC_SHA1_value. Qed.

Lemma HMAC_SHA1_rfc2104_witness :
  HMAC_SHA1 (mkSHA1 sha1_iv 0 0 0 (replicate 64 0) 0 0) [0x4A; 0x65; 0x66; 0x65]
    [119; 104; 97; 116; 32; 100; 111; 32; 121; 97; 32; 119; 97; 110; 116; 32]
    [102; 111; 114; 32; 110; 111; 116; 104; 105; 110; 103; 63] =
  Ok [0xef; 0xfc; 0xdf; 0x6a; 0xe5; 0xeb; 0x2f; 0xa2; 0xd2; 0x74;
      0x16; 0xd5; 0xf1; 0x84; 0xdf; 0x9c; 0x25; 0x9a; 0x7c; 0x79].
Proof.
  rewrite HMAC_SHA1_rfc2104.
  - vm_compute. reflexivity.
  - reflexivity.
  - cbn; lia.
  - repeat constructor; done.
  - repeat constructor; done.
  - repeat constructor; done.
  - cbn; lia.
Defined.

(** [copy_swap_trim] returns the length of the identify string, its octets
    exchanged pairwise and its trailing spaces removed; the string is in the
    destination, and terminated whenever it is not empty (an all-space string is
    left as it is, without a terminator). *)
Theorem copy_swap_trim_spec dst src len :
  0 <= len → Z.even len = true → (Z.to_nat len <= length src)%nat →
  (Z.to_nat len < length dst)%nat →
  let s := rtrim (swap_pairs (take (Z.to_nat len) src)) in
  ∃ dst', copy_swap_trim dst src len = Ok (Z.of_nat (length s), dst') ∧
    take (length s) dst' = s ∧ length dst' = length dst ∧
    (s ≠ [] → dst' !! length s = Some 0) ∧
    (s = [] → dst' = swap_pairs (take (Z.to_nat len) src) ++ drop (Z.to_nat len) dst).
Proof.
  intros Hlen Heven Hsrc Hdst s. unfold copy_swap_trim. rewrite Heven.
  rewrite (proj2 (Z.leb_le 0 len) Hlen), (proj2 (Nat.leb_le _ _) Hsrc), (proj2 (Nat.leb_le _ _) Hdst).
  cbn [andb]. set (d := swap_pairs _ ++ _).
  assert (length (swap_pairs (take (Z.to_nat len) src)) = Z.to_nat len) as Hsw
    by (rewrite length_swap_pairs; len).
  assert (length d = length dst) as Hd by (unfold d; rewrite length_app, Hsw; len).
  destruct (trim_loop_spec (Z.to_nat len) d) as [-> Htake]; [lia|].
  assert (take (Z.to_nat len) d = swap_pairs (take (Z.to_nat len) src)) as Ht
    by (unfold d; by rewrite take_app_length').
  rewrite Ht in Htake |- *. fold s in Htake |- *. eexists; split; [reflexivity|].
  assert (length s < length d)%nat as Hs.
  { pose proof (length_rtrim (swap_pairs (take (Z.to_nat len) src))). fold s in H. lia. }
  case_decide as Hnil; split_and!; try done.
  - by rewrite take_insert_ge.
  - by rewrite length_insert.
  - intros _. by apply list_lookup_insert_eq.
Qed.

(** "BA", swapped and padded, as a drive would report "AB  ". *)
Lemma copy_swap_trim_spec_witness :
  let s := rtrim (swap_pairs (take (Z.to_nat 4) [66; 65; 32; 32])) in
  s = [65; 66] ∧
  ∃ dst', copy_swap_trim [7; 7; 7; 7; 7] [66; 65; 32; 32] 4 = Ok (Z.of_nat (length s), dst') ∧
    take (length s) dst' = s ∧ length dst' = length [7; 7; 7; 7; 7] ∧
    (s ≠ [] → dst' !! length s = Some 0) ∧
    (s = [] → dst' = swap_pairs (take (Z.to_nat 4) [66; 65; 32; 32]) ++ drop (Z.to_nat 4) [7; 7; 7; 7; 7]).
Proof.
  split; [reflexivity|]. apply (copy_swap_trim_spec [7; 7; 7; 7; 7] [66; 65; 32; 32] 4).
  - lia.
  - reflexivity.
  - cbn; lia.
  - cbn; lia.
Defined.

(** The EEPROM's keyed hash is the nested hash of HMAC: for every version,
    every list of buffers and whatever the stack held, it is the outer hash
    (from the version's second chaining value, one key block counted) of the
    inner hash (from its first chaining value) of the concatenated buffers,
    although the inner digest is read back from the block the outer pass
    writes. *)
Theorem HMAC_hdd_calculation_nested stack version parts :
  length (Message_Block stack) = 64%nat → Forall (Forall byte) parts →
  Z.of_nat (length (concat parts)) < 2 ^ 32 →
  HMAC_hdd_calculation stack version parts =
  Ok (sha1_hash_from (hmac2_iv version) 64
        (sha1_hash_from (hmac1_iv version) 64 (concat parts))).
Proof. apply HMAC_hdd_hash. Qed.

Lemma HMAC_hdd_calculation_nested_witness :
  HMAC_hdd_calculation (mkSHA1 sha1_iv 1 2 3 (replicate 64 255) 4 5) 10 [[1; 2; 3]; [4]] =
  Ok (sha1_hash_from (hmac2_iv 10) 64 (sha1_hash_from (hmac1_iv 10) 64 [1; 2; 3; 4])).
Proof.
  apply (HMAC_hdd_calculation_nested (mkSHA1 sha1_iv 1 2 3 (replicate 64 255) 4 5) 10
           [[1; 2; 3]; [4]]).
  - reflexivity.
  - repeat constructor; done.
  - cbn; lia.
Defined.

End HddKey.
