(* ===== verification/Layout.v ===== *)
(** * Packed structures

    A packed C structure is the list of its fields with their sizes; an object
    of the structure is the list of its octets, as [memcpy], [memcmp] and the
    checksums see it.  [get_field] and [set_field] are the accesses by name. *)

From S2P Require Import Prelude.

Section layout.
Context {F : Type} `{EqDecision F}.

Fixpoint find_field (l : list (F * nat)) (off : nat) (f : F) : option (nat * nat) :=
  match l with
  | [] => None
  | (g, n) :: l' => if decide (f = g) then Some (off, n) else find_field l' (off + n) f
  end.

Definition sizeof (l : list (F * nat)) : nat := foldr (λ '(_, n) s, (n + s)%nat) 0%nat l.
Definition offsetof (l : list (F * nat)) (f : F) : nat :=
  match find_field l 0 f with Some (o, _) => o | None => 0%nat end.
Definition sizeof_field (l : list (F * nat)) (f : F) : nat :=
  match find_field l 0 f with Some (_, n) => n | None => 0%nat end.

Definition get_field (l : list (F * nat)) (f : F) (obj : list Z) : list Z :=
  take (sizeof_field l f) (drop (offsetof l f) obj).

(** [v] must have the field's size. *)
Definition set_field (l : list (F * nat)) (f : F) (v : list Z) (obj : list Z) : list Z :=
  take (offsetof l f) obj ++ v ++ drop (offsetof l f + length v) obj.

Definition get_u8 (l : list (F * nat)) (f : F) (obj : list Z) : Z :=
  nth (offsetof l f) obj 0.
Definition set_u8 (l : list (F * nat)) (f : F) (v : Z) (obj : list Z) : list Z :=
  set_field l f [v] obj.

Lemma find_field_range l off f o n :
  find_field l off f = Some (o, n) → (off <= o ∧ o + n <= off + sizeof l)%nat.
Proof.
  revert off. induction l as [|[g k] l IH]; intros off; cbn [find_field sizeof foldr]; [done|].
  fold (sizeof l). case_decide; intros Hf.
  - simplify_eq. lia.
  - apply IH in Hf. lia.
Qed.

Lemma find_field_disjoint l off f g o n o' n' :
  f ≠ g → find_field l off f = Some (o, n) → find_field l off g = Some (o', n') →
  (o + n <= o' ∨ o' + n' <= o)%nat.
Proof.
  intros Hne. revert off. induction l as [|[h k] l IH]; intros off; cbn [find_field]; [done|].
  repeat case_decide; intros Hf Hg; simplify_eq.
  - apply find_field_range in Hg. lia.
  - apply find_field_range in Hf. lia.
  - eauto.
Qed.

Lemma field_bound l f :
  (offsetof l f + sizeof_field l f <= sizeof l)%nat.
Proof.
  unfold offsetof, sizeof_field. destruct (find_field l 0 f) as [[o n]|] eqn:E; [|lia].
  apply find_field_range in E. lia.
Qed.

Lemma length_set_field l f v obj :
  length v = sizeof_field l f → length obj = sizeof l → length (set_field l f v obj) = length obj.
Proof. intros Hv Ho. pose proof (field_bound l f). unfold set_field. len. Qed.

Lemma length_get_field l f obj :
  length obj = sizeof l → length (get_field l f obj) = sizeof_field l f.
Proof. intros Ho. pose proof (field_bound l f). unfold get_field. len. Qed.

(** Reading back the field just written. *)
Lemma get_set_same l f v obj :
  length v = sizeof_field l f → length obj = sizeof l →
  get_field l f (set_field l f v obj) = v.
Proof.
  intros Hv Ho. pose proof (field_bound l f). unfold get_field, set_field.
  rewrite drop_app_length' by len. by rewrite take_app_length'.
Qed.

(** Writing a field leaves every other field as it is. *)
Lemma get_set_other l f g v obj :
  f ≠ g → length v = sizeof_field l f → length obj = sizeof l →
  get_field l g (set_field l f v obj) = get_field l g obj.
Proof.
  intros Hne Hv Ho. pose proof (field_bound l f). pose proof (field_bound l g).
  unfold get_field, set_field, sizeof_field, offsetof in *.
  destruct (find_field l 0 f) as [[o n]|] eqn:Ef; [|by destruct v].
  destruct (find_field l 0 g) as [[o' n']|] eqn:Eg; [|done].
  destruct (find_field_disjoint l 0 f g o n o' n') as [Hd|Hd]; [done..| |].
  - rewrite app_assoc, drop_app_ge by len. rewrite drop_drop. f_equal. f_equal. len.
  - rewrite drop_app_le, take_app_le by len. rewrite skipn_firstn_comm, take_take.
    f_equal. len.
Qed.

Lemma set_field_byte l f v obj :
  Forall byte v → Forall byte obj → Forall byte (set_field l f v obj).
Proof.
  intros Hv Ho. unfold set_field. rewrite !Forall_app.
  split_and!; [by apply Forall_take|done|by apply Forall_drop].
Qed.

Lemma get_field_byte l f obj : Forall byte obj → Forall byte (get_field l f obj).
Proof. intros Ho. by apply Forall_take, Forall_drop. Qed.
End layout.
