(* ===== verification/Eeprom.v ===== *)
(** * The console's EEPROM ([src/lib/eeprom/BootEEPROM.c], [BootEEPROM.h])

    The 256-octet image, its two checksums, its encrypted section (confounder,
    hard-disk key, game region), the editing operations, the write-back to the
    physical device and the change list.  The image is the list of its octets
    with the fields of [EEPROMDATA].

    The SMBus transfers are the list of commands the code sends, in order.  The
    SHA-1 contexts of the hash live on the stack; [stack] is what they hold. *)

From S2P Require Import Prelude Blocks Sha1 Rc4 HddKey Layout.

Module Eeprom.

(** ** Data *)

Inductive eeprom_field :=
| HMAC_SHA1_Hash | Confounder | HDDKkey | XBERegion
| Checksum2 | SerialNumber | MACAddress | UNKNOWN2 | OnlineKey | VideoStandard | UNKNOWN3
| Checksum3 | TimeZoneBias | TimeZoneStdName | TimeZoneDltName | UNKNOWN4 | TimeZoneStdDate
| TimeZoneDltDate | UNKNOWN5 | TimeZoneStdBias | TimeZoneDltBias | LanguageID
| VideoFlags | AudioFlags | ParentalControlGames | ParentalControlPwd | ParentalControlMovies
| XBOXLiveIPAddress | XBOXLiveDNS | XBOXLiveGateWay | XBOXLiveSubNetMask | OtherSettings
| DVDPlaybackKitZone | UNKNOWN6.

#[export] Instance eeprom_field_eq_dec : EqDecision eeprom_field.
Proof. solve_decision. Defined.

Definition EEPROMDATA : list (eeprom_field * nat) :=
  [(HMAC_SHA1_Hash, 20%nat); (Confounder, 8%nat); (HDDKkey, 16%nat); (XBERegion, 4%nat);
   (Checksum2, 4%nat); (SerialNumber, 12%nat); (MACAddress, 6%nat); (UNKNOWN2, 2%nat);
   (OnlineKey, 16%nat); (VideoStandard, 4%nat); (UNKNOWN3, 4%nat);
   (Checksum3, 4%nat); (TimeZoneBias, 4%nat); (TimeZoneStdName, 4%nat);
   (TimeZoneDltName, 4%nat); (UNKNOWN4, 8%nat); (TimeZoneStdDate, 4%nat);
   (TimeZoneDltDate, 4%nat); (UNKNOWN5, 8%nat); (TimeZoneStdBias, 4%nat);
   (TimeZoneDltBias, 4%nat); (LanguageID, 4%nat); (VideoFlags, 4%nat); (AudioFlags, 4%nat);
   (ParentalControlGames, 4%nat); (ParentalControlPwd, 4%nat); (ParentalControlMovies, 4%nat);
   (XBOXLiveIPAddress, 4%nat); (XBOXLiveDNS, 4%nat); (XBOXLiveGateWay, 4%nat);
   (XBOXLiveSubNetMask, 4%nat); (OtherSettings, 4%nat); (DVDPlaybackKitZone, 4%nat);
   (UNKNOWN6, 64%nat)].

Abbreviation field := (get_field EEPROMDATA).
Abbreviation with_field := (set_field EEPROMDATA).

Definition EEPROM_EncryptInvalid : Z := 0.
Definition EEPROM_EncryptV1_0 : Z := 10.
Definition EEPROM_EncryptV1_1 : Z := 11.
Definition EEPROM_EncryptV1_6 : Z := 12.

Definition EEPROM_XBERegionInvalid : Z := 0.
Definition EEPROM_XBERegionNorthAmerica : Z := 1.
Definition EEPROM_XBERegionJapan : Z := 2.
Definition EEPROM_XBERegionEuropeAustralia : Z := 4.

Definition EEPROM_VideoStandardNTSC_M : Z := 0x00400100.
Definition EEPROM_VideoStandardNTSC_J : Z := 0x00400200.
Definition EEPROM_VideoStandardPAL_I : Z := 0x00800300.

Definition EEPROM_VidScreenFullScreen : Z := 0.
Definition EEPROM_VidScreenWidescreen : Z := 1.
Definition EEPROM_VidScreenLetterbox : Z := 0x10.
Definition EEPROM_VidResolutionEnable720p : Z := 2.
Definition EEPROM_VidResolutionEnable1080i : Z := 4.
Definition EEPROM_VidResolutionEnable480p : Z := 8.
Definition EEPROM_DVDRegionAirlines : Z := 8.

(** The octet [i] of a field. *)
Definition octet (f : eeprom_field) (i : nat) (e : list Z) : Z :=
  nth (offsetof EEPROMDATA f + i) e 0.

(** ** Checksums *)

(** The local copy, rotated right by one octet and followed by four zeros. *)
Definition CRC_Data (data : list Z) (dataLen : nat) : list Z :=
  nth (dataLen - 1) data 0 :: take (dataLen - 1) data ++ [0; 0; 0; 0].

Definition le16_at (d : list Z) (l : nat) : Z := nth l d 0 + 256 * nth (S l) d 0.

(** [for (l=pos; l<dataLen; l+=4)]; [dataLen] units of fuel are enough. *)
Fixpoint crc_pos_loop (fuel l dataLen : nat) (d : list Z) (CRCPosVal : Z) : Z :=
  match fuel with
  | O => CRCPosVal
  | S fuel' =>
      if (l <? dataLen)%nat
      then crc_pos_loop fuel' (l + 4) dataLen d (u16 (CRCPosVal - le16_at d l))
      else CRCPosVal
  end.

(** The local array has 0x5b + 4 octets. *)
Definition EepromCRC (data : list Z) (dataLen : nat) : outcome (list Z) :=
  if (1 <=? dataLen)%nat && (dataLen <=? 0x5b)%nat && (dataLen <=? length data)%nat then
    Ok (map (λ pos, Z.shiftr (Z.land (crc_pos_loop dataLen pos dataLen (CRC_Data data dataLen) 0xFFFF)
                                     0xFF00) 8)
            [0%nat; 1%nat; 2%nat; 3%nat])
  else UB.

(** [EepromCRC(eeprom.Checksum2, eeprom.SerialNumber, 0x28)] and
    [EepromCRC(eeprom.Checksum3, eeprom.TimeZoneBias, 0x5b)]: the data pointer
    runs on into the fields that follow. *)
Definition update_checksum2 (e : list Z) : outcome (list Z) :=
  crc ← EepromCRC (drop (offsetof EEPROMDATA SerialNumber) e) 0x28;
  mret (with_field Checksum2 crc e).
Definition update_checksum3 (e : list Z) : outcome (list Z) :=
  crc ← EepromCRC (drop (offsetof EEPROMDATA TimeZoneBias) e) 0x5b;
  mret (with_field Checksum3 crc e).

Definition EepromSetVideoStandard (standard : Z) (e : list Z) : outcome (list Z) :=
  update_checksum2 (with_field VideoStandard (le_bytes 4 standard) e).

Definition set_octet (f : eeprom_field) (i : nat) (v : Z) (e : list Z) : list Z :=
  <[(offsetof EEPROMDATA f + i)%nat := v]> e.

Definition EepromSetVideoFormat (format : Z) (e : list Z) : outcome (list Z) :=
  let mask := Z.lor (Z.lor EEPROM_VidScreenFullScreen EEPROM_VidScreenWidescreen)
                    EEPROM_VidScreenLetterbox in
  let v := u8 (Z.land (octet VideoFlags 2 e) (Z.lnot mask)) in
  update_checksum3 (set_octet VideoFlags 2 (u8 (Z.lor v format)) e).

(** ** The encrypted section *)

Section crypto.
Context (stack : Sha1.SHA1Context).

Abbreviation hmac := (HddKey.HMAC_hdd_calculation stack).

(** The body of the loop of [decryptEEPROMData] for one version: the
    decrypted local copy, and whether the confirmation hash matches. *)
Definition decrypt_try (counter : Z) (e : list Z) : outcome (list Z * bool) :=
  let local := take 0x30 e in
  baKeyHash ← hmac counter [take 20 local];
  RC4_key ← Rc4.rc4_prepare_key baKeyHash 20;
  let '(dec, _) := Rc4.rc4_crypt (take 28 (drop 20 local)) RC4_key in
  let local := take 20 local ++ dec in
  baDataHashConfirm ← hmac counter [take 8 (drop 20 local); take 20 (drop 28 local)];
  mret (local, bool_decide (take 0x14 local = baDataHashConfirm)).

(** [n] versions left to try from [counter]. *)
Fixpoint decrypt_loop (n : nat) (counter : Z) (e local : list Z) : outcome (Z * list Z) :=
  match n with
  | O => Ok (EEPROM_EncryptInvalid, local)
  | S n' =>
      '(local, ok) ← decrypt_try counter e;
      if (ok : bool) then Ok (counter, local) else decrypt_loop n' (counter + 1) e local
  end.

Definition decryptEEPROMData (e : list Z) : outcome (Z * list Z) :=
  if (0x30 <=? length e)%nat then decrypt_loop 3 EEPROM_EncryptV1_0 e [] else UB.

(** Returns the caller's buffer, which is overwritten, and the target. *)
Definition encryptEEPROMData (decryptedInput target : list Z) (targetVersion : Z)
  : outcome (list Z * list Z) :=
  confirm ← hmac targetVersion [take 8 (drop 20 decryptedInput); take 20 (drop 28 decryptedInput)];
  let d := confirm ++ drop 20 decryptedInput in
  baKeyHash ← hmac targetVersion [take 20 d];
  RC4_key ← Rc4.rc4_prepare_key baKeyHash 20;
  let '(enc, _) := Rc4.rc4_crypt (take 28 (drop 20 d)) RC4_key in
  let d := take 20 d ++ enc in
  mret (d, take 0x30 d ++ drop 0x30 target).

(** [BootHddKeyGenerateEepromKeyData] of [BootHddKey.c]. *)
Definition BootHddKeyGenerateEepromKeyData (e : list Z) : outcome (Z * list Z) :=
  '(version, local) ← decryptEEPROMData e;
  mret (version, take 16 (drop 28 local)).

Definition getGameRegionValue (e : list Z) : outcome Z :=
  '(version, local) ← decryptEEPROMData e;
  mret (if EEPROM_EncryptV1_6 <? version then EEPROM_XBERegionInvalid
        else
          let gameRegion := le_val (take 4 (drop (28 + 16) local)) in
          if gameRegion =? EEPROM_XBERegionJapan then EEPROM_XBERegionJapan
          else if gameRegion =? EEPROM_XBERegionEuropeAustralia
          then EEPROM_XBERegionEuropeAustralia
          else if gameRegion =? EEPROM_XBERegionNorthAmerica then EEPROM_XBERegionNorthAmerica
          else EEPROM_XBERegionInvalid).

(** The result and the edited image. *)
Definition setGameRegionValue (value : Z) (e : list Z) : outcome (Z * list Z) :=
  '(version, local) ← decryptEEPROMData e;
  if EEPROM_EncryptV1_6 <? version then mret (-1, e)
  else
    let local := take (28 + 16) local ++ le_bytes 4 value in
    '(_, e) ← encryptEEPROMData local e version;
    mret (value, e).

Definition EepromSanityCheck (e : list Z) : outcome Z :=
  '(version, local) ← decryptEEPROMData e;
  mret (
    if (EEPROM_EncryptV1_0 <=? version) && (version <=? EEPROM_EncryptV1_6) then
      let region := le_val (take 4 (drop 44 local)) in
      if negb (region =? EEPROM_XBERegionEuropeAustralia) &&
         negb (region =? EEPROM_XBERegionJapan) &&
         negb (region =? EEPROM_XBERegionNorthAmerica) then EEPROM_EncryptInvalid else
      let std := le_val (field VideoStandard e) in
      if negb (std =? EEPROM_VideoStandardNTSC_J) && negb (std =? EEPROM_VideoStandardNTSC_M) &&
         negb (std =? EEPROM_VideoStandardPAL_I) then EEPROM_EncryptInvalid else
      if foldr Z.lor 0 [EEPROM_VidResolutionEnable720p; EEPROM_VidResolutionEnable1080i;
                        EEPROM_VidResolutionEnable480p; EEPROM_VidScreenFullScreen;
                        EEPROM_VidScreenWidescreen; EEPROM_VidScreenLetterbox]
         <=? octet VideoFlags 2 e then EEPROM_EncryptInvalid else
      if negb (octet DVDPlaybackKitZone 1 e =? 0) || negb (octet DVDPlaybackKitZone 2 e =? 0) ||
         negb (octet DVDPlaybackKitZone 3 e =? 0) then EEPROM_EncryptInvalid else
      if EEPROM_DVDRegionAirlines <? octet DVDPlaybackKitZone 0 e then EEPROM_EncryptInvalid else
      version
    else EEPROM_EncryptInvalid).
End crypto.

(** ** Write-back *)

(** [WriteToSMBus(0x54, address, 1, data)]. *)
Record smbus_write := mkWrite { smb_device : Z; smb_address : Z; smb_size : Z; smb_data : Z }.

Definition BootEepromWriteEntireEEPROM (e : list Z) : list smbus_write :=
  imap (λ i b, mkWrite 0x54 (Z.of_nat i) 1 b) (take (sizeof EEPROMDATA) e).

Fixpoint compare_write_loop (i : nat) (pb pc : list Z) : list smbus_write :=
  match pb, pc with
  | b :: pb', c :: pc' =>
      (if b =? c then [] else [mkWrite 0x54 (Z.of_nat i) 1 b]) ++ compare_write_loop (S i) pb' pc'
  | _, _ => []
  end.

Definition BootEepromCompareAndWriteEEPROM (e realeeprom : list Z) : list smbus_write :=
  compare_write_loop 0 (take (sizeof EEPROMDATA) e) (take (sizeof EEPROMDATA) realeeprom).

Definition BootEepromReloadEEPROM (origEeprom : list Z) : list Z := origEeprom.

Definition assertWriteEEPROM (e origEeprom : list Z) : list smbus_write :=
  BootEepromCompareAndWriteEEPROM e (BootEepromReloadEEPROM origEeprom).

(** ** The change list *)

Inductive EEPROMModItem :=
| EEPROMModItem_HDDKkey | EEPROMModItem_XBERegion
| EEPROMModItem_SerialNumber | EEPROMModItem_MACAddress | EEPROMModItem_VideoStandard
| EEPROMModItem_VideoFlags_Format | EEPROMModItem_VideoFlags_480p
| EEPROMModItem_VideoFlags_720p | EEPROMModItem_VideoFlags_1080i
| EEPROMModItem_DVDPlaybackKitZone.

(** The linked entries in order, each with the item it is about; the texts
    made for display are not modelled. *)
Record EEPROMChangeList := mkChanges { changeCount : Z; changeEntries : list EEPROMModItem }.

Definition eepromChangeTrackerInit : EEPROMChangeList := mkChanges 0 [].
Definition cleanEEPROMSettingsChangeListStruct (l : EEPROMChangeList) : EEPROMChangeList :=
  mkChanges 0 [].

Definition putNewChangeInList (l : EEPROMChangeList) (change : EEPROMModItem) : EEPROMChangeList :=
  match changeEntries l with
  | [] => mkChanges (changeCount l) [change]
  | es => mkChanges (u8 (changeCount l + 1)) (es ++ [change])
  end.

(** One guarded item: [nbChanges += 1], and an entry when [genStrings]. *)
Definition note_change (genStrings changed : bool) (item : EEPROMModItem)
    (st : Z * EEPROMChangeList) : Z * EEPROMChangeList :=
  if changed
  then (u8 (st.1 + 1), if genStrings then putNewChangeInList st.2 item else st.2)
  else st.

Definition differ (a b : list Z) : bool := bool_decide (a ≠ b).
Definition flag_differ (mask : Z) (orig e : list Z) : bool :=
  negb (Z.land (octet VideoFlags 2 orig) mask =? Z.land (octet VideoFlags 2 e) mask).

Definition list_encrypted (stack : Sha1.SHA1Context) (gen : bool) (e orig : list Z)
    (st : Z * EEPROMChangeList) : outcome (Z * EEPROMChangeList) :=
  if differ (field HMAC_SHA1_Hash orig) (field HMAC_SHA1_Hash e) then
    '(_, origHDDKey) ← BootHddKeyGenerateEepromKeyData stack orig;
    '(_, HDDKey) ← BootHddKeyGenerateEepromKeyData stack e;
    origGameRegion ← getGameRegionValue stack orig;
    gameRegion ← getGameRegionValue stack e;
    mret (note_change gen (negb (origGameRegion =? gameRegion)) EEPROMModItem_XBERegion
           (note_change gen (differ origHDDKey HDDKey) EEPROMModItem_HDDKkey st))
  else mret st.

Definition list_checksum2 (gen : bool) (e orig : list Z) (st : Z * EEPROMChangeList)
    : Z * EEPROMChangeList :=
  if le_val (field Checksum2 e) =? le_val (field Checksum2 orig) then st else
  let st := note_change gen (differ (field SerialNumber orig) (field SerialNumber e))
              EEPROMModItem_SerialNumber st in
  let st := note_change gen (differ (field MACAddress orig) (field MACAddress e))
              EEPROMModItem_MACAddress st in
  note_change gen (negb (le_val (field VideoStandard orig) =? le_val (field VideoStandard e)))
    EEPROMModItem_VideoStandard st.

Definition list_checksum3 (gen : bool) (e orig : list Z) (st : Z * EEPROMChangeList)
    : Z * EEPROMChangeList :=
  let new := le_val (field Checksum3 e) in
  let old := le_val (field Checksum3 orig) in
  if new =? old then st else
  if (new =? 0xFFFFFFFF) && negb (old =? 0xFFFFFFFF) then (u8 (st.1 + 1), st.2) else
  let st := note_change gen (flag_differ 0x11 orig e) EEPROMModItem_VideoFlags_Format st in
  let st := note_change gen (flag_differ EEPROM_VidResolutionEnable480p orig e)
              EEPROMModItem_VideoFlags_480p st in
  let st := note_change gen (flag_differ EEPROM_VidResolutionEnable720p orig e)
              EEPROMModItem_VideoFlags_720p st in
  let st := note_change gen (flag_differ EEPROM_VidResolutionEnable1080i orig e)
              EEPROMModItem_VideoFlags_1080i st in
  note_change gen (negb (octet DVDPlaybackKitZone 0 orig =? octet DVDPlaybackKitZone 0 e))
    EEPROMModItem_DVDPlaybackKitZone st.

(** The argument [out] of the source is not used: entries go to the global list. *)
Definition generateEEPROMChangeList (stack : Sha1.SHA1Context) (genStrings : bool)
    (e orig : list Z) (eepromChangeList : EEPROMChangeList) : outcome (Z * EEPROMChangeList) :=
  st ← list_encrypted stack genStrings e orig (0, eepromChangeList);
  mret (list_checksum3 genStrings e orig (list_checksum2 genStrings e orig st)).

(** ** The hash and the cipher of the section *)

(** The proofs reason with the lemmas of the hash and the cipher, never by
    computing them. *)
Strategy opaque [HddKey.HMAC_hdd_calculation Rc4.rc4_prepare_key Rc4.rc4_crypt
                 Sha1.sha1_hash_from].

Definition hmac_ref (version : Z) (m : list Z) : list Z :=
  Sha1.sha1_hash_from (HddKey.hmac2_iv version) 64
    (Sha1.sha1_hash_from (HddKey.hmac1_iv version) 64 m).

Lemma hmac_ref_octets version m :
  Forall byte (hmac_ref version m) ∧ length (hmac_ref version m) = 20%nat.
Proof. apply HddKey.sha1_hash_from_octets. Qed.

Lemma hmac_key version m :
  ∃ k, Rc4.rc4_prepare_key (hmac_ref version m) 20 = Ok k ∧ Rc4.rc4_wf k.
Proof.
  destruct (hmac_ref_octets version m) as [Hb Hl]. apply Rc4.rc4_prepare_wf; [lia|lia|done].
Qed.

Lemma length_EEPROMDATA : sizeof EEPROMDATA = 256%nat.
Proof. reflexivity. Qed.

Section crypto_lemmas.
Context (stack : Sha1.SHA1Context) (Hstack : length (Sha1.Message_Block stack) = 64%nat).

Lemma hmac_eval version parts :
  Forall (Forall byte) parts → (length (concat parts) <= 256)%nat →
  HddKey.HMAC_hdd_calculation stack version parts = Ok (hmac_ref version (concat parts)).
Proof. intros Hb Hl. apply HddKey.HMAC_hdd_hash; [done|done|lia]. Qed.

(** The two parts the confirmation hash reads are the 28 octets after the hash. *)
Lemma confirm_eval version (d : list Z) :
  Forall byte d → length d = 48%nat →
  HddKey.HMAC_hdd_calculation stack version [take 8 (drop 20 d); take 20 (drop 28 d)] =
  Ok (hmac_ref version (drop 20 d)).
Proof.
  intros Hb Hl.
  rewrite hmac_eval.
  - f_equal. f_equal. cbn [concat]. rewrite app_nil_r, (take_ge (drop 28 d)) by len.
    change 28%nat with (20 + 8)%nat. rewrite <- drop_drop. apply take_drop.
  - repeat constructor; by apply Forall_take, Forall_drop.
  - cbn [concat]. rewrite app_nil_r. len.
Qed.

Lemma key_eval version (h : list Z) :
  Forall byte h → length h = 20%nat →
  HddKey.HMAC_hdd_calculation stack version [h] = Ok (hmac_ref version h).
Proof.
  intros Hb Hl. rewrite hmac_eval; cbn [concat]; rewrite ?app_nil_r; [done|by constructor|lia].
Qed.

(** What the loop body computes, on any image. *)
Lemma decrypt_try_eval version e :
  Forall byte e → (48 <= length e)%nat →
  ∃ k, Rc4.rc4_prepare_key (hmac_ref version (take 20 e)) 20 = Ok k ∧ Rc4.rc4_wf k ∧
    let dec := (Rc4.rc4_crypt (take 28 (drop 20 e)) k).1 in
    decrypt_try stack version e =
    Ok (take 20 e ++ dec, bool_decide (take 20 e = hmac_ref version dec)).
Proof.
  intros Hb Hl. destruct (hmac_key version (take 20 e)) as (k & Hk & Hwf).
  exists k. split_and!; [done|done|]. cbn zeta. unfold decrypt_try.
  assert (length (take 20 e) = 20%nat) as Hl20 by len.
  assert (take 20 (take 0x30 e) = take 20 e) as -> by (rewrite take_take; done).
  assert (take 28 (drop 20 (take 0x30 e)) = take 28 (drop 20 e)) as ->.
  { rewrite skipn_firstn_comm, take_take. done. }
  rewrite key_eval by (done || by apply Forall_take). rewrite bind_ok. rewrite Hk. rewrite bind_ok.
  assert (Forall byte (take 28 (drop 20 e))) as Hb28 by by apply Forall_take, Forall_drop.
  pose proof (Rc4.rc4_crypt_wf _ k Hwf Hb28) as [Hdb _].
  pose proof (Rc4.rc4_crypt_length (take 28 (drop 20 e)) k) as Hdl.
  destruct (Rc4.rc4_crypt (take 28 (drop 20 e)) k) as [dec k']. cbn [fst] in *.
  rewrite confirm_eval.
  - rewrite bind_ok. rewrite (drop_app_length' (take 20 e) dec) by done.
    by rewrite (take_app_length' (take 20 e) dec) by done.
  - apply Forall_app. split; [by apply Forall_take|done].
  - rewrite length_app, Hdl. len.
Qed.

Lemma decrypt_try_total version e :
  Forall byte e → (48 <= length e)%nat →
  ∃ local ok, decrypt_try stack version e = Ok (local, ok) ∧
    length local = 48%nat ∧ Forall byte local.
Proof.
  intros Hb Hl. destruct (decrypt_try_eval version e Hb Hl) as (k & _ & Hwf & ->).
  eexists _, _. split; [reflexivity|].
  pose proof (Rc4.rc4_crypt_length (take 28 (drop 20 e)) k) as Hdl.
  split; [rewrite length_app, Hdl; len|].
  apply Forall_app; split; [by apply Forall_take|].
  apply Rc4.rc4_crypt_wf; [done|by apply Forall_take, Forall_drop].
Qed.

(** The image [encryptEEPROMData] builds. *)
Lemma encrypt_eval d target version :
  Forall byte d → length d = 48%nat →
  ∃ k, let h := hmac_ref version (drop 20 d) in
    Rc4.rc4_prepare_key (hmac_ref version h) 20 = Ok k ∧ Rc4.rc4_wf k ∧
    let sealed := h ++ (Rc4.rc4_crypt (drop 20 d) k).1 in
    encryptEEPROMData stack d target version = Ok (sealed, sealed ++ drop 48 target).
Proof.
  intros Hb Hl. pose proof (hmac_ref_octets version (drop 20 d)) as [Hhb Hhl].
  set (h := hmac_ref version (drop 20 d)) in *.
  destruct (hmac_key version h) as (k & Hk & Hwf). exists k. cbn zeta. split_and!; [done|done|].
  unfold encryptEEPROMData. rewrite confirm_eval by done. fold h. rewrite bind_ok.
  rewrite (take_app_length' h), (drop_app_length' h) by done.
  rewrite key_eval by done. rewrite bind_ok. rewrite Hk. rewrite bind_ok.
  rewrite (take_ge (drop 20 d)) by len.
  pose proof (Rc4.rc4_crypt_length (drop 20 d) k) as Hel. rewrite length_drop in Hel.
  destruct (Rc4.rc4_crypt (drop 20 d) k) as [enc k']. cbn [fst] in *.
  by rewrite (take_ge (h ++ enc)) by (rewrite length_app; lia).
Qed.

(** The version that sealed an image confirms it and recovers the data. *)
Lemma decrypt_sealed d target version buf e :
  Forall byte d → length d = 48%nat → Forall byte target →
  encryptEEPROMData stack d target version = Ok (buf, e) →
  Forall byte e ∧ (48 <= length e)%nat ∧ drop 48 e = drop 48 target ∧
  decrypt_try stack version e = Ok (hmac_ref version (drop 20 d) ++ drop 20 d, true).
Proof.
  intros Hb Hl Ht Henc.
  destruct (encrypt_eval d target version Hb Hl) as (k & Hk & Hwf & Heq).
  cbn zeta in Heq, Hk. rewrite Henc in Heq. simplify_eq.
  set (h := hmac_ref version (drop 20 d)) in *.
  pose proof (hmac_ref_octets version (drop 20 d)) as [Hhb Hhl]. fold h in Hhb, Hhl.
  pose proof (Rc4.rc4_crypt_length (drop 20 d) k) as Hel. rewrite length_drop in Hel.
  pose proof (Rc4.rc4_crypt_wf (drop 20 d) k Hwf (Forall_drop _ _ _ Hb)) as [Heb _].
  pose proof (Rc4.rc4_crypt_involutive (drop 20 d) k) as Hinv.
  set (enc := (Rc4.rc4_crypt (drop 20 d) k).1) in *.
  assert (Forall byte ((h ++ enc) ++ drop 48 target)) as Hbe.
  { rewrite !Forall_app. split_and!; [done|done|by apply Forall_drop]. }
  assert (length (h ++ enc) = 48%nat) as Hs by (rewrite length_app; lia).
  assert (48 <= length ((h ++ enc) ++ drop 48 target))%nat as Hle by (rewrite length_app; lia).
  split_and!; [done|done|by apply drop_app_length'|].
  destruct (decrypt_try_eval version _ Hbe Hle) as (k2 & Hk2 & _ & ->).
  rewrite <- app_assoc in *. rewrite (take_app_length' h) in * by done.
  rewrite (drop_app_length' h), (take_app_length' enc) by lia.
  rewrite Hk in Hk2. simplify_eq. rewrite Hinv. cbn [fst]. fold h.
  by rewrite bool_decide_eq_true_2.
Qed.

(** [version] does not confirm [e]. *)
Definition rejects (version : Z) (e : list Z) : Prop :=
  ∃ local, decrypt_try stack version e = Ok (local, false).

Lemma decrypt_loop_first n counter e acc version local :
  counter <= version < counter + Z.of_nat n →
  (∀ w, counter <= w < version → rejects w e) →
  decrypt_try stack version e = Ok (local, true) →
  decrypt_loop stack n counter e acc = Ok (version, local).
Proof.
  revert counter acc. induction n as [|n IH]; intros counter acc Hv Hrej Hok; [lia|].
  cbn [decrypt_loop]. destruct (decide (counter = version)) as [->|Hne].
  - rewrite Hok. by rewrite bind_ok.
  - destruct (Hrej counter) as [l ->]; [lia|]. rewrite bind_ok. apply IH; [lia| |done].
    intros w Hw. apply Hrej. lia.
Qed.

Lemma decrypt_first e version local :
  (48 <= length e)%nat → 10 <= version <= 12 → (∀ w, 10 <= w < version → rejects w e) →
  decrypt_try stack version e = Ok (local, true) →
  decryptEEPROMData stack e = Ok (version, local).
Proof.
  intros Hl Hv Hrej Hok. unfold decryptEEPROMData. rewrite (proj2 (Nat.leb_le _ _)) by done.
  unfold EEPROM_EncryptV1_0. eapply decrypt_loop_first; [lia|done|done].
Qed.

Lemma decrypt_loop_total n counter e acc :
  Forall byte e → (48 <= length e)%nat → 0 < counter →
  (n = 0%nat → length acc = 48%nat ∧ Forall byte acc) →
  ∃ v local, decrypt_loop stack n counter e acc = Ok (v, local) ∧
    length local = 48%nat ∧ Forall byte local ∧
    (v = 0 ∨ counter <= v < counter + Z.of_nat n).
Proof.
  intros Hb Hl. revert counter acc. induction n as [|n IH]; intros counter acc Hc Hacc;
    cbn [decrypt_loop].
  - destruct (Hacc eq_refl). exists 0, acc. split_and!; [done..|by left].
  - destruct (decrypt_try_total counter e Hb Hl) as (local & ok & -> & Hll & Hlb). rewrite bind_ok.
    destruct ok; [exists counter, local; split_and!; [done..|right; lia]|].
    destruct (IH (counter + 1) local) as (v & l & -> & ? & ? & ?); [lia|done|].
    exists v, l. split_and!; [done..|lia].
Qed.

(** Decryption is defined on every image and its result is a known version or 0. *)
Lemma decrypt_total e :
  Forall byte e → (48 <= length e)%nat →
  ∃ v local, decryptEEPROMData stack e = Ok (v, local) ∧ length local = 48%nat ∧
    Forall byte local ∧ (v = 0 ∨ 10 <= v <= 12).
Proof.
  intros Hb Hl. unfold decryptEEPROMData. rewrite (proj2 (Nat.leb_le _ _)) by done.
  destruct (decrypt_loop_total 3 EEPROM_EncryptV1_0 e []) as (v & l & -> & ? & ? & Hv);
    [done..|].
  exists v, l. unfold EEPROM_EncryptV1_0 in Hv. split_and!; [done..|lia].
Qed.
End crypto_lemmas.

(** The guards of the region functions do not fire on a result of decryption. *)
Lemma version_guard v : v = 0 ∨ 10 <= v <= 12 → (EEPROM_EncryptV1_6 <? v) = false.
Proof. unfold EEPROM_EncryptV1_6. intros. apply Z.ltb_ge. lia. Qed.

(** [setGameRegionValue] seals the edited section, whatever decryption said. *)
Lemma set_region_eval stack (Hst : length (Sha1.Message_Block stack) = 64%nat)
    e value version local :
  Forall byte e → (48 <= length e)%nat → decryptEEPROMData stack e = Ok (version, local) →
  let d := take 44 local ++ le_bytes 4 value in
  ∃ buf e', encryptEEPROMData stack d e version = Ok (buf, e') ∧
    setGameRegionValue stack value e = Ok (value, e') ∧
    Forall byte d ∧ length d = 48%nat ∧ length local = 48%nat ∧
    (version = 0 ∨ 10 <= version <= 12).
Proof.
  intros Hb Hl Hdec d.
  destruct (decrypt_total stack Hst e Hb Hl) as (v & lc & Hd & Hll & Hlb & Hv).
  rewrite Hdec in Hd. simplify_eq.
  assert (Forall byte d) as Hdb
    by (apply Forall_app; split; [by apply Forall_take|apply le_bytes_byte]).
  assert (length d = 48%nat) as Hdl by (unfold d; rewrite length_app, length_le_bytes; len).
  destruct (encrypt_eval stack Hst d e v Hdb Hdl) as (k & _ & _ & Henc). cbn zeta in Henc.
  eexists _, _. split; [exact Henc|]. split_and!; try done.
  unfold setGameRegionValue. rewrite Hdec, bind_ok, (version_guard v Hv).
  change (28 + 16)%nat with 44%nat. cbn zeta. fold d. by rewrite Henc, bind_ok.
Qed.

Lemma region_fields version local value :
  length local = 48%nat →
  let d := take 44 local ++ le_bytes 4 value in
  let local' := hmac_ref version (drop 20 d) ++ drop 20 d in
  take 4 (drop 44 local') = le_bytes 4 value ∧
  take 16 (drop 28 local') = take 16 (drop 28 local).
Proof.
  intros Hl d local'. destruct (hmac_ref_octets version (drop 20 d)) as [_ Hhl].
  assert (∀ n, drop (20 + n) local' = drop (20 + n) d) as Hdrop.
  { intros n. unfold local'. rewrite <- drop_drop, drop_app_length' by done. by rewrite drop_drop. }
  rewrite (Hdrop 24%nat : drop 44 local' = _), (Hdrop 8%nat : drop 28 local' = _). split.
  - unfold d. rewrite drop_app_length' by len. apply take_ge. by rewrite length_le_bytes.
  - unfold d. rewrite drop_app_le, take_app_le by len. rewrite skipn_firstn_comm, take_take.
    done.
Qed.

(** ** Checksum lemmas *)

(** The sum the loop subtracts. *)
Fixpoint crc_sum (fuel l dataLen : nat) (d : list Z) : Z :=
  match fuel with
  | O => 0
  | S fuel' => if (l <? dataLen)%nat then le16_at d l + crc_sum fuel' (l + 4) dataLen d else 0
  end.

Lemma crc_pos_loop_sum fuel l n d v :
  0 <= v < 2 ^ 16 → crc_pos_loop fuel l n d v = u16 (v - crc_sum fuel l n d).
Proof.
  revert l v. induction fuel as [|fuel IH]; intros l v Hv; cbn [crc_pos_loop crc_sum].
  - unfold u16. rewrite Z.sub_0_r, Z.mod_small; done.
  - destruct (l <? n)%nat; [|unfold u16; rewrite Z.sub_0_r, Z.mod_small; done].
    rewrite IH by (apply Z.mod_pos_bound; lia). unfold u16.
    rewrite Zminus_mod_idemp_l. f_equal. lia.
Qed.

(** A series that starts after the octet [S k] does not see it. *)
Lemma crc_sum_ext fuel l n d d' k :
  (k < l)%nat → (∀ j, j ≠ S k → nth j d 0 = nth j d' 0) → (S k < l)%nat ∨ l ≠ S k →
  crc_sum fuel l n d = crc_sum fuel l n d'.
Proof.
  intros Hk Hext Hl. revert l Hk Hl. induction fuel as [|fuel IH]; intros l Hk Hl; [done|].
  cbn [crc_sum]. destruct (l <? n)%nat; [|done].
  rewrite (IH (l + 4)%nat) by lia. unfold le16_at. rewrite !Hext by lia. done.
Qed.

(** The series through [k] counts the octet [S k] once, in its high half. *)
Lemma crc_sum_diff fuel i n d d' k :
  (∀ j, j ≠ S k → nth j d 0 = nth j d' 0) → (k < n)%nat →
  (i <= k)%nat → (Nat.modulo (k - i) 4 = 0)%nat → (k - i < 4 * fuel)%nat →
  crc_sum fuel i n d - crc_sum fuel i n d' = 256 * (nth (S k) d 0 - nth (S k) d' 0).
Proof.
  intros Hext Hkn. revert i. induction fuel as [|fuel IH]; intros i Hi Hm Hf; [lia|].
  cbn [crc_sum]. rewrite (proj2 (Nat.ltb_lt i n)) by lia.
  destruct (decide (i = k)) as [->|Hne].
  - rewrite (crc_sum_ext fuel (k + 4) n d d' k) by (done || lia). unfold le16_at.
    rewrite (Hext k) by lia. lia.
  - assert (4 <= k - i)%nat by (destruct (k - i)%nat as [|[|[|[|]]]] eqn:E; cbn in Hm; lia).
    assert (Nat.modulo (k - (i + 4)) 4 = 0)%nat as Hm'.
    { replace (k - i)%nat with (k - (i + 4) + 1 * 4)%nat in Hm by lia.
      by rewrite Nat.Div0.mod_add in Hm. }
    specialize (IH (i + 4)%nat ltac:(lia) Hm' ltac:(lia)).
    unfold le16_at. rewrite (Hext i), (Hext (S i)) by lia. lia.
Qed.

Lemma crc_octet_div v : 0 <= v < 2 ^ 16 → Z.shiftr (Z.land v 0xFF00) 8 = v / 256.
Proof.
  intros Hv. rewrite Z.shiftr_land. change (Z.shiftr 0xFF00 8) with (Z.ones 8).
  rewrite Z.land_ones, Z.shiftr_div_pow2 by lia. change (2 ^ 8) with 256.
  apply Z.mod_small. split; [apply Z.div_pos; lia|apply Z.div_lt_upper_bound; lia].
Qed.

(** A change of a whole high octet survives the truncation to the high octet. *)
Lemma high_octet_differs a b delta :
  0 < Z.abs delta < 256 → a - b = 256 * delta →
  u16 (65535 - a) / 256 ≠ u16 (65535 - b) / 256.
Proof.
  intros Hd Hab Heq. unfold u16 in Heq. change (2 ^ 16) with 65536 in Heq.
  Z.to_euclidean_division_equations. lia.
Qed.

Lemma EepromCRC_octet data n pos :
  (1 <= n <= 0x5b)%nat → (n <= length data)%nat → (pos < 4)%nat →
  ∃ crc, EepromCRC data n = Ok crc ∧ length crc = 4%nat ∧ Forall byte crc ∧
    nth pos crc 0 = u16 (65535 - crc_sum n pos n (CRC_Data data n)) / 256.
Proof.
  intros Hn Hl Hp. unfold EepromCRC.
  rewrite !(proj2 (Nat.leb_le _ _)) by lia. cbn [andb].
  eexists. split; [reflexivity|].
  assert (∀ p, Z.shiftr (Z.land (crc_pos_loop n p n (CRC_Data data n) 0xFFFF) 0xFF00) 8 =
               u16 (65535 - crc_sum n p n (CRC_Data data n)) / 256) as Hv.
  { intros p. rewrite crc_pos_loop_sum by lia. apply crc_octet_div, Z.mod_pos_bound. lia. }
  cbn [map]. rewrite !Hv. split_and!; [done| |].
  - assert (∀ z, byte (u16 z / 256)) as Hb.
    { intros z. pose proof (Z.mod_pos_bound z (2 ^ 16)). unfold byte, u16.
      change (2 ^ 16) with 65536 in *. Z.to_euclidean_division_equations. lia. }
    repeat constructor; apply Hb.
  - destruct pos as [|[|[|[|]]]]; done || lia.
Qed.

(** The rotated copies of two data that differ at [k] differ at [S k]. *)
Lemma CRC_Data_nth data n j :
  (1 <= n <= length data)%nat →
  nth j (CRC_Data data n) 0 =
  match j with
  | O => nth (n - 1) data 0
  | S j' => if (j' <? n - 1)%nat then nth j' data 0 else 0
  end.
Proof.
  intros Hn. unfold CRC_Data. destruct j as [|j]; [done|]. cbn [nth].
  destruct (Nat.ltb_spec j (n - 1)).
  - rewrite app_nth1 by len. rewrite !nth_lookup, lookup_take_lt by lia. done.
  - rewrite app_nth2 by len. destruct (j - length (take (n - 1) data))%nat as [|[|[|[|[]]]]]; done.
Qed.

(** ** Write-back lemmas *)

(** A byte write as the EEPROM chip at SMBus address 0x54 performs it. *)
Definition chip_write (chip : list Z) (w : smbus_write) : list Z :=
  if smb_device w =? 0x54 then <[Z.to_nat (smb_address w) := smb_data w]> chip else chip.

Lemma chip_write_at pre c rest b :
  chip_write (pre ++ c :: rest) (mkWrite 0x54 (Z.of_nat (length pre)) 1 b) = pre ++ b :: rest.
Proof.
  unfold chip_write. cbn. rewrite Nat2Z.id, insert_app_r_alt by lia.
  by rewrite Nat.sub_diag.
Qed.

Lemma compare_write_apply pre pb pc :
  length pb = length pc →
  foldl chip_write (pre ++ pc) (compare_write_loop (length pre) pb pc) = pre ++ pb.
Proof.
  revert pre pc. induction pb as [|b pb IH]; intros pre [|c pc] Hl; try done.
  cbn [compare_write_loop]. rewrite foldl_app.
  assert (foldl chip_write (pre ++ c :: pc)
            (if b =? c then [] else [mkWrite 0x54 (Z.of_nat (length pre)) 1 b]) =
          (pre ++ [b]) ++ pc) as ->.
  { rewrite <- app_assoc. cbn [app]. destruct (Z.eqb_spec b c) as [->|]; [done|].
    apply chip_write_at. }
  specialize (IH (pre ++ [b]) pc). rewrite length_app, Nat.add_1_r in IH. cbn in Hl.
  rewrite IH by lia. by rewrite <- app_assoc.
Qed.

Lemma compare_write_needed i pb pc :
  Forall (λ w, ∃ j, smb_address w = Z.of_nat (i + j) ∧ smb_data w = nth j pb 0 ∧
                    nth j pb 0 ≠ nth j pc 0) (compare_write_loop i pb pc).
Proof.
  revert i pc. induction pb as [|b pb IH]; intros i [|c pc]; cbn [compare_write_loop]; try done.
  apply Forall_app. split.
  - destruct (Z.eqb_spec b c); [done|]. repeat constructor. exists 0%nat.
    cbn. by rewrite Nat.add_0_r.
  - eapply Forall_impl; [|apply IH]. intros w (j & Ha & Hd & Hne). exists (S j).
    by rewrite Nat.add_succ_r.
Qed.

(** ** Change list lemmas *)

(** A list filled by [putNewChangeInList] alone counts all entries but one. *)
Definition changes_wf (l : EEPROMChangeList) : Prop :=
  (length (changeEntries l) <= 255)%nat ∧
  changeCount l = Z.of_nat (length (changeEntries l) - 1).

Lemma note_change_wf gen b item n l :
  0 <= n < 255 → changes_wf l → (length (changeEntries l) < 255)%nat →
  let st := note_change gen b item (n, l) in
  changes_wf st.2 ∧
  st.1 = n + Z.b2z b ∧
  changeEntries st.2 = changeEntries l ++ (if gen && b then [item] else []).
Proof.
  intros Hn [_ Hc] Hl. cbn zeta. unfold note_change, changes_wf.
  destruct b; [|rewrite andb_false_r, app_nil_r; cbn; split_and!; [lia|done|lia|done]].
  cbn [fst snd Z.b2z]. rewrite u8_id by (unfold byte; lia).
  destruct gen; [|rewrite app_nil_r; split_and!; [lia|done|done|done]].
  unfold putNewChangeInList. destruct l as [cc [|x es]]; cbn in *; [split_and!; done || lia|].
  rewrite u8_id by (unfold byte; lia). split_and!; [len|len|done|done].
Qed.

(** After at most [k] items, with entries made. *)
Definition tracked (k : nat) (st : Z * EEPROMChangeList) : Prop :=
  changes_wf st.2 ∧ st.1 = Z.of_nat (length (changeEntries st.2)) ∧
  (length (changeEntries st.2) <= k)%nat.

Lemma tracked_note k b item st :
  (k < 255)%nat → tracked k st → tracked (S k) (note_change true b item st).
Proof.
  intros Hk (Hwf & Hn & Hle). destruct st as [n l]. cbn [fst snd] in *.
  destruct (note_change_wf true b item n l) as (Hwf' & Hn' & He'); [lia|done|lia|].
  unfold tracked. split_and!; [done|rewrite Hn', He'|rewrite He'];
    destruct b; cbn [andb Z.b2z]; rewrite ?app_nil_r; len.
Qed.

Lemma tracked_mono k k' st : (k <= k')%nat → tracked k st → tracked k' st.
Proof. intros Hk (? & ? & ?). split_and!; done || lia. Qed.

Lemma list_encrypted_tracked stack e orig st :
  list_encrypted stack true e orig (0, eepromChangeTrackerInit) = Ok st → tracked 2 st.
Proof.
  assert (tracked 0 (0, eepromChangeTrackerInit)) as H0 by (unfold tracked, changes_wf; cbn; lia).
  unfold list_encrypted. destruct (differ _ _); [|intros [= <-]; by eapply tracked_mono; [|exact H0]; lia].
  destruct (BootHddKeyGenerateEepromKeyData stack orig) as [[v k]|]; [|done]. rewrite bind_ok.
  destruct (BootHddKeyGenerateEepromKeyData stack e) as [[v' k']|]; [|done]. rewrite bind_ok.
  destruct (getGameRegionValue stack orig) as [r|]; [|done]. rewrite bind_ok.
  destruct (getGameRegionValue stack e) as [r'|]; [|done]. rewrite bind_ok.
  intros [= <-]. do 2 (apply tracked_note; [lia|]). done.
Qed.

Lemma list_checksum2_tracked e orig st :
  tracked 2 st → tracked 5 (list_checksum2 true e orig st).
Proof.
  intros Hst. unfold list_checksum2. destruct (_ =? _).
  - by eapply tracked_mono; [|exact Hst]; lia.
  - do 3 (apply tracked_note; [lia|]). done.
Qed.

Lemma list_checksum3_tracked e orig st :
  le_val (field Checksum3 e) ≠ 0xFFFFFFFF →
  tracked 5 st → tracked 10 (list_checksum3 true e orig st).
Proof.
  intros Hr Hst. unfold list_checksum3. destruct (_ =? le_val (field Checksum3 orig)).
  - by eapply tracked_mono; [|exact Hst]; lia.
  - rewrite (proj2 (Z.eqb_neq _ _) Hr). cbn [andb]. do 5 (apply tracked_note; [lia|]). done.
Qed.

(** ** Video standard lemmas *)

Lemma update_checksum2_spec e :
  length e = sizeof EEPROMDATA →
  ∃ e', update_checksum2 e = Ok e' ∧ length e' = sizeof EEPROMDATA ∧
    (∀ f, f ≠ Checksum2 → field f e' = field f e) ∧
    EepromCRC (drop (offsetof EEPROMDATA SerialNumber) e') 0x28 = Ok (field Checksum2 e').
Proof.
  intros Hl. unfold update_checksum2.
  destruct (EepromCRC_octet (drop (offsetof EEPROMDATA SerialNumber) e) 0x28 0)
    as (crc & Hcrc & Hlen & _ & _); [lia|rewrite length_drop, Hl; apply Nat.leb_le; reflexivity|lia|].
  rewrite Hcrc, bind_ok. eexists. split; [reflexivity|].
  assert (length crc = sizeof_field EEPROMDATA Checksum2) as Hlen' by done.
  split_and!; [by rewrite length_set_field|intros f Hf; by apply get_set_other|].
  rewrite get_set_same by done. rewrite <- Hcrc. f_equal. unfold set_field.
  rewrite app_assoc, drop_app_length'; [by rewrite Hlen|].
  rewrite length_app, length_take, Hl, Hlen. reflexivity.
Qed.

Lemma write_entire_apply pre pb pc :
  length pb = length pc →
  foldl chip_write (pre ++ pc)
    (imap (λ i b, mkWrite 0x54 (Z.of_nat (length pre + i)) 1 b) pb) = pre ++ pb.
Proof.
  revert pre pc. induction pb as [|b pb IH]; intros pre [|c pc] Hl; try done.
  cbn [imap foldl]. rewrite Nat.add_0_r, chip_write_at. cbn in Hl.
  specialize (IH (pre ++ [b]) pc ltac:(lia)). rewrite <- !app_assoc in IH. cbn [app] in IH.
  rewrite <- IH. f_equal. apply imap_ext. intros i x _. cbn. f_equal. len.
Qed.

(** A sealed image to evaluate the definitions on. *)
Definition sample_stack : Sha1.SHA1Context :=
  Sha1.mkSHA1 Sha1.sha1_iv 0 0 0 (replicate 64 0) 0 0.
Definition sample_image : list Z :=
  Eval vm_compute in
    match encryptEEPROMData sample_stack (replicate 44 7 ++ [1; 0; 0; 0]) (replicate 256 0) 10 with
    | Ok (_, e) => e
    | UB => []
    end.
Definition sample_local : list Z :=
  Eval vm_compute in
    match decryptEEPROMData sample_stack sample_image with Ok (_, l) => l | UB => [] end.

(** ** Properties *)

(** The checksum of the EEPROM sections is defined for every length the
    local array allows, and detects the change of any one octet but the last. *)
Theorem EepromCRC_detects data data' n k :
  (1 <= n <= 0x5b)%nat → (n <= length data)%nat → (n <= length data')%nat →
  Forall byte data → Forall byte data' →
  (S k < n)%nat → nth k data 0 ≠ nth k data' 0 →
  (∀ j, (j < n)%nat → j ≠ k → nth j data 0 = nth j data' 0) →
  ∃ crc crc', EepromCRC data n = Ok crc ∧ EepromCRC data' n = Ok crc' ∧ crc ≠ crc'.
Proof.
  intros Hn Hl Hl' Hb Hb' Hk Hne Hsame.
  assert (Nat.modulo k 4 < 4)%nat as Hp by (apply Nat.mod_upper_bound; lia).
  destruct (EepromCRC_octet data n (Nat.modulo k 4) Hn Hl Hp) as (crc & -> & _ & _ & Hc).
  destruct (EepromCRC_octet data' n (Nat.modulo k 4) Hn Hl' Hp) as (crc' & -> & _ & _ & Hc').
  exists crc, crc'. split_and!; [done|done|]. intros ->. rewrite Hc in Hc'. revert Hc'.
  assert (∀ l, Forall byte l → byte (nth k l 0)) as Hbk.
  { intros l Hlb. rewrite nth_lookup. destruct (l !! k) eqn:E; [|done]. by eapply Forall_lookup_1. }
  pose proof (Hbk _ Hb). pose proof (Hbk _ Hb'). unfold byte in *.
  apply (high_octet_differs _ _ (nth k data 0 - nth k data' 0)); [lia|].
  rewrite (crc_sum_diff n _ n _ (CRC_Data data' n) k).
  - rewrite !CRC_Data_nth by lia. by rewrite (proj2 (Nat.ltb_lt k (n - 1))) by lia.
  - intros j Hj. rewrite !CRC_Data_nth by lia. destruct j as [|j]; [apply Hsame; lia|].
    destruct (Nat.ltb_spec j (n - 1)); [apply Hsame; lia|done].
  - lia.
  - apply Nat.Div0.mod_le.
  - pose proof (Nat.div_mod_eq k 4).
    replace (k - Nat.modulo k 4)%nat with (k / 4 * 4)%nat by lia. apply Nat.Div0.mod_mul.
  - lia.
Qed.

Lemma EepromCRC_detects_witness :
  ∃ crc crc', EepromCRC [1; 2; 3] 3 = Ok crc ∧ EepromCRC [1; 7; 3] 3 = Ok crc' ∧ crc ≠ crc'.
Proof.
  apply (EepromCRC_detects [1; 2; 3] [1; 7; 3] 3 1).
  - lia.
  - cbn; lia.
  - cbn; lia.
  - repeat constructor; done.
  - repeat constructor; done.
  - lia.
  - cbn; lia.
  - intros [|[|[|j]]] Hj Hne; [reflexivity|lia|reflexivity|lia].
Defined.

(** C22: sealing a section for a console version always succeeds, changes only
    the 48 octets of the section, and, when no earlier version happens to
    confirm the result, decrypting it finds that version and gives back the
    confounder, the hard-disk key and the region. *)
Theorem encrypt_decrypt_roundtrip stack d target version :
  length (Sha1.Message_Block stack) = 64%nat →
  Forall byte d → length d = 48%nat → Forall byte target → 10 <= version <= 12 →
  ∃ buf e, encryptEEPROMData stack d target version = Ok (buf, e) ∧
    drop 48 e = drop 48 target ∧
    ((∀ w, 10 <= w < version → rejects stack w e) →
     decryptEEPROMData stack e = Ok (version, hmac_ref version (drop 20 d) ++ drop 20 d)).
Proof.
  intros Hst Hb Hl Ht Hv.
  destruct (encrypt_eval stack Hst d target version Hb Hl) as (k & _ & _ & Henc).
  cbn zeta in Henc. eexists _, _. split; [exact Henc|].
  destruct (decrypt_sealed stack Hst d target version _ _ Hb Hl Ht Henc) as (_ & Hle & Hd & Htry).
  split; [done|]. intros Hrej. by apply decrypt_first.
Qed.

Lemma encrypt_decrypt_roundtrip_witness :
  let stack := Sha1.mkSHA1 Sha1.sha1_iv 0 0 0 (replicate 64 0) 0 0 in
  let d := replicate 44 7 ++ [4; 0; 0; 0] in
  ∃ buf e, encryptEEPROMData stack d (replicate 256 0) 10 = Ok (buf, e) ∧
    drop 48 e = drop 48 (replicate 256 0) ∧
    ((∀ w, 10 <= w < 10 → rejects stack w e) →
     decryptEEPROMData stack e = Ok (10, hmac_ref 10 (drop 20 d) ++ drop 20 d)).
Proof.
  cbn zeta. apply (encrypt_decrypt_roundtrip (Sha1.mkSHA1 Sha1.sha1_iv 0 0 0 (replicate 64 0) 0 0)
           (replicate 44 7 ++ [4; 0; 0; 0]) (replicate 256 0) 10).
  - reflexivity.
  - repeat constructor; done.
  - reflexivity.
  - apply Forall_replicate. done.
  - lia.
Defined.

(** C24: setting the game region of an image that decrypts always succeeds and
    changes only the encrypted section; when no earlier version happens to
    confirm the new image, reading the region gives the one set, and the
    hard-disk key and the console version are as before. *)
Theorem setGameRegionValue_get stack e value version local :
  length (Sha1.Message_Block stack) = 64%nat →
  Forall byte e → (48 <= length e)%nat → value ∈ [1; 2; 4] →
  decryptEEPROMData stack e = Ok (version, local) → version ≠ 0 →
  ∃ e', setGameRegionValue stack value e = Ok (value, e') ∧ drop 48 e' = drop 48 e ∧
    ((∀ w, 10 <= w < version → rejects stack w e') →
     getGameRegionValue stack e' = Ok value ∧
     BootHddKeyGenerateEepromKeyData stack e' = BootHddKeyGenerateEepromKeyData stack e).
Proof.
  intros Hst Hb Hl Hval Hdec Hv0.
  destruct (set_region_eval stack Hst e value version local Hb Hl Hdec)
    as (buf & e' & Henc & Hset & Hdb & Hdl & Hll & Hv).
  destruct (decrypt_sealed stack Hst _ e version _ _ Hdb Hdl Hb Henc) as (_ & Hle & Hdr & Htry).
  exists e'. split_and!; [done|done|]. intros Hrej.
  pose proof (decrypt_first stack Hst _ version _ Hle ltac:(lia) Hrej Htry) as Hdec'.
  destruct (region_fields version local value Hll) as [Hreg Hkey].
  unfold getGameRegionValue, BootHddKeyGenerateEepromKeyData.
  rewrite Hdec', Hdec, !bind_ok, (version_guard version Hv).
  change (28 + 16)%nat with 44%nat. rewrite Hreg, Hkey. split; [|done].
  rewrite !elem_of_cons in Hval.
  destruct Hval as [->|[->|[->|Hnil]]]; [reflexivity..|by apply elem_of_nil in Hnil].
Qed.

Lemma setGameRegionValue_get_witness :
  decryptEEPROMData sample_stack sample_image = Ok (10, sample_local) ∧
  ∃ e', setGameRegionValue sample_stack 4 sample_image = Ok (4, e') ∧
    drop 48 e' = drop 48 sample_image ∧
    ((∀ w, 10 <= w < 10 → rejects sample_stack w e') →
     getGameRegionValue sample_stack e' = Ok 4 ∧
     BootHddKeyGenerateEepromKeyData sample_stack e' =
     BootHddKeyGenerateEepromKeyData sample_stack sample_image).
Proof.
  assert (decryptEEPROMData sample_stack sample_image = Ok (10, sample_local)) as Hdec
    by (vm_compute; reflexivity).
  split; [exact Hdec|].
  apply (setGameRegionValue_get sample_stack sample_image 4 10 sample_local).
  - reflexivity.
  - apply (bool_decide_unpack _). vm_compute. exact I.
  - vm_compute. lia.
  - apply (bool_decide_unpack _). vm_compute. exact I.
  - exact Hdec.
  - lia.
Defined.

(** The error result of [setGameRegionValue] is unreachable.  On an image
    that no version decrypts the function still reports the region as set, and
    overwrites the section with one sealed under version 0, whose chaining
    values are those of plain SHA-1. *)
Theorem setGameRegionValue_undecryptable stack e value local :
  length (Sha1.Message_Block stack) = 64%nat →
  Forall byte e → (48 <= length e)%nat →
  decryptEEPROMData stack e = Ok (EEPROM_EncryptInvalid, local) →
  ∃ e', setGameRegionValue stack value e = Ok (value, e') ∧
    decrypt_try stack 0 e' =
    Ok (hmac_ref 0 (drop 20 (take 44 local) ++ le_bytes 4 value) ++
        drop 20 (take 44 local) ++ le_bytes 4 value, true).
Proof.
  intros Hst Hb Hl Hdec.
  destruct (set_region_eval stack Hst e value _ local Hb Hl Hdec)
    as (buf & e' & Henc & Hset & Hdb & Hdl & Hll & _).
  destruct (decrypt_sealed stack Hst _ e _ _ _ Hdb Hdl Hb Henc) as (_ & _ & _ & Htry).
  exists e'. split; [done|]. rewrite drop_app_le in Htry by len. exact Htry.
Qed.

Lemma setGameRegionValue_undecryptable_witness :
  ∃ local, decryptEEPROMData sample_stack (replicate 256 0) = Ok (EEPROM_EncryptInvalid, local) ∧
  ∃ e', setGameRegionValue sample_stack 1 (replicate 256 0) = Ok (1, e') ∧
    decrypt_try sample_stack 0 e' =
    Ok (hmac_ref 0 (drop 20 (take 44 local) ++ le_bytes 4 1) ++
        drop 20 (take 44 local) ++ le_bytes 4 1, true).
Proof.
  eexists. assert (decryptEEPROMData sample_stack (replicate 256 0) = Ok (EEPROM_EncryptInvalid, _))
    as Hdec by (vm_compute; reflexivity).
  split; [exact Hdec|].
  refine (setGameRegionValue_undecryptable sample_stack (replicate 256 0) 1 _ _ _ _ Hdec).
  - reflexivity.
  - clear Hdec. apply Forall_replicate. done.
  - clear Hdec. vm_compute. lia.
Defined.

(** The write-back sends a write only for an octet that differs, with the
    octet held in memory, and after the writes the chip holds the image in
    memory; so does writing the entire image. *)
Theorem assertWriteEEPROM_writes_back e orig :
  length e = sizeof EEPROMDATA → length orig = sizeof EEPROMDATA →
  foldl chip_write orig (assertWriteEEPROM e orig) = e ∧
  Forall (λ w, ∃ j, smb_address w = Z.of_nat j ∧ smb_data w = nth j e 0 ∧ nth j e 0 ≠ nth j orig 0)
    (assertWriteEEPROM e orig) ∧
  foldl chip_write orig (BootEepromWriteEntireEEPROM e) = e.
Proof.
  intros He Ho. unfold assertWriteEEPROM, BootEepromCompareAndWriteEEPROM, BootEepromReloadEEPROM,
    BootEepromWriteEntireEEPROM. rewrite !take_ge by lia. split_and!.
  - apply (compare_write_apply [] e orig). lia.
  - apply (compare_write_needed 0 e orig).
  - apply (write_entire_apply [] e orig). lia.
Qed.

Lemma assertWriteEEPROM_writes_back_witness :
  let e := 9 :: replicate 255 0 in
  let orig := replicate 256 0 in
  assertWriteEEPROM e orig = [mkWrite 0x54 0 1 9] ∧
  foldl chip_write orig (assertWriteEEPROM e orig) = e ∧
  Forall (λ w, ∃ j, smb_address w = Z.of_nat j ∧ smb_data w = nth j e 0 ∧ nth j e 0 ≠ nth j orig 0)
    (assertWriteEEPROM e orig) ∧
  foldl chip_write orig (BootEepromWriteEntireEEPROM e) = e.
Proof.
  cbn zeta. split; [reflexivity|].
  apply (assertWriteEEPROM_writes_back (9 :: replicate 255 0) (replicate 256 0)); reflexivity.
Defined.

(** Setting the video standard stores it, leaves every other field but the
    second checksum as it was, and makes that checksum the one of the section. *)
Theorem EepromSetVideoStandard_spec standard e :
  length e = sizeof EEPROMDATA → 0 <= standard < 2 ^ 32 →
  ∃ e', EepromSetVideoStandard standard e = Ok e' ∧ length e' = sizeof EEPROMDATA ∧
    le_val (field VideoStandard e') = standard ∧
    (∀ f, f ≠ VideoStandard → f ≠ Checksum2 → field f e' = field f e) ∧
    EepromCRC (drop (offsetof EEPROMDATA SerialNumber) e') 0x28 = Ok (field Checksum2 e').
Proof.
  intros Hl Hs. unfold EepromSetVideoStandard.
  set (e1 := with_field VideoStandard (le_bytes 4 standard) e).
  assert (length e1 = sizeof EEPROMDATA) as Hl1
    by (unfold e1; rewrite length_set_field; [done|apply length_le_bytes|done]).
  destruct (update_checksum2_spec e1 Hl1) as (e' & -> & Hl' & Hother & Hcrc).
  exists e'. split_and!; [done|done| | |done].
  - rewrite Hother by done. unfold e1. rewrite get_set_same by (done || apply length_le_bytes).
    by apply le_val_bytes.
  - intros f Hf Hc. rewrite Hother by done. unfold e1.
    by apply get_set_other; [|apply length_le_bytes|].
Qed.

Lemma EepromSetVideoStandard_spec_witness :
  ∃ e', EepromSetVideoStandard EEPROM_VideoStandardPAL_I (replicate 256 0) = Ok e' ∧
    length e' = sizeof EEPROMDATA ∧ le_val (field VideoStandard e') = EEPROM_VideoStandardPAL_I ∧
    (∀ f, f ≠ VideoStandard → f ≠ Checksum2 → field f e' = field f (replicate 256 0)) ∧
    EepromCRC (drop (offsetof EEPROMDATA SerialNumber) e') 0x28 = Ok (field Checksum2 e').
Proof.
  apply (EepromSetVideoStandard_spec EEPROM_VideoStandardPAL_I (replicate 256 0)).
  - reflexivity.
  - unfold EEPROM_VideoStandardPAL_I; lia.
Defined.

(** Unless the edit is a factory reset, the number of changes reported is
    the number of entries listed, while the count kept in the list is one less. *)
Theorem generateEEPROMChangeList_count stack e orig n l :
  generateEEPROMChangeList stack true e orig eepromChangeTrackerInit = Ok (n, l) →
  le_val (field Checksum3 e) ≠ 0xFFFFFFFF →
  n = Z.of_nat (length (changeEntries l)) ∧ n <= 10 ∧
  changeCount l = Z.of_nat (length (changeEntries l) - 1).
Proof.
  intros Hgen Hreset.
  assert (tracked 10 (n, l)) as ((_ & Hc) & Hn & Hle); [|cbn in *; split_and!; [done|lia|done]].
  unfold generateEEPROMChangeList in Hgen.
  destruct (list_encrypted _ _ _ _ _) as [st|] eqn:E; [|done]. rewrite bind_ok in Hgen.
  injection Hgen as <-. apply list_checksum3_tracked; [done|].
  apply list_checksum2_tracked. by eapply list_encrypted_tracked.
Qed.

Lemma generateEEPROMChangeList_count_witness :
  let e := set_octet DVDPlaybackKitZone 0 1 (set_octet Checksum3 0 1 (replicate 256 0)) in
  ∃ n l, generateEEPROMChangeList sample_stack true e (replicate 256 0) eepromChangeTrackerInit =
         Ok (n, l) ∧ l = mkChanges 0 [EEPROMModItem_DVDPlaybackKitZone] ∧
  n = Z.of_nat (length (changeEntries l)) ∧ n <= 10 ∧
  changeCount l = Z.of_nat (length (changeEntries l) - 1).
Proof.
  cbn zeta. exists 1, (mkChanges 0 [EEPROMModItem_DVDPlaybackKitZone]).
  split; [vm_compute; reflexivity|]. split; [reflexivity|].
  apply (generateEEPROMChangeList_count sample_stack
    (set_octet DVDPlaybackKitZone 0 1 (set_octet Checksum3 0 1 (replicate 256 0)))
    (replicate 256 0)).
  - vm_compute; reflexivity.
  - vm_compute; discriminate.
Defined.

End Eeprom.
