(* ===== verification/Hardware.v ===== *)
(** * Modchip and motherboard identification, bank switching
      ([src/xblast/HardwareIdentifier.c], [src/lib/LPCMod/BootLPCMod.c],
      [src/include/lpcmod_v1.h])

    The globals of both files form one state.  An [out] instruction is recorded
    in order; [ports] is what an [in] instruction reads, which is hardware. *)

From S2P Require Import Prelude.

Module Hardware.

(** ** Constants *)

Definition SYSCON_ID_V1 : Z := 0x15.
Definition SYSCON_ID_V1_PRE_EDITION : Z := 0x55.
Definition SYSCON_ID_V1_TSOP : Z := 0x1015.
Definition SYSCON_ID_XT : Z := 0x11.
Definition SYSCON_ID_XT_TSOP : Z := 0x1011.
Definition SYSCON_ID_XX1 : Z := 0xF1.
Definition SYSCON_ID_XX2 : Z := 0xF2.
Definition SYSCON_ID_XXOPX : Z := 0xF5.
Definition SYSCON_ID_XX3 : Z := 0xF8.
Definition SYSCON_ID_X3 : Z := 0x2A.
Definition SYSCON_ID_UNKNOWN : Z := 0.

Definition KILL_MOD : Z := 0x20.
Definition RELEASED0 : Z := 0x00.
Definition BOOTFROMTSOP : Z := 0x50.
Definition BNKFULLTSOP : Z := 0x00.
Definition BNKTSOPSPLIT0 : Z := 0x10.
Definition BNKTSOPSPLIT1 : Z := 0x18.
Definition NOBNKID : Z := 0xFF.
Definition BNK512 : Z := 0x84.
Definition BNK256 : Z := 0x86.
Definition BNKOS : Z := 0x87.

Definition XBLAST_IO : Z := 0xF70D.
Definition XBLAST_CONTROL : Z := 0xF70F.
Definition XODUS_CONTROL : Z := 0x00FF.
Definition SYSCON_REG : Z := 0xF701.

(** An enumerated type in C is an integer: a caller can pass any value. *)
Definition FlashBank : Type := Z.
Definition FlashBank_OSBank : FlashBank := BNKOS.
Definition FlashBank_512Bank : FlashBank := BNK512.
Definition FlashBank_256Bank : FlashBank := BNK256.
Definition FlashBank_FullTSOPBank : FlashBank := BNKFULLTSOP.
Definition FlashBank_SplitTSOP0Bank : FlashBank := BNKTSOPSPLIT0.
Definition FlashBank_SplitTSOP1Bank : FlashBank := BNKTSOPSPLIT1.
Definition FlashBank_NoBank : FlashBank := NOBNKID.

Inductive XboxMotherboardRevision :=
| XboxMotherboardRevision_DEVKIT | XboxMotherboardRevision_DEBUGKIT
| XboxMotherboardRevision_1_0 | XboxMotherboardRevision_1_1 | XboxMotherboardRevision_1_2
| XboxMotherboardRevision_1_4 | XboxMotherboardRevision_1_6 | XboxMotherboardRevision_UNKNOWN.

#[export] Instance mbrev_eq_dec : EqDecision XboxMotherboardRevision.
Proof. solve_decision. Defined.

(** ** State *)

Record GenPurposeIOs := mkGPIO {
  GPO3 : Z; GPO2 : Z; GPO1 : Z; GPO0 : Z; GPI1 : Z; GPI0 : Z; A19BufEn : Z; EN_5V : Z }.

Record sys := mkSys {
  fHasHardware : Z;
  fSpecialEdition : Z;
  mbVersion : XboxMotherboardRevision;
  currentFlashBank : FlashBank;
  xF70ELPCRegister : Z;
  A19controlModBoot : Z;
  TSOPRecoveryMode : bool;
  gpio : GenPurposeIOs;
  io_out : list (Z * Z)   (* the latest first *)
}.

Definition set_hw (v : Z) (s : sys) : sys :=
  mkSys v (fSpecialEdition s) (mbVersion s) (currentFlashBank s) (xF70ELPCRegister s)
        (A19controlModBoot s) (TSOPRecoveryMode s) (gpio s) (io_out s).
Definition set_edition (v : Z) (s : sys) : sys :=
  mkSys (fHasHardware s) v (mbVersion s) (currentFlashBank s) (xF70ELPCRegister s)
        (A19controlModBoot s) (TSOPRecoveryMode s) (gpio s) (io_out s).
Definition set_bank (b : FlashBank) (r : Z) (s : sys) : sys :=
  mkSys (fHasHardware s) (fSpecialEdition s) (mbVersion s) b r
        (A19controlModBoot s) (TSOPRecoveryMode s) (gpio s) (io_out s).
Definition set_recovery (b : bool) (s : sys) : sys :=
  mkSys (fHasHardware s) (fSpecialEdition s) (mbVersion s) (currentFlashBank s)
        (xF70ELPCRegister s) (A19controlModBoot s) b (gpio s) (io_out s).
Definition set_gpio (g : GenPurposeIOs) (s : sys) : sys :=
  mkSys (fHasHardware s) (fSpecialEdition s) (mbVersion s) (currentFlashBank s)
        (xF70ELPCRegister s) (A19controlModBoot s) (TSOPRecoveryMode s) g (io_out s).

Definition WriteToIO (port data : Z) (s : sys) : sys :=
  mkSys (fHasHardware s) (fSpecialEdition s) (mbVersion s) (currentFlashBank s)
        (xF70ELPCRegister s) (A19controlModBoot s) (TSOPRecoveryMode s) (gpio s)
        ((port, u8 data) :: io_out s).

(** ** Predicates *)

Definition isXBlastOnTSOP (s : sys) : bool :=
  (fHasHardware s =? SYSCON_ID_V1_TSOP) || (fHasHardware s =? SYSCON_ID_XT_TSOP).
Definition isXBlastOnLPC (s : sys) : bool :=
  (fHasHardware s =? SYSCON_ID_V1) || (fHasHardware s =? SYSCON_ID_XT).
Definition isXBlastCompatible (s : sys) : bool := isXBlastOnLPC s || isXBlastOnTSOP s.
Definition isPureXBlast (s : sys) : bool :=
  (fHasHardware s =? SYSCON_ID_V1) || (fHasHardware s =? SYSCON_ID_V1_TSOP).
Definition isLCDSupported (s : sys) : bool :=
  isPureXBlast s || (fHasHardware s =? SYSCON_ID_XX1) || (fHasHardware s =? SYSCON_ID_XX2) ||
  (fHasHardware s =? SYSCON_ID_XXOPX) || (fHasHardware s =? SYSCON_ID_XX3) ||
  (fHasHardware s =? SYSCON_ID_X3).
Definition isXecuter3 (s : sys) : bool := fHasHardware s =? SYSCON_ID_X3.
Definition isLCDContrastSupport (s : sys) : bool :=
  isLCDSupported s && negb (isXecuter3 s) && negb (fHasHardware s =? SYSCON_ID_XXOPX).
Definition getMotherboardRevision (s : sys) : XboxMotherboardRevision := mbVersion s.
(** Without the developer and custom-TSOP build options. *)
Definition isTSOPSplitCapable (s : sys) : bool :=
  isPureXBlast s && (bool_decide (mbVersion s = XboxMotherboardRevision_1_1) ||
                     bool_decide (mbVersion s = XboxMotherboardRevision_1_0)).

(** ** Banks *)

Definition switchOSBank (bank : FlashBank) (s : sys) : sys :=
  if isXBlastOnLPC s then WriteToIO XBLAST_CONTROL bank (set_bank bank (u8 bank) s) else s.

Definition switchBootBank (bank : FlashBank) (s : sys) : sys :=
  if isXBlastCompatible s then
    let resultBank := u8 bank in
    let resultBank := if BOOTFROMTSOP <? bank then Z.lor resultBank (A19controlModBoot s)
                      else resultBank in
    WriteToIO XBLAST_CONTROL resultBank s
  else s.

(** The bank selection of [quickboot]; it then reboots. *)
Definition quickboot_bank (bank : Z) (s : sys) : sys :=
  if BOOTFROMTSOP <? bank then switchBootBank bank s
  else if bool_decide (getMotherboardRevision s = XboxMotherboardRevision_1_6) ||
          bool_decide (getMotherboardRevision s = XboxMotherboardRevision_UNKNOWN)
  then switchBootBank KILL_MOD s
  else switchBootBank bank s.

(** ** General-purpose lines *)

Section ports.
Context (ports : Z → Z).

Definition ReadFromIO (address : Z) : Z := u8 (ports address).

Definition LPCMod_HW_rev : Z := ReadFromIO SYSCON_REG.

Definition gpio_input (s : sys) : Z := if isPureXBlast s then ReadFromIO XBLAST_IO else 0.

Definition bit (v i : Z) : Z := Z.shiftr (Z.land v (Z.shiftl 1 i)) i.

Definition LPCMod_ReadIO (s : sys) : sys :=
  let temp := gpio_input s in
  set_gpio (mkGPIO (bit temp 7) (bit temp 6) (bit temp 5) (bit temp 4)
                   (bit temp 3) (bit temp 2) (bit temp 1) (bit temp 0)) s.

Definition LPCMod_WriteGenPurposeIOs (s : sys) : sys :=
  let g := gpio s in
  WriteToIO XBLAST_IO
    (Z.lor (Z.lor (Z.lor (Z.lor (Z.shiftl (GPO3 g) 7) (Z.shiftl (GPO2 g) 6))
                         (Z.shiftl (GPO1 g) 5)) (Z.shiftl (GPO0 g) 4)) (EN_5V g)) s.

(** [(port & m) ? (value & m) >> i : other]. *)
Definition line (port value i other : Z) : Z :=
  if Z.testbit port i then bit value i else other.

Definition LPCMod_WriteIO (port value : Z) (s : sys) : sys :=
  let temp := gpio_input s in
  LPCMod_WriteGenPurposeIOs
    (set_gpio (mkGPIO (line port value 3 (bit temp 7)) (line port value 2 (bit temp 6))
                      (line port value 1 (bit temp 5)) (line port value 0 (bit temp 4))
                      (bit temp 3) (bit temp 2) (bit temp 1) (bit temp 0)) s).

Definition LPCMod_FastWriteIO (port value : Z) (s : sys) : sys :=
  let g := gpio s in
  LPCMod_WriteGenPurposeIOs
    (set_gpio (mkGPIO (line port value 3 (GPO3 g)) (line port value 2 (GPO2 g))
                      (line port value 1 (GPO1 g)) (line port value 0 (GPO0 g))
                      (GPI1 g) (GPI0 g) (A19BufEn g) (EN_5V g)) s).
End ports.

End Hardware.
