(* ===== verification/Settings.v ===== *)
(** * The settings kept in flash ([src/xblast/settings/XBlastSettingsDefs_V1.h],
      [xblastSettings.c])

    The settings are the octets of [_LPCmodSettings], as the checksum and the
    flash driver see them, with the fields of the nested packed structures.  In
    C [sizeof] of a character constant is the size of an [int], so a text field
    has 24 octets. *)

From Stdlib Require Import String.
From S2P Require Import Prelude Layout Hardware.

Module Settings.
Import Hardware.

Abbreviation length := List.length.

(** ** Layout *)

Inductive settings_field :=
| settingsVersion
| activeBank | altBank | Quickboot | selectedMenuItem | fanSpeed | bootTimeout | LEDColor
| TSOPcontrol | TSOPhide | runBankScript | runBootScript | enableVGA | backgroundColorPreset
| biosName512Bank | biosName256Bank | biosNameTSOPFullSplit0 | biosNameTSOPSplit1
| enableNetwork | useDHCP | staticIP | staticGateway | staticMask | staticDNS1 | staticDNS2
| OSreserved
| enable5V | lcdType | nbLines | lineLength | backlight | contrast | displayMsgBoot
| customTextBoot | displayBIOSNameBoot
| customString0 | customString1 | customString2 | customString3 | LCDreserved
| bakeeprom | scriptSize | scriptData | crc32Value.

#[export] Instance settings_field_eq_dec : EqDecision settings_field.
Proof. solve_decision. Defined.

Definition _TextFieldsMaxLength : nat := 20.
Definition text_size : nat := (_TextFieldsMaxLength + 4)%nat.

Definition _OSsettings_V1 : list (settings_field * nat) :=
  [(activeBank, 1%nat); (altBank, 1%nat); (Quickboot, 1%nat); (selectedMenuItem, 1%nat);
   (fanSpeed, 1%nat); (bootTimeout, 1%nat); (LEDColor, 1%nat); (TSOPcontrol, 1%nat);
   (TSOPhide, 1%nat); (runBankScript, 1%nat); (runBootScript, 1%nat); (enableVGA, 1%nat);
   (backgroundColorPreset, 1%nat);
   (biosName512Bank, text_size); (biosName256Bank, text_size);
   (biosNameTSOPFullSplit0, text_size); (biosNameTSOPSplit1, text_size);
   (enableNetwork, 1%nat); (useDHCP, 1%nat); (staticIP, 4%nat); (staticGateway, 4%nat);
   (staticMask, 4%nat); (staticDNS1, 4%nat); (staticDNS2, 4%nat); (OSreserved, 137%nat)].

Definition _LCDsettings_V1 : list (settings_field * nat) :=
  [(enable5V, 1%nat); (lcdType, 1%nat); (nbLines, 1%nat); (lineLength, 1%nat);
   (backlight, 1%nat); (contrast, 1%nat); (displayMsgBoot, 1%nat); (customTextBoot, 1%nat);
   (displayBIOSNameBoot, 1%nat); (customString0, text_size); (customString1, text_size);
   (customString2, text_size); (customString3, text_size); (LCDreserved, 163%nat)].

Definition sizeof_EEPROMDATA : nat := 256.

Definition ScriptSavedInFlashMaxSizeInBytes : nat :=
  (4 * 1024 - 0x100 - 1 - sizeof _OSsettings_V1 - sizeof _LCDsettings_V1 - sizeof_EEPROMDATA
   - 2 - 4)%nat.

Definition _LPCmodSettings : list (settings_field * nat) :=
  (settingsVersion, 1%nat) :: _OSsettings_V1 ++ _LCDsettings_V1 ++
  [(bakeeprom, sizeof_EEPROMDATA); (scriptSize, 2%nat);
   (scriptData, ScriptSavedInFlashMaxSizeInBytes); (crc32Value, 4%nat)].

Definition CurrentSettingsVersionNumber : Z := 1.

Abbreviation sget := (get_field _LPCmodSettings).
Abbreviation sset := (set_field _LPCmodSettings).

(** ** Defaults *)

Definition HDD4780_DEFAULT_NBLINES : Z := 4.
Definition HDD4780_DEFAULT_LINELGTH : Z := 20.
Definition DEFAULT_FANSPEED : Z := 20.
Definition BOOT_TIMEWAIT : Z := 0.
Definition LED_GREEN : Z := 1.

(** The assignments in order, built without [DEFAULT_ENABLE_VGA]. *)
Definition default_fields (s : sys) : list (settings_field * list Z) :=
  [(settingsVersion, [CurrentSettingsVersionNumber]);
   (activeBank, [if isXBlastCompatible s then BNK512 else NOBNKID]);
   (altBank, [BNKOS]); (Quickboot, [0]); (selectedMenuItem, [BNK512]);
   (fanSpeed, [DEFAULT_FANSPEED]); (bootTimeout, [BOOT_TIMEWAIT]); (LEDColor, [LED_GREEN]);
   (TSOPcontrol, [0]); (TSOPhide, [0]); (runBankScript, [0]); (runBootScript, [0]);
   (enableVGA, [0]);
   (backgroundColorPreset, [if fSpecialEdition s =? SYSCON_ID_V1_PRE_EDITION then 1 else 0]);
   (enableNetwork, [1]); (useDHCP, [1]);
   (staticIP, [192; 168; 0; 250]); (staticGateway, [192; 168; 0; 1]);
   (staticMask, [255; 255; 255; 0]); (staticDNS1, [192; 168; 0; 1]);
   (staticDNS2, [192; 168; 0; 1]);
   (enable5V, [0]); (lcdType, [0]); (nbLines, [HDD4780_DEFAULT_NBLINES]);
   (lineLength, [HDD4780_DEFAULT_LINELGTH]); (backlight, [50]); (contrast, [20]);
   (displayMsgBoot, [0]); (customTextBoot, [0]); (displayBIOSNameBoot, [0])].

Definition name_fields : list settings_field :=
  [biosName512Bank; biosName256Bank; biosNameTSOPFullSplit0; biosNameTSOPSplit1;
   customString0; customString1; customString2; customString3].

(** The loop clears the first 21 octets of each text field; the rest keeps the
    0xFF of the fill. *)
Definition cleared_name : list Z := replicate 21 0 ++ replicate (text_size - 21) 0xFF.

Definition populateSettingsStructWithDefault (s : sys) : list Z :=
  let inout := replicate (sizeof _LPCmodSettings) 0xFF in
  let inout := foldl (λ o '(f, v), sset f v o) inout (default_fields s) in
  let inout := foldl (λ o f, sset f cleared_name o) inout name_fields in
  sset scriptSize [0; 0] inout.

(** ** Names of special settings *)

Definition ActiveBank : Z := 0.
Definition AltBank : Z := 1.
Definition LEDColorIndex : Z := 2.
Definition LCDTypeIndex : Z := 3.

(** [switch] over the values of a table. *)
Fixpoint name_of (l : list (Z * string)) (v : Z) : option string :=
  match l with
  | [] => None
  | (k, n) :: l' => if v =? k then Some n else name_of l' v
  end.

Definition bank_texts : list (Z * string) :=
  [(BNK512, "BNK512"); (BNK256, "BNK256"); (BNKTSOPSPLIT0, "BNKTSOPSPLIT0");
   (BNKFULLTSOP, "BNKFULLTSOP"); (BNKTSOPSPLIT1, "BNKTSOPSPLIT1"); (BNKOS, "BNKOS")]%string.
Definition bank_displays : list (Z * string) :=
  [(BNK512, "512KB bank"); (BNK256, "256KB bank"); (BNKTSOPSPLIT0, "OnBoard Bank0");
   (BNKFULLTSOP, "OnBoard BIOS"); (BNKTSOPSPLIT1, "OnBoard Bank1"); (BNKOS, "XBlast OS")]%string.
Definition led_texts : list (Z * string) :=
  [(0, "Off"); (1, "Green"); (2, "Red"); (3, "Orange"); (4, "Cycle")]%string.
Definition lcd_texts : list (Z * string) := [(0, "HD44780"); (1, "KS0073")]%string.

Definition getSpecialSettingStringCommon (index value : Z) : option string :=
  if index =? LEDColorIndex then name_of led_texts value
  else if index =? LCDTypeIndex then name_of lcd_texts value
  else None.

Definition getSpecialSettingTextString (index value : Z) : option string :=
  if (index =? ActiveBank) || (index =? AltBank) then name_of bank_texts value
  else getSpecialSettingStringCommon index value.

Definition getSpecialSettingDisplayString (index value : Z) : option string :=
  if (index =? ActiveBank) || (index =? AltBank) then name_of bank_displays value
  else getSpecialSettingStringCommon index value.

(** ** Lemmas *)

Lemma sizeof_LPCmodSettings : sizeof _LPCmodSettings = 3840%nat.
Proof. vm_compute. reflexivity. Qed.

Lemma populate_length s : length (populateSettingsStructWithDefault s) = 3840%nat.
Proof.
  unfold populateSettingsStructWithDefault, default_fields, isXBlastCompatible.
  generalize (isXBlastOnLPC s || isXBlastOnTSOP s), (fSpecialEdition s =? SYSCON_ID_V1_PRE_EDITION).
  intros [] []; vm_compute; reflexivity.
Qed.

End Settings.
