(* ===== verification/FlashLowLevel.v ===== *)
(** * Flash command sequences ([src/drivers/flash/FlashLowLevel.c])

    The device is memory mapped: a load or a store at its window is a bus cycle
    the chip sees, and a load can change the state of the chip (the toggle bit).
    [Bus] is that hardware.  Two command sets are supported, "29xxx" (JEDEC
    unlock cycles, toggle-bit status) and "28xxx" (status register).

    [FlashLowLevel] is what the flash driver uses of this file; the functions
    below are one implementation of it. *)

From Stdlib Require Import String.
From S2P Require Import Prelude FlashTypes.

(** ** The hardware *)

Class Bus (H : Type) := {
  bus_read : Z → H → Z * H;
  bus_write : Z → Z → H → H;
  bus_wait_us : Z → H → H
}.

(** ** The interface to the driver *)

Class FlashLowLevel (L : Type) := {
  flashType : L → FlashTypes.KNOWN_FLASH_TYPE;
  FlashLowLevel_Init : ST L unit;
  FlashLowLevel_ReadDevice : ST L bool;
  FlashLowLevel_DeviceIsBusy : ST L bool;
  FlashLowLevel_InititiateSectorErase : Z → ST L unit;
  FlashLowLevel_InititiateBlockErase : Z → ST L unit;
  FlashLowLevel_InititiateChipErase : ST L unit;
  FlashLowLevel_WriteByte : Z → Z → ST L unit;
  FlashLowLevel_ReadByte : Z → ST L Z
}.

Module LowLevel.
Import FlashTypes.

Definition LPCFlashadress : Z := 0xFF000000.

Record OBJECT_FLASH := mkObject {
  m_pbMemoryMappedStartAddress : Z;
  dev_flashType : KNOWN_FLASH_TYPE;
  m_szAdditionalErrorInfo : string;
  m_fIsBelievedCapableOfWriteAndErase : bool
}.

Definition zero_flash : KNOWN_FLASH_TYPE := mkFlash 0 0 String.EmptyString 0 0.

(** The two hexadecimal digits of ["%02X"]. *)
Definition hex_digit (n : Z) : Ascii.ascii :=
  Ascii.ascii_of_N (Z.to_N (if n <? 10 then 48 + n else 55 + n)).
Definition hex2 (n : Z) : string :=
  String (hex_digit (n / 16)) (String (hex_digit (n mod 16)) EmptyString).

Section ops.
Context {H : Type} `{Bus H}.

Record ll := mkLL {
  is28xxxProtocol : bool;
  firstBusyRead : bool;
  lastStatusRegisterState : Z;
  flashDevice : OBJECT_FLASH;
  hw : H
}.

Definition set_protocol (b : bool) (l : ll) : ll :=
  mkLL b (firstBusyRead l) (lastStatusRegisterState l) (flashDevice l) (hw l).
Definition set_first (b : bool) (l : ll) : ll :=
  mkLL (is28xxxProtocol l) b (lastStatusRegisterState l) (flashDevice l) (hw l).
Definition set_status (v : Z) (l : ll) : ll :=
  mkLL (is28xxxProtocol l) (firstBusyRead l) v (flashDevice l) (hw l).
Definition set_device (d : OBJECT_FLASH) (l : ll) : ll :=
  mkLL (is28xxxProtocol l) (firstBusyRead l) (lastStatusRegisterState l) d (hw l).
Definition set_hw (h : H) (l : ll) : ll :=
  mkLL (is28xxxProtocol l) (firstBusyRead l) (lastStatusRegisterState l) (flashDevice l) h.

Definition set_type (t : KNOWN_FLASH_TYPE) (d : OBJECT_FLASH) : OBJECT_FLASH :=
  mkObject (m_pbMemoryMappedStartAddress d) t (m_szAdditionalErrorInfo d)
           (m_fIsBelievedCapableOfWriteAndErase d).
Definition set_info (i : string) (c : bool) (d : OBJECT_FLASH) : OBJECT_FLASH :=
  mkObject (m_pbMemoryMappedStartAddress d) (dev_flashType d) i c.

(** [flashDevice.m_pbMemoryMappedStartAddress[addr]] as a load and as a store. *)
Definition load (addr : Z) : ST ll Z := λ l,
  let '(v, h) := bus_read (u32 (m_pbMemoryMappedStartAddress (flashDevice l) + addr)) (hw l) in
  Ok (u8 v, set_hw h l).
Definition store (addr v : Z) : ST ll unit := λ l,
  Ok (tt, set_hw (bus_write (u32 (m_pbMemoryMappedStartAddress (flashDevice l) + addr)) (u8 v)
                            (hw l)) l).
Definition wait_us_blocking (us : Z) : ST ll unit :=
  modify (λ l, set_hw (bus_wait_us us (hw l)) l).

Definition Init : ST ll unit :=
  modify (λ l, set_device (mkObject LPCFlashadress zero_flash String.EmptyString false) (set_protocol false l)).

Definition ReadByte (addr : Z) : ST ll Z := load addr.

(** ** Status *)

Definition _28xxxDeviceIsBusy : ST ll bool :=
  st ← load 0;
  modify (set_status st);;
  if truthy (Z.land st 0x80) then mret true
  else
    store 0x5555 0x50;;
    store 0x5555 0xff;;
    (if truthy (Z.land st 0x7e) then
       modify (λ l, set_device
         (set_info (if truthy (Z.land st 0x08)
                    then "This chip requires +5V on pin 11 (Vpp)."
                    else "Chip Status after Erase: 0x" ++ hex2 st)%string
                   false (flashDevice l)) l)
     else mret tt);;
    mret false.

Definition _29xxxDeviceIsBusy : ST ll bool :=
  oldStatusByteValue ← gets lastStatusRegisterState;
  st ← load 0;
  modify (set_status st);;
  first ← gets firstBusyRead;
  if first || negb (Z.land oldStatusByteValue 0x40 =? Z.land st 0x40) then
    modify (set_first false);; mret true
  else
    modify (set_first true);; mret false.

Definition DeviceIsBusy : ST ll bool :=
  p ← gets is28xxxProtocol;
  if (p : bool) then _28xxxDeviceIsBusy else _29xxxDeviceIsBusy.

(** ** Identification *)

Definition _28xxxResetFlashICStateMachine : ST ll unit := store 0x5555 0xff.
Definition _29xxxResetFlashICStateMachine : ST ll unit :=
  store 0x5555 0xaa;; store 0x2aaa 0x55;; store 0x5555 0xf0.
Definition _ResetFlashICStateMachine : ST ll unit :=
  p ← gets is28xxxProtocol;
  if (p : bool) then _28xxxResetFlashICStateMachine else _29xxxResetFlashICStateMachine.

Definition _28xxxReadDeviceID : ST ll (Z * Z) :=
  store 0x5555 0x90;;
  man ← ReadByte 0;
  store 0x5555 0x90;;
  dev ← ReadByte 1;
  mret (man, dev).
Definition _29xxxReadDeviceID : ST ll (Z * Z) :=
  store 0x5555 0xaa;; store 0x2aaa 0x55;; store 0x5555 0x90;;
  man ← ReadByte 0;
  dev ← ReadByte 1;
  store 0x5555 0xf0;;
  mret (man, dev).
Definition _ReadDeviceIDBytes : ST ll (Z * Z) :=
  p ← gets is28xxxProtocol;
  if (p : bool) then _28xxxReadDeviceID else _29xxxReadDeviceID.

(** [while(n < m_dwLengthInBytes)] over the 64KB blocks; [fuel] blocks are enough. *)
Fixpoint block_locks (fuel : nat) (n len : Z) (info : string) : ST ll string :=
  match fuel with
  | O => mret info
  | S fuel' =>
      if n <? len then
        store 0x5555 0x90;;
        v ← ReadByte (Z.lor n 2);
        block_locks fuel' (n + 0x10000) len
          (info ++ (if (Z.land v 1 =? 0)%Z then "0" else "1"))%string
      else mret info
  end.

Definition match_locks (t : KNOWN_FLASH_TYPE) : ST ll unit :=
  store 0x5555 0x90;;
  lock ← ReadByte 3;
  if lock =? 0 then mret tt
  else
    info ← block_locks (Z.to_nat (m_dwLengthInBytes t / 0x10000 + 1)) 0 (m_dwLengthInBytes t)
             "Master Lock SET  Block(64KB) Locks: ";
    modify (λ l, set_device (set_info info false (flashDevice l)) l);;
    store 0x5555 0x50.

Fixpoint match_loop (table : list KNOWN_FLASH_TYPE) (man dev : Z) : ST ll bool :=
  match table with
  | [] => ub
  | t :: table' =>
      if m_bDeviceId t =? 0 then mret false
      else if (m_bManufacturerId t =? man) && (m_bDeviceId t =? dev) then
        modify (λ l, set_device (set_info String.EmptyString true (set_type t (flashDevice l))) l);;
        p ← gets is28xxxProtocol;
        (if (p : bool) then match_locks t else mret tt);;
        mret true
      else match_loop table' man dev
  end.

Definition _MatchDevice (id : Z * Z) : ST ll bool :=
  match_loop aknownflashtypesDefault id.1 id.2.

Definition read_device_try : ST ll bool :=
  _ResetFlashICStateMachine;;
  id ← _ReadDeviceIDBytes;
  _MatchDevice id.

(** The loop runs once for each protocol. *)
Definition ReadDevice : ST ll bool :=
  modify (set_first true);;
  found ← read_device_try;
  if (found : bool) then mret true
  else
    modify (λ l, set_protocol (negb (is28xxxProtocol l)) l);;
    read_device_try.

(** ** Programming and erasing *)

Definition _28xxxWriteBytes (b addr : Z) : ST ll unit :=
  store 0x5555 0x40;; store addr b;; wait_us_blocking 1.
Definition _29xxxWriteBytes (b addr : Z) : ST ll unit :=
  store 0x5555 0xaa;; store 0x2aaa 0x55;; store 0x5555 0xa0;; store addr b.
Definition WriteByte (b addr : Z) : ST ll unit :=
  p ← gets is28xxxProtocol;
  if (p : bool) then _28xxxWriteBytes b addr else _29xxxWriteBytes b addr.

Definition _29xxxCommonEraseSequence : ST ll unit :=
  store 0x5555 0xaa;; store 0x2aaa 0x55;; store 0x5555 0x80;;
  store 0x5555 0xaa;; store 0x2aaa 0x55.
Definition _28xxxSectorErase (addr : Z) : ST ll unit :=
  store 0x5555 0x50;; store addr 0x20;; store addr 0xd0;; wait_us_blocking 1.
Definition _29xxxSectorErase (addr : Z) : ST ll unit :=
  _29xxxCommonEraseSequence;; store addr 0x30.
Definition _29xxxBlockErase (addr : Z) : ST ll unit :=
  _29xxxCommonEraseSequence;; store addr 0x50.
Definition _29xxxChipErase : ST ll unit :=
  _29xxxCommonEraseSequence;; store 0x5555 0x10.

Definition InititiateSectorErase (addr : Z) : ST ll unit :=
  p ← gets is28xxxProtocol;
  if (p : bool) then _28xxxSectorErase addr else _29xxxSectorErase addr.
Definition InititiateBlockErase (addr : Z) : ST ll unit :=
  p ← gets is28xxxProtocol;
  if (p : bool) then mret tt else _29xxxBlockErase addr.
Definition InititiateChipErase : ST ll unit :=
  p ← gets is28xxxProtocol;
  if (p : bool) then mret tt else _29xxxChipErase.

#[export] Instance ll_FlashLowLevel : FlashLowLevel ll := {|
  flashType l := dev_flashType (flashDevice l);
  FlashLowLevel_Init := Init;
  FlashLowLevel_ReadDevice := ReadDevice;
  FlashLowLevel_DeviceIsBusy := DeviceIsBusy;
  FlashLowLevel_InititiateSectorErase := InititiateSectorErase;
  FlashLowLevel_InititiateBlockErase := InititiateBlockErase;
  FlashLowLevel_InititiateChipErase := InititiateChipErase;
  FlashLowLevel_WriteByte := WriteByte;
  FlashLowLevel_ReadByte := ReadByte
|}.
End ops.
Arguments ll : clear implicits.

End LowLevel.
