(* ===== verification/FlashDriver.v ===== *)
(** * The flash driver ([src/drivers/flash/FlashDriver.c])

    The driver is a state machine that is polled: requests set up an operation,
    [Flash_executeFlashFSM] performs one step of it, [Flash_freeFlashFSM] ends
    it.  Its statics, the settings it saves and loads, the modchip globals and
    the low level it drives form one state.  The low level is any
    implementation of [FlashLowLevel].

    The percentage of [FlashProgress], which is only displayed and computed in
    floating point, is left out, and so are the log messages. *)

From S2P Require Import Prelude Layout Crc32 Md5 Hardware Settings FlashTypes FlashLowLevel.

Module FlashDriver.
Import Hardware Settings FlashTypes.

(** ** Data *)

(** The constants are not parenthesised in the source: [ImageSize256KB] in
    [size % ImageSize256KB] stands for [size % 256 * 1024]. *)
Definition ImageSize256KB : Z := 256 * 1024.
Definition ImageSize512KB : Z := 512 * 1024.
Definition ImageSize1024KB : Z := 1024 * 1024.
Definition FlashSectorSize_4KB : Z := 4 * 1024.
Definition FlashBlockSize_64KB : Z := 64 * 1024.
Definition FlashChipSize_256KB : Z := 256 * 1024.
Definition EraseBusyCountMin : Z := 3.

Inductive EraseSequenceMethod :=
| EraseSequenceMethod_Sector | EraseSequenceMethod_Block | EraseSequenceMethod_Chip.

Inductive FlashTask :=
| FlashTask_NoTask | FlashTask_WriteBios | FlashTask_ReadBios
| FlashTask_WriteSettings | FlashTask_ReadSettings.

#[export] Instance EraseSequenceMethod_eq_dec : EqDecision EraseSequenceMethod.
Proof. solve_decision. Defined.
#[export] Instance FlashTask_eq_dec : EqDecision FlashTask.
Proof. solve_decision. Defined.

Inductive bios_field :=
| Magic | HeaderVersion | XboxVersion | VideoEncoder | HeaderPatch
| Option1 | Option2 | Option3 | BiosSize | Name | MD5Hash.

#[export] Instance bios_field_eq_dec : EqDecision bios_field.
Proof. solve_decision. Defined.

Definition BiosIdentifier : list (bios_field * nat) :=
  [(Magic, 4%nat); (HeaderVersion, 1%nat); (XboxVersion, 1%nat); (VideoEncoder, 1%nat);
   (HeaderPatch, 1%nat); (Option1, 1%nat); (Option2, 1%nat); (Option3, 1%nat);
   (BiosSize, 4%nat); (Name, 32%nat); (MD5Hash, 16%nat)].

Abbreviation bid := (get_field BiosIdentifier).

Definition HeaderVersionV1 : Z := 1.
Definition HeaderVersionV2 : Z := 2.
Definition Option1_SaveSettingsLocationBit : Z := 1.
(** ["XBlast OS"]. *)
Definition PROG_NAME : list Z := [88; 66; 108; 97; 115; 116; 32; 79; 83].

Record driver := mkDriver {
  biosBuffer : mem;
  biosBufferSize : Z;
  currentFlashOp : FlashOp;
  flashErrorCode : FlashErrorcodes;
  startingOffset : Z;
  currentAddr : Z;
  currentFlashTask : FlashTask;
  eraseSequenceMethod : EraseSequenceMethod;
  eraseBusyCount : Z;
  firstEraseTry : bool
}.

Record FlashProgress := mkProgress {
  progressOp : FlashOp;
  progressTask : FlashTask;
  progressError : FlashErrorcodes
}.

Definition set_buffer (b : mem) (d : driver) : driver :=
  mkDriver b (biosBufferSize d) (currentFlashOp d) (flashErrorCode d) (startingOffset d)
    (currentAddr d) (currentFlashTask d) (eraseSequenceMethod d) (eraseBusyCount d) (firstEraseTry d).
Definition set_size (n : Z) (d : driver) : driver :=
  mkDriver (biosBuffer d) n (currentFlashOp d) (flashErrorCode d) (startingOffset d)
    (currentAddr d) (currentFlashTask d) (eraseSequenceMethod d) (eraseBusyCount d) (firstEraseTry d).
Definition set_op (o : FlashOp) (d : driver) : driver :=
  mkDriver (biosBuffer d) (biosBufferSize d) o (flashErrorCode d) (startingOffset d)
    (currentAddr d) (currentFlashTask d) (eraseSequenceMethod d) (eraseBusyCount d) (firstEraseTry d).
Definition set_error (e : FlashErrorcodes) (d : driver) : driver :=
  mkDriver (biosBuffer d) (biosBufferSize d) (currentFlashOp d) e (startingOffset d)
    (currentAddr d) (currentFlashTask d) (eraseSequenceMethod d) (eraseBusyCount d) (firstEraseTry d).
Definition set_start (n : Z) (d : driver) : driver :=
  mkDriver (biosBuffer d) (biosBufferSize d) (currentFlashOp d) (flashErrorCode d) n
    (currentAddr d) (currentFlashTask d) (eraseSequenceMethod d) (eraseBusyCount d) (firstEraseTry d).
Definition set_addr (n : Z) (d : driver) : driver :=
  mkDriver (biosBuffer d) (biosBufferSize d) (currentFlashOp d) (flashErrorCode d)
    (startingOffset d) n (currentFlashTask d) (eraseSequenceMethod d) (eraseBusyCount d)
    (firstEraseTry d).
Definition set_task (t : FlashTask) (d : driver) : driver :=
  mkDriver (biosBuffer d) (biosBufferSize d) (currentFlashOp d) (flashErrorCode d)
    (startingOffset d) (currentAddr d) t (eraseSequenceMethod d) (eraseBusyCount d)
    (firstEraseTry d).
Definition set_method (m : EraseSequenceMethod) (d : driver) : driver :=
  mkDriver (biosBuffer d) (biosBufferSize d) (currentFlashOp d) (flashErrorCode d)
    (startingOffset d) (currentAddr d) (currentFlashTask d) m (eraseBusyCount d) (firstEraseTry d).
Definition set_count (n : Z) (d : driver) : driver :=
  mkDriver (biosBuffer d) (biosBufferSize d) (currentFlashOp d) (flashErrorCode d)
    (startingOffset d) (currentAddr d) (currentFlashTask d) (eraseSequenceMethod d) n
    (firstEraseTry d).
Definition set_try (b : bool) (d : driver) : driver :=
  mkDriver (biosBuffer d) (biosBufferSize d) (currentFlashOp d) (flashErrorCode d)
    (startingOffset d) (currentAddr d) (currentFlashTask d) (eraseSequenceMethod d)
    (eraseBusyCount d) b.

(** ** Pure parts *)

Definition canWrite (flashByte bufferByte : Z) : bool :=
  Z.land (u8 (Z.lnot flashByte)) bufferByte =? 0.

Definition getEraseMethodSize (support4KBErase : Z) (m : EraseSequenceMethod) : Z :=
  if truthy support4KBErase then
    match m with
    | EraseSequenceMethod_Sector => FlashSectorSize_4KB
    | EraseSequenceMethod_Block => FlashBlockSize_64KB
    | EraseSequenceMethod_Chip => FlashChipSize_256KB
    end
  else
    match m with
    | EraseSequenceMethod_Sector | EraseSequenceMethod_Block => FlashBlockSize_64KB
    | EraseSequenceMethod_Chip => FlashChipSize_256KB
    end.

Definition checkImageSize (deviceLength size : Z) : FlashErrorcodes :=
  if (0 <? size) && (size <=? deviceLength) then
    if u32 (size mod 256 * 1024) =? 0 then FlashErrorcodes_NoError
    else FlashErrorcodes_FileSizeError
  else FlashErrorcodes_FileSizeError.

Definition mirror_target (deviceLength : Z) (bank : FlashBank) : Z :=
  if (bank =? FlashBank_OSBank) || (bank =? FlashBank_256Bank) then ImageSize256KB
  else if (bank =? FlashBank_512Bank) || (bank =? FlashBank_SplitTSOP0Bank) ||
          (bank =? FlashBank_SplitTSOP1Bank) then ImageSize512KB
  else if (bank =? FlashBank_FullTSOPBank) || (bank =? FlashBank_NoBank) then deviceLength
  else ImageSize256KB.

(** [while(biosBufferSize < targetSize)]; the size doubles, so 32 rounds are
    enough for any 32-bit target and a size above 0. *)
Fixpoint mirror_loop (fuel : nat) (target : Z) (buf : mem) (size : Z) : outcome (mem * Z) :=
  if size <? target then
    match fuel with
    | O => UB
    | S fuel' =>
        if size + size <=? ImageSize1024KB
        then mirror_loop fuel' target (mem_copy buf size buf 0 size) (u32 (size + size))
        else UB
    end
  else Ok (buf, size).

(** The name test reads [strlen(PROG_NAME)] octets; [PROG_NAME] has no zero, so
    [strncmp] and [memcmp] with 0 agree. *)
Definition has_prog_name (id : list Z) : bool :=
  bool_decide (take (length PROG_NAME) (bid Name id) = PROG_NAME).

Definition getXBlastOSSettingStartingOffset (id : list Z) : Z :=
  let version := le_val (bid HeaderVersion id) in
  if (version =? HeaderVersionV2) || (version =? HeaderVersionV1) then
    if has_prog_name id then
      if truthy (Z.land (le_val (bid Option1 id)) Option1_SaveSettingsLocationBit) then
        let settingsOffset := le_val (bid BiosSize id) in
        if ImageSize256KB <=? settingsOffset then 0
        else if settingsOffset <? 3 * FlashBlockSize_64KB then 3 * FlashBlockSize_64KB
        else u32 (settingsOffset + FlashSectorSize_4KB - 1) mod FlashSectorSize_4KB
      else 0
    else 0
  else 0.

(** [inBuf] is the whole caller's buffer: reading past its end is undefined.
    [stack] is what the hash context holds on entry. *)
Definition validateOSImage (stack : Md5.MD5_CTX) (inBuf : list Z) (size : Z)
    : outcome FlashErrorcodes :=
  if negb (size =? ImageSize256KB) then Ok FlashErrorcodes_FileSizeError
  else if Z.of_nat (length inBuf) <? size then UB
  else
    let id := take (sizeof BiosIdentifier)
                (drop (Z.to_nat size - sizeof BiosIdentifier) inBuf) in
    if negb (has_prog_name id) then Ok FlashErrorcodes_InvalidUpdateFile
    else
      let version := le_val (bid HeaderVersion id) in
      if (version =? HeaderVersionV2) || (version =? HeaderVersionV1) then
        let md5Size := if version =? HeaderVersionV2 then le_val (bid BiosSize id)
                       else ImageSize256KB - FlashSectorSize_4KB in
        let exitCode := if version =? HeaderVersionV2 then FlashErrorcodes_NoError
                        else FlashErrorcodes_DowngradeWarning in
        hashcontext ← Md5.MD5Update (Md5.MD5Init stack) inBuf md5Size;
        '(md5result, _) ← Md5.MD5Final hashcontext;
        mret (if bool_decide (md5result = bid MD5Hash id) then exitCode
              else FlashErrorcodes_MD5Mismatch)
      else Ok FlashErrorcodes_InvalidUpdateFile.

Definition calculateSettingsStructCRC32Value (s : list Z) : outcome Z :=
  Crc32.crc32buf s (Z.of_nat (sizeof _LPCmodSettings) - 4).

(** ** The machine *)

Section machine.
Context {L : Type} `{FlashLowLevel L}.

Record world := mkWorld {
  drv : driver;
  low : L;
  system : sys;
  LPCmodSettings : list Z;
  LPCmodSettingsOrigFromFlash : list Z
}.

Definition set_drv (d : driver) (w : world) : world :=
  mkWorld d (low w) (system w) (LPCmodSettings w) (LPCmodSettingsOrigFromFlash w).
Definition set_low (l : L) (w : world) : world :=
  mkWorld (drv w) l (system w) (LPCmodSettings w) (LPCmodSettingsOrigFromFlash w).
Definition set_system (s : sys) (w : world) : world :=
  mkWorld (drv w) (low w) s (LPCmodSettings w) (LPCmodSettingsOrigFromFlash w).
Definition set_settings (l : list Z) (w : world) : world :=
  mkWorld (drv w) (low w) (system w) l (LPCmodSettingsOrigFromFlash w).
Definition set_orig (l : list Z) (w : world) : world :=
  mkWorld (drv w) (low w) (system w) (LPCmodSettings w) l.

Definition on_drv (f : driver → driver) : ST world unit := modify (λ w, set_drv (f (drv w)) w).
Definition get (f : driver → Z) : ST world Z := gets (λ w, f (drv w)).
Definition lowM {A} (m : ST L A) : ST world A := zoom low set_low m.
Definition deviceType : ST world KNOWN_FLASH_TYPE := gets (λ w, flashType (low w)).

(** Accesses to [biosBuffer], which has 1MB. *)
Definition buffer_at (i : Z) : ST world Z :=
  assert_ub ((0 <=? i) && (i <? ImageSize1024KB));; gets (λ w, biosBuffer (drv w) i).
Definition buffer_set (i v : Z) : ST world unit :=
  assert_ub ((0 <=? i) && (i <? ImageSize1024KB));;
  on_drv (λ d, set_buffer (mem_set (biosBuffer d) i v) d).
Definition buffer_copy (at_ : Z) (v : list Z) : ST world unit :=
  assert_ub ((0 <=? at_) && (at_ + Z.of_nat (length v) <=? ImageSize1024KB));;
  on_drv (λ d, set_buffer (mem_copy (biosBuffer d) at_ (mem_of_list v) 0 (Z.of_nat (length v))) d).

(** [startingOffset + currentAddr]. *)
Definition cursor : ST world Z := gets (λ w, u32 (startingOffset (drv w) + currentAddr (drv w))).

Definition methodSize : ST world Z :=
  t ← deviceType;
  m ← gets (λ w, eraseSequenceMethod (drv w));
  mret (getEraseMethodSize (m_support4KBErase t) m).

Definition Flash_freeFlashFSM : ST world unit :=
  on_drv (λ d, set_task FlashTask_NoTask (set_addr 0 (set_error FlashErrorcodes_NoError
                 (set_op FlashOp_Idle (set_size 0 d)))));;
  modify (λ w, set_system (switchOSBank FlashBank_OSBank (system w)) w).

Definition Flash_Init : ST world unit :=
  lowM FlashLowLevel_Init;; Flash_freeFlashFSM.

Definition Flash_forceUserAbort : ST world unit :=
  on_drv (λ d, set_error FlashErrorcodes_UserAbort (set_op FlashOp_Error
                 (set_task FlashTask_WriteBios d))).

Definition Flash_getProgress : ST world FlashProgress :=
  gets (λ w, mkProgress (currentFlashOp (drv w)) (currentFlashTask (drv w))
                        (flashErrorCode (drv w))).

(** [n] octets from [addr], one read cycle each. *)
Fixpoint read_flash (n : nat) (addr : Z) : ST world (list Z) :=
  match n with
  | O => mret []
  | S n' =>
      b ← lowM (FlashLowLevel_ReadByte addr);
      rest ← read_flash n' (addr + 1);
      mret (b :: rest)
  end.

Definition getBiosIdentifierFromFlash : ST world (list Z) :=
  read_flash (sizeof BiosIdentifier) (ImageSize256KB - Z.of_nat (sizeof BiosIdentifier)).

Definition getBiosIdentifierFromBuffer (size : Z) : ST world (list Z) :=
  if size =? ImageSize256KB then
    id ← gets (λ w, mem_read (biosBuffer (drv w)) (size - Z.of_nat (sizeof BiosIdentifier))
                             (sizeof BiosIdentifier));
    mret (if has_prog_name id then id else replicate (sizeof BiosIdentifier) 0xFF)
  else mret (replicate (sizeof BiosIdentifier) 0xFF).

Definition injectSettingsInBuf (offset : Z) : ST world unit :=
  if offset =? 0 then mret tt
  else
    s ← gets LPCmodSettings;
    crc ← liftO (calculateSettingsStructCRC32Value s);
    modify (λ w, set_settings (sset crc32Value (le_bytes 4 crc) (LPCmodSettings w)) w);;
    size ← get biosBufferSize;
    assert_ub (negb (size =? 0));;
    s ← gets LPCmodSettings;
    buffer_copy (offset mod size) s.

Definition evaluateReadBackRange : ST world unit :=
  n ← methodSize;
  on_drv (λ d, set_op FlashOp_ReadInProgress (set_addr 0 (set_size n
                 (set_start (Z.land (startingOffset d) (u32 (Z.lnot (n - 1)))) d)))).

(** [FlashOp_EraseInProgress], the switch to another erase command when the
    last one had no effect; the result says whether the step ends there. *)
Definition next_method : ST world bool :=
  on_drv (λ d, set_count 0 (set_try true d));;
  m ← gets (λ w, eraseSequenceMethod (drv w));
  t ← deviceType;
  task ← gets (λ w, currentFlashTask (drv w));
  match m with
  | EraseSequenceMethod_Sector =>
      on_drv (set_method (if truthy (m_support4KBErase t) then EraseSequenceMethod_Block
                          else EraseSequenceMethod_Chip));;
      if decide (task = FlashTask_WriteSettings) then evaluateReadBackRange;; mret true
      else mret false
  | EraseSequenceMethod_Block =>
      on_drv (set_method EraseSequenceMethod_Chip);;
      if decide (task = FlashTask_WriteSettings) then evaluateReadBackRange;; mret true
      else mret false
  | EraseSequenceMethod_Chip =>
      on_drv (λ d, set_error FlashErrorcodes_FailedErase (set_op FlashOp_Error d));;
      mret true
  end.

Definition initiate_erase : ST world unit :=
  m ← gets (λ w, eraseSequenceMethod (drv w));
  a ← cursor;
  lowM match m with
       | EraseSequenceMethod_Sector => FlashLowLevel_InititiateSectorErase a
       | EraseSequenceMethod_Block => FlashLowLevel_InititiateBlockErase a
       | EraseSequenceMethod_Chip => FlashLowLevel_InititiateChipErase
       end;;
  on_drv (set_try false).

(** [if(FlashLowLevel_DeviceIsBusy()) ... else ...]. *)
Definition polled (on_busy ready : ST world unit) : ST world unit :=
  busy ← lowM FlashLowLevel_DeviceIsBusy;
  if (busy : bool) then on_busy else ready.

Definition count_busy (d : driver) : driver := set_count (u32 (eraseBusyCount d + 1)) d.

Definition erase_retry : ST world unit :=
  d ← gets drv;
  stop ← (if negb (firstEraseTry d) && (eraseBusyCount d <? EraseBusyCountMin)
          then next_method else mret false);
  if (stop : bool) then mret tt else initiate_erase.

Definition erase_advance : ST world unit :=
  on_drv (λ d, set_count 0 (set_try true (set_addr (u32 (currentAddr d + 1)) d)));;
  d ← gets drv;
  if biosBufferSize d <=? currentAddr d
  then on_drv (λ d, set_addr 0 (set_op FlashOp_WriteInProgress d))
  else mret tt.

Definition erase_ready : ST world unit :=
  a ← cursor;
  byteFromFlash ← lowM (FlashLowLevel_ReadByte a);
  i ← get currentAddr;
  b ← buffer_at i;
  if canWrite byteFromFlash b then erase_advance else erase_retry.

Definition erase_step : ST world unit := polled (on_drv count_busy) erase_ready.

Definition write_ready : ST world unit :=
  d ← gets drv;
  if biosBufferSize d <=? currentAddr d
  then on_drv (λ d, set_addr 0 (set_op FlashOp_VerifyInProgress d))
  else
    a ← cursor;
    byteFromFlash ← lowM (FlashLowLevel_ReadByte a);
    b ← buffer_at (currentAddr d);
    (if byteFromFlash =? b then mret tt else lowM (FlashLowLevel_WriteByte b a));;
    on_drv (λ d, set_addr (u32 (currentAddr d + 1)) d).

Definition write_step : ST world unit := polled (on_drv id) write_ready.

Definition verify_ready : ST world unit :=
  d ← gets drv;
  if biosBufferSize d <=? currentAddr d
  then on_drv (set_op FlashOp_Completed)
  else
    a ← cursor;
    byteFromFlash ← lowM (FlashLowLevel_ReadByte a);
    b ← buffer_at (currentAddr d);
    if byteFromFlash =? b
    then on_drv (λ d, set_addr (u32 (currentAddr d + 1)) d)
    else on_drv (λ d, set_error FlashErrorcodes_FailedVerify (set_op FlashOp_Error d)).

Definition verify_step : ST world unit := polled (on_drv id) verify_ready.

(** What follows the last octet. *)
Definition read_finish (task : FlashTask) : ST world unit :=
  match task with
  | FlashTask_ReadBios | FlashTask_ReadSettings => on_drv (set_op FlashOp_Completed)
  | FlashTask_WriteSettings =>
      id ← getBiosIdentifierFromFlash;
      injectSettingsInBuf (getXBlastOSSettingStartingOffset id);;
      on_drv (set_op FlashOp_EraseInProgress)
  | _ => mret tt
  end.

Definition read_ready : ST world unit :=
  a ← cursor;
  v ← lowM (FlashLowLevel_ReadByte a);
  i ← get currentAddr;
  buffer_set i v;;
  on_drv (λ d, set_addr (u32 (currentAddr d + 1)) d);;
  d ← gets drv;
  if biosBufferSize d <=? currentAddr d
  then on_drv (set_addr 0);; read_finish (currentFlashTask d)
  else mret tt.

Definition read_step : ST world unit := polled (on_drv id) read_ready.

Definition pending_step : ST world unit :=
  task ← gets (λ w, currentFlashTask (drv w));
  match task with
  | FlashTask_WriteBios => on_drv (set_op FlashOp_EraseInProgress)
  | FlashTask_ReadBios | FlashTask_WriteSettings | FlashTask_ReadSettings =>
      on_drv (set_op FlashOp_ReadInProgress)
  | FlashTask_NoTask => mret tt
  end.

Definition Flash_executeFlashFSM : ST world unit :=
  op ← gets (λ w, currentFlashOp (drv w));
  match op with
  | FlashOp_Idle => mret tt
  | FlashOp_PendingOp => pending_step
  | FlashOp_EraseInProgress => erase_step
  | FlashOp_WriteInProgress => write_step
  | FlashOp_VerifyInProgress => verify_step
  | FlashOp_ReadInProgress => read_step
  | FlashOp_Completed => mret tt
  | FlashOp_Error => mret tt
  end.

(** ** Requests *)

(** The operation and error of the result, and what [*output] points to when it
    is set; the task of the result is left unset by the source. *)
Definition Flash_ReadDeviceInfo
    : ST world (FlashOp * FlashErrorcodes * option KNOWN_FLASH_TYPE) :=
  op ← gets (λ w, currentFlashOp (drv w));
  found ← (if decide (op = FlashOp_Idle) then lowM FlashLowLevel_ReadDevice else mret false);
  if (found : bool) then
    t ← deviceType;
    Flash_freeFlashFSM;;
    mret (FlashOp_Completed, FlashErrorcodes_NoError, Some t)
  else
    Flash_freeFlashFSM;;
    mret (FlashOp_Error, FlashErrorcodes_UnknownFlash, None).

Definition Flash_ReadBIOSBank (bank : FlashBank) : ST world FlashProgress :=
  op ← gets (λ w, currentFlashOp (drv w));
  (if decide (op = FlashOp_Idle) then
     found ← lowM FlashLowLevel_ReadDevice;
     if (found : bool) then
       t ← deviceType;
       let size :=
         if (bank =? FlashBank_OSBank) || (bank =? FlashBank_256Bank) then ImageSize256KB
         else if (bank =? FlashBank_512Bank) || (bank =? FlashBank_SplitTSOP0Bank) ||
                 (bank =? FlashBank_SplitTSOP1Bank) then ImageSize512KB
         else m_dwLengthInBytes t in
       on_drv (λ d, set_start 0 (set_size size (set_task FlashTask_ReadBios
                      (set_op FlashOp_PendingOp d))))
     else mret tt
   else mret tt);;
  Flash_getProgress.

Definition mirrorimage (bank : FlashBank) : ST world unit :=
  t ← deviceType;
  d ← gets drv;
  '(buf, size) ← liftO (mirror_loop 32 (mirror_target (m_dwLengthInBytes t) bank)
                                    (biosBuffer d) (biosBufferSize d));
  on_drv (λ d, set_size size (set_buffer buf d)).

(** [memcpy(biosBuffer, buf, size)] reads [size] octets of the caller's buffer. *)
Definition write_setup (buf : list Z) (size offset : Z) (bank : FlashBank) : ST world unit :=
  on_drv (λ d, set_start offset (set_size size (set_task FlashTask_WriteBios
                 (set_op FlashOp_PendingOp (set_try true (set_count 0
                 (set_method EraseSequenceMethod_Sector d)))))));;
  assert_ub (size <=? Z.of_nat (length buf));;
  buffer_copy 0 (take (Z.to_nat size) buf);;
  mirrorimage bank.

Definition Flash_WriteBios (buf : list Z) (size offset : Z) (bank : FlashBank)
    : ST world FlashErrorcodes :=
  op ← gets (λ w, currentFlashOp (drv w));
  found ← (if decide (op = FlashOp_Idle) then lowM FlashLowLevel_ReadDevice else mret false);
  if (found : bool) then
    t ← deviceType;
    let e := checkImageSize (m_dwLengthInBytes t) size in
    on_drv (set_error e);;
    (if decide (e = FlashErrorcodes_NoError) then write_setup buf size offset bank else mret tt);;
    mret e
  else mret FlashErrorcodes_UndefinedError.

Definition Flash_XBlastOSBankFlash (stack : Md5.MD5_CTX) (inBuf : list Z) (size offset : Z)
    (overrideChecks : bool) : ST world FlashProgress :=
  (if overrideChecks then mret tt
   else e ← liftO (validateOSImage stack inBuf size); on_drv (set_error e));;
  e ← gets (λ w, flashErrorCode (drv w));
  (if decide (e = FlashErrorcodes_NoError) then
     e ← Flash_WriteBios inBuf size offset FlashBank_OSBank;
     on_drv (set_error e);;
     if decide (e = FlashErrorcodes_NoError) then
       n ← get biosBufferSize;
       id ← getBiosIdentifierFromBuffer n;
       injectSettingsInBuf (getXBlastOSSettingStartingOffset id)
     else mret tt
   else mret tt);;
  Flash_getProgress.

Definition Flash_XBlastUserBankFlash (inBuf : list Z) (size offset : Z) (bank : FlashBank)
    : ST world FlashProgress :=
  e ← Flash_WriteBios inBuf size offset bank;
  on_drv (set_error e);;
  Flash_getProgress.

Definition Flash_SimpleBIOSBankFlash (inBuf : list Z) (size offset : Z) : ST world FlashProgress :=
  Flash_XBlastUserBankFlash inBuf size offset FlashBank_NoBank.

Definition Flash_ReadXBlastOSSettingsRequest : ST world FlashProgress :=
  op ← gets (λ w, currentFlashOp (drv w));
  (if decide (op = FlashOp_Idle) then
     found ← lowM FlashLowLevel_ReadDevice;
     x3 ← gets (λ w, isXecuter3 (system w));
     if found || x3 then
       on_drv (λ d, set_task FlashTask_ReadSettings (set_op FlashOp_PendingOp d));;
       modify (λ w, set_system (switchOSBank FlashBank_OSBank (system w)) w);;
       on_drv (set_size (Z.of_nat (sizeof _LPCmodSettings)));;
       id ← getBiosIdentifierFromFlash;
       let offset := getXBlastOSSettingStartingOffset id in
       on_drv (set_start offset);;
       if offset =? 0 then on_drv (set_op FlashOp_Completed);; buffer_set 0 0xff
       else mret tt
     else on_drv (set_op FlashOp_Error)
   else mret tt);;
  Flash_getProgress.

(** The result and what [*input] is set to. *)
Definition Flash_LoadXBlastOSSettings : ST world (bool * list Z) :=
  d ← gets drv;
  let seeker := mem_read (biosBuffer d) 0 (sizeof _LPCmodSettings) in
  accepted ←
    (if decide (currentFlashOp d = FlashOp_Completed ∧
                currentFlashTask d = FlashTask_ReadSettings) then
       if le_val (sget settingsVersion seeker) =? CurrentSettingsVersionNumber then
         crc ← liftO (calculateSettingsStructCRC32Value seeker);
         mret (crc =? le_val (sget crc32Value seeker))
       else mret false
     else mret false);
  if (accepted : bool) then mret (true, seeker)
  else s ← gets (λ w, populateSettingsStructWithDefault (system w)); mret (false, s).

(** [while(cromwellLoop())], which returns 1; what runs in it (network, LCD,
    callbacks) does not touch the flash.  [None] when the fuel does not suffice. *)
Fixpoint boot_read_loop (fuel : nat) : ST world (option bool) :=
  match fuel with
  | O => mret None
  | S fuel' =>
      p ← Flash_getProgress;
      if decide (progressOp p = FlashOp_Completed ∨ progressOp p = FlashOp_Error) then
        '(r, s) ← Flash_LoadXBlastOSSettings;
        modify (set_settings s);;
        mret (Some r)
      else Flash_executeFlashFSM;; boot_read_loop fuel'
  end.

Definition bootReadXBlastOSSettings (fuel : nat) : ST world (option bool) :=
  modify (λ w, set_settings (populateSettingsStructWithDefault (system w)) w);;
  Flash_ReadXBlastOSSettingsRequest;;
  r ← boot_read_loop fuel;
  modify (λ w, set_orig (LPCmodSettings w) w);;
  Flash_freeFlashFSM;;
  mret r.

Definition Flash_SaveXBlastOSSettings : ST world FlashProgress :=
  op ← gets (λ w, currentFlashOp (drv w));
  (if decide (op = FlashOp_Idle) then
     found ← lowM FlashLowLevel_ReadDevice;
     if (found : bool) then
       id ← getBiosIdentifierFromFlash;
       let offset := getXBlastOSSettingStartingOffset id in
       on_drv (set_start offset);;
       if offset =? 0 then
         on_drv (λ d, set_error FlashErrorcodes_FlashContentError (set_op FlashOp_Error d))
       else
         on_drv (λ d, set_try true (set_count 0 (set_method EraseSequenceMethod_Sector d)));;
         n ← methodSize;
         on_drv (λ d, set_task FlashTask_WriteSettings (set_op FlashOp_PendingOp (set_size n d)))
     else
       x3 ← gets (λ w, isXecuter3 (system w));
       on_drv (λ d, set_error (if (x3 : bool) then FlashErrorcodes_WriteProtect
                               else FlashErrorcodes_UnknownFlash) (set_op FlashOp_Error d))
   else mret tt);;
  Flash_getProgress.
End machine.
Arguments world : clear implicits.

End FlashDriver.
