(* ===== verification/FlashContract.v ===== *)
(** * What the flash driver relies on, and what it then does

    [FlashContract] states what a low level with a working chip promises: the
    chip has a content, a poll eventually reports it idle and never changes the
    content, an idle chip is read as it is, programming clears bits, erasing
    only sets octets to 0xFF.  Each erase command either works at its address
    or is ignored, which is what the driver's fallback is written for.

    The theorems on the state machine are proved against this interface. *)

From S2P Require Import Prelude Layout Hardware Settings FlashTypes FlashLowLevel FlashDriver.

Import Hardware Settings FlashTypes FlashDriver.

Definition erase_cmd {L} `{FlashLowLevel L} (m : EraseSequenceMethod) (a : Z) : ST L unit :=
  match m with
  | EraseSequenceMethod_Sector => FlashLowLevel_InititiateSectorErase a
  | EraseSequenceMethod_Block => FlashLowLevel_InititiateBlockErase a
  | EraseSequenceMethod_Chip => FlashLowLevel_InititiateChipErase
  end.

(** The octets an erase command at [a] may touch: the aligned sector or block of
    the part, or the whole chip. *)
Definition region_of (support4KBErase : Z) (m : EraseSequenceMethod) (a x : Z) : Prop :=
  match m with
  | EraseSequenceMethod_Chip => True
  | _ => x / getEraseMethodSize support4KBErase m = a / getEraseMethodSize support4KBErase m
  end.

Class FlashContract (L : Type) `{FlashLowLevel L} := {
  chip_inv : L → Prop;
  chip_idle : L → Prop;
  content : L → Z → Z;
  polls : L → nat;                        (* polls that can still report busy *)
  attached : KNOWN_FLASH_TYPE;
  works : EraseSequenceMethod → bool;

  idle_inv l : chip_idle l → chip_inv l;
  idle_polls l : chip_idle l → (polls l <= 1)%nat;
  content_byte l a : chip_inv l → byte (content l a);

  ReadDevice_law l : chip_idle l →
    wp FlashLowLevel_ReadDevice
       (λ b l', b = true ∧ chip_idle l' ∧ flashType l' = attached ∧
                ∀ a, content l' a = content l a) l;

  DeviceIsBusy_law l : chip_inv l →
    wp FlashLowLevel_DeviceIsBusy
       (λ b l', flashType l' = flashType l ∧ (∀ a, content l' a = content l a) ∧
                if b then chip_inv l' ∧ (polls l' < polls l)%nat else chip_idle l') l;

  ReadByte_law l a : chip_idle l → 0 <= a < m_dwLengthInBytes attached →
    FlashLowLevel_ReadByte a l = Ok (content l a, l);

  WriteByte_law l v a : chip_idle l → 0 <= a < m_dwLengthInBytes attached → byte v →
    canWrite (content l a) v = true →
    wp (FlashLowLevel_WriteByte v a)
       (λ _ l', chip_inv l' ∧ flashType l' = flashType l ∧
                ∀ x, content l' x = if x =? a then v else content l x) l;

  erase_law l m a : chip_idle l → 0 <= a < m_dwLengthInBytes attached →
    wp (erase_cmd m a)
       (λ _ l', chip_inv l' ∧ flashType l' = flashType l ∧
                (∀ x, content l' x = content l x ∨
                      content l' x = 0xFF ∧ region_of (m_support4KBErase attached) m a x) ∧
                if works m then content l' a = 0xFF
                else chip_idle l' ∧ ∀ x, content l' x = content l x) l
}.

(** ** Bits *)

Lemma canWrite_FF v : byte v → canWrite 0xFF v = true.
Proof. intros _. reflexivity. Qed.

Lemma canWrite_self v : byte v → canWrite v v = true.
Proof.
  intros Hv. apply Z.eqb_eq. unfold u8. change (2 ^ 8) with (2 ^ 8).
  apply Z.bits_inj'. intros i Hi. rewrite Z.land_spec, Z.bits_0.
  destruct (Z.ltb_spec i 8).
  - rewrite <- Z.land_ones, Z.land_spec, Z.lnot_spec by lia.
    by destruct (Z.testbit v i); rewrite ?andb_false_r.
  - rewrite (testbit_above v 8 i) by (unfold byte in *; lia). apply andb_false_r.
Qed.

(** ** Runs of the machine *)

Section runs.
Context {L : Type} `{FlashContract L}.

Abbreviation W := (world L).
Abbreviation step := (Flash_executeFlashFSM (L := L)).

(** Some number of steps leads to a state that satisfies [P], with no undefined
    behaviour on the way. *)
Definition reaches (w : W) (P : W → Prop) : Prop :=
  ∃ n, wp (repeatM n step) (λ _ w', P w') w.

Lemma reaches_now w (P : W → Prop) : P w → reaches w P.
Proof. intros HP. by exists 0%nat. Qed.

Lemma reaches_step w (P : W → Prop) : wp step (λ _ w', reaches w' P) w → reaches w P.
Proof.
  intros Hw. apply wp_run in Hw as ([] & w' & Hs & n & Hn). exists (S n).
  cbn [repeatM]. apply wp_bind. apply wp_run. by exists tt, w'.
Qed.

Lemma reaches_bind w (P Q : W → Prop) :
  reaches w Q → (∀ w', Q w' → reaches w' P) → reaches w P.
Proof.
  intros [n Hn] HQ. revert w Hn. induction n as [|n IH]; intros w Hn; [by apply HQ|].
  cbn [repeatM] in Hn. apply wp_run in Hn as ([] & w' & Hr & Hw').
  unfold mbind, ST_mbind in Hr. destruct (step w) as [[[] w1]|] eqn:E; [|done].
  apply reaches_step, wp_run. exists tt, w1. split; [done|]. apply IH.
  apply wp_run. by exists tt, w'.
Qed.

(** The low level is the same to the driver. *)
Definition same_chip (l l' : L) : Prop :=
  flashType l' = flashType l ∧ ∀ a, content l' a = content l a.

Lemma same_chip_trans l1 l2 l3 : same_chip l1 l2 → same_chip l2 l3 → same_chip l1 l3.
Proof. intros [? Hc1] [? Hc2]. split; [congruence|]. intros a. by rewrite Hc2, Hc1. Qed.

Lemma lowM_wp {A} (m : ST L A) (Q : A → W → Prop) w :
  wp m (λ a l, Q a (set_low l w)) (low w) → wp (lowM m) Q w.
Proof. apply wp_zoom. Qed.

(** Polling ends: the ready action runs on an idle chip, after at most [polls]
    busy results. *)
Lemma poll_reaches (g : driver → driver) (ready : ST W unit) (P : W → Prop) n w :
  (∀ w', currentFlashOp (drv w') = currentFlashOp (drv w) →
         step w' = polled (on_drv g) ready w') →
  (∀ d, currentFlashOp (g d) = currentFlashOp d) →
  chip_inv (low w) → (polls (low w) <= n)%nat →
  (∀ l k, chip_idle l → same_chip (low w) l → (k <= n)%nat →
     wp ready (λ _ w', reaches w' P) (set_low l (set_drv (Nat.iter k g (drv w)) w))) →
  reaches w P.
Proof.
  intros Hstep Hg. revert w Hstep. induction n as [|n IH]; intros w Hstep Hinv Hp Hready;
    apply reaches_step; unfold wp at 1; rewrite (Hstep w eq_refl);
    change (wp (polled (on_drv g) ready) (λ _ w', reaches w' P) w);
    apply wp_bind, lowM_wp; eapply wp_mono; try apply (DeviceIsBusy_law _ Hinv);
    intros b l (Ht & Hc & Hb); destruct b.
  - lia.
  - apply (Hready l 0%nat); [done|by split|lia].
  - destruct Hb as [Hinv' Hlt]. apply wp_modify. apply IH.
    + intros w' Hop. apply Hstep. cbn in Hop. by rewrite Hop, Hg.
    + done.
    + cbn. lia.
    + intros l' k Hidle Hsame Hk. cbn in Hsame |- *.
      assert (Nat.iter k g (g (drv w)) = Nat.iter (S k) g (drv w)) as ->
        by (rewrite Nat.iter_succ_r; done).
      apply (Hready l' (S k)); [done| |lia]. by eapply same_chip_trans; [split|].
  - apply (Hready l 0%nat); [done|by split|lia].
Qed.

(** ** One job: [size] octets of [buf] at [start] *)

Context (buf : mem) (start size : Z) (task : FlashTask) (err : FlashErrorcodes)
        (fr : sys * list Z * list Z) (c0 : Z → Z) (inside : Z → Prop).
Context (Hsize : 0 < size <= ImageSize1024KB) (Hstart : 0 <= start)
        (Hfit : start + size <= m_dwLengthInBytes attached)
        (Hlen : m_dwLengthInBytes attached <= ImageSize1024KB)
        (Hbuf : ∀ i, byte (buf i)).

(** A command the driver may send at this point; saving settings is followed for
    a part whose sector erase works. *)
Definition allowed (m : EraseSequenceMethod) : Prop :=
  task ≠ FlashTask_WriteSettings ∨ (m = EraseSequenceMethod_Sector ∧ works m = true).

(** [inside] covers the window and what the erase commands in it touch; the rest
    of the chip holds [c0] throughout. *)
Context (Hinside : ∀ i, 0 <= i < size → inside (start + i))
        (Hregion : ∀ m i x, allowed m → 0 <= i < size →
                   region_of (m_support4KBErase attached) m (start + i) x → inside x).

Definition framed (f : sys * list Z * list Z) (l : L) : Prop :=
  f = fr ∧ ∀ x, ¬ inside x → content l x = c0 x.

Lemma framed_same f l l' : same_chip l l' → framed f l → framed f l'.
Proof. intros [_ Hx] [Hf Hk]. split; [done|]. intros x Hnx. rewrite Hx. by apply Hk. Qed.

(** A state of the driver working on the job. *)
Definition job_state (op : FlashOp) (i : Z) (m : EraseSequenceMethod) (cnt : Z) (try : bool)
    (l : L) (w : W) : Prop :=
  drv w = mkDriver buf size op err start i task m cnt try ∧ low w = l ∧
  flashType l = attached ∧ framed (system w, LPCmodSettings w, LPCmodSettingsOrigFromFlash w) l.

Definition erasable (l : L) (i : Z) : Prop :=
  ∀ j, 0 <= j < i → canWrite (content l (start + j)) (buf j) = true.
Definition programmed (l : L) (i : Z) : Prop :=
  ∀ j, 0 <= j < i → content l (start + j) = buf j.

(** The erase commands that come before [m] are ignored by the chip. *)
Definition tried (m : EraseSequenceMethod) : Prop :=
  match m with
  | EraseSequenceMethod_Sector => True
  | EraseSequenceMethod_Block => works EraseSequenceMethod_Sector = false
  | EraseSequenceMethod_Chip =>
      works EraseSequenceMethod_Sector = false ∧
      (truthy (m_support4KBErase attached) = true → works EraseSequenceMethod_Block = false)
  end.

Lemma erasable_after l l' i :
  (∀ x, content l' x = content l x ∨ content l' x = 0xFF) → erasable l i → erasable l' i.
Proof.
  intros Hx He j Hj. destruct (Hx (start + j)) as [->| ->]; [by apply He|].
  apply canWrite_FF, Hbuf.
Qed.

Lemma erasable_same l l' i : same_chip l l' → erasable l i → erasable l' i.
Proof. intros [_ Hx]. apply erasable_after. auto. Qed.

Lemma erasable_succ l i :
  erasable l i → canWrite (content l (start + i)) (buf i) = true → erasable l (i + 1).
Proof. intros He Hi j Hj. destruct (decide (j = i)) as [->|]; [done|]. apply He. lia. Qed.

Lemma programmed_same l l' i : same_chip l l' → programmed l i → programmed l' i.
Proof. intros [_ Hx] Hp j Hj. rewrite Hx. by apply Hp. Qed.

Lemma programmed_succ l i :
  programmed l i → content l (start + i) = buf i → programmed l (i + 1).
Proof. intros He Hi j Hj. destruct (decide (j = i)) as [->|]; [done|]. apply He. lia. Qed.

Lemma address_small i : 0 <= i <= size → u32 (start + i) = start + i.
Proof. intros Hi. apply u32_id. unfold word32, ImageSize1024KB in *. lia. Qed.

Lemma index_small i : 0 <= i < size → u32 (i + 1) = i + 1.
Proof. intros Hi. apply u32_id. unfold word32, ImageSize1024KB in *. lia. Qed.

Lemma index_in_buffer i : 0 <= i < size → (0 <=? i) && (i <? ImageSize1024KB) = true.
Proof. intros. apply andb_true_iff. rewrite Z.leb_le, Z.ltb_lt. lia. Qed.

(** The parts that every ready action starts with. *)
Lemma cursor_wp op i m cnt try l w (Q : Z → W → Prop) :
  job_state op i m cnt try l w → 0 <= i < size →
  Q (start + i) w → wp cursor Q w.
Proof.
  intros (Hd & _) Hi HQ. unfold cursor. apply wp_gets. rewrite Hd. cbn.
  by rewrite address_small by lia.
Qed.

Lemma flash_byte_wp op i m cnt try l w (Q : Z → W → Prop) :
  job_state op i m cnt try l w → chip_idle l → 0 <= i < size →
  Q (content l (start + i)) w → wp (lowM (FlashLowLevel_ReadByte (start + i))) Q w.
Proof.
  intros (_ & Hl & _) Hidle Hi HQ. apply lowM_wp. unfold wp. rewrite Hl, ReadByte_law by (done || lia).
  destruct w as [d l' s ls lo]. cbn in *. by subst.
Qed.

Lemma buffer_byte_wp op i m cnt try l w (Q : Z → W → Prop) :
  job_state op i m cnt try l w → 0 <= i < size → Q (buf i) w → wp (buffer_at i) Q w.
Proof.
  intros (Hd & _) Hi HQ. unfold buffer_at. apply wp_bind. unfold wp, assert_ub.
  rewrite index_in_buffer by done. cbn. by rewrite Hd.
Qed.

(** *** Erasing *)

Definition erase_head (i : Z) (w : W) : Prop :=
  ∃ m l, job_state FlashOp_EraseInProgress i m 0 true l w ∧ chip_idle l ∧ erasable l i ∧
    tried m ∧ allowed m.

Definition write_start (w : W) : Prop :=
  ∃ m cnt try l, job_state FlashOp_WriteInProgress 0 m cnt try l w ∧ chip_inv l ∧ erasable l size.

Definition erase_failed (w : W) : Prop :=
  currentFlashOp (drv w) = FlashOp_Error ∧ flashErrorCode (drv w) = FlashErrorcodes_FailedErase ∧
  tried EraseSequenceMethod_Chip ∧ works EraseSequenceMethod_Chip = false.

Definition erase_next (i : Z) (w : W) : Prop :=
  (i + 1 < size ∧ erase_head (i + 1) w) ∨ (i + 1 = size ∧ write_start w) ∨ erase_failed w.

Lemma count_iter k d :
  ∃ c, Nat.iter k count_busy d = set_count c d ∧
    (0 <= eraseBusyCount d → eraseBusyCount d + Z.of_nat k < 2 ^ 32 →
     c = eraseBusyCount d + Z.of_nat k).
Proof.
  induction k as [|k (c & Hc & Hv)].
  - exists (eraseBusyCount d). destruct d. split; [done|]. cbn. lia.
  - exists (u32 (c + 1)). rewrite Nat.iter_succ, Hc. destruct d; cbn in *. split; [done|].
    intros H1' H2'. rewrite Hv by lia. rewrite u32_id by (unfold word32; lia). lia.
Qed.

Lemma erase_advance_wp i m cnt try l w :
  job_state FlashOp_EraseInProgress i m cnt try l w → 0 <= i < size →
  chip_idle l → erasable l (i + 1) → tried m → allowed m →
  wp erase_advance (λ _ w', erase_next i w') w.
Proof.
  intros Hj Hi Hidle He Ht Hs. destruct w as [d lw sy ls lo].
  destruct Hj as (Hd & Hl & Hty & Hf). cbn in Hd, Hl. subst d lw.
  unfold erase_advance. apply wp_bind, wp_modify. cbn. apply wp_bind, wp_gets. cbn.
  rewrite index_small by done. destruct (Z.leb_spec size (i + 1)).
  - apply wp_modify. right; left. split; [lia|]. cbn. eexists _, _, _, l.
    split_and!; [split_and!; done|by apply idle_inv|]. by replace size with (i + 1) by lia.
  - apply wp_ret. left. split; [lia|]. exists m, l. split_and!; done.
Qed.

Lemma initiate_erase_wp i m cnt try l w (Q : W → Prop) :
  job_state FlashOp_EraseInProgress i m cnt try l w → 0 <= i < size → chip_idle l → allowed m →
  (∀ l' w', job_state FlashOp_EraseInProgress i m cnt false l' w' → chip_inv l' →
     (∀ x, content l' x = content l x ∨ content l' x = 0xFF) →
     (if works m then content l' (start + i) = 0xFF else chip_idle l' ∧ same_chip l l') → Q w') →
  wp initiate_erase (λ _ w', Q w') w.
Proof.
  intros Hj Hi Hidle Ha HQ. unfold initiate_erase. apply wp_bind, wp_gets. apply wp_bind.
  eapply cursor_wp; [done|done|]. apply wp_bind. destruct w as [d lw sy ls lo].
  destruct Hj as (Hd & Hl & Hty & Hf). cbn in Hd, Hl. subst d lw.
  change (eraseSequenceMethod _) with m. apply lowM_wp.
  eapply wp_mono; [apply (erase_law l m (start + i)); [done|lia]|].
  intros [] l' (Hinv & Hty' & Hx & Hw). apply wp_modify. eapply (HQ l'); [|done| |].
  - destruct Hf as [Hf Hk]. split_and!; [done|done|congruence|]. split; [done|].
    intros x Hnx. rewrite <- (Hk x Hnx). destruct (Hx x) as [?|[_ Hr]]; [done|].
    destruct Hnx. by eapply Hregion.
  - intros x. destruct (Hx x) as [?|[? _]]; auto.
  - destruct (works m); [done|]. destruct Hw as [? ?]. split; [done|]. by split.
Qed.

(** The command tried after [m]. *)
Definition method_after (m : EraseSequenceMethod) : option EraseSequenceMethod :=
  match m with
  | EraseSequenceMethod_Sector =>
      Some (if truthy (m_support4KBErase attached) then EraseSequenceMethod_Block
            else EraseSequenceMethod_Chip)
  | EraseSequenceMethod_Block => Some EraseSequenceMethod_Chip
  | EraseSequenceMethod_Chip => None
  end.

Lemma tried_after m m' : tried m → works m = false → method_after m = Some m' → tried m'.
Proof.
  destruct m; cbn; intros Ht Hw Hm; simplify_eq.
  - destruct (truthy _) eqn:E; cbn; [done|]. split; [done|congruence].
  - split; [done|]. done.
Qed.

Lemma next_method_wp i m cnt try l w (Q : bool → W → Prop) :
  job_state FlashOp_EraseInProgress i m cnt try l w → task ≠ FlashTask_WriteSettings →
  (∀ m' w', method_after m = Some m' →
     job_state FlashOp_EraseInProgress i m' 0 true l w' → Q false w') →
  (∀ w', method_after m = None → currentFlashOp (drv w') = FlashOp_Error →
     flashErrorCode (drv w') = FlashErrorcodes_FailedErase → Q true w') →
  wp next_method Q w.
Proof.
  intros Hj Hns Hnext Hfail. destruct w as [d lw sy ls lo].
  destruct Hj as (Hd & Hl & Hty & Hf). cbn in Hd, Hl. subst d lw.
  unfold wp, next_method, mbind, ST_mbind, mret, ST_mret, on_drv, deviceType, gets, modify.
  destruct m; cbn; rewrite ?Hty; try (destruct (decide (task = _)); [done|]).
  - eapply Hnext; [reflexivity|]. by split_and!.
  - eapply Hnext; [reflexivity|]. by split_and!.
  - by apply Hfail.
Qed.

(** What [initiate_erase] leads to when the octet at the cursor needs erasing. *)
Definition initiate_ok (m : EraseSequenceMethod) : Prop :=
  ∀ i cnt try l w,
  job_state FlashOp_EraseInProgress i m cnt try l w → 0 <= i < size → 0 <= cnt <= 1 →
  chip_idle l → erasable l i → canWrite (content l (start + i)) (buf i) = false →
  tried m → allowed m →
  wp initiate_erase (λ _ w', reaches w' (erase_next i)) w.

(** The ready action of the erase phase, by the two cases of [canWrite]. *)
Lemma erase_ready_wp i m cnt try l w (Q : W → Prop) :
  job_state FlashOp_EraseInProgress i m cnt try l w → 0 <= i < size → chip_idle l →
  (canWrite (content l (start + i)) (buf i) = true → wp erase_advance (λ _ w', Q w') w) →
  (canWrite (content l (start + i)) (buf i) = false → wp erase_retry (λ _ w', Q w') w) →
  wp erase_ready (λ _ w', Q w') w.
Proof.
  intros Hj Hi Hidle Hyes Hno. unfold erase_ready. apply wp_bind.
  eapply cursor_wp; [done|done|]. apply wp_bind. eapply flash_byte_wp; [done..|].
  apply wp_bind, wp_gets. pose proof Hj as (Hd & _). rewrite Hd. cbn [currentAddr].
  apply wp_bind. eapply buffer_byte_wp; [done|done|].
  destruct (canWrite _ _); auto.
Qed.

Lemma job_poll i m cnt try l w l' k :
  job_state FlashOp_EraseInProgress i m cnt try l w → same_chip l l' → 0 <= cnt →
  ∃ c, job_state FlashOp_EraseInProgress i m c try l'
         (set_low l' (set_drv (Nat.iter k count_busy (drv w)) w)) ∧
       (cnt + Z.of_nat k < 2 ^ 32 → c = cnt + Z.of_nat k).
Proof.
  intros (Hd & Hl & Hty & Hf) Hsame Hc. pose proof Hsame as [Hs _]. destruct (count_iter k (drv w)) as (c & Hk & Hv).
  rewrite Hd in Hk, Hv. exists c. rewrite Hd, Hk. split; [|by apply Hv].
  destruct w. cbn in *. split_and!; [done|done|congruence|by eapply framed_same].
Qed.

Lemma erase_step_polled (w : W) :
  currentFlashOp (drv w) = FlashOp_EraseInProgress →
  step w = polled (on_drv count_busy) erase_ready w.
Proof. intros Hop. unfold Flash_executeFlashFSM, mbind, ST_mbind, gets. by rewrite Hop. Qed.

Lemma erase_poll i m cnt try l w (P : W → Prop) :
  job_state FlashOp_EraseInProgress i m cnt try l w → 0 <= cnt → chip_inv l →
  (∀ l' c w' k, job_state FlashOp_EraseInProgress i m c try l' w' → chip_idle l' →
     same_chip l l' → (k <= polls l)%nat → (cnt + Z.of_nat k < 2 ^ 32 → c = cnt + Z.of_nat k) →
     wp erase_ready (λ _ w'', reaches w'' P) w') →
  reaches w P.
Proof.
  intros Hj Hc Hinv Hready. pose proof Hj as (Hd & Hl & _).
  eapply (poll_reaches count_busy erase_ready P (polls l)); rewrite ?Hl; [| |done|done|].
  - intros w' Hop. apply erase_step_polled. by rewrite Hop, Hd.
  - by intros [].
  - intros l' k Hidle Hsame Hk. destruct (job_poll i m cnt try l w l' k Hj Hsame Hc) as (c & Hj' & Hv).
    by eapply Hready.
Qed.

Lemma initiate_ok_from m :
  (∀ m', method_after m = Some m' → initiate_ok m') → initiate_ok m.
Proof.
  intros Hnext i cnt try l w Hj Hi Hc Hidle He Hno Ht Hs.
  eapply initiate_erase_wp; [done|done|done|done|]. intros l1 w1 Hj1 Hinv1 Hx1 Hw1.
  pose proof (erasable_after _ _ _ Hx1 He) as He1.
  eapply (erase_poll _ _ cnt); [done|lia|done|]. intros l2 c w2 k Hj2 Hidle2 Hs2 Hk Hv.
  pose proof (erasable_same _ _ _ Hs2 He1) as He2. pose proof Hs2 as [_ Hc2].
  eapply erase_ready_wp; [done|done|done| |].
  - intros Hyes. eapply wp_mono; [eapply erase_advance_wp; [done|done|done| |done|done]|].
    + by apply erasable_succ.
    + intros [] w3 Hw3. by apply reaches_now.
  - intros Hno2. rewrite Hc2 in Hno2. destruct (works m) eqn:Hworks.
    { rewrite Hw1, canWrite_FF in Hno2 by apply Hbuf. done. }
    destruct Hs as [Hns|[_ ?]]; [|congruence]. destruct Hw1 as [Hidle1 _].
    pose proof (idle_polls _ Hidle1). rewrite Hv in Hj2 by lia.
    unfold erase_retry. apply wp_bind, wp_gets. pose proof Hj2 as (Hd2 & _). rewrite Hd2.
    cbn [firstEraseTry eraseBusyCount negb andb].
    rewrite (proj2 (Z.ltb_lt (cnt + Z.of_nat k) EraseBusyCountMin)) by (unfold EraseBusyCountMin; lia).
    apply wp_bind. eapply next_method_wp; [done|done| |].
    + intros m' w3 Hm' Hj3. eapply (Hnext m' Hm'); [done|done|lia|done|done| |by eapply tried_after|by left].
      by rewrite Hc2.
    + intros w3 Hm Hop Herr. apply wp_ret, reaches_now. right; right.
      destruct m; by split_and!.
Qed.

Lemma initiate_ok_all m : initiate_ok m.
Proof.
  assert (initiate_ok EraseSequenceMethod_Chip) as Hchip by by apply initiate_ok_from.
  assert (initiate_ok EraseSequenceMethod_Block) as Hblock
    by (apply initiate_ok_from; intros m' [= <-]; done).
  destruct m; [|done|done]. apply initiate_ok_from. intros m' [= <-]. by destruct (truthy _).
Qed.

(** One octet of the erase phase. *)
Lemma erase_one i w :
  erase_head i w → 0 <= i < size → reaches w (erase_next i).
Proof.
  intros (m & l & Hj & Hidle & He & Ht & Hs) Hi.
  eapply (erase_poll i m 0); [done|lia|by apply idle_inv|].
  intros l1 c w1 k Hj1 Hidle1 Hs1 Hk Hv. pose proof (idle_polls _ Hidle).
  rewrite Hv in Hj1 by lia. pose proof (erasable_same _ _ _ Hs1 He) as He1.
  eapply erase_ready_wp; [done|done|done| |].
  - intros Hyes. eapply wp_mono; [eapply erase_advance_wp; [done|done|done| |done|done]|].
    + by apply erasable_succ.
    + intros [] w3 Hw3. by apply reaches_now.
  - intros Hno. unfold erase_retry. apply wp_bind, wp_gets. pose proof Hj1 as (Hd1 & _).
    rewrite Hd1. cbn [firstEraseTry negb andb]. apply wp_bind, wp_ret.
    eapply initiate_ok_all; [done|done|lia|done..].
Qed.

(** The whole erase phase. *)
Lemma erase_phase n i w :
  erase_head i w → 0 <= i → i + Z.of_nat n = size → (0 < n)%nat →
  reaches w (λ w', write_start w' ∨ erase_failed w').
Proof.
  revert i w. induction n as [|n IH]; intros i w Hh Hi Hn Hpos; [lia|].
  eapply reaches_bind; [apply (erase_one i w Hh); lia|].
  intros w' [[Hlt Hh']|[[_ Hw]|Hf]].
  - apply (IH (i + 1)); [done|lia|lia|lia].
  - apply reaches_now. by left.
  - apply reaches_now. by right.
Qed.

(** *** Programming and verifying *)

Definition write_head (i : Z) (w : W) : Prop :=
  ∃ m cnt try l, job_state FlashOp_WriteInProgress i m cnt try l w ∧ chip_inv l ∧
    programmed l i ∧ ∀ j, i <= j < size → canWrite (content l (start + j)) (buf j) = true.

Definition verify_head (i : Z) (w : W) : Prop :=
  ∃ m cnt try l, job_state FlashOp_VerifyInProgress i m cnt try l w ∧ chip_inv l ∧
    programmed l size.

Definition completed (w : W) : Prop :=
  ∃ i m cnt try l, job_state FlashOp_Completed i m cnt try l w ∧ chip_idle l ∧ programmed l size.

(** Polling without counting, in the write and verify phases. *)
Lemma plain_poll op (ready : ST W unit) i m cnt try l w (P : W → Prop) :
  (∀ w' : W, currentFlashOp (drv w') = op → step w' = polled (on_drv id) ready w') →
  job_state op i m cnt try l w → chip_inv l →
  (∀ l' w', job_state op i m cnt try l' w' → chip_idle l' → same_chip l l' →
     wp ready (λ _ w'', reaches w'' P) w') →
  reaches w P.
Proof.
  intros Hstep Hj Hinv Hready. pose proof Hj as (Hd & Hl & Hty & Hf).
  eapply (poll_reaches id ready P (polls l)); rewrite ?Hl; [|done|done|done|].
  - intros w' Hop. apply Hstep. by rewrite Hop, Hd.
  - intros l' k Hidle Hsame _. apply Hready with l'; [|done|done].
    assert (Nat.iter k id (drv w) = drv w) as -> by (induction k; done).
    pose proof Hsame as [Hs _]. destruct w. cbn in *.
    split_and!; [done|done|congruence|by eapply framed_same].
Qed.

Lemma write_ready_wp i m cnt try l w (Q : W → Prop) :
  job_state FlashOp_WriteInProgress i m cnt try l w → chip_idle l → 0 <= i <= size →
  programmed l i → (∀ j, i <= j < size → canWrite (content l (start + j)) (buf j) = true) →
  (∀ w', (i = size ∧ verify_head 0 w') ∨ (i < size ∧ write_head (i + 1) w') → Q w') →
  wp write_ready (λ _ w', Q w') w.
Proof.
  intros Hj Hidle Hi Hp He HQ. destruct w as [d lw sy ls lo].
  pose proof Hj as (Hd & Hl & Hty & Hf). cbn in Hd, Hl. subst d lw.
  unfold write_ready. apply wp_bind, wp_gets. cbn [drv biosBufferSize currentAddr].
  destruct (Z.leb_spec size i).
  - apply wp_modify. apply HQ. left. assert (i = size) as -> by lia. split; [done|].
    exists m, cnt, try, l. split_and!; [by split_and!|by apply idle_inv|done].
  - apply wp_bind. eapply cursor_wp; [done|lia|]. apply wp_bind.
    eapply flash_byte_wp; [done|done|lia|]. apply wp_bind.
    eapply buffer_byte_wp; [done|lia|]. apply wp_bind.
    destruct (Z.eqb_spec (content l (start + i)) (buf i)) as [Heq|Hne].
    + apply wp_ret, wp_modify. apply HQ. right. split; [lia|]. cbn. rewrite index_small by lia.
      exists m, cnt, try, l. split_and!; [by split_and!|by apply idle_inv|by apply programmed_succ|].
      intros j Hj'. apply He. lia.
    + apply lowM_wp. eapply wp_mono; [apply (WriteByte_law l (buf i) (start + i))|];
        [done|lia|done|apply He; lia|].
      intros [] l' (Hinv' & Hty' & Hx). apply wp_modify. apply HQ. right. split; [lia|].
      cbn. rewrite index_small by lia. exists m, cnt, try, l'.
      split_and!; [split_and!; [done|done|congruence|]|done| |].
      * destruct Hf as [Hf Hk]. split; [done|]. intros x Hnx. rewrite Hx.
        destruct (Z.eqb_spec x (start + i)) as [->|]; [|by apply Hk].
        destruct Hnx. apply Hinside. lia.
      * intros j Hj'. rewrite Hx. destruct (Z.eqb_spec (start + j) (start + i)).
        { by replace j with i by lia. } apply Hp. lia.
      * intros j Hj'. rewrite Hx. destruct (Z.eqb_spec (start + j) (start + i)); [lia|].
        apply He. lia.
Qed.

Lemma write_phase n i w :
  write_head i w → 0 <= i → i + Z.of_nat n = size → reaches w (verify_head 0).
Proof.
  revert i w. induction n as [|n IH]; intros i w (m & cnt & try & l & Hj & Hinv & Hp & He) Hi Hn;
    (eapply plain_poll; [|exact Hj|done|];
      [intros w' Hop; unfold Flash_executeFlashFSM, mbind, ST_mbind, gets; by rewrite Hop|]);
    intros l' w' Hj' Hidle' Hs; pose proof Hs as [_ Hc];
    (eapply write_ready_wp;
      [exact Hj'|done|lia|by eapply programmed_same|intros j Hjj; rewrite Hc; by apply He|]).
  - intros w2 [[_ Hv]|[? _]]; [by apply reaches_now|lia].
  - intros w2 [[? _]|[_ Hw]]; [lia|]. apply (IH (i + 1)); [done|lia|lia].
Qed.

Lemma verify_ready_wp i m cnt try l w (Q : W → Prop) :
  job_state FlashOp_VerifyInProgress i m cnt try l w → chip_idle l → 0 <= i <= size →
  programmed l size →
  (∀ w', (i = size ∧ completed w') ∨ (i < size ∧ verify_head (i + 1) w') → Q w') →
  wp verify_ready (λ _ w', Q w') w.
Proof.
  intros Hj Hidle Hi Hp HQ. destruct w as [d lw sy ls lo].
  pose proof Hj as (Hd & Hl & Hty & Hf). cbn in Hd, Hl. subst d lw.
  unfold verify_ready. apply wp_bind, wp_gets. cbn [drv biosBufferSize currentAddr].
  destruct (Z.leb_spec size i).
  - apply wp_modify. apply HQ. left. split; [lia|]. exists i, m, cnt, try, l. by split_and!.
  - apply wp_bind. eapply cursor_wp; [done|lia|]. apply wp_bind.
    eapply flash_byte_wp; [done|done|lia|]. apply wp_bind.
    eapply buffer_byte_wp; [done|lia|]. rewrite (Hp i) by lia. rewrite Z.eqb_refl.
    apply wp_modify. apply HQ. right. split; [lia|]. cbn. rewrite index_small by lia.
    exists m, cnt, try, l. split_and!; [by split_and!|by apply idle_inv|done].
Qed.

Lemma verify_phase n i w :
  verify_head i w → 0 <= i → i + Z.of_nat n = size → reaches w completed.
Proof.
  revert i w. induction n as [|n IH]; intros i w (m & cnt & try & l & Hj & Hinv & Hp) Hi Hn;
    (eapply plain_poll; [|exact Hj|done|];
      [intros w' Hop; unfold Flash_executeFlashFSM, mbind, ST_mbind, gets; by rewrite Hop|]);
    intros l' w' Hj' Hidle' Hs;
    (eapply verify_ready_wp; [exact Hj'|done|lia|by eapply programmed_same|]).
  - intros w2 [[_ Hv]|[? _]]; [by apply reaches_now|lia].
  - intros w2 [[? _]|[_ Hw]]; [lia|]. apply (IH (i + 1)); [done|lia|lia].
Qed.

(** From the start of the erase phase to the end. *)
Lemma job_runs w : erase_head 0 w → reaches w (λ w', completed w' ∨ erase_failed w').
Proof.
  intros Hh. eapply reaches_bind; [apply (erase_phase (Z.to_nat size) 0 w Hh); lia|].
  intros w1 [(m & cnt & try & l & Hj & Hinv & He)|Hf]; [|by apply reaches_now; right].
  eapply reaches_bind; [apply (write_phase (Z.to_nat size) 0); [|lia|lia]|].
  - exists m, cnt, try, l. split_and!; [done|done| |].
    + intros j Hj'. lia.
    + intros j Hj'. apply He. lia.
  - intros w2 Hv. eapply reaches_bind; [apply (verify_phase (Z.to_nat size) 0 w2 Hv); lia|].
    intros w3 Hc. apply reaches_now. by left.
Qed.
End runs.
