(* ===== verification/FlashJedec.v ===== *)
(** * The low level meets the driver's contract

    [Jedec] states what the data sheets of the 29xxx parts document, bus cycle
    by bus cycle: array reads, the toggle bit on DQ6 while an operation runs,
    and the effect of the unlock sequences from the array mode.  For every such
    chip the functions of [FlashLowLevel.c] satisfy [FlashContract].

    [Chip] is a concrete chip of this kind, with the identity of an SST49LF080A,
    which shows that the documented behaviour can be had. *)

From Stdlib Require Import String.
From S2P Require Import Prelude FlashTypes FlashLowLevel FlashDriver FlashContract.

Import FlashTypes FlashDriver LowLevel.

Abbreviation base := LPCFlashadress.

(** ** Documented behaviour of a 29xxx part *)

Section cycles.
Context {H : Type} `{Bus H}.

(** A sequence of store cycles, offsets from the start of the window. *)
Fixpoint cycles (l : list (Z * Z)) (h : H) : H :=
  match l with
  | [] => h
  | (a, v) :: l' => cycles l' (bus_write (base + a) v h)
  end.

Definition unlock (cmd : Z) : list (Z * Z) := [(0x5555, 0xaa); (0x2aaa, 0x55); (0x5555, cmd)].
Definition erase_cycles (last : Z * Z) : list (Z * Z) :=
  unlock 0x80 ++ [(0x5555, 0xaa); (0x2aaa, 0x55); last].
Definition erase_last (m : EraseSequenceMethod) (a : Z) : Z * Z :=
  match m with
  | EraseSequenceMethod_Sector => (a, 0x30)
  | EraseSequenceMethod_Block => (a, 0x50)
  | EraseSequenceMethod_Chip => (0x5555, 0x10)
  end.
End cycles.

(** The row of the table that [_MatchDevice] stops at. *)
Fixpoint find_type (table : list KNOWN_FLASH_TYPE) (man dev : Z) : option KNOWN_FLASH_TYPE :=
  match table with
  | [] => None
  | t :: table' =>
      if m_bDeviceId t =? 0 then None
      else if (m_bManufacturerId t =? man) && (m_bDeviceId t =? dev) then Some t
      else find_type table' man dev
  end.

Class Jedec (H : Type) `{Bus H} := {
  j_cells : H → Z → Z;
  j_array : H → Prop;              (* idle, in the array mode *)
  j_live : H → Prop;               (* idle or in an operation *)
  j_busy : H → nat;                (* status reads until the operation is over *)
  j_dq6 : H → bool;                (* the toggle bit of the next status read *)
  j_type : KNOWN_FLASH_TYPE;
  j_works : EraseSequenceMethod → bool;

  j_known : find_type aknownflashtypesDefault (m_bManufacturerId j_type) (m_bDeviceId j_type) =
            Some j_type;
  j_id_bytes : byte (m_bManufacturerId j_type) ∧ byte (m_bDeviceId j_type);
  j_length : 0 < m_dwLengthInBytes j_type <= 0x100000;

  j_cell_byte h a : byte (j_cells h a);
  j_array_live h : j_array h → j_live h;
  j_array_busy h : j_live h → j_busy h = 0%nat ↔ j_array h;

  j_read h a : j_array h → 0 <= a < m_dwLengthInBytes j_type →
    bus_read (base + a) h = (j_cells h a, h);

  j_status h n : j_live h → j_busy h = S n →
    ∃ v h', bus_read base h = (v, h') ∧ byte v ∧ Z.testbit v 6 = j_dq6 h ∧
      j_dq6 h' = negb (j_dq6 h) ∧ j_busy h' = n ∧ j_live h' ∧ ∀ x, j_cells h' x = j_cells h x;

  j_reset h : j_array h →
    j_array (cycles (unlock 0xf0) h) ∧ ∀ x, j_cells (cycles (unlock 0xf0) h) x = j_cells h x;

  j_identify h : j_array h →
    ∃ h1 h2, bus_read base (cycles (unlock 0x90) h) = (m_bManufacturerId j_type, h1) ∧
      bus_read (base + 1) h1 = (m_bDeviceId j_type, h2) ∧
      j_array (bus_write (base + 0x5555) 0xf0 h2) ∧
      ∀ x, j_cells (bus_write (base + 0x5555) 0xf0 h2) x = j_cells h x;

  j_program h a v : j_array h → 0 <= a < m_dwLengthInBytes j_type → byte v →
    let h' := cycles (unlock 0xa0 ++ [(a, v)]) h in
    j_live h' ∧ ∀ x, j_cells h' x = if x =? a then Z.land (j_cells h a) v else j_cells h x;

  j_erase h m a : j_array h → 0 <= a < m_dwLengthInBytes j_type →
    let h' := cycles (erase_cycles (erase_last m a)) h in
    j_live h' ∧
    (∀ x, j_cells h' x = j_cells h x ∨
          j_cells h' x = 0xFF ∧ region_of (m_support4KBErase j_type) m a x) ∧
    if j_works m then j_cells h' a = 0xFF
    else j_array h' ∧ ∀ x, j_cells h' x = j_cells h x
}.

(** Programming an octet that can be written stores it. *)
Lemma canWrite_land c v : byte c → byte v → canWrite c v = true → Z.land c v = v.
Proof.
  intros Hc Hv Hw. apply Z.eqb_eq in Hw. apply Z.bits_inj'. intros i Hi.
  assert (Z.testbit (Z.land (u8 (Z.lnot c)) v) i = false) as Hbit by by rewrite Hw, Z.bits_0.
  rewrite Z.land_spec in *. destruct (Z.ltb_spec i 8).
  - unfold u8 in Hbit. rewrite <- Z.land_ones, Z.land_spec, Z.lnot_spec in Hbit by lia.
    rewrite Z.ones_spec_low in Hbit by lia. rewrite andb_true_r in Hbit.
    by destruct (Z.testbit c i), (Z.testbit v i).
  - rewrite (testbit_above v 8 i) by (unfold byte in *; lia). apply andb_false_r.
Qed.

Lemma bit6_eq a b : (Z.land a 0x40 =? Z.land b 0x40) = eqb (Z.testbit a 6) (Z.testbit b 6).
Proof.
  assert (∀ z, Z.land z 0x40 = if Z.testbit z 6 then 0x40 else 0) as Hl.
  { intros z. apply Z.bits_inj'. intros i Hi. rewrite Z.land_spec.
    change 0x40 with (2 ^ 6). rewrite Z.pow2_bits_eqb by lia.
    destruct (Z.eqb_spec 6 i) as [<-|Hne].
    - rewrite andb_true_r. destruct (Z.testbit z 6); [by rewrite Z.pow2_bits_true|by rewrite Z.bits_0].
    - rewrite andb_false_r. destruct (Z.testbit z 6); [by rewrite Z.pow2_bits_false|by rewrite Z.bits_0]. }
  rewrite !Hl. by destruct (Z.testbit a 6), (Z.testbit b 6).
Qed.

(** ** The low level over such a chip *)

Section contract.
Context {H : Type} `{Jedec H}.

Definition wired (l : ll H) : Prop :=
  is28xxxProtocol l = false ∧ m_pbMemoryMappedStartAddress (flashDevice l) = base.

Definition ll_idle (l : ll H) : Prop := wired l ∧ firstBusyRead l = true ∧ j_array (hw l).

(** After a status read during an operation, the next one differs from it. *)
Definition ll_inv (l : ll H) : Prop :=
  wired l ∧ j_live (hw l) ∧
  (firstBusyRead l = false → j_busy (hw l) ≠ 0%nat →
   Z.testbit (lastStatusRegisterState l) 6 = negb (j_dq6 (hw l))).

Definition ll_polls (l : ll H) : nat :=
  if firstBusyRead l then S (j_busy (hw l))
  else match j_busy (hw l) with
       | O => if eqb (Z.testbit (lastStatusRegisterState l) 6) (Z.testbit (j_cells (hw l) 0) 6)
              then 0 else 1
       | S n => S (S n)
       end%nat.

Lemma store_ok a v (l : ll H) :
  wired l → 0 <= a < 0x1000000 → byte v →
  store a v l = Ok (tt, set_hw (bus_write (base + a) v (hw l)) l).
Proof.
  intros [_ Hb] Ha Hv. unfold store. rewrite Hb, u8_id, u32_id; [done| |done].
  unfold word32, base. lia.
Qed.

Lemma load_ok a v h (l : ll H) :
  wired l → 0 <= a < 0x1000000 → byte v → bus_read (base + a) (hw l) = (v, h) →
  load a l = Ok (v, set_hw h l).
Proof.
  intros [_ Hb] Ha Hv Hr. unfold load. rewrite Hb, u32_id by (unfold word32, base; lia).
  by rewrite Hr, u8_id.
Qed.

Lemma set_hw_wired h (l : ll H) : wired l → wired (set_hw h l).
Proof. done. Qed.

(** A sequence of stores is the cycles the chip sees. *)
Fixpoint stores (s : list (Z * Z)) : ST (ll H) unit :=
  match s with
  | [] => mret tt
  | (a, v) :: s' => store a v;; stores s'
  end.

Lemma stores_cycles s (l : ll H) :
  wired l → Forall (λ c, 0 <= c.1 < 0x1000000 ∧ byte c.2) s →
  stores s l = Ok (tt, set_hw (cycles s (hw l)) l).
Proof.
  intros Hw Hs. revert l Hw. induction Hs as [|[a v] s [Ha Hv] _ IH]; intros l Hw; cbn.
  - by destruct l.
  - unfold mbind, ST_mbind. rewrite store_ok by done. rewrite IH by done. by destruct l.
Qed.

Lemma idle_is_inv l : ll_idle l → ll_inv l.
Proof. intros (Hw & Hf & Ha). split_and!; [done|by apply j_array_live|congruence]. Qed.

(** A poll of an idle or finished chip reads octet 0. *)
Lemma busy_poll_done (l : ll H) :
  ll_inv l → j_busy (hw l) = 0%nat →
  _29xxxDeviceIsBusy l =
  (let old := lastStatusRegisterState l in
   let st := j_cells (hw l) 0 in
   if firstBusyRead l || negb (eqb (Z.testbit old 6) (Z.testbit st 6))
   then Ok (true, set_first false (set_status st l))
   else Ok (false, set_first true (set_status st l))).
Proof.
  intros (Hw & Hlive & _) Hb0. pose proof (proj1 (j_array_busy _ Hlive) Hb0) as Ha.
  pose proof j_length. unfold _29xxxDeviceIsBusy, mbind, ST_mbind, gets, modify, mret, ST_mret.
  rewrite (load_ok 0 (j_cells (hw l) 0) (hw l));
    [|done|lia|apply j_cell_byte|rewrite j_read; done || lia].
  cbn. rewrite bit6_eq. destruct l; cbn. by destruct (_ || _).
Qed.

(** A poll during an operation reads the toggle bit. *)
Lemma busy_poll_running (l : ll H) n :
  ll_inv l → j_busy (hw l) = S n →
  ∃ v h', _29xxxDeviceIsBusy l = Ok (true, set_first false (set_status v (set_hw h' l))) ∧
    Z.testbit v 6 = negb (j_dq6 h') ∧ j_busy h' = n ∧ j_live h' ∧
    ∀ x, j_cells h' x = j_cells (hw l) x.
Proof.
  intros (Hw & Hlive & Htog) Hn.
  destruct (j_status _ _ Hlive Hn) as (v & h' & Hr & Hv & H6 & Hd & Hn' & Hl' & Hc).
  exists v, h'. split_and!; [|rewrite Hd, negb_involutive; done|done|done|done].
  unfold _29xxxDeviceIsBusy, mbind, ST_mbind, gets, modify, mret, ST_mret.
  rewrite (load_ok 0 v h') by (done || lia || (rewrite Z.add_0_r; done)).
  cbn. rewrite bit6_eq, H6. destruct l as [p first last d h]. cbn in *.
  destruct first; [done|]. rewrite Htog by lia. by destruct (j_dq6 h).
Qed.

Lemma ll_busy_law l : ll_inv l →
  wp DeviceIsBusy
     (λ b l', dev_flashType (flashDevice l') = dev_flashType (flashDevice l) ∧
              (∀ a, j_cells (hw l') a = j_cells (hw l) a) ∧
              if b then ll_inv l' ∧ (ll_polls l' < ll_polls l)%nat else ll_idle l') l.
Proof.
  intros Hinv. pose proof Hinv as (Hw & Hlive & _).
  unfold DeviceIsBusy. apply wp_bind, wp_gets. pose proof Hw as [-> _]. unfold wp.
  destruct (j_busy (hw l)) as [|n] eqn:Hn.
  - rewrite busy_poll_done by done. pose proof (proj1 (j_array_busy _ Hlive) Hn) as Ha.
    destruct l as [p first last d h]; cbn in *. unfold ll_polls. cbn. rewrite Hn.
    destruct first; cbn.
    + split_and!; [done|done| |rewrite Hn, eqb_reflx; lia]. split_and!; [done|done|done].
    + destruct (eqb _ _) eqn:E; cbn; [by split_and!|].
      split_and!; [done|done| |rewrite Hn, eqb_reflx; lia]. split_and!; [done|done|done].
  - destruct (busy_poll_running l n Hinv Hn) as (v & h' & -> & H6 & Hn' & Hl' & Hc).
    destruct l as [p first last d h]; cbn in *. split_and!; [done|done|by split_and!|].
    unfold ll_polls. cbn. rewrite Hn, Hn'. destruct first, n; cbn; try (destruct (eqb _ _)); lia.
Qed.

(** ** Identification *)

Lemma match_loop_find table man dev t (l : ll H) :
  is28xxxProtocol l = false → find_type table man dev = Some t →
  match_loop table man dev l =
  Ok (true, set_device (set_info String.EmptyString true (set_type t (flashDevice l))) l).
Proof.
  intros Hp. induction table as [|t' table IH]; [done|]. cbn [find_type match_loop].
  destruct (m_bDeviceId t' =? 0); [done|]. destruct (_ && _); [|done].
  intros [= ->]. unfold mbind, ST_mbind, gets, modify. cbn. by rewrite Hp.
Qed.

Lemma reset_ok (l : ll H) :
  wired l → _ResetFlashICStateMachine l = Ok (tt, set_hw (cycles (unlock 0xf0) (hw l)) l).
Proof.
  intros Hw. unfold _ResetFlashICStateMachine, mbind, ST_mbind, gets. pose proof Hw as [-> _].
  assert (Forall (λ c, 0 <= c.1 < 0x1000000 ∧ byte c.2) (unlock 0xf0)) as Hs
    by (repeat constructor; cbn; unfold byte; lia).
  rewrite <- (stores_cycles _ l Hw Hs).
  unfold _29xxxResetFlashICStateMachine, stores, unlock, mbind, ST_mbind.
  destruct (store 0x5555 0xaa l) as [[[] l1]|]; [|done].
  destruct (store 0x2aaa 0x55 l1) as [[[] l2]|]; [|done].
  by destruct (store 0x5555 0xf0 l2) as [[[] l3]|].
Qed.

Lemma read_ids_ok (l : ll H) :
  wired l → j_array (hw l) →
  ∃ h', _ReadDeviceIDBytes l =
        Ok ((m_bManufacturerId j_type, m_bDeviceId j_type), set_hw h' l) ∧
    j_array h' ∧ ∀ x, j_cells h' x = j_cells (hw l) x.
Proof.
  intros Hw Ha. destruct (j_identify _ Ha) as (h1 & h2 & Hr1 & Hr2 & Ha' & Hc).
  destruct j_id_bytes as [Hman Hdev].
  eexists. split; [|split; [exact Ha'|exact Hc]].
  unfold _ReadDeviceIDBytes, mbind, ST_mbind, gets. pose proof Hw as [-> _].
  unfold _29xxxReadDeviceID, ReadByte, mbind, ST_mbind, mret, ST_mret.
  rewrite !store_ok by (done || (unfold byte; lia)). cbn [hw].
  rewrite (load_ok 0 (m_bManufacturerId j_type) h1) by (done || lia || (rewrite Z.add_0_r; done)).
  rewrite (load_ok 1 (m_bDeviceId j_type) h2) by (done || lia).
  rewrite store_ok by (done || (unfold byte; lia)). by destruct l.
Qed.

Lemma ll_ReadDevice_law l : ll_idle l →
  wp ReadDevice
     (λ b l', b = true ∧ ll_idle l' ∧ dev_flashType (flashDevice l') = j_type ∧
              ∀ a, j_cells (hw l') a = j_cells (hw l) a) l.
Proof.
  intros (Hw & Hf & Ha). unfold ReadDevice. apply wp_bind, wp_modify, wp_bind.
  unfold read_device_try. apply wp_bind. unfold wp at 1.
  rewrite reset_ok by done. destruct (j_reset _ Ha) as [Ha1 Hc1]. apply wp_bind. unfold wp at 1.
  destruct (read_ids_ok (set_hw (cycles (unlock 0xf0) (hw (set_first true l))) (set_first true l)))
    as (h' & -> & Ha' & Hc'); [done|exact Ha1|].
  unfold wp at 1, _MatchDevice. cbn [fst snd].
  rewrite (match_loop_find _ _ _ j_type); [|by destruct Hw|apply j_known].
  apply wp_ret. destruct l; cbn in *. split_and!; [done| |done|].
  - destruct Hw. by split_and!.
  - intros a. by rewrite Hc', Hc1.
Qed.

(** ** Programming and erasing *)

Lemma ll_WriteByte_law l v a :
  ll_idle l → 0 <= a < m_dwLengthInBytes j_type → byte v →
  canWrite (j_cells (hw l) a) v = true →
  wp (WriteByte v a)
     (λ _ l', ll_inv l' ∧ dev_flashType (flashDevice l') = dev_flashType (flashDevice l) ∧
              ∀ x, j_cells (hw l') x = if x =? a then v else j_cells (hw l) x) l.
Proof.
  intros (Hw & Hf & Ha) Hr Hv Hcan. pose proof j_length.
  destruct (j_program _ a v Ha Hr Hv) as [Hlive Hc].
  unfold WriteByte. apply wp_bind, wp_gets. pose proof Hw as [-> _].
  unfold wp, _29xxxWriteBytes, mbind, ST_mbind.
  rewrite !store_ok by (done || lia || (unfold byte; lia)).
  split_and!; [|done|].
  - split_and!; [done|exact Hlive|cbn; congruence].
  - intros x. etransitivity; [exact (Hc x)|]. rewrite canWrite_land; [done|apply j_cell_byte|done|done].
Qed.

Lemma ll_erase_law l m a :
  ll_idle l → 0 <= a < m_dwLengthInBytes j_type →
  wp (erase_cmd m a)
     (λ _ l', ll_inv l' ∧ dev_flashType (flashDevice l') = dev_flashType (flashDevice l) ∧
              (∀ x, j_cells (hw l') x = j_cells (hw l) x ∨
                    j_cells (hw l') x = 0xFF ∧ region_of (m_support4KBErase j_type) m a x) ∧
              if j_works m then j_cells (hw l') a = 0xFF
              else ll_idle l' ∧ ∀ x, j_cells (hw l') x = j_cells (hw l) x) l.
Proof.
  intros (Hw & Hf & Ha) Hr. pose proof j_length.
  destruct (j_erase _ m a Ha Hr) as (Hlive & Hx & Hworks).
  assert (erase_cmd m a l = Ok (tt, set_hw (cycles (erase_cycles (erase_last m a)) (hw l)) l)) as E.
  { pose proof Hw as [Hp _].
    destruct m; cbn; unfold InititiateSectorErase, InititiateBlockErase, InititiateChipErase,
      _29xxxSectorErase, _29xxxBlockErase, _29xxxChipErase, _29xxxCommonEraseSequence,
      mbind, ST_mbind, gets; rewrite Hp, !store_ok by (done || lia || (unfold byte; lia));
      by destruct l. }
  unfold wp. rewrite E. split_and!; [|done|exact Hx|].
  - split_and!; [done|exact Hlive|cbn; congruence].
  - destruct (j_works m); [exact Hworks|]. destruct Hworks as [Ha' Hc']. by split_and!.
Qed.

#[export] Program Instance ll_contract : FlashContract (ll H) := {|
  chip_inv := ll_inv;
  chip_idle := ll_idle;
  content l := j_cells (hw l);
  polls := ll_polls;
  attached := j_type;
  works := j_works
|}.
Next Obligation. intros l. apply idle_is_inv. Qed.
Next Obligation.
  intros l (Hw & Hf & Ha). unfold ll_polls. rewrite Hf.
  by rewrite (proj2 (j_array_busy _ (j_array_live _ Ha)) Ha).
Qed.
Next Obligation. intros. apply j_cell_byte. Qed.
Next Obligation. apply ll_ReadDevice_law. Qed.
Next Obligation. apply ll_busy_law. Qed.
Next Obligation.
  intros l a (Hw & _ & Ha) Hr. pose proof j_length.
  assert (load a l = Ok (j_cells (hw l) a, set_hw (hw l) l)) as Hld
    by (apply load_ok; [done|lia|apply j_cell_byte|by apply j_read]).
  etransitivity; [exact Hld|]. by destruct l.
Qed.
Next Obligation. apply ll_WriteByte_law. Qed.
Next Obligation. apply ll_erase_law. Qed.
End contract.

(** ** A chip *)

Module Chip.

Inductive mode :=
| Array | Unlock1 | Unlock2 | Identify | Program | Erase1 | Erase2 | Erase3.

Record chip := mkChip { cells : mem; cmode : mode; busy : nat; dq6 : bool }.

Definition with_mode (m : mode) (h : chip) : chip := mkChip (cells h) m (busy h) (dq6 h).

(** An internal operation that takes [n] status reads and leaves [c]. *)
Definition operate (n : nat) (c : mem) (h : chip) : chip := mkChip c Array n (dq6 h).

Definition wipe (size a : Z) (c : mem) : mem := λ x, if x / size =? a / size then 0xFF else c x.

Definition command (v : Z) (h : chip) : chip :=
  if v =? 0x90 then with_mode Identify h
  else if v =? 0xa0 then with_mode Program h
  else if v =? 0x80 then with_mode Erase1 h
  else with_mode Array h.

Definition erase (a v : Z) (h : chip) : chip :=
  if v =? 0x30 then operate 5 (wipe 4096 a (cells h)) h
  else if v =? 0x50 then operate 5 (wipe 65536 a (cells h)) h
  else if (v =? 0x10) && (a =? 0x5555) then operate 5 (λ _, 0xFF) h
  else with_mode Array h.

Definition cycle (a v : Z) (h : chip) : chip :=
  match busy h with
  | S _ => h
  | O =>
      match cmode h with
      | Array => if (a =? 0x5555) && (v =? 0xaa) then with_mode Unlock1 h else h
      | Unlock1 => with_mode (if (a =? 0x2aaa) && (v =? 0x55) then Unlock2 else Array) h
      | Unlock2 => if a =? 0x5555 then command v h else with_mode Array h
      | Identify => if v =? 0xf0 then with_mode Array h else h
      | Program => operate 2 (mem_set (cells h) a (Z.land (cells h a) v)) h
      | Erase1 => with_mode (if (a =? 0x5555) && (v =? 0xaa) then Erase2 else Array) h
      | Erase2 => with_mode (if (a =? 0x2aaa) && (v =? 0x55) then Erase3 else Array) h
      | Erase3 => erase a v h
      end
  end.

Definition sense (a : Z) (h : chip) : Z * chip :=
  match busy h with
  | S n => (if dq6 h then 0x40 else 0, mkChip (cells h) (cmode h) n (negb (dq6 h)))
  | O =>
      match cmode h with
      | Identify => (if a =? 0 then 0xbf else if a =? 1 then 0x5b else 0, h)
      | _ => (u8 (cells h a), h)
      end
  end.

#[export] Instance chip_bus : Bus chip := {|
  bus_read p h := sense (p - base) h;
  bus_write p v h := cycle (p - base) v h;
  bus_wait_us _ h := h
|}.

Definition SST49LF080A : KNOWN_FLASH_TYPE := mkFlash 0xbf 0x5b "SST_49LF080A" 0x100000 1.

Lemma land_u8 a v : byte v → u8 (Z.land a v) = Z.land (u8 a) v.
Proof.
  intros Hv. unfold u8. rewrite <- !(Z.land_ones _ 8) by lia.
  rewrite <- (Z.land_assoc a v), <- (Z.land_assoc a _ v). f_equal. apply Z.land_comm.
Qed.

Lemma offset_id a : base + a - base = a.
Proof. lia. Qed.

Lemma chip_cycles s (h : chip) : cycles s h = foldl (λ h c, cycle c.1 c.2 h) h s.
Proof.
  revert h. induction s as [|[a v] s IH]; intros h; [done|]. cbn [cycles foldl].
  rewrite IH. cbn [bus_write chip_bus fst snd]. by rewrite offset_id.
Qed.

#[export] Program Instance chip_jedec : Jedec chip := {|
  j_cells h a := u8 (cells h a);
  j_array h := cmode h = Array ∧ busy h = 0%nat;
  j_live h := cmode h = Array;
  j_busy := busy;
  j_dq6 := dq6;
  j_type := SST49LF080A;
  j_works _ := true
|}.
Next Obligation. vm_compute. reflexivity. Qed.
Next Obligation. split; unfold byte; cbn; lia. Qed.
Next Obligation. cbn. lia. Qed.
Next Obligation. intros. apply u8_range. Qed.
Next Obligation. by intros h [? _]. Qed.
Next Obligation. intros h Hm. by split; [|intros [_ ?]]. Qed.
Next Obligation.
  intros h a [Hm Hb] _. cbn [bus_read chip_bus]. rewrite offset_id. unfold sense. by rewrite Hb, Hm.
Qed.
Next Obligation.
  intros [c m b q] n Hm Hb. cbn in *. subst. eexists _, _. split; [reflexivity|].
  by destruct q; split_and!.
Qed.
Next Obligation. intros [c m b q] [Hm Hb]. cbn in *. by subst. Qed.
Next Obligation. intros [c m b q] [Hm Hb]. cbn in *. subst. by eexists _, _. Qed.
Next Obligation.
  intros [c m b q] a v [Hm Hb] Ha Hv. cbn in Hm, Hb. subst. rewrite chip_cycles.
  cbn. split; [done|]. intros x. unfold mem_set.
  destruct (Z.eqb_spec x a) as [->|]; [by rewrite land_u8|done].
Qed.
Next Obligation.
  intros [c md b q] m a [Hm Hb] Ha. cbn in Hm, Hb. subst. rewrite chip_cycles.
  destruct m; cbn; (split_and!; [done| |]);
    unfold wipe; rewrite ?Z.eqb_refl; try done; intros x; try by right.
  - destruct (Z.eqb_spec (x / 4096) (a / 4096)); [by right|by left].
  - destruct (Z.eqb_spec (x / 65536) (a / 65536)); [by right|by left].
Qed.

(** The low level, initialised, on a chip that holds [c]. *)
Definition ll_with (c : mem) : ll chip :=
  mkLL false true 0 (mkObject LPCFlashadress SST49LF080A String.EmptyString true) (mkChip c Array 0 false).

Lemma ll_with_idle c : chip_idle (ll_with c).
Proof. by split_and!. Qed.

End Chip.
