(* ===== verification/FlashTheorems.v ===== *)
(** * What the flash driver guarantees

    Against the interface of [FlashContract]: the read phase, the requests that
    set up an operation, and the properties of whole operations (flashing an
    image, saving the settings, loading them at boot). *)

From S2P Require Import Prelude Layout Crc32 Md5 Hardware Settings FlashTypes FlashLowLevel.
From S2P Require Import FlashDriver FlashContract FlashJedec.

Module FlashTheorems.
Import Hardware Settings FlashTypes FlashDriver.

Section reading.
Context {L : Type} `{FlashContract L}.

Abbreviation W := (world L).

Context (start size : Z) (task : FlashTask) (err : FlashErrorcodes) (m : EraseSequenceMethod)
        (cnt : Z) (try : bool).
Context (Hsize : 0 < size <= ImageSize1024KB) (Hstart : 0 <= start)
        (Hfit : start + size <= m_dwLengthInBytes attached)
        (Hlen : m_dwLengthInBytes attached <= ImageSize1024KB).

(** Reading with [i] octets done, on a chip that holds [c]. *)
Definition reading (c : Z → Z) (fr : sys * list Z * list Z) (op : FlashOp) (i : Z) (b : mem)
    (l : L) (w : W) : Prop :=
  drv w = mkDriver b size op err start i task m cnt try ∧ low w = l ∧
  flashType l = attached ∧ (∀ a, content l a = c a) ∧
  (system w, LPCmodSettings w, LPCmodSettingsOrigFromFlash w) = fr.

Lemma read_ready_wp c fr i b l w (Q : W → Prop) :
  reading c fr FlashOp_ReadInProgress i b l w → chip_idle l → 0 <= i < size →
  (i + 1 < size → ∀ w',
     reading c fr FlashOp_ReadInProgress (i + 1) (mem_set b i (c (start + i))) l w' → Q w') →
  (i + 1 = size → ∀ w',
     reading c fr FlashOp_ReadInProgress 0 (mem_set b i (c (start + i))) l w' →
     wp (read_finish task) (λ _ w'', Q w'') w') →
  wp read_ready (λ _ w', Q w') w.
Proof.
  intros (Hd & Hl & Hty & Hc & Hf) Hidle Hi Hnext Hlast. destruct w as [d lw sy ls lo].
  cbn in Hd, Hl. subst d lw. unfold read_ready. apply wp_bind, wp_gets. cbn.
  rewrite u32_id by (unfold word32, ImageSize1024KB in *; lia).
  apply wp_bind, lowM_wp. unfold wp at 1. cbn [low]. rewrite ReadByte_law by (done || lia).
  apply wp_bind, wp_gets. apply wp_bind. unfold buffer_set. apply wp_bind.
  unfold wp at 1, assert_ub. cbn [drv set_low currentAddr].
  rewrite (proj2 (Z.leb_le 0 i)), (proj2 (Z.ltb_lt i ImageSize1024KB)) by lia. cbn [andb].
  apply wp_modify, wp_bind, wp_modify, wp_bind, wp_gets. cbn.
  rewrite u32_id by (unfold word32, ImageSize1024KB in *; lia). rewrite Hc.
  destruct (Z.leb_spec size (i + 1)).
  - apply wp_bind, wp_modify. apply Hlast; [lia|]. by split_and!.
  - apply wp_ret. apply Hnext; [lia|]. by split_and!.
Qed.

Lemma read_phase c fr n i b l w (P : W → Prop) :
  reading c fr FlashOp_ReadInProgress i b l w → chip_inv l → 0 <= i →
  i + Z.of_nat n = size → (0 < n)%nat →
  (∀ b' l' w', reading c fr FlashOp_ReadInProgress 0 b' l' w' → chip_idle l' →
     (∀ x, b' x = if (i <=? x) && (x <? size) then c (start + x) else b x) →
     wp (read_finish task) (λ _ w'', reaches w'' P) w') →
  reaches w P.
Proof.
  revert i b l w. induction n as [|n IH]; intros i b l w Hr Hinv Hi Hn Hpos Hfin; [lia|].
  pose proof Hr as (Hd & Hl & Hty & Hc & Hf).
  eapply (poll_reaches id read_ready P (polls l)); rewrite ?Hl; [|done|done|done|].
  { intros w' Hop. unfold Flash_executeFlashFSM, mbind, ST_mbind, gets. by rewrite Hop, Hd. }
  intros l' k Hidle [Hs Hsc] _.
  assert (Nat.iter k id (drv w) = drv w) as -> by (induction k; done).
  assert (∀ x, mem_set b i (c (start + i)) x =
               if (i <=? x) && (x <? i + 1) then c (start + x) else b x) as Hm.
  { intros x. unfold mem_set. destruct (Z.eqb_spec x i) as [->|].
    - by rewrite (proj2 (Z.leb_le i i)), (proj2 (Z.ltb_lt i (i + 1))) by lia.
    - destruct (Z.leb_spec i x), (Z.ltb_spec x (i + 1)); cbn; done || lia. }
  eapply (read_ready_wp c fr i b l'); [|done|lia| |].
  - destruct w; cbn in *. split_and!; [done|done|congruence| |done].
    intros a. by rewrite Hsc.
  - intros Hlt w' Hr'. eapply (IH (i + 1)); [exact Hr'|by apply idle_inv|lia|lia|lia|].
    intros b' l2 w2 Hr2 Hidle2 Hb2. apply (Hfin b' l2); [done|done|].
    intros x. rewrite Hb2, Hm.
    destruct (Z.leb_spec (i + 1) x), (Z.leb_spec i x), (Z.ltb_spec x size), (Z.ltb_spec x (i + 1));
      cbn; done || lia.
  - intros Heq w' Hr'. eapply Hfin; [exact Hr'|done|]. intros x. rewrite Hm. by rewrite Heq.
Qed.
End reading.

(** ** Identifier and settings *)

Lemma sizeof_BiosIdentifier : sizeof BiosIdentifier = 63%nat.
Proof. reflexivity. Qed.

Lemma mem_read_S (c : mem) a n : mem_read c a (S n) = c a :: mem_read c (a + 1) n.
Proof.
  unfold mem_read. cbn [seq map]. f_equal; [f_equal; lia|].
  rewrite <- seq_shift, map_map. apply map_ext. intros i. f_equal. lia.
Qed.

(** The identifier at the end of the first 256KB. *)
Definition flash_id (c : Z → Z) : list Z := mem_read c (ImageSize256KB - 63) 63.

(** The settings as they are written: with their checksum. *)
Definition stamped (s : list Z) : list Z :=
  sset crc32Value (le_bytes 4 (Crc32.crc_ref (take 3836 s))) s.

Lemma stamped_eq s :
  length s = 3840%nat → stamped s = take 3836 s ++ le_bytes 4 (Crc32.crc_ref (take 3836 s)).
Proof.
  intros Hs. unfold stamped, set_field. rewrite length_le_bytes.
  change (offsetof _LPCmodSettings crc32Value) with 3836%nat.
  rewrite (drop_ge s) by lia. by rewrite app_nil_r.
Qed.

Lemma stamped_length s : length s = 3840%nat → length (stamped s) = 3840%nat.
Proof. intros Hs. rewrite stamped_eq by done. rewrite length_app, length_le_bytes. len. Qed.

Lemma stamped_byte s : length s = 3840%nat → Forall byte s → Forall byte (stamped s).
Proof.
  intros Hs Hb. rewrite stamped_eq by done. apply Forall_app.
  split; [by apply Forall_take|apply le_bytes_byte].
Qed.

Lemma stamped_take s : length s = 3840%nat → take 3836 (stamped s) = take 3836 s.
Proof. intros Hs. rewrite stamped_eq by done. apply take_app_length'. len. Qed.

Lemma settings_crc s :
  length s = 3840%nat → Forall byte s →
  calculateSettingsStructCRC32Value s = Ok (Crc32.crc_ref (take 3836 s)).
Proof.
  intros Hs Hb. unfold calculateSettingsStructCRC32Value. rewrite sizeof_LPCmodSettings.
  rewrite Crc32.crc32buf_eval by (done || lia). done.
Qed.

Section settings.
Context {L : Type} `{FlashContract L}.
Context (Hlen : ImageSize256KB <= m_dwLengthInBytes attached <= ImageSize1024KB).

Abbreviation W := (world L).

Lemma read_flash_wp n a c (w : W) (Q : list Z → W → Prop) :
  chip_idle (low w) → (∀ x, content (low w) x = c x) →
  0 <= a → a + Z.of_nat n <= m_dwLengthInBytes attached →
  Q (mem_read c a n) w → wp (read_flash n a) Q w.
Proof.
  intros Hidle Hc. revert a Q. induction n as [|n IH]; intros a Q Ha Hn HQ; cbn [read_flash];
    [by apply wp_ret|].
  apply wp_bind, lowM_wp. unfold wp at 1. rewrite ReadByte_law by (done || lia).
  assert (set_low (low w) w = w) as -> by by destruct w.
  apply wp_bind. apply IH; [lia|lia|]. apply wp_ret. by rewrite Hc, <- mem_read_S.
Qed.

Lemma id_wp c (w : W) (Q : list Z → W → Prop) :
  chip_idle (low w) → (∀ x, content (low w) x = c x) → Q (flash_id c) w →
  wp getBiosIdentifierFromFlash Q w.
Proof.
  intros Hidle Hc HQ. unfold getBiosIdentifierFromFlash. rewrite sizeof_BiosIdentifier.
  apply (read_flash_wp 63 _ c); [done|done|unfold ImageSize256KB; lia| |exact HQ].
  unfold ImageSize256KB in *. lia.
Qed.

Lemma inject_wp off (w : W) (Q : W → Prop) :
  off ≠ 0 → length (LPCmodSettings w) = 3840%nat → Forall byte (LPCmodSettings w) →
  0 < biosBufferSize (drv w) → off mod biosBufferSize (drv w) + 3840 <= ImageSize1024KB →
  (let d := drv w in
   let s := stamped (LPCmodSettings w) in
   Q (mkWorld (set_buffer (mem_copy (biosBuffer d) (off mod biosBufferSize d)
                                    (mem_of_list s) 0 3840) d)
              (low w) (system w) s (LPCmodSettingsOrigFromFlash w))) →
  wp (injectSettingsInBuf off) (λ _ w', Q w') w.
Proof.
  intros Hoff Hs Hb Hsize Hfit HQ. destruct w as [d l sy ls lo]. cbn in *.
  unfold injectSettingsInBuf. rewrite (proj2 (Z.eqb_neq off 0)) by done.
  apply wp_bind, wp_gets, wp_bind. unfold wp at 1, liftO. cbn [LPCmodSettings].
  rewrite settings_crc by done. apply wp_bind, wp_modify, wp_bind, wp_gets, wp_bind.
  cbn [drv set_settings LPCmodSettings]. fold (stamped ls).
  unfold wp at 1, assert_ub. rewrite (proj2 (Z.eqb_neq (biosBufferSize d) 0)) by lia.
  cbn [negb]. apply wp_bind, wp_gets. unfold buffer_copy. cbn [LPCmodSettings set_settings]. apply wp_bind.
  unfold wp at 1, assert_ub. rewrite stamped_length by done. change (Z.of_nat 3840) with 3840.
  pose proof (Z.mod_pos_bound off (biosBufferSize d)).
  rewrite (proj2 (Z.leb_le 0 _)), (proj2 (Z.leb_le _ ImageSize1024KB)) by lia.
  cbn [andb]. apply wp_modify. exact HQ.
Qed.

(** ** Saving the settings *)

(** The driver after [Flash_freeFlashFSM], holding octets. *)
Definition fresh (w : W) : Prop :=
  currentFlashOp (drv w) = FlashOp_Idle ∧ currentAddr (drv w) = 0 ∧
  ∀ i, byte (biosBuffer (drv w) i).

(** Where the settings go when the image ends below the last block. *)
Definition settings_base : Z := 3 * FlashBlockSize_64KB.

Definition sector_size : Z :=
  getEraseMethodSize (m_support4KBErase attached) EraseSequenceMethod_Sector.

Lemma sector_size_cases : sector_size = 4096 ∨ sector_size = 65536.
Proof. unfold sector_size, getEraseMethodSize. destruct (truthy _); auto. Qed.

Lemma base_mod_sector : settings_base mod sector_size = 0.
Proof. destruct sector_size_cases as [->| ->]; reflexivity. Qed.

Lemma save_setup c (w : W) (Q : W → Prop) :
  fresh w → chip_idle (low w) → (∀ x, content (low w) x = c x) →
  getXBlastOSSettingStartingOffset (flash_id c) = settings_base →
  (∀ l w', reading settings_base sector_size FlashTask_WriteSettings (flashErrorCode (drv w))
             EraseSequenceMethod_Sector 0 true c
             (system w, LPCmodSettings w, LPCmodSettingsOrigFromFlash w)
             FlashOp_PendingOp 0 (biosBuffer (drv w)) l w' → chip_idle l → Q w') →
  wp Flash_SaveXBlastOSSettings (λ _ w', Q w') w.
Proof.
  intros (Hop & Haddr & _) Hidle Hc Hoff HQ. destruct w as [d l sy ls lo].
  destruct d as [b n op e st a tk m cnt try]. cbn in Hop, Haddr, Hidle, Hc |- *. subst op a.
  unfold Flash_SaveXBlastOSSettings. apply wp_bind, wp_gets. cbn [drv currentFlashOp].
  destruct (decide (FlashOp_Idle = FlashOp_Idle)) as [_|]; [|done]. apply wp_bind, wp_bind, lowM_wp.
  eapply wp_mono; [by apply ReadDevice_law|]. intros found l' (-> & Hidle' & Hty & Hc').
  apply wp_bind. apply (id_wp c); [done|intros x; cbn; by rewrite Hc'|]. rewrite Hoff.
  apply wp_bind, wp_modify.
  change (settings_base =? 0) with false. apply wp_bind, wp_modify. apply wp_bind.
  unfold methodSize. apply wp_bind, wp_gets, wp_bind, wp_gets, wp_ret.
  apply wp_modify, wp_gets. apply (HQ l'); [|done].
  split_and!; [cbn; by rewrite Hty|done|done| |done]. intros x. by rewrite Hc'.
Qed.

(** The buffer that is written: the window as it was, with the settings over it. *)
Definition save_buffer (c : Z → Z) (b : mem) (s : list Z) : mem :=
  mem_copy (λ x, if (0 <=? x) && (x <? sector_size) then c (settings_base + x) else b x)
           0 (mem_of_list (stamped s)) 0 3840.

Lemma mem_of_list_byte s x : Forall byte s → byte (mem_of_list s x).
Proof.
  intros Hs. unfold mem_of_list. destruct (x <? 0); [done|]. rewrite nth_lookup.
  destruct (s !! Z.to_nat x) eqn:E; [|done]. by eapply Forall_lookup_1.
Qed.

Lemma save_buffer_byte c b s x :
  (∀ x, byte (c x)) → (∀ x, byte (b x)) → length s = 3840%nat → Forall byte s →
  byte (save_buffer c b s x).
Proof.
  intros Hc Hb Hl Hs. unfold save_buffer, mem_copy.
  destruct (_ && _); [by apply mem_of_list_byte, stamped_byte|]. by destruct (_ && _).
Qed.

(** The state a save ends in. *)
Definition saved (c : Z → Z) (s : list Z) (w : W) : Prop :=
  currentFlashOp (drv w) = FlashOp_Completed ∧ chip_idle (low w) ∧
  LPCmodSettings w = stamped s ∧ (∀ i, byte (biosBuffer (drv w) i)) ∧
  ∀ x, content (low w) x =
       if (settings_base <=? x) && (x <? settings_base + 3840)
       then mem_of_list (stamped s) (x - settings_base) else c x.

Lemma window_inside x :
  x / sector_size = settings_base / sector_size ↔
  settings_base <= x < settings_base + sector_size.
Proof.
  unfold settings_base, FlashBlockSize_64KB.
  destruct sector_size_cases as [->| ->]; split; intros; Z.to_euclidean_division_equations; lia.
Qed.

(** From the read-back to the end of a save. *)
Lemma save_finish c err0 b bb s sy lo l (w : W) :
  works EraseSequenceMethod_Sector = true →
  length s = 3840%nat → Forall byte s → (∀ x, byte (b x)) → (∀ x, byte (c x)) →
  chip_idle l → (∀ x, bb x = save_buffer c b s x) →
  drv w = mkDriver bb sector_size FlashOp_EraseInProgress err0 settings_base 0
            FlashTask_WriteSettings EraseSequenceMethod_Sector 0 true →
  low w = l → flashType l = attached → (∀ x, content l x = c x) →
  (system w, LPCmodSettings w, LPCmodSettingsOrigFromFlash w) = (sy, stamped s, lo) →
  reaches w (saved c s).
Proof.
  intros Hworks Hls Hbs Hbb Hbc Hidle Heq Hd Hl Hty Hc Hf.
  pose proof sector_size_cases as Hss.
  eapply reaches_bind;
    [apply (job_runs bb settings_base sector_size FlashTask_WriteSettings err0
              (sy, stamped s, lo) c (λ x, x / sector_size = settings_base / sector_size))|].
  - unfold ImageSize1024KB. lia.
  - unfold settings_base, FlashBlockSize_64KB. lia.
  - unfold settings_base, FlashBlockSize_64KB, ImageSize256KB in *. lia.
  - lia.
  - intros i. rewrite Heq. by apply save_buffer_byte.
  - intros i Hi. apply window_inside. lia.
  - intros m i x [?|[-> _]] Hi Hr; [done|]. cbn in Hr. fold sector_size in Hr. rewrite Hr.
    apply window_inside. lia.
  - exists EraseSequenceMethod_Sector, l. split_and!; [|done| |done|right; done].
    + split_and!; [done|done|done|]. split; [done|]. intros x _. apply Hc.
    + intros j Hj. lia.
  - intros w' [(i & m & cnt & try & l' & (Hd' & Hl' & _ & [Hf' Hk]) & Hidle' & Hp)|
               (_ & _ & [Hsec _] & _)]; [|congruence].
    apply reaches_now. injection Hf' as _ Hs' _. unfold saved. rewrite Hd', Hl'. cbn.
    split_and!; [done|done|done|intros; rewrite Heq; by apply save_buffer_byte|]. intros x.
    destruct (decide (settings_base <= x < settings_base + sector_size)) as [Hin|Hout].
    + replace x with (settings_base + (x - settings_base)) at 1 by lia. rewrite Hp, Heq by lia.
      unfold save_buffer, mem_copy.
      destruct (Z.leb_spec settings_base x), (Z.ltb_spec x (settings_base + 3840)),
        (Z.leb_spec 0 (x - settings_base)), (Z.ltb_spec (x - settings_base) (0 + 3840)),
        (Z.ltb_spec (x - settings_base) sector_size); cbn [andb]; try lia; f_equal; lia.
    + rewrite Hk by (rewrite window_inside; lia).
      destruct (Z.leb_spec settings_base x), (Z.ltb_spec x (settings_base + 3840)); cbn; done || lia.
Qed.

(** [fresh] and the layout make the read-back of a save end in the erase phase
    with the window and the settings in the buffer. *)
Lemma save_readback c b err0 s sy lo l (w : W) :
  works EraseSequenceMethod_Sector = true →
  length s = 3840%nat → Forall byte s → (∀ x, byte (b x)) → (∀ x, byte (c x)) →
  getXBlastOSSettingStartingOffset (flash_id c) = settings_base →
  reading settings_base sector_size FlashTask_WriteSettings err0 EraseSequenceMethod_Sector 0 true
    c (sy, s, lo) FlashOp_PendingOp 0 b l w → chip_idle l →
  reaches w (saved c s).
Proof.
  intros Hworks Hls Hbs Hbb Hbc Hoff (Hd & Hl & Hty & Hc & Hf) Hidle.
  pose proof sector_size_cases as Hss. pose proof base_mod_sector as Hmod.
  apply reaches_step. unfold Flash_executeFlashFSM. apply wp_bind, wp_gets. rewrite Hd.
  cbn [currentFlashOp]. unfold pending_step. apply wp_bind, wp_gets. rewrite Hd.
  cbn [currentFlashTask]. apply wp_modify. rewrite Hd.
  eapply (read_phase settings_base sector_size FlashTask_WriteSettings err0
            EraseSequenceMethod_Sector 0 true) with (n := Z.to_nat sector_size) (i := 0) (l := l);
    [unfold ImageSize1024KB; lia|unfold settings_base, FlashBlockSize_64KB; lia
    |unfold settings_base, FlashBlockSize_64KB, ImageSize256KB in *; lia|lia
    | |by apply idle_inv|lia|lia|lia|].
  - destruct w; cbn in *. by split_and!.
  - intros b' l' w' (Hd' & Hl' & Hty' & Hc' & Hf') Hidle' Hb'.
    destruct w' as [d' lw' sy' ls' lo']. cbn in Hd', Hl', Hf'. subst d' lw'.
    injection Hf' as -> -> ->.
    unfold read_finish. apply wp_bind. apply (id_wp c); [done|done|]. rewrite Hoff.
    apply wp_bind. apply inject_wp; cbn [drv LPCmodSettings biosBufferSize];
      [done|done|done|lia|rewrite Hmod; unfold ImageSize1024KB; lia|].
    apply wp_modify. cbn. rewrite Hmod.
    eapply (save_finish c err0 b _ s);
      [done|done|done|done|done|exact Hidle'| |reflexivity|done|done|done|done].
    intros x. cbn. unfold save_buffer, mem_copy. destruct ((0 <=? x) && (x <? 0 + 3840)); [done|apply Hb'].
Qed.

(** ** Loading the settings at boot *)

Definition accepted (s : list Z) : Prop :=
  length s = 3840%nat ∧ Forall byte s ∧
  le_val (sget settingsVersion s) = CurrentSettingsVersionNumber ∧
  le_val (sget crc32Value s) = Crc32.crc_ref (take 3836 s).

Definition terminal (w : W) : Prop :=
  currentFlashOp (drv w) = FlashOp_Completed ∨ currentFlashOp (drv w) = FlashOp_Error.

Lemma step_terminal (w : W) : terminal w → Flash_executeFlashFSM w = Ok (tt, w).
Proof.
  intros Ht. unfold Flash_executeFlashFSM, mbind, ST_mbind, gets. by destruct Ht as [->| ->].
Qed.

Lemma repeat_terminal n (w : W) :
  terminal w → repeatM n Flash_executeFlashFSM w = Ok (tt, w).
Proof.
  intros Ht. induction n as [|n IH]; [done|]. cbn [repeatM]. unfold mbind, ST_mbind.
  by rewrite step_terminal.
Qed.

(** The boot loop stops at the end of the operation and loads. *)
Lemma boot_loop_wp n (w w' : W) (Q : option bool → W → Prop) :
  repeatM n Flash_executeFlashFSM w = Ok (tt, w') → terminal w' →
  wp Flash_LoadXBlastOSSettings (λ r w2, Q (Some r.1) (set_settings r.2 w2)) w' →
  wp (boot_read_loop (S n)) Q w.
Proof.
  intros Hr Ht HQ. revert w Hr. induction n as [|n IH]; intros w Hr;
    cbn [boot_read_loop]; apply wp_bind, wp_gets; cbn [progressOp];
    fold (terminal w); destruct (decide _) as [Htw|Hntw].
  - injection Hr as <-. apply wp_bind. eapply wp_mono; [exact HQ|].
    intros [r s] w2 HQ'. by apply wp_bind, wp_modify, wp_ret.
  - injection Hr as <-. done.
  - rewrite repeat_terminal in Hr by done. injection Hr as <-. apply wp_bind.
    eapply wp_mono; [exact HQ|]. intros [r s] w2 HQ'. by apply wp_bind, wp_modify, wp_ret.
  - cbn [repeatM] in Hr. unfold mbind, ST_mbind in Hr.
    destruct (Flash_executeFlashFSM w) as [[[] w1]|] eqn:E; [|done].
    apply wp_bind. unfold wp at 1. rewrite E. by apply IH.
Qed.

Lemma load_wp (w : W) (Q : bool * list Z → W → Prop) :
  currentFlashOp (drv w) = FlashOp_Completed → currentFlashTask (drv w) = FlashTask_ReadSettings →
  accepted (mem_read (biosBuffer (drv w)) 0 3840) →
  Q (true, mem_read (biosBuffer (drv w)) 0 3840) w →
  wp Flash_LoadXBlastOSSettings Q w.
Proof.
  intros Hop Htask (Hl & Hb & Hv & Hcrc) HQ. unfold Flash_LoadXBlastOSSettings.
  rewrite sizeof_LPCmodSettings. apply wp_bind, wp_gets.
  set (s := mem_read (biosBuffer (drv w)) 0 3840) in *. clearbody s. apply wp_bind.
  destruct (decide _) as [_|Hn]; [|by destruct Hn]. rewrite Hv, Z.eqb_refl. apply wp_bind.
  unfold wp at 1, liftO. rewrite settings_crc by done. apply wp_ret.
  rewrite Hcrc, Z.eqb_refl. by apply wp_ret.
Qed.

(** A request on a fresh driver starts reading the settings. *)
Lemma request_wp c (w : W) (Q : W → Prop) :
  fresh w → chip_idle (low w) → (∀ x, content (low w) x = c x) →
  getXBlastOSSettingStartingOffset (flash_id c) = settings_base →
  (∀ l w', reading settings_base 3840 FlashTask_ReadSettings (flashErrorCode (drv w))
             (eraseSequenceMethod (drv w)) (eraseBusyCount (drv w)) (firstEraseTry (drv w)) c
             (switchOSBank FlashBank_OSBank (system w), LPCmodSettings w,
              LPCmodSettingsOrigFromFlash w)
             FlashOp_PendingOp 0 (biosBuffer (drv w)) l w' → chip_idle l → Q w') →
  wp Flash_ReadXBlastOSSettingsRequest (λ _ w', Q w') w.
Proof.
  intros (Hop & Haddr & _) Hidle Hc Hoff HQ. destruct w as [d l sy ls lo].
  destruct d as [b n op e st a tk m cnt try]. cbn in Hop, Haddr, Hidle, Hc |- *. subst op a.
  unfold Flash_ReadXBlastOSSettingsRequest. rewrite sizeof_LPCmodSettings.
  change (Z.of_nat 3840) with 3840. apply wp_bind, wp_gets. cbn [drv currentFlashOp].
  destruct (decide (FlashOp_Idle = FlashOp_Idle)) as [_|]; [|done]. apply wp_bind, wp_bind, lowM_wp.
  eapply wp_mono; [by apply ReadDevice_law|]. intros found l' (-> & Hidle' & Hty & Hc').
  apply wp_bind, wp_gets. cbn [orb]. apply wp_bind, wp_modify, wp_bind, wp_modify, wp_bind, wp_modify.
  apply wp_bind. apply (id_wp c); [done|intros x; cbn; by rewrite Hc'|]. rewrite Hoff.
  apply wp_bind, wp_modify. change (settings_base =? 0) with false. apply wp_ret, wp_gets.
  apply (HQ l'); [|done]. split_and!; [done|done|done| |done].
  intros x. by rewrite Hc'.
Qed.

(** The settings are read, accepted and installed. *)
Lemma boot_read_reads c s (w : W) :
  fresh w → chip_idle (low w) → (∀ x, content (low w) x = c x) →
  getXBlastOSSettingStartingOffset (flash_id c) = settings_base →
  mem_read c settings_base 3840 = s → accepted s →
  ∃ n, wp (bootReadXBlastOSSettings n)
         (λ r w', r = Some true ∧ LPCmodSettings w' = s ∧ LPCmodSettingsOrigFromFlash w' = s ∧
                  currentFlashOp (drv w') = FlashOp_Idle ∧
                  ∀ x, content (low w') x = c x) w.
Proof.
  intros Hfresh Hidle Hc Hoff Hs Hacc.
  set (w0 := set_settings (populateSettingsStructWithDefault (system w)) w).
  assert (wp Flash_ReadXBlastOSSettingsRequest
            (λ _ w1, reaches w1 (λ w2,
               currentFlashOp (drv w2) = FlashOp_Completed ∧
               currentFlashTask (drv w2) = FlashTask_ReadSettings ∧
               mem_read (biosBuffer (drv w2)) 0 3840 = s ∧
               ∀ x, content (low w2) x = c x)) w0) as Hreq.
  { eapply (request_wp c); [done|done|done|done|].
    intros l w1 (Hd & Hl & Hty & Hc1 & Hf) Hidle1. apply reaches_step.
    unfold Flash_executeFlashFSM. apply wp_bind, wp_gets. rewrite Hd. cbn [currentFlashOp].
    unfold pending_step. apply wp_bind, wp_gets. rewrite Hd. cbn [currentFlashTask].
    apply wp_modify. rewrite Hd.
    eapply (read_phase settings_base 3840 FlashTask_ReadSettings) with (n := 3840%nat) (i := 0) (l := l);
      [unfold ImageSize1024KB; lia|unfold settings_base, FlashBlockSize_64KB; lia
      |unfold settings_base, FlashBlockSize_64KB, ImageSize256KB in *; lia|lia
      |split; [reflexivity|split; [exact Hl|split; [exact Hty|split; [exact Hc1|reflexivity]]]]
      |by apply idle_inv|lia|lia|lia|].
    intros b' l' w2 (Hd2 & Hl2 & _ & Hc2 & _) Hidle2 Hb2. unfold read_finish. apply wp_modify.
    apply reaches_now. rewrite Hd2.
    cbn [drv set_drv set_op currentFlashOp currentFlashTask biosBuffer low].
    split; [reflexivity|]. split; [reflexivity|]. split; [|intros x; rewrite Hl2; apply Hc2].
    rewrite <- Hs. apply mem_read_ext. intros i Hi. rewrite Hb2.
    destruct (Z.leb_spec 0 (0 + i)), (Z.ltb_spec (0 + i) 3840); cbn; (f_equal; lia) || lia. }
  apply wp_run in Hreq as (p & w1 & Hrun & n & Hn). exists (S n).
  apply wp_run in Hn as ([] & w2 & Hrep & Hop & Htask & Hbuf & Hc2).
  unfold bootReadXBlastOSSettings. apply wp_bind, wp_modify, wp_bind. fold w0.
  unfold wp at 1. rewrite Hrun. apply wp_bind. eapply (boot_loop_wp n w1 w2); [done|by left|].
  apply load_wp; rewrite ?Hbuf; [done|done|done|].
  apply wp_bind, wp_modify, wp_bind. unfold Flash_freeFlashFSM. apply wp_bind, wp_modify, wp_modify.
  by apply wp_ret.
Qed.
End settings.

(** ** Flashing an image *)

(** Mirroring fills the target with copies of the image. *)
Lemma mirror_loop_spec fuel target (buf : mem) size n0 (img : Z → Z) a b :
  0 < n0 → 0 <= a <= 20 → 0 <= b <= 20 → size = 2 ^ a → target = 2 ^ b → size mod n0 = 0 →
  b - a <= Z.of_nat fuel → (∀ x, byte (buf x)) →
  (∀ x, 0 <= x < size → buf x = img (x mod n0)) →
  ∃ buf', mirror_loop fuel target buf size = Ok (buf', Z.max size target) ∧
    (∀ x, byte (buf' x)) ∧ ∀ x, 0 <= x < Z.max size target → buf' x = img (x mod n0).
Proof.
  intros Hn0 Ha Hb -> -> Hm Hf Hby Hbuf. revert buf a Ha Hm Hf Hby Hbuf.
  induction fuel as [|fuel IH]; intros buf a Ha Hm Hf Hby Hbuf; cbn [mirror_loop].
  - assert (2 ^ b <= 2 ^ a) by (apply Z.pow_le_mono_r; lia).
    destruct (Z.ltb_spec (2 ^ a) (2 ^ b)); [lia|]. rewrite Z.max_l by lia. by exists buf.
  - destruct (Z.ltb_spec (2 ^ a) (2 ^ b)) as [Hlt|Hge].
    2: { rewrite Z.max_l by lia. by exists buf. }
    assert (a < b) by (apply (Z.pow_lt_mono_r_iff 2); lia).
    assert (2 ^ a + 2 ^ a = 2 ^ (a + 1)) as Hdbl by (rewrite Z.pow_add_r by lia; lia).
    assert (2 ^ (a + 1) <= 2 ^ b) by (apply Z.pow_le_mono_r; lia).
    assert (2 ^ b <= 2 ^ 20) by (apply Z.pow_le_mono_r; lia).
    rewrite Hdbl, (proj2 (Z.leb_le _ ImageSize1024KB)) by (unfold ImageSize1024KB; lia).
    rewrite u32_id by (unfold word32; lia).
    replace (Z.max (2 ^ a) (2 ^ b)) with (Z.max (2 ^ (a + 1)) (2 ^ b)) by lia.
    apply (IH _ (a + 1)); [lia| |lia| |].
    + rewrite <- Hdbl, Zplus_mod, Hm. done.
    + intros x. unfold mem_copy. by destruct (_ && _).
    + intros x Hx. unfold mem_copy.
      destruct (Z.leb_spec (2 ^ a) x), (Z.ltb_spec x (2 ^ a + 2 ^ a)); cbn [andb];
        [|lia|apply Hbuf; lia..].
      rewrite Hbuf by lia. f_equal. rewrite Z.add_0_l, Zminus_mod, Hm, Z.sub_0_r.
      apply Z.mod_mod. lia.
Qed.

Lemma mirror_target_pow2 b bank :
  18 <= b <= 20 → ∃ b', mirror_target (2 ^ b) bank = 2 ^ b' ∧ 18 <= b' <= 20.
Proof.
  intros Hb. unfold mirror_target, ImageSize256KB, ImageSize512KB.
  repeat (destruct (_ || _)); [exists 18|exists 19|exists b|exists 18]; split; done || lia.
Qed.

Strategy opaque [mirror_loop].

Section flashing.
Context {L : Type} `{FlashContract L}.
Abbreviation W := (world L).

(** The image, over and over. *)
Definition tiled (img : list Z) (x : Z) : Z := mem_of_list img (x mod Z.of_nat (length img)).

Definition flashed (img : list Z) (offset size : Z) (w : W) : Prop :=
  currentFlashOp (drv w) = FlashOp_Completed ∧
  ∀ x, 0 <= x < size → content (low w) (offset + x) = tiled img x.

(** No erase command the driver knows works on the chip. *)
Definition unerasable : Prop :=
  works EraseSequenceMethod_Sector = false ∧
  (truthy (m_support4KBErase attached) = true → works EraseSequenceMethod_Block = false) ∧
  works EraseSequenceMethod_Chip = false.

Lemma check_pow2 a len : 8 <= a <= 20 → 2 ^ a <= len → checkImageSize len (2 ^ a) = FlashErrorcodes_NoError.
Proof.
  intros Ha Hl. unfold checkImageSize.
  assert (0 < 2 ^ a) by (apply Z.pow_pos_nonneg; lia).
  rewrite (proj2 (Z.ltb_lt _ _)), (proj2 (Z.leb_le _ _)) by lia. cbn [andb].
  assert (2 ^ a mod 256 = 0) as ->; [|done].
  replace a with (8 + (a - 8)) by lia. rewrite Z.pow_add_r by lia. change (2 ^ 8) with 256.
  rewrite Z.mul_comm. apply Z.mod_mul. lia.
Qed.

Lemma mirrorimage_wp img a b bf bank (w : W) (Q : W → Prop) :
  Z.of_nat (length img) = 2 ^ a → 8 <= a <= b → 18 <= b <= 20 →
  m_dwLengthInBytes attached = 2 ^ b → flashType (low w) = attached →
  biosBuffer (drv w) = bf → biosBufferSize (drv w) = 2 ^ a → (∀ x, byte (bf x)) →
  (∀ x, 0 <= x < 2 ^ a → bf x = mem_of_list img x) →
  (∀ buf,
     let size := Z.max (2 ^ a) (mirror_target (2 ^ b) bank) in
     (∀ x, byte (buf x)) → (∀ x, 0 <= x < size → buf x = tiled img x) →
     Q (set_drv (set_size size (set_buffer buf (drv w))) w)) →
  wp (mirrorimage bank) (λ _ w', Q w') w.
Proof.
  intros Hlen Ha Hb Hatt Hty Hbf Hn Hby Himg HQ.
  destruct (mirror_target_pow2 b bank Hb) as (b' & Ht & Hb').
  assert (0 < 2 ^ a) by (apply Z.pow_pos_nonneg; lia).
  destruct (mirror_loop_spec 32 (2 ^ b') bf (2 ^ a) (2 ^ a) (mem_of_list img) a b')
    as (buf & Hml & Hbb & Hbt);
    [lia|lia|lia|done|done|apply Z.mod_same; lia|lia|done| |].
  { intros x Hx. rewrite Z.mod_small by lia. by apply Himg. }
  unfold mirrorimage. apply wp_bind, wp_gets, wp_bind, wp_gets, wp_bind.
  unfold wp at 1, liftO. rewrite Hty, Hatt, Ht, Hbf, Hn, Hml.
  apply wp_modify. rewrite <- Ht in *. apply HQ; [done|].
  intros x Hx. rewrite Hbt by done. unfold tiled. by rewrite Hlen.
Qed.

Lemma write_setup_wp img a b offset bank e (w : W) (Q : W → Prop) :
  currentAddr (drv w) = 0 → flashErrorCode (drv w) = e →
  (∀ x, byte (biosBuffer (drv w) x)) → Forall byte img →
  Z.of_nat (length img) = 2 ^ a → 8 <= a <= b → 18 <= b <= 20 →
  m_dwLengthInBytes attached = 2 ^ b → flashType (low w) = attached →
  (∀ buf,
     let size := Z.max (2 ^ a) (mirror_target (2 ^ b) bank) in
     (∀ x, byte (buf x)) → (∀ x, 0 <= x < size → buf x = tiled img x) →
     Q (set_drv (mkDriver buf size FlashOp_PendingOp e offset 0 FlashTask_WriteBios
                          EraseSequenceMethod_Sector 0 true) w)) →
  wp (write_setup img (2 ^ a) offset bank) (λ _ w', Q w') w.
Proof.
  intros Haddr He Hby Hib Hlen Ha Hb Hatt Hty HQ. destruct w as [d l sy ls lo].
  destruct d as [bf n op e' st i tk m cnt try]. cbn in Haddr, He, Hby, Hty. subst i e'.
  assert (2 ^ a <= 2 ^ b) by (apply Z.pow_le_mono_r; lia).
  assert (2 ^ b <= 2 ^ 20) by (apply Z.pow_le_mono_r; lia).
  unfold write_setup. apply wp_bind, wp_modify.
  cbn [drv set_drv set_start set_size set_task set_op set_try set_count set_method
       biosBuffer biosBufferSize currentFlashOp flashErrorCode startingOffset currentAddr
       currentFlashTask eraseSequenceMethod eraseBusyCount firstEraseTry
       low system LPCmodSettings LPCmodSettingsOrigFromFlash].
  apply wp_bind. unfold wp at 1, assert_ub. rewrite Hlen, (proj2 (Z.leb_le _ _)) by lia.
  assert (take (Z.to_nat (2 ^ a)) img = img) as -> by (apply take_ge; lia).
  apply wp_bind. unfold buffer_copy. apply wp_bind. unfold wp at 1, assert_ub.
  rewrite Hlen, Z.add_0_l, (proj2 (Z.leb_le 0 0)), (proj2 (Z.leb_le (2 ^ a) ImageSize1024KB))
    by (unfold ImageSize1024KB; lia). cbn [andb]. apply wp_modify.
  eapply (mirrorimage_wp img a b); [done|lia|done|done|done|reflexivity|reflexivity| | |].
  - intros x. cbn. unfold mem_copy. destruct (_ && _); [by apply mem_of_list_byte|done].
  - intros x Hx. cbn. rewrite mem_copy_in by lia. f_equal. lia.
  - intros buf size Hbb Hbt. by apply HQ.
Qed.

Lemma write_bios_wp img a b offset bank (w : W) (Q : W → Prop) :
  fresh w → chip_idle (low w) → Forall byte img →
  Z.of_nat (length img) = 2 ^ a → 8 <= a <= b → 18 <= b <= 20 →
  m_dwLengthInBytes attached = 2 ^ b →
  (∀ buf w' e,
     let size := Z.max (2 ^ a) (mirror_target (2 ^ b) bank) in
     (∀ x, byte (buf x)) → (∀ x, 0 <= x < size → buf x = tiled img x) →
     chip_idle (low w') → flashType (low w') = attached →
     drv w' = mkDriver buf size FlashOp_PendingOp e offset 0 FlashTask_WriteBios
                EraseSequenceMethod_Sector 0 true → Q w') →
  wp (Flash_WriteBios img (2 ^ a) offset bank) (λ e w', e = FlashErrorcodes_NoError ∧ Q w') w.
Proof.
  intros (Hop & Haddr & Hby) Hidle Hib Hlen Ha Hb Hatt HQ.
  unfold Flash_WriteBios. apply wp_bind, wp_gets. rewrite Hop.
  destruct (decide (FlashOp_Idle = FlashOp_Idle)) as [_|]; [|done]. apply wp_bind, lowM_wp.
  eapply wp_mono; [by apply ReadDevice_law|]. intros found l' (-> & Hidle' & Hty & _).
  apply wp_bind, wp_gets. cbn [low set_low]. rewrite Hty, Hatt.
  rewrite check_pow2 by (lia || apply Z.pow_le_mono_r; lia). apply wp_bind, wp_modify, wp_bind.
  destruct (decide _) as [_|]; [|done].
  eapply (write_setup_wp img a b); [exact Haddr|reflexivity|done|done|done|done|done|done|done|].
  intros buf size Hbb Hbt. apply wp_ret. split; [done|]. by eapply HQ.
Qed.

(** The machine, started on the image, ends. *)
Lemma pending_write_runs img buf size offset e (w : W) :
  0 < size <= ImageSize1024KB → 0 <= offset → offset + size <= m_dwLengthInBytes attached →
  m_dwLengthInBytes attached <= ImageSize1024KB → (∀ x, byte (buf x)) →
  (∀ x, 0 <= x < size → buf x = tiled img x) →
  drv w = mkDriver buf size FlashOp_PendingOp e offset 0 FlashTask_WriteBios
            EraseSequenceMethod_Sector 0 true →
  chip_idle (low w) → flashType (low w) = attached →
  reaches w (λ w', flashed img offset size w' ∨
               currentFlashOp (drv w') = FlashOp_Error ∧
               flashErrorCode (drv w') = FlashErrorcodes_FailedErase ∧ unerasable).
Proof.
  intros Hsize Hoff Hfit Hlen Hby Hbuf Hd Hidle Hty. apply reaches_step.
  unfold Flash_executeFlashFSM. apply wp_bind, wp_gets. rewrite Hd. cbn [currentFlashOp].
  unfold pending_step. apply wp_bind, wp_gets. rewrite Hd. cbn [currentFlashTask].
  apply wp_modify. rewrite Hd.
  eapply reaches_bind;
    [apply (job_runs buf offset size FlashTask_WriteBios e
              (system w, LPCmodSettings w, LPCmodSettingsOrigFromFlash w) (content (low w))
              (λ _, True)); try done|].
  - exists EraseSequenceMethod_Sector, (low w). split_and!; [|done| |done|by left].
    + split_and!; [done|done|done|]. by split.
    + intros j Hj. lia.
  - intros w' [(i & m & cnt & try & l' & (Hd' & Hl' & _) & _ & Hp)|(Hop & Herr & [Hs Hbk] & Hc)];
      apply reaches_now.
    + left. split; [by rewrite Hd'|]. intros x Hx. rewrite Hl', Hp by lia. by apply Hbuf.
    + right. by split_and!.
Qed.
End flashing.

End FlashTheorems.
