(* ===== verification/FlashProperties.v ===== *)
(** * Properties of the flash driver

    The theorems hold for every low level that meets [FlashContract]; their
    witnesses use [FlashLowLevel.c] on the chip of [FlashJedec]. *)

From S2P Require Import Prelude Layout Crc32 Md5 Hardware Settings FlashTypes FlashLowLevel.
From S2P Require Import FlashDriver FlashContract FlashJedec FlashTheorems.

Module FlashProperties.
Import LowLevel Chip Hardware Settings FlashTypes FlashDriver FlashTheorems.

(** ** Shared lemmas *)

Lemma crc_ref_word s : Forall byte s → word32 (Crc32.crc_ref s).
Proof. intros Hs. apply Crc32.foldl_octet_range; [done|unfold word32; lia]. Qed.

Lemma stamped_accepted s :
  length s = 3840%nat → Forall byte s →
  le_val (sget settingsVersion s) = CurrentSettingsVersionNumber → accepted (stamped s).
Proof.
  intros Hl Hb Hv. unfold accepted. split_and!;
    [by apply stamped_length|by apply stamped_byte| |].
  - unfold stamped. rewrite get_set_other; [done|done|apply length_le_bytes|].
    by rewrite sizeof_LPCmodSettings.
  - rewrite stamped_take by done. unfold stamped.
    rewrite get_set_same; [|apply length_le_bytes|by rewrite sizeof_LPCmodSettings].
    apply le_val_bytes. by apply crc_ref_word, Forall_take.
Qed.

(** Saving leaves the image identifier as it is, and the settings where the
    loader looks for them. *)
Lemma saved_id {L} `{FlashContract L} c s (w : world L) :
  saved c s w → flash_id (content (low w)) = flash_id c.
Proof.
  intros (_ & _ & _ & _ & Hc). apply mem_read_ext. intros i Hi. rewrite Hc.
  unfold settings_base, FlashBlockSize_64KB, ImageSize256KB.
  destruct (Z.ltb_spec (256 * 1024 - 63 + i) (3 * (64 * 1024) + 3840)); [lia|].
  by rewrite andb_false_r.
Qed.

Lemma saved_settings {L} `{FlashContract L} c s (w : world L) :
  length s = 3840%nat → saved c s w →
  mem_read (content (low w)) settings_base 3840 = stamped s.
Proof.
  intros Hl (_ & _ & _ & _ & Hc).
  rewrite <- (mem_read_of_list (stamped s)) at 1. rewrite stamped_length by done.
  apply mem_read_ext. intros i Hi. rewrite Hc.
  rewrite (proj2 (Z.leb_le settings_base _)), (proj2 (Z.ltb_lt _ (settings_base + 3840))) by lia.
  cbn [andb]. f_equal. lia.
Qed.

(** A chip whose first 256KB end in the identifier of an XBlast OS image that is
    4KB long and keeps its settings in flash. *)
Definition sample_id : list Z :=
  [65; 85; 84; 79; 2; 0; 0; 0; 1; 0; 0] ++ [0; 16; 0; 0] ++
  PROG_NAME ++ replicate 23 0 ++ replicate 16 0.
Definition sample_cells : mem := λ x, mem_of_list sample_id (x - (ImageSize256KB - 63)).

Definition sample_system : sys :=
  mkSys SYSCON_ID_V1 0 XboxMotherboardRevision_1_0 BNKOS 0 0 false
        (mkGPIO 0 0 0 0 0 0 0 0) [].
Definition sample_driver : driver :=
  mkDriver (λ _, 0) 0 FlashOp_Idle FlashErrorcodes_NoError 0 0 FlashTask_NoTask
           EraseSequenceMethod_Sector 0 true.
Definition sample_settings : list Z := 1 :: replicate 3839 7.
Definition sample_world : world (LowLevel.ll Chip.chip) :=
  mkWorld sample_driver (Chip.ll_with sample_cells) sample_system sample_settings [].

Lemma sample_fresh : fresh sample_world.
Proof. by split_and!. Qed.

Lemma sample_offset :
  getXBlastOSSettingStartingOffset (flash_id (content (low sample_world))) = settings_base.
Proof. vm_compute. reflexivity. Qed.

Lemma sample_settings_byte : Forall byte sample_settings.
Proof. constructor; [done|]. by apply Forall_replicate. Qed.

(** ** Properties *)

(** C11: flashing a bank from a fresh driver and an idle chip.  For an image whose
    size is a power of two of at least 256 octets, on a part of 256KB, 512KB or 1MB
    into which the bank fits at [offset], the request is accepted; polling the state
    machine then ends, with no undefined behaviour: either the flash holds the
    image, repeated to fill the bank, from [offset] on, or none of the erase
    commands works on the chip and the driver reports a failed erase.  (An
    image of another size can overrun the buffer: [mirror_overflows].) *)
Theorem Flash_XBlastUserBankFlash_writes {L} `{FlashContract L} img a b offset bank (w : world L) :
  fresh w → chip_idle (low w) → Forall byte img →
  Z.of_nat (length img) = 2 ^ a → 8 <= a <= b → 18 <= b <= 20 →
  m_dwLengthInBytes attached = 2 ^ b → 0 <= offset →
  offset + Z.max (2 ^ a) (mirror_target (2 ^ b) bank) <= 2 ^ b →
  wp (Flash_XBlastUserBankFlash img (2 ^ a) offset bank)
     (λ p w1, progressError p = FlashErrorcodes_NoError ∧
        reaches w1 (λ w2,
          flashed img offset (Z.max (2 ^ a) (mirror_target (2 ^ b) bank)) w2 ∨
          currentFlashOp (drv w2) = FlashOp_Error ∧
          flashErrorCode (drv w2) = FlashErrorcodes_FailedErase ∧ unerasable (L := L))) w.
Proof.
  intros Hf Hidle Hib Hlen Ha Hb Hatt Hoff Hfit.
  assert (2 ^ b <= 2 ^ 20) by (apply Z.pow_le_mono_r; lia).
  assert (0 < 2 ^ a) by (apply Z.pow_pos_nonneg; lia).
  unfold Flash_XBlastUserBankFlash. apply wp_bind.
  eapply wp_mono; [apply (write_bios_wp img a b offset bank w
    (λ w1, reaches (set_drv (set_error FlashErrorcodes_NoError (drv w1)) w1) (λ w2,
          flashed img offset (Z.max (2 ^ a) (mirror_target (2 ^ b) bank)) w2 ∨
          currentFlashOp (drv w2) = FlashOp_Error ∧
          flashErrorCode (drv w2) = FlashErrorcodes_FailedErase ∧ unerasable (L := L)))); try done|].
  - intros buf w1 e size Hby Hbuf Hi1 Ht1 Hd1.
    apply (pending_write_runs img buf size offset FlashErrorcodes_NoError);
      [unfold ImageSize1024KB; lia|done|by rewrite Hatt|rewrite Hatt; unfold ImageSize1024KB; lia
      |done|done|cbn; by rewrite Hd1|done|done].
  - intros e w1 [-> Hr]. apply wp_bind, wp_modify, wp_gets. split; [done|exact Hr].
Qed.

Lemma Flash_XBlastUserBankFlash_writes_witness :
  wp (Flash_XBlastUserBankFlash (replicate 256 5) (2 ^ 8) 0 FlashBank_512Bank)
     (λ p w1, progressError p = FlashErrorcodes_NoError ∧
        reaches w1 (λ w2,
          flashed (replicate 256 5) 0
            (Z.max (2 ^ 8) (mirror_target (2 ^ 20) FlashBank_512Bank)) w2 ∨
          currentFlashOp (drv w2) = FlashOp_Error ∧
          flashErrorCode (drv w2) = FlashErrorcodes_FailedErase ∧
          unerasable (L := LowLevel.ll Chip.chip))) sample_world.
Proof.
  apply (Flash_XBlastUserBankFlash_writes (replicate 256 5) 8 20 0 FlashBank_512Bank sample_world).
  - apply sample_fresh.
  - apply Chip.ll_with_idle.
  - by apply Forall_replicate.
  - reflexivity.
  - lia.
  - lia.
  - reflexivity.
  - lia.
  - vm_compute. discriminate.
Defined.

(** Saving the settings from a fresh driver, on a part whose sector erase
    works.  Polling ends with the settings and their checksum in the flash at
    the settings' place, every other octet of the flash as it was, and the
    checksum also stored in the settings in memory. *)
Theorem Flash_SaveXBlastOSSettings_saves {L} `{FlashContract L} (w : world L) :
  ImageSize256KB <= m_dwLengthInBytes attached <= ImageSize1024KB →
  fresh w → chip_idle (low w) → works EraseSequenceMethod_Sector = true →
  length (LPCmodSettings w) = 3840%nat → Forall byte (LPCmodSettings w) →
  getXBlastOSSettingStartingOffset (flash_id (content (low w))) = settings_base →
  wp Flash_SaveXBlastOSSettings
     (λ _ w1, reaches w1 (saved (content (low w)) (LPCmodSettings w))) w.
Proof.
  intros Hlen Hf Hidle Hworks Hl Hb Hoff.
  eapply (save_setup Hlen (content (low w))); [done|done|done|done|].
  intros l w1 Hr Hi1. eapply save_readback; [done|done|done|done|apply Hf| |done|exact Hr|done].
  intros x. by apply content_byte, idle_inv.
Qed.

Lemma Flash_SaveXBlastOSSettings_saves_witness :
  wp Flash_SaveXBlastOSSettings
     (λ _ w1, reaches w1 (saved (content (low sample_world)) (LPCmodSettings sample_world)))
     sample_world.
Proof.
  apply (Flash_SaveXBlastOSSettings_saves sample_world).
  - split; vm_compute; discriminate.
  - apply sample_fresh.
  - apply Chip.ll_with_idle.
  - reflexivity.
  - reflexivity.
  - apply sample_settings_byte.
  - apply sample_offset.
Defined.

(** C3: settings survive a restart.  On a recognised part of 256KB to 1MB whose
    sector erase works and whose image identifier puts the settings at 192KB, the
    save of settings of the current version from a fresh driver ends; from then
    on every boot that finds the same octets in the flash, whatever the RAM holds
    (the driver's buffer and both copies of the settings included), ends its
    read loop, accepts the stored settings and installs them. *)
Theorem settings_survive_reboot {L} `{FlashContract L} (w : world L) :
  ImageSize256KB <= m_dwLengthInBytes attached <= ImageSize1024KB →
  fresh w → chip_idle (low w) → works EraseSequenceMethod_Sector = true →
  length (LPCmodSettings w) = 3840%nat → Forall byte (LPCmodSettings w) →
  le_val (sget settingsVersion (LPCmodSettings w)) = CurrentSettingsVersionNumber →
  getXBlastOSSettingStartingOffset (flash_id (content (low w))) = settings_base →
  wp Flash_SaveXBlastOSSettings
     (λ _ w1, reaches w1 (λ w2, currentFlashOp (drv w2) = FlashOp_Completed ∧
        ∀ w3, fresh w3 → chip_idle (low w3) → (∀ x, content (low w3) x = content (low w2) x) →
        ∃ n, wp (bootReadXBlastOSSettings n)
           (λ r w4, r = Some true ∧ LPCmodSettings w4 = stamped (LPCmodSettings w) ∧
                    LPCmodSettingsOrigFromFlash w4 = stamped (LPCmodSettings w)) w3)) w.
Proof.
  intros Hlen Hf Hidle Hworks Hl Hb Hv Hoff.
  eapply (save_setup Hlen (content (low w))); [done|done|done|done|].
  intros l w1 Hr Hi1. eapply reaches_bind;
    [eapply save_readback; [done|done|done|done|apply Hf| |done|exact Hr|done]|].
  { intros x. by apply content_byte, idle_inv. }
  intros w2 Hs. apply reaches_now. split; [apply Hs|]. intros w3 Hf3 Hi3 Hc3.
  destruct (boot_read_reads Hlen (content (low w2)) (stamped (LPCmodSettings w)) w3) as (n & Hn).
  - done.
  - done.
  - done.
  - by rewrite (saved_id _ _ _ Hs).
  - by apply (saved_settings _ _ _ Hl Hs).
  - by apply stamped_accepted.
  - exists n. eapply wp_mono; [exact Hn|]. intros r w4 (-> & ? & ? & _). done.
Qed.

Lemma settings_survive_reboot_witness :
  wp Flash_SaveXBlastOSSettings
     (λ _ w1, reaches w1 (λ w2, currentFlashOp (drv w2) = FlashOp_Completed ∧
        ∀ w3, fresh w3 → chip_idle (low w3) → (∀ x, content (low w3) x = content (low w2) x) →
        ∃ n, wp (bootReadXBlastOSSettings n)
           (λ r w4, r = Some true ∧
                    LPCmodSettings w4 = stamped (LPCmodSettings sample_world) ∧
                    LPCmodSettingsOrigFromFlash w4 = stamped (LPCmodSettings sample_world)) w3))
     sample_world.
Proof.
  apply (settings_survive_reboot sample_world).
  - split; vm_compute; discriminate.
  - apply sample_fresh.
  - apply Chip.ll_with_idle.
  - reflexivity.
  - reflexivity.
  - apply sample_settings_byte.
  - reflexivity.
  - apply sample_offset.
Defined.

(** For an XBlast OS image of 192KB to 256KB whose identifier asks for its
    settings to be kept in flash, the settings' offset is below 4KB: inside the
    image, and not in the last 64KB.  For a size that is a whole number of
    sectors it is 4095, so a save reads back and writes the 4096 octets from
    there while it copies the settings to the end of that window and beyond. *)
Theorem settings_offset_inside_image id :
  le_val (bid HeaderVersion id) = HeaderVersionV2 → has_prog_name id = true →
  Z.odd (le_val (bid Option1 id)) = true →
  3 * FlashBlockSize_64KB <= le_val (bid BiosSize id) < ImageSize256KB →
  let off := getXBlastOSSettingStartingOffset id in
  off < FlashSectorSize_4KB ∧
  (le_val (bid BiosSize id) mod FlashSectorSize_4KB = 0 →
   off = 4095 ∧ FlashSectorSize_4KB < off mod FlashSectorSize_4KB + 3840).
Proof.
  intros Hv Hn Ho Hs. cbn zeta. unfold getXBlastOSSettingStartingOffset.
  rewrite Hv, Hn. cbn [Z.eqb HeaderVersionV2 HeaderVersionV1 Pos.eqb orb].
  assert (Z.land (le_val (bid Option1 id)) Option1_SaveSettingsLocationBit = 1) as ->.
  { change Option1_SaveSettingsLocationBit with (Z.ones 1). rewrite Z.land_ones by lia.
    rewrite Zmod_odd. by rewrite Ho. }
  cbn [truthy Z.eqb negb]. unfold FlashBlockSize_64KB, ImageSize256KB, FlashSectorSize_4KB in *.
  destruct (Z.leb_spec (256 * 1024) (le_val (bid BiosSize id))); [lia|].
  destruct (Z.ltb_spec (le_val (bid BiosSize id)) (3 * (64 * 1024))); [lia|].
  rewrite u32_id by (unfold word32; lia). generalize dependent (le_val (bid BiosSize id)).
  intros n Hn1 Hn2 Hn3. split; [apply Z.mod_pos_bound; lia|]. intros Hm.
  assert ((n + 4 * 1024 - 1) mod (4 * 1024) = 4095) as ->; [|split; [done|vm_compute; done]].
  Z.to_euclidean_division_equations. lia.
Qed.

Lemma settings_offset_inside_image_witness :
  let id := [65; 85; 84; 79; 2; 0; 0; 0; 1; 0; 0] ++ [0; 0; 3; 0] ++
            PROG_NAME ++ replicate 39 0 in
  getXBlastOSSettingStartingOffset id < FlashSectorSize_4KB ∧
  (le_val (bid BiosSize id) mod FlashSectorSize_4KB = 0 →
   getXBlastOSSettingStartingOffset id = 4095 ∧
   FlashSectorSize_4KB < getXBlastOSSettingStartingOffset id mod FlashSectorSize_4KB + 3840).
Proof.
  apply (settings_offset_inside_image ([65; 85; 84; 79; 2; 0; 0; 0; 1; 0; 0] ++ [0; 0; 3; 0] ++
            PROG_NAME ++ replicate 39 0)).
  - reflexivity.
  - vm_compute; reflexivity.
  - reflexivity.
  - vm_compute. split; [discriminate|reflexivity].
Defined.

(** The size check accepts exactly the multiples of 256 octets up to the
    size of the part, where multiples of 256KB are meant. *)
Theorem checkImageSize_granularity len size :
  0 <= size < 2 ^ 32 →
  checkImageSize len size = FlashErrorcodes_NoError ↔ 0 < size <= len ∧ size mod 256 = 0.
Proof.
  intros Hs. unfold checkImageSize. pose proof (Z.mod_pos_bound size 256 ltac:(lia)).
  rewrite u32_id by (unfold word32; lia).
  destruct (Z.ltb_spec 0 size), (Z.leb_spec size len); cbn [andb];
    try (split; [discriminate|lia]).
  destruct (Z.eqb_spec (size mod 256 * 1024) 0); split; try discriminate; intros; (split; lia) || lia || done.
Qed.

Lemma checkImageSize_granularity_witness :
  checkImageSize 0x100000 256 = FlashErrorcodes_NoError ↔ 0 < 256 <= 0x100000 ∧ 256 mod 256 = 0.
Proof. apply (checkImageSize_granularity 0x100000 256). lia. Defined.

(** An image of 768KB passes the size check of a 1MB part, and mirroring it
    to fill the part then writes past the end of the buffer. *)
Theorem mirror_overflows (buf : mem) :
  checkImageSize ImageSize1024KB (768 * 1024) = FlashErrorcodes_NoError ∧
  mirror_loop 32 (mirror_target ImageSize1024KB FlashBank_NoBank) buf (768 * 1024) = UB.
Proof. split; reflexivity. Qed.

(** The validation of an update, for an identifier whose length lies within
    the image.  It succeeds without a warning exactly for a 256KB image that
    carries the program's name, a version 2 identifier and, over the length the
    identifier gives, the MD5 the identifier gives. *)
Theorem validateOSImage_accepts stack inBuf size :
  length (Md5.buffer stack) = 64%nat → Z.of_nat (length inBuf) = ImageSize256KB →
  let id := take 63 (drop (Z.to_nat size - 63) inBuf) in
  0 <= le_val (bid BiosSize id) <= ImageSize256KB →
  validateOSImage stack inBuf size = Ok FlashErrorcodes_NoError ↔
  size = ImageSize256KB ∧ has_prog_name id = true ∧
  le_val (bid HeaderVersion id) = HeaderVersionV2 ∧
  Md5.md5_hash (take (Z.to_nat (le_val (bid BiosSize id))) inBuf) = bid MD5Hash id.
Proof.
  intros Hst Hlen id Hbs. unfold validateOSImage. rewrite sizeof_BiosIdentifier. fold id.
  clearbody id.
  assert (∀ n, 0 <= n <= ImageSize256KB → ∃ c, Md5.MD5Update (Md5.MD5Init stack) inBuf n = Ok c ∧
            ∃ c', Md5.MD5Final c = Ok (Md5.md5_hash (take (Z.to_nat n) inBuf), c')) as Hmd5.
  { intros n Hn. destruct (Md5.MD5Update_inv (Md5.MD5Init stack) [] inBuf n) as (c & Hu & Hinv);
      [by apply Md5.MD5Init_inv|lia|unfold ImageSize256KB in *; lia|].
    exists c. split; [done|]. eexists. by apply Md5.MD5Final_hash. }
  destruct (Z.eqb_spec size ImageSize256KB) as [->|]; [|by split; [|intros [? _]]].
  cbn [negb]. rewrite Hlen, Z.ltb_irrefl.
  destruct (has_prog_name id); [|by split; [|intros (_ & ? & _)]]. cbn [negb].
  destruct (Z.eqb_spec (le_val (bid HeaderVersion id)) HeaderVersionV2) as [Hv|Hv]; cbn [orb].
  - destruct (Hmd5 _ Hbs) as (c & -> & c' & Hfin). rewrite bind_ok, Hfin, bind_ok.
    case_bool_decide as Heq; split; try done. by intros (_ & _ & _ & ?).
  - split; [|by intros (_ & _ & ? & _)]. destruct (_ =? HeaderVersionV1); [|done].
    destruct (Hmd5 (ImageSize256KB - FlashSectorSize_4KB)) as (c & -> & c' & Hfin);
      [unfold ImageSize256KB, FlashSectorSize_4KB; lia|].
    rewrite bind_ok, Hfin, bind_ok. by case_bool_decide.
Qed.

Lemma validateOSImage_accepts_witness :
  let stack := Md5.mkMD5 Md5.md5_iv 0 0 (replicate 64 0) in
  let inBuf := replicate (Z.to_nat ImageSize256KB) 0 in
  let id := take 63 (drop (Z.to_nat 256 - 63) inBuf) in
  validateOSImage stack inBuf 256 = Ok FlashErrorcodes_NoError ↔
  256 = ImageSize256KB ∧ has_prog_name id = true ∧
  le_val (bid HeaderVersion id) = HeaderVersionV2 ∧
  Md5.md5_hash (take (Z.to_nat (le_val (bid BiosSize id))) inBuf) = bid MD5Hash id.
Proof.
  apply (validateOSImage_accepts (Md5.mkMD5 Md5.md5_iv 0 0 (replicate 64 0))
           (replicate (Z.to_nat ImageSize256KB) 0) 256).
  - reflexivity.
  - rewrite length_replicate. apply Z2Nat.id. unfold ImageSize256KB. lia.
  - vm_compute. split; discriminate.
Defined.

(** C27: on a 29xxx chip the poll of the toggle bit is sound and ends: it never
    disturbs the content, it reports the chip ready only when the operation is
    over and the array can be read, and it can report busy only as often as
    the chip still has status reads to go, and once more. *)
Theorem DeviceIsBusy_sound {H} `{Jedec H} (l : ll H) :
  ll_inv l →
  wp DeviceIsBusy
     (λ b l', (∀ a, j_cells (hw l') a = j_cells (hw l) a) ∧
              if b then ll_inv l' ∧ (ll_polls l' < ll_polls l)%nat else j_array (hw l')) l ∧
  (ll_polls l <= S (j_busy (hw l)))%nat.
Proof.
  intros Hinv. split.
  - eapply wp_mono; [by apply ll_busy_law|]. intros [] l' (_ & Hc & Hb); [done|].
    split; [done|apply Hb].
  - unfold ll_polls. destruct (firstBusyRead l); [done|]. destruct (j_busy _); [|done].
    destruct (eqb _ _); lia.
Qed.

Lemma DeviceIsBusy_sound_witness :
  wp DeviceIsBusy
     (λ b l', (∀ a, j_cells (hw l') a = j_cells (hw (ll_with sample_cells)) a) ∧
              if b then ll_inv l' ∧ (ll_polls l' < ll_polls (ll_with sample_cells))%nat
              else j_array (hw l')) (ll_with sample_cells) ∧
  (ll_polls (ll_with sample_cells) <= S (j_busy (hw (ll_with sample_cells))))%nat.
Proof.
  apply (DeviceIsBusy_sound (ll_with sample_cells)).
  split_and!; [done|done|]. intros Hf. discriminate Hf.
Defined.

End FlashProperties.
