(* ===== verification/Identify.v ===== *)
(** * Identification of the modchip ([src/xblast/HardwareIdentifier.c]) and the
      general-purpose lines

    [identifyModchipHardware] reads the modchip's register and the flash device
    and classifies the hardware.  [ports] is what an [in] instruction reads and
    [x3probe] the answer of the SMBus at address 0x51. *)

From S2P Require Import Prelude Hardware FlashTypes FlashLowLevel FlashDriver FlashContract.
From S2P Require Import FlashJedec.

Module Identify.
Import LowLevel Chip Hardware FlashTypes FlashDriver.

Definition ERR_I2C_ERROR_TIMEOUT : Z := 0x80000001.
Definition ERR_I2C_ERROR_BUS : Z := 0x80000002.

Section identify.
Context {L : Type} `{FlashLowLevel L}.
Context (ports : Z → Z) (x3probe : Z).

Definition on_sys (f : sys → sys) : ST (world L) unit :=
  modify (λ w, set_system (f (system w)) w).

(** [bootFlash->flashType], a null dereference when no device was found. *)
Definition booted_from_lpc (bootFlash : option KNOWN_FLASH_TYPE) : ST (world L) bool :=
  match bootFlash with
  | None => ub
  | Some t => mret ((m_bManufacturerId t =? 0xbf) && (m_bDeviceId t =? 0x5b))
  end.

(** The SST49LF080A of the modchip selects the OS bank; any other device means a
    boot from the TSOP, recorded as [tsop]. *)
Definition lpc_or_tsop (bootFlash : option KNOWN_FLASH_TYPE) (tsop : Z) : ST (world L) unit :=
  lpc ← booted_from_lpc bootFlash;
  if (lpc : bool) then on_sys (switchOSBank FlashBank_OSBank)
  else on_sys (λ s, WriteToIO XODUS_CONTROL RELEASED0 (set_hw tsop s)).

Definition identifyModchipHardware : ST (world L) unit :=
  on_sys (set_edition 0);;
  let rev := LPCMod_HW_rev ports in
  on_sys (set_hw (if rev =? 0xff then SYSCON_ID_UNKNOWN else rev));;
  '(_, _, bootFlash) ← Flash_ReadDeviceInfo;
  hardware ← gets (λ w, fHasHardware (system w));
  if (hardware =? SYSCON_ID_V1) || (hardware =? SYSCON_ID_V1_PRE_EDITION) then
    (if hardware =? SYSCON_ID_V1_PRE_EDITION
     then on_sys (λ s, set_hw SYSCON_ID_V1 (set_edition SYSCON_ID_V1_PRE_EDITION s))
     else mret tt);;
    lpc_or_tsop bootFlash SYSCON_ID_V1_TSOP;;
    on_sys (LPCMod_ReadIO ports)
  else if hardware =? SYSCON_ID_XT then lpc_or_tsop bootFlash SYSCON_ID_XT_TSOP
  else
    on_sys (set_hw (if negb (x3probe =? 0xff) && negb (x3probe =? ERR_I2C_ERROR_BUS) &&
                       negb (x3probe =? ERR_I2C_ERROR_TIMEOUT)
                    then SYSCON_ID_X3 else 0));;
    on_sys (λ s, set_recovery false (set_bank FlashBank_OSBank (xF70ELPCRegister s) s)).
End identify.

(** ** Lemmas *)

Lemma bit_b2z v i : 0 <= i → bit v i = Z.b2z (Z.testbit v i).
Proof.
  intros Hi. unfold bit. rewrite Z.shiftl_1_l. apply Z.bits_inj'. intros k Hk.
  rewrite Z.shiftr_spec, Z.land_spec, Z.pow2_bits_eqb by lia.
  destruct (decide (k = 0)) as [->|].
  - rewrite Z.add_0_l, Z.eqb_refl, andb_true_r. by destruct (Z.testbit v i).
  - rewrite (proj2 (Z.eqb_neq i (k + i))), andb_false_r by lia.
    destruct (Z.testbit v i); [|by rewrite Z.bits_0]. symmetry.
    apply (testbit_above 1 1); lia.
Qed.

Lemma line_b2z port value i other b :
  0 <= i → other = Z.b2z b →
  line port value i other =
  Z.b2z (if Z.testbit port i then Z.testbit value i else b).
Proof. intros Hi ->. unfold line. destruct (Z.testbit port i); [by apply bit_b2z|done]. Qed.

(** ** Properties *)

(** Writing the general-purpose outputs of an XBlast modchip sends one
    octet in which each selected line has the new value, each other line the
    value read back, the 5V line is kept and the remaining bits are clear. *)
Theorem LPCMod_WriteIO_lines ports port value s :
  isPureXBlast s = true →
  ∃ v, io_out (LPCMod_WriteIO ports port value s) = (XBLAST_IO, v) :: io_out s ∧
    (∀ i, 0 <= i < 4 →
       Z.testbit v (4 + i) =
       if Z.testbit port i then Z.testbit value i
       else Z.testbit (ReadFromIO ports XBLAST_IO) (4 + i)) ∧
    Z.testbit v 0 = Z.testbit (ReadFromIO ports XBLAST_IO) 0 ∧
    ∀ i, 1 <= i < 4 → Z.testbit v i = false.
Proof.
  intros Hp. eexists. split; [reflexivity|].
  unfold gpio_input. rewrite Hp. generalize (ReadFromIO ports XBLAST_IO). intros t.
  cbn [LPCMod_WriteGenPurposeIOs set_gpio gpio GPO3 GPO2 GPO1 GPO0 EN_5V].
  rewrite (line_b2z port value 3 _ (Z.testbit t 7)), (line_b2z port value 2 _ (Z.testbit t 6)),
    (line_b2z port value 1 _ (Z.testbit t 5)), (line_b2z port value 0 _ (Z.testbit t 4)),
    (bit_b2z t 0) by (lia || by apply bit_b2z).
  assert (∀ a b c d e i, 0 <= i < 8 →
    Z.testbit (u8 (Z.lor (Z.lor (Z.lor (Z.lor (Z.shiftl (Z.b2z a) 7) (Z.shiftl (Z.b2z b) 6))
      (Z.shiftl (Z.b2z c) 5)) (Z.shiftl (Z.b2z d) 4)) (Z.b2z e))) i =
    nth (Z.to_nat i) [e; false; false; false; d; c; b; a] false) as Hbits.
  { intros a b c d e i Hi.
    assert (i = 0 ∨ i = 1 ∨ i = 2 ∨ i = 3 ∨ i = 4 ∨ i = 5 ∨ i = 6 ∨ i = 7) as Hcases by lia.
    repeat destruct Hcases as [->|Hcases]; subst; by destruct a, b, c, d, e. }
  split_and!.
  - intros i Hi. rewrite Hbits by lia.
    assert (i = 0 ∨ i = 1 ∨ i = 2 ∨ i = 3) as [->|[->|[->| ->]]] by lia; done.
  - by rewrite Hbits by lia.
  - intros i Hi. rewrite Hbits by lia.
    assert (i = 1 ∨ i = 2 ∨ i = 3) as [->|[->| ->]] by lia; done.
Qed.

Definition sample_sys (hardware : Z) : sys :=
  mkSys hardware 0 XboxMotherboardRevision_1_0 BNKOS 0 0 false (mkGPIO 0 0 0 0 0 0 0 0) [].

Lemma LPCMod_WriteIO_lines_witness :
  io_out (LPCMod_WriteIO (λ _, 0x91) 0x3 0x2 (sample_sys SYSCON_ID_V1)) = [(XBLAST_IO, 0xA1)] ∧
  ∃ v, io_out (LPCMod_WriteIO (λ _, 0x91) 0x3 0x2 (sample_sys SYSCON_ID_V1)) =
       (XBLAST_IO, v) :: io_out (sample_sys SYSCON_ID_V1) ∧
    (∀ i, 0 <= i < 4 →
       Z.testbit v (4 + i) =
       if Z.testbit 0x3 i then Z.testbit 0x2 i
       else Z.testbit (ReadFromIO (λ _, 0x91) XBLAST_IO) (4 + i)) ∧
    Z.testbit v 0 = Z.testbit (ReadFromIO (λ _, 0x91) XBLAST_IO) 0 ∧
    ∀ i, 1 <= i < 4 → Z.testbit v i = false.
Proof.
  split; [reflexivity|].
  apply (LPCMod_WriteIO_lines (λ _, 0x91) 0x3 0x2 (sample_sys SYSCON_ID_V1)). reflexivity.
Defined.

(** An XBlast modchip whose flash device is not recognised makes the
    identification dereference a null pointer. *)
Theorem identifyModchipHardware_null {L} `{FlashLowLevel L} ports x3probe (w : world L) l :
  LPCMod_HW_rev ports ∈ [SYSCON_ID_V1; SYSCON_ID_V1_PRE_EDITION; SYSCON_ID_XT] →
  currentFlashOp (drv w) = FlashOp_Idle →
  FlashLowLevel_ReadDevice (low w) = Ok (false, l) →
  identifyModchipHardware ports x3probe w = UB.
Proof.
  intros Hrev Hop Hrd. destruct w as [d lw sy ls lo]. cbn in Hop, Hrd.
  unfold identifyModchipHardware, Flash_ReadDeviceInfo, Flash_freeFlashFSM, lpc_or_tsop, on_sys,
    on_drv, lowM, zoom, deviceType, gets, modify, mbind, ST_mbind, mret, ST_mret.
  cbn. rewrite Hop. destruct (decide (FlashOp_Idle = FlashOp_Idle)) as [_|]; [|done].
  cbn. rewrite Hrd. cbn.
  rewrite !elem_of_cons in Hrev.
  destruct Hrev as [->|[->|[->|Hnil]]]; [reflexivity..|by apply elem_of_nil in Hnil].
Qed.

Lemma identifyModchipHardware_null_witness :
  let w := mkWorld (L := ll chip)
             (mkDriver (λ _, 0) 0 FlashOp_Idle FlashErrorcodes_NoError 0 0 FlashTask_NoTask
                       EraseSequenceMethod_Sector 0 true)
             (mkLL false true 0 (mkObject 0 SST49LF080A String.EmptyString true) (mkChip (λ _, 0) Array 0 false))
             (sample_sys 0) [] [] in
  identifyModchipHardware (λ _, SYSCON_ID_V1) 0xff w = UB.
Proof.
  cbn zeta. eapply identifyModchipHardware_null.
  - vm_compute. left.
  - reflexivity.
  - vm_compute. reflexivity.
Defined.

End Identify.
