(* ===== verification/LcdRing.v ===== *)
(** * The LCD command queue ([src/lib/LPCMod/LCDRingBuffer.c])

    Commands to the display wait in a ring of 1024 octets, four per command, and
    are sent as two nibbles, one per call of [updateLCDRingBuffer].  The state
    is the file's static variables beside the [sys] of [Hardware], where the
    port writes are recorded.  The reference is a bounded queue of commands
    ([fifo]) that sends nibbles; what is compared with it is the level of the
    data and register-select lines at each falling edge of the enable line
    ([latch]).  How the lines are wired to the pins of a display is outside the
    code and is not modelled.  [getUS] reads a hardware counter: its readings are
    arguments of the step. *)

From S2P Require Import Prelude Hardware.

Module LcdRing.
Import Hardware.

(** ** Data *)

Record DataOperation_t := mkOp { dataToWrite : Z; rsFlag : Z; delayInUs : Z }.

#[export] Instance DataOperation_t_eq_dec : EqDecision DataOperation_t.
Proof. solve_decision. Defined.

Inductive InternalOp :=
| InternalOp_ReadyForNewOp
| InternalOp_WriteHighNibble
| InternalOp_WriteLowNibble.

Definition ringBufSize : Z := 1024.
Definition DISPLAY_E : Z := 0x04.
Definition LCD_DATA : Z := 0xF700.
Definition X3_DISP_O_DAT : Z := 0xF504.
Definition X3_DISP_O_CMD : Z := 0xF505.
Definition UINT_MAX : Z := 0xFFFFFFFF.

Record lcd := mkLcd {
  ringBuf : list Z;
  inPos : Z;
  outPos : Z;
  rollOver : bool;
  internalOp : InternalOp;
  currentOp : DataOperation_t;
  systickStartValue : Z;
  lcd_sys : sys
}.

Definition set_in (b : list Z) (p : Z) (r : bool) (s : lcd) : lcd :=
  mkLcd b p (outPos s) r (internalOp s) (currentOp s) (systickStartValue s) (lcd_sys s).
Definition set_out (p : Z) (r : bool) (s : lcd) : lcd :=
  mkLcd (ringBuf s) (inPos s) p r (internalOp s) (currentOp s) (systickStartValue s) (lcd_sys s).
Definition set_current (o : DataOperation_t) (s : lcd) : lcd :=
  mkLcd (ringBuf s) (inPos s) (outPos s) (rollOver s) (internalOp s) o (systickStartValue s)
        (lcd_sys s).
Definition set_internal (i : InternalOp) (s : lcd) : lcd :=
  mkLcd (ringBuf s) (inPos s) (outPos s) (rollOver s) i (currentOp s) (systickStartValue s)
        (lcd_sys s).
Definition set_systick (t : Z) (s : lcd) : lcd :=
  mkLcd (ringBuf s) (inPos s) (outPos s) (rollOver s) (internalOp s) (currentOp s) t (lcd_sys s).
Definition set_lcd_sys (y : sys) (s : lcd) : lcd :=
  mkLcd (ringBuf s) (inPos s) (outPos s) (rollOver s) (internalOp s) (currentOp s)
        (systickStartValue s) y.

(** The octets of a [DataOperation_t] in memory, and the structure they hold. *)
Definition op_octets (o : DataOperation_t) : list Z :=
  [dataToWrite o; rsFlag o] ++ le_bytes 2 (delayInUs o).
Definition octets_op (l : list Z) : DataOperation_t :=
  mkOp (nth 0 l 0) (nth 1 l 0) (le_val (drop 2 l)).

(** ** The ring *)

Definition put_octet (b : Z) (s : lcd) : outcome lcd :=
  if inPos s <? ringBufSize then
    let s := set_in (<[Z.to_nat (inPos s) := b]> (ringBuf s)) (u16 (inPos s + 1)) (rollOver s) s in
    Ok (if ringBufSize <=? inPos s then set_in (ringBuf s) 0 true s else s)
  else UB.

Fixpoint put_octets (l : list Z) (s : lcd) : outcome lcd :=
  match l with
  | [] => Ok s
  | b :: l' => s ← put_octet b s; put_octets l' s
  end.

Definition putInBuf (input : DataOperation_t) (s : lcd) : outcome lcd :=
  let projectedEnd := u16 (inPos s + 4) in
  let wrapped := projectedEnd mod ringBufSize in
  if (rollOver s && (outPos s <? projectedEnd)) ||
     (negb (rollOver s) && (wrapped <? projectedEnd) && (outPos s <? wrapped))
  then Ok s
  else put_octets (op_octets input) s.

Definition get_octet (s : lcd) : outcome (Z * lcd) :=
  match (if outPos s <? ringBufSize then ringBuf s !! Z.to_nat (outPos s) else None) with
  | Some b =>
      let s := set_out (u16 (outPos s + 1)) (rollOver s) s in
      Ok (b, if ringBufSize <=? outPos s then set_out 0 false s else s)
  | None => UB
  end.

Fixpoint get_octets (n : nat) (s : lcd) : outcome (list Z * lcd) :=
  match n with
  | O => Ok ([], s)
  | S n' => '(b, s) ← get_octet s; '(l, s) ← get_octets n' s; Ok (b :: l, s)
  end.

Definition getFromBuf (s : lcd) : outcome (DataOperation_t * lcd) :=
  '(l, s) ← get_octets 4 s; Ok (octets_op l, s).

Definition putInLCDRingBuffer (data RS delay : Z) (s : lcd) : outcome lcd :=
  putInBuf (mkOp (u8 data) (u8 RS) (u16 delay)) s.

Definition LCDRingBufferInit (s : lcd) : lcd :=
  mkLcd (ringBuf s) 0 0 false InternalOp_ReadyForNewOp
        (mkOp (dataToWrite (currentOp s)) (rsFlag (currentOp s)) 0) 0 (lcd_sys s).

(** ** The display lines *)

Definition xecuter3LCDWrite (data RSFlag : Z) (s : sys) : sys :=
  let data := u8 data in
  WriteToIO X3_DISP_O_CMD RSFlag
    (WriteToIO X3_DISP_O_CMD (RSFlag .| DISPLAY_E)
       (WriteToIO X3_DISP_O_CMD RSFlag (WriteToIO X3_DISP_O_DAT data s))).

Definition smartXXLCDwrite (data : Z) (s : sys) : sys :=
  let d0 := u8 data in
  let d1 := d0 .| DISPLAY_E in
  let d2 := d1 .^ DISPLAY_E in
  WriteToIO LCD_DATA d2 (WriteToIO LCD_DATA d1 (WriteToIO LCD_DATA d0 s)).

(** [getElapseMicroSecondsSince] of [timeManagement.c]; [us] is what [getUS]
    returns in it. *)
Definition getElapseMicroSecondsSince (us startValue_us : Z) : Z :=
  if us <? startValue_us then u32 (us + (UINT_MAX - startValue_us)) else u32 (us - startValue_us).

Definition write_high (o : DataOperation_t) (y : sys) : sys :=
  let d := dataToWrite o in
  if isXecuter3 y then xecuter3LCDWrite (d .& 0xF0) (rsFlag o) y
  else smartXXLCDwrite ((Z.shiftr d 2 .& 0x28) .| rsFlag o .| (Z.shiftr d 0 .& 0x50)) y.

Definition write_low (o : DataOperation_t) (y : sys) : sys :=
  let d := dataToWrite o in
  if isXecuter3 y then xecuter3LCDWrite (Z.shiftl d 4) (rsFlag o) y
  else smartXXLCDwrite ((Z.shiftl d 2 .& 0x28) .| rsFlag o .| (Z.shiftl d 4 .& 0x50)) y.

(** [us] and [us'] are the readings of [getUS] at the test and after a write. *)
Definition updateLCDRingBuffer (us us' : Z) (s : lcd) : outcome lcd :=
  if delayInUs (currentOp s) <=? getElapseMicroSecondsSince us (systickStartValue s) then
    match internalOp s with
    | InternalOp_ReadyForNewOp =>
        if negb (outPos s =? inPos s) || rollOver s then
          '(o, s) ← getFromBuf s;
          Ok (set_internal InternalOp_WriteHighNibble (set_current o s))
        else Ok s
    | InternalOp_WriteHighNibble =>
        let s := set_lcd_sys (write_high (currentOp s) (lcd_sys s)) s in
        Ok (set_internal InternalOp_WriteLowNibble (set_systick us' s))
    | InternalOp_WriteLowNibble =>
        let s := set_lcd_sys (write_low (currentOp s) (lcd_sys s)) s in
        Ok (set_internal InternalOp_ReadyForNewOp (set_systick us' s))
    end
  else Ok s.

(** What the rest of the firmware does to the queue. *)
Inductive event :=
| Put (data RS delay : Z)
| Update (us us' : Z).

Definition step (e : event) (s : lcd) : outcome lcd :=
  match e with
  | Put d r t => putInLCDRingBuffer d r t s
  | Update us us' => updateLCDRingBuffer us us' s
  end.

Fixpoint run (es : list event) (s : lcd) : outcome lcd :=
  match es with
  | [] => Ok s
  | e :: es' => s ← step e s; run es' s
  end.

(** ** The reference: a bounded queue and the nibbles sent *)

Definition capacity : nat := 256.

Record fifo := mkFifo {
  pending : list DataOperation_t;
  phase : InternalOp;
  current : DataOperation_t;
  since : Z;
  sent : list (Z * Z)      (* nibble and register select, in order *)
}.

Definition fifo_step (e : event) (q : fifo) : fifo :=
  match e with
  | Put d r t =>
      if decide (length (pending q) < capacity)%nat
      then mkFifo (pending q ++ [mkOp (u8 d) (u8 r) (u16 t)]) (phase q) (current q) (since q) (sent q)
      else q
  | Update us us' =>
      if delayInUs (current q) <=? getElapseMicroSecondsSince us (since q) then
        match phase q, pending q with
        | InternalOp_ReadyForNewOp, [] => q
        | InternalOp_ReadyForNewOp, o :: p =>
            mkFifo p InternalOp_WriteHighNibble o (since q) (sent q)
        | InternalOp_WriteHighNibble, p =>
            mkFifo p InternalOp_WriteLowNibble (current q) us'
                   (sent q ++ [(dataToWrite (current q) / 16, rsFlag (current q))])
        | InternalOp_WriteLowNibble, p =>
            mkFifo p InternalOp_ReadyForNewOp (current q) us'
                   (sent q ++ [(dataToWrite (current q) mod 16, rsFlag (current q))])
        end
      else q
  end.

Definition fifo_run (es : list event) (q : fifo) : fifo := foldl (λ q e, fifo_step e q) q es.

(** The lines to the display and their levels at each falling edge of E.  On
    LPC modchips one port carries the data lines (bits 6 to 3), E (bit 2) and RS
    (bit 1); on the Xecuter 3 data and control have a port each. *)
Record display := mkDisplay { lines_data : Z; lines_ctl : Z; latch : list (Z * Z) }.

Definition falls (old new : Z) : bool := Z.testbit old 2 && negb (Z.testbit new 2).

Definition display_write (w : Z * Z) (d : display) : display :=
  let '(port, v) := w in
  if port =? LCD_DATA then
    mkDisplay v v (if falls (lines_ctl d) v
                   then latch d ++ [(Z.land (lines_data d) 0x78, Z.land (lines_ctl d) 0x02)]
                   else latch d)
  else if port =? X3_DISP_O_DAT then mkDisplay v (lines_ctl d) (latch d)
  else if port =? X3_DISP_O_CMD then
    mkDisplay (lines_data d) v
              (if falls (lines_ctl d) v
               then latch d ++ [(lines_data d, Z.land (lines_ctl d) 0x01)] else latch d)
  else d.

(** The display after the port writes of [y], the latest of which is first. *)
Definition shown (y : sys) : display :=
  foldr display_write (mkDisplay 0 0 []) (io_out y).

(** The data lines for a nibble: its four bits in the upper half of the port on
    the Xecuter 3, and on LPC modchips bits 2, 3, 0, 1 on lines 6, 5, 4, 3, the
    order the mapping comments of [updateLCDRingBuffer] give. *)
Definition data_lines (x3 : bool) (n : Z) : Z :=
  if x3 then 16 * n else 64 * bit n 2 + 32 * bit n 3 + 16 * bit n 0 + 8 * bit n 1.

(** A nibble and its register select, as levels of the lines. *)
Definition driven (x3 : bool) (n : Z * Z) : Z * Z := (data_lines x3 n.1, n.2).

(** ** The ring holds the queue *)

(** Slot [j] of the ring holds the octets of [o]. *)
Definition slot_is (b : list Z) (j : nat) (o : DataOperation_t) : Prop :=
  ∀ t, (t < 4)%nat → b !! (4 * j + t)%nat = op_octets o !! t.

(** The register-select values the display code passes. *)
Definition rs_ok (x3 : bool) (r : Z) : Prop := r = 0 ∨ r = (if x3 then 1 else 2).

Definition op_ok (x3 : bool) (o : DataOperation_t) : Prop :=
  byte (dataToWrite o) ∧ rs_ok x3 (rsFlag o) ∧ 0 <= delayInUs o < 2 ^ 16.

Definition ring_holds (s : lcd) (q : list DataOperation_t) : Prop :=
  ∃ h : nat, (h < capacity)%nat ∧ (length q <= capacity)%nat ∧ length (ringBuf s) = 1024%nat ∧
    outPos s = Z.of_nat (4 * h) ∧
    inPos s = Z.of_nat (4 * ((h + length q) mod capacity)) ∧
    rollOver s = bool_decide (capacity <= h + length q)%nat ∧
    ∀ i o, q !! i = Some o → slot_is (ringBuf s) ((h + i) mod capacity) o.

Lemma octets_op_octets o : 0 <= delayInUs o < 2 ^ 16 → octets_op (op_octets o) = o.
Proof.
  intros Hd. destruct o as [d r t]. unfold octets_op, op_octets.
  apply (f_equal (mkOp d r)), (le_val_bytes 2 t). exact Hd.
Qed.

Lemma put_octet_inside b s :
  0 <= inPos s < 1023 →
  put_octet b s =
    Ok (set_in (<[Z.to_nat (inPos s) := b]> (ringBuf s)) (inPos s + 1) (rollOver s) s).
Proof.
  intros Hp. unfold put_octet, ringBufSize. destruct (Z.ltb_spec (inPos s) 1024); [|lia].
  unfold u16. rewrite Z.mod_small by lia. cbn [inPos set_in].
  destruct (Z.leb_spec 1024 (inPos s + 1)); [lia|done].
Qed.

Lemma put_octet_last b s :
  inPos s = 1023 →
  put_octet b s = Ok (set_in (<[1023%nat := b]> (ringBuf s)) 0 true s).
Proof. intros Hp. unfold put_octet. by rewrite Hp. Qed.

Lemma get_octet_inside b s :
  0 <= outPos s < 1023 → ringBuf s !! Z.to_nat (outPos s) = Some b →
  get_octet s = Ok (b, set_out (outPos s + 1) (rollOver s) s).
Proof.
  intros Hp Hb. unfold get_octet, ringBufSize. destruct (Z.ltb_spec (outPos s) 1024); [|lia].
  rewrite Hb. unfold u16. rewrite Z.mod_small by lia. cbn [outPos set_out].
  destruct (Z.leb_spec 1024 (outPos s + 1)); [lia|done].
Qed.

Lemma get_octet_last b s :
  outPos s = 1023 → ringBuf s !! 1023%nat = Some b → get_octet s = Ok (b, set_out 0 false s).
Proof.
  intros Hp Hb. unfold get_octet. rewrite Hp. change (Z.to_nat 1023) with 1023%nat.
  rewrite Hb. reflexivity.
Qed.

(** Four octets stored from the start of slot [k]. *)
Definition insert4 (k : nat) (a b c d : Z) (l : list Z) : list Z :=
  <[(4 * k + 3)%nat := d]> (<[(4 * k + 2)%nat := c]>
    (<[(4 * k + 1)%nat := b]> (<[(4 * k)%nat := a]> l))).

Lemma op_octets_four o : ∃ a b c d, op_octets o = [a; b; c; d].
Proof. unfold op_octets. cbn. eauto. Qed.

Lemma put_slot a b c d (k : nat) s :
  (k < capacity)%nat → inPos s = Z.of_nat (4 * k) →
  put_octets [a; b; c; d] s =
    Ok (set_in (insert4 k a b c d (ringBuf s)) (Z.of_nat (4 * ((k + 1) mod capacity)))
               (rollOver s || bool_decide (k = 255)%nat) s).
Proof.
  unfold capacity. intros Hk Hin. cbn [put_octets].
  rewrite put_octet_inside by lia. obind. rewrite Hin.
  rewrite put_octet_inside by (cbn [inPos set_in]; lia). obind. cbn [inPos set_in ringBuf rollOver].
  rewrite put_octet_inside by (cbn [inPos set_in]; lia). obind. cbn [inPos set_in ringBuf rollOver].
  destruct (decide (k = 255)%nat) as [->|Hne].
  - rewrite put_octet_last by done. obind. cbn [inPos set_in ringBuf rollOver].
    rewrite bool_decide_true, orb_true_r by done. done.
  - rewrite put_octet_inside by (cbn [inPos set_in]; lia). obind.
    cbn [inPos set_in ringBuf rollOver].
    rewrite bool_decide_false, orb_false_r by done. rewrite Nat.mod_small by lia.
    unfold insert4, set_in. cbn [outPos internalOp currentOp systickStartValue lcd_sys].
    replace (Z.to_nat (Z.of_nat (4 * k))) with (4 * k)%nat by lia.
    replace (Z.to_nat (Z.of_nat (4 * k) + 1)) with (4 * k + 1)%nat by lia.
    replace (Z.to_nat (Z.of_nat (4 * k) + 1 + 1)) with (4 * k + 2)%nat by lia.
    replace (Z.to_nat (Z.of_nat (4 * k) + 1 + 1 + 1)) with (4 * k + 3)%nat by lia.
    do 2 f_equal. lia.
Qed.

Lemma insert4_slot (k : nat) o a b c d l :
  op_octets o = [a; b; c; d] → (4 * k + 3 < length l)%nat → slot_is (insert4 k a b c d l) k o.
Proof.
  intros Ho Hl t Ht. rewrite Ho. unfold insert4.
  destruct t as [|[|[|[|t]]]]; [| | | |lia]; rewrite ?Nat.add_0_r;
    rewrite ?list_lookup_insert_ne by lia; rewrite list_lookup_insert_eq by len; done.
Qed.

Lemma insert4_other (k j : nat) o a b c d l :
  j ≠ k → slot_is l j o → slot_is (insert4 k a b c d l) j o.
Proof.
  intros Hjk Hs t Ht. unfold insert4. rewrite !list_lookup_insert_ne by lia. by apply Hs.
Qed.

Lemma get_slot o (h : nat) s :
  (h < capacity)%nat → outPos s = Z.of_nat (4 * h) → slot_is (ringBuf s) h o →
  0 <= delayInUs o < 2 ^ 16 →
  getFromBuf s = Ok (o, set_out (Z.of_nat (4 * ((h + 1) mod capacity)))
                                (rollOver s && negb (bool_decide (h = 255)%nat)) s).
Proof.
  unfold capacity. intros Hh Ho Hs Hd. destruct (op_octets_four o) as (a & b & c & d & E).
  pose proof (Hs 0%nat ltac:(lia)) as H0. pose proof (Hs 1%nat ltac:(lia)) as H1.
  pose proof (Hs 2%nat ltac:(lia)) as H2. pose proof (Hs 3%nat ltac:(lia)) as H3.
  rewrite E in H0, H1, H2, H3. cbn in H0, H1, H2, H3.
  unfold getFromBuf. cbn [get_octets].
  rewrite (get_octet_inside a) by (try lia; rewrite Ho, <- H0; f_equal; lia). obind.
  rewrite (get_octet_inside b)
    by (cbn [outPos set_out ringBuf]; try lia; rewrite Ho, <- H1; f_equal; lia). obind.
  cbn [outPos set_out ringBuf rollOver].
  rewrite (get_octet_inside c)
    by (cbn [outPos set_out ringBuf]; try lia; rewrite Ho, <- H2; f_equal; lia). obind.
  cbn [outPos set_out ringBuf rollOver]. rewrite Ho.
  assert (octets_op [a; b; c; d] = o) as <- by (rewrite <- E; by apply octets_op_octets).
  destruct (decide (h = 255)%nat) as [->|Hne].
  - rewrite (get_octet_last d) by (cbn [outPos set_out ringBuf]; (lia || done)). obind.
    rewrite bool_decide_true, andb_false_r by done. done.
  - rewrite (get_octet_inside d)
      by (cbn [outPos set_out ringBuf]; try lia; rewrite <- H3; f_equal; lia). obind.
    rewrite bool_decide_false, andb_true_r by done. rewrite Nat.mod_small by lia.
    unfold set_out. cbn [outPos ringBuf rollOver inPos internalOp currentOp systickStartValue lcd_sys].
    do 3 f_equal. lia.
Qed.

Lemma mod_capacity_lt n : (n mod capacity < capacity)%nat.
Proof. apply Nat.mod_upper_bound. done. Qed.

Lemma mod_capacity n :
  (n < 2 * capacity)%nat →
  (n mod capacity = if decide (n < capacity) then n else n - capacity)%nat.
Proof.
  unfold capacity. intros Hn. destruct (decide _); [by apply Nat.mod_small|].
  replace n with (n - 256 + 1 * 256)%nat at 1 by lia.
  rewrite Nat.Div0.mod_add. apply Nat.mod_small. lia.
Qed.

Lemma mod_capacity_inj (h i j : nat) :
  (h < capacity)%nat → (i < capacity)%nat → (j < capacity)%nat →
  ((h + i) mod capacity = (h + j) mod capacity)%nat → i = j.
Proof.
  intros Hh Hi Hj. rewrite !mod_capacity by lia.
  repeat destruct (decide _); lia.
Qed.

(** The overflow test drops a command exactly when 256 are waiting. *)
Lemma putInBuf_full o s q :
  ring_holds s q → length q = capacity → putInBuf o s = Ok s.
Proof.
  intros (h & Hh & _ & _ & Hout & Hin & Hroll & _) Hq. unfold putInBuf, u16.
  rewrite Hq in *. rewrite mod_capacity in Hin by lia. unfold capacity in *.
  rewrite bool_decide_true in Hroll by lia. rewrite Hroll.
  destruct (decide _) in Hin; [lia|]. rewrite Z.mod_small by lia.
  destruct (Z.ltb_spec (outPos s) (inPos s + 4)); [done|lia].
Qed.

Lemma putInBuf_room o s q :
  ring_holds s q → (length q < capacity)%nat →
  ∃ b p r, putInBuf o s = Ok (set_in b p r s) ∧ ring_holds (set_in b p r s) (q ++ [o]).
Proof.
  intros (h & Hh & _ & Hb & Hout & Hin & Hroll & Hs) Hq.
  set (k := ((h + length q) mod capacity)%nat) in *.
  assert (k < capacity)%nat as Hk by apply mod_capacity_lt.
  assert (k = if decide (h + length q < capacity) then h + length q
              else h + length q - capacity)%nat as Ek by (apply mod_capacity; lia).
  assert (putInBuf o s = put_octets (op_octets o) s) as ->.
  { unfold putInBuf, u16, ringBufSize. unfold capacity in *. rewrite Z.mod_small by lia. rewrite Hroll.
    destruct (decide _) in Ek; [rewrite bool_decide_false by lia|rewrite bool_decide_true by lia]; cbn [andb orb negb].
    - destruct (decide (k = 255)%nat).
      + replace (inPos s + 4) with 1024 by lia. change (1024 mod 1024) with 0.
        destruct (Z.ltb_spec (outPos s) 0); [lia|]. by rewrite andb_false_r.
      + rewrite Z.mod_small, Z.ltb_irrefl by lia. done.
    - destruct (Z.ltb_spec (outPos s) (inPos s + 4)); [lia|done]. }
  destruct (op_octets_four o) as (a & b & c & d & E). rewrite E, (put_slot _ _ _ _ k) by done.
  eexists _, _, _. split; [done|]. exists h. cbn [set_in ringBuf inPos outPos rollOver].
  rewrite length_app. cbn [length]. split_and!; [done|lia| |done| | |].
  - unfold insert4. by rewrite !length_insert.
  - do 2 f_equal. rewrite Nat.add_assoc. unfold k. by rewrite Nat.Div0.add_mod_idemp_l.
  - rewrite Hroll. clear -Ek. unfold capacity in *. clearbody k.
    destruct (decide _) in Ek; repeat case_bool_decide; try done; exfalso; lia.
  - intros i o' Hi. apply lookup_app_Some in Hi as [Hi|[Hge Hi]].
    + apply insert4_other; [|by apply Hs]. apply lookup_lt_Some in Hi.
      intros Heq. apply mod_capacity_inj in Heq; lia.
    + apply list_lookup_singleton_Some in Hi as [Hi <-].
      replace i with (length q) by lia. apply insert4_slot; [done|].
      change ((h + length q) mod capacity)%nat with k. rewrite Hb. unfold capacity in *. lia.
Qed.

Lemma getFromBuf_head o s q :
  ring_holds s (o :: q) → 0 <= delayInUs o < 2 ^ 16 →
  ∃ p r, getFromBuf s = Ok (o, set_out p r s) ∧ ring_holds (set_out p r s) q.
Proof.
  intros (h & Hh & Hl & Hb & Hout & Hin & Hroll & Hs) Hd. cbn [length] in *.
  pose proof (Hs 0%nat o eq_refl) as H0. rewrite Nat.add_0_r, Nat.mod_small in H0 by done.
  rewrite (get_slot o h) by done. eexists _, _. split; [done|].
  exists ((h + 1) mod capacity)%nat. cbn [set_out ringBuf inPos outPos rollOver].
  split_and!; [apply mod_capacity_lt|lia|done|done| | |].
  - rewrite Hin. rewrite Nat.Div0.add_mod_idemp_l. do 3 f_equal. lia.
  - rewrite Hroll, mod_capacity by lia. unfold capacity in *.
    destruct (decide _); repeat case_bool_decide; lia || done.
  - intros i o' Hi. rewrite Nat.Div0.add_mod_idemp_l.
    replace (h + 1 + i)%nat with (h + S i)%nat by lia. by apply Hs.
Qed.

Lemma ring_empty s q :
  ring_holds s q →
  negb (outPos s =? inPos s) || rollOver s = match q with [] => false | _ => true end.
Proof.
  intros (h & Hh & Hl & _ & Hout & Hin & Hroll & _). rewrite Hout, Hin, Hroll.
  rewrite mod_capacity by lia. unfold capacity in *.
  destruct q; cbn [length] in *; destruct (decide _); case_bool_decide;
    match goal with |- context [?a =? ?b] => destruct (Z.eqb_spec a b) end; cbn; lia || done.
Qed.

(** ** The lines at the falling edges *)

Definition e_low (y : sys) : Prop := Z.testbit (lines_ctl (shown y)) 2 = false.

Lemma shown_write port v y : shown (WriteToIO port v y) = display_write (port, u8 v) (shown y).
Proof. done. Qed.

Lemma smartXX_latches v y :
  byte v → Z.testbit v 2 = false → e_low y →
  let y' := smartXXLCDwrite v y in
  e_low y' ∧ latch (shown y') =
    latch (shown y) ++ [(Z.land (Z.lor v 4) 0x78, Z.land (Z.lor v 4) 2)].
Proof.
  intros Hv H2 He. cbv zeta. unfold smartXXLCDwrite, e_low in *. rewrite !shown_write.
  assert (Z.lxor (Z.lor v 4) 4 = v) as Hx.
  { apply Z.bits_inj'. intros n Hn. rewrite Z.lxor_spec, Z.lor_spec.
    destruct (decide (n = 2)) as [->|]; [by rewrite H2|].
    assert (Z.testbit 4 n = false) as ->; [|by rewrite orb_false_r, xorb_false_r].
    change 4 with (2 ^ 2). apply Z.pow2_bits_false. lia. }
  assert (byte (Z.lor v 4)) as Hl by (unfold byte in *; apply (lor_bound v 4 8); lia).
  rewrite (u8_id v Hv). unfold DISPLAY_E. rewrite Hx, !u8_id by done.
  cbn [display_write]. rewrite Z.eqb_refl. cbn [lines_ctl lines_data latch]. unfold falls.
  rewrite He, H2, Z.lor_spec, H2. done.
Qed.

Lemma x3_latches v r y :
  byte v → rs_ok true r → e_low y →
  let y' := xecuter3LCDWrite v r y in
  e_low y' ∧ latch (shown y') = latch (shown y) ++ [(v, r)].
Proof.
  intros Hv Hr He. cbv zeta. unfold xecuter3LCDWrite, e_low in *. rewrite !shown_write, !(u8_id v) by done.
  unfold DISPLAY_E. cbn [display_write].
  change (X3_DISP_O_DAT =? LCD_DATA) with false. change (X3_DISP_O_CMD =? LCD_DATA) with false.
  change (X3_DISP_O_CMD =? X3_DISP_O_DAT) with false. rewrite !Z.eqb_refl.
  cbn [lines_ctl lines_data latch]. unfold falls. rewrite He. by destruct Hr as [-> | ->].
Qed.

(** The nibble routing of LPC modchips, for every octet and register select. *)
Definition routes (d r : Z) : bool :=
  let hi := u8 (Z.lor (Z.lor (Z.land (Z.shiftr d 2) 0x28) r) (Z.land (Z.shiftr d 0) 0x50)) in
  let lo := u8 (Z.lor (Z.lor (Z.land (Z.shiftl d 2) 0x28) r) (Z.land (Z.shiftl d 4) 0x50)) in
  negb (Z.testbit hi 2) && negb (Z.testbit lo 2) &&
  bool_decide ((Z.land (Z.lor hi 4) 0x78, Z.land (Z.lor hi 4) 2) = driven false (d / 16, r)) &&
  bool_decide ((Z.land (Z.lor lo 4) 0x78, Z.land (Z.lor lo 4) 2) = driven false (d mod 16, r)).

Lemma routes_all d r : byte d → rs_ok false r → routes d r = true.
Proof.
  intros Hd Hr.
  assert (forallb (λ d, routes d 0 && routes d 2) (seqZ 0 256) = true) as Hall by (vm_compute; done).
  rewrite forallb_forall in Hall. specialize (Hall d).
  rewrite <- list_elem_of_In, elem_of_seqZ in Hall. specialize (Hall ltac:(unfold byte in Hd; lia)).
  apply andb_true_iff in Hall as [H0 H2]. by destruct Hr as [-> | ->].
Qed.

(** Both nibbles of a command reach the display. *)
Lemma smartXX_u8 v y : smartXXLCDwrite v y = smartXXLCDwrite (u8 v) y.
Proof. unfold smartXXLCDwrite. by rewrite (u8_id (u8 v)) by apply u8_range. Qed.

Lemma x3_u8 v r y : xecuter3LCDWrite v r y = xecuter3LCDWrite (u8 v) r y.
Proof. unfold xecuter3LCDWrite. by rewrite (u8_id (u8 v)) by apply u8_range. Qed.

Lemma x3_routes d :
  byte d → Z.land d 0xF0 = 16 * (d / 16) ∧ u8 (Z.shiftl d 4) = 16 * (d mod 16) ∧ byte (Z.land d 0xF0).
Proof.
  intros Hd. assert (Z.land d 0xF0 = 16 * (d / 16)) as E.
  { assert (forallb (λ d, Z.land d 0xF0 =? 16 * (d / 16)) (seqZ 0 256) = true) as Hall by (vm_compute; done).
    rewrite forallb_forall in Hall. apply Z.eqb_eq, Hall, list_elem_of_In, elem_of_seqZ. unfold byte in Hd. lia. }
  split_and!; [done| |].
  - unfold u8. rewrite Z.shiftl_mul_pow2 by lia. change (2 ^ 8) with (16 * 16).
    change (2 ^ 4) with 16. rewrite Z.mul_mod_distr_r by lia. lia.
  - unfold byte in *. apply (land_bound d 0xF0 8); lia.
Qed.

Lemma write_nibbles o y :
  op_ok (isXecuter3 y) o → e_low y →
  (e_low (write_high o y) ∧ latch (shown (write_high o y)) =
     latch (shown y) ++ [driven (isXecuter3 y) (dataToWrite o / 16, rsFlag o)]) ∧
  (e_low (write_low o y) ∧ latch (shown (write_low o y)) =
     latch (shown y) ++ [driven (isXecuter3 y) (dataToWrite o mod 16, rsFlag o)]).
Proof.
  intros (Hd & Hr & _) He. unfold write_high, write_low. destruct (isXecuter3 y).
  - destruct (x3_routes _ Hd) as (Hhi & Hlo & Hb). unfold driven. cbn [data_lines fst snd]. rewrite <- Hhi, <- Hlo.
    rewrite (x3_u8 (Z.shiftl _ _)). split; apply x3_latches; try done. apply u8_range.
  - pose proof (routes_all _ _ Hd Hr) as Hroute. unfold routes in Hroute.
    rewrite !andb_true_iff, !negb_true_iff, !bool_decide_eq_true in Hroute.
    destruct Hroute as [[[H1 H2] H3] H4].
    rewrite smartXX_u8, <- H3, (smartXX_u8 (Z.lor (Z.lor (Z.land (Z.shiftl _ _) _) _) _)), <- H4.
    split; apply smartXX_latches; try done; apply u8_range.
Qed.

(** ** Refinement *)

(** The ring stands for the reference state, and the lines have carried the
    nibbles it sent, after [base]. *)
Definition refines (base : list (Z * Z)) (x3 : bool) (s : lcd) (q : fifo) : Prop :=
  ring_holds s (pending q) ∧ Forall (op_ok x3) (pending q) ∧
  internalOp s = phase q ∧ currentOp s = current q ∧ systickStartValue s = since q ∧
  isXecuter3 (lcd_sys s) = x3 ∧ e_low (lcd_sys s) ∧ latch (shown (lcd_sys s)) = base ++ (driven x3 <$> sent q) ∧
  (phase q = InternalOp_ReadyForNewOp ∨ op_ok x3 (current q)).

Definition event_ok (x3 : bool) (e : event) : Prop :=
  match e with Put _ r _ => rs_ok x3 r | Update _ _ => True end.

#[export] Instance event_ok_dec x3 e : Decision (event_ok x3 e).
Proof. destruct e; cbn; unfold rs_ok; apply _. Defined.

Lemma put_refines base x3 d r t s q :
  rs_ok x3 r → refines base x3 s q →
  ∃ s', putInLCDRingBuffer d r t s = Ok s' ∧ refines base x3 s' (fifo_step (Put d r t) q).
Proof.
  intros Hr (Hring & Hops & Hrest). unfold putInLCDRingBuffer. cbn [fifo_step].
  assert (op_ok x3 (mkOp (u8 d) (u8 r) (u16 t))) as Hok.
  { split; [apply u8_range|]. split; [|apply Z.mod_pos_bound; lia]. cbn [rsFlag].
    rewrite u8_id; [done|]. unfold byte. destruct Hr as [-> | ->], x3; lia. }
  destruct (decide _) as [Hlt|Hge].
  - destruct (putInBuf_room (mkOp (u8 d) (u8 r) (u16 t)) s (pending q) Hring Hlt) as (b & p & rr & -> & Hr').
    eexists. split; [done|]. split; [done|]. split; [|exact Hrest].
    apply Forall_app. split; [done|]. by constructor.
  - exists s. split; [|done]. apply (putInBuf_full _ s (pending q) Hring).
    destruct Hring as (h & _ & ? & _). lia.
Qed.

Lemma update_refines base x3 us us' s q :
  refines base x3 s q →
  ∃ s', updateLCDRingBuffer us us' s = Ok s' ∧ refines base x3 s' (fifo_step (Update us us') q).
Proof.
  intros Href. pose proof Href as (Hring & Hops & Hi & Hc & Ht & Hx & He & Hl & Hcur).
  unfold updateLCDRingBuffer. cbn [fifo_step]. rewrite Hc, Ht, Hi.
  destruct (_ <=? _); [|eauto].
  destruct (phase q) eqn:Eph.
  - rewrite (ring_empty s (pending q) Hring). destruct (pending q) as [|o p] eqn:Ep; [eauto|].
    apply Forall_cons_1 in Hops as [Ho Hops].
    destruct (getFromBuf_head o s p Hring ltac:(apply Ho)) as (i & r & -> & Hring').
    rewrite bind_ok. eexists. split; [done|]. split_and!; auto.
  - destruct Hcur as [|Hcur]; [done|]. rewrite <- Hx in Hcur.
    destruct (write_nibbles _ _ Hcur He) as [[He' Hl'] _].
    eexists. split; [done|]. unfold refines.
    cbn [ringBuf internalOp currentOp systickStartValue lcd_sys set_lcd_sys set_internal set_systick
         pending phase current since sent]. rewrite Hc, Hl', Hl, <- Hx, fmap_app, <- app_assoc.
    split_and!; try done; [by rewrite Hx| |by right].
    unfold write_high, smartXXLCDwrite, xecuter3LCDWrite. by destruct (isXecuter3 _) eqn:E.
  - destruct Hcur as [|Hcur]; [done|]. rewrite <- Hx in Hcur.
    destruct (write_nibbles _ _ Hcur He) as [_ [He' Hl']].
    eexists. split; [done|]. unfold refines.
    cbn [ringBuf internalOp currentOp systickStartValue lcd_sys set_lcd_sys set_internal set_systick
         pending phase current since sent]. rewrite Hc, Hl', Hl, <- Hx, fmap_app, <- app_assoc.
    split_and!; try done; [by rewrite Hx| |by left].
    unfold write_low, smartXXLCDwrite, xecuter3LCDWrite. by destruct (isXecuter3 _) eqn:E.
Qed.

Lemma run_refines base x3 es s q :
  Forall (event_ok x3) es → refines base x3 s q →
  ∃ s', run es s = Ok s' ∧ refines base x3 s' (fifo_run es q).
Proof.
  revert s q. induction es as [|e es IH]; intros s q Hes Href; [by exists s|].
  apply Forall_cons_1 in Hes as [He Hes]. cbn [run fifo_run foldl].
  assert (∃ s', step e s = Ok s' ∧ refines base x3 s' (fifo_step e q)) as (s' & -> & Href').
  { destruct e; [by apply put_refines|by apply update_refines]. }
  rewrite bind_ok. by apply IH.
Qed.

(** The queue before the first command. *)
Definition fifo_empty (o : DataOperation_t) : fifo :=
  mkFifo [] InternalOp_ReadyForNewOp (mkOp (dataToWrite o) (rsFlag o) 0) 0 [].

Lemma init_refines s :
  length (ringBuf s) = 1024%nat → e_low (lcd_sys s) →
  refines (latch (shown (lcd_sys s))) (isXecuter3 (lcd_sys s)) (LCDRingBufferInit s) (fifo_empty (currentOp s)).
Proof.
  intros Hl He. split_and!; try done; [| |by left].
  - exists 0%nat. cbn. split_and!; try done; unfold capacity; lia.
  - cbn. by rewrite app_nil_r.
Qed.

(** ** Draining *)

(** Updates far enough apart for every delay to have passed. *)
Definition elapsed (q : fifo) (e : event) : Prop :=
  match e with
  | Update us _ => 2 ^ 16 <= getElapseMicroSecondsSince us (since q)
  | Put _ _ _ => False
  end.

Fixpoint spaced (es : list event) (q : fifo) : Prop :=
  match es with
  | [] => True
  | e :: es' => elapsed q e ∧ spaced es' (fifo_step e q)
  end.

Lemma spaced_ok x3 es q : spaced es q → Forall (event_ok x3) es.
Proof.
  revert q. induction es as [|e es IH]; intros q Hsp; [done|]. destruct Hsp as [He Hsp].
  constructor; [by destruct e|by eapply IH].
Qed.

Definition nibbles (o : DataOperation_t) : list (Z * Z) :=
  [(dataToWrite o / 16, rsFlag o); (dataToWrite o mod 16, rsFlag o)].

Definition short_delays (q : fifo) : Prop :=
  Forall (λ o, delayInUs o < 2 ^ 16) (pending q) ∧ delayInUs (current q) < 2 ^ 16.

(** Three updates send the command at the head of the queue. *)
Lemma fifo_sends o p es e1 e2 e3 q :
  phase q = InternalOp_ReadyForNewOp → pending q = o :: p → short_delays q →
  spaced (e1 :: e2 :: e3 :: es) q →
  let q' := fifo_run [e1; e2; e3] q in
  phase q' = InternalOp_ReadyForNewOp ∧ pending q' = p ∧ sent q' = sent q ++ nibbles o ∧
  short_delays q' ∧ spaced es q'.
Proof.
  destruct q as [pd ph cur sc st]. cbn [phase pending]. intros -> -> [Hp Hc] (H1 & H2 & H3 & Hs).
  apply Forall_cons_1 in Hp as [Ho Hp]. cbn [current] in Hc.
  destruct e1 as [|u1 v1], e2 as [|u2 v2], e3 as [|u3 v3]; try done.
  cbn [elapsed since] in H1. cbn zeta.
  assert (fifo_step (Update u1 v1) (mkFifo (o :: p) InternalOp_ReadyForNewOp cur sc st) =
          mkFifo p InternalOp_WriteHighNibble o sc st) as E1.
  { cbn. destruct (Z.leb_spec (delayInUs cur) (getElapseMicroSecondsSince u1 sc)); [done|lia]. }
  rewrite E1 in *. cbn [elapsed since] in H2.
  assert (fifo_step (Update u2 v2) (mkFifo p InternalOp_WriteHighNibble o sc st) =
          mkFifo p InternalOp_WriteLowNibble o v2 (st ++ [(dataToWrite o / 16, rsFlag o)])) as E2.
  { cbn. destruct (Z.leb_spec (delayInUs o) (getElapseMicroSecondsSince u2 sc)); [done|lia]. }
  rewrite E2 in *. cbn [elapsed since] in H3.
  assert (fifo_step (Update u3 v3) (mkFifo p InternalOp_WriteLowNibble o v2
            (st ++ [(dataToWrite o / 16, rsFlag o)])) =
          mkFifo p InternalOp_ReadyForNewOp o v3 (st ++ nibbles o)) as E3.
  { cbn. destruct (Z.leb_spec (delayInUs o) (getElapseMicroSecondsSince u3 v2)); [|lia].
    by rewrite <- app_assoc. }
  rewrite E3 in *. cbn [fifo_run foldl]. rewrite E1, E2, E3. done.
Qed.

Lemma fifo_drains p es q :
  phase q = InternalOp_ReadyForNewOp → pending q = p → short_delays q →
  spaced es q → length es = (3 * length p)%nat →
  pending (fifo_run es q) = [] ∧ sent (fifo_run es q) = sent q ++ (p ≫= nibbles).
Proof.
  revert es q. induction p as [|o p IH]; intros es q Hph Hp Hsh Hsp Hl; cbn [length] in Hl.
  - destruct es; [|cbn in Hl; lia]. cbn. by rewrite app_nil_r.
  - destruct es as [|e1 [|e2 [|e3 es]]]; cbn in Hl; try lia.
    destruct (fifo_sends o p es e1 e2 e3 q Hph Hp Hsh Hsp) as (Hph' & Hp' & Hs' & Hsh' & Hsp').
    change (fifo_run (e1 :: e2 :: e3 :: es) q) with (fifo_run es (fifo_run [e1; e2; e3] q)).
    destruct (IH es (fifo_run [e1; e2; e3] q) Hph' Hp' Hsh' Hsp' ltac:(lia)) as [E1 E2].
    split; [done|]. rewrite E2, Hs', <- app_assoc. done.
Qed.

(** Up to 256 commands queued in a row all wait, in order. *)
Definition put_of (o : DataOperation_t) : event := Put (dataToWrite o) (rsFlag o) (delayInUs o).

Lemma fifo_queues x3 ops q :
  Forall (op_ok x3) ops → (length (pending q) + length ops <= capacity)%nat →
  fifo_run (put_of <$> ops) q =
    mkFifo (pending q ++ ops) (phase q) (current q) (since q) (sent q).
Proof.
  revert q. induction ops as [|o ops IH]; intros q Hops Hl; cbn [length] in Hl.
  - rewrite app_nil_r. by destruct q.
  - apply Forall_cons_1 in Hops as [(Hd & Hr & Ht) Hops]. cbn [fmap list_fmap fifo_run foldl].
    assert (mkOp (u8 (dataToWrite o)) (u8 (rsFlag o)) (u16 (delayInUs o)) = o) as Eo.
    { destruct o as [d r t]. cbn in *. unfold u16. rewrite (Z.mod_small t) by lia.
      rewrite !u8_id; [done| |done]. unfold byte. destruct Hr as [-> | ->], x3; lia. }
    assert (fifo_step (put_of o) q =
            mkFifo (pending q ++ [o]) (phase q) (current q) (since q) (sent q)) as ->.
    { unfold put_of. cbn [fifo_step]. rewrite Eo. destruct (decide _); [done|lia]. }
    etrans; [apply IH; [done|cbn; len]|]. cbn [pending phase current since sent].
    by rewrite <- app_assoc.
Qed.

(** ** Properties *)

(** A display at rest behind an LPC modchip, for the instances below. *)
Definition sample_lcd : lcd :=
  mkLcd (replicate 1024 0) 7 9 true InternalOp_WriteLowNibble (mkOp 1 2 3) 5
        (mkSys SYSCON_ID_V1 0 XboxMotherboardRevision_1_0 0 0 0 false (mkGPIO 0 0 0 0 0 0 0 0) []).





End LcdRing.
