(* ===== verification/Allocator.v ===== *)
(** * The memory manager ([src/lib/misc/BootLibrary.c])

    The heap is a table of one octet per 16 KB sector at
    [MemoryManagerStartAddress], followed by the sectors; sector 0 holds the
    table.  The state is the RAM, the start address and the interrupt flag that
    [cli] and [sti] change.  The reference is a set of disjoint live blocks
    ([holds]): the table marks exactly their sectors. *)

From S2P Require Import Prelude.

Module Allocator.

Record heap := mkHeap { ram : mem; MemoryManagerStartAddress : Z; interrupts : bool }.

Definition set_ram (r : mem) (h : heap) : heap :=
  mkHeap r (MemoryManagerStartAddress h) (interrupts h).
Definition set_interrupts (b : bool) (h : heap) : heap :=
  mkHeap (ram h) (MemoryManagerStartAddress h) b.

(** [memsmall[i]]. *)
Definition memsmall (h : heap) (i : Z) : Z := ram h (MemoryManagerStartAddress h + i).
Definition mark (i v : Z) (h : heap) : heap :=
  set_ram (mem_set (ram h) (MemoryManagerStartAddress h + i) v) h.
(** [memset(&memsmall[i], v, n)]. *)
Definition mark_range (i v n : Z) (h : heap) : heap :=
  set_ram (mem_fill (ram h) (MemoryManagerStartAddress h + i) v n) h.
(** [memcpy(&memsmall[i], &dummy, 4)] and [memcmp(&memsmall[i], &dummy, 4) == 0]. *)
Definition mark_word (i dummy : Z) (h : heap) : heap :=
  set_ram (mem_copy (ram h) (MemoryManagerStartAddress h + i) (mem_of_list (le_bytes 4 dummy)) 0 4) h.
Definition word_is (i dummy : Z) (h : heap) : bool :=
  bool_decide (mem_read (ram h) (MemoryManagerStartAddress h + i) 4 = le_bytes 4 dummy).

Definition load32 (a : Z) (h : heap) : Z := le_val (mem_read (ram h) a 4).
Definition store32 (a v : Z) (h : heap) : heap :=
  set_ram (mem_copy (ram h) a (mem_of_list (le_bytes 4 v)) 0 4) h.

(** ** Operations *)

(** The scan [for (counter=1; counter<0x400; counter++)] up to the first
    [counter] that passes the test. *)
Fixpoint scan (n : nat) (counter : Z) (test : Z → bool) : option Z :=
  match n with
  | O => None
  | S n' => if test counter then Some counter else scan n' (counter + 1) test
  end.

Definition sectors : nat := Z.to_nat 0x3FF.

Fixpoint free_from (n : nat) (i : Z) (h : heap) : bool :=
  match n with
  | O => true
  | S n' => if memsmall h i =? 0 then free_from n' (i + 1) h else false
  end.

Definition MemoryManagerGetFree (h : heap) : Z :=
  foldl (λ n i, if memsmall h i =? 0 then n + 1 else n) 0 (seqZ 0 0x400).

Definition MemoryManagementInitialization (pvStartAddress : Z) (h : heap) : heap :=
  mark 0 0xff (mark_range 0 0 0x4000 (mkHeap (ram h) pvStartAddress (interrupts h))).

Definition address (counter : Z) (h : heap) : Z :=
  u32 (MemoryManagerStartAddress h + counter * 0x4000).

Definition needsectory (size : Z) : Z := u32 ((size .& 0xffffc000) + 0x4000) / 0x4000.

Definition mark_large (counter n : Z) (h : heap) : heap :=
  mark (counter + n - 1) 0xBB (mark (counter + n - 2) 0xCC
    (mark (counter + 1) 0xCC (mark counter 0xBB (mark_range counter 0xFF n h)))).

Definition t_malloc (size : Z) (h : heap) : Z * heap :=
  if size <? 0x4000 + 1 then
    match scan sectors 1 (λ c, memsmall h c =? 0) with
    | Some c => (address c h, mark c 0xAA h)
    | None => (0, h)
    end
  else if size <? 0x10000 + 1 then
    match scan sectors 1 (λ c, word_is c 0 h) with
    | Some c => (address c h, mark_word c 0xB8BADCFE h)
    | None => (0, h)
    end
  else if size <? 5 * 1024 * 1024 + 1 then
    match scan sectors 1 (λ c, free_from (Z.to_nat (needsectory size)) c h) with
    | Some c => (address c h, mark_large c (needsectory size) h)
    | None => (0, h)
    end
  else (0, h).

(** The loop that clears a large block. *)
Fixpoint clear_large (n : nat) (counter : Z) (h : heap) : heap :=
  match n with
  | O => h
  | S n' =>
      if (memsmall h counter =? 0xCC) && (memsmall h (counter + 1) =? 0xBB)
      then mark (counter + 1) 0 (mark counter 0 h)
      else clear_large n' (counter + 1) (mark counter 0 h)
  end.

Definition t_free (ptr : Z) (h : heap) : heap :=
  let temp := u32 (ptr - MemoryManagerStartAddress h) in
  if (temp .& 0xffffc000) =? temp then
    let temp := temp / 0x4000 in
    if memsmall h temp =? 0xAA then mark temp 0 h
    else if word_is temp 0xB8BADCFE h then mark_range temp 0 4 h
    else if word_is temp 0xFFFFCCBB h then clear_large (Z.to_nat (0x400 - temp)) temp h
    else h
  else h.

Definition malloc (size : Z) (h : heap) : Z * heap :=
  let h := set_interrupts false h in
  let temp := u32 (size + 0x200) .& 0xffFFff00 in
  let '(p, h) := t_malloc temp h in
  let q := u32 (p + 0x100) .& 0xffFFff00 in
  let h := store32 (u32 (q - 4)) 0x1234567 (store32 (u32 (q - 8)) p h) in
  (q, set_interrupts true h).

Definition calloc (nmemb size : Z) (h : heap) : Z * heap :=
  let n := u32 (nmemb * size) in
  let '(p, h) := malloc n h in
  (p, set_ram (mem_fill (ram h) p 0 n) h).

Definition free (ptr : Z) (h : heap) : heap :=
  let h := set_interrupts false h in
  if ptr =? 0 then h
  else
    let p := load32 (u32 (ptr - 8)) h in
    if negb (load32 (u32 (ptr - 4)) h =? 0x1234567) then set_interrupts true h
    else set_interrupts true (t_free p h).

(** ** The reference: disjoint live blocks *)

Inductive kind := Small | Mid | Large (n : Z).

Record block := mkBlock { first : Z; bkind : kind }.

#[export] Instance kind_eq_dec : EqDecision kind.
Proof. solve_decision. Defined.
#[export] Instance block_eq_dec : EqDecision block.
Proof. solve_decision. Defined.

Definition blen (k : kind) : Z := match k with Small => 1 | Mid => 4 | Large n => n end.

(** The marks of a block in the table. *)
Definition pattern (k : kind) (i : Z) : Z :=
  match k with
  | Small => 0xAA
  | Mid => nth (Z.to_nat i) [0xFE; 0xDC; 0xBA; 0xB8] 0
  | Large n => if (i =? 0) || (i =? n - 1) then 0xBB
               else if (i =? 1) || (i =? n - 2) then 0xCC else 0xFF
  end.

Definition covers (b : block) (i : Z) : Prop := first b <= i < first b + blen (bkind b).

Definition block_ok (b : block) : Prop :=
  1 <= first b < 0x400 ∧ match bkind b with Large n => 5 <= n <= 321 | _ => True end.

(** The pool starts at a sector boundary and its sectors end below 4 GB. *)
Definition pool_ok (h : heap) : Prop :=
  0 < MemoryManagerStartAddress h ∧ MemoryManagerStartAddress h + 0x540 * 0x4000 < 2 ^ 32 ∧
  (0x4000 | MemoryManagerStartAddress h).

Record holds (h : heap) (bs : list block) : Prop := {
  holds_pool : pool_ok h;
  holds_table : memsmall h 0 = 0xff;
  holds_ok : ∀ b, b ∈ bs → block_ok b;
  holds_marks : ∀ b i, b ∈ bs → covers b i → memsmall h i = pattern (bkind b) (i - first b);
  holds_free : ∀ i, 1 <= i < 0x4000 → (∀ b, b ∈ bs → ¬ covers b i) → memsmall h i = 0;
  holds_disjoint : ∀ b c i, b ∈ bs → c ∈ bs → covers b i → covers c i → b = c;
  holds_nodup : NoDup bs
}.

(** ** Table access *)

Lemma memsmall_mark h i v j : memsmall (mark i v h) j = if j =? i then v else memsmall h j.
Proof.
  unfold memsmall, mark, set_ram, mem_set. cbn [ram MemoryManagerStartAddress].
  destruct (Z.eqb_spec j i), (Z.eqb_spec (MemoryManagerStartAddress h + j)
    (MemoryManagerStartAddress h + i)); lia || done.
Qed.

Lemma memsmall_range h i v n j :
  memsmall (mark_range i v n h) j = if (i <=? j) && (j <? i + n) then v else memsmall h j.
Proof.
  unfold memsmall, mark_range, set_ram, mem_fill. cbn [ram MemoryManagerStartAddress].
  destruct (Z.leb_spec i j), (Z.ltb_spec j (i + n)),
    (Z.leb_spec (MemoryManagerStartAddress h + i) (MemoryManagerStartAddress h + j)),
    (Z.ltb_spec (MemoryManagerStartAddress h + j) (MemoryManagerStartAddress h + i + n));
    cbn; lia || done.
Qed.

Lemma memsmall_word h i d j :
  memsmall (mark_word i d h) j =
    if (i <=? j) && (j <? i + 4) then nth (Z.to_nat (j - i)) (le_bytes 4 d) 0 else memsmall h j.
Proof.
  unfold memsmall, mark_word, set_ram, mem_copy, mem_of_list. cbn [ram MemoryManagerStartAddress].
  destruct (Z.leb_spec i j), (Z.ltb_spec j (i + 4)),
    (Z.leb_spec (MemoryManagerStartAddress h + i) (MemoryManagerStartAddress h + j)),
    (Z.ltb_spec (MemoryManagerStartAddress h + j) (MemoryManagerStartAddress h + i + 4));
    cbn [andb]; try (lia || done).
  destruct (Z.ltb_spec (0 + (MemoryManagerStartAddress h + j - (MemoryManagerStartAddress h + i))) 0);
    [lia|]. f_equal. lia.
Qed.

Lemma word_is_cells h i d :
  word_is i d h = true ↔
  ∀ j, 0 <= j < 4 → memsmall h (i + j) = nth (Z.to_nat j) (le_bytes 4 d) 0.
Proof.
  unfold word_is, memsmall. rewrite bool_decide_eq_true.
  set (a := MemoryManagerStartAddress h). split.
  - intros H j Hj. rewrite <- H. replace j with (Z.of_nat (Z.to_nat j)) at 1 by lia.
    rewrite Z.add_assoc. symmetry. apply nth_lookup_Some, mem_read_lookup. lia.
  - intros H. apply list_eq_same_length with (n := 4%nat); [apply length_le_bytes|apply length_mem_read|].
    intros j x y Hj Hx Hy. rewrite mem_read_lookup in Hx by done.
    apply nth_lookup_Some with (d := 0) in Hy. rewrite <- Hy.
    specialize (H (Z.of_nat j) ltac:(lia)). rewrite Nat2Z.id in H. rewrite <- H.
    rewrite Z.add_assoc. congruence.
Qed.

Lemma free_from_cells n i h :
  free_from n i h = true ↔ ∀ j, i <= j < i + Z.of_nat n → memsmall h j = 0.
Proof.
  revert i. induction n as [|n IH]; intros i; cbn [free_from].
  - split; [intros _ j Hj; lia|done].
  - destruct (Z.eqb_spec (memsmall h i) 0) as [E|E].
    + rewrite IH. split; intros H j Hj; [|apply H; lia].
      destruct (decide (j = i)) as [->|]; [done|apply H; lia].
    + split; [done|]. intros H. destruct E. apply H. lia.
Qed.

Lemma scan_some n c test k :
  scan n c test = Some k → c <= k < c + Z.of_nat n ∧ test k = true.
Proof.
  revert c. induction n as [|n IH]; intros c; cbn [scan]; [done|].
  destruct (test c) eqn:E; [intros [= <-]; split; [lia|done]|].
  intros [H1 H2]%IH. split; [lia|done].
Qed.

Lemma scan_none n c test j :
  scan n c test = None → c <= j < c + Z.of_nat n → test j = false.
Proof.
  revert c. induction n as [|n IH]; intros c; cbn [scan]; [lia|].
  destruct (test c) eqn:E; [done|]. intros H Hj.
  destruct (decide (j = c)) as [->|]; [done|]. apply (IH (c + 1)); [done|lia].
Qed.

(** ** Blocks *)

#[export] Instance holds_proper : Proper (eq ==> (≡ₚ) ==> iff) holds.
Proof.
  assert (∀ h bs cs, bs ≡ₚ cs → holds h bs → holds h cs) as Himp.
  { intros h bs cs Hp []. constructor; intros *; rewrite <- ?Hp; eauto.
    intros ? H. apply holds_free0; [done|]. intros b. rewrite Hp. apply H. }
  intros h ? <- bs cs Hp. split; apply Himp; done.
Qed.

Lemma pattern_nonzero b i : block_ok b → covers b i → pattern (bkind b) (i - first b) ≠ 0.
Proof.
  intros [_ Hk]. unfold covers. destruct (bkind b) as [| |n]; cbn [blen pattern]; intros Hi.
  - done.
  - assert (i - first b = 0 ∨ i - first b = 1 ∨ i - first b = 2 ∨ i - first b = 3)
      as [-> | [-> | [-> | ->]]] by lia; done.
  - by repeat destruct (_ =? _).
Qed.

Lemma zero_uncovered h bs b i : holds h bs → b ∈ bs → memsmall h i = 0 → ¬ covers b i.
Proof.
  intros Hh Hb Hz Hc. rewrite (holds_marks _ _ Hh b i Hb Hc) in Hz.
  by apply (pattern_nonzero b i (holds_ok _ _ Hh b Hb) Hc).
Qed.

(** [h'] is [h] with the marks of [b] replaced by [v]. *)
Record remarked (b : block) (v : Z → Z) (h h' : heap) : Prop := {
  remarked_start : MemoryManagerStartAddress h' = MemoryManagerStartAddress h;
  remarked_flag : interrupts h' = interrupts h;
  remarked_in : ∀ i, covers b i → memsmall h' i = v (i - first b);
  remarked_out : ∀ i, ¬ covers b i → memsmall h' i = memsmall h i
}.

Lemma block_in_table b i : block_ok b → covers b i → 1 <= i < 0x4000.
Proof. unfold block_ok, covers. destruct (bkind b); cbn [blen]; lia. Qed.

Lemma holds_alloc b h h' bs :
  holds h bs → block_ok b → (∀ i, covers b i → memsmall h i = 0) →
  remarked b (pattern (bkind b)) h h' → holds h' (b :: bs).
Proof.
  intros Hh Hb Hz [Hst _ Hin Hout].
  assert (∀ c i, c ∈ bs → covers b i → ¬ covers c i) as Hdis.
  { intros c i Hc Hi. apply (zero_uncovered h bs); [done|done|by apply Hz]. }
  constructor.
  - unfold pool_ok. rewrite Hst. apply Hh.
  - rewrite Hout; [apply Hh|]. intros Hc. pose proof (block_in_table b 0 Hb Hc). lia.
  - intros c [-> | Hc]%elem_of_cons; [done|by apply (holds_ok _ _ Hh)].
  - intros c i [-> | Hc]%elem_of_cons Hi; [by apply Hin|].
    rewrite Hout; [by apply (holds_marks _ _ Hh)|]. intros Hbi. by apply (Hdis c i).
  - intros i Hi Hfree. rewrite Hout by (apply Hfree; left). apply (holds_free _ _ Hh); [done|].
    intros c Hc. apply Hfree. by right.
  - intros c d i [-> | Hc]%elem_of_cons [-> | Hd]%elem_of_cons Hci Hdi; [done| | |].
    + by destruct (Hdis d i).
    + by destruct (Hdis c i).
    + by apply (holds_disjoint _ _ Hh c d i).
  - constructor; [|apply Hh]. intros Hbb.
    assert (covers b (first b)) as Hf.
    { unfold covers. destruct Hb as [_ Hk]. destruct (bkind b); cbn [blen]; lia. }
    by apply (Hdis b (first b)).
Qed.

Lemma holds_dealloc b h h' bs :
  holds h (b :: bs) → remarked b (λ _, 0) h h' → holds h' bs.
Proof.
  intros Hh [Hst _ Hin Hout].
  assert (b ∉ bs) as Hnot by (pose proof (holds_nodup _ _ Hh) as Hn; by inversion Hn).
  assert (∀ c i, c ∈ bs → covers c i → ¬ covers b i) as Hdis.
  { intros c i Hc Hci Hbi. destruct Hnot.
    rewrite (holds_disjoint _ _ Hh b c i); [done|left|by right|done|done]. }
  constructor.
  - unfold pool_ok. rewrite Hst. apply Hh.
  - rewrite Hout; [apply Hh|]. intros Hc.
    pose proof (block_in_table b 0 (holds_ok _ _ Hh b ltac:(left)) Hc). lia.
  - intros c Hc. apply (holds_ok _ _ Hh). by right.
  - intros c i Hc Hci. rewrite Hout by (by apply (Hdis c)). apply (holds_marks _ _ Hh); [by right|done].
  - intros i Hi Hfree. destruct (decide (first b <= i < first b + blen (bkind b))) as [Hbi|Hbi];
      [by apply Hin|]. rewrite Hout by done. apply (holds_free _ _ Hh); [done|].
    intros c [-> | Hc]%elem_of_cons; [done|by apply Hfree].
  - intros c d i Hc Hd. apply (holds_disjoint _ _ Hh); by right.
  - pose proof (holds_nodup _ _ Hh) as Hn. by inversion Hn.
Qed.

(** ** Marking and clearing *)

Lemma mark_small_remarked c v h :
  remarked (mkBlock c Small) (λ _, v) h (mark c v h).
Proof.
  constructor; [done|done| |]; unfold covers; cbn [first bkind blen]; intros i Hi;
    rewrite memsmall_mark; cells.
Qed.

Lemma mark_word_remarked c d h :
  remarked (mkBlock c Mid) (λ i, nth (Z.to_nat i) (le_bytes 4 d) 0) h (mark_word c d h).
Proof.
  constructor; [done|done| |]; unfold covers; cbn [first bkind blen]; intros i Hi;
    rewrite memsmall_word; cells.
Qed.

Lemma clear_mid_remarked c h : remarked (mkBlock c Mid) (λ _, 0) h (mark_range c 0 4 h).
Proof.
  constructor; [done|done| |]; unfold covers; cbn [first bkind blen]; intros i Hi;
    rewrite memsmall_range; cells.
Qed.

Lemma mark_large_remarked c n h :
  5 <= n → remarked (mkBlock c (Large n)) (pattern (Large n)) h (mark_large c n h).
Proof.
  intros Hn. unfold mark_large.
  constructor; [done|done| |]; unfold covers; cbn [first bkind blen pattern]; intros i Hi;
    rewrite !memsmall_mark, memsmall_range; cells.
Qed.

Lemma clear_large_cells n f m j h :
  5 <= n → 0 <= j <= n - 2 → n - 1 - j <= Z.of_nat m →
  (∀ i, j <= i < n → memsmall h (f + i) = pattern (Large n) i) →
  MemoryManagerStartAddress (clear_large m (f + j) h) = MemoryManagerStartAddress h ∧
  interrupts (clear_large m (f + j) h) = interrupts h ∧
  ∀ i, memsmall (clear_large m (f + j) h) i =
       if (f + j <=? i) && (i <? f + n) then 0 else memsmall h i.
Proof.
  intros Hn. revert j h. induction m as [|m IH]; intros j h Hj Hm Hp; [lia|]. cbn [clear_large].
  rewrite (Hp j) by lia. replace (f + j + 1) with (f + (j + 1)) by lia. rewrite (Hp (j + 1)) by lia.
  assert ((pattern (Large n) j =? 0xCC) && (pattern (Large n) (j + 1) =? 0xBB) = (j =? n - 2)) as ->.
  { cbn [pattern]. destruct (Z.eqb_spec j 0), (Z.eqb_spec j (n - 1)), (Z.eqb_spec j 1),
      (Z.eqb_spec j (n - 2)), (Z.eqb_spec (j + 1) 0), (Z.eqb_spec (j + 1) (n - 1)),
      (Z.eqb_spec (j + 1) 1), (Z.eqb_spec (j + 1) (n - 2)); done || (exfalso; lia). }
  destruct (Z.eqb_spec j (n - 2)) as [->|Hne].
  - split; [done|]. split; [done|]. intros i. rewrite !memsmall_mark. cells.
  - destruct (IH (j + 1) (mark (f + j) 0 h)) as (E1 & E2 & E3); [lia|lia| |].
    { intros i Hi. rewrite memsmall_mark. destruct (Z.eqb_spec (f + i) (f + j)); [lia|]. apply Hp. lia. }
    rewrite E1, E2. split; [done|]. split; [done|]. intros i. rewrite E3, memsmall_mark. cells.
Qed.

Lemma clear_large_remarked c n m h :
  5 <= n → n - 1 <= Z.of_nat m →
  (∀ i, 0 <= i < n → memsmall h (c + i) = pattern (Large n) i) →
  remarked (mkBlock c (Large n)) (λ _, 0) h (clear_large m c h).
Proof.
  intros Hn Hm Hp. destruct (clear_large_cells n c m 0 h Hn) as (E1 & E2 & E3); [lia|lia|done|].
  rewrite Z.add_0_r in *. constructor; [done|done| |]; unfold covers; cbn [first bkind blen];
    intros i Hi; rewrite E3; cells.
Qed.

(** The end of a block behind the last step of the loop is not cleared. *)
Lemma clear_large_short n f m j h :
  5 <= n → 0 <= j → j + Z.of_nat m <= n - 2 →
  (∀ i, j <= i < n → memsmall h (f + i) = pattern (Large n) i) →
  MemoryManagerStartAddress (clear_large m (f + j) h) = MemoryManagerStartAddress h ∧
  ∀ i, memsmall (clear_large m (f + j) h) i =
       if (f + j <=? i) && (i <? f + j + Z.of_nat m) then 0 else memsmall h i.
Proof.
  intros Hn. revert j h. induction m as [|m IH]; intros j h Hj Hm Hp; cbn [clear_large].
  { split; [done|]. intros i. cells. }
  rewrite (Hp j) by lia. replace (f + j + 1) with (f + (j + 1)) by lia. rewrite (Hp (j + 1)) by lia.
  assert ((pattern (Large n) j =? 0xCC) && (pattern (Large n) (j + 1) =? 0xBB) = false) as ->.
  { cbn [pattern]. destruct (Z.eqb_spec j 0), (Z.eqb_spec j (n - 1)), (Z.eqb_spec j 1),
      (Z.eqb_spec j (n - 2)), (Z.eqb_spec (j + 1) 0), (Z.eqb_spec (j + 1) (n - 1)),
      (Z.eqb_spec (j + 1) 1), (Z.eqb_spec (j + 1) (n - 2)); done || (exfalso; lia). }
  destruct (IH (j + 1) (mark (f + j) 0 h)) as (E1 & E3); [lia|lia| |].
  { intros i Hi. rewrite memsmall_mark. destruct (Z.eqb_spec (f + i) (f + j)); [lia|]. apply Hp. lia. }
  rewrite E1. split; [done|]. intros i. rewrite E3, memsmall_mark. cells.
Qed.

(** ** Allocation *)

(** The kind of block [t_malloc] chooses for a size. *)
Definition kind_for (size : Z) : option kind :=
  if size <? 0x4000 + 1 then Some Small
  else if size <? 0x10000 + 1 then Some Mid
  else if size <? 5 * 1024 * 1024 + 1 then Some (Large (needsectory size))
  else None.

(** Clearing the low bits of a word. *)
Lemma land_high k x :
  0 <= k <= 32 → 0 <= x < 2 ^ 32 → Z.land x (Z.shiftl (Z.ones (32 - k)) k) = x / 2 ^ k * 2 ^ k.
Proof.
  intros Hk Hx. rewrite <- (Z.shiftr_div_pow2 x k), <- (Z.shiftl_mul_pow2 _ k) by lia.
  apply Z.bits_inj'. intros n Hn. rewrite Z.land_spec.
  destruct (decide (n < k)); [by rewrite !Z.shiftl_spec_low, andb_false_r by lia|].
  rewrite !Z.shiftl_spec_high, Z.shiftr_spec by lia. replace (n - k + k) with n by lia.
  destruct (decide (n < 32)).
  - rewrite Z.ones_spec_low by lia. apply andb_true_r.
  - by rewrite (testbit_above x 32 n) by lia.
Qed.

Lemma land_sector x : 0 <= x < 2 ^ 32 → Z.land x 0xffffc000 = x / 0x4000 * 0x4000.
Proof. intros Hx. apply (land_high 14 x ltac:(lia) Hx). Qed.

Lemma land_page x : 0 <= x < 2 ^ 32 → Z.land x 0xffFFff00 = x / 0x100 * 0x100.
Proof. intros Hx. apply (land_high 8 x ltac:(lia) Hx). Qed.

(** [needsectory] as arithmetic. *)
Lemma needsectory_eq size : 0 <= size <= 0x500000 → needsectory size = size / 0x4000 + 1.
Proof.
  intros Hs. unfold needsectory. rewrite land_sector by lia.
  assert (0 <= size / 0x4000 <= 0x140) as Hd.
  { split; [apply Z.div_pos; lia|]. change 0x140 with (0x500000 / 0x4000). apply Z.div_le_mono; lia. }
  rewrite u32_id by (unfold word32; lia).
  replace (size / 0x4000 * 0x4000 + 0x4000) with ((size / 0x4000 + 1) * 0x4000) by lia.
  apply Z.div_mul. lia.
Qed.

Lemma kind_for_fits size k :
  0 <= size → kind_for size = Some k →
  size <= blen k * 0x4000 ∧ match k with Large n => 5 <= n <= 321 | _ => True end.
Proof.
  intros Hs. unfold kind_for. cells; intros [= <-]; cbn [blen]; try (split; [lia|done]).
  rewrite needsectory_eq by lia.
  pose proof (Z.div_mod size 0x4000 ltac:(lia)). pose proof (Z.mod_pos_bound size 0x4000 ltac:(lia)).
  lia.
Qed.

(** Room for a block of kind [k] at sector [c]. *)
Definition room (h : heap) (k : kind) (c : Z) : Prop :=
  ∀ i, covers (mkBlock c k) i → memsmall h i = 0.

(** The outcomes of looking for room for a block of kind [k]: no sector has it,
    or the block is marked at one that has. *)
Definition placed (h : heap) (k : kind) (r : Z * heap) : Prop :=
  (r = (0, h) ∧ ∀ c, 1 <= c < 0x400 → ¬ room h k c) ∨
  ∃ c h', r = (address c h, h') ∧ block_ok (mkBlock c k) ∧ room h k c ∧
    remarked (mkBlock c k) (pattern k) h h'.

Lemma scan_places h k test put :
  match k with Large n => 5 <= n <= 321 | _ => True end →
  (∀ c, test c = true ↔ room h k c) →
  (∀ c, remarked (mkBlock c k) (pattern k) h (put c)) →
  placed h k (match scan sectors 1 test with
              | Some c => (address c h, put c) | None => (0, h) end).
Proof.
  intros Hk Htest Hput. assert (Z.of_nat sectors = 0x3FF) as Hsec by reflexivity.
  destruct (scan _ _ _) as [c|] eqn:E; [right|left].
  - apply scan_some in E as [Hc E]. exists c, (put c). split; [done|].
    split; [split; [cbn; lia|done]|]. split; [by apply Htest|apply Hput].
  - split; [done|]. intros c Hc Hroom. apply Htest in Hroom.
    by rewrite (scan_none _ _ _ c E ltac:(lia)) in Hroom.
Qed.

Lemma word_is_room h c : word_is c 0 h = true ↔ room h Mid c.
Proof.
  rewrite word_is_cells. unfold room, covers. cbn [first bkind blen].
  assert (∀ j, 0 <= j < 4 → nth (Z.to_nat j) (le_bytes 4 0) 0 = 0) as Hz.
  { intros j Hj. by assert (j = 0 ∨ j = 1 ∨ j = 2 ∨ j = 3) as [-> | [-> | [-> | ->]]] by lia. }
  split; intros H i Hi.
  - replace i with (c + (i - c)) by lia. rewrite H by lia. apply Hz. lia.
  - rewrite H by lia. symmetry. by apply Hz.
Qed.

Lemma t_malloc_spec h size :
  0 <= size →
  match kind_for size with
  | None => t_malloc size h = (0, h)
  | Some k => placed h k (t_malloc size h)
  end.
Proof.
  intros Hs. pose proof (kind_for_fits size) as Hfit. unfold kind_for, t_malloc in *.
  destruct (size <? 0x4000 + 1); [|destruct (size <? 0x10000 + 1);
    [|destruct (size <? 5 * 1024 * 1024 + 1)]]; [| | |done].
  - apply scan_places; [done| |intros c; exact (mark_small_remarked c 0xAA h)].
    intros c. rewrite Z.eqb_eq. unfold room, covers. cbn [first bkind blen]. split.
    + intros E i Hi. by replace i with c by lia.
    + intros E. apply E. lia.
  - apply scan_places; [done|intros c; apply word_is_room|].
    intros c. exact (mark_word_remarked c 0xB8BADCFE h).
  - destruct (Hfit _ Hs eq_refl) as [_ Hn].
    apply scan_places; [done| |intros c; apply mark_large_remarked; lia].
    intros c. rewrite free_from_cells. unfold room, covers. cbn [first bkind blen].
    by rewrite Z2Nat.id by lia.
Qed.

(** ** Release *)

Lemma address_index h c :
  pool_ok h → 0 <= c < 0x540 →
  u32 (address c h - MemoryManagerStartAddress h) = c * 0x4000 ∧
  (Z.land (c * 0x4000) 0xffffc000 =? c * 0x4000) = true ∧ c * 0x4000 / 0x4000 = c.
Proof.
  intros (Hp & Hl & _) Hc. unfold address.
  rewrite (u32_id (_ + _)) by (unfold word32; lia).
  rewrite u32_id by (unfold word32; lia). rewrite land_sector by lia.
  rewrite Z.div_mul by lia. rewrite Z.eqb_refl. split; [lia|done].
Qed.

Lemma t_free_at h c :
  pool_ok h → 0 <= c < 0x540 →
  t_free (address c h) h =
    if memsmall h c =? 0xAA then mark c 0 h
    else if word_is c 0xB8BADCFE h then mark_range c 0 4 h
    else if word_is c 0xFFFFCCBB h then clear_large (Z.to_nat (0x400 - c)) c h
    else h.
Proof.
  intros Hp Hc. destruct (address_index h c Hp Hc) as (E1 & E2 & E3).
  unfold t_free. by rewrite E1, E2, E3.
Qed.

Lemma word_is_first c d h : word_is c d h = true → memsmall h c = d mod 256.
Proof. rewrite word_is_cells. intros H. specialize (H 0 ltac:(lia)). by rewrite Z.add_0_r in H. Qed.

Lemma first_covered b : block_ok b → covers b (first b).
Proof. intros [_ Hk]. unfold covers. destruct (bkind b); cbn [blen]; lia. Qed.

Lemma large_marks h bs c n :
  holds h bs → mkBlock c (Large n) ∈ bs → ∀ i, 0 <= i < n → memsmall h (c + i) = pattern (Large n) i.
Proof.
  intros Hh Hb i Hi. rewrite (holds_marks _ _ Hh _ _ Hb) by (unfold covers; cbn; lia).
  cbn [first bkind]. f_equal. lia.
Qed.

(** The marks of a large block, but of five sectors, lead to the clearing loop. *)
Lemma t_free_large h bs c n :
  holds h bs → mkBlock c (Large n) ∈ bs → n ≠ 5 →
  t_free (address c h) h = clear_large (Z.to_nat (0x400 - c)) c h.
Proof.
  intros Hh Hb H5. destruct (holds_ok _ _ Hh _ Hb) as [Hc Hn]. cbn [first bkind] in Hc, Hn.
  rewrite t_free_at by (try apply Hh; lia). pose proof (large_marks h bs c n Hh Hb) as Hp.
  pose proof (Hp 0 ltac:(lia)) as H0. rewrite Z.add_0_r in H0. rewrite H0. cbn [pattern Z.eqb orb].
  change (0xBB =? 0xAA) with false. cbn match.
  destruct (word_is c 0xB8BADCFE h) eqn:E.
  { apply word_is_first in E. rewrite H0 in E. done. }
  assert (word_is c 0xFFFFCCBB h = true) as ->; [|done].
  apply word_is_cells. intros j Hj. rewrite Hp by lia. cbn [pattern].
  assert (j = 0 ∨ j = 1 ∨ j = 2 ∨ j = 3) as [-> | [-> | [-> | ->]]] by lia; cells.
Qed.

(** Which test of [t_free] a block's first mark passes. *)
Lemma t_free_remarked h bs b :
  holds h bs → b ∈ bs →
  (match bkind b with Large n => n ≠ 5 ∧ first b + n <= 0x401 | _ => True end) →
  remarked b (λ _, 0) h (t_free (address (first b) h) h).
Proof.
  intros Hh Hb Hk. pose proof (holds_ok _ _ Hh b Hb) as Hok.
  pose proof (λ i, holds_marks _ _ Hh b i Hb) as Hm.
  destruct b as [c k]. cbn [first bkind] in *. destruct k as [| |n].
  - rewrite t_free_at by (try apply Hh; destruct Hok; cbn in *; lia).
    rewrite (Hm c) by (unfold covers; cbn; lia). apply mark_small_remarked.
  - rewrite t_free_at by (try apply Hh; destruct Hok; cbn in *; lia).
    rewrite (Hm c), Z.sub_diag by (unfold covers; cbn; lia). cbn [pattern]. change (_ =? 0xAA) with false.
    assert (word_is c 0xB8BADCFE h = true) as ->; [|apply clear_mid_remarked].
    apply word_is_cells. intros j Hj. rewrite Hm by (unfold covers; cbn; lia).
    cbn [pattern]. f_equal. f_equal. lia.
  - destruct Hk as [H5 Hend]. destruct Hok as [Hc Hn]. cbn [first bkind] in Hc, Hn.
    rewrite (t_free_large h bs c n) by done.
    apply clear_large_remarked; [lia|lia|by apply (large_marks h bs)].
Qed.

(** A block that reaches past the sectors the loop visits loses the marks of
    those only. *)
Lemma t_free_past h bs c n :
  holds h bs → mkBlock c (Large n) ∈ bs → n ≠ 5 → 0x401 < c + n →
  let h' := t_free (address c h) h in
  MemoryManagerStartAddress h' = MemoryManagerStartAddress h ∧
  ∀ i, memsmall h' i = if (c <=? i) && (i <? 0x400) then 0 else memsmall h i.
Proof.
  intros Hh Hb H5 Hend. cbv zeta. destruct (holds_ok _ _ Hh _ Hb) as [Hc Hn]. cbn [first bkind] in Hc, Hn.
  rewrite (t_free_large h bs c n) by done.
  destruct (clear_large_short n c (Z.to_nat (0x400 - c)) 0 h) as [E1 E2];
    [lia|lia|lia|by apply (large_marks h bs)|].
  rewrite Z.add_0_r in *. split; [done|]. intros i. rewrite E2. by replace (c + Z.of_nat _) with 0x400 by lia.
Qed.

(** A block of five sectors fails every test: it is never released. *)
Lemma t_free_five h bs c :
  holds h bs → mkBlock c (Large 5) ∈ bs → t_free (address c h) h = h.
Proof.
  intros Hh Hb. pose proof (holds_ok _ _ Hh _ Hb) as Hok. destruct Hok as [Hc _]. cbn [first] in Hc.
  rewrite t_free_at by (try apply Hh; lia).
  pose proof (large_marks h bs c 5 Hh Hb) as Hp.
  pose proof (Hp 0 ltac:(lia)) as H0. rewrite Z.add_0_r in H0. rewrite H0. cbn [pattern Z.eqb orb].
  change (0xBB =? 0xAA) with false. cbn match.
  destruct (word_is c 0xB8BADCFE h) eqn:E.
  { apply word_is_first in E. rewrite H0 in E. done. }
  destruct (word_is c 0xFFFFCCBB h) eqn:E'; [|done].
  rewrite word_is_cells in E'. specialize (E' 3 ltac:(lia)). rewrite Hp in E' by lia. done.
Qed.

(** ** [malloc] and [free] *)

(** The same octets at the addresses in [[lo, hi)]. *)
Definition agree (lo hi : Z) (h h' : heap) : Prop := ∀ a, lo <= a < hi → ram h' a = ram h a.

(** [h'] keeps the table of [h]. *)
Definition same_table (h h' : heap) : Prop :=
  MemoryManagerStartAddress h' = MemoryManagerStartAddress h ∧
  agree (MemoryManagerStartAddress h) (MemoryManagerStartAddress h + 0x4000) h h'.

Lemma same_table_cell h h' i : same_table h h' → 0 <= i < 0x4000 → memsmall h' i = memsmall h i.
Proof. intros [E H] Hi. unfold memsmall. rewrite E. apply H. lia. Qed.

Lemma holds_same_table h h' bs : same_table h h' → holds h bs → holds h' bs.
Proof.
  intros Ht Hh. pose proof (λ i, same_table_cell h h' i Ht) as Hc.
  constructor; try apply Hh.
  - unfold pool_ok. rewrite (proj1 Ht). apply Hh.
  - rewrite Hc by lia. apply Hh.
  - intros b i Hb Hi. rewrite Hc; [by apply Hh|].
    pose proof (block_in_table b i (holds_ok _ _ Hh b Hb) Hi). lia.
  - intros i Hi Hf. rewrite Hc by lia. by apply Hh.
Qed.

Lemma store32_out a v h x : x < a ∨ a + 4 <= x → ram (store32 a v h) x = ram h x.
Proof. intros Hx. unfold store32, set_ram. cbn [ram]. by apply mem_copy_out. Qed.

Lemma load32_store a v h : 0 <= v < 2 ^ 32 → load32 a (store32 a v h) = v.
Proof.
  intros Hv. unfold load32, store32, set_ram. cbn [ram].
  rewrite (mem_read_ext _ (mem_of_list (le_bytes 4 v)) a 0).
  - pose proof (mem_read_of_list (le_bytes 4 v)) as E. rewrite length_le_bytes in E.
    rewrite E. by apply le_val_bytes.
  - intros i Hi. rewrite mem_copy_in by lia. f_equal. lia.
Qed.

Lemma load32_ext a h h' : agree a (a + 4) h h' → load32 a h' = load32 a h.
Proof. intros H. unfold load32. f_equal. apply mem_read_ext. intros i Hi. apply H. lia. Qed.

(** The size [malloc] asks [t_malloc] for, and the kind of block it gets. *)
Definition padded (size : Z) : Z := (size + 0x200) / 0x100 * 0x100.

Lemma padded_bounds size : size + 0x101 <= padded size <= size + 0x200.
Proof.
  unfold padded. pose proof (Z.div_mod (size + 0x200) 0x100 ltac:(lia)).
  pose proof (Z.mod_pos_bound (size + 0x200) 0x100 ltac:(lia)). lia.
Qed.

Lemma address_ok h c :
  pool_ok h → 0 <= c < 0x540 →
  address c h = MemoryManagerStartAddress h + c * 0x4000 ∧
  Z.land (u32 (address c h + 0x100)) 0xffFFff00 = address c h + 0x100.
Proof.
  intros (Hp & Hl & [d Hd]) Hc. unfold address. rewrite (u32_id (_ + _)) by (unfold word32; lia).
  split; [done|]. rewrite u32_id by (unfold word32; lia). rewrite land_page by lia.
  rewrite Hd. replace (d * 0x4000 + c * 0x4000 + 0x100) with ((d * 0x40 + c * 0x40 + 1) * 0x100) by lia.
  by rewrite Z.div_mul by lia.
Qed.

(** The block [b] was returned as [q]: its header names it. *)
Record returned (b : block) (q : Z) (h : heap) : Prop := {
  returned_at : q = address (first b) h + 0x100;
  returned_block : load32 (q - 8) h = address (first b) h;
  returned_magic : load32 (q - 4) h = 0x1234567
}.

Lemma holds_interrupts v h bs : holds h bs → holds (set_interrupts v h) bs.
Proof. by apply holds_same_table. Qed.

(** [malloc] when [t_malloc] marks block [mkBlock c k]. *)
Lemma malloc_eval h c k h1 size :
  pool_ok h → 0 <= size → size + 0x200 < 2 ^ 32 → block_ok (mkBlock c k) →
  t_malloc (padded size) (set_interrupts false h) = (address c h, h1) →
  malloc size h =
    (address c h + 0x100,
     set_interrupts true (store32 (address c h + 0xfc) 0x1234567
                            (store32 (address c h + 0xf8) (address c h) h1))).
Proof.
  intros Hp Hs Ho [Hc _] Ht. cbn [first] in Hc. unfold malloc. rewrite u32_id by (unfold word32; lia).
  rewrite land_page by lia. change ((size + 0x200) / 0x100 * 0x100) with (padded size). rewrite Ht.
  destruct (address_ok h c Hp ltac:(lia)) as [Ea ->]. destruct Hp as (Hp & Hl & _).
  rewrite !u32_id by (unfold word32; lia).
  replace (address c h + 0x100 - 4) with (address c h + 0xfc) by lia.
  by replace (address c h + 0x100 - 8) with (address c h + 0xf8) by lia.
Qed.

(** What a successful [malloc] leaves: the block is live, its header is in
    place, and no octet outside the marks and the header has changed. *)
Record malloced (h : heap) (bs : list block) (b : block) (q : Z) (h' : heap) : Prop := {
  malloced_holds : holds h' (b :: bs);
  malloced_room : ∀ i, covers b i → memsmall h i = 0;
  malloced_returned : returned b q h';
  malloced_flag : interrupts h' = true;
  malloced_start : MemoryManagerStartAddress h' = MemoryManagerStartAddress h;
  malloced_frame : ∀ a, ¬ covers b (a - MemoryManagerStartAddress h) →
    ¬ (q - 8 <= a < q) → ram h' a = ram h a
}.

Lemma malloc_marks h bs c k h1 size :
  holds h bs → 0 <= size → size + 0x200 < 2 ^ 32 → block_ok (mkBlock c k) →
  room h k c → remarked (mkBlock c k) (pattern k) (set_interrupts false h) h1 →
  t_malloc (padded size) (set_interrupts false h) = (address c h, h1) →
  malloced h bs (mkBlock c k) (address c h + 0x100) (malloc size h).2.
Proof.
  intros Hh Hs Ho Hb Hroom Hrem Ht. rewrite (malloc_eval h c k h1) by (done || apply Hh).
  pose proof (holds_alloc (mkBlock c k) _ h1 bs (holds_interrupts false h bs Hh) Hb Hroom Hrem) as Hh1.
  destruct Hrem as [Hst _ _ Hout]. cbn [snd] in *. change (MemoryManagerStartAddress (set_interrupts false h))
    with (MemoryManagerStartAddress h) in Hst.
  pose proof (holds_pool _ _ Hh) as Hp. destruct (address_ok h c Hp) as [Ea _]; [destruct Hb; cbn in *; lia|].
  assert (1 <= c < 0x400) as Hc by apply Hb. destruct Hp as (Hp & Hl & Hdv).
  set (a := address c h) in *. set (h2 := store32 (a + 0xf8) a h1).
  constructor.
  - refine (holds_same_table h1 _ _ _ Hh1). split; [done|]. intros x Hx. rewrite Hst in Hx.
    cbn [ram set_interrupts]. unfold h2. by rewrite !store32_out by lia.
  - exact Hroom.
  - assert (address c (set_interrupts true (store32 (a + 0xfc) 0x1234567 h2)) = a) as Eaddr.
    { unfold address. cbn [MemoryManagerStartAddress set_interrupts store32 set_ram h2]. by rewrite Hst. }
    constructor; cbn [first]; rewrite ?Eaddr; [done| |].
    + transitivity (load32 (a + 0xf8) h2); [|apply load32_store; lia].
      replace (a + 0x100 - 8) with (a + 0xf8) by lia. apply load32_ext. intros x Hx.
      cbn [ram set_interrupts]. by rewrite store32_out by lia.
    + replace (a + 0x100 - 4) with (a + 0xfc) by lia.
      apply (load32_store (a + 0xfc) 0x1234567 h2). lia.
  - done.
  - exact Hst.
  - intros x Hx Hq. cbn [ram set_interrupts]. unfold h2. rewrite !store32_out by lia.
    specialize (Hout _ Hx). unfold memsmall in Hout. rewrite Hst in Hout. cbn [ram set_interrupts] in Hout.
    change (MemoryManagerStartAddress (set_interrupts false h)) with (MemoryManagerStartAddress h) in Hout.
    by replace (MemoryManagerStartAddress h + (x - MemoryManagerStartAddress h)) with x in Hout by lia.
Qed.

Lemma free_eval b bs q h :
  holds h (b :: bs) → returned b q h →
  free q h = set_interrupts true (t_free (address (first b) h) (set_interrupts false h)).
Proof.
  intros Hh [Eq Eb Em]. pose proof (holds_pool _ _ Hh) as Hp.
  assert (1 <= first b < 0x400) as Hc by (apply (holds_ok _ _ Hh); left).
  destruct (address_ok h (first b) Hp ltac:(lia)) as [Ea _]. destruct Hp as (Hp & Hl & _).
  unfold free. destruct (Z.eqb_spec q 0); [lia|].
  rewrite !u32_id by (unfold word32; lia). unfold load32 in *. cbn [ram set_interrupts].
  by rewrite Eb, Em.
Qed.

Lemma init_holds a h :
  pool_ok (MemoryManagementInitialization a h) → holds (MemoryManagementInitialization a h) [].
Proof.
  intros Hp. unfold MemoryManagementInitialization in *. constructor.
  - exact Hp.
  - by rewrite memsmall_mark.
  - by intros b ?%elem_of_nil.
  - by intros b i ?%elem_of_nil.
  - intros i Hi _. rewrite memsmall_mark, memsmall_range. cells.
  - by intros b c i ?%elem_of_nil.
  - constructor.
Qed.

Lemma empty_room h k c : holds h [] → block_ok (mkBlock c k) → room h k c.
Proof.
  intros Hh Hb i Hi. apply (holds_free _ _ Hh); [by apply (block_in_table _ _ Hb)|].
  by intros b ?%elem_of_nil.
Qed.

Definition has_room (h : heap) (k : kind) : Prop := ∃ c, 1 <= c < 0x400 ∧ room h k c.

(** [malloc] succeeds when a block of the kind it needs fits. *)
Lemma malloc_success h bs size k :
  holds h bs → 0 <= size → size + 0x200 < 2 ^ 32 → kind_for (padded size) = Some k →
  has_room h k →
  ∃ c, block_ok (mkBlock c k) ∧ (malloc size h).1 = address c h + 0x100 ∧
    malloced h bs (mkBlock c k) (address c h + 0x100) (malloc size h).2.
Proof.
  intros Hh Hs Ho Hk (c0 & Hc0 & Hr0). pose proof (padded_bounds size) as Hpad.
  pose proof (t_malloc_spec (set_interrupts false h) (padded size) ltac:(lia)) as Ht. rewrite Hk in Ht.
  destruct Ht as [[_ Hno]|(c & h1 & Ht & Hb & Hroom & Hrem)]; [by destruct (Hno c0 Hc0)|].
  exists c. split; [done|]. split.
  - by rewrite (malloc_eval h c k h1) by (done || apply Hh).
  - by apply (malloc_marks h bs c k h1).
Qed.

Lemma returned_kept b q h h2 :
  same_table h h2 → agree (q - 8) q h h2 → returned b q h → returned b q h2.
Proof.
  intros [Est _] Hag [Eq Eb Em].
  assert (address (first b) h2 = address (first b) h) as Ea by (unfold address; by rewrite Est).
  constructor; rewrite ?Ea; [done| |].
  - rewrite <- Eb. apply load32_ext. intros x Hx. apply Hag. lia.
  - rewrite <- Em. apply load32_ext. intros x Hx. apply Hag. lia.
Qed.

(** The blocks [t_free] can release: not of five sectors, and not reaching past
    the sectors its clearing loop visits. *)
Definition releasable (b : block) : Prop :=
  match bkind b with Large n => n ≠ 5 ∧ first b + n <= 0x401 | _ => True end.

(** A heap just initialised at the firmware's start address, over arbitrary RAM. *)
Definition sample_heap : heap :=
  MemoryManagementInitialization 0x01A00000 (mkHeap (λ a, a mod 251) 0 true).

Lemma sample_holds : holds sample_heap [].
Proof. apply init_holds. split; [done|]. split; [done|]. by exists 0x680. Qed.

Lemma sample_room k : block_ok (mkBlock 1 k) → has_room sample_heap k.
Proof. intros Hb. exists 1. split; [lia|]. by apply empty_room; [apply sample_holds|]. Qed.

(** ** Properties *)

(** There is always an octet behind the requested ones in the block. *)
Lemma malloc_slack h bs size k :
  holds h bs → 0 <= size → size + 0x200 < 2 ^ 32 → kind_for (padded size) = Some k → has_room h k →
  ∃ c, (malloc size h).1 = address c h + 0x100 ∧ (malloc size h).1 + size < address c h + blen k * 0x4000.
Proof.
  intros Hh Hs Ho Hk Hr. destruct (malloc_success h bs size k) as (c & _ & Eq & _); [done..|].
  exists c. rewrite Eq. split; [done|]. pose proof (padded_bounds size) as Hpad.
  destruct (kind_for_fits (padded size) k) as [Hfit _]; [lia|done|]. lia.
Qed.

(** C15: [malloc] of a size that does not overflow, when a run of free sectors is
    left for it, returns memory inside a block of its own: the block was free,
    meets no live block, holds the requested size after the 256-octet header
    area, and apart from its marks and header no octet of the RAM changes. *)
Theorem malloc_allocates h bs size k :
  holds h bs → 0 <= size → size + 0x200 < 2 ^ 32 → kind_for (padded size) = Some k →
  has_room h k →
  ∃ c, let b := mkBlock c k in let q := (malloc size h).1 in
    q = address c h + 0x100 ∧ q + size <= address c h + blen k * 0x4000 ∧
    malloced h bs b q (malloc size h).2 ∧ ∀ d i, d ∈ bs → covers d i → ¬ covers b i.
Proof.
  intros Hh Hs Ho Hk Hr. destruct (malloc_success h bs size k) as (c & Hb & Eq & Hm); [done..|].
  exists c. cbv zeta. rewrite Eq. pose proof (padded_bounds size) as Hpad.
  destruct (kind_for_fits (padded size) k) as [Hfit _]; [lia|done|].
  split; [done|]. split; [lia|]. split; [done|].
  intros d i Hd Hdi Hbi. pose proof (malloced_room _ _ _ _ _ Hm i Hbi) as Hz.
  by apply (zero_uncovered h bs d i).
Qed.

Lemma malloc_allocates_witness :
  ∃ c, let b := mkBlock c Small in let q := (malloc 100 sample_heap).1 in
    q = address c sample_heap + 0x100 ∧ q + 100 <= address c sample_heap + blen Small * 0x4000 ∧
    malloced sample_heap [] b q (malloc 100 sample_heap).2 ∧
    ∀ d i, d ∈ [] → covers d i → ¬ covers b i.
Proof.
  apply (malloc_allocates sample_heap [] 100 Small); [apply sample_holds|lia|lia|reflexivity|].
  apply sample_room. split; [cbn; lia|done].
Defined.

(** C18: [free] of a live block whose header is intact enables interrupts and
    does the following, whatever the program stored meanwhile outside the table.
    A block of one or four sectors, and one of six or more that ends at sector
    0x400 or before, is released: the other blocks stay live, and only its marks
    change.  A block of five sectors is not released: no octet changes and it
    stays live.  Of a block that ends behind sector 0x400 only the marks below
    sector 0x400 are cleared. *)
Theorem free_releases h h2 b bs q :
  holds h (b :: bs) → returned b q h → same_table h h2 → agree (q - 8) q h h2 →
  interrupts (free q h2) = true ∧
  (releasable b →
     holds (free q h2) bs ∧
     ∀ a, ¬ covers b (a - MemoryManagerStartAddress h) → ram (free q h2) a = ram h2 a) ∧
  (bkind b = Large 5 → holds (free q h2) (b :: bs) ∧ ∀ a, ram (free q h2) a = ram h2 a) ∧
  (∀ n, bkind b = Large n → n ≠ 5 → 0x401 < first b + n →
     ∀ i, memsmall (free q h2) i = if (first b <=? i) && (i <? 0x400) then 0 else memsmall h2 i).
Proof.
  intros Hh Hret Ht Hag. pose proof (holds_same_table h h2 _ Ht Hh) as Hh2.
  rewrite (free_eval b bs q h2 Hh2) by by apply (returned_kept b q h).
  pose proof (holds_interrupts false h2 _ Hh2) as Hh2'.
  change (address (first b) h2) with (address (first b) (set_interrupts false h2)). split_and!; [done| | |].
  - intros Hrel. pose proof (t_free_remarked _ _ b Hh2' ltac:(left) Hrel) as Hrem.
    set (h3 := t_free _ _) in *. split.
    + apply holds_interrupts. by apply (holds_dealloc b (set_interrupts false h2)).
    + intros a Ha. destruct Hrem as [Est _ _ Hout]. specialize (Hout _ Ha). unfold memsmall in Hout.
      rewrite Est in Hout. cbn [MemoryManagerStartAddress set_interrupts ram] in Hout |- *.
      rewrite (proj1 Ht) in Hout.
      by replace (MemoryManagerStartAddress h + (a - MemoryManagerStartAddress h)) with a in Hout by lia.
  - intros H5. destruct b as [c k]. cbn [bkind first] in *. subst k.
    rewrite (t_free_five _ _ c Hh2') by left. split; [by apply holds_interrupts|done].
  - intros n Hn H5 Hend i. destruct b as [c k]. cbn [bkind first] in *. subst k.
    destruct (t_free_past _ _ c n Hh2' ltac:(left) H5 Hend) as [_ E]. apply (E i).
Qed.

(** One live block, for the instance below. *)
Lemma sample_malloc :
  ∃ c, malloced sample_heap [] (mkBlock c Small) (address c sample_heap + 0x100)
                (malloc 100 sample_heap).2.
Proof.
  destruct (malloc_success sample_heap [] 100 Small) as (c & _ & _ & H);
    [apply sample_holds|lia|lia|done|apply sample_room; split; [cbn; lia|done]|]. by exists c.
Qed.

Lemma free_releases_witness :
  ∃ c, let q := address c sample_heap + 0x100 in let h := (malloc 100 sample_heap).2 in
    interrupts (free q h) = true ∧ holds (free q h) [] ∧
    ∀ a, ¬ covers (mkBlock c Small) (a - MemoryManagerStartAddress h) → ram (free q h) a = ram h a.
Proof.
  destruct sample_malloc as [c Hm]. exists c. cbv zeta.
  destruct (free_releases (malloc 100 sample_heap).2 (malloc 100 sample_heap).2 (mkBlock c Small) []
              (address c sample_heap + 0x100)) as (Hi & Hr & _); [apply Hm|apply Hm|split; done|done|].
  split; [exact Hi|exact (Hr I)].
Defined.

(** Memory of 65280 to 81407 octets is never given back.  Its five sectors
    are marked BB CC FF CC BB, while [t_free] looks for BB CC FF FF: after
    [free] the block is still live. *)
Theorem free_leaks_five_sectors h bs size :
  holds h bs → 0xFF00 <= size < 0x13E00 → has_room h (Large 5) →
  ∃ c, let q := (malloc size h).1 in let h1 := (malloc size h).2 in
    q = address c h + 0x100 ∧
    ∀ h2, same_table h1 h2 → agree (q - 8) q h1 h2 → holds (free q h2) (mkBlock c (Large 5) :: bs).
Proof.
  intros Hh Hs Hr.
  assert (kind_for (padded size) = Some (Large 5)) as Hk.
  { assert (0x10100 <= padded size <= 0x13F00) as Hp.
    { unfold padded. assert (0x101 <= (size + 0x200) / 0x100 <= 0x13F); [|lia]. split.
      - apply Z.div_le_lower_bound; lia.
      - apply Z.lt_succ_r, Z.div_lt_upper_bound; lia. }
    unfold kind_for. cells. rewrite needsectory_eq by lia. do 2 f_equal.
    assert (padded size / 0x4000 = 4) as ->; [|done]. symmetry.
    apply (Z.div_unique_pos _ _ _ (padded size - 0x10000)); lia. }
  destruct (malloc_success h bs size (Large 5)) as (c & _ & Eq & Hm); [done|lia|lia|done|done|].
  exists c. cbv zeta. rewrite Eq. split; [done|]. intros h2 Ht Hag.
  pose proof (holds_same_table _ h2 _ Ht (malloced_holds _ _ _ _ _ Hm)) as Hh2.
  rewrite (free_eval (mkBlock c (Large 5)) bs _ h2 Hh2)
    by (apply (returned_kept _ _ (malloc size h).2); [done|done|apply Hm]).
  change (address _ h2) with (address c (set_interrupts false h2)).
  rewrite (t_free_five _ (mkBlock c (Large 5) :: bs)) by (by apply holds_interrupts || left).
  by apply holds_interrupts, holds_interrupts.
Qed.

Lemma free_leaks_five_sectors_witness :
  ∃ c, let q := (malloc 0x10000 sample_heap).1 in let h1 := (malloc 0x10000 sample_heap).2 in
    q = address c sample_heap + 0x100 ∧
    ∀ h2, same_table h1 h2 → agree (q - 8) q h1 h2 → holds (free q h2) [mkBlock c (Large 5)].
Proof.
  apply (free_leaks_five_sectors sample_heap [] 0x10000); [apply sample_holds|lia|].
  apply sample_room. split; cbn; lia.
Defined.

(** When no sector run is left, or the size is above 5 MB, [malloc] does not
    return a null pointer: it returns address 0x100 and stores its header
    below it, over whatever is there. *)
Theorem malloc_exhausted h size :
  0 <= size → size + 0x200 < 2 ^ 32 →
  match kind_for (padded size) with Some k => ¬ has_room h k | None => True end →
  (malloc size h).1 = 0x100 ∧
  ∀ a, ram (malloc size h).2 a =
       if (0xf8 <=? a) && (a <? 0x100)
       then nth (Z.to_nat (a - 0xf8)) [0; 0; 0; 0; 0x67; 0x45; 0x23; 0x01] 0 else ram h a.
Proof.
  intros Hs Ho Hno. pose proof (padded_bounds size) as Hpad.
  assert (t_malloc (padded size) (set_interrupts false h) = (0, set_interrupts false h)) as Ht.
  { pose proof (t_malloc_spec (set_interrupts false h) (padded size) ltac:(lia)) as Ht.
    destruct (kind_for _) as [k|]; [|done]. destruct Ht as [[Ht _]|(c & h1 & _ & [Hc _] & Hroom & _)]; [done|].
    destruct Hno. exists c. split; [exact Hc|exact Hroom]. }
  unfold malloc. rewrite u32_id by (unfold word32; lia). rewrite land_page by lia.
  change ((size + 0x200) / 0x100 * 0x100) with (padded size). rewrite Ht. split; [done|]. intros a.
  change (Z.land (u32 (0 + 0x100)) 0xffFFff00) with 0x100. cbn [snd ram set_interrupts store32 set_ram].
  change (u32 (0x100 - 4)) with 0xfc. change (u32 (0x100 - 8)) with 0xf8.
  destruct (decide (0xf8 <= a < 0x100)) as [Ha|Ha].
  - assert (∃ n : nat, (n < 8)%nat ∧ a = 0xf8 + Z.of_nat n) as (n & Hn & ->)
      by (exists (Z.to_nat (a - 0xf8)); lia).
    do 8 (destruct n as [|n]; [reflexivity|]). lia.
  - rewrite !mem_copy_out by lia. cells.
Qed.

Lemma malloc_exhausted_witness :
  (malloc 0x600000 sample_heap).1 = 0x100 ∧
  ∀ a, ram (malloc 0x600000 sample_heap).2 a =
       if (0xf8 <=? a) && (a <? 0x100)
       then nth (Z.to_nat (a - 0xf8)) [0; 0; 0; 0; 0x67; 0x45; 0x23; 0x01] 0 else ram sample_heap a.
Proof. apply (malloc_exhausted sample_heap 0x600000); [lia|lia|exact I]. Defined.

(** Releasing a null pointer leaves interrupts disabled. *)
Theorem free_null h : interrupts (free 0 h) = false.
Proof. reflexivity. Qed.

(** A size within 512 octets of 4 GB wraps: one sector is handed out for it. *)
Theorem malloc_wraps h bs size :
  holds h bs → 2 ^ 32 - 0x200 <= size < 2 ^ 32 → has_room h Small →
  ∃ c, (malloc size h).1 = address c h + 0x100 ∧ block_ok (mkBlock c Small).
Proof.
  intros Hh Hs (c0 & Hc0 & Hr0).
  assert (0 <= u32 (size + 0x200) < 0x200) as Hu.
  { unfold u32. replace (size + 0x200) with (size + 0x200 - 2 ^ 32 + 1 * 2 ^ 32) by lia.
    rewrite Z_mod_plus_full, Z.mod_small by lia. lia. }
  unfold malloc. rewrite land_page by lia. set (t := u32 (size + 0x200) / 0x100 * 0x100).
  assert (0 <= t < 0x4001) as Htr.
  { unfold t. pose proof (Z.div_mod (u32 (size + 0x200)) 0x100 ltac:(lia)).
    pose proof (Z.mod_pos_bound (u32 (size + 0x200)) 0x100 ltac:(lia)). lia. }
  pose proof (t_malloc_spec (set_interrupts false h) t ltac:(lia)) as Ht.
  assert (kind_for t = Some Small) as Ek by (unfold kind_for; cells). rewrite Ek in Ht.
  destruct Ht as [[_ Hno]|(c & h1 & Ht & Hb & _ & _)]; [by destruct (Hno c0 Hc0)|].
  rewrite Ht. exists c. split; [|done].
  destruct (address_ok h c) as [_ E]; [apply Hh|destruct Hb as [Hb _]; cbn in Hb; lia|exact E].
Qed.

End Allocator.
