(* ===== verification/CallbackTimer.v ===== *)
(** * Callback timers ([src/lib/cromwell/CallbackTimer.c])

    Timers are nodes of a singly linked list on the heap.  The state has the
    nodes that are allocated; reading or writing any other address is undefined
    behaviour.  [getMS] returns the time that [updateTime] stored, an argument
    here; a handler is a name, recorded when it is called, and is taken not to
    change the list: [forceFlushLog], the only handler the firmware registers,
    calls none of these functions.  The reference is
    the list of timers ([chain]) and what one round does to it ([round]). *)

From Stdlib Require Import Sorted.
From S2P Require Import Prelude.
From stdpp Require Import list gmap.

Open Scope Z_scope.

Module CallbackTimer.

Definition loc := positive.

Record TimerInstance_t := mkTimer {
  id : Z;
  lastExec_ms : Z;
  interval_ms : Z;
  singleRun : bool;
  markForDeletion : bool;
  handler : Z;
  nextTimer : option loc
}.

Record timers := mkTimers {
  nodes : gmap loc TimerInstance_t;
  firstInstance : option loc;
  initDone : bool;
  calls : list Z             (* the handlers called, in order *)
}.

Definition set_next (p : option loc) (t : TimerInstance_t) : TimerInstance_t :=
  mkTimer (id t) (lastExec_ms t) (interval_ms t) (singleRun t) (markForDeletion t) (handler t) p.

Definition set_nodes (n : gmap loc TimerInstance_t) (s : timers) : timers :=
  mkTimers n (firstInstance s) (initDone s) (calls s).
Definition set_first (p : option loc) (s : timers) : timers :=
  mkTimers (nodes s) p (initDone s) (calls s).
Definition add_call (h : Z) (s : timers) : timers :=
  mkTimers (nodes s) (firstInstance s) (initDone s) (calls s ++ [h]).

(** Reading, writing and releasing a node. *)
Definition deref (p : loc) : ST timers TimerInstance_t := λ s,
  match nodes s !! p with Some t => Ok (t, s) | None => UB end.
Definition assign (p : loc) (f : TimerInstance_t → TimerInstance_t) : ST timers unit := λ s,
  match nodes s !! p with
  | Some t => Ok (tt, set_nodes (<[p := f t]> (nodes s)) s)
  | None => UB
  end.
Definition release (p : loc) : ST timers unit := λ s,
  match nodes s !! p with
  | Some _ => Ok (tt, set_nodes (delete p (nodes s)) s)
  | None => UB
  end.

(** ** Operations *)

Definition callbackTimer_init (s : timers) : timers :=
  mkTimers (nodes s) None true (calls s).

(** The loops walk the list; the number of allocated nodes bounds a walk. *)
Definition walk (s : timers) : nat := S (size (nodes s)).

Fixpoint last_timer (fuel : nat) (p : loc) : ST timers (loc * TimerInstance_t) :=
  match fuel with
  | O => ub
  | S fuel' =>
      t ← deref p;
      match nextTimer t with
      | Some q => last_timer fuel' q
      | None => mret (p, t)
      end
  end.

(** [newTimer] is the address [calloc] returns, if any. *)
Definition newCallbackTimer (newTimer : option loc) (now h interval : Z) (singleUseTimer : bool)
    : ST timers Z :=
  ready ← gets initDone;
  if negb ready then mret (-1) else
  match newTimer with
  | None => mret (-1)
  | Some p =>
      modify (λ s, set_nodes (<[p := mkTimer 0 0 0 false false 0 None]> (nodes s)) s);;
      first ← gets firstInstance;
      timerId ← match first with
                | Some f =>
                    n ← gets walk;
                    '(l, t) ← last_timer n f;
                    assign l (set_next (Some p));;
                    mret (u32 (id t + 1))
                | None => modify (set_first (Some p));; mret 0
                end;
      assign p (λ t, mkTimer timerId now (u16 interval) singleUseTimer (markForDeletion t) h
                             (nextTimer t));;
      mret 0
  end.

Fixpoint stop_loop (fuel : nat) (i : Z) (target previous : option loc) : ST timers unit :=
  ready ← gets initDone;
  match (if (ready : bool) then target else None) with
  | None => mret tt
  | Some p =>
      match fuel with
      | O => ub
      | S fuel' =>
          t ← deref p;
          if id t =? u32 i then
            first ← gets firstInstance;
            (if decide (first = Some p) then modify (set_first (nextTimer t))
             else match previous with
                  | Some q => assign q (set_next (nextTimer t))
                  | None => ub
                  end);;
            release p
          else stop_loop fuel' i (nextTimer t) (Some p)
      end
  end.

Definition stopCallbackTimer (i : Z) : ST timers unit :=
  n ← gets walk;
  first ← gets firstInstance;
  stop_loop n i first first.

Definition expired (now : Z) (t : TimerInstance_t) : bool :=
  interval_ms t <=? u32 (now - lastExec_ms t).

(** What a call of the handler leaves in the node. *)
Definition fired (now : Z) (t : TimerInstance_t) : TimerInstance_t :=
  mkTimer (id t) now (interval_ms t) (singleRun t) (singleRun t || markForDeletion t)
          (handler t) (nextTimer t).

Fixpoint execute_loop (fuel : nat) (now : Z) (current : option loc) : ST timers unit :=
  ready ← gets initDone;
  match (if (ready : bool) then current else None) with
  | None => mret tt
  | Some p =>
      match fuel with
      | O => ub
      | S fuel' =>
          t ← deref p;
          (if expired now t then modify (add_call (handler t));; assign p (fired now) else mret tt);;
          t ← deref p;
          execute_loop fuel' now (nextTimer t)
      end
  end.

Fixpoint delete_loop (fuel : nat) (current previous : option loc) : ST timers unit :=
  match current with
  | None => mret tt
  | Some p =>
      match fuel with
      | O => ub
      | S fuel' =>
          t ← deref p;
          if markForDeletion t then stopCallbackTimer (id t);; delete_loop fuel' previous previous
          else delete_loop fuel' (nextTimer t) current
      end
  end.

Definition callbackTimer_execute (now : Z) : ST timers unit :=
  first ← gets firstInstance;
  n ← gets walk;
  execute_loop n now first;;
  current ← gets firstInstance;
  delete_loop (2 * n) current first.

(** ** The reference: a list of timers *)

(** From [p] the nodes form the list [l]. *)
Fixpoint chain (h : gmap loc TimerInstance_t) (p : option loc) (l : list (loc * TimerInstance_t))
    : Prop :=
  match l with
  | [] => p = None
  | (q, t) :: l' => p = Some q ∧ h !! q = Some t ∧ chain h (nextTimer t) l'
  end.

(** A timer without its link. *)
Definition data (x : loc * TimerInstance_t) : TimerInstance_t := set_next None x.2.

(** The timers of a state, in list order; the identifiers grow along the list. *)
Definition lists (s : timers) (l : list (loc * TimerInstance_t)) : Prop :=
  initDone s = true ∧ chain (nodes s) (firstInstance s) l ∧ NoDup l.*1 ∧
  StronglySorted Z.lt (id <$> l.*2) ∧ Forall word32 (id <$> l.*2).

Definition tick (now : Z) (t : TimerInstance_t) : TimerInstance_t :=
  if expired now t then fired now t else t.

(** One round: every expired timer is called, and the single-use ones go. *)
Definition round (now : Z) (ts : list TimerInstance_t) : list TimerInstance_t :=
  filter (λ t, markForDeletion t = false) (tick now <$> ts).

Definition due (now : Z) (ts : list TimerInstance_t) : list Z :=
  handler <$> filter (λ t, expired now t = true) ts.

(** ** Chains *)

Lemma chain_lookup h p l q t : chain h p l → (q, t) ∈ l → h !! q = Some t.
Proof.
  revert p. induction l as [|[r u] l IH]; intros p; [by intros _ ?%elem_of_nil|].
  intros (_ & Hu & Hc) [[= <- <-]|Hin]%elem_of_cons; [done|by eapply IH].
Qed.

Lemma chain_tail h p l1 q t l2 : chain h p (l1 ++ (q, t) :: l2) → chain h (nextTimer t) l2.
Proof.
  revert p. induction l1 as [|[r u] l1 IH]; intros p; [by intros (_ & _ & ?)|].
  intros (_ & _ & Hc). by apply (IH _ Hc).
Qed.

(** A node outside the chain can change. *)
Lemma chain_frame h h' p l :
  chain h p l → (∀ q, q ∈ l.*1 → h' !! q = h !! q) → chain h' p l.
Proof.
  revert p. induction l as [|[r u] l IH]; intros p; [done|].
  intros (Hp & Hu & Hc) Hf. split; [done|]. split.
  - rewrite Hf; [done|]. cbn. left.
  - apply IH; [done|]. intros q Hq. apply Hf. cbn. by right.
Qed.

(** A node of the chain can change as long as it keeps its link. *)
Lemma chain_update h p l1 q t u l2 :
  chain h p (l1 ++ (q, t) :: l2) → NoDup (l1 ++ (q, t) :: l2).*1 → nextTimer u = nextTimer t →
  chain (<[q := u]> h) p (l1 ++ (q, u) :: l2).
Proof.
  revert p. induction l1 as [|[r v] l1 IH]; intros p; cbn [app fmap list_fmap fst chain].
  - intros (Hp & _ & Hc) Hnd Hn. apply NoDup_cons in Hnd as [Hnin _].
    split; [done|]. split; [by rewrite lookup_insert_eq|]. rewrite Hn.
    apply (chain_frame h); [done|]. intros r Hr. rewrite lookup_insert_ne; [done|]. by intros ->.
  - intros (Hp & Hv & Hc) Hnd Hn. apply NoDup_cons in Hnd as [Hnin Hnd].
    split; [done|]. split; [|by apply IH].
    rewrite lookup_insert_ne; [done|]. intros ->. apply Hnin.
    change (r ∈ (l1 ++ (r, t) :: l2).*1). rewrite fmap_app. set_solver.
Qed.

(** Unlinking the node after [(q, t)]. *)
Lemma chain_unlink h p l1 q t r u l2 :
  chain h p (l1 ++ (q, t) :: (r, u) :: l2) → NoDup (l1 ++ (q, t) :: (r, u) :: l2).*1 →
  chain (delete r (<[q := set_next (nextTimer u) t]> h)) p
        (l1 ++ (q, set_next (nextTimer u) t) :: l2).
Proof.
  revert p. induction l1 as [|[v w] l1 IH]; intros p; cbn [app fmap list_fmap fst chain].
  - intros (Hp & _ & _ & _ & Hc) Hnd. apply NoDup_cons in Hnd as [Hq Hnd].
    apply NoDup_cons in Hnd as [Hr _].
    split; [done|]. split.
    { rewrite lookup_delete_ne; [by rewrite lookup_insert_eq|]. intros ->. apply Hq. left. }
    cbn [nextTimer set_next]. apply (chain_frame h); [done|]. intros x Hx.
    rewrite lookup_delete_ne by (intros ->; done).
    rewrite lookup_insert_ne; [done|]. intros ->. apply Hq. by right.
  - intros (Hp & Hv & Hc) Hnd. apply NoDup_cons in Hnd as [Hnin Hnd].
    change (v ∉ (l1 ++ (q, t) :: (r, u) :: l2).*1) in Hnin. rewrite fmap_app in Hnin.
    split; [done|]. split; [|by apply IH].
    rewrite lookup_delete_ne by (intros ->; set_solver).
    rewrite lookup_insert_ne by (intros ->; set_solver). done.
Qed.

Lemma chain_length h p l : chain h p l → NoDup l.*1 → (length l <= size h)%nat.
Proof.
  intros Hc Hnd. rewrite <- (length_fmap fst), <- size_dom.
  rewrite <- (size_list_to_set (C := gset loc) l.*1) by done. apply subseteq_size.
  intros q Hq. apply elem_of_list_to_set, list_elem_of_fmap in Hq as ([r t] & -> & Hin).
  apply elem_of_dom. exists t. by apply (chain_lookup h p l).
Qed.

(** ** Running the loops *)

Lemma deref_run s p t : nodes s !! p = Some t → deref p s = Ok (t, s).
Proof. unfold deref. by intros ->. Qed.
Lemma assign_run s p t f :
  nodes s !! p = Some t → assign p f s = Ok (tt, set_nodes (<[p := f t]> (nodes s)) s).
Proof. unfold assign. by intros ->. Qed.
Lemma release_run s p t :
  nodes s !! p = Some t → release p s = Ok (tt, set_nodes (delete p (nodes s)) s).
Proof. unfold release. by intros ->. Qed.

Definition tick_node (now : Z) (x : loc * TimerInstance_t) : loc * TimerInstance_t :=
  (x.1, tick now x.2).

Lemma app_cons_assoc {A} (l1 : list A) x l2 : l1 ++ x :: l2 = (l1 ++ [x]) ++ l2.
Proof. by rewrite <- app_assoc. Qed.

(** The call of one timer. *)
Lemma execute_step now fuel pre q t l s :
  initDone s = true → chain (nodes s) (firstInstance s) (pre ++ (q, t) :: l) →
  NoDup (pre ++ (q, t) :: l).*1 →
  ∃ s', execute_loop (S fuel) now (Some q) s = execute_loop fuel now (nextTimer t) s' ∧
    initDone s' = true ∧ firstInstance s' = firstInstance s ∧
    chain (nodes s') (firstInstance s) (pre ++ (q, tick now t) :: l) ∧
    calls s' = calls s ++ due now [t].
Proof.
  intros Hi Hc Hnd. pose proof (chain_lookup _ _ _ q t Hc ltac:(set_solver)) as Hq.
  cbn [execute_loop]. rewrite (bind_run _ _ s true s) by (unfold gets; by rewrite Hi).
  rewrite (bind_run _ _ s t s) by by apply deref_run. unfold due, tick.
  destruct (expired now t) eqn:E.
  - set (s1 := set_nodes (<[q := fired now t]> (nodes s)) (add_call (handler t) s)).
    rewrite (bind_run _ _ s tt s1).
    2:{ rewrite (bind_run _ _ s tt (add_call (handler t) s)) by done.
      by apply (assign_run (add_call (handler t) s) q t). }
    rewrite (bind_run _ _ s1 (fired now t) s1) by (apply deref_run; apply lookup_insert_eq).
    exists s1. rewrite filter_cons_True by done. split_and!; try done.
    by apply (chain_update _ _ pre q t).
  - rewrite (bind_run _ _ s tt s) by done. rewrite (bind_run _ _ s t s) by by apply deref_run.
    exists s. rewrite filter_cons_False by congruence. split_and!; try done. by rewrite app_nil_r.
Qed.

Lemma execute_loop_spec now l : ∀ pre fuel s p,
  initDone s = true → chain (nodes s) (firstInstance s) (pre ++ l) → chain (nodes s) p l →
  NoDup (pre ++ l).*1 → (length l <= fuel)%nat →
  ∃ s', execute_loop fuel now p s = Ok (tt, s') ∧ initDone s' = true ∧
    firstInstance s' = firstInstance s ∧
    chain (nodes s') (firstInstance s) (pre ++ (tick_node now <$> l)) ∧
    calls s' = calls s ++ due now l.*2.
Proof.
  induction l as [|[q t] l IH]; intros pre fuel s p Hi Hc Hp Hnd Hf.
  - cbn in Hp. subst p. exists s. unfold due. cbn [fmap list_fmap filter list_filter].
    rewrite !app_nil_r in *. split_and!; try done.
    destruct fuel; cbn [execute_loop]; by rewrite (bind_run _ _ s true s) by (unfold gets; by rewrite Hi).
  - destruct Hp as (-> & _ & _). cbn [length] in Hf. destruct fuel as [|fuel]; [lia|].
    destruct (execute_step now fuel pre q t l s Hi Hc Hnd) as (s1 & -> & Hi1 & Hf1 & Hc1 & Hca1).
    assert (nextTimer (tick now t) = nextTimer t) as Hnx by (unfold tick; by destruct (expired now t)).
    rewrite app_cons_assoc in Hc1.
    destruct (IH (pre ++ [(q, tick now t)]) fuel s1 (nextTimer t)) as (s' & Hrun & ? & ? & Hc' & Hca).
    + done.
    + by rewrite Hf1.
    + rewrite <- Hnx. rewrite <- app_cons_assoc in Hc1. by apply (chain_tail _ _ _ _ _ _ Hc1).
    + rewrite <- app_cons_assoc. rewrite !fmap_app in *. done.
    + lia.
    + exists s'. rewrite Hrun, H, H0, Hca, Hca1, Hf1. split_and!; try done.
      * rewrite Hf1 in Hc'. by rewrite <- app_cons_assoc in Hc'.
      * rewrite <- app_assoc. f_equal. unfold due. rewrite <- fmap_app, <- filter_app. done.
Qed.

(** Stopping the timer after [(q, t)] unlinks and releases it. *)
Lemma stop_loop_spec i q t r u l2 l1 : ∀ fuel s target previous,
  initDone s = true → chain (nodes s) target (l1 ++ (q, t) :: (r, u) :: l2) →
  firstInstance s ≠ Some r → q ≠ r → id u = u32 i →
  (∀ x, x ∈ l1 ++ [(q, t)] → id x.2 ≠ u32 i) → (length l1 + 2 <= fuel)%nat →
  stop_loop fuel i target previous s =
    Ok (tt, set_nodes (delete r (<[q := set_next (nextTimer u) t]> (nodes s))) s).
Proof.
  induction l1 as [|[v w] l1 IH]; intros fuel s target previous Hi Hc Hfst Hqr Hu Hids Hf;
    cbn [length app] in Hf, Hc; (destruct fuel as [|fuel]; [lia|]).
  - destruct Hc as (-> & Ht & Hnx & Hr & _). destruct fuel as [|fuel]; [lia|].
    cbn [stop_loop]. rewrite (bind_run _ _ s true s) by (unfold gets; by rewrite Hi).
    rewrite (bind_run _ _ s t s) by by apply deref_run.
    destruct (Z.eqb_spec (id t) (u32 i)) as [E|_]; [by destruct (Hids (q, t) ltac:(set_solver))|].
    rewrite Hnx. rewrite (bind_run _ _ s true s) by (unfold gets; by rewrite Hi).
    rewrite (bind_run _ _ s u s) by by apply deref_run. rewrite Hu, Z.eqb_refl.
    rewrite (bind_run _ _ s (firstInstance s) s) by done. rewrite decide_False by done.
    rewrite (bind_run _ _ s tt (set_nodes (<[q := set_next (nextTimer u) t]> (nodes s)) s))
      by by apply assign_run.
    etrans; [apply (release_run _ r u)|reflexivity].
    cbn [nodes set_nodes]. by rewrite lookup_insert_ne by done.
  - destruct Hc as (-> & Hw & Hc).
    cbn [stop_loop]. rewrite (bind_run _ _ s true s) by (unfold gets; by rewrite Hi).
    rewrite (bind_run _ _ s w s) by by apply deref_run.
    destruct (Z.eqb_spec (id w) (u32 i)) as [E|_]; [by destruct (Hids (v, w) ltac:(set_solver))|].
    apply IH; try done; [|lia]. intros x Hx. apply Hids. set_solver.
Qed.

Lemma delete_loop_some fuel p previous s t :
  nodes s !! p = Some t →
  delete_loop (S fuel) (Some p) previous s =
    (if markForDeletion t then stopCallbackTimer (id t);; delete_loop fuel previous previous
     else delete_loop fuel (nextTimer t) (Some p)) s.
Proof. intros Hp. cbn [delete_loop]. by rewrite (bind_run _ _ s t s) by by apply deref_run. Qed.

Lemma chain_first h p l1 q t l2 :
  chain h p (l1 ++ (q, t) :: l2) → ∃ f, p = Some f ∧ f ∈ (l1 ++ [(q, t)]).*1.
Proof.
  destruct l1 as [|[r u] l1]; cbn; [intros (-> & _)|intros (-> & _)]; eexists; split; try done; set_solver.
Qed.

(** Removing the marked timer after [(q, t)]. *)
Lemma stop_next pre q t r u rest s :
  initDone s = true → chain (nodes s) (firstInstance s) (pre ++ (q, t) :: (r, u) :: rest) →
  NoDup (pre ++ (q, t) :: (r, u) :: rest).*1 →
  NoDup (id <$> (pre ++ (q, t) :: (r, u) :: rest).*2) → word32 (id u) →
  stopCallbackTimer (id u) s =
    Ok (tt, set_nodes (delete r (<[q := set_next (nextTimer u) t]> (nodes s))) s).
Proof.
  intros Hi Hc Hnd Hids Hw. pose proof (chain_length _ _ _ Hc Hnd) as Hlen.
  destruct (chain_first _ _ _ _ _ _ Hc) as (f & Hf & Hfin).
  unfold stopCallbackTimer. rewrite (bind_run _ _ s (walk s) s), (bind_run _ _ s (firstInstance s) s) by done.
  rewrite !fmap_app in Hnd. rewrite !fmap_app in Hids. cbn [fmap list_fmap fst snd] in Hnd, Hids.
  apply NoDup_app in Hnd as (_ & Hd1 & Hd2). apply NoDup_cons in Hd2 as [Hd2 _].
  apply NoDup_app in Hids as (_ & Hi1 & Hi2). apply NoDup_cons in Hi2 as [Hi2 _].
  apply (stop_loop_spec (id u) q t r u rest pre); try done.
  - rewrite Hf. intros [= ->]. rewrite fmap_app in Hfin. cbn in Hfin.
    apply elem_of_app in Hfin as [Hin|Hin]; [apply (Hd1 r Hin); set_solver|].
    apply list_elem_of_singleton in Hin as ->. apply Hd2. left.
  - intros ->. apply Hd2. left.
  - by rewrite u32_id.
  - intros x Hx. rewrite u32_id by done. intros E.
    apply elem_of_app in Hx as [Hx|Hx%list_elem_of_singleton]; [|subst x; apply Hi2; cbn in E; rewrite E; left].
    apply (Hi1 (id x.2)); [|rewrite E; set_solver].
    apply list_elem_of_fmap. exists x.2. split; [done|]. apply list_elem_of_fmap. by exists x.
  - unfold walk. rewrite length_app in Hlen. cbn [length] in Hlen. lia.
Qed.

Abbreviation unmarked := (λ t : TimerInstance_t, markForDeletion t = false).

Lemma delete_loop_spec rest : ∀ pre q t fuel s,
  initDone s = true → chain (nodes s) (firstInstance s) (pre ++ (q, t) :: rest) →
  NoDup (pre ++ (q, t) :: rest).*1 → NoDup (id <$> (pre ++ (q, t) :: rest).*2) →
  Forall word32 (id <$> rest.*2) → markForDeletion t = false → (2 * length rest <= fuel)%nat →
  ∃ s' l', delete_loop fuel (nextTimer t) (Some q) s = Ok (tt, s') ∧ initDone s' = true ∧
    firstInstance s' = firstInstance s ∧ calls s' = calls s ∧
    chain (nodes s') (firstInstance s) l' ∧ NoDup l'.*1 ∧
    data <$> l' = (data <$> pre) ++ data (q, t) :: filter unmarked (data <$> rest).
Proof.
  induction rest as [|[r u] rest IH]; intros pre q t fuel s Hi Hc Hnd Hids Hw Hm Hf.
  - pose proof (chain_tail _ _ _ _ _ _ Hc) as Hnx. cbn in Hnx. rewrite Hnx.
    exists s, (pre ++ [(q, t)]). split; [by destruct fuel|]. split_and!; try done. by rewrite fmap_app.
  - pose proof (chain_tail _ _ _ _ _ _ Hc) as (Hnx & Hr & _). rewrite Hnx.
    cbn [length] in Hf. destruct fuel as [|[|fuel]]; [lia..|].
    rewrite (delete_loop_some _ _ _ _ u) by done. apply Forall_cons_1 in Hw as [Hwu Hw].
    destruct (markForDeletion u) eqn:Emu.
    + set (t' := set_next (nextTimer u) t).
      set (s1 := set_nodes (delete r (<[q := t']> (nodes s))) s).
      rewrite (bind_run _ _ s tt s1) by by apply (stop_next pre q t r u rest).
      pose proof (chain_unlink _ _ _ _ _ _ _ _ Hc Hnd) as Hc1.
      assert (nodes s1 !! q = Some t') as Hq by (apply (chain_lookup _ _ _ _ _ Hc1); set_solver).
      rewrite (delete_loop_some _ _ _ _ t') by done. cbn [markForDeletion t' set_next]. rewrite Hm.
      destruct (IH pre q t' fuel s1) as (s' & l' & Hrun & Hrest); try done; [| |lia|].
      * rewrite !fmap_app in *. cbn in *.
        apply (sublist_NoDup _ (pre.*1 ++ q :: r :: rest.*1)); [done|].
        apply sublist_app; [done|]. do 2 constructor. done.
      * rewrite !fmap_app in *. cbn in *.
        apply (sublist_NoDup _ ((id <$> pre.*2) ++ id t :: id u :: (id <$> rest.*2))); [done|].
        apply sublist_app; [done|]. do 2 constructor. done.
      * exists s', l'. split; [done|]. cbn [fmap list_fmap]. rewrite filter_cons_False; [done|].
        cbn. congruence.
    + rewrite app_cons_assoc in Hc.
      destruct (IH (pre ++ [(q, t)]) r u (S fuel) s) as (s' & l' & Hrun & Hi' & Hf' & Hca & Hc' & Hnd' & Hd);
        try done; [by rewrite <- app_cons_assoc|by rewrite <- app_cons_assoc|lia|].
      exists s', l'. split_and!; try done. rewrite Hd, fmap_app, <- app_assoc. cbn [fmap list_fmap].
      rewrite filter_cons_True by done. done.
Qed.

(** ** One round *)

Lemma data_tick now x : data (tick_node now x) = tick now (data x).
Proof. destruct x as [q t]. unfold data, tick_node, tick, expired. cbn. by destruct (_ <=? _). Qed.

Lemma due_data now l : due now (data <$> l) = due now l.*2.
Proof.
  induction l as [|[q t] l IH]; [done|]. unfold due in *. cbn [fmap list_fmap snd].
  change (data (q, t)) with (set_next None t).
  assert (expired now (set_next None t) = expired now t) as E by done.
  destruct (decide (expired now t = true)).
  - rewrite !filter_cons_True by (by rewrite ?E). cbn. by rewrite IH.
  - rewrite !filter_cons_False by (by rewrite ?E). done.
Qed.

Lemma id_tick now t : id (tick now t) = id t.
Proof. unfold tick. by destruct (expired now t). Qed.

Lemma ids_data l : id <$> l.*2 = id <$> (data <$> l).
Proof. induction l as [|[q t] l IH]; [done|]. cbn. f_equal. done. Qed.

Lemma ids_tick now l : id <$> (tick_node now <$> l).*2 = id <$> l.*2.
Proof. induction l as [|[q t] l IH]; [done|]. cbn. by rewrite id_tick, IH. Qed.

Lemma sublist_Forall {A} (P : A → Prop) l k : sublist l k → Forall P k → Forall P l.
Proof.
  intros Hs. rewrite !Forall_forall. intros Hk x Hx. apply Hk. by apply (elem_of_sublist l).
Qed.

Lemma sorted_sublist (l k : list Z) : sublist l k → StronglySorted Z.lt k → StronglySorted Z.lt l.
Proof.
  induction 1 as [|x l k Hs IH|x l k Hs IH]; [done| |];
    intros Hk; apply StronglySorted_inv in Hk as [Hk Hx].
  - constructor; [by apply IH|]. by apply (sublist_Forall _ _ _ Hs).
  - by apply IH.
Qed.

Lemma sorted_NoDup (l : list Z) : StronglySorted Z.lt l → NoDup l.
Proof.
  induction 1 as [|x l Hs IH Hx]; constructor; [|done].
  intros Hin. rewrite Forall_forall in Hx. specialize (Hx x Hin). lia.
Qed.

Lemma sublist_round now ts : sublist (id <$> round now ts) (id <$> ts).
Proof.
  unfold round. induction ts as [|t ts IH]; [constructor|]. cbn [fmap list_fmap].
  rewrite filter_cons. destruct (decide _); cbn [fmap list_fmap].
  - rewrite id_tick. by constructor.
  - by constructor.
Qed.

(** What is left of a round is again a list of timers. *)
Lemma lists_round now s s' l l' :
  lists s l → initDone s' = true → chain (nodes s') (firstInstance s') l' → NoDup l'.*1 →
  data <$> l' = round now (data <$> l) → lists s' l'.
Proof.
  intros (_ & _ & _ & Hs & Hw) Hi Hc Hnd Hd. split; [done|]. split; [done|]. split; [done|].
  rewrite ids_data in *. rewrite Hd. split.
  - apply (sorted_sublist _ _ (sublist_round now _) Hs).
  - apply (sublist_Forall _ _ _ (sublist_round now _) Hw).
Qed.

Definition sample_timers : timers :=
  mkTimers (<[1%positive := mkTimer 0 0 1000 false false 7 (Some 2%positive)]>
             (<[2%positive := mkTimer 1 0 10 true false 8 (Some 3%positive)]>
               (<[3%positive := mkTimer 2 0 10 false false 9 None]> ∅)))
           (Some 1%positive) true [].

Definition sample_list : list (loc * TimerInstance_t) :=
  [(1%positive, mkTimer 0 0 1000 false false 7 (Some 2%positive));
   (2%positive, mkTimer 1 0 10 true false 8 (Some 3%positive));
   (3%positive, mkTimer 2 0 10 false false 9 None)].

Lemma sample_lists : lists sample_timers sample_list.
Proof.
  split; [done|]. split; [done|]. split; [apply (bool_decide_unpack _); by vm_compute|].
  split; [repeat constructor|]. apply (bool_decide_unpack _). by vm_compute.
Qed.

(** C37: a call of [callbackTimer_execute] in which the first timer of the list
    does not expire as a single-use one calls the handlers of the expired
    timers, in order, removes the single-use ones among them, touches only
    allocated nodes and leaves a well-formed list with the same other timers. *)
Theorem callbackTimer_execute_round now s l :
  lists s l → match l with (_, t) :: _ => markForDeletion (tick now t) = false | [] => True end →
  ∃ s' l', callbackTimer_execute now s = Ok (tt, s') ∧ lists s' l' ∧
    data <$> l' = round now (data <$> l) ∧ calls s' = calls s ++ due now (data <$> l).
Proof.
  intros Hl Hfirst. pose proof Hl as (Hi & Hc & Hnd & Hs & Hw).
  pose proof (chain_length _ _ _ Hc Hnd) as Hlen. unfold callbackTimer_execute.
  rewrite (bind_run _ _ s (firstInstance s) s), (bind_run _ _ s (walk s) s) by done.
  destruct (execute_loop_spec now l [] (walk s) s (firstInstance s) Hi Hc Hc Hnd)
    as (s1 & Hrun & Hi1 & Hf1 & Hc1 & Hca1); [unfold walk; lia|].
  rewrite (bind_run _ _ s tt s1), (bind_run _ _ s1 (firstInstance s1) s1) by done.
  cbn [app] in Hc1. rewrite due_data, <- Hca1, Hf1.
  assert ((tick_node now <$> l).*1 = l.*1) as Hl1 by (clear; induction l as [|[]]; cbn; congruence).
  destruct l as [|[q t] l].
  - cbn in Hc1. rewrite Hc1. exists s1, []. split; [by destruct (2 * walk s)%nat|]. split_and!; try done.
    apply (lists_round now s s1 [] []); try done. by rewrite Hf1.
  - cbn [fmap list_fmap] in Hc1. pose proof Hc1 as (Hfst & Hq & _). rewrite Hfst.
    unfold walk. cbn [length] in Hlen.
    replace (2 * S (size (nodes s)))%nat with (S (2 * size (nodes s) + 1)) by lia.
    rewrite (delete_loop_some _ _ _ _ (tick now t)) by done. rewrite Hfirst.
    destruct (delete_loop_spec (tick_node now <$> l) [] q (tick now t) (2 * size (nodes s) + 1) s1)
      as (s' & l' & Hrun' & Hi' & Hf' & Hca' & Hc' & Hnd' & Hd'); try done.
    + by rewrite Hf1.
    + by rewrite <- Hl1 in Hnd.
    + change (NoDup (id <$> (tick_node now <$> (q, t) :: l).*2)). rewrite ids_tick. by apply sorted_NoDup.
    + rewrite ids_tick. by apply Forall_cons_1 in Hw as [_ Hw].
    + rewrite length_fmap. lia.
    + exists s', l'. rewrite Hca'. split; [exact Hrun'|].
      assert (data <$> l' = round now (data <$> (q, t) :: l)) as Hd.
      { rewrite Hd'. unfold round. cbn [fmap list_fmap app]. rewrite <- (data_tick now (q, t)).
        rewrite filter_cons_True by done. do 2 f_equal.
        rewrite <- !list_fmap_compose. apply list_fmap_ext. intros _ x _. apply data_tick. }
      split; [|done]. apply (lists_round now s s' ((q, t) :: l) l'); try done. rewrite Hf'. by rewrite Hf1 in Hc' |- *.
Qed.

Lemma callbackTimer_execute_round_witness :
  ∃ s' l', callbackTimer_execute 20 sample_timers = Ok (tt, s') ∧ lists s' l' ∧
    data <$> l' = round 20 (data <$> sample_list) ∧ calls s' = [8; 9].
Proof.
  apply (callbackTimer_execute_round 20 sample_timers sample_list); [apply sample_lists|reflexivity].
Defined.

(** When the first timer of the list is a single-use one and expires, the
    deletion pass goes on from the node it has just released: a use after
    free. *)
Theorem callbackTimer_execute_first_single now s q t l :
  lists s ((q, t) :: l) → expired now t = true → singleRun t = true →
  callbackTimer_execute now s = UB.
Proof.
  intros (Hi & Hc & Hnd & Hs & Hw) He Hsr.
  pose proof (chain_length _ _ _ Hc Hnd) as Hlen. unfold callbackTimer_execute.
  rewrite (bind_run _ _ s (firstInstance s) s), (bind_run _ _ s (walk s) s) by done.
  destruct (execute_loop_spec now ((q, t) :: l) [] (walk s) s (firstInstance s) Hi Hc Hc Hnd)
    as (s1 & Hrun & Hi1 & Hf1 & Hc1 & _); [unfold walk; lia|].
  rewrite (bind_run _ _ s tt s1), (bind_run _ _ s1 (firstInstance s1) s1) by done.
  cbn [app fmap list_fmap tick_node fst snd] in Hc1. destruct Hc1 as (Hfst & Hq & _).
  assert (tick now t = fired now t) as Et by (unfold tick; by rewrite He).
  rewrite Hf1, Hfst. change (nodes s1 !! q = Some (tick now t)) in Hq. rewrite Et in Hq. apply Forall_cons_1 in Hw as [Hw _].
  unfold walk. replace (2 * S (size (nodes s)))%nat with (S (S (2 * size (nodes s)))) by lia.
  rewrite (delete_loop_some _ _ _ _ (fired now t)) by done. cbn [markForDeletion fired]. rewrite Hsr. cbn [orb].
  rewrite (bind_run _ _ s1 tt (set_nodes (delete q (nodes s1)) (set_first (nextTimer t) s1))).
  - cbn [delete_loop]. unfold mbind, ST_mbind, deref. cbn [nodes set_nodes]. by rewrite lookup_delete_eq.
  - unfold stopCallbackTimer. rewrite (bind_run _ _ s1 (walk s1) s1), (bind_run _ _ s1 (firstInstance s1) s1) by done.
    unfold walk. cbn [stop_loop]. rewrite (bind_run _ _ s1 true s1) by (unfold gets; by rewrite Hi1).
    rewrite Hf1, Hfst. rewrite (bind_run _ _ s1 (fired now t) s1) by by apply deref_run.
    cbn [id fired] in *. rewrite u32_id, Z.eqb_refl by done.
    rewrite (bind_run _ _ s1 (firstInstance s1) s1) by done. rewrite Hf1, Hfst, decide_True by done.
    rewrite (bind_run _ _ s1 tt (set_first (nextTimer t) s1)) by done.
    etrans; [apply (release_run _ q (fired now t)); exact Hq|reflexivity].
Qed.

Lemma callbackTimer_execute_first_single_witness :
  callbackTimer_execute 20
    (mkTimers (<[2%positive := mkTimer 1 0 10 true false 8 None]> ∅) (Some 2%positive) true []) = UB.
Proof.
  apply (callbackTimer_execute_first_single 20 _ 2%positive (mkTimer 1 0 10 true false 8 None) []);
    [|reflexivity|reflexivity].
  split; [done|]. split; [done|]. split; [apply (bool_decide_unpack _); by vm_compute|].
  split; [repeat constructor|]. apply (bool_decide_unpack _). by vm_compute.
Defined.

End CallbackTimer.
