(* ===== verification/Strtol.v ===== *)
(** * Numbers in text ([src/lib/cromwell/strtol.c], [src/include/ctype.h])

    A string is the list of its octets before the terminating zero; reading at
    the end gives the zero.  [strtol] is compared with the value of the digits
    it consumes, cut to the range of a [long]. *)

From S2P Require Import Prelude.

Module Strtol.

Definition LONG_MAX : Z := 2 ^ 31 - 1.
Definition LONG_MIN : Z := - 2 ^ 31.

Definition isdigit (c : Z) : bool := (48 <=? u8 c) && (u8 c <=? 57).
Definition isalpha (c : Z) : bool := u32 ((c .| 32) - 97) <=? 25.
Definition isupper (c : Z) : bool := u32 (c - 65) <? 26.
Definition isspace (c : Z) : bool :=
  (c =? 32) || (c =? 12) || (c =? 10) || (c =? 13) || (c =? 9) || (c =? 11).

(** [*s] and [s + n]. *)
Definition at_ (s : list Z) (n : nat) : Z := nth n s 0.

Fixpoint skip_space (s : list Z) : list Z :=
  match s with
  | c :: s' => if isspace c then skip_space s' else s
  | [] => []
  end.

(** The value of a character as a digit, if it is a letter or a digit. *)
Definition digit (c : Z) : option Z :=
  if isdigit c then Some (c - 48)
  else if isalpha c then Some (c - (if isupper c then 65 - 10 else 97 - 10))
  else None.

(** The conversion loop; [any] is -1 once the value is out of range. *)
Fixpoint convert (base cutoff cutlim : Z) (s : list Z) (acc any : Z) : Z * Z :=
  match s with
  | [] => (acc, any)
  | c :: s' =>
      match digit c with
      | None => (acc, any)
      | Some c =>
          if base <=? c then (acc, any)
          else if (any <? 0) || (cutoff <? acc) || ((acc =? cutoff) && (cutlim <? c))
          then convert base cutoff cutlim s' acc (-1)
          else convert base cutoff cutlim s' (u32 (u32 (acc * base) + c)) 1
      end
  end.

(** The digits after a [0x] or [0b], and the base. *)
Definition radix (s : list Z) (base : Z) : list Z * Z :=
  if ((base =? 0) || (base =? 16)) && (at_ s 0 =? 48) && ((at_ s 1 =? 120) || (at_ s 1 =? 88))
  then (drop 2 s, 16)
  else if ((base =? 0) || (base =? 2)) && (at_ s 0 =? 48) && ((at_ s 1 =? 98) || (at_ s 1 =? 66))
  then (drop 2 s, 2)
  else (s, if base =? 0 then (if at_ s 0 =? 48 then 8 else 10) else base).

Definition strtol (nptr : list Z) (base : Z) : Z :=
  let s := skip_space nptr in
  let neg := at_ s 0 =? 45 in
  let s := if neg || (at_ s 0 =? 43) then drop 1 s else s in
  let '(s, base) := radix s base in
  let limit := if neg then 2 ^ 31 else LONG_MAX in
  let '(acc, any) := convert base (limit / base) (limit mod base) s 0 0 in
  if any <? 0 then (if neg then LONG_MIN else LONG_MAX)
  else s32 (if neg then u32 (- acc) else acc).

(** ** The reference: digits and their value *)

(** The leading digits of [s] in [base]. *)
Fixpoint digits (base : Z) (s : list Z) : list Z :=
  match s with
  | [] => []
  | c :: s' =>
      match digit c with
      | Some d => if base <=? d then [] else d :: digits base s'
      | None => []
      end
  end.

Definition value (base : Z) (ds : list Z) : Z := foldl (λ a d, a * base + d) 0 ds.

(** The notations of a number and their base: [0x], [0b], a leading zero, decimal. *)
Definition notation_of (prefix : list Z) (base : Z) (s : list Z) : Prop :=
  (prefix = [48; 120] ∧ base = 16) ∨ (prefix = [48; 98] ∧ base = 2) ∨
  (prefix = [] ∧ base = 8 ∧ at_ s 0 = 48 ∧ at_ s 1 ∉ [120; 88; 98; 66]) ∨
  (prefix = [] ∧ base = 10 ∧ 49 <= at_ s 0 <= 57).

Definition clamp (z : Z) : Z := Z.max LONG_MIN (Z.min LONG_MAX z).

Lemma digit_range c d : 0 <= c < 256 → digit c = Some d → 0 <= d < 36.
Proof.
  intros Hc. unfold digit, isdigit. rewrite u8_id by done.
  destruct ((48 <=? c) && (c <=? 57)) eqn:E.
  { apply andb_true_iff in E as [E1%Z.leb_le E2%Z.leb_le]. intros [= <-]. lia. }
  assert (∀ c, 0 <= c < 256 → isalpha c = true →
          0 <= c - (if isupper c then 65 - 10 else 97 - 10) < 36) as Hall.
  { assert (forallb (λ c, negb (isalpha c) ||
        ((0 <=? c - (if isupper c then 65 - 10 else 97 - 10)) &&
         (c - (if isupper c then 65 - 10 else 97 - 10) <? 36))) (seqZ 0 256) = true) as Hb by (vm_compute; done).
    rewrite forallb_forall in Hb. intros x Hx Ha. specialize (Hb x).
    rewrite <- list_elem_of_In, elem_of_seqZ, Ha in Hb. specialize (Hb ltac:(lia)).
    apply andb_true_iff in Hb as [H1%Z.leb_le H2%Z.ltb_lt]. lia. }
  destruct (isalpha c) eqn:Ea; [|done]. intros [= <-]. by apply Hall.
Qed.

Lemma value_app base acc ds :
  foldl (λ a d, a * base + d) acc ds = acc * base ^ Z.of_nat (length ds) + value base ds.
Proof.
  revert acc. unfold value. induction ds as [|d ds IH]; intros acc; [cbn; lia|].
  cbn [foldl length]. rewrite IH, (IH (0 * base + d)), Nat2Z.inj_succ, Z.pow_succ_r by lia. lia.
Qed.

Lemma value_mono base acc ds :
  1 <= base → 0 <= acc → Forall (λ d, 0 <= d) ds → acc <= foldl (λ a d, a * base + d) acc ds.
Proof.
  intros Hb. revert acc. induction ds as [|d ds IH]; intros acc Ha Hds; [cbn; lia|].
  apply Forall_cons_1 in Hds as [Hd Hds]. cbn [foldl]. specialize (IH (acc * base + d) ltac:(nia) Hds). nia.
Qed.

Lemma digits_range base s :
  Forall byte s → Forall (λ d, 0 <= d < base) (digits base s).
Proof.
  induction s as [|c s IH]; intros Hs; [constructor|]. apply Forall_cons_1 in Hs as [Hc Hs]. cbn [digits].
  destruct (digit c) as [d|] eqn:E; [|constructor]. pose proof (digit_range c d Hc E).
  destruct (Z.leb_spec base d); [constructor|]. constructor; [lia|by apply IH].
Qed.

Lemma convert_over base cutoff cutlim s acc : (convert base cutoff cutlim s acc (-1)).2 = -1.
Proof.
  induction s as [|c s IH]; [done|]. cbn [convert]. destruct (digit c); [|done].
  by destruct (_ <=? _).
Qed.

(** The range test is exactly whether the next value stays within [limit]. *)
Lemma in_range limit base acc d :
  2 <= base → 0 <= acc → 0 <= d < base →
  (limit / base <? acc) || ((acc =? limit / base) && (limit mod base <? d)) = (limit <? acc * base + d).
Proof.
  intros Hb Ha Hd. pose proof (Z.div_mod limit base ltac:(lia)). pose proof (Z.mod_pos_bound limit base ltac:(lia)).
  set (q := limit / base) in *. set (r := limit mod base) in *.
  destruct (Z.ltb_spec q acc), (Z.eqb_spec acc q), (Z.ltb_spec r d), (Z.ltb_spec limit (acc * base + d));
    cbn; try done; exfalso; nia.
Qed.

Lemma convert_spec limit base s : ∀ acc any,
  2 <= base → limit < 2 ^ 32 → 0 <= acc <= limit → 0 <= any → Forall byte s →
  let v := foldl (λ a d, a * base + d) acc (digits base s) in
  let r := convert base (limit / base) (limit mod base) s acc any in
  (v <= limit ∧ r.1 = v ∧ 0 <= r.2) ∨ (limit < v ∧ r.2 = -1).
Proof.
  induction s as [|c s IH]; intros acc any Hb Hlim Hacc Hany Hs; [left; cbn; lia|].
  apply Forall_cons_1 in Hs as [Hc Hs]. cbn [digits convert].
  destruct (digit c) as [d|] eqn:E; [|left; cbn; lia]. pose proof (digit_range c d Hc E).
  destruct (Z.leb_spec base d); [left; cbn; lia|]. cbn [foldl].
  destruct (Z.ltb_spec any 0); [lia|]. cbn [orb].
  rewrite (in_range limit base acc d) by lia. destruct (Z.ltb_spec limit (acc * base + d)).
  - right. split; [|apply convert_over].
    pose proof (value_mono base (acc * base + d) (digits base s) ltac:(lia) ltac:(nia)) as Hm.
    enough (acc * base + d <= foldl (λ a d, a * base + d) (acc * base + d) (digits base s)) by lia.
    apply Hm. eapply Forall_impl; [|apply (digits_range base s Hs)]. cbn. lia.
  - rewrite (u32_id (acc * base)) by (unfold word32; nia). rewrite u32_id by (unfold word32; nia).
    apply IH; try done; nia.
Qed.

Lemma value_nonneg base ds : 2 <= base → Forall (λ d, 0 <= d < base) ds → 0 <= value base ds.
Proof.
  intros Hb Hds. apply value_mono; [lia|lia|]. eapply Forall_impl; [|exact Hds]. cbn. lia.
Qed.

(** The sign and the radix prefix are taken off as the notation says. *)
Lemma skip_digit c t : 48 <= c <= 57 → skip_space (c :: t) = c :: t.
Proof. intros Hc. cbn [skip_space]. unfold isspace. cells. Qed.

Lemma radix_notation prefix base s : notation_of prefix base s → radix (prefix ++ s) 0 = (s, base).
Proof.
  intros [[-> ->]|[[-> ->]|[(-> & -> & H0 & H1)|(-> & -> & H0)]]]; [done..| |];
    unfold radix; cbn [app Z.eqb orb andb].
  - rewrite H0. rewrite !not_elem_of_cons, <- !Z.eqb_neq in H1. destruct H1 as (-> & -> & -> & -> & _). done.
  - destruct (Z.eqb_spec (at_ s 0) 48); [lia|]. done.
Qed.

Lemma notation_head prefix base s :
  notation_of prefix base s → ∃ c t, prefix ++ s = c :: t ∧ 48 <= c <= 57.
Proof.
  intros [[-> ->]|[[-> ->]|[(-> & -> & H0 & _)|(-> & -> & H0)]]]; cbn [app]; [eauto with lia..| |];
    (destruct s as [|c t]; [unfold at_ in H0; cbn in H0; lia|]); cbn [at_ nth] in H0; eauto with lia.
Qed.

Lemma strtol_unsigned (minus : bool) prefix base s :
  notation_of prefix base s →
  strtol ((if minus then [45] else []) ++ prefix ++ s) 0 =
    let limit := if minus then 2 ^ 31 else LONG_MAX in
    let '(acc, any) := convert base (limit / base) (limit mod base) s 0 0 in
    if any <? 0 then (if minus then LONG_MIN else LONG_MAX)
    else s32 (if minus then u32 (- acc) else acc).
Proof.
  intros Hn. pose proof (radix_notation _ _ _ Hn) as Hr.
  destruct (notation_head _ _ _ Hn) as (c & t & Hct & Hc). rewrite Hct in *. unfold strtol. destruct minus.
  - change (skip_space ([45] ++ c :: t)) with (45 :: c :: t).
    change (at_ (45 :: c :: t) 0) with 45. change (45 =? 45) with true. cbn [orb].
    change (drop 1 (45 :: c :: t)) with (c :: t). by rewrite Hr.
  - cbn [app]. rewrite skip_digit by done. change (at_ (c :: t) 0) with c.
    destruct (Z.eqb_spec c 45), (Z.eqb_spec c 43); [lia..|]. cbn [orb]. by rewrite Hr.
Qed.

(** [strtol] reads a notation as the value of its digits, cut to the range. *)
Lemma strtol_value (minus : bool) prefix base s :
  Forall byte s → notation_of prefix base s →
  strtol ((if minus then [45] else []) ++ prefix ++ s) 0 =
    clamp ((if minus then -1 else 1) * value base (digits base s)).
Proof.
  intros Hs Hn.
  assert (2 <= base) as Hb by (destruct Hn as [[_ ->]|[[_ ->]|[(_ & -> & _)|(_ & -> & _)]]]; lia).
  pose proof (value_nonneg base _ Hb (digits_range base s Hs)) as Hv.
  rewrite (strtol_unsigned minus prefix base s Hn).
  cbv zeta. destruct (convert_spec (if minus then 2 ^ 31 else LONG_MAX) base s 0 0)
    as [(Hle & Hr & Ha)|(Hgt & Ha)]; try done; [destruct minus; unfold LONG_MAX; lia..| |];
    destruct (convert _ _ _ s 0 0) as [acc any]; cbn [fst snd] in *; fold (value base (digits base s)) in *;
    unfold clamp, LONG_MIN, LONG_MAX in *.
  - destruct (Z.ltb_spec any 0); [lia|]. rewrite Hr. unfold s32, u32. destruct minus.
    + set (v := value base (digits base s)) in *.
      destruct (decide (v = 0)) as [->|]; [done|].
      replace (- v) with (2 ^ 32 - v + (-1) * 2 ^ 32) by lia. rewrite Z_mod_plus_full.
      rewrite (Z.mod_small (2 ^ 32 - v)) by lia.
      replace (2 ^ 32 - v + 2 ^ 31) with (2 ^ 31 - v + 1 * 2 ^ 32) by lia.
      rewrite Z_mod_plus_full, Z.mod_small by lia. lia.
    + rewrite Z.mod_small by lia. lia.
  - destruct (Z.ltb_spec any 0); [|lia]. destruct minus; lia.
Qed.

(** ** Property *)

(** [strtol] with base 0, as the scripts use it, reads a number in any of
    its notations, with or without a minus sign, as the value of its leading
    digits cut to the range of a [long]. *)
Theorem strtol_clamps (minus : bool) prefix base s :
  Forall byte s → notation_of prefix base s →
  strtol ((if minus then [45] else []) ++ prefix ++ s) 0 =
    clamp ((if minus then -1 else 1) * value base (digits base s)).
Proof. intros Hs Hn. by apply strtol_value. Qed.

(** ["-0x1F"] and an overflowing decimal. *)
Lemma strtol_clamps_witness :
  strtol [45; 48; 120; 49; 70] 0 = -31 ∧ strtol [57; 57; 57; 57; 57; 57; 57; 57; 57; 57; 44] 0 = LONG_MAX.
Proof.
  split.
  - apply (strtol_clamps true [48; 120] 16 [49; 70]);
      [apply (bool_decide_unpack _); vm_compute; exact I|by left].
  - apply (strtol_clamps false [] 10 [57; 57; 57; 57; 57; 57; 57; 57; 57; 57; 44]);
      [apply (bool_decide_unpack _); vm_compute; exact I|].
    right; right; right. split_and!; done.
Defined.

End Strtol.
