(* ===== verification/Format.v ===== *)
(** * Formatted output ([src/lib/misc/vsprintf.c])

    The output of [vsprintf] as the list of its octets before the terminating
    zero.  The arguments are a list: a number of 32 bits (an [int], an
    [unsigned], a [long] or a pointer) or a string; an argument of the wrong
    kind, or a missing one, is undefined behaviour.  What the conversion [%n]
    stores is returned beside the output. *)

From Stdlib Require Import String Ascii.
From S2P Require Import Prelude Strtol.
Import Strtol(isdigit, at_).

Abbreviation length := List.length.

Module Format.

Definition ZEROPAD : Z := 1.
Definition SIGN : Z := 2.
Definition PLUS : Z := 4.
Definition SPACE : Z := 8.
Definition LEFT : Z := 16.
Definition SPECIAL : Z := 32.
Definition LARGE : Z := 64.

Definition has (type flag : Z) : bool := negb (type .& flag =? 0).

(** The character of a digit. *)
Definition digit_char (large : bool) (d : Z) : Z :=
  if d <? 10 then 48 + d else (if large then 65 else 97) + (d - 10).

(** [do_div] in a loop: the digits, the least significant first; [tmp] has room
    for the 32 digits of base 2. *)
Fixpoint digits_of (fuel : nat) (large : bool) (num base : Z) : list Z :=
  match fuel with
  | O => []
  | S fuel' =>
      if num =? 0 then []
      else digit_char large (u32 num mod base) :: digits_of fuel' large (u32 num / base) base
  end.

(** [while(size-- > 0) *str++ = c]: the output, and [size] after it. *)
Definition fill (size c : Z) : list Z * Z := (replicate (Z.to_nat size) c, Z.min size 0 - 1).

(** The sign character, if any, and the number without it. *)
Definition sign_of (num type : Z) : option Z * Z :=
  if has type SIGN then
    if num <? 0 then (Some 45, s32 (- num))
    else if has type PLUS then (Some 43, num)
    else if has type SPACE then (Some 32, num)
    else (None, num)
  else (None, num).

Definition prefix_of (base type : Z) : list Z :=
  if has type SPECIAL then
    if base =? 8 then [48]
    else if base =? 16 then [48; (if has type LARGE then 88 else 120)]
    else []
  else [].

(** [num] is a [long]. *)
Definition number (num base size precision type : Z) : outcome (list Z) :=
  let large := has type LARGE in
  let type := if has type LEFT then type .& Z.lnot ZEROPAD else type in
  if (base <? 2) || (36 <? base) then UB
  else
    let c := if has type ZEROPAD then 48 else 32 in
    let '(sign, num) := sign_of num type in
    let size := size - match sign with Some _ => 1 | None => 0 end in
    let size := size - Z.of_nat (length (prefix_of base type)) in
    let tmp := if num =? 0 then [48] else digits_of 32 large num base in
    let i := Z.of_nat (length tmp) in
    let precision := if precision <? i then i else precision in
    let size := size - precision in
    let '(lead, size) := if negb (has type (ZEROPAD + LEFT)) then fill size 32 else ([], size) in
    let '(pad, size) := if negb (has type LEFT) then fill size c else ([], size) in
    let zeros := replicate (Z.to_nat (precision - i)) 48 in
    let '(trail, _) := fill size 32 in
    Ok (lead ++ match sign with Some s => [s] | None => [] end ++ prefix_of base type ++ pad ++ zeros ++
        rev tmp ++ trail).

(** ** The format *)

Inductive va := VInt (v : Z) | VStr (s : option (list Z)).

Fixpoint skip_atoi (s : list Z) (i : Z) : Z * list Z :=
  match s with
  | c :: s' => if isdigit c then skip_atoi s' (s32 (i * 10 + c - 48)) else (i, s)
  | [] => (i, [])
  end.

(** The flag characters after the percent sign. *)
Fixpoint get_flags (fmt : list Z) (flags : Z) : Z * list Z :=
  match fmt with
  | c :: fmt' =>
      if c =? 45 then get_flags fmt' (flags .| LEFT)
      else if c =? 43 then get_flags fmt' (flags .| PLUS)
      else if c =? 32 then get_flags fmt' (flags .| SPACE)
      else if c =? 35 then get_flags fmt' (flags .| SPECIAL)
      else if c =? 48 then get_flags fmt' (flags .| ZEROPAD)
      else (flags, fmt)
  | [] => (flags, [])
  end.

Definition int_arg (args : list va) : outcome (Z * list va) :=
  match args with VInt v :: args => Ok (v, args) | _ => UB end.
Definition str_arg (args : list va) : outcome (option (list Z) * list va) :=
  match args with VStr s :: args => Ok (s, args) | _ => UB end.

(** The field width; a negative one as an argument means left-justified. *)
Definition get_width (fmt : list Z) (flags : Z) (args : list va)
    : outcome (Z * Z * list Z * list va) :=
  if isdigit (at_ fmt 0) then let '(w, fmt) := skip_atoi fmt 0 in Ok (w, flags, fmt, args)
  else if at_ fmt 0 =? 42 then
    '(w, args) ← int_arg args;
    let w := s32 w in
    Ok (if w <? 0 then (s32 (- w), flags .| LEFT, drop 1 fmt, args) else (w, flags, drop 1 fmt, args))
  else Ok (-1, flags, fmt, args).

Definition get_precision (fmt : list Z) (args : list va) : outcome (Z * list Z * list va) :=
  if at_ fmt 0 =? 46 then
    let fmt := drop 1 fmt in
    '(p, fmt, args) ←
      (if isdigit (at_ fmt 0) then let '(p, fmt) := skip_atoi fmt 0 in Ok (p, fmt, args)
       else if at_ fmt 0 =? 42 then '(p, args) ← int_arg args; Ok (s32 p, drop 1 fmt, args)
       else Ok (-1, fmt, args));
    Ok (Z.max p 0, fmt, args)
  else Ok (-1, fmt, args).

Definition get_qualifier (fmt : list Z) : Z * list Z :=
  let c := at_ fmt 0 in
  if (c =? 104) || (c =? 108) || (c =? 76) then (c, drop 1 fmt) else (-1, fmt).

(** ** Conversions *)

Definition conv_char (flags width v : Z) : list Z :=
  let pad := replicate (Z.to_nat (width - 1)) 32 in
  if has flags LEFT then u8 v :: pad else pad ++ [u8 v].

Definition null_text : list Z := map (λ c, Z.of_nat (nat_of_ascii c)) (list_ascii_of_string "<NULL>").

(** A negative precision is no limit. *)
Definition conv_string (flags width precision : Z) (s : option (list Z)) : list Z :=
  let s := match s with Some s => s | None => null_text end in
  let s := if precision <? 0 then s else take (Z.to_nat precision) s in
  let pad := replicate (Z.to_nat (width - Z.of_nat (length s))) 32 in
  if has flags LEFT then s ++ pad else pad ++ s.

(** The argument of an integer conversion, as the [long] that [number] gets. *)
Definition conv_arg (qualifier flags v : Z) : Z :=
  if qualifier =? 104 then
    if has flags SIGN then (u16 v + 2 ^ 15) mod 2 ^ 16 - 2 ^ 15 else u16 v
  else s32 v.

Definition octet_of (v : Z) (i : nat) : Z := Z.shiftr v (8 * Z.of_nat i) .& 0xff.

(** Items joined by a separator: the last separator is taken back by [--str]. *)
Fixpoint join (sep : Z) (l : list (list Z)) : list Z :=
  match l with [] => [] | [x] => x | x :: l => x ++ [sep] ++ join sep l end.

Fixpoint numbers (l : list Z) (base size type : Z) : outcome (list (list Z)) :=
  match l with
  | [] => Ok []
  | v :: l => x ← number v base size (-1) type; xs ← numbers l base size type; Ok (x :: xs)
  end.

(** One conversion: the output, the arguments left, the rest of the format and
    what [%n] stores. *)
Definition convert (fmt : list Z) (flags width precision qualifier : Z) (args : list va) (count : Z)
    : outcome (list Z * list va * list Z * list (Z * Z)) :=
  let c := at_ fmt 0 in
  let rest := drop 1 fmt in
  let integer (base flags : Z) :=
    '(v, args) ← int_arg args;
    o ← number (conv_arg qualifier flags v) base width precision flags;
    Ok (o, args, rest, []) in
  if c =? 99 then '(v, args) ← int_arg args; Ok (conv_char flags width v, args, rest, [])
  else if c =? 115 then '(s, args) ← str_arg args; Ok (conv_string flags width precision s, args, rest, [])
  else if c =? 112 then
    '(v, args) ← int_arg args;
    o ← (if width =? -1 then number (s32 v) 16 8 precision (flags .| ZEROPAD)
         else number (s32 v) 16 width precision flags);
    Ok (o, args, rest, [])
  else if c =? 110 then '(p, args) ← int_arg args; Ok ([], args, rest, [(p, count)])
  else if c =? 37 then Ok ([37], args, rest, [])
  else if c =? 111 then integer 8 flags
  else if c =? 88 then integer 16 (flags .| LARGE)
  else if c =? 120 then integer 16 flags
  else if (c =? 100) || (c =? 105) then integer 10 (flags .| SIGN)
  else if c =? 117 then integer 10 flags
  else if c =? 64 then
    '(v, args) ← int_arg args;
    l ← numbers (map (octet_of (u32 v)) (seq 0 4)) 10 (-1) SIGN;
    Ok (join 46 l, args, rest, [])
  else if c =? 33 then
    '(s, args) ← str_arg args;
    match s with
    | Some s =>
        if (6 <=? length s)%nat then
          l ← numbers (take 6 s) 16 2 (ZEROPAD .| LARGE); Ok (join 58 l, args, rest, [])
        else UB
    | None => UB
    end
  else Ok (match fmt with [] => [37] | c :: _ => [37; c] end, args, rest, []).

Fixpoint vsprintf_loop (fuel : nat) (fmt : list Z) (args : list va) (out : list Z) (stores : list (Z * Z))
    : outcome (list Z * list (Z * Z)) :=
  match fmt with
  | [] => Ok (out, stores)
  | c :: fmt' =>
      match fuel with
      | O => UB
      | S fuel' =>
          if negb (c =? 37) then vsprintf_loop fuel' fmt' args (out ++ [c]) stores
          else
            let '(flags, fmt) := get_flags fmt' 0 in
            '(width, flags, fmt, args) ← get_width fmt flags args;
            '(precision, fmt, args) ← get_precision fmt args;
            let '(qualifier, fmt) := get_qualifier fmt in
            '(o, args, fmt, st) ←
              convert fmt flags width precision qualifier args (Z.of_nat (length out));
            vsprintf_loop fuel' fmt args (out ++ o) (stores ++ st)
      end
  end.

(** Every round consumes a character of the format. *)
Definition vsprintf (fmt : list Z) (args : list va) : outcome (list Z * list (Z * Z)) :=
  vsprintf_loop (length fmt) fmt args [] [].

Definition text (s : string) : list Z := map (λ c, Z.of_nat (nat_of_ascii c)) (list_ascii_of_string s).

(** ** Digits *)

Lemma digit_of_char large d : 0 <= d < 36 → Strtol.digit (digit_char large d) = Some d.
Proof.
  intros Hd.
  assert (forallb (λ d, bool_decide (Strtol.digit (digit_char true d) = Some d) &&
                        bool_decide (Strtol.digit (digit_char false d) = Some d)) (seqZ 0 36) = true) as H
    by (vm_compute; done).
  rewrite forallb_forall in H. specialize (H d). rewrite <- list_elem_of_In, elem_of_seqZ in H.
  specialize (H ltac:(lia)). apply andb_true_iff in H as [Ht%bool_decide_eq_true Hf%bool_decide_eq_true].
  by destruct large.
Qed.

Lemma digit_char_byte large d : 0 <= d < 36 → byte (digit_char large d).
Proof. intros Hd. unfold digit_char, byte. destruct (Z.ltb_spec d 10), large; lia. Qed.

(** The digits as numbers. *)
Fixpoint digit_list (fuel : nat) (num base : Z) : list Z :=
  match fuel with
  | O => []
  | S fuel' => if num =? 0 then [] else num mod base :: digit_list fuel' (num / base) base
  end.

Lemma digits_of_list fuel large num base :
  0 <= num < 2 ^ 32 → 2 <= base →
  digits_of fuel large num base = map (digit_char large) (digit_list fuel num base).
Proof.
  intros Hn Hb. revert num Hn. induction fuel as [|fuel IH]; intros num Hn; [done|].
  cbn [digits_of digit_list]. destruct (num =? 0); [done|]. rewrite u32_id by (unfold word32; lia). cbn [map].
  rewrite IH; [done|]. split; [apply Z.div_pos; lia|].
  apply Z.div_lt_upper_bound; [lia|]. nia.
Qed.

Lemma digit_list_range fuel num base :
  0 <= num → 2 <= base → Forall (λ d, 0 <= d < base) (digit_list fuel num base).
Proof.
  intros Hn Hb. revert num Hn. induction fuel as [|fuel IH]; intros num Hn; cbn [digit_list]; [constructor|].
  destruct (num =? 0); [constructor|]. constructor; [apply Z.mod_pos_bound; lia|].
  apply IH. apply Z.div_pos; lia.
Qed.

Lemma digit_list_value fuel num base :
  0 <= num < base ^ Z.of_nat fuel → 2 <= base → Strtol.value base (rev (digit_list fuel num base)) = num.
Proof.
  intros Hn Hb. revert num Hn. induction fuel as [|fuel IH]; intros num Hn; cbn [digit_list]; [cbn in *; lia|].
  destruct (Z.eqb_spec num 0) as [->|]; [done|]. cbn [rev]. unfold Strtol.value in *. rewrite foldl_app. cbn [foldl].
  rewrite Nat2Z.inj_succ, Z.pow_succ_r in Hn by lia.
  rewrite IH; [pose proof (Z.div_mod num base); lia|].
  split; [apply Z.div_pos; lia|apply Z.div_lt_upper_bound; lia].
Qed.

(** A leading digit of a number other than zero is not zero. *)
Lemma digit_list_head fuel num base :
  0 < num < base ^ Z.of_nat fuel → 2 <= base →
  ∃ d t, rev (digit_list fuel num base) = d :: t ∧ 1 <= d < base.
Proof.
  intros Hn Hb. revert num Hn. induction fuel as [|fuel IH]; intros num Hn; [cbn in Hn; lia|]. cbn [digit_list].
  destruct (Z.eqb_spec num 0); [lia|]. cbn [rev].
  rewrite Nat2Z.inj_succ, Z.pow_succ_r in Hn by lia.
  pose proof (Z.div_mod num base ltac:(lia)). pose proof (Z.mod_pos_bound num base ltac:(lia)).
  assert (num / base < base ^ Z.of_nat fuel) by (apply Z.div_lt_upper_bound; lia).
  pose proof (Z.div_pos num base ltac:(lia) ltac:(lia)).
  destruct (decide (num / base = 0)) as [E|].
  - rewrite E. exists (num mod base), []. split; [|lia]. by destruct fuel.
  - destruct (IH (num / base)) as (d & t & -> & Hd); [lia|]. by exists d, (t ++ [num mod base]).
Qed.

(** [strtol] reads back the characters of digits. *)
Lemma read_digits base large l :
  2 <= base <= 36 → Forall (λ d, 0 <= d < base) l → Strtol.digits base (map (digit_char large) l) = l.
Proof.
  intros Hb Hl. induction Hl as [|d l Hd Hl IH]; [done|]. cbn [map Strtol.digits].
  rewrite digit_of_char by lia. destruct (Z.leb_spec base d); [lia|]. by rewrite IH.
Qed.

Lemma value_zeros base n l : Strtol.value base (replicate n 0 ++ l) = Strtol.value base l.
Proof. unfold Strtol.value. rewrite foldl_app. f_equal. induction n as [|n IH]; [done|]. exact IH. Qed.

(** ** Layout of a number *)

Lemma has_bit type k : 0 <= k → has type (2 ^ k) = Z.testbit type k.
Proof.
  intros Hk. unfold has. destruct (Z.testbit type k) eqn:E.
  - destruct (Z.eqb_spec (type .& 2 ^ k) 0) as [H|]; [|done]. exfalso.
    assert (Z.testbit (type .& 2 ^ k) k = true) as Ht by (by rewrite Z.land_spec, E, Z.pow2_bits_true).
    by rewrite H, Z.bits_0 in Ht.
  - apply negb_false_iff, Z.eqb_eq. apply Z.bits_inj'. intros j Hj. rewrite Z.bits_0, Z.land_spec.
    destruct (decide (j = k)) as [->|]; [by rewrite E|].
    rewrite Z.pow2_bits_false by lia. apply andb_false_r.
Qed.

Lemma has_clear type f k : f = 2 ^ k → 1 <= k → has (type .& Z.lnot ZEROPAD) f = has type f.
Proof.
  intros -> Hk. rewrite !has_bit, Z.land_spec, Z.lnot_spec by lia.
  unfold ZEROPAD. change 1 with (2 ^ 0). rewrite Z.pow2_bits_false by lia. apply andb_true_r.
Qed.

Lemma has_pad type : has type (ZEROPAD + LEFT) = has type ZEROPAD || has type LEFT.
Proof.
  unfold has. change (ZEROPAD + LEFT) with (ZEROPAD .| LEFT). rewrite Z.land_lor_distr_r.
  destruct (Z.eqb_spec (type .& ZEROPAD) 0) as [->|H1]; [by rewrite Z.lor_0_l|].
  destruct (Z.eqb_spec (type .& ZEROPAD .| type .& LEFT) 0) as [[? _]%Z.lor_eq_0_iff|]; done.
Qed.

(** The number as the manual of [printf] describes it: sign and prefix, zeros up
    to the precision, digits, and the field filled on the left with spaces or,
    after the prefix, with zeros, or on the right with spaces. *)
Definition layout (num base size precision type : Z) : list Z :=
  let '(sign, n) := sign_of num type in
  let head := match sign with Some s => [s] | None => [] end ++ prefix_of base type in
  let digs := rev (if n =? 0 then [48] else digits_of 32 (has type LARGE) n base) in
  let shown := replicate (Z.to_nat (precision - Z.of_nat (length digs))) 48 ++ digs in
  let room := Z.to_nat (size - Z.of_nat (length (head ++ shown))) in
  if has type LEFT then head ++ shown ++ replicate room 32
  else if has type ZEROPAD then head ++ replicate room 48 ++ shown
  else replicate room 32 ++ head ++ shown.

Lemma sign_clear num type : sign_of num (type .& Z.lnot ZEROPAD) = sign_of num type.
Proof.
  unfold sign_of. by rewrite (has_clear type SIGN 1), (has_clear type PLUS 2), (has_clear type SPACE 3).
Qed.

Lemma prefix_clear base type : prefix_of base (type .& Z.lnot ZEROPAD) = prefix_of base type.
Proof.
  unfold prefix_of. by rewrite (has_clear type SPECIAL 5), (has_clear type LARGE 6).
Qed.

Lemma number_layout_eq num base size precision type :
  2 <= base <= 36 → number num base size precision type = Ok (layout num base size precision type).
Proof.
  intros Hb. unfold number. cbv zeta. destruct (Z.ltb_spec base 2), (Z.ltb_spec 36 base); [lia..|]. cbn [orb].
  assert (∀ t, t = (if has type LEFT then type .& Z.lnot ZEROPAD else type) →
    sign_of num t = sign_of num type ∧ prefix_of base t = prefix_of base type ∧
    has t LEFT = has type LEFT ∧ has t ZEROPAD = has type ZEROPAD && negb (has type LEFT)) as Ht.
  { intros t ->. destruct (has type LEFT) eqn:E; [|by rewrite andb_true_r]. rewrite sign_clear, prefix_clear.
    rewrite (has_clear type LEFT 4), E, andb_false_r by done. split_and!; try done.
    change ZEROPAD with (2 ^ 0). by rewrite has_bit, Z.land_spec, Z.lnot_spec, Z.pow2_bits_true, andb_false_r by lia. }
  set (t := if has type LEFT then _ else _) in *. destruct (Ht t eq_refl) as (-> & -> & Hl & Hz). clearbody t.
  rewrite has_pad, Hl, Hz. unfold layout. destruct (sign_of num type) as [sign n].
  set (digs := if n =? 0 then [48] else _). set (hd := match sign with Some s => [s] | None => [] end).
  replace (match sign with Some _ => 1 | None => 0 end) with (Z.of_nat (length hd)) by (by destruct sign).
  set (pre := prefix_of base type). set (i := Z.of_nat (length digs)).
  replace (if precision <? i then i else precision) with (Z.max precision i) by cells.
  replace (Z.to_nat (Z.max precision i - i)) with (Z.to_nat (precision - i)) by lia.
  rewrite length_rev. fold i. set (zs := replicate (Z.to_nat (precision - i)) 48).
  assert (size - Z.of_nat (length hd) - Z.of_nat (length pre) - Z.max precision i =
          size - Z.of_nat (length ((hd ++ pre) ++ zs ++ rev digs))) as ->.
  { rewrite !length_app, length_rev. subst zs i. rewrite length_replicate. lia. }
  set (r := size - _). unfold fill.
  assert (Z.to_nat (Z.min r 0 - 1) = 0%nat) as E1 by lia.
  assert (Z.to_nat (Z.min (Z.min r 0 - 1) 0 - 1) = 0%nat) as E2 by lia.
  by destruct (has type LEFT), (has type ZEROPAD); cbn [orb andb negb];
    rewrite ?E1, ?E2; cbn [replicate app]; rewrite ?app_nil_r, <- ?app_assoc.
Qed.

Lemma digits_of_u32 fuel large num base :
  - 2 ^ 31 <= num < 2 ^ 32 → digits_of fuel large num base = digits_of fuel large (u32 num) base.
Proof.
  intros Hn. destruct fuel as [|fuel]; [done|]. cbn [digits_of].
  assert (u32 (u32 num) = u32 num) as -> by (unfold u32; by rewrite Zmod_mod).
  destruct (Z.eqb_spec num 0) as [->|]; [done|]. destruct (Z.eqb_spec (u32 num) 0) as [E|]; [|done].
  exfalso. unfold u32 in E. apply Z.mod_divide in E as [k Hk]; [|lia]. nia.
Qed.

(** The characters of a number, as [strtol] sees them. *)
Lemma shown_digits n base large :
  0 <= n < 2 ^ 32 → 2 <= base <= 36 →
  let l := rev (if n =? 0 then [48] else digits_of 32 large n base) in
  ∃ ds, l = map (digit_char large) ds ∧ Forall (λ d, 0 <= d < base) ds ∧ Strtol.value base ds = n ∧
    (n = 0 ∧ ds = [0] ∨ ∃ d t, ds = d :: t ∧ 1 <= d).
Proof.
  intros Hn Hb. cbn zeta. destruct (Z.eqb_spec n 0) as [->|Hne].
  { exists [0]. split; [done|]. split; [constructor; [lia|constructor]|]. split; [done|by left]. }
  assert (n < base ^ Z.of_nat 32).
  { apply Z.lt_le_trans with (2 ^ 32); [lia|]. apply (Z.pow_le_mono_l 2 base (Z.of_nat 32)). lia. }
  exists (rev (digit_list 32 n base)). rewrite digits_of_list, map_rev by lia. split; [done|].
  split; [apply Forall_rev; by apply digit_list_range; lia|].
  split; [apply digit_list_value; lia|right].
  destruct (digit_list_head 32 n base) as (d & t & -> & Hd); [lia|lia|]. by exists d, t; split; [|lia].
Qed.

(** A decimal number is read back. *)
Lemma strtol_decimal (minus : bool) n :
  0 <= n <= 2 ^ 31 →
  Strtol.strtol ((if minus then [45] else []) ++ rev (if n =? 0 then [48] else digits_of 32 false n 10)) 0 =
    Strtol.clamp ((if minus then -1 else 1) * n).
Proof.
  intros Hn. destruct (shown_digits n 10 false) as (ds & -> & Hr & Hv & Hhead); [lia|lia|].
  assert (Forall byte (map (digit_char false) ds)) as Hb.
  { apply Forall_map. eapply Forall_impl; [|exact Hr]. intros d Hd. apply digit_char_byte. cbn in Hd. lia. }
  destruct Hhead as [[-> ->]|(d & t & -> & Hd)].
  - etrans; [apply (Strtol.strtol_value minus [] 8 [48])|by destruct minus]; [done|].
    right; right; left. split_and!; try done. apply (bool_decide_unpack _). vm_compute. exact I.
  - rewrite <- Hv. rewrite <- (read_digits 10 false (d :: t)) at 2 by (done || lia).
    apply (Strtol.strtol_value minus [] 10); [done|]. right; right; right. split_and!; try done;
    cbn; unfold digit_char; apply Forall_cons_1 in Hr as [Hd' _]; destruct (Z.ltb_spec d 10); lia.
Qed.

(** A hexadecimal number of any width is read back. *)
Lemma strtol_hex n width large :
  0 <= n < 2 ^ 31 →
  Strtol.strtol ([48; 120] ++ replicate width 48 ++
                 rev (if n =? 0 then [48] else digits_of 32 large n 16)) 0 = n.
Proof.
  intros Hn. destruct (shown_digits n 16 large) as (ds & -> & Hr & Hv & _); [lia|lia|].
  replace (replicate width 48 ++ map (digit_char large) ds) with (map (digit_char large) (replicate width 0 ++ ds))
    by (rewrite map_app; f_equal; induction width as [|w IH]; [done|]; cbn; by rewrite IH).
  assert (Forall (λ d, 0 <= d < 16) (replicate width 0 ++ ds)) as Hr'.
  { apply Forall_app. split; [|done]. apply Forall_replicate. lia. }
  assert (Forall byte (map (digit_char large) (replicate width 0 ++ ds))) as Hb.
  { apply Forall_map. eapply Forall_impl; [|exact Hr']. intros d Hd. apply digit_char_byte. cbn in Hd. lia. }
  etrans; [apply (Strtol.strtol_value false [48; 120] 16); [done|by left]|].
  rewrite read_digits, value_zeros, Hv by (done || lia).
  unfold Strtol.clamp, Strtol.LONG_MIN, Strtol.LONG_MAX. lia.
Qed.

Lemma s32_neg n : - 2 ^ 31 <= n < 0 → u32 (s32 (- n)) = - n.
Proof.
  intros Hn. unfold s32, u32. destruct (decide (n = - 2 ^ 31)) as [->|]; [done|].
  rewrite (Z.mod_small (- n + 2 ^ 31)) by lia. rewrite Z.mod_small; lia.
Qed.

(** One integer conversion at the end of the format. *)
Lemma vsprintf_last (lead : list Z) o (r : outcome (list Z)) :
  r = Ok o →
  ((o ← r; Ok (o, @nil va, @nil Z, @nil (Z * Z))) ≫=
     λ '(o, args, fmt, st), vsprintf_loop 1 fmt args (lead ++ o) ([] ++ st)) = Ok (lead ++ o, []).
Proof. by intros ->. Qed.

(** Without a width and a precision nothing is added. *)
Lemma layout_natural num base type :
  layout num base (-1) (-1) type =
    let '(sign, n) := sign_of num type in
    (match sign with Some s => [s] | None => [] end ++ prefix_of base type) ++
    rev (if n =? 0 then [48] else digits_of 32 (has type LARGE) n base).
Proof.
  unfold layout. destruct (sign_of num type) as [sign n].
  replace (Z.to_nat (-1 - Z.of_nat (length (rev _)))) with 0%nat by lia.
  replace (Z.to_nat (-1 - Z.of_nat (length (_ ++ _)))) with 0%nat by lia. cbn [replicate app].
  by destruct (has type LEFT), (has type ZEROPAD); rewrite ?app_nil_r.
Qed.

(** [%d] as [vsprintf] sets it up. *)
Lemma vsprintf_d n :
  - 2 ^ 31 <= n < 2 ^ 31 →
  vsprintf (text "%d") [VInt n] =
    Ok ((if n <? 0 then [45] else []) ++
        rev (if Z.abs n =? 0 then [48] else digits_of 32 false (Z.abs n) 10), []).
Proof.
  intros Hn. etrans; [apply (vsprintf_last [] (layout n 10 (-1) (-1) SIGN) (number (s32 n) 10 (-1) (-1) SIGN))|].
  { rewrite s32_id by done. apply number_layout_eq. lia. }
  rewrite layout_natural. unfold sign_of. change (has SIGN SIGN) with true. change (has SIGN PLUS) with false.
  change (has SIGN SPACE) with false. change (has SIGN LARGE) with false. change (prefix_of 10 SIGN) with (@nil Z).
  destruct (Z.ltb_spec n 0); cbn [app]; [|by rewrite Z.abs_eq by lia].
  assert (- 2 ^ 31 <= s32 (- n) < 2 ^ 32) as Hs by (unfold s32; pose proof (Z.mod_pos_bound (- n + 2 ^ 31) (2 ^ 32)); lia).
  rewrite (digits_of_u32 32 false (s32 (- n))), s32_neg, Z.abs_neq by lia.
  do 4 f_equal. destruct (Z.eqb_spec (s32 (- n)) 0) as [E|], (Z.eqb_spec (- n) 0); try done; [|lia].
  pose proof (s32_neg n ltac:(lia)) as Hu. rewrite E in Hu. change (u32 0) with 0 in Hu. lia.
Qed.

(** [0x%08X] as [vsprintf] sets it up. *)
Lemma vsprintf_x n :
  0 <= n < 2 ^ 31 →
  ∃ width, vsprintf (text "0x%08X") [VInt n] =
    Ok ([48; 120] ++ replicate width 48 ++ rev (if n =? 0 then [48] else digits_of 32 true n 16), []).
Proof.
  intros Hn. eexists.
  etrans; [apply (vsprintf_last [48; 120] (layout n 16 8 (-1) (ZEROPAD .| LARGE)) (number (s32 n) 16 8 (-1) (ZEROPAD .| LARGE)))|].
  { rewrite s32_id by lia. apply number_layout_eq. lia. }
  unfold layout. change (sign_of n (ZEROPAD .| LARGE)) with (@None Z, n).
  cbv beta iota zeta. change (has (ZEROPAD .| LARGE) LARGE) with true. change (has (ZEROPAD .| LARGE) LEFT) with false.
  change (has (ZEROPAD .| LARGE) ZEROPAD) with true. change (prefix_of 16 (ZEROPAD .| LARGE)) with (@nil Z).
  replace (Z.to_nat (-1 - Z.of_nat (length (rev _)))) with 0%nat by lia. cbn [replicate app]. done.
Qed.

(** ** Properties *)

(** What [%d] and [0x%08X] print is what [strtol] reads: for every [int] the
    decimal text gives the number back, and so does the hexadecimal text for
    every number that is not negative. *)
Theorem printed_number_reads_back n :
  - 2 ^ 31 <= n < 2 ^ 31 →
  (∃ s, vsprintf (text "%d") [VInt n] = Ok (s, []) ∧ Strtol.strtol s 0 = n) ∧
  (0 <= n → ∃ s, vsprintf (text "0x%08X") [VInt n] = Ok (s, []) ∧ Strtol.strtol s 0 = n).
Proof.
  intros Hn. split.
  - eexists. split; [by apply vsprintf_d|].
    pose proof (strtol_decimal (n <? 0) (Z.abs n) ltac:(lia)) as H.
    rewrite H. unfold Strtol.clamp, Strtol.LONG_MIN, Strtol.LONG_MAX. destruct (Z.ltb_spec n 0); lia.
  - intros H0. destruct (vsprintf_x n ltac:(lia)) as [w Hw]. eexists. split; [exact Hw|].
    by apply strtol_hex; lia.
Qed.

Lemma printed_number_reads_back_witness :
  (∃ s, vsprintf (text "%d") [VInt (- 2 ^ 31)] = Ok (s, []) ∧ Strtol.strtol s 0 = - 2 ^ 31) ∧
  (∃ s, vsprintf (text "0x%08X") [VInt 0xBEEF] = Ok (s, []) ∧ Strtol.strtol s 0 = 0xBEEF).
Proof.
  split.
  - apply (printed_number_reads_back (- 2 ^ 31)). lia.
  - apply (printed_number_reads_back 0xBEEF); lia.
Defined.

(** [number] gives the layout that the flags, the width and the precision
    ask for: the body filled on the left with spaces, after sign and prefix with
    zeros, or on the right with spaces; so the field is exactly as wide as asked
    unless the body is wider. *)
Theorem number_layout num base size precision type :
  2 <= base <= 36 →
  number num base size precision type = Ok (layout num base size precision type) ∧
  size <= Z.of_nat (length (layout num base size precision type)).
Proof.
  intros Hb. split; [by apply number_layout_eq|]. unfold layout. destruct (sign_of num type) as [sign n].
  set (h := _ ++ prefix_of _ _). set (shown := replicate _ 48 ++ _).
  destruct (has type LEFT), (has type ZEROPAD); rewrite !length_app, length_replicate; lia.
Qed.

Lemma number_layout_witness :
  number (-42) 10 6 3 SIGN = Ok (layout (-42) 10 6 3 SIGN) ∧
  6 <= Z.of_nat (length (layout (-42) 10 6 3 SIGN)).
Proof. apply (number_layout (-42) 10 6 3 SIGN). lia. Defined.

End Format.
