(* ===== verification/Strings.v ===== *)
(** * The string library ([src/lib/cromwell/string.c], [strnstr.c], [strrchr.c],
      [memrchr.c], [strcasecmp.c]) and the natural order of names ([src/lib/misc/sortHelpers.c])

    Functions that write work on a memory; functions that only read take a
    string as the list of its octets before the terminating zero, and give a
    pointer into it as an offset.  The order of names is compared with the
    lexicographic order of the names cut into numbers and characters. *)

From S2P Require Import Prelude Strtol.

Module Strings.
Import Strtol.

(** ** Memory *)

Fixpoint copy_up (count : nat) (m : mem) (tmp s : Z) : mem :=
  match count with
  | O => m
  | S count => copy_up count (mem_set m tmp (m s)) (tmp + 1) (s + 1)
  end.

Fixpoint copy_down (count : nat) (m : mem) (tmp s : Z) : mem :=
  match count with
  | O => m
  | S count => copy_down count (mem_set m (tmp - 1) (m (s - 1))) (tmp - 1) (s - 1)
  end.

Definition memmove (m : mem) (dest src : Z) (count : nat) : mem :=
  if dest <=? src then copy_up count m dest src
  else copy_down count m (dest + Z.of_nat count) (src + Z.of_nat count).

(** [rep movsl], then a word and an octet as the low bits of the count say; the
    regions do not overlap. *)
Definition memcpy (m : mem) (dest src : Z) (n : nat) : mem :=
  let m := copy_up (4 * (n / 4)) m dest src in
  let d := 4 * (Z.of_nat n / 4) in
  let two := Z.testbit (Z.of_nat n) 1 in
  let m := if two then copy_up 2 m (dest + d) (src + d) else m in
  let d := if two then d + 2 else d in
  if Z.testbit (Z.of_nat n) 0 then copy_up 1 m (dest + d) (src + d) else m.

(** [rep stosb]. *)
Fixpoint memset (m : mem) (s c : Z) (n : nat) : mem :=
  match n with
  | O => m
  | S n => memset (mem_set m s (u8 c)) (s + 1) c n
  end.

Fixpoint memcmp (cs ct : list Z) (count : nat) : Z :=
  match count with
  | O => 0
  | S count =>
      let res := at_ cs 0 - at_ ct 0 in
      if negb (res =? 0) then res else memcmp (drop 1 cs) (drop 1 ct) count
  end.

(** [None] when the fuel is used up. *)
Fixpoint strcpy (fuel : nat) (m : mem) (dest src : Z) : option mem :=
  match fuel with
  | O => None
  | S fuel =>
      let al := m src in
      let m := mem_set m dest al in
      if al =? 0 then Some m else strcpy fuel m (dest + 1) (src + 1)
  end.

(** [count] octets: the string, then zeros. *)
Fixpoint strncpy (m : mem) (dest src : Z) (count : nat) : mem :=
  match count with
  | O => m
  | S count =>
      let al := m src in
      let m := mem_set m dest al in
      if al =? 0 then memset m (dest + 1) 0 count else strncpy m (dest + 1) (src + 1) count
  end.

(** ** Comparison and search *)

Fixpoint strcmp (s1 s2 : list Z) : Z :=
  match s1 with
  | [] => 0 - at_ s2 0
  | c :: s1' => if c =? at_ s2 0 then strcmp s1' (drop 1 s2) else c - at_ s2 0
  end.

(** -1, 0 or 1. *)
Fixpoint strncmp (cs ct : list Z) (count : nat) : Z :=
  match count with
  | O => 0
  | S count =>
      if negb (at_ cs 0 =? at_ ct 0) then (if at_ cs 0 <? at_ ct 0 then -1 else 1)
      else if at_ cs 0 =? 0 then 0
      else strncmp (drop 1 cs) (drop 1 ct) count
  end.

Fixpoint strstr_loop (l1 : nat) (s1 s2 : list Z) (off : nat) : option nat :=
  if (length s2 <=? l1)%nat then
    match l1 with
    | O => None
    | S l1 => if memcmp s1 s2 (length s2) =? 0 then Some off else strstr_loop l1 (drop 1 s1) s2 (S off)
    end
  else None.
Definition strstr (s1 s2 : list Z) : option nat :=
  match s2 with [] => Some O | _ => strstr_loop (length s1) s1 s2 0 end.

(** [strnstr]: the inner loop looks for the first character [c] of what is
    sought; [find] is the rest. *)
Fixpoint strnstr_loop (c : Z) (find : list Z) (s : list Z) (slen off : nat) : option nat :=
  match slen, s with
  | S slen, sc :: s =>
      if negb (sc =? c) then strnstr_loop c find s slen (S off)
      else if (slen <? length find)%nat then None
      else if negb (strncmp s find (length find) =? 0) then strnstr_loop c find s slen (S off)
      else Some off
  | _, _ => None
  end.
Definition strnstr (s find : list Z) (slen : nat) : option nat :=
  match find with [] => Some O | c :: find => strnstr_loop c find s slen 0 end.

Fixpoint strpbrk (cs ct : list Z) : option nat :=
  match cs with
  | [] => None
  | c :: cs => if existsb (λ d, c =? d) ct then Some O else S <$> strpbrk cs ct
  end.

(** The field before the first separator, and what follows it. *)
Definition strsep (s : option (list Z)) (ct : list Z) : option (list Z * option (list Z)) :=
  match s with
  | None => None
  | Some sbegin =>
      match strpbrk sbegin ct with
      | Some i => Some (take i sbegin, Some (drop (S i) sbegin))
      | None => Some (sbegin, None)
      end
  end.

(** The terminator is part of the search. *)
Fixpoint strchr (s : list Z) (c : Z) : option nat :=
  match s with
  | [] => if u8 c =? 0 then Some O else None
  | d :: s => if d =? u8 c then Some O else S <$> strchr s c
  end.

Fixpoint memrchr (s : list Z) (c : Z) (n : nat) : option nat :=
  match n with
  | O => None
  | S n => if at_ s n =? u8 c then Some n else memrchr s c n
  end.
Definition strrchr (s : list Z) (c : Z) : option nat := memrchr s c (length s + 1).

(** An [int] must not overflow. *)
Fixpoint atoi_loop (s : list Z) (res : Z) : outcome Z :=
  match s with
  | c :: s =>
      if (48 <=? c) && (c <=? 57)
      then if LONG_MAX <? res * 10 + c then UB else atoi_loop s (res * 10 + c - 48)
      else Ok res
  | [] => Ok res
  end.
Definition atoi (s : list Z) : outcome Z := atoi_loop s 0.

(** [ptr] does not move when a character is replaced. *)
Fixpoint chrreplace (fuel : nat) (string : list Z) (search ch : Z) : option (list Z) :=
  match fuel with
  | O => None
  | S fuel =>
      match string with
      | [] => Some []
      | c :: rest =>
          if c =? 0 then Some []
          else if c =? search then chrreplace fuel (ch :: rest) search ch
          else (λ r, c :: r) <$> chrreplace fuel rest search ch
      end
  end.

(** ** Comparison without case *)

Definition tolower (ch : Z) : Z := if isupper ch then ch + 32 else ch.
Definition toupper (ch : Z) : Z := if (97 <=? ch) && (ch <=? 122) then 65 + ch - 97 else ch.

Fixpoint strcasecmp (s1 s2 : list Z) : Z :=
  match s1 with
  | [] => tolower 0 - tolower (at_ s2 0)
  | c :: s1' =>
      if tolower c =? tolower (at_ s2 0) then strcasecmp s1' (drop 1 s2)
      else tolower c - tolower (at_ s2 0)
  end.

Fixpoint strncasecmp (s1 s2 : list Z) (n : nat) : Z :=
  match n with
  | O => 0
  | S n' =>
      if negb (tolower (at_ s1 0) =? tolower (at_ s2 0)) then tolower (at_ s1 0) - tolower (at_ s2 0)
      else if at_ s1 0 =? 0 then 0
      else strncasecmp (drop 1 s1) (drop 1 s2) n'
  end.

(** The C string that starts at an octet: it ends before the first zero. *)
Fixpoint cstr (l : list Z) : list Z :=
  match l with [] => [] | c :: l => if c =? 0 then [] else c :: cstr l end.

(** ** Natural order of names *)

(** A [char] is signed. *)
Definition schar (c : Z) : Z := if c <? 128 then c else c - 256.

Definition ULONG_MAX : Z := 2 ^ 32 - 1.

Fixpoint skip_digits (base : Z) (s : list Z) : list Z :=
  match s with
  | [] => []
  | c :: s' =>
      match digit c with
      | None => s
      | Some d => if base <=? d then s else skip_digits base s'
      end
  end.

(** The value and [*endptr]. *)
Definition strtoul (nptr : list Z) (base : Z) : Z * list Z :=
  let s := skip_space nptr in
  let neg := at_ s 0 =? 45 in
  let s := if neg || (at_ s 0 =? 43) then drop 1 s else s in
  let '(s, base) := radix s base in
  let '(acc, any) := convert base (ULONG_MAX / base) (ULONG_MAX mod base) s 0 0 in
  (if any <? 0 then ULONG_MAX else if neg then u32 (- acc) else acc,
   if negb (any =? 0) then skip_digits base s else nptr).

Definition is_num (c : Z) : bool := (48 <=? schar c) && (schar c <=? 57).

(** Letters as capitals, the symbols between the cases before the digits. *)
Definition adjust (c : Z) : Z :=
  let c := schar c in
  if (97 <=? c) && (c <=? 122) then c - 32
  else if (91 <=? c) && (c <=? 96) then c - 49
  else c.

(** [None] when the fuel is used up. *)
Fixpoint bynum_loop (fuel : nat) (s1 s2 : list Z) : option Z :=
  match fuel with
  | O => None
  | S fuel =>
      match s1, s2 with
      | [], [] => Some 0
      | _ :: _, [] => Some 1
      | [], _ :: _ => Some (-1)
      | c1 :: r1, c2 :: r2 =>
          if negb (is_num c1 && is_num c2) then
            if negb (adjust c1 =? adjust c2) then Some (adjust c1 - adjust c2) else bynum_loop fuel r1 r2
          else
            let '(n1, lim1) := strtoul s1 10 in
            let '(n2, lim2) := strtoul s2 10 in
            if n2 <? n1 then Some 1 else if n1 <? n2 then Some (-1) else bynum_loop fuel lim1 lim2
      end
  end.

Definition strcmpbynum (s1 s2 : list Z) : option Z := bynum_loop (S (length s1)) s1 s2.

(** ** The reference: names cut into numbers and characters *)

(** A number is [(48, n)], another character [(k, 0)] with its adjusted code. *)
Definition token : Type := Z * Z.

(** [acc] is the number being read. *)
Definition flush (acc : option Z) : list token :=
  match acc with Some n => [(48, Z.min ULONG_MAX n)] | None => [] end.
Fixpoint tokens (acc : option Z) (s : list Z) : list token :=
  match s with
  | [] => flush acc
  | c :: s =>
      if is_num c then tokens (Some (default 0 acc * 10 + (c - 48))) s
      else flush acc ++ (adjust c, 0) :: tokens None s
  end.

Definition compare_token (a b : token) : comparison :=
  match a.1 ?= b.1 with Eq => a.2 ?= b.2 | c => c end.
Fixpoint compare_tokens (l1 l2 : list token) : comparison :=
  match l1, l2 with
  | [], [] => Eq
  | _ :: _, [] => Gt
  | [], _ :: _ => Lt
  | a :: l1, b :: l2 => match compare_token a b with Eq => compare_tokens l1 l2 | c => c end
  end.

Lemma cstr_nonzero l : Forall (λ c, c ≠ 0) (cstr l).
Proof.
  induction l as [|c l IH]; [constructor|]. cbn [cstr]. destruct (Z.eqb_spec c 0); [constructor|by constructor].
Qed.

Lemma cstr_app v tail : Forall (λ c, c ≠ 0) v → cstr (v ++ 0 :: tail) = v.
Proof.
  intros Hv. induction Hv as [|c v Hc Hv IH]; [done|]. cbn [app cstr]. destruct (Z.eqb_spec c 0); [done|]. by rewrite IH.
Qed.

(** ** Copies *)

Lemma copy_up_spec count : ∀ m tmp s x,
  tmp <= s ∨ s + Z.of_nat count <= tmp → copy_up count m tmp s x = mem_copy m tmp m s (Z.of_nat count) x.
Proof.
  induction count as [|count IH]; intros m tmp s x Hle; cbn [copy_up].
  { rewrite mem_copy_out by lia. done. }
  rewrite IH by lia. destruct (decide (tmp + 1 <= x < tmp + 1 + Z.of_nat count)) as [Hx|Hx].
  - rewrite !mem_copy_in by lia. rewrite mem_set_ne by lia. f_equal. lia.
  - rewrite mem_copy_out by lia. destruct (decide (x = tmp)) as [->|Hne].
    + rewrite mem_set_eq, mem_copy_in by lia. f_equal. lia.
    + rewrite mem_set_ne, mem_copy_out by lia. done.
Qed.

Lemma copy_down_spec count : ∀ m tmp s x,
  s <= tmp →
  copy_down count m tmp s x = mem_copy m (tmp - Z.of_nat count) m (s - Z.of_nat count) (Z.of_nat count) x.
Proof.
  induction count as [|count IH]; intros m tmp s x Hle; cbn [copy_down].
  { rewrite mem_copy_out by lia. done. }
  rewrite IH by lia. destruct (decide (tmp - 1 - Z.of_nat count <= x < tmp - 1)) as [Hx|Hx].
  - rewrite !mem_copy_in by lia. rewrite mem_set_ne by lia. f_equal. lia.
  - rewrite mem_copy_out by lia. destruct (decide (x = tmp - 1)) as [->|Hne].
    + rewrite mem_set_eq, mem_copy_in by lia. f_equal. lia.
    + rewrite mem_set_ne, mem_copy_out by lia. done.
Qed.

(** A copy in two parts, towards higher addresses. *)
Lemma copy_up_app a b : ∀ m tmp s,
  copy_up (a + b) m tmp s = copy_up b (copy_up a m tmp s) (tmp + Z.of_nat a) (s + Z.of_nat a).
Proof.
  induction a as [|a IH]; intros m tmp s; [cbn; by rewrite !Z.add_0_r|].
  cbn [Nat.add copy_up]. rewrite IH. f_equal; lia.
Qed.

Lemma memcpy_bytes m dest src n : memcpy m dest src n = copy_up n m dest src.
Proof.
  pose proof (Z.testbit_spec' (Z.of_nat n) 1 ltac:(lia)) as H1.
  pose proof (Z.testbit_spec' (Z.of_nat n) 0 ltac:(lia)) as H0. rewrite Z.div_1_r in H0. change (2 ^ 1) with 2 in H1.
  set (k := (4 * (n / 4))%nat). assert (4 * (Z.of_nat n / 4) = Z.of_nat k) as Hk.
  { unfold k. rewrite Nat2Z.inj_mul, Nat2Z.inj_div. done. }
  unfold memcpy. fold k. rewrite Hk.
  assert (n = k + (2 * Nat.b2n (Z.testbit (Z.of_nat n) 1) + Nat.b2n (Z.testbit (Z.of_nat n) 0)))%nat as Hn.
  { destruct (Z.testbit _ 1), (Z.testbit _ 0); cbn [Z.b2z Nat.b2n] in *;
      Z.to_euclidean_division_equations; lia. }
  transitivity (copy_up (k + (2 * Nat.b2n (Z.testbit (Z.of_nat n) 1) + Nat.b2n (Z.testbit (Z.of_nat n) 0))) m dest src);
    [|by rewrite <- Hn]. rewrite copy_up_app.
  destruct (Z.testbit _ 1), (Z.testbit _ 0); cbn [Nat.b2n Nat.mul Nat.add]; try done.
  rewrite (copy_up_app 2 1). f_equal; lia.
Qed.

(** ** Searching *)

Lemma memcmp_zero n : ∀ a b,
  memcmp a b n = 0 ↔ ∀ i, (i < n)%nat → at_ a i = at_ b i.
Proof.
  induction n as [|n IH]; intros a b; cbn [memcmp]; [split; [intros _ i Hi; lia|done]|].
  assert (∀ (l : list Z) i, at_ (drop 1 l) i = at_ l (S i)) as Hd by (intros [|c l] i; by destruct i).
  destruct (Z.eqb_spec (at_ a 0 - at_ b 0) 0) as [E|E]; cbn [negb].
  - rewrite IH. split.
    + intros H [|i] Hi; [lia|]. rewrite <- !Hd. apply H. lia.
    + intros H i Hi. rewrite !Hd. apply H. lia.
  - split; [lia|]. intros H. specialize (H 0%nat). lia.
Qed.

(** [s2] starts at offset [i] of [s1]. *)
Definition occurs (s1 s2 : list Z) (i : nat) : Prop := ∃ tail, drop i s1 = s2 ++ tail.

Lemma memcmp_prefix a b : (length b <= length a)%nat → memcmp a b (length b) = 0 ↔ ∃ tail, a = b ++ tail.
Proof.
  intros Hl. rewrite memcmp_zero. unfold at_. split.
  - intros H. exists (drop (length b) a). rewrite <- (take_drop (length b) a) at 1. f_equal.
    apply (nth_ext _ _ 0 0); [rewrite length_take; lia|]. intros i Hi. rewrite length_take in Hi.
    rewrite nth_firstn. destruct (Nat.ltb_spec i (length b)); [apply H|]; lia.
  - intros [tail ->] i Hi. by rewrite app_nth1.
Qed.

Lemma strstr_loop_spec s2 : ∀ l1 s1 off,
  s2 ≠ [] → length s1 = l1 →
  match strstr_loop l1 s1 s2 off with
  | Some k => (off <= k)%nat ∧ occurs s1 s2 (k - off) ∧ ∀ i, (i < k - off)%nat → ¬ occurs s1 s2 i
  | None => ∀ i, ¬ occurs s1 s2 i
  end.
Proof.
  intros l1. induction l1 as [|l1 IH]; intros s1 off Hs Hl; cbn [strstr_loop].
  - destruct s1; [|done]. destruct (_ <=? _)%nat; intros i [tail Ht]; rewrite drop_nil in Ht; by destruct s2.
  - destruct (Nat.leb_spec (length s2) (S l1)) as [Hle|Hlt].
    2:{ intros i [tail Ht]. apply (f_equal length) in Ht. rewrite length_drop, length_app in Ht. lia. }
    destruct s1 as [|c s1]; [done|]. cbn [length] in Hl. injection Hl as Hl.
    assert (∀ i, occurs (c :: s1) s2 (S i) ↔ occurs s1 s2 i) as HS by done.
    destruct (Z.eqb_spec (memcmp (c :: s1) s2 (length s2)) 0) as [E|E].
    + split; [lia|]. rewrite Nat.sub_diag. split; [|lia]. apply memcmp_prefix in E; [done|cbn; lia].
    + assert (¬ occurs (c :: s1) s2 0) as H0 by (intros Ho; by apply E, memcmp_prefix; [cbn; lia|]).
      specialize (IH s1 (S off) Hs Hl). change (drop 1 (c :: s1)) with s1. destruct (strstr_loop l1 s1 s2 (S off)) as [k|].
      * destruct IH as (Hk & Hoc & Hno). split; [lia|]. replace (k - off)%nat with (S (k - S off)) by lia.
        split; [by apply HS|]. intros [|i] Hi; [done|]. rewrite HS. apply Hno. lia.
      * intros [|i]; [done|]. rewrite HS. apply IH.
Qed.

(** [strstr] finds the first occurrence. *)
Lemma strstr_first s1 s2 :
  match strstr s1 s2 with
  | Some k => occurs s1 s2 k ∧ ∀ i, (i < k)%nat → ¬ occurs s1 s2 i
  | None => ∀ i, ¬ occurs s1 s2 i
  end.
Proof.
  unfold strstr. destruct s2 as [|c s2]; [split; [by exists s1|lia]|].
  pose proof (strstr_loop_spec (c :: s2) (length s1) s1 0 ltac:(done) eq_refl) as H.
  destruct (strstr_loop _ _ _ _) as [k|]; [|done]. rewrite Nat.sub_0_r in H. tauto.
Qed.

(** [strrchr] finds the last occurrence, the terminator included. *)
Lemma memrchr_last s c n :
  match memrchr s c n with
  | Some i => (i < n)%nat ∧ at_ s i = u8 c ∧ ∀ j, (i < j < n)%nat → at_ s j ≠ u8 c
  | None => ∀ j, (j < n)%nat → at_ s j ≠ u8 c
  end.
Proof.
  induction n as [|n IH]; cbn [memrchr]; [lia|].
  destruct (Z.eqb_spec (at_ s n) (u8 c)) as [E|E]; [split; [lia|]; split; [done|lia]|].
  destruct (memrchr s c n) as [i|].
  - destruct IH as (Hi & Hc & Hno). split; [lia|]. split; [done|]. intros j Hj.
    destruct (decide (j = n)) as [->|]; [done|]. apply Hno. lia.
  - intros j Hj. destruct (decide (j = n)) as [->|]; [done|]. apply IH. lia.
Qed.

(** [chrreplace] ends when the characters differ, within two rounds for each
    character, and never when it has to replace a character by itself. *)
Lemma chrreplace_maps string search ch fuel :
  search ≠ ch → ch ≠ 0 → Forall (λ c, c ≠ 0) string → (2 * length string < fuel)%nat →
  chrreplace fuel string search ch = Some (map (λ c, if c =? search then ch else c) string).
Proof.
  intros Hne Hch. revert fuel. induction string as [|c string IH]; intros fuel Hs Hf; cbn [length] in Hf.
  { destruct fuel; [lia|done]. }
  apply Forall_cons_1 in Hs as [Hc Hs]. destruct fuel as [|[|fuel]]; [lia..|].
  cbn [chrreplace map]. destruct (Z.eqb_spec c 0); [done|]. destruct (Z.eqb_spec c search).
  - destruct (Z.eqb_spec ch 0); [done|]. destruct (Z.eqb_spec ch search); [congruence|].
    by rewrite IH by (done || lia).
  - change (match string with [] => Some [] | _ => _ end) with (chrreplace (S fuel) string search ch).
    by rewrite IH by (done || lia).
Qed.

Lemma chrreplace_loops string c fuel : c ≠ 0 → c ∈ string → Forall (λ d, d ≠ 0) string → chrreplace fuel string c c = None.
Proof.
  intros Hc. revert string. induction fuel as [|fuel IH]; intros string Hin Hs; [done|].
  destruct string as [|d string]; [by apply not_elem_of_nil in Hin|]. apply Forall_cons_1 in Hs as [Hd Hs].
  cbn [chrreplace]. destruct (Z.eqb_spec d 0); [done|]. destruct (Z.eqb_spec d c) as [->|Hne].
  - apply IH; [by left|by constructor].
  - apply elem_of_cons in Hin as [?|Hin]; [congruence|]. by rewrite IH.
Qed.

(** ** Natural order *)

(** Characters of a C string. *)
Definition string_ok (s : list Z) : Prop := Forall (λ c, 1 <= c < 256) s.

Lemma all_chars (f : Z → bool) c : forallb f (seqZ 1 255) = true → 1 <= c < 256 → f c = true.
Proof.
  intros Hall Hc. rewrite forallb_forall in Hall. apply Hall. rewrite <- list_elem_of_In, elem_of_seqZ. lia.
Qed.

(** A character is a decimal digit for [strtoul] exactly if [is_num] says so. *)
Lemma num_digit c :
  1 <= c < 256 →
  if is_num c then digit c = Some (c - 48) ∧ 0 <= c - 48 < 10
  else match digit c with Some d => (10 <=? d) = true | None => True end.
Proof.
  intros Hc. pose proof (all_chars (λ c, if is_num c then bool_decide (digit c = Some (c - 48) ∧ 0 <= c - 48 < 10)
    else match digit c with Some d => 10 <=? d | None => true end) c eq_refl Hc) as H. cbv beta in H.
  destruct (is_num c); [by apply bool_decide_eq_true in H|by destruct (digit c)].
Qed.

(** A number and another character compare alike whatever the number. *)
Lemma adjust_num c : 1 <= c < 256 → if is_num c then adjust c = c ∧ 48 <= c <= 57 else adjust c < 48 ∨ 57 < adjust c.
Proof.
  intros Hc. pose proof (all_chars (λ c, if is_num c then bool_decide (adjust c = c ∧ 48 <= c <= 57)
    else bool_decide (adjust c < 48 ∨ 57 < adjust c)) c eq_refl Hc) as H. cbv beta in H.
  destruct (is_num c); by apply bool_decide_eq_true in H.
Qed.

(** The tokens of a name that is being read as a number. *)
Lemma tokens_number s : string_ok s → ∀ n,
  tokens (Some n) s = (48, Z.min ULONG_MAX (foldl (λ a d, a * 10 + d) n (digits 10 s))) :: tokens None (skip_digits 10 s).
Proof.
  induction s as [|c s IH]; intros Hs n; [done|]. apply Forall_cons_1 in Hs as [Hc Hs].
  pose proof (num_digit c Hc) as Hd. cbn [tokens digits skip_digits].
  destruct (is_num c) eqn:En.
  - destruct Hd as [-> Hr]. destruct (Z.leb_spec 10 (c - 48)); [lia|]. cbn [default foldl]. by rewrite IH.
  - assert (tokens None (c :: s) = (adjust c, 0) :: tokens None s) as Ht by (cbn [tokens]; by rewrite En).
    destruct (digit c) as [d|]; [rewrite Hd|]; cbn [foldl]; by rewrite Ht.
Qed.

Lemma convert_any base cutoff cutlim s : ∀ acc any, any ≠ 0 → (convert base cutoff cutlim s acc any).2 ≠ 0.
Proof.
  induction s as [|c s IH]; intros acc any Hany; [done|]. cbn [convert]. destruct (digit c); [|done].
  destruct (_ <=? _); [done|]. by destruct (_ || _); apply IH.
Qed.

(** [strtoul] reads one number token. *)
Lemma strtoul_token c s :
  string_ok (c :: s) → is_num c = true →
  tokens None (c :: s) = (48, (strtoul (c :: s) 10).1) :: tokens None (strtoul (c :: s) 10).2 ∧
  (length (strtoul (c :: s) 10).2 <= length s)%nat ∧ string_ok (strtoul (c :: s) 10).2.
Proof.
  intros Hs Hn. pose proof Hs as Hs'. apply Forall_cons_1 in Hs' as [Hc Hs'].
  pose proof (num_digit c Hc) as Hd. rewrite Hn in Hd. destruct Hd as [Hd Hr].
  assert (skip_digits 10 (c :: s) = skip_digits 10 s) as Hskip.
  { cbn [skip_digits]. rewrite Hd. by destruct (Z.leb_spec 10 (c - 48)); [lia|]. }
  assert (length (skip_digits 10 s) <= length s ∧ string_ok (skip_digits 10 s))%nat as Hrest.
  { clear - Hs'. induction s as [|d s IH]; [done|]. pose proof Hs' as Ha. apply Forall_cons_1 in Ha as [_ Ha].
    cbn [skip_digits length]. destruct (digit d) as [v|]; [destruct (10 <=? v)|]; [by split| |by split].
    destruct (IH Ha). split; [lia|done]. }
  assert (strtoul (c :: s) 10 = (Z.min ULONG_MAX (value 10 (digits 10 (c :: s))), skip_digits 10 s)) as ->.
  { unfold strtoul. rewrite skip_digit by lia. change (at_ (c :: s) 0) with c.
    destruct (Z.eqb_spec c 45), (Z.eqb_spec c 43); [lia..|]. cbn [orb]. change (radix (c :: s) 10) with (c :: s, 10).
    pose proof (convert_spec ULONG_MAX 10 (c :: s) 0 0 ltac:(lia)) as Hconv.
    unfold ULONG_MAX in Hconv at 1 2. specialize (Hconv ltac:(lia) ltac:(lia) ltac:(lia)).
    assert (Forall byte (c :: s)) as Hb 
      by (unfold string_ok in Hs; eapply Forall_impl; [|exact Hs]; unfold byte; cbn; lia).
    specialize (Hconv Hb).
    assert ((convert 10 (ULONG_MAX / 10) (ULONG_MAX mod 10) (c :: s) 0 0).2 ≠ 0) as Hany.
    { cbn [convert]. rewrite Hd. destruct (Z.leb_spec 10 (c - 48)); [lia|].
      destruct (_ || _); apply convert_any; lia. }
    unfold value. cbv zeta in Hconv. destruct (convert _ _ _ (c :: s) 0 0) as [acc any]. cbn [fst snd] in *.
    destruct (Z.eqb_spec any 0); [done|]. cbn [negb]. rewrite Hskip.
    destruct Hconv as [(Hv & -> & Ha)|(Hv & ->)].
    - destruct (Z.ltb_spec any 0); [lia|]. f_equal. lia.
    - cbn [Z.ltb Z.compare]. f_equal. lia. }
  cbn [fst snd]. split; [|exact Hrest]. cbn [tokens default]. rewrite Hn, tokens_number by done.
  f_equal. unfold value. cbn [digits]. rewrite Hd. by destruct (Z.leb_spec 10 (c - 48)); [lia|].
Qed.

Lemma tokens_other c s : is_num c = false → tokens None (c :: s) = (adjust c, 0) :: tokens None s.
Proof. intros Hn. cbn [tokens]. by rewrite Hn. Qed.

(** The first token starts with the adjusted character. *)
Lemma tokens_head c s :
  string_ok (c :: s) → ∃ n l, tokens None (c :: s) = (if is_num c then 48 else adjust c, n) :: l.
Proof.
  intros Hs. destruct (is_num c) eqn:Hn.
  - destruct (strtoul_token c s Hs Hn) as [-> _]. by eexists _, _.
  - rewrite tokens_other by done. by eexists _, _.
Qed.

Lemma compare_head a b l1 l2 : a.1 ≠ b.1 → compare_tokens (a :: l1) (b :: l2) = (a.1 ?= b.1).
Proof. intros H. cbn [compare_tokens]. unfold compare_token. destruct (Z.compare_spec a.1 b.1); done. Qed.

Lemma bynum_loop_spec fuel : ∀ s1 s2,
  string_ok s1 → string_ok s2 → (length s1 < fuel)%nat →
  ∃ r, bynum_loop fuel s1 s2 = Some r ∧ (r ?= 0) = compare_tokens (tokens None s1) (tokens None s2).
Proof.
  induction fuel as [|fuel IH]; intros s1 s2 H1 H2 Hf; [lia|]. cbn [bynum_loop].
  destruct s1 as [|c1 r1], s2 as [|c2 r2].
  - by exists 0.
  - exists (-1). split; [done|]. by destruct (tokens_head c2 r2 H2) as (n & l & ->).
  - exists 1. split; [done|]. by destruct (tokens_head c1 r1 H1) as (n & l & ->).
  - pose proof H1 as [Hc1 Hr1]%Forall_cons_1. pose proof H2 as [Hc2 Hr2]%Forall_cons_1. cbn [length] in Hf.
    pose proof (adjust_num c1 Hc1) as Ha1. pose proof (adjust_num c2 Hc2) as Ha2.
    destruct (is_num c1 && is_num c2) eqn:En; cbn [negb].
    + apply andb_true_iff in En as [E1 E2].
      destruct (strtoul_token c1 r1 H1 E1) as (-> & Hl1 & Ho1), (strtoul_token c2 r2 H2 E2) as (-> & Hl2 & Ho2).
      destruct (strtoul (c1 :: r1) 10) as [n1 lim1], (strtoul (c2 :: r2) 10) as [n2 lim2]. cbn [fst snd] in *.
      cbn [compare_tokens]. unfold compare_token. cbn [fst snd]. rewrite Z.compare_refl.
      destruct (Z.compare_spec n1 n2), (Z.ltb_spec n2 n1), (Z.ltb_spec n1 n2); try lia; [|by eexists..].
      apply IH; [done|done|lia].
    + destruct (Z.eqb_spec (adjust c1) (adjust c2)) as [E|E]; cbn [negb].
      * assert (is_num c1 = false ∧ is_num c2 = false) as [E1 E2]
          by (destruct (is_num c1), (is_num c2); try done; lia).
        rewrite !tokens_other by done. cbn [compare_tokens]. unfold compare_token. cbn [fst snd].
        rewrite E, !Z.compare_refl. apply IH; [done|done|lia].
      * eexists. split; [done|].
        destruct (tokens_head c1 r1 H1) as (n1 & l1 & ->), (tokens_head c2 r2 H2) as (n2 & l2 & ->).
        rewrite compare_head; cbn [fst]; destruct (is_num c1), (is_num c2); try done; try lia;
          repeat match goal with |- context [?a ?= ?b] => destruct (Z.compare_spec a b) end; lia || done.
Qed.

Lemma compare_tokens_refl l : compare_tokens l l = Eq.
Proof. induction l as [|a l IH]; [done|]. cbn. unfold compare_token. by rewrite !Z.compare_refl. Qed.

Lemma compare_tokens_opp l1 : ∀ l2, compare_tokens l2 l1 = CompOpp (compare_tokens l1 l2).
Proof.
  induction l1 as [|a l1 IH]; intros [|b l2]; try done. cbn [compare_tokens]. unfold compare_token.
  rewrite (Z.compare_antisym a.1 b.1), (Z.compare_antisym a.2 b.2).
  destruct (a.1 ?= b.1), (a.2 ?= b.2); cbn; auto.
Qed.

Lemma compare_token_eq a b : compare_token a b = Eq → a = b.
Proof.
  destruct a, b. unfold compare_token. cbn [fst snd].
  destruct (Z.compare_spec z z1); [|done..]. destruct (Z.compare_spec z0 z2); [|done..]. intros _. congruence.
Qed.

Lemma compare_token_trans a b c : compare_token a b = Lt → compare_token b c = Lt → compare_token a c = Lt.
Proof.
  unfold compare_token.
  destruct (Z.compare_spec a.1 b.1), (Z.compare_spec b.1 c.1), (Z.compare_spec a.1 c.1); try done; try lia;
    rewrite !Z.compare_lt_iff; lia.
Qed.

Lemma compare_tokens_trans l1 : ∀ l2 l3,
  compare_tokens l1 l2 ≠ Gt → compare_tokens l2 l3 ≠ Gt → compare_tokens l1 l3 ≠ Gt.
Proof.
  induction l1 as [|a l1 IH]; intros [|b l2] [|c l3]; try done. cbn [compare_tokens].
  destruct (compare_token a b) eqn:E1; [|destruct (compare_token b c) eqn:E2|done].
  - apply compare_token_eq in E1 as ->. destruct (compare_token b c); try done. apply IH.
  - apply compare_token_eq in E2 as ->. by rewrite E1.
  - by rewrite (compare_token_trans _ _ _ E1 E2).
  - done.
Qed.

(** ** Properties *)

(** C38: the order of names is total and natural: [strcmpbynum] always returns, its
    sign compares the names cut into numbers and characters (numbers by their
    value, letters without case), exchanging the names exchanges the sign, and the
    order is transitive. *)
Theorem strcmpbynum_natural_order s1 s2 s3 :
  string_ok s1 → string_ok s2 → string_ok s3 →
  ∃ r12 r21 r23 r13,
    strcmpbynum s1 s2 = Some r12 ∧ strcmpbynum s2 s1 = Some r21 ∧
    strcmpbynum s2 s3 = Some r23 ∧ strcmpbynum s1 s3 = Some r13 ∧
    (r12 ?= 0) = compare_tokens (tokens None s1) (tokens None s2) ∧
    Z.sgn r21 = - Z.sgn r12 ∧ (r12 <= 0 → r23 <= 0 → r13 <= 0).
Proof.
  intros H1 H2 H3. unfold strcmpbynum.
  destruct (bynum_loop_spec (S (length s1)) s1 s2 H1 H2) as (r12 & -> & E12); [lia|].
  destruct (bynum_loop_spec (S (length s2)) s2 s1 H2 H1) as (r21 & -> & E21); [lia|].
  destruct (bynum_loop_spec (S (length s2)) s2 s3 H2 H3) as (r23 & -> & E23); [lia|].
  destruct (bynum_loop_spec (S (length s1)) s1 s3 H1 H3) as (r13 & -> & E13); [lia|].
  exists r12, r21, r23, r13. do 5 (split; [done|]). split.
  - rewrite compare_tokens_opp, <- E12 in E21.
    destruct (Z.compare_spec r12 0), (Z.compare_spec r21 0); try done; lia.
  - pose proof (compare_tokens_trans (tokens None s1) (tokens None s2) (tokens None s3)) as Ht.
    rewrite <- E12, <- E23, <- E13 in Ht. unfold Z.le. apply Ht.
Qed.

(** ["bank2.bin"], ["Bank10.bin"] and ["bank_a"]. *)
Lemma strcmpbynum_natural_order_witness :
  let b2 := [98; 97; 110; 107; 50; 46; 98; 105; 110] in
  let b10 := [66; 97; 110; 107; 49; 48; 46; 98; 105; 110] in
  ∃ r, strcmpbynum b2 b10 = Some r ∧ (r ?= 0) = Lt.
Proof.
  intros b2 b10.
  destruct (strcmpbynum_natural_order b2 b10 [98; 97; 110; 107; 95; 97]) as (r & _ & _ & _ & Hr & _ & _ & _ & Hc & _).
  - apply (bool_decide_unpack _). vm_compute. exact I.
  - apply (bool_decide_unpack _). vm_compute. exact I.
  - apply (bool_decide_unpack _). vm_compute. exact I.
  - exists r. split; [exact Hr|]. rewrite Hc. vm_compute. reflexivity.
Defined.

(** [memmove] is a simultaneous copy: every octet of the target is what the
    source held before, however the regions overlap, and no other octet
    changes; on regions that do not overlap [memcpy] does the same. *)
Theorem memmove_copies m dest src count x :
  memmove m dest src count x = mem_copy m dest m src (Z.of_nat count) x ∧
  (dest + Z.of_nat count <= src ∨ src + Z.of_nat count <= dest →
   memcpy m dest src count x = memmove m dest src count x).
Proof.
  assert (memmove m dest src count x = mem_copy m dest m src (Z.of_nat count) x) as Hm.
  { unfold memmove. destruct (Z.leb_spec dest src).
    - apply copy_up_spec. by left.
    - rewrite copy_down_spec by lia. f_equal; lia. }
  split; [done|]. intros Hdis. rewrite Hm, memcpy_bytes. apply copy_up_spec. lia.
Qed.

(** Seven octets moved by two places and copied elsewhere. *)
Lemma memmove_copies_witness :
  let m := mem_of_list [1; 2; 3; 4; 5; 6; 7] in
  mem_read (memmove m 2 0 7) 0 9 = [1; 2; 1; 2; 3; 4; 5; 6; 7] ∧ memcpy m 10 0 7 16 = 7.
Proof.
  intros m. split; [vm_compute; reflexivity|].
  rewrite (proj2 (memmove_copies m 10 0 7 16)) by lia. rewrite (proj1 (memmove_copies m 10 0 7 16)).
  vm_compute. reflexivity.
Defined.

End Strings.
