(* ===== verification/Smbus.v ===== *)
(** * The SMBus driver ([src/drivers/pci/i2cio.c]) and its users for the EEPROM
      ([BootEepromReadEntireEEPROM] of [src/lib/eeprom/BootEEPROM.c]) and the front
      panel ([src/lib/misc/LED.c])

    The controller is a set of ports; [SmbusPorts] is that hardware, and the
    passing of time while the program waits.  A loop that polls a port without a
    bound has [fuel] rounds.  Results are 32 bits wide and written unsigned. *)

From Stdlib Require Import String.
From S2P Require Import Prelude Layout Eeprom Hardware Identify Format Strings.

Class SmbusPorts (W : Type) := {
  port_in8 : Z → W → Z * W;
  port_out8 : Z → Z → W → W;
  port_in16 : Z → W → Z * W;
  port_out16 : Z → Z → W → W;
  wait_us_blocking : Z → W → W
}.

Module Smbus.
Import Eeprom Hardware Identify.

Abbreviation length := List.length.

Definition I2C_IO_BASE : Z := 0xc000.
Definition ERR_SUCCESS : Z := 0.

Section driver.
Context {W : Type} `{!SmbusPorts W} (fuel : positive).

Local Abbreviation M := (ST W).

Definition IoInputByte (port : Z) : M Z := λ w, let '(v, w) := port_in8 port w in Ok (u8 v, w).
Definition IoOutputByte (port v : Z) : M unit := λ w, Ok (tt, port_out8 port (u8 v) w).
Definition IoInputWord (port : Z) : M Z := λ w, let '(v, w) := port_in16 port w in Ok (u16 v, w).
Definition IoOutputWord (port v : Z) : M unit := λ w, Ok (tt, port_out16 port (u16 v) w).

(** The loop while another master has the bus. *)
Definition bus_idle : M unit :=
  loop_until fuel
    (w ← IoInputWord (I2C_IO_BASE + 0); mret (if truthy (w .& 0x0800) then None else Some tt)).

(** The loop until the cycle is complete or has failed. *)
Definition cycle_end : M Z :=
  loop_until fuel
    (b ← IoInputByte (I2C_IO_BASE + 0); mret (if b .& 0x36 =? 0 then None else Some b)).

Definition clear_errors : M unit :=
  temp ← IoInputWord (I2C_IO_BASE + 0);
  IoOutputWord (I2C_IO_BASE + 0) temp.

(** [while(nRetriesToLive--)]: [Some] returns. *)
Fixpoint retries {A} (nRetriesToLive : nat) (m : M (option A)) : M (option A) :=
  match nRetriesToLive with
  | O => mret None
  | S n => r ← m; match r with Some a => mret (Some a) | None => retries n m end
  end.

Definition write_data (Size Data_to_smbus : Z) : M unit :=
  match Size with
  | 4 =>
      IoOutputByte (I2C_IO_BASE + 9) (Data_to_smbus .& 0xff) ;;
      IoOutputByte (I2C_IO_BASE + 9) (Z.shiftr Data_to_smbus 8 .& 0xff) ;;
      IoOutputByte (I2C_IO_BASE + 9) (Z.shiftr Data_to_smbus 16 .& 0xff) ;;
      IoOutputByte (I2C_IO_BASE + 9) (Z.shiftr Data_to_smbus 24 .& 0xff) ;;
      IoOutputWord (I2C_IO_BASE + 6) 4
  | 2 => IoOutputWord (I2C_IO_BASE + 6) (Data_to_smbus .& 0xffff)
  | _ => IoOutputWord (I2C_IO_BASE + 6) (Data_to_smbus .& 0xff)
  end.

Definition write_try (Address bRegister Size Data_to_smbus : Z) : M (option Z) :=
  IoOutputByte (I2C_IO_BASE + 4) (Z.shiftl Address 1 .| 0) ;;
  IoOutputByte (I2C_IO_BASE + 8) bRegister ;;
  write_data Size Data_to_smbus ;;
  clear_errors ;;
  IoOutputByte (I2C_IO_BASE + 2) (match Size with 4 => 0x1d | 2 => 0x1b | _ => 0x1a end) ;;
  b ← cycle_end;
  if negb (b .& 0x10 =? 0) then mret (Some ERR_SUCCESS)
  else modify (wait_us_blocking 1) ;; mret None.

Definition WriteToSMBus (Address bRegister Size Data_to_smbus : Z) : M Z :=
  bus_idle ;;
  r ← retries 50 (write_try Address bRegister Size Data_to_smbus);
  mret (default ERR_I2C_ERROR_BUS r).

(** What a completed cycle leaves in [*Data_to_smbus]; four octets are read and
    not kept. *)
Definition read_data (Size data : Z) : M Z :=
  match Size with
  | 4 =>
      IoInputByte (I2C_IO_BASE + 6) ;;
      IoInputByte (I2C_IO_BASE + 9) ;;
      IoInputByte (I2C_IO_BASE + 9) ;;
      IoInputByte (I2C_IO_BASE + 9) ;;
      IoInputByte (I2C_IO_BASE + 9) ;;
      mret data
  | 2 => IoInputWord (I2C_IO_BASE + 6)
  | _ => IoInputByte (I2C_IO_BASE + 6)
  end.

Definition read_try (Address bRegister Size data : Z) : M (option Z) :=
  IoOutputByte (I2C_IO_BASE + 4) (Z.shiftl Address 1 .| 1) ;;
  IoOutputByte (I2C_IO_BASE + 8) bRegister ;;
  clear_errors ;;
  IoOutputByte (I2C_IO_BASE + 2) (match Size with 4 => 0x0d | 2 => 0x0b | _ => 0x0a end) ;;
  b ← cycle_end;
  if b .& 0x10 =? 0 then mret None
  else v ← read_data Size data; mret (Some v).

(** The result, and [*Data_to_smbus], which held [data]. *)
Definition ReadfromSMBus (Address bRegister Size data : Z) : M (Z * Z) :=
  bus_idle ;;
  r ← retries 50 (read_try Address bRegister Size data);
  mret (match r with Some v => (ERR_SUCCESS, v) | None => (ERR_I2C_ERROR_BUS, data) end).

(** ** Commands *)

(** [temp] is not initialised, and not returned unless it was read. *)
Definition I2CTransmitByteGetReturn (bPicAddressI2cFormat bDataToWrite : Z) : M Z :=
  '(r, temp) ← ReadfromSMBus bPicAddressI2cFormat bDataToWrite 1 0;
  if negb (r =? ERR_SUCCESS) then mret ERR_I2C_ERROR_BUS else mret temp.

Definition I2CTransmitWord (bPicAddressI2cFormat wDataToWrite : Z) : M Z :=
  WriteToSMBus bPicAddressI2cFormat (Z.shiftr (u16 wDataToWrite) 8 .& 0xff) 1 (u16 wDataToWrite .& 0xff).

Definition I2CWriteBytetoRegister (bPicAddressI2cFormat bRegister wDataToWrite : Z) : M Z :=
  WriteToSMBus bPicAddressI2cFormat bRegister 1 (u8 wDataToWrite .& 0xff).

(** The address that is passed is not used. *)
Definition I2CModifyBits (bAds bReg bData bMask : Z) : M unit :=
  r ← I2CTransmitByteGetReturn 0x45 bReg;
  let b := u8 (r .& Z.lnot bMask) in
  I2CTransmitWord 0x45 (Z.shiftl bReg 8 .| (bData .& bMask) .| b) ;;
  mret tt.

Definition I2cSetFrontpanelLed (b : Z) : M Z :=
  I2CTransmitWord 0x10 (0x800 .| b) ;;
  I2CTransmitWord 0x10 0x701 ;;
  mret ERR_SUCCESS.

Definition I2CGetFanSpeed : M Z :=
  r ← I2CTransmitByteGetReturn 0x10 0x10;
  mret (u8 (Z.shiftl r 1)).

Definition I2CSetFanSpeed (speed : Z) : M unit :=
  WriteToSMBus 0x10 0x06 1 (Z.shiftr speed 1) ;;
  modify (wait_us_blocking 5) ;;
  WriteToSMBus 0x10 0x05 1 1 ;;
  modify (wait_us_blocking 5) ;;
  WriteToSMBus 0x10 0x06 1 (Z.shiftr speed 1) ;;
  mret tt.

(** The revision of a version string; [probe] reads the video encoder. *)
Definition mb_revision (ver : list Z) (probe : M Z) : M XboxMotherboardRevision :=
  let is_ s := Strings.strcmp (Strings.cstr ver) (Format.text s) =? 0 in
  if is_ "01D"%string || is_ "D01"%string || is_ "1D0"%string || is_ "0D1"%string
  then mret XboxMotherboardRevision_DEVKIT
  else if is_ "DBG"%string || is_ "B11"%string then mret XboxMotherboardRevision_DEBUGKIT
  else if is_ "P01"%string then mret XboxMotherboardRevision_1_0
  else if is_ "P05"%string then mret XboxMotherboardRevision_1_1
  else if is_ "P11"%string || is_ "1P1"%string || is_ "11P"%string then
    r ← probe;
    mret (if r =? 0 then XboxMotherboardRevision_1_4 else XboxMotherboardRevision_1_2)
  else if is_ "P2L"%string then mret XboxMotherboardRevision_1_6
  else mret XboxMotherboardRevision_UNKNOWN.

(** [t0], [t1], [t2] is what the array on the stack holds before. *)
Definition I2CGetXboxMBRev (t0 t1 t2 : Z) : M XboxMotherboardRevision :=
  I2CTransmitWord 0x10 0x0100 ;;
  '(_, t0) ← ReadfromSMBus 0x10 0x01 1 t0;
  '(_, t1) ← ReadfromSMBus 0x10 0x01 1 t1;
  '(_, t2) ← ReadfromSMBus 0x10 0x01 1 t2;
  mb_revision [u8 t0; u8 t1; u8 t2] ('(r, _) ← ReadfromSMBus 0x6A 0x00 0 t0; mret r).

(** ** Front panel *)

(** The loop over the pattern: the bits of the red and of the green lamp. *)
Fixpoint led_bits (x : list Z) (r g : Z) : Z * Z :=
  match x with
  | [] => (r, g)
  | c :: x =>
      let r := r * 2 in
      let g := g * 2 in
      if c =? 114 then led_bits x (r + 1) g
      else if c =? 103 then led_bits x r (g + 1)
      else if c =? 111 then led_bits x (r + 1) (g + 1)
      else led_bits x r g
  end.

Definition setLED (pattern : list Z) : M unit :=
  if (length pattern =? 4)%nat then
    let '(r, g) := led_bits pattern 0 0 in
    I2cSetFrontpanelLed (u8 ((Z.shiftl r 4 .& 0xF0) + (g .& 0xF))) ;;
    mret tt
  else mret tt.

(** ** EEPROM *)

Fixpoint read_eeprom (n : nat) (i : Z) : M (list Z) :=
  match n with
  | O => mret []
  | S n =>
      b ← I2CTransmitByteGetReturn 0x54 i;
      rest ← read_eeprom n (i + 1);
      mret (u8 b :: rest)
  end.

Definition BootEepromReadEntireEEPROM : M (list Z) := read_eeprom (sizeof EEPROMDATA) 0.

(** The commands that the functions of [Eeprom.v] send, on the bus. *)
Fixpoint send (ws : list smbus_write) : M unit :=
  match ws with
  | [] => mret tt
  | w :: ws => WriteToSMBus (smb_device w) (smb_address w) (smb_size w) (smb_data w) ;; send ws
  end.
End driver.
End Smbus.
