(* ===== verification/SmbusHost.v ===== *)
(** * Transfers on the SMBus

    A controller with the register interface of the AMD-756 and devices behind it:
    the status register at +0 whose bits are cleared by writing ones, the control
    register at +2 whose bit 3 starts a cycle, address, data and command at +4, +6
    and +8.  A cycle takes some polls and can fail, as a device that is busy does
    not answer; other masters can have the bus.  [sched] says so for every cycle,
    and the theorems hold for every [sched] without fifty failures in a row. *)

From S2P Require Import Prelude Layout Eeprom Identify Strings Smbus.

(** The devices: what a write or a read of a register does; [None] is no answer. *)
Class SmbusDevices (D : Type) := {
  dev_write : Z → Z → Z → D → option D;
  dev_read : Z → Z → D → option (Z * D)
}.

Module SmbusHost.
Import Eeprom Identify Smbus.

#[local] Arguments Z.add : simpl nomatch.

Record slot := mkSlot { latency : nat; acked : bool; traffic : nat }.

Section host.
Context {D : Type} `{!SmbusDevices D}.

(** [cycle] is the number of polls until the cycle that runs is over, [busy] the
    number of polls during which another master has the bus. *)
Record host := mkHost {
  stat : Z;
  haddr : Z;
  hdata : Z;
  hcmd : Z;
  cycle : option nat;
  busy : nat;
  count : nat;
  sched : nat → slot;
  devices : D
}.

(** The answer to the cycle: the data register and the devices after it. *)
Definition answer (h : host) : option (Z * D) :=
  let device := Z.shiftr (haddr h) 1 in
  if negb (acked (sched h (count h))) then None
  else if Z.testbit (haddr h) 0 then
    '(v, d) ← dev_read device (hcmd h) (devices h); Some (v, d)
  else d ← dev_write device (hcmd h) (u8 (hdata h)) (devices h); Some (hdata h, d).

Definition finish (h : host) : host :=
  let k := count h in
  let after := traffic (sched h k) in
  match answer h with
  | Some (v, d) => mkHost (stat h .| 0x10) (haddr h) v (hcmd h) None after (S k) (sched h) d
  | None => mkHost (stat h .| 0x04) (haddr h) (hdata h) (hcmd h) None after (S k) (sched h) (devices h)
  end.

Definition set_stat (v : Z) (h : host) : host :=
  mkHost v (haddr h) (hdata h) (hcmd h) (cycle h) (busy h) (count h) (sched h) (devices h).
Definition set_haddr (v : Z) (h : host) : host :=
  mkHost (stat h) v (hdata h) (hcmd h) (cycle h) (busy h) (count h) (sched h) (devices h).
Definition set_hdata (v : Z) (h : host) : host :=
  mkHost (stat h) (haddr h) v (hcmd h) (cycle h) (busy h) (count h) (sched h) (devices h).
Definition set_hcmd (v : Z) (h : host) : host :=
  mkHost (stat h) (haddr h) (hdata h) v (cycle h) (busy h) (count h) (sched h) (devices h).
Definition set_cycle (v : option nat) (h : host) : host :=
  mkHost (stat h) (haddr h) (hdata h) (hcmd h) v (busy h) (count h) (sched h) (devices h).
Definition set_busy (v : nat) (h : host) : host :=
  mkHost (stat h) (haddr h) (hdata h) (hcmd h) (cycle h) v (count h) (sched h) (devices h).

(** Byte cycles only: type 2 in the control register. *)
Definition start (control : Z) (h : host) : host :=
  if Z.testbit control 3 && (control .& 7 =? 2)
  then set_cycle (Some (latency (sched h (count h)))) h else h.

Definition host_in8 (port : Z) (h : host) : Z * host :=
  if port =? 0xc000 then
    match cycle h with
    | None => (stat h, h)
    | Some O => let h := finish h in (stat h, h)
    | Some (S n) => (stat h .| 0x08, set_cycle (Some n) h)
    end
  else if port =? 0xc006 then (hdata h, h)
  else (0, h).

Definition host_in16 (port : Z) (h : host) : Z * host :=
  if port =? 0xc000 then
    match busy h with
    | O => (stat h, h)
    | S n => (stat h .| 0x0800, set_busy n h)
    end
  else if port =? 0xc006 then (hdata h, h)
  else (0, h).

Definition host_out8 (port v : Z) (h : host) : host :=
  if port =? 0xc002 then start v h
  else if port =? 0xc004 then set_haddr v h
  else if port =? 0xc006 then set_hdata v h
  else if port =? 0xc008 then set_hcmd v h
  else h.

Definition host_out16 (port v : Z) (h : host) : host :=
  if port =? 0xc000 then set_stat (Z.ldiff (stat h) v) h
  else if port =? 0xc006 then set_hdata v h
  else h.

#[export] Instance host_ports : SmbusPorts host := {|
  port_in8 := host_in8;
  port_out8 := host_out8;
  port_in16 := host_in16;
  port_out16 := host_out16;
  wait_us_blocking := λ _ h, h
|}.

(** ** Cycles *)

(** One access to a port. *)
Ltac port := rewrite ?bind_cases; unfold IoInputWord, IoInputByte, IoOutputByte, IoOutputWord; cbn.

Context (fuel : positive).

(** No cycle runs, and every wait ends within [fuel] polls. *)
Definition ready (h : host) : Prop :=
  0 <= stat h < 256 ∧ cycle h = None ∧ (busy h < Pos.to_nat fuel)%nat ∧
  ∀ k, (latency (sched h k) < Pos.to_nat fuel)%nat ∧ (traffic (sched h k) < Pos.to_nat fuel)%nat.

(** [h'] is [h] after [n] cycles, with [d] for the devices. *)
Definition after (n : nat) (d : D) (h h' : host) : Prop :=
  ready h' ∧ sched h' = sched h ∧ count h' = (count h + n)%nat ∧ devices h' = d.

(** One of the next [n] cycles is answered. *)
Definition answered (n : nat) (h : host) : bool :=
  existsb (λ j, acked (sched h (count h + j))) (seq 0 n).

Lemma after_trans m n d d' h h1 h2 : after m d h h1 → after n d' h1 h2 → after (m + n) d' h h2.
Proof. intros (_ & Hs & Hc & _) (Hr & Hs' & Hc' & Hd). split_and!; [done|congruence|lia|done]. Qed.

Lemma clear_all a b : 0 <= a < 256 → 0 <= b < 2 ^ 16 → Z.ldiff a (u16 (a .| b)) = 0.
Proof.
  intros Ha Hb. assert (0 <= a .| b < 2 ^ 16) as Hab by (apply lor_bound; lia).
  unfold u16. rewrite Z.mod_small by done. apply Z.bits_inj'. intros i Hi.
  rewrite Z.ldiff_spec, Z.lor_spec, Z.bits_0. by destruct (Z.testbit a i).
Qed.

(** The status that is read and written back clears the status. *)
Lemma clear_errors_runs h : ready h → clear_errors h = Ok (tt, set_stat 0 (set_busy (pred (busy h)) h)).
Proof.
  intros (Hs & _). unfold clear_errors. rewrite bind_cases.
  assert (∀ b, 0 <= b < 2 ^ 16 → Z.ldiff (stat h) (u16 (u16 (stat h .| b))) = 0) as Hz.
  { intros b Hb. unfold u16. rewrite Z.mod_mod by lia. by apply clear_all. }
  destruct h as [st a dt c cy [|n] k sc d]; cbn in *.
  - specialize (Hz 0 ltac:(lia)). rewrite Z.lor_0_r in Hz. unfold IoOutputWord, set_stat. cbn. by rewrite Hz.
  - unfold IoOutputWord, set_stat. cbn. by rewrite (Hz 0x800 ltac:(lia)).
Qed.

Lemma bus_idle_runs h : ready h → ∃ h', bus_idle fuel h = Ok (tt, h') ∧ after 0 (devices h) h h'.
Proof.
  intros Hr. destruct Hr as (Hs & Hc & Hb & Hk).
  exists (set_busy O h). split.
  - apply (loop_until_ends _ _ (busy h)); [|done]. clear Hb Hk. remember (busy h) as n eqn:En.
    revert h Hs Hc En. induction n as [|n IH]; intros [st a dt c cy b k sc d] Hs Hc En; cbn in Hs, Hc, En; subst b cy.
    + apply ends_now. port. unfold u16. rewrite Z.mod_small by lia.
      assert (st .& 0x800 = 0) as ->; [|done].
      apply Z.bits_inj'. intros i Hi. rewrite Z.land_spec, Z.bits_0.
      destruct (Z.lt_ge_cases i 8); [|by rewrite (testbit_above st 8)].
      destruct (decide (i = 11)); [lia|]. rewrite andb_comm. change 0x800 with (2 ^ 11). by rewrite Z.pow2_bits_false.
    + eapply ends_later; [|apply (IH (mkHost st a dt c None n k sc d)); done].
      port. assert (truthy (u16 (st .| 0x800) .& 0x800) = true) as ->; [|done].
      unfold truthy, u16. rewrite Z.mod_small by (apply lor_bound; lia).
      rewrite Z.land_lor_distr_l, Z.land_diag. destruct (Z.eqb_spec (st .& 0x800 .| 0x800) 0) as [E|]; [|done].
      by apply Z.lor_eq_0_iff in E as [_ ?].
  - split_and!; [unfold ready; cbn; split_and!; done || lia|done|cbn; lia|done].
Qed.

(** The status of a cycle that is over. *)
Definition verdict (h : host) : Z := if answer h is Some _ then 0x10 else 0x04.

Lemma cycle_end_runs n h : stat h = 0 → cycle h = Some n → (n < Pos.to_nat fuel)%nat →
  cycle_end fuel h = Ok (verdict h, finish h).
Proof.
  intros Hs Hc Hn. apply (loop_until_ends _ _ n); [|done]. clear Hn.
  revert h Hs Hc. induction n as [|n IH]; intros [st a dt c cy b k sc d] Hs Hc; cbn in Hs, Hc; subst st cy.
  - apply ends_now. unfold verdict. rewrite bind_cases. unfold IoInputByte. cbn -[finish answer].
    unfold finish. by destruct (answer _) as [[]|].
  - eapply ends_later; [|apply (IH (mkHost 0 a dt c (Some n) b k sc d)); done]. done.
Qed.

Lemma finish_after h h' : stat h' = 0 → ready h →
  sched h' = sched h → count h' = count h → devices h' = devices h →
  after 1 (if answer h' is Some (_, d) then d else devices h) h (finish h').
Proof.
  intros H0 (_ & _ & _ & Hk) Hs Hc Hd. unfold after, finish.
  destruct (answer h') as [[v d]|]; cbn; unfold ready; cbn; rewrite H0, ?Hs, ?Hc, ?Hd;
    split_and!; (done || lia || apply Hk).
Qed.
Lemma start_runs {A} control (f : Z → ST host A) g : ready g → stat g = 0 →
  Z.testbit (u8 control) 3 && (u8 control .& 7 =? 2) = true →
  ∃ g', (IoOutputByte (I2C_IO_BASE + 2) control ;; b ← cycle_end fuel; f b) g = f (verdict g) g' ∧
    after 1 (if answer g is Some (_, d) then d else devices g) g g' ∧
    hdata g' = (if answer g is Some (v, _) then v else hdata g).
Proof.
  intros Hr H0 Hc. set (g1 := set_cycle (Some (latency (sched g (count g)))) g).
  rewrite (bind_run _ _ _ tt g1).
  2:{ unfold IoOutputByte. cbn -[u8]. unfold host_out8, start. cbn -[u8 Z.testbit]. by rewrite Hc. }
  assert (answer g1 = answer g) as Ha by done.
  rewrite (bind_run _ _ _ (verdict g) (finish g1)).
  2:{ rewrite (cycle_end_runs (latency (sched g (count g)))); [|done..|apply Hr]. unfold verdict. by rewrite Ha. }
  exists (finish g1). split_and!; [done| |].
  - rewrite <- Ha. by apply (finish_after g g1).
  - unfold finish. rewrite Ha. by destruct (answer g) as [[]|].
Qed.

Lemma cleared_ready n g : ready g → (n <= busy g)%nat → ready (set_stat 0 (set_busy n g)).
Proof. intros (_ & Hc & Hb & Hk) Hn. unfold ready. cbn. split_and!; (done || lia). Qed.

Lemma cycle_runs {A} control (f : Z → ST host A) g : ready g →
  Z.testbit (u8 control) 3 && (u8 control .& 7 =? 2) = true →
  ∃ g', (clear_errors ;; IoOutputByte (I2C_IO_BASE + 2) control ;; b ← cycle_end fuel; f b) g = f (verdict g) g' ∧
    after 1 (if answer g is Some (_, d) then d else devices g) g g' ∧
    hdata g' = (if answer g is Some (v, _) then v else hdata g).
Proof.
  intros Hr Hc. rewrite (bind_run _ _ _ _ _ (clear_errors_runs g Hr)).
  apply (start_runs control f (set_stat 0 (set_busy (pred (busy g)) g))); [|done..].
  apply cleared_ready; [done|lia].
Qed.

Lemma address_write dev : 0 <= dev < 128 →
  Z.shiftr (u8 (Z.shiftl dev 1 .| 0)) 1 = dev ∧ Z.testbit (u8 (Z.shiftl dev 1 .| 0)) 0 = false.
Proof.
  intros Hd. rewrite Z.lor_0_r, Z.shiftl_mul_pow2 by lia. change (2 ^ 1) with 2. rewrite u8_id by (unfold byte; lia).
  rewrite Z.shiftr_div_pow2 by lia. change (2 ^ 1) with 2. split; [apply Z.div_mul; lia|].
  rewrite Z.bit0_odd, Z.odd_mul. by rewrite andb_false_r.
Qed.

Lemma address_read dev : 0 <= dev < 128 →
  Z.shiftr (u8 (Z.shiftl dev 1 .| 1)) 1 = dev ∧ Z.testbit (u8 (Z.shiftl dev 1 .| 1)) 0 = true.
Proof.
  intros Hd. assert (Z.shiftl dev 1 .| 1 = 2 * dev + 1) as ->.
  { rewrite Z.shiftl_mul_pow2 by lia. change (2 ^ 1) with 2. rewrite Z.mul_comm.
    rewrite <- Z.add_nocarry_lor; [done|]. apply Z.bits_inj'. intros i Hi. rewrite Z.land_spec, Z.bits_0.
    destruct (decide (i = 0)) as [->|].
    - rewrite Z.bit0_odd, Z.odd_mul. done.
    - assert (Z.testbit 1 i = false) as -> by (apply (Z.pow2_bits_false 0); lia). by rewrite andb_false_r. }
  rewrite u8_id by (unfold byte; lia). split.
  - rewrite Z.shiftr_div_pow2 by lia. change (2 ^ 1) with 2. rewrite (Z.mul_comm 2), Z.div_add_l by lia. change (1 / 2) with 0. lia.
  - rewrite Z.bit0_odd, Z.add_comm. by rewrite Z.odd_add_mul_2.
Qed.

(** [m] is one cycle, for which [step] is what the devices do: without an answer
    nothing has happened. *)
Definition tries {A} (m : ST host (option A)) (step : D → option (A * D)) : Prop :=
  ∀ h, ready h →
    wp m (λ r h', match (if acked (sched h (count h)) then step (devices h) else None) with
                  | Some (a, d) => r = Some a ∧ after 1 d h h'
                  | None => r = None ∧ after 1 (devices h) h h'
                  end) h.

Lemma retries_runs {A} n (m : ST host (option A)) step : tries m step → ∀ h, ready h →
  wp (retries n m) (λ r h', match (if answered n h then step (devices h) else None) with
                            | Some (a, d) => r = Some a ∧ ∃ k, after k d h h'
                            | None => r = None ∧ ∃ k, after k (devices h) h h'
                            end) h.
Proof.
  intros Hm. induction n as [|n IH]; intros h Hr.
  { apply wp_ret. split; [done|]. exists 0%nat. split_and!; [done..|lia|done]. }
  cbn [retries]. apply wp_bind. eapply wp_mono; [by apply Hm|]. cbn beta. intros r h1.
  assert (answered (S n) h = acked (sched h (count h)) ||
            existsb (λ j, acked (sched h (count h + S j))) (seq 0 n)) as ->.
  { unfold answered. cbn [seq existsb]. rewrite Nat.add_0_r, <- fmap_S_seq. f_equal.
    induction (seq 0 n) as [|x l IHl]; [done|]. cbn. by rewrite <- IHl. }
  destruct (acked (sched h (count h))) eqn:Ea; cbn [orb].
  - destruct (step (devices h)) as [[a d]|] eqn:Es; intros [-> H1]; [apply wp_ret; eauto|].
    destruct H1 as (Hr1 & Hs1 & Hc1 & Hd1). eapply wp_mono; [by apply IH|]. cbn beta. intros r h2.
    rewrite Hd1, Es. assert ((if answered n h1 then None else None : option (A * D)) = None) as -> by by destruct (answered _ _).
    intros [-> [k Hk]]. split; [done|]. exists (1 + k)%nat. by eapply after_trans; [|done]; split_and!.
  - intros [-> H1]. destruct H1 as (Hr1 & Hs1 & Hc1 & Hd1). eapply wp_mono; [by apply IH|]. cbn beta. intros r h2.
    assert (answered n h1 = existsb (λ j, acked (sched h (count h + S j))) (seq 0 n)) as ->.
    { unfold answered. rewrite Hs1, Hc1. induction (seq 0 n) as [|x l IHl]; [done|]. cbn.
      rewrite IHl. do 3 f_equal. lia. }
    rewrite Hd1. assert (∀ d k, after k d h1 h2 → ∃ k, after k d h h2) as Hk.
    { intros d k Hk. exists (1 + k)%nat. by eapply (after_trans 1 k (devices h)); [split_and!|]. }
    destruct (if existsb _ _ then _ else _) as [[a d]|]; intros [-> [k Hk']]; eauto.
Qed.

Lemma sent_octet v : byte v → u8 (u16 (v .& 0xff)) = v.
Proof.
  intros Hv. change 0xff with (Z.ones 8). rewrite Z.land_ones by lia. unfold u8, u16, byte in *.
  by rewrite (Z.mod_small v (2 ^ 8)), (Z.mod_small v (2 ^ 16)), Z.mod_small by lia.
Qed.

(** The registers of a write, and what the cycle then does. *)
Lemma write_tries dev reg v : 0 <= dev < 128 → byte reg → byte v →
  tries (write_try fuel dev reg 1 v) (λ d, d ← dev_write dev reg v d; Some (ERR_SUCCESS, d)).
Proof.
  intros Hd Hg Hv h Hr. destruct (address_write dev Hd) as [Ha Hw]. unfold write_try, wp.
  set (g := set_hdata (u16 (v .& 0xff)) (set_hcmd (u8 reg) (set_haddr (u8 (Z.shiftl dev 1 .| 0)) h))).
  rewrite (bind_run _ _ _ tt (set_haddr (u8 (Z.shiftl dev 1 .| 0)) h)) by done.
  rewrite (bind_run _ _ _ tt (set_hcmd (u8 reg) (set_haddr (u8 (Z.shiftl dev 1 .| 0)) h))) by done.
  rewrite (bind_run _ _ _ tt g) by done.
  edestruct (cycle_runs 0x1a (λ b, if negb (b .& 0x10 =? 0) then mret (Some ERR_SUCCESS)
    else modify (wait_us_blocking 1) ;; mret None) g) as (g' & -> & Haf & _); [done..|].
  assert (answer g = (if acked (sched h (count h)) then d ← dev_write dev reg v (devices h); Some (hdata g, d) else None)) as Hans.
  { unfold answer. cbn -[u8 Z.testbit Z.shiftr]. rewrite Ha, Hw, sent_octet, (u8_id reg) by done. by destruct (acked _). }
  unfold verdict. rewrite Hans in Haf |- *.
  destruct (acked _); [destruct (dev_write _ _ _ _); cbn in *|]; split; done.
Qed.

Lemma read_tries dev reg size data : 0 <= dev < 128 → byte reg → size = 0 ∨ size = 1 →
  tries (read_try fuel dev reg size data) (λ d, '(v, d) ← dev_read dev reg d; Some (u8 v, d)).
Proof.
  intros Hd Hg Hsz h Hr. destruct (address_read dev Hd) as [Ha Hw]. unfold read_try, wp.
  set (g := set_hcmd (u8 reg) (set_haddr (u8 (Z.shiftl dev 1 .| 1)) h)).
  rewrite (bind_run _ _ _ tt (set_haddr (u8 (Z.shiftl dev 1 .| 1)) h)) by done.
  rewrite (bind_run _ _ _ tt g) by done.
  edestruct (cycle_runs (match size with 4 => 0x0d | 2 => 0x0b | _ => 0x0a end)
    (λ b, if b .& 0x10 =? 0 then mret None else v ← read_data size data; mret (Some v)) g)
    as (g' & -> & Haf & Hv); [done|by destruct Hsz as [-> | ->]|].
  assert (answer g = (if acked (sched h (count h)) then '(v, d) ← dev_read dev reg (devices h); Some (v, d) else None)) as Hans.
  { unfold answer. cbn -[u8 Z.testbit Z.shiftr]. rewrite Ha, Hw, (u8_id reg) by done. by destruct (acked _). }
  unfold verdict. rewrite Hans in Haf, Hv |- *.
  destruct (acked _); [destruct (dev_read _ _ _) as [[v d]|]; cbn in Haf, Hv |- *|]; [|split; done..].
  subst v. by destruct Hsz as [-> | ->]; split.
Qed.

(** ** Transfers *)

(** [h'] is a state after [h], with [d] for the devices. *)
Definition settled (d : D) (h h' : host) : Prop := ready h' ∧ sched h' = sched h ∧ devices h' = d.

Lemma transfer_runs {A B} n (m : ST host (option A)) step (f : option A → B) h : tries m step → ready h →
  wp (bus_idle fuel ;; r ← retries n m; mret (f r))
    (λ x h', match (if answered n h then step (devices h) else None) with
             | Some (a, d) => x = f (Some a) ∧ settled d h h'
             | None => x = f None ∧ settled (devices h) h h'
             end) h.
Proof.
  intros Hm Hr. destruct (bus_idle_runs h Hr) as (h1 & E & Hr1 & Hs1 & Hc1 & Hd1).
  apply wp_bind. unfold wp at 1. rewrite E. apply wp_bind. rewrite Nat.add_0_r in Hc1.
  eapply wp_mono; [by apply (retries_runs n _ _ Hm)|]. cbn beta. intros r h2.
  assert (answered n h1 = answered n h) as -> by (unfold answered; by rewrite Hs1, Hc1).
  rewrite Hd1. assert (∀ d, (∃ k, after k d h1 h2) → settled d h h2) as Hk
    by (intros d (k & ? & Hs & _ & ?); split_and!; [done|congruence|done]).
  destruct (if answered n h then _ else _) as [[a d]|]; intros [-> Hk']; apply wp_ret; auto.
Qed.

Lemma wp_WriteToSMBus dev reg v h : 0 <= dev < 128 → byte reg → byte v → ready h →
  wp (WriteToSMBus fuel dev reg 1 v)
    (λ r h', match (if answered 50 h then dev_write dev reg v (devices h) else None) with
             | Some d => r = ERR_SUCCESS ∧ settled d h h'
             | None => r = ERR_I2C_ERROR_BUS ∧ settled (devices h) h h'
             end) h.
Proof.
  intros Hd Hg Hv Hr. eapply wp_mono; [by apply (transfer_runs 50 _ _ _ h (write_tries dev reg v Hd Hg Hv))|].
  cbn beta. intros r h'. destruct (answered 50 h); [|done]. by destruct (dev_write _ _ _ _).
Qed.

Lemma wp_ReadfromSMBus dev reg size data h : 0 <= dev < 128 → byte reg → size = 0 ∨ size = 1 → ready h →
  wp (ReadfromSMBus fuel dev reg size data)
    (λ r h', match (if answered 50 h then dev_read dev reg (devices h) else None) with
             | Some (v, d) => r = (ERR_SUCCESS, u8 v) ∧ settled d h h'
             | None => r = (ERR_I2C_ERROR_BUS, data) ∧ settled (devices h) h h'
             end) h.
Proof.
  intros Hd Hg Hz Hr. eapply wp_mono; [by apply (transfer_runs 50 _ _ _ h (read_tries dev reg size data Hd Hg Hz))|].
  cbn beta. intros r h'. destruct (answered 50 h); [|done]. by destruct (dev_read _ _ _) as [[v d]|].
Qed.

Lemma wp_get_return dev reg h : 0 <= dev < 128 → byte reg → ready h →
  wp (I2CTransmitByteGetReturn fuel dev reg)
    (λ r h', match (if answered 50 h then dev_read dev reg (devices h) else None) with
             | Some (v, d) => r = u8 v ∧ settled d h h'
             | None => r = ERR_I2C_ERROR_BUS ∧ settled (devices h) h h'
             end) h.
Proof.
  intros Hd Hg Hr. apply wp_bind. eapply wp_mono; [apply (wp_ReadfromSMBus dev reg 1 0 h); auto|].
  cbn beta. intros r h'. by destruct (if answered 50 h then _ else _) as [[v d]|]; intros [-> ?].
Qed.

(** Never fifty cycles in a row without an answer. *)
Definition steady (h : host) : Prop :=
  ∀ k, existsb (λ j, acked (sched h (k + j))) (seq 0 50) = true.

Lemma steady_answered h : steady h → answered 50 h = true.
Proof. intros Hs. apply Hs. Qed.

Lemma settled_steady d h h' : settled d h h' → steady h → steady h'.
Proof. unfold steady. by intros (_ & -> & _). Qed.

Lemma settled_trans d d' h h1 h2 : settled d h h1 → settled d' h1 h2 → settled d' h h2.
Proof. intros (_ & Hs & _) (? & Hs' & ?). split_and!; [done|congruence|done]. Qed.
End host.
Arguments host D : clear implicits.

(** ** The EEPROM *)

(** A serial EEPROM of 256 octets at address 0x54. *)
Class EepromChip (D : Type) `{!SmbusDevices D} := {
  chip : D → list Z;
  chip_stores d r v : byte r → byte v →
    ∃ d', dev_write 0x54 r v d = Some d' ∧ chip d' = <[Z.to_nat r := v]> (chip d);
  chip_returns d r : byte r → ∃ d', dev_read 0x54 r d = Some (nth (Z.to_nat r) (chip d) 0, d') ∧ chip d' = chip d
}.

Section eeprom.
Context {D : Type} `{!SmbusDevices D} `{!EepromChip D} (fuel : positive).

(** A write of one octet to the chip. *)
Definition to_chip (w : smbus_write) : Prop :=
  smb_device w = 0x54 ∧ smb_size w = 1 ∧ byte (smb_address w) ∧ byte (smb_data w).

Lemma compare_to_chip i pb pc : Forall byte pb → (i + length pb <= 256)%nat →
  Forall to_chip (compare_write_loop i pb pc).
Proof.
  revert i pc. induction pb as [|b pb IH]; intros i [|c pc] Hb Hl; [done..|]. cbn in Hl |- *.
  inversion_clear Hb as [|? ? Hb1 Hpb]. apply Forall_app. split; [|apply IH; [done|lia]].
  destruct (b =? c); [done|]. repeat constructor; cbn; (done || unfold byte in *; lia).
Qed.

Lemma entire_to_chip i pb : Forall byte pb → (i + length pb <= 256)%nat →
  Forall to_chip (imap (λ j b, mkWrite 0x54 (Z.of_nat (i + j)) 1 b) pb).
Proof.
  revert i. induction pb as [|b pb IH]; intros i Hb Hl; [done|]. cbn in Hl |- *.
  inversion_clear Hb as [|? ? Hb1 Hpb]. constructor; [repeat constructor; cbn; (done || unfold byte in *; lia)|].
  erewrite imap_ext; [apply (IH (S i)); [done|lia]|]. intros j x _. cbn. do 2 f_equal. lia.
Qed.

Lemma send_runs ws h : Forall to_chip ws → ready fuel h → steady h →
  wp (send fuel ws) (λ _ h', (∃ d, settled fuel d h h') ∧ chip (devices h') = foldl chip_write (chip (devices h)) ws) h.
Proof.
  intros Hws. revert h. induction Hws as [|[dev a sz v] ws (Hd & Hz & Ha & Hv) _ IH]; intros h Hr Hs.
  { apply wp_ret. split; [|done]. exists (devices h). by split_and!. }
  cbn in Hd, Hz, Ha, Hv. subst dev sz. cbn [send smb_device smb_address smb_size smb_data]. apply wp_bind.
  eapply wp_mono; [apply (wp_WriteToSMBus fuel 0x54 a v h); done || lia|]. cbn beta. intros r h1.
  rewrite (steady_answered h Hs). destruct (chip_stores (devices h) a v Ha Hv) as (d & -> & Hc).
  intros [-> H1]. eapply wp_mono; [apply IH; [by apply H1|by eapply settled_steady]|].
  cbn beta. intros _ h2 [[d2 H2] ->]. split; [exists d2; by eapply settled_trans|].
  destruct H1 as (_ & _ & ->). cbn [foldl]. by rewrite Hc.
Qed.

Lemma read_eeprom_runs n i h : (i + n <= 256)%nat → ready fuel h → steady h →
  length (chip (devices h)) = 256%nat → Forall byte (chip (devices h)) →
  wp (read_eeprom fuel n (Z.of_nat i))
    (λ l h', l = take n (drop i (chip (devices h))) ∧ chip (devices h') = chip (devices h)) h.
Proof.
  revert i h. induction n as [|n IH]; intros i h Hi Hr Hs Hl Ho; [by apply wp_ret|].
  cbn [read_eeprom]. apply wp_bind. assert (byte (Z.of_nat i)) as Hb by (unfold byte; lia).
  eapply wp_mono; [apply (wp_get_return fuel 0x54 (Z.of_nat i) h); done || lia|]. cbn beta. intros r h1.
  rewrite (steady_answered h Hs). destruct (chip_returns (devices h) (Z.of_nat i) Hb) as (d & -> & Hc).
  intros [-> H1]. apply wp_bind. replace (Z.of_nat i + 1) with (Z.of_nat (S i)) by lia.
  assert (chip (devices h1) = chip (devices h)) as Hh1 by (destruct H1 as (_ & _ & ->); done).
  eapply wp_mono; [apply IH; [lia|by apply H1|by eapply settled_steady|by rewrite Hh1..]|].
  cbn beta. rewrite Hh1. intros l h2 [-> H2].
  apply wp_ret. split; [|done]. rewrite Nat2Z.id.
  destruct (lookup_lt_is_Some_2 (chip (devices h)) i ltac:(lia)) as [v Hv].
  assert (byte v) as Hbv by by eapply Forall_lookup_1.
  rewrite (drop_S _ v i Hv). cbn [take]. f_equal. rewrite (nth_lookup_Some _ _ _ _ Hv). by rewrite (u8_id v), u8_id by done.
Qed.

Lemma sent_and_read e orig ws h : length e = 256%nat → Forall byte e →
  Forall to_chip ws → foldl chip_write orig ws = e → ready fuel h → steady h → chip (devices h) = orig →
  wp (send fuel ws ;; BootEepromReadEntireEEPROM fuel) (λ r h', r = e ∧ chip (devices h') = e) h.
Proof.
  intros Hl Hb Hws Hw Hr Hs Hc. apply wp_bind. eapply wp_mono; [by apply send_runs|]. cbn beta.
  intros _ h1 [[d H1] Hd]. rewrite Hc, Hw in Hd.
  eapply wp_mono; [apply (read_eeprom_runs 256 0 h1); [lia|by apply H1|by eapply settled_steady|by rewrite Hd..]|].
  cbn beta. rewrite Hd, drop_0, take_ge by lia. done.
Qed.
End eeprom.

(** ** A console *)

(** The EEPROM, and the registers of the system controller at address 0x10. *)
Record board := mkBoard { rom : list Z; pic : Z → Z }.

#[export] Instance board_devices : SmbusDevices board := {|
  dev_write dev r v d :=
    if dev =? 0x54 then Some (mkBoard (<[Z.to_nat r := v]> (rom d)) (pic d))
    else if dev =? 0x10 then Some (mkBoard (rom d) (λ x, if x =? r then v else pic d x))
    else None;
  dev_read dev r d :=
    if dev =? 0x54 then Some (nth (Z.to_nat r) (rom d) 0, d)
    else if dev =? 0x10 then Some (pic d r, d)
    else None
|}.

#[export, refine] Instance board_eeprom : EepromChip board := {| chip := rom |}.
Proof. all: intros; by eexists. Defined.

(** The chip is busy for three cycles out of four, each cycle takes two polls and
    another master follows it. *)
Definition slow_board (image : list Z) : host board :=
  mkHost 0x14 0 0 0 None 3 0 (λ k, mkSlot 2 (k mod 4 =? 3)%nat 1) (mkBoard image (λ _, 0)).

Lemma slow_ready image : ready 16 (slow_board image).
Proof. unfold ready. cbn. split_and!; (lia || done || (intros k; split; lia)). Qed.

Lemma slow_steady image : steady (slow_board image).
Proof.
  intros k. apply existsb_exists. exists (3 - k mod 4)%nat. pose proof (Nat.mod_upper_bound k 4 ltac:(lia)).
  split; [apply in_seq; lia|]. cbn -[Nat.modulo]. apply Nat.eqb_eq.
  rewrite (Nat.div_mod_eq k 4) at 1. rewrite <- Nat.add_assoc, Nat.add_comm, Nat.mul_comm, Nat.Div0.mod_add.
  rewrite Nat.mod_small; lia.
Qed.

(** C23: for every controller that follows the register interface and every device,
    whatever cycles fail: a write of an octet returns; with an answer within fifty
    cycles it reports success and the device has got exactly that write, otherwise
    it reports the error and no device has changed. *)
Theorem WriteToSMBus_delivers {D} `{!SmbusDevices D} fuel dev reg v (h : host D) :
  0 <= dev < 128 → byte reg → byte v → ready fuel h →
  wp (WriteToSMBus fuel dev reg 1 v)
    (λ r h', ready fuel h' ∧ sched h' = sched h ∧
             match (if answered 50 h then dev_write dev reg v (devices h) else None) with
             | Some d => r = ERR_SUCCESS ∧ devices h' = d
             | None => r = ERR_I2C_ERROR_BUS ∧ devices h' = devices h
             end) h.
Proof.
  intros Hd Hg Hv Hr. eapply wp_mono; [by apply wp_WriteToSMBus|]. cbn beta. intros r h'.
  by destruct (if answered 50 h then _ else _); intros [-> (? & ? & ?)].
Qed.

Lemma WriteToSMBus_delivers_witness :
  wp (WriteToSMBus 16 0x54 5 1 77)
    (λ r h', ready 16 h' ∧ sched h' = sched (slow_board (replicate 256 0)) ∧
             match (if answered 50 (slow_board (replicate 256 0))
                    then dev_write 0x54 5 77 (devices (slow_board (replicate 256 0))) else None) with
             | Some d => r = ERR_SUCCESS ∧ devices h' = d
             | None => r = ERR_I2C_ERROR_BUS ∧ devices h' = devices (slow_board (replicate 256 0))
             end) (slow_board (replicate 256 0)).
Proof.
  apply (WriteToSMBus_delivers 16 0x54 5 77 (slow_board (replicate 256 0)));
    [lia|unfold byte; lia|unfold byte; lia|apply slow_ready].
Defined.

(** C10: on a console whose EEPROM holds the image that was read at start, whatever
    cycles the bus loses short of fifty in a row: after the write-back of an edited
    image, or the write of the whole image, the next start reads exactly the edited
    image. *)
Theorem eeprom_survives_restart {D} `{!SmbusDevices D} `{!EepromChip D} fuel e orig (h : host D) :
  length e = sizeof EEPROMDATA → length orig = sizeof EEPROMDATA → Forall byte e →
  ready fuel h → steady h → chip (devices h) = orig →
  wp (send fuel (assertWriteEEPROM e orig) ;; BootEepromReadEntireEEPROM fuel)
    (λ r h', r = e ∧ chip (devices h') = e) h ∧
  wp (send fuel (BootEepromWriteEntireEEPROM e) ;; BootEepromReadEntireEEPROM fuel)
    (λ r h', r = e ∧ chip (devices h') = e) h.
Proof.
  intros He Ho Hb Hr Hs Hc. change (sizeof EEPROMDATA) with 256%nat in *. split.
  - apply (sent_and_read fuel e orig); try done; unfold assertWriteEEPROM, BootEepromCompareAndWriteEEPROM,
      BootEepromReloadEEPROM; change (sizeof EEPROMDATA) with 256%nat; rewrite !take_ge by lia.
    + by apply compare_to_chip; [|lia].
    + apply (compare_write_apply [] e orig). lia.
  - apply (sent_and_read fuel e orig); try done; unfold BootEepromWriteEntireEEPROM;
      change (sizeof EEPROMDATA) with 256%nat; rewrite !take_ge by lia.
    + apply (entire_to_chip 0 e Hb). lia.
    + apply (write_entire_apply [] e orig). lia.
Qed.

Lemma eeprom_survives_restart_witness :
  wp (send 16 (assertWriteEEPROM (9 :: replicate 255 0) (replicate 256 0)) ;; BootEepromReadEntireEEPROM 16)
    (λ r h', r = 9 :: replicate 255 0 ∧ chip (devices h') = 9 :: replicate 255 0) (slow_board (replicate 256 0)) ∧
  wp (send 16 (BootEepromWriteEntireEEPROM (9 :: replicate 255 0)) ;; BootEepromReadEntireEEPROM 16)
    (λ r h', r = 9 :: replicate 255 0 ∧ chip (devices h') = 9 :: replicate 255 0) (slow_board (replicate 256 0)).
Proof.
  apply (eeprom_survives_restart 16 (9 :: replicate 255 0) (replicate 256 0) (slow_board (replicate 256 0)));
    [reflexivity..| |apply slow_ready|apply slow_steady|reflexivity].
  apply (bool_decide_unpack _). vm_compute. exact I.
Defined.

End SmbusHost.
