(* ===== verification/Ide.v ===== *)
(** * The IDE driver ([src/drivers/ide/BootIde.c])

    The controller is a set of ports; [IdeBus] is that hardware.  The functions run
    on the table of the two drives and the bus.  A loop that polls a port has
    [fuel] rounds where the source gives it no bound.  Buffers are lists of octets;
    the data port carries words.  Delays and messages have no effect here. *)

From S2P Require Import Prelude Sha1 HddKey Eeprom Format.

Class IdeBus (H : Type) := {
  bus_in8 : Z → H → Z * H;
  bus_out8 : Z → Z → H → H;
  bus_in16 : Z → H → Z * H;
  bus_out16 : Z → Z → H → H;
  bus_pci : Z → Z → H → H
}.

Module Ide.

Abbreviation length := List.length.

(** ** Registers and commands *)

Definition IDE_SECTOR_SIZE : Z := 0x200.
Definition IDE_BASE1 : Z := 0x1F0.
Definition IDE_REG_DATA (base : Z) : Z := base.
Definition IDE_REG_ERROR (base : Z) : Z := base + 1.
Definition IDE_REG_FEATURE (base : Z) : Z := base + 1.
Definition IDE_REG_SECTOR_COUNT (base : Z) : Z := base + 2.
Definition IDE_REG_LBA_LOW (base : Z) : Z := base + 3.
Definition IDE_REG_LBA_MID (base : Z) : Z := base + 4.
Definition IDE_REG_LBA_HIGH (base : Z) : Z := base + 5.
Definition IDE_REG_DRIVEHEAD (base : Z) : Z := base + 6.
Definition IDE_REG_STATUS (base : Z) : Z := base + 7.
Definition IDE_REG_COMMAND (base : Z) : Z := base + 7.
Definition IDE_REG_CONTROL (base : Z) : Z := base + 0x204 + 2.

Definition IDE_DH_DEFAULT : Z := 0xA0.
Definition IDE_DH_HEAD (x : Z) : Z := Z.land x 0x0F.
Definition IDE_DH_SLAVE : Z := 0x10.
Definition IDE_DH_DRIVE (x : Z) : Z := if truthy (Z.land x 1) then IDE_DH_SLAVE else 0.
Definition IDE_DH_LBA : Z := 0x40.
Definition IDE_DH_CHS : Z := 0x00.

Definition IDE_CMD_READ_MULTI_RETRY : Z := 0x20.
Definition IDE_CMD_READ_EXT : Z := 0x24.
Definition IDE_CMD_WRITE_MULTI_RETRY : Z := 0x30.
Definition IDE_CMD_WRITE_EXT : Z := 0x34.
Definition IDE_CMD_ATAPI_PACKET : Z := 0xA0.
Definition IDE_CMD_PACKET_IDENTIFY : Z := 0xA1.
Definition IDE_CMD_SMART : Z := 0xB0.
Definition IDE_CMD_SET_MULTIPLE_MODE : Z := 0xC6.
Definition IDE_CMD_CACHE_FLUSH : Z := 0xE7.
Definition IDE_CMD_CACHE_FLUSH_EXT : Z := 0xEA.
Definition IDE_CMD_IDENTIFY : Z := 0xEC.
Definition IDE_CMD_SET_FEATURES : Z := 0xEF.
Definition IDE_CMD_SECURITY_SET_PASSWORD : Z := 0xF1.
Definition IDE_CMD_SECURITY_UNLOCK : Z := 0xF2.
Definition IDE_CMD_SECURITY_DISABLE : Z := 0xF6.

Record tsIdeCommandParams := mkParams {
  m_bCountSector : Z;
  m_bSector : Z;
  m_wCylinder : Z;
  m_bDrivehead : Z;
  m_bCountSectorExt : Z;
  m_bSectorExt : Z;
  m_wCylinderExt : Z
}.

(** [IDE_DEFAULT_COMMAND] with the drive selected. *)
Definition default_command (head : Z) : tsIdeCommandParams := mkParams 1 0 0 head 0 0 0.
Definition select_drive (n : Z) : Z := IDE_DH_DEFAULT .| IDE_DH_HEAD 0 .| IDE_DH_CHS .| IDE_DH_DRIVE n.

(** ** What is known about a drive *)

(** The fields of [tsHarddiskInfo], grouped as they are set; [m_fDriveExists] and
    the other flags are [bool].  The strings include the two octets behind them. *)
Record geometry := mkGeo {
  m_wCountHeads : Z; m_wCountCylinders : Z; m_wCountSectorsPerTrack : Z; m_dwCountSectorsTotal : Z; m_bLbaMode : Z }.
Record identity := mkIdentity {
  m_szIdentityModelNumber : list Z; m_length : Z; m_szSerial : list Z; s_length : Z; m_szFirmware : list Z }.
Record security := mkSecurity { m_securitySettings : Z; m_masterPassSupport : Z }.
Record smart := mkSmart { m_fHasSMARTcapabilities : bool; m_fSMARTEnabled : bool; m_SMARTFeaturesSupported : Z }.
Record transfer := mkTransfer {
  m_maxBlockTransfer : Z; m_minPIOcycle : Z; m_bIORDY : bool; m_fFlushCacheSupported : bool;
  m_fFlushCacheExtSupported : bool; m_wAtaRevisionSupported : Z }.

Record tsHarddiskInfo := mkHdInfo {
  m_fwPortBase : Z;
  m_fDriveExists : bool;
  m_fAtapi : bool;
  m_bCableConductors : Z;
  geo : geometry;
  ident : identity;
  sec : security;
  smrt : smart;
  xfer : transfer
}.

Definition zero_info : tsHarddiskInfo :=
  mkHdInfo 0 false false 0 (mkGeo 0 0 0 0 0) (mkIdentity (replicate 42 0) 0 (replicate 22 0) 0 (replicate 10 0))
    (mkSecurity 0 0) (mkSmart false false 0) (mkTransfer 0 0 false false false 0).

Definition set_geo (g : geometry) (i : tsHarddiskInfo) : tsHarddiskInfo :=
  mkHdInfo (m_fwPortBase i) (m_fDriveExists i) (m_fAtapi i) (m_bCableConductors i) g (ident i) (sec i) (smrt i) (xfer i).
Definition set_ident (d : identity) (i : tsHarddiskInfo) : tsHarddiskInfo :=
  mkHdInfo (m_fwPortBase i) (m_fDriveExists i) (m_fAtapi i) (m_bCableConductors i) (geo i) d (sec i) (smrt i) (xfer i).
Definition set_sec (s : security) (i : tsHarddiskInfo) : tsHarddiskInfo :=
  mkHdInfo (m_fwPortBase i) (m_fDriveExists i) (m_fAtapi i) (m_bCableConductors i) (geo i) (ident i) s (smrt i) (xfer i).
Definition set_smart (s : smart) (i : tsHarddiskInfo) : tsHarddiskInfo :=
  mkHdInfo (m_fwPortBase i) (m_fDriveExists i) (m_fAtapi i) (m_bCableConductors i) (geo i) (ident i) (sec i) s (xfer i).
Definition set_xfer (t : transfer) (i : tsHarddiskInfo) : tsHarddiskInfo :=
  mkHdInfo (m_fwPortBase i) (m_fDriveExists i) (m_fAtapi i) (m_bCableConductors i) (geo i) (ident i) (sec i) (smrt i) t.
Definition set_atapi (b : bool) (i : tsHarddiskInfo) : tsHarddiskInfo :=
  mkHdInfo (m_fwPortBase i) (m_fDriveExists i) b (m_bCableConductors i) (geo i) (ident i) (sec i) (smrt i) (xfer i).
Definition set_exists (b : bool) (i : tsHarddiskInfo) : tsHarddiskInfo :=
  mkHdInfo (m_fwPortBase i) b (m_fAtapi i) (m_bCableConductors i) (geo i) (ident i) (sec i) (smrt i) (xfer i).
Definition set_cable (c : Z) (i : tsHarddiskInfo) : tsHarddiskInfo :=
  mkHdInfo (m_fwPortBase i) (m_fDriveExists i) (m_fAtapi i) c (geo i) (ident i) (sec i) (smrt i) (xfer i).
Definition set_maxBlock (v : Z) (t : transfer) : transfer :=
  mkTransfer v (m_minPIOcycle t) (m_bIORDY t) (m_fFlushCacheSupported t) (m_fFlushCacheExtSupported t)
    (m_wAtaRevisionSupported t).

(** Octets as words and back. *)
Fixpoint words_of (b : list Z) : list Z :=
  match b with
  | lo :: hi :: b => (lo + 256 * hi) :: words_of b
  | _ => []
  end.
Definition octets_of (w : list Z) : list Z := concat (le_bytes 2 <$> w).
(** [drive_info[i]] *)
Definition word_at (b : list Z) (i : nat) : Z := nth (2 * i) b 0 + 256 * nth (2 * i + 1) b 0.
Definition dword_at (b : list Z) (i : nat) : Z := word_at b i + 65536 * word_at b (i + 1).

Section driver.
Context {H : Type} `{!IdeBus H}.
Context (fuel : positive).

Record ide := mkIde { hd0 : tsHarddiskInfo; hd1 : tsHarddiskInfo; hw : H }.

(** [tsaHarddiskInfo[n]] *)
Definition hd (n : Z) : ST ide tsHarddiskInfo := λ s,
  if n =? 0 then Ok (hd0 s, s) else if n =? 1 then Ok (hd1 s, s) else UB.
Definition update_hd (n : Z) (f : tsHarddiskInfo → tsHarddiskInfo) : ST ide unit := λ s,
  if n =? 0 then Ok (tt, mkIde (f (hd0 s)) (hd1 s) (hw s))
  else if n =? 1 then Ok (tt, mkIde (hd0 s) (f (hd1 s)) (hw s)) else UB.

Definition IoInputByte (port : Z) : ST ide Z := λ s,
  let '(v, h) := bus_in8 port (hw s) in Ok (u8 v, mkIde (hd0 s) (hd1 s) h).
Definition IoOutputByte (port v : Z) : ST ide unit := λ s,
  Ok (tt, mkIde (hd0 s) (hd1 s) (bus_out8 port (u8 v) (hw s))).
Definition IoInputWord (port : Z) : ST ide Z := λ s,
  let '(v, h) := bus_in16 port (hw s) in Ok (u16 v, mkIde (hd0 s) (hd1 s) h).
Definition IoOutputWord (port v : Z) : ST ide unit := λ s,
  Ok (tt, mkIde (hd0 s) (hd1 s) (bus_out16 port (u16 v) (hw s))).
Definition PciWriteDword (reg v : Z) : ST ide unit := λ s,
  Ok (tt, mkIde (hd0 s) (hd1 s) (bus_pci reg v (hw s))).

(** ** Waiting *)

Definition BootIdeWaitNotBusy (uIoBase : Z) : ST ide Z :=
  loop_until fuel
    (b ← IoInputByte (IDE_REG_STATUS uIoBase);
     if (b =? 0) || truthy (b .& 0x20) then mret (Some (-1))
     else if truthy (b .& 0x80) && negb (truthy (b .& 0x08)) then mret None
     else mret (Some (b .& 0x01))).

Definition BootIdeWaitDataReady (uIoBase : Z) : ST ide Z :=
  r ← iter_until 0x800000
    (b ← IoInputByte (IDE_REG_STATUS uIoBase);
     if b .& 0x88 =? 0x08 then
       b ← IoInputByte (IDE_REG_STATUS uIoBase);
       mret (Some (if truthy (b .& 0x01) then 2 else 0))
     else mret None);
  match r with
  | Some r => mret r
  | None => b ← IoInputByte (IDE_REG_STATUS uIoBase); mret (if truthy (b .& 0x01) then 2 else 1)
  end.

(** ** Commands and data *)

(** The registers of a command, the upper halves of the 48-bit address first. *)
Definition issue_registers (uIoBase command : Z) (params : tsIdeCommandParams) : ST ide unit :=
  IoOutputByte (IDE_REG_SECTOR_COUNT uIoBase) (m_bCountSectorExt params);;
  IoOutputByte (IDE_REG_LBA_LOW uIoBase) (m_bSectorExt params);;
  IoOutputByte (IDE_REG_LBA_MID uIoBase) (m_wCylinderExt params .& 0xFF);;
  IoOutputByte (IDE_REG_LBA_HIGH uIoBase) (Z.shiftr (m_wCylinderExt params) 8);;
  IoOutputByte (IDE_REG_SECTOR_COUNT uIoBase) (m_bCountSector params);;
  IoOutputByte (IDE_REG_LBA_LOW uIoBase) (m_bSector params);;
  IoOutputByte (IDE_REG_LBA_MID uIoBase) (m_wCylinder params .& 0xFF);;
  IoOutputByte (IDE_REG_LBA_HIGH uIoBase) (Z.shiftr (m_wCylinder params) 8);;
  IoOutputByte (IDE_REG_DRIVEHEAD uIoBase) (m_bDrivehead params);;
  IoOutputByte (IDE_REG_COMMAND uIoBase) command.

(** Every caller asks for the first wait. *)
Definition BootIdeIssueAtaCommand (uIoBase command : Z) (params : tsIdeCommandParams) : ST ide Z :=
  n ← BootIdeWaitNotBusy uIoBase;
  if n =? -1 then mret n
  else issue_registers uIoBase command params;; BootIdeWaitNotBusy uIoBase.

Fixpoint in_words (n : nat) (port : Z) : ST ide (list Z) :=
  match n with
  | O => mret []
  | S n => w ← IoInputWord port; ws ← in_words n port; mret (w :: ws)
  end.
Fixpoint out_words (ws : list Z) (port : Z) : ST ide unit :=
  match ws with
  | [] => mret tt
  | w :: ws => IoOutputWord port w;; out_words ws port
  end.

(** The result and the octets stored from the start of the buffer. *)
Definition BootIdeReadData (uIoBase size : Z) : ST ide (Z * list Z) :=
  n ← BootIdeWaitDataReady uIoBase;
  if truthy n then mret (1, [])
  else
    ws ← in_words (Z.to_nat (size / 2)) (IDE_REG_DATA uIoBase);
    _ ← IoInputByte (IDE_REG_STATUS uIoBase);
    b ← IoInputByte (IDE_REG_STATUS uIoBase);
    mret (if truthy (b .& 0x01) then 2 else 0, octets_of ws).

Definition BootIdeWriteData (uIoBase : Z) (buf : list Z) : ST ide Z :=
  _ ← BootIdeWaitDataReady uIoBase;
  out_words (words_of buf) (IDE_REG_DATA uIoBase);;
  n ← BootIdeWaitNotBusy uIoBase;
  if truthy n then mret n
  else b ← IoInputByte (IDE_REG_STATUS uIoBase); mret (if truthy (b .& 0x01) then 2 else 0).

(** [IDENTIFY] into a buffer of 512 octets, as every check after a command does it:
    the result is [None] if the command or the transfer failed. *)
Definition identify (uIoBase : Z) (params : tsIdeCommandParams) : ST ide (option (list Z)) :=
  n ← BootIdeIssueAtaCommand uIoBase IDE_CMD_IDENTIFY params;
  if truthy n then mret None
  else
    _ ← BootIdeWaitDataReady uIoBase;
    '(r, b) ← BootIdeReadData uIoBase IDE_SECTOR_SIZE;
    mret (if truthy r then None else Some b).

(** ** Packets *)

Definition BootIdeWriteAtapiData (uIoBase : Z) (buf : list Z) : ST ide Z :=
  _ ← BootIdeWaitDataReady uIoBase;
  _ ← IoInputByte (IDE_REG_LBA_MID uIoBase);
  _ ← IoInputByte (IDE_REG_LBA_HIGH uIoBase);
  n ← IoInputByte (IDE_REG_STATUS uIoBase);
  if truthy (n .& 1) then mret 1
  else
    out_words (words_of buf) (IDE_REG_DATA uIoBase);;
    n ← IoInputByte (IDE_REG_STATUS uIoBase);
    if truthy (n .& 1) then mret 1
    else
      n ← BootIdeWaitNotBusy uIoBase;
      if truthy n then mret n
      else b ← IoInputByte (IDE_REG_STATUS uIoBase); mret (if truthy (b .& 0x01) then 2 else 0).

Definition set_cylinder (c : Z) (p : tsIdeCommandParams) : tsIdeCommandParams :=
  mkParams (m_bCountSector p) (m_bSector p) c (m_bDrivehead p) (m_bCountSectorExt p) (m_bSectorExt p) (m_wCylinderExt p).
Definition set_count (c : Z) (p : tsIdeCommandParams) : tsIdeCommandParams :=
  mkParams c (m_bSector p) (m_wCylinder p) (m_bDrivehead p) (m_bCountSectorExt p) (m_bSectorExt p) (m_wCylinderExt p).

(** [packet] has twelve octets. *)
Definition BootIdeIssueAtapiPacketCommandAndPacket (nDriveIndex : Z) (packet : list Z) : ST ide Z :=
  i ← hd nDriveIndex;
  let uIoBase := m_fwPortBase i in
  IoOutputByte (IDE_REG_DRIVEHEAD uIoBase) (select_drive nDriveIndex);;
  _ ← BootIdeWaitNotBusy uIoBase;
  n ← BootIdeIssueAtaCommand uIoBase IDE_CMD_ATAPI_PACKET (set_cylinder 2048 (default_command (select_drive nDriveIndex)));
  if truthy n then mret 1
  else
    n ← BootIdeWaitNotBusy uIoBase;
    if truthy n then mret 1
    else
      n ← BootIdeWriteAtapiData uIoBase packet;
      if truthy n then mret 1
      else if negb (nth 0 packet 0 =? 0x1e) then
        n ← BootIdeWaitDataReady uIoBase; mret (if truthy n then 1 else 0)
      else mret 0.

(** The length the drive announces, at most [most]. *)
Definition packet_length (uIoBase most : Z) : ST ide Z :=
  lo ← IoInputByte (IDE_REG_LBA_MID uIoBase);
  hi ← IoInputByte (IDE_REG_LBA_HIGH uIoBase);
  mret (Z.min (lo .| Z.shiftl hi 8) most).

Definition BootIdeAtapiAdditionalSenseCode (nDriveIndex nLengthMaxReturn : Z) : ST ide (Z * list Z) :=
  i ← hd nDriveIndex;
  if negb (m_fDriveExists i) then mret (4, [])
  else
    n ← BootIdeIssueAtapiPacketCommandAndPacket nDriveIndex [0x03; 0; 0; 0; 0xfe; 0; 0; 0; 0; 0; 0; 0];
    if truthy n then mret (1, [])
    else
      nReturn ← packet_length (m_fwPortBase i) nLengthMaxReturn;
      '(_, b) ← BootIdeReadData (m_fwPortBase i) nReturn;
      mret (nReturn, b).

(** ** Sectors *)

(** The registers that address a block: 48 bits, cylinders, or 28 bits. *)
Definition address_block (i : tsHarddiskInfo) (nDriveIndex block cmd cmd_ext : Z) : outcome (tsIdeCommandParams * Z) :=
  if 0x10000000 <=? block then
    Ok (mkParams 1 (block .& 0xff) (Z.shiftr block 8 .& 0xffff) (IDE_DH_DRIVE nDriveIndex .| IDE_DH_LBA)
          0 (Z.shiftr block 24 .& 0xff) 0, cmd_ext)
  else if m_bLbaMode (geo i) =? IDE_DH_CHS then
    let spt := m_wCountSectorsPerTrack (geo i) in
    let heads := m_wCountHeads (geo i) in
    if (spt =? 0) || (heads =? 0) then UB
    else
      let track := block / spt in
      Ok (mkParams 1 (u8 (1 + block mod spt)) (u16 (track / heads))
            (IDE_DH_DEFAULT .| IDE_DH_HEAD (track mod heads) .| IDE_DH_DRIVE nDriveIndex .| IDE_DH_CHS) 0 0 0, cmd)
  else
    Ok (mkParams 1 (block .& 0xff) (Z.shiftr block 8 .& 0xffff)
          (IDE_DH_DEFAULT .| (Z.shiftr block 24 .& 0x0f) .| IDE_DH_DRIVE nDriveIndex .| IDE_DH_LBA) 0 0 0, cmd).

(** [BootIdeReadData] again until it succeeds. *)
Definition read_retry (uIoBase size : Z) : ST ide (list Z) :=
  '(r, b) ← BootIdeReadData uIoBase size;
  if truthy r then
    loop_until fuel
      ('(r, b) ← BootIdeReadData uIoBase size; mret (if truthy r then None else Some b))
  else mret b.

(** The branch for discs.  The status is not tested: the mask is applied to the
    number of the port, so ports 1 and 0x20 are read instead. *)
Definition read_disc (nDriveIndex uIoBase block n_bytes : Z) : ST ide (Z * list Z) :=
  _ ← IoInputByte (IDE_REG_STATUS uIoBase);
  b ← IoInputByte (IDE_REG_STATUS uIoBase .& 1);
  (if truthy b then
     b ← IoInputByte (IDE_REG_ERROR uIoBase .& 0x20);
     if truthy b then
       '(_, b) ← BootIdeAtapiAdditionalSenseCode nDriveIndex 2048;
       assert_ub (length b <=? 12)%nat
     else mret tt
   else mret tt);;
  _ ← BootIdeWaitNotBusy uIoBase;
  if n_bytes <? 2048 then mret (1, [])
  else
    n ← BootIdeIssueAtapiPacketCommandAndPacket nDriveIndex
          [0x28; 0; u8 (Z.shiftr block 24); u8 (Z.shiftr block 16); u8 (Z.shiftr block 8); u8 block; 0; 0; 1; 0; 0; 0];
    if truthy n then mret (1, [])
    else
      nReturn ← packet_length uIoBase 2048;
      b ← read_retry uIoBase nReturn;
      mret (0, b).

Definition set_control (i : tsHarddiskInfo) : ST ide unit :=
  IoOutputByte (IDE_REG_CONTROL (m_fwPortBase i)) (if 8 <? m_wCountHeads (geo i) then 0x0a else 0x02).

(** The result and the octets stored from the start of [pbBuffer]. *)
Definition BootIdeReadSector (nDriveIndex block byte_offset n_bytes : Z) : ST ide (Z * list Z) :=
  i ← hd nDriveIndex;
  if negb (m_fDriveExists i) then mret (4, [])
  else
    let uIoBase := m_fwPortBase i in
    IoOutputByte (IDE_REG_DRIVEHEAD uIoBase) (select_drive nDriveIndex);;
    if m_fAtapi i then read_disc nDriveIndex uIoBase block n_bytes
    else
      set_control i;;
      '(params, cmd) ← liftO (address_block i nDriveIndex block IDE_CMD_READ_MULTI_RETRY IDE_CMD_READ_EXT);
      n ← BootIdeIssueAtaCommand uIoBase cmd params;
      if truthy n then mret (1, [])
      else
        b ← read_retry uIoBase IDE_SECTOR_SIZE;
        if negb (n_bytes =? IDE_SECTOR_SIZE) then
          assert_ub ((0 <=? byte_offset) && (0 <=? n_bytes) && (byte_offset + n_bytes <=? IDE_SECTOR_SIZE));;
          mret (0, take (Z.to_nat n_bytes) (drop (Z.to_nat byte_offset) b))
        else mret (0, b).

(** [retry] attempts, at least one. *)
Fixpoint BootIdeWriteSector (retry : nat) (nDriveIndex : Z) (pbBuffer : list Z) (block : Z) : ST ide Z :=
  i ← hd nDriveIndex;
  if negb (m_fDriveExists i) then mret 4
  else
    let uIoBase := m_fwPortBase i in
    IoOutputByte (IDE_REG_DRIVEHEAD uIoBase) (select_drive nDriveIndex);;
    set_control i;;
    '(params, cmd) ← liftO (address_block i nDriveIndex block IDE_CMD_WRITE_MULTI_RETRY IDE_CMD_WRITE_EXT);
    n ← BootIdeIssueAtaCommand uIoBase cmd params;
    if truthy n then mret 1
    else
      status ← BootIdeWriteData uIoBase pbBuffer;
      match retry with
      | S (S _ as retry) => if truthy status then BootIdeWriteSector retry nDriveIndex pbBuffer block else mret status
      | _ => mret status
      end.

Definition BootIdeFlushCache (nDriveIndex : Z) : ST ide Z :=
  i ← hd nDriveIndex;
  let tsicp := default_command (select_drive nDriveIndex) in
  if m_fFlushCacheExtSupported (xfer i) then BootIdeIssueAtaCommand (m_fwPortBase i) IDE_CMD_CACHE_FLUSH_EXT tsicp
  else if m_fFlushCacheSupported (xfer i) then BootIdeIssueAtaCommand (m_fwPortBase i) IDE_CMD_CACHE_FLUSH tsicp
  else mret 1.

Definition BootIdeGetSectorCount (nDriveIndex : Z) : ST ide Z :=
  i ← hd nDriveIndex; mret (m_dwCountSectorsTotal (geo i)).
Definition BootIdeDeviceConnected (nDriveIndex : Z) : ST ide Z :=
  i ← hd nDriveIndex; mret (c_bool (m_fDriveExists i)).
Definition BootIdeDeviceIsATAPI (nDriveIndex : Z) : ST ide Z :=
  i ← hd nDriveIndex; mret (c_bool (m_fAtapi i)).
Definition BootIdeDeviceIsLocked (nDriveIndex : Z) : ST ide Z :=
  i ← hd nDriveIndex; mret (m_securitySettings (sec i) .& 0x0002).

(** ** Modes *)

Definition BootIdeSetTransferMode (nIndexDrive nMode : Z) : ST ide Z :=
  i ← hd nIndexDrive;
  let uIoBase := m_fwPortBase i in
  IoOutputByte (IDE_REG_DRIVEHEAD uIoBase) (select_drive nIndexDrive);;
  IoOutputByte (0xff60 + 2) 0x62;;
  IoOutputByte (IDE_REG_CONTROL uIoBase) 0x08;;
  IoOutputByte (IDE_REG_FEATURE uIoBase) 0x01;;
  n ← BootIdeWaitNotBusy uIoBase;
  if truthy n then mret 1
  else
    IoOutputByte (IDE_REG_FEATURE uIoBase) 3;;
    BootIdeIssueAtaCommand uIoBase IDE_CMD_SET_FEATURES (set_count (u8 nMode) (default_command (select_drive nIndexDrive))).

(** The commands go to the master, whatever the drive is. *)
Definition BootIdeSetMultimodeSectors (nIndexDrive nbSectors : Z) : ST ide Z :=
  i ← hd nIndexDrive;
  let uIoBase := m_fwPortBase i in
  IoOutputByte (IDE_REG_DRIVEHEAD uIoBase) (select_drive 0);;
  _ ← BootIdeWaitNotBusy uIoBase;
  let tsicp := set_count nbSectors (default_command (select_drive 0)) in
  n ← BootIdeIssueAtaCommand uIoBase IDE_CMD_SET_MULTIPLE_MODE tsicp;
  if truthy n then mret 1
  else
    _ ← BootIdeWaitNotBusy uIoBase;
    b ← identify uIoBase tsicp;
    match b with
    | None => mret 1
    | Some b =>
        let w := word_at b 59 in
        update_hd nIndexDrive (λ i,
          set_xfer (set_maxBlock (if nbSectors + 0x0100 =? w .& 0x01FF then w .& 0x00FF else 0) (xfer i)) i);;
        mret 0
    end.

(** The S.M.A.R.T. fields from the identify data. *)
Definition smart_of (b : list Z) (old : smart) : smart :=
  if truthy (word_at b 82 .& 0x0001) then
    mkSmart true (truthy (word_at b 85 .& 0x0001)) (word_at b 84 .& 0x0003)
  else mkSmart false (m_fSMARTEnabled old) (m_SMARTFeaturesSupported old).

(** [true] is an error. *)
Definition driveToggleSMARTFeature (nDriveIndex smart_cmd : Z) : ST ide bool :=
  i ← hd nDriveIndex;
  let uIoBase := m_fwPortBase i in
  let tsicp := set_cylinder 0xC24F (default_command (select_drive 0)) in
  IoOutputByte (IDE_REG_DRIVEHEAD uIoBase) (select_drive 0);;
  _ ← BootIdeWaitNotBusy uIoBase;
  IoOutputByte (IDE_REG_FEATURE uIoBase) smart_cmd;;
  n ← BootIdeIssueAtaCommand uIoBase IDE_CMD_SMART tsicp;
  if truthy n then mret true
  else
    _ ← BootIdeWaitNotBusy uIoBase;
    b ← identify uIoBase tsicp;
    match b with
    | None => mret true
    | Some b => update_hd nDriveIndex (λ i, set_smart (smart_of b (smrt i)) i);; mret false
    end.

Definition driveSMARTRETURNSTATUS (nDriveIndex : Z) : ST ide Z :=
  i ← hd nDriveIndex;
  let uIoBase := m_fwPortBase i in
  let tsicp := mkParams 1 0x1 0xC24F (select_drive 0) 0 0 0 in
  IoOutputByte (IDE_REG_DRIVEHEAD uIoBase) (select_drive 0);;
  _ ← BootIdeWaitNotBusy uIoBase;
  IoOutputByte (IDE_REG_FEATURE uIoBase) 0xDA;;
  n ← BootIdeIssueAtaCommand uIoBase IDE_CMD_SMART tsicp;
  if truthy n then mret (-1)
  else
    _ ← BootIdeWaitNotBusy uIoBase;
    lo ← IoInputByte (IDE_REG_LBA_MID uIoBase);
    hi ← IoInputByte (IDE_REG_LBA_HIGH uIoBase);
    let w := lo .| Z.shiftl hi 8 in
    error ← IoInputByte (IDE_REG_STATUS uIoBase);
    if truthy (error .& 1) then mret (-1)
    else mret (if w =? 0xC24F then 0 else if w =? 0x2CF4 then 1 else -1).

(** ** Passwords *)

Definition security_of (b : list Z) : security := mkSecurity (word_at b 128) (word_at b 92).

(** The block of 512 octets for a password command: the control word, the password
    from octet 2, [revision] from octet 34. *)
Definition password_block (control : Z) (password revision : list Z) : list Z :=
  let b := [control; 0] ++ password ++ replicate (510 - length password) 0 in
  take 34 b ++ revision ++ drop (34 + length revision) b.

(** The password that fits the console and the drive. *)
Definition CalculateDrivePassword (stack : Sha1.SHA1Context) (driveId : Z) (eepromPtr : list Z) : ST ide (Z * list Z) :=
  i ← hd driveId;
  '(nVersionHashing, baKeyFromEEPROM) ← liftO (Eeprom.BootHddKeyGenerateEepromKeyData stack (take 0x30 eepromPtr));
  key ← liftO (HddKey.HMAC_SHA1 stack (take 0x10 baKeyFromEEPROM)
                 (take (Z.to_nat (m_length (ident i))) (m_szIdentityModelNumber (ident i)))
                 (take (Z.to_nat (s_length (ident i))) (m_szSerial (ident i))));
  mret (if (nVersionHashing =? 0) || (nVersionHashing =? 13) then (1, []) else (0, key)).

(** Sends a block of 512 octets with a command, and waits. *)
Definition send_block (uIoBase cmd : Z) (tsicp : tsIdeCommandParams) (block : list Z) : ST ide bool :=
  n ← BootIdeIssueAtaCommand uIoBase cmd tsicp;
  if truthy n then mret false
  else
    _ ← BootIdeWaitDataReady uIoBase;
    _ ← BootIdeWriteData uIoBase block;
    n ← BootIdeWaitNotBusy uIoBase;
    mret (negb (truthy n)).

(** Sends the identify command and keeps what it says about security. *)
Definition refresh_security (uIoBase driveId : Z) (tsicp : tsIdeCommandParams) : ST ide (option (list Z)) :=
  b ← identify uIoBase tsicp;
  match b with
  | None => mret None
  | Some b => update_hd driveId (set_sec (security_of b));; mret (Some b)
  end.

(** [TEAMASSEMBLY] *)
Definition master_password : list Z := [84; 69; 65; 77; 65; 83; 83; 69; 77; 66; 76; 89].

(** [password] has 20 octets. *)
Definition DriveSecurityChange (uIoBase driveId ide_cmd : Z) (password : list Z) : ST ide Z :=
  n ← BootIdeWaitNotBusy uIoBase;
  if truthy n then mret 1
  else
    let tsicp1 := default_command (select_drive driveId) in
    i ← hd driveId;
    ok ← (if ide_cmd =? IDE_CMD_SECURITY_SET_PASSWORD then
            let revision := if m_masterPassSupport (sec i) =? 0xFFFF then [] else le_bytes 2 (m_masterPassSupport (sec i)) in
            send_block uIoBase ide_cmd tsicp1 (password_block 1 master_password revision)
          else mret true);
    if negb (ok : bool) then mret 1
    else
      ok ← send_block uIoBase ide_cmd tsicp1 (password_block 0 (take 20 password) []);
      if negb (ok : bool) then mret 1
      else
        b ← refresh_security uIoBase driveId tsicp1;
        mret (match b with None => 1 | Some _ => 0 end).

(** A C string ends at its first zero. *)
Fixpoint c_string (s : list Z) : list Z :=
  match s with
  | [] => []
  | c :: s => if c =? 0 then [] else c :: c_string s
  end.

(** [strlen(password)] octets of the password are sent. *)
Definition HDD_SECURITY_SendATACommand (nIndexDrive ATACommand : Z) (password : list Z) (masterPassword : bool) : ST ide Z :=
  i ← hd nIndexDrive;
  let uIoBase := m_fwPortBase i in
  _ ← BootIdeWaitNotBusy uIoBase;
  let tsicp := default_command (select_drive nIndexDrive) in
  let control := if masterPassword && ((ATACommand =? IDE_CMD_SECURITY_UNLOCK) || (ATACommand =? IDE_CMD_SECURITY_DISABLE))
                 then 1 else 0 in
  let password := c_string password in
  assert_ub (length password <=? 510)%nat;;
  let revision := if masterPassword && negb (m_masterPassSupport (sec i) =? 0xFFFF) &&
                     (ATACommand =? IDE_CMD_SECURITY_SET_PASSWORD) then [1] else [] in
  ok ← send_block uIoBase ATACommand tsicp (password_block control password revision);
  if negb (ok : bool) then mret 1
  else
    b ← refresh_security uIoBase nIndexDrive tsicp;
    mret (match b with None => 1 | Some _ => 0 end).

(** The two commands with the master password; a command that is refused counts as
    a success. *)
Definition driveMasterPasswordUnlock (uIoBase driveId : Z) (password : list Z) : ST ide bool :=
  n ← BootIdeWaitNotBusy uIoBase;
  if truthy n then mret false
  else
    let tsicp := default_command (select_drive driveId) in
    let block := password_block 1 password [] in
    let step cmd bit : ST ide (option bool) :=
      n ← BootIdeIssueAtaCommand uIoBase cmd tsicp;
      if truthy n then mret (Some true)
      else
        _ ← BootIdeWaitDataReady uIoBase;
        _ ← BootIdeWriteData uIoBase block;
        n ← BootIdeWaitNotBusy uIoBase;
        if truthy n then mret (Some false)
        else
          b ← refresh_security uIoBase driveId tsicp;
          match b with
          | None => mret (Some false)
          | Some b => mret (if truthy (word_at b 128 .& bit) then Some false else None)
          end in
    r ← step IDE_CMD_SECURITY_UNLOCK 0x0004;
    match r with
    | Some r => mret r
    | None =>
        n ← BootIdeWaitNotBusy uIoBase;
        if truthy n then mret false
        else
          r ← step IDE_CMD_SECURITY_DISABLE 0x0002;
          mret (match r with Some r => r | None => true end)
    end.

(** ** Detection *)

Definition reset_hd (uIoBase : Z) (i : tsHarddiskInfo) : tsHarddiskInfo :=
  mkHdInfo uIoBase false false (m_bCableConductors i) (mkGeo 0 0 0 1 IDE_DH_CHS) (ident i) (mkSecurity 0 0)
    (mkSmart false false 0)
    (mkTransfer (m_maxBlockTransfer (xfer i)) (m_minPIOcycle (xfer i)) false (m_fFlushCacheSupported (xfer i))
       (m_fFlushCacheExtSupported (xfer i)) 0).

(** The signature a packet drive leaves when it refuses to identify itself. *)
Definition detect_packet (uIoBase nIndexDrive n : Z) (tsicp : tsIdeCommandParams) : ST ide bool :=
  if n =? 1 then
    cl ← IoInputByte (IDE_REG_LBA_MID uIoBase);
    ch ← IoInputByte (IDE_REG_LBA_HIGH uIoBase);
    if ((cl =? 0x14) && (ch =? 0xEB)) || ((cl =? 0x69) && (ch =? 0x96)) then
      n ← BootIdeIssueAtaCommand uIoBase IDE_CMD_PACKET_IDENTIFY tsicp;
      if truthy n then mret false else update_hd nIndexDrive (set_atapi true);; mret true
    else mret false
  else update_hd nIndexDrive (set_atapi false);; mret true.

(** What the identify data say about every drive. *)
Definition identified (b : list Z) (i : tsHarddiskInfo) : outcome tsHarddiskInfo :=
  let w86 := word_at b 86 in
  '(sl, serial) ← HddKey.copy_swap_trim (m_szSerial (ident i)) (drop 20 b) 20;
  '(ml, model) ← HddKey.copy_swap_trim (m_szIdentityModelNumber (ident i)) (drop 54 b) 40;
  '(_, firmware) ← HddKey.copy_swap_trim (m_szFirmware (ident i)) (drop 46 b) 8;
  Ok (mkHdInfo (m_fwPortBase i) true (m_fAtapi i) (m_bCableConductors i)
        (mkGeo (word_at b 3) (word_at b 1) (word_at b 6)
           (if truthy (w86 .& 0x400) then dword_at b 100 else dword_at b 60) (m_bLbaMode (geo i)))
        (mkIdentity model ml serial sl firmware) (sec i) (smrt i)
        (mkTransfer (m_maxBlockTransfer (xfer i)) (m_minPIOcycle (xfer i)) (m_bIORDY (xfer i))
           (truthy (w86 .& 0x1000)) (truthy (w86 .& 0x2000)) (word_at b 88))).

(** A packet drive is asked for its sense code until it needs no attention. *)
Definition clear_attention (nIndexDrive : Z) : ST ide unit :=
  loop_until fuel
    ('(nPacketLength, ba) ← BootIdeAtapiAdditionalSenseCode nIndexDrive 128;
     mret (if nPacketLength <? 12 then Some tt
           else if nth 2 ba 0x06 =? 0x06 then None else Some tt)).

(** A hard disk is unlocked, and its modes are set; [false] ends the detection. *)
Definition init_disk (stack : Sha1.SHA1Context) (isXBE : bool) (eeprom : list Z) (nIndexDrive : Z) (b : list Z)
    : ST ide bool :=
  update_hd nIndexDrive (set_sec (security_of b));;
  (if negb isXBE && truthy (word_at b 128 .& 0x0004) then
     '(r, userPassword) ← CalculateDrivePassword stack nIndexDrive eeprom;
     assert_ub (r =? 0);;
     _ ← HDD_SECURITY_SendATACommand nIndexDrive IDE_CMD_SECURITY_UNLOCK (userPassword ++ [0]) false;
     mret tt
   else mret tt);;
  let maxBlock := word_at b 47 .& 0xFF in
  update_hd nIndexDrive (λ i, set_xfer (set_maxBlock maxBlock (xfer i)) i);;
  n ← (if negb (maxBlock + 0x0100 =? word_at b 59 .& 0x01FF)
       then BootIdeSetMultimodeSectors nIndexDrive maxBlock else mret 0);
  if truthy n then mret false
  else
    let w67 := word_at b 67 in
    update_hd nIndexDrive (λ i, set_xfer (mkTransfer (m_maxBlockTransfer (xfer i)) w67
      (truthy (word_at b 49 .& 0x400)) (m_fFlushCacheSupported (xfer i))
      (m_fFlushCacheExtSupported (xfer i)) (m_wAtaRevisionSupported (xfer i))) i);;
    (if w67 <=? 383 then
       _ ← BootIdeSetTransferMode nIndexDrive 0x09; PciWriteDword 0x58 0x65656565
     else _ ← BootIdeSetTransferMode nIndexDrive 0x08; PciWriteDword 0x58 0xA8A8A8A8);;
    mret true.

Definition set_lba (m : Z) (g : geometry) : geometry :=
  mkGeo (m_wCountHeads g) (m_wCountCylinders g) (m_wCountSectorsPerTrack g) (m_dwCountSectorsTotal g) m.

Definition BootIdeDriveInit (stack : Sha1.SHA1Context) (isXBE : bool) (eeprom : list Z) (uIoBase nIndexDrive : Z)
    : ST ide Z :=
  update_hd nIndexDrive (reset_hd uIoBase);;
  IoOutputByte (IDE_REG_CONTROL uIoBase) 0x02;;
  IoOutputByte (IDE_REG_FEATURE uIoBase) 0x00;;
  let tsicp := default_command (select_drive nIndexDrive) in
  n ← BootIdeIssueAtaCommand uIoBase IDE_CMD_IDENTIFY tsicp;
  if n =? -1 then mret 1
  else
    ok ← detect_packet uIoBase nIndexDrive n tsicp;
    if negb (ok : bool) then mret 1
    else
      _ ← BootIdeWaitDataReady uIoBase;
      '(r, b) ← BootIdeReadData uIoBase IDE_SECTOR_SIZE;
      if truthy r then mret 1
      else
        i ← hd nIndexDrive;
        i ← liftO (identified b i);
        update_hd nIndexDrive (λ _, i);;
        ok ← (if m_fAtapi i then (if isXBE then mret tt else clear_attention nIndexDrive);; mret true
              else init_disk stack isXBE eeprom nIndexDrive b);
        if negb (ok : bool) then mret 1
        else
          update_hd nIndexDrive (λ i,
            set_geo (set_lba (if truthy (word_at b 49 .& 0x200) then IDE_DH_LBA else IDE_DH_CHS) (geo i)) i);;
          (if m_fAtapi i then mret tt else update_hd nIndexDrive (λ i, set_smart (smart_of b (smrt i)) i));;
          mret 0.

Definition BootIdeInit (stack : Sha1.SHA1Context) (isXBE : bool) (eeprom : list Z) : ST ide Z :=
  update_hd 0 (λ _, set_cable 40 zero_info);;
  update_hd 1 (λ _, set_cable 40 zero_info);;
  IoOutputByte 0xff60 0x00;;
  IoOutputByte (0xff60 + 2) 0x62;;
  _ ← BootIdeDriveInit stack isXBE eeprom IDE_BASE1 0;
  _ ← BootIdeDriveInit stack isXBE eeprom IDE_BASE1 1;
  i ← hd 0;
  (if m_fDriveExists i && negb (m_fAtapi i) then
     IoOutputByte (IDE_REG_DRIVEHEAD (m_fwPortBase i)) (select_drive 0);;
     b ← identify (m_fwPortBase i) (default_command (select_drive 0));
     match b with
     | Some b =>
         let w := word_at b 93 in
         if truthy (w .& 0xc000) && negb (truthy (w .& 0x8000)) && negb (w .& 0xe000 =? 0x6000)
         then update_hd 0 (set_cable 80) else mret tt
     | None => mret tt
     end
   else mret tt);;
  mret 0.

(** ** The lock menu ([src/menu/actions/HDDMenuActions.c]) *)

(** [confirmed]: the user did not cancel, or was not asked. *)
Definition LockHDD (stack : Sha1.SHA1Context) (confirmed : bool) (nIndexDrive : Z) (eepromPtr : option (list Z)) : ST ide bool :=
  i ← hd nIndexDrive;
  match eepromPtr with
  | None => mret false
  | Some eepromPtr =>
      if negb confirmed then mret false
      else
        '(r, password) ← CalculateDrivePassword stack nIndexDrive eepromPtr;
        if truthy r then mret false
        else
          n ← DriveSecurityChange (m_fwPortBase i) nIndexDrive IDE_CMD_SECURITY_SET_PASSWORD password;
          mret (negb (truthy n))
  end.

Definition MasterPasswordList : list (list Z) :=
  [master_password;
   [88; 66; 79; 88; 83; 67; 69; 78; 69];
   [83; 101; 97; 103; 97; 116; 101] ++ replicate 25 32;
   concat (replicate 10 [87; 68; 67]) ++ [87]].

Fixpoint masterPasswordUnlockSequence (passwords : list (list Z)) (nIndexDrive : Z) : ST ide bool :=
  match passwords with
  | [] => mret false
  | password :: passwords =>
      i ← hd nIndexDrive;
      if truthy (m_securitySettings (sec i) .& 0x0010) then mret false
      else
        n ← HDD_SECURITY_SendATACommand nIndexDrive IDE_CMD_SECURITY_UNLOCK password true;
        if truthy n then masterPasswordUnlockSequence passwords nIndexDrive
        else
          _ ← HDD_SECURITY_SendATACommand nIndexDrive IDE_CMD_SECURITY_DISABLE password true;
          mret true
  end.

(** A cancelled dialog returns 0, like a success. *)
Definition UnlockHDD (stack : Sha1.SHA1Context) (confirmed : bool) (nIndexDrive : Z) (eepromPtr : option (list Z))
    (internalEEPROM : bool) : ST ide Z :=
  i ← hd nIndexDrive;
  match eepromPtr with
  | None => mret (-1)
  | Some eepromPtr =>
      if truthy (m_securitySettings (sec i) .& 0x0010) then mret (-1)
      else if negb confirmed then mret 0
      else
        '(r, userPassword) ← CalculateDrivePassword stack nIndexDrive eepromPtr;
        let send cmd := (assert_ub (r =? 0);; HDD_SECURITY_SendATACommand nIndexDrive cmd (userPassword ++ [0]) false) in
        let disable := (n ← send IDE_CMD_SECURITY_DISABLE; mret (if truthy n then -1 else 0)) in
        if truthy (m_securitySettings (sec i) .& 0x0004) then
          if internalEEPROM then
            ok ← masterPasswordUnlockSequence MasterPasswordList nIndexDrive;
            mret (if (ok : bool) then 0 else -1)
          else
            n ← send IDE_CMD_SECURITY_UNLOCK;
            if truthy n then mret (-1) else disable
        else disable
  end.
End driver.
#[global] Arguments ide : clear implicits.
End Ide.
