(* ===== verification/AtaDevice.v ===== *)
(** * A drive that follows the ATA standard

    The hardware below the IDE driver as far as its theorems need it: two hard
    disks on one cable, their registers, the status of a command, the data phases,
    the medium and the security feature set.  A drive is busy for a number of
    status reads after a command and after a transfer to it; [delays] says for how
    many.  The registers that hold an address remember the value before the last
    one, as 48-bit commands need it.  Commands outside the driver's use, and packet
    commands, are refused. *)

From S2P Require Import Prelude Ide.

Module Ata.

Abbreviation length := List.length.

Record drive := mkDrive {
  capacity : Z;
  heads : Z;
  spt : Z;
  info : nat → Z;          (* the identify words that never change *)
  medium : Z → list Z;     (* the 256 words of a sector *)
  user : list Z;           (* passwords of 16 words *)
  master : list Z;
  master_id : Z;
  enabled : bool;
  locked : bool;
  tries : Z;
  multiple : Z;
  smart_on : bool;
  failed : bool            (* the last command ended with an error *)
}.

Definition set_failed (b : bool) (d : drive) : drive :=
  mkDrive (capacity d) (heads d) (spt d) (info d) (medium d) (user d) (master d) (master_id d) (enabled d) (locked d)
    (tries d) (multiple d) (smart_on d) b.
Definition set_medium (m : Z → list Z) (d : drive) : drive :=
  mkDrive (capacity d) (heads d) (spt d) (info d) m (user d) (master d) (master_id d) (enabled d) (locked d)
    (tries d) (multiple d) (smart_on d) (failed d).
Definition set_master (p : list Z) (i : Z) (d : drive) : drive :=
  mkDrive (capacity d) (heads d) (spt d) (info d) (medium d) (user d) p i (enabled d) (locked d)
    (tries d) (multiple d) (smart_on d) (failed d).
Definition set_user (p : list Z) (e : bool) (d : drive) : drive :=
  mkDrive (capacity d) (heads d) (spt d) (info d) (medium d) p (master d) (master_id d) e (locked d)
    (tries d) (multiple d) (smart_on d) (failed d).
Definition set_lock (l : bool) (t : Z) (d : drive) : drive :=
  mkDrive (capacity d) (heads d) (spt d) (info d) (medium d) (user d) (master d) (master_id d) (enabled d) l
    t (multiple d) (smart_on d) (failed d).
Definition set_modes (m : Z) (s : bool) (d : drive) : drive :=
  mkDrive (capacity d) (heads d) (spt d) (info d) (medium d) (user d) (master d) (master_id d) (enabled d) (locked d)
    (tries d) m s (failed d).

(** A register that is written twice keeps both values. *)
Definition reg : Type := Z * Z.
Definition push (v : Z) (r : reg) : reg := (v, fst r).

Record regs := mkRegs { feature : Z; count : reg; low : reg; mid : reg; high : reg; device : Z }.

Inductive phase :=
| Idle
| DataIn (ws : list Z)
| DataOut (cmd lba : Z) (missing : nat) (got : list Z).

Record ata := mkAta {
  drive0 : option drive;
  drive1 : option drive;
  rg : regs;
  ph : phase;
  busy : nat;
  delays : nat → nat;
  tick : nat
}.

Definition set_rg (r : regs) (a : ata) : ata := mkAta (drive0 a) (drive1 a) r (ph a) (busy a) (delays a) (tick a).
Definition set_ph (p : phase) (a : ata) : ata := mkAta (drive0 a) (drive1 a) (rg a) p (busy a) (delays a) (tick a).
Definition set_busy (n : nat) (a : ata) : ata := mkAta (drive0 a) (drive1 a) (rg a) (ph a) n (delays a) (tick a).

(** The drive that the device register selects. *)
Definition slave (a : ata) : bool := Z.testbit (device (rg a)) 4.
Definition selected (a : ata) : option drive := if slave a then drive1 a else drive0 a.
Definition set_selected (d : drive) (a : ata) : ata :=
  if slave a then mkAta (drive0 a) (Some d) (rg a) (ph a) (busy a) (delays a) (tick a)
  else mkAta (Some d) (drive1 a) (rg a) (ph a) (busy a) (delays a) (tick a).

(** The drive works for a while, then enters the phase. *)
Definition become (d : drive) (p : phase) (a : ata) : ata :=
  let a := set_selected d a in
  mkAta (drive0 a) (drive1 a) (rg a) p (delays a (tick a)) (delays a) (S (tick a)).
Definition fail (d : drive) (a : ata) : ata := become (set_failed true d) Idle a.

(** ** Identify data *)

Definition security_word (d : drive) : Z :=
  1 + 2 * c_bool (enabled d) + 4 * c_bool (locked d) + 16 * c_bool (tries d =? 0).

Definition identify_word (d : drive) (i : nat) : Z :=
  if (i =? 59)%nat then (if multiple d =? 0 then 0 else 0x100 + multiple d)
  else if (i =? 85)%nat then 2 * (info d 85 / 2) + c_bool (smart_on d)
  else if (i =? 92)%nat then master_id d
  else if (i =? 128)%nat then security_word d
  else info d i.
Definition identify_words (d : drive) : list Z := identify_word d <$> seq 0 256.

(** ** Addresses *)

Definition address28 (d : drive) (r : regs) : Z :=
  if Z.testbit (device r) 6 then
    fst (low r) + 2 ^ 8 * fst (mid r) + 2 ^ 16 * fst (high r) + 2 ^ 24 * (device r .& 0x0F)
  else
    ((fst (mid r) + 2 ^ 8 * fst (high r)) * heads d + (device r .& 0x0F)) * spt d + fst (low r) - 1.
Definition address48 (r : regs) : Z :=
  fst (low r) + 2 ^ 8 * fst (mid r) + 2 ^ 16 * fst (high r) +
  2 ^ 24 * snd (low r) + 2 ^ 32 * snd (mid r) + 2 ^ 40 * snd (high r).
Definition count28 (r : regs) : Z := if fst (count r) =? 0 then 256 else fst (count r).
Definition count48 (r : regs) : Z :=
  let n := fst (count r) + 2 ^ 8 * snd (count r) in if n =? 0 then 65536 else n.

Definition sectors (lba n : Z) : list Z := (λ k, lba + Z.of_nat k) <$> seq 0 (Z.to_nat n).

(** ** Commands *)

Definition transfer_sectors (d : drive) (lba n : Z) (p : phase) (a : ata) : ata :=
  if locked d || negb ((0 <=? lba) && (lba + n <=? capacity d)) then fail d a
  else become (set_failed false d) p a.

Definition read_sectors (d : drive) (lba n : Z) (a : ata) : ata :=
  transfer_sectors d lba n (DataIn (concat (medium d <$> sectors lba n))) a.
Definition write_sectors (d : drive) (cmd lba n : Z) (a : ata) : ata :=
  transfer_sectors d lba n (DataOut cmd lba (Z.to_nat (256 * n)) []) a.

Definition smart_command (d : drive) (a : ata) : ata :=
  let r := rg a in
  let d := set_failed false d in
  if negb ((fst (mid r) =? 0x4F) && (fst (high r) =? 0xC2)) then fail d a
  else if feature r =? 0xD8 then become (set_modes (multiple d) true d) Idle a
  else if feature r =? 0xD9 then become (set_modes (multiple d) false d) Idle a
  else if feature r =? 0xDA then become d Idle a
  else fail d a.

Definition command (cmd : Z) (a : ata) : ata :=
  match selected a with
  | None => a
  | Some d =>
      let r := rg a in
      let done := become (set_failed false d) in
      if cmd =? 0x20 then read_sectors d (address28 d r) (count28 r) a
      else if cmd =? 0x24 then read_sectors d (address48 r) (count48 r) a
      else if cmd =? 0x30 then write_sectors d cmd (address28 d r) (count28 r) a
      else if cmd =? 0x34 then write_sectors d cmd (address48 r) (count48 r) a
      else if cmd =? 0xEC then done (DataIn (identify_words d)) a
      else if cmd =? 0xC6 then become (set_modes (fst (count r)) (smart_on d) (set_failed false d)) Idle a
      else if (cmd =? 0xEF) || (cmd =? 0xE7) || (cmd =? 0xEA) then done Idle a
      else if cmd =? 0xB0 then smart_command d a
      else if cmd =? 0xF1 then if locked d then fail d a else done (DataOut cmd 0 256 []) a
      else if (cmd =? 0xF2) || (cmd =? 0xF6) then done (DataOut cmd 0 256 []) a
      else fail d a
  end.

(** The words of a transfer, cut into sectors. *)
Fixpoint store_sectors (n : nat) (lba : Z) (ws : list Z) (m : Z → list Z) : Z → list Z :=
  match n with
  | O => m
  | S n => store_sectors n (lba + 1) (drop 256 ws) (λ x, if x =? lba then take 256 ws else m x)
  end.

(** The password of a block, and whether it is the master password. *)
Definition block_password (ws : list Z) : list Z := take 16 (drop 1 ws).
Definition block_master (ws : list Z) : bool := Z.testbit (nth 0 ws 0) 0.
Definition password_fits (d : drive) (ws : list Z) : bool :=
  bool_decide (block_password ws = if block_master ws then master d else user d).

Definition set_password (d : drive) (ws : list Z) : drive :=
  if block_master ws then
    set_master (block_password ws)
      (if (nth 17 ws 0 =? 0) || (nth 17 ws 0 =? 0xFFFF) then master_id d else nth 17 ws 0) d
  else set_user (block_password ws) true d.

(** The last word of a transfer has come. *)
Definition complete (cmd lba : Z) (ws : list Z) (a : ata) : ata :=
  match selected a with
  | None => a
  | Some d =>
      let ok d := become (set_failed false d) Idle a in
      if cmd =? 0xF1 then ok (set_password d ws)
      else if cmd =? 0xF2 then
        if negb (tries d =? 0) && password_fits d ws then ok (set_lock false (tries d) d)
        else fail (set_lock (locked d) (Z.max 0 (tries d - 1)) d) a
      else if cmd =? 0xF6 then
        if negb (locked d) && password_fits d ws then ok (set_user (user d) false d) else fail d a
      else ok (set_medium (store_sectors (length ws / 256) lba ws (medium d)) d)
  end.

(** ** Ports *)

Definition status (d : drive) (a : ata) : Z :=
  0x50 + (match ph a with Idle => 0 | _ => 0x08 end) + c_bool (failed d).

Definition ata_in8 (port : Z) (a : ata) : Z * ata :=
  match selected a with
  | None => (0, a)
  | Some d =>
      let r := rg a in
      if port =? 0x1F7 then
        match busy a with
        | S n => (0x80, set_busy n a)
        | O => (status d a, a)
        end
      else if port =? 0x1F1 then (4 * c_bool (failed d), a)
      else if port =? 0x1F2 then (fst (count r), a)
      else if port =? 0x1F3 then (fst (low r), a)
      else if port =? 0x1F4 then (fst (mid r), a)
      else if port =? 0x1F5 then (fst (high r), a)
      else if port =? 0x1F6 then (device r, a)
      else (0, a)
  end.

Definition ata_out8 (port v : Z) (a : ata) : ata :=
  let r := rg a in
  if port =? 0x1F1 then set_rg (mkRegs v (count r) (low r) (mid r) (high r) (device r)) a
  else if port =? 0x1F2 then set_rg (mkRegs (feature r) (push v (count r)) (low r) (mid r) (high r) (device r)) a
  else if port =? 0x1F3 then set_rg (mkRegs (feature r) (count r) (push v (low r)) (mid r) (high r) (device r)) a
  else if port =? 0x1F4 then set_rg (mkRegs (feature r) (count r) (low r) (push v (mid r)) (high r) (device r)) a
  else if port =? 0x1F5 then set_rg (mkRegs (feature r) (count r) (low r) (mid r) (push v (high r)) (device r)) a
  else if port =? 0x1F6 then set_rg (mkRegs (feature r) (count r) (low r) (mid r) (high r) v) a
  else if port =? 0x1F7 then command v a
  else a.

Definition ata_in16 (port : Z) (a : ata) : Z * ata :=
  if port =? 0x1F0 then
    match ph a with
    | DataIn [w] => (w, set_ph Idle a)
    | DataIn (w :: ws) => (w, set_ph (DataIn ws) a)
    | _ => (0, a)
    end
  else (0, a).

Definition ata_out16 (port v : Z) (a : ata) : ata :=
  if port =? 0x1F0 then
    match ph a with
    | DataOut cmd lba (S O) got => complete cmd lba (got ++ [v]) a
    | DataOut cmd lba (S n) got => set_ph (DataOut cmd lba n (got ++ [v])) a
    | _ => a
    end
  else a.

#[export] Instance ata_bus : IdeBus ata := {
  bus_in8 := ata_in8;
  bus_out8 := ata_out8;
  bus_in16 := ata_in16;
  bus_out16 := ata_out16;
  bus_pci _ _ a := a
}.

(** The power is switched off and on. *)
Definition power_drive (d : drive) : drive :=
  mkDrive (capacity d) (heads d) (spt d) (info d) (medium d) (user d) (master d) (master_id d) (enabled d) (enabled d)
    5 0 (smart_on d) false.
Definition power_cycle (a : ata) : ata :=
  mkAta (power_drive <$> drive0 a) (power_drive <$> drive1 a) (mkRegs 0 (0, 0) (0, 0) (0, 0) (0, 0) 0) Idle 0
    (delays a) (tick a).
End Ata.
