(* ===== verification/IdeTheorems.v ===== *)
(** * The IDE driver on ATA drives

    The functions of [Ide.v] run on the drives of [AtaDevice.v]: the polls end, a
    command reaches the drive it is meant for, and the sectors and passwords arrive
    as they were sent. *)

From S2P Require Import Prelude Sha1 HddKey Eeprom Ide AtaDevice.

Module IdeTheorems.
Import Ide Ata.

Abbreviation length := List.length.

Definition set_hw (a : ata) (s : ide ata) : ide ata := mkIde (hd0 s) (hd1 s) a.
Definition word16 (w : Z) : Prop := 0 <= w < 65536.

(** ** Octets and words *)

Lemma octets_cons w ws : octets_of (w :: ws) = w mod 256 :: (w / 256) mod 256 :: octets_of ws.
Proof. done. Qed.

Lemma length_words_of n : ∀ b, length b = (2 * n)%nat → length (words_of b) = n.
Proof.
  induction n as [|n IH]; intros b Hb; [by destruct b|]. destruct b as [|lo [|hi b]]; cbn in Hb; try lia.
  cbn. f_equal. apply IH. lia.
Qed.

Lemma octets_words n : ∀ b, length b = (2 * n)%nat → Forall byte b → octets_of (words_of b) = b.
Proof.
  induction n as [|n IH]; intros b Hb H8; [by destruct b|]. destruct b as [|lo [|hi b]]; cbn in Hb; try lia.
  apply Forall_cons_1 in H8 as [H0 H8]. apply Forall_cons_1 in H8 as [H1 H8]. unfold byte in *.
  cbn [words_of]. rewrite octets_cons, (IH b) by (lia || done).
  f_equal; [|f_equal]; Z.to_euclidean_division_equations; lia.
Qed.

Lemma words_of_word16 n : ∀ b, length b = (2 * n)%nat → Forall byte b → Forall word16 (words_of b).
Proof.
  induction n as [|n IH]; intros b Hb H8; [by destruct b|]. destruct b as [|lo [|hi b]]; cbn in Hb; try lia.
  apply Forall_cons_1 in H8 as [H0 H8]. apply Forall_cons_1 in H8 as [H1 H8]. unfold byte in *.
  cbn. constructor; [unfold word16; lia|]. apply IH; [lia|done].
Qed.

Lemma length_octets_of ws : length (octets_of ws) = (2 * length ws)%nat.
Proof. induction ws as [|w ws IH]; [done|]. rewrite octets_cons. cbn [List.length]. lia. Qed.

Lemma octets_byte ws : Forall byte (octets_of ws).
Proof.
  induction ws as [|w ws IH]; [constructor|]. rewrite octets_cons. unfold byte in *.
  repeat (constructor; [apply Z.mod_pos_bound; lia|]). done.
Qed.

Lemma words_octets ws : Forall word16 ws → words_of (octets_of ws) = ws.
Proof.
  induction 1 as [|w ws Hw _ IH]; [done|]. rewrite octets_cons. cbn [words_of]. rewrite IH. f_equal.
  unfold word16 in Hw. Z.to_euclidean_division_equations. lia.
Qed.

(** [drive_info[i]] is word [i] of the transfer. *)
Lemma word_at_octets ws i : Forall word16 ws → word_at (octets_of ws) i = nth i ws 0.
Proof.
  unfold word_at. intros Hws. revert i. induction Hws as [|w ws Hw _ IH]; intros i; [by destruct i|].
  rewrite octets_cons. destruct i as [|i].
  - cbn [nth Nat.add Nat.mul]. unfold word16 in Hw. Z.to_euclidean_division_equations. lia.
  - replace (2 * S i)%nat with (S (S (2 * i))) by lia. cbn [nth Nat.add]. apply IH.
Qed.

(** ** Ports *)

Section polls.
Context (fuel : positive).
Implicit Types (s : ide ata) (a : ata) (d : drive).

Lemma set_hw_same s : set_hw (hw s) s = s.
Proof. by destruct s. Qed.

Lemma selected_busy n a : selected (set_busy n a) = selected a.
Proof. done. Qed.

Lemma in_status s d :
  selected (hw s) = Some d →
  IoInputByte (IDE_REG_STATUS IDE_BASE1) s =
    match busy (hw s) with
    | S n => Ok (0x80, set_hw (set_busy n (hw s)) s)
    | O => Ok (status d (hw s), s)
    end.
Proof.
  intros Hd. unfold IoInputByte. cbn [bus_in8 ata_bus]. unfold ata_in8. rewrite Hd.
  change (IDE_REG_STATUS IDE_BASE1 =? 0x1F7) with true. cbv iota.
  destruct (busy (hw s)); [|done]. fold (set_hw (hw s) s). rewrite set_hw_same. do 2 f_equal.
  unfold status. by destruct (ph (hw s)), (failed d).
Qed.

Lemma wait_not_busy s d :
  selected (hw s) = Some d → (busy (hw s) < Pos.to_nat fuel)%nat →
  BootIdeWaitNotBusy fuel IDE_BASE1 s = Ok (c_bool (failed d), set_hw (set_busy 0 (hw s)) s).
Proof.
  intros Hd Hb. unfold BootIdeWaitNotBusy. eapply loop_until_ends; [|exact Hb].
  clear Hb. remember (busy (hw s)) as n eqn:Hn. revert s Hd Hn. induction n as [|n IH]; intros s Hd Hn.
  - constructor. rewrite bind_cases, (in_status s d Hd), <- Hn.
    replace (set_hw (set_busy 0 (hw s)) s) with s by (destruct s as [? ? []]; cbn in *; by subst).
    unfold status. by destruct (ph (hw s)), (failed d).
  - econstructor; [rewrite bind_cases, (in_status s d Hd), <- Hn; reflexivity|].
    apply (IH (set_hw (set_busy n (hw s)) s)); done.
Qed.

Lemma wait_data_ready s d :
  selected (hw s) = Some d → busy (hw s) = O → ph (hw s) ≠ Idle →
  BootIdeWaitDataReady IDE_BASE1 s = Ok (if failed d then 2 else 0, s).
Proof.
  intros Hd Hb Hp. unfold BootIdeWaitDataReady.
  match goal with |- context [iter_until _ ?m] => assert (m s = Ok (Some (if failed d then 2 else 0), s)) as E end.
  { rewrite bind_cases, (in_status s d Hd), Hb. unfold status at 1.
    destruct (ph (hw s)) eqn:Ep; [done|..]; destruct (failed d) eqn:Ef;
      match goal with |- (if ?c then _ else _) _ = _ => change c with true end; cbv iota;
      rewrite bind_cases, (in_status s d Hd), Hb; unfold status; by rewrite Ep, Ef. }
  erewrite bind_run; [|eapply (iter_until_ends _ _ 0); [by constructor|lia]]. done.
Qed.

(** ** Commands *)

(** What the driver writes into the registers. *)
Definition load (p : tsIdeCommandParams) (r : regs) : regs :=
  mkRegs (feature r) (u8 (m_bCountSector p), u8 (m_bCountSectorExt p)) (u8 (m_bSector p), u8 (m_bSectorExt p))
    (u8 (m_wCylinder p .& 0xFF), u8 (m_wCylinderExt p .& 0xFF))
    (u8 (Z.shiftr (m_wCylinder p) 8), u8 (Z.shiftr (m_wCylinderExt p) 8)) (u8 (m_bDrivehead p)).

Lemma issue_registers_run s cmd p :
  issue_registers IDE_BASE1 cmd p s = Ok (tt, set_hw (command (u8 cmd) (set_rg (load p (rg (hw s))) (hw s))) s).
Proof. reflexivity. Qed.

Lemma selected_become d p a : selected (become d p a) = Some d.
Proof.
  unfold become, set_selected. destruct (slave a) eqn:E; unfold selected, slave in *; cbn -[Z.testbit]; by rewrite E.
Qed.

(** Every command leaves a drive in a phase, after its delay. *)
Lemma command_become cmd a d :
  selected a = Some d → ∃ d' p, command cmd a = become d' p a.
Proof.
  intros Hd. unfold command, read_sectors, write_sectors, transfer_sectors, smart_command, fail. rewrite Hd.
  repeat case_match; eauto.
Qed.

Definition quick a : Prop := ∀ k, (delays a k < Pos.to_nat fuel)%nat.

Lemma issue_run s cmd p d0 d d' ph' :
  selected (hw s) = Some d0 → busy (hw s) = O → quick (hw s) → byte cmd →
  selected (set_rg (load p (rg (hw s))) (hw s)) = Some d →
  command cmd (set_rg (load p (rg (hw s))) (hw s)) = become d' ph' (set_rg (load p (rg (hw s))) (hw s)) →
  BootIdeIssueAtaCommand fuel IDE_BASE1 cmd p s =
    Ok (c_bool (failed d'), set_hw (set_busy 0 (become d' ph' (set_rg (load p (rg (hw s))) (hw s)))) s).
Proof.
  intros H0 Hb Hq Hcmd Hd Hc. unfold BootIdeIssueAtaCommand.
  erewrite bind_run by (eapply wait_not_busy; [done|rewrite Hb; lia]).
  replace (set_hw (set_busy 0 (hw s)) s) with s by (destruct s as [? ? []]; cbn in *; by subst).
  destruct (Z.eqb_spec (c_bool (failed d0)) (-1)); [by destruct (failed d0)|].
  rewrite (bind_run _ _ _ _ _ (issue_registers_run s cmd p)). rewrite u8_id, Hc by done.
  erewrite wait_not_busy; [done|apply selected_become|]. cbn. unfold set_selected. destruct (slave _); apply Hq.
Qed.

(** ** Data *)

Lemma in_words_run ws : ∀ s, ph (hw s) = DataIn ws → ws ≠ [] → Forall word16 ws →
  in_words (length ws) IDE_BASE1 s = Ok (ws, set_hw (set_ph Idle (hw s)) s).
Proof.
  induction ws as [|w ws IH]; intros s Hp Hne Hw; [done|]. apply Forall_cons_1 in Hw as [H0 Hw].
  cbn [in_words List.length]. rewrite bind_cases. unfold IoInputWord at 1. cbn [bus_in16 ata_bus]. unfold ata_in16.
  change (IDE_BASE1 =? 0x1F0) with true. rewrite Hp. cbv iota.
  assert (u16 w = w) as Hu by (unfold u16, word16 in *; apply Z.mod_small; lia).
  destruct ws as [|w' ws]; [by rewrite Hu|]. rewrite Hu.
  change (mkIde (hd0 s) (hd1 s) ?a) with (set_hw a s). by erewrite bind_run by by apply IH.
Qed.

Lemma read_data_run s d ws :
  selected (hw s) = Some d → busy (hw s) = O → ph (hw s) = DataIn ws → failed d = false →
  ws ≠ [] → Forall word16 ws →
  BootIdeReadData IDE_BASE1 (2 * Z.of_nat (length ws)) s = Ok ((0, octets_of ws), set_hw (set_ph Idle (hw s)) s).
Proof.
  intros Hd Hb Hp Hf Hne Hw. unfold BootIdeReadData.
  erewrite bind_run by (eapply wait_data_ready; [done|done|by rewrite Hp]). rewrite Hf. cbn [truthy].
  replace (Z.to_nat (2 * Z.of_nat (length ws) / 2)) with (length ws) by (rewrite Z.mul_comm, Z.div_mul; lia).
  change (IDE_REG_DATA IDE_BASE1) with IDE_BASE1.
  assert (IoInputByte (IDE_REG_STATUS IDE_BASE1) (set_hw (set_ph Idle (hw s)) s) =
          Ok (0x50, set_hw (set_ph Idle (hw s)) s)) as Hst.
  { rewrite (in_status _ d) by done. cbn. rewrite Hb. unfold status. by rewrite Hf. }
  change (truthy 0) with false. cbv iota. erewrite bind_run by by apply in_words_run.
  by rewrite (bind_run _ _ _ _ _ Hst), (bind_run _ _ _ _ _ Hst).
Qed.

Lemma complete_ph cmd lba ws p a : selected a ≠ None → complete cmd lba ws (set_ph p a) = complete cmd lba ws a.
Proof.
  intros Hd. unfold complete. change (selected (set_ph p a)) with (selected a).
  destruct (selected a) as [d|] eqn:E; [|done].
  assert (∀ d p', become d p' (set_ph p a) = become d p' a) as Hb.
  { intros d0 p'. unfold become, set_selected. change (slave (set_ph p a)) with (slave a). by destruct (slave a). }
  unfold fail. by rewrite !Hb.
Qed.

Lemma out_words_run ws cmd lba : ∀ s got, ph (hw s) = DataOut cmd lba (length ws) got → ws ≠ [] → Forall word16 ws →
  selected (hw s) ≠ None →
  out_words ws IDE_BASE1 s = Ok (tt, set_hw (complete cmd lba (got ++ ws) (hw s)) s).
Proof.
  induction ws as [|w ws IH]; intros s got Hp Hne Hw Hd; [done|]. apply Forall_cons_1 in Hw as [H0 Hw].
  cbn [out_words List.length] in *. rewrite bind_cases. unfold IoOutputWord at 1. cbn [bus_out16 ata_bus].
  unfold ata_out16. change (IDE_BASE1 =? 0x1F0) with true. rewrite Hp. cbv iota.
  assert (u16 w = w) as -> by (unfold u16, word16 in *; apply Z.mod_small; lia).
  change (mkIde (hd0 s) (hd1 s) ?a) with (set_hw a s).
  destruct ws as [|w' ws]; [done|]. cbn [List.length].
  rewrite (IH _ (got ++ [w])); [|done..]. cbn [hw set_hw]. rewrite complete_ph by done. by rewrite <- app_assoc.
Qed.

Lemma write_data_run s cmd lba buf ws d d' p' :
  selected (hw s) = Some d → busy (hw s) = O → quick (hw s) → words_of buf = ws → ws ≠ [] → Forall word16 ws →
  ph (hw s) = DataOut cmd lba (length ws) [] → complete cmd lba ws (hw s) = become d' p' (hw s) →
  BootIdeWriteData fuel IDE_BASE1 buf s = Ok (c_bool (failed d'), set_hw (set_busy 0 (become d' p' (hw s))) s).
Proof.
  intros Hd Hb Hq Hbuf Hne Hw Hp Hc. unfold BootIdeWriteData.
  erewrite bind_run by (eapply wait_data_ready; [done|done|by rewrite Hp]).
  rewrite Hbuf. change (IDE_REG_DATA IDE_BASE1) with IDE_BASE1.
  erewrite bind_run by (eapply out_words_run; [done|done|done|by rewrite Hd]). cbn [app]. rewrite Hc.
  erewrite bind_run; [|apply wait_not_busy; [apply selected_become|]].
  2: { cbn. unfold set_selected. destruct (slave _); apply Hq. }
  destruct (failed d') eqn:Hf; [done|]. cbn [c_bool]. change (truthy 0) with false. cbv iota.
  erewrite bind_run by (rewrite (in_status _ d'); [reflexivity|apply selected_become]).
  cbn [busy set_busy hw set_hw]. unfold status. rewrite Hf. by destruct p'.
Qed.

(** ** Drives *)

Definition drive_of (n : Z) (a : ata) : option drive := if n =? 0 then drive0 a else drive1 a.

(** Drive [n] is selected, idle, and [d]. *)
Record rests (n : Z) (d : drive) (a : ata) : Prop := {
  rests_slave : slave a = (n =? 1);
  rests_drive : selected a = Some d;
  rests_busy : busy a = O;
  rests_quick : quick a
}.

(** The registers and the phase can differ, and drive [n]. *)
Definition others_kept (n : Z) (a a' : ata) : Prop :=
  drive_of (1 - n) a' = drive_of (1 - n) a ∧ delays a' = delays a.

Lemma others_kept_trans n a1 a2 a3 : others_kept n a1 a2 → others_kept n a2 a3 → others_kept n a1 a3.
Proof. unfold others_kept. intros [-> ->] [-> ->]. done. Qed.

Lemma drive_selected n a : n = 0 ∨ n = 1 → slave a = (n =? 1) → drive_of n a = selected a.
Proof. unfold drive_of, selected. by intros [->| ->] ->. Qed.

Lemma slave_become d p a : slave (become d p a) = slave a.
Proof. unfold become, set_selected. by destruct (slave a) eqn:E. Qed.

Lemma become_rests n d d' p a :
  rests n d a → rests n d' (set_busy 0 (become d' p a)).
Proof.
  intros [Hs Hd Hb Hq]. split; [by rewrite <- Hs, <- (slave_become d' p a)|apply selected_become|done|].
  intros k. specialize (Hq k). cbn. unfold set_selected. by destruct (slave a).
Qed.

Lemma become_kept n d' p a : n = 0 ∨ n = 1 → slave a = (n =? 1) → others_kept n a (set_busy 0 (become d' p a)).
Proof.
  intros Hn Hs. unfold others_kept, drive_of, become, set_selected. by destruct Hn as [->| ->]; rewrite Hs.
Qed.

(** Writing the device register. *)
Lemma select_run n s d v :
  n = 0 ∨ n = 1 → drive_of n (hw s) = Some d → busy (hw s) = O → quick (hw s) → byte v → Z.testbit v 4 = (n =? 1) →
  ∃ a, IoOutputByte (IDE_REG_DRIVEHEAD IDE_BASE1) v s = Ok (tt, set_hw a s) ∧ rests n d a ∧ others_kept n (hw s) a ∧
    ph a = ph (hw s).
Proof.
  intros Hn Hd Hb Hq Hv Ht. eexists. split; [reflexivity|]. rewrite u8_id by done.
  split; [|by split; [split; by destruct Hn as [->| ->]|]]. split; [exact Ht| |done|done].
  rewrite <- Hd. unfold selected, drive_of.
  match goal with |- (if slave ?x then _ else _) = _ => change (slave x) with (Z.testbit v 4) end.
  rewrite Ht. by destruct Hn as [->| ->].
Qed.

(** Loading the registers of a command that selects drive [n]. *)
Lemma load_rests n d p a :
  rests n d a → Z.testbit (u8 (m_bDrivehead p)) 4 = (n =? 1) → rests n d (set_rg (load p (rg a)) a).
Proof.
  intros [Hs Hd Hb Hq] Ht. split; [done| |done|done]. rewrite <- Hd. unfold selected, slave in *.
  cbn -[Z.testbit]. by rewrite Ht, Hs.
Qed.

(** A command to the selected drive. *)
Lemma command_run n s cmd p d d' ph' :
  n = 0 ∨ n = 1 → rests n d (hw s) → byte cmd → Z.testbit (u8 (m_bDrivehead p)) 4 = (n =? 1) →
  (∀ a, rg a = load p (rg (hw s)) → selected a = Some d → command cmd a = become d' ph' a) →
  ∃ a, BootIdeIssueAtaCommand fuel IDE_BASE1 cmd p s = Ok (c_bool (failed d'), set_hw a s) ∧
    rests n d' a ∧ others_kept n (hw s) a ∧ ph a = ph'.
Proof.
  intros Hn Hr Hcmd Ht Hc. pose proof (load_rests n d p _ Hr Ht) as Hl.
  eexists. split; [eapply issue_run|].
  - apply Hr.
  - apply Hr.
  - apply Hr.
  - done.
  - apply Hl.
  - apply Hc; [done|apply Hl].
  - split; [by eapply become_rests|]. split; [|done].
    apply (others_kept_trans n _ (set_rg (load p (rg (hw s))) (hw s))); [done|].
    apply become_kept; [done|apply Hl].
Qed.

(** ** Addresses *)

(** What the driver knows of the geometry is right. *)
Definition geometry_fits (g : geometry) (d : drive) : Prop :=
  m_bLbaMode g = IDE_DH_LBA ∨
  m_bLbaMode g = IDE_DH_CHS ∧ m_wCountHeads g = heads d ∧ m_wCountSectorsPerTrack g = spt d ∧
    1 <= heads d <= 16 ∧ 1 <= spt d <= 255 ∧ capacity d <= Z.min (65536 * heads d * spt d) (2 ^ 28).

(** The device register, for every head and drive. *)
Lemma drivehead_bits x n m :
  0 <= x < 16 → n = 0 ∨ n = 1 → m = IDE_DH_LBA ∨ m = IDE_DH_CHS →
  let v := IDE_DH_DEFAULT .| x .| IDE_DH_DRIVE n .| m in
  u8 v = v ∧ Z.testbit v 4 = (n =? 1) ∧ Z.testbit v 6 = (m =? IDE_DH_LBA) ∧ v .& 0x0F = x.
Proof.
  intros Hx Hn Hm. assert (x ∈ seqZ 0 16) as Hin by (apply elem_of_seqZ; lia).
  destruct Hn as [->| ->], Hm as [->| ->]; cbv [seqZ] in Hin; cbn in Hin;
    repeat (apply elem_of_cons in Hin as [->|Hin]; [by vm_compute|]); by apply elem_of_nil in Hin.
Qed.

Lemma address28_lba d r p block n :
  0 <= block < 2 ^ 28 → n = 0 ∨ n = 1 →
  p = mkParams 1 (block .& 0xff) (Z.shiftr block 8 .& 0xffff)
        (IDE_DH_DEFAULT .| (Z.shiftr block 24 .& 0x0f) .| IDE_DH_DRIVE n .| IDE_DH_LBA) 0 0 0 →
  address28 d (load p r) = block.
Proof.
  intros Hb Hn ->.
  destruct (drivehead_bits (Z.shiftr block 24 .& 0x0f) n IDE_DH_LBA) as (Hu & _ & H6 & Hx); [|done|by left|].
  { change 0x0f with (Z.ones 4). rewrite Z.land_ones by lia. apply Z.mod_pos_bound. lia. }
  unfold address28. cbn [device low mid high load fst m_bSector m_wCylinder m_bDrivehead]. rewrite Hu, H6, Hx.
  change (IDE_DH_LBA =? IDE_DH_LBA) with true. cbv iota.
  change 0xff with (Z.ones 8). change 0xffff with (Z.ones 16). change 0x0f with (Z.ones 4).
  rewrite !Z.land_ones, !Z.shiftr_div_pow2 by lia. unfold u8.
  change (2 ^ 28) with 268435456 in *. change (2 ^ 8) with 256. change (2 ^ 16) with 65536.
  change (2 ^ 24) with 16777216. change (2 ^ 4) with 16. Z.to_euclidean_division_equations. lia.
Qed.

Lemma address28_chs d r p block n :
  0 <= block < 65536 * heads d * spt d → n = 0 ∨ n = 1 → 1 <= heads d <= 16 → 1 <= spt d <= 255 →
  p = mkParams 1 (u8 (1 + block mod spt d)) (u16 (block / spt d / heads d))
        (IDE_DH_DEFAULT .| IDE_DH_HEAD (block / spt d mod heads d) .| IDE_DH_DRIVE n .| IDE_DH_CHS) 0 0 0 →
  address28 d (load p r) = block.
Proof.
  intros Hb Hn Hh Hs ->. set (track := block / spt d) in *.
  pose proof (Z.mod_pos_bound block (spt d) ltac:(lia)) as Hsec.
  pose proof (Z.mod_pos_bound track (heads d) ltac:(lia)) as Hhead.
  assert (0 <= track < 65536 * heads d) as Htrack.
  { split; [apply Z.div_pos; lia|]. apply Z.div_lt_upper_bound; lia. }
  assert (0 <= track / heads d < 65536) as Hcyl.
  { split; [apply Z.div_pos; lia|]. apply Z.div_lt_upper_bound; lia. }
  assert (IDE_DH_HEAD (track mod heads d) = track mod heads d) as Hhd.
  { unfold IDE_DH_HEAD. change 0x0F with (Z.ones 4). rewrite Z.land_ones by lia. apply Z.mod_small. lia. }
  destruct (drivehead_bits (track mod heads d) n IDE_DH_CHS) as (Hu & _ & H6 & Hx); [lia|done|by right|].
  unfold address28. cbn [device low mid high load fst m_bSector m_wCylinder m_bDrivehead]. rewrite Hhd, Hu, H6, Hx.
  change (IDE_DH_CHS =? IDE_DH_LBA) with false. cbv iota.
  assert (u8 (u16 (track / heads d) .& 0xFF) + 2 ^ 8 * u8 (Z.shiftr (u16 (track / heads d)) 8) = track / heads d) as ->.
  { change 0xFF with (Z.ones 8). rewrite Z.land_ones, Z.shiftr_div_pow2 by lia. unfold u8, u16.
    change (2 ^ 8) with 256. change (2 ^ 16) with 65536. Z.to_euclidean_division_equations. lia. }
  rewrite !(u8_id (1 + _)) by (unfold byte; lia). rewrite (Z.mul_comm (track / heads d)).
  rewrite <- (Z.div_mod track (heads d)) by lia. pose proof (Z.div_mod block (spt d) ltac:(lia)). subst track. lia.
Qed.

Lemma address48_lba r p block head :
  0 <= block < 2 ^ 32 →
  p = mkParams 1 (block .& 0xff) (Z.shiftr block 8 .& 0xffff) head 0 (Z.shiftr block 24 .& 0xff) 0 →
  address48 (load p r) = block.
Proof.
  intros Hb ->. unfold address48.
  cbn [low mid high load fst snd m_bSector m_wCylinder m_bSectorExt m_wCylinderExt].
  change (u8 (0 .& 0xFF)) with 0. change (u8 (Z.shiftr 0 8)) with 0.
  change 0xff with (Z.ones 8). change 0xffff with (Z.ones 16).
  rewrite !Z.land_ones, !Z.shiftr_div_pow2 by lia. unfold u8.
  change (2 ^ 32) with 4294967296 in *. change (2 ^ 8) with 256. change (2 ^ 16) with 65536.
  change (2 ^ 24) with 16777216. Z.to_euclidean_division_equations. lia.
Qed.

(** The drive decodes the block the driver means, whatever the mode. *)
Lemma address_block_decodes i n d block c ce :
  n = 0 ∨ n = 1 → geometry_fits (geo i) d → 0 <= block < capacity d → capacity d <= 2 ^ 32 →
  ∃ p cmd, address_block i n block c ce = Ok (p, cmd) ∧ Z.testbit (u8 (m_bDrivehead p)) 4 = (n =? 1) ∧
    m_bCountSector p = 1 ∧ m_bCountSectorExt p = 0 ∧
    ((cmd = c ∧ ∀ r, address28 d (load p r) = block) ∨ (cmd = ce ∧ ∀ r, address48 (load p r) = block)).
Proof.
  intros Hn Hg Hb Hc. unfold address_block. change 0x10000000 with (2 ^ 28).
  destruct (Z.leb_spec (2 ^ 28) block) as [Hl|Hl].
  { eexists _, _. split; [done|]. split; [by destruct Hn as [->| ->]|]. do 2 (split; [done|]). right.
    split; [done|]. intros r. eapply address48_lba; [lia|done]. }
  destruct Hg as [Hg|(Hg & Hh & Hs & Hh1 & Hs1 & Hcap)]; rewrite Hg.
  - change (IDE_DH_LBA =? IDE_DH_CHS) with false. cbv iota. eexists _, _. split; [done|].
    destruct (drivehead_bits (Z.shiftr block 24 .& 0x0f) n IDE_DH_LBA) as (Hu & H4 & _ & _); [|done|by left|].
    { change 0x0f with (Z.ones 4). rewrite Z.land_ones by lia. apply Z.mod_pos_bound. lia. }
    cbn [m_bDrivehead m_bCountSector m_bCountSectorExt]. rewrite Hu, H4. do 3 (split; [done|]). left.
    split; [done|]. intros r. eapply address28_lba; [lia|done|done].
  - change (IDE_DH_CHS =? IDE_DH_CHS) with true. cbv iota. rewrite Hh, Hs.
    destruct (Z.eqb_spec (spt d) 0), (Z.eqb_spec (heads d) 0); try lia. cbn [orb]. eexists _, _. split; [done|].
    destruct (drivehead_bits (block / spt d mod heads d) n IDE_DH_CHS) as (Hu & H4 & _ & _); [|done|by right|].
    { pose proof (Z.mod_pos_bound (block / spt d) (heads d)). lia. }
    cbn [m_bDrivehead m_bCountSector m_bCountSectorExt].
    assert (IDE_DH_HEAD (block / spt d mod heads d) = block / spt d mod heads d) as Hhd.
    { unfold IDE_DH_HEAD. change 0x0F with (Z.ones 4). rewrite Z.land_ones by lia. apply Z.mod_small.
      pose proof (Z.mod_pos_bound (block / spt d) (heads d)). lia. }
    rewrite Hhd, Hu, H4. do 3 (split; [done|]). left. split; [done|]. intros r.
    eapply address28_chs; [|done|done|done|by rewrite Hhd]. lia.
Qed.

(** ** Sectors *)

(** Drive [n] is a hard disk the driver knows and can address, and nothing is in
    progress. *)
Record disk_at (n : Z) (i : tsHarddiskInfo) (d : drive) (s : ide ata) : Prop := {
  at_index : n = 0 ∨ n = 1;
  at_hd : hd n s = Ok (i, s);
  at_port : m_fwPortBase i = IDE_BASE1;
  at_exists : m_fDriveExists i = true;
  at_disk : m_fAtapi i = false;
  at_drive : drive_of n (hw s) = Some d;
  at_busy : busy (hw s) = O;
  at_idle : ph (hw s) = Idle;
  at_quick : quick (hw s)
}.

(** Its sectors can be read and written. *)
Record readable (i : tsHarddiskInfo) (d : drive) : Prop := {
  rd_geometry : geometry_fits (geo i) d;
  rd_unlocked : locked d = false;
  rd_capacity : capacity d <= 2 ^ 32;
  rd_medium : ∀ x, length (medium d x) = 256%nat ∧ Forall word16 (medium d x)
}.

Lemma hd_set_hw n a i s : hd n s = Ok (i, s) → hd n (set_hw a s) = Ok (i, set_hw a s).
Proof. unfold hd. repeat case_match; intros [=]; subst; done. Qed.

(** The operations end with the drive at rest. *)
Lemma rests_disk n i d d' s a :
  disk_at n i d s → rests n d' a → ph a = Idle → disk_at n i d' (set_hw a s).
Proof.
  intros [] [Hs Hd Hb Hq] Hp. split; try done; [by apply hd_set_hw|]. by rewrite (drive_selected n).
Qed.

Lemma select_drive_bits n : n = 0 ∨ n = 1 → byte (select_drive n) ∧ Z.testbit (select_drive n) 4 = (n =? 1).
Proof. by intros [->| ->]. Qed.

Lemma set_control_run i s : m_fwPortBase i = IDE_BASE1 → set_control i s = Ok (tt, s).
Proof. intros Hp. unfold set_control. rewrite Hp. unfold IoOutputByte. cbn -[u8]. by destruct s. Qed.

(** Up to the command, reading and writing a sector are the same. *)
Lemma address_run n i d s c ce block :
  disk_at n i d s → readable i d → 0 <= block < capacity d →
  ∃ p cmd a, address_block i n block c ce = Ok (p, cmd) ∧ rests n d a ∧ others_kept n (hw s) a ∧
    Z.testbit (u8 (m_bDrivehead p)) 4 = (n =? 1) ∧ m_bCountSector p = 1 ∧ m_bCountSectorExt p = 0 ∧
    ((cmd = c ∧ ∀ r, address28 d (load p r) = block) ∨ (cmd = ce ∧ ∀ r, address48 (load p r) = block)) ∧
    IoOutputByte (IDE_REG_DRIVEHEAD IDE_BASE1) (select_drive n) s = Ok (tt, set_hw a s).
Proof.
  intros [Hn Hh Hp He Hat Hd Hb Hi Hq] [Hg Hl Hc Hm] Hblock.
  destruct (address_block_decodes i n d block c ce Hn Hg Hblock Hc) as (p & cmd & Ea & Ht & H1 & H2 & Hadr).
  destruct (select_drive_bits n Hn) as [Hv H4].
  destruct (select_run n s d _ Hn Hd Hb Hq Hv H4) as (a & Es & Hr & Hk & _).
  by exists p, cmd, a.
Qed.

Lemma sectors_one block : sectors block 1 = [block].
Proof. unfold sectors. change (Z.to_nat 1) with 1%nat. cbn [seq fmap list_fmap]. f_equal. lia. Qed.

(** The command for one sector, as the drive understands it. *)
Lemma count_one p r : m_bCountSector p = 1 → m_bCountSectorExt p = 0 → count28 (load p r) = 1 ∧ count48 (load p r) = 1.
Proof. intros H1 H2. unfold count28, count48, load. cbn [count fst snd]. by rewrite H1, H2. Qed.

Lemma transfer_ok d block p a :
  locked d = false → 0 <= block < capacity d → transfer_sectors d block 1 p a = become (set_failed false d) p a.
Proof.
  intros Hl Hb. unfold transfer_sectors. rewrite Hl.
  by destruct (Z.leb_spec 0 block), (Z.leb_spec (block + 1) (capacity d)); try lia.
Qed.

Lemma read_retry_ok base size s b s' :
  BootIdeReadData base size s = Ok ((0, b), s') → read_retry fuel base size s = Ok (b, s').
Proof. intros E. unfold read_retry. by rewrite (bind_run _ _ _ _ _ E). Qed.

Lemma read_sector_run n i d s block :
  disk_at n i d s → readable i d → 0 <= block < capacity d →
  ∃ a, BootIdeReadSector fuel n block 0 IDE_SECTOR_SIZE s = Ok ((0, octets_of (medium d block)), set_hw a s) ∧
    disk_at n i (set_failed false d) (set_hw a s) ∧ others_kept n (hw s) a.
Proof.
  intros Hat Hrd Hblock. pose proof Hat as [Hn Hh Hp He Ha Hd Hb Hi Hq]. pose proof Hrd as [_ Hl _ Hm].
  destruct (address_run n i d s IDE_CMD_READ_MULTI_RETRY IDE_CMD_READ_EXT block Hat Hrd Hblock)
    as (p & cmd & a & Ea & Hr & Hk & Ht & H1 & H2 & Hadr & Es).
  destruct (Hm block) as [Hlen Hw].
  destruct (command_run n (set_hw a s) cmd p d (set_failed false d) (DataIn (medium d block)) Hn Hr)
    as (a' & Ec & Hr' & Hk' & Hp'); [by destruct Hadr as [[-> _]|[-> _]]|done| |].
  { intros a0 Hrg Hsel. unfold command. rewrite Hsel, Hrg.
    destruct (count_one p (rg (hw (set_hw a s))) H1 H2) as [Hc1 Hc2].
    destruct Hadr as [[-> Hadr]|[-> Hadr]]; cbn [Z.eqb IDE_CMD_READ_MULTI_RETRY IDE_CMD_READ_EXT Pos.eqb];
      rewrite ?Hc1, ?Hc2, Hadr; unfold read_sectors; rewrite sectors_one; cbn [fmap list_fmap concat];
      by rewrite app_nil_r, transfer_ok. }
  unfold BootIdeReadSector. rewrite (bind_run _ _ _ _ _ Hh), He, Hp. cbn [negb].
  rewrite (bind_run _ _ _ _ _ Es), Ha, (bind_run _ _ _ _ _ (set_control_run i _ Hp)), Ea.
  rewrite (bind_run (liftO _) _ _ (p, cmd) (set_hw a s)) by done. rewrite (bind_run _ _ _ _ _ Ec). cbn [failed set_failed c_bool].
  change (truthy 0) with false. cbv iota.
  assert (BootIdeReadData IDE_BASE1 IDE_SECTOR_SIZE (set_hw a' s) = Ok ((0, octets_of (medium d block)), set_hw (set_ph Idle a') s)) as Erd.
  { pose proof (read_data_run (set_hw a' s) (set_failed false d) (medium d block)) as H. rewrite Hlen in H.
    apply H; [apply Hr'|apply Hr'|done|done| |done]. intros E. by rewrite E in Hlen. }
  rewrite (bind_run _ _ _ _ _ (read_retry_ok _ _ _ _ _ Erd)). exists (set_ph Idle a'). split; [done|].
  split; [|apply (others_kept_trans n _ a); [done|exact Hk']].
  apply (rests_disk n i d); [done| |done]. by destruct Hr'.
Qed.

(** Writing reaches the medium of the drive, and nothing else. *)
Definition store (d : drive) (block : Z) (ws : list Z) : drive :=
  set_failed false (set_medium (λ x, if x =? block then ws else medium d x) (set_failed false d)).

Lemma write_sector_run retry n i d s block b :
  disk_at n i d s → readable i d → 0 <= block < capacity d → length b = 512%nat → Forall byte b →
  ∃ a, BootIdeWriteSector fuel retry n b block s = Ok (0, set_hw a s) ∧
    disk_at n i (store d block (words_of b)) (set_hw a s) ∧ others_kept n (hw s) a.
Proof.
  intros Hat Hrd Hblock Hlb H8. pose proof Hat as [Hn Hh Hp He Ha Hd Hb Hi Hq]. pose proof Hrd as [_ Hl _ Hm].
  destruct (address_run n i d s IDE_CMD_WRITE_MULTI_RETRY IDE_CMD_WRITE_EXT block Hat Hrd Hblock)
    as (p & cmd & a & Ea & Hr & Hk & Ht & H1 & H2 & Hadr & Es).
  pose proof (length_words_of 256 b Hlb) as Hlen.
  destruct (command_run n (set_hw a s) cmd p d (set_failed false d) (DataOut cmd block 256 []) Hn Hr)
    as (a' & Ec & Hr' & Hk' & Hp'); [by destruct Hadr as [[-> _]|[-> _]]|done| |].
  { intros a0 Hrg Hsel. unfold command. rewrite Hsel, Hrg.
    destruct (count_one p (rg (hw (set_hw a s))) H1 H2) as [Hc1 Hc2].
    destruct Hadr as [[-> Hadr]|[-> Hadr]]; cbn [Z.eqb IDE_CMD_WRITE_MULTI_RETRY IDE_CMD_WRITE_EXT Pos.eqb];
      rewrite ?Hc1, ?Hc2, Hadr; unfold write_sectors; by rewrite transfer_ok. }
  assert (complete cmd block (words_of b) a' = become (store d block (words_of b)) Idle a') as Hc.
  { unfold complete. rewrite (rests_drive _ _ _ Hr'), Hlen.
    destruct Hadr as [[-> _]|[-> _]]; cbn [Z.eqb IDE_CMD_WRITE_MULTI_RETRY IDE_CMD_WRITE_EXT Pos.eqb];
      change (256 / 256)%nat with 1%nat; cbn [store_sectors]; by rewrite take_ge by lia. }
  assert (BootIdeWriteData fuel IDE_BASE1 b (set_hw a' s) =
          Ok (0, set_hw (set_busy 0 (become (store d block (words_of b)) Idle a')) s)) as Ew.
  { apply (write_data_run (set_hw a' s) cmd block b (words_of b) (set_failed false d) (store d block (words_of b)) Idle);
      try apply Hr'; try done.
    - intros E. by rewrite E in Hlen.
    - by apply (words_of_word16 256).
    - cbn [hw set_hw]. by rewrite Hlen. }
  exists (set_busy 0 (become (store d block (words_of b)) Idle a')). split.
  - destruct retry as [|[|retry]]; cbn [BootIdeWriteSector]; rewrite (bind_run _ _ _ _ _ Hh), He, Hp; cbn [negb];
      rewrite (bind_run _ _ _ _ _ Es), (bind_run _ _ _ _ _ (set_control_run i _ Hp)), Ea;
      rewrite (bind_run (liftO _) _ _ (p, cmd) (set_hw a s)) by done; rewrite (bind_run _ _ _ _ _ Ec);
      cbn [failed set_failed c_bool]; change (truthy 0) with false; cbv iota;
      change (set_hw a' (set_hw a s)) with (set_hw a' s); by rewrite (bind_run _ _ _ _ _ Ew).
  - split; [apply (rests_disk n i d); [done|by eapply become_rests|done]|].
    apply (others_kept_trans n _ a); [done|]. apply (others_kept_trans n _ a'); [exact Hk'|].
    apply become_kept; [done|apply Hr'].
Qed.
End polls.
End IdeTheorems.
