(* ===== verification/IdeSecurity.v ===== *)
(** * Locking and unlocking a hard disk

    The password commands of the IDE driver on an ATA drive: what is sent, what the
    drive makes of it, and when a disk that was locked can be opened again. *)

From S2P Require Import Prelude Sha1 HddKey Eeprom Ide AtaDevice IdeTheorems.

Module IdeSecurity.
Import Ide Ata IdeTheorems.

Abbreviation length := List.length.

(** ** Passwords in a block *)

(** The sixteen words of a password. *)
Definition key_words (pw : list Z) : list Z := words_of (pw ++ replicate (32 - length pw) 0).

Lemma take_words k : ∀ b, take k (words_of b) = words_of (take (2 * k) b).
Proof.
  induction k as [|k IH]; intros b; [done|]. replace (2 * S k)%nat with (S (S (2 * k))) by lia.
  destruct b as [|lo [|hi b]]; [done|done|]. cbn. by rewrite IH.
Qed.

Lemma drop_words k : ∀ b, drop k (words_of b) = words_of (drop (2 * k) b).
Proof.
  induction k as [|k IH]; intros b; [done|]. replace (2 * S k)%nat with (S (S (2 * k))) by lia.
  destruct b as [|lo [|hi b]]; [done|done|]. cbn. by rewrite IH.
Qed.

Lemma words_of_inj n b b' :
  length b = (2 * n)%nat → length b' = (2 * n)%nat → Forall byte b → Forall byte b' → words_of b = words_of b' → b = b'.
Proof. intros H1 H2 H3 H4 E. by rewrite <- (octets_words n b), E, (octets_words n b'). Qed.

Lemma Forall_nth_word ws k : Forall word16 ws → word16 (nth k ws 0).
Proof.
  intros Hw. destruct (decide (k < length ws)%nat) as [Hk|Hk]; [|rewrite nth_overflow by lia; unfold word16; lia].
  rewrite Forall_forall in Hw. by apply Hw, nth_In.
Qed.

Section block.
Context (control : Z) (pw revision : list Z).
Context (Hpw : (length pw <= 32)%nat) (Hrev : (length revision <= 2)%nat).

Lemma length_password_block : length (password_block control pw revision) = 512%nat.
Proof using Hpw Hrev. unfold password_block. rewrite !length_app, length_take, length_drop, !length_app, length_replicate. cbn [List.length]. lia. Qed.

Lemma password_block_key : block_password (words_of (password_block control pw revision)) = key_words pw.
Proof using Hpw Hrev.
  unfold block_password, key_words. rewrite drop_words, take_words. f_equal. unfold password_block.
  change (2 * 1)%nat with 2%nat. change (2 * 16)%nat with 32%nat.
  rewrite drop_app_le by (rewrite length_take, !length_app, length_replicate; cbn [List.length]; lia).
  rewrite take_app_le by (rewrite length_drop, length_take, !length_app, length_replicate; cbn [List.length]; lia).
  rewrite skipn_firstn_comm. change (34 - 2)%nat with 32%nat. rewrite take_take. change (32 `min` 32)%nat with 32%nat.
  change (drop 2 ([control; 0] ++ ?x)) with x. rewrite take_app_ge by lia. f_equal. rewrite take_replicate. f_equal. lia.
Qed.

Lemma password_block_head : nth 0 (words_of (password_block control pw revision)) 0 = control + 256 * 0.
Proof. done. Qed.

Lemma password_block_word : byte control → Forall byte pw → Forall byte revision →
  Forall word16 (words_of (password_block control pw revision)).
Proof using Hpw Hrev.
  intros Hc Hp Hr. apply (words_of_word16 256); [apply length_password_block|].
  assert (byte 0) as H0 by (unfold byte; lia).
  assert (Forall byte ([control; 0] ++ pw ++ replicate (510 - length pw) 0)) as Hb.
  { apply Forall_app; split; [repeat (constructor; [done|]); constructor|]. apply Forall_app; split; [done|by apply Forall_replicate]. }
  unfold password_block. apply Forall_app; split; [by apply Forall_take|]. apply Forall_app; split; [done|by apply Forall_drop].
Qed.
End block.

(** ** Commands on a drive *)

Section commands.
Context (fuel : positive).
Implicit Types (s : ide ata) (a : ata) (d : drive).

Definition params (n : Z) : tsIdeCommandParams := default_command (select_drive n).

Lemma params_select n : n = 0 ∨ n = 1 → Z.testbit (u8 (m_bDrivehead (params n))) 4 = (n =? 1).
Proof. by intros [->| ->]. Qed.

(** A command that takes a block of data: [d'] is what completing it makes of the
    drive. *)
Lemma send_block_run n s cmd block d d' :
  n = 0 ∨ n = 1 → rests fuel n d (hw s) → length block = 512%nat → Forall word16 (words_of block) → byte cmd →
  (∀ a, selected a = Some d → command cmd a = become (set_failed false d) (DataOut cmd 0 256 []) a) →
  (∀ a, selected a = Some (set_failed false d) → complete cmd 0 (words_of block) a = become d' Idle a) →
  ∃ a, send_block fuel IDE_BASE1 cmd (params n) block s = Ok (negb (failed d'), set_hw a s) ∧
    rests fuel n d' a ∧ others_kept n (hw s) a ∧ ph a = Idle.
Proof.
  intros Hn Hr Hlen Hw Hcmd Hc Hd'. pose proof (length_words_of 256 block Hlen) as Hlw.
  destruct (command_run fuel n s cmd (params n) d (set_failed false d) (DataOut cmd 0 256 []) Hn Hr Hcmd
              (params_select n Hn)) as (a & Ec & Hr1 & Hk1 & Hp1); [auto|].
  assert (BootIdeWaitDataReady IDE_BASE1 (set_hw a s) = Ok (0, set_hw a s)) as Ewait.
  { rewrite (wait_data_ready _ (set_failed false d)); [done|apply Hr1|apply Hr1|]. cbn. by rewrite Hp1. }
  assert (BootIdeWriteData fuel IDE_BASE1 block (set_hw a s) =
    Ok (c_bool (failed d'), set_hw (set_busy 0 (become d' Idle a)) s)) as Ew.
  { apply (write_data_run fuel (set_hw a s) cmd 0 block (words_of block) (set_failed false d) d' Idle);
      try apply Hr1; try done.
    - intros E. by rewrite E in Hlw.
    - cbn [hw set_hw]. by rewrite Hlw.
    - apply Hd', Hr1. }
  pose proof (become_rests fuel n (set_failed false d) d' Idle a Hr1) as Hr2.
  exists (set_busy 0 (become d' Idle a)). split; [|split; [done|split; [|done]]].
  - unfold send_block. rewrite (bind_run _ _ _ _ _ Ec). cbn [failed set_failed c_bool]. change (truthy 0) with false.
    cbv iota. rewrite (bind_run _ _ _ _ _ Ewait), (bind_run _ _ _ _ _ Ew).
    erewrite bind_run by (apply wait_not_busy; [apply Hr2|cbn; lia]).
    by destruct (failed d').
  - apply (others_kept_trans n _ a); [done|]. apply become_kept; [done|apply Hr1].
Qed.

(** ** Identify data *)

Definition words_ok d : Prop :=
  (∀ k, word16 (info d k)) ∧ word16 (master_id d) ∧ 0 <= multiple d < 256.

Lemma identify_words_word d : words_ok d → length (identify_words d) = 256%nat ∧ Forall word16 (identify_words d).
Proof.
  intros (Hi & Hm & Hmul). unfold identify_words. split; [by rewrite length_fmap, length_seq|].
  apply Forall_fmap, Forall_true. intros k. cbn. unfold identify_word, security_word, word16 in *.
  pose proof (Hi 85%nat) as H85. repeat case_match; try apply Hi; try lia.
  - pose proof (Z.div_mod (info d 85) 2 ltac:(lia)). pose proof (Z.mod_pos_bound (info d 85) 2 ltac:(lia)).
    destruct (smart_on d); cbn [c_bool]; lia.
  - destruct (enabled d), (locked d), (tries d =? 0); cbn [c_bool]; lia.
Qed.

Lemma identify_nth d k : (k < 256)%nat → nth k (identify_words d) 0 = identify_word d k.
Proof.
  intros Hk. unfold identify_words. apply nth_lookup_Some. rewrite list_lookup_fmap, lookup_seq_lt by done. done.
Qed.

Lemma identify_run n s d p :
  n = 0 ∨ n = 1 → rests fuel n d (hw s) → words_ok d → Z.testbit (u8 (m_bDrivehead p)) 4 = (n =? 1) →
  ∃ a, identify fuel IDE_BASE1 p s = Ok (Some (octets_of (identify_words d)), set_hw a s) ∧
    rests fuel n (set_failed false d) a ∧ others_kept n (hw s) a ∧ ph a = Idle.
Proof.
  intros Hn Hr Hok Hp. destruct (identify_words_word d Hok) as [Hlen Hw].
  destruct (command_run fuel n s IDE_CMD_IDENTIFY p d (set_failed false d) (DataIn (identify_words d)) Hn Hr
              ltac:(done) Hp) as (a & Ec & Hr1 & Hk1 & Hp1).
  { intros a0 _ Hsel. unfold command. by rewrite Hsel. }
  assert (BootIdeReadData IDE_BASE1 IDE_SECTOR_SIZE (set_hw a s) =
    Ok ((0, octets_of (identify_words d)), set_hw (set_ph Idle a) s)) as Erd.
  { pose proof (read_data_run (set_hw a s) (set_failed false d) (identify_words d)) as H. rewrite Hlen in H.
    apply H; [apply Hr1|apply Hr1|done|done| |done]. intros E. by rewrite E in Hlen. }
  exists (set_ph Idle a). split; [|split; [by destruct Hr1|done]].
  unfold identify. rewrite (bind_run _ _ _ _ _ Ec). cbn [failed set_failed c_bool]. change (truthy 0) with false.
  cbv iota. erewrite bind_run.
  2: { rewrite (wait_data_ready _ (set_failed false d)); [done|apply Hr1|apply Hr1|]. cbn. by rewrite Hp1. }
  by rewrite (bind_run _ _ _ _ _ Erd).
Qed.

(** ** The table of drives *)

Definition put_hd (n : Z) (i : tsHarddiskInfo) (s : ide ata) : ide ata :=
  if n =? 0 then mkIde i (hd1 s) (hw s) else mkIde (hd0 s) i (hw s).

Lemma update_run n f i s : hd n s = Ok (i, s) → update_hd n f s = Ok (tt, put_hd n (f i) s).
Proof. unfold hd, update_hd, put_hd. repeat case_match; intros [=]; by subst. Qed.

Lemma hd_put n i s : n = 0 ∨ n = 1 → hd n (put_hd n i s) = Ok (i, put_hd n i s).
Proof. by intros [->| ->]. Qed.

Lemma hw_put n i s : hw (put_hd n i s) = hw s.
Proof. unfold put_hd. by destruct (n =? 0). Qed.

(** What [IDENTIFY] says about security. *)
Lemma security_identified d :
  words_ok d → security_of (octets_of (identify_words d)) = mkSecurity (security_word d) (master_id d).
Proof.
  intros Hok. unfold security_of. rewrite !word_at_octets, !identify_nth by (lia || by apply identify_words_word). done.
Qed.

Lemma refresh_run n s i d :
  n = 0 ∨ n = 1 → rests fuel n d (hw s) → words_ok d → hd n s = Ok (i, s) →
  ∃ a, refresh_security fuel IDE_BASE1 n (params n) s =
      Ok (Some (octets_of (identify_words d)),
          put_hd n (set_sec (mkSecurity (security_word d) (master_id d)) i) (set_hw a s)) ∧
    rests fuel n (set_failed false d) a ∧ others_kept n (hw s) a ∧ ph a = Idle.
Proof.
  intros Hn Hr Hok Hi. destruct (identify_run n s d (params n) Hn Hr Hok (params_select n Hn)) as (a & E & Hr' & Hk & Hp).
  exists a. split; [|done]. unfold refresh_security. rewrite (bind_run _ _ _ _ _ E).
  rewrite (bind_run _ _ _ _ _ (update_run _ _ i _ (hd_set_hw _ _ _ _ Hi))). by rewrite security_identified.
Qed.

(** ** Setting the password *)

Lemma take_20 (pw : list Z) : length pw = 20%nat → take 20 pw = pw.
Proof. intros H. apply take_ge. lia. Qed.

Definition locked_with (pw : list Z) (id : Z) d : drive :=
  set_failed false (set_user (key_words pw) true (set_master (key_words master_password) id d)).

Lemma set_password_run n s d pw control revision :
  n = 0 ∨ n = 1 → rests fuel n d (hw s) → locked d = false → control = 0 ∨ control = 1 →
  (length pw <= 32)%nat → (length revision <= 2)%nat → Forall byte pw → Forall byte revision →
  ∃ a, send_block fuel IDE_BASE1 IDE_CMD_SECURITY_SET_PASSWORD (params n) (password_block control pw revision) s =
      Ok (true, set_hw a s) ∧
    rests fuel n (set_failed false (set_password d (words_of (password_block control pw revision)))) a ∧
    others_kept n (hw s) a ∧ ph a = Idle.
Proof.
  intros Hn Hr Hl Hc Hlen Hlr Hb Hbr. assert (byte control) as Hcb by (unfold byte; lia).
  apply (send_block_run n s IDE_CMD_SECURITY_SET_PASSWORD (password_block control pw revision) d
           (set_failed false (set_password d (words_of (password_block control pw revision)))) Hn Hr).
  - by apply length_password_block.
  - by apply password_block_word.
  - done.
  - intros a Hsel. unfold command. rewrite Hsel. cbn. by rewrite Hl.
  - intros a Hsel. unfold complete. rewrite Hsel. cbn [Z.eqb IDE_CMD_SECURITY_SET_PASSWORD Pos.eqb].
    f_equal. unfold set_password. by destruct (block_master _), d.
Qed.

Lemma set_master_password d revision :
  (length revision <= 2)%nat →
  ∃ id, set_password d (words_of (password_block 1 master_password revision)) = set_master (key_words master_password) id d ∧
    (id = master_id d ∨ id = nth 17 (words_of (password_block 1 master_password revision)) 0).
Proof.
  intros Hr. unfold set_password, block_master. rewrite password_block_head, password_block_key by (cbn; lia).
  change (Z.testbit (1 + 256 * 0) 0) with true. cbv iota. eexists. split; [done|]. destruct (_ || _); auto.
Qed.

Lemma set_user_password d pw :
  (length pw <= 32)%nat → set_password d (words_of (password_block 0 pw [])) = set_user (key_words pw) true d.
Proof. intros Hl. unfold set_password, block_master. by rewrite password_block_head, password_block_key by (cbn; lia). Qed.

(** The drive takes both passwords, and is protected from the next power-up on. *)
Lemma security_change_run n s i d pw :
  n = 0 ∨ n = 1 → rests fuel n d (hw s) → hd n s = Ok (i, s) → failed d = false → locked d = false → words_ok d →
  length pw = 20%nat → Forall byte pw →
  ∃ id a, DriveSecurityChange fuel IDE_BASE1 n IDE_CMD_SECURITY_SET_PASSWORD pw s =
      Ok (0, put_hd n (set_sec (mkSecurity (security_word (locked_with pw id d)) id) i) (set_hw a s)) ∧
    rests fuel n (locked_with pw id d) a ∧ others_kept n (hw s) a ∧ ph a = Idle ∧ word16 id.
Proof.
  intros Hn Hr Hi Hf Hl Hok Hlen Hb.
  set (revision := if m_masterPassSupport (sec i) =? 0xFFFF then [] else le_bytes 2 (m_masterPassSupport (sec i))).
  assert ((length revision <= 2)%nat ∧ Forall byte revision) as [Hrl Hrb].
  { unfold revision. case_match; [split; [cbn; lia|constructor]|]. split; [rewrite length_le_bytes; lia|apply le_bytes_byte]. }
  assert (Forall byte master_password) as Hmp by (unfold master_password, byte; repeat (constructor; [lia|]); constructor).
  destruct (set_password_run n s d master_password 1 revision Hn Hr Hl ltac:(by right) ltac:(cbn; lia) Hrl Hmp Hrb)
    as (a1 & E1 & Hr1 & Hk1 & Hp1).
  destruct (set_master_password d revision Hrl) as (id & Hd1 & Hid). rewrite Hd1 in Hr1.
  destruct (set_password_run n (set_hw a1 s) _ pw 0 [] Hn Hr1 Hl ltac:(by left) ltac:(lia) ltac:(cbn; lia) Hb ltac:(constructor))
    as (a2 & E2 & Hr2 & Hk2 & Hp2). rewrite set_user_password in Hr2 by lia.
  assert (words_ok (locked_with pw id d)) as Hok2.
  { destruct Hok as (H1 & H2 & H3). split; [exact H1|]. split; [|exact H3]. destruct Hid as [->| ->]; [done|].
    apply Forall_nth_word, password_block_word; [cbn; lia|done|unfold byte; lia|done|done]. }
  destruct (refresh_run n (set_hw a2 s) i (locked_with pw id d)) as (a3 & E3 & Hr3 & Hk3 & Hp3);
    [done|exact Hr2|done|by apply hd_set_hw|].
  exists id, a3. split; [|split; [exact Hr3|split; [|split; [done|apply Hok2]]]].
  - unfold DriveSecurityChange. rewrite (bind_run _ _ _ 0 s).
    2: { erewrite wait_not_busy; [|apply Hr|rewrite (rests_busy _ _ _ _ Hr); lia]. rewrite Hf. cbn.
         destruct Hr as [_ _ Hbz _]. destruct s as [? ? []]. cbn in *. by subst. }
    change (truthy 0) with false. cbv iota. rewrite (bind_run _ _ _ _ _ Hi).
    change (IDE_CMD_SECURITY_SET_PASSWORD =? IDE_CMD_SECURITY_SET_PASSWORD) with true. cbv iota.
    fold revision. fold (params n). rewrite (bind_run _ _ _ _ _ E1). cbn [negb]. rewrite take_20 by done.
    rewrite (bind_run _ _ _ _ _ E2). cbn [negb]. by rewrite (bind_run _ _ _ _ _ E3).
  - apply (others_kept_trans n _ a1); [done|]. by apply (others_kept_trans n _ a2).
Qed.

(** ** Opening a drive *)

Lemma byte_c_string pw : Forall byte pw → Forall byte (c_string pw).
Proof. induction 1 as [|c pw Hc _ IH]; cbn; [constructor|]. case_match; by constructor. Qed.

(** The drive after an attempt to unlock it with [key]. *)
Definition unlocked_by (key : list Z) d : drive :=
  if negb (tries d =? 0) && bool_decide (key = user d) then set_failed false (set_lock false (tries d) d)
  else set_failed true (set_lock (locked d) (Z.max 0 (tries d - 1)) d).

Lemma unlock_run n s i d pw :
  n = 0 ∨ n = 1 → rests fuel n d (hw s) → hd n s = Ok (i, s) → m_fwPortBase i = IDE_BASE1 → words_ok d →
  (length (c_string pw) <= 32)%nat → Forall byte pw →
  let d' := unlocked_by (key_words (c_string pw)) d in
  ∃ a j, HDD_SECURITY_SendATACommand fuel n IDE_CMD_SECURITY_UNLOCK pw false s =
      Ok (c_bool (failed d'), put_hd n j (set_hw a s)) ∧
    j = (if failed d' then i else set_sec (mkSecurity (security_word d') (master_id d)) i) ∧
    rests fuel n d' a ∧ others_kept n (hw s) a ∧ ph a = Idle.
Proof.
  intros Hn Hr Hi Hp Hok Hlen Hb d'.
  assert (BootIdeWaitNotBusy fuel IDE_BASE1 s = Ok (c_bool (failed d), s)) as E0.
  { erewrite wait_not_busy; [|apply Hr|rewrite (rests_busy _ _ _ _ Hr); lia].
    destruct Hr as [_ _ Hbz _]. destruct s as [? ? []]. cbn in *. by subst. }
  destruct (send_block_run n s IDE_CMD_SECURITY_UNLOCK (password_block 0 (c_string pw) []) d d' Hn Hr)
    as (a & E & Hr' & Hk & Hph).
  - apply length_password_block; [done|cbn; lia].
  - apply password_block_word; [done|cbn; lia|unfold byte; lia|by apply byte_c_string|constructor].
  - done.
  - intros a Hsel. unfold command. by rewrite Hsel.
  - intros a Hsel. unfold complete. rewrite Hsel. cbn [Z.eqb IDE_CMD_SECURITY_UNLOCK Pos.eqb].
    unfold password_fits, block_master. rewrite password_block_head, password_block_key by (done || cbn; lia).
    change (Z.testbit (0 + 256 * 0) 0) with false. cbv iota. unfold d', unlocked_by, fail.
    cbn [tries user set_failed]. by destruct (negb _ && _), d.
  - assert (HDD_SECURITY_SendATACommand fuel n IDE_CMD_SECURITY_UNLOCK pw false s =
      if negb (negb (failed d')) then Ok (1, set_hw a s)
      else (b ← refresh_security fuel IDE_BASE1 n (params n); mret (match b with None => 1 | Some _ => 0 end)) (set_hw a s)) as Eh.
    { unfold HDD_SECURITY_SendATACommand. rewrite (bind_run _ _ _ _ _ Hi), Hp, (bind_run _ _ _ _ _ E0). cbn [andb].
      rewrite (bind_run (assert_ub _) _ s tt s).
      2: { unfold assert_ub. destruct (Nat.leb_spec (length (c_string pw)) 510); [done|lia]. }
      fold (params n). rewrite (bind_run _ _ _ _ _ E). by destruct (failed d'). }
    destruct (failed d') eqn:Hf.
    + exists a, i. split; [|done]. rewrite Eh. cbn. f_equal. f_equal.
      unfold put_hd. unfold hd in Hi. destruct Hn as [->| ->]; cbn in *; injection Hi as <-; by destruct s.
    + destruct (refresh_run n (set_hw a s) i d') as (a' & E' & Hr2 & Hk2 & Hp2); [done|done| |by apply hd_set_hw|].
      { unfold d', unlocked_by. by destruct (negb _ && _). }
      eexists a', _. split; [rewrite Eh; cbn [negb]; by rewrite (bind_run _ _ _ _ _ E')|].
      assert (set_failed false d' = d' ∧ master_id d' = master_id d) as [Hsf Hm].
      { unfold d', unlocked_by in *. by destruct (negb _ && _). }
      rewrite Hm. split; [done|]. rewrite Hsf in Hr2. split; [done|]. split; [|done]. by apply (others_kept_trans n _ a).
Qed.

(** ** Zeros in a password *)

Lemma c_string_drop pw : Forall (λ x, x = 0) (drop (length (c_string pw)) pw) → 
  c_string pw ++ replicate (length pw - length (c_string pw)) 0 = pw.
Proof.
  induction pw as [|c pw IH]; intros Hz; [done|]. cbn [c_string] in *. destruct (Z.eqb_spec c 0) as [->|Hc].
  - cbn [List.length drop app] in *. rewrite Nat.sub_0_r. clear IH.
    apply replicate_as_elem_of. split; [done|]. intros x Hx. rewrite Forall_forall in Hz. apply Hz. by apply list_elem_of_In.
  - cbn [List.length drop app Nat.sub] in *. f_equal. by apply IH.
Qed.

Lemma c_string_app pw : c_string (pw ++ [0]) = c_string pw.
Proof. induction pw as [|c pw IH]; cbn; [done|]. by rewrite IH. Qed.

Lemma length_c_string pw : (length (c_string pw) <= length pw)%nat.
Proof. induction pw as [|c pw IH]; cbn; [lia|]. case_match; cbn; lia. Qed.

Lemma c_string_zero pw : (length (c_string pw) < length pw)%nat → nth (length (c_string pw)) pw 1 = 0.
Proof.
  induction pw as [|c pw IH]; cbn; [lia|]. destruct (Z.eqb_spec c 0) as [->|]; cbn; [done|]. intros Hl. apply IH. lia.
Qed.

(** The sent password is the one that was set, exactly if only zeros follow its
    first zero. *)
Lemma key_c_string pw :
  (length pw <= 32)%nat → Forall byte pw →
  key_words (c_string pw) = key_words pw ↔ Forall (λ x, x = 0) (drop (length (c_string pw)) pw).
Proof.
  intros Hlen Hb. pose proof (length_c_string pw) as Hle. assert (byte 0) as H0 by (unfold byte; lia). split.
  - intros E. apply (words_of_inj 16) in E.
    + set (k := length (c_string pw)) in *. assert (drop k (pw ++ replicate (32 - length pw) 0) = replicate (32 - k) 0) as Ed.
      { rewrite <- E. by apply drop_app_length'. }
      rewrite drop_app_le in Ed by done. apply (f_equal (take (length pw - k))) in Ed.
      rewrite take_app_length' in Ed by (by rewrite length_drop). rewrite Ed. apply Forall_take, Forall_replicate. done.
    + rewrite length_app, length_replicate. lia.
    + rewrite length_app, length_replicate. lia.
    + apply Forall_app. split; [by apply byte_c_string|by apply Forall_replicate].
    + apply Forall_app. split; [done|by apply Forall_replicate].
  - intros Hz. unfold key_words. rewrite <- (c_string_drop pw Hz) at 3. f_equal. rewrite <- app_assoc, <- replicate_add.
    f_equal. f_equal. lia.
Qed.
End commands.
End IdeSecurity.
