(* ===== verification/IdeBoot.v ===== *)
(** * Detection of a locked disk

    [BootIdeDriveInit] on an ATA disk: it identifies the drive, computes the
    password from the EEPROM and the identify data, unlocks the drive and sets its
    modes.  The disk was locked with [LockHDD] on the same console. *)

From S2P Require Import Prelude Sha1 HddKey Eeprom Ide AtaDevice IdeTheorems IdeSecurity.

Module IdeBoot.
Import Sha1 HddKey Ide Ata IdeTheorems IdeSecurity.

Abbreviation length := List.length.

(** The strings of a drive, as far as they are used. *)
Definition model_text (d : identity) : list Z := take (Z.to_nat (m_length d)) (m_szIdentityModelNumber d).
Definition serial_text (d : identity) : list Z := take (Z.to_nat (s_length d)) (m_szSerial d).
Definition lengths_ok (d : identity) : Prop :=
  length (m_szIdentityModelNumber d) = 42%nat ∧ length (m_szSerial d) = 22%nat ∧ length (m_szFirmware d) = 10%nat.
Definition identity_ok (d : identity) : Prop :=
  length (m_szIdentityModelNumber d) = 42%nat ∧ length (m_szSerial d) = 22%nat ∧ length (m_szFirmware d) = 10%nat ∧
  Forall byte (model_text d) ∧ Forall byte (serial_text d).

(** ** The password *)

Section password.
Context (stack : Sha1.SHA1Context) (Hst : length (Sha1.Message_Block stack) = 64%nat).
Context (eeprom : list Z) (Hbytes : Forall byte eeprom) (Heeprom : (48 <= length eeprom)%nat).
Context (version : Z) (local : list Z).
Context (Hdec : Eeprom.decryptEEPROMData stack (take 0x30 eeprom) = Ok (version, local)).
Context (Hvalid : version ≠ 0).

(** HMAC over SHA-1 of model and serial number under the key of the console. *)
Definition drive_password (model serial : list Z) : list Z :=
  let key := take 16 (drop 28 local) in
  sha1_hash (hmac_pad key 0x5C ++ sha1_hash (hmac_pad key 0x36 ++ model ++ serial)).

Lemma drive_password_octets model serial :
  length (drive_password model serial) = 20%nat ∧ Forall byte (drive_password model serial).
Proof.
  unfold drive_password, sha1_hash at 1.
  match goal with |- length (sha1_hash_from _ _ ?m) = _ ∧ _ => by destruct (sha1_hash_from_octets sha1_iv 0 m) end.
Qed.

Lemma password_run n i (s : ide ata) :
  hd n s = Ok (i, s) → identity_ok (ident i) →
  CalculateDrivePassword stack n eeprom s = Ok ((0, drive_password (model_text (ident i)) (serial_text (ident i))), s).
Proof using Hst Hbytes Heeprom Hdec Hvalid.
  intros Hi (Hlm & Hls & _ & Hbm & Hbs). unfold CalculateDrivePassword. rewrite (bind_run _ _ _ _ _ Hi).
  destruct (Eeprom.decrypt_total stack Hst (take 0x30 eeprom)) as (v & l & E & Hll & Hlb & Hv);
    [by apply Forall_take|rewrite length_take; lia|]. rewrite Hdec in E. injection E as <- <-.
  rewrite (bind_run (liftO _) _ s (version, take 16 (drop 28 local)) s).
  2: { unfold Eeprom.BootHddKeyGenerateEepromKeyData. by rewrite Hdec. }
  rewrite take_take. change (0x10 `min` 16)%nat with 16%nat.
  rewrite (bind_run (liftO _) _ s (drive_password (model_text (ident i)) (serial_text (ident i))) s).
  - destruct (Z.eqb_spec version 0), (Z.eqb_spec version 13); try done; lia.
  - rewrite HMAC_SHA1_value; [done|done|rewrite length_take; lia|by apply Forall_take, Forall_drop|done|done|].
    rewrite !length_take, Hlm, Hls. lia.
Qed.
End password.

(** ** Identify strings *)

Lemma Forall_swap_pairs P l : Forall P l → Forall P (swap_pairs l).
Proof.
  remember (length l) as n eqn:Hn. revert l Hn.
  induction n as [n IH] using lt_wf_ind. intros [|a [|b l]] -> Hl; [done..|].
  apply Forall_cons_1 in Hl as [Ha Hl]. apply Forall_cons_1 in Hl as [Hb Hl].
  cbn [swap_pairs]. do 2 (constructor; [done|]). by apply (IH (length l)); [cbn; lia| |].
Qed.

Lemma Forall_rtrim (P : Z → Prop) l : Forall P l → Forall P (rtrim l).
Proof.
  intros Hl. apply Forall_rev in Hl. unfold rtrim. apply Forall_rev. induction Hl as [|v l' Hv Hl' IH]; [constructor|].
  cbn. case_match; [done|by constructor].
Qed.

(** The text of a string in the identify data. *)
Definition id_text (b : list Z) (at_ len : nat) : list Z := rtrim (swap_pairs (take len (drop at_ b))).

Lemma id_text_byte b at_ len : Forall byte b → Forall byte (id_text b at_ len).
Proof. intros Hb. by apply Forall_rtrim, Forall_swap_pairs, Forall_take, Forall_drop. Qed.

Lemma identified_run b i :
  length b = 512%nat → Forall byte b → lengths_ok (ident i) →
  ∃ i', identified b i = Ok i' ∧ identity_ok (ident i') ∧
    model_text (ident i') = id_text b 54 40 ∧ serial_text (ident i') = id_text b 20 20 ∧
    m_fwPortBase i' = m_fwPortBase i ∧ m_fDriveExists i' = true ∧ m_fAtapi i' = m_fAtapi i.
Proof.
  intros Hlen Hb (Hlm & Hls & Hlf). unfold identified.
  destruct (copy_swap_trim_spec (m_szSerial (ident i)) (drop 20 b) 20) as (s1 & -> & Ht1 & Hl1 & _);
    [lia|done|rewrite length_drop; lia|lia|]. rewrite bind_ok.
  destruct (copy_swap_trim_spec (m_szIdentityModelNumber (ident i)) (drop 54 b) 40) as (s2 & -> & Ht2 & Hl2 & _);
    [lia|done|rewrite length_drop; lia|lia|]. rewrite bind_ok.
  destruct (copy_swap_trim_spec (m_szFirmware (ident i)) (drop 46 b) 8) as (s3 & -> & _ & Hl3 & _);
    [lia|done|rewrite length_drop; lia|lia|]. rewrite bind_ok.
  eexists. split; [reflexivity|].
  assert (model_text (mkIdentity s2 (Z.of_nat (length (id_text b 54 40))) s1 (Z.of_nat (length (id_text b 20 20))) s3) =
            id_text b 54 40) as Hm by (unfold model_text; cbn; by rewrite Nat2Z.id).
  assert (serial_text (mkIdentity s2 (Z.of_nat (length (id_text b 54 40))) s1 (Z.of_nat (length (id_text b 20 20))) s3) =
            id_text b 20 20) as Hs by (unfold serial_text; cbn; by rewrite Nat2Z.id).
  pose proof (id_text_byte b 54 40 Hb) as Hbm. pose proof (id_text_byte b 20 20 Hb) as Hbs.
  rewrite <- Hm in Hbm. rewrite <- Hs in Hbs. split; [|done]. split_and!; try done; cbn; congruence.
Qed.

(** ** The steps of the detection, on the master *)

Section boot.
Context (fuel : positive).
Implicit Types (s : ide ata) (d : drive) (i : tsHarddiskInfo).

Record at0 d i s : Prop := {
  at0_rests : rests fuel 0 d (hw s);
  at0_idle : ph (hw s) = Idle;
  at0_hd : hd0 s = i;
  at0_port : m_fwPortBase i = IDE_BASE1
}.

Lemma at0_hw d d' i s a : at0 d i s → rests fuel 0 d' a → ph a = Idle → at0 d' i (set_hw a s).
Proof. by intros [] Hr Hp. Qed.

Lemma hd_run d i s : at0 d i s → hd 0 s = Ok (i, s).
Proof. intros []. by unfold hd; cbn; subst. Qed.

Lemma update_at0 d i s f :
  at0 d i s → m_fwPortBase (f i) = IDE_BASE1 → ∃ s', update_hd 0 f s = Ok (tt, s') ∧ at0 d (f i) s'.
Proof. intros [] Hp. eexists. split; [reflexivity|]. by subst. Qed.

(** A port the drives do not have. *)
Lemma out_nothing port v s :
  (0x1F1 <=? port) && (port <=? 0x1F7) = false → IoOutputByte port v s = Ok (tt, s).
Proof.
  intros Hp. apply andb_false_iff in Hp. rewrite !Z.leb_gt in Hp. unfold IoOutputByte. cbn [bus_out8 ata_bus].
  unfold ata_out8.
  repeat (match goal with |- context [port =? ?k] => destruct (Z.eqb_spec port k) as [->|_] end; [lia|]). by destruct s.
Qed.

Lemma out_feature d i s v : at0 d i s → ∃ s', IoOutputByte (IDE_REG_FEATURE IDE_BASE1) v s = Ok (tt, s') ∧ at0 d i s'.
Proof.
  intros [[Hs Hd Hb Hq] Hp Hi Hport]. eexists. split; [reflexivity|]. by split; [split|..].
Qed.

Lemma out_select d i s : at0 d i s → ∃ s', IoOutputByte (IDE_REG_DRIVEHEAD IDE_BASE1) (select_drive 0) s = Ok (tt, s') ∧ at0 d i s'.
Proof.
  intros Hat. pose proof Hat as [Hr Hp _ _].
  destruct (select_run fuel 0 s d (select_drive 0)) as (a & E & Hr' & _ & Hp'); try done; [by left| |apply Hr|apply Hr|].
  - rewrite (drive_selected 0); [apply Hr|by left|apply Hr].
  - exists (set_hw a s). split; [done|]. apply (at0_hw d); [done|done|congruence].
Qed.

Lemma wait_at0 d i s : at0 d i s → BootIdeWaitNotBusy fuel IDE_BASE1 s = Ok (c_bool (failed d), s).
Proof.
  intros [Hr _ _ _]. erewrite wait_not_busy; [|apply Hr|rewrite (rests_busy _ _ _ _ Hr); lia].
  destruct Hr as [_ _ Hb _]. destruct s as [? ? []]. cbn in *. by subst.
Qed.

(** A command without data. *)
Lemma plain_command cmd p d d' i s :
  at0 d i s → byte cmd → Z.testbit (u8 (m_bDrivehead p)) 4 = false →
  (∀ a, rg a = load p (rg (hw s)) → selected a = Some d → command cmd a = become d' Idle a) →
  ∃ s', BootIdeIssueAtaCommand fuel IDE_BASE1 cmd p s = Ok (c_bool (failed d'), s') ∧ at0 d' i s'.
Proof.
  intros Hat Hcmd Hp Hc. pose proof Hat as [Hr _ _ _].
  destruct (command_run fuel 0 s cmd p d d' Idle (or_introl eq_refl) Hr Hcmd Hp Hc) as (a & E & Hr' & _ & Hph).
  exists (set_hw a s). split; [done|]. by apply (at0_hw d).
Qed.

Lemma identify_at0 d i s p :
  at0 d i s → words_ok d → Z.testbit (u8 (m_bDrivehead p)) 4 = false →
  ∃ s', identify fuel IDE_BASE1 p s = Ok (Some (octets_of (identify_words d)), s') ∧ at0 (set_failed false d) i s'.
Proof.
  intros Hat Hok Hp. pose proof Hat as [Hr _ _ _].
  destruct (identify_run fuel 0 s d p (or_introl eq_refl) Hr Hok Hp) as (a & E & Hr' & _ & Hph).
  exists (set_hw a s). split; [done|]. by apply (at0_hw d).
Qed.

Lemma multimode_run m d i s :
  at0 d i s → words_ok d → 0 <= m < 256 →
  ∃ i' s', BootIdeSetMultimodeSectors fuel 0 m s = Ok (0, s') ∧
    at0 (set_modes m (smart_on d) (set_failed false d)) i' s' ∧ ident i' = ident i ∧ m_fAtapi i' = m_fAtapi i.
Proof.
  intros Hat Hok Hm. unfold BootIdeSetMultimodeSectors. rewrite (bind_run _ _ _ _ _ (hd_run _ _ _ Hat)), (at0_port _ _ _ Hat).
  destruct (out_select d i s Hat) as (s1 & E1 & Hat1).
  rewrite (bind_run _ _ _ _ _ E1), (bind_run _ _ _ _ _ (wait_at0 _ _ _ Hat1)).
  set (p := set_count m (default_command (select_drive 0))). set (d' := set_modes m (smart_on d) (set_failed false d)).
  destruct (plain_command IDE_CMD_SET_MULTIPLE_MODE p d d' i s1 Hat1) as (s2 & E2 & Hat2); [done|done| |].
  { intros a Hrg Hsel. unfold command. rewrite Hsel, Hrg. cbn [Z.eqb IDE_CMD_SET_MULTIPLE_MODE Pos.eqb].
    unfold load, p, d'. cbn [count fst m_bCountSector set_count]. by rewrite u8_id. }
  rewrite (bind_run _ _ _ _ _ E2). change (truthy (c_bool (failed d'))) with false. cbv iota.
  rewrite (bind_run _ _ _ _ _ (wait_at0 _ _ _ Hat2)).
  assert (words_ok d') as Hok' by (destruct Hok as (H1 & H2 & _); split; [exact H1|split; [exact H2|exact Hm]]).
  destruct (identify_at0 d' i s2 p Hat2 Hok' ltac:(done)) as (s3 & E3 & Hat3).
  rewrite (bind_run _ _ _ _ _ E3).
  match goal with |- context [update_hd 0 ?f] => destruct (update_at0 _ _ _ f Hat3) as (s4 & E4 & Hat4); [apply Hat|] end.
  rewrite (bind_run _ _ _ _ _ E4). eexists _, s4. split; [done|]. by split.
Qed.

Lemma transfer_mode_run mode d i s :
  at0 d i s → failed d = false → ∃ s', BootIdeSetTransferMode fuel 0 mode s = Ok (0, s') ∧ at0 d i s'.
Proof.
  intros Hat Hf. unfold BootIdeSetTransferMode. rewrite (bind_run _ _ _ _ _ (hd_run _ _ _ Hat)), (at0_port _ _ _ Hat).
  destruct (out_select d i s Hat) as (s1 & E1 & Hat1). rewrite (bind_run _ _ _ _ _ E1).
  rewrite (bind_run _ _ _ _ _ (out_nothing (0xff60 + 2) _ s1 eq_refl)).
  rewrite (bind_run _ _ _ _ _ (out_nothing (IDE_REG_CONTROL IDE_BASE1) _ s1 eq_refl)).
  destruct (out_feature d i s1 0x01 Hat1) as (s2 & E2 & Hat2). rewrite (bind_run _ _ _ _ _ E2).
  rewrite (bind_run _ _ _ _ _ (wait_at0 _ _ _ Hat2)), Hf. change (truthy (c_bool false)) with false. cbv iota.
  destruct (out_feature d i s2 3 Hat2) as (s3 & E3 & Hat3). rewrite (bind_run _ _ _ _ _ E3).
  destruct (plain_command IDE_CMD_SET_FEATURES (set_count (u8 mode) (default_command (select_drive 0))) d d i s3 Hat3)
    as (s4 & E4 & Hat4); [done|done| |].
  { intros a _ Hsel. unfold command. rewrite Hsel. cbn. f_equal. destruct d. cbn in Hf. by subst. }
  exists s4. by rewrite E4, Hf.
Qed.

(** ** The whole detection *)

Lemma locked_bit d : words_ok d → truthy (word_at (octets_of (identify_words d)) 128 .& 0x0004) = locked d.
Proof.
  intros Hok. destruct (identify_words_word d Hok) as [_ Hw]. rewrite word_at_octets, identify_nth by (done || lia).
  change (identify_word d 128) with (security_word d). unfold security_word.
  by destruct (enabled d), (locked d), (tries d =? 0).
Qed.

Lemma unlock_at0 d i s pw :
  at0 d i s → words_ok d → (length pw <= 32)%nat → Forall byte pw →
  ∃ i' s', HDD_SECURITY_SendATACommand fuel 0 IDE_CMD_SECURITY_UNLOCK (pw ++ [0]) false s =
      Ok (c_bool (failed (unlocked_by (key_words (c_string pw)) d)), s') ∧
    at0 (unlocked_by (key_words (c_string pw)) d) i' s' ∧ ident i' = ident i ∧ m_fAtapi i' = m_fAtapi i.
Proof.
  intros Hat Hok Hlen Hb. pose proof Hat as [Hr _ Hi Hp]. pose proof (length_c_string pw) as Hle.
  destruct (unlock_run fuel 0 s i d (pw ++ [0]) (or_introl eq_refl) Hr (hd_run _ _ _ Hat) Hp Hok)
    as (a & j & E & Hj & Hr' & _ & Hph).
  - rewrite c_string_app. lia.
  - apply Forall_app; split; [done|]. repeat constructor; unfold byte; lia.
  - rewrite c_string_app in E, Hj, Hr'. exists j, (put_hd 0 j (set_hw a s)). split; [done|].
    assert (ident j = ident i ∧ m_fAtapi j = m_fAtapi i ∧ m_fwPortBase j = IDE_BASE1) as (H1 & H2 & H3)
      by (subst j; by destruct (failed _)). done.
Qed.

Section console.
Context (stack : Sha1.SHA1Context) (Hst : length (Sha1.Message_Block stack) = 64%nat).
Context (eeprom : list Z) (Hbytes : Forall byte eeprom) (Heeprom : (48 <= length eeprom)%nat).
Context (version : Z) (local : list Z).
Context (Hdec : Eeprom.decryptEEPROMData stack (take 0x30 eeprom) = Ok (version, local)).
Context (Hvalid : version ≠ 0).

Lemma init_disk_run d i s :
  at0 d i s → words_ok d → multiple d = 0 → locked d = true → identity_ok (ident i) →
  let d1 := unlocked_by (key_words (c_string (drive_password local (model_text (ident i)) (serial_text (ident i))))) d in
  ∃ d' i' s', init_disk fuel stack false eeprom 0 (octets_of (identify_words d)) s = Ok (true, s') ∧
    at0 d' i' s' ∧ locked d' = locked d1.
Proof using Hst Hbytes Heeprom Hdec Hvalid.
  intros Hat Hok Hmul Hl Hid d1. unfold init_disk. set (b := octets_of (identify_words d)).
  destruct (identify_words_word d Hok) as [_ Hw].
  set (pw := drive_password local (model_text (ident i)) (serial_text (ident i))) in *.
  destruct (drive_password_octets local (model_text (ident i)) (serial_text (ident i))) as [Hplen Hpb]. fold pw in Hplen, Hpb.
  destruct (update_at0 d i s (set_sec (security_of b)) Hat) as (s1 & E1 & Hat1); [apply Hat|].
  rewrite (bind_run _ _ _ _ _ E1). 
  assert (truthy (word_at b 128 .& 0x0004) = true) as -> by (unfold b; by rewrite locked_bit). cbn [negb andb].
  pose proof (password_run stack Hst eeprom Hbytes Heeprom version local Hdec Hvalid 0 _ s1 (hd_run _ _ _ Hat1) Hid) as Epw.
  change (ident (set_sec (security_of b) i)) with (ident i) in Epw. fold pw in Epw.
  destruct (unlock_at0 d _ s1 pw Hat1 Hok ltac:(lia) Hpb) as (i2 & s2 & E2 & Hat2 & _).
  rewrite (bind_run _ _ s1 tt s2).
  2: { rewrite (bind_run _ _ _ _ _ Epw), (bind_run (assert_ub _) _ s1 tt s1) by done. by rewrite (bind_run _ _ _ _ _ E2). }
  assert (0 <= word_at b 47 .& 0xFF < 256) as Hmax.
  { change 0xFF with (Z.ones 8). rewrite Z.land_ones by lia. apply Z.mod_pos_bound. lia. }
  destruct (update_at0 _ i2 s2 (λ i, set_xfer (set_maxBlock (word_at b 47 .& 0xFF) (xfer i)) i) Hat2) as (s3 & E3 & Hat3);
    [apply Hat2|]. rewrite (bind_run _ _ _ _ _ E3).
  assert (words_ok d1) as Hok1 by (unfold d1, unlocked_by; by case_match).
  destruct (multimode_run (word_at b 47 .& 0xFF) d1 _ s3 Hat3 Hok1 Hmax) as (i4 & s4 & E4 & Hat4 & _).
  assert (word_at b 59 .& 0x01FF = 0) as ->.
  { unfold b. rewrite word_at_octets, identify_nth by (done || lia). cbn. by rewrite Hmul. }
  destruct (Z.eqb_spec (word_at b 47 .& 0xFF + 0x0100) 0) as [|_]; [lia|]. cbn [negb].
  rewrite (bind_run _ _ _ _ _ E4). change (truthy 0) with false. cbv iota.
  match goal with |- context [update_hd 0 ?f] => destruct (update_at0 _ i4 s4 f Hat4) as (s5 & E5 & Hat5); [apply Hat4|] end.
  rewrite (bind_run _ _ _ _ _ E5).
  set (d5 := set_modes (word_at b 47 .& 0xFF) (smart_on d1) (set_failed false d1)) in *.
  destruct (word_at b 67 <=? 383).
  - destruct (transfer_mode_run 0x09 d5 _ s5 Hat5 eq_refl) as (s6 & E6 & Hat6). eexists d5, _, s6. split; [|done].
    rewrite (bind_run _ _ s5 tt s6); [done|]. rewrite (bind_run _ _ _ _ _ E6). by destruct s6.
  - destruct (transfer_mode_run 0x08 d5 _ s5 Hat5 eq_refl) as (s6 & E6 & Hat6). eexists d5, _, s6. split; [|done].
    rewrite (bind_run _ _ s5 tt s6); [done|]. rewrite (bind_run _ _ _ _ _ E6). by destruct s6.
Qed.

(** The password the console computes for a drive. *)
Definition console_password d : list Z :=
  drive_password local (id_text (octets_of (identify_words d)) 54 40) (id_text (octets_of (identify_words d)) 20 20).

(** The identify data as the detection reads it. *)
Lemma drive_init_identify d i s :
  at0 d i s → words_ok d →
  ∃ a, BootIdeIssueAtaCommand fuel IDE_BASE1 IDE_CMD_IDENTIFY (default_command (select_drive 0)) s = Ok (0, set_hw a s) ∧
    (∀ j, let s1 := mkIde j (hd1 s) a in
       BootIdeWaitDataReady IDE_BASE1 s1 = Ok (0, s1) ∧
       BootIdeReadData IDE_BASE1 IDE_SECTOR_SIZE s1 = Ok ((0, octets_of (identify_words d)), mkIde j (hd1 s) (set_ph Idle a)) ∧
       (m_fwPortBase j = IDE_BASE1 → at0 (set_failed false d) j (mkIde j (hd1 s) (set_ph Idle a)))).
Proof.
  intros Hat Hok. pose proof Hat as [Hr _ _ _]. destruct (identify_words_word d Hok) as [Hlen Hw].
  destruct (command_run fuel 0 s IDE_CMD_IDENTIFY (default_command (select_drive 0)) d (set_failed false d)
              (DataIn (identify_words d)) (or_introl eq_refl) Hr ltac:(done) ltac:(done)) as (a & E & Hr' & _ & Hph).
  { intros a0 _ Hsel. unfold command. by rewrite Hsel. }
  exists a. split; [exact E|]. intros j s1. split_and!.
  - rewrite (wait_data_ready s1 (set_failed false d)); [done|apply Hr'|apply Hr'|]. cbn. by rewrite Hph.
  - pose proof (read_data_run s1 (set_failed false d) (identify_words d)) as Hrd. rewrite Hlen in Hrd.
    apply Hrd; [apply Hr'|apply Hr'|done|done| |done]. intros E0. by rewrite E0 in Hlen.
  - intros Hp. split; [by destruct Hr'|done|done|done].
Qed.

Lemma drive_init_run d i s :
  rests fuel 0 d (hw s) → ph (hw s) = Idle → hd0 s = i → lengths_ok (ident i) →
  words_ok d → multiple d = 0 → locked d = true →
  ∃ d' i' s', BootIdeDriveInit fuel stack false eeprom IDE_BASE1 0 s = Ok (0, s') ∧ at0 d' i' s' ∧
    locked d' = locked (unlocked_by (key_words (c_string (console_password d))) d).
Proof using Hst Hbytes Heeprom Hdec Hvalid.
  intros Hr Hph Hi Hlen Hok Hmul Hl. unfold BootIdeDriveInit.
  rewrite (bind_run (update_hd 0 _) _ s tt (mkIde (reset_hd IDE_BASE1 i) (hd1 s) (hw s))) by (by subst).
  assert (at0 d (reset_hd IDE_BASE1 i) (mkIde (reset_hd IDE_BASE1 i) (hd1 s) (hw s))) as Hat by done.
  rewrite (bind_run _ _ _ _ _ (out_nothing (IDE_REG_CONTROL IDE_BASE1) _ _ eq_refl)).
  destruct (out_feature d _ _ 0 Hat) as (s1 & E1 & Hat1). rewrite (bind_run _ _ _ _ _ E1).
  destruct (drive_init_identify d _ s1 Hat1 Hok) as (a & E2 & Hrest). rewrite (bind_run _ _ _ _ _ E2).
  change (0 =? -1) with false. cbv iota.
  set (j := set_atapi false (reset_hd IDE_BASE1 i)). destruct (Hrest j) as (E3 & E4 & Hat4).
  rewrite (bind_run (detect_packet _ _ _ _ _) _ _ true (mkIde j (hd1 s1) a)).
  2: { unfold detect_packet. change (0 =? 1) with false. cbv iota. destruct Hat1 as [_ _ Hj _]. unfold j. by rewrite <- Hj. }
  cbn [negb]. rewrite (bind_run _ _ _ _ _ E3), (bind_run _ _ _ _ _ E4). change (truthy 0) with false. cbv iota.
  specialize (Hat4 eq_refl). rewrite (bind_run _ _ _ _ _ (hd_run _ _ _ Hat4)).
  destruct (identify_words_word d Hok) as [Hl256 Hw].
  destruct (identified_run (octets_of (identify_words d)) j) as (i' & Ei & Hid & Hm & Hs & Hp & He & Ha);
    [rewrite length_octets_of, Hl256; done|apply octets_byte|done|].
  rewrite Ei. match goal with |- context [(liftO (Ok i') ≫= ?f) ?s0] => rewrite (bind_run (liftO (Ok i')) f s0 i' s0) by done end.
  destruct (update_at0 _ j _ (λ _, i') Hat4) as (s5 & E5 & Hat5); [by rewrite Hp|]. rewrite (bind_run _ _ _ _ _ E5).
  change (m_fAtapi j) with false in Ha. rewrite Ha.
  destruct (init_disk_run (set_failed false d) i' s5 Hat5 Hok Hmul Hl Hid) as (d' & i6 & s6 & E6 & Hat6 & Hl6).
  change (identify_words (set_failed false d)) with (identify_words d) in E6. rewrite (bind_run _ _ _ _ _ E6). cbn [negb].
  match goal with |- context [(update_hd 0 ?f ≫= _) s6] => destruct (update_at0 _ i6 s6 f Hat6) as (s7 & E7 & Hat7); [apply Hat6|] end.
  rewrite (bind_run _ _ _ _ _ E7).
  match goal with |- context [(update_hd 0 ?f ≫= _) s7] => destruct (update_at0 _ _ s7 f Hat7) as (s8 & E8 & Hat8); [apply Hat7|] end.
  rewrite (bind_run _ _ _ _ _ E8). eexists d', _, s8. split; [done|]. split; [exact Hat8|].
  rewrite Hl6, Hm, Hs. unfold console_password, unlocked_by. cbn. by case_match.
Qed.
End console.
End boot.

(** ** The strings do not change *)

Lemma take_octets k : ∀ ws, take (2 * k) (octets_of ws) = octets_of (take k ws).
Proof.
  induction k as [|k IH]; intros ws; [done|]. replace (2 * S k)%nat with (S (S (2 * k))) by lia.
  destruct ws as [|w ws]; [done|]. rewrite octets_cons. cbn [take]. by rewrite octets_cons, IH.
Qed.

Lemma id_text_info d d' at_ len :
  info d = info d' → (at_ + len <= 118)%nat →
  id_text (octets_of (identify_words d)) at_ len = id_text (octets_of (identify_words d')) at_ len.
Proof.
  intros Hi Hl. unfold id_text. f_equal. f_equal.
  assert (∀ b : list Z, take len (drop at_ b) = take len (drop at_ (take 118 b))) as Ht.
  { intros b. rewrite skipn_firstn_comm, take_take. f_equal. lia. }
  rewrite (Ht (octets_of (identify_words d))), (Ht (octets_of (identify_words d'))).
  change 118%nat with (2 * 59)%nat. rewrite !take_octets. do 3 f_equal. unfold identify_words.
  rewrite <- !fmap_take. change (take 59 (seq 0 256)) with (seq 0 59). apply list_fmap_ext. intros j x Hx.
  apply lookup_seq in Hx as [-> Hj]. unfold identify_word.
  repeat (match goal with |- context [(0 + j =? ?k)%nat] => destruct (Nat.eqb_spec (0 + j) k) end; [lia|]). by rewrite Hi.
Qed.

Lemma console_password_info local d d' : info d = info d' → console_password local d = console_password local d'.
Proof. intros Hi. unfold console_password. by rewrite !(id_text_info d d') by (done || lia). Qed.

(** ** Properties *)

(** C13: the master disk, locked on a console, opens when that console starts again,
    exactly if only zeros follow the first zero of its password: the lock sends the
    whole password, the start sends it as a C string.  The detection itself
    succeeds in both cases. *)
Theorem locked_disk_opens fuel stack eeprom version local s d i :
  length (Sha1.Message_Block stack) = 64%nat → Forall byte eeprom → (48 <= length eeprom)%nat →
  Eeprom.decryptEEPROMData stack (take 0x30 eeprom) = Ok (version, local) → version ≠ 0 →
  at0 fuel d i s → identity_ok (ident i) →
  model_text (ident i) = id_text (octets_of (identify_words d)) 54 40 →
  serial_text (ident i) = id_text (octets_of (identify_words d)) 20 20 →
  words_ok d → failed d = false → locked d = false →
  let pw := console_password local d in
  ∃ s1 s2 d2, LockHDD fuel stack true 0 (Some eeprom) s = Ok (true, s1) ∧
    BootIdeDriveInit fuel stack false eeprom IDE_BASE1 0 (mkIde zero_info zero_info (power_cycle (hw s1))) = Ok (0, s2) ∧
    drive0 (hw s2) = Some d2 ∧
    (locked d2 = false ↔ Forall (λ x, x = 0) (drop (length (c_string pw)) pw)).
Proof.
  intros Hst He Hel Hdec Hv Hat Hid Hm Hs Hok Hf Hl pw. pose proof Hat as [Hr _ _ Hp].
  destruct (drive_password_octets local (model_text (ident i)) (serial_text (ident i))) as [Hpl Hpb].
  rewrite Hm, Hs in Hpl, Hpb. change (length pw = 20%nat) in Hpl. change (Forall byte pw) in Hpb.
  pose proof (password_run stack Hst eeprom He Hel version local Hdec Hv 0 i s (hd_run _ _ _ _ Hat) Hid) as Epw.
  rewrite Hm, Hs in Epw. fold (console_password local d) in Epw. fold pw in Epw.
  destruct (security_change_run fuel 0 s i d pw (or_introl eq_refl) Hr (hd_run _ _ _ _ Hat) Hf Hl Hok Hpl Hpb)
    as (id & a & Esc & Hra & _ & _ & Hid16).
  set (d1 := locked_with pw id d) in *.
  set (s1 := put_hd 0 (set_sec (mkSecurity (security_word d1) id) i) (set_hw a s)) in *.
  assert (drive0 a = Some d1) as Hd1.
  { destruct Hra as [Hsl Hsel _ _]. unfold selected in Hsel. by rewrite Hsl in Hsel. }
  destruct (drive_init_run fuel stack Hst eeprom He Hel version local Hdec Hv (power_drive d1) zero_info
              (mkIde zero_info zero_info (power_cycle (hw s1)))) as (d2 & i2 & s2 & E2 & Hat2 & Hl2).
  - destruct Hra as [_ _ _ Hq]. split; [done| |done|exact Hq]. unfold selected. cbn. by rewrite Hd1.
  - done.
  - done.
  - done.
  - destruct Hok as (H1 & _ & _). split; [exact H1|]. split; [exact Hid16|cbn; lia].
  - done.
  - done.
  - exists s1, s2, d2. split; [|split; [done|split]].
    + unfold LockHDD. rewrite (bind_run _ _ _ _ _ (hd_run _ _ _ _ Hat)). cbn [negb].
      rewrite (bind_run _ _ _ _ _ Epw), Hp. change (truthy 0) with false. cbv iota. by rewrite (bind_run _ _ _ _ _ Esc).
    + destruct Hat2 as [[Hsl Hsel _ _] _ _ _]. unfold selected in Hsel. by rewrite Hsl in Hsel.
    + rewrite Hl2, (console_password_info local (power_drive d1) d) by done. fold pw.
      rewrite <- key_c_string by (lia || done). unfold unlocked_by. cbn [tries user power_drive].
      change (negb (5 =? 0)) with true. cbn [andb]. change (user d1) with (key_words pw). by case_bool_decide.
Qed.

(** A disk whose identify words are all [w], on the console of the sample image. *)
Definition sample_drive (w : Z) : drive :=
  mkDrive 400000000 16 63 (λ _, w) (λ _, replicate 256 0) [] [] 0 false false 5 0 false false.
Definition sample_info (w : Z) : tsHarddiskInfo :=
  let b := octets_of (identify_words (sample_drive w)) in
  mkHdInfo IDE_BASE1 true false 40 (geo zero_info)
    (mkIdentity (id_text b 54 40 ++ [0; 0]) 40 (id_text b 20 20 ++ [0; 0]) 20 (replicate 10 0))
    (sec zero_info) (smrt zero_info) (xfer zero_info).
Definition sample_ide (w : Z) : ide ata :=
  mkIde (sample_info w) zero_info
    (mkAta (Some (sample_drive w)) None (mkRegs 0 (0, 0) (0, 0) (0, 0) (0, 0) 0) Idle 0 (λ k, (k mod 3)%nat) 0).
Definition sample_local : list Z :=
  match Eeprom.decryptEEPROMData Eeprom.sample_stack (take 0x30 Eeprom.sample_image) with Ok (_, l) => l | UB => [] end.

Lemma sample_at0 w : at0 10 (sample_drive w) (sample_info w) (sample_ide w).
Proof.
  split; [split|..]; try reflexivity. intros k. cbn [delays sample_ide hw].
  pose proof (Nat.mod_upper_bound k 3 ltac:(lia)). change (Pos.to_nat 10) with 10%nat. lia.
Qed.

(** The disk ["AAAA..."] opens, the disk ["AFAF..."] has a zero in its password. *)
Lemma locked_disk_opens_witness :
  (∃ s1 s2 d2, LockHDD 10 Eeprom.sample_stack true 0 (Some Eeprom.sample_image) (sample_ide 0x4141) = Ok (true, s1) ∧
    BootIdeDriveInit 10 Eeprom.sample_stack false Eeprom.sample_image IDE_BASE1 0
      (mkIde zero_info zero_info (power_cycle (hw s1))) = Ok (0, s2) ∧ drive0 (hw s2) = Some d2 ∧ locked d2 = false) ∧
  (∃ s1 s2 d2, LockHDD 10 Eeprom.sample_stack true 0 (Some Eeprom.sample_image) (sample_ide 0x4146) = Ok (true, s1) ∧
    BootIdeDriveInit 10 Eeprom.sample_stack false Eeprom.sample_image IDE_BASE1 0
      (mkIde zero_info zero_info (power_cycle (hw s1))) = Ok (0, s2) ∧ drive0 (hw s2) = Some d2 ∧ locked d2 = true).
Proof.
  assert (Eeprom.decryptEEPROMData Eeprom.sample_stack (take 0x30 Eeprom.sample_image) = Ok (10, sample_local)) as Hdec
    by (vm_compute; reflexivity).
  assert (∀ w, 0 <= w < 65536 → words_ok (sample_drive w)) as Hok.
  { intros w Hw. split; [intros k; exact Hw|]. split; [unfold word16; cbn; lia|cbn; lia]. }
  split.
  - destruct (locked_disk_opens 10 Eeprom.sample_stack Eeprom.sample_image 10 sample_local (sample_ide 0x4141)
                (sample_drive 0x4141) (sample_info 0x4141)) as (s1 & s2 & d2 & E1 & E2 & E3 & Hl);
      [reflexivity|apply (bool_decide_unpack _); vm_compute; exact I|vm_compute; lia|exact Hdec|discriminate|
       apply sample_at0| |vm_compute; reflexivity|vm_compute; reflexivity|apply Hok; lia|reflexivity|reflexivity|].
    + split; [reflexivity|]. split; [reflexivity|]. split; [reflexivity|].
      split; apply (bool_decide_unpack _); vm_compute; exact I.
    + exists s1, s2, d2. split; [exact E1|]. split; [exact E2|]. split; [exact E3|]. apply Hl.
      apply (bool_decide_unpack _). vm_compute. exact I.
  - destruct (locked_disk_opens 10 Eeprom.sample_stack Eeprom.sample_image 10 sample_local (sample_ide 0x4146)
                (sample_drive 0x4146) (sample_info 0x4146)) as (s1 & s2 & d2 & E1 & E2 & E3 & Hl);
      [reflexivity|apply (bool_decide_unpack _); vm_compute; exact I|vm_compute; lia|exact Hdec|discriminate|
       apply sample_at0| |vm_compute; reflexivity|vm_compute; reflexivity|apply Hok; lia|reflexivity|reflexivity|].
    + split; [reflexivity|]. split; [reflexivity|]. split; [reflexivity|].
      split; apply (bool_decide_unpack _); vm_compute; exact I.
    + exists s1, s2, d2. split; [exact E1|]. split; [exact E2|]. split; [exact E3|].
      destruct (locked d2); [reflexivity|]. destruct Hl as [Hl _]. specialize (Hl eq_refl).
      apply (bool_decide_pack _) in Hl. vm_compute in Hl. destruct Hl.
Defined.
End IdeBoot.
