(* ===== verification/Partition.v ===== *)
(** * Partitioning of the hard disk
      ([src/fs/ff13b/source/FatFSAccessor.c], [fatx_fdisk], [fatx_getmbr],
       [fatx_setmbr] and [fatx_getbrfr] of [src/fs/ff13b/source/ff.c],
       [src/fs/ff13b/source/diskio.c], [src/fs/ff13b/source/fatx.h], the format
       menu in [src/menu/textmenu/HDDMenuInit.c] and
       [src/menu/actions/HDDMenuActions.c], [formatNewDrives] of
       [src/lib/LPCMod/BootLPCMod.c])

    The menu offers layouts for the space behind the standard partitions; [fdisk]
    computes the table for one and writes it to the first sector.  A disk is a
    function from sectors to octets.  Which sectors can be read and written is an
    argument, as is [f_mkfs] of FatFs. *)

From Stdlib Require Import String.
From S2P Require Import Prelude Format.

Module Partition.
Import Format(text).

Abbreviation length := List.length.

(** ** The table *)

Definition XBOX_EXTEND_STARTLBA : Z := 0x00EE8AB0.
Definition XBOX_STORE_STARTLBA : Z := 0x0055F400.
Definition XBOX_SYSTEM_STARTLBA : Z := 0x00465400.
Definition XBOX_MBRTABLE_STARTLBA : Z := 0.
Definition XBOX_CACHE1_STARTLBA : Z := 0x00000400.
Definition XBOX_CACHE2_STARTLBA : Z := 0x00177400.
Definition XBOX_CACHE3_STARTLBA : Z := 0x002EE400.
Definition MBRTABLE_LBASIZE : Z := XBOX_CACHE1_STARTLBA - XBOX_MBRTABLE_STARTLBA.
Definition STORE_LBASIZE : Z := XBOX_EXTEND_STARTLBA - XBOX_STORE_STARTLBA.
Definition SYSTEM_LBASIZE : Z := XBOX_STORE_STARTLBA - XBOX_SYSTEM_STARTLBA.
Definition CACHE1_LBASIZE : Z := XBOX_CACHE2_STARTLBA - XBOX_CACHE1_STARTLBA.
Definition CACHE2_LBASIZE : Z := XBOX_CACHE3_STARTLBA - XBOX_CACHE2_STARTLBA.
Definition CACHE3_LBASIZE : Z := XBOX_SYSTEM_STARTLBA - XBOX_CACHE3_STARTLBA.
Definition LBA28_BOUNDARY : Z := 0x0FFFFFFF.
Definition LBASIZE_512GB : Z := 1073741824.
Definition LBASIZE_1024GB : Z := 2147483645.
Definition LBASIZE_256GB : Z := 536870912.
Definition LBASIZE_137GB : Z := LBA28_BOUNDARY - XBOX_EXTEND_STARTLBA.
Definition FATX_MIN_CLUSTERSIZE_INSECTORS : Z := 32.
Definition FATX_MID_CLUSTERSIZE_INSECTORS : Z := 64.
Definition FATX_MAX_CLUSTERSIZE_INSECTORS : Z := 128.
Definition FATX_DRIVE_MAGIC : list Z := text "BRFR".
Definition FATX_PE_PARTFLAGS_IN_USE : Z := 0x80000000.
Definition FATX_CHAINTABLE_BLOCKSIZE : Z := 4096.
Definition FATX_MIN_PART_SIZE_LBA : Z := 1024000.

Record XboxPartitionTableEntry := mkEntry {
  Name : list Z;
  Flags : Z;
  LBAStart : Z;
  LBASize : Z;
  Reserved : Z
}.

Record XboxPartitionTable := mkTable {
  Magic : list Z;
  Res0 : list Z;
  TableEntries : list XboxPartitionTableEntry
}.

(** The octets of the table, and the table in a sector. *)
Definition encode_entry (e : XboxPartitionTableEntry) : list Z :=
  Name e ++ le_bytes 4 (Flags e) ++ le_bytes 4 (LBAStart e) ++ le_bytes 4 (LBASize e) ++ le_bytes 4 (Reserved e).
Definition encode (t : XboxPartitionTable) : list Z :=
  Magic t ++ Res0 t ++ concat (map encode_entry (TableEntries t)).

Definition decode_entry (b : list Z) : XboxPartitionTableEntry :=
  mkEntry (take 16 b) (le_val (take 4 (drop 16 b))) (le_val (take 4 (drop 20 b)))
    (le_val (take 4 (drop 24 b))) (le_val (take 4 (drop 28 b))).
Fixpoint decode_entries (n : nat) (b : list Z) : list XboxPartitionTableEntry :=
  match n with O => [] | S n => decode_entry (take 32 b) :: decode_entries n (drop 32 b) end.
Definition decode (b : list Z) : XboxPartitionTable :=
  mkTable (take 16 b) (take 32 (drop 16 b)) (decode_entries 14 (drop 48 b)).

Definition BackupPartTable : XboxPartitionTable :=
  mkTable (text "****PARTINFO****") (replicate 32 0)
    ([mkEntry (text "XBOX SHELL      ") FATX_PE_PARTFLAGS_IN_USE XBOX_STORE_STARTLBA STORE_LBASIZE 0;
      mkEntry (text "XBOX DATA       ") FATX_PE_PARTFLAGS_IN_USE XBOX_SYSTEM_STARTLBA SYSTEM_LBASIZE 0;
      mkEntry (text "XBOX GAME SWAP 1") FATX_PE_PARTFLAGS_IN_USE XBOX_CACHE1_STARTLBA CACHE1_LBASIZE 0;
      mkEntry (text "XBOX GAME SWAP 2") FATX_PE_PARTFLAGS_IN_USE XBOX_CACHE1_STARTLBA CACHE2_LBASIZE 0;
      mkEntry (text "XBOX GAME SWAP 3") FATX_PE_PARTFLAGS_IN_USE XBOX_CACHE1_STARTLBA CACHE3_LBASIZE 0;
      mkEntry (text "XBOX F          ") 0 0 0 0;
      mkEntry (text "XBOX G          ") 0 0 0 0] ++
     replicate 7 (mkEntry (text "                ") 0 0 0 0)).

(** ** Disks *)

Definition FR_OK : Z := 0.
Definition FR_DISK_ERR : Z := 2.
Definition FR_NO_FILE : Z := 5.
Definition FR_NO_FILESYSTEM : Z := 14.

(** The sectors of each drive, and the tables read last. *)
Record hdd := mkHdd {
  sector : Z → Z → list Z;
  masterHDDFatxPartTable : XboxPartitionTable;
  masterHDDFatxPartTableRead : Z;
  slaveHDDFatxPartTable : XboxPartitionTable;
  slaveHDDFatxPartTableRead : Z
}.

Definition set_sector (w : hdd) (pdrv lba : Z) (b : list Z) : hdd :=
  mkHdd (λ d s, if (d =? pdrv) && (s =? lba) then b else sector w d s)
    (masterHDDFatxPartTable w) (masterHDDFatxPartTableRead w)
    (slaveHDDFatxPartTable w) (slaveHDDFatxPartTableRead w).
Definition set_table (w : hdd) (pdrv : Z) (t : XboxPartitionTable) (bit : Z) : hdd :=
  if pdrv =? 1
  then mkHdd (sector w) (masterHDDFatxPartTable w) (masterHDDFatxPartTableRead w) t bit
  else mkHdd (sector w) t bit (slaveHDDFatxPartTable w) (slaveHDDFatxPartTableRead w).

Section disk.
(** What [BootIdeReadSector], [BootIdeWriteSector] and [BootIdeFlushCache] return
    (zero is success), and the number of sectors of a drive. *)
Context (read_err write_err : Z → Z → Z) (flush_err : Z → Z) (sector_count : Z → Z).

(** [more + 1] sectors. *)
Fixpoint disk_read (w : hdd) (pdrv lba : Z) (more : nat) : Z * list Z :=
  let returnValue := read_err pdrv lba in
  if negb (returnValue =? 0) then (returnValue, [])
  else
    match more with
    | O => (0, sector w pdrv lba)
    | S more => let '(r, b) := disk_read w pdrv (lba + 1) more in (r, sector w pdrv lba ++ b)
    end.

Fixpoint disk_write (w : hdd) (pdrv : Z) (buff : list Z) (lba : Z) (more : nat) : Z * hdd :=
  let returnValue := write_err pdrv lba in
  if negb (returnValue =? 0) then (returnValue, w)
  else
    let w := set_sector w pdrv lba (take 512 buff) in
    match more with
    | O => (0, w)
    | S more => disk_write w pdrv (drop 512 buff) (lba + 1) more
    end.

Definition fatx_getbrfr (w : hdd) (pdrv : Z) : Z :=
  let '(r, buf) := disk_read w pdrv 3 0 in
  if negb (r =? 0) then FR_DISK_ERR
  else if bool_decide (take 4 buf = FATX_DRIVE_MAGIC) then FR_OK else FR_NO_FILESYSTEM.

(** The code, the table read (unless the disk fails) and the state. *)
Definition fatx_getmbr (w : hdd) (pdrv : Z) : Z * option XboxPartitionTable * hdd :=
  let '(r, buf) := disk_read w pdrv 0 0 in
  if negb (r =? 0) then (FR_DISK_ERR, None, w)
  else if negb (bool_decide (take 16 buf = Magic BackupPartTable))
  then (FR_NO_FILE, Some BackupPartTable, set_table w pdrv BackupPartTable 1)
  else (FR_OK, Some (decode buf), set_table w pdrv (decode buf) 1).

(** A table in a zeroed sector. *)
Definition table_sector (t : XboxPartitionTable) : list Z := encode t ++ replicate (512 - length (encode t)) 0.

Definition fatx_setmbr (w : hdd) (pdrv : Z) (t : XboxPartitionTable) : Z * hdd :=
  let buf := table_sector t in
  let '(r, w) := disk_write w pdrv buf 0 0 in
  if negb (r =? 0) || negb (flush_err pdrv =? 0) then (FR_DISK_ERR, w)
  else
    (FR_OK, set_table w pdrv (decode buf)
              (if bool_decide (Magic (decode buf) = Magic BackupPartTable) then 1 else 0)).

(** The loop that wipes the sectors [i], [i + 1], ...: [false] if a write fails. *)
Fixpoint wipe (n : nat) (w : hdd) (pdrv i : Z) : bool * hdd :=
  match n with
  | O => (true, w)
  | S n =>
      let '(r, w) := disk_write w pdrv (replicate 512 0) i 0 in
      if negb (r =? 0) then (false, w) else wipe n w pdrv (i + 1)
  end.

(** [disk_initialize] and [GET_SECTOR_COUNT] always succeed. *)
Definition fatx_fdisk (w : hdd) (pdrv : Z) (szt : XboxPartitionTable) : Z * hdd :=
  let '(ok, w) :=
    if negb (fatx_getbrfr w pdrv =? FR_OK) then
      let '(ok, w) := wipe (Z.to_nat (MBRTABLE_LBASIZE - 1)) w pdrv 1 in
      if ok then
        let '(r, w) := disk_write w pdrv (FATX_DRIVE_MAGIC ++ replicate 508 0) 3 0 in (r =? 0, w)
      else (false, w)
    else (true, w) in
  if negb ok then (FR_DISK_ERR, w)
  else
    let '(r, w) := disk_write w pdrv (table_sector szt) 0 0 in
    (if negb (r =? 0) || negb (flush_err pdrv =? 0) then FR_DISK_ERR else FR_OK, w).

(** ** Layouts *)

Inductive XboxDiskLayout :=
  XboxDiskLayout_Base | XboxDiskLayout_FOnly | XboxDiskLayout_F120GRest |
  XboxDiskLayout_FGSplit | XboxDiskLayout_FMaxGRest.

(** Start, size and flags of an entry. *)
Definition place (i : nat) (start size : Z) (t : XboxPartitionTable) : XboxPartitionTable :=
  mkTable (Magic t) (Res0 t)
    (alter (λ e, mkEntry (Name e) 0 start (u32 size) (Reserved e)) i (TableEntries t)).

(** The space behind the standard partitions, rounded down. *)
Definition split_space (diskSizeLba : Z) : Z :=
  Z.ldiff (diskSizeLba - XBOX_EXTEND_STARTLBA) (FATX_CHAINTABLE_BLOCKSIZE / 8 - 1).

(** The size of F when F and G share that space. *)
Definition fDriveLbaSize (space : Z) : Z :=
  let f := u32 (space / 2) in
  if LBASIZE_1024GB <=? f then LBASIZE_1024GB
  else
    let f := if f <=? LBASIZE_1024GB then Z.ldiff f (FATX_MAX_CLUSTERSIZE_INSECTORS - 1) else f in
    let f := if f <=? LBASIZE_512GB then Z.ldiff f (FATX_MID_CLUSTERSIZE_INSECTORS - 1) else f in
    if f <=? LBASIZE_256GB then Z.ldiff f (FATX_MIN_CLUSTERSIZE_INSECTORS - 1) else f.

(** The table for a layout on a disk of that size; [None] when it is refused. *)
Definition layout_table (diskSizeLba : Z) (layout : XboxDiskLayout) (mbr : XboxPartitionTable)
    : option XboxPartitionTable :=
  match layout with
  | XboxDiskLayout_Base => Some BackupPartTable
  | XboxDiskLayout_FOnly =>
      if diskSizeLba - XBOX_EXTEND_STARTLBA <? FATX_MIN_PART_SIZE_LBA then None
      else Some (place 6 0 0 (place 5 XBOX_EXTEND_STARTLBA (diskSizeLba - XBOX_EXTEND_STARTLBA) mbr))
  | XboxDiskLayout_F120GRest =>
      let t := place 5 XBOX_EXTEND_STARTLBA LBASIZE_137GB mbr in
      Some (if LBA28_BOUNDARY + SYSTEM_LBASIZE <=? diskSizeLba
            then place 6 LBA28_BOUNDARY (diskSizeLba - LBA28_BOUNDARY) t
            else place 6 0 0 t)
  | XboxDiskLayout_FGSplit =>
      let space := split_space diskSizeLba in
      let f := fDriveLbaSize space in
      Some (place 6 (u32 (XBOX_EXTEND_STARTLBA + f)) (space - u32 (XBOX_EXTEND_STARTLBA + f))
              (place 5 XBOX_EXTEND_STARTLBA f mbr))
  | XboxDiskLayout_FMaxGRest =>
      let t := place 5 XBOX_EXTEND_STARTLBA LBASIZE_1024GB mbr in
      Some (if XBOX_EXTEND_STARTLBA + LBASIZE_1024GB + SYSTEM_LBASIZE <=? diskSizeLba
            then place 6 (XBOX_EXTEND_STARTLBA + LBASIZE_1024GB)
                   (diskSizeLba - (XBOX_EXTEND_STARTLBA + LBASIZE_1024GB)) t
            else place 6 0 0 t)
  end.

Definition is_base (layout : XboxDiskLayout) : bool :=
  match layout with XboxDiskLayout_Base => true | _ => false end.

(** The result code and the state. *)
Definition fdisk (w : hdd) (driveNumber : Z) (layout : XboxDiskLayout) : Z * hdd :=
  if 2 <=? driveNumber then (-1, w)
  else
    let diskSizeLba := sector_count driveNumber in
    if (diskSizeLba <? XBOX_EXTEND_STARTLBA - 1) ||
       ((diskSizeLba <=? XBOX_EXTEND_STARTLBA) && negb (is_base layout))
    then (-1, w)
    else
      match fatx_getmbr w driveNumber with
      | (r, Some mbr, w) =>
          if negb (r =? FR_OK) then (-1, w)
          else
            match layout_table diskSizeLba layout mbr with
            | Some t => fatx_fdisk w driveNumber t
            | None => (-1, w)
            end
      | (_, None, w) => (-1, w)
      end.

(** ** Menus *)

Definition F_GEQUAL : Z := 0x10.
Definition FMAX_G : Z := 0x20.
Definition F137_G : Z := 0x40.
Definition F_NOG : Z := 0x80.

(** The options in the menu for a disk with that many sectors. *)
Definition LargeHDDMenuDynamic (sectors : Z) : list Z :=
  let nExtendSectors := u32 (sectors - XBOX_EXTEND_STARTLBA) in
  (if SYSTEM_LBASIZE + SYSTEM_LBASIZE <? nExtendSectors then [F_GEQUAL] else []) ++
  (if LBASIZE_1024GB + SYSTEM_LBASIZE <? nExtendSectors then [FMAX_G] else []) ++
  (if (LBASIZE_137GB + SYSTEM_LBASIZE <? nExtendSectors) &&
      (u32 (nExtendSectors - LBASIZE_137GB) <? LBASIZE_1024GB) then [F137_G] else []) ++
  (if nExtendSectors <? LBASIZE_1024GB then [F_NOG] else []).

Definition layout_of (formatOption : Z) : option XboxDiskLayout :=
  if formatOption =? F_GEQUAL then Some XboxDiskLayout_FGSplit
  else if formatOption =? FMAX_G then Some XboxDiskLayout_FMaxGRest
  else if formatOption =? F137_G then Some XboxDiskLayout_F120GRest
  else if formatOption =? F_NOG then Some XboxDiskLayout_FOnly
  else None.

(** What is shown: that partitioning failed, or the result for a partition. *)
Inductive message := PartitionningFailed | Formatted (part : Z) (ok : bool).

Definition Part_C : Z := 1.
Definition Part_E : Z := 0.
Definition Part_F : Z := 5.
Definition Part_G : Z := 6.
Definition Part_X : Z := 2.
Definition Part_Y : Z := 3.
Definition Part_Z : Z := 4.

(** [f_mkfs] of the volume for a drive and a partition. *)
Context (f_mkfs : Z → Z → hdd → Z * hdd).

Definition fatxmkfs (w : hdd) (driveNumber partNumber : Z) : Z * hdd :=
  let '(r, _, w) := fatx_getmbr w driveNumber in
  if negb (r =? FR_OK) then (-1, w)
  else
    let '(r, w) := f_mkfs driveNumber partNumber w in
    (if negb (r =? FR_OK) then -1 else 0, w).

(** [confirmed]: the user confirms. *)
Definition FormatDriveFG (confirmed : bool) (w : hdd) (nDriveIndex formatOption : Z) : list message * hdd :=
  match layout_of formatOption with
  | None => ([], w)
  | Some layout =>
      if confirmed then
        let '(r, w) := fdisk w nDriveIndex layout in
        if negb (r =? 0) then ([PartitionningFailed], w)
        else
          let '(r, w) := fatxmkfs w nDriveIndex Part_F in
          let m := [Formatted Part_F (r =? 0)] in
          if negb (formatOption =? F_NOG) then
            let '(r, w) := fatxmkfs w nDriveIndex Part_G in (m ++ [Formatted Part_G (r =? 0)], w)
          else (m, w)
      else ([], w)
  end.

(** The partitions of a new drive in turn, until one fails. *)
Fixpoint format_parts (parts : list Z) (w : hdd) (i : Z) : option Z * hdd :=
  match parts with
  | [] => (None, w)
  | p :: parts =>
      let '(r, w) := fatxmkfs w i p in
      if negb (r =? 0) then (Some p, w) else format_parts parts w i
  end.

(** [candidate i]: the drive is connected, not a CD-ROM and not locked;
    [large_menu] is the menu for large disks.  The result is the partition that
    could not be formatted. *)
Fixpoint formatNewDrives (n : nat) (candidate confirmed : Z → bool) (large_menu : Z → hdd → hdd) (w : hdd) (i : Z)
    : option Z * hdd :=
  match n with
  | O => (None, w)
  | S n =>
      if candidate i && (XBOX_EXTEND_STARTLBA <=? sector_count i) && negb (fatx_getbrfr w i =? FR_OK) && confirmed i
      then
        let '(_, w) := fdisk w i XboxDiskLayout_Base in
        match format_parts [Part_C; Part_E; Part_X; Part_Y; Part_Z] w i with
        | (Some p, w) => (Some p, w)
        | (None, w) =>
            let w := if XBOX_EXTEND_STARTLBA + SYSTEM_LBASIZE <=? sector_count i then large_menu i w else w in
            formatNewDrives n candidate confirmed large_menu w (i + 1)
        end
      else formatNewDrives n candidate confirmed large_menu w (i + 1)
  end.

End disk.

(** ** The table in a sector *)

Definition entry_ok (e : XboxPartitionTableEntry) : Prop :=
  length (Name e) = 16%nat ∧ word32 (Flags e) ∧ word32 (LBAStart e) ∧ word32 (LBASize e) ∧ word32 (Reserved e).
Definition table_ok (t : XboxPartitionTable) : Prop :=
  Magic t = Magic BackupPartTable ∧ length (Res0 t) = 32%nat ∧ length (TableEntries t) = 14%nat ∧
  Forall entry_ok (TableEntries t).

Lemma length_encode_entry e : entry_ok e → length (encode_entry e) = 32%nat.
Proof. intros (Hn & _). unfold encode_entry. rewrite !length_app, !length_le_bytes. lia. Qed.

Lemma decode_encode_entry e : entry_ok e → decode_entry (encode_entry e) = e.
Proof.
  intros (Hn & Hf & Hs & Hz & Hr). unfold word32 in *. destruct e as [n fl st sz re]. cbn [Name Flags LBAStart LBASize Reserved] in *.
  assert (∀ v (l : list Z), take 4 (le_bytes 4 v ++ l) = le_bytes 4 v) as Ht.
  { intros v l. apply take_app_length'. by rewrite length_le_bytes. }
  assert (∀ v (l : list Z) j k, j = (4 + k)%nat → drop j (le_bytes 4 v ++ l) = drop k l) as Hd.
  { intros v l j k ->. rewrite drop_app_ge by (rewrite length_le_bytes; lia). rewrite length_le_bytes. f_equal. lia. }
  assert (∀ (l : list Z) j k, j = (16 + k)%nat → drop j (n ++ l) = drop k l) as Hn'.
  { intros l j k ->. rewrite drop_app_ge by lia. f_equal. lia. }
  unfold decode_entry, encode_entry. cbn [Name Flags LBAStart LBASize Reserved].
  rewrite take_app_length' by done. rewrite (Hn' _ 16 0)%nat, (Hn' _ 20 4)%nat, (Hn' _ 24 8)%nat, (Hn' _ 28 12)%nat by done.
  rewrite !(Hd _ _ 12 8)%nat, !(Hd _ _ 8 4)%nat, !(Hd _ _ 4 0)%nat, !drop_0 by done.
  rewrite !Ht, <- (app_nil_r (le_bytes 4 re)), Ht, !le_val_bytes by (cbn; lia). done.
Qed.

Lemma decode_entries_encode es pad :
  Forall entry_ok es → decode_entries (length es) (concat (map encode_entry es) ++ pad) = es.
Proof.
  induction es as [|e es IH]; intros H; [done|]. apply Forall_cons_1 in H as [He H].
  cbn [length decode_entries map concat]. rewrite <- app_assoc.
  pose proof (length_encode_entry e He) as Hl.
  rewrite take_app_length', drop_app_length' by done. by rewrite decode_encode_entry, IH.
Qed.

Lemma length_encode t : table_ok t → length (encode t) = 496%nat.
Proof.
  intros (Hm & Hr & He & Hok). unfold encode. rewrite !length_app, Hm, Hr.
  assert (∀ es, Forall entry_ok es → length (concat (map encode_entry es)) = (32 * length es)%nat) as H.
  { induction es as [|e es IH]; intros H; [done|]. apply Forall_cons_1 in H as [H1 H2].
    cbn [map concat length]. rewrite length_app, IH, length_encode_entry by done. lia. }
  rewrite H, He by done. done.
Qed.

Lemma decode_encode t pad : table_ok t → decode (encode t ++ pad) = t.
Proof.
  intros (Hm & Hr & He & Hok). destruct t as [m r es]. cbn [Magic Res0 TableEntries] in *.
  unfold decode, encode. cbn [Magic Res0 TableEntries]. assert (length m = 16%nat) as Hl by (by rewrite Hm).
  rewrite <- !app_assoc, take_app_length' by done.
  assert (drop 16 (m ++ r ++ concat (map encode_entry es) ++ pad) = r ++ concat (map encode_entry es) ++ pad) as H16
    by (by apply drop_app_length').
  rewrite H16. change 48%nat with (16 + 32)%nat. rewrite <- drop_drop, H16.
  rewrite take_app_length', drop_app_length' by done. by rewrite <- He, decode_entries_encode.
Qed.

Lemma BackupPartTable_ok : table_ok BackupPartTable.
Proof. repeat split. apply (bool_decide_unpack _). vm_compute. exact I. Qed.

Lemma place_ok i start size t : word32 start → table_ok t → table_ok (place i start size t).
Proof.
  intros Hs (Hm & Hr & He & Hok). unfold place. split_and!; cbn [Magic Res0 TableEntries]; [done|done| |].
  - by rewrite length_alter.
  - apply Forall_alter; [done|]. intros e _ (Hn & _ & _ & _ & Hre). split_and!; cbn; try done. apply u32_range.
Qed.

Lemma layout_ok n layout mbr t : table_ok mbr → layout_table n layout mbr = Some t → table_ok t.
Proof.
  intros Hm. assert (∀ z, word32 (u32 z)) as Hu by (intros z; apply u32_range).
  destruct layout; cbn [layout_table]; intros E.
  - injection E as <-. apply BackupPartTable_ok.
  - destruct (_ <? _); [done|]. injection E as <-. by repeat apply place_ok.
  - injection E as <-. by destruct (_ <=? _); repeat apply place_ok.
  - injection E as <-. by repeat apply place_ok.
  - injection E as <-. by destruct (_ <=? _); repeat apply place_ok.
Qed.

(** ** Reading and writing *)

Section io.
Context (read_err write_err : Z → Z → Z) (flush_err : Z → Z) (sector_count : Z → Z) (d : Z).
(** The sectors in front of the partitions can be read and written. *)
Hypothesis read_good : ∀ s, 0 <= s < MBRTABLE_LBASIZE → read_err d s = 0.
Hypothesis write_good : ∀ s, 0 <= s < MBRTABLE_LBASIZE → write_err d s = 0.
Hypothesis flush_good : flush_err d = 0.

Lemma write_one w b s :
  0 <= s < MBRTABLE_LBASIZE → length b = 512%nat → disk_write write_err w d b s 0 = (0, set_sector w d s b).
Proof. intros Hs Hb. cbn [disk_write]. rewrite write_good by done. cbn. by rewrite take_ge by lia. Qed.

Lemma read_one w s : 0 <= s < MBRTABLE_LBASIZE → disk_read read_err w d s 0 = (0, sector w d s).
Proof. intros Hs. cbn [disk_read]. by rewrite read_good by done. Qed.

Lemma wipe_spec n : ∀ w i,
  0 <= i → i + Z.of_nat n <= MBRTABLE_LBASIZE →
  ∃ w', wipe write_err n w d i = (true, w') ∧
    ∀ e s, (e ≠ d ∨ s < i ∨ i + Z.of_nat n <= s) → sector w' e s = sector w e s.
Proof.
  induction n as [|n IH]; intros w i Hi Hn; cbn [wipe]; [by exists w|].
  rewrite write_one by (lia || apply length_replicate). cbn [negb Z.eqb].
  destruct (IH (set_sector w d i (replicate 512 0)) (i + 1)) as (w' & -> & Hw'); [lia|lia|].
  exists w'. split; [done|]. intros e s Hs. rewrite Hw' by lia. cbn [set_sector sector].
  destruct (Z.eqb_spec e d), (Z.eqb_spec s i); cbn [andb]; try done. lia.
Qed.

Lemma length_table_sector t : table_ok t → length (table_sector t) = 512%nat.
Proof.
  intros Ht. unfold table_sector. rewrite length_app, length_replicate. pose proof (length_encode t Ht). lia.
Qed.

Lemma take_magic t : table_ok t → take 16 (table_sector t) = Magic BackupPartTable.
Proof.
  intros Ht. unfold table_sector, encode. destruct Ht as (-> & _). rewrite <- !app_assoc.
  by apply take_app_length'.
Qed.

(** A table that has been written is read back. *)
Lemma getmbr_table w t :
  table_ok t → sector w d 0 = table_sector t → fatx_getmbr read_err w d = (FR_OK, Some t, set_table w d t 1).
Proof.
  intros Ht Hs. unfold fatx_getmbr. rewrite read_one by (unfold MBRTABLE_LBASIZE, XBOX_CACHE1_STARTLBA, XBOX_MBRTABLE_STARTLBA; lia).
  cbn [negb Z.eqb]. rewrite Hs, take_magic by done. rewrite bool_decide_true by done. cbn [negb].
  unfold table_sector. by rewrite decode_encode.
Qed.

Lemma getbrfr_written w rest :
  sector w d 3 = FATX_DRIVE_MAGIC ++ rest → fatx_getbrfr read_err w d = FR_OK.
Proof.
  intros Hs. unfold fatx_getbrfr. rewrite read_one by (unfold MBRTABLE_LBASIZE, XBOX_CACHE1_STARTLBA, XBOX_MBRTABLE_STARTLBA; lia).
  cbn [negb Z.eqb]. rewrite Hs, take_app_length' by done. by rewrite bool_decide_true.
Qed.

(** [fatx_fdisk] writes the table and the mark of the drive, and nothing behind
    the area of the table. *)
Lemma fatx_fdisk_spec w t :
  table_ok t →
  ∃ w', fatx_fdisk read_err write_err flush_err w d t = (FR_OK, w') ∧
    sector w' d 0 = table_sector t ∧ fatx_getbrfr read_err w' d = FR_OK ∧
    ∀ e s, (e ≠ d ∨ s < 0 ∨ MBRTABLE_LBASIZE <= s) → sector w' e s = sector w e s.
Proof.
  intros Ht. pose proof (length_table_sector t Ht) as Hlen.
  assert (MBRTABLE_LBASIZE = 1024) as HM by done.
  assert (∃ w1, (if negb (fatx_getbrfr read_err w d =? FR_OK) then
      let '(ok, w) := wipe write_err (Z.to_nat (MBRTABLE_LBASIZE - 1)) w d 1 in
      if ok then
        let '(r, w) := disk_write write_err w d (FATX_DRIVE_MAGIC ++ replicate 508 0) 3 0 in (r =? 0, w)
      else (false, w)
    else (true, w)) = (true, w1) ∧ fatx_getbrfr read_err w1 d = FR_OK ∧
    ∀ e s, (e ≠ d ∨ s < 1 ∨ MBRTABLE_LBASIZE <= s) → sector w1 e s = sector w e s) as (w1 & E & Hb & Hw1).
  { destruct (Z.eqb_spec (fatx_getbrfr read_err w d) FR_OK) as [Hb|Hb]; cbn [negb]; [by exists w|].
    destruct (wipe_spec (Z.to_nat (MBRTABLE_LBASIZE - 1)) w 1) as (w1 & -> & Hw1); [lia|lia|].
    rewrite write_one by (lia || (rewrite length_app, length_replicate; done)).
    eexists. split; [reflexivity|]. split.
    - eapply getbrfr_written. cbn [set_sector sector]. by rewrite !Z.eqb_refl.
    - intros e s Hs. cbn [set_sector sector]. destruct (Z.eqb_spec e d), (Z.eqb_spec s 3); cbn [andb];
        try (apply Hw1; lia). lia. }
  unfold fatx_fdisk. rewrite E. cbn [negb]. rewrite write_one by (done || lia). rewrite flush_good. cbn [negb Z.eqb orb].
  eexists. split; [done|]. split; [cbn [set_sector sector]; by rewrite !Z.eqb_refl|]. split.
  - unfold fatx_getbrfr in *. rewrite read_one in Hb |- * by lia. cbn [set_sector sector].
    by rewrite andb_false_r.
  - intros e s Hs. cbn [set_sector sector]. destruct (Z.eqb_spec e d), (Z.eqb_spec s 0); cbn [andb];
      try (apply Hw1; lia). lia.
Qed.

End io.

(** ** Layouts on the disk *)

(** F lies behind the standard partitions and inside the disk, G behind F and
    inside the disk. *)
Definition fits (n : Z) (t : XboxPartitionTable) : Prop :=
  ∃ f g, TableEntries t !! 5%nat = Some f ∧ TableEntries t !! 6%nat = Some g ∧
    LBAStart f = XBOX_EXTEND_STARTLBA ∧ LBAStart f + LBASize f <= n ∧
    (LBASize g = 0 ∨ LBAStart f + LBASize f <= LBAStart g ∧ LBAStart g + LBASize g <= n).

Lemma placed fs fz gs gz mbr :
  length (TableEntries mbr) = 14%nat →
  ∃ f g, let t := place 6 gs gz (place 5 fs fz mbr) in
    TableEntries t !! 5%nat = Some f ∧ TableEntries t !! 6%nat = Some g ∧
    LBAStart f = fs ∧ LBASize f = u32 fz ∧ LBAStart g = gs ∧ LBASize g = u32 gz.
Proof.
  intros Hl. unfold place. cbn [TableEntries].
  destruct (lookup_lt_is_Some_2 (TableEntries mbr) 5) as [f Hf]; [lia|].
  destruct (lookup_lt_is_Some_2 (TableEntries mbr) 6) as [g Hg]; [lia|].
  eexists _, _. rewrite list_lookup_alter_ne, list_lookup_alter, Hf by done.
  rewrite list_lookup_alter, list_lookup_alter_ne, Hg by done. done.
Qed.

Lemma fits_placed n fs fz gs gz mbr :
  length (TableEntries mbr) = 14%nat →
  fits n (place 6 gs gz (place 5 fs fz mbr)) ↔
    fs = XBOX_EXTEND_STARTLBA ∧ fs + u32 fz <= n ∧ (u32 gz = 0 ∨ fs + u32 fz <= gs ∧ gs + u32 gz <= n).
Proof.
  intros Hl. destruct (placed fs fz gs gz mbr Hl) as (f & g & Hf & Hg & <- & <- & <- & <-). split.
  - intros (f' & g' & Hf' & Hg' & H). simplify_eq. done.
  - intros H. by exists f, g.
Qed.

Lemma ldiff_round x k : 0 <= k → Z.ldiff x (2 ^ k - 1) = x / 2 ^ k * 2 ^ k.
Proof.
  intros Hk. replace (2 ^ k - 1) with (Z.ones k) by (rewrite Z.ones_equiv; lia).
  by rewrite Z.ldiff_ones_r, Z.shiftl_mul_pow2, Z.shiftr_div_pow2.
Qed.

(** F gets half of the space, less at most 127 sectors. *)
Lemma fDriveLbaSize_half space :
  0 <= space < 2 ^ 32 - 2 ^ 10 → 0 <= fDriveLbaSize space ∧ space / 2 - 127 <= fDriveLbaSize space <= space / 2.
Proof.
  intros Hs. unfold fDriveLbaSize, LBASIZE_1024GB, LBASIZE_512GB, LBASIZE_256GB, FATX_MAX_CLUSTERSIZE_INSECTORS,
    FATX_MID_CLUSTERSIZE_INSECTORS, FATX_MIN_CLUSTERSIZE_INSECTORS.
  change 128 with (2 ^ 7). change 64 with (2 ^ 6). change 32 with (2 ^ 5). rewrite !ldiff_round by lia.
  change (2 ^ 7) with 128. change (2 ^ 6) with 64. change (2 ^ 5) with 32.
  rewrite u32_id by (unfold word32; Z.to_euclidean_division_equations; lia).
  repeat match goal with |- context [?a <=? ?b] => destruct (Z.leb_spec a b) end;
    Z.to_euclidean_division_equations; lia.
Qed.

Lemma split_space_range n :
  XBOX_EXTEND_STARTLBA <= n →
  0 <= split_space n ∧ n - XBOX_EXTEND_STARTLBA - 511 <= split_space n <= n - XBOX_EXTEND_STARTLBA.
Proof.
  intros Hn. unfold split_space, FATX_CHAINTABLE_BLOCKSIZE. change (4096 / 8 - 1) with (2 ^ 9 - 1).
  rewrite ldiff_round by lia. change (2 ^ 9) with 512. Z.to_euclidean_division_equations. lia.
Qed.

(** The split layout fits when the space left behind F is no less than the
    standard partitions take. *)
Lemma split_fits n mbr :
  length (TableEntries mbr) = 14%nat → XBOX_EXTEND_STARTLBA <= n < 2 ^ 32 →
  ∃ t, layout_table n XboxDiskLayout_FGSplit mbr = Some t ∧
    (fits n t ↔ XBOX_EXTEND_STARTLBA + fDriveLbaSize (split_space n) <= split_space n).
Proof.
  intros Hl Hn. pose proof (split_space_range n ltac:(lia)) as Hs.
  assert (XBOX_EXTEND_STARTLBA = 15633072) as HE by done.
  pose proof (fDriveLbaSize_half (split_space n)) as Hf.
  cbn [layout_table]. eexists. split; [reflexivity|]. rewrite fits_placed by done.
  set (sp := split_space n) in *. specialize (Hf ltac:(lia)). set (f := fDriveLbaSize sp) in *. clearbody f sp.
  assert (f <= sp) by (Z.to_euclidean_division_equations; lia).
  assert (XBOX_EXTEND_STARTLBA + f < 2 ^ 32) by (Z.to_euclidean_division_equations; lia).
  rewrite (u32_id (XBOX_EXTEND_STARTLBA + f)), (u32_id f) by (unfold word32; lia).
  destruct (decide (XBOX_EXTEND_STARTLBA + f <= sp)) as [Hle|Hlt].
  - rewrite u32_id by (unfold word32; lia). lia.
  - assert (u32 (sp - (XBOX_EXTEND_STARTLBA + f)) = sp - (XBOX_EXTEND_STARTLBA + f) + 2 ^ 32) as ->; [|lia].
    unfold u32. rewrite <- (Z_mod_plus_full _ 1), Z.mul_1_l, Z.mod_small by lia. done.
Qed.

(** What the menu offers. *)
Lemma offered n opt :
  XBOX_EXTEND_STARTLBA + SYSTEM_LBASIZE <= n < 2 ^ 32 →
  In opt (LargeHDDMenuDynamic n) ↔
    opt = F_GEQUAL ∧ XBOX_EXTEND_STARTLBA + 2 * SYSTEM_LBASIZE < n ∨
    opt = FMAX_G ∧ XBOX_EXTEND_STARTLBA + LBASIZE_1024GB + SYSTEM_LBASIZE < n ∨
    opt = F137_G ∧ LBA28_BOUNDARY + SYSTEM_LBASIZE < n < LBA28_BOUNDARY + LBASIZE_1024GB ∨
    opt = F_NOG ∧ n < XBOX_EXTEND_STARTLBA + LBASIZE_1024GB.
Proof.
  intros Hn. unfold LargeHDDMenuDynamic, LBASIZE_137GB, LBA28_BOUNDARY, LBASIZE_1024GB, SYSTEM_LBASIZE,
    XBOX_STORE_STARTLBA, XBOX_SYSTEM_STARTLBA, XBOX_EXTEND_STARTLBA in *.
  rewrite !in_app_iff, !(u32_id (n - _)) by (unfold word32; lia).
  set (x := u32 _). assert (0xFFFFFFF <= n → x = n - 0xFFFFFFF) as Hx.
  { intros H. unfold x. rewrite u32_id by (unfold word32; lia). lia. }
  clearbody x.
  repeat match goal with |- context [?a <? ?b] => destruct (Z.ltb_spec a b) end; cbn [andb In]; intuition lia.
Qed.

Lemma offered_fit n opt mbr :
  length (TableEntries mbr) = 14%nat → XBOX_EXTEND_STARTLBA + SYSTEM_LBASIZE <= n < 2 ^ 32 →
  In opt (LargeHDDMenuDynamic n) →
  ∃ layout t, layout_of opt = Some layout ∧ layout_table n layout mbr = Some t ∧
    (opt ≠ F_GEQUAL ∨ 3 * XBOX_EXTEND_STARTLBA + 511 <= n → fits n t) ∧
    (opt = F_GEQUAL → n <= 3 * XBOX_EXTEND_STARTLBA - 256 → ¬ fits n t).
Proof.
  intros Hl Hn Hin%offered; [|done].
  assert (XBOX_EXTEND_STARTLBA = 15633072 ∧ SYSTEM_LBASIZE = 1024000) as [HE HS] by done.
  destruct Hin as [[-> Hc]|[[-> Hc]|[[-> Hc]|[-> Hc]]]].
  - destruct (split_fits n mbr Hl ltac:(lia)) as (t & Ht & Hfit). exists XboxDiskLayout_FGSplit, t.
    split; [done|]. split; [done|]. pose proof (split_space_range n ltac:(lia)) as Hs.
    pose proof (fDriveLbaSize_half (split_space n) ltac:(lia)) as Hf. rewrite Hfit.
    split; [intros [?|?]; [done|]|intros _ Hlt]; Z.to_euclidean_division_equations; lia.
  - exists XboxDiskLayout_FMaxGRest. eexists. split; [done|]. split; [reflexivity|]. split; [|done].
    intros _. destruct (Z.leb_spec (XBOX_EXTEND_STARTLBA + LBASIZE_1024GB + SYSTEM_LBASIZE) n); [|lia].
    unfold LBASIZE_1024GB in *. apply fits_placed; [done|]. rewrite !u32_id by (unfold word32; lia). lia.
  - exists XboxDiskLayout_F120GRest. eexists. split; [done|]. split; [reflexivity|]. split; [|done].
    intros _. destruct (Z.leb_spec (LBA28_BOUNDARY + SYSTEM_LBASIZE) n); [|lia].
    unfold LBASIZE_137GB, LBA28_BOUNDARY in *. apply fits_placed; [done|]. rewrite !u32_id by (unfold word32; lia). lia.
  - exists XboxDiskLayout_FOnly. unfold LBASIZE_1024GB in *. cbn [layout_table]. unfold FATX_MIN_PART_SIZE_LBA.
    destruct (Z.ltb_spec (n - XBOX_EXTEND_STARTLBA) 1024000); [lia|]. eexists. split; [done|]. split; [reflexivity|].
    split; [|done]. intros _. apply fits_placed; [done|]. rewrite (u32_id (n - _)) by (unfold word32; lia).
    split; [done|]. split; [lia|]. by left.
Qed.

(** ** Properties *)

(** C36: the layouts that the menu offers for a large disk can be made and fit it:
    F starts behind the standard partitions, G behind F, and both end inside the
    disk.  The even split is the exception on disks of less than three times the
    standard area (about 22GB), where the size of G wraps around and G reaches
    beyond the disk. *)
Theorem offered_layouts_fit n opt mbr :
  length (TableEntries mbr) = 14%nat → XBOX_EXTEND_STARTLBA + SYSTEM_LBASIZE <= n < 2 ^ 32 →
  In opt (LargeHDDMenuDynamic n) →
  ∃ layout t, layout_of opt = Some layout ∧ layout_table n layout mbr = Some t ∧
    (opt ≠ F_GEQUAL ∨ 3 * XBOX_EXTEND_STARTLBA + 511 <= n → fits n t) ∧
    (opt = F_GEQUAL → n <= 3 * XBOX_EXTEND_STARTLBA - 256 → ¬ fits n t).
Proof. apply offered_fit. Qed.

(** Splitting a disk of 20GB and a disk of 500GB. *)
Lemma offered_layouts_fit_witness :
  (∃ t, layout_table 39062500 XboxDiskLayout_FGSplit BackupPartTable = Some t ∧ ¬ fits 39062500 t) ∧
  (∃ t, layout_table 976562500 XboxDiskLayout_FGSplit BackupPartTable = Some t ∧ fits 976562500 t).
Proof.
  split.
  - destruct (offered_layouts_fit 39062500 F_GEQUAL BackupPartTable) as (l & t & Hl & Ht & _ & Hno).
    + reflexivity.
    + vm_compute. split; [discriminate|reflexivity].
    + vm_compute. left. reflexivity.
    + exists t. injection Hl as <-. split; [exact Ht|]. apply Hno; [reflexivity|vm_compute; discriminate].
  - destruct (offered_layouts_fit 976562500 F_GEQUAL BackupPartTable) as (l & t & Hl & Ht & Hyes & _).
    + reflexivity.
    + vm_compute. split; [discriminate|reflexivity].
    + vm_compute. left. reflexivity.
    + exists t. injection Hl as <-. split; [exact Ht|]. apply Hyes. right. vm_compute. discriminate.
Defined.

(** The disk has no room for the layout. *)
Definition too_small (n : Z) (layout : XboxDiskLayout) : bool :=
  (n <? XBOX_EXTEND_STARTLBA - 1) || ((n <=? XBOX_EXTEND_STARTLBA) && negb (is_base layout)).


(** A disk of 500GB that holds the standard table and lacks the mark. *)
Definition sample_hdd : hdd :=
  mkHdd (λ _ s, if s =? 0 then table_sector BackupPartTable else replicate 512 0) BackupPartTable 0 BackupPartTable 0.


(** A new drive is never formatted: on a drive whose first sector does not
    hold a table, [fdisk] refuses every layout and [fatxmkfs] every partition,
    although a standard table is at hand, so [formatNewDrives] ends with the
    message that C could not be formatted and writes nothing. *)
Theorem new_drive_not_formatted read_err write_err flush_err sector_count f_mkfs n candidate confirmed large_menu w d :
  0 <= d < 2 → read_err d 0 = 0 → take 16 (sector w d 0) ≠ Magic BackupPartTable →
  fatx_getbrfr read_err w d ≠ FR_OK → XBOX_EXTEND_STARTLBA <= sector_count d →
  candidate d = true → confirmed d = true →
  (∀ layout, (fdisk read_err write_err flush_err sector_count w d layout).1 = -1) ∧
  ∃ w', formatNewDrives read_err write_err flush_err sector_count f_mkfs (S n) candidate confirmed large_menu w d =
          (Some Part_C, w') ∧ sector w' = sector w.
Proof.
  intros Hd Hr Hm Hb Hn Hc Hcf.
  assert (∀ w, take 16 (sector w d 0) ≠ Magic BackupPartTable →
    fatx_getmbr read_err w d = (FR_NO_FILE, Some BackupPartTable, set_table w d BackupPartTable 1)) as Hget.
  { intros w' Hm'. unfold fatx_getmbr. cbn [disk_read]. rewrite Hr. cbn [negb Z.eqb].
    by rewrite bool_decide_false. }
  assert (∀ w t b, sector (set_table w d t b) = sector w) as Hset by (intros w' t b; unfold set_table; by destruct (d =? 1)).
  assert (∀ layout, fdisk read_err write_err flush_err sector_count w d layout = (-1, w) ∨
    fdisk read_err write_err flush_err sector_count w d layout = (-1, set_table w d BackupPartTable 1)) as Hf.
  { intros layout. unfold fdisk. destruct (Z.leb_spec 2 d); [lia|]. destruct (_ || _); [by left|].
    rewrite Hget by done. by right. }
  split; [intros layout; by destruct (Hf layout) as [-> | ->]|].
  cbn [formatNewDrives]. rewrite Hc, Hcf. destruct (Z.leb_spec XBOX_EXTEND_STARTLBA (sector_count d)); [|lia].
  destruct (Z.eqb_spec (fatx_getbrfr read_err w d) FR_OK); [done|]. cbn [andb negb].
  destruct (Hf XboxDiskLayout_Base) as [-> | ->]; cbn [format_parts]; unfold fatxmkfs;
    rewrite Hget by (by rewrite ?Hset); cbn [negb Z.eqb FR_NO_FILE FR_OK Pos.eqb]; eexists;
    (split; [reflexivity|]); by rewrite ?Hset.
Qed.

(** A blank disk. *)
Lemma new_drive_not_formatted_witness :
  ∃ w', formatNewDrives (λ _ _, 0) (λ _ _, 0) (λ _, 0) (λ _, 976562500) (λ _ _ w, (0, w)) 2 (λ _, true) (λ _, true)
          (λ _ w, w) (mkHdd (λ _ _, replicate 512 0) BackupPartTable 0 BackupPartTable 0) 0 = (Some Part_C, w').
Proof.
  destruct (new_drive_not_formatted (λ _ _, 0) (λ _ _, 0) (λ _, 0) (λ _, 976562500) (λ _ _ w, (0, w)) 1 (λ _, true)
              (λ _, true) (λ _ w, w) (mkHdd (λ _ _, replicate 512 0) BackupPartTable 0 BackupPartTable 0) 0)
    as (_ & w' & Hw & _).
  - lia.
  - reflexivity.
  - vm_compute. discriminate.
  - vm_compute. discriminate.
  - vm_compute. discriminate.
  - reflexivity.
  - reflexivity.
  - exists w'. exact Hw.
Defined.

(** The standard table puts the three cache partitions on the same sectors. *)
Lemma caches_overlap lba :
  XBOX_CACHE1_STARTLBA <= lba < XBOX_CACHE1_STARTLBA + CACHE2_LBASIZE →
  ∀ i, (2 <= i <= 4)%nat → ∃ e, TableEntries BackupPartTable !! i = Some e ∧ LBAStart e <= lba < LBAStart e + LBASize e.
Proof.
  intros Hl i Hi. assert (i = 2 ∨ i = 3 ∨ i = 4)%nat as [-> |[-> | ->]] by lia; eexists; (split; [reflexivity|]);
    cbn [LBAStart LBASize]; unfold CACHE1_LBASIZE, CACHE2_LBASIZE, CACHE3_LBASIZE, XBOX_CACHE1_STARTLBA,
      XBOX_CACHE2_STARTLBA, XBOX_CACHE3_STARTLBA, XBOX_SYSTEM_STARTLBA in *; lia.
Qed.

End Partition.
