(* ===== verification/DiskIo.v ===== *)
(** * Disk access of the file systems ([src/fs/ff13b/source/diskio.c])

    The functions FatFs calls, on top of the IDE driver.  The partition tables are
    modelled on an array of sectors ([Partition.v]); here the driver and a drive are
    shown to be that array. *)

From S2P Require Import Prelude Ide AtaDevice IdeTheorems Partition.

Module DiskIo.
Import Ide Ata IdeTheorems.

Abbreviation length := List.length.

Definition STA_NOINIT : Z := 0x01.
Definition STA_PROTECT : Z := 0x04.
Definition RES_OK : Z := 0.
Definition RES_PARERR : Z := 4.
Definition CTRL_SYNC : Z := 0.
Definition GET_SECTOR_COUNT : Z := 1.
Definition GET_SECTOR_SIZE : Z := 2.
Definition GET_BLOCK_SIZE : Z := 3.

Section diskio.
Context {H : Type} `{!IdeBus H}.
Context (fuel : positive) (SZ_BLOCK : Z).

Definition disk_status (pdrv : Z) : ST (ide H) Z :=
  i ← hd pdrv;
  mret ((if m_fDriveExists i then RES_OK else STA_NOINIT) .| (if m_fAtapi i then STA_PROTECT else RES_OK)).

Definition disk_initialize (pdrv : Z) : ST (ide H) Z :=
  _ ← disk_status pdrv; mret RES_OK.

(** The result is not set when [count] is zero. *)
Fixpoint disk_read (count : nat) (pdrv sector : Z) : ST (ide H) (Z * list Z) :=
  match count with
  | O => ub
  | S count =>
      '(r, b) ← BootIdeReadSector fuel pdrv sector 0 512;
      if truthy r then mret (r, b)
      else
        match count with
        | O => mret (r, b)
        | S _ => '(r, rest) ← disk_read count pdrv (u32 (sector + 1)); mret (r, b ++ rest)
        end
  end.

Fixpoint disk_write (count : nat) (pdrv : Z) (buff : list Z) (sector : Z) : ST (ide H) Z :=
  match count with
  | O => ub
  | S count =>
      r ← BootIdeWriteSector fuel 0 pdrv (take 512 buff) sector;
      if truthy r then mret r
      else
        match count with
        | O => mret r
        | S _ => disk_write count pdrv (drop 512 buff) (u32 (sector + 1))
        end
  end.

(** The result and what is stored for the caller. *)
Definition disk_ioctl (pdrv cmd : Z) : ST (ide H) (Z * option Z) :=
  if cmd =? CTRL_SYNC then r ← BootIdeFlushCache fuel pdrv; mret (r, None)
  else if cmd =? GET_SECTOR_COUNT then n ← BootIdeGetSectorCount pdrv; mret (RES_OK, Some n)
  else if cmd =? GET_SECTOR_SIZE then mret (RES_OK, Some IDE_SECTOR_SIZE)
  else if cmd =? GET_BLOCK_SIZE then mret (RES_OK, Some SZ_BLOCK)
  else mret (RES_PARERR, None).
End diskio.

(** ** The array of sectors *)

Section array.
Context (fuel : positive).

(** Drive [n] holds the sectors of [w]. *)
Definition holds (n : Z) (i : tsHarddiskInfo) (d : drive) (w : Partition.hdd) (s : ide ata) : Prop :=
  disk_at fuel n i d s ∧ readable i d ∧
  ∀ x, 0 <= x < capacity d → Partition.sector w n x = octets_of (medium d x).

Lemma readable_store i d block ws :
  readable i d → length ws = 256%nat → Forall word16 ws → readable i (IdeTheorems.store d block ws).
Proof.
  intros [Hg Hl Hc Hm] Hlen Hw. split; [done|done|done|]. intros x. cbn. by destruct (x =? block).
Qed.

(** A sector that was written is in the array. *)
Lemma holds_store n i d w s a lba b :
  holds n i d w s → length b = 512%nat → Forall byte b →
  disk_at fuel n i (IdeTheorems.store d lba (words_of b)) (set_hw a s) →
  holds n i (IdeTheorems.store d lba (words_of b)) (Partition.set_sector w n lba b) (set_hw a s).
Proof.
  intros (_ & Hrd & Hw) Hlen H8 Hat. split; [done|]. split.
  - apply readable_store; [done|by apply (length_words_of 256)|by apply (words_of_word16 256)].
  - intros x Hx. unfold Partition.set_sector, IdeTheorems.store. cbn [Partition.sector medium set_failed set_medium].
    rewrite Z.eqb_refl. cbn [andb]. destruct (x =? lba); [by rewrite (octets_words 256)|by apply Hw].
Qed.

Lemma readable_failed i d b : readable i d → readable i (set_failed b d).
Proof. by intros []. Qed.

Lemma read_simulates more : ∀ n i d w s lba,
  holds n i d w s → 0 <= lba → lba + Z.of_nat more < capacity d →
  ∃ a, disk_read fuel (S more) n lba s = Ok (Partition.disk_read (λ _ _, 0) w n lba more, set_hw a s) ∧
    holds n i (set_failed false d) w (set_hw a s) ∧ others_kept n (hw s) a.
Proof.
  induction more as [|more IH]; intros n i d w s lba (Hat & Hrd & Hw) Hlba Hcap;
    destruct (read_sector_run fuel n i d s lba Hat Hrd ltac:(lia)) as (a & E & Hat' & Hk).
  - exists a. split; [|split; [|done]]. 2: { split; [done|]. split; [by apply readable_failed|done]. }
    cbn [disk_read]. rewrite (bind_run _ _ _ _ _ E). cbn. by rewrite Hw by lia.
  - destruct (IH n i (set_failed false d) w (set_hw a s) (lba + 1)) as (a' & E' & Hh & Hk'); [|lia|cbn; lia|].
    { split; [done|]. split; [by apply readable_failed|done]. }
    exists a'. split; [|split; [done|by eapply others_kept_trans]].
    assert (u32 (lba + 1) = lba + 1) as Hu by (apply u32_id; unfold word32; destruct Hrd; lia).
    remember (S more) as k eqn:Hk0. cbn [disk_read]. rewrite (bind_run _ _ _ _ _ E). change (truthy 0) with false. cbv iota.
    subst k. rewrite Hu, (bind_run _ _ _ _ _ E'). cbn [Partition.disk_read]. change (negb (0 =? 0)) with false. cbv iota.
    destruct (Partition.disk_read _ w n (lba + 1) more) as [r b]. by rewrite Hw by lia.
Qed.

Lemma write_simulates more : ∀ n i d w s lba buff,
  holds n i d w s → 0 <= lba → lba + Z.of_nat more < capacity d →
  length buff = (512 * S more)%nat → Forall byte buff →
  let '(r, w') := Partition.disk_write (λ _ _, 0) w n buff lba more in
  ∃ d' a, disk_write fuel (S more) n buff lba s = Ok (r, set_hw a s) ∧
    holds n i d' w' (set_hw a s) ∧ capacity d' = capacity d ∧ others_kept n (hw s) a.
Proof.
  induction more as [|more IH]; intros n i d w s lba buff Hh Hlba Hcap Hlen H8; pose proof Hh as (Hat & Hrd & Hw);
    (destruct (write_sector_run fuel 0 n i d s lba (take 512 buff) Hat Hrd ltac:(lia)) as (a & E & Hat' & Hk);
      [rewrite length_take; lia|by apply Forall_take|]);
    (apply (holds_store n i d w s) in Hat'; [|done|rewrite length_take; lia|by apply Forall_take]);
    cbn [Partition.disk_write]; change (negb (0 =? 0)) with false; cbv iota.
  - eexists _, a. split; [|done]. cbn [disk_write]. by rewrite (bind_run _ _ _ _ _ E).
  - specialize (IH n i _ _ _ (lba + 1) (drop 512 buff) Hat').
    destruct (Partition.disk_write _ _ n (drop 512 buff) (lba + 1) more) as [r w'].
    destruct IH as (d' & a' & E' & Hh' & Hc & Hk'); [lia|cbn; lia|rewrite length_drop; lia|by apply Forall_drop|].
    exists d', a'. split; [|split; [done|split; [done|by eapply others_kept_trans]]].
    assert (u32 (lba + 1) = lba + 1) as Hu by (apply u32_id; unfold word32; destruct Hrd; lia).
    remember (S more) as k eqn:Hk0. cbn [disk_write]. rewrite (bind_run _ _ _ _ _ E). change (truthy 0) with false.
    cbv iota. subst k. by rewrite Hu.
Qed.
End array.

(** ** Properties *)

(** C14: the driver and a hard disk are an array of sectors: whatever the address
    mode, reading through [disk_read] returns what the array of the partition model
    holds and changes nothing in it, and [disk_write] changes the array as
    [Partition.disk_write] does; neither touches the other drive. *)
Theorem diskio_refines_array fuel n i d w s lba more buff :
  holds fuel n i d w s → 0 <= lba → lba + Z.of_nat more < capacity d →
  length buff = (512 * S more)%nat → Forall byte buff →
  (∃ a d', disk_read fuel (S more) n lba s = Ok (Partition.disk_read (λ _ _, 0) w n lba more, set_hw a s) ∧
     holds fuel n i d' w (set_hw a s) ∧ drive_of (1 - n) a = drive_of (1 - n) (hw s)) ∧
  (∃ a d', disk_write fuel (S more) n buff lba s =
       Ok (fst (Partition.disk_write (λ _ _, 0) w n buff lba more), set_hw a s) ∧
     holds fuel n i d' (snd (Partition.disk_write (λ _ _, 0) w n buff lba more)) (set_hw a s) ∧
     drive_of (1 - n) a = drive_of (1 - n) (hw s)).
Proof.
  intros Hh Hlba Hcap Hlen H8. split.
  - destruct (read_simulates fuel more n i d w s lba Hh Hlba Hcap) as (a & E & Hh' & [Hk _]). eauto.
  - pose proof (write_simulates fuel more n i d w s lba buff Hh Hlba Hcap Hlen H8) as Hw.
    destruct (Partition.disk_write _ w n buff lba more) as [r w'].
    destruct Hw as (d' & a & E & Hh' & _ & [Hk _]). eauto.
Qed.

(** A blank disk of 200GB as slave, behind a disk as master. *)
Definition sample_drive : drive :=
  mkDrive 400000000 16 63 (λ _, 0) (λ _, replicate 256 0) [] [] 0 false false 5 0 false false.
Definition sample_info : tsHarddiskInfo :=
  set_geo (mkGeo 16 0 63 400000000 IDE_DH_LBA) (mkHdInfo IDE_BASE1 true false 40 (geo zero_info) (ident zero_info)
    (sec zero_info) (smrt zero_info) (xfer zero_info)).
Definition sample_ide : ide ata :=
  mkIde sample_info sample_info
    (mkAta (Some sample_drive) (Some sample_drive) (mkRegs 0 (0, 0) (0, 0) (0, 0) (0, 0) 0) Idle 0 (λ k, (k mod 3)%nat) 0).
Definition sample_array : Partition.hdd :=
  Partition.mkHdd (λ _ _, replicate 512 0) Partition.BackupPartTable 0 Partition.BackupPartTable 0.

(** Sectors 0x0FFFFFFF and 0x10000000, on both sides of the limit of 28 bits. *)
Lemma diskio_refines_array_witness :
  ∃ a d', disk_write 10 2 1 (replicate 1024 7) 0x0FFFFFFF sample_ide =
       Ok (0, set_hw a sample_ide) ∧
     holds 10 1 sample_info d' (snd (Partition.disk_write (λ _ _, 0) sample_array 1 (replicate 1024 7) 0x0FFFFFFF 1))
       (set_hw a sample_ide) ∧ drive_of 0 a = Some sample_drive.
Proof.
  apply (diskio_refines_array 10 1 sample_info sample_drive sample_array sample_ide 0x0FFFFFFF 1 (replicate 1024 7)).
  - split; [|split].
    + split; try reflexivity; [right; reflexivity|]. intros k. cbn [delays sample_ide hw].
      pose proof (Nat.mod_upper_bound k 3 ltac:(lia)). change (Pos.to_nat 10) with 10%nat. lia.
    + split; [left; reflexivity|reflexivity|vm_compute; discriminate|]. intros x. split; [reflexivity|].
      apply Forall_replicate. unfold word16. lia.
    + intros x _. reflexivity.
  - lia.
  - vm_compute. reflexivity.
  - reflexivity.
  - apply Forall_replicate. unfold byte. lia.
Defined.
End DiskIo.
