(* ===== verification/FatFiles.v ===== *)
(** * Files and directories by handle ([src/fs/ff13b/source/FatFSAccessor.c])

    The accessor keeps two file objects and two directory objects of FatFs and
    gives out handles to them; 0 is no handle.  FatFs itself is the class [FatFs]:
    its operations work on the disks and on a state of its own, and the class
    [FatFsLaws] says what its documentation promises about the objects.  An object
    is open when its [obj.fs] is not null, here when it is [Some]. *)

From Stdlib Require Import String.
From stdpp Require Import gmap.
From S2P Require Import Prelude Format Strings Partition.

Module FatFiles.
Import Format(text).
Import Partition Strings(strchr).

Abbreviation length := List.length.

Record FILINFO := mkFilinfo {
  fsize : Z; fdate : Z; ftime : Z; fattrib : Z; namelength : Z; fnamex : list Z
}.

(** A name of 42 octets without a terminator of its own. *)
Record FileInfo := mkInfo {
  name : list Z; nameLength : Z; size : Z; attributes : Z; modDate : Z; modTime : Z
}.
Definition no_info : FileInfo := mkInfo (replicate 42 0) 0 0 0 0 0.
Definition FATX_FILENAME_MAX : Z := 42.

(** Into a structure of zeros. *)
Definition convertToFileInfo (i : FILINFO) : FileInfo :=
  let n := if FATX_FILENAME_MAX <? namelength i then FATX_FILENAME_MAX else namelength i in
  mkInfo (take (Z.to_nat n) (fnamex i) ++ replicate (42 - Z.to_nat n) 0)
    (namelength i) (fsize i) (fattrib i) (fdate i) (ftime i).

Record FileDate := mkDate { seconds : Z; minutes : Z; hours : Z; mday : Z; month : Z; year : Z }.
Definition convertToTime (date time : Z) : FileDate :=
  mkDate (u8 ((time .& 31) * 2)) (Z.shiftr time 5 .& 63) (u8 (Z.shiftr time 11))
    (date .& 31) (Z.shiftr date 5 .& 15) (Z.shiftr date 9 + 1980).

(** ** FatFs *)

(** File objects [F], directory objects [D], further state [X]. *)
Class FatFs (F D X : Type) := {
  f_mount : list Z → hdd * X → Z * Z * (hdd * X);
  f_open : list Z → Z → hdd * X → Z * option F * (hdd * X);
  f_close : F → hdd * X → Z * option F * (hdd * X);
  f_read : F → Z → hdd * X → Z * list Z * F * (hdd * X);
  f_write : F → list Z → hdd * X → Z * Z * F * (hdd * X);
  f_lseek : F → Z → hdd * X → Z * F * (hdd * X);
  f_sync : F → hdd * X → Z * F * (hdd * X);
  f_tell : F → Z;
  f_size : F → Z;
  f_eof : F → bool;
  f_stat : list Z → hdd * X → Z * FILINFO;
  f_mkdir : list Z → hdd * X → Z * (hdd * X);
  f_unlink : list Z → hdd * X → Z * (hdd * X);
  f_rename : list Z → list Z → hdd * X → Z * (hdd * X);
  f_chdir : list Z → hdd * X → Z * (hdd * X);
  f_opendir : list Z → hdd * X → Z * option D * (hdd * X);
  f_readdir : D → hdd * X → Z * FILINFO * D * (hdd * X);
  f_findfirst : list Z → list Z → hdd * X → Z * FILINFO * option D * (hdd * X);
  f_findnext : D → hdd * X → Z * FILINFO * D * (hdd * X);
  f_rewinddir : D → hdd * X → Z * D * (hdd * X);
  f_closedir : D → hdd * X → Z * option D * (hdd * X)
}.

(** Opening makes an object valid exactly if it succeeds, closing makes it invalid. *)
Class FatFsLaws (F D X : Type) `{!FatFs F D X} := {
  f_open_valid path mode w : (f_open path mode w).1.1 = FR_OK ↔ is_Some ((f_open path mode w).1.2);
  f_close_valid f w : (f_close f w).1.1 = FR_OK → (f_close f w).1.2 = None;
  f_opendir_valid path w : (f_opendir path w).1.1 = FR_OK ↔ is_Some ((f_opendir path w).1.2);
  f_closedir_valid d w : (f_closedir d w).1.1 = FR_OK → (f_closedir d w).1.2 = None
}.

(** ** Text files ([src/fs/ff13b/source/ff.c])

    [FF_USE_STRFUNC] is 2: a line feed is written as carriage return and line
    feed, and a carriage return is skipped in reading. *)
Section strings.
Context {F D X : Type} `{!FatFs F D X}.

(** The loop of [f_gets]: the characters stored behind [p].  A round that goes on
    has read an octet, so the size of the file bounds the rounds. *)
Fixpoint gets_loop (fuel : nat) (len : Z) (p : list Z) (f : F) (w : hdd * X) : list Z * F * (hdd * X) :=
  match fuel with
  | O => (p, f, w)
  | S fuel =>
      if Z.of_nat (length p) <? len then
        let '(_, s, f, w) := f_read f 1 w in
        match s with
        | [dc] =>
            if dc =? 13 then gets_loop fuel len p f w
            else if dc =? 10 then (p ++ [dc], f, w)
            else gets_loop fuel len (p ++ [dc]) f w
        | _ => (p, f, w)
        end
      else (p, f, w)
  end.

(** The characters before the terminator; [None] is the null pointer. *)
Definition f_gets (f : F) (len : Z) (w : hdd * X) : option (list Z) * F * (hdd * X) :=
  let '(buff, f, w) := gets_loop (S (Z.to_nat (f_size f))) (len - 1) [] f w in
  (if (length buff =? 0)%nat then None else Some buff, f, w).

(** The first [idx] octets of the buffer; [None] if [idx] is -1. *)
Record putbuff := mkPutbuff { fp : F; buf : option (list Z); nchr : Z }.

Definition putc_octet (c : Z) (pb : putbuff) (w : hdd * X) : putbuff * (hdd * X) :=
  match buf pb with
  | None => (pb, w)
  | Some b =>
      let b := b ++ [u8 c] in
      if 64 - 4 <=? Z.of_nat (length b) then
        let '(_, n, f, w) := f_write (fp pb) b w in
        (mkPutbuff f (if n =? Z.of_nat (length b) then Some [] else None) (nchr pb + 1), w)
      else (mkPutbuff (fp pb) (Some b) (nchr pb + 1), w)
  end.
Definition putc_bfd (c : Z) (pb : putbuff) (w : hdd * X) : putbuff * (hdd * X) :=
  let '(pb, w) := if c =? 10 then putc_octet 13 pb w else (pb, w) in
  putc_octet c pb w.

Definition putc_flush (pb : putbuff) (w : hdd * X) : Z * F * (hdd * X) :=
  match buf pb with
  | None => (-1, fp pb, w)
  | Some b =>
      let '(r, nw, f, w) := f_write (fp pb) b w in
      (if (r =? FR_OK) && (Z.of_nat (length b) =? nw) then nchr pb else -1, f, w)
  end.

Definition putc_init (f : F) : putbuff := mkPutbuff f (Some []) 0.

Definition f_putc (f : F) (c : Z) (w : hdd * X) : Z * F * (hdd * X) :=
  let '(pb, w) := putc_bfd c (putc_init f) w in putc_flush pb w.

Fixpoint puts_loop (str : list Z) (pb : putbuff) (w : hdd * X) : putbuff * (hdd * X) :=
  match str with
  | [] => (pb, w)
  | c :: str => let '(pb, w) := putc_bfd c pb w in puts_loop str pb w
  end.
Definition f_puts (f : F) (str : list Z) (w : hdd * X) : Z * F * (hdd * X) :=
  let '(pb, w) := puts_loop str (putc_init f) w in putc_flush pb w.
End strings.

Section accessor.
Context {F D X : Type} `{!FatFs F D X}.
Context (read_err : Z → Z → Z).

Definition MaxOpenFileCount : nat := 5 / 2.
Definition MaxOpenDirCount : nat := 5 / 2.
Definition NbDrivesSupported : Z := 2.
Definition NbFATXPartPerHDD : Z := 7.
Definition VolumeStr : list (list Z) :=
  map text ["MASTER_E"; "MASTER_C"; "MASTER_X"; "MASTER_Y"; "MASTER_Z"; "MASTER_F"; "MASTER_G";
            "SLAVE_E"; "SLAVE_C"; "SLAVE_X"; "SLAVE_Y"; "SLAVE_Z"; "SLAVE_F"; "SLAVE_G"]%string.

(** [FatXFs] holds the type of each mounted volume, zero when it is not mounted. *)
Record accessor := mkAccessor {
  FileHandleArray : list (option F);
  DirectoryHandleArray : list (option D);
  FatXFs : Z → Z → Z;
  world : hdd * X
}.

Definition set_world (w : hdd * X) (a : accessor) : accessor :=
  mkAccessor (FileHandleArray a) (DirectoryHandleArray a) (FatXFs a) w.
Definition set_file (i : nat) (f : option F) (a : accessor) : accessor :=
  mkAccessor (<[i := f]> (FileHandleArray a)) (DirectoryHandleArray a) (FatXFs a) (world a).
Definition set_dir (i : nat) (d : option D) (a : accessor) : accessor :=
  mkAccessor (FileHandleArray a) (<[i := d]> (DirectoryHandleArray a)) (FatXFs a) (world a).

(** ** Volumes *)

Definition set_type (d p t : Z) (a : accessor) : accessor :=
  mkAccessor (FileHandleArray a) (DirectoryHandleArray a)
    (λ d' p', if (d' =? d) && (p' =? p) then t else FatXFs a d' p') (world a).

Definition isFATXFormattedDrive (a : accessor) (driveNumber : Z) : Z :=
  if fatx_getbrfr read_err (world a).1 driveNumber =? FR_OK then 1 else 0.

(** [PathSep] around the name of the volume. *)
Definition volume_path (driveNumber partitionNumber : Z) : list Z :=
  text "/" ++ nth (Z.to_nat (driveNumber * NbFATXPartPerHDD + partitionNumber)) VolumeStr [] ++ text "/".

Definition fatxmount (driveNumber partitionNumber : Z) (a : accessor) : Z * accessor :=
  let '(r, t, w) := f_mount (volume_path driveNumber partitionNumber) (world a) in
  (r, set_type driveNumber partitionNumber t (set_world w a)).

Definition isMounted (a : accessor) (driveNumber partitionNumber : Z) : Z :=
  if NbDrivesSupported <=? driveNumber then -1
  else if NbFATXPartPerHDD <=? partitionNumber then -1
  else FatXFs a driveNumber partitionNumber.

(** The volumes [i], [i + 1], ... of the table that are in use and not mounted. *)
Fixpoint mount_parts (entries : list XboxPartitionTableEntry) (driveNumber i : Z) (a : accessor) : accessor :=
  match entries with
  | [] => a
  | e :: entries =>
      let a := if (FatXFs a driveNumber i =? 0) && negb (Flags e .& FATX_PE_PARTFLAGS_IN_USE =? 0)
               then (fatxmount driveNumber i a).2 else a in
      mount_parts entries driveNumber (i + 1) a
  end.

Definition mountAll (driveNumber : Z) (a : accessor) : Z * accessor :=
  if NbDrivesSupported <=? driveNumber then (-1, a)
  else if fatx_getbrfr read_err (world a).1 driveNumber =? FR_OK then
    match fatx_getmbr read_err (world a).1 driveNumber with
    | (r, Some t, h) =>
        let a := set_world (h, (world a).2) a in
        (0, if r =? FR_OK then mount_parts (take (Z.to_nat NbFATXPartPerHDD) (TableEntries t)) driveNumber 0 a else a)
    | (_, None, h) => (0, set_world (h, (world a).2) a)
    end
  else (0, a).

(** [usable i]: the drive is connected and not a CD-ROM; [fatx_init] resets FatFs. *)
Fixpoint mount_drives (n : nat) (i : Z) (usable : Z → bool) (a : accessor) : accessor :=
  match n with
  | O => a
  | S n => mount_drives n (i + 1) usable (if usable i then (mountAll i a).2 else a)
  end.
Definition FatFS_init (fatx_init : X → X) (usable : Z → bool) (a : accessor) : accessor :=
  mount_drives 2 0 usable
    (mkAccessor (replicate MaxOpenFileCount None) (replicate MaxOpenDirCount None) (λ _ _, 0)
       ((world a).1, fatx_init (world a).2)).

(** The next mounted volume from [index] on: the next index and the name. *)
Fixpoint next_part (n : nat) (a : accessor) (index : Z) : Z * option (list Z) :=
  match n with
  | O => (-1, None)
  | S n =>
      if index <? NbDrivesSupported * NbFATXPartPerHDD then
        if 0 <? isMounted a (index / NbFATXPartPerHDD) (index mod NbFATXPartPerHDD)
        then (index + 1, Some (nth (Z.to_nat index) VolumeStr []))
        else next_part n a (index + 1)
      else (-1, None)
  end.
Definition getActivePartName (a : accessor) (index : Z) : Z * option (list Z) := next_part 15 a index.

(** ** Files *)

(** The first closed object. *)
Fixpoint unused {A} (l : list (option A)) : option nat :=
  match l with
  | [] => None
  | None :: _ => Some O
  | Some _ :: l => S <$> unused l
  end.

Definition fatxopen (path : list Z) (mode : Z) (a : accessor) : Z * accessor :=
  match unused (FileHandleArray a) with
  | None => (0, a)
  | Some i =>
      let '(result, f, w) := f_open path mode (world a) in
      let a := set_file i f (set_world w a) in
      if negb (result =? FR_OK) then (0, a) else (Z.of_nat i + 1, a)
  end.

(** [FILE_HANDLE_VALID] and [FILE_VALID]: the slot and the object of a handle go to
    [op].  A negative handle passes both tests and reads in front of the array. *)
Definition with_file {R} (a : accessor) (handle : Z) (bad : R) (op : nat → F → R) : outcome R :=
  if (handle =? 0) || (Z.of_nat MaxOpenFileCount <? handle) then Ok bad
  else if handle <? 0 then UB
  else
    let i := Z.to_nat (handle - 1) in
    match FileHandleArray a !! i with Some (Some f) => Ok (op i f) | _ => Ok bad end.

Definition fatxclose (handle : Z) (a : accessor) : outcome (Z * accessor) :=
  with_file a handle (-1, a) (λ i f,
      let '(result, f, w) := f_close f (world a) in (result, set_file i f (set_world w a))).

Definition fatxread (handle size : Z) (a : accessor) : outcome (Z * list Z * accessor) :=
  with_file a handle (-1, [], a) (λ i f,
      let '(result, out, f, w) := f_read f size (world a) in
      (if result =? FR_OK then Z.of_nat (length out) else -1, out, set_file i (Some f) (set_world w a))).

Definition fatxwrite (handle : Z) (data : list Z) (a : accessor) : outcome (Z * accessor) :=
  with_file a handle (-1, a) (λ i f,
      let '(result, bytesWrote, f, w) := f_write f data (world a) in
      (if result =? FR_OK then bytesWrote else -1, set_file i (Some f) (set_world w a))).

Definition fatxseek (handle offset : Z) (a : accessor) : outcome (Z * accessor) :=
  with_file a handle (-1, a) (λ i f,
      let '(result, f, w) := f_lseek f offset (world a) in
      (if negb (result =? FR_OK) then -1 else 0, set_file i (Some f) (set_world w a))).

Definition fatxsync (handle : Z) (a : accessor) : outcome (Z * accessor) :=
  with_file a handle (-1, a) (λ i f,
      let '(result, f, w) := f_sync f (world a) in
      (if negb (result =? FR_OK) then -1 else 0, set_file i (Some f) (set_world w a))).

Definition fatxputc (handle c : Z) (a : accessor) : outcome (Z * accessor) :=
  with_file a handle (-1, a) (λ i f, let '(r, f, w) := f_putc f c (world a) in (r, set_file i (Some f) (set_world w a))).

Definition fatxputs (sz : list Z) (handle : Z) (a : accessor) : outcome (Z * accessor) :=
  with_file a handle (-1, a) (λ i f, let '(r, f, w) := f_puts f sz (world a) in (r, set_file i (Some f) (set_world w a))).

Definition fatxgets (len handle : Z) (a : accessor) : outcome (option (list Z) * accessor) :=
  with_file a handle (None, a) (λ i f, let '(r, f, w) := f_gets f len (world a) in (r, set_file i (Some f) (set_world w a))).

Definition fatxtell (a : accessor) (handle : Z) : outcome Z :=
  with_file a handle (-1) (λ _ f, f_tell f).
Definition fatxeof (a : accessor) (handle : Z) : outcome Z :=
  with_file a handle (-1) (λ _ f, if f_eof f then 1 else 0).
Definition fatxsize (a : accessor) (handle : Z) : outcome Z :=
  with_file a handle (-1) (λ _ f, f_size f).

Definition fatxstat (a : accessor) (path : list Z) : FileInfo :=
  let '(result, getter) := f_stat path (world a) in
  if result =? FR_OK then convertToFileInfo getter else no_info.

(** ** Directories *)

Definition checked (r : Z * (hdd * X)) (a : accessor) : Z * accessor :=
  (if negb (r.1 =? FR_OK) then -1 else 0, set_world r.2 a).

Definition fatxmkdir (path : list Z) (a : accessor) : Z * accessor := checked (f_mkdir path (world a)) a.
Definition fatxdelete (path : list Z) (a : accessor) : Z * accessor := checked (f_unlink path (world a)) a.
Definition fatxchdir (path : list Z) (a : accessor) : Z * accessor := checked (f_chdir path (world a)) a.

(** The new name behind a drive prefix. *)
Definition fatxrename (path newName : list Z) (a : accessor) : Z * accessor :=
  let drive := match strchr newName 58 with Some i => drop (S i) newName | None => newName end in
  if FATX_FILENAME_MAX <? Z.of_nat (length newName) then (-1, a)
  else checked (f_rename path drive (world a)) a.

Definition fatxopendir (path : list Z) (a : accessor) : Z * accessor :=
  match unused (DirectoryHandleArray a) with
  | None => (0, a)
  | Some i =>
      let '(result, d, w) := f_opendir path (world a) in
      let a := set_dir i d (set_world w a) in
      if negb (result =? FR_OK) then (0, a) else (Z.of_nat i + 1, a)
  end.

Definition with_dir {R} (a : accessor) (handle : Z) (bad : R) (op : nat → D → R) : outcome R :=
  if (handle =? 0) || (Z.of_nat MaxOpenDirCount <? handle) then Ok bad
  else if handle <? 0 then UB
  else
    let i := Z.to_nat (handle - 1) in
    match DirectoryHandleArray a !! i with Some (Some d) => Ok (op i d) | _ => Ok bad end.

Definition fatxreaddir (handle : Z) (a : accessor) : outcome (FileInfo * accessor) :=
  with_dir a handle (no_info, a) (λ i d,
      let '(result, getter, d, w) := f_readdir d (world a) in
      (if result =? FR_OK then convertToFileInfo getter else no_info, set_dir i (Some d) (set_world w a))).

(** The handle is given out whether or not the search succeeds. *)
Definition fatxfindfirst (path pattern : list Z) (a : accessor) : Z * FileInfo * accessor :=
  match unused (DirectoryHandleArray a) with
  | None => (0, no_info, a)
  | Some i =>
      let '(result, getter, d, w) := f_findfirst path pattern (world a) in
      (Z.of_nat i + 1, if result =? FR_OK then convertToFileInfo getter else no_info, set_dir i d (set_world w a))
  end.

(** [out] is cleared once the handle is in range. *)
Definition fatxfindnext (handle : Z) (a : accessor) : outcome (Z * option FileInfo * accessor) :=
  if (handle =? 0) || (Z.of_nat MaxOpenDirCount <? handle) then Ok (-1, None, a)
  else
    with_dir a handle (-1, Some no_info, a) (λ i d,
      let '(result, getter, d, w) := f_findnext d (world a) in
      let a := set_dir i (Some d) (set_world w a) in
      if result =? FR_OK then (0, Some (convertToFileInfo getter), a) else (-1, Some no_info, a)).

Definition fatxrewinddir (handle : Z) (a : accessor) : outcome (Z * accessor) :=
  with_dir a handle (-1, a) (λ i d,
      let '(result, d, w) := f_rewinddir d (world a) in
      (if negb (result =? FR_OK) then -1 else 0, set_dir i (Some d) (set_world w a))).

Definition fatxclosedir (handle : Z) (a : accessor) : outcome (Z * accessor) :=
  with_dir a handle (-1, a) (λ i d,
      let '(result, d, w) := f_closedir d (world a) in
      (if negb (result =? FR_OK) then -1 else 0, set_dir i d (set_world w a))).

End accessor.
#[global] Arguments accessor : clear implicits.

(** ** The open files as a finite map *)

Fixpoint opened_from {A} (k : Z) (l : list (option A)) : gmap Z A :=
  match l with
  | [] => ∅
  | Some f :: l => <[k := f]> (opened_from (k + 1) l)
  | None :: l => opened_from (k + 1) l
  end.
Definition opened {A} (l : list (option A)) : gmap Z A := opened_from 1 l.

Lemma lookup_opened_from {A} (l : list (option A)) : ∀ k h,
  opened_from k l !! h = if k <=? h then l !! Z.to_nat (h - k) ≫= id else None.
Proof.
  induction l as [|o l IH]; intros k h; cbn [opened_from].
  { rewrite lookup_empty. by destruct (_ <=? _). }
  assert (k < h → (o :: l) !! Z.to_nat (h - k) = l !! Z.to_nat (h - (k + 1))) as Hs.
  { intros Hlt. by replace (Z.to_nat (h - k)) with (S (Z.to_nat (h - (k + 1)))) by lia. }
  destruct (Z.leb_spec k h) as [Hle|Hlt].
  - destruct (decide (k = h)) as [->|Hne].
    + rewrite Z.sub_diag. cbn. destruct o; [by rewrite lookup_insert_eq|]. rewrite IH.
      destruct (Z.leb_spec (h + 1) h); [lia|done].
    + rewrite Hs by lia. destruct o; [rewrite lookup_insert_ne by done|]; rewrite IH;
        destruct (Z.leb_spec (k + 1) h); done || lia.
  - destruct o; [rewrite lookup_insert_ne by lia|]; rewrite IH; destruct (Z.leb_spec (k + 1) h); done || lia.
Qed.

Lemma opened_insert {A} (l : list (option A)) i o :
  (i < length l)%nat →
  opened (<[i := o]> l) = match o with Some f => <[Z.of_nat i + 1 := f]> (opened l)
                                     | None => delete (Z.of_nat i + 1) (opened l) end.
Proof.
  intros Hi. apply map_eq. intros h. unfold opened. rewrite lookup_opened_from.
  destruct (decide (h = Z.of_nat i + 1)) as [->|Hne].
  - destruct (Z.leb_spec 1 (Z.of_nat i + 1)); [|lia]. replace (Z.to_nat (Z.of_nat i + 1 - 1)) with i by lia.
    rewrite list_lookup_insert_eq by done. destruct o; cbn; [by rewrite lookup_insert_eq|by rewrite lookup_delete_eq].
  - assert ((match o with Some f => <[Z.of_nat i + 1 := f]> (opened_from 1 l)
                        | None => delete (Z.of_nat i + 1) (opened_from 1 l) end) !! h = opened_from 1 l !! h) as ->.
    { destruct o; [by rewrite lookup_insert_ne|by rewrite lookup_delete_ne]. }
    rewrite lookup_opened_from. destruct (Z.leb_spec 1 h); [|done].
    by rewrite list_lookup_insert_ne by lia.
Qed.

(** The slot behind a handle. *)
Lemma lookup_opened {A} (l : list (option A)) h f :
  opened l !! h = Some f ↔ 1 <= h ∧ l !! Z.to_nat (h - 1) = Some (Some f).
Proof.
  unfold opened. rewrite lookup_opened_from. destruct (Z.leb_spec 1 h); [|split; [done|lia]].
  destruct (l !! Z.to_nat (h - 1)) as [[g|]|]; cbn; split; naive_solver.
Qed.

Lemma unused_spec {A} (l : list (option A)) :
  match unused l with
  | Some i => l !! i = Some None
  | None => Forall is_Some l
  end.
Proof.
  induction l as [|[f|] l IH]; cbn [unused]; [constructor| |done].
  destruct (unused l); cbn; [done|]. constructor; [done|exact IH].
Qed.

(** What a handle operation does, by the map. *)
Section handles.
Context {F D X : Type} `{!FatFs F D X}.

Lemma with_file_spec {R} (a : accessor F D X) h (bad : R) op :
  0 <= h → length (FileHandleArray a) = MaxOpenFileCount →
  with_file a h bad op =
    Ok match opened (FileHandleArray a) !! h with Some f => op (Z.to_nat (h - 1)) f | None => bad end.
Proof.
  intros Hh Hl. unfold with_file. unfold MaxOpenFileCount in *. change (5 / 2)%nat with 2%nat in *.
  destruct (opened (FileHandleArray a) !! h) as [f|] eqn:E.
  - apply lookup_opened in E as [H1 Hf]. pose proof (lookup_lt_Some _ _ _ Hf) as Hlt. rewrite Hl in Hlt.
    destruct (Z.eqb_spec h 0), (Z.ltb_spec (Z.of_nat 2) h), (Z.ltb_spec h 0); try lia. cbn [orb]. by rewrite Hf.
  - destruct (_ || _) eqn:Eo; [done|]. destruct (Z.ltb_spec h 0); [lia|].
    apply orb_false_iff in Eo as [E0%Z.eqb_neq _].
    destruct (FileHandleArray a !! Z.to_nat (h - 1)) as [[f|]|] eqn:Ef; [|done..].
    assert (opened (FileHandleArray a) !! h = Some f) as Hs
      by (apply lookup_opened; split; [lia|done]). congruence.
Qed.

Context `{!FatFsLaws F D X}.

Lemma open_spec (a : accessor F D X) path mode :
  length (FileHandleArray a) = MaxOpenFileCount →
  let r := fatxopen path mode a in
  length (FileHandleArray r.2) = MaxOpenFileCount ∧ DirectoryHandleArray r.2 = DirectoryHandleArray a ∧
  ((r.1 = 0 ∧ opened (FileHandleArray r.2) = opened (FileHandleArray a) ∧
    ((f_open path mode (world a)).1.1 = FR_OK → Forall is_Some (FileHandleArray a))) ∨
   (1 <= r.1 ∧ opened (FileHandleArray a) !! r.1 = None ∧
    ∃ f, (f_open path mode (world a)).1.2 = Some f ∧
      opened (FileHandleArray r.2) = <[r.1 := f]> (opened (FileHandleArray a)))).
Proof.
  intros Hl r. subst r. unfold fatxopen. pose proof (unused_spec (FileHandleArray a)) as Hu.
  destruct (unused (FileHandleArray a)) as [i|].
  2:{ cbn [fst snd]. split; [done|]. split; [done|]. left. done. }
  pose proof (f_open_valid path mode (world a)) as Hv.
  destruct (f_open path mode (world a)) as [[res o] w]. cbn [fst snd] in Hv.
  pose proof (lookup_lt_Some _ _ _ Hu) as Hi.
  assert (opened (FileHandleArray a) !! (Z.of_nat i + 1) = None) as Hnone.
  { apply eq_None_not_Some. intros [f [_ Hf]%lookup_opened].
    replace (Z.to_nat (Z.of_nat i + 1 - 1)) with i in Hf by lia. congruence. }
  destruct (Z.eqb_spec res FR_OK) as [Hr|Hr]; cbn [negb fst snd set_file set_world FileHandleArray DirectoryHandleArray];
    rewrite length_insert; (split; [done|]); (split; [done|]).
  - destruct (proj1 Hv Hr) as [f ->]. right. split; [lia|]. split; [done|]. exists f. split; [done|].
    by rewrite opened_insert.
  - left. split; [done|]. split; [|done]. rewrite opened_insert by done. destruct o as [f|].
    + exfalso. apply Hr, Hv. by eexists.
    + by apply delete_id.
Qed.

Lemma close_spec (a : accessor F D X) h :
  0 <= h → length (FileHandleArray a) = MaxOpenFileCount →
  ∃ r a', fatxclose h a = Ok (r, a') ∧
    (opened (FileHandleArray a) !! h = None → r = -1 ∧ a' = a) ∧
    (is_Some (opened (FileHandleArray a) !! h) → r = FR_OK →
     opened (FileHandleArray a') = delete h (opened (FileHandleArray a))).
Proof.
  intros Hh Hl. unfold fatxclose. rewrite with_file_spec by done.
  destruct (opened (FileHandleArray a) !! h) as [f|] eqn:E.
  - pose proof (f_close_valid f (world a)) as Hc. destruct (f_close f (world a)) as [[r o] w]. cbn [fst snd] in Hc.
    eexists r, _. split; [done|]. split; [done|]. intros _ Hr. rewrite (Hc Hr).
    apply lookup_opened in E as [H1 Hf]. pose proof (lookup_lt_Some _ _ _ Hf) as Hi.
    cbn [set_file set_world FileHandleArray]. rewrite opened_insert by done. f_equal. lia.
  - eexists _, _. split; [done|]. split; [done|]. by intros [? ?].
Qed.

(** An operation on a file that stays open changes that file only. *)
Lemma read_spec (a : accessor F D X) h n :
  0 <= h → length (FileHandleArray a) = MaxOpenFileCount →
  ∃ r out a', fatxread h n a = Ok (r, out, a') ∧
    match opened (FileHandleArray a) !! h with
    | None => r = -1 ∧ a' = a
    | Some f =>
        let '(res, data, f', w) := f_read f n (world a) in
        (res = FR_OK → r = Z.of_nat (length data) ∧ out = data) ∧ (res ≠ FR_OK → r = -1) ∧
        opened (FileHandleArray a') = <[h := f']> (opened (FileHandleArray a))
    end.
Proof.
  intros Hh Hl. unfold fatxread. rewrite with_file_spec by done.
  destruct (opened (FileHandleArray a) !! h) as [f|] eqn:E; [|by eexists _, _, _].
  destruct (f_read f n (world a)) as [[[res data] f'] w]. eexists _, _, _. split; [done|].
  apply lookup_opened in E as [H1 Hf]. pose proof (lookup_lt_Some _ _ _ Hf) as Hi.
  split; [by intros ->|]. split; [by destruct (Z.eqb_spec res FR_OK)|].
  cbn [set_file set_world FileHandleArray]. rewrite opened_insert by done. f_equal. lia.
Qed.

End handles.

(** ** Property *)

(** C35: handles are a finite map to open files.  [fatxopen] gives a handle that
    was not in use and binds it to the opened file, or gives 0 and changes no
    file, which happens only if FatFs refuses or both slots are taken;
    [fatxclose] removes its file from the map, [fatxread] reads and replaces the
    file of its handle; all other files stay as they are, and a handle that is
    not open gives -1. *)
Theorem handles_are_a_map {F D X : Type} `{!FatFs F D X} `{!FatFsLaws F D X} (a : accessor F D X) path mode h n :
  0 <= h → length (FileHandleArray a) = MaxOpenFileCount →
  (let r := fatxopen path mode a in
   length (FileHandleArray r.2) = MaxOpenFileCount ∧ DirectoryHandleArray r.2 = DirectoryHandleArray a ∧
   ((r.1 = 0 ∧ opened (FileHandleArray r.2) = opened (FileHandleArray a) ∧
     ((f_open path mode (world a)).1.1 = FR_OK → Forall is_Some (FileHandleArray a))) ∨
    (1 <= r.1 ∧ opened (FileHandleArray a) !! r.1 = None ∧
     ∃ f, (f_open path mode (world a)).1.2 = Some f ∧
       opened (FileHandleArray r.2) = <[r.1 := f]> (opened (FileHandleArray a))))) ∧
  (∃ r a', fatxclose h a = Ok (r, a') ∧
    (opened (FileHandleArray a) !! h = None → r = -1 ∧ a' = a) ∧
    (is_Some (opened (FileHandleArray a) !! h) → r = FR_OK →
     opened (FileHandleArray a') = delete h (opened (FileHandleArray a)))) ∧
  (∃ r out a', fatxread h n a = Ok (r, out, a') ∧
    match opened (FileHandleArray a) !! h with
    | None => r = -1 ∧ a' = a
    | Some f =>
        let '(res, data, f', w) := f_read f n (world a) in
        (res = FR_OK → r = Z.of_nat (length data) ∧ out = data) ∧ (res ≠ FR_OK → r = -1) ∧
        opened (FileHandleArray a') = <[h := f']> (opened (FileHandleArray a))
    end).
Proof. intros Hh Hl. split; [by apply open_spec|]. split; [by apply close_spec|by apply read_spec]. Qed.

(** A file system of one file of three octets; an object is the position. *)
#[local] Instance toy : FatFs nat unit unit := {
  f_mount _ w := (0, 1, w);
  f_open _ _ w := (0, Some O, w);
  f_close _ w := (0, None, w);
  f_read f n w := (0, take (Z.to_nat n) (drop f [7; 8; 9]), (f + Z.to_nat n)%nat, w);
  f_write f _ w := (0, 0, f, w);
  f_lseek _ n w := (0, Z.to_nat n, w);
  f_sync f w := (0, f, w);
  f_tell f := Z.of_nat f;
  f_size _ := 3;
  f_eof f := (3 <=? f)%nat;
  f_stat _ _ := (FR_NO_FILE, mkFilinfo 0 0 0 0 0 []);
  f_mkdir _ w := (0, w);
  f_unlink _ w := (0, w);
  f_rename _ _ w := (0, w);
  f_chdir _ w := (0, w);
  f_opendir _ w := (0, Some tt, w);
  f_readdir d w := (0, mkFilinfo 0 0 0 0 0 [], d, w);
  f_findfirst _ _ w := (0, mkFilinfo 0 0 0 0 0 [], Some tt, w);
  f_findnext d w := (0, mkFilinfo 0 0 0 0 0 [], d, w);
  f_rewinddir d w := (0, d, w);
  f_closedir _ w := (0, None, w)
}.
#[local] Instance toy_laws : FatFsLaws nat unit unit.
Proof. split; intros; cbn; try done; split; done. Qed.

(** One file is open; the next gets handle 2, reading handle 1 gives two octets. *)
Lemma handles_are_a_map_witness :
  let a : accessor nat unit unit := mkAccessor [Some 1%nat; None] [None; None] (λ _ _, 0) (sample_hdd, tt) in
  (fatxopen [47] 1 a).1 = 2 ∧ ∃ a', fatxread 1 5 a = Ok (2, [8; 9], a').
Proof.
  intros a. destruct (handles_are_a_map a [47] 1 1 5) as (Ho & _ & r & out & a' & Hr & Hm).
  - lia.
  - reflexivity.
  - split.
    + destruct Ho as (_ & _ & [(_ & _ & Hfull)|(H1 & _)]); [exfalso|reflexivity].
      specialize (Hfull eq_refl). apply Forall_cons_1 in Hfull as [_ Hfull]. apply Forall_cons_1 in Hfull as [[? Hs] _].
      discriminate Hs.
    + change (opened (FileHandleArray a) !! 1) with (Some 1%nat) in Hm. cbv beta iota in Hm.
      destruct Hm as (Hd & _ & _). destruct (Hd eq_refl) as [-> ->]. exists a'. exact Hr.
Defined.

End FatFiles.
