(* ===== verification/VirtualRoot.v ===== *)
(** * The root above the volumes ([src/fs/VirtualRoot/VirtualRoot.c])

    The FTP server sees one tree whose first level are the mounted volumes.  The
    file system below is the interface [ChildFS], as the structure [ChildFS_t] of
    the source; the accessor of FatFs is its instance.  A path is a C string; the
    buffers for paths have 259 and 300 octets, and what does not fit is undefined. *)

From Stdlib Require Import String.
From S2P Require Import Prelude Strtol Format Strings Partition FatFiles.

Module VirtualRoot.
Import Format(text).
Import Strtol(at_).
Import Strings(strrchr).
Import FatFiles.

Abbreviation length := List.length.

Class ChildFS (A : Type) := {
  fs_getEntryName : Z → A → Z * option (list Z);
  fs_open : list Z → Z → A → Z * A;
  fs_read : Z → Z → A → outcome (Z * list Z * A);
  fs_write : Z → list Z → A → outcome (Z * A);
  fs_close : Z → A → outcome (Z * A);
  fs_eof : Z → A → outcome Z;
  fs_stat : list Z → A → FileInfo;
  fs_rename : list Z → list Z → A → Z * A;
  fs_mkdir : list Z → A → Z * A;
  fs_remove : list Z → A → Z * A;
  fs_chdir : list Z → A → Z * A;
  fs_opendir : list Z → A → Z * A;
  fs_readdir : Z → A → outcome (FileInfo * A);
  fs_closedir : Z → A → outcome (Z * A)
}.

(** [VirtualRootInit] fills the structure with the functions of the accessor. *)
#[export] Instance FatFSAccess {F D X : Type} `{!FatFs F D X} : ChildFS (accessor F D X) := {
  fs_getEntryName i a := getActivePartName a i;
  fs_open := fatxopen;
  fs_read := fatxread;
  fs_write := fatxwrite;
  fs_close := fatxclose;
  fs_eof h a := fatxeof a h;
  fs_stat path a := fatxstat a path;
  fs_rename := fatxrename;
  fs_mkdir := fatxmkdir;
  fs_remove := fatxdelete;
  fs_chdir := fatxchdir;
  fs_opendir := fatxopendir;
  fs_readdir := fatxreaddir;
  fs_closedir := fatxclosedir
}.

Definition cPathSep : Z := 47.
Definition PathSep : list Z := [cPathSep].
Definition MaxPathLength : Z := 255.
(** A character constant has the size of an [int]. *)
Definition sizeof_cPathSep : nat := 4.
Definition sizeof_cwd : Z := MaxPathLength + 4.
Definition sizeof_workPath : Z := 300.
Definition VirtualRootDirHandle : Z := 2 ^ 31 - 1.

Section root.
Context {A : Type} `{!ChildFS A}.

(** [inside]: [currentAccessor] is not null. *)
Record vroot := mkRoot {
  inside : bool;
  cwd : list Z;
  virtualRootCycler : Z;
  fs : A
}.

Definition set_fs (a : A) (v : vroot) : vroot := mkRoot (inside v) (cwd v) (virtualRootCycler v) a.

Definition VirtualRootInit (a : A) : vroot := mkRoot false PathSep 0 a.

(** [strcpy] or [sprintf] into a buffer. *)
Definition fill (size : Z) (s : list Z) : outcome (list Z) :=
  if Z.of_nat (length s) <? size then Ok s else UB.

Definition ends_with_sep (s : list Z) : bool :=
  (0 <? length s)%nat && (nth (length s - 1) s 0 =? cPathSep).

Definition combinePath (v : vroot) (add : list Z) : outcome (list Z) :=
  fill sizeof_workPath
    (if ends_with_sep (cwd v) then cwd v ++ add else cwd v ++ PathSep ++ add).

(** ** Files *)

Definition vroot_open (path : list Z) (mode : Z) (v : vroot) : outcome (Z * vroot) :=
  workPath ← combinePath v path;
  if inside v then let '(h, a) := fs_open workPath mode (fs v) in Ok (h, set_fs a v) else Ok (0, v).

Definition vroot_read (handle size : Z) (v : vroot) : outcome (Z * list Z * vroot) :=
  if inside v then '(r, out, a) ← fs_read handle size (fs v); Ok (r, out, set_fs a v) else Ok (-1, [], v).

Definition vroot_write (handle : Z) (data : list Z) (v : vroot) : outcome (Z * vroot) :=
  if inside v then '(r, a) ← fs_write handle data (fs v); Ok (r, set_fs a v) else Ok (-1, v).

Definition vroot_close (handle : Z) (v : vroot) : outcome vroot :=
  if inside v then '(_, a) ← fs_close handle (fs v); Ok (set_fs a v) else Ok v.

Definition vroot_eof (handle : Z) (v : vroot) : outcome Z :=
  if inside v then fs_eof handle (fs v) else Ok (-1).

Definition FileAttr_root : Z := 0x10 .| 0x01 .| 0x04.

(** In the root the name is the path, copied into 42 octets; what follows it is
    not used, and zero here. *)
Definition vroot_stat (path : list Z) (v : vroot) : outcome FileInfo :=
  if inside v then workPath ← combinePath v path; Ok (fs_stat workPath (fs v))
  else
    name ← fill 42 path;
    Ok (mkInfo (name ++ replicate (42 - length name) 0) (Z.of_nat (length name)) 0 FileAttr_root 0 0).

Definition vroot_rename (path newName : list Z) (v : vroot) : Z * vroot :=
  if inside v then let '(r, a) := fs_rename path newName (fs v) in (r, set_fs a v) else (-1, v).
Definition vroot_mkdir (path : list Z) (v : vroot) : Z * vroot :=
  if inside v then let '(r, a) := fs_mkdir path (fs v) in (r, set_fs a v) else (-1, v).
Definition vroot_remove (path : list Z) (v : vroot) : Z * vroot :=
  if inside v then let '(r, a) := fs_remove path (fs v) in (r, set_fs a v) else (-1, v).

(** ** The current directory *)

Definition to_root (v : vroot) : vroot := mkRoot false PathSep (virtualRootCycler v) (fs v).
Definition enter (path : list Z) (a : A) (v : vroot) : outcome vroot :=
  path ← fill sizeof_cwd path; Ok (mkRoot true path (virtualRootCycler v) a).

Definition pathProcess_Absolute (path : list Z) (v : vroot) : outcome (Z * vroot) :=
  if at_ path 1 =? 0 then Ok (0, to_root v)
  else
    let '(result, a) := fs_chdir path (fs v) in
    if result =? 0 then v ← enter path a v; Ok (0, v) else Ok (-1, set_fs a v).

Definition pathProcess_GoingForward (path : list Z) (v : vroot) : outcome (Z * vroot) :=
  if negb (at_ path 0 =? cPathSep) then
    workPath ← combinePath v path;
    let '(result, a) := fs_chdir workPath (fs v) in
    if result =? 0 then v ← enter workPath a v; Ok (0, v) else Ok (-1, set_fs a v)
  else Ok (-1, v).

(** The last separator at or behind offset 4.  The string must reach that far,
    what follows it in the buffer was never set. *)
Definition last_sep (workPath : list Z) : outcome (option nat) :=
  if (length workPath <? sizeof_cPathSep)%nat then UB
  else Ok ((λ i, sizeof_cPathSep + i)%nat <$> strrchr (drop sizeof_cPathSep workPath) cPathSep).

Definition pathProcess_GoingBack (v : vroot) : outcome (Z * vroot) :=
  sepPos ← last_sep (cwd v);
  match sepPos with
  | None => Ok (-1, v)
  | Some i =>
      let workPath := take i (cwd v) in
      sepPos ← last_sep workPath;
      match sepPos with
      | None => Ok (0, to_root v)
      | Some j =>
          let workPath := take (S j) workPath in
          if inside v then
            let '(result, a) := fs_chdir workPath (fs v) in
            if result =? 0 then v ← enter workPath a v; Ok (-1, v) else Ok (-1, to_root (set_fs a v))
          else Ok (-1, v)
      end
  end.

Definition vroot_cd (path : list Z) (v : vroot) : outcome (Z * vroot) :=
  if MaxPathLength <? Z.of_nat (length path) then Ok (-1, v)
  else if at_ path 0 =? cPathSep then pathProcess_Absolute path v
  else if bool_decide (path = text "..") then pathProcess_GoingBack v
  else pathProcess_GoingForward path v.

Definition vroot_getcwd (v : vroot) : list Z := cwd v.

(** ** Directories *)

Definition vroot_opendir (path : list Z) (v : vroot) : Z * vroot :=
  if inside v then let '(h, a) := fs_opendir path (fs v) in (h, set_fs a v) else (VirtualRootDirHandle, v).

(** In the root the entries are the names of the mounted volumes. *)
Definition vroot_readdir (handle : Z) (v : vroot) : outcome (FileInfo * vroot) :=
  if negb (handle =? VirtualRootDirHandle) && inside v then
    '(i, a) ← fs_readdir handle (fs v); Ok (i, set_fs a v)
  else
    let info name := mkInfo (name ++ replicate (42 - length name) 0) (Z.of_nat (length name)) 0 FileAttr_root 0 0 in
    if handle =? VirtualRootDirHandle then
      let '(next, string) := fs_getEntryName (virtualRootCycler v) (fs v) in
      let v := mkRoot (inside v) (cwd v) (u8 next) (fs v) in
      match string with
      | Some string => name ← fill 42 string; Ok (info name, v)
      | None => Ok (info [], v)
      end
    else Ok (info [], v).

Definition vroot_closedir (handle : Z) (v : vroot) : outcome vroot :=
  if inside v then '(_, a) ← fs_closedir handle (fs v); Ok (set_fs a v)
  else Ok (mkRoot (inside v) (cwd v) 0 (fs v)).

End root.
#[global] Arguments vroot : clear implicits.

(** ** Paths *)

Section theorems.
Context {A : Type} `{!ChildFS A}.
Implicit Types v : vroot A.

(** The current directory is an absolute path that fits its buffer, and it is the
    root when no file system is entered. *)
Definition root_ok v : Prop :=
  (∃ rest, cwd v = cPathSep :: rest) ∧ Z.of_nat (length (cwd v)) < sizeof_cwd ∧ (inside v = false → cwd v = PathSep).

Lemma to_root_ok v : root_ok (to_root v).
Proof. split; [by exists []|]. split; done. Qed.

Lemma combine_abs v add p : root_ok v → combinePath v add = Ok p → ∃ rest, p = cPathSep :: rest.
Proof.
  intros [[rest Hc] _]. unfold combinePath, fill. destruct (_ <? _); [|done]. rewrite Hc.
  intros [= <-]. destruct (ends_with_sep _); eauto.
Qed.

Lemma take_abs v n : root_ok v → ∃ rest, take (S n) (cwd v) = cPathSep :: rest.
Proof. intros [[rest ->] _]. eauto. Qed.

(** Where the last separator is. *)
Lemma strrchr_last s c i : strrchr s c = Some i → u8 c ≠ 0 → (i < length s)%nat.
Proof.
  unfold strrchr. intros E Hc. pose proof (Strings.memrchr_last s c (length s + 1)) as H. rewrite E in H.
  destruct H as (Hi & Hs & _). destruct (decide (i = length s)) as [->|]; [|lia].
  exfalso. apply Hc. rewrite <- Hs. unfold at_. by rewrite nth_overflow.
Qed.

Lemma strrchr_app x y c : 0 < c < 256 → c ∉ y → strrchr (x ++ c :: y) c = Some (length x).
Proof.
  intros Hc Hy. assert (u8 c = c) as Hu by (apply u8_id; unfold byte; lia).
  unfold strrchr. pose proof (Strings.memrchr_last (x ++ c :: y) c (length (x ++ c :: y) + 1)) as H.
  rewrite Hu in H. rewrite length_app in H |- *. cbn [List.length] in *.
  assert (at_ (x ++ c :: y) (length x) = c) as Hx by (unfold at_; by rewrite nth_middle).
  destruct (Strings.memrchr _ _ _) as [i|]; [|exfalso; by apply (H (length x) ltac:(lia))].
  destruct H as (Hi & Hat & Hlast). f_equal.
  destruct (decide (i < length x)%nat) as [Hlt|Hge]; [exfalso; by apply (Hlast (length x) ltac:(lia))|].
  destruct (decide (i = length x)) as [->|Hne]; [done|]. exfalso. apply Hy.
  unfold at_ in Hat. rewrite app_nth2 in Hat by lia.
  destruct (i - length x)%nat as [|k] eqn:Ek; [lia|]. cbn [nth] in Hat.
  destruct (decide (k < length y)%nat) as [Hk|Hk]; [|rewrite nth_overflow in Hat by lia; lia].
  rewrite <- Hat. apply list_elem_of_In. by apply nth_In.
Qed.

Lemma last_sep_range p i : last_sep p = Ok (Some i) → (4 <= i < length p)%nat.
Proof.
  unfold last_sep, sizeof_cPathSep. destruct (Nat.ltb_spec (length p) 4); [done|]. intros [= E].
  destruct (strrchr (drop 4 p) cPathSep) as [k|] eqn:Ek; [|done]. injection E as <-.
  apply strrchr_last in Ek; [|done]. rewrite length_drop in Ek. lia.
Qed.

Lemma last_sep_app x y :
  (4 <= length x)%nat → cPathSep ∉ y → last_sep (x ++ cPathSep :: y) = Ok (Some (length x)).
Proof.
  intros Hx Hy. unfold last_sep, sizeof_cPathSep.
  destruct (Nat.ltb_spec (length (x ++ cPathSep :: y)) 4) as [Hl|_]; [rewrite length_app in Hl; lia|].
  rewrite drop_app_le by lia. rewrite strrchr_app by done. cbn. do 2 f_equal. rewrite length_drop. lia.
Qed.

Lemma enter_fits path a v :
  Z.of_nat (length path) < sizeof_cwd → enter path a v = Ok (mkRoot true path (virtualRootCycler v) a).
Proof. intros H. unfold enter, fill. by destruct (Z.ltb_spec (Z.of_nat (length path)) sizeof_cwd); [|lia]. Qed.

(** Entering a directory of the file system below. *)
Lemma chdir_ok path v :
  root_ok v → (∃ rest, path = cPathSep :: rest) → Z.of_nat (length path) < sizeof_cwd →
  ∃ r v', (let '(result, a) := fs_chdir path (fs v) in
           if result =? 0 then v ← enter path a v; Ok (0, v) else Ok (-1, set_fs a v)) = Ok (r, v') ∧ root_ok v' ∧
    (r = 0 → cwd v' = path).
Proof.
  intros Hv Hp Hl. destruct (fs_chdir path (fs v)) as [res a]. destruct (res =? 0); [|by eexists _, _].
  rewrite enter_fits, bind_ok by done. eexists _, _. split; [done|]. split; [|done]. by split.
Qed.

Lemma back_ok v :
  root_ok v → (4 <= length (cwd v))%nat → ∃ r v', pathProcess_GoingBack v = Ok (r, v') ∧ root_ok v'.
Proof.
  intros Hv Hl. unfold pathProcess_GoingBack.
  assert (∃ o, last_sep (cwd v) = Ok o) as [o Ho].
  { unfold last_sep, sizeof_cPathSep. destruct (Nat.ltb_spec (length (cwd v)) 4); [lia|]. by eexists. }
  rewrite Ho, bind_ok. destruct o as [i|]; [|by eexists _, _]. pose proof (last_sep_range _ _ Ho) as Hi.
  assert (∃ o, last_sep (take i (cwd v)) = Ok o) as [o Ho'].
  { unfold last_sep, sizeof_cPathSep. destruct (Nat.ltb_spec (length (take i (cwd v))) 4) as [H4|]; [|by eexists].
    rewrite length_take in H4. lia. }
  rewrite Ho', bind_ok. destruct o as [j|]; [|eexists _, _; split; [done|apply to_root_ok]].
  pose proof (last_sep_range _ _ Ho') as Hj. rewrite length_take in Hj.
  destruct (inside v); [|by eexists _, _]. rewrite take_take.
  destruct (take_abs v (Nat.min (S j) i - 1) Hv) as [rest Hr].
  replace (S (Nat.min (S j) i - 1)) with (Nat.min (S j) i) in Hr by lia.
  destruct (fs_chdir _ (fs v)) as [res a]. destruct (res =? 0); [|eexists _, _; split; [done|apply to_root_ok]].
  destruct Hv as (_ & Hlen & _).
  rewrite enter_fits, bind_ok by (rewrite length_take; lia). eexists _, _. split; [done|].
  split; [by exists rest|]. split; [cbn; rewrite length_take; lia|done].
Qed.

Lemma cd_total path v :
  root_ok v → (path = text ".." → (4 <= length (cwd v))%nat) →
  Z.of_nat (length (cwd v)) + Z.of_nat (length path) + 1 < sizeof_cwd →
  ∃ r v', vroot_cd path v = Ok (r, v') ∧ root_ok v'.
Proof.
  intros Hv Hback Hl. unfold vroot_cd, MaxPathLength, sizeof_cwd, MaxPathLength in *.
  destruct (Z.ltb_spec 255 (Z.of_nat (length path))); [by eexists _, _|].
  destruct (Z.eqb_spec (at_ path 0) cPathSep) as [Hs|Hs].
  - unfold pathProcess_Absolute. destruct (_ =? 0); [eexists _, _; split; [done|apply to_root_ok]|].
    destruct (chdir_ok path v Hv) as (r & v' & E & Hv' & _); [|unfold sizeof_cwd, MaxPathLength; lia|by eexists _, _].
    destruct path as [|c path]; [done|]. exists path. by rewrite <- Hs.
  - case_bool_decide as Hp; [apply back_ok; auto|]. unfold pathProcess_GoingForward.
    destruct (Z.eqb_spec (at_ path 0) cPathSep); [done|]. cbn [negb].
    assert (∃ p, combinePath v path = Ok p ∧ Z.of_nat (length p) < 259) as (p & Hc & Hlp).
    { unfold combinePath, fill, sizeof_workPath.
      assert (Z.of_nat (length (if ends_with_sep (cwd v) then cwd v ++ path else cwd v ++ PathSep ++ path)) < 259) as Hlen.
      { destruct (ends_with_sep (cwd v)); rewrite !length_app; cbn [List.length PathSep]; lia. }
      destruct (Z.ltb_spec (Z.of_nat (length (if ends_with_sep (cwd v) then cwd v ++ path else cwd v ++ PathSep ++ path))) 300);
        [by eexists|lia]. }
    rewrite Hc, bind_ok. destruct (chdir_ok p v Hv) as (r & v' & E & Hv' & _);
      [by eapply combine_abs|unfold sizeof_cwd, MaxPathLength; lia|by eexists _, _].
Qed.



End theorems.

(** ** Properties *)

(** Changing the directory never runs over a buffer and keeps the state
    consistent, as long as the current path and the new part together stay below
    258 characters and [..] is used below the root: the directory remains an
    absolute path that fits its buffer, and it is the root exactly while no file
    system is entered. *)
Theorem vroot_cd_keeps_root {A : Type} `{!ChildFS A} (path : list Z) (v : vroot A) :
  root_ok v → (path = text ".." → (4 <= length (cwd v))%nat) →
  Z.of_nat (length (cwd v)) + Z.of_nat (length path) + 1 < sizeof_cwd →
  ∃ r v', vroot_cd path v = Ok (r, v') ∧ root_ok v'.
Proof. apply cd_total. Qed.

(** A file system in which every directory exists. *)
#[local] Instance toy_child : ChildFS unit := {
  fs_getEntryName _ _ := (-1, None);
  fs_open _ _ a := (0, a);
  fs_read _ _ a := Ok (0, [], a);
  fs_write _ _ a := Ok (0, a);
  fs_close _ a := Ok (0, a);
  fs_eof _ _ := Ok 0;
  fs_stat _ _ := no_info;
  fs_rename _ _ a := (0, a);
  fs_mkdir _ a := (0, a);
  fs_remove _ a := (0, a);
  fs_chdir _ a := (0, a);
  fs_opendir _ a := (0, a);
  fs_readdir _ a := Ok (no_info, a);
  fs_closedir _ a := Ok (0, a)
}.

Lemma vroot_cd_keeps_root_witness :
  ∃ v', vroot_cd (text "MASTER_C") (VirtualRootInit tt) = Ok (0, v') ∧ root_ok v'.
Proof.
  destruct (vroot_cd_keeps_root (text "MASTER_C") (VirtualRootInit tt)) as (r & v' & E & Hv).
  - split; [by exists []|]. by split.
  - discriminate.
  - vm_compute. reflexivity.
  - exists v'. rewrite E. split; [|exact Hv]. vm_compute in E. injection E as <- _. reflexivity.
Defined.

(** Going up fails two ways: from [p/a/b] the directory becomes [p/], two
    levels up, when the file system has it, and the result says that the change
    failed. *)
Theorem cd_up_skips_a_level {A : Type} `{!ChildFS A} (v : vroot A) p a b w :
  inside v = true → cwd v = p ++ cPathSep :: a ++ cPathSep :: b → (4 <= length p)%nat →
  cPathSep ∉ a → cPathSep ∉ b → Z.of_nat (length (cwd v)) < sizeof_cwd →
  fs_chdir (p ++ PathSep) (fs v) = (0, w) →
  vroot_cd (text "..") v = Ok (-1, mkRoot true (p ++ PathSep) (virtualRootCycler v) w).
Proof.
  intros Hin Hc Hp Ha Hb Hl Hd. unfold vroot_cd. rewrite bool_decide_true by done.
  change (MaxPathLength <? Z.of_nat (length (text ".."))) with false.
  change (at_ (text "..") 0 =? cPathSep) with false. cbv iota.
  unfold pathProcess_GoingBack. rewrite Hc in *.
  replace (p ++ cPathSep :: a ++ cPathSep :: b) with ((p ++ cPathSep :: a) ++ cPathSep :: b) by (by rewrite <- app_assoc).
  rewrite last_sep_app by (rewrite ?length_app; done || lia). rewrite bind_ok, take_app_length.
  rewrite last_sep_app, bind_ok by done. rewrite Hin.
  replace (S (length p)) with (length (p ++ PathSep)) by (rewrite length_app; cbn; lia).
  replace (p ++ cPathSep :: a) with ((p ++ PathSep) ++ a) by (by rewrite <- app_assoc).
  rewrite take_app_length, Hd. cbn [Z.eqb]. rewrite enter_fits; [done|].
  rewrite !length_app in *. cbn [List.length PathSep] in *. rewrite ?length_app in Hl. lia.
Qed.

(** From [/MASTER_C/games/halo] to [/MASTER_C/]. *)
Lemma cd_up_skips_a_level_witness :
  vroot_cd (text "..") (mkRoot true (text "/MASTER_C/games/halo") 0 tt) =
    Ok (-1, mkRoot true (text "/MASTER_C/") 0 tt).
Proof.
  apply (cd_up_skips_a_level (mkRoot true (text "/MASTER_C/games/halo") 0 tt)
           (text "/MASTER_C") (text "games") (text "halo") tt).
  - reflexivity.
  - reflexivity.
  - vm_compute. lia.
  - apply (bool_decide_unpack _). vm_compute. exact I.
  - apply (bool_decide_unpack _). vm_compute. exact I.
  - vm_compute. reflexivity.
  - reflexivity.
Defined.

End VirtualRoot.
