(* ===== verification/FatStore.v ===== *)
(** * What the files of a volume hold

    [FatFsFiles] states what FatFs documents about the contents of files: an
    object open for reading has the octets of its file and a position, an object
    open for writing collects octets that are in the file once it is closed, and
    a file that is open can be neither created, removed nor renamed
    ([FF_FS_LOCK]).  The laws are for the paths that are [known] to name
    different files of a directory, and for a volume on which files of up to
    [room] octets can be written.  From them this file derives what the operations
    by handle of [FatFiles] do, and what reading and writing texts means.  A
    volume in memory satisfies the laws. *)

From Stdlib Require Import String.
From stdpp Require Import gmap.
From S2P Require Import Prelude Strings Partition FatFiles.

Module FatStore.
Import Partition(FR_OK, FR_NO_FILE, hdd, sample_hdd).
Import FatFiles.
Import Strings(strchr).

Abbreviation length := List.length.
Abbreviation path := (list Z).

(** An open object. *)
Record view := mkView { vpath : path; vpos : Z; vdata : list Z; vwrite : bool }.

Class FatFsFiles (F D X : Type) `{!FatFs F D X} (known : path → Prop) (room : Z) := {
  store : hdd * X → gmap path (list Z);
  held : hdd * X → list path;
  look : F → view;
  open_read p c w :
    known p → store w !! p = Some c →
    ∃ f w', f_open p 1 w = (FR_OK, Some f, w') ∧ look f = mkView p 0 c false ∧
      store w' = store w ∧ held w' = p :: held w;
  open_missing p w :
    known p → store w !! p = None → p ∉ held w →
    ∃ r w', f_open p 1 w = (r, None, w') ∧ r ≠ FR_OK ∧ store w' = store w ∧ held w' = held w;
  open_create p w :
    known p → p ∉ held w →
    ∃ f w', f_open p 10 w = (FR_OK, Some f, w') ∧ look f = mkView p 0 [] true ∧
      store w' = delete p (store w) ∧ held w' = p :: held w;
  close_file f w :
    vpath (look f) ∈ held w →
    ∃ w', f_close f w = (FR_OK, None, w') ∧
      store w' = (if vwrite (look f) then <[vpath (look f) := vdata (look f)]> (store w) else store w) ∧
      held w ≡ₚ vpath (look f) :: held w';
  read_file f n w :
    vwrite (look f) = false → 0 <= n → 0 <= vpos (look f) →
    let out := take (Z.to_nat n) (drop (Z.to_nat (vpos (look f))) (vdata (look f))) in
    ∃ f' w', f_read f n w = (FR_OK, out, f', w') ∧
      look f' = mkView (vpath (look f)) (vpos (look f) + Z.of_nat (length out)) (vdata (look f)) false ∧
      store w' = store w ∧ held w' = held w;
  write_file f data w :
    vwrite (look f) = true → vpos (look f) = Z.of_nat (length (vdata (look f))) →
    vpos (look f) + Z.of_nat (length data) <= room →
    ∃ f' w', f_write f data w = (FR_OK, Z.of_nat (length data), f', w') ∧
      look f' = mkView (vpath (look f)) (vpos (look f) + Z.of_nat (length data)) (vdata (look f) ++ data) true ∧
      store w' = store w ∧ held w' = held w;
  seek_file f n w :
    vwrite (look f) = false → 0 <= n <= Z.of_nat (length (vdata (look f))) →
    ∃ f' w', f_lseek f n w = (FR_OK, f', w') ∧ look f' = mkView (vpath (look f)) n (vdata (look f)) false ∧
      store w' = store w ∧ held w' = held w;
  tell_file f : f_tell f = vpos (look f);
  size_file f : f_size f = Z.of_nat (length (vdata (look f)));
  eof_file f : f_eof f = (vpos (look f) =? Z.of_nat (length (vdata (look f))));
  stat_file p c w :
    known p → store w !! p = Some c →
    ∃ i, f_stat p w = (FR_OK, i) ∧ fsize i = Z.of_nat (length c) ∧ fattrib i .& 0x10 = 0 ∧
      1 <= namelength i <= 42 ∧ Z.of_nat (length (fnamex i)) = namelength i ∧ Forall (λ x, x ≠ 0) (fnamex i);
  unlink_file p w :
    known p → p ∉ held w → is_Some (store w !! p) →
    ∃ w', f_unlink p w = (FR_OK, w') ∧ store w' = delete p (store w) ∧ held w' = held w;
  rename_file p q c w :
    known p → known q → p ∉ held w → q ∉ held w → store w !! p = Some c → store w !! q = None →
    ∃ w', f_rename p q w = (FR_OK, w') ∧ store w' = <[q := c]> (delete p (store w)) ∧ held w' = held w
}.

(** ** Texts in files *)

(** The octets [f_gets] consumes from [c] for at most [lim] characters. *)
Fixpoint cut (lim : nat) (c : list Z) : list Z :=
  match c with
  | [] => []
  | x :: c' =>
      match lim with
      | O => []
      | S lim' => if x =? 13 then x :: cut lim c' else if x =? 10 then [x] else x :: cut lim' c'
      end
  end.

(** The characters of octets, and the octets of a text. *)
Definition chars (raw : list Z) : list Z := filter (λ x, x ≠ 13) raw.
Definition crlf (t : list Z) : list Z := flat_map (λ x, if x =? 10 then [13; 10] else [u8 x]) t.

Lemma chars_app l k : chars (l ++ k) = chars l ++ chars k.
Proof. apply list.filter_app. Qed.

Lemma crlf_app s t : crlf (s ++ t) = crlf s ++ crlf t.
Proof. apply flat_map_app. Qed.

Lemma crlf_length t : (length t <= length (crlf t) <= 2 * length t)%nat.
Proof.
  induction t as [|x t IH]; [done|]. unfold crlf in *. cbn [flat_map]. rewrite length_app.
  destruct (x =? 10); cbn [length]; lia.
Qed.

(** A text without carriage returns survives. *)
Lemma chars_crlf t : Forall (λ x, byte x ∧ x ≠ 13) t → chars (crlf t) = t.
Proof.
  induction 1 as [|x t [Hb Hx] _ IH]; [done|]. unfold crlf in *. cbn [flat_map]. rewrite chars_app, IH.
  destruct (Z.eqb_spec x 10) as [->|]; [done|]. rewrite (u8_id _ Hb). unfold chars. by rewrite filter_cons_True.
Qed.

Lemma cut_prefix lim : ∀ c, ∃ rest, c = cut lim c ++ rest.
Proof.
  intros c. revert lim. induction c as [|x c IH]; intros lim; [by exists []|]. cbn [cut].
  destruct lim as [|lim]; [by eexists|]. destruct (x =? 13).
  - destruct (IH (S lim)) as [r Hr]. exists r. cbn. by rewrite <- Hr.
  - destruct (x =? 10); [by exists c|]. destruct (IH lim) as [r Hr]. exists r. cbn. by rewrite <- Hr.
Qed.

Lemma cut_length lim c : (length (cut lim c) <= length c)%nat.
Proof. destruct (cut_prefix lim c) as [r Hr]. rewrite Hr at 2. rewrite length_app. lia. Qed.

Lemma cut_chars lim : ∀ c, (length (chars (cut lim c)) <= lim)%nat.
Proof.
  intros c. revert lim. induction c as [|x c IH]; intros lim; [cbn; lia|]. cbn [cut].
  destruct lim as [|lim]; [cbn; lia|]. unfold chars in *. destruct (Z.eqb_spec x 13) as [->|Hx].
  - rewrite filter_cons_False by (by intros []). apply IH.
  - destruct (x =? 10); rewrite filter_cons_True by done; cbn [length]; [cbn; lia|]. specialize (IH lim). lia.
Qed.

Section laws.
Context {F D X : Type} `{!FatFs F D X} `{!FatFsLaws F D X} {known : path → Prop} {room : Z} `{!FatFsFiles F D X known room}.

Definition at_pos (v : view) (n : Z) : view := mkView (vpath v) n (vdata v) (vwrite v).
Definition ahead (v : view) : list Z := drop (Z.to_nat (vpos v)) (vdata v).

Lemma gets_loop_runs fuel : ∀ len p f w,
  vwrite (look f) = false → 0 <= vpos (look f) → (length (ahead (look f)) < fuel)%nat →
  let raw := cut (Z.to_nat len - length p) (ahead (look f)) in
  ∃ f' w', gets_loop fuel len p f w = (p ++ chars raw, f', w') ∧
    look f' = at_pos (look f) (vpos (look f) + Z.of_nat (length raw)) ∧ store w' = store w ∧ held w' = held w.
Proof.
  induction fuel as [|fuel IH]; intros len p f w Hr Hp Hf; [lia|]. cbn zeta. cbn [gets_loop].
  assert (∀ v, vwrite v = false → at_pos v (vpos v + Z.of_nat 0) = v) as Hstay.
  { intros [] H. cbn in H. unfold at_pos. cbn. by rewrite Z.add_0_r. }
  destruct (Z.ltb_spec (Z.of_nat (length p)) len) as [Hlt|Hge].
  2:{ replace (Z.to_nat len - length p)%nat with O by lia. exists f, w.
      assert (cut 0 (ahead (look f)) = []) as -> by by destruct (ahead (look f)).
      cbn. rewrite app_nil_r. split; [done|]. by rewrite Hstay. }
  destruct (read_file f 1 w Hr ltac:(lia) Hp) as (f1 & w1 & -> & Hl & Hs & Hh).
  unfold ahead in *. change (Z.to_nat 1) with 1%nat in *.
  destruct (drop (Z.to_nat (vpos (look f))) (vdata (look f))) as [|x c] eqn:Ec.
  { cbn [take]. exists f1, w1. cbn [cut chars filter list_filter]. rewrite app_nil_r. split; [done|].
    rewrite Hl. cbn [take length]. split; [|done]. unfold at_pos. by rewrite Hr. }
  assert (drop (Z.to_nat (vpos (look f1))) (vdata (look f1)) = c) as Ec1.
  { rewrite Hl. cbn [vpos vdata take length]. replace (Z.to_nat (vpos (look f) + Z.of_nat 1)) with (Z.to_nat (vpos (look f)) + 1)%nat by lia.
    by rewrite <- drop_drop, Ec. }
  assert (vwrite (look f1) = false) as Hr1 by by rewrite Hl.
  assert (0 <= vpos (look f1)) as Hp1 by (rewrite Hl; cbn [vpos]; lia).
  assert (vpos (look f1) = vpos (look f) + 1) as Hv1 by by rewrite Hl.
  assert (∀ z, at_pos (look f1) z = at_pos (look f) z) as Hat by (intros; rewrite Hl; unfold at_pos; cbn; by rewrite Hr).
  cbn [length] in Hf. rewrite take_0 || idtac. cbn [take].
  destruct (Z.to_nat len - length p)%nat as [|lim] eqn:El; [lia|]. cbn [cut].
  destruct (Z.eqb_spec x 13) as [->|Hx].
  - destruct (IH len p f1 w1 Hr1 Hp1) as (f2 & w2 & -> & Hl2 & Hs2 & Hh2); [rewrite Ec1; lia|].
    rewrite Ec1, El in *. exists f2, w2. split; [done|]. split; [|split; congruence].
    rewrite Hl2, Hat, Hv1. cbn [length]. f_equal. lia.
  - destruct (Z.eqb_spec x 10) as [->|Hx10].
    + exists f1, w1. split; [done|]. split; [|done]. rewrite Hl. unfold at_pos. by rewrite Hr.
    + destruct (IH len (p ++ [x]) f1 w1 Hr1 Hp1) as (f2 & w2 & -> & Hl2 & Hs2 & Hh2); [rewrite Ec1; lia|].
      rewrite Ec1 in *. replace (Z.to_nat len - length (p ++ [x]))%nat with lim in * by (rewrite length_app; cbn; lia).
      exists f2, w2. unfold chars. rewrite filter_cons_True by done. rewrite <- app_assoc. split; [done|].
      split; [|split; congruence]. rewrite Hl2, Hat, Hv1. cbn [length]. f_equal. lia.
Qed.

Lemma f_gets_runs f len w :
  vwrite (look f) = false → 0 <= vpos (look f) →
  let raw := cut (Z.to_nat (len - 1)) (ahead (look f)) in
  ∃ f' w', f_gets f len w = (if (length (chars raw) =? 0)%nat then None else Some (chars raw), f', w') ∧
    look f' = at_pos (look f) (vpos (look f) + Z.of_nat (length raw)) ∧ store w' = store w ∧ held w' = held w.
Proof.
  intros Hr Hp raw. unfold f_gets.
  destruct (gets_loop_runs (S (Z.to_nat (f_size f))) (len - 1) [] f w Hr Hp) as (f' & w' & -> & H).
  - rewrite size_file. unfold ahead. rewrite length_drop. lia.
  - cbn [app length] in *. rewrite Nat.sub_0_r in *. by exists f', w'.
Qed.

(** The octets that are behind an object with a buffer. *)
Definition pending (pb : putbuff) : list Z := vdata (look (fp pb)) ++ match buf pb with Some b => b | None => [] end.
Definition writing (v : view) : Prop := vwrite v = true ∧ vpos v = Z.of_nat (length (vdata v)).

Lemma putc_octet_runs c pb w :
  writing (look (fp pb)) → is_Some (buf pb) → Z.of_nat (length (pending pb)) + 1 <= room →
  ∃ pb' w', putc_octet c pb w = (pb', w') ∧ writing (look (fp pb')) ∧ is_Some (buf pb') ∧
    pending pb' = pending pb ++ [u8 c] ∧ vpath (look (fp pb')) = vpath (look (fp pb)) ∧
    store w' = store w ∧ held w' = held w.
Proof.
  intros [Hw Hp] [b Hb] Hroom. unfold putc_octet, pending in *. rewrite Hb in *. rewrite length_app in Hroom.
  destruct (_ <=? _).
  - destruct (write_file (fp pb) (b ++ [u8 c]) w Hw Hp) as (f' & w' & -> & Hl & Hs & Hh).
    { rewrite length_app. cbn [length]. lia. }
    rewrite Z.eqb_refl. eexists _, _. split; [done|]. cbn [fp buf]. rewrite Hl. cbn [vdata vpath]. rewrite app_nil_r.
    split; [split; cbn; [done|rewrite Hp, !length_app; lia]|]. split; [done|]. by rewrite app_assoc.
  - eexists _, _. split; [done|]. cbn [fp buf]. split; [done|]. split; [done|]. by rewrite app_assoc.
Qed.

Lemma puts_loop_runs t : ∀ pb w,
  writing (look (fp pb)) → is_Some (buf pb) → Z.of_nat (length (pending pb) + length (crlf t)) <= room →
  ∃ pb' w', puts_loop t pb w = (pb', w') ∧ writing (look (fp pb')) ∧ is_Some (buf pb') ∧
    pending pb' = pending pb ++ crlf t ∧ vpath (look (fp pb')) = vpath (look (fp pb)) ∧
    store w' = store w ∧ held w' = held w.
Proof.
  induction t as [|c t IH]; intros pb w Hw Hb Hroom.
  { cbn. exists pb, w. rewrite app_nil_r. done. }
  unfold crlf in Hroom. cbn [flat_map] in Hroom. rewrite length_app in Hroom. fold (crlf t) in Hroom.
  assert (∃ pb1 w1, putc_bfd c pb w = (pb1, w1) ∧ writing (look (fp pb1)) ∧ is_Some (buf pb1) ∧
    pending pb1 = pending pb ++ (if c =? 10 then [13; 10] else [u8 c]) ∧ vpath (look (fp pb1)) = vpath (look (fp pb)) ∧
    store w1 = store w ∧ held w1 = held w) as (pb1 & w1 & E1 & Hw1 & Hb1 & Hp1 & Hv1 & Hs1 & Hh1).
  { unfold putc_bfd. destruct (Z.eqb_spec c 10) as [->|Hc]; cbn [length] in Hroom.
    - destruct (putc_octet_runs 13 pb w Hw Hb) as (pb1 & w1 & -> & Hw1 & Hb1 & Hp1 & Hv1 & Hs1 & Hh1); [lia|].
      destruct (putc_octet_runs 10 pb1 w1 Hw1 Hb1) as (pb2 & w2 & -> & Hw2 & Hb2 & Hp2 & Hv2 & Hs2 & Hh2).
      { rewrite Hp1, length_app. cbn [length]. lia. }
      exists pb2, w2. split; [done|]. split; [done|]. split; [done|]. rewrite Hp2, Hp1, <- app_assoc. split; [done|]. split; [|split]; congruence.
    - apply putc_octet_runs; [done..|]. lia. }
  cbn [puts_loop]. rewrite E1. destruct (IH pb1 w1 Hw1 Hb1) as (pb2 & w2 & -> & Hw2 & Hb2 & Hp2 & Hv2 & Hs2 & Hh2).
  { rewrite Hp1, length_app. lia. }
  exists pb2, w2. split; [done|]. split; [done|]. split; [done|]. rewrite Hp2, Hp1, <- app_assoc. split; [done|]. split; [|split]; congruence.
Qed.

Lemma f_puts_runs f t w :
  writing (look f) → Z.of_nat (length (vdata (look f)) + length (crlf t)) <= room →
  ∃ r f' w', f_puts f t w = (r, f', w') ∧ writing (look f') ∧ vdata (look f') = vdata (look f) ++ crlf t ∧
    vpath (look f') = vpath (look f) ∧ store w' = store w ∧ held w' = held w.
Proof.
  intros Hw Hroom. unfold f_puts.
  destruct (puts_loop_runs t (putc_init f) w Hw) as (pb & w1 & -> & [Hw1 Hp1] & [b Hb] & Hp & Hv & Hs & Hh); [done| |].
  { unfold pending. cbn. by rewrite app_nil_r. }
  unfold putc_flush. rewrite Hb. unfold pending in Hp. rewrite Hb in Hp. cbn [fp buf putc_init] in Hp.
  rewrite app_nil_r in Hp.
  destruct (write_file (fp pb) b w1 Hw1 Hp1) as (f' & w' & -> & Hl & Hs' & Hh').
  { apply (f_equal length) in Hp. rewrite !length_app in Hp. lia. }
  eexists _, f', w'. split; [done|]. rewrite Hl. unfold writing. cbn [vwrite vpos vdata vpath]. rewrite Hp.
  rewrite <- Hp, length_app. split; [split; [done|lia]|]. split; [done|]. split; [done|]. split; congruence.
Qed.

(** ** Operations by handle *)

(** The closed files of the volume are [s], the open ones [m]. *)
Definition sees (s : gmap path (list Z)) (m : gmap Z view) (a : accessor F D X) : Prop :=
  length (FileHandleArray a) = MaxOpenFileCount ∧ store (world a) = s ∧
  look <$> opened (FileHandleArray a) = m ∧
  held (world a) ≡ₚ (λ x, vpath x.2) <$> map_to_list m.

Lemma sees_slot s m a h v :
  sees s m a → m !! h = Some v →
  ∃ f, opened (FileHandleArray a) !! h = Some f ∧ look f = v ∧ vpath v ∈ held (world a) ∧
    ∀ R (bad : R) op, with_file a h bad op = Ok (op (Z.to_nat (h - 1)) f).
Proof.
  intros (Hl & Hs & Hm & Hh) Hv. pose proof Hv as Hv'. rewrite <- Hm, lookup_fmap in Hv'.
  destruct (opened (FileHandleArray a) !! h) as [f|] eqn:E; [|done]. exists f. split; [done|].
  split; [by injection Hv'|]. split.
  - rewrite Hh. apply list_elem_of_fmap. exists (h, v). split; [done|]. by apply elem_of_map_to_list.
  - intros R bad op. rewrite with_file_spec, E; [done| |done]. apply lookup_opened in E as [? _]. lia.
Qed.

Lemma held_insert (m : gmap Z view) h v l :
  m !! h = None → l ≡ₚ (λ x, vpath x.2) <$> map_to_list m →
  vpath v :: l ≡ₚ (λ x, vpath x.2) <$> map_to_list (<[h := v]> m).
Proof. intros Hn Hl. rewrite map_to_list_insert by done. cbn. by rewrite Hl. Qed.

Lemma held_split (m : gmap Z view) h v :
  m !! h = Some v →
  (λ x, vpath x.2) <$> map_to_list m ≡ₚ vpath v :: ((λ x, vpath x.2) <$> map_to_list (delete h m)).
Proof. intros Hv. symmetry. rewrite <- (insert_delete_id m h v Hv) at 2. apply held_insert; [by rewrite lookup_delete_eq|done]. Qed.

Lemma sees_update s m a h v v' f f' w' :
  sees s m a → m !! h = Some v → opened (FileHandleArray a) !! h = Some f → look f' = v' → vpath v' = vpath v →
  held w' = held (world a) →
  sees (store w') (<[h := v']> m) (set_file (Z.to_nat (h - 1)) (Some f') (set_world w' a)).
Proof.
  intros (Hl & Hs & Hm & Hh) Hv Hf Hlook Hp Hw. pose proof Hf as [H1 Hslot]%lookup_opened.
  pose proof (lookup_lt_Some _ _ _ Hslot) as Hi. unfold sees. cbn [set_file set_world FileHandleArray world].
  rewrite length_insert. split; [done|]. split; [done|].
  rewrite opened_insert by done. replace (Z.of_nat (Z.to_nat (h - 1)) + 1) with h by lia.
  rewrite fmap_insert, Hm, Hlook. split; [done|]. rewrite Hw, Hh.
  rewrite (held_split m h v Hv), <- insert_delete_eq, <- Hp. apply held_insert; [by rewrite lookup_delete_eq|done].
Qed.

Lemma unused_some s m a : sees s m a → (base.size m < 2)%nat → ∃ i, unused (FileHandleArray a) = Some i.
Proof.
  intros (Hl & _ & Hm & _) Hsz. change MaxOpenFileCount with 2%nat in Hl.
  destruct (FileHandleArray a) as [|[x|] [|[y|] [|]]]; try done; try by eexists.
  rewrite <- Hm, map_size_fmap in Hsz. cbn in Hsz.
  rewrite map_size_insert_None, map_size_insert_None, map_size_empty in Hsz; [lia|done|].
  by rewrite lookup_insert_ne.
Qed.

Lemma fatxopen_some s m a p mode f w v :
  sees s m a → (base.size m < 2)%nat →
  f_open p mode (world a) = (FR_OK, Some f, w) → look f = v → held w = vpath v :: held (world a) →
  let r := fatxopen p mode a in
  1 <= r.1 ∧ m !! r.1 = None ∧ sees (store w) (<[r.1 := v]> m) r.2.
Proof.
  intros Hsees Hsz Ho Hv Hh r. subst r. destruct (unused_some _ _ _ Hsees Hsz) as [i Hi].
  destruct Hsees as (Hl & Hs & Hm & Hheld). unfold fatxopen. rewrite Hi, Ho, Z.eqb_refl. cbn [negb fst snd].
  pose proof (unused_spec (FileHandleArray a)) as Hu. rewrite Hi in Hu.
  pose proof (lookup_lt_Some _ _ _ Hu) as Hlt.
  assert (m !! (Z.of_nat i + 1) = None) as Hnone.
  { rewrite <- Hm, lookup_fmap. destruct (opened _ !! _) eqn:E; [|done]. apply lookup_opened in E as [_ E].
    replace (Z.to_nat (Z.of_nat i + 1 - 1)) with i in E by lia. congruence. }
  split; [lia|]. split; [done|]. unfold sees. cbn [set_file set_world FileHandleArray world].
  rewrite length_insert, opened_insert, fmap_insert, Hm, Hv by done.
  split; [done|]. split; [done|]. split; [done|]. rewrite Hh. by apply held_insert.
Qed.

Lemma fatxopen_read s m a p c :
  sees s m a → (base.size m < 2)%nat → known p → s !! p = Some c →
  let r := fatxopen p 1 a in
  1 <= r.1 ∧ m !! r.1 = None ∧ sees s (<[r.1 := mkView p 0 c false]> m) r.2.
Proof.
  intros Hsees Hsz Hk Hp. pose proof Hsees as (_ & Hs & _ & _). rewrite <- Hs in Hp.
  destruct (open_read p c (world a) Hk Hp) as (f & w & Ho & Hl & Hst & Hh). rewrite <- Hs, <- Hst.
  exact (fatxopen_some s m a p 1 f w _ Hsees Hsz Ho Hl Hh).
Qed.

Lemma fatxopen_create s m a p :
  sees s m a → (base.size m < 2)%nat → known p → map_Forall (λ _ v, vpath v ≠ p) m →
  let r := fatxopen p 10 a in
  1 <= r.1 ∧ m !! r.1 = None ∧ sees (delete p s) (<[r.1 := mkView p 0 [] true]> m) r.2.
Proof.
  intros Hsees Hsz Hk Hne. pose proof Hsees as (_ & Hs & _ & Hheld).
  destruct (open_create p (world a) Hk) as (f & w & Ho & Hl & Hst & Hh).
  { rewrite Hheld. intros ([h v] & -> & Hin%elem_of_map_to_list)%list_elem_of_fmap. by eapply Hne. }
  replace (delete p s) with (store w) by congruence. exact (fatxopen_some s m a p 10 f w _ Hsees Hsz Ho Hl Hh).
Qed.

Lemma fatxopen_missing s m a p :
  sees s m a → known p → s !! p = None → map_Forall (λ _ v, vpath v ≠ p) m →
  (fatxopen p 1 a).1 = 0 ∧ sees s m (fatxopen p 1 a).2.
Proof.
  intros Hsees Hk Hp Hne. pose proof Hsees as (Hl & Hs & Hm & Hheld). rewrite <- Hs in Hp.
  destruct (open_missing p (world a) Hk Hp) as (r & w & Ho & Hr & Hst & Hh).
  { rewrite Hheld. intros ([h v] & -> & Hin%elem_of_map_to_list)%list_elem_of_fmap. by eapply Hne. }
  unfold fatxopen. pose proof (unused_spec (FileHandleArray a)) as Hu.
  destruct (unused (FileHandleArray a)) as [i|]; [|done]. rewrite Ho.
  destruct (Z.eqb_spec r FR_OK); [done|]. split; [done|]. unfold sees. cbn [negb fst snd set_file set_world FileHandleArray world].
  rewrite list_insert_id by done. rewrite Hst, Hh. done.
Qed.

Lemma wp_close s m a h v (Q : Z → accessor F D X → Prop) :
  sees s m a → m !! h = Some v →
  (∀ a', sees (if vwrite v then <[vpath v := vdata v]> s else s) (delete h m) a' → Q 0 a') →
  wp (fatxclose h) Q a.
Proof.
  intros Hsees Hv HQ. destruct (sees_slot _ _ _ _ _ Hsees Hv) as (f & Hf & Hlook & Hin & Hwith).
  destruct Hsees as (Hl & Hs & Hm & Hheld). unfold wp, fatxclose. rewrite Hwith.
  destruct (close_file f (world a)) as (w & -> & Hst & Hh); [by rewrite Hlook|]. apply HQ.
  pose proof Hf as [H1 Hslot]%lookup_opened. pose proof (lookup_lt_Some _ _ _ Hslot) as Hi.
  unfold sees. cbn [set_file set_world FileHandleArray world]. rewrite length_insert, opened_insert by done.
  replace (Z.of_nat (Z.to_nat (h - 1)) + 1) with h by lia. rewrite fmap_delete, Hm, Hst, Hlook, Hs.
  split; [done|]. split; [done|]. split; [done|]. apply (Permutation_cons_inv (a := vpath v)).
  rewrite <- held_split, <- Hheld by done. by rewrite Hlook in Hh.
Qed.

Lemma wp_gets_text s m a h v len (Q : option (list Z) → accessor F D X → Prop) :
  sees s m a → m !! h = Some v → vwrite v = false → 0 <= vpos v →
  (let raw := cut (Z.to_nat (len - 1)) (ahead v) in
   ∀ a', sees s (<[h := at_pos v (vpos v + Z.of_nat (length raw))]> m) a' →
     Q (if (length (chars raw) =? 0)%nat then None else Some (chars raw)) a') →
  wp (fatxgets len h) Q a.
Proof.
  intros Hsees Hv Hr Hp HQ. destruct (sees_slot _ _ _ _ _ Hsees Hv) as (f & Hf & Hlook & _ & Hwith).
  unfold wp, fatxgets. rewrite Hwith. rewrite <- Hlook in *.
  destruct (f_gets_runs f len (world a) Hr Hp) as (f' & w & -> & Hl & Hst & Hh). apply HQ.
  pose proof Hsees as Hsees'. replace s with (store w) by (rewrite Hst; by destruct Hsees as (_ & -> & _)).
  eapply sees_update; [exact Hsees'|done..].
Qed.

Lemma wp_puts_text s m a h v t (Q : Z → accessor F D X → Prop) :
  sees s m a → m !! h = Some v → writing v → Z.of_nat (length (vdata v) + length (crlf t)) <= room →
  (∀ r a', let data := vdata v ++ crlf t in
     sees s (<[h := mkView (vpath v) (Z.of_nat (length data)) data true]> m) a' → Q r a') →
  wp (fatxputs t h) Q a.
Proof.
  intros Hsees Hv Hw Hroom HQ. destruct (sees_slot _ _ _ _ _ Hsees Hv) as (f & Hf & Hlook & _ & Hwith).
  unfold wp, fatxputs. rewrite Hwith. rewrite <- Hlook in *.
  destruct (f_puts_runs f t (world a) Hw Hroom) as (r & f' & w & -> & [Hw' Hp'] & Hd & Hpath & Hst & Hh). apply HQ.
  pose proof Hsees as Hsees'. replace s with (store w) by (rewrite Hst; by destruct Hsees as (_ & -> & _)).
  eapply sees_update; [exact Hsees'|done..| |done|done].
  destruct (look f') as [p' n' d' wr']. cbn in *. by subst.
Qed.

Lemma wp_read s m a h v n (Q : Z * list Z → accessor F D X → Prop) :
  sees s m a → m !! h = Some v → vwrite v = false → 0 <= n → 0 <= vpos v →
  (let out := take (Z.to_nat n) (ahead v) in
   ∀ a', sees s (<[h := at_pos v (vpos v + Z.of_nat (length out))]> m) a' → Q (Z.of_nat (length out), out) a') →
  wp (fatxread h n) Q a.
Proof.
  intros Hsees Hv Hr Hn Hp HQ. destruct (sees_slot _ _ _ _ _ Hsees Hv) as (f & Hf & Hlook & _ & Hwith).
  unfold wp, fatxread. rewrite Hwith. rewrite <- Hlook in *.
  destruct (read_file f n (world a) Hr Hn Hp) as (f' & w & -> & Hl & Hst & Hh). rewrite Z.eqb_refl. apply HQ.
  pose proof Hsees as Hsees'. replace s with (store w) by (rewrite Hst; by destruct Hsees as (_ & -> & _)).
  eapply sees_update; [exact Hsees'|done..| |done|done]. unfold at_pos. by rewrite Hl, Hr.
Qed.

Lemma wp_write s m a h v data (Q : Z → accessor F D X → Prop) :
  sees s m a → m !! h = Some v → writing v → Z.of_nat (length (vdata v) + length data) <= room →
  (∀ a', let all := vdata v ++ data in
     sees s (<[h := mkView (vpath v) (Z.of_nat (length all)) all true]> m) a' → Q (Z.of_nat (length data)) a') →
  wp (fatxwrite h data) Q a.
Proof.
  intros Hsees Hv [Hw Hp] Hroom HQ. destruct (sees_slot _ _ _ _ _ Hsees Hv) as (f & Hf & Hlook & _ & Hwith).
  unfold wp, fatxwrite. rewrite Hwith. rewrite <- Hlook in *.
  destruct (write_file f data (world a) Hw Hp) as (f' & w & -> & Hl & Hst & Hh); [lia|]. rewrite Z.eqb_refl. apply HQ.
  pose proof Hsees as Hsees'. replace s with (store w) by (rewrite Hst; by destruct Hsees as (_ & -> & _)).
  eapply sees_update; [exact Hsees'|done..| |done|done]. rewrite Hl, Hp, length_app. f_equal. lia.
Qed.

Lemma eof_slot s m a h v :
  sees s m a → m !! h = Some v → fatxeof a h = Ok (if vpos v =? Z.of_nat (length (vdata v)) then 1 else 0).
Proof.
  intros Hsees Hv. destruct (sees_slot _ _ _ _ _ Hsees Hv) as (f & _ & Hlook & _ & Hwith).
  unfold fatxeof. by rewrite Hwith, eof_file, Hlook.
Qed.

(** A file is not a directory. *)
Lemma stat_regular s m a p c :
  sees s m a → known p → s !! p = Some c →
  let i := fatxstat a p in
  size i = Z.of_nat (length c) ∧ attributes i .& 0x10 = 0 ∧ 1 <= nameLength i <= 42 ∧ nth 0 (name i) 0 ≠ 0.
Proof.
  intros (_ & Hs & _) Hk Hp i. rewrite <- Hs in Hp.
  destruct (stat_file p c (world a) Hk Hp) as (fi & E & Hsz & Hat & Hn & Hln & Hnz). subst i.
  unfold fatxstat. rewrite E, Z.eqb_refl. unfold convertToFileInfo, FATX_FILENAME_MAX. cbn [size attributes nameLength name].
  destruct (Z.ltb_spec 42 (namelength fi)); [lia|]. split; [done|]. split; [done|]. split; [done|].
  destruct (fnamex fi) as [|x t]; [cbn in Hln; lia|]. apply list.Forall_cons in Hnz as [Hx _].
  destruct (Z.to_nat (namelength fi)) eqn:E'; [lia|]. done.
Qed.

Lemma tell_slot s m a h v : sees s m a → m !! h = Some v → fatxtell a h = Ok (vpos v).
Proof.
  intros Hsees Hv. destruct (sees_slot _ _ _ _ _ Hsees Hv) as (f & _ & Hlook & _ & Hwith).
  unfold fatxtell. by rewrite Hwith, tell_file, Hlook.
Qed.

Lemma wp_seek s m a h v n (Q : Z → accessor F D X → Prop) :
  sees s m a → m !! h = Some v → vwrite v = false → 0 <= n <= Z.of_nat (length (vdata v)) →
  (∀ a', sees s (<[h := at_pos v n]> m) a' → Q 0 a') →
  wp (fatxseek h n) Q a.
Proof.
  intros Hsees Hv Hr Hn HQ. destruct (sees_slot _ _ _ _ _ Hsees Hv) as (f & Hf & Hlook & _ & Hwith).
  unfold wp, fatxseek. rewrite Hwith. rewrite <- Hlook in *.
  destruct (seek_file f n (world a) Hr Hn) as (f' & w & -> & Hl & Hst & Hh). apply HQ.
  pose proof Hsees as Hsees'. replace s with (store w) by (rewrite Hst; by destruct Hsees as (_ & -> & _)).
  eapply sees_update; [exact Hsees'|done..| |done|done].
  unfold at_pos. by rewrite Hl, Hr.
Qed.

Lemma not_held s m a p : sees s m a → map_Forall (λ _ v, vpath v ≠ p) m → p ∉ held (world a).
Proof.
  intros (_ & _ & _ & Hheld) Hne. rewrite Hheld.
  intros ([h v] & -> & Hin%elem_of_map_to_list)%list_elem_of_fmap. by eapply Hne.
Qed.

Lemma delete_runs s m a p :
  sees s m a → known p → is_Some (s !! p) → map_Forall (λ _ v, vpath v ≠ p) m →
  ∃ a', fatxdelete p a = (0, a') ∧ sees (delete p s) m a'.
Proof.
  intros Hsees Hk Hp Hne. pose proof (not_held _ _ _ _ Hsees Hne) as Hn. destruct Hsees as (Hl & Hs & Hm & Hheld).
  destruct (unlink_file p (world a) Hk Hn) as (w & E & Hst & Hh); [by rewrite Hs|].
  unfold fatxdelete, checked. rewrite E. eexists. split; [done|]. unfold sees. cbn. by rewrite Hst, Hs, Hh.
Qed.

Lemma rename_runs s m a p q c :
  sees s m a → known p → known q → s !! p = Some c → s !! q = None →
  map_Forall (λ _ v, vpath v ≠ p ∧ vpath v ≠ q) m →
  strchr q 58 = None → (length q <= 42)%nat →
  ∃ a', fatxrename p q a = (0, a') ∧ sees (<[q := c]> (delete p s)) m a'.
Proof.
  intros Hsees Hkp Hkq Hp Hq Hne Hcolon Hlen.
  assert (p ∉ held (world a)) as Hnp by (eapply not_held; [done|]; intros ?? H; by apply Hne in H as []).
  assert (q ∉ held (world a)) as Hnq by (eapply not_held; [done|]; intros ?? H; by apply Hne in H as []).
  destruct Hsees as (Hl & Hs & Hm & Hheld).
  destruct (rename_file p q c (world a) Hkp Hkq Hnp Hnq) as (w & E & Hst & Hh); [by rewrite Hs..|].
  unfold fatxrename, checked. rewrite Hcolon. unfold FATX_FILENAME_MAX.
  destruct (Z.ltb_spec 42 (Z.of_nat (length q))); [lia|]. rewrite E. eexists. split; [done|].
  unfold sees. cbn. by rewrite Hst, Hs, Hh.
Qed.

End laws.
(** ** A volume in memory *)

(** The closed files and the paths of the open ones; an object is its view. *)
Definition ram : Type := gmap path (list Z) * list path.

Fixpoint release (p : path) (l : list path) : list path :=
  match l with [] => [] | q :: l => if bool_decide (q = p) then l else q :: release p l end.

Lemma release_spec p l : p ∈ l → l ≡ₚ p :: release p l.
Proof.
  induction l as [|q l IH]; [by intros ?%not_elem_of_nil|]. cbn [release]. intros [->|Hin]%elem_of_cons.
  - by rewrite bool_decide_eq_true_2.
  - case_bool_decide as E; [by rewrite E|]. rewrite (IH Hin) at 1. apply perm_swap.
Qed.

(** What follows the last separator of a path, if it can be the name of a file. *)
Fixpoint behind_sep (p acc : path) : path :=
  match p with [] => acc | x :: p => behind_sep p (if x =? 47 then [] else acc ++ [x]) end.
Definition name_ok (n : path) : Prop := (1 <= length n <= 42)%nat ∧ Forall (λ x, x ≠ 0) n.
Definition last_name (p : path) : path :=
  if decide (name_ok (behind_sep p [])) then behind_sep p [] else [95].

Lemma last_name_ok p : name_ok (last_name p).
Proof.
  unfold last_name. destruct (decide _); [done|]. split; [cbn; lia|]. by apply Forall_singleton.
Qed.

#[export] Instance ram_fs : FatFs view unit ram := {
  f_mount _ w := (FR_OK, 1, w);
  f_open p mode w :=
    let '(h, (st, hd)) := w in
    if mode =? 1 then
      match st !! p with
      | Some c => (FR_OK, Some (mkView p 0 c false), (h, (st, p :: hd)))
      | None => (FR_NO_FILE, None, w)
      end
    else if bool_decide (p ∈ hd) then (17, None, w)
    else (FR_OK, Some (mkView p 0 [] true), (h, (delete p st, p :: hd)));
  f_close f w :=
    let '(h, (st, hd)) := w in
    (FR_OK, None, (h, (if vwrite f then <[vpath f := vdata f]> st else st, release (vpath f) hd)));
  f_read f n w :=
    if vwrite f then (8, [], f, w)
    else
      let out := take (Z.to_nat n) (drop (Z.to_nat (vpos f)) (vdata f)) in
      (FR_OK, out, mkView (vpath f) (vpos f + Z.of_nat (length out)) (vdata f) false, w);
  f_write f data w :=
    if vwrite f
    then (FR_OK, Z.of_nat (length data),
          mkView (vpath f) (vpos f + Z.of_nat (length data)) (vdata f ++ data) true, w)
    else (8, 0, f, w);
  f_lseek f n w := (FR_OK, mkView (vpath f) n (vdata f) (vwrite f), w);
  f_sync f w := (FR_OK, f, w);
  f_tell f := vpos f;
  f_size f := Z.of_nat (length (vdata f));
  f_eof f := vpos f =? Z.of_nat (length (vdata f));
  f_stat p w :=
    match w.2.1 !! p with
    | Some c => (FR_OK, mkFilinfo (Z.of_nat (length c)) 0 0 0 (Z.of_nat (length (last_name p))) (last_name p))
    | None => (FR_NO_FILE, mkFilinfo 0 0 0 0 0 [])
    end;
  f_mkdir _ w := (8, w);
  f_unlink p w := let '(h, (st, hd)) := w in (FR_OK, (h, (delete p st, hd)));
  f_rename p q w :=
    let '(h, (st, hd)) := w in
    match st !! p with
    | Some c => (FR_OK, (h, (<[q := c]> (delete p st), hd)))
    | None => (FR_NO_FILE, w)
    end;
  f_chdir _ w := (FR_OK, w);
  f_opendir _ w := (8, None, w);
  f_readdir d w := (8, mkFilinfo 0 0 0 0 0 [], d, w);
  f_findfirst _ _ w := (8, mkFilinfo 0 0 0 0 0 [], None, w);
  f_findnext d w := (8, mkFilinfo 0 0 0 0 0 [], d, w);
  f_rewinddir d w := (8, d, w);
  f_closedir _ w := (FR_OK, None, w)
}.

#[export] Instance ram_laws : FatFsLaws view unit ram.
Proof.
  split.
  - intros p mode [h [st hd]]. cbn. destruct (mode =? 1).
    + destruct (st !! p); split; try done; by intros [].
    + case_bool_decide; split; try done; by intros [].
  - by intros f [h [st hd]].
  - intros p w. cbn. split; [done|by intros []].
  - done.
Qed.

#[export] Instance ram_files room : FatFsFiles view unit ram (λ _, True) room.
Proof.
  refine {| store w := w.2.1; held w := w.2.2; look f := f |}.
  - intros p c [h [st hd]] _ Hp. cbn in *. rewrite Hp. by eexists _, _.
  - intros p [h [st hd]] _ Hp Hn. cbn in *. rewrite Hp. by eexists _, _.
  - intros p [h [st hd]] _ Hn. cbn in *. rewrite bool_decide_eq_false_2 by done. by eexists _, _.
  - intros f [h [st hd]] Hin. cbn in *. eexists. split; [done|]. cbn. split; [done|]. by apply release_spec.
  - intros f n w Hr Hn Hp out. cbn. rewrite Hr. by eexists _, _.
  - intros f data w Hw Hp Hroom. cbn. rewrite Hw. by eexists _, _.
  - intros f n w Hw Hn. cbn. rewrite Hw. by eexists _, _.
  - done.
  - done.
  - done.
  - intros p c [h [st hd]] _ Hp. cbn in *. rewrite Hp. eexists. split; [done|]. cbn [fsize fattrib namelength fnamex].
    pose proof (last_name_ok p) as [? ?]. split; [done|]. split; [done|]. split; [lia|]. done.
  - intros p [h [st hd]] _ Hn Hp. by eexists.
  - intros p q c [h [st hd]] _ _ Hp Hq Hs Hd. cbn in *. rewrite Hs. by eexists.
Defined.

(** A volume with these files and no file open. *)
Definition ram_disk (st : gmap path (list Z)) : accessor view unit ram :=
  mkAccessor (replicate 2 None) (replicate 2 None) (λ _ _, 1) (sample_hdd, (st, [])).

Lemma ram_disk_sees room st : sees (room := room) st ∅ (ram_disk st).
Proof. done. Qed.

End FatStore.
