(* ===== verification/MinIni.v ===== *)
(** * Settings files in text ([src/lib/minIni/dev/minIni.c],
      [src/lib/minIni/dev/minGlue-XBlastOS.h])

    The operations of minIni over the files of [FatFiles].  A text is the list of
    its characters before the terminating zero, and a buffer is the text in it:
    the functions copy a text to the front of the buffer it is in, so the copies
    are those of separate buffers.  A null pointer is [None].  A loop that does
    not end within its fuel counts as undefined. *)

From Stdlib Require Import String.
From S2P Require Import Prelude Strtol Format Strings Partition FatFiles.

Module MinIni.
Import Strtol(at_, strtol).
Import Strings(schar, strchr, strrchr, strcmp, strncasecmp, toupper, cstr).
Import Format(text).
Import FatFiles.

Abbreviation length := List.length.

Definition INI_BUFFERSIZE : Z := 256.
Definition INI_LINETERM : list Z := [10].
Definition FA_READ : Z := 1.
Definition FA_WRITE : Z := 2.
Definition FA_OPEN_EXISTING : Z := 0.
Definition FA_CREATE_ALWAYS : Z := 8.

(** ** Texts *)

Inductive quote_option := QUOTE_NONE | QUOTE_ENQUOTE | QUOTE_DEQUOTE.

Definition blank (c : Z) : bool := (0 <? schar c) && (schar c <=? 32).

Fixpoint skipleading (str : list Z) : list Z :=
  match str with
  | c :: str' => if blank c then skipleading str' else str
  | [] => []
  end.

(** The text between [base] and the pointer that is returned. *)
Definition skiptrailing (str : list Z) : list Z := rev (skipleading (rev str)).
Definition striptrailing (str : list Z) : list Z := skiptrailing str.

Fixpoint enquote (d maxlen : Z) (source : list Z) : list Z :=
  match source with
  | [] => []
  | c :: source =>
      if d <? maxlen - 2 then
        if c =? 34 then (if maxlen - 3 <=? d then [] else 92 :: c :: enquote (d + 2) maxlen source)
        else c :: enquote (d + 1) maxlen source
      else []
  end.

Fixpoint dequote (d maxlen : Z) (source : list Z) : list Z :=
  match source with
  | [] => []
  | c :: source1 =>
      if d <? maxlen - 1 then
        match source1 with
        | c2 :: source2 =>
            if ((c =? 34) || (c =? 92)) && (c2 =? 34) then c2 :: dequote (d + 1) maxlen source2
            else c :: dequote (d + 1) maxlen source1
        | [] => [c]
        end
      else []
  end.

(** [maxlen] is positive. *)
Definition ini_strncpy (source : list Z) (maxlen : Z) (option : quote_option) : list Z :=
  let option := match option with
                | QUOTE_ENQUOTE => if maxlen <? 3 then QUOTE_NONE else QUOTE_ENQUOTE
                | _ => option
                end in
  match option with
  | QUOTE_NONE => take (Z.to_nat (maxlen - 1)) source
  | QUOTE_ENQUOTE => 34 :: enquote 1 maxlen source ++ [34]
  | QUOTE_DEQUOTE => dequote 0 maxlen source
  end.

(** What stands before a comment. *)
Fixpoint uncommented (string : list Z) (isstring : bool) : list Z :=
  match string with
  | [] => []
  | c :: string1 =>
      if ((c =? 59) || (c =? 35)) && negb isstring then []
      else
        match string1 with
        | [] => [c]
        | c2 :: string2 =>
            if c =? 34 then
              if c2 =? 34 then c :: c2 :: uncommented string2 isstring
              else c :: uncommented string1 (negb isstring)
            else if (c =? 92) && (c2 =? 34) then c :: c2 :: uncommented string2 isstring
            else c :: uncommented string1 isstring
        end
  end.

Definition cleanstring (string : list Z) : list Z * quote_option :=
  let string := striptrailing (uncommented string false) in
  if (at_ string 0 =? 34) && bool_decide (list.last string = Some 34)
  then (removelast (drop 1 string), QUOTE_DEQUOTE)
  else (string, QUOTE_NONE).

(** The offset of the sign between a key and its value. *)
Definition separator (sp : list Z) : option nat :=
  match strchr sp 61 with Some ep => Some ep | None => strchr sp 58 end.

(** The text before [ep] is [name], with blanks behind it. *)
Definition names (sp : list Z) (ep : nat) (name : list Z) : bool :=
  (length (skiptrailing (take ep sp)) =? length name)%nat && (strncasecmp sp name (length name) =? 0).

(** The text between the brackets is [name]. *)
Definition heads (sp : list Z) (ep : nat) (name : list Z) : bool :=
  (Z.of_nat ep - 1 =? Z.of_nat (length name)) && (strncasecmp (drop 1 sp) name (length name) =? 0).

Definition value_at (sp : list Z) (ep : nat) (maxlen : Z) : list Z :=
  let '(sp, quotes) := cleanstring (skipleading (drop (S ep) sp)) in
  ini_strncpy sp maxlen quotes.

(** The name of the temporary file; an empty name would write before the buffer. *)
Definition ini_tempname (source : list Z) (maxlength : Z) : outcome (list Z) :=
  match ini_strncpy source maxlength QUOTE_NONE with
  | [] => UB
  | dest => Ok (removelast dest ++ [126])
  end.

Definition check_enquote (Value : list Z) : quote_option :=
  if existsb (λ c, (c =? 34) || (c =? 59) || (c =? 35)) Value || bool_decide (list.last Value = Some 32)
  then QUOTE_ENQUOTE else QUOTE_NONE.

(** The texts that are written. *)
Definition section_text (Section : option (list Z)) : list Z :=
  match Section with
  | Some (c :: s) => 91 :: ini_strncpy (c :: s) (INI_BUFFERSIZE - 4) QUOTE_NONE ++ 93 :: INI_LINETERM
  | _ => []
  end.
Definition key_text (Key Value : list Z) : list Z :=
  let key := ini_strncpy Key (INI_BUFFERSIZE - 3) QUOTE_NONE in
  key ++ 61 :: ini_strncpy Value (INI_BUFFERSIZE - (Z.of_nat (length key) + 1) - 2) (check_enquote Value) ++ INI_LINETERM.

(** The digits, the last one first; a [long] has at most ten. *)
Fixpoint long_digits (fuel : nat) (value : Z) : list Z :=
  match fuel with
  | O => []
  | S fuel =>
      Z.abs (Z.rem value 10) + 48 ::
      (if Z.quot value 10 =? 0 then [] else long_digits fuel (Z.quot value 10))
  end.
Definition long2str (value : Z) : list Z :=
  rev (long_digits 11 value ++ (if value <? 0 then [45] else [])).

Section files.
Context {F D X : Type} `{!FatFs F D X}.
#[local] Abbreviation M := (ST (accessor F D X)).

(** ** The glue *)

Definition ini_openread (filename : list Z) : M Z := λ a, Ok (fatxopen filename (FA_READ .| FA_OPEN_EXISTING) a).
Definition ini_openwrite (filename : list Z) : M Z := λ a, Ok (fatxopen filename (FA_WRITE .| FA_CREATE_ALWAYS) a).
Definition ini_close (file : Z) : M Z := fatxclose file.
(** The text in the buffer, when something was read; the buffer is empty else. *)
Definition ini_read (size file : Z) : M (option (list Z)) := r ← fatxgets size file; mret (cstr <$> r).
Definition ini_write (buffer : list Z) (file : Z) : M Z := fatxputs buffer file.
Definition ini_rename (source dest : list Z) : M Z := λ a, Ok (fatxrename source dest a).
Definition ini_remove (filename : list Z) : M Z := λ a, Ok (fatxdelete filename a).
Definition ini_tell (file : Z) : M Z := λ a, pos ← fatxtell a file; Ok (u32 pos, a).
Definition ini_seek (file pos : Z) : M Z := fatxseek file pos.

(** ** Reading *)

(** The line that opens the section, the offset of its bracket, and [idx]. *)
Fixpoint find_section (fuel : nat) (fp : Z) (Section : option (list Z)) (idx idxSection : Z)
    : M (option (list Z * nat * Z)) :=
  match fuel with
  | O => ub
  | S fuel =>
      r ← ini_read INI_BUFFERSIZE fp;
      match r with
      | None => mret None
      | Some LocalBuffer =>
          let sp := skipleading LocalBuffer in
          match strrchr sp 93 with
          | Some ep =>
              if negb (at_ sp 0 =? 91) then find_section fuel fp Section idx idxSection
              else if match Section with Some s => heads sp ep s | None => false end then mret (Some (sp, ep, idx))
              else if negb (idx + 1 =? idxSection) then find_section fuel fp Section (idx + 1) idxSection
              else mret (Some (sp, ep, idx + 1))
          | None => find_section fuel fp Section idx idxSection
          end
      end
  end.

(** The line of the entry, the offset of its separator, and [idx]. *)
Fixpoint find_key (fuel : nat) (fp : Z) (Key : option (list Z)) (idx idxKey : Z)
    : M (option (list Z * nat * Z)) :=
  match fuel with
  | O => ub
  | S fuel =>
      r ← ini_read INI_BUFFERSIZE fp;
      match r with
      | None => mret None
      | Some LocalBuffer =>
          let sp := skipleading LocalBuffer in
          if at_ sp 0 =? 91 then mret None
          else
            match separator sp with
            | Some ep =>
                if (at_ sp 0 =? 59) || (at_ sp 0 =? 35) then find_key fuel fp Key idx idxKey
                else if match Key with Some (c :: k) => names sp ep (c :: k) | _ => false end
                then mret (Some (sp, ep, idx))
                else if negb (idx + 1 =? idxKey) then find_key fuel fp Key (idx + 1) idxKey
                else mret (Some (sp, ep, idx + 1))
            | None => find_key fuel fp Key idx idxKey
            end
      end
  end.

(** The text copied to [Buffer], if there is one.  The mark is for a glue with
    [ini_openrewrite]. *)
Definition getkeystring (fuel : nat) (fp : Z) (Section Key : option (list Z)) (idxSection idxKey BufferSize : Z)
    : M (option (list Z)) :=
  let entry : M (option (list Z)) :=
    r ← find_key fuel fp Key (-1) idxKey;
    mret match r with
         | None => None
         | Some (sp, ep, idx) =>
             if 0 <=? idxKey then
               if idx =? idxKey then Some (ini_strncpy (striptrailing (take ep sp)) BufferSize QUOTE_NONE) else None
             else Some (value_at sp ep BufferSize)
         end in
  if negb (match Section with Some s => length s | None => 0 end =? 0)%nat || (0 <=? idxSection) then
    r ← find_section fuel fp Section (-1) idxSection;
    match r with
    | None => mret None
    | Some (sp, ep, idx) =>
        if 0 <=? idxSection then
          mret (if idx =? idxSection
                then Some (ini_strncpy (take (ep - 1) (drop 1 sp)) BufferSize QUOTE_NONE) else None)
        else entry
    end
  else entry.

(** The text in [Buffer]; its length is what is returned. *)
Definition ini_gets (fuel : nat) (Section : option (list Z)) (Key : list Z) (DefValue : option (list Z))
    (BufferSize : Z) (Filename : list Z) : M (list Z) :=
  let default := ini_strncpy match DefValue with Some d => d | None => [] end BufferSize QUOTE_NONE in
  fp ← ini_openread Filename;
  if fp =? 0 then mret default
  else
    ok ← getkeystring fuel fp Section (Some Key) (-1) (-1) BufferSize;
    _ ← ini_close fp;
    mret match ok with Some t => t | None => default end.

Definition ini_getl (fuel : nat) (Section : option (list Z)) (Key : list Z) (DefValue : Z) (Filename : list Z) : M Z :=
  LocalBuffer ← ini_gets fuel Section Key (Some []) 64 Filename;
  mret (if (length LocalBuffer =? 0)%nat then DefValue
        else if (2 <=? length LocalBuffer)%nat && (toupper (schar (at_ LocalBuffer 1)) =? 88)
        then strtol LocalBuffer 16 else strtol LocalBuffer 10).

Definition ini_getbool (fuel : nat) (Section : option (list Z)) (Key : list Z) (DefValue : Z) (Filename : list Z) : M Z :=
  LocalBuffer ← ini_gets fuel Section Key (Some []) 2 Filename;
  let c := toupper (schar (at_ LocalBuffer 0)) in
  mret (if (c =? 89) || (c =? 49) || (c =? 84) then 1
        else if (c =? 78) || (c =? 48) || (c =? 70) then 0 else DefValue).

(** [ini_getsection] and [ini_getkey], from their checked arguments on. *)
Definition ini_getsection (fuel : nat) (idx BufferSize : Z) (Filename : list Z) : M (list Z) :=
  if (BufferSize <=? 0) || (idx <? 0) then mret []
  else
    fp ← ini_openread Filename;
    if fp =? 0 then mret []
    else
      ok ← getkeystring fuel fp None None idx (-1) BufferSize;
      _ ← ini_close fp;
      mret match ok with Some t => t | None => [] end.
Definition ini_getkey (fuel : nat) (Section : option (list Z)) (idx BufferSize : Z) (Filename : list Z) : M (list Z) :=
  if (BufferSize <=? 0) || (idx <? 0) then mret []
  else
    fp ← ini_openread Filename;
    if fp =? 0 then mret []
    else
      ok ← getkeystring fuel fp Section None (-1) idx BufferSize;
      _ ← ini_close fp;
      mret match ok with Some t => t | None => [] end.

(** What [ini_browse] makes of a line, behind a section name of [lenSec] octets
    with its terminator. *)
Inductive line := Ignored | Section_line (name : list Z) | Pair (key value : list Z).

Definition parse_line (lenSec : Z) (LocalBuffer : list Z) : line :=
  let sp := skipleading LocalBuffer in
  if (at_ sp 0 =? 0) || (at_ sp 0 =? 59) || (at_ sp 0 =? 35) then Ignored
  else
    match (if at_ sp 0 =? 91 then strrchr sp 93 else None) with
    | Some ep => Section_line (ini_strncpy (take (ep - 1) (drop 1 sp)) INI_BUFFERSIZE QUOTE_NONE)
    | None =>
        match separator sp with
        | None => Ignored
        | Some ep =>
            let key := ini_strncpy (striptrailing (take ep sp)) (INI_BUFFERSIZE - lenSec) QUOTE_NONE in
            Pair key (value_at sp ep (INI_BUFFERSIZE - lenSec - (Z.of_nat (length key) + 1)))
        end
    end.

Context {U : Type} (Callback : list Z → list Z → list Z → U → outcome (Z * U)).

Fixpoint browse_loop (fuel : nat) (fp : Z) (sec : list Z) (UserData : U) : M U :=
  match fuel with
  | O => ub
  | S fuel =>
      let lenSec := Z.of_nat (length sec) + 1 in
      r ← ini_read (INI_BUFFERSIZE - lenSec) fp;
      match r with
      | None => mret UserData
      | Some LocalBuffer =>
          match parse_line lenSec LocalBuffer with
          | Ignored => browse_loop fuel fp sec UserData
          | Section_line name => browse_loop fuel fp name UserData
          | Pair key value =>
              '(go, UserData) ← liftO (Callback sec key value UserData);
              if go =? 0 then mret UserData else browse_loop fuel fp sec UserData
          end
      end
  end.

Definition ini_browse (fuel : nat) (UserData : U) (Filename : list Z) : M (Z * U) :=
  fp ← ini_openread Filename;
  if fp =? 0 then mret (0, UserData)
  else
    UserData ← browse_loop fuel fp [] UserData;
    _ ← ini_close fp;
    mret (1, UserData).

(** ** Writing *)

Definition writesection (Section : option (list Z)) (fp : Z) : M unit :=
  match section_text Section with [] => mret tt | t => _ ← ini_write t fp; mret tt end.
Definition writekey (Key Value : list Z) (fp : Z) : M unit := _ ← ini_write (key_text Key Value) fp; mret tt.

Definition cache_accum (string : list Z) (size max : Z) : option Z :=
  if max <=? size + Z.of_nat (length string) then None else Some (size + Z.of_nat (length string)).

(** The first [pos] characters of the buffer.  A read that fails leaves the
    terminator at [pos]. *)
Fixpoint flush_loop (fuel : nat) (buffer : list Z) (size rfp : Z) : M (list Z) :=
  if Z.of_nat (length buffer) <? size then
    match fuel with
    | O => ub
    | S fuel =>
        r ← ini_read (INI_BUFFERSIZE - Z.of_nat (length buffer)) rfp;
        flush_loop fuel (take (Z.to_nat size) (buffer ++ match r with Some t => t | None => [] end)) size rfp
    end
  else mret buffer.

(** Whether the buffer ended with a line termination, and the new mark; [*size]
    is 0 afterwards. *)
Definition cache_flush (size rfp wfp mark : Z) : M (bool * Z) :=
  _ ← ini_seek rfp mark;
  buffer ← flush_loop (Z.to_nat INI_BUFFERSIZE) [] size rfp;
  let buffer := take (Z.to_nat (INI_BUFFERSIZE - 1)) buffer in
  (match buffer with [] => mret tt | _ => _ ← ini_write buffer wfp; mret tt end) ;;
  mark ← ini_tell rfp;
  mret ((1 <? length buffer)%nat && bool_decide (list.last buffer = Some 10), mark).

Definition close_rename (rfp wfp : Z) (filename : list Z) : M Z :=
  _ ← ini_close rfp;
  _ ← ini_close wfp;
  _ ← ini_remove filename;
  buffer ← liftO (ini_tempname filename INI_BUFFERSIZE);
  _ ← ini_rename buffer filename;
  mret 1.

(** A line that was read is put in the cache, after the cache is written if it is
    full: the length in the cache and the mark. *)
Definition copy_line (LocalBuffer : list Z) (cachelen rfp wfp mark : Z) : M (Z * Z) :=
  match cache_accum LocalBuffer cachelen INI_BUFFERSIZE with
  | Some cachelen => mret (cachelen, mark)
  | None =>
      '(_, mark) ← cache_flush cachelen rfp wfp mark;
      r ← ini_read INI_BUFFERSIZE rfp;
      mret (match cache_accum match r with Some t => t | None => [] end 0 INI_BUFFERSIZE with
            | Some cachelen => cachelen
            | None => 0
            end, mark)
  end.

(** The loop for the section: [None] if there is none. *)
Fixpoint section_loop (fuel : nat) (Section : list Z) (erase : bool) (cachelen rfp wfp mark : Z) : M (bool * Z * Z) :=
  match fuel with
  | O => ub
  | S fuel =>
      r ← ini_read INI_BUFFERSIZE rfp;
      match r with
      | None => mret (false, cachelen, mark)
      | Some LocalBuffer =>
          let sp := skipleading LocalBuffer in
          let found := match strrchr sp 93 with
                       | Some ep => (at_ sp 0 =? 91) && heads sp ep Section
                       | None => false
                       end in
          '(cachelen, mark) ← (if negb found || negb erase then copy_line LocalBuffer cachelen rfp wfp mark
                               else mret (cachelen, mark));
          if found then mret (true, cachelen, mark)
          else section_loop fuel Section erase cachelen rfp wfp mark
      end
  end.

(** The loop for the key: whether it stopped before the end of the file, and then
    whether at a section. *)
Fixpoint key_loop (fuel : nat) (Key : option (list Z)) (cachelen rfp wfp mark : Z) : M (option bool * Z * Z) :=
  match fuel with
  | O => ub
  | S fuel =>
      r ← ini_read INI_BUFFERSIZE rfp;
      match r with
      | None => mret (None, cachelen, mark)
      | Some LocalBuffer =>
          let sp := skipleading LocalBuffer in
          let found := match separator sp, Key with
                       | Some ep, Some (c :: k) => names sp ep (c :: k)
                       | _, _ => false
                       end in
          if found || (at_ sp 0 =? 91) then mret (Some (at_ sp 0 =? 91), cachelen, mark)
          else
            match Key with
            | None => mark ← ini_tell rfp; key_loop fuel Key cachelen rfp wfp mark
            | Some _ =>
                '(cachelen, mark) ← copy_line LocalBuffer cachelen rfp wfp mark;
                key_loop fuel Key cachelen rfp wfp mark
            end
      end
  end.

(** The rest of the file. *)
Fixpoint copy_loop (fuel : nat) (cachelen rfp wfp mark : Z) : M (Z * Z) :=
  match fuel with
  | O => ub
  | S fuel =>
      r ← ini_read INI_BUFFERSIZE rfp;
      match r with
      | None => mret (cachelen, mark)
      | Some LocalBuffer =>
          '(cachelen, mark) ← copy_line LocalBuffer cachelen rfp wfp mark;
          copy_loop fuel cachelen rfp wfp mark
      end
  end.

(** The end of the file came first: the entry goes to the end, behind a line
    feed if the last line has none. *)
Definition append (Section Key Value : option (list Z)) (cachelen rfp wfp mark : Z) (Filename : list Z) : M Z :=
  '(flag, _) ← cache_flush cachelen rfp wfp mark;
  (match Key, Value with
   | Some Key, Some Value =>
       (match flag with true => mret tt | false => _ ← ini_write INI_LINETERM wfp; mret tt end) ;;
       writesection Section wfp ;;
       writekey Key Value wfp
   | _, _ => mret tt
   end) ;;
  close_rename rfp wfp Filename.

(** From the found section on. *)
Definition put_key (fuel : nat) (Key Value : option (list Z)) (cachelen rfp wfp mark : Z) (Filename : list Z) : M Z :=
  '(_, mark) ← cache_flush cachelen rfp wfp mark;
  mark ← match Key with
         | None => _ ← ini_read INI_BUFFERSIZE rfp; ini_tell rfp
         | Some _ => mret mark
         end;
  '(stop, cachelen, mark) ← key_loop fuel Key 0 rfp wfp mark;
  match stop with
  | None => append None Key Value cachelen rfp wfp mark Filename
  | Some flag =>
      '(_, mark) ← cache_flush cachelen rfp wfp mark;
      (match Key, Value with Some Key, Some Value => writekey Key Value wfp | _, _ => mret tt end) ;;
      r ← ini_read INI_BUFFERSIZE rfp;
      '(cachelen, mark) ←
        match flag with
        | true => mret (match cache_accum match r with Some t => t | None => [] end 0 INI_BUFFERSIZE with
                        | Some cachelen => cachelen
                        | None => 0
                        end, mark)
        | false => mark ← ini_tell rfp; mret (0, mark)
        end;
      '(cachelen, mark) ← copy_loop fuel cachelen rfp wfp mark;
      _ ← cache_flush cachelen rfp wfp mark;
      close_rename rfp wfp Filename
  end.

(** The file is open for reading as [rfp]: the copy with the entry. *)
Definition rewrite_file (fuel : nat) (Section Key Value : option (list Z)) (rfp : Z) (Filename : list Z) : M Z :=
  LocalBuffer ← liftO (ini_tempname Filename INI_BUFFERSIZE);
  wfp ← ini_openwrite LocalBuffer;
  if wfp =? 0 then _ ← ini_close rfp; mret 0
  else
    mark ← ini_tell rfp;
    match Section with
    | Some (c :: s) =>
        '(found, cachelen, mark) ← section_loop fuel (c :: s) (bool_decide (Key = None)) 0 rfp wfp mark;
        match found with
        | true => put_key fuel Key Value cachelen rfp wfp mark Filename
        | false => append Section Key Value cachelen rfp wfp mark Filename
        end
    | _ => put_key fuel Key Value 0 rfp wfp mark Filename
    end.

Definition ini_puts (fuel : nat) (Section Key Value : option (list Z)) (Filename : list Z) : M Z :=
  rfp ← ini_openread Filename;
  if rfp =? 0 then
    match Key, Value with
    | Some Key, Some Value =>
        wfp ← ini_openwrite Filename;
        if wfp =? 0 then mret 0
        else
          writesection Section wfp ;;
          writekey Key Value wfp ;;
          _ ← ini_close wfp;
          mret 1
    | _, _ => mret 1
    end
  else
    match Key, Value with
    | Some Key, Some Value =>
        mark ← ini_tell rfp;
        r ← getkeystring fuel rfp Section (Some Key) (-1) (-1) INI_BUFFERSIZE;
        if match r with Some LocalBuffer => strcmp LocalBuffer Value =? 0 | None => false end
        then _ ← ini_close rfp; mret 1
        else
          _ ← ini_seek rfp mark;
          rewrite_file fuel Section (Some Key) (Some Value) rfp Filename
    | _, _ => rewrite_file fuel Section Key Value rfp Filename
    end.

Definition ini_putl (fuel : nat) (Section : option (list Z)) (Key : list Z) (Value : Z) (Filename : list Z) : M Z :=
  ini_puts fuel Section (Some Key) (Some (long2str Value)) Filename.

End files.
End MinIni.
