(* ===== verification/MinIniText.v ===== *)
(** * The lines of a settings file

    The texts that minIni writes and reads, without the files: how the octets of
    a file fall into the pieces that [ini_read] delivers, which piece an entry is
    in, that a key with its value survives being written as a line and parsed
    again, and the entries of a text as [ini_browse] enumerates them. *)

From Stdlib Require Import String.
From S2P Require Import Prelude Strtol Format Strings Partition FatFiles FatStore MinIni.

Module MinIniText.
Import Strtol(at_).
Import Strings(schar, strchr, strrchr, memrchr, strcmp, tolower, strcasecmp, strncasecmp, cstr).
Import FatStore MinIni.

Abbreviation length := List.length.

(** ** Pieces *)

(** [ch], followed by [rest] in the file, is what a read of up to 255 characters
    delivers, and also what a shorter read delivers that has room for it. *)
Definition piece (ch rest : list Z) : Prop :=
  chars ch ≠ [] ∧ (length (chars ch) <= 255)%nat ∧
  ∀ lim, (length (chars ch) <= lim <= 255)%nat → cut lim (ch ++ rest) = ch.

Fixpoint pieces (cs : list (list Z)) : Prop :=
  match cs with [] => True | ch :: cs => piece ch (concat cs) ∧ pieces cs end.

Lemma last_tail {A} (x : A) l y : list.last (x :: l) ≠ Some y → list.last l ≠ Some y.
Proof. destruct l; [done|]. by cbn. Qed.

Lemma last_app_tail {A} (l k : list A) y : list.last (l ++ k) ≠ Some y → list.last k ≠ Some y.
Proof. induction l as [|x l IH]; [done|]. intros H. apply IH. by eapply last_tail. Qed.

Lemma cut_some lim c : c ≠ [] → list.last c ≠ Some 13 → chars (cut (S lim) c) ≠ [].
Proof.
  induction c as [|x c IH]; [done|]. intros _ Hl. cbn [cut]. unfold chars in *. destruct (Z.eqb_spec x 13) as [->|Hx].
  - rewrite filter_cons_False by (by intros []). destruct c; [done|]. apply IH; [done|]. by eapply last_tail.
  - destruct (x =? 10); by rewrite filter_cons_True.
Qed.

Lemma cut_again c : ∀ lim lim',
  list.last c ≠ Some 13 → (length (chars (cut lim c)) <= lim' <= lim)%nat → cut lim' c = cut lim c.
Proof.
  induction c as [|x c IH]; intros lim lim' Hl Hlen; [done|]. cbn [cut] in *.
  destruct lim as [|lim]; [by replace lim' with O by lia|]. pose proof (last_tail _ _ _ Hl) as Hl'.
  unfold chars in Hlen. destruct (Z.eqb_spec x 13) as [->|Hx].
  - rewrite filter_cons_False in Hlen by (by intros []). destruct lim' as [|lim'].
    + exfalso. destruct c as [|y c]; [done|]. apply (cut_some lim (y :: c)); [done..|]. apply nil_length_inv.
      unfold chars. lia.
    + f_equal. by apply IH.
  - destruct (x =? 10); rewrite filter_cons_True in Hlen by done; cbn [length] in Hlen;
      destruct lim' as [|lim']; try lia; [done|]. f_equal. apply IH; [done|]. unfold chars. lia.
Qed.

Lemma pieces_exist c : list.last c ≠ Some 13 → ∃ cs, pieces cs ∧ concat cs = c.
Proof.
  induction c as [c IH] using (induction_ltof1 _ (@length Z)). unfold ltof in IH. intros Hl.
  destruct c as [|x c]; [by exists []|].
  destruct (cut_prefix 255 (x :: c)) as [rest Hrest]. pose proof (cut_some 254 (x :: c) ltac:(done) Hl) as Hne.
  assert (list.last rest ≠ Some 13) as Hlr by (rewrite Hrest in Hl; by eapply last_app_tail).
  destruct (IH rest) as (cs & Hcs & Hc); [|done|].
  - rewrite Hrest, length_app. destruct (cut 255 (x :: c)); [done|]. cbn. lia.
  - exists (cut 255 (x :: c) :: cs). cbn [pieces concat]. rewrite Hc, <- Hrest. split; [|done]. split; [|done].
    split; [done|]. split; [apply cut_chars|]. intros lim Hlim. rewrite <- Hrest. by apply cut_again.
Qed.

Lemma pieces_app cs ds : pieces (cs ++ ds) → pieces ds.
Proof. induction cs as [|ch cs IH]; [done|]. intros [_ H]. auto. Qed.

Lemma pieces_count cs ds : pieces (cs ++ ds) → (length cs <= length (chars (concat cs)))%nat.
Proof.
  induction cs as [|ch cs IH]; cbn [pieces concat length app]; [lia|]. intros [(Hne & _) Hcs]. rewrite chars_app, length_app.
  specialize (IH Hcs). destruct (chars ch); [done|]. cbn [length]. lia.
Qed.

(** The same on the characters. *)
Fixpoint line_at (lim : nat) (t : list Z) : list Z :=
  match t, lim with
  | x :: t, S lim => if x =? 10 then [x] else x :: line_at lim t
  | _, _ => []
  end.

Lemma chars_cut lim c : chars (cut lim c) = line_at lim (chars c).
Proof.
  revert lim. induction c as [|x c IH]; intros lim; [by destruct lim|]. cbn [cut]. unfold chars in *.
  destruct (Z.eqb_spec x 13) as [->|Hx].
  - rewrite (filter_cons_False _ 13 c) by (by intros []). destruct lim as [|lim].
    + by destruct (filter _ c).
    + rewrite filter_cons_False by (by intros []). apply IH.
  - rewrite (filter_cons_True _ x c) by done. destruct lim as [|lim]; [done|]. cbn [line_at].
    destruct (x =? 10); rewrite filter_cons_True by done; [done|]. f_equal. apply IH.
Qed.

Lemma line_at_prefix lim t : t = line_at lim t ++ drop (length (line_at lim t)) t.
Proof.
  revert lim. induction t as [|x t IH]; intros lim; [by destruct lim|]. destruct lim as [|lim]; [done|].
  cbn [line_at]. destruct (x =? 10); [done|]. cbn. f_equal. apply IH.
Qed.

(** A complete line. *)
Definition is_line (l : list Z) : Prop := ∃ l', l = l' ++ [10] ∧ 10 ∉ l'.

Lemma line_at_line lim l t : is_line l → (length l <= lim)%nat → line_at lim (l ++ t) = l.
Proof.
  intros (l' & -> & Hn) Hlen. rewrite <- app_assoc. revert lim Hlen Hn.
  induction l' as [|x l' IH]; intros lim Hlen Hn; (destruct lim as [|lim]; [cbn in Hlen; lia|]); [done|].
  cbn. apply not_elem_of_cons in Hn as [Hx Hn]. destruct (Z.eqb_spec x 10); [done|]. f_equal.
  apply IH; [cbn in Hlen; lia|done].
Qed.

Lemma line_at_all lim t : 10 ∉ t → (length t <= lim)%nat → line_at lim t = t.
Proof.
  revert lim. induction t as [|x t IH]; intros lim Hn Hlen; [by destruct lim|].
  destruct lim as [|lim]; cbn in *; [lia|]. apply not_elem_of_cons in Hn as [Hx Hn].
  destruct (Z.eqb_spec x 10); [done|]. f_equal. apply IH; [done|lia].
Qed.

(** ** Blanks *)

Lemma skipleading_app s t :
  skipleading (s ++ t) = if forallb blank s then skipleading t else skipleading s ++ t.
Proof. induction s as [|c s IH]; [done|]. cbn. destruct (blank c); cbn; [apply IH|done]. Qed.

Lemma skipleading_first c s : blank c = false → skipleading (c :: s) = c :: s.
Proof. intros H. cbn. by rewrite H. Qed.

Lemma skiptrailing_blank s c : blank c = true → skiptrailing (s ++ [c]) = skiptrailing s.
Proof. intros H. unfold skiptrailing. rewrite rev_app_distr. cbn. by rewrite H. Qed.

Lemma skiptrailing_last s c : blank c = false → skiptrailing (s ++ [c]) = s ++ [c].
Proof. intros H. unfold skiptrailing. rewrite rev_app_distr. cbn. rewrite H. cbn. by rewrite rev_involutive. Qed.

Lemma skipleading_length s : (length (skipleading s) <= length s)%nat.
Proof. induction s as [|c s IH]; [done|]. cbn. destruct (blank c); cbn; lia. Qed.

Lemma skiptrailing_length s : (length (skiptrailing s) <= length s)%nat.
Proof. unfold skiptrailing. rewrite length_rev. etrans; [apply skipleading_length|]. by rewrite length_rev. Qed.

Lemma skipleading_suffix s : ∃ p, s = p ++ skipleading s.
Proof.
  induction s as [|c s [p IH]]; [by exists []|]. cbn. destruct (blank c); [|by exists []].
  exists (c :: p). cbn. by f_equal.
Qed.

Lemma skiptrailing_prefix s : ∃ p, s = skiptrailing s ++ p.
Proof.
  unfold skiptrailing. destruct (skipleading_suffix (rev s)) as [p Hp]. exists (rev p).
  apply (f_equal (@rev Z)) in Hp. by rewrite rev_involutive, rev_app_distr in Hp.
Qed.

(** Not blank at the end. *)
Definition tight (s : list Z) : Prop := match list.last s with Some c => blank c = false | None => True end.

Lemma skiptrailing_tight s : tight s → skiptrailing s = s.
Proof.
  destruct s as [|c s] using rev_ind; [done|]. unfold tight. rewrite last_snoc. apply skiptrailing_last.
Qed.

(** ** Quotes *)

Lemma enquote_roundtrip v d maxlen :
  Z.of_nat (2 * length v) + d < maxlen - 2 →
  ∀ d' maxlen', Z.of_nat (length v) + d' < maxlen' → dequote d' maxlen' (enquote d maxlen v) = v.
Proof.
  revert d. induction v as [|c v IH]; intros d Hd d' maxlen' Hd'; [done|]. cbn [length] in *. cbn [enquote].
  destruct (Z.ltb_spec d (maxlen - 2)); [|lia]. destruct (Z.eqb_spec c 34) as [->|Hc].
  - destruct (Z.leb_spec (maxlen - 3) d); [lia|]. cbn [dequote]. destruct (Z.ltb_spec d' (maxlen' - 1)); [|lia].
    cbn [Z.eqb Pos.eqb orb andb]. f_equal. apply IH; lia.
  - cbn [dequote]. destruct (Z.ltb_spec d' (maxlen' - 1)); [|lia].
    specialize (IH (d + 1) ltac:(lia) (d' + 1) maxlen' ltac:(lia)).
    destruct (enquote (d + 1) maxlen v) as [|c2 e] eqn:E; [by rewrite <- IH|].
    destruct (Z.eqb_spec c2 34) as [->|].
    + exfalso. destruct v as [|c3 v]; [done|]. cbn [enquote] in E. cbn [length] in Hd.
      destruct (Z.ltb_spec (d + 1) (maxlen - 2)); [|lia]. destruct (Z.eqb_spec c3 34); [|congruence].
      destruct (maxlen - 3 <=? d + 1); discriminate E.
    + rewrite andb_false_r. by f_equal.
Qed.

(** Inside quotes nothing is taken for a comment. *)
Lemma uncommented_quoted v d maxlen tail :
  10 ∉ v → Z.of_nat (2 * length v) + d < maxlen - 2 → tail = [34; 10] ∨ tail = [34] →
  uncommented (enquote d maxlen v ++ tail) true = enquote d maxlen v ++ tail.
Proof.
  intros Hnl Hd Htail. revert d Hd. induction v as [|c v IH]; intros d Hd.
  { destruct Htail as [->| ->]; reflexivity. }
  cbn [length] in Hd. apply not_elem_of_cons in Hnl as [Hc10 Hnl]. specialize (IH Hnl).
  cbn [enquote]. destruct (Z.ltb_spec d (maxlen - 2)); [|lia].
  destruct (Z.eqb_spec c 34) as [->|Hc].
  - destruct (Z.leb_spec (maxlen - 3) d); [lia|]. cbn [app uncommented]. cbn [Z.eqb Pos.eqb orb andb negb]. do 2 f_equal.
    apply IH. lia.
  - specialize (IH (d + 1) ltac:(lia)). cbn [app uncommented]. rewrite andb_false_r.
    destruct (enquote (d + 1) maxlen v ++ tail) as [|c2 e] eqn:E; [done|].
    destruct (Z.eqb_spec c 34); [done|]. destruct (Z.eqb_spec c 92) as [->|]; cbn [andb]; [|by rewrite IH].
    destruct (Z.eqb_spec c2 34) as [->|]; [|by rewrite IH]. do 2 f_equal.
    destruct v as [|c3 v].
    + destruct Htail as [->| ->]; injection E as <-; reflexivity.
    + exfalso. cbn [enquote length] in E, Hd. destruct (Z.ltb_spec (d + 1) (maxlen - 2)); [|lia].
      destruct (Z.eqb_spec c3 34) as [->|]; [destruct (Z.leb_spec (maxlen - 3) (d + 1)); [lia|discriminate E]|]. cbn in E. congruence.
Qed.

Lemma uncommented_plain v b :
  Forall (λ c, c ≠ 34 ∧ c ≠ 59 ∧ c ≠ 35) v → uncommented v b = v.
Proof.
  induction 1 as [|c v (H1 & H2 & H3) Hv IH]; [done|]. cbn [uncommented].
  destruct (Z.eqb_spec c 59); [done|]. destruct (Z.eqb_spec c 35); [done|]. cbn [orb andb].
  destruct v as [|c2 v]; [done|]. destruct (Z.eqb_spec c 34); [done|].
  inversion_clear Hv as [|?? (H21 & _ & _) _]. destruct (Z.eqb_spec c2 34); [done|]. rewrite andb_false_r. by rewrite IH.
Qed.

(** A value that survives: its characters are those of a line, and it has no
    blanks around it unless it is put in quotes. *)
Definition value_ok (v : list Z) : Prop :=
  Forall (λ c, byte c ∧ c ≠ 0 ∧ c ≠ 10 ∧ c ≠ 13) v ∧ (length v <= 100)%nat ∧
  (check_enquote v = QUOTE_NONE → match head v with Some c => blank c = false | None => True end ∧ tight v).

Lemma check_enquote_none v :
  check_enquote v = QUOTE_NONE → Forall (λ c, c ≠ 34 ∧ c ≠ 59 ∧ c ≠ 35) v.
Proof.
  unfold check_enquote. destruct (existsb _ v) eqn:E; [done|]. intros _. apply List.Forall_forall. intros c Hc.
  assert (¬ ((c =? 34) || (c =? 59) || (c =? 35) = true)) as Hn.
  { intros Ht. assert (existsb (λ c, (c =? 34) || (c =? 59) || (c =? 35)) v = true); [|congruence].
    apply existsb_exists. by exists c. }
  rewrite !orb_true_iff, !Z.eqb_eq in Hn. tauto.
Qed.

Lemma value_no_newline v : value_ok v → 10 ∉ v.
Proof. intros (Hv & _) Hin. rewrite list.Forall_forall in Hv. by destruct (Hv _ Hin) as (_ & _ & ? & _). Qed.

Lemma value_reads_back v m1 m2 :
  value_ok v → 203 < m1 → 100 < m2 →
  (let '(sp, quotes) := cleanstring (skipleading (ini_strncpy v m1 (check_enquote v) ++ [10])) in
   ini_strncpy sp m2 quotes) = v.
Proof.
  intros Hok Hm1 Hm2. pose proof Hok as (Hv & Hlen & Hnone). pose proof (value_no_newline v Hok) as Hnl.
  destruct (check_enquote v) eqn:Ec.
  - destruct (Hnone eq_refl) as [Hhead Htight]. pose proof (check_enquote_none v Ec) as Hplain.
    cbn [ini_strncpy]. rewrite take_ge by lia.
    assert (skipleading (v ++ [10]) = [] ∧ v = [] ∨ skipleading (v ++ [10]) = v ++ [10]) as [[-> ->]| ->].
    { destruct v as [|c v]; [by left|right]. apply skipleading_first, Hhead. }
    { cbn. apply take_nil. }
    unfold cleanstring. rewrite uncommented_plain by (apply Forall_app; split; [done|by repeat constructor]).
    unfold striptrailing. rewrite skiptrailing_blank, skiptrailing_tight by done.
    replace (at_ v 0 =? 34) with false; [cbn [andb ini_strncpy]; by rewrite take_ge by lia|].
    destruct v as [|c v]; [done|]. inversion_clear Hplain as [|?? (H & _) _]. cbn. by destruct (Z.eqb_spec c 34).
  - set (e := enquote 1 m1 v).
    assert (ini_strncpy v m1 QUOTE_ENQUOTE = 34 :: e ++ [34]) as ->.
    { unfold ini_strncpy. destruct (Z.ltb_spec m1 3); [lia|done]. }
    change (skipleading ((34 :: e ++ [34]) ++ [10])) with (34 :: (e ++ [34]) ++ [10]).
    assert (uncommented (34 :: (e ++ [34]) ++ [10]) false = (34 :: e ++ [34]) ++ [10]) as Hu.
    { change (34 :: (e ++ [34]) ++ [10]) with ([34] ++ (e ++ [34]) ++ [10]). rewrite <- (app_assoc e). cbn [app uncommented].
      cbn [Z.eqb Pos.eqb orb andb negb].
      assert (∃ c2 r, e ++ [34; 10] = c2 :: r ∧ c2 ≠ 34) as (c2 & r & Er & Hc2).
      { unfold e. destruct v as [|c v]; [done|]. cbn [enquote length] in *. destruct (Z.ltb_spec 1 (m1 - 2)); [|lia].
        destruct (Z.eqb_spec c 34); [|by eexists _, _]. destruct (Z.leb_spec (m1 - 3) 1); [lia|]. by eexists _, _. }
      rewrite Er. destruct (Z.eqb_spec c2 34); [done|]. rewrite <- Er. f_equal. rewrite <- (app_assoc e). cbn [app].
      apply uncommented_quoted; [done|lia|by left]. }
    unfold cleanstring. rewrite Hu. unfold striptrailing. rewrite skiptrailing_blank by done.
    change (34 :: e ++ [34]) with ((34 :: e) ++ [34]). rewrite skiptrailing_last by done.
    rewrite last_snoc, bool_decide_eq_true_2 by done. change (at_ ((34 :: e) ++ [34]) 0 =? 34) with true.
    change (drop 1 ((34 :: e) ++ [34])) with (e ++ [34]). cbn [andb]. rewrite removelast_last. cbn [ini_strncpy]. apply enquote_roundtrip; lia.
  - unfold check_enquote in Ec. by destruct (_ || _).
Qed.

(** ** Names *)

(** Equal but for the case of letters. *)
Definition same (k k' : list Z) : Prop := map tolower k = map tolower k'.

#[export] Instance same_dec k k' : Decision (same k k').
Proof. unfold same. apply _. Defined.
#[export] Instance same_equivalence : Equivalence same.
Proof. unfold same. split; repeat intro; congruence. Qed.

(** The characters of texts. *)
Definition letters (t : list Z) : Prop := Forall (λ c, byte c ∧ c ≠ 0) t.

Lemma tolower_zero c : byte c → c ≠ 0 → tolower c ≠ 0.
Proof. intros [H1 H2] H. unfold tolower. destruct (Strtol.isupper c); lia. Qed.

Lemma strcasecmp_same k k' : letters k → letters k' → (strcasecmp k k' = 0 ↔ same k k').
Proof.
  intros Hk. revert k'. unfold same. induction Hk as [|c k [Hb Hc] Hk IH]; intros k' Hk'; cbn [strcasecmp map].
  - destruct Hk' as [|c' k' [Hb' Hc'] Hk']; [by cbn|]. split; [|done]. intros H. exfalso.
    apply (tolower_zero c' Hb' Hc'). change (at_ (c' :: k') 0) with c' in H. change (tolower 0) with 0 in H. lia.
  - destruct Hk' as [|c' k' [Hb' Hc'] Hk']; cbn [map].
    + change (at_ [] 0) with 0. change (tolower 0) with 0. pose proof (tolower_zero c Hb Hc).
      destruct (Z.eqb_spec (tolower c) 0); [done|]. split; [lia|done].
    + change (at_ (c' :: k') 0) with c'. change (drop 1 (c' :: k')) with k'.
      destruct (Z.eqb_spec (tolower c) (tolower c')) as [E|E].
      * rewrite IH by done. split; [by intros ->; rewrite E|by intros [=]].
      * split; [lia|by intros [=]].
Qed.

Lemma strncasecmp_same s k : letters s → letters k →
  (strncasecmp s k (length k) = 0 ↔ same (take (length k) s) k).
Proof.
  intros Hs Hk. revert s Hs. unfold same. induction Hk as [|c k [Hb Hc] Hk IH]; intros s Hs; [by cbn|].
  cbn [length strncasecmp]. change (at_ (c :: k) 0) with c. change (drop 1 (c :: k)) with k.
  destruct Hs as [|d s [Hbd Hd] Hs]; cbn [take map].
  - change (at_ [] 0) with 0. change (tolower 0) with 0. pose proof (tolower_zero c Hb Hc).
    destruct (Z.eqb_spec 0 (tolower c)) as [|Hz]; [lia|]. cbn [negb]. split; [lia|done].
  - change (at_ (d :: s) 0) with d. change (drop 1 (d :: s)) with s.
    destruct (Z.eqb_spec (tolower d) (tolower c)) as [E|E]; cbn [negb].
    + destruct (Z.eqb_spec d 0); [done|]. rewrite IH by done. split; [by intros ->; rewrite E|by intros [=]].
    + split; [lia|by intros [=]].
Qed.

Lemma names_same sp ep k : letters sp → letters k →
  names sp ep k = true ↔ same (skiptrailing (take ep sp)) k.
Proof.
  intros Hs Hk. unfold names. rewrite andb_true_iff, Nat.eqb_eq, Z.eqb_eq, strncasecmp_same by done.
  destruct (skiptrailing_prefix (take ep sp)) as [p Hp]. set (x := skiptrailing (take ep sp)) in *.
  assert (x = take (length x) sp) as Hx.
  { rewrite <- (take_drop ep sp), Hp, <- app_assoc. by rewrite take_app_length. }
  split.
  - intros [Hl Hsame]. by rewrite Hx, Hl.
  - intros Hsame. assert (length x = length k) as Hl by (apply (f_equal length) in Hsame; by rewrite !length_map in Hsame).
    split; [done|]. by rewrite <- Hl, <- Hx.
Qed.

Lemma strchr_app s t c : u8 c ≠ 0 → u8 c ∉ s → strchr (s ++ t) c = (λ n, length s + n)%nat <$> strchr t c.
Proof.
  intros Hc. induction s as [|x s IH]; intros Hn; [cbn [app]; by destruct (strchr t c)|].
  apply not_elem_of_cons in Hn as [Hx Hn]. cbn. destruct (Z.eqb_spec x (u8 c)); [congruence|].
  rewrite IH by done. by destruct (strchr t c).
Qed.

Lemma strchr_some s c n : strchr s c = Some n → u8 c ≠ 0 → (n < length s)%nat.
Proof.
  revert n. induction s as [|x s IH]; intros n; cbn; [by destruct (Z.eqb_spec (u8 c) 0)|].
  destruct (x =? u8 c); [intros [= <-]; lia|]. destruct (strchr s c); [|done]. intros [= <-] Hc. specialize (IH _ eq_refl Hc). lia.
Qed.

(** A name that survives. *)
Definition key_ok (k : list Z) : Prop :=
  Forall (λ c, byte c ∧ c ≠ 0 ∧ c ≠ 10 ∧ c ≠ 13 ∧ c ≠ 61) k ∧ (0 < length k <= 40)%nat ∧
  match head k with Some c => blank c = false ∧ c ≠ 59 ∧ c ≠ 35 ∧ c ≠ 91 | None => False end ∧ tight k.

#[export] Instance quote_option_eq_dec : EqDecision quote_option.
Proof. solve_decision. Defined.
#[export] Instance tight_dec s : Decision (tight s).
Proof. unfold tight. destruct (list.last s); apply _. Defined.
#[export] Instance value_ok_dec v : Decision (value_ok v).
Proof.
  unfold value_ok. apply and_dec; [apply _|]. apply and_dec; [apply _|]. apply impl_dec; [apply _|].
  apply and_dec; [|apply _]. destruct (head v); apply _.
Defined.
#[export] Instance key_ok_dec k : Decision (key_ok k).
Proof.
  unfold key_ok. apply and_dec; [apply _|]. apply and_dec; [apply _|]. apply and_dec; [|apply _]. destruct (head k); apply _.
Defined.

(** ** The line of an entry *)

Definition quoted (k v : list Z) : list Z :=
  ini_strncpy v (INI_BUFFERSIZE - (Z.of_nat (length k) + 1) - 2) (check_enquote v).

Lemma key_text_eq k v : key_ok k → key_text k v = k ++ 61 :: quoted k v ++ [10].
Proof.
  intros (_ & Hl & _). unfold key_text, quoted. cbn [ini_strncpy]. rewrite (take_ge k) by (unfold INI_BUFFERSIZE; lia). done.
Qed.

Lemma enquote_chars d m v c : c ∈ enquote d m v → c ∈ v ∨ c = 92.
Proof.
  revert d. induction v as [|x v IH]; intros d; cbn [enquote]; [by intros ?%not_elem_of_nil|].
  destruct (_ <? _); [|by intros ?%not_elem_of_nil]. destruct (x =? 34).
  - destruct (_ <=? _); [by intros ?%not_elem_of_nil|]. rewrite !elem_of_cons. intros [->|[->|H]]; [auto..|].
    destruct (IH _ H); auto.
  - rewrite !elem_of_cons. intros [->|H]; [auto|]. destruct (IH _ H); auto.
Qed.

Lemma enquote_length d m v : (length (enquote d m v) <= 2 * length v)%nat.
Proof.
  revert d. induction v as [|x v IH]; intros d; cbn [enquote length]; [lia|].
  destruct (_ <? _); [|cbn; lia]. destruct (x =? 34); [destruct (_ <=? _); cbn [length]; [lia|]|cbn [length]];
    match goal with |- context [enquote ?d ?m v] => specialize (IH d) end; lia.
Qed.

Lemma quoted_chars k v :
  key_ok k → value_ok v → Forall (λ c, byte c ∧ c ≠ 0 ∧ c ≠ 10 ∧ c ≠ 13) (quoted k v) ∧ (length (quoted k v) <= 202)%nat.
Proof.
  intros (_ & Hlk & _) (Hv & Hlv & _). unfold quoted, INI_BUFFERSIZE.
  set (m := 256 - (Z.of_nat (length k) + 1) - 2). assert (213 <= m) as Hm by lia.
  assert (∀ n, Forall (λ c, byte c ∧ c ≠ 0 ∧ c ≠ 10 ∧ c ≠ 13) (take n v)) as Htake by (intros; by apply Forall_take).
  unfold check_enquote. destruct (_ || _); cbn [ini_strncpy].
  - unfold ini_strncpy. destruct (Z.ltb_spec m 3); [lia|]. split.
    + constructor; [done|]. apply Forall_app. split; [|by repeat constructor]. rewrite list.Forall_forall in Hv |- *.
      intros c [Hin| ->]%enquote_chars; [by apply Hv|done].
    + cbn [length]. rewrite length_app. cbn [length]. pose proof (enquote_length 1 m v). lia.
  - split; [done|]. rewrite length_take. lia.
Qed.

Lemma key_text_line k v : key_ok k → value_ok v →
  is_line (key_text k v) ∧ (length (key_text k v) <= 244)%nat ∧
  Forall (λ c, byte c ∧ c ≠ 0 ∧ c ≠ 13) (key_text k v).
Proof.
  intros Hk Hv. destruct (quoted_chars k v Hk Hv) as [Hq Hlq]. rewrite key_text_eq by done. destruct Hk as (Hk & Hl & _).
  assert (Forall (λ c, byte c ∧ c ≠ 0 ∧ c ≠ 10 ∧ c ≠ 13) (k ++ 61 :: quoted k v)) as Hall.
  { apply Forall_app. split; [eapply list.Forall_impl; [exact Hk|]; naive_solver|]. by constructor. }
  split; [|split].
  - exists (k ++ 61 :: quoted k v). split; [by rewrite <- app_assoc|]. intros Hin.
    rewrite list.Forall_forall in Hall. by destruct (Hall _ Hin) as (_ & _ & ? & _).
  - rewrite length_app. cbn [length]. rewrite length_app. cbn [length]. lia.
  - change (k ++ 61 :: quoted k v ++ [10]) with (k ++ (61 :: quoted k v) ++ [10]). rewrite app_assoc.
    apply Forall_app. split; [eapply list.Forall_impl; [exact Hall|]; naive_solver|by repeat constructor].
Qed.

Lemma key_first k : key_ok k → ∃ c k', k = c :: k' ∧ blank c = false ∧ c ≠ 0 ∧ c ≠ 59 ∧ c ≠ 35 ∧ c ≠ 91.
Proof.
  intros (Hk & Hl & Hh & _). destruct k as [|c k]; [cbn in Hl; lia|]. exists c, k. split; [done|].
  destruct Hh as (? & ? & ? & ?). inversion_clear Hk as [|?? (_ & ? & _) _]. done.
Qed.

(** What the parsers see of the line. *)
Lemma key_text_seen k v : key_ok k → value_ok v →
  let sp := skipleading (key_text k v) in
  sp = key_text k v ∧ separator sp = Some (length k) ∧ skiptrailing (take (length k) sp) = k ∧
  (∀ m, 100 < m → value_at sp (length k) m = v).
Proof.
  intros Hk Hv sp. destruct (key_first k Hk) as (c & k' & Ek & Hb & _).
  assert (sp = key_text k v) as Hsp.
  { assert (∃ r, key_text k v = c :: r) as [r Hr] by (rewrite key_text_eq, Ek by done; by eexists).
    unfold sp. rewrite Hr. by apply skipleading_first. }
  split; [done|]. rewrite Hsp, key_text_eq by done. split; [|split].
  - unfold separator. rewrite strchr_app; [change (strchr (61 :: quoted k v ++ [10]) 61) with (Some O)|done|].
    { cbn [fmap option_fmap option_map]. by rewrite Nat.add_0_r. }
    change (u8 61) with 61. destruct Hk as (Hk & _). rewrite list.Forall_forall in Hk. intros Hin.
    by destruct (Hk _ Hin) as (_ & _ & _ & _ & ?).
  - rewrite take_app_length. apply skiptrailing_tight, Hk.
  - intros m Hm. unfold value_at.
    replace (drop (S (length k)) (k ++ 61 :: quoted k v ++ [10])) with (quoted k v ++ [10]).
    + apply value_reads_back; [done| |done]. destruct Hk as (_ & Hl & _). unfold INI_BUFFERSIZE. lia.
    + change (61 :: quoted k v ++ [10]) with ([61] ++ quoted k v ++ [10]). rewrite app_assoc.
      replace (S (length k)) with (length (k ++ [61])) by (rewrite length_app; cbn; lia). by rewrite drop_app_length.
Qed.

Lemma parse_key_text k v : key_ok k → value_ok v → parse_line 1 (key_text k v) = Pair k v.
Proof.
  intros Hk Hv. destruct (key_text_seen k v Hk Hv) as (Hsp & Hsep & Hkey & Hval). unfold parse_line.
  rewrite Hsp in *. destruct (key_first k Hk) as (c & k' & Ek & Hb & H0 & H59 & H35 & H91).
  assert (at_ (key_text k v) 0 = c) as -> by (rewrite key_text_eq, Ek by done; done).
  destruct (Z.eqb_spec c 0), (Z.eqb_spec c 59), (Z.eqb_spec c 35), (Z.eqb_spec c 91); try done. cbn [orb].
  rewrite Hsep. unfold striptrailing. rewrite Hkey. destruct Hk as (_ & Hl & _).
  assert (ini_strncpy k (INI_BUFFERSIZE - 1) QUOTE_NONE = k) as -> by (unfold ini_strncpy, INI_BUFFERSIZE; apply take_ge; lia).
  f_equal. apply Hval. unfold INI_BUFFERSIZE. lia.
Qed.

(** ** A line feed at the end *)

Lemma uncommented_newline y : ∀ b,
  uncommented (y ++ [10]) b = uncommented y b ++ [10] ∨ uncommented (y ++ [10]) b = uncommented y b.
Proof.
  induction y as [y IH] using (induction_ltof1 _ (@length Z)). unfold ltof in IH. intros b.
  destruct y as [|c y]; [by left|]. cbn [app uncommented]. destruct (_ && negb b); [by right|].
  destruct y as [|c2 y]; cbn [app].
  { left. destruct (c =? 34); [reflexivity|]. cbn. rewrite andb_false_r. reflexivity. }
  destruct (c =? 34).
  - destruct (c2 =? 34).
    + destruct (IH y ltac:(cbn; lia) b) as [E|E]; rewrite E; [left|right]; done.
    + destruct (IH (c2 :: y) ltac:(cbn; lia) (negb b)) as [E|E]; cbn [app] in E; rewrite E; [left|right]; done.
  - destruct (_ && _).
    + destruct (IH y ltac:(cbn; lia) b) as [E|E]; rewrite E; [left|right]; done.
    + destruct (IH (c2 :: y) ltac:(cbn; lia) b) as [E|E]; cbn [app] in E; rewrite E; [left|right]; done.
Qed.

Lemma cleanstring_newline y : cleanstring (y ++ [10]) = cleanstring y.
Proof.
  unfold cleanstring, striptrailing. destruct (uncommented_newline y false) as [E|E]; rewrite E; [|done].
  by rewrite skiptrailing_blank.
Qed.

Lemma skipleading_newline s :
  skipleading (s ++ [10]) = skipleading s ++ [10] ∨ skipleading (s ++ [10]) = [] ∧ skipleading s = [].
Proof.
  rewrite skipleading_app. destruct (forallb blank s) eqn:E; [right|by left]. split; [done|].
  induction s as [|c s IH]; [done|]. cbn in *. apply andb_true_iff in E as [-> E]. auto.
Qed.

Lemma separator_newline s : separator (s ++ [10]) = separator s.
Proof.
  assert (∀ c, u8 c ≠ 0 → u8 c ≠ 10 → strchr (s ++ [10]) c = strchr s c) as H.
  { intros c H0 H10. induction s as [|x s IH]; cbn [app strchr]; [|by rewrite IH].
    destruct (Z.eqb_spec 10 (u8 c)); [congruence|]; destruct (Z.eqb_spec (u8 c) 0); done. }
  unfold separator. by rewrite !H.
Qed.

Lemma separator_some s ep : separator s = Some ep → (ep < length s)%nat.
Proof.
  unfold separator. destruct (strchr s 61) eqn:E; [intros [= <-]|intros E2]; by eapply strchr_some.
Qed.

Lemma parse_line_newline n l :
  at_ (skipleading l) 0 ≠ 91 → parse_line n (l ++ [10]) = parse_line n l.
Proof.
  intros Hs. unfold parse_line. destruct (skipleading_newline l) as [-> |[-> ->]]; [|done].
  set (sp := skipleading l) in *. destruct sp as [|c sp'] eqn:Esp; [done|]. rewrite <- Esp in *.
  replace (at_ (sp ++ [10]) 0) with (at_ sp 0) by (by rewrite Esp).
  destruct (_ || _); [done|]. destruct (Z.eqb_spec (at_ sp 0) 91); [done|].
  rewrite separator_newline. destruct (separator sp) as [ep|] eqn:E; [|done]. apply separator_some in E.
  rewrite take_app_le by lia. f_equal. unfold value_at. rewrite drop_app_le by lia.
  destruct (skipleading_newline (drop (S ep) sp)) as [-> |[-> ->]]; [|done]. by rewrite cleanstring_newline.
Qed.

(** ** Entries *)

(** The section, the name and the value of the entries of a text. *)
Definition item : Type := list Z * list Z * list Z.

Fixpoint entries_from (fuel : nat) (sec t : list Z) : list item :=
  match fuel with
  | O => []
  | S fuel =>
      match line_at (254 - length sec) t with
      | [] => []
      | l =>
          let rest := drop (length l) t in
          match parse_line (Z.of_nat (length sec) + 1) l with
          | Ignored => entries_from fuel sec rest
          | Section_line name => entries_from fuel name rest
          | Pair k v => (sec, k, v) :: entries_from fuel sec rest
          end
      end
  end.
Definition entries (sec t : list Z) : list item := entries_from (S (length t)) sec t.

Lemma entries_enough n : ∀ n' sec t, (length t < n)%nat → (length t < n')%nat → entries_from n sec t = entries_from n' sec t.
Proof.
  induction n as [|n IH]; intros n' sec t Hn Hn'; [lia|]. destruct n' as [|n']; [lia|]. cbn [entries_from].
  destruct (line_at (254 - length sec) t) as [|x l] eqn:El; [done|].
  pose proof (line_at_prefix (254 - length sec) t) as Hp. rewrite El in Hp.
  assert (length (drop (length (x :: l)) t) < length t)%nat as Hlt.
  { rewrite length_drop. apply (f_equal length) in Hp. rewrite length_app in Hp. cbn [length] in *. lia. }
  destruct (parse_line _ _); [| |f_equal]; apply IH; lia.
Qed.

Lemma entries_step sec t l :
  line_at (254 - length sec) t = l → l ≠ [] →
  entries sec t =
    let rest := drop (length l) t in
    match parse_line (Z.of_nat (length sec) + 1) l with
    | Ignored => entries sec rest
    | Section_line name => entries name rest
    | Pair k v => (sec, k, v) :: entries sec rest
    end.
Proof.
  intros El Hne. unfold entries at 1. cbn [entries_from]. rewrite El. destruct l as [|x l]; [done|].
  pose proof (line_at_prefix (254 - length sec) t) as Hp. rewrite El in Hp.
  assert (length (drop (length (x :: l)) t) < length t)%nat as Hlt.
  { rewrite length_drop. apply (f_equal length) in Hp. rewrite length_app in Hp. cbn [length] in *. lia. }
  cbv zeta. unfold entries. destruct (parse_line _ _); [| |f_equal]; apply entries_enough; lia.
Qed.

Lemma entries_end sec t : line_at (254 - length sec) t = [] → entries sec t = [].
Proof. intros E. unfold entries. cbn [entries_from]. by rewrite E. Qed.

(** ** Lines *)

Definition section_start (l : list Z) : bool := at_ (skipleading l) 0 =? 91.
Definition found (k l : list Z) : bool :=
  match separator (skipleading l) with Some ep => names (skipleading l) ep k | None => false end.

(** A complete line and a last line without a line feed, of up to 253 characters. *)
Definition whole (l : list Z) : Prop := is_line l ∧ (length l <= 254)%nat.
Definition loose (l : list Z) : Prop := l ≠ [] ∧ (10 ∉ l) ∧ (length l <= 253)%nat.
Inductive lined : list (list Z) → Prop :=
| lined_nil : lined []
| lined_loose l : loose l → lined [l]
| lined_cons l ls : whole l → lined ls → lined (l :: ls).

Lemma whole_blank : whole [10].
Proof. split; [|cbn; lia]. exists []. split; [done|apply not_elem_of_nil]. Qed.

Definition entry_of (l : list Z) : list item :=
  match parse_line 1 l with Pair k v => [([], k, v)] | _ => [] end.

Lemma not_section l : section_start l = false → ∀ n name, parse_line n l ≠ Section_line name.
Proof.
  unfold section_start, parse_line. intros -> n name. destruct (_ || _); [done|]. by destruct (separator _).
Qed.

Lemma entries_line l t : whole l → section_start l = false → entries [] (l ++ t) = entry_of l ++ entries [] t.
Proof.
  intros [Hl Hlen] Hs. assert (l ≠ []) as Hne by (destruct Hl as (l' & -> & _); by destruct l').
  rewrite (entries_step [] (l ++ t) l) by first [done|by apply line_at_line].
  cbv zeta. rewrite drop_app_length. unfold entry_of. cbn [length]. change (Z.of_nat 0 + 1) with 1.
  pose proof (not_section l Hs 1) as Hns. destruct (parse_line 1 l); [done| |done]. by destruct (Hns name).
Qed.

Lemma entries_loose l : loose l → section_start l = false → entries [] l = entry_of l.
Proof.
  intros (Hne & Hn & Hlen) Hs. rewrite (entries_step [] l l) by first [done|apply line_at_all; [done|cbn; lia]].
  cbv zeta. rewrite drop_all. unfold entry_of. cbn [length]. change (Z.of_nat 0 + 1) with 1.
  pose proof (not_section l Hs 1) as Hns. destruct (parse_line 1 l); [done| |done]. by destruct (Hns name).
Qed.

Lemma entries_lines ls t :
  Forall (λ l, whole l ∧ section_start l = false) ls → entries [] (concat ls ++ t) = flat_map entry_of ls ++ entries [] t.
Proof.
  induction 1 as [|l ls [Hl Hs] _ IH]; [done|]. cbn [concat flat_map]. rewrite <- !app_assoc, <- IH.
  by apply entries_line.
Qed.

Lemma lined_app ls l ls' : lined (ls ++ l :: ls') → Forall whole ls ∧ lined (l :: ls').
Proof.
  induction ls as [|x ls IH]; intros H; [done|]. cbn in H. inversion H; subst; [by destruct ls|].
  destruct IH as [Hw Hl]; [done|]. split; [by constructor|done].
Qed.

Lemma lined_whole ls ls' : Forall whole ls → lined ls' → lined (ls ++ ls').
Proof. induction 1; [done|]. intros. cbn. constructor; auto. Qed.

(** What putting an entry does to the lines. *)
Inductive put (k v : list Z) : list (list Z) → list (list Z) → Prop :=
| put_found bef l aft :
    Forall (λ l, found k l = false ∧ section_start l = false) bef → found k l = true → section_start l = false →
    put k v (bef ++ l :: aft) (bef ++ key_text k v :: aft)
| put_section bef l aft :
    Forall (λ l, found k l = false ∧ section_start l = false) bef → section_start l = true →
    put k v (bef ++ l :: aft) (bef ++ key_text k v :: l :: aft)
| put_end bef :
    Forall (λ l, found k l = false ∧ section_start l = false) bef → Forall whole bef →
    put k v bef (bef ++ [key_text k v])
| put_blank bef :
    Forall (λ l, found k l = false ∧ section_start l = false) bef → Forall whole bef →
    put k v bef (bef ++ [[10]; key_text k v])
| put_close bef l :
    Forall (λ l, found k l = false ∧ section_start l = false) (bef ++ [l]) → Forall whole bef → loose l →
    put k v (bef ++ [l]) (bef ++ [l ++ [10]; key_text k v]).

(** ** Entries of the lines *)

Lemma letters_skipleading l : letters l → letters (skipleading l).
Proof. intros H. destruct (skipleading_suffix l) as [p Hp]. rewrite Hp in H. by apply Forall_app in H as [_ H]. Qed.

Lemma letters_skiptrailing l : letters l → letters (skiptrailing l).
Proof. intros H. destruct (skiptrailing_prefix l) as [p Hp]. rewrite Hp in H. by apply Forall_app in H as [H _]. Qed.

Lemma key_letters k : key_ok k → letters k.
Proof. intros (H & _). eapply list.Forall_impl; [exact H|]. by intros c (? & ? & _). Qed.

Lemma tolower_sign c d : byte c → d = 59 ∨ d = 35 → tolower c = d → c = d.
Proof.
  intros Hc Hd. unfold tolower, Strtol.isupper. destruct (Z.ltb_spec (u32 (c - 65)) 26) as [H|H]; [|done].
  unfold u32 in H. destruct (decide (65 <= c)); [rewrite Z.mod_small in H; [lia|unfold byte in Hc; lia]|].
  intros E. unfold byte in Hc. exfalso. replace (c - 65) with ((c - 65 + 2 ^ 32) + (-1) * 2 ^ 32) in H by lia.
  rewrite Z_mod_plus_full, Z.mod_small in H; lia.
Qed.

(** A comment never has the name of an entry. *)
Lemma comment_not_found sp ep k : letters sp → key_ok k → at_ sp 0 = 59 ∨ at_ sp 0 = 35 → names sp ep k = false.
Proof.
  intros Hsp Hk Hc. destruct (names sp ep k) eqn:E; [|done]. exfalso.
  pose proof (key_letters k Hk) as Hkl. apply names_same in E; [|done..].
  destruct (key_first k Hk) as (c & k' & -> & _ & _ & H59 & H35 & _).
  destruct (skiptrailing_prefix (take ep sp)) as [p Hp]. unfold same in E.
  destruct (skiptrailing (take ep sp)) as [|x y]; [done|]. cbn [map] in E. injection E as E _.
  assert (x = at_ sp 0) as ->.
  { rewrite <- (take_drop ep sp), Hp. done. }
  inversion_clear Hkl as [|?? [Hb _] _].
  assert (tolower (at_ sp 0) = at_ sp 0) as Hl by (destruct Hc as [-> | ->]; reflexivity). rewrite Hl in E. symmetry in E.
  apply tolower_sign in E; [|done|done]. destruct Hc; congruence.
Qed.

Lemma entry_of_pair l k :
  letters l → (length l <= 254)%nat → key_ok k → section_start l = false →
  if found k l then ∃ k0 v0, entry_of l = [([], k0, v0)] ∧ same k0 k
  else Forall (λ e : item, e.1.1 = [] ∧ ¬ same e.1.2 k) (entry_of l).
Proof.
  intros Hl Hlen Hk Hs. pose proof (letters_skipleading l Hl) as Hsp. pose proof (skipleading_length l) as Hsl.
  unfold entry_of, parse_line, found, section_start in *. set (sp := skipleading l) in *. rewrite Hs.
  destruct (separator sp) as [ep|] eqn:Esep; [|destruct (_ || _); constructor].
  destruct ((at_ sp 0 =? 0) || (at_ sp 0 =? 59) || (at_ sp 0 =? 35)) eqn:Ec.
  { assert (names sp ep k = false) as ->; [|constructor]. rewrite !orb_true_iff, !Z.eqb_eq in Ec.
    destruct Ec as [[E0|E]|E]; [|apply comment_not_found; auto..]. exfalso.
    destruct sp as [|c sp']; [done|]. inversion_clear Hsp as [|?? [_ Hc] _]. done. }
  apply separator_some in Esep. pose proof (skiptrailing_length (take ep sp)) as Hkl. rewrite length_take in Hkl.
  assert (ini_strncpy (striptrailing (take ep sp)) (INI_BUFFERSIZE - 1) QUOTE_NONE = skiptrailing (take ep sp)) as ->.
  { unfold ini_strncpy, INI_BUFFERSIZE. apply take_ge. unfold striptrailing. lia. }
  pose proof (names_same sp ep k Hsp (key_letters k Hk)) as Hn.
  destruct (names sp ep k).
  - eexists _, _. split; [done|]. by apply Hn.
  - constructor; [|constructor]. split; [done|]. cbn [fst snd]. rewrite <- Hn. done.
Qed.

(** ** Values that fit *)

Lemma uncommented_prefix y : ∀ b, ∃ p, y = uncommented y b ++ p.
Proof.
  induction y as [y IH] using (induction_ltof1 _ (@length Z)). unfold ltof in IH. intros b.
  destruct y as [|c y]; [by exists []|]. cbn [uncommented]. destruct (_ && negb b); [by eexists|].
  destruct y as [|c2 y]; [by exists []|].
  assert (∀ b, ∃ p, c :: c2 :: y = (c :: c2 :: uncommented y b) ++ p) as H2.
  { intros b'. destruct (IH y ltac:(cbn; lia) b') as [p Hp]. exists p. cbn. by rewrite <- Hp. }
  assert (∀ b, ∃ p, c :: c2 :: y = (c :: uncommented (c2 :: y) b) ++ p) as H1.
  { intros b'. destruct (IH (c2 :: y) ltac:(cbn; lia) b') as [p Hp]. exists p. cbn [app]. by rewrite <- Hp. }
  destruct (c =? 34); [destruct (c2 =? 34)|destruct (_ && _)]; auto.
Qed.

Lemma removelast_prefix (s : list Z) : ∃ p, s = removelast s ++ p.
Proof. destruct s as [|x s _] using rev_ind; [by exists []|]. exists [x]. by rewrite removelast_last. Qed.

(** The cleaned text is a part of the text. *)
Lemma cleanstring_part y : ∃ a b, y = a ++ (cleanstring y).1 ++ b.
Proof.
  destruct (uncommented_prefix y false) as [p Hp]. unfold cleanstring, striptrailing.
  destruct (skiptrailing_prefix (uncommented y false)) as [q Hq]. set (z := skiptrailing (uncommented y false)) in *.
  destruct (_ && _); cbn [fst].
  - destruct (removelast_prefix (drop 1 z)) as [u Hu]. exists (take 1 z), (u ++ q ++ p).
    rewrite Hp, Hq at 1. rewrite <- (take_drop 1 z) at 1. rewrite Hu at 1. by rewrite <- !app_assoc.
  - exists [], (q ++ p). rewrite Hp, Hq at 1. by rewrite <- app_assoc.
Qed.

Lemma dequote_fits s d m m' :
  Z.of_nat (length s) + d < m → Z.of_nat (length s) + d < m' → dequote d m s = dequote d m' s.
Proof.
  revert d. induction s as [s IH] using (induction_ltof1 _ (@length Z)). unfold ltof in IH. intros d H H'.
  destruct s as [|c s]; [done|]. cbn [dequote length] in *.
  destruct (Z.ltb_spec d (m - 1)), (Z.ltb_spec d (m' - 1)); try lia.
  destruct s as [|c2 s]; [done|]. cbn [length] in *. destruct (_ && _); f_equal; apply IH; cbn [length]; lia.
Qed.

Lemma dequote_chars s m c : ∀ d, c ∈ dequote d m s → c ∈ s.
Proof.
  induction s as [s IH] using (induction_ltof1 _ (@length Z)). unfold ltof in IH. intros d.
  destruct s as [|x s]; [done|]. cbn [dequote]. destruct (_ <? _); [|by intros ?%not_elem_of_nil].
  destruct s as [|y s]; [done|]. destruct (_ && _); rewrite !elem_of_cons.
  - intros [->|H%IH]; [auto..|cbn; lia].
  - intros [->|H%IH]; [auto| |cbn; lia]. apply elem_of_cons in H as [->|H]; auto.
Qed.

Lemma value_at_fits sp ep m m' :
  Z.of_nat (length sp) - Z.of_nat ep - 1 < m → Z.of_nat (length sp) - Z.of_nat ep - 1 < m' → (ep < length sp)%nat →
  value_at sp ep m = value_at sp ep m'.
Proof.
  intros H H' Hep. unfold value_at. set (y := skipleading (drop (S ep) sp)).
  assert (length y <= length sp - S ep)%nat as Hy by (unfold y; etrans; [apply skipleading_length|]; by rewrite length_drop).
  destruct (cleanstring_part y) as (a & b & Hab). apply (f_equal length) in Hab. rewrite !length_app in Hab.
  destruct (cleanstring y) as [z q] eqn:Ez. cbn [fst] in Hab.
  assert (q ≠ QUOTE_ENQUOTE) as Hq by (unfold cleanstring in Ez; by destruct (_ && _); injection Ez as <- <-).
  destruct q; [|done|].
  - cbn [ini_strncpy]. by rewrite !take_ge by lia.
  - cbn [ini_strncpy]. apply dequote_fits; lia.
Qed.

Lemma value_at_letters sp ep m : letters sp → letters (value_at sp ep m).
Proof.
  intros Hsp. unfold value_at. set (y := skipleading (drop (S ep) sp)).
  assert (letters y) as Hy by (apply letters_skipleading; by apply Forall_drop).
  destruct (cleanstring_part y) as (a & b & Hab).
  assert (letters (cleanstring y).1) as Hc.
  { unfold letters in *. rewrite Hab in Hy. by apply Forall_app in Hy as [_ [H _]%Forall_app]. }
  destruct (cleanstring y) as [z q] eqn:Ez. cbn [fst] in Hc.
  assert (q ≠ QUOTE_ENQUOTE) as Hq by (unfold cleanstring in Ez; by destruct (_ && _); injection Ez as <- <-).
  destruct q; [|done|]; cbn [ini_strncpy]; [by apply Forall_take|].
  unfold letters in *. rewrite list.Forall_forall in *. intros c Hin%dequote_chars. auto.
Qed.

Lemma strcmp_zero a b : letters a → letters b → strcmp a b = 0 → a = b.
Proof.
  intros Ha. revert b. induction Ha as [|c a [_ Hc] Ha IH]; intros b Hb; cbn [strcmp].
  - destruct Hb as [|d b [_ Hd] Hb]; [done|]. change (at_ (d :: b) 0) with d. lia.
  - destruct Hb as [|d b [_ Hd] Hb].
    + change (at_ [] 0) with 0. destruct (Z.eqb_spec c 0); [done|lia].
    + change (at_ (d :: b) 0) with d. change (drop 1 (d :: b)) with b. destruct (Z.eqb_spec c d) as [->|]; [|lia].
      intros H. f_equal. by apply IH.
Qed.

(** The value of an entry that is found, as both readers see it. *)
Lemma entry_of_value l k ep :
  letters l → (length l <= 254)%nat → key_ok k → section_start l = false → found k l = true →
  separator (skipleading l) = Some ep →
  ∃ k0, entry_of l = [([], k0, value_at (skipleading l) ep INI_BUFFERSIZE)] ∧ same k0 k.
Proof.
  intros Hl Hlen Hk Hs Hf Hsep. pose proof (entry_of_pair l k Hl Hlen Hk Hs) as Hp. rewrite Hf in Hp.
  destruct Hp as (k0 & v0 & He & Hsame). exists k0. rewrite He. split; [|done]. do 2 f_equal.
  unfold entry_of, parse_line in He. unfold section_start in Hs. rewrite Hsep, Hs in He. destruct (_ || _); [done|].
  injection He as _ <-. pose proof (skipleading_length l). apply separator_some in Hsep.
  pose proof (skiptrailing_length (take ep (skipleading l))) as Hkl. rewrite length_take in Hkl.
  apply value_at_fits; [|unfold INI_BUFFERSIZE; lia|done]. unfold ini_strncpy, striptrailing, INI_BUFFERSIZE.
  rewrite length_take. lia.
Qed.

(** ** Putting an entry, by the entries *)

(** One entry is replaced or added in front of the first section; [plain] texts
    have no section. *)
Definition updates (k v : list Z) (plain : bool) (es es' : list item) : Prop :=
  ∃ bef old aft k', es = bef ++ old ++ aft ∧ es' = bef ++ ([], k', v) :: aft ∧ same k' k ∧
    Forall (λ e : item, e.1.1 = [] ∧ ¬ same e.1.2 k) bef ∧
    (old = [] ∧ (plain = true → aft = []) ∨ ∃ k0 v0, old = [([], k0, v0)] ∧ same k0 k).

Definition plain (ls : list (list Z)) : bool := forallb (λ l, negb (section_start l)) ls.

Lemma lined_short ls : lined ls → Forall (λ l, (length l <= 254)%nat) ls.
Proof. induction 1 as [|l (_ & _ & H)|l ls [_ H] _ IH]; constructor; try done; try constructor. lia. Qed.

Lemma entries_before k bef :
  key_ok k → Forall letters bef → Forall (λ l, (length l <= 254)%nat) bef →
  Forall (λ l, found k l = false ∧ section_start l = false) bef →
  Forall (λ e : item, e.1.1 = [] ∧ ¬ same e.1.2 k) (flat_map entry_of bef).
Proof.
  intros Hk Hl Hlen Hb. induction Hb as [|l bef [Hf Hs] Hb IH]; [constructor|].
  apply Forall_cons_1 in Hl as [Hl Hls]. apply Forall_cons_1 in Hlen as [Hlen Hlens]. cbn [flat_map].
  apply Forall_app. split; [|by apply IH]. pose proof (entry_of_pair l k Hl Hlen Hk Hs) as H. by rewrite Hf in H.
Qed.

Lemma key_text_whole k v : key_ok k → value_ok v → whole (key_text k v).
Proof. intros Hk Hv. destruct (key_text_line k v Hk Hv) as (? & ? & _). split; [done|lia]. Qed.

Lemma key_text_no_section k v : key_ok k → value_ok v → section_start (key_text k v) = false.
Proof.
  intros Hk Hv. unfold section_start. destruct (key_text_seen k v Hk Hv) as (-> & _).
  destruct (key_first k Hk) as (c & k' & Ek & _ & _ & _ & _ & H). rewrite key_text_eq, Ek by done. cbn.
  by destruct (Z.eqb_spec c 91).
Qed.

Lemma loose_close l : loose l → whole (l ++ [10]).
Proof. intros (_ & Hn & Hlen). split; [by exists l|]. rewrite length_app. cbn. lia. Qed.

Lemma section_start_close l : section_start (l ++ [10]) = section_start l.
Proof.
  unfold section_start. destruct (skipleading_newline l) as [-> |[-> ->]]; [|done]. by destruct (skipleading l).
Qed.

(** The entries around a line that has the name. *)
Lemma entries_around k bef l aft :
  Forall (λ l, found k l = false ∧ section_start l = false) bef → section_start l = false →
  lined (bef ++ l :: aft) →
  entries [] (concat (bef ++ l :: aft)) = flat_map entry_of bef ++ entry_of l ++ entries [] (concat aft).
Proof.
  intros Hb Hs Hd. apply lined_app in Hd as [Hw Hd]. rewrite concat_app, entries_lines.
  - f_equal. cbn [concat]. inversion Hd as [|? Hlo|?? Hwl]; subst; [|by apply entries_line].
    cbn [concat]. rewrite app_nil_r, entries_loose by done. by rewrite app_nil_r.
  - rewrite list.Forall_forall in *. intros x Hx. split; [by apply Hw|by apply Hb].
Qed.

Lemma put_updates k v ls ls' :
  key_ok k → value_ok v → Forall letters ls → lined ls → put k v ls ls' →
  updates k v (plain ls) (entries [] (concat ls)) (entries [] (concat ls')).
Proof.
  intros Hk Hv Hl Hd Hput. pose proof (lined_short ls Hd) as Hshort.
  pose proof (key_text_whole k v Hk Hv) as Hkw. pose proof (key_text_no_section k v Hk Hv) as Hks.
  assert (entry_of (key_text k v) = [([], k, v)]) as Hke by (unfold entry_of; by rewrite parse_key_text).
  assert (∀ bef, Forall (λ l, found k l = false ∧ section_start l = false) bef → Forall whole bef →
    Forall (λ l, whole l ∧ section_start l = false) bef) as Hboth.
  { intros bef H1 H2. rewrite list.Forall_forall in *. intros l Hin. split; [by apply H2|by apply H1]. }
  assert (∀ t, entries [] (key_text k v ++ t) = ([], k, v) :: entries [] t) as Hkt
    by (intros; rewrite entries_line by done; by rewrite Hke).
  destruct Hput as [bef l aft Hb Hf Hs|bef l aft Hb Hs|bef Hb Hw|bef Hb Hw|bef l Hb Hw Hlo];
    try (rewrite !Forall_app in Hl; destruct Hl as [Hl1 Hl2]); try (rewrite !Forall_app in Hshort; destruct Hshort as [Hsh1 Hsh2]);
    try (apply lined_app in Hd as [Hw Hd]).
  - pose proof (entry_of_pair l k ltac:(by inversion Hl2) ltac:(by inversion Hsh2) Hk Hs) as Hpair. rewrite Hf in Hpair.
    destruct Hpair as (k0 & v0 & He & Hsame). exists (flat_map entry_of bef), (entry_of l), (entries [] (concat aft)), k.
    split; [apply (entries_around k); [done|done|by apply lined_whole]|].
    split; [rewrite concat_app, entries_lines by auto; cbn [concat]; by rewrite Hkt|].
    split; [done|]. split; [by apply entries_before|right; eauto].
  - rewrite !concat_app, !entries_lines by auto. cbn [concat]. rewrite Hkt.
    eexists (flat_map entry_of bef), [], _, k. split; [done|]. split; [done|]. split; [done|].
    split; [by apply entries_before|]. left. split; [done|]. unfold plain. rewrite forallb_app. cbn [forallb].
    rewrite Hs. cbn. by rewrite andb_false_r.
  - exists (flat_map entry_of bef), [], [], k. rewrite concat_app. rewrite <- (app_nil_r (concat bef)) at 1.
    rewrite !entries_lines by auto. cbn [concat]. rewrite Hkt. split; [done|]. split; [done|]. split; [done|].
    split; [by apply entries_before|by left].
  - exists (flat_map entry_of bef), [], [], k. rewrite concat_app. rewrite <- (app_nil_r (concat bef)) at 1.
    rewrite !entries_lines by auto. cbn [concat].
    rewrite entries_line by (apply whole_blank || done). rewrite Hkt. split; [done|]. split; [done|].
    split; [done|]. split; [by apply entries_before|by left].
  - apply Forall_app in Hb as [Hb1 Hb2]. apply Forall_cons_1 in Hb2 as [[Hf Hs] _].
    pose proof (loose_close l Hlo) as Hwl.
    assert (at_ (skipleading l) 0 ≠ 91) as H91 by (unfold section_start in Hs; by apply Z.eqb_neq in Hs).
    assert (entry_of (l ++ [10]) = entry_of l) as He by (unfold entry_of; by rewrite parse_line_newline).
    assert (section_start (l ++ [10]) = false) as Hs' by by rewrite section_start_close.
    exists (flat_map entry_of (bef ++ [l])), [], [], k. rewrite !concat_app, !entries_lines by auto. cbn [concat].
    rewrite app_nil_r, entries_loose by done. rewrite (entries_line (l ++ [10])), He, Hkt by done.
    rewrite flat_map_app. cbn [flat_map]. rewrite !app_nil_r.
    split; [done|]. split; [by rewrite <- app_assoc|]. split; [done|]. split; [|by left].
    pose proof (entries_before k (bef ++ [l]) Hk) as Hfin.
    rewrite flat_map_app in Hfin. cbn [flat_map] in Hfin. rewrite app_nil_r in Hfin. apply Hfin; apply Forall_app; split; try done.
    by constructor.
Qed.

Lemma put_lined k v ls ls' : key_ok k → value_ok v → lined ls → put k v ls ls' → lined ls'.
Proof.
  intros Hk Hv Hd. pose proof (key_text_whole k v Hk Hv) as Hkw.
  destruct 1 as [bef l aft Hb Hf Hs|bef l aft Hb Hs|bef Hb Hw|bef Hb Hw|bef l Hb Hw Hlo].
  - apply lined_app in Hd as [Hw Hd]. apply lined_whole; [done|]. constructor; [done|]. inversion Hd; [constructor|done].
  - apply lined_app in Hd as [Hw Hd]. apply lined_whole; [done|]. by constructor.
  - apply lined_whole; [done|]. constructor; [done|constructor].
  - apply lined_whole; [done|]. constructor; [apply whole_blank|]. constructor; [done|constructor].
  - apply lined_whole; [done|]. constructor; [by apply loose_close|]. constructor; [done|constructor].
Qed.

(** Characters of a text in a file. *)
Definition textual (c : Z) : Prop := byte c ∧ c ≠ 0 ∧ c ≠ 13.

Lemma textual_letters t : Forall textual t → letters t.
Proof. intros H. eapply list.Forall_impl; [exact H|]. by intros c (? & ? & _). Qed.

Lemma put_textual k v ls ls' :
  key_ok k → value_ok v → Forall (Forall textual) ls → put k v ls ls' → Forall (Forall textual) ls'.
Proof.
  intros Hk Hv Hl. destruct (key_text_line k v Hk Hv) as (_ & _ & Hkt).
  assert (Forall textual [10]) as H10 by (constructor; [done|constructor]).
  destruct 1 as [bef l aft Hb Hf Hs|bef l aft Hb Hs|bef Hb Hw|bef Hb Hw|bef l Hb Hw Hlo];
    try (apply Forall_app in Hl as [Hl Hl2]; apply Forall_cons_1 in Hl2 as [Hl2 Hl3]);
    apply Forall_app; (split; [done|]); repeat constructor; try done.
  apply Forall_app. done.
Qed.

Lemma put_plain k v ls ls' : key_ok k → value_ok v → put k v ls ls' → plain ls = true → plain ls' = true.
Proof.
  intros Hk Hv. pose proof (key_text_no_section k v Hk Hv) as Hks. unfold plain.
  destruct 1 as [bef l aft Hb Hf Hs|bef l aft Hb Hs|bef Hb Hw|bef Hb Hw|bef l Hb Hw Hlo];
    rewrite !forallb_app; cbn [forallb]; rewrite ?section_start_close, Hks, !andb_true_iff; tauto.
Qed.

Lemma lined_cases ls : lined ls → Forall whole ls ∨ ∃ ls0 l, ls = ls0 ++ [l] ∧ Forall whole ls0 ∧ loose l.
Proof.
  induction 1 as [|l Hl|l ls Hl _ IH].
  - left. constructor.
  - right. by exists [], l.
  - destruct IH as [IH|(ls0 & l0 & -> & H & H0)]; [left; by constructor|right].
    exists (l :: ls0), l0. split; [done|]. split; [by constructor|done].
Qed.

(** The pieces of a file with lines are its lines. *)
Lemma pieces_lines cs : ∀ ls,
  pieces cs → lined ls → chars (concat cs) = concat ls → map chars cs = ls.
Proof.
  induction cs as [|ch cs IH]; intros ls Hcs Hls E.
  { cbn in E. destruct Hls as [|l (Hne & _)|l ls [(l' & -> & _) _] _]; [done| |].
    - cbn in E. rewrite app_nil_r in E. congruence.
    - cbn in E. by destruct l'. }
  destruct Hcs as [(Hne & Hlen & Hcut) Hcs]. cbn [concat] in E. rewrite chars_app in E.
  assert (line_at 255 (chars ch ++ chars (concat cs)) = chars ch) as Hline.
  { rewrite <- chars_app, <- chars_cut. f_equal. apply Hcut. lia. }
  rewrite E in Hline. destruct Hls as [|l (Hl & Hn & Hll)|l ls [Hl Hll] Hls]; cbn [concat] in E, Hline.
  - cbn in Hline. congruence.
  - rewrite app_nil_r in *. rewrite line_at_all in Hline by (done || lia). rewrite Hline in E.
    rewrite <- (app_nil_r (chars ch)) in E at 2. apply app_inv_head in E.
    assert (cs = []) as ->; [|by rewrite Hline].
    destruct cs as [|ch2 cs]; [done|]. destruct Hcs as [(Hne2 & _) _]. cbn [concat] in E. rewrite chars_app in E.
    by destruct (chars ch2).
  - rewrite line_at_line in Hline by (done || lia). subst l. apply app_inv_head in E. cbn [map]. f_equal. by apply IH.
Qed.

(** The names are made of the characters of the text. *)
Lemma parse_line_letters n l k v : letters l → parse_line n l = Pair k v → letters k.
Proof.
  intros Hl. unfold parse_line. destruct (_ || _); [done|].
  destruct (if _ : bool then _ else _) as [ep|]; [done|]. destruct (separator _) as [ep|]; [|done].
  intros [= <- _]. apply Forall_take. apply letters_skiptrailing, Forall_take. by apply letters_skipleading.
Qed.

Lemma entries_letters t : ∀ sec, letters t → Forall (λ e : item, letters e.1.2) (entries sec t).
Proof.
  unfold entries. generalize (S (length t)) as n. intros n. revert t.
  induction n as [|n IH]; intros t sec Ht; [constructor|]. cbn [entries_from].
  destruct (line_at (254 - length sec) t) as [|x l] eqn:El; [constructor|].
  pose proof (line_at_prefix (254 - length sec) t) as Hp. rewrite El in Hp.
  assert (letters (x :: l)) as Hl by (unfold letters in *; rewrite Hp in Ht; by apply Forall_app in Ht as [H _]).
  assert (letters (drop (length (x :: l)) t)) as Hd by by apply Forall_drop.
  destruct (parse_line _ _) as [|name|k v] eqn:E; [by apply IH|by apply IH|]. constructor; [|by apply IH].
  exact (parse_line_letters _ _ _ _ Hl E).
Qed.

(** ** Files of lines *)

Definition file_ok (c : list Z) (ls : list (list Z)) : Prop :=
  letters c ∧ list.last c ≠ Some 13 ∧ chars c = concat ls ∧ lined ls.

Lemma concat_forall {A} (R : A → Prop) ls : Forall R (concat ls) ↔ Forall (Forall R) ls.
Proof.
  induction ls as [|l ls IH]; cbn [concat]; [split; constructor|]. rewrite Forall_app, IH. split.
  - intros [H1 H2]. by constructor.
  - intros H. by apply Forall_cons_1 in H.
Qed.

Lemma file_textual c ls : file_ok c ls → Forall (Forall textual) ls.
Proof.
  intros (Hl & _ & Hc & _). apply concat_forall. rewrite <- Hc. unfold letters, chars in *.
  rewrite list.Forall_forall in *. intros x [Hx Hin]%list_elem_of_filter. destruct (Hl x Hin). by split.
Qed.

Lemma crlf_letters t : Forall textual t → letters (crlf t).
Proof.
  induction 1 as [|x t (Hb & H0 & _) _ IH]; [constructor|]. unfold crlf in *. cbn [flat_map]. apply Forall_app. split; [|done].
  destruct (x =? 10); [by repeat constructor|]. constructor; [|constructor]. rewrite (u8_id _ Hb). done.
Qed.

Lemma crlf_no_cr t : Forall textual t → list.last (crlf t) ≠ Some 13.
Proof.
  destruct t as [|x t _] using rev_ind; [done|]. intros [_ Hx]%Forall_app. apply Forall_cons_1 in Hx as [(Hb & _ & Hx) _].
  rewrite crlf_app. unfold crlf at 2. cbn [flat_map]. destruct (x =? 10).
  - change ([13; 10] ++ []) with ([13] ++ [10]). rewrite app_assoc, last_snoc. done.
  - cbn [app]. rewrite last_snoc, (u8_id _ Hb). congruence.
Qed.

Lemma crlf_ok ls : Forall (Forall textual) ls → lined ls → file_ok (crlf (concat ls)) ls.
Proof.
  intros Ht Hl. apply concat_forall in Ht. split; [by apply crlf_letters|]. split; [by apply crlf_no_cr|]. split; [|done].
  apply chars_crlf. eapply list.Forall_impl; [exact Ht|]. by intros x (? & _ & ?).
Qed.

End MinIniText.
