(* ===== verification/MinIniRun.v ===== *)
(** * Runs of minIni

    What [ini_puts] and [ini_browse] do to the files, by the lines and entries of
    [MinIniText].  A copy of the file is made through a cache of marks: the text
    that is still in the cache is read a second time when it is written.  [copying]
    hides the cache: [tot] is everything that has been accepted for the copy. *)

From Stdlib Require Import String.
From stdpp Require Import gmap.
From S2P Require Import Prelude Strtol Format Strings Partition FatFiles FatStore MinIni MinIniText.

Module MinIniRun.
Import Strtol(at_).
Import Format(text).
Import Strings(strchr, strcmp, cstr).
Import FatFiles FatStore MinIni MinIniText.

Abbreviation length := List.length.

Lemma cstr_letters l : letters l → cstr l = l.
Proof.
  induction 1 as [|c l [_ Hc] _ IH]; [done|]. cbn [cstr]. destruct (Z.eqb_spec c 0); [done|]. by rewrite IH.
Qed.

Lemma letters_chars raw : letters raw → letters (chars raw).
Proof.
  intros H. unfold letters, chars in *. rewrite list.Forall_forall in *. intros c [_ Hc]%list_elem_of_filter. by apply H.
Qed.

Section run.
Context {F D X : Type} `{!FatFs F D X} {known : path → Prop} {room : Z} `{!FatFsFiles F D X known room}.
#[local] Abbreviation M := (ST (accessor F D X)).

(** The file that is read. *)
Context (P : path) (data : list Z).
Context (Hletters : letters data) (Hsize : Z.of_nat (length data) < 2 ^ 32).

Definition rd (pos : nat) : view := mkView P (Z.of_nat pos) data false.

Lemma wp_read_piece s m r pre ch rest a lim (Q : option (list Z) → accessor F D X → Prop) :
  data = pre ++ ch ++ rest → chars ch ≠ [] → cut (Z.to_nat (lim - 1)) (ch ++ rest) = ch →
  sees s (<[r := rd (length pre)]> m) a →
  (∀ a', sees s (<[r := rd (length (pre ++ ch))]> m) a' → Q (Some (chars ch)) a') →
  wp (ini_read lim r) Q a.
Proof using Hletters.
  intros Hd Hne Hcut Hs HQ. unfold ini_read. apply wp_bind.
  eapply wp_gets_text; [exact Hs|by rewrite lookup_insert_eq|done|cbn; lia|].
  cbv zeta. intros a'. unfold ahead, at_pos, rd. cbn [vpos vdata vpath vwrite]. rewrite Nat2Z.id, insert_insert_eq.
  replace (drop (length pre) data) with (ch ++ rest) by (by rewrite Hd, drop_app_length). rewrite Hcut. intros Ha.
  destruct (Nat.eqb_spec (length (chars ch)) 0) as [H0|_].
  { apply nil_length_inv in H0. done. }
  apply wp_ret. cbn. rewrite cstr_letters; [apply HQ; unfold rd; by rewrite length_app, Nat2Z.inj_add|].
  apply letters_chars. unfold letters in *. rewrite Hd in Hletters. by apply Forall_app in Hletters as [_ [H _]%Forall_app].
Qed.

Lemma wp_read_end s m r a lim (Q : option (list Z) → accessor F D X → Prop) :
  sees s (<[r := rd (length data)]> m) a →
  (∀ a', sees s (<[r := rd (length data)]> m) a' → Q None a') →
  wp (ini_read lim r) Q a.
Proof.
  intros Hs HQ. unfold ini_read. apply wp_bind.
  eapply wp_gets_text; [exact Hs|by rewrite lookup_insert_eq|done|cbn; lia|].
  cbv zeta. intros a'. unfold ahead, at_pos, rd. cbn [vpos vdata vpath vwrite]. rewrite Nat2Z.id, insert_insert_eq.
  rewrite drop_all. cbn. rewrite Z.add_0_r. intros Ha. by apply HQ.
Qed.

(** ** The copy *)

Context (s : gmap path (list Z)) (r w : Z) (T : path) (Hrw : r ≠ w).

Definition wr (out : list Z) : view := mkView T (Z.of_nat (length out)) out true.
Definition opens (pos : nat) (out : list Z) (a : accessor F D X) : Prop := sees s (<[r := rd pos]> (<[w := wr out]> ∅)) a.

Definition copying (tot : list Z) (seen todo : list (list Z)) (cachelen mark : Z) (a : accessor F D X) : Prop :=
  ∃ o before ks, tot = o ++ crlf (chars (concat ks)) ∧
    data = concat before ++ concat ks ++ concat seen ++ concat todo ∧ pieces (ks ++ seen ++ todo) ∧
    mark = Z.of_nat (length (concat before)) ∧ cachelen = Z.of_nat (length (chars (concat ks))) ∧ cachelen < 256 ∧
    opens (length (concat before ++ concat ks ++ concat seen)) o a.

Lemma piece_read ch cs lim : pieces (ch :: cs) → (length (chars ch) <= Z.to_nat (lim - 1) <= 255)%nat →
  chars ch ≠ [] ∧ cut (Z.to_nat (lim - 1)) (ch ++ concat cs) = ch.
Proof. intros [(Hne & Hl & Hcut) _] Hlim. split; [done|]. by apply Hcut. Qed.

Lemma read_runs tot ch todo cl mk a (Q : option (list Z) → accessor F D X → Prop) :
  copying tot [] (ch :: todo) cl mk a →
  (∀ a', copying tot [ch] todo cl mk a' → Q (Some (chars ch)) a') → wp (ini_read INI_BUFFERSIZE r) Q a.
Proof using Hletters.
  intros (o & bef & ks & Ht & Hd & Hp & Hm & Hc & Hcl & Ho) HQ. cbn [concat app] in Hd, Ho. rewrite app_nil_r in Ho.
  assert (pieces (ch :: todo)) as Hp' by (cbn in Hp; by eapply pieces_app).
  destruct (piece_read ch todo INI_BUFFERSIZE Hp') as [Hne Hcut].
  { destruct Hp' as [(_ & Hl & _) _]. change (Z.to_nat (INI_BUFFERSIZE - 1)) with 255%nat. lia. }
  eapply (wp_read_piece s _ r (concat bef ++ concat ks) ch (concat todo)); [by rewrite Hd, <- app_assoc|done|done|exact Ho|].
  intros a' Ha. apply HQ. exists o, bef, ks. cbn [concat app]. rewrite app_nil_r. do 6 (split; [done|]).
  unfold opens. by rewrite <- app_assoc in Ha.
Qed.

Lemma read_end_runs tot cl mk a (Q : option (list Z) → accessor F D X → Prop) :
  copying tot [] [] cl mk a →
  (∀ a', copying tot [] [] cl mk a' → Q None a') → wp (ini_read INI_BUFFERSIZE r) Q a.
Proof.
  intros (o & bef & ks & Ht & Hd & Hp & Hm & Hc & Hcl & Ho) HQ. cbn [concat app] in Hd, Ho. rewrite !app_nil_r in *.
  unfold opens in Ho. rewrite <- Hd in Ho. eapply wp_read_end; [exact Ho|]. intros a' Ha. apply HQ.
  exists o, bef, ks. cbn [concat app]. rewrite !app_nil_r. do 6 (split; [done|]). unfold opens. by rewrite <- Hd.
Qed.

Lemma flush_loop_runs todo o pre ks2 : ∀ fuel ks1 a,
  data = pre ++ concat ks1 ++ concat ks2 ++ concat todo → pieces (ks2 ++ todo) → (length ks2 <= fuel)%nat →
  (length (chars (concat ks1)) + length (chars (concat ks2)) <= 255)%nat →
  opens (length (pre ++ concat ks1)) o a →
  wp (flush_loop fuel (chars (concat ks1)) (Z.of_nat (length (chars (concat ks1)) + length (chars (concat ks2)))) r)
    (λ b a', b = chars (concat ks1) ++ chars (concat ks2) ∧ opens (length (pre ++ concat ks1 ++ concat ks2)) o a') a.
Proof using Hletters.
  induction ks2 as [|ch ks2 IH]; intros fuel ks1 a Hd Hp Hf Hsz Ho.
  { cbn [concat]. rewrite !app_nil_r, Nat.add_0_r.
    destruct fuel; cbn [flush_loop]; destruct (Z.ltb_spec (Z.of_nat (length (chars (concat ks1)))) (Z.of_nat (length (chars (concat ks1)))));
      try lia; by apply wp_ret. }
  cbn [concat app] in *. rewrite (chars_app ch) in *. rewrite (length_app (chars ch)) in *. destruct fuel as [|fuel]; [cbn in Hf; lia|]. cbn [flush_loop].
  pose proof Hp as [(Hne & _) Hp'].
  assert (0 < length (chars ch))%nat as Hpos by (destruct (chars ch); [done|cbn; lia]).
  destruct (Z.ltb_spec (Z.of_nat (length (chars (concat ks1)))) (Z.of_nat (length (chars (concat ks1)) + (length (chars ch) + length (chars (concat ks2))))));
    [|lia].
  apply wp_bind. destruct (piece_read ch (ks2 ++ todo) (INI_BUFFERSIZE - Z.of_nat (length (chars (concat ks1)))) Hp) as [_ Hcut].
  { unfold INI_BUFFERSIZE. lia. }
  eapply (wp_read_piece s _ r (pre ++ concat ks1) ch (concat ks2 ++ concat todo)); [by rewrite Hd, <- !app_assoc|done| |exact Ho|].
  { by rewrite <- concat_app. }
  intros a' Ha. rewrite take_ge by (rewrite length_app; lia).
  specialize (IH fuel (ks1 ++ [ch]) a'). rewrite !concat_app in IH. cbn [concat] in IH.
  rewrite app_nil_r, chars_app, (length_app (chars (concat ks1))), <- !app_assoc, <- Nat.add_assoc in IH. apply IH; [|done|cbn in Hf; lia|lia|].
  - etrans; [exact Hd|]. by rewrite <- app_assoc.
  - unfold opens. by rewrite <- app_assoc in Ha.
Qed.

Lemma opens_seek o pos n a (Q : Z → accessor F D X → Prop) :
  opens pos o a → (n <= length data)%nat → (∀ a', opens n o a' → Q 0 a') → wp (ini_seek r (Z.of_nat n)) Q a.
Proof.
  intros Ho Hn HQ. unfold ini_seek. eapply wp_seek; [exact Ho|by rewrite lookup_insert_eq|done|cbn; lia|].
  intros a' Ha. apply HQ. unfold opens. rewrite insert_insert_eq in Ha. exact Ha.
Qed.

Lemma opens_tell o pos a : opens pos o a → (pos <= length data)%nat → ini_tell r a = Ok (Z.of_nat pos, a).
Proof using Hsize.
  intros Ho Hp. unfold ini_tell. rewrite (tell_slot _ _ _ r (rd pos) Ho) by (by rewrite lookup_insert_eq).
  cbn. rewrite u32_id; [done|]. unfold word32. lia.
Qed.

Lemma opens_write o pos t a (Q : Z → accessor F D X → Prop) :
  opens pos o a → Z.of_nat (length o + length (crlf t)) <= room →
  (∀ x a', opens pos (o ++ crlf t) a' → Q x a') → wp (ini_write t w) Q a.
Proof using Hrw.
  intros Ho Hroom HQ. unfold ini_write. eapply wp_puts_text; [exact Ho|by rewrite lookup_insert_ne, lookup_insert_eq| | |].
  - done.
  - done.
  - cbn [vdata vpath wr]. intros x a' Ha. apply (HQ x). unfold opens. by rewrite insert_insert_ne, insert_insert_eq in Ha.
Qed.

Lemma crlf_last o b : list.last b = Some 10 → list.last (o ++ crlf b) = Some 10.
Proof.
  destruct b as [|x b _] using rev_ind; [done|]. rewrite last_snoc. intros [= ->]. rewrite crlf_app.
  change (crlf [10]) with ([13] ++ [10]). rewrite !app_assoc. apply last_snoc.
Qed.

Lemma flush_runs tot seen todo cl mk a (Q : bool * Z → accessor F D X → Prop) :
  copying tot seen todo cl mk a → Z.of_nat (length tot) <= room →
  (∀ flag mk' a', copying tot [] (seen ++ todo) 0 mk' a' → (flag = true → list.last tot = Some 10) → Q (flag, mk') a') →
  wp (cache_flush cl r w mk) Q a.
Proof using Hletters Hsize Hrw.
  intros (o & bef & ks & Ht & Hd & Hp & Hm & Hc & Hcl & Ho) Hroom HQ. unfold cache_flush. subst mk cl.
  assert (length data = length (concat bef) + length (concat ks) + length (concat (seen ++ todo)))%nat as Hlen
    by (rewrite Hd, !length_app, concat_app, length_app; lia).
  pose proof (pieces_count ks _ Hp) as Hcount.
  apply wp_bind. eapply opens_seek; [exact Ho|lia|]. intros a1 Ho1.
  apply wp_bind. eapply wp_mono.
  { eapply (flush_loop_runs (seen ++ todo) o (concat bef) ks (Z.to_nat INI_BUFFERSIZE) [] a1).
    - etrans; [exact Hd|]. by rewrite concat_app.
    - done.
    - unfold INI_BUFFERSIZE. lia.
    - cbn [concat chars filter list_filter length]. lia.
    - cbn [concat]. by rewrite app_nil_r. }
  cbn [concat chars filter list_filter length app]. intros b a2 [-> Ho2]. set (t := chars (concat ks)) in *.
  rewrite take_ge by (change (Z.to_nat (INI_BUFFERSIZE - 1)) with 255%nat; lia).
  apply wp_bind. assert (wp (match t with [] => mret tt | _ => _ ← ini_write t w; mret tt end)
    (λ _ a', opens (length (concat bef ++ concat ks)) tot a') a2) as Hw.
  { rewrite Ht. destruct t as [|x t'] eqn:Et; [cbn; rewrite app_nil_r; by apply wp_ret|]. rewrite <- Et in *. clear Et.
    apply wp_bind. eapply opens_write; [exact Ho2|rewrite Ht, length_app in Hroom; lia|]. intros ? a3 Ho3. by apply wp_ret. }
  eapply wp_mono; [exact Hw|]. intros ? a3 Ho3. apply wp_bind. unfold wp at 1.
  rewrite (opens_tell _ _ _ Ho3) by (rewrite length_app; lia). apply wp_ret. apply HQ.
  - exists tot, (bef ++ ks), []. cbn [concat chars filter list_filter length app crlf flat_map]. rewrite !app_nil_r, !concat_app.
    split; [done|]. split; [etrans; [exact Hd|]; by rewrite <- app_assoc|].
    split; [by eapply pieces_app|]. by split.
  - intros [_ Hlast%bool_decide_eq_true]%andb_true_iff. rewrite Ht. by apply crlf_last.
Qed.

(** With an empty cache. *)
Lemma copying_empty tot seen todo mk a :
  copying tot seen todo 0 mk a →
  ∃ before, data = concat before ++ concat seen ++ concat todo ∧ pieces (seen ++ todo) ∧
    mk = Z.of_nat (length (concat before)) ∧ opens (length (concat before ++ concat seen)) tot a.
Proof.
  intros (o & bef & ks & Ht & Hd & Hp & Hm & Hc & Hcl & Ho). pose proof (pieces_count ks _ Hp).
  assert (ks = []) as -> by (apply nil_length_inv; lia). exists bef. cbn in *. by rewrite app_nil_r in Ht; subst.
Qed.

Lemma write_runs tot todo mk t a (Q : Z → accessor F D X → Prop) :
  copying tot [] todo 0 mk a → Z.of_nat (length (tot ++ crlf t)) <= room →
  (∀ x a', copying (tot ++ crlf t) [] todo 0 mk a' → Q x a') → wp (ini_write t w) Q a.
Proof using Hrw.
  intros (bef & Hd & Hp & Hm & Ho)%copying_empty Hroom HQ. rewrite length_app in Hroom.
  eapply opens_write; [exact Ho|done|]. intros x a' Ho'. apply HQ. exists (tot ++ crlf t), bef, []. cbn in *.
  by rewrite app_nil_r.
Qed.

(** A line that was read is forgotten. *)
Lemma skip_runs tot ch todo mk a :
  copying tot [ch] todo 0 mk a → ∃ mk', ini_tell r a = Ok (mk', a) ∧ copying tot [] todo 0 mk' a.
Proof using Hsize.
  intros (bef & Hd & Hp & Hm & Ho)%copying_empty. eexists. split.
  - eapply opens_tell; [exact Ho|]. rewrite Hd, !length_app. lia.
  - exists tot, (bef ++ [ch]), []. cbn in *. rewrite !app_nil_r in *. rewrite concat_app. cbn. rewrite app_nil_r.
    split; [done|]. split; [by rewrite <- app_assoc|]. split; [by destruct Hp|]. done.
Qed.

(** A line is taken into the cache. *)
Lemma accum_runs tot ch todo cl mk a cl' :
  copying tot [ch] todo cl mk a → cache_accum (chars ch) cl INI_BUFFERSIZE = Some cl' →
  copying (tot ++ crlf (chars ch)) [] todo cl' mk a.
Proof.
  intros (o & bef & ks & Ht & Hd & Hp & Hm & Hc & Hcl & Ho) Hacc. unfold cache_accum, INI_BUFFERSIZE in Hacc.
  destruct (Z.leb_spec 256 (cl + Z.of_nat (length (chars ch)))); [done|]. injection Hacc as <-.
  exists o, bef, (ks ++ [ch]). rewrite !concat_app. cbn [concat app]. rewrite !app_nil_r, chars_app, crlf_app, length_app.
  cbn [concat app] in *. rewrite app_nil_r in *.
  split; [by rewrite Ht, app_assoc|]. split; [by rewrite <- app_assoc|]. split; [by rewrite <- app_assoc|].
  split; [done|]. split; [lia|]. split; [lia|done].
Qed.

Lemma accum_fits tot ch todo mk a :
  copying tot [ch] todo 0 mk a → cache_accum (chars ch) 0 INI_BUFFERSIZE = Some (Z.of_nat (length (chars ch))).
Proof.
  intros (bef & Hd & Hp & Hm & Ho)%copying_empty. cbn [app] in Hp. destruct Hp as [(_ & Hl & _) _].
  unfold cache_accum, INI_BUFFERSIZE. destruct (Z.leb_spec 256 (0 + Z.of_nat (length (chars ch)))); [lia|done].
Qed.

Lemma copy_line_runs tot ch todo cl mk a (Q : Z * Z → accessor F D X → Prop) :
  copying tot [ch] todo cl mk a → Z.of_nat (length tot) <= room →
  (∀ cl' mk' a', copying (tot ++ crlf (chars ch)) [] todo cl' mk' a' → Q (cl', mk') a') →
  wp (copy_line (chars ch) cl r w mk) Q a.
Proof using Hletters Hsize Hrw.
  intros Hc Hroom HQ. unfold copy_line. destruct (cache_accum (chars ch) cl INI_BUFFERSIZE) as [cl'|] eqn:E.
  { apply wp_ret, HQ. by eapply accum_runs. }
  apply wp_bind. eapply flush_runs; [exact Hc|done|]. intros flag mk' a1 Hc1 _. cbn [app] in Hc1.
  apply wp_bind. eapply read_runs; [exact Hc1|]. intros a2 Hc2. apply wp_ret.
  rewrite (accum_fits _ _ _ _ _ Hc2). apply HQ. eapply accum_runs; [exact Hc2|by eapply accum_fits].
Qed.

Lemma copy_loop_runs todo : ∀ fuel tot cl mk a (Q : Z * Z → accessor F D X → Prop),
  copying tot [] todo cl mk a → (length todo < fuel)%nat → Z.of_nat (length (tot ++ crlf (chars (concat todo)))) <= room →
  (∀ cl' mk' a', copying (tot ++ crlf (chars (concat todo))) [] [] cl' mk' a' → Q (cl', mk') a') →
  wp (copy_loop fuel cl r w mk) Q a.
Proof using Hletters Hsize Hrw.
  induction todo as [|ch todo IH]; intros fuel tot cl mk a Q Hc Hf Hroom HQ; (destruct fuel as [|fuel]; [cbn in Hf; lia|]);
    cbn [copy_loop]; apply wp_bind.
  - eapply read_end_runs; [exact Hc|]. intros a1 Hc1. apply wp_ret. cbn in HQ. rewrite app_nil_r in HQ. by apply HQ.
  - cbn [concat] in *. rewrite chars_app, crlf_app, app_assoc in *. eapply read_runs; [exact Hc|]. intros a1 Hc1. apply wp_bind.
    eapply copy_line_runs; [exact Hc1|rewrite !length_app in Hroom; lia|]. intros cl' mk' a2 Hc2.
    by eapply IH; [exact Hc2|cbn in Hf; lia|..].
Qed.

(** ** The key *)

Context (k v : list Z) (Hk : key_ok k).
Context (fuel : nat).

Definition passed (ch : list Z) : Prop := found k (chars ch) = false ∧ section_start (chars ch) = false.
Definition stops (ch : list Z) : Prop := found k (chars ch) = true ∨ section_start (chars ch) = true.

Lemma key_cons : ∃ c k', k = c :: k'.
Proof using Hk. destruct (key_first k Hk) as (c & k' & -> & _). eauto. Qed.

Lemma key_loop_runs bef : ∀ n rest tot cl mk a (Q : option bool * Z * Z → accessor F D X → Prop),
  Forall passed bef → (∀ ch rest', rest = ch :: rest' → stops ch) →
  copying tot [] (bef ++ rest) cl mk a → (length bef < n)%nat →
  Z.of_nat (length (tot ++ crlf (chars (concat bef)))) <= room →
  (∀ cl' mk' a', match rest with
     | [] => copying (tot ++ crlf (chars (concat bef))) [] [] cl' mk' a' → Q (None, cl', mk') a'
     | ch :: rest' =>
         copying (tot ++ crlf (chars (concat bef))) [ch] rest' cl' mk' a' →
         Q (Some (section_start (chars ch)), cl', mk') a'
     end) →
  wp (key_loop n (Some k) cl r w mk) Q a.
Proof using Hletters Hsize Hrw Hk.
  destruct key_cons as (c & k' & Ek).
  induction bef as [|ch bef IH]; intros n rest tot cl mk a Q Hb Hr Hc Hn Hroom HQ; (destruct n as [|n]; [cbn in Hn; lia|]);
    cbn [key_loop]; apply wp_bind; cbn [app concat] in *.
  - cbn [chars filter list_filter crlf flat_map] in HQ. rewrite app_nil_r in HQ. destruct rest as [|ch rest].
    + eapply read_end_runs; [exact Hc|]. intros a1 Hc1. by apply wp_ret, HQ.
    + eapply read_runs; [exact Hc|]. intros a1 Hc1. cbv zeta. rewrite Ek. cbv iota beta. rewrite <- Ek.
      fold (found k (chars ch)). fold (section_start (chars ch)).
      replace (found k (chars ch) || section_start (chars ch)) with true; [by apply wp_ret, HQ|].
      destruct (Hr ch rest eq_refl) as [E|E]; rewrite E; [done|by rewrite orb_true_r].
  - apply Forall_cons_1 in Hb as [[Hf Hs] Hb]. rewrite chars_app, crlf_app, app_assoc in *.
    eapply read_runs; [exact Hc|]. intros a1 Hc1. cbv zeta.
    assert (match separator (skipleading (chars ch)), Some k with
            | Some ep, Some (c :: k) => names (skipleading (chars ch)) ep (c :: k) | _, _ => false end = false) as ->.
    { rewrite Ek. cbv iota beta. rewrite <- Ek. exact Hf. }
    fold (section_start (chars ch)). rewrite Hs. cbn [orb]. apply wp_bind.
    eapply copy_line_runs; [exact Hc1|rewrite !length_app in Hroom; lia|]. intros cl' mk' a2 Hc2.
    eapply (IH n rest); [done|done|exact Hc2|cbn in Hn; lia|done|done].
Qed.

Context (HkP : known P) (HkT : known T) (HPT : P ≠ T) (HsP : s !! P = Some data) (HsT : s !! T = None).
Context (HT : ini_tempname P INI_BUFFERSIZE = Ok T) (Hcolon : strchr P 58 = None) (HlenP : (length P <= 42)%nat).

Lemma close_rename_runs tot todo mk a (Q : Z → accessor F D X → Prop) :
  copying tot [] todo 0 mk a →
  (∀ a', sees (<[P := tot]> s) ∅ a' → Q 1 a') →
  wp (close_rename r w P) Q a.
Proof using Hrw HkP HkT HPT HsP HsT HT Hcolon HlenP.
  intros (bef & Hd & Hp & Hm & Ho)%copying_empty HQ. unfold close_rename.
  apply wp_bind. unfold ini_close. eapply wp_close; [exact Ho|by rewrite lookup_insert_eq|]. cbn [rd vwrite]. intros a1 Ha1.
  rewrite delete_insert_eq, delete_id in Ha1 by (by rewrite lookup_insert_ne).
  apply wp_bind. eapply wp_close; [exact Ha1|by rewrite lookup_insert_eq|]. cbn [wr vwrite vpath vdata]. intros a2 Ha2.
  rewrite delete_insert_eq, delete_empty in Ha2.
  apply wp_bind. unfold ini_remove, wp at 1.
  destruct (delete_runs _ _ a2 P Ha2 HkP) as (a3 & E3 & Ha3); [rewrite lookup_insert_ne by done; eauto|apply map_Forall_empty|].
  rewrite E3. rewrite HT. apply wp_bind. unfold liftO, wp at 1. apply wp_bind. unfold ini_rename, wp at 1.
  destruct (rename_runs _ _ a3 T P tot Ha3 HkT HkP) as (a4 & E4 & Ha4).
  - rewrite lookup_delete_ne by done. apply lookup_insert_eq.
  - apply lookup_delete_eq.
  - apply map_Forall_empty.
  - done.
  - done.
  - rewrite E4. apply wp_ret. apply HQ.
    replace (<[P := tot]> s) with (<[P := tot]> (delete T (delete P (<[T := tot]> s)))); [done|].
    rewrite (delete_delete _ T P), delete_insert_eq, (delete_id s T) by done. apply insert_delete_eq.
Qed.

(** The copy with the entry. *)
Inductive copied (bef : list (list Z)) : list (list Z) → list Z → Prop :=
| copied_end : list.last (crlf (chars (concat bef))) = Some 10 → copied bef [] (chars (concat bef) ++ key_text k v)
| copied_newline : copied bef [] (chars (concat bef) ++ 10 :: key_text k v)
| copied_found ch rest :
    section_start (chars ch) = false →
    copied bef (ch :: rest) (chars (concat bef) ++ key_text k v ++ chars (concat rest))
| copied_section ch rest :
    section_start (chars ch) = true →
    copied bef (ch :: rest) (chars (concat bef) ++ key_text k v ++ chars ch ++ chars (concat rest)).

Lemma append_runs tot cl mk a (Q : Z → accessor F D X → Prop) :
  copying tot [] [] cl mk a → Z.of_nat (length (tot ++ [13; 10] ++ crlf (key_text k v))) <= room →
  (∀ nl a', (nl = [] ∧ list.last tot = Some 10 ∨ nl = [13; 10]) →
     sees (<[P := tot ++ nl ++ crlf (key_text k v)]> s) ∅ a' → Q 1 a') →
  wp (append None (Some k) (Some v) cl r w mk P) Q a.
Proof using Hletters Hsize Hrw HkP HkT HPT HsP HsT HT Hcolon HlenP.
  intros Hc Hroom HQ. unfold append. rewrite !length_app in Hroom. cbn [length] in Hroom.
  apply wp_bind. eapply flush_runs; [exact Hc|lia|]. intros flag mk1 a1 Hc1 Hflag. cbn [app] in Hc1.
  apply wp_bind, wp_bind. set (nl := if flag then [] else [13; 10]).
  assert (wp (match flag with true => mret tt | false => _ ← ini_write INI_LINETERM w; mret tt end)
    (λ _ a', copying (tot ++ nl) [] [] 0 mk1 a') a1) as Hnl.
  { destruct flag; [cbn; rewrite app_nil_r; by apply wp_ret|]. apply wp_bind.
    eapply write_runs; [exact Hc1|rewrite length_app; cbn; lia|]. intros x a2 Hc2. by apply wp_ret. }
  eapply wp_mono; [exact Hnl|]. intros ? a2 Hc2. apply wp_bind. cbn [writesection section_text]. apply wp_ret.
  unfold writekey. apply wp_bind.
  eapply write_runs; [exact Hc2|rewrite !length_app; subst nl; destruct flag; cbn [length]; lia|]. intros x a3 Hc3.
  apply wp_ret. eapply close_rename_runs; [exact Hc3|]. intros a4 Ha4. rewrite <- app_assoc in Ha4. apply (HQ nl a4); [|done].
  subst nl. destruct flag; [left|right]; auto.
Qed.

(** The rest of the file and the end. *)
Lemma finish_runs todo tot cl mk a (Q : Z → accessor F D X → Prop) :
  copying tot [] todo cl mk a → (length todo < fuel)%nat → Z.of_nat (length (tot ++ crlf (chars (concat todo)))) <= room →
  (∀ a', sees (<[P := tot ++ crlf (chars (concat todo))]> s) ∅ a' → Q 1 a') →
  wp ('(cachelen, mark) ← copy_loop fuel cl r w mk; _ ← cache_flush cachelen r w mark; close_rename r w P) Q a.
Proof using Hletters Hsize Hrw HkP HkT HPT HsP HsT HT Hcolon HlenP.
  intros Hc Hf Hroom HQ. apply wp_bind. eapply copy_loop_runs; [exact Hc|done|done|]. intros cl7 mk7 a7 Hc7.
  apply wp_bind. eapply flush_runs; [exact Hc7|done|]. intros _ mk8 a8 Hc8 _.
  by eapply close_rename_runs.
Qed.

Lemma chars_length raw : (length (chars raw) <= length raw)%nat.
Proof. unfold chars. apply length_filter. Qed.

Lemma put_key_runs bef rest mk a (Q : Z → accessor F D X → Prop) :
  Forall passed bef → (∀ ch rest', rest = ch :: rest' → stops ch) →
  copying [] [] (bef ++ rest) 0 mk a → data = concat (bef ++ rest) → (length (bef ++ rest) < fuel)%nat →
  Z.of_nat (2 * (length (chars data) + length (key_text k v) + 1)) <= room →
  (∀ t a', copied bef rest t → sees (<[P := crlf t]> s) ∅ a' → Q 1 a') →
  wp (put_key fuel (Some k) (Some v) 0 r w mk P) Q a.
Proof using Hletters Hsize Hrw Hk HkP HkT HPT HsP HsT HT Hcolon HlenP.
  intros Hb Hr Hc Hdata Hf Hroom HQ. unfold put_key. rewrite Hdata, concat_app, chars_app, length_app in Hroom.
  pose proof (crlf_length (chars (concat bef))) as Hlb. pose proof (crlf_length (key_text k v)) as Hlk.
  apply wp_bind. eapply flush_runs; [exact Hc|cbn; lia|]. intros _ mk1 a1 Hc1 _. cbn [app] in Hc1.
  apply wp_bind, wp_ret, wp_bind. eapply (key_loop_runs bef fuel rest); [done|done|exact Hc1|rewrite length_app in Hf; lia|cbn; lia|].
  intros cl2 mk2 a2. cbn [app]. destruct rest as [|ch rest]; intros Hc2.
  - eapply append_runs; [exact Hc2|rewrite !length_app; cbn [length]; lia|].
    intros nl a3 [[-> Hlast]| ->] Ha3.
    + cbn [app] in Ha3. rewrite <- crlf_app in Ha3. eapply HQ; [|exact Ha3]. by constructor.
    + change ([13; 10] ++ crlf (key_text k v)) with (crlf (10 :: key_text k v)) in Ha3. rewrite <- crlf_app in Ha3.
      eapply HQ; [|exact Ha3]. constructor.
  - cbn [concat] in Hroom. rewrite chars_app, length_app in Hroom.
    pose proof (crlf_length (chars ch)) as Hlc. pose proof (crlf_length (chars (concat rest))) as Hlr.
    apply wp_bind. eapply flush_runs; [exact Hc2|lia|]. intros _ mk3 a3 Hc3 _. cbn [app] in Hc3.
    apply wp_bind. unfold writekey. apply wp_bind.
    eapply write_runs; [exact Hc3|rewrite length_app; lia|]. intros x a4 Hc4. apply wp_ret.
    apply wp_bind. eapply read_runs; [exact Hc4|]. intros a5 Hc5. apply wp_bind.
    rewrite length_app in Hf. cbn [length] in Hf.
    destruct (section_start (chars ch)) eqn:Es.
    + rewrite (accum_fits _ _ _ _ _ Hc5). apply wp_ret.
      pose proof (accum_runs _ _ _ _ _ _ _ Hc5 (accum_fits _ _ _ _ _ Hc5)) as Hc6.
      eapply finish_runs; [exact Hc6|lia|rewrite !length_app; lia|]. intros a9 Ha9. rewrite <- !crlf_app, <- !app_assoc in Ha9.
      eapply HQ; [|exact Ha9]. by constructor.
    + destruct (skip_runs _ _ _ _ _ Hc5) as (mk6 & E6 & Hc6). apply wp_bind. unfold wp at 1. rewrite E6. apply wp_ret.
      eapply finish_runs; [exact Hc6|lia|rewrite !length_app; lia|]. intros a9 Ha9. rewrite <- !crlf_app, <- !app_assoc in Ha9.
      eapply HQ; [|exact Ha9]. by constructor.
Qed.

End run.
(** ** Finding an entry *)

Section find.
Context {F D X : Type} `{!FatFs F D X} {known : path → Prop} {room : Z} `{!FatFsFiles F D X known room}.
Context (P : path) (data : list Z) (Hletters : letters data).
Context (k : list Z) (Hk : key_ok k).

(** The pieces before the entry or the first section, and the others. *)
Lemma split_pieces cs : ∃ bef rest, cs = bef ++ rest ∧ Forall (passed k) bef ∧ ∀ ch rest', rest = ch :: rest' → stops k ch.
Proof.
  induction cs as [|ch cs (bef & rest & -> & Hb & Hr)]; [by exists [], []|].
  destruct (found k (chars ch)) eqn:Ef; [|destruct (section_start (chars ch)) eqn:Es].
  - exists [], (ch :: bef ++ rest). split; [done|]. split; [constructor|]. intros ?? E. injection E as <- _. by left.
  - exists [], (ch :: bef ++ rest). split; [done|]. split; [constructor|]. intros ?? E. injection E as <- _. by right.
  - exists (ch :: bef), rest. split; [done|]. split; [by constructor|done].
Qed.

Definition finds (rest : list (list Z)) (res : option (list Z * nat * Z)) : Prop :=
  match rest with
  | [] => res = None
  | ch :: _ =>
      if section_start (chars ch) then res = None
      else ∃ ep idx, separator (skipleading (chars ch)) = Some ep ∧ res = Some (skipleading (chars ch), ep, idx)
  end.

Lemma find_key_runs s m r bef : ∀ n rest pre idx a,
  Forall (passed k) bef → (∀ ch rest', rest = ch :: rest' → stops k ch) →
  data = pre ++ concat (bef ++ rest) → pieces (bef ++ rest) → (length bef < n)%nat → -1 <= idx →
  sees s (<[r := rd P data (length pre)]> m) a →
  wp (find_key n r (Some k) idx (-1)) (λ res a', finds rest res ∧ ∃ pos, sees s (<[r := rd P data pos]> m) a') a.
Proof using Hletters Hk.
  destruct (key_cons k Hk) as (c & k' & Ek).
  induction bef as [|ch bef IH]; intros n rest pre idx a Hb Hr Hd Hp Hn Hidx Hs; (destruct n as [|n]; [cbn in Hn; lia|]);
    cbn [find_key app] in *; apply wp_bind.
  - destruct rest as [|ch rest].
    { cbn in Hd. rewrite app_nil_r in Hd. subst pre. eapply wp_read_end; [exact Hs|]. intros a1 Ha1. apply wp_ret.
      split; [done|]. by eexists. }
    destruct (piece_read ch rest INI_BUFFERSIZE Hp) as [Hne Hcut].
    { destruct Hp as [(_ & Hl & _) _]. change (Z.to_nat (INI_BUFFERSIZE - 1)) with 255%nat. lia. }
    eapply wp_read_piece; [done|exact Hd|done|exact Hcut|exact Hs|]. intros a1 Ha1. cbv zeta. unfold finds.
    fold (section_start (chars ch)). destruct (section_start (chars ch)) eqn:Es; [apply wp_ret; split; [done|by eexists]|].
    destruct (Hr ch rest eq_refl) as [Hf|]; [|congruence]. unfold found in Hf.
    destruct (separator (skipleading (chars ch))) as [ep|]; [|done].
    assert (letters (skipleading (chars ch))) as Hl.
    { apply letters_skipleading, letters_chars. unfold letters in *. rewrite Hd in Hletters. cbn [concat] in Hletters.
      by apply Forall_app in Hletters as [_ [H _]%Forall_app]. }
    destruct ((at_ (skipleading (chars ch)) 0 =? 59) || (at_ (skipleading (chars ch)) 0 =? 35)) eqn:Ec.
    { rewrite orb_true_iff, !Z.eqb_eq in Ec. rewrite comment_not_found in Hf by done. done. }
    rewrite Ek. cbv iota beta. rewrite <- Ek, Hf. apply wp_ret. split; [by eexists _, _|by eexists].
  - apply Forall_cons_1 in Hb as [[Hf Hse] Hb].
    destruct (piece_read ch (bef ++ rest) INI_BUFFERSIZE Hp) as [Hne Hcut].
    { destruct Hp as [(_ & Hl & _) _]. change (Z.to_nat (INI_BUFFERSIZE - 1)) with 255%nat. lia. }
    cbn [concat] in Hd. eapply wp_read_piece; [done|exact Hd|done|exact Hcut|exact Hs|]. intros a1 Ha1. cbv zeta.
    fold (section_start (chars ch)). rewrite Hse.
    assert (∀ idx', -1 <= idx' → wp (find_key n r (Some k) idx' (-1))
      (λ res a', finds rest res ∧ ∃ pos, sees s (<[r := rd P data pos]> m) a') a1) as Hgo.
    { intros idx' Hi. apply (IH n rest (pre ++ ch)); [done|done|by rewrite <- app_assoc|by destruct Hp|cbn in Hn; lia|done|done]. }
    unfold found in Hf. destruct (separator (skipleading (chars ch))) as [ep|]; [|by apply Hgo].
    destruct (_ || _); [by apply Hgo|]. rewrite Ek. cbv iota beta. rewrite <- Ek, Hf.
    destruct (Z.eqb_spec (idx + 1) (-1)); [lia|]. apply Hgo. lia.
Qed.

End find.

(** ** Putting an entry *)

Lemma chars_concat cs : chars (concat cs) = concat (map chars cs).
Proof. induction cs as [|ch cs IH]; [done|]. cbn. by rewrite chars_app, IH. Qed.

Lemma passed_lines k bef : Forall (passed k) bef → Forall (λ l, found k l = false ∧ section_start l = false) (map chars bef).
Proof. intros H. induction H as [|ch bef Hc _ IH]; constructor; [exact Hc|exact IH]. Qed.

(** A text that ends in a line feed has whole lines. *)
Lemma ends_whole ls : lined ls → Forall (Forall textual) ls → list.last (crlf (concat ls)) = Some 10 → Forall whole ls.
Proof.
  intros Hd Ht Hlast. destruct (lined_cases _ Hd) as [H|(ls0 & l & -> & _ & (Hne & Hn & _))]; [done|]. exfalso.
  apply Forall_app in Ht as [_ Ht]. apply Forall_cons_1 in Ht as [Ht _].
  rewrite concat_app in Hlast. cbn [concat] in Hlast. rewrite app_nil_r, crlf_app in Hlast.
  destruct l as [|x l _] using rev_ind; [done|].
  apply Forall_app in Ht as [_ Ht]. apply Forall_cons_1 in Ht as [(Hb & _) _].
  apply not_elem_of_app in Hn as [_ Hn]. apply not_elem_of_cons in Hn as [Hx _].
  assert (crlf [x] = [x]) as Hc.
  { unfold crlf. cbn [flat_map]. destruct (Z.eqb_spec x 10); [congruence|]. by rewrite (u8_id _ Hb). }
  rewrite crlf_app, Hc, app_assoc, last_snoc in Hlast. congruence.
Qed.

Lemma copied_put k v bef rest t :
  Forall (passed k) bef → (∀ ch rest', rest = ch :: rest' → stops k ch) → lined (map chars (bef ++ rest)) →
  Forall (Forall textual) (map chars (bef ++ rest)) →
  copied k v bef rest t → ∃ ls', put k v (map chars (bef ++ rest)) ls' ∧ t = concat ls'.
Proof.
  intros Hb Hr Hd Ht Hc. pose proof (passed_lines k bef Hb) as Hb'. rewrite map_app in *.
  destruct Hc as [Hlast| |ch rest Hs|ch rest Hs]; rewrite chars_concat in *; cbn [map] in *; rewrite ?app_nil_r in *.
  - exists (map chars bef ++ [key_text k v]). rewrite concat_app. cbn [concat]. rewrite app_nil_r. split; [|done].
    apply put_end; [done|]. by apply ends_whole.
  - rewrite ?app_nil_r in Hd. destruct (lined_cases _ Hd) as [H|(ls0 & l & El & Hw & Hlo)].
    + exists (map chars bef ++ [[10]; key_text k v]). rewrite concat_app. cbn [concat app]. rewrite app_nil_r. split; [|done].
      by apply put_blank.
    + exists (ls0 ++ [l ++ [10]; key_text k v]). rewrite El. split.
      * apply put_close; [by rewrite <- El|done|done].
      * rewrite !concat_app. cbn [concat]. rewrite !app_nil_r, <- !app_assoc. done.
  - exists (map chars bef ++ key_text k v :: map chars rest). rewrite concat_app. cbn [concat]. rewrite chars_concat. split; [|done].
    apply put_found; [done| |done]. destruct (Hr ch rest eq_refl) as [|]; [done|congruence].
  - exists (map chars bef ++ key_text k v :: chars ch :: map chars rest). rewrite concat_app. cbn [concat].
    rewrite chars_concat. split; [|done]. by apply put_section.
Qed.

Section puts.
Context {F D X : Type} `{!FatFs F D X} {known : path → Prop} {room : Z} `{!FatFsFiles F D X known room}.

(** The path of a settings file and that of its copy. *)
Record paths (P T : path) : Prop := {
  paths_known : known P ∧ known T;
  paths_temp : ini_tempname P INI_BUFFERSIZE = Ok T;
  paths_ne : P ≠ T;
  paths_name : strchr P 58 = None ∧ (length P <= 42)%nat
}.

(** The file [P] has the content [c]; the files other than [P] and [T] are those
    of [s0]. *)
Definition leaves (P T : path) (s0 : gmap path (list Z)) (c : list Z) (a : accessor F D X) : Prop :=
  ∃ s, sees s ∅ a ∧ s !! P = Some c ∧ ∀ q, q ≠ P → q ≠ T → s !! q = s0 !! q.

Lemma copied_length k v bef rest t :
  copied k v bef rest t → (length t <= length (chars (concat (bef ++ rest))) + length (key_text k v) + 1)%nat.
Proof.
  rewrite concat_app, chars_app. destruct 1; cbn [concat]; rewrite ?chars_app, !length_app; cbn [length]; lia.
Qed.

Lemma rewrite_runs P T k v fuel s c bef rest r pos a (Q : Z → accessor F D X → Prop) :
  paths P T → key_ok k → letters c → s !! P = Some c → 1 <= r → sees s (<[r := rd P c pos]> ∅) a →
  c = concat (bef ++ rest) → pieces (bef ++ rest) →
  Forall (passed k) bef → (∀ ch rest', rest = ch :: rest' → stops k ch) →
  Z.of_nat (length c) < 2 ^ 32 → Z.of_nat (2 * (length (chars c) + length (key_text k v) + 1)) <= room → (length c < fuel)%nat →
  (∀ t a', copied k v bef rest t → leaves P T s (crlf t) a' → Q 1 a') →
  wp (_ ← ini_seek r 0; rewrite_file fuel None (Some k) (Some v) r P) Q a.
Proof.
  intros [[HkP HkT] HT HPT [Hcolon HlenP]] Hk Hletters HsP Hr Hsees Hc Hp Hb Hst Hsize Hroom Hfuel HQ.
  apply wp_bind. eapply (wp_seek _ _ _ r _ 0); [exact Hsees|by rewrite lookup_insert_eq|done|cbn; lia|].
  intros a1 Ha1. rewrite insert_insert_eq in Ha1. unfold rewrite_file. rewrite HT. apply wp_bind. unfold liftO, wp at 1.
  apply wp_bind. unfold ini_openwrite, wp at 1. change (FA_WRITE .| FA_CREATE_ALWAYS) with 10.
  destruct (fatxopen_create s _ a1 T Ha1) as (Hw & Hwn & Ha2); [|done| |].
  { rewrite map_size_insert_None, map_size_empty by done. lia. }
  { apply map_Forall_insert_2; [done|apply map_Forall_empty]. }
  destruct (fatxopen T 10 a1) as [w a2]. cbn [fst snd] in *. destruct (Z.eqb_spec w 0); [lia|].
  assert (r ≠ w) as Hrw by (intros ->; by rewrite lookup_insert_eq in Hwn).
  rewrite insert_insert_ne in Ha2 by done. apply wp_bind. unfold wp at 1.
  assert (opens P c (delete T s) r w T 0 [] a2) as Ho2 by exact Ha2.
  rewrite (opens_tell P c Hsize (delete T s) r w T [] 0 a2 Ho2) by lia.
  assert (length (bef ++ rest) <= length c)%nat as Hcount.
  { pose proof (pieces_count (bef ++ rest) [] ltac:(by rewrite app_nil_r)). pose proof (chars_length (concat (bef ++ rest))).
    rewrite Hc. lia. }
  pose proof (chars_length c) as Hlc.
  eapply (put_key_runs P c Hletters Hsize (delete T s) r w T Hrw k v Hk fuel HkP HkT HPT); try done.
  - by rewrite lookup_delete_ne.
  - apply lookup_delete_eq.
  - exists [], [], []. cbn. split; [done|]. split; [exact Hc|]. by split.
  - lia.
  - intros t a3 Ht Ha3. apply (HQ t); [done|]. eexists. split; [exact Ha3|]. split; [by rewrite lookup_insert_eq|].
    intros q H1 H2. by rewrite lookup_insert_ne, lookup_delete_ne.
Qed.

Definition put_result (P T k v : list Z) s (c : list Z) ls (x : Z) (a : accessor F D X) : Prop :=
  x = 1 ∧ ∃ c' ls', leaves P T s c' a ∧ file_ok c' ls' ∧
    (length (concat ls') <= length (concat ls) + length (key_text k v) + 1)%nat ∧
    (length c' <= length c `max` (2 * length (concat ls')))%nat ∧
    updates k v (plain ls) (entries [] (concat ls)) (entries [] (concat ls')) ∧ (plain ls = true → plain ls' = true).

Lemma copied_result P T k v s c ls bef rest t a :
  key_ok k → value_ok v → file_ok c ls → c = concat (bef ++ rest) → map chars (bef ++ rest) = ls →
  Forall (passed k) bef → (∀ ch rest', rest = ch :: rest' → stops k ch) →
  copied k v bef rest t → leaves P T s (crlf t) a → put_result P T k v s c ls 1 a.
Proof.
  intros Hk Hv Hfile Hc Hls Hb Hst Ht Hleaves. pose proof (file_textual c ls Hfile) as Htext.
  destruct Hfile as (_ & _ & Hchars & Hlined). pose proof (copied_length _ _ _ _ _ Ht) as Hlen.
  destruct (copied_put k v bef rest t) as (ls' & Hput & ->); [done|done|by rewrite Hls|by rewrite Hls|done|]. rewrite Hls in Hput.
  assert (Forall (Forall textual) ls') as Htext' by by eapply put_textual.
  assert (lined ls') as Hlined' by by eapply put_lined.
  split; [done|]. exists (crlf (concat ls')), ls'. split; [done|]. split; [by apply crlf_ok|].
  split; [rewrite <- Hchars, Hc; lia|]. split; [pose proof (crlf_length (concat ls')); lia|]. split.
  - apply put_updates; [done|done| |done|done]. eapply list.Forall_impl; [exact Htext|]. apply textual_letters.
  - by eapply put_plain.
Qed.

(** The file has the entry with this value. *)
Lemma unchanged_result P T k v s c ls bef l aft ep a :
  key_ok k → value_ok v → file_ok c ls → s !! P = Some c → sees s ∅ a → ls = bef ++ l :: aft →
  Forall (λ l, found k l = false ∧ section_start l = false) bef → found k l = true → section_start l = false →
  separator (skipleading l) = Some ep → value_at (skipleading l) ep INI_BUFFERSIZE = v →
  put_result P T k v s c ls 1 a.
Proof.
  intros Hk Hv Hfile HsP Hsees Els Hb Hf Hs Hsep Hval. pose proof (file_textual c ls Hfile) as Htext.
  assert (Forall letters ls) as Hlet by (eapply list.Forall_impl; [exact Htext|]; apply textual_letters).
  pose proof Hfile as (_ & _ & _ & Hlined). pose proof (lined_short ls Hlined) as Hshort. split; [done|].
  exists c, ls. split; [by exists s|]. split; [done|]. split; [lia|]. split; [lia|]. split; [|done].
  subst ls. apply Forall_app in Hlet as [Hlb Hll]. apply Forall_cons_1 in Hll as [Hll _].
  apply Forall_app in Hshort as [Hsb Hsl]. apply Forall_cons_1 in Hsl as [Hsl _].
  destruct (entry_of_value l k ep) as (k0 & He & Hsame); [done..|]. rewrite Hval in He.
  pose proof (entries_around k bef l aft Hb Hs Hlined) as Hent. rewrite He in Hent.
  exists (flat_map entry_of bef), [([], k0, v)], (entries [] (concat aft)), k0.
  split; [done|]. split; [done|]. split; [done|]. split; [by apply entries_before|right; eauto].
Qed.

Lemma ini_puts_runs P T k v fuel s c ls a :
  paths P T → key_ok k → value_ok v → file_ok c ls → s !! P = Some c → sees s ∅ a →
  Z.of_nat (length c) < 2 ^ 32 → Z.of_nat (2 * (length (concat ls) + length (key_text k v) + 1)) <= room → (length c < fuel)%nat →
  wp (ini_puts fuel None (Some k) (Some v) P) (put_result P T k v s c ls) a.
Proof.
  intros Hpaths Hk Hv Hfile HsP Hsees Hsize Hroom Hfuel. pose proof Hfile as (Hletters & Hcr & Hchars & Hlined). rewrite <- Hchars in Hroom.
  destruct (pieces_exist c Hcr) as (cs & Hpieces & Hcs). destruct (split_pieces k cs) as (bef & rest & -> & Hb & Hst).
  assert (map chars (bef ++ rest) = ls) as Hls by (apply pieces_lines; [done|done|by rewrite Hcs]).
  assert (length (bef ++ rest) <= length c)%nat as Hcount.
  { pose proof (pieces_count (bef ++ rest) [] ltac:(by rewrite app_nil_r)). pose proof (chars_length (concat (bef ++ rest))).
    rewrite <- Hcs. lia. }
  unfold ini_puts. apply wp_bind. unfold ini_openread, wp at 1. change (FA_READ .| FA_OPEN_EXISTING) with 1.
  destruct (fatxopen_read s ∅ a P c Hsees) as (Hr & _ & Ha1); [by rewrite map_size_empty; lia|by destruct Hpaths as [[? ?] _ _ _]|done|].
  destruct (fatxopen P 1 a) as [r a1]. cbn [fst snd] in *. destruct (Z.eqb_spec r 0); [lia|].
  apply wp_bind. unfold ini_tell, wp at 1. rewrite (tell_slot _ _ _ r (rd P c 0) Ha1) by (by rewrite lookup_insert_eq).
  cbn [mbind outcome_mbind outcome_bind rd vpos]. change (u32 (Z.of_nat 0)) with 0.
  apply wp_bind. unfold getkeystring. cbn [negb Nat.eqb orb]. change (0 <=? -1) with false. cbn iota. apply wp_bind.
  eapply wp_mono.
  { apply (find_key_runs P c Hletters k Hk s ∅ r bef fuel rest [] (-1) a1 Hb Hst); [by rewrite Hcs|done| |lia|exact Ha1].
    rewrite length_app in Hcount. lia. }
  intros res a2 [Hfinds [pos Ha2]]. apply wp_ret.
  assert (wp (_ ← ini_seek r 0; rewrite_file fuel None (Some k) (Some v) r P) (put_result P T k v s c ls) a2) as Hrewrite.
  { eapply rewrite_runs; [done|done|done|done|exact Hr|exact Ha2|by rewrite Hcs|done|done|done|done|done|done|].
    intros t a3 Ht Hleaves. by eapply copied_result. }
  destruct res as [[[sp ep] idx]|]; [|exact Hrewrite]. change (0 <=? -1) with false. cbv iota.
  destruct (Z.eqb_spec (strcmp (value_at sp ep INI_BUFFERSIZE) v) 0) as [Ecmp|]; [|exact Hrewrite].
  unfold finds in Hfinds. destruct rest as [|ch rest]; [done|].
  destruct (section_start (chars ch)) eqn:Es; [done|]. destruct Hfinds as (ep' & idx' & Hsep & [= -> -> ->]).
  destruct (Hst ch rest eq_refl) as [Hf|]; [|congruence]. rewrite map_app in Hls. cbn [map] in Hls.
  assert (letters (chars ch)) as Hlch.
  { pose proof (file_textual c ls Hfile) as Htext. rewrite <- Hls in Htext. apply Forall_app in Htext as [_ Htext].
    apply Forall_cons_1 in Htext as [Htext _]. by apply textual_letters. }
  apply strcmp_zero in Ecmp; [|by apply value_at_letters, letters_skipleading|].
  2:{ destruct Hv as (Hv & _). eapply list.Forall_impl; [exact Hv|]. by intros x (? & ? & _). }
  apply wp_bind. unfold ini_close. eapply wp_close; [exact Ha2|by rewrite lookup_insert_eq|]. intros a3 Ha3. cbn [rd vwrite] in Ha3.
  rewrite delete_insert_eq, delete_empty in Ha3. apply wp_ret.
  eapply unchanged_result; [done|done|done|done|done|symmetry; exact Hls|by apply passed_lines|done|done|done|done].
Qed.

(** A file that did not exist. *)
Lemma ini_puts_new P T k v fuel s a :
  paths P T → key_ok k → value_ok v → s !! P = None → sees s ∅ a → Z.of_nat (2 * length (key_text k v)) <= room →
  wp (ini_puts fuel None (Some k) (Some v) P)
    (λ x a', x = 1 ∧ leaves P T s (crlf (key_text k v)) a') a.
Proof.
  intros [[HkP HkT] _ _ _] Hk Hv HsP Hsees Hroom. unfold ini_puts. apply wp_bind. unfold ini_openread, wp at 1.
  change (FA_READ .| FA_OPEN_EXISTING) with 1.
  destruct (fatxopen_missing s ∅ a P Hsees HkP HsP) as [Hr Ha1]; [apply map_Forall_empty|].
  destruct (fatxopen P 1 a) as [r a1]. cbn [fst snd] in *. subst r. cbn [Z.eqb].
  apply wp_bind. unfold ini_openwrite, wp at 1. change (FA_WRITE .| FA_CREATE_ALWAYS) with 10.
  destruct (fatxopen_create s ∅ a1 P Ha1) as (Hw & _ & Ha2); [by rewrite map_size_empty; lia|done|apply map_Forall_empty|].
  destruct (fatxopen P 10 a1) as [w a2]. cbn [fst snd] in *. destruct (Z.eqb_spec w 0); [lia|].
  apply wp_bind. cbn [writesection section_text]. apply wp_ret. apply wp_bind. unfold writekey, ini_write. apply wp_bind.
  pose proof (crlf_length (key_text k v)).
  eapply wp_puts_text; [exact Ha2|by rewrite lookup_insert_eq|done|cbn [vdata length]; lia|]. cbn [vdata vpath app]. intros x a3 Ha3.
  rewrite insert_insert_eq in Ha3. apply wp_ret, wp_bind. unfold ini_close.
  eapply wp_close; [exact Ha3|by rewrite lookup_insert_eq|]. cbn [vwrite vpath vdata]. intros a4 Ha4.
  rewrite delete_insert_eq, delete_empty in Ha4. apply wp_ret. split; [done|]. eexists. split; [exact Ha4|].
  split; [by rewrite lookup_insert_eq|]. intros q Hq _. by rewrite lookup_insert_ne, lookup_delete_ne.
Qed.

End puts.

(** ** Enumerating the entries *)

Section browse.
Context {F D X : Type} `{!FatFs F D X} {known : path → Prop} {room : Z} `{!FatFsFiles F D X known room}.
Context {U : Type} (Callback : list Z → list Z → list Z → U → outcome (Z * U)).

(** The callback on each entry, until it returns 0. *)
Fixpoint visit (es : list item) (u : U) : outcome U :=
  match es with
  | [] => Ok u
  | (sec, k, v) :: es => '(go, u) ← Callback sec k v u; if go =? 0 then Ok u else visit es u
  end.

Lemma wp_read_line P data s r pre rest lim a (Q : option (list Z) → accessor F D X → Prop) :
  letters data → data = pre ++ rest → sees s (<[r := rd P data (length pre)]> ∅) a →
  (let l := line_at (Z.to_nat (lim - 1)) (chars rest) in
   ∀ raw rest' a', rest = raw ++ rest' → chars raw = l → sees s (<[r := rd P data (length (pre ++ raw))]> ∅) a' →
     Q (if (length l =? 0)%nat then None else Some l) a') →
  wp (ini_read lim r) Q a.
Proof.
  intros Hletters Hd Hs HQ. unfold ini_read. apply wp_bind.
  eapply wp_gets_text; [exact Hs|by rewrite lookup_insert_eq|done|cbn; lia|].
  cbv zeta. intros a'. unfold ahead, at_pos, rd. cbn [vpos vdata vpath vwrite]. rewrite Nat2Z.id, insert_insert_eq.
  replace (drop (length pre) data) with rest by (by rewrite Hd, drop_app_length). intros Ha. apply wp_ret.
  destruct (cut_prefix (Z.to_nat (lim - 1)) rest) as [rest' Hrest].
  specialize (HQ (cut (Z.to_nat (lim - 1)) rest) rest' a' Hrest). rewrite chars_cut in *.
  assert (letters (line_at (Z.to_nat (lim - 1)) (chars rest))) as Hl.
  { rewrite <- chars_cut. apply letters_chars. unfold letters in *. rewrite Hd in Hletters.
    apply Forall_app in Hletters as [_ H]. rewrite Hrest in H. by apply Forall_app in H as [H _]. }
  unfold rd in HQ. rewrite length_app, Nat2Z.inj_add in HQ. specialize (HQ eq_refl Ha).
  destruct (length (line_at (Z.to_nat (lim - 1)) (chars rest)) =? 0)%nat; [done|]. cbn. by rewrite cstr_letters.
Qed.

Lemma browse_loop_runs P data s r fuel : ∀ pre rest sec u u' a,
  letters data → data = pre ++ rest → (length (chars rest) < fuel)%nat →
  sees s (<[r := rd P data (length pre)]> ∅) a → visit (entries sec (chars rest)) u = Ok u' →
  wp (browse_loop Callback fuel r sec u) (λ x a', x = u' ∧ ∃ pos, sees s (<[r := rd P data pos]> ∅) a') a.
Proof.
  induction fuel as [|fuel IH]; intros pre rest sec u u' a Hl Hd Hf Hs Hv; [lia|]. cbn [browse_loop]. apply wp_bind.
  eapply wp_read_line; [done|exact Hd|exact Hs|]. cbv zeta.
  replace (Z.to_nat (INI_BUFFERSIZE - (Z.of_nat (length sec) + 1) - 1)) with (254 - length sec)%nat by (unfold INI_BUFFERSIZE; lia).
  set (l := line_at (254 - length sec) (chars rest)). intros raw rest' a1 Hrest Hraw Ha1.
  destruct (Nat.eqb_spec (length l) 0) as [H0|H0].
  { apply wp_ret. rewrite entries_end in Hv by (apply nil_length_inv, H0). injection Hv as ->. split; [done|by eexists]. }
  assert (l ≠ []) as Hne by (intros E; by rewrite E in H0).
  assert (drop (length l) (chars rest) = chars rest') as Hdrop.
  { rewrite Hrest, chars_app, Hraw. apply drop_app_length. }
  rewrite (entries_step sec (chars rest) l) in Hv by done. cbv zeta in Hv. rewrite Hdrop in Hv.
  assert (data = (pre ++ raw) ++ rest') as Hd' by (by rewrite <- app_assoc, <- Hrest).
  assert (length (chars rest') < fuel)%nat as Hf'.
  { rewrite Hrest, chars_app, length_app, Hraw in Hf. lia. }
  destruct (parse_line (Z.of_nat (length sec) + 1) l) as [|name|k v].
  - by eapply IH.
  - by eapply IH.
  - cbn [visit] in Hv. apply wp_bind. unfold liftO, wp at 1.
    destruct (Callback sec k v u) as [[go u2]|]; [|done]. cbn in Hv. destruct (go =? 0).
    + injection Hv as ->. apply wp_ret. split; [done|by eexists].
    + by eapply IH.
Qed.

Lemma ini_browse_runs P fuel s c u u' a :
  known P → letters c → s !! P = Some c → sees s ∅ a → (length c < fuel)%nat →
  visit (entries [] (chars c)) u = Ok u' →
  wp (ini_browse Callback fuel u P) (λ x a', x = (1, u') ∧ sees s ∅ a') a.
Proof.
  intros HkP Hl HsP Hsees Hf Hv. unfold ini_browse. apply wp_bind. unfold ini_openread, wp at 1.
  change (FA_READ .| FA_OPEN_EXISTING) with 1.
  destruct (fatxopen_read s ∅ a P c Hsees) as (Hr & _ & Ha1); [by rewrite map_size_empty; lia|done|done|].
  destruct (fatxopen P 1 a) as [r a1]. cbn [fst snd] in *. destruct (Z.eqb_spec r 0); [lia|].
  apply wp_bind. eapply wp_mono.
  { eapply (browse_loop_runs P c s r fuel [] c); [done|done|pose proof (chars_length c); lia|exact Ha1|exact Hv]. }
  intros x a2 [-> [pos Ha2]]. apply wp_bind. unfold ini_close. eapply wp_close; [exact Ha2|by rewrite lookup_insert_eq|].
  intros a3 Ha3. cbn [rd vwrite] in Ha3. rewrite delete_insert_eq, delete_empty in Ha3. by apply wp_ret.
Qed.

End browse.

(** ** Property *)

(** The characters of a given text. *)
Ltac given_text := vm_compute; repeat (apply List.Forall_cons; [repeat split; discriminate|]); apply List.Forall_nil.

Definition collect (sec k v : list Z) (l : list item) : outcome (Z * list item) := Ok (1, l ++ [(sec, k, v)]).

Lemma visit_collect es l : visit collect es l = Ok (l ++ es).
Proof.
  revert l. induction es as [|[[sec k] v] es IH]; intros l; cbn; [by rewrite app_nil_r|]. rewrite IH. by rewrite <- app_assoc.
Qed.

(** C33: setting an entry changes that entry.  For a settings file of lines, a name
    and a value that a line can carry, [ini_puts] outside of any section returns 1
    and leaves the other files alone, and [ini_browse] then delivers the entries it
    delivered before, in their order, with the first entry of that name in front of
    the first section replaced by the value, or, if there is none, with the new
    entry added there; values with quotes, comment signs and trailing blanks
    included.  The copy goes through a cache of 256 octets and a temporary file. *)
Theorem ini_puts_sets_entry {F D X : Type} `{!FatFs F D X} {known : path → Prop} {room : Z} `{!FatFsFiles F D X known room}
    (P T k v : list Z) fuel s c ls (a : accessor F D X) :
  paths (known := known) P T → key_ok k → value_ok v → file_ok c ls → s !! P = Some c → sees s ∅ a →
  Z.of_nat (length c) < 2 ^ 32 → Z.of_nat (2 * (length c + length (key_text k v) + 1)) <= room →
  (2 * (length c + length (key_text k v) + 1) < fuel)%nat →
  ∃ es es' a1 a2 a3,
    ini_browse collect fuel [] P a = Ok (1, es, a1) ∧
    ini_puts fuel None (Some k) (Some v) P a = Ok (1, a2) ∧ leaves P T s (store (world a2) !!! P) a2 ∧
    ini_browse collect fuel [] P a2 = Ok (1, es', a3) ∧ updates k v (plain ls) es es'.
Proof.
  intros Hpaths Hk Hv Hfile HsP Hsees Hsize Hroom Hfuel. pose proof Hpaths as [[HkP _] _ _ _].
  pose proof Hfile as (Hl & _ & Hchars & _). pose proof (chars_length c) as Hlc. rewrite Hchars in Hlc.
  pose proof (ini_browse_runs collect P fuel s c [] (entries [] (chars c)) a HkP Hl HsP Hsees ltac:(lia) (visit_collect _ _)) as Hb1.
  apply wp_run in Hb1 as (x1 & a1 & E1 & -> & _).
  pose proof (ini_puts_runs P T k v fuel s c ls a Hpaths Hk Hv Hfile HsP Hsees Hsize ltac:(lia) ltac:(lia)) as Hp.
  apply wp_run in Hp as (x2 & a2 & E2 & -> & c' & ls' & (s' & Hs' & HsP' & Hother) & Hfile' & Hlen1 & Hlen2 & Hupd & _).
  pose proof Hfile' as (Hl' & _ & Hchars' & _).
  pose proof (ini_browse_runs collect P fuel s' c' [] (entries [] (chars c')) a2 HkP Hl' HsP' Hs' ltac:(lia) (visit_collect _ _)) as Hb2.
  apply wp_run in Hb2 as (x3 & a3 & E3 & -> & _).
  exists (entries [] (chars c)), (entries [] (chars c')), a1, a2, a3. split; [done|]. split; [done|]. split; [|split; [done|]].
  - exists s'. split; [done|]. split; [|done]. pose proof Hs' as (_ & -> & _). by rewrite lookup_total_alt, HsP'.
  - by rewrite Hchars, Hchars'.
Qed.

(** Two lines, the last without a line feed; the second entry becomes a text with
    a blank, a comment sign and a quote. *)
Lemma ini_puts_sets_entry_witness :
  let P := text "/C/x.cfg" in
  let c := text "a=1" ++ [13; 10] ++ text "Bc : 2" in
  let v := [32; 113; 59; 34; 120] in
  let a := ram_disk {[ P := c ]} in
  ∃ es' a2 a3, ini_puts 500 None (Some (text "bc")) (Some v) P a = Ok (1, a2) ∧
    ini_browse collect 500 [] P a2 = Ok (1, es', a3) ∧
    updates (text "bc") v true [([], text "a", text "1"); ([], text "Bc", text "2")] es'.
Proof.
  intros P c v a.
  destruct (ini_puts_sets_entry (room := 1000) P (text "/C/x.cf~") (text "bc") v 500 {[ P := c ]} c
    [text "a=1" ++ [10]; text "Bc : 2"] a) as (es & es' & a1 & a2 & a3 & E1 & E2 & _ & E3 & Hupd).
  - split; [done|reflexivity|discriminate|]. split; [reflexivity|cbn; lia].
  - apply (bool_decide_unpack _). vm_compute. exact I.
  - apply (bool_decide_unpack _). vm_compute. exact I.
  - split; [given_text|]. split; [discriminate|]. split; [reflexivity|].
    apply lined_cons; [|apply lined_loose].
    + split; [|cbn; lia]. exists (text "a=1"). split; [reflexivity|]. cbn. set_solver.
    + split; [discriminate|]. split; [cbn; set_solver|cbn; lia].
  - apply lookup_singleton_eq.
  - apply ram_disk_sees.
  - vm_compute. reflexivity.
  - vm_compute. discriminate.
  - vm_compute. lia.
  - exists es', a2, a3. split; [exact E2|]. split; [exact E3|].
    replace (plain [text "a=1" ++ [10]; text "Bc : 2"]) with true in Hupd by reflexivity.
    assert (ini_browse collect 500 [] P a = Ok (1, [([], text "a", text "1"); ([], text "Bc", text "2")], a)) as E by (vm_compute; reflexivity).
    rewrite E in E1. injection E1 as <- _. exact Hupd.
Defined.

End MinIniRun.
