(* ===== verification/SettingsFile.v ===== *)
(** * The settings file and the list of changes
      ([src/xblast/settings/xblastSettingsImportExport.c],
       [src/xblast/settings/xblastSettingsChangeTracker.c],
       [assertCorrectIPString] of [src/menu/actions/NetworkMenuActions.c])

    The export writes each setting as a key with a text, the import reads such
    pairs back; [SettingsText] puts the file in between.  A text is the list of its
    octets before the terminating zero. *)

From Stdlib Require Import String.
From S2P Require Import Prelude Layout Hardware Settings Identify Strtol Format Strings MinIni.

Module SettingsFile.
Import Hardware Settings.
Import Strtol(at_, strtol).
Import Strings(schar, tolower, strcasecmp, strncasecmp, cstr, cstr_nonzero, cstr_app).
Import Format(text, vsprintf, VInt, VStr).
Import MinIni(long2str).

Abbreviation length := List.length.

(** ** Addresses *)

Fixpoint myAtoi_loop (str : list Z) (res : Z) : Z :=
  match str with
  | [] => res
  | c :: str' => if c =? 46 then res else myAtoi_loop str' (u16 (res * 10 + schar c - 48))
  end.
Definition myAtoi (str : list Z) : Z := myAtoi_loop str 0.

(** [tempAddr[byteOffset++] = v]. *)
Definition store_addr (tempAddr : list Z) (v : Z) : outcome (list Z) :=
  if (length tempAddr <? 4)%nat then Ok (tempAddr ++ [u8 v]) else UB.

(** The loop of [assertCorrectIPString]: the octets stored and the dots counted.
    Its texts are shorter than 256 octets, so the cursors do not wrap around. *)
Fixpoint ip_loop (str : list Z) (first : bool) (tempAddr : list Z) (countDots : Z) : outcome (list Z * Z) :=
  match str with
  | [] => Ok (tempAddr, countDots)
  | c :: rest =>
      if first && negb (c =? 46) then
        tempAddr ← store_addr tempAddr (myAtoi str);
        ip_loop rest false tempAddr countDots
      else if (c =? 46) && negb (at_ rest 0 =? 46) && negb (at_ rest 0 =? 0) then
        tempAddr ← store_addr tempAddr (myAtoi rest);
        ip_loop rest false tempAddr (countDots + 1)
      else ip_loop rest false tempAddr countDots
  end.

(** The address, if the text is one.  A dot is counted only if a character
    follows it, so the second test of the source holds. *)
Definition assertCorrectIPString (str : list Z) : outcome (option (list Z)) :=
  '(tempAddr, countDots) ← ip_loop str true [] 0;
  if countDots =? 3 then (if (length tempAddr =? 4)%nat then Ok (Some tempAddr) else UB) else Ok None.

(** ** The table of settings *)

(** The groups; a special setting has its index. *)
Inductive group := GBool | GNum | GIP | GText | GSpecial (index : Z).

(** [xblastCfgStringsStruct] with [setCFGFileTransferPtr], group after group. *)
Definition bool_settings : list (string * settings_field) :=
  [("quickboot", Quickboot); ("tsopcontrol", TSOPcontrol); ("tsophide", TSOPhide);
   ("runbankscript", runBankScript); ("runbootscript", runBootScript); ("enablenetwork", enableNetwork);
   ("usedhcp", useDHCP); ("enablevga", enableVGA); ("enable5v", enable5V);
   ("displaybootmsg", displayMsgBoot); ("customtextboot", customTextBoot);
   ("displaybiosnameboot", displayBIOSNameBoot)]%string.
Definition num_settings : list (string * settings_field) :=
  [("bgcolor", backgroundColorPreset); ("fanspeed", fanSpeed); ("boottimeout", bootTimeout);
   ("nblines", nbLines); ("linelength", lineLength); ("backlight", backlight); ("contrast", contrast)]%string.
Definition ip_settings : list (string * settings_field) :=
  [("staticip", staticIP); ("staticgateway", staticGateway); ("staticmask", staticMask);
   ("staticdns1", staticDNS1); ("staticdns2", staticDNS2)]%string.
Definition text_settings : list (string * settings_field) :=
  [("512kbname", biosName512Bank); ("256kbname", biosName256Bank); ("tsop0name", biosNameTSOPFullSplit0);
   ("tsop1name", biosNameTSOPSplit1); ("customstring0", customString0); ("customstring1", customString1);
   ("customstring2", customString2); ("customstring3", customString3)]%string.
Definition special_settings : list (Z * string * settings_field) :=
  [(ActiveBank, "activebank", activeBank); (AltBank, "altbank", altBank);
   (LEDColorIndex, "ledcolor", LEDColor); (LCDTypeIndex, "lcdtype", lcdType)]%string.

Definition entry : Type := group * list Z * settings_field.

Definition groups : list (list entry) :=
  [map (λ '(k, f), (GBool, text k, f)) bool_settings;
   map (λ '(k, f), (GNum, text k, f)) num_settings;
   map (λ '(k, f), (GIP, text k, f)) ip_settings;
   map (λ '(k, f), (GText, text k, f)) text_settings;
   map (λ '(i, k, f), (GSpecial i, text k, f)) special_settings].

Definition table : list entry := concat groups.

(** ** Import *)

Definition is_digit_char (c : Z) : bool := (48 <=? c) && (c <=? 57).

Definition import_bool (f : settings_field) (value : list Z) (s : list Z) : list Z :=
  if is_digit_char (at_ value 0) then sset f [u8 (strtol value 0)] s
  else if (strncasecmp value (text "y") 1 =? 0) || (strncasecmp value (text "t") 1 =? 0) then sset f [1] s
  else if (strncasecmp value (text "n") 1 =? 0) || (strncasecmp value (text "f") 1 =? 0) then sset f [0] s
  else s.

Definition import_num (f : settings_field) (value : list Z) (s : list Z) : list Z :=
  sset f [if is_digit_char (at_ value 0) then u8 (strtol value 0) else 0] s.

Definition import_ip (f : settings_field) (value : list Z) (s : list Z) : outcome (list Z) :=
  if (length value <? 15)%nat then
    ip ← assertCorrectIPString value;
    Ok (match ip with Some a => sset f a s | None => s end)
  else Ok s.

(** [strcpy] keeps what follows the terminator. *)
Definition import_text (f : settings_field) (value : list Z) (s : list Z) : list Z :=
  if (length value <? _TextFieldsMaxLength)%nat
  then sset f (value ++ [0] ++ drop (length value + 1) (sget f s)) s
  else s.

Definition bankSettingArray : list Z := [BNK512; BNK256; BNKTSOPSPLIT0; BNKTSOPSPLIT1; BNKFULLTSOP; BNKOS].
Definition ledArraySetting : list Z := [0; 1; 2; 3; 4].
Definition lcdArraySetting : list Z := [0; 1].

(** The first value whose text matches. *)
Fixpoint pick (matches : list Z → bool) (index : Z) (values : list Z) : option Z :=
  match values with
  | [] => None
  | v :: values =>
      match getSpecialSettingTextString index v with
      | Some t => if matches (text t) then Some v else pick matches index values
      | None => pick matches index values
      end
  end.

Definition find_special (index : Z) (value : list Z) : option Z :=
  if (index =? ActiveBank) || (index =? AltBank)
  then pick (λ t, strcasecmp value t =? 0) index bankSettingArray
  else if index =? LEDColorIndex then pick (λ t, strncasecmp value t 2 =? 0) index ledArraySetting
  else if index =? LCDTypeIndex then pick (λ t, strncasecmp value t 2 =? 0) index lcdArraySetting
  else None.

Definition import_special (index : Z) (f : settings_field) (value : list Z) (s : list Z) : list Z :=
  match find_special index value with Some v => sset f [v] s | None => s end.

Definition import_value (g : group) (f : settings_field) (value : list Z) (s : list Z) : outcome (list Z) :=
  match g with
  | GBool => Ok (import_bool f value s)
  | GNum => Ok (import_num f value s)
  | GIP => import_ip f value s
  | GText => Ok (import_text f value s)
  | GSpecial i => Ok (import_special i f value s)
  end.

(** [iniCallback]: the groups are searched in turn, the first key that matches is
    taken. *)
Definition iniCallback (key value : list Z) (s : list Z) : outcome (list Z) :=
  match List.find (λ '(_, k, _), strcasecmp k key =? 0) table with
  | Some (g, _, f) => import_value g f value s
  | None => Ok s
  end.

(** ** Export *)

(** The C string at a field. *)
Definition text_at (f : settings_field) (s : list Z) : list Z := cstr (drop (offsetof _LPCmodSettings f) s).

Definition byte_at (f : settings_field) (i : nat) (s : list Z) : Z := nth i (sget f s) 0.

(** What is written for a setting; [None] removes the key. *)
Definition export_value (g : group) (f : settings_field) (s : list Z) : outcome (option (list Z)) :=
  match g with
  | GBool | GNum => Ok (Some (long2str (byte_at f 0 s)))
  | GIP =>
      '(t, _) ← vsprintf (text "%u.%u.%u.%u")
                  [VInt (byte_at f 0 s); VInt (byte_at f 1 s); VInt (byte_at f 2 s); VInt (byte_at f 3 s)];
      Ok (Some t)
  | GText => Ok (Some (text_at f s))
  | GSpecial i => Ok (text <$> getSpecialSettingTextString i (byte_at f 0 s))
  end.

(** ** Changes *)

(** The settings differ in an entry; texts are compared as strings. *)
Definition differs (orig new : list Z) (e : entry) : bool :=
  let '(g, _, f) := e in
  match g with
  | GBool | GNum | GSpecial _ => negb (byte_at f 0 orig =? byte_at f 0 new)
  | GIP => negb (bool_decide (sget f orig = sget f new))
  | GText => negb (bool_decide (text_at f orig = text_at f new))
  end.

(** The format of a change, around the format of a value. *)
Definition change_format (value : list Z) : list Z :=
  let quoted := 34 :: value ++ [34] in text "%s" ++ quoted ++ text "%s" ++ quoted.

(** The text of a change; the name of an unknown special value is a null pointer. *)
Definition change_text (orig new : list Z) (e : entry) : outcome (list Z) :=
  let '(g, _, f) := e in
  let sep := VStr (Some (text " : ")) in
  let arrow := VStr (Some (text " -> ")) in
  '(t, _) ←
    match g with
    | GBool | GNum =>
        vsprintf (change_format (text "%u")) [sep; VInt (byte_at f 0 orig); arrow; VInt (byte_at f 0 new)]
    | GIP =>
        vsprintf (change_format (text "%u.%u.%u.%u"))
          [sep; VInt (byte_at f 0 orig); VInt (byte_at f 1 orig); VInt (byte_at f 2 orig); VInt (byte_at f 3 orig);
           arrow; VInt (byte_at f 0 new); VInt (byte_at f 1 new); VInt (byte_at f 2 new); VInt (byte_at f 3 new)]
    | GText =>
        vsprintf (change_format (text "%s")) [sep; VStr (Some (text_at f orig)); arrow; VStr (Some (text_at f new))]
    | GSpecial i =>
        match getSpecialSettingDisplayString i (byte_at f 0 orig),
              getSpecialSettingDisplayString i (byte_at f 0 new) with
        | Some a, Some b =>
            vsprintf (change_format (text "%s")) [sep; VStr (Some (text a)); arrow; VStr (Some (text b))]
        | _, _ => UB
        end
    end;
  Ok t.

Record change := mkChange { label : list Z; changeString : list Z; setting : settings_field; settingSize : Z }.
Record changes := mkChanges { changeCount : Z; changeEntries : list change }.

Definition putNewChangeInList (l : changes) (c : change) : changes :=
  match changeEntries l with
  | [] => mkChanges 1 [c]
  | _ => mkChanges (u8 (changeCount l + 1)) (changeEntries l ++ [c])
  end.

Definition change_size (orig new : list Z) (e : entry) : Z :=
  let '(g, _, f) := e in
  match g with
  | GBool | GNum | GSpecial _ => 1
  | GIP => 4
  | GText => Z.max (u8 (Z.of_nat (length (text_at f orig)))) (u8 (Z.of_nat (length (text_at f new))))
  end.

(** The loop over one group.  [AddChange] ends with a [break], so it stops at the
    first difference. *)
Fixpoint count_group (generate : bool) (orig new : list Z) (es : list entry) (n : Z) (out : changes)
    : outcome (Z * changes) :=
  match es with
  | [] => Ok (n, out)
  | e :: es =>
      if differs orig new e then
        if generate then
          t ← change_text orig new e;
          Ok (n + 1, putNewChangeInList out (mkChange e.1.2 t e.2 (change_size orig new e)))
        else Ok (n + 1, out)
      else count_group generate orig new es n out
  end.

Fixpoint count_groups (generate : bool) (orig new : list Z) (gs : list (list entry)) (n : Z) (out : changes)
    : outcome (Z * changes) :=
  match gs with
  | [] => Ok (n, out)
  | es :: gs => '(n, out) ← count_group generate orig new es n out; count_groups generate orig new gs n out
  end.

(** The number of changes and the list; the allocations succeed. *)
Definition LPCMod_CountNumberOfChangesInSettings (generate : bool) (orig new : list Z) (out : changes)
    : outcome (Z * changes) :=
  '(n, out) ← count_groups generate orig new groups 0 (mkChanges 0 (changeEntries out));
  Ok (u8 n, out).

Definition settingsTrackerInit : changes := mkChanges 0 [].
Definition cleanOSSettingsChangeListStruct (l : changes) : changes := mkChanges 0 [].

Definition LPCMod_checkForBootScriptChanges (orig new : list Z) : bool :=
  negb (bool_decide (sget scriptSize new = sget scriptSize orig)) ||
  negb (bool_decide (sget scriptData new = sget scriptData orig)).

Definition LPCMod_checkForBackupEEPROMChange (orig new : list Z) : bool :=
  negb (bool_decide (sget bakeeprom new = sget bakeeprom orig)).

(** ** Numbers and addresses *)

Lemma all_bytes (P : Z → Prop) `{∀ z, Decision (P z)} v :
  forallb (λ z, bool_decide (P z)) (seqZ 0 256) = true → byte v → P v.
Proof.
  intros Hall Hv. rewrite forallb_forall in Hall. specialize (Hall v).
  rewrite <- list_elem_of_In, elem_of_seqZ in Hall. apply (bool_decide_eq_true_1 _), Hall. unfold byte in Hv. lia.
Qed.

(** The decimal text of an octet. *)
Definition is_digit_text (t : list Z) : Prop := Forall (λ c, 48 <= c <= 57) t ∧ t ≠ [].
#[local] Instance is_digit_text_dec t : Decision (is_digit_text t).
Proof. unfold is_digit_text. apply _. Defined.

Definition decimal (v : Z) : list Z := rev (if v =? 0 then [48] else Format.digits_of 32 false v 10).

Lemma long2str_decimal v : byte v → long2str v = decimal v.
Proof. intros Hv. pattern v. refine (all_bytes _ v _ Hv). vm_compute. reflexivity. Qed.

Lemma long2str_byte v :
  byte v → is_digit_text (long2str v) ∧ u8 (strtol (long2str v) 0) = v ∧ u8 (myAtoi (long2str v)) = v.
Proof.
  intros Hv. pattern v. refine (all_bytes _ v _ Hv). vm_compute. reflexivity.
Qed.

Lemma loop_number fuel rest args out st r o :
  r = Ok o →
  ((o ← r; Ok (o, args, rest, @nil (Z * Z))) ≫=
     λ '(o, args, fmt, st'), Format.vsprintf_loop fuel fmt args (out ++ o) (st ++ st')) =
  Format.vsprintf_loop fuel rest args (out ++ o) st.
Proof. intros ->. rewrite !bind_ok. by rewrite app_nil_r. Qed.

(** [%u] of an octet. *)
Lemma vsprintf_u fuel rest v args out st :
  byte v →
  Format.vsprintf_loop (S fuel) (37 :: 117 :: rest) (VInt v :: args) out st =
    Format.vsprintf_loop fuel rest args (out ++ long2str v) st.
Proof.
  intros Hv. rewrite long2str_decimal by done.
  etrans; [apply (loop_number fuel rest args out st (Format.number (s32 v) 10 (-1) (-1) 0) (decimal v))|done].
  unfold byte in Hv. by rewrite s32_id, Format.number_layout_eq, Format.layout_natural by lia.
Qed.

(** [%s] without width and precision. *)
Lemma vsprintf_s fuel rest t args out st :
  Format.vsprintf_loop (S fuel) (37 :: 115 :: rest) (VStr (Some t) :: args) out st =
    Format.vsprintf_loop fuel rest args (out ++ t) st.
Proof.
  assert (Format.conv_string 0 (-1) (-1) (Some t) = t) as E.
  { unfold Format.conv_string. cbn [Z.ltb Z.compare]. by replace (Z.to_nat (-1 - Z.of_nat (length t))) with 0%nat by lia. }
  etrans; [apply (loop_number fuel rest args out st (Ok (Format.conv_string 0 (-1) (-1) (Some t))) t)|done].
  by rewrite E.
Qed.

(** The text of an address. *)
Definition ip_text (a b c d : Z) : list Z :=
  long2str a ++ 46 :: long2str b ++ 46 :: long2str c ++ 46 :: long2str d.

Lemma vsprintf_ip a b c d :
  byte a → byte b → byte c → byte d →
  vsprintf (text "%u.%u.%u.%u") [VInt a; VInt b; VInt c; VInt d] = Ok (ip_text a b c d, []).
Proof.
  intros Ha Hb Hc Hd. unfold vsprintf, ip_text.
  change (text "%u.%u.%u.%u") with [37; 117; 46; 37; 117; 46; 37; 117; 46; 37; 117].
  assert (∀ fuel rest args out st, Format.vsprintf_loop (S fuel) (46 :: rest) args out st =
            Format.vsprintf_loop fuel rest args (out ++ [46]) st) as Hdot by done.
  cbn [List.length]. rewrite vsprintf_u, Hdot, vsprintf_u, Hdot, vsprintf_u, Hdot, vsprintf_u by done.
  cbn [Format.vsprintf_loop app]. do 2 f_equal. by rewrite <- !app_assoc.
Qed.

Lemma myAtoi_stop t rest res :
  Forall (λ c, 48 <= c <= 57) t → rest = [] ∨ (∃ r, rest = 46 :: r) →
  myAtoi_loop (t ++ rest) res = myAtoi_loop t res.
Proof.
  intros Ht Hrest. revert res. induction Ht as [|c t Hc Ht IH]; intros res; cbn [app myAtoi_loop].
  - by destruct Hrest as [-> | [r ->]].
  - destruct (Z.eqb_spec c 46); [lia|]. apply IH.
Qed.

Lemma ip_loop_digits t rest addr dots :
  Forall (λ c, 48 <= c <= 57) t → ip_loop (t ++ rest) false addr dots = ip_loop rest false addr dots.
Proof.
  intros Ht. induction Ht as [|c t Hc Ht IH]; cbn [app ip_loop andb]; [done|].
  destruct (Z.eqb_spec c 46); [lia|]. exact IH.
Qed.

(** A dot and an octet. *)
Lemma ip_loop_next v rest addr dots :
  byte v → rest = [] ∨ (∃ r, rest = 46 :: r) → (length addr < 4)%nat →
  ip_loop (46 :: long2str v ++ rest) false addr dots = ip_loop rest false (addr ++ [v]) (dots + 1).
Proof.
  intros Hv Hrest Hl. destruct (long2str_byte v Hv) as ([Hd Hne] & _ & Hm).
  pose proof (ip_loop_digits (long2str v) rest (addr ++ [v]) (dots + 1) Hd) as Hloop.
  cbn [ip_loop andb]. change (46 =? 46) with true.
  assert (48 <= at_ (long2str v ++ rest) 0 <= 57) as H0.
  { destruct (long2str v) as [|c t]; [done|]. apply Forall_cons_1 in Hd as [? _]. done. }
  destruct (Z.eqb_spec (at_ (long2str v ++ rest) 0) 46), (Z.eqb_spec (at_ (long2str v ++ rest) 0) 0); try lia.
  cbn [negb andb]. unfold store_addr, myAtoi. rewrite (myAtoi_stop _ _ _ Hd Hrest). fold (myAtoi (long2str v)).
  destruct (Nat.ltb_spec (length addr) 4); [|lia]. rewrite bind_ok, Hm. exact Hloop.
Qed.

(** An address that has been printed is read back. *)
Lemma ip_text_read a b c d :
  byte a → byte b → byte c → byte d → assertCorrectIPString (ip_text a b c d) = Ok (Some [a; b; c; d]).
Proof.
  intros Ha Hb Hc Hd. unfold assertCorrectIPString, ip_text.
  destruct (long2str_byte a Ha) as ([Hda Hne] & _ & Hm).
  assert (ip_loop (long2str a ++ 46 :: long2str b ++ 46 :: long2str c ++ 46 :: long2str d) true [] 0 =
          ip_loop (46 :: long2str b ++ 46 :: long2str c ++ 46 :: long2str d) false [a] 0) as ->.
  { destruct (long2str a) as [|x t] eqn:E; [done|]. pose proof (Forall_cons_1 _ _ _ Hda) as [Hx Ht].
    cbn [app ip_loop]. destruct (Z.eqb_spec x 46); [lia|]. cbn [andb negb].
    unfold store_addr. cbn [List.length Nat.ltb Nat.leb]. rewrite bind_ok. unfold myAtoi.
    rewrite (app_comm_cons t), (myAtoi_stop (x :: t)) by eauto. fold (myAtoi (x :: t)). rewrite Hm.
    by apply ip_loop_digits. }
  rewrite ip_loop_next by (eauto || (cbn; lia)). cbn [app].
  rewrite ip_loop_next by (eauto || (cbn; lia)). cbn [app].
  rewrite <- (app_nil_r (long2str d)), ip_loop_next by (eauto || (cbn; lia)). done.
Qed.

(** ** Texts *)

(** A field that holds a text with its end. *)
Lemma text_in_field f s v tail :
  sget f s = v ++ 0 :: tail → Forall (λ c, c ≠ 0) v → text_at f s = v.
Proof.
  intros Hs Hv. unfold text_at. unfold get_field in Hs.
  rewrite <- (take_drop (sizeof_field _LPCmodSettings f) (drop (offsetof _LPCmodSettings f) s)), Hs.
  rewrite <- app_assoc. by apply (cstr_app v).
Qed.

(** ** The round trip *)

#[export] Instance group_eq_dec : EqDecision group.
Proof. solve_decision. Defined.

Definition fields (es : list entry) : list settings_field := (λ '(_, _, f), f) <$> es.

(** A group's fields have the size of its values, each key finds its own entry
    and no two entries share a field. *)
Definition group_size (g : group) : nat :=
  match g with GBool | GNum | GSpecial _ => 1 | GIP => 4 | GText => text_size end.

Lemma table_ok :
  Forall (λ e : entry, sizeof_field _LPCmodSettings e.2 = group_size e.1.1 ∧
    List.find (λ '(_, k, _), strcasecmp k e.1.2 =? 0) table = Some e) table.
Proof. apply (bool_decide_unpack _). vm_compute. exact I. Qed.

Lemma table_nodup : NoDup (fields table).
Proof. apply (bool_decide_unpack _). vm_compute. exact I. Qed.

(** A setting as the program uses it. *)
Definition shown (g : group) (f : settings_field) (s : list Z) : list Z :=
  match g with GText => text_at f s | _ => sget f s end.

(** What the file can carry: the import takes an address of less than fifteen
    characters, a text of less than twenty and a special value with a name. *)
Definition exportable (s : list Z) (e : entry) : Prop :=
  match e with
  | (GIP, _, f) => (length (ip_text (byte_at f 0 s) (byte_at f 1 s) (byte_at f 2 s) (byte_at f 3 s)) < 15)%nat
  | (GText, _, f) => (length (text_at f s) < 20)%nat
  | (GSpecial i, _, f) => is_Some (getSpecialSettingTextString i (byte_at f 0 s))
  | _ => True
  end.

(** What is stored for a setting. *)
Definition stored (g : group) (f : settings_field) (s w : list Z) : Prop :=
  match g with GText => ∃ tail, w = text_at f s ++ 0 :: tail | _ => w = sget f s end.

Lemma stored_shown g f s w t : stored g f s w → sget f t = w → shown g f t = shown g f s.
Proof.
  intros Hw Ht. destruct g; cbn in *; try congruence.
  destruct Hw as [tail ->]. eapply text_in_field; [done|apply cstr_nonzero].
Qed.

(** One octet. *)
Lemma byte_field f s :
  length s = 3840%nat → Forall byte s → sizeof_field _LPCmodSettings f = 1%nat →
  sget f s = [byte_at f 0 s] ∧ byte (byte_at f 0 s).
Proof.
  intros Hl Hb Hs. pose proof (length_get_field _LPCmodSettings f s) as H. rewrite Hs in H.
  specialize (H ltac:(by rewrite Hl, sizeof_LPCmodSettings)). pose proof (get_field_byte _LPCmodSettings f s Hb) as Hf.
  unfold byte_at. destruct (sget f s) as [|v [|]]; try done. split; [done|]. by apply Forall_cons_1 in Hf as [? _].
Qed.

Lemma ip_field f s :
  length s = 3840%nat → Forall byte s → sizeof_field _LPCmodSettings f = 4%nat →
  sget f s = [byte_at f 0 s; byte_at f 1 s; byte_at f 2 s; byte_at f 3 s] ∧
  byte (byte_at f 0 s) ∧ byte (byte_at f 1 s) ∧ byte (byte_at f 2 s) ∧ byte (byte_at f 3 s).
Proof.
  intros Hl Hb Hs. pose proof (length_get_field _LPCmodSettings f s) as H. rewrite Hs in H.
  specialize (H ltac:(by rewrite Hl, sizeof_LPCmodSettings)). pose proof (get_field_byte _LPCmodSettings f s Hb) as Hf.
  unfold byte_at. destruct (sget f s) as [|a [|b [|c [|d [|]]]]]; try done. split; [done|].
  by repeat (apply Forall_cons_1 in Hf as [? Hf]).
Qed.

(** The names of the special values are told apart. *)
Lemma special_names v :
  byte v → forallb (λ i, match getSpecialSettingTextString i v with
                         | Some name => bool_decide (find_special i (text name) = Some v)
                         | None => true
                         end) [ActiveBank; AltBank; LEDColorIndex; LCDTypeIndex] = true.
Proof.
  intros Hv. pattern v. refine (all_bytes _ v _ Hv). vm_compute. reflexivity.
Qed.

Lemma special_index i k f : In (GSpecial i, k, f) table → In i [ActiveBank; AltBank; LEDColorIndex; LCDTypeIndex].
Proof.
  intros H. assert (forallb (λ e : entry, match e.1.1 with
      GSpecial i => existsb (Z.eqb i) [ActiveBank; AltBank; LEDColorIndex; LCDTypeIndex] | _ => true end) table = true)
    as Ht by (vm_compute; reflexivity).
  rewrite forallb_forall in Ht. apply Ht, existsb_exists in H as (j & Hj & E%Z.eqb_eq). by subst.
Qed.

(** What is exported for a setting is imported into its field. *)
Lemma import_export g k f s t :
  In (g, k, f) table → length s = 3840%nat → length t = 3840%nat → Forall byte s → exportable s (g, k, f) →
  ∃ v w, export_value g f s = Ok (Some v) ∧ iniCallback k v t = Ok (sset f w t) ∧
    length w = sizeof_field _LPCmodSettings f ∧ stored g f s w.
Proof.
  intros Hin Hs Ht Hb Hex. pose proof table_ok as Htab. rewrite List.Forall_forall in Htab.
  destruct (Htab _ Hin) as [Hsize Hfind]. cbn [fst snd] in Hsize, Hfind. unfold iniCallback. rewrite Hfind.
  destruct g as [| | | |i]; cbn [group_size] in Hsize; cbn [export_value import_value].
  - destruct (byte_field f s Hs Hb Hsize) as [Hf Hv]. destruct (long2str_byte _ Hv) as ([Hd Hne] & Hval & _).
    eexists _, [byte_at f 0 s]. split; [done|]. split; [|by rewrite Hsize].
    unfold import_bool. destruct (long2str (byte_at f 0 s)) as [|c l]; [done|].
    apply Forall_cons_1 in Hd as [Hc _]. unfold is_digit_char. cbn [at_ nth].
    destruct (Z.leb_spec 48 c), (Z.leb_spec c 57); try lia. cbn [andb]. by rewrite Hval.
  - destruct (byte_field f s Hs Hb Hsize) as [Hf Hv]. destruct (long2str_byte _ Hv) as ([Hd Hne] & Hval & _).
    eexists _, [byte_at f 0 s]. split; [done|]. split; [|by rewrite Hsize].
    unfold import_num. destruct (long2str (byte_at f 0 s)) as [|c l]; [done|].
    apply Forall_cons_1 in Hd as [Hc _]. unfold is_digit_char. cbn [at_ nth].
    destruct (Z.leb_spec 48 c), (Z.leb_spec c 57); try lia. cbn [andb]. by rewrite Hval.
  - destruct (ip_field f s Hs Hb Hsize) as (Hf & Ha & Hb' & Hc & Hd). rewrite vsprintf_ip by done. rewrite bind_ok.
    eexists _, (sget f s). split; [done|]. split; [|by rewrite Hf, Hsize].
    unfold import_ip. cbn [exportable] in Hex. destruct (Nat.ltb_spec (length (ip_text (byte_at f 0 s) (byte_at f 1 s)
      (byte_at f 2 s) (byte_at f 3 s))) 15); [|lia]. rewrite ip_text_read, bind_ok, <- Hf by done. done.
  - eexists _, (text_at f s ++ [0] ++ drop (length (text_at f s) + 1) (sget f t)). split; [done|].
    cbn [exportable] in Hex. unfold import_text, _TextFieldsMaxLength.
    destruct (Nat.ltb_spec (length (text_at f s)) 20); [|lia]. split; [done|]. split; [|by eexists].
    pose proof (length_get_field _LPCmodSettings f t ltac:(by rewrite Ht, sizeof_LPCmodSettings)) as Hlen.
    rewrite !length_app, length_drop, Hlen, Hsize. cbn [List.length]. unfold text_size, _TextFieldsMaxLength. lia.
  - destruct (byte_field f s Hs Hb Hsize) as [Hf Hv]. cbn [exportable] in Hex.
    pose proof (special_names _ Hv) as Hn. rewrite forallb_forall in Hn. specialize (Hn i (special_index _ _ _ Hin)).
    destruct Hex as [name Hname]. rewrite Hname in Hn |- *.
    apply bool_decide_eq_true_1 in Hn. eexists _, [byte_at f 0 s]. split; [done|]. split; [|by rewrite Hsize].
    unfold import_special. by rewrite Hn.
Qed.

(** ** Changes *)

(** Formats of octets and strings, with their arguments. *)
Inductive accepts : list Z → list Format.va → Prop :=
| accepts_nil args : accepts [] args
| accepts_char c fmt args : c ≠ 37 → accepts fmt args → accepts (c :: fmt) args
| accepts_u v fmt args : byte v → accepts fmt args → accepts (37 :: 117 :: fmt) (VInt v :: args)
| accepts_s t fmt args : accepts fmt args → accepts (37 :: 115 :: fmt) (VStr (Some t) :: args).

Lemma accepts_ok fmt args : accepts fmt args → ∃ r, vsprintf fmt args = Ok r.
Proof.
  intros H. unfold vsprintf.
  assert (∀ fuel out st, (length fmt <= fuel)%nat → ∃ r, Format.vsprintf_loop fuel fmt args out st = Ok r) as Hf;
    [|by apply Hf].
  induction H as [args|c fmt args Hc H IH|v fmt args Hv H IH|t fmt args H IH]; intros fuel out st Hl;
    cbn [List.length] in Hl.
  - destruct fuel; by eexists.
  - destruct fuel as [|fuel]; [lia|]. cbn [Format.vsprintf_loop]. destruct (Z.eqb_spec c 37); [done|]. apply IH. lia.
  - destruct fuel as [|fuel]; [lia|]. rewrite vsprintf_u by done. apply IH. lia.
  - destruct fuel as [|fuel]; [lia|]. rewrite vsprintf_s. apply IH. lia.
Qed.

Ltac solve_accepts :=
  repeat first [assumption | apply accepts_nil | apply accepts_u | apply accepts_s | apply accepts_char; [done|]].

(** A special setting whose values are unknown has no name to show. *)
Definition named (orig new : list Z) (e : entry) : Prop :=
  match e with
  | (GSpecial i, _, f) => is_Some (getSpecialSettingDisplayString i (byte_at f 0 orig)) ∧
                          is_Some (getSpecialSettingDisplayString i (byte_at f 0 new))
  | _ => True
  end.

(** The text of a change can be made. *)
Lemma change_text_ok orig new e :
  In e table → length orig = 3840%nat → length new = 3840%nat → Forall byte orig → Forall byte new →
  named orig new e → ∃ t, change_text orig new e = Ok t.
Proof.
  intros Hin Ho Hn Hbo Hbn Hsp. pose proof table_ok as Htab. rewrite List.Forall_forall in Htab.
  destruct (Htab _ Hin) as [Hsize _]. destruct e as [[g k] f]. cbn [fst snd] in Hsize.
  assert (∀ fmt args, accepts fmt args → ∃ t, ('(t, _) ← vsprintf fmt args; Ok t) = Ok t) as Hacc.
  { intros fmt args (r & Hr)%accepts_ok. rewrite Hr, bind_ok. destruct r. by eexists. }
  unfold change_text. destruct g as [| | | |i]; cbn [group_size] in Hsize.
  - destruct (byte_field f orig Ho Hbo Hsize) as [_ H1], (byte_field f new Hn Hbn Hsize) as [_ H2].
    apply Hacc. solve_accepts.
  - destruct (byte_field f orig Ho Hbo Hsize) as [_ H1], (byte_field f new Hn Hbn Hsize) as [_ H2].
    apply Hacc. solve_accepts.
  - destruct (ip_field f orig Ho Hbo Hsize) as (_ & ? & ? & ? & ?), (ip_field f new Hn Hbn Hsize) as (_ & ? & ? & ? & ?).
    apply Hacc. solve_accepts.
  - apply Hacc. solve_accepts.
  - destruct Hsp as [[a ->] [b ->]]. apply Hacc. solve_accepts.
Qed.

(** A setting differs as the program uses it, and the groups in which one does. *)
Definition changed (orig new : list Z) (e : entry) : bool :=
  negb (bool_decide (shown e.1.1 e.2 orig = shown e.1.1 e.2 new)).
Definition changed_groups (orig new : list Z) : list (list entry) :=
  filter (λ es, existsb (changed orig new) es = true) groups.

Lemma differs_changed orig new e :
  In e table → length orig = 3840%nat → length new = 3840%nat → Forall byte orig → Forall byte new →
  differs orig new e = changed orig new e.
Proof.
  intros Hin Ho Hn Hbo Hbn. pose proof table_ok as Htab. rewrite List.Forall_forall in Htab.
  destruct (Htab _ Hin) as [Hsize _]. destruct e as [[g k] f]. unfold differs, changed. cbn [fst snd] in *.
  assert (group_size g = 1%nat → negb (byte_at f 0 orig =? byte_at f 0 new) =
            negb (bool_decide (sget f orig = sget f new))) as H1.
  { intros Hg. rewrite Hg in Hsize. f_equal. apply eq_true_iff_eq. rewrite Z.eqb_eq, bool_decide_eq_true.
    destruct (byte_field f orig Ho Hbo Hsize) as [E _], (byte_field f new Hn Hbn Hsize) as [E' _].
    split; [intros Hv; by rewrite E, E', Hv|intros Hv; unfold byte_at; by rewrite Hv]. }
  destruct g; cbn [shown]; auto.
Qed.

Lemma count_group_spec generate orig new es n out :
  (∀ e, In e es → (∃ t, change_text orig new e = Ok t) ∧ differs orig new e = changed orig new e) →
  ∃ out', count_group generate orig new es n out =
    Ok (n + (if existsb (changed orig new) es then 1 else 0), out').
Proof.
  intros Ht. induction es as [|e es IH]; cbn [count_group existsb].
  - rewrite Z.add_0_r. by eexists.
  - destruct (Ht e) as [[t Hc] ->]; [by left|]. destruct (changed orig new e); cbn [orb].
    + destruct generate; [|by eexists]. rewrite Hc, bind_ok. by eexists.
    + apply IH. intros e' He'. apply Ht. by right.
Qed.

Lemma count_groups_spec generate orig new gs : ∀ n out,
  (∀ e, In e (concat gs) → (∃ t, change_text orig new e = Ok t) ∧ differs orig new e = changed orig new e) →
  ∃ out', count_groups generate orig new gs n out =
    Ok (n + Z.of_nat (length (filter (λ es, existsb (changed orig new) es = true) gs)), out').
Proof.
  induction gs as [|es gs IH]; intros n out Ht; cbn [count_groups].
  { rewrite Z.add_0_r. by eexists. }
  destruct (count_group_spec generate orig new es n out) as [out1 ->].
  { intros e He. apply Ht. cbn. apply in_app_iff. by left. }
  rewrite bind_ok. edestruct (IH (n + (if existsb (changed orig new) es then 1 else 0)) out1) as [out2 ->].
  { intros e He. apply Ht. cbn. apply in_app_iff. by right. }
  exists out2. do 2 f_equal. rewrite filter_cons.
  destruct (existsb (changed orig new) es); destruct (decide _); try done; cbn [List.length]; lia.
Qed.

Lemma changed_none orig new :
  changed_groups orig new = [] ↔ Forall (λ e, shown e.1.1 e.2 orig = shown e.1.1 e.2 new) table.
Proof.
  assert (∀ es, es ∈ changed_groups orig new ↔ (∃ e, In e es ∧ changed orig new e = true) ∧ In es groups) as Hin.
  { intros es. unfold changed_groups. by rewrite list_elem_of_filter, existsb_exists, list_elem_of_In. }
  unfold table. rewrite List.Forall_forall. split.
  - intros E e (es & Hes & He)%in_concat. destruct (changed orig new e) eqn:Hd.
    + exfalso. apply (not_elem_of_nil es). rewrite <- E. apply Hin. split; [by exists e|done].
    + unfold changed in Hd. by apply negb_false_iff, bool_decide_eq_true in Hd.
  - intros Hall. destruct (changed_groups orig new) as [|es l]; [done|]. exfalso.
    destruct (proj1 (Hin es)) as [(e & He & Hd) Hes]; [by left|].
    unfold changed in Hd. rewrite bool_decide_true in Hd; [done|]. apply Hall, in_concat. by exists es.
Qed.

(** ** Properties *)

(** The settings after a first boot of an XBlast. *)
Definition sample_settings : list Z := populateSettingsStructWithDefault (Identify.sample_sys SYSCON_ID_V1).

#[local] Instance exportable_dec s e : Decision (exportable s e).
Proof. destruct e as [[[] ?] ?]; cbn; apply _. Defined.

(** The tracker finds changes: it always returns, with 0 exactly if every
    setting of the file is as it was, and otherwise with the number of groups in
    which one is not, at most five; it does not count the settings, since each
    group's loop stops at its first difference. *)
Theorem changes_found generate orig new out :
  length orig = 3840%nat → length new = 3840%nat → Forall byte orig → Forall byte new →
  Forall (named orig new) table →
  ∃ out', LPCMod_CountNumberOfChangesInSettings generate orig new out =
      Ok (Z.of_nat (length (changed_groups orig new)), out') ∧
    (length (changed_groups orig new) <= 5)%nat ∧
    (length (changed_groups orig new) = 0%nat ↔
     Forall (λ e, shown e.1.1 e.2 orig = shown e.1.1 e.2 new) table).
Proof.
  intros Ho Hn Hbo Hbn Hnamed. rewrite List.Forall_forall in Hnamed.
  assert (length (changed_groups orig new) <= 5)%nat as H5.
  { unfold changed_groups. etrans; [apply length_filter|done]. }
  destruct (count_groups_spec generate orig new groups 0 (mkChanges 0 (changeEntries out))) as [out' Hcount].
  { intros e He. split; [apply change_text_ok|apply differs_changed]; auto. }
  exists out'. unfold LPCMod_CountNumberOfChangesInSettings. rewrite Hcount, bind_ok.
  fold (changed_groups orig new). rewrite Z.add_0_l, u8_id by (unfold byte; lia). split; [done|]. split; [done|].
  rewrite length_zero_iff_nil. apply changed_none.
Qed.

#[local] Instance named_dec orig new e : Decision (named orig new e).
Proof. destruct e as [[[] ?] ?]; cbn; apply _. Defined.

(** Two switches and the fan speed changed: two changes. *)
Lemma changes_found_witness :
  ∃ out', LPCMod_CountNumberOfChangesInSettings true sample_settings
            (sset Quickboot [1] (sset TSOPhide [1] (sset fanSpeed [50] sample_settings))) settingsTrackerInit =
          Ok (2, out').
Proof.
  destruct (changes_found true sample_settings
              (sset Quickboot [1] (sset TSOPhide [1] (sset fanSpeed [50] sample_settings))) settingsTrackerInit)
    as (out' & Hc & _).
  - vm_compute. reflexivity.
  - vm_compute. reflexivity.
  - apply (bool_decide_unpack _). vm_compute. exact I.
  - apply (bool_decide_unpack _). vm_compute. exact I.
  - apply (bool_decide_unpack _). vm_compute. exact I.
  - exists out'. rewrite Hc. vm_compute. reflexivity.
Defined.

End SettingsFile.
