(* ===== verification/SettingsText.v ===== *)
(** * The settings in their file ([LPCMod_SaveCFGToHDD] and [LPCMod_ReadCFGFromHDD]
      of [src/xblast/settings/xblastSettingsImportExport.c])

    The export puts every setting of the table in the text file with minIni, the
    import hands every entry of the file to [iniCallback].  The files are those of
    [FatStore]: the theorem is about the whole way through minIni, the accessor and
    the text functions of FatFs. *)

From Stdlib Require Import String.
From stdpp Require Import gmap.
From S2P Require Import Prelude Layout Hardware Settings Identify Strtol Format Strings Partition FatFiles FatStore MinIni MinIniText MinIniRun SettingsFile.

Module SettingsText.
Import Hardware Settings.
Import Format(text).
Import Strings(strcasecmp).
Import FatFiles FatStore MinIni MinIniText MinIniRun SettingsFile.

Abbreviation length := List.length.

Definition settingsFileLocation : list Z := text "/MASTER_C/XBlast/xblast.cfg".
Definition HDD_Master : Z := 0.
Definition Part_C : Z := 1.

Section code.
Context {F D X : Type} `{!FatFs F D X}.
#[local] Abbreviation M := (ST (accessor F D X)).

(** The call for one setting; a special value without a name is a null pointer. *)
Definition put_setting (fuel : nat) (e : entry) (s : list Z) : M Z :=
  let '(g, k, f) := e in
  match g with
  | GBool | GNum => ini_putl fuel None k (byte_at f 0 s) settingsFileLocation
  | _ => v ← liftO (export_value g f s); ini_puts fuel None (Some k) v settingsFileLocation
  end.

Fixpoint save_entries (fuel : nat) (es : list entry) (s : list Z) : M Z :=
  match es with
  | [] => mret 0
  | e :: es => r ← put_setting fuel e s; if r =? 0 then mret 1 else save_entries fuel es s
  end.

Definition LPCMod_SaveCFGToHDD (fuel : nat) (s : list Z) : M Z := save_entries fuel table s.

(** The callback always goes on. *)
Definition import_callback (section key value s : list Z) : outcome (Z * list Z) :=
  s ← iniCallback key value s; Ok (1, s).

(** The code and the settings, which start as the current ones. *)
Definition LPCMod_ReadCFGFromHDD (fuel : nat) (LPCmodSettings : list Z) : M (Z * list Z) := λ a,
  if isMounted a HDD_Master Part_C =? 0 then Ok (2, LPCmodSettings, a)
  else
    '(r, s, a) ← ini_browse import_callback fuel LPCmodSettings settingsFileLocation a;
    Ok (if negb (r =? 1) then 4 else 0, s, a).

End code.

(** ** Entries by name *)

Definition values (k : list Z) (es : list item) : list (list Z) :=
  omap (λ e : item, if decide (same e.1.2 k) then Some e.2 else None) es.

Lemma values_app k es es' : values k (es ++ es') = values k es ++ values k es'.
Proof. apply omap_app. Qed.

Lemma values_cons k sec k' v es : values k ((sec, k', v) :: es) = (if decide (same k' k) then [v] else []) ++ values k es.
Proof. unfold values. cbn. by destruct (decide (same k' k)). Qed.

Lemma values_same k k' es : same k k' → values k es = values k' es.
Proof.
  intros H. induction es as [|[[sec x] v] es IH]; [done|]. rewrite !values_cons, IH.
  destruct (decide (same x k)) as [E|E], (decide (same x k')) as [E'|E']; try done; exfalso.
  - apply E'. by rewrite E.
  - apply E. by rewrite E'.
Qed.

Lemma values_none k es : Forall (λ e : item, e.1.1 = [] ∧ ¬ same e.1.2 k) es → values k es = [].
Proof.
  induction 1 as [|[[sec k'] v] es [_ Hk] _ IH]; [done|]. rewrite values_cons, IH. cbn in Hk. by destruct (decide (same k' k)).
Qed.

Lemma updates_values k v es es' :
  updates k v true es es' → (length (values k es) <= 1)%nat →
  values k es' = [v] ∧ ∀ k2, ¬ same k2 k → values k2 es' = values k2 es.
Proof.
  intros (bef & old & aft & k' & -> & -> & Hsame & Hbef & Hold) Hlen.
  rewrite !values_app in *. rewrite values_cons. rewrite (values_none k bef Hbef) in *. cbn [app] in *.
  destruct (decide (same k' k)) as [_|]; [|done]. split.
  - assert (values k aft = []) as ->; [|done]. destruct Hold as [[-> ->]|(k0 & v0 & -> & H0)]; [done|done|].
    rewrite values_cons in Hlen. destruct (decide (same k0 k)) as [_|]; [|done]. cbn in Hlen.
    apply nil_length_inv. lia.
  - intros k2 Hk2. rewrite !values_app, values_cons. destruct (decide (same k' k2)) as [H2|_].
    { exfalso. apply Hk2. by rewrite <- H2. }
    destruct Hold as [[-> _]|(k0 & v0 & -> & H0)]; [done|]. rewrite values_cons.
    destruct (decide (same k0 k2)) as [H2|_]; [|done]. exfalso. apply Hk2. by rewrite <- H2.
Qed.

(** ** The table *)

Lemma table_keys : Forall (λ e : entry, key_ok e.1.2) table.
Proof. apply (bool_decide_unpack _). vm_compute. exact I. Qed.

Lemma table_distinct : NoDup ((λ e : entry, map Strings.tolower e.1.2) <$> table).
Proof. apply (bool_decide_unpack _). vm_compute. exact I. Qed.

(** ** The values that are written *)

Lemma digits_value_ok t :
  Forall (λ c, c = 46 ∨ 48 <= c <= 57) t → (length t <= 100)%nat → value_ok t.
Proof.
  intros Ht Hlen. split; [eapply list.Forall_impl; [exact Ht|]; unfold byte; intros c [->|?]; lia|]. split; [done|].
  assert (∀ c, c = 46 ∨ 48 <= c <= 57 → blank c = false) as Hb.
  { intros c Hc. unfold blank, Strings.schar. destruct (Z.ltb_spec c 128); [|lia]. destruct (Z.leb_spec c 32); [lia|].
    by rewrite andb_false_r. }
  intros _. split.
  - destruct Ht as [|c t Hc Ht]; [done|]. by apply Hb.
  - unfold tight. destruct t as [|c t _] using rev_ind; [done|]. rewrite last_snoc.
    apply Forall_app in Ht as [_ Ht]. apply Forall_cons_1 in Ht as [Hc _]. by apply Hb.
Qed.

Lemma number_digits v : byte v → Forall (λ c, c = 46 ∨ 48 <= c <= 57) (long2str v) ∧ (length (long2str v) <= 3)%nat.
Proof.
  intros Hv. split.
  - destruct (long2str_byte v Hv) as [[Hd _] _]. eapply list.Forall_impl; [exact Hd|]. auto.
  - pattern v. refine (all_bytes _ v _ Hv). vm_compute. reflexivity.
Qed.

Lemma special_value_ok v :
  byte v → forallb (λ i, match getSpecialSettingTextString i v with
                         | Some name => bool_decide (value_ok (text name))
                         | None => true
                         end) [ActiveBank; AltBank; LEDColorIndex; LCDTypeIndex] = true.
Proof. intros Hv. pattern v. refine (all_bytes _ v _ Hv). vm_compute. reflexivity. Qed.

(** A setting whose text the file carries. *)
Definition carried (s : list Z) (e : entry) : Prop :=
  exportable s e ∧ match e.1.1 with GText => value_ok (text_at e.2 s) | _ => True end.

Lemma export_value_ok g k f s :
  In (g, k, f) table → length s = 3840%nat → Forall byte s → carried s (g, k, f) →
  ∃ v, export_value g f s = Ok (Some v) ∧ value_ok v.
Proof.
  intros Hin Hs Hb [Hex Hok]. pose proof table_ok as Htab. rewrite List.Forall_forall in Htab.
  destruct (Htab _ Hin) as [Hsize _]. cbn [fst snd] in Hsize, Hok.
  destruct g as [| | | |i]; cbn [group_size export_value] in *.
  - destruct (byte_field f s Hs Hb Hsize) as [_ Hv]. destruct (number_digits _ Hv) as [Hd Hl].
    eexists. split; [done|]. apply digits_value_ok; [done|lia].
  - destruct (byte_field f s Hs Hb Hsize) as [_ Hv]. destruct (number_digits _ Hv) as [Hd Hl].
    eexists. split; [done|]. apply digits_value_ok; [done|lia].
  - destruct (ip_field f s Hs Hb Hsize) as (_ & Ha & Hb' & Hc & Hd). rewrite vsprintf_ip by done.
    eexists. split; [done|]. destruct (number_digits _ Ha) as [Ha1 Ha2], (number_digits _ Hb') as [Hb1 Hb2],
      (number_digits _ Hc) as [Hc1 Hc2], (number_digits _ Hd) as [Hd1 Hd2].
    unfold ip_text. apply digits_value_ok.
    + repeat first [done|apply Forall_app; split|apply List.Forall_cons; [by left|]].
    + repeat (rewrite !length_app || cbn [length]). lia.
  - by eexists.
  - destruct (byte_field f s Hs Hb Hsize) as [_ Hv]. destruct Hex as [name Hname]. rewrite Hname.
    eexists. split; [done|]. pose proof (special_value_ok _ Hv) as Hn. rewrite forallb_forall in Hn.
    specialize (Hn i (special_index _ _ _ Hin)). rewrite Hname in Hn. by apply bool_decide_eq_true_1 in Hn.
Qed.

Lemma wp_put_setting {F D X : Type} `{!FatFs F D X} fuel g k f s v (Q : Z → accessor F D X → Prop) a :
  export_value g f s = Ok (Some v) →
  wp (ini_puts fuel None (Some k) (Some v) settingsFileLocation) Q a → wp (put_setting fuel (g, k, f) s) Q a.
Proof.
  intros Hv H. unfold put_setting. destruct g; [injection Hv as <-; exact H..| | |]; rewrite Hv; exact H.
Qed.

(** ** The export *)

Section save.
Context {F D X : Type} `{!FatFs F D X} {known : path → Prop} {room : Z} `{!FatFsFiles F D X known room}.
Context (T : path) (Hpaths : paths (known := known) settingsFileLocation T).
Context (fuel : nat) (L : nat) (s : list Z) (Hs : length s = 3840%nat) (Hb : Forall byte s).
Context (HL : 2 * (Z.of_nat L + 10000) <= room) (HL32 : 2 * (Z.of_nat L + 10000) < 2 ^ 32)
  (Hfuel : 2 * (Z.of_nat L + 10000) < Z.of_nat fuel).

(** The file after some of the settings. *)
Definition saved (st : gmap path (list Z)) (n : nat) (c : list Z) (ls : list (list Z)) (a : accessor F D X) : Prop :=
  leaves settingsFileLocation T st c a ∧ file_ok c ls ∧ plain ls = true ∧
  (length (concat ls) <= L + n * 246)%nat ∧ (length c <= 2 * (L + n * 246))%nat ∧
  Forall (λ e : entry, (length (values e.1.2 (entries [] (concat ls))) <= 1)%nat) table.

Lemma key_text_short k v : key_ok k → value_ok v → (length (key_text k v) <= 244)%nat.
Proof. intros Hk Hv. by destruct (key_text_line k v Hk Hv) as (_ & ? & _). Qed.

Lemma table_key e : In e table → key_ok e.1.2.
Proof. intros H. pose proof table_keys as Hk. rewrite List.Forall_forall in Hk. by apply Hk. Qed.

Lemma put_setting_runs st n c ls g k f a :
  In (g, k, f) table → carried s (g, k, f) → saved st n c ls a → (n < 40)%nat →
  wp (put_setting fuel (g, k, f) s)
    (λ r a', r = 1 ∧ ∃ c' ls' v, saved st (S n) c' ls' a' ∧ export_value g f s = Ok (Some v) ∧
       values k (entries [] (concat ls')) = [v] ∧
       ∀ k2, ¬ same k2 k → values k2 (entries [] (concat ls')) = values k2 (entries [] (concat ls))) a.
Proof using Hpaths Hs Hb HL HL32 Hfuel.
  intros Hin Hcar (Hleaves & Hfile & Hplain & Hlen & Hlenc & Hvals) Hn.
  destruct (export_value_ok g k f s Hin Hs Hb Hcar) as (v & Hv & Hvok). pose proof (table_key _ Hin) as Hk. cbn [fst snd] in Hk.
  pose proof (key_text_short k v Hk Hvok) as Hkt. destruct Hleaves as (s1 & Hsees & HsP & Hother).
  apply (wp_put_setting _ _ _ _ _ v _ _ Hv).
  eapply wp_mono; [eapply (ini_puts_runs _ T k v fuel s1 c ls a); try done; lia|].
  intros x a' [-> (c' & ls' & (s2 & Hsees2 & HsP2 & Hother2) & Hfile' & Hl1 & Hl2 & Hupd & Hpl)].
  rewrite Hplain in Hupd. pose proof Hvals as Hvals'. rewrite List.Forall_forall in Hvals'.
  destruct (updates_values k v _ _ Hupd) as [Hval Hrest]; [by apply (Hvals' _ Hin)|].
  split; [done|]. exists c', ls', v. split; [|split; [done|split; [done|exact Hrest]]].
  split; [exists s2; split; [done|]; split; [done|]; intros q H1 H2; by rewrite Hother2, Hother|].
  split; [done|]. split; [by apply Hpl|]. split; [lia|]. split; [lia|].
  apply List.Forall_forall. intros e He. destruct (decide (same e.1.2 k)) as [Hsame|Hne].
  - rewrite (values_same e.1.2 k), Hval by done. done.
  - rewrite Hrest by done. by apply Hvals'.
Qed.

(** The first setting makes the file. *)
Lemma put_first_runs st g k f a :
  In (g, k, f) table → carried s (g, k, f) → st !! settingsFileLocation = None → sees st ∅ a →
  wp (put_setting fuel (g, k, f) s)
    (λ r a', r = 1 ∧ ∃ c' ls' v, saved st 1 c' ls' a' ∧ export_value g f s = Ok (Some v) ∧
       values k (entries [] (concat ls')) = [v] ∧
       ∀ k2, ¬ same k2 k → values k2 (entries [] (concat ls')) = []) a.
Proof using Hpaths Hs Hb HL.
  intros Hin Hcar HsP Hsees. destruct (export_value_ok g k f s Hin Hs Hb Hcar) as (v & Hv & Hvok).
  pose proof (table_key _ Hin) as Hk. cbn [fst snd] in Hk. pose proof (key_text_short k v Hk Hvok) as Hkt.
  apply (wp_put_setting _ _ _ _ _ v _ _ Hv). eapply wp_mono; [eapply (ini_puts_new _ T k v fuel st a); try done; lia|].
  intros x a' [-> Hleaves]. split; [done|]. exists (crlf (key_text k v)), [key_text k v], v.
  pose proof (key_text_whole k v Hk Hvok) as Hw. pose proof (key_text_no_section k v Hk Hvok) as Hns.
  destruct (key_text_line k v Hk Hvok) as (_ & _ & Htext).
  assert (∀ k2, values k2 (entries [] (concat [key_text k v])) = if decide (same k k2) then [v] else []) as Hvals.
  { intros k2. cbn [concat]. rewrite entries_line by done. unfold entry_of. rewrite parse_key_text by done.
    change (entries [] []) with (@nil item). rewrite app_nil_r, values_cons. by rewrite app_nil_r. }
  split; [|split; [done|split]].
  - split; [done|]. split.
    { assert (crlf (key_text k v) = crlf (concat [key_text k v])) as -> by (cbn [concat]; by rewrite app_nil_r).
      apply crlf_ok; [by constructor|]. apply lined_cons; [done|constructor]. }
    split; [unfold plain; cbn [forallb]; by rewrite Hns|]. pose proof (crlf_length (key_text k v)). cbn [concat]. rewrite app_nil_r.
    split; [lia|]. split; [lia|]. apply List.Forall_forall. intros e _. specialize (Hvals e.1.2). cbn [concat] in Hvals.
    rewrite app_nil_r in Hvals. rewrite Hvals. destruct (decide _); cbn; lia.
  - rewrite Hvals. by destruct (decide (same k k)).
  - intros k2 Hk2. rewrite Hvals. destruct (decide (same k k2)) as [E|]; [|done]. exfalso. apply Hk2. by rewrite E.
Qed.

Lemma save_entries_runs st es : ∀ n c ls a,
  incl es table → Forall (carried s) es → NoDup ((λ e : entry, map Strings.tolower e.1.2) <$> es) →
  saved st n c ls a → (n + length es <= 40)%nat →
  wp (save_entries fuel es s)
    (λ r a', r = 0 ∧ ∃ c' ls', saved st 40 c' ls' a' ∧
       (∀ g k f, In (g, k, f) es → ∃ v, export_value g f s = Ok (Some v) ∧ values k (entries [] (concat ls')) = [v]) ∧
       ∀ k, Forall (λ e : entry, ¬ same k e.1.2) es → values k (entries [] (concat ls')) = values k (entries [] (concat ls))) a.
Proof using Hpaths Hs Hb HL HL32 Hfuel.
  induction es as [|[[g k] f] es IH]; intros n c ls a Hin Hcar Hnd Hsaved Hn.
  { apply wp_ret. split; [done|]. exists c, ls. split; [|split; [done|done]].
    destruct Hsaved as (H1 & H2 & H3 & H4 & H5 & H6). cbn in Hn. do 3 (split; [done|]). split; [lia|]. split; [lia|done]. }
  apply Forall_cons_1 in Hcar as [Hc Hcar]. cbn [fmap list_fmap] in Hnd. apply list.NoDup_cons in Hnd as [Hnew Hnd].
  cbn [save_entries length] in *. apply wp_bind. eapply wp_mono; [apply (put_setting_runs st n c ls g k f a); [apply Hin; by left|done|done|lia]|].
  intros x a1 [-> (c1 & ls1 & v & Hsaved1 & Hv & Hval & Hrest)]. cbn [Z.eqb].
  eapply wp_mono; [apply (IH (S n) c1 ls1 a1); [intros e He; apply Hin; by right|done|done|done|lia]|].
  intros x a2 [-> (c2 & ls2 & Hsaved2 & Hall & Hother)]. split; [done|]. exists c2, ls2. split; [done|]. split.
  - intros g' k' f' [[= <- <- <-]|He]; [|by apply (Hall g' k' f')]. exists v. split; [done|]. rewrite Hother; [done|].
    apply list.Forall_forall. intros e He Hsame. apply Hnew. apply list_elem_of_fmap. exists e. by split.
  - intros k2 H2. apply Forall_cons_1 in H2 as [H2 H2s]. cbn [fst snd] in H2. rewrite Hother, Hrest; done.
Qed.

End save.

(** ** The import *)

Lemma nodup_inj {A B} (h : A → B) (l : list A) x y : NoDup (h <$> l) → In x l → In y l → h x = h y → x = y.
Proof.
  induction l as [|z l IH]; [done|]. cbn [fmap list_fmap]. intros [Hz Hnd]%list.NoDup_cons [->|Hx] [->|Hy] E; [done| | |by apply IH].
  - exfalso. apply Hz, list_elem_of_fmap. exists y. split; [done|]. by apply list_elem_of_In.
  - exfalso. apply Hz, list_elem_of_fmap. exists x. split; [done|]. by apply list_elem_of_In.
Qed.

Lemma table_same e e' : In e table → In e' table → same e.1.2 e'.1.2 → e = e'.
Proof. intros H H' E. by apply (nodup_inj _ _ e e' table_distinct). Qed.

Lemma find_entry key :
  letters key →
  match List.find (λ '(_, k, _), strcasecmp k key =? 0) table with
  | Some e => In e table ∧ same key e.1.2
  | None => Forall (λ e : entry, ¬ same key e.1.2) table
  end.
Proof.
  intros Hkey.
  assert (∀ e : entry, In e table → strcasecmp e.1.2 key = 0 ↔ same key e.1.2) as Hiff.
  { intros e He. rewrite strcasecmp_same; [split; intros H; by rewrite H|apply key_letters; by apply table_key|done]. }
  destruct (List.find (λ '(_, k, _), strcasecmp k key =? 0) table) as [[[g k] f]|] eqn:E.
  - apply find_some in E as [Hin E%Z.eqb_eq]. split; [done|]. by apply (Hiff (g, k, f)).
  - apply List.Forall_forall. intros [[g k] f] He Hsame. pose proof (find_none _ _ E _ He) as Hn. cbn in Hn.
    apply Z.eqb_neq in Hn. apply Hn. by apply (Hiff (g, k, f)).
Qed.

Lemma table_field e e' : In e table → In e' table → e.2 = e'.2 → e = e'.
Proof.
  intros H H' E. apply (nodup_inj (λ '(_, _, f), f) _ e e' table_nodup); [done|done|].
  by destruct e as [[]], e' as [[]].
Qed.

(** The entry of a name is the one of its table entry. *)
Lemma callback_same g k f key v t :
  In (g, k, f) table → letters key → same key k → iniCallback key v t = iniCallback k v t.
Proof.
  intros Hin Hkey Hsame. pose proof table_ok as Htab. rewrite List.Forall_forall in Htab.
  destruct (Htab _ Hin) as [_ Hfind]. cbn [fst snd] in Hfind. unfold iniCallback. rewrite Hfind.
  pose proof (find_entry key Hkey) as Hf. destruct (List.find (λ '(_, k, _), strcasecmp k key =? 0) table) as [[[g' k'] f']|].
  - destruct Hf as [Hin' Hsame']. cbn [fst snd] in Hsame'.
    assert ((g', k', f') = (g, k, f)) as [= -> -> ->]; [|done].
    apply table_same; [done|done|]. cbn [fst snd]. by rewrite <- Hsame, Hsame'.
  - rewrite List.Forall_forall in Hf. by destruct (Hf _ Hin).
Qed.

Lemma import_visit s (Hs : length s = 3840%nat) (Hb : Forall byte s) (Hcar : Forall (carried s) table) es : ∀ t,
  length t = 3840%nat → Forall (λ e : item, letters e.1.2) es →
  (∀ g k f, In (g, k, f) table → values k es = [] ∨ ∃ v, export_value g f s = Ok (Some v) ∧ values k es = [v]) →
  ∃ t', visit import_callback es t = Ok t' ∧
    (∀ g k f, In (g, k, f) table → if decide (values k es = []) then sget f t' = sget f t else shown g f t' = shown g f s) ∧
    (∀ f, f ∉ fields table → sget f t' = sget f t).
Proof.
  induction es as [|[[sec key] v] es IH]; intros t Ht Hlet Hval.
  { exists t. split; [done|]. split; [|done]. intros g k f _. by destruct (decide (values k [] = [])). }
  apply Forall_cons_1 in Hlet as [Hkey Hlet]. cbn [fst snd] in Hkey. cbn [visit].
  change (import_callback sec key v t) with (s' ← iniCallback key v t; Ok (1, s')).
  assert (length t = sizeof _LPCmodSettings) as Ht' by (by rewrite Ht, sizeof_LPCmodSettings).
  pose proof (find_entry key Hkey) as Hf. destruct (List.find (λ '(_, k, _), strcasecmp k key =? 0) table) as [[[g k] f]|] eqn:Efind.
  - destruct Hf as [Hin Hsame]. cbn [fst snd] in Hsame.
    assert (∀ k2, values k2 ((sec, key, v) :: es) = (if decide (same k k2) then [v] else []) ++ values k2 es) as Hcons.
    { intros k2. rewrite values_cons. destruct (decide (same key k2)) as [E|E], (decide (same k k2)) as [E'|E']; try done; exfalso.
      - apply E'. by rewrite <- Hsame.
      - apply E. by rewrite Hsame. }
    assert (export_value g f s = Ok (Some v) ∧ values k es = []) as [Hv Hnil].
    { destruct (Hval g k f Hin) as [H|(v' & Hv' & H)]; rewrite Hcons in H; (destruct (decide (same k k)) as [_|]; [|done]);
        [done|]. by injection H as -> ->. }
    rewrite (callback_same g k f key v t Hin Hkey Hsame).
    rewrite List.Forall_forall in Hcar. destruct (Hcar _ Hin) as [Hex _].
    destruct (import_export g k f s t Hin Hs Ht Hb Hex) as (v' & w & Hv' & Hw & Hlen & Hst).
    assert (v' = v) as -> by congruence. rewrite Hw. cbn [mbind outcome_mbind outcome_bind]. cbn [Z.eqb].
    destruct (IH (sset f w t)) as (t' & Hvis & Htab & Hoth); [by rewrite length_set_field|done| |].
    { intros g2 k2 f2 Hin2. specialize (Hval g2 k2 f2 Hin2). rewrite Hcons in Hval.
      destruct (decide (same k k2)) as [E|]; [|exact Hval]. left. by rewrite (values_same k2 k). }
    exists t'. split; [exact Hvis|]. split.
    + intros g2 k2 f2 Hin2. specialize (Htab g2 k2 f2 Hin2). rewrite Hcons.
      destruct (decide (same k k2)) as [E|E]; cbn [app].
      * destruct (decide (v :: values k2 es = [])); [done|].
        assert ((g, k, f) = (g2, k2, f2)) as [= <- <- <-] by by apply table_same.
        rewrite Hnil in Htab. destruct (decide ([] = [])); [|done]. eapply stored_shown; [exact Hst|].
        rewrite Htab. by apply get_set_same.
      * destruct (decide (values k2 es = [])); [|done]. rewrite Htab. apply get_set_other; [|done..].
        intros <-. apply E. by injection (table_field (g, k, f) (g2, k2, f) Hin Hin2 eq_refl) as _ <-.
    + intros f2 Hf2. rewrite Hoth by done. apply get_set_other; [|done..].
      intros <-. apply Hf2, list_elem_of_fmap. exists (g, k, f). split; [done|]. by apply list_elem_of_In.
  - assert (iniCallback key v t = Ok t) as -> by (unfold iniCallback; by rewrite Efind).
    cbn [mbind outcome_mbind outcome_bind Z.eqb]. rewrite List.Forall_forall in Hf.
    assert (∀ g k f, In (g, k, f) table → values k (((sec, key, v) : item) :: es) = values k es) as Hcons.
    { intros g k f Hin. rewrite values_cons. destruct (decide (same key k)); [|done]. by destruct (Hf _ Hin). }
    destruct (IH t) as (t' & Hvis & Htab & Hoth); [done|done| |].
    { intros g k f Hin. rewrite <- (Hcons g k f Hin). by apply Hval. }
    exists t'. split; [exact Hvis|]. split; [|done]. intros g k f Hin. rewrite (Hcons g k f Hin).
    by apply Htab.
Qed.

(** ** Property *)

(** What the file may be before: there is none, or it has lines without sections
    and no setting twice. *)
Definition ready (file : option (list Z)) : Prop :=
  match file with
  | None => True
  | Some c => ∃ ls, file_ok c ls ∧ plain ls = true ∧
      Forall (λ e : entry, (length (values e.1.2 (entries [] (concat ls))) <= 1)%nat) table
  end.
Definition file_size (file : option (list Z)) : Z := Z.of_nat (length match file with Some c => c | None => [] end).

Lemma table_length : length table = 36%nat.
Proof. reflexivity. Qed.

Lemma save_runs {F D X : Type} `{!FatFs F D X} {known : path → Prop} {room : Z} `{!FatFsFiles F D X known room}
    T fuel s st (a : accessor F D X) :
  paths (known := known) settingsFileLocation T →
  length s = 3840%nat → Forall byte s → Forall (carried s) table → sees st ∅ a → ready (st !! settingsFileLocation) →
  let L := file_size (st !! settingsFileLocation) in
  2 * (L + 10000) <= room → 2 * (L + 10000) < 2 ^ 32 → 2 * (L + 10000) < Z.of_nat fuel →
  wp (LPCMod_SaveCFGToHDD fuel s) (λ r a', r = 0 ∧ ∃ c ls, saved T (Z.to_nat L) st 40 c ls a' ∧
    ∀ g k f, In (g, k, f) table → ∃ v, export_value g f s = Ok (Some v) ∧ values k (entries [] (concat ls)) = [v]) a.
Proof.
  intros Hpaths Hs Hb Hcar Hsees Hready L H1 H2 H3. subst L. unfold LPCMod_SaveCFGToHDD.
  destruct (st !! settingsFileLocation) as [c|] eqn:EP; unfold file_size in *; rewrite Nat2Z.id.
  - destruct Hready as (ls & Hfile & Hplain & Hvals). pose proof Hfile as (_ & _ & Hchars & _). pose proof (chars_length c) as Hlc.
    eapply wp_mono; [eapply (save_entries_runs T Hpaths fuel (length c) s Hs Hb H1 H2 H3 st table 0 c ls a)|].
    + apply incl_refl.
    + done.
    + apply table_distinct.
    + split; [exists st; done|]. split; [done|]. split; [done|]. rewrite <- Hchars. split; [lia|]. split; [lia|]. by rewrite Hchars.
    + rewrite table_length. lia.
    + intros x a' [-> (c' & ls' & Hsaved & Hall & _)]. split; [done|]. by exists c', ls'.
  - pose proof table_distinct as Hnd. pose proof table_length as Hlen. cbn [length] in *.
    assert (∃ g k f es, table = (g, k, f) :: es) as (g & k & f & es & Et) by (by eexists _, _, _, _).
    rewrite Et in Hnd, Hlen, Hcar. cbn [fmap list_fmap length] in Hnd, Hlen. apply list.NoDup_cons in Hnd as [Hnew Hnd].
    apply Forall_cons_1 in Hcar as [Hc Hcar]. assert (In (g, k, f) table) as Hin by (rewrite Et; by left).
    rewrite Et at 1. cbn [save_entries]. apply wp_bind.
    eapply wp_mono; [apply (put_first_runs T Hpaths fuel 0 s Hs Hb H1 st g k f a Hin Hc EP Hsees)|].
    intros x a1 [-> (c1 & ls1 & v & Hsaved1 & Hv & Hval & Hrest)]. cbn [Z.eqb].
    eapply wp_mono; [eapply (save_entries_runs T Hpaths fuel 0 s Hs Hb H1 H2 H3 st es 1 c1 ls1 a1)|].
    + rewrite Et. intros e He. by right.
    + done.
    + done.
    + done.
    + lia.
    + intros x a2 [-> (c2 & ls2 & Hsaved2 & Hall & Hother)]. split; [done|]. exists c2, ls2. split; [done|].
      intros g' k' f' Hin'. rewrite Et in Hin'. destruct Hin' as [[= <- <- <-]|He]; [|by apply (Hall g' k' f')].
      exists v. split; [done|]. rewrite Hother; [done|].
      apply list.Forall_forall. intros e He Hsame. apply Hnew, list_elem_of_fmap. exists e. by split.
Qed.

(** C4: settings survive their file, when the import can read what the export
    writes: addresses of at most 14 characters, texts of at most 19 without line ends
    and without blanks around them, and enumerated values that have a name.  When the
    file before is missing, or has lines of at most 254 characters, no sections and no
    setting twice, and the volume has room, the export succeeds, keeps the other
    entries, and leaves the files other than this one and its temporary copy alone;
    the import in any later state in which the file is unchanged and the volume
    mounted, a reboot included, succeeds, gives each setting of the table its value
    back in any settings and leaves the rest of them alone. *)
Theorem settings_file_roundtrip {F D X : Type} `{!FatFs F D X} {known : path → Prop} {room : Z} `{!FatFsFiles F D X known room}
    T fuel s st (a : accessor F D X) :
  paths (known := known) settingsFileLocation T →
  length s = 3840%nat → Forall byte s → Forall (carried s) table → sees st ∅ a → ready (st !! settingsFileLocation) →
  2 * (file_size (st !! settingsFileLocation) + 10000) <= room →
  2 * (file_size (st !! settingsFileLocation) + 10000) < 2 ^ 32 →
  2 * (file_size (st !! settingsFileLocation) + 10000) < Z.of_nat fuel →
  ∃ c a2, LPCMod_SaveCFGToHDD fuel s a = Ok (0, a2) ∧ leaves settingsFileLocation T st c a2 ∧
    ∀ t st3 a3, length t = 3840%nat → sees st3 ∅ a3 → st3 !! settingsFileLocation = Some c →
      isMounted a3 HDD_Master Part_C ≠ 0 →
      ∃ t' a4, LPCMod_ReadCFGFromHDD fuel t a3 = Ok (0, t', a4) ∧ sees st3 ∅ a4 ∧
        (∀ g k f, In (g, k, f) table → shown g f t' = shown g f s) ∧
        (∀ f, f ∉ fields table → sget f t' = sget f t).
Proof.
  intros Hpaths Hs Hb Hcar Hsees Hready H1 H2 H3.
  pose proof (save_runs T fuel s st a Hpaths Hs Hb Hcar Hsees Hready H1 H2 H3) as Hsave. cbv zeta in Hsave.
  apply wp_run in Hsave as (x & a2 & E2 & -> & c & ls & (Hleaves & Hfile & _ & _ & Hlen & _) & Hall).
  exists c, a2. split; [done|]. split; [done|]. intros t st3 a3 Ht Hsees3 Hst3 Hmount.
  pose proof Hfile as (Hletters & _ & Hchars & _). pose proof Hpaths as [[HkP _] _ _ _].
  destruct (import_visit s Hs Hb Hcar (entries [] (concat ls)) t Ht) as (t' & Hvis & Htab & Hoth).
  - rewrite <- Hchars. by apply entries_letters, letters_chars.
  - intros g k f Hin. right. by apply (Hall g k f).
  - rewrite <- Hchars in Hvis.
    pose proof (ini_browse_runs import_callback settingsFileLocation fuel st3 c t t' a3 HkP Hletters Hst3 Hsees3) as Hbrowse.
    apply wp_run in Hbrowse as (y & a4 & E4 & -> & Hsees4); [|unfold file_size in *; lia|done].
    exists t', a4. unfold LPCMod_ReadCFGFromHDD. destruct (Z.eqb_spec (isMounted a3 HDD_Master Part_C) 0); [done|].
    rewrite E4. split; [done|]. split; [done|]. split; [|done]. intros g k f Hin. specialize (Htab g k f Hin).
    destruct (Hall g k f Hin) as (v & _ & Hv). destruct (decide (values k (entries [] (concat ls)) = [])); [congruence|done].
Qed.

#[local] Instance exportable_dec s e : Decision (exportable s e).
Proof. destruct e as [[[] ?] ?]; cbn; apply _. Defined.
#[local] Instance carried_dec s e : Decision (carried s e).
Proof. unfold carried. apply and_dec; [apply _|]. destruct e.1.1; apply _. Defined.

(** A first export on a volume without the file, imported after a restart. *)
Lemma settings_file_roundtrip_witness :
  ∃ c a2 t' a4, LPCMod_SaveCFGToHDD (Z.to_nat 30000) sample_settings (ram_disk ∅) = Ok (0, a2) ∧
    LPCMod_ReadCFGFromHDD (Z.to_nat 30000) (replicate 3840 0) (ram_disk {[ settingsFileLocation := c ]}) = Ok (0, t', a4) ∧
    (∀ g k f, In (g, k, f) table → shown g f t' = shown g f sample_settings).
Proof.
  destruct (settings_file_roundtrip (room := 30000) (text "/MASTER_C/XBlast/xblast.cf~") (Z.to_nat 30000) sample_settings ∅
    (ram_disk ∅)) as (c & a2 & E2 & _ & Hread).
  - split; [done|reflexivity|discriminate|]. split; [reflexivity|]. cbn. lia.
  - vm_compute. reflexivity.
  - apply (bool_decide_unpack _). vm_compute. exact I.
  - apply (bool_decide_unpack _). vm_compute. exact I.
  - apply ram_disk_sees.
  - exact I.
  - vm_compute. discriminate.
  - vm_compute. reflexivity.
  - rewrite Z2Nat.id by lia. vm_compute. reflexivity.
  - destruct (Hread (replicate 3840 0) {[ settingsFileLocation := c ]} (ram_disk {[ settingsFileLocation := c ]}))
      as (t' & a4 & E4 & _ & Hshown & _).
    + apply length_replicate.
    + apply ram_disk_sees.
    + apply lookup_singleton_eq.
    + discriminate.
    + exists c, a2, t', a4. split; [exact E2|]. split; [exact E4|exact Hshown].
Defined.

End SettingsText.
