(* ===== verification/LwipTcp.v ===== *)
(** * The raw TCP interface of lwIP ([src/lwip-2.0.3/src/core/tcp.c])

    A connection is named by the address of its protocol control block; 0 is
    NULL.  The functions that register callbacks and the macros that call them are
    modelled here.  What TCP itself does (segments, windows, timers, allocation of
    blocks) is the interface [Tcp]: its state [N] changes in calls of the interface
    and whenever packets arrive.  [TcpLaws] is what lwIP documents about writing. *)

From stdpp Require Import gmap.
From S2P Require Import Prelude.

Module LwipTcp.

Abbreviation length := List.length.

Definition ERR_OK : Z := 0.
Definition ERR_MEM : Z := -1.
Definition ERR_USE : Z := -8.
Definition ERR_ABRT : Z := -13.
Definition ERR_CLSD : Z := -15.
Definition ERR_ARG : Z := -16.
Definition ESTABLISHED : Z := 4.
Definition TCP_MSS : Z := 1460.

(** [tcp_remove] is what [tcp_abandon] does to the block before it calls the
    error callback.  [malloc] tells whether the heap serves a request, [junk] is
    what a variable on the stack holds before it is set. *)
Class Tcp (N : Type) := {
  tcp_new : N → Z * N;
  tcp_bind : Z → Z → N → Z * N;
  tcp_listen : Z → N → Z * N;
  tcp_connect : Z → list Z → Z → N → N;
  tcp_write : Z → list Z → N → Z * N;
  tcp_sndbuf : Z → N → Z;
  tcp_recved : Z → Z → N → N;
  tcp_close : Z → N → N;
  tcp_remove : Z → N → N;
  tcp_state : Z → N → Z;
  local_ip : Z → N → list Z;
  malloc : Z → N → bool * N;
  junk : N → Z * Z
}.

(** A call of the interface in the state monad. *)
Definition net {N A} (f : N → A * N) : ST N A := λ n, Ok (f n).

(** [delivered p n]: the octets that were accepted for sending on connection [p].
    [window p n]: the connection is established and takes what fits its buffer.
    [in_use n]: the control blocks that are allocated.  [plenty n]: the heap serves
    requests and a control block is free. *)
Class TcpLaws (N : Type) `{!Tcp N} := {
  delivered : Z → N → list Z;
  window : Z → N → Prop;
  in_use : N → gset Z;
  plenty : N → Prop;
  keeps (n n' : N) : Prop := in_use n' = in_use n ∧ (plenty n → plenty n');
  sndbuf_range p n : 0 <= tcp_sndbuf p n < 2 ^ 16;
  write_accepted p data n :
    (tcp_write p data n).1 = ERR_OK →
    delivered p (tcp_write p data n).2 = delivered p n ++ data;
  write_refused p data n :
    (tcp_write p data n).1 ≠ ERR_OK → delivered p (tcp_write p data n).2 = delivered p n;
  write_other p q data n : q ≠ p → delivered q (tcp_write p data n).2 = delivered q n;
  write_window p data n :
    window p n → Z.of_nat (length data) <= tcp_sndbuf p n →
    (tcp_write p data n).1 = ERR_OK ∧ window p (tcp_write p data n).2 ∧
    tcp_sndbuf p (tcp_write p data n).2 = tcp_sndbuf p n - Z.of_nat (length data);
  write_keeps p data n : keeps n (tcp_write p data n).2;
  recved_delivered p q k n : delivered q (tcp_recved p k n) = delivered q n;
  recved_keeps p k n : keeps n (tcp_recved p k n);
  close_delivered p q n : delivered q (tcp_close p n) = delivered q n;
  connect_delivered p q ip port n : delivered q (tcp_connect p ip port n) = delivered q n;
  malloc_served k n : plenty n → (malloc k n).1 = true;
  malloc_delivered q k n : delivered q (malloc k n).2 = delivered q n;
  malloc_keeps k n : keeps n (malloc k n).2;
  new_served n : plenty n → (tcp_new n).1 ≠ 0;
  new_fresh n : (tcp_new n).1 ∉ in_use n;
  new_delivered q n :
    delivered q (tcp_new n).2 = if bool_decide (q = (tcp_new n).1) then [] else delivered q n
}.

(** ** A network

    It takes what fits the send buffer of a connection; [room] is what is left of
    the buffer, 2920 at first. *)
Record wire := mkWire { out : gmap Z (list Z); room : gmap Z Z; blocks : gset Z }.

Definition left_in (p : Z) (n : wire) : Z := Z.min 65535 (Z.max 0 (default 2920 (room n !! p))).

#[export] Instance wire_tcp : Tcp wire := {
  tcp_new n :=
    let p := fresh ({[0]} ∪ blocks n) in (p, mkWire (delete p (out n)) (room n) ({[p]} ∪ blocks n));
  tcp_bind _ _ n := (ERR_OK, n);
  tcp_listen _ n :=
    let p := fresh ({[0]} ∪ blocks n) in (p, mkWire (delete p (out n)) (room n) ({[p]} ∪ blocks n));
  tcp_connect _ _ _ n := n;
  tcp_write p data n :=
    if Z.of_nat (length data) <=? left_in p n
    then (ERR_OK, mkWire (<[p := default [] (out n !! p) ++ data]> (out n))
                    (<[p := left_in p n - Z.of_nat (length data)]> (room n)) (blocks n))
    else (ERR_MEM, n);
  tcp_sndbuf := left_in;
  tcp_recved _ _ n := n;
  tcp_close p n := mkWire (out n) (room n) (blocks n ∖ {[p]});
  tcp_remove p n := mkWire (out n) (room n) (blocks n ∖ {[p]});
  tcp_state _ _ := ESTABLISHED;
  local_ip _ _ := [192; 168; 0; 2];
  malloc _ n := (true, n);
  junk _ := (0, 0)
}.

#[export] Instance wire_laws : TcpLaws wire.
Proof.
  refine {| delivered p n := default [] (out n !! p); window _ _ := True; in_use := blocks; plenty _ := True |}.
  - intros p n. cbn. unfold left_in. lia.
  - intros p data n. cbn. destruct (_ <=? _); cbn; [|done]. intros _. by rewrite lookup_insert_eq.
  - intros p data n. cbn. destruct (_ <=? _); cbn; [|done]. done.
  - intros p q data n Hq. cbn. destruct (_ <=? _); cbn; [|done]. by rewrite lookup_insert_ne.
  - intros p data n _. cbn. intros Hl. destruct (Z.leb_spec (Z.of_nat (length data)) (left_in p n)); [|lia]. cbn.
    split; [done|]. split; [done|]. unfold left_in at 1. cbn [room]. rewrite lookup_insert_eq. cbn. unfold left_in in *. lia.
  - intros p data n. cbn. by destruct (_ <=? _).
  - done.
  - done.
  - done.
  - done.
  - done.
  - done.
  - done.
  - intros n _. cbn. pose proof (is_fresh (({[0]} : gset Z) ∪ blocks n)) as H. set_solver.
  - intros n. cbn. pose proof (is_fresh (({[0]} : gset Z) ∪ blocks n)) as H. set_solver.
  - intros q n. cbn. case_bool_decide as E; [subst q; by rewrite lookup_delete_eq|by rewrite lookup_delete_ne].
Defined.

End LwipTcp.
