(* ===== verification/Sfifo.v ===== *)
(** * The FIFO between a file and a connection ([src/lib/lwip-ftpd/ftpd.c])

    A ring of [fsize] octets, a power of two, that never holds more than
    [fsize - 1].  [send_data] and [send_msgdata] have the same body, [send_fifo]. *)

From stdpp Require Import gmap.
From S2P Require Import Prelude LwipTcp.

Module Sfifo.
Import LwipTcp.

Abbreviation length := List.length.

Definition EINVAL : Z := 1.
Definition ENOMEM : Z := 2.
Definition ENODEV : Z := 3.
Definition FtpdBufferSize : Z := TCP_MSS.
Definition SFIFO_MAX_BUFFER_SIZE : Z := 0x7fffffff.

Record sfifo_t := mkFifo { buffer : option (list Z); fsize : Z; readpos : Z; writepos : Z }.

Definition no_fifo : sfifo_t := mkFifo None 0 0 0.
Definition set_readpos (r : Z) (f : sfifo_t) : sfifo_t := mkFifo (buffer f) (fsize f) r (writepos f).

Definition sfifo_used (f : sfifo_t) : Z := (writepos f - readpos f) .& (fsize f - 1).
Definition sfifo_space (f : sfifo_t) : Z := fsize f - 1 - sfifo_used f.

(** The loop of [sfifo_init]; the shift overflows an [int] beyond [2 ^ 30]. *)
Fixpoint power_above (fuel : nat) (fs size : Z) : outcome Z :=
  if size <? fs then Ok fs
  else match fuel with O => UB | S fuel => power_above fuel (fs * 2) size end.

(** What malloc leaves in the buffer is zero here; it is overwritten before it is
    read. *)
Definition sfifo_init {N} `{!Tcp N} (size : Z) : ST N (Z * sfifo_t) :=
  if SFIFO_MAX_BUFFER_SIZE <? size then mret (- EINVAL, no_fifo)
  else
    fs ← liftO (power_above 30 1 size);
    got ← net (malloc fs);
    match got with
    | true => mret (0, mkFifo (Some (replicate (Z.to_nat fs) 0)) fs 0 0)
    | false => mret (- ENOMEM, mkFifo None fs 0 0)
    end.

(** [len] octets at [off] of an array, and [memcpy] to [off]. *)
Definition peek (b : list Z) (off len : Z) : outcome (list Z) :=
  if (0 <=? off) && (0 <=? len) && (off + len <=? Z.of_nat (length b))
  then Ok (take (Z.to_nat len) (drop (Z.to_nat off) b)) else UB.
Definition poke (b : list Z) (off : Z) (data : list Z) : outcome (list Z) :=
  if (0 <=? off) && (off + Z.of_nat (length data) <=? Z.of_nat (length b))
  then Ok (take (Z.to_nat off) b ++ data ++ drop (Z.to_nat off + length data) b) else UB.

Definition sfifo_write (f : sfifo_t) (buf : list Z) (len : Z) : outcome (Z * sfifo_t) :=
  match buffer f with
  | None => Ok (- ENODEV, f)
  | Some b =>
      let total := sfifo_space f in
      let '(len, total) := if total <? len then (total, total) else (len, len) in
      let i := writepos f in
      '(b, off, len, i) ←
        (if fsize f <? i + len then
           data ← peek buf 0 (fsize f - i);
           b ← poke b i data;
           Ok (b, fsize f - i, len - (fsize f - i), 0)
         else Ok (b, 0, len, i));
      data ← peek buf off len;
      b ← poke b i data;
      Ok (total, mkFifo (Some b) (fsize f) (readpos f) (i + len))
  end.

Section send.
Context {N : Type} `{!Tcp N}.

(** [tcp_write] of [len] octets of the buffer at [i]. *)
Definition write_at (pcb : Z) (f : sfifo_t) (i len : Z) : ST N Z :=
  data ← liftO (match buffer f with Some b => peek b i len | None => UB end);
  net (tcp_write pcb data).

Definition send_fifo (pcb : Z) (f : sfifo_t) : ST N sfifo_t :=
  if 0 <? sfifo_used f then
    sndbuf ← gets (tcp_sndbuf pcb);
    let len := if sndbuf <? sfifo_used f then sndbuf else u16 (sfifo_used f) in
    let i := readpos f in
    if fsize f <? i + len then
      err ← write_at pcb f i (u16 (fsize f - i));
      if negb (err =? ERR_OK) then mret f
      else
        let len := u16 (len - (fsize f - i)) in
        let f := set_readpos 0 f in
        err ← write_at pcb f 0 len;
        if negb (err =? ERR_OK) then mret f else mret (set_readpos (0 + len) f)
    else
      err ← write_at pcb f i len;
      if negb (err =? ERR_OK) then mret f else mret (set_readpos (i + len) f)
  else mret f.

End send.

(** ** The queue *)

(** Every comparison of the goal. *)
Ltac split_tests :=
  repeat match goal with
  | |- context [?a <? ?b] => destruct (Z.ltb_spec a b); try (exfalso; lia)
  | |- context [?a <=? ?b] => destruct (Z.leb_spec a b); try (exfalso; lia)
  | |- context [(?a <? ?b)%nat] => destruct (Nat.ltb_spec a b); try (exfalso; lia)
  end.

(** The place of the [i]-th octet from position [r]. *)
Definition slot (s r i : Z) : Z := if r + i <? s then r + i else r + i - s.

(** The octets a FIFO holds, oldest first. *)
Definition queue (f : sfifo_t) : list Z :=
  match buffer f with
  | None => []
  | Some b => (λ i, nth (Z.to_nat (slot (fsize f) (readpos f) i)) b 0) <$> seqZ 0 (sfifo_used f)
  end.

Definition fifo_ok (f : sfifo_t) : Prop :=
  ∃ k b, 1 <= k <= 15 ∧ fsize f = 2 ^ k ∧ buffer f = Some b ∧ Z.of_nat (length b) = fsize f ∧
    0 <= readpos f <= fsize f ∧ 0 <= writepos f <= fsize f.

Lemma used_mod f k : 0 <= k → fsize f = 2 ^ k → sfifo_used f = (writepos f - readpos f) mod fsize f.
Proof. intros Hk Hs. unfold sfifo_used. rewrite Hs, <- Z.land_ones by done. by rewrite Z.ones_equiv. Qed.

(** Between the positions, on the one or the other side of the end of the ring. *)
Lemma used_cases f : fifo_ok f →
  0 <= sfifo_used f < fsize f ∧
  ∃ j, (j = -1 ∨ j = 0 ∨ j = 1) ∧ writepos f = readpos f + sfifo_used f + j * fsize f.
Proof.
  intros (k & b & Hk & Hs & _ & _ & Hr & Hw). rewrite (used_mod f k) by (done || lia).
  assert (0 < fsize f) as Hp by (rewrite Hs; apply Z.pow_pos_nonneg; lia).
  pose proof (Z.mod_pos_bound (writepos f - readpos f) (fsize f) Hp).
  split; [done|]. pose proof (Z.div_mod (writepos f - readpos f) (fsize f) ltac:(lia)).
  exists ((writepos f - readpos f) / fsize f). split; [|lia]. nia.
Qed.

Lemma length_queue f : fifo_ok f → Z.of_nat (length (queue f)) = sfifo_used f.
Proof.
  intros H. pose proof (used_cases f H) as [Hu _]. destruct H as (k & b & _ & _ & Hb & _). unfold queue. rewrite Hb.
  rewrite length_fmap, length_seqZ. lia.
Qed.

Lemma nth_queue f b (i : nat) :
  fifo_ok f → buffer f = Some b → Z.of_nat i < sfifo_used f →
  queue f !! i = Some (nth (Z.to_nat (slot (fsize f) (readpos f) (Z.of_nat i))) b 0).
Proof.
  intros H Hb Hi. unfold queue. rewrite Hb, list_lookup_fmap, lookup_seqZ_lt by lia. cbn. by rewrite Z.add_0_l.
Qed.

(** A queue is known by its length and its octets. *)
Lemma queue_is f b l :
  fifo_ok f → buffer f = Some b → sfifo_used f = Z.of_nat (length l) →
  (∀ i : nat, (i < length l)%nat → nth (Z.to_nat (slot (fsize f) (readpos f) (Z.of_nat i))) b 0 = nth i l 0) →
  queue f = l.
Proof.
  intros H Hb Hu Hn. apply list_eq_same_length with (length l); [done| |].
  - pose proof (length_queue f H). lia.
  - intros i x y Hi Hx Hy. rewrite (nth_queue f b) in Hx by (done || lia). injection Hx as <-.
    rewrite Hn by done. by apply nth_lookup_Some with (d := 0) in Hy.
Qed.

Lemma nth_poke b i d b' j :
  poke b i d = Ok b' → 0 <= j < Z.of_nat (length b) →
  nth (Z.to_nat j) b' 0 =
    if (i <=? j) && (j <? i + Z.of_nat (length d)) then nth (Z.to_nat (j - i)) d 0 else nth (Z.to_nat j) b 0.
Proof.
  unfold poke. destruct (Z.leb_spec 0 i); [|done]. destruct (Z.leb_spec (i + Z.of_nat (length d)) (Z.of_nat (length b))); [|done].
  intros [= <-] Hj. destruct (Z.leb_spec i j); cbn [andb].
  - rewrite app_nth2 by (rewrite length_take; lia). rewrite length_take.
    destruct (Z.ltb_spec j (i + Z.of_nat (length d))).
    + rewrite app_nth1 by lia. f_equal. lia.
    + rewrite app_nth2 by lia. rewrite nth_skipn. f_equal; lia.
  - rewrite app_nth1 by (rewrite length_take; lia). rewrite nth_firstn. by destruct (Nat.ltb_spec (Z.to_nat j) (Z.to_nat i)); [|lia].
Qed.

Lemma poke_ok b i d :
  0 <= i → i + Z.of_nat (length d) <= Z.of_nat (length b) → ∃ b', poke b i d = Ok b' ∧ length b' = length b.
Proof.
  intros Hi Hl. unfold poke. destruct (Z.leb_spec 0 i); [|lia].
  destruct (Z.leb_spec (i + Z.of_nat (length d)) (Z.of_nat (length b))); [|lia]. eexists. split; [done|].
  rewrite !length_app, length_take, length_drop. lia.
Qed.

Lemma peek_ok b off len :
  0 <= off → 0 <= len → off + len <= Z.of_nat (length b) →
  peek b off len = Ok (take (Z.to_nat len) (drop (Z.to_nat off) b)).
Proof.
  intros. unfold peek. destruct (Z.leb_spec 0 off); [|lia]. destruct (Z.leb_spec 0 len); [|lia].
  by destruct (Z.leb_spec (off + len) (Z.of_nat (length b))); [|lia].
Qed.

(** Appending [data] to the ring of [f], whatever the copies look like. *)
Lemma queue_append f b b' data w :
  fifo_ok f → buffer f = Some b → length b' = length b → 0 <= w <= fsize f →
  Z.of_nat (length data) <= sfifo_space f →
  (w = writepos f + Z.of_nat (length data) ∨ w = writepos f + Z.of_nat (length data) - fsize f) →
  (∀ j, 0 <= j < fsize f →
    nth (Z.to_nat j) b' 0 =
      if (writepos f <=? j) && (j <? writepos f + Z.of_nat (length data)) then nth (Z.to_nat (j - writepos f)) data 0
      else if j + fsize f <? writepos f + Z.of_nat (length data) then nth (Z.to_nat (j + fsize f - writepos f)) data 0
      else nth (Z.to_nat j) b 0) →
  let f' := mkFifo (Some b') (fsize f) (readpos f) w in fifo_ok f' ∧ queue f' = queue f ++ data.
Proof.
  intros Hf Hb Hl Hw Hsp Hwp Hn f'. pose proof (used_cases f Hf) as (Hu & j & Hj & Hpos).
  pose proof (length_queue f Hf) as Hlq. unfold sfifo_space in Hsp.
  pose proof Hf as (k & b0 & Hk & Hs & Hb0 & Hlb & Hr & Hwf). assert (b0 = b) as -> by congruence.
  assert (fifo_ok f') as Hf' by (exists k, b'; cbn; rewrite ?Hl; done). split; [done|].
  assert (sfifo_used f' = sfifo_used f + Z.of_nat (length data)) as Hu'.
  { pose proof (used_cases f' Hf') as (Hu'' & j' & Hj' & Hpos').
    change (writepos f') with w in Hpos'. change (readpos f') with (readpos f) in Hpos'.
    change (fsize f') with (fsize f) in *.
    destruct Hj as [-> | [-> | ->]], Hj' as [-> | [-> | ->]], Hwp; lia. }
  apply (queue_is f' b' _ Hf' eq_refl); [rewrite length_app; lia|].
  intros i Hi. rewrite length_app in Hi. cbn [f' fsize readpos].
  rewrite Hn by (unfold slot; split_tests; lia).
  destruct (decide (i < length (queue f))%nat) as [Hq|Hq].
  - rewrite app_nth1 by done. pose proof (nth_queue f b i Hf Hb ltac:(lia)) as Hx.
    apply nth_lookup_Some with (d := 0) in Hx. rewrite Hx. unfold slot.
    destruct Hj as [-> | [-> | ->]]; split_tests; cbn [andb]; done.
  - rewrite app_nth2 by lia. unfold slot.
    destruct Hj as [-> | [-> | ->]]; split_tests; cbn [andb]; f_equal; lia.
Qed.

Lemma write_appends f data :
  fifo_ok f →
  let n := Z.min (sfifo_space f) (Z.of_nat (length data)) in
  ∃ f', sfifo_write f data (Z.of_nat (length data)) = Ok (n, f') ∧ fifo_ok f' ∧ fsize f' = fsize f ∧
    queue f' = queue f ++ take (Z.to_nat n) data.
Proof.
  intros Hf n. pose proof Hf as (k & b & Hk & Hs & Hb & Hlb & Hr & Hw). pose proof (used_cases f Hf) as [Hu _].
  unfold sfifo_write. rewrite Hb.
  assert ((if sfifo_space f <? Z.of_nat (length data) then (sfifo_space f, sfifo_space f)
           else (Z.of_nat (length data), Z.of_nat (length data))) = (n, n)) as ->.
  { unfold n. destruct (Z.ltb_spec (sfifo_space f) (Z.of_nat (length data))); f_equal; lia. }
  assert (0 <= n <= Z.of_nat (length data) ∧ n <= sfifo_space f) as Hn by (unfold n, sfifo_space; lia).
  clearbody n. unfold sfifo_space in Hn.
  destruct (Z.ltb_spec (fsize f) (writepos f + n)) as [Hwrap|Hwrap].
  - rewrite peek_ok, bind_ok by lia.
    destruct (poke_ok b (writepos f) (take (Z.to_nat (fsize f - writepos f)) (drop (Z.to_nat 0) data))) as (b1 & E1 & L1);
      [lia|rewrite length_take, length_drop; lia|].
    rewrite E1, !bind_ok, peek_ok, bind_ok by lia.
    destruct (poke_ok b1 0 (take (Z.to_nat (n - (fsize f - writepos f))) (drop (Z.to_nat (fsize f - writepos f)) data))) as (b2 & E2 & L2);
      [lia|rewrite length_take, length_drop; lia|].
    rewrite E2, bind_ok. eexists. split; [done|].
    destruct (queue_append f b b2 (take (Z.to_nat n) data) (0 + (n - (fsize f - writepos f)))) as [Hok Hq];
      [done|done|lia|lia|unfold sfifo_space; rewrite length_take; lia|rewrite length_take; lia| |done].
    intros j Hj. rewrite (nth_poke _ _ _ _ j E2), (nth_poke _ _ _ _ j E1) by lia.
    rewrite !length_take, !length_drop. rewrite !nth_firstn, !nth_skipn.
    split_tests; cbn [andb];
      f_equal; lia.
  - rewrite bind_ok, peek_ok, bind_ok by lia.
    destruct (poke_ok b (writepos f) (take (Z.to_nat n) (drop (Z.to_nat 0) data))) as (b1 & E1 & L1);
      [lia|rewrite length_take, length_drop; lia|].
    rewrite E1, bind_ok. eexists. split; [done|].
    destruct (queue_append f b b1 (take (Z.to_nat n) data) (writepos f + n)) as [Hok Hq];
      [done|done|lia|lia|unfold sfifo_space; rewrite length_take; lia|rewrite length_take; lia| |done].
    intros j Hj. rewrite (nth_poke _ _ _ _ j E1) by lia. rewrite !length_take, !length_drop.
    rewrite drop_0. split_tests; cbn [andb]; done.
Qed.

(** Moving the read position. *)
Lemma queue_drop f n r :
  fifo_ok f → 0 <= n <= sfifo_used f → 0 <= r <= fsize f →
  (r = readpos f + n ∨ r = readpos f + n - fsize f) →
  fifo_ok (set_readpos r f) ∧ queue (set_readpos r f) = drop (Z.to_nat n) (queue f).
Proof.
  intros Hf Hn Hr Hrn. pose proof Hf as (k & b & Hk & Hs & Hb & Hlb & Hrf & Hw).
  assert (fifo_ok (set_readpos r f)) as Hf' by (exists k, b; done). split; [done|].
  pose proof (used_cases f Hf) as (Hu & j & Hj & Hpos). pose proof (used_cases _ Hf') as (Hu' & j' & Hj' & Hpos').
  change (writepos (set_readpos r f)) with (writepos f) in *. change (readpos (set_readpos r f)) with r in *.
  change (fsize (set_readpos r f)) with (fsize f) in *. pose proof (length_queue f Hf) as Hlq.
  apply (queue_is _ b _ Hf' Hb).
  - rewrite length_drop. destruct Hj as [-> | [-> | ->]], Hj' as [-> | [-> | ->]], Hrn; lia.
  - intros i Hi. rewrite length_drop in Hi. rewrite nth_skipn.
    pose proof (nth_queue f b (Z.to_nat n + i) Hf Hb ltac:(lia)) as Hx. apply nth_lookup_Some with (d := 0) in Hx.
    rewrite Hx. change (readpos (set_readpos r f)) with r. change (fsize (set_readpos r f)) with (fsize f).
    f_equal. f_equal. unfold slot. destruct Hj as [-> | [-> | ->]], Hrn; split_tests; lia.
Qed.

(** The octets behind the read position, up to the end of the ring. *)
Lemma peek_queue f b n :
  fifo_ok f → buffer f = Some b → 0 <= n <= sfifo_used f → readpos f + n <= fsize f →
  peek b (readpos f) n = Ok (take (Z.to_nat n) (queue f)).
Proof.
  intros Hf Hb Hn Hr. pose proof Hf as (k & b0 & _ & _ & Hb0 & Hlb & Hrf & _). assert (b0 = b) as -> by congruence.
  rewrite peek_ok by lia. f_equal. pose proof (length_queue f Hf) as Hlq.
  apply list_eq_same_length with (Z.to_nat n); [rewrite length_take; lia|rewrite length_take, length_drop; lia|].
  intros i x y Hi Hx Hy. rewrite lookup_take_lt in Hx, Hy by lia. rewrite lookup_drop in Hx.
  rewrite (nth_queue f b) in Hy by (done || lia). injection Hy as <-.
  apply nth_lookup_Some with (d := 0) in Hx. rewrite <- Hx. f_equal. unfold slot. split_tests; lia.
Qed.

Section sending.
Context {N : Type} `{!Tcp N} `{!TcpLaws N}.

(** What a part of a transmission does: octets leave the queue and are accepted. *)
Definition moves (pcb : Z) (f : sfifo_t) (n : N) (f' : sfifo_t) (n' : N) : Prop :=
  fifo_ok f' ∧ fsize f' = fsize f ∧ ((∀ q, q ≠ pcb → delivered q n' = delivered q n) ∧ keeps n n') ∧
  ∃ out, queue f = out ++ queue f' ∧ delivered pcb n' = delivered pcb n ++ out.

Lemma moves_refl pcb f n : fifo_ok f → moves pcb f n f n.
Proof. intros Hf. split; [done|]. split; [done|]. split; [done|]. exists []. by rewrite app_nil_r. Qed.

Lemma moves_trans pcb f1 n1 f2 n2 f3 n3 :
  moves pcb f1 n1 f2 n2 → moves pcb f2 n2 f3 n3 → moves pcb f1 n1 f3 n3.
Proof.
  intros (_ & S1 & [O1 [U1 P1]] & o1 & Q1 & D1) (H & S2 & [O2 [U2 P2]] & o2 & Q2 & D2). split; [done|]. split; [congruence|].
  split; [split; [intros q Hq; by rewrite O2, O1|split; [congruence|auto]]|]. exists (o1 ++ o2). rewrite Q1, Q2, D2, D1, !app_assoc. done.
Qed.

(** One [tcp_write]; [r] is the new read position if it is accepted. *)
Lemma write_moves pcb f len r n :
  fifo_ok f → 0 <= len <= sfifo_used f → readpos f + len <= fsize f → 0 <= r <= fsize f →
  (r = readpos f + len ∨ r = readpos f + len - fsize f) →
  ∃ err n', write_at pcb f (readpos f) len n = Ok (err, n') ∧
    moves pcb f n (if negb (err =? ERR_OK) then f else set_readpos r f) n' ∧
    (window pcb n → len <= tcp_sndbuf pcb n →
     err = ERR_OK ∧ window pcb n' ∧ tcp_sndbuf pcb n' = tcp_sndbuf pcb n - len).
Proof.
  intros Hf Hl Hr Hr' Hrl. pose proof Hf as (k & b & _ & _ & Hb & _). unfold write_at. rewrite Hb, (peek_queue f b) by done.
  cbn [liftO]. set (out := take (Z.to_nat len) (queue f)). unfold mbind, ST_mbind, net, liftO.
  destruct (tcp_write pcb out n) as [err n'] eqn:E. exists err, n'. split; [done|].
  assert (Z.of_nat (length out) = len) as Hout.
  { unfold out. rewrite length_take. pose proof (length_queue f Hf). lia. }
  split.
  - destruct (queue_drop f len r Hf Hl Hr' Hrl) as [Hok Hq].
    assert ((∀ q, q ≠ pcb → delivered q n' = delivered q n) ∧ keeps n n') as Hother.
    { split; [intros q Hq'; pose proof (write_other pcb q out n Hq') as H|pose proof (write_keeps pcb out n) as H]; by rewrite E in H. }
    destruct (Z.eqb_spec err ERR_OK) as [He|He]; cbn [negb].
    + split; [done|]. split; [done|]. split; [done|]. exists out. rewrite Hq. unfold out. rewrite take_drop.
      split; [done|]. pose proof (write_accepted pcb out n) as H. rewrite E in H. by apply H.
    + split; [done|]. split; [done|]. split; [done|]. exists []. split; [done|].
      pose proof (write_refused pcb out n) as H. rewrite E in H. rewrite app_nil_r. by apply H.
  - intros Hw Hs. pose proof (write_window pcb out n Hw) as H. rewrite E, Hout in H. by apply H.
Qed.

(** The transmission moves octets from the queue to the connection, in their
    order; an open window takes at least one of them. *)
Lemma send_moves pcb f n :
  fifo_ok f →
  ∃ f' n', send_fifo pcb f n = Ok (f', n') ∧ moves pcb f n f' n' ∧
    (window pcb n → 0 < tcp_sndbuf pcb n → queue f ≠ [] → (length (queue f') < length (queue f))%nat) ∧
    (window pcb n → window pcb n').
Proof.
  intros Hf. pose proof Hf as (k & b & Hk & Hs & Hb & Hlb & Hr & Hw). pose proof (used_cases f Hf) as [Hu _].
  pose proof (length_queue f Hf) as Hlq.
  assert (fsize f <= 2 ^ 15) as Hsz by (rewrite Hs; apply Z.pow_le_mono_r; lia).
  unfold send_fifo. destruct (Z.ltb_spec 0 (sfifo_used f)) as [Hpos|Hz].
  2:{ exists f, n. split; [done|]. split; [by apply moves_refl|]. split; [|done].
      intros _ _ Hq. destruct (queue f); [done|cbn in Hlq; lia]. }
  unfold mbind at 1, ST_mbind at 1, gets. pose proof (sndbuf_range pcb n) as Hsb.
  set (len := if tcp_sndbuf pcb n <? sfifo_used f then _ else _).
  assert (0 <= len <= sfifo_used f ∧ len <= tcp_sndbuf pcb n ∧ (0 < tcp_sndbuf pcb n → 0 < len)) as Hlen.
  { unfold len, u16. rewrite (Z.mod_small (sfifo_used f)) by lia.
    destruct (Z.ltb_spec (tcp_sndbuf pcb n) (sfifo_used f)); lia. }
  clearbody len. destruct (Z.ltb_spec (fsize f) (readpos f + len)) as [Hwrap|Hwrap].
  - assert (u16 (fsize f - readpos f) = fsize f - readpos f) as -> by (unfold u16; rewrite Z.mod_small; lia).
    destruct (write_moves pcb f (fsize f - readpos f) 0 n Hf) as (e1 & n1 & E1 & M1 & W1); [lia..|].
    unfold mbind at 1, ST_mbind at 1. rewrite E1. destruct (Z.eqb_spec e1 ERR_OK) as [He1|He1]; cbn [negb] in *.
    2:{ exists f, n1. split; [done|]. split; [done|]. split; intros Hwin; exfalso; apply He1, W1; done || lia. }
    assert (u16 (len - (fsize f - readpos f)) = len - (fsize f - readpos f)) as -> by (unfold u16; rewrite Z.mod_small; lia).
    set (f1 := set_readpos 0 f) in *.
    assert (sfifo_used f1 = sfifo_used f - (fsize f - readpos f)) as Hu1.
    { destruct M1 as (Hf1 & _). pose proof (queue_drop f (fsize f - readpos f) 0 Hf ltac:(lia) ltac:(lia) ltac:(lia)) as [_ Hq].
      pose proof (length_queue f1 Hf1). unfold f1 in *. rewrite Hq, length_drop in *. lia. }
    destruct (write_moves pcb f1 (len - (fsize f - readpos f)) (0 + (len - (fsize f - readpos f))) n1)
      as (e2 & n2 & E2 & M2 & W2); [apply M1|lia|cbn; lia|cbn; lia|cbn; lia|].
    change (readpos f1) with 0 in E2. unfold mbind, ST_mbind. rewrite E2.
    exists (if negb (e2 =? ERR_OK) then f1 else set_readpos (0 + (len - (fsize f - readpos f))) f1), n2.
    split; [by destruct (negb (e2 =? ERR_OK))|]. split; [by eapply moves_trans|].
    split; intros Hwin; destruct (W1 Hwin ltac:(lia)) as (_ & Hwin1 & Hsb1);
      destruct (W2 Hwin1 ltac:(lia)) as (-> & Hwin2 & _); cbn [negb Z.eqb ERR_OK] in *; [|done].
    intros Hs0 _. pose proof (queue_drop f1 (len - (fsize f - readpos f)) (0 + (len - (fsize f - readpos f))) ltac:(apply M1) ltac:(lia) ltac:(cbn; lia) ltac:(cbn; lia)) as [Hok Hq].
    rewrite Hq, length_drop. pose proof (length_queue f1 ltac:(apply M1)). lia.
  - destruct (write_moves pcb f len (readpos f + len) n Hf) as (e1 & n1 & E1 & M1 & W1); [lia..|].
    unfold mbind, ST_mbind. rewrite E1. exists (if negb (e1 =? ERR_OK) then f else set_readpos (readpos f + len) f), n1.
    split; [by destruct (negb (e1 =? ERR_OK))|]. split; [done|].
    split; intros Hwin; destruct (W1 Hwin ltac:(lia)) as (-> & Hwin1 & _); cbn [negb Z.eqb ERR_OK]; [|done].
    intros Hs0 _. pose proof (queue_drop f len (readpos f + len) Hf ltac:(lia) ltac:(lia) ltac:(lia)) as [_ Hq].
    rewrite Hq, length_drop. lia.
Qed.

End sending.

(** ** Property *)

(** C16: the ring is a queue.  Writing appends as many octets as there is space for,
    and says how many; sending takes octets from the front, in their order, and
    removes exactly those that TCP accepted, also when it accepts only the part up to
    the end of the ring; it takes something whenever the window is open.  The
    positions stay in the ring. *)
Theorem sfifo_is_queue {N : Type} `{!Tcp N} `{!TcpLaws N} (f : sfifo_t) (data : list Z) (pcb : Z) (n : N) :
  fifo_ok f →
  (let k := Z.min (fsize f - 1 - Z.of_nat (length (queue f))) (Z.of_nat (length data)) in
   ∃ f', sfifo_write f data (Z.of_nat (length data)) = Ok (k, f') ∧ fifo_ok f' ∧ fsize f' = fsize f ∧
     queue f' = queue f ++ take (Z.to_nat k) data) ∧
  (∃ f' n' sent, send_fifo pcb f n = Ok (f', n') ∧ fifo_ok f' ∧ fsize f' = fsize f ∧
     queue f = sent ++ queue f' ∧ delivered pcb n' = delivered pcb n ++ sent ∧
     (window pcb n → 0 < tcp_sndbuf pcb n → queue f ≠ [] → sent ≠ [])).
Proof.
  intros Hf. split.
  - rewrite length_queue by done. by apply write_appends.
  - destruct (send_moves pcb f n Hf) as (f' & n' & E & (Hf' & Hs & _ & out & Hq & Hd) & Hlt & _).
    exists f', n', out. split; [done|]. split; [done|]. split; [done|]. split; [done|]. split; [done|].
    intros Hw Hb Hne ->. specialize (Hlt Hw Hb Hne). rewrite Hq in Hlt. cbn in Hlt. lia.
Qed.

Lemma sfifo_is_queue_witness :
  ∃ f', sfifo_write (mkFifo (Some [1; 2; 3; 4]) 4 3 1) [7; 8; 9] 3 = Ok (1, f') ∧ queue f' = [4; 1; 7].
Proof.
  destruct (sfifo_is_queue (mkFifo (Some [1; 2; 3; 4]) 4 3 1) [7; 8; 9] 5 (mkWire ∅ ∅ ∅)) as [(f' & E & _ & _ & Hq) _].
  - exists 2, [1; 2; 3; 4]. cbn. split_and!; lia || reflexivity.
  - exists f'. split; [exact E|]. rewrite Hq. reflexivity.
Defined.

End Sfifo.
