(* ===== verification/Ftpd.v ===== *)
(** * The FTP server ([src/lib/lwip-ftpd/ftpd.c], [src/lib/lwip-ftpd/vfs.c])

    The server consists of callbacks of lwIP.  A control connection has a
    [ftpd_msgstate], a data connection a [ftpd_datastate]; both are blocks of the
    heap that the callbacks get as argument and that point to each other.  The state
    [server] has the two kinds of blocks by address, the callbacks registered for each
    connection, the virtual root with the current directory (one for all clients),
    the directory entry [dir_ent] that all listings share, and the state of TCP.
    Following a null pointer or one to a freed block is undefined.  Blocks that are
    never freed are not counted, and the control blocks of TCP are lwIP's: whether one
    of them still exists is not tracked. *)

From Stdlib Require Import String.
From stdpp Require Import gmap.
From S2P Require Import Prelude Strtol Format Strings Partition FatFiles VirtualRoot LwipTcp Sfifo.

Module Ftpd.
Import LwipTcp Sfifo.
Import VirtualRoot(vroot, ChildFS, vroot_open, vroot_read, vroot_write, vroot_close, vroot_eof, vroot_stat, vroot_rename, vroot_mkdir, vroot_remove, vroot_cd, vroot_getcwd, vroot_opendir, vroot_readdir, vroot_closedir).
Import FatFiles(FileInfo, name, nameLength, size, attributes, FATX_FILENAME_MAX).
Import Format(text, va, VInt, VStr).
Import Strtol(at_, isalpha, skip_space, radix, convert, LONG_MAX).
Import Strings(cstr, strcmp, toupper, skip_digits).

Abbreviation length := List.length.

(** ** State *)

Inductive ftpd_state_e :=
| FTPD_USER | FTPD_PASS | FTPD_IDLE | FTPD_NLST | FTPD_LIST | FTPD_RETR | FTPD_RNFR | FTPD_STOR | FTPD_QUIT.

#[export] Instance ftpd_state_eq : EqDecision ftpd_state_e.
Proof. solve_decision. Defined.

(** A pointer is an address, NULL is 0.  [vfs_dir] and [vfs_file] are the handles in
    the blocks the pointers point to, [vfs_dirent] says that the pointer is
    [&dir_ent]. *)
Record ftpd_datastate := mkData {
  connected : bool;
  vfs_dir : option Z;
  vfs_dirent : bool;
  vfs_file : option Z;
  dfifo : sfifo_t;
  msgpcb : Z;
  msgfs : Z
}.

Record ftpd_msgstate := mkMsg {
  state : ftpd_state_e;
  mfifo : sfifo_t;
  dataip : list Z;
  dataport : Z;
  datalistenpcb : Z;
  datapcb : Z;
  datafs : Z;
  passive : bool;
  renamefrom : option (list Z)
}.

(** Which of the two sets of callbacks a field of a control block names. *)
Inductive side := Msg | Data.

Record tcp_pcb := mkPcb {
  callback_arg : Z;
  recv : option side;
  sent : option side;
  errf : option side;
  accept : option side;
  poll : option side;
  on_connected : option side
}.
Definition no_pcb : tcp_pcb := mkPcb 0 None None None None None None.

Definition set_state x m := mkMsg x (mfifo m) (dataip m) (dataport m) (datalistenpcb m) (datapcb m) (datafs m) (passive m) (renamefrom m).
Definition set_mfifo x m := mkMsg (state m) x (dataip m) (dataport m) (datalistenpcb m) (datapcb m) (datafs m) (passive m) (renamefrom m).
Definition set_dataip x m := mkMsg (state m) (mfifo m) x (dataport m) (datalistenpcb m) (datapcb m) (datafs m) (passive m) (renamefrom m).
Definition set_dataport x m := mkMsg (state m) (mfifo m) (dataip m) x (datalistenpcb m) (datapcb m) (datafs m) (passive m) (renamefrom m).
Definition set_datalistenpcb x m := mkMsg (state m) (mfifo m) (dataip m) (dataport m) x (datapcb m) (datafs m) (passive m) (renamefrom m).
Definition set_datapcb x m := mkMsg (state m) (mfifo m) (dataip m) (dataport m) (datalistenpcb m) x (datafs m) (passive m) (renamefrom m).
Definition set_datafs x m := mkMsg (state m) (mfifo m) (dataip m) (dataport m) (datalistenpcb m) (datapcb m) x (passive m) (renamefrom m).
Definition set_passive x m := mkMsg (state m) (mfifo m) (dataip m) (dataport m) (datalistenpcb m) (datapcb m) (datafs m) x (renamefrom m).
Definition set_renamefrom x m := mkMsg (state m) (mfifo m) (dataip m) (dataport m) (datalistenpcb m) (datapcb m) (datafs m) (passive m) x.

Definition set_connected x d := mkData x (vfs_dir d) (vfs_dirent d) (vfs_file d) (dfifo d) (msgpcb d) (msgfs d).
Definition set_dir x d := mkData (connected d) x (vfs_dirent d) (vfs_file d) (dfifo d) (msgpcb d) (msgfs d).
Definition set_dirent x d := mkData (connected d) (vfs_dir d) x (vfs_file d) (dfifo d) (msgpcb d) (msgfs d).
Definition set_vfile x d := mkData (connected d) (vfs_dir d) (vfs_dirent d) x (dfifo d) (msgpcb d) (msgfs d).
Definition set_dfifo x d := mkData (connected d) (vfs_dir d) (vfs_dirent d) (vfs_file d) x (msgpcb d) (msgfs d).
Definition set_owner p m d := mkData (connected d) (vfs_dir d) (vfs_dirent d) (vfs_file d) (dfifo d) p m.

(** A [malloc]ed and cleared [ftpd_datastate]. *)
Definition no_data : ftpd_datastate := mkData false None false None no_fifo 0 0.
Definition no_msg : ftpd_msgstate := mkMsg FTPD_USER no_fifo [0; 0; 0; 0] 0 0 0 0 false None.

Definition sizeof_datastate : Z := 40.
Definition sizeof_msgstate : Z := 52.

(** The results of [gmtime]: every time is the beginning of 1970. *)
Record tm := mkTm { tm_year : Z; tm_mon : Z; tm_mday : Z; tm_hour : Z; tm_min : Z }.
Definition dummy : tm := mkTm 70 0 1 0 0.
Definition gmtime : tm := dummy.
Definition month_table : list (list Z) :=
  text <$> ["Jan"; "Feb"; "Mar"; "Apr"; "May"; "Jun"; "Jul"; "Aug"; "Sep"; "Oct"; "Nov"; "Dec"]%string.

(** ** Messages *)

Definition quoted (before after : string) : list Z := text before ++ [34] ++ text "%s" ++ [34] ++ text after.
Definition msg150 := text "150 File status okay; about to open data connection.".
Definition msg150recv := text "150 Opening BINARY mode data connection for %s (%i bytes).".
Definition msg150stor := text "150 Opening BINARY mode data connection for %s.".
Definition msg200 := text "200 Command okay.".
Definition msg214SYST := text "214 %s system type.".
Definition msg220 := text "220 lwIP FTP Server ready.".
Definition msg221 := text "221 Goodbye.".
Definition msg226 := text "226 Closing data connection.".
Definition msg227 := text "227 Entering Passive Mode (%i,%i,%i,%i,%i,%i).".
Definition msg230 := text "230 User logged in, proceed.".
Definition msg250 := text "250 Requested file action okay, completed.".
Definition msg257PWD := quoted "257 " " is current directory.".
Definition msg257 := quoted "257 " " created.".
Definition msg331 := text "331 User name okay, need password.".
Definition msg350 := text "350 Requested file action pending further information.".
Definition msg450 := text "450 Requested file action not taken.".
Definition msg451 := text "451 Requested action aborted: local error in processing.".
Definition msg501 := text "501 Syntax error in parameters or arguments.".
Definition msg502 := text "502 Command not implemented.".
Definition msg503 := text "503 Bad sequence of commands.".
Definition msg550 := text "550 Requested action not taken.".
Definition newline : list Z := [13; 10].

(** ** Numbers of PORT *)

(** [strtol] also sets [*endptr]. *)
Definition strtol_end (nptr : list Z) (base : Z) : list Z :=
  let s := skip_space nptr in
  let neg := at_ s 0 =? 45 in
  let s := if neg || (at_ s 0 =? 43) then drop 1 s else s in
  let '(s, base) := radix s base in
  let limit := if neg then 2 ^ 31 else LONG_MAX in
  let '(_, any) := convert base (limit / base) (limit mod base) s 0 0 in
  if negb (any =? 0) then skip_digits base s else nptr.

Fixpoint skip_commas (s : list Z) : list Z :=
  match s with c :: s' => if c =? 44 then skip_commas s' else s | [] => [] end.

(** The loop of [cmd_port] with [n] values to come. *)
Fixpoint port_values (n : nat) (s : list Z) : list Z :=
  match n with
  | O => []
  | S n =>
      match skip_commas s with
      | [] => []
      | s => u32 (Strtol.strtol s 10) :: port_values n (strtol_end s 10)
      end
  end.

(** ** Lines *)

(** The text without the line ends behind it.  When nothing remains, the octet in
    front of the text is read. *)
Fixpoint drop_ends (r : list Z) : list Z :=
  match r with c :: r' => if (c =? 13) || (c =? 10) then drop_ends r' else r | [] => [] end.
Definition trim (s : list Z) : outcome (list Z) :=
  match drop_ends (reverse s) with [] => UB | r => Ok (reverse r) end.

Fixpoint letters (s : list Z) : list Z :=
  match s with c :: s' => if isalpha c then toupper c :: letters s' else [] | [] => [] end.

(** The command of a line and its argument. *)
Definition command_of (s : list Z) : list Z := letters (take 4 s).
Definition argument_of (s : list Z) : list Z :=
  let cmd := command_of s in
  if (length s <? length cmd + 1)%nat then [] else drop (length cmd + 1) s.

Section server.
Context {A N : Type} `{!ChildFS A} `{!Tcp N}.

(** [port] and [start_port] are static variables of [cmd_pasv]. *)
Record server := mkServer {
  msgs : gmap Z ftpd_msgstate;
  datas : gmap Z ftpd_datastate;
  pcbs : gmap Z tcp_pcb;
  root : vroot A;
  dir_ent : list Z;
  port : Z;
  start_port : Z;
  tcp : N
}.

Definition set_msgs x s := mkServer x (datas s) (pcbs s) (root s) (dir_ent s) (port s) (start_port s) (tcp s).
Definition set_datas x s := mkServer (msgs s) x (pcbs s) (root s) (dir_ent s) (port s) (start_port s) (tcp s).
Definition set_pcbs x s := mkServer (msgs s) (datas s) x (root s) (dir_ent s) (port s) (start_port s) (tcp s).
Definition set_root x s := mkServer (msgs s) (datas s) (pcbs s) x (dir_ent s) (port s) (start_port s) (tcp s).
Definition set_dir_ent x s := mkServer (msgs s) (datas s) (pcbs s) (root s) x (port s) (start_port s) (tcp s).
Definition set_port x s := mkServer (msgs s) (datas s) (pcbs s) (root s) (dir_ent s) x (start_port s) (tcp s).
Definition set_start_port x s := mkServer (msgs s) (datas s) (pcbs s) (root s) (dir_ent s) (port s) x (tcp s).
Definition set_tcp x s := mkServer (msgs s) (datas s) (pcbs s) (root s) (dir_ent s) (port s) (start_port s) x.

Abbreviation M := (ST server).

Definition on_tcp {R} (m : ST N R) : M R := zoom tcp set_tcp m.
Definition on_root {R} (m : ST (vroot A) R) : M R := zoom root set_root m.
Definition call {R} (f : N → R * N) : M R := on_tcp (net f).
Definition call' (f : N → N) : M unit := modify (λ s, set_tcp (f (tcp s)) s).

(** [*p] for a pointer to a block. *)
Definition get_msg (p : Z) : M ftpd_msgstate := λ s, match msgs s !! p with Some m => Ok (m, s) | None => UB end.
Definition get_data (p : Z) : M ftpd_datastate := λ s, match datas s !! p with Some d => Ok (d, s) | None => UB end.
Definition upd_msg (p : Z) (f : ftpd_msgstate → ftpd_msgstate) : M unit :=
  m ← get_msg p; modify (λ s, set_msgs (<[p := f m]> (msgs s)) s).
Definition upd_data (p : Z) (f : ftpd_datastate → ftpd_datastate) : M unit :=
  d ← get_data p; modify (λ s, set_datas (<[p := f d]> (datas s)) s).

(** [malloc] and [memset] of a block, and [free]. *)
Definition add_msg : M Z := λ s,
  let p := fresh (({[0]} : gset Z) ∪ dom (msgs s)) in Ok (p, set_msgs (<[p := no_msg]> (msgs s)) s).
Definition new_msg : M Z :=
  got ← call (malloc sizeof_msgstate);
  match got with true => add_msg | false => mret 0 end.
Definition add_data : M Z := λ s,
  let p := fresh (({[0]} : gset Z) ∪ dom (datas s)) in Ok (p, set_datas (<[p := no_data]> (datas s)) s).
Definition new_data : M Z :=
  got ← call (malloc sizeof_datastate);
  match got with true => add_data | false => mret 0 end.
Definition free_msg (p : Z) : M unit := _ ← get_msg p; modify (λ s, set_msgs (delete p (msgs s)) s).
Definition free_data (p : Z) : M unit := _ ← get_data p; modify (λ s, set_datas (delete p (datas s)) s).

(** ** Callbacks of connections *)

Definition upd_pcb (p : Z) (f : tcp_pcb → tcp_pcb) : M unit :=
  if p =? 0 then mret tt
  else modify (λ s, set_pcbs (<[p := f (default no_pcb (pcbs s !! p))]> (pcbs s)) s).

Definition tcp_arg (p x : Z) : M unit :=
  upd_pcb p (λ c, mkPcb x (recv c) (sent c) (errf c) (accept c) (poll c) (on_connected c)).
Definition tcp_recv (p : Z) (x : option side) : M unit :=
  upd_pcb p (λ c, mkPcb (callback_arg c) x (sent c) (errf c) (accept c) (poll c) (on_connected c)).
Definition tcp_sent (p : Z) (x : option side) : M unit :=
  upd_pcb p (λ c, mkPcb (callback_arg c) (recv c) x (errf c) (accept c) (poll c) (on_connected c)).
Definition tcp_err (p : Z) (x : option side) : M unit :=
  upd_pcb p (λ c, mkPcb (callback_arg c) (recv c) (sent c) x (accept c) (poll c) (on_connected c)).
Definition tcp_accept (p : Z) (x : option side) : M unit :=
  upd_pcb p (λ c, mkPcb (callback_arg c) (recv c) (sent c) (errf c) x (poll c) (on_connected c)).
Definition tcp_poll (p : Z) (x : option side) : M unit :=
  upd_pcb p (λ c, mkPcb (callback_arg c) (recv c) (sent c) (errf c) (accept c) x (on_connected c)).
Definition set_on_connected (p : Z) (x : option side) : M unit :=
  upd_pcb p (λ c, mkPcb (callback_arg c) (recv c) (sent c) (errf c) (accept c) (poll c) x).

Definition close_pcb (p : Z) : M unit := if p =? 0 then ub else call' (tcp_close p).

(** A new control block has no callbacks. *)
Definition new_pcb : M Z :=
  p ← call tcp_new;
  if p =? 0 then mret 0 else modify (λ s, set_pcbs (<[p := no_pcb]> (pcbs s)) s) ;; mret p.
(** The block of the listener inherits the argument. *)
Definition listen_pcb (p : Z) : M Z :=
  q ← call (tcp_listen p);
  if q =? 0 then mret 0
  else
    modify (λ s, let arg := callback_arg (default no_pcb (pcbs s !! p)) in
      set_pcbs (<[q := mkPcb arg None None None None None None]> (pcbs s)) s) ;;
    mret q.

(** ** Files ([vfs.c]) *)

Definition vfs_read (len : Z) (file : option Z) : M (Z * list Z) :=
  match file with
  | None => ub
  | Some h => '(result, buffer) ← on_root (vroot_read h len); mret (if result <? 0 then (0, buffer) else (result, buffer))
  end.

(** The entry is in [dir_ent]; the result says whether there is one. *)
Definition vfs_readdir (h : Z) : M bool :=
  fi ← on_root (vroot_readdir h);
  if (at_ (name fi) 0 =? 0) || (nameLength fi =? 0) || (FATX_FILENAME_MAX <? nameLength fi) then mret false
  else modify (set_dir_ent (cstr (take (Z.to_nat (nameLength fi)) (name fi)))) ;; mret true.

(** The size and the mode, unless the result is 1. *)
Definition vfs_stat (filename : list Z) : M (option (Z * Z)) := λ s,
  f ← vroot_stat filename (root s);
  Ok (if (at_ (name f) 0 =? 0) || (nameLength f =? 0) || (FATX_FILENAME_MAX <? nameLength f) then None
      else Some (size f, attributes f), s).
(** The structure after a call whose result is ignored. *)
Definition stat_or_junk (filename : list Z) : M (Z * Z) :=
  st ← vfs_stat filename;
  match st with Some st => mret st | None => gets (λ s, junk (tcp s)) end.

Definition VFS_ISDIR (mode : Z) : bool := negb (mode .& 0x10 =? 0).
Definition VFS_ISREG (mode : Z) : bool := mode .& 0x10 =? 0.

Definition vfs_close (file : option Z) : M unit :=
  match file with None => ub | Some h => on_root (λ v, v ← vroot_close h v; Ok (tt, v)) end.

Definition vfs_write (buffer : list Z) (file : option Z) : M Z :=
  match file with
  | None => ub
  | Some h =>
      byteswritten ← on_root (vroot_write h buffer);
      mret (if negb (u32 byteswritten =? Z.of_nat (length buffer)) then 0 else u32 byteswritten)
  end.

Fixpoint open_flags (mode : list Z) (flags : Z) : Z :=
  match mode with
  | [] => flags
  | c :: mode =>
      let flags := if c =? 114 then flags .| 1 else flags in
      let flags := if c =? 119 then flags .| (2 .| 8) else flags in
      open_flags mode flags
  end.

(** [malloc] of the block for a handle, which is not checked. *)
Definition handle_block (n : Z) : M unit := got ← call (malloc n); assert_ub got.

Definition vfs_open (filename mode : list Z) : M (option Z) :=
  handle_block 4 ;;
  h ← on_root (vroot_open filename (open_flags mode 0));
  mret (if h =? 0 then None else Some h).

(** The path is copied into 255 octets, with its end only if it is shorter. *)
Definition vfs_getcwd : M (option (list Z)) :=
  handle_block 255 ;;
  out ← gets (λ s, vroot_getcwd (root s));
  assert_ub (length out <? 255)%nat ;;
  mret (if (length out =? 0)%nat then None else Some out).

Definition vfs_opendir (path : list Z) : M (option Z) :=
  handle_block 4 ;;
  h ← on_root (λ v, Ok (vroot_opendir path v));
  mret (if h =? 0 then None else Some h).

Definition vfs_closedir (h : Z) : M unit := on_root (λ v, v ← vroot_closedir h v; Ok (tt, v)).
Definition vfs_eof (h : Z) : M Z := λ s, r ← vroot_eof h (root s); Ok (r, s).

(** ** Sending *)

(** The TCP functions follow the pointer to the connection. *)
Definition send_data (pcb fsd : Z) : M unit :=
  d ← get_data fsd;
  assert_ub (negb (0 <? sfifo_used (dfifo d)) || negb (pcb =? 0)) ;;
  f ← on_tcp (send_fifo pcb (dfifo d));
  upd_data fsd (set_dfifo f).

Definition send_msgdata (pcb fsm : Z) : M unit :=
  m ← get_msg fsm;
  assert_ub (negb (0 <? sfifo_used (mfifo m)) || negb (pcb =? 0)) ;;
  f ← on_tcp (send_fifo pcb (mfifo m));
  upd_msg fsm (set_mfifo f).

(** The message and the line end have a buffer of 1024 octets; a message that does
    not fit the FIFO is lost. *)
Definition send_msg (pcb fsm : Z) (msg : list Z) (args : list va) : M unit :=
  '(buffer, _) ← liftO (Format.vsprintf msg args);
  let buffer := buffer ++ newline in
  assert_ub (length buffer <? 1024)%nat ;;
  let len := Z.of_nat (length buffer) in
  m ← get_msg fsm;
  if sfifo_space (mfifo m) <? len then mret tt
  else
    '(_, f) ← liftO (sfifo_write (mfifo m) buffer len);
    upd_msg fsm (set_mfifo f) ;;
    send_msgdata pcb fsm.

(** ** Data connections *)

Definition ftpd_dataerr (fsd err : Z) : M unit :=
  if fsd =? 0 then mret tt
  else
    d ← get_data fsd;
    upd_msg (msgfs d) (set_datafs 0) ;;
    upd_msg (msgfs d) (set_state FTPD_IDLE) ;;
    free_data fsd.

Definition ftpd_dataclose (pcb fsd : Z) : M unit :=
  tcp_arg pcb 0 ;;
  tcp_sent pcb None ;;
  tcp_recv pcb None ;;
  d ← get_data fsd;
  m ← get_msg (msgfs d);
  (if negb (datalistenpcb m =? 0) then
     tcp_arg (datalistenpcb m) 0 ;;
     tcp_accept (datalistenpcb m) None ;;
     close_pcb (datalistenpcb m) ;;
     upd_msg (msgfs d) (set_datalistenpcb 0)
   else mret tt) ;;
  upd_msg (msgfs d) (set_datafs 0) ;;
  free_data fsd ;;
  tcp_arg pcb 0 ;;
  close_pcb pcb.

(** The end of a transfer: the connection is closed and the client told. *)
Definition finish_transfer (fsd pcb : Z) : M unit :=
  d ← get_data fsd;
  let fsm := msgfs d in
  let msgpcb := msgpcb d in
  ftpd_dataclose pcb fsd ;;
  upd_msg fsm (set_datapcb 0) ;;
  upd_msg fsm (set_datafs 0) ;;
  upd_msg fsm (set_state FTPD_IDLE) ;;
  send_msg msgpcb fsm msg226 [].

Definition send_file (fsd pcb : Z) : M unit :=
  d ← get_data fsd;
  if negb (connected d) then mret tt
  else
    match vfs_file d with
    | Some h =>
        let len := sfifo_space (dfifo d) in
        if len =? 0 then send_data pcb fsd
        else
          let len := if FtpdBufferSize <? len then FtpdBufferSize else len in
          '(len, buffer) ← vfs_read len (Some h);
          if len =? 0 then
            eof ← vfs_eof h;
            if eof =? 0 then mret tt
            else
              vfs_close (Some h) ;;
              upd_data fsd (set_vfile None)
          else
            '(_, f) ← liftO (sfifo_write (dfifo d) buffer len);
            upd_data fsd (set_dfifo f) ;;
            send_data pcb fsd
    | None =>
        if 0 <? sfifo_used (dfifo d) then send_data pcb fsd
        else finish_transfer fsd pcb
    end.

(** The line of an entry; the buffer has 300 octets. *)
Definition list_line (shortlist : bool) : M (list Z) :=
  entry ← gets dir_ent;
  line ←
    (if shortlist then
       '(line, _) ← liftO (Format.vsprintf (text "%s" ++ newline) [VStr (Some entry)]); mret line
     else
       let current_year := tm_year gmtime in
       '(st_size, st_mode) ← stat_or_junk entry;
       let s_time := gmtime in
       let month := nth (Z.to_nat (tm_mon s_time)) month_table [] in
       '(line, _) ← liftO
         (if tm_year s_time =? current_year then
            Format.vsprintf (text "-rw-rw-rw-   1 user     ftp  %11ld %s %02i %02i:%02i %s" ++ newline)
              [VInt st_size; VStr (Some month); VInt (tm_mday s_time); VInt (tm_hour s_time); VInt (tm_min s_time); VStr (Some entry)]
          else
            Format.vsprintf (text "-rw-rw-rw-   1 user     ftp  %11ld %s %02i %5i %s" ++ newline)
              [VInt st_size; VStr (Some month); VInt (tm_mday s_time); VInt (tm_year s_time + 1900); VStr (Some entry)]);
       mret (if VFS_ISDIR st_mode then <[0%nat := 100]> line else line));
  assert_ub (length line <? 300)%nat ;;
  mret line.

(** The branches of the loop of [send_next_directory] with and without an entry;
    [true] leaves the loop. *)
Definition put_line (fsd pcb : Z) (shortlist : bool) : M bool :=
  line ← list_line shortlist;
  d ← get_data fsd;
  let len := Z.of_nat (length line) in
  if sfifo_space (dfifo d) <? len then send_data pcb fsd ;; mret true
  else
    '(_, f) ← liftO (sfifo_write (dfifo d) line len);
    upd_data fsd (set_dfifo f) ;;
    upd_data fsd (set_dirent false) ;;
    mret false.

Definition no_entry (fsd pcb : Z) : M bool :=
  d ← get_data fsd;
  (match vfs_dir d with
   | Some h => vfs_closedir h ;; upd_data fsd (set_dir None)
   | None => mret tt
   end) ;;
  (if 0 <? sfifo_used (dfifo d) then send_data pcb fsd else finish_transfer fsd pcb) ;;
  mret true.

Definition next_entry (fsd pcb : Z) (shortlist : bool) : M bool :=
  d ← get_data fsd;
  dirent ←
    (match vfs_dir d, vfs_dirent d with
     | Some h, false => dirent ← vfs_readdir h; upd_data fsd (set_dirent dirent) ;; mret dirent
     | _, dirent => mret dirent
     end);
  match dirent with true => put_line fsd pcb shortlist | false => no_entry fsd pcb end.

(** A round that goes on puts an octet at least into the FIFO, which has room for
    2047. *)
Fixpoint directory_loop (fuel : nat) (fsd pcb : Z) (shortlist : bool) : M unit :=
  match fuel with
  | O => ub
  | S fuel =>
      left ← next_entry fsd pcb shortlist;
      match left with true => mret tt | false => directory_loop fuel fsd pcb shortlist end
  end.
Definition send_next_directory (fsd pcb : Z) (shortlist : bool) : M unit :=
  directory_loop 2048 fsd pcb shortlist.

(** What [ftpd_datasent], [ftpd_dataconnected], [ftpd_dataaccept] and [ftpd_msgpoll]
    do for the state of the control connection. *)
Definition transfer (st : ftpd_state_e) (fsd pcb : Z) : M unit :=
  match st with
  | FTPD_LIST => send_next_directory fsd pcb false
  | FTPD_NLST => send_next_directory fsd pcb true
  | FTPD_RETR => send_file fsd pcb
  | _ => mret tt
  end.

Definition ftpd_datasent (fsd pcb : Z) : M Z :=
  d ← get_data fsd;
  m ← get_msg (msgfs d);
  transfer (state m) fsd pcb ;;
  mret ERR_OK.

(** The buffers of a segment; the sum of the octets taken is 16 bits wide. *)
Fixpoint write_chain (q : list (list Z)) (file : option Z) (tot_len : Z) : M Z :=
  match q with
  | [] => mret tot_len
  | payload :: q =>
      len ← vfs_write payload file;
      let tot_len := u16 (tot_len + len) in
      if negb (len =? Z.of_nat (length payload)) then mret tot_len else write_chain q file tot_len
  end.

(** [p] is a chain of buffers, or NULL when the peer closed the connection. *)
Definition ftpd_datarecv (fsd pcb : Z) (p : option (list (list Z))) (err : Z) : M Z :=
  match p with
  | Some q =>
      (if err =? ERR_OK then
         d ← get_data fsd;
         tot_len ← write_chain q (vfs_file d) 0;
         call' (tcp_recved pcb tot_len)
       else mret tt) ;;
      mret ERR_OK
  | None =>
      (if err =? ERR_OK then
         d ← get_data fsd;
         vfs_close (vfs_file d) ;;
         upd_data fsd (set_vfile None) ;;
         finish_transfer fsd pcb
       else mret tt) ;;
      mret ERR_OK
  end.

Definition ftpd_dataconnected (fsd pcb : Z) : M Z :=
  d ← get_data fsd;
  upd_msg (msgfs d) (set_datapcb pcb) ;;
  upd_data fsd (set_connected true) ;;
  tcp_recv pcb (Some Data) ;;
  tcp_sent pcb (Some Data) ;;
  tcp_err pcb (Some Data) ;;
  m ← get_msg (msgfs d);
  transfer (state m) fsd pcb ;;
  mret ERR_OK.

(** The same text as [ftpd_dataconnected]. *)
Definition ftpd_dataaccept (fsd pcb : Z) : M Z := ftpd_dataconnected fsd pcb.

(** 0 if the data connection will come, 1 if the client got an error. *)
Definition open_dataconnection (pcb fsm : Z) : M Z :=
  m ← get_msg fsm;
  if passive m then mret 0
  else
    fsd ← new_data;
    upd_msg fsm (set_datafs fsd) ;;
    if fsd =? 0 then send_msg pcb fsm msg451 [] ;; mret 1
    else
      upd_data fsd (set_owner pcb fsm) ;;
      '(err, f) ← on_tcp (sfifo_init FtpdBufferSize);
      upd_data fsd (set_dfifo f) ;;
      if negb (err =? 0) then free_data fsd ;; send_msg pcb fsm msg451 [] ;; mret 1
      else
        p ← new_pcb;
        upd_msg fsm (set_datapcb p) ;;
        if p =? 0 then free_data fsd ;; send_msg pcb fsm msg451 [] ;; mret 1
        else
          tcp_arg p fsd ;;
          set_on_connected p (Some Data) ;;
          m ← get_msg fsm;
          call' (tcp_connect p (dataip m) (dataport m)) ;;
          mret 0.

(** ** Commands *)

Abbreviation command := (list Z → Z → Z → M unit).

Definition cmd_user : command := λ arg pcb fsm, send_msg pcb fsm msg331 [] ;; upd_msg fsm (set_state FTPD_PASS).
Definition cmd_pass : command := λ arg pcb fsm, send_msg pcb fsm msg230 [] ;; upd_msg fsm (set_state FTPD_IDLE).

Definition cmd_port : command := λ arg pcb fsm,
  match port_values 6 arg with
  | [i0; i1; i2; i3; pHi; pLo] =>
      upd_msg fsm (set_dataip [u8 i0; u8 i1; u8 i2; u8 i3]) ;;
      upd_msg fsm (set_dataport (u16 (Z.shiftl (u16 pHi) 8 .| u16 pLo))) ;;
      send_msg pcb fsm msg200 []
  | _ => send_msg pcb fsm msg501 []
  end.

Definition cmd_quit : command := λ arg pcb fsm, send_msg pcb fsm msg221 [] ;; upd_msg fsm (set_state FTPD_QUIT).

Definition cmd_cwd : command := λ arg pcb fsm,
  r ← on_root (vroot_cd arg);
  if r =? 0 then send_msg pcb fsm msg250 [] else send_msg pcb fsm msg550 [].
Definition cmd_cdup : command := λ arg pcb fsm,
  r ← on_root (vroot_cd (text ".."));
  if r =? 0 then send_msg pcb fsm msg250 [] else send_msg pcb fsm msg550 [].
Definition cmd_pwd : command := λ arg pcb fsm,
  path ← vfs_getcwd;
  match path with Some path => send_msg pcb fsm msg257PWD [VStr (Some path)] | None => mret tt end.

Definition cmd_list_common (arg : list Z) (pcb fsm : Z) (shortlist : bool) : M unit :=
  cwd ← vfs_getcwd;
  match cwd with
  | None => send_msg pcb fsm msg451 []
  | Some cwd =>
      dir ← vfs_opendir cwd;
      match dir with
      | None => send_msg pcb fsm msg451 []
      | Some dir =>
          r ← open_dataconnection pcb fsm;
          if negb (r =? 0) then vfs_closedir dir
          else
            m ← get_msg fsm;
            upd_data (datafs m) (set_dir (Some dir)) ;;
            upd_data (datafs m) (set_dirent false) ;;
            upd_msg fsm (set_state (if shortlist then FTPD_NLST else FTPD_LIST)) ;;
            send_msg pcb fsm msg150 []
      end
  end.
Definition cmd_nlst : command := λ arg pcb fsm, cmd_list_common arg pcb fsm true.
Definition cmd_list : command := λ arg pcb fsm, cmd_list_common arg pcb fsm false.

(** The end of [cmd_retr] and [cmd_stor]. *)
Definition begin_transfer (pcb fsm h : Z) (st : ftpd_state_e) : M unit :=
  r ← open_dataconnection pcb fsm;
  if negb (r =? 0) then vfs_close (Some h)
  else
    m ← get_msg fsm;
    upd_data (datafs m) (set_vfile (Some h)) ;;
    upd_msg fsm (set_state st).

(** The result of [vfs_stat] is not looked at. *)
Definition cmd_retr : command := λ arg pcb fsm,
  '(st_size, st_mode) ← stat_or_junk arg;
  if negb (VFS_ISREG st_mode) then send_msg pcb fsm msg550 []
  else
    file ← vfs_open arg (text "rb");
    match file with
    | None => send_msg pcb fsm msg550 []
    | Some h =>
        send_msg pcb fsm msg150recv [VStr (Some arg); VInt st_size] ;;
        begin_transfer pcb fsm h FTPD_RETR
    end.

Definition cmd_stor : command := λ arg pcb fsm,
  file ← vfs_open arg (text "wb");
  match file with
  | None => send_msg pcb fsm msg550 []
  | Some h =>
      send_msg pcb fsm msg150stor [VStr (Some arg)] ;;
      begin_transfer pcb fsm h FTPD_STOR
  end.

Definition cmd_noop : command := λ arg pcb fsm, send_msg pcb fsm msg200 [].
Definition cmd_syst : command := λ arg pcb fsm, send_msg pcb fsm msg214SYST [VStr (Some (text "UNIX"))].

(** A round of the search for a port: [Some true] if the listener is bound. *)
Definition try_port (fsm : Z) : M (option bool) :=
  modify (λ s, set_port (if 0x7fff <? port s + 1 then 4096 else port s + 1) s) ;;
  p ← gets port;
  upd_msg fsm (set_dataport p) ;;
  m ← get_msg fsm;
  err ← call (tcp_bind (datalistenpcb m) p);
  if err =? ERR_OK then mret (Some true)
  else
    start ← gets start_port;
    let err := if start =? p then ERR_CLSD else err in
    if err =? ERR_USE then mret None
    else
      ftpd_dataclose (datalistenpcb m) (datafs m) ;;
      upd_msg fsm (set_datalistenpcb 0) ;;
      upd_msg fsm (set_datafs 0) ;;
      mret (Some false).

(** The port returns to [start_port] after 28672 rounds. *)
Definition bind_port (fsm : Z) : M bool := loop_until 32768 (try_port fsm).

Definition cmd_pasv : command := λ arg pcb fsm,
  m ← get_msg fsm;
  if negb (datalistenpcb m =? 0) then send_msg pcb fsm msg451 []
  else
    fsd ← new_data;
    upd_msg fsm (set_datafs fsd) ;;
    if fsd =? 0 then send_msg pcb fsm msg451 []
    else
      '(err, f) ← on_tcp (sfifo_init FtpdBufferSize);
      upd_data fsd (set_dfifo f) ;;
      if negb (err =? 0) then free_data fsd ;; send_msg pcb fsm msg451 []
      else
        l ← new_pcb;
        upd_msg fsm (set_datalistenpcb l) ;;
        if l =? 0 then
          free_data fsd ;;
          _ ← get_data fsd;
          send_msg pcb fsm msg451 []
        else
          modify (λ s, set_start_port (port s) s) ;;
          bound ← bind_port fsm;
          match bound with
          | false => mret tt
          | true =>
              temppcb ← listen_pcb l;
              if temppcb =? 0 then
                ftpd_dataclose l fsd ;;
                upd_msg fsm (set_datalistenpcb 0) ;;
                upd_msg fsm (set_datafs 0)
              else
                upd_msg fsm (set_datalistenpcb temppcb) ;;
                upd_msg fsm (set_passive true) ;;
                upd_data fsd (set_connected false) ;;
                upd_data fsd (set_owner pcb fsm) ;;
                tcp_arg temppcb fsd ;;
                tcp_accept temppcb (Some Data) ;;
                m ← get_msg fsm;
                ip ← gets (λ s, local_ip pcb (tcp s));
                send_msg pcb fsm msg227
                  ((VInt <$> ip) ++
                   [VInt (Z.shiftr (dataport m) 8 .& 0xff); VInt (dataport m .& 0xff)])
          end.

(** ** The end of a control connection *)

Definition ftpd_msgerr (fsm err : Z) : M unit :=
  if fsm =? 0 then mret tt
  else
    m ← get_msg fsm;
    (if negb (datafs m =? 0) then ftpd_dataclose (datapcb m) (datafs m) else mret tt) ;;
    upd_msg fsm (set_renamefrom None) ;;
    free_msg fsm.

Definition ftpd_msgclose (pcb fsm : Z) : M unit :=
  tcp_arg pcb 0 ;;
  tcp_sent pcb None ;;
  tcp_recv pcb None ;;
  m ← get_msg fsm;
  (if negb (datafs m =? 0) then ftpd_dataclose (datapcb m) (datafs m) else mret tt) ;;
  upd_msg fsm (set_renamefrom None) ;;
  free_msg fsm ;;
  tcp_arg pcb 0 ;;
  close_pcb pcb.

(** [TCP_EVENT_ERR]: the control block is gone, the callback it had is called. *)
Definition event_err (c : tcp_pcb) (err : Z) : M unit :=
  match errf c with
  | Some Msg => ftpd_msgerr (callback_arg c) err
  | Some Data => ftpd_dataerr (callback_arg c) err
  | None => mret tt
  end.

Definition tcp_abort (p : Z) : M unit :=
  if p =? 0 then ub
  else
    c ← gets (λ s, default no_pcb (pcbs s !! p));
    call' (tcp_remove p) ;;
    modify (λ s, set_pcbs (delete p (pcbs s)) s) ;;
    event_err c ERR_ABRT.

(** It is the control connection that is aborted. *)
Definition cmd_abrt : command := λ arg pcb fsm,
  m ← get_msg fsm;
  (if negb (datafs m =? 0) then
     tcp_arg (datapcb m) 0 ;;
     tcp_sent (datapcb m) None ;;
     tcp_recv (datapcb m) None ;;
     tcp_abort pcb ;;
     m ← get_msg fsm;
     free_data (datafs m) ;;
     upd_msg fsm (set_datafs 0)
   else mret tt) ;;
  upd_msg fsm (set_state FTPD_IDLE).

Definition cmd_type : command := λ arg pcb fsm,
  if negb (strcmp arg (text "I") =? 0) then send_msg pcb fsm msg502 [] else send_msg pcb fsm msg200 [].
Definition cmd_mode : command := λ arg pcb fsm, send_msg pcb fsm msg502 [].

(** The argument of a command is never NULL. *)
Definition cmd_rnfr : command := λ arg pcb fsm,
  if at_ arg 0 =? 0 then send_msg pcb fsm msg501 []
  else
    got ← call (malloc (Z.of_nat (length arg) + 1));
    match got with
    | false => upd_msg fsm (set_renamefrom None) ;; send_msg pcb fsm msg451 []
    | true =>
        upd_msg fsm (set_renamefrom (Some arg)) ;;
        upd_msg fsm (set_state FTPD_RNFR) ;;
        send_msg pcb fsm msg350 []
    end.

Definition cmd_rnto : command := λ arg pcb fsm,
  m ← get_msg fsm;
  if negb (bool_decide (state m = FTPD_RNFR)) then send_msg pcb fsm msg503 []
  else
    upd_msg fsm (set_state FTPD_IDLE) ;;
    if at_ arg 0 =? 0 then send_msg pcb fsm msg501 []
    else
      match renamefrom m with
      | None => ub
      | Some from =>
          r ← on_root (λ v, Ok (vroot_rename from arg v));
          if negb (r =? 0) then send_msg pcb fsm msg450 [] else send_msg pcb fsm msg250 []
      end.

Definition cmd_mkd : command := λ arg pcb fsm,
  if at_ arg 0 =? 0 then send_msg pcb fsm msg501 []
  else
    r ← on_root (λ v, Ok (vroot_mkdir arg v));
    if negb (r =? 0) then send_msg pcb fsm msg550 [] else send_msg pcb fsm msg257 [VStr (Some arg)].

(** [vfs_rmdir] and [vfs_remove] are the same function. *)
Definition remove_if (wanted : Z → bool) : command := λ arg pcb fsm,
  if at_ arg 0 =? 0 then send_msg pcb fsm msg501 []
  else
    st ← vfs_stat arg;
    match st with
    | None => send_msg pcb fsm msg550 []
    | Some (_, mode) =>
        if negb (wanted mode) then send_msg pcb fsm msg550 []
        else
          r ← on_root (λ v, Ok (vroot_remove arg v));
          if negb (r =? 0) then send_msg pcb fsm msg550 [] else send_msg pcb fsm msg250 []
    end.
Definition cmd_rmd : command := remove_if VFS_ISDIR.
Definition cmd_dele : command := remove_if VFS_ISREG.

Definition ftpd_commands : list (list Z * command) := [
  (text "USER", cmd_user);
  (text "PASS", cmd_pass);
  (text "PORT", cmd_port);
  (text "QUIT", cmd_quit);
  (text "CWD", cmd_cwd);
  (text "CDUP", cmd_cdup);
  (text "PWD", cmd_pwd);
  (text "XPWD", cmd_pwd);
  (text "NLST", cmd_nlst);
  (text "LIST", cmd_list);
  (text "RETR", cmd_retr);
  (text "STOR", cmd_stor);
  (text "NOOP", cmd_noop);
  (text "SYST", cmd_syst);
  (text "ABOR", cmd_abrt);
  (text "TYPE", cmd_type);
  (text "MODE", cmd_mode);
  (text "RNFR", cmd_rnfr);
  (text "RNTO", cmd_rnto);
  (text "MKD", cmd_mkd);
  (text "XMKD", cmd_mkd);
  (text "RMD", cmd_rmd);
  (text "XRMD", cmd_rmd);
  (text "DELE", cmd_dele);
  (text "PASV", cmd_pasv)
].

(** ** The control connection *)

Definition ftpd_msgsent (fsm pcb : Z) : M Z :=
  m ← get_msg fsm;
  if (sfifo_used (mfifo m) =? 0) && bool_decide (state m = FTPD_QUIT) then
    ftpd_msgclose pcb fsm ;; mret ERR_OK
  else
    established ← gets (λ s, tcp_state pcb (tcp s) <=? ESTABLISHED);
    (match established with true => send_msgdata pcb fsm | false => mret tt end) ;;
    mret ERR_OK.

(** The command in a line; the one in the table is the first of that name. *)
Definition run_line (s : list Z) (pcb fsm : Z) : M unit :=
  match List.find (λ c, strcmp c.1 (command_of s) =? 0) ftpd_commands with
  | Some c => c.2 (argument_of s) pcb fsm
  | None => send_msg pcb fsm msg502 []
  end.

(** A segment is a line. *)
Definition ftpd_msgrecv (fsm pcb : Z) (p : option (list (list Z))) (err : Z) : M Z :=
  match p with
  | Some q =>
      if err =? ERR_OK then
        let segment := concat q in
        call' (tcp_recved pcb (u16 (Z.of_nat (length segment)))) ;;
        got ← call (malloc (Z.of_nat (length segment) + 1));
        (match got with
         | true => s ← liftO (trim (cstr segment)); run_line s pcb fsm
         | false => mret tt
         end) ;;
        mret ERR_OK
      else mret ERR_OK
  | None => (if err =? ERR_OK then ftpd_msgclose pcb fsm else mret tt) ;; mret ERR_OK
  end.

Definition ftpd_msgpoll (fsm pcb : Z) : M Z :=
  if fsm =? 0 then mret ERR_OK
  else
    m ← get_msg fsm;
    (if negb (datafs m =? 0) then
       d ← get_data (datafs m);
       if connected d then transfer (state m) (datafs m) (datapcb m) else mret tt
     else mret tt) ;;
    mret ERR_OK.

Definition ftpd_msgaccept (pcb : Z) : M Z :=
  fsm ← new_msg;
  if fsm =? 0 then mret ERR_MEM
  else
    '(err, f) ← on_tcp (sfifo_init FtpdBufferSize);
    upd_msg fsm (set_mfifo f) ;;
    if negb (err =? 0) then free_msg fsm ;; mret ERR_MEM
    else
      upd_msg fsm (set_state FTPD_IDLE) ;;
      tcp_arg pcb fsm ;;
      tcp_recv pcb (Some Msg) ;;
      tcp_sent pcb (Some Msg) ;;
      tcp_err pcb (Some Msg) ;;
      tcp_poll pcb (Some Msg) ;;
      send_msg pcb fsm msg220 [] ;;
      mret ERR_OK.

Definition ftpd_init : M unit :=
  p ← new_pcb;
  assert_ub (negb (p =? 0)) ;;
  _ ← call (tcp_bind p 21);
  p ← listen_pcb p;
  tcp_accept p (Some Msg).

(** ** Events of TCP *)

Inductive event :=
| Accepted (listener p : Z)
| Connected (p : Z)
| Received (p : Z) (chain : option (list (list Z)))
| Sent (p : Z)
| Polled (p : Z)
| Failed (p : Z) (err : Z).

Definition tcp_recv_null (p : Z) (chain : option (list (list Z))) : M Z :=
  match chain with
  | Some q => call' (tcp_recved p (u16 (Z.of_nat (length (concat q))))) ;; mret ERR_OK
  | None => call' (tcp_close p) ;; mret ERR_OK
  end.

(** The macros [TCP_EVENT_...]: the callback of the connection, with its argument. *)
Definition handle (e : event) : M Z :=
  let block p s := default no_pcb (pcbs s !! p) in
  match e with
  | Accepted listener p =>
      l ← gets (block listener);
      modify (λ s, set_pcbs (<[p := mkPcb (callback_arg l) None None None None None None]> (pcbs s)) s) ;;
      match accept l with
      | Some Msg => ftpd_msgaccept p
      | Some Data => ftpd_dataaccept (callback_arg l) p
      | None => mret ERR_ARG
      end
  | Connected p =>
      c ← gets (block p);
      match on_connected c with Some _ => ftpd_dataconnected (callback_arg c) p | None => mret ERR_OK end
  | Received p chain =>
      c ← gets (block p);
      match recv c with
      | Some Msg => ftpd_msgrecv (callback_arg c) p chain ERR_OK
      | Some Data => ftpd_datarecv (callback_arg c) p chain ERR_OK
      | None => tcp_recv_null p chain
      end
  | Sent p =>
      c ← gets (block p);
      match sent c with
      | Some Msg => ftpd_msgsent (callback_arg c) p
      | Some Data => ftpd_datasent (callback_arg c) p
      | None => mret ERR_OK
      end
  | Polled p =>
      c ← gets (block p);
      match poll c with Some _ => ftpd_msgpoll (callback_arg c) p | None => mret ERR_OK end
  | Failed p err =>
      c ← gets (block p);
      modify (λ s, set_pcbs (delete p (pcbs s)) s) ;;
      event_err c err ;;
      mret ERR_OK
  end.

End server.
#[global] Arguments server : clear implicits.

End Ftpd.
