(* ===== verification/FtpdRun.v ===== *)
(** * Transfers of the FTP server

    The state of a session while a file goes to the client or comes from it, and
    that every callback keeps it, whatever TCP accepts and in whichever order the
    callbacks are called. *)

From Stdlib Require Import String.
From stdpp Require Import gmap.
From S2P Require Import Prelude Strtol Format Strings Partition FatFiles VirtualRoot FatStore LwipTcp Sfifo Ftpd.

Module FtpdRun.
Import LwipTcp Sfifo Ftpd.
Import VirtualRoot(vroot, ChildFS, inside, fs, cwd, FatFSAccess).
Import FatFiles(FatFs, FatFsLaws, accessor).
Import FatStore(FatFsFiles, view, mkView, vpos, vdata, vpath, vwrite, sees, at_pos, ahead, writing, path).
Import Format(text, va, VInt, VStr).

#[local] Existing Instance FatFSAccess.

Abbreviation length := List.length.

(** The state as one record. *)
Ltac norm :=
  unfold set_msgs, set_datas, set_pcbs, set_root, set_dir_ent, set_port, set_start_port, set_tcp in *;
  cbn [msgs datas pcbs root dir_ent port start_port tcp] in *.

(** ** Rules *)

Section rules.
Context {A N : Type} `{!ChildFS A} `{!Tcp N}.
Implicit Types s : server A N.

Lemma wp_get_msg p m (Q : ftpd_msgstate → server A N → Prop) s : msgs s !! p = Some m → Q m s → wp (get_msg p) Q s.
Proof. unfold wp, get_msg. by intros ->. Qed.

Lemma wp_get_data p d (Q : ftpd_datastate → server A N → Prop) s : datas s !! p = Some d → Q d s → wp (get_data p) Q s.
Proof. unfold wp, get_data. by intros ->. Qed.

Lemma wp_upd_msg p f m (Q : unit → server A N → Prop) s :
  msgs s !! p = Some m → Q tt (set_msgs (<[p := f m]> (msgs s)) s) → wp (upd_msg p f) Q s.
Proof. intros Hm HQ. unfold upd_msg. by apply wp_bind, (wp_get_msg _ m), wp_modify. Qed.

Lemma wp_upd_data p f d (Q : unit → server A N → Prop) s :
  datas s !! p = Some d → Q tt (set_datas (<[p := f d]> (datas s)) s) → wp (upd_data p f) Q s.
Proof. intros Hd HQ. unfold upd_data. by apply wp_bind, (wp_get_data _ d), wp_modify. Qed.

Lemma wp_free_data p d (Q : unit → server A N → Prop) s :
  datas s !! p = Some d → Q tt (set_datas (delete p (datas s)) s) → wp (free_data p) Q s.
Proof. intros Hd HQ. unfold free_data. by apply wp_bind, (wp_get_data _ d), wp_modify. Qed.

Lemma wp_assert (b : bool) (Q : unit → server A N → Prop) s : b = true → Q tt s → wp (assert_ub b) Q s.
Proof. unfold wp, assert_ub. by intros ->. Qed.

Lemma wp_liftO {R} (o : outcome R) r (Q : R → server A N → Prop) s : o = Ok r → Q r s → wp (liftO o) Q s.
Proof. unfold wp, liftO. by intros ->. Qed.

(** The new callbacks are a variable, so that the state does not grow. *)
Lemma wp_upd_pcb p f (Q : unit → server A N → Prop) ms ds ps rt de pt sp n :
  p ≠ 0 →
  (∀ ps', ps' = <[p := f (default no_pcb (ps !! p))]> ps → Q tt (mkServer ms ds ps' rt de pt sp n)) →
  wp (upd_pcb p f) Q (mkServer ms ds ps rt de pt sp n).
Proof. intros Hp HQ. unfold upd_pcb. destruct (Z.eqb_spec p 0); [done|]. apply wp_modify. by apply HQ. Qed.

Lemma wp_close_pcb p (Q : unit → server A N → Prop) s :
  p ≠ 0 → Q tt (set_tcp (tcp_close p (tcp s)) s) → wp (close_pcb p) Q s.
Proof. intros Hp HQ. unfold close_pcb. destruct (Z.eqb_spec p 0); [done|]. by apply wp_modify. Qed.

End rules.

(** ** Sending *)

Section sending.
Context {A N : Type} `{!ChildFS A} `{!Tcp N} `{!TcpLaws N}.
Implicit Types s : server A N.

(** Only connection [p] may have got more octets. *)
Definition only (p : Z) (n n' : N) : Prop := (∀ q, q ≠ p → delivered q n' = delivered q n) ∧ keeps n n'.

(** What the client was told or will be: the octets sent and those in the FIFO. *)
Definition said (p : Z) (f : sfifo_t) (n : N) : list Z := delivered p n ++ queue f.

Lemma moves_said p f n f' n' : moves p f n f' n' → only p n n' ∧ said p f' n' = said p f n.
Proof.
  intros (_ & _ & Ho & out & Hq & Hd). split; [done|]. unfold said. rewrite Hq, Hd. by rewrite app_assoc.
Qed.

(** An open window takes something. *)
Definition drains (p : Z) (f : sfifo_t) (n : N) (f' : sfifo_t) : Prop :=
  window p n → 0 < tcp_sndbuf p n → queue f ≠ [] → (length (queue f') < length (queue f))%nat.

Lemma wp_send_fifo p f (Q : sfifo_t → server A N → Prop) s :
  fifo_ok f → (∀ f' n', moves p f (tcp s) f' n' → drains p f (tcp s) f' → Q f' (set_tcp n' s)) →
  wp (on_tcp (send_fifo p f)) Q s.
Proof.
  intros Hf HQ. apply wp_zoom. destruct (send_moves p f (tcp s) Hf) as (f' & n' & E & Hm & Hd & _).
  unfold wp. rewrite E. by apply HQ.
Qed.

Lemma wp_send_msgdata p fsm m (Q : unit → server A N → Prop) s :
  p ≠ 0 → msgs s !! fsm = Some m → fifo_ok (mfifo m) →
  (∀ f' n', moves p (mfifo m) (tcp s) f' n' → Q tt (set_tcp n' (set_msgs (<[fsm := set_mfifo f' m]> (msgs s)) s))) →
  wp (send_msgdata p fsm) Q s.
Proof.
  intros Hp Hm Hf HQ. unfold send_msgdata. apply wp_bind, (wp_get_msg _ m); [done|].
  apply wp_bind, wp_assert; [destruct (Z.eqb_spec p 0); [done|]; by rewrite orb_true_r|].
  apply wp_bind, wp_send_fifo; [done|]. intros f' n' Hmv _. apply (wp_upd_msg _ _ m); [done|]. by apply HQ.
Qed.

Lemma wp_send_data p fsd d (Q : unit → server A N → Prop) s :
  p ≠ 0 → datas s !! fsd = Some d → fifo_ok (dfifo d) →
  (∀ f' n', moves p (dfifo d) (tcp s) f' n' → drains p (dfifo d) (tcp s) f' →
     Q tt (set_tcp n' (set_datas (<[fsd := set_dfifo f' d]> (datas s)) s))) →
  wp (send_data p fsd) Q s.
Proof.
  intros Hp Hd Hf HQ. unfold send_data. apply wp_bind, (wp_get_data _ d); [done|].
  apply wp_bind, wp_assert; [destruct (Z.eqb_spec p 0); [done|]; by rewrite orb_true_r|].
  apply wp_bind, wp_send_fifo; [done|]. intros f' n' Hmv Hdr. apply (wp_upd_data _ _ d); [done|]. by apply HQ.
Qed.

(** A message goes to the client, or is lost as a whole. *)
Lemma wp_send_msg p fsm m msg args line stores (Q : unit → server A N → Prop) s :
  p ≠ 0 → msgs s !! fsm = Some m → fifo_ok (mfifo m) →
  Format.vsprintf msg args = Ok (line, stores) → (length line < 1000)%nat →
  (∀ f' n', fifo_ok f' → only p (tcp s) n' →
     sfifo_space (mfifo m) - Z.of_nat (length (line ++ newline)) <= sfifo_space f' →
     said p f' n' = said p (mfifo m) (tcp s) ++
       (if sfifo_space (mfifo m) <? Z.of_nat (length (line ++ newline)) then [] else line ++ newline) →
     Q tt (set_tcp n' (set_msgs (<[fsm := set_mfifo f' m]> (msgs s)) s))) →
  wp (send_msg p fsm msg args) Q s.
Proof.
  intros Hp Hm Hf Hv Hl HQ. unfold send_msg. apply wp_bind, (wp_liftO _ _ _ _ Hv).
  apply wp_bind, wp_assert; [apply Nat.ltb_lt; rewrite length_app; cbn; lia|].
  apply wp_bind, (wp_get_msg _ m); [done|].
  destruct (Z.ltb_spec (sfifo_space (mfifo m)) (Z.of_nat (length (line ++ newline)))) as [Hs|Hs].
  - apply wp_ret. replace s with (set_tcp (tcp s) (set_msgs (<[fsm := set_mfifo (mfifo m) m]> (msgs s)) s)).
    { apply HQ; [done|by split|lia|]. by rewrite app_nil_r. }
    rewrite insert_id; [by destruct s|]. rewrite Hm. by destruct m.
  - destruct (write_appends (mfifo m) (line ++ newline) Hf) as (f & E & Hf' & Hsz & Hq).
    apply wp_bind, (wp_liftO _ _ _ _ E). apply wp_bind, (wp_upd_msg _ _ m); [done|].
    eapply wp_send_msgdata; [done|apply lookup_insert_eq|done|]. intros f' n' Hmv.
    norm. rewrite insert_insert_eq. apply HQ; [apply Hmv|by apply moves_said in Hmv as [? _]| |].
    { destruct Hmv as (Hf2 & Hsz2 & _ & out & Hq2 & _). pose proof (length_queue _ Hf). pose proof (length_queue _ Hf2).
      apply (f_equal length) in Hq2. cbn [mfifo set_mfifo] in *. rewrite Hq, !length_app, length_take in Hq2.
      unfold sfifo_space in *. lia. }
    apply moves_said in Hmv as [_ Hmv]. rewrite Hmv. unfold said. cbn [mfifo set_mfifo tcp set_msgs]. rewrite Hq, app_assoc.
    f_equal. apply take_ge. lia.
Qed.

(** The callbacks of [p] are gone, those of other connections are not touched,
    except for a listener. *)
Definition unhooked (p l : Z) (ps ps' : gmap Z tcp_pcb) : Prop :=
  (∃ c, ps' !! p = Some c ∧ sent c = None ∧ recv c = None ∧ callback_arg c = 0) ∧
  ∀ q, q ≠ p → q ≠ l → ps' !! q = ps !! q.

Definition after_transfer (f : sfifo_t) (m : ftpd_msgstate) : ftpd_msgstate :=
  mkMsg FTPD_IDLE f (dataip m) (dataport m) 0 0 0 (passive m) (renamefrom m).

Lemma wp_dataclose dp fsd d m (Q : unit → server A N → Prop) s :
  dp ≠ 0 → datas s !! fsd = Some d → msgs s !! msgfs d = Some m →
  (∀ ps' n', unhooked dp (datalistenpcb m) (pcbs s) ps' → (∀ q, delivered q n' = delivered q (tcp s)) →
     Q tt (mkServer (<[msgfs d := set_datafs 0 (set_datalistenpcb 0 m)]> (msgs s)) (delete fsd (datas s)) ps'
             (root s) (dir_ent s) (port s) (start_port s) n')) →
  wp (ftpd_dataclose dp fsd) Q s.
Proof.
  intros Hdp Hd Hm HQ. destruct s as [ms ds ps rt de pt sp n]. norm.
  unfold ftpd_dataclose, tcp_arg, tcp_sent, tcp_recv, tcp_accept.
  do 3 (apply wp_bind, wp_upd_pcb; [done|]; intros ? ->; rewrite ?lookup_insert_eq, ?insert_insert_eq).
  apply wp_bind, (wp_get_data _ d); [done|]. apply wp_bind, (wp_get_msg _ m); [done|]. cbn [id from_option].
  set (ps1 := <[dp := _]> ps).
  assert (unhooked dp (datalistenpcb m) ps ps1) as Hps1.
  { split; [eexists; split; [apply lookup_insert_eq|done]|]. intros q Hq _. unfold ps1. by rewrite lookup_insert_ne. }
  clearbody ps1. apply wp_bind.
  apply (wp_mono _ (λ _ s', ∃ ps2 n2, unhooked dp (datalistenpcb m) ps ps2 ∧ (∀ q, delivered q n2 = delivered q n) ∧
    s' = mkServer (<[msgfs d := set_datalistenpcb 0 m]> ms) ds ps2 rt de pt sp n2)).
  - destruct (Z.eqb_spec (datalistenpcb m) 0) as [Hl|Hl]; cbn [negb].
    + apply wp_ret. exists ps1, n. split; [done|]. split; [done|]. rewrite insert_id; [done|].
      rewrite Hm. destruct m; cbn in *. by subst.
    + apply wp_bind, wp_upd_pcb; [done|]. intros ps2 Hps2. apply wp_bind, wp_upd_pcb; [done|]. intros ps3 Hps3.
      apply wp_bind, wp_close_pcb; [done|]. apply (wp_upd_msg _ _ m); [done|].
      exists ps3, (tcp_close (datalistenpcb m) n). split; [|split; [intros; apply close_delivered|done]].
      destruct Hps1 as [(c & Hc & Hs & Hr & Ha) Hq]. split.
      * subst. destruct (decide (dp = datalistenpcb m)) as [E|E]; [|rewrite !lookup_insert_ne by done; by exists c].
        rewrite <- E, !lookup_insert_eq, Hc. eexists. by split.
      * intros q Hqd Hql. subst. rewrite !lookup_insert_ne by done. by apply Hq.
  - intros _ s' (ps2 & n2 & Hps2 & Hn2 & ->). apply wp_bind. eapply wp_upd_msg; [apply lookup_insert_eq|].
    apply wp_bind, (wp_free_data _ d); [done|].
    norm.
    apply wp_bind, wp_upd_pcb; [done|]. intros ps3 Hps3. apply wp_close_pcb; [done|]. rewrite insert_insert_eq.
    apply HQ; [|intros; cbn; by rewrite close_delivered]. destruct Hps2 as [(c & Hc & Hs & Hr & Ha) Hq]. subst. split.
    + cbn [pcbs]. rewrite lookup_insert_eq, Hc. eexists. by split.
    + intros q Hqd Hql. cbn [pcbs]. rewrite lookup_insert_ne by done. by apply Hq.
Qed.

Lemma msg226_prints : Format.vsprintf msg226 [] = Ok (msg226, []).
Proof. vm_compute. reflexivity. Qed.

Lemma wp_finish dp fsd d m (Q : unit → server A N → Prop) s :
  dp ≠ 0 → msgpcb d ≠ 0 → datas s !! fsd = Some d → msgs s !! msgfs d = Some m → fifo_ok (mfifo m) →
  (∀ f' ps' n', fifo_ok f' → unhooked dp (datalistenpcb m) (pcbs s) ps' →
     (∀ q, q ≠ msgpcb d → delivered q n' = delivered q (tcp s)) →
     said (msgpcb d) f' n' = said (msgpcb d) (mfifo m) (tcp s) ++
       (if sfifo_space (mfifo m) <? Z.of_nat (length (msg226 ++ newline)) then [] else msg226 ++ newline) →
     Q tt (mkServer (<[msgfs d := after_transfer f' m]> (msgs s)) (delete fsd (datas s)) ps'
             (root s) (dir_ent s) (port s) (start_port s) n')) →
  wp (finish_transfer fsd dp) Q s.
Proof.
  intros Hdp Hcp Hd Hm Hf HQ. unfold finish_transfer. apply wp_bind, (wp_get_data _ d); [done|].
  apply wp_bind, (wp_dataclose dp fsd d m); [done..|]. intros ps' n' Hps Hn.
  do 3 (apply wp_bind; eapply wp_upd_msg; [apply lookup_insert_eq|];
    norm; rewrite insert_insert_eq).
  eapply wp_send_msg; [done|apply lookup_insert_eq|done|apply msg226_prints|vm_compute; lia|].
  intros f' n'' Hf' [Ho _] _ Hs. norm.
  rewrite insert_insert_eq. apply HQ; [done|done|intros q Hq; by rewrite Ho, Hn|]. rewrite Hs.
  unfold said. by rewrite Hn.
Qed.

End sending.

(** ** Octets on their way to the client *)

Definition control {A N} (cp fsm : Z) (s : server A N) : Prop :=
  ∃ c, pcbs s !! cp = Some c ∧ callback_arg c = fsm ∧ recv c = Some Msg ∧ sent c = Some Msg ∧ poll c = Some Msg.
Definition dataline {A N} (dp fsd : Z) (s : server A N) : Prop :=
  ∃ c, pcbs s !! dp = Some c ∧ callback_arg c = fsd ∧ recv c = Some Data ∧ sent c = Some Data.

(** Room for the last message of a transfer. *)
Definition roomy (f : sfifo_t) : Prop := fifo_ok f ∧ 30 <= sfifo_space f.

Lemma roomy_moves {N} `{!Tcp N} `{!TcpLaws N} p f n f' n' : roomy f → moves p f n f' n' → roomy f'.
Proof.
  intros [Hf Hs] (Hf' & Hsz & _ & out & Hq & _). split; [done|]. unfold sfifo_space in *.
  pose proof (length_queue f Hf). pose proof (length_queue f' Hf'). apply (f_equal length) in Hq.
  rewrite length_app in Hq. lia.
Qed.

Lemma no_octets f : fifo_ok f → sfifo_used f <= 0 → queue f = [].
Proof. intros Hf Hu. pose proof (length_queue f Hf). destruct (queue f); [done|cbn in *; lia]. Qed.

Lemma some_octets f : fifo_ok f → 0 < sfifo_used f → queue f ≠ [].
Proof. intros Hf Hu Hq. pose proof (length_queue f Hf) as H. rewrite Hq in H. cbn in H. lia. Qed.

Section stream.
Context {A N : Type} `{!ChildFS A} `{!Tcp N} `{!TcpLaws N}.
Implicit Types s : server A N.

(** The control connection, the data connection and their blocks; the state of the
    transfer; the octets to be sent; what the client was told before.  [source] says,
    for the root, the shared entry and the fields [vfs_dir], [vfs_dirent] and
    [vfs_file], that the octets [z] were taken and the others will be; [final] is
    what holds of the root afterwards. *)
Context (cp dp fsm fsd : Z) (stt : ftpd_state_e) (c y0 : list Z).
Context (source : vroot A → list Z → option Z → bool → option Z → list Z → Prop) (final : vroot A → Prop).

Definition busy (m : ftpd_msgstate) : Prop :=
  state m = stt ∧ datafs m = fsd ∧ datapcb m = dp ∧ datalistenpcb m ≠ cp ∧ roomy (mfifo m).
Definition owned (d : ftpd_datastate) : Prop :=
  connected d = true ∧ msgfs d = fsm ∧ msgpcb d = cp ∧ fifo_ok (dfifo d) ∧ fsize (dfifo d) = 2048.

Definition sending s : Prop := ∃ m d,
  msgs s !! fsm = Some m ∧ datas s !! fsd = Some d ∧ busy m ∧ owned d ∧
  (control cp fsm s ∧ dataline dp fsd s) ∧ said cp (mfifo m) (tcp s) = y0 ∧
  source (root s) (dir_ent s) (vfs_dir d) (vfs_dirent d) (vfs_file d) (delivered dp (tcp s) ++ queue (dfifo d)).

Definition all_sent s : Prop := ∃ m,
  msgs s !! fsm = Some m ∧ datas s !! fsd = None ∧
  (state m = FTPD_IDLE ∧ datafs m = 0 ∧ fifo_ok (mfifo m)) ∧
  (control cp fsm s ∧ ∃ c, pcbs s !! dp = Some c ∧ sent c = None) ∧
  (delivered dp (tcp s) = c ∧ said cp (mfifo m) (tcp s) = y0 ++ msg226 ++ newline) ∧
  final (root s).

(** The octets that are still to be accepted, and the steps after them. *)
Definition work s : nat :=
  match datas s !! fsd with
  | None => 0
  | Some d => S (length c - length (delivered dp (tcp s))) + (if vfs_file d is Some _ then 1 else 0)
  end.

(** What a call of the transfer achieves. *)
Definition step_ok s s' : Prop :=
  (sending s' ∨ all_sent s') ∧ (work s' <= work s)%nat ∧
  (window dp (tcp s) → 0 < tcp_sndbuf dp (tcp s) → (work s' < work s)%nat).

Context (cp_ok : cp ≠ 0) (dp_ok : dp ≠ 0) (distinct : dp ≠ cp).
Context (stt_ok : stt ≠ FTPD_IDLE ∧ stt ≠ FTPD_QUIT).
Context (source_prefix : ∀ rt de dir ent file z, source rt de dir ent file z → z `prefix_of` c).

(** Transmission of octets in the FIFO. *)
Lemma flush_step s s0 d0 d :
  tcp s = tcp s0 → datas s0 !! fsd = Some d0 → datas s !! fsd = Some d → vfs_file d = vfs_file d0 →
  queue (dfifo d) ≠ [] → sending s → wp (send_data dp fsd) (λ _ s', step_ok s0 s') s.
Proof.
  intros Ht Hd0 Hd Hvf Hne (m & d' & Hm & Hd' & Hms & (Hco & Hmfs & Hmp & Hf & Hsz) & Hhooks & Hy & Hsrc).
  assert (d' = d) as -> by congruence. pose proof (source_prefix _ _ _ _ _ _ Hsrc) as Hpre.
  eapply (wp_send_data dp fsd); [done|exact Hd|done|]. intros f' n' Hmv Hdr.
  pose proof Hmv as (Hf' & Hsz' & [Ho _] & out & Hq & Hdel). split; [left|].
  - exists m, (set_dfifo f' d). destruct s as [ms ds ps rt de pt sp n]. norm. split; [done|].
    split; [apply lookup_insert_eq|]. split; [done|].
    split; [split; [done|]; split; [done|]; split; [done|]; split; [done|]; cbn; congruence|]. split; [done|].
    split; [unfold said in *; by rewrite Ho|]. cbn [dfifo set_dfifo vfs_dir vfs_dirent vfs_file].
    rewrite Hdel, <- app_assoc, <- Hq. done.
  - unfold work. rewrite Hd0. norm. rewrite lookup_insert_eq. cbn [vfs_file set_dfifo]. rewrite Hvf, <- Ht, Hdel, length_app.
    apply prefix_length in Hpre. rewrite length_app in Hpre. pose proof (f_equal length Hq) as Hql. rewrite length_app in Hql.
    split; [lia|]. intros Hw Hs. specialize (Hdr Hw Hs Hne). lia.
Qed.

(** All octets are gone. *)
Lemma finish_step s s0 d0 :
  tcp s = tcp s0 → datas s0 !! fsd = Some d0 → sending s → delivered dp (tcp s) = c → final (root s) →
  wp (finish_transfer fsd dp) (λ _ s', step_ok s0 s') s.
Proof.
  intros Ht Hd0 (m & d & Hm & Hd & (Hst & Hdf & Hdp & Hlp & Hmf & Hsp) & (Hco & Hmfs & Hmp & Hf & Hsz) & [(cc & Hcc) Hdl] & Hy & _) Hx Hfin.
  apply (wp_finish dp fsd d m); [done|by rewrite Hmp|done|by rewrite Hmfs|done|].
  rewrite Hmp, Hmfs. intros f' ps' n' Hf' [(c' & Hc' & Hsent & _) Hps] Hn Hsaid. split; [right|].
  - exists (after_transfer f' m). norm. split; [apply lookup_insert_eq|]. split; [apply lookup_delete_eq|]. split; [done|].
    split; [split; [exists cc; by rewrite Hps|by exists c']|]. split; [split; [by rewrite Hn|]|done].
    cbn [mfifo after_transfer]. rewrite Hsaid, Hy. f_equal. change (Z.of_nat (length (msg226 ++ newline))) with 30.
    by destruct (Z.ltb_spec (sfifo_space (mfifo m)) 30); [lia|].
  - unfold work. norm. rewrite lookup_delete_eq, Hd0. split; [|intros _ _]; lia.
Qed.

(** ** The callbacks during a transfer *)

Context (fsm_ok : fsm ≠ 0) (fsd_ok : fsd ≠ 0).
Context (step : ∀ s, sending s → wp (transfer stt fsd dp) (λ _ s', step_ok s s') s).

Lemma data_event e s : e = Sent dp ∨ e = Polled cp → sending s → wp (handle e) (λ _ s', step_ok s s') s.
Proof.
  intros He Hs. pose proof Hs as (m & d & Hm & Hd & (Hst & Hdf & Hdp & _) & (Hco & Hmfs & _) & [Hcp Hdl] & _).
  destruct He as [-> | ->]; unfold handle; apply wp_bind, wp_gets.
  - destruct Hdl as (k & -> & Ha & _ & Hsent). cbn [from_option id]. rewrite Hsent, Ha. unfold ftpd_datasent.
    apply wp_bind, (wp_get_data _ d); [done|]. apply wp_bind, (wp_get_msg _ m); [by rewrite Hmfs|].
    rewrite Hst. apply wp_bind. eapply wp_mono; [by apply step|]. intros ? s' H'. by apply wp_ret.
  - destruct Hcp as (k & -> & Ha & _ & _ & Hpoll). cbn [from_option id]. rewrite Hpoll, Ha. unfold ftpd_msgpoll.
    destruct (Z.eqb_spec fsm 0); [done|]. apply wp_bind, (wp_get_msg _ m); [done|]. rewrite Hdf, Hdp, Hst.
    destruct (Z.eqb_spec fsd 0); [done|]. cbn [negb]. apply wp_bind. apply wp_bind, (wp_get_data _ d); [done|].
    rewrite Hco. eapply wp_mono; [by apply step|]. intros ? s' H'. by apply wp_ret.
Qed.

(** The control connection drains its own FIFO. *)
Lemma control_event s m (Q : Z → server A N → Prop) :
  control cp fsm s → msgs s !! fsm = Some m → state m ≠ FTPD_QUIT → fifo_ok (mfifo m) →
  (Q ERR_OK s) →
  (∀ f' n', moves cp (mfifo m) (tcp s) f' n' →
     Q ERR_OK (set_tcp n' (set_msgs (<[fsm := set_mfifo f' m]> (msgs s)) s))) →
  wp (handle (Sent cp)) Q s.
Proof.
  intros (k & Hk & Ha & _ & Hsent & _) Hm Hst Hf HQ0 HQ. unfold handle. apply wp_bind, wp_gets. rewrite Hk. cbn [from_option id].
  rewrite Hsent, Ha. unfold ftpd_msgsent. apply wp_bind, (wp_get_msg _ m); [done|].
  rewrite bool_decide_eq_false_2, andb_false_r by done. apply wp_bind, wp_gets. apply wp_bind. destruct (_ <=? _).
  - apply (wp_send_msgdata cp fsm m); [done..|]. intros f' n' Hmv. apply wp_ret. by apply HQ.
  - apply wp_ret. by apply wp_ret.
Qed.

Lemma sending_control s : sending s → wp (handle (Sent cp)) (λ _ s', sending s' ∧ work s' = work s) s.
Proof.
  intros Hs. pose proof Hs as (m & d & Hm & Hd & (Hst & Hdf & Hdp & Hlp & Hroom) & Hds & [Hcp Hdl] & Hy & Hsrc).
  apply (control_event s m); [done|done|rewrite Hst; apply stt_ok|apply Hroom|by split|]. intros f' n' Hmv.
  pose proof (moves_said _ _ _ _ _ Hmv) as [[Ho _] Hsaid]. destruct s as [ms ds ps rt de pt sp n]. norm. split.
  - exists (set_mfifo f' m), d. norm. split; [apply lookup_insert_eq|]. split; [done|].
    split; [cbn; split; [done|]; split; [done|]; split; [done|]; split; [done|]; by eapply roomy_moves|]. split; [done|]. split; [done|].
    split; [cbn; by rewrite Hsaid|by rewrite Ho].
  - unfold work. norm. by rewrite Ho.
Qed.

Lemma finished_event e s :
  e = Sent dp ∨ e = Polled cp ∨ e = Sent cp → all_sent s → wp (handle e) (λ _ s', all_sent s') s.
Proof.
  intros He Hs. pose proof Hs as (m & Hm & Hd & (Hst & Hdf & Hf) & [Hcp (k & Hk & Hsent)] & [Hx Hy] & Hfin).
  destruct He as [-> | [-> | ->]].
  - unfold handle. apply wp_bind, wp_gets. rewrite Hk. cbn [from_option id]. rewrite Hsent. by apply wp_ret.
  - unfold handle. apply wp_bind, wp_gets. destruct Hcp as (k' & -> & Ha & _ & _ & Hpoll). cbn [from_option id]. rewrite Hpoll, Ha.
    unfold ftpd_msgpoll. destruct (Z.eqb_spec fsm 0); [done|]. apply wp_bind, (wp_get_msg _ m); [done|]. rewrite Hdf.
    cbn [Z.eqb negb]. apply wp_bind, wp_ret. by apply wp_ret.
  - apply (control_event s m); [done|done|by rewrite Hst|done|done|]. intros f' n' Hmv.
    pose proof (moves_said _ _ _ _ _ Hmv) as [[Ho _] Hsaid]. destruct s as [ms ds ps rt de pt sp n]. norm.
    exists (set_mfifo f' m). norm. split; [apply lookup_insert_eq|]. split; [done|]. split; [by destruct Hmv|].
    split; [split; [done|by exists k]|]. split; [split; [by rewrite Ho|cbn; by rewrite Hsaid]|done].
Qed.

(** What happens during the transfer: TCP does something of its own, or calls one of
    the callbacks. *)
Inductive turn : server A N → server A N → Prop :=
| turn_tcp s n' : (∀ q, delivered q n' = delivered q (tcp s)) → turn s (set_tcp n' s)
| turn_event e s r s' :
    e = Sent dp ∨ e = Polled cp ∨ e = Sent cp → handle e s = Ok (r, s') → turn s s'.

(** [k] calls of the data callbacks at times when the window is open. *)
Inductive rounds : nat → server A N → server A N → Prop :=
| rounds_O s s' : rtc turn s s' → rounds 0 s s'
| rounds_S k e s s1 r s2 s' :
    rtc turn s s1 → window dp (tcp s1) → 0 < tcp_sndbuf dp (tcp s1) →
    e = Sent dp ∨ e = Polled cp → handle e s1 = Ok (r, s2) → rounds k s2 s' → rounds (S k) s s'.

Lemma wp_result {R} (m : ST (server A N) R) Q s r s' : wp m Q s → m s = Ok (r, s') → Q r s'.
Proof. unfold wp. intros H E. by rewrite E in H. Qed.

Lemma tcp_same s n' : (∀ q, delivered q n' = delivered q (tcp s)) →
  (sending s → sending (set_tcp n' s)) ∧ (all_sent s → all_sent (set_tcp n' s)) ∧ work (set_tcp n' s) = work s.
Proof.
  intros Hn. split; [|split].
  - intros (m & d & H1 & H2 & H3 & H4 & H5 & Hy & H7). exists m, d. norm. unfold said in *. by rewrite !Hn.
  - intros (m & H1 & H2 & H3 & H4 & [Hx Hy] & H7). exists m. norm. unfold said in *. by rewrite !Hn.
  - unfold work. norm. by rewrite Hn.
Qed.

Lemma turn_finished s s' : turn s s' → all_sent s → all_sent s'.
Proof.
  intros Ht Hs. inversion Ht as [s0 n' Hn|e s0 r s1 He E]; subst; [by apply tcp_same|].
  exact (wp_result _ _ _ _ _ (finished_event e s He Hs) E).
Qed.

Lemma turn_ok s s' : turn s s' → sending s → (sending s' ∨ all_sent s') ∧ (work s' <= work s)%nat.
Proof.
  intros Ht Hs. inversion Ht as [s0 n' Hn|e s0 r s1 He E]; subst.
  - destruct (tcp_same s n' Hn) as (H & _ & ->). split; [left; by apply H|done].
  - destruct He as [He|[He|He]].
    + pose proof (wp_result _ _ _ _ _ (data_event e s ltac:(by left) Hs) E) as (? & ? & _). done.
    + pose proof (wp_result _ _ _ _ _ (data_event e s ltac:(by right) Hs) E) as (? & ? & _). done.
    + subst e. pose proof (wp_result _ _ _ _ _ (sending_control s Hs) E) as [? ->]. split; [by left|done].
Qed.

Lemma turns_ok s s' : rtc turn s s' → sending s ∨ all_sent s →
  (all_sent s → all_sent s') ∧ (all_sent s' ∨ sending s' ∧ (work s' <= work s)%nat).
Proof.
  induction 1 as [s|s s1 s' Ht _ IH]; intros Hs; [split; [done|destruct Hs; [right|left]; done]|].
  destruct Hs as [Hs|Hs].
  - apply turn_ok in Ht as [Hs1 Hw]; [|done]. destruct (IH Hs1) as [Hfin Hs'].
    split; [intros (? & _ & Hd & _); destruct Hs as (? & ? & _ & Hd' & _); congruence|].
    destruct Hs' as [|[? ?]]; [by left|right; split; [done|lia]].
  - apply turn_finished in Ht; [|done]. destruct (IH (or_intror Ht)) as [Hfin Hs']. split; [auto|]. left. auto.
Qed.

Lemma rounds_ok k s s' : rounds k s s' → sending s ∨ all_sent s →
  (all_sent s → all_sent s') ∧ (all_sent s' ∨ sending s' ∧ (work s' + k <= work s)%nat).
Proof.
  induction 1 as [s s' Ht|k e s s1 r s2 s' Ht Hw Hb He E Hr IH]; intros Hs; apply turns_ok in Ht as [Hfin Hs1]; try done.
  - split; [done|]. destruct Hs1 as [|[? ?]]; [by left|right; split; [done|lia]].
  - assert (all_sent s1 → all_sent s') as Hlast.
    { intros Hs1'. pose proof (wp_result _ _ _ _ _ (finished_event e s1 ltac:(tauto) Hs1') E) as Hs2.
      destruct (IH (or_intror Hs2)) as [H _]. auto. }
    split; [auto|]. destruct Hs1 as [Hs1|[Hs1 Hle]]; [left; auto|].
    pose proof (wp_result _ _ _ _ _ (data_event e s1 He Hs1) E) as (Hs2 & Hle2 & Hlt).
    specialize (Hlt Hw Hb). destruct (IH Hs2) as [_ [?|[? ?]]]; [by left|right; split; [done|lia]].
Qed.

(** What holds at any time. *)
Lemma always_defined e s :
  sending s ∨ all_sent s → e ∈ [Sent dp; Polled cp; Sent cp] → ∃ r s', handle e s = Ok (r, s').
Proof.
  rewrite !elem_of_cons, elem_of_nil. intros Hs He.
  assert (wp (handle e) (λ _ _, True) s) as H; [|apply wp_run in H as (r & s' & E & _); eauto].
  destruct Hs as [Hs|Hs]; [|eapply wp_mono; [by apply finished_event; tauto|done]].
  destruct He as [-> | [-> | [-> | []]]].
  - eapply wp_mono; [by apply data_event; [left|]|done].
  - eapply wp_mono; [by apply data_event; [right|]|done].
  - eapply wp_mono; [by apply sending_control|done].
Qed.

Lemma always_prefix s :
  sending s ∨ all_sent s →
  delivered dp (tcp s) `prefix_of` c ∧
  ∃ m, msgs s !! fsm = Some m ∧
    (state m = FTPD_IDLE →
       delivered dp (tcp s) = c ∧ final (root s) ∧ said cp (mfifo m) (tcp s) = y0 ++ msg226 ++ newline).
Proof.
  intros [(m & d & Hm & _ & (Hst & _) & _ & _ & Hy & Hsrc)|(m & Hm & _ & _ & _ & [Hx Hy] & Hfin)].
  - split; [|exists m; split; [done|]; intros Hi; rewrite Hst in Hi; by destruct stt_ok].
    apply source_prefix in Hsrc. etrans; [|exact Hsrc]. by apply prefix_app_r.
  - split; [by rewrite Hx|]. by exists m.
Qed.

(** The whole transfer, from a state in which the data connection is open: whatever
    TCP accepts and in whichever order it calls the callbacks, every callback is
    defined and the octets accepted are a prefix of [c]; when the session is idle they
    are [c], the root is as [final] says and the client was told 226.  As many calls
    with an open window as there are octets, and two, end the transfer. *)
Definition streams s : Prop :=
  (∀ s', rtc turn s s' →
     (∀ e, e ∈ [Sent dp; Polled cp; Sent cp] → ∃ r s'', handle e s' = Ok (r, s'')) ∧
     delivered dp (tcp s') `prefix_of` c ∧
     ∃ m, msgs s' !! fsm = Some m ∧
       (state m = FTPD_IDLE →
          delivered dp (tcp s') = c ∧ final (root s') ∧ said cp (mfifo m) (tcp s') = y0 ++ msg226 ++ newline)) ∧
  (∀ s', rounds (length c + 2) s s' → ∃ m, msgs s' !! fsm = Some m ∧ state m = FTPD_IDLE).

Lemma sending_streams s : sending s ∨ all_sent s → streams s.
Proof.
  intros Hs. split.
  - intros s' Ht. apply turns_ok in Ht as [_ Hs']; [|done].
    assert (sending s' ∨ all_sent s') as H by (destruct Hs' as [|[? _]]; auto).
    split; [intros e He; by apply always_defined|by apply always_prefix].
  - intros s' Hr. apply rounds_ok in Hr as [_ [Hs'|[(m & d & _ & Hd & _) Hle]]]; [|exfalso|done].
    + destruct Hs' as (m & Hm & _ & (Hst & _) & _). by exists m.
    + unfold work in Hle at 1. rewrite Hd in Hle. unfold work in Hle. destruct (datas s !! fsd) as [d'|]; [|lia].
      destruct (vfs_file d'); lia.
Qed.

End stream.

(** ** A file on its way to the client *)

Section retrieve.
Context {F D X N : Type} `{!FatFs F D X} `{!FatFsLaws F D X} {known : path → Prop} {room : Z}
  `{!FatFsFiles F D X known room} `{!Tcp N} `{!TcpLaws N}.
Implicit Types s : server (accessor F D X) N.

Definition disk (st : gmap path (list Z)) (mm : gmap Z view) s : Prop :=
  inside (root s) = true ∧ sees st mm (fs (root s)).

Lemma wp_vfs_read st mm h v len (Q : Z * list Z → server (accessor F D X) N → Prop) s :
  disk st mm s → mm !! h = Some v → vwrite v = false → 0 <= len → 0 <= vpos v →
  (let out := take (Z.to_nat len) (ahead v) in
   ∀ rt, disk st (<[h := at_pos v (vpos v + Z.of_nat (length out))]> mm) (set_root rt s) →
     Q (Z.of_nat (length out), out) (set_root rt s)) →
  wp (vfs_read len (Some h)) Q s.
Proof.
  intros [Hin Hs] Hv Hr Hl Hp HQ. unfold vfs_read. apply wp_bind, wp_zoom.
  unfold wp at 1, VirtualRoot.vroot_read. rewrite Hin. cbn [VirtualRoot.fs_read FatFSAccess].
  pose proof (FatStore.wp_read st mm (fs (root s)) h v len
    (λ r a', r = (Z.of_nat (length (take (Z.to_nat len) (ahead v))), take (Z.to_nat len) (ahead v)) ∧
      sees st (<[h := at_pos v (vpos v + Z.of_nat (length (take (Z.to_nat len) (ahead v))))]> mm) a') Hs Hv Hr Hl Hp) as H.
  unfold wp in H. destruct (FatFiles.fatxread h len (fs (root s))) as [[r a']|]; [|by apply H].
  destruct H as [-> Ha]; [done|]. cbn [mbind outcome_mbind outcome_bind].
  apply wp_ret. destruct (Z.ltb_spec (Z.of_nat (length (take (Z.to_nat len) (ahead v)))) 0); [lia|].
  apply HQ. by split.
Qed.

Lemma wp_vfs_close st mm h v (Q : unit → server (accessor F D X) N → Prop) s :
  disk st mm s → mm !! h = Some v →
  (∀ rt, disk (if vwrite v then <[vpath v := vdata v]> st else st) (delete h mm) (set_root rt s) → Q tt (set_root rt s)) →
  wp (vfs_close (Some h)) Q s.
Proof.
  intros [Hin Hs] Hv HQ. unfold vfs_close. apply wp_zoom.
  unfold wp at 1, VirtualRoot.vroot_close. rewrite Hin. cbn [VirtualRoot.fs_close FatFSAccess].
  pose proof (FatStore.wp_close st mm (fs (root s)) h v
    (λ _ a', sees (if vwrite v then <[vpath v := vdata v]> st else st) (delete h mm) a') Hs Hv (λ a' H, H)) as H.
  unfold wp in H. destruct (FatFiles.fatxclose h (fs (root s))) as [[r a']|]; [|done].
  cbn [mbind outcome_mbind outcome_bind]. apply HQ. by split.
Qed.

Lemma wp_vfs_eof st mm h v (Q : Z → server (accessor F D X) N → Prop) s :
  disk st mm s → mm !! h = Some v → Q (if vpos v =? Z.of_nat (length (vdata v)) then 1 else 0) s → wp (vfs_eof h) Q s.
Proof.
  intros [Hin Hs] Hv HQ. unfold wp, vfs_eof, VirtualRoot.vroot_eof. rewrite Hin. cbn [VirtualRoot.fs_eof FatFSAccess].
  by rewrite (FatStore.eof_slot st mm _ h v Hs Hv).
Qed.

(** The handle, the path and the contents of the file; the volume and the files that
    are open otherwise. *)
Context (cp dp fsm fsd h : Z) (p : path) (c y0 : list Z) (st : gmap path (list Z)) (mm : gmap Z view).
Context (cp_ok : cp ≠ 0) (dp_ok : dp ≠ 0) (distinct : dp ≠ cp) (fsm_ok : fsm ≠ 0) (fsd_ok : fsd ≠ 0).
Context (h_free : mm !! h = None).

Definition volume (mm : gmap Z view) (rt : vroot (accessor F D X)) : Prop := inside rt = true ∧ sees st mm (fs rt).

(** The file is at the octet behind those taken, or closed when they are all. *)
Definition from_file (rt : vroot (accessor F D X)) (de : list Z) (dir : option Z) (ent : bool) (file : option Z) (z : list Z) : Prop :=
  match file with
  | Some h' => h' = h ∧ z `prefix_of` c ∧ volume (<[h := mkView p (Z.of_nat (length z)) c false]> mm) rt
  | None => z = c ∧ volume mm rt
  end.

Lemma from_file_prefix rt de dir ent file z : from_file rt de dir ent file z → z `prefix_of` c.
Proof. destruct file; [by intros (_ & ? & _)|by intros [-> _]]. Qed.

Abbreviation sending := (sending cp dp fsm fsd FTPD_RETR y0 from_file).
Abbreviation step_ok := (step_ok cp dp fsm fsd FTPD_RETR c y0 from_file (volume mm)).

(** At the end of the file. *)
Lemma eof_step s s0 d :
  tcp s = tcp s0 → datas s0 !! fsd = Some d → datas s !! fsd = Some d → vfs_file d = Some h → sending s →
  delivered dp (tcp s) ++ queue (dfifo d) = c →
  wp (eof ← vfs_eof h; if eof =? 0 then mret tt else vfs_close (Some h) ;; upd_data fsd (set_vfile None))
    (λ _ s', step_ok s0 s') s.
Proof.
  intros Ht Hd0 Hd Hvf (m & d' & Hm & Hd' & Hms & Hds & Hhooks & Hy & Hsrc) Hall. assert (d' = d) as -> by congruence.
  rewrite Hvf in Hsrc. destruct Hsrc as (_ & _ & Hvol). rewrite Hall in Hvol. destruct s as [ms ds ps rt de pt sp n]. norm.
  apply wp_bind. eapply wp_vfs_eof; [exact Hvol|apply lookup_insert_eq|]. cbn [vpos vdata]. rewrite Z.eqb_refl. cbn [Z.eqb].
  apply wp_bind. eapply wp_vfs_close; [exact Hvol|apply lookup_insert_eq|]. cbn [vwrite vdata vpath].
  rewrite delete_insert_id by done. intros rt' Hdisk'. apply (wp_upd_data _ _ d); [done|]. norm. split.
  - left. exists m, (set_vfile None d). norm. split; [done|]. split; [apply lookup_insert_eq|]. split; [done|].
    split; [done|]. split; [done|]. split; [done|]. cbn. by split.
  - unfold work. norm. rewrite lookup_insert_eq, Hd0, Hvf, Ht. cbn [vfs_file set_vfile]. split; [|intros _ _]; lia.
Qed.

Lemma send_file_step s : sending s → wp (send_file fsd dp) (λ _ s', step_ok s s') s.
Proof.
  intros Hs. pose proof Hs as (m & d & Hm & Hd & Hms & Hds & Hhooks & Hy & Hsrc). unfold send_file.
  apply wp_bind, (wp_get_data _ d); [done|]. pose proof Hds as (-> & _ & _ & Hf & Hsz). cbn [negb].
  pose proof (used_cases _ Hf) as [Hu _].
  pose proof (flush_step cp dp fsm fsd FTPD_RETR c y0 from_file (volume mm) cp_ok dp_ok distinct from_file_prefix) as Hflush.
  destruct (vfs_file d) as [h'|] eqn:Eh.
  2:{ destruct Hsrc as [Hz Hvol]. destruct (Z.ltb_spec 0 (sfifo_used (dfifo d))) as [Hpos|Hzero].
      - by apply (Hflush s s d d), Hs; [..|apply some_octets].
      - apply no_octets in Hzero; [|done]. rewrite Hzero, app_nil_r in Hz.
        by eapply (finish_step cp dp fsm fsd FTPD_RETR c y0 from_file (volume mm)); try exact Hs. }
  destruct Hsrc as (-> & Hpre & Hvol). destruct (Z.eqb_spec (sfifo_space (dfifo d)) 0) as [Hs0|Hs0].
  { apply (Hflush s s d d), Hs; try done. apply some_octets; [done|]. unfold sfifo_space in Hs0. lia. }
  set (len := if FtpdBufferSize <? sfifo_space (dfifo d) then FtpdBufferSize else sfifo_space (dfifo d)).
  assert (0 < len <= sfifo_space (dfifo d)) as Hlen.
  { unfold len, FtpdBufferSize, TCP_MSS, sfifo_space in *. destruct (Z.ltb_spec 1460 (fsize (dfifo d) - 1 - sfifo_used (dfifo d))); lia. }
  clearbody len. apply wp_bind. eapply wp_vfs_read; [exact Hvol|apply lookup_insert_eq|done|lia|cbn; lia|].
  unfold ahead, at_pos. cbn [vpos vdata vpath vwrite]. rewrite Nat2Z.id, insert_insert_eq. destruct Hpre as [rest Hrest].
  set (z := delivered dp (tcp s) ++ queue (dfifo d)) in *.
  assert (drop (length z) c = rest) as -> by (rewrite Hrest; apply drop_app_length).
  intros rt Hvol'. destruct s as [ms ds ps rt0 de pt sp n]. norm.
  set (out := take (Z.to_nat len) rest) in *. rewrite <- Nat2Z.inj_add, <- length_app in Hvol'.
  assert ((z ++ out) `prefix_of` c) as Hpre'.
  { exists (drop (Z.to_nat len) rest). rewrite <- app_assoc. unfold out. by rewrite take_drop. }
  destruct (Z.eqb_spec (Z.of_nat (length out)) 0) as [Hz|Hz].
  - assert (rest = []) as ->.
    { destruct rest; [done|]. unfold out in Hz. rewrite length_take in Hz. cbn in Hz. lia. }
    rewrite app_nil_r in Hrest. assert (out = []) as Ho by by destruct out. rewrite Ho, app_nil_r in *.
    apply (eof_step _ (mkServer ms ds ps rt0 de pt sp n) d); try done. exists m, d. rewrite Eh. done.
  - destruct (write_appends (dfifo d) out Hf) as (f & E & Hf' & Hsz' & Hq).
    assert (Z.of_nat (length out) <= len) as Hlo by (unfold out; rewrite length_take; lia).
    rewrite Z.min_r in E, Hq by lia. rewrite Nat2Z.id, take_ge in Hq by done.
    apply wp_bind, (wp_liftO _ _ _ _ E). apply wp_bind, (wp_upd_data _ _ d); [done|].
    eapply (Hflush _ (mkServer ms ds ps rt0 de pt sp n)); norm; [done|done|apply lookup_insert_eq|done| |].
    + cbn [dfifo set_dfifo]. rewrite Hq. intros Hnil%(f_equal length). rewrite length_app in Hnil. cbn in Hnil. lia.
    + exists m, (set_dfifo f d). norm. split; [done|]. split; [apply lookup_insert_eq|]. split; [done|].
      split; [by destruct Hds as (?&?&?&_); split_and!; cbn; congruence|]. split; [done|]. split; [done|].
      cbn [vfs_file set_dfifo dfifo]. rewrite Eh, Hq, app_assoc. by split.
Qed.

End retrieve.

(** ** A file on its way from the client *)

Section store.
Context {F D X N : Type} `{!FatFs F D X} `{!FatFsLaws F D X} {known : path → Prop} {room : Z}
  `{!FatFsFiles F D X known room} `{!Tcp N} `{!TcpLaws N}.
Implicit Types s : server (accessor F D X) N.

Abbreviation disk := (disk (known := known) (room := room)).

Lemma wp_vfs_write st mm h v data (Q : Z → server (accessor F D X) N → Prop) s :
  disk st mm s → mm !! h = Some v → writing v → Z.of_nat (length (vdata v) + length data) <= room → room < 2 ^ 32 →
  (∀ rt, let all := vdata v ++ data in
     disk st (<[h := mkView (vpath v) (Z.of_nat (length all)) all true]> mm) (set_root rt s) →
     Q (Z.of_nat (length data)) (set_root rt s)) →
  wp (vfs_write data (Some h)) Q s.
Proof.
  intros [Hin Hs] Hv Hw Hroom Hr HQ. unfold vfs_write. apply wp_bind, wp_zoom.
  unfold wp at 1, VirtualRoot.vroot_write. rewrite Hin. cbn [VirtualRoot.fs_write FatFSAccess].
  pose proof (FatStore.wp_write st mm (fs (root s)) h v data
    (λ r a', r = Z.of_nat (length data) ∧
      sees st (<[h := mkView (vpath v) (Z.of_nat (length (vdata v ++ data))) (vdata v ++ data) true]> mm) a')
    Hs Hv Hw Hroom ltac:(done)) as H.
  unfold wp in H. destruct (FatFiles.fatxwrite h data (fs (root s))) as [[r a']|]; [|done]. destruct H as [-> Ha].
  cbn [mbind outcome_mbind outcome_bind]. apply wp_ret. rewrite u32_id by (unfold word32; lia). rewrite Z.eqb_refl.
  apply HQ. by split.
Qed.

Context (cp dp fsm fsd h : Z) (p : path) (y0 : list Z) (st : gmap path (list Z)) (mm : gmap Z view).
Hypothesis cp_ok : cp ≠ 0.
Hypothesis dp_ok : dp ≠ 0.
Hypothesis fsm_ok : fsm ≠ 0.
Hypothesis fsd_ok : fsd ≠ 0.
Hypothesis distinct : dp ≠ cp.
Hypothesis h_free : mm !! h = None.
Hypothesis room_ok : room < 2 ^ 32.

(** The client has sent [data]. *)
Definition receiving (data : list Z) s : Prop := ∃ m d,
  msgs s !! fsm = Some m ∧ datas s !! fsd = Some d ∧
  (state m = FTPD_STOR ∧ datafs m = fsd ∧ datapcb m = dp ∧ datalistenpcb m ≠ cp ∧ roomy (mfifo m)) ∧
  (connected d = true ∧ msgfs d = fsm ∧ msgpcb d = cp ∧ vfs_file d = Some h) ∧
  (control cp fsm s ∧ dataline dp fsd s) ∧ said cp (mfifo m) (tcp s) = y0 ∧
  disk st (<[h := mkView p (Z.of_nat (length data)) data true]> mm) s.

Lemma write_chain_runs q : ∀ data tot (Q : Z → server (accessor F D X) N → Prop) s,
  disk st (<[h := mkView p (Z.of_nat (length data)) data true]> mm) s →
  Z.of_nat (length (data ++ concat q)) <= room →
  (∀ tot' rt,
     disk st (<[h := mkView p (Z.of_nat (length (data ++ concat q))) (data ++ concat q) true]> mm) (set_root rt s) →
     Q tot' (set_root rt s)) →
  wp (write_chain q (Some h) tot) Q s.
Proof.
  induction q as [|b q IH]; intros data tot Q s Hdisk Hroom HQ; cbn [write_chain concat] in *.
  - apply wp_ret. specialize (HQ tot (root s)). rewrite app_nil_r in HQ. by destruct s; apply HQ.
  - rewrite !length_app in Hroom. apply wp_bind.
    eapply wp_vfs_write; [exact Hdisk|apply lookup_insert_eq|by split|cbn [vdata]; lia|done|].
    cbn [vpath vdata]. rewrite insert_insert_eq. intros rt Hdisk'. rewrite Z.eqb_refl. cbn [negb].
    apply (IH (data ++ b)); [done|rewrite !length_app; lia|]. rewrite <- app_assoc. intros tot' rt' Hd'.
    destruct s as [ms ds ps rt0 de pt sp n]. norm. by apply HQ.
Qed.

Lemma receive_step data q s :
  receiving data s → Z.of_nat (length (data ++ concat q)) <= room →
  wp (handle (Received dp (Some q))) (λ _ s', receiving (data ++ concat q) s') s.
Proof.
  intros (m & d & Hm & Hd & Hms & (Hco & Hmfs & Hmp & Hh) & [Hctl (k & Hk & Ha & Hr & Hse)] & Hy & Hdisk) Hroom.
  unfold handle. apply wp_bind, wp_gets. rewrite Hk. cbn [from_option id]. rewrite Hr, Ha. unfold ftpd_datarecv.
  change (ERR_OK =? ERR_OK) with true. apply wp_bind, wp_bind, (wp_get_data _ d); [done|]. rewrite Hh.
  apply wp_bind, (write_chain_runs q data); [done..|]. intros tot rt Hdisk'. apply wp_modify, wp_ret.
  destruct s as [ms ds ps rt0 de pt sp n]. norm. exists m, d. norm. split; [done|]. split; [done|]. split; [done|].
  split; [done|]. split; [split; [done|by exists k]|]. split; [|done]. unfold said in *. by rewrite recved_delivered.
Qed.

(** The other callbacks do nothing for a transfer in this direction. *)
Lemma store_event data e s :
  e ∈ [Sent dp; Polled cp; Sent cp] → receiving data s → wp (handle e) (λ _ s', receiving data s') s.
Proof.
  rewrite !elem_of_cons, elem_of_nil. intros He Hs.
  pose proof Hs as (m & d & Hm & Hd & (Hst & Hdf & Hdp & Hlp & Hro) & (Hco & Hmfs & Hmp & Hh) & [Hcp Hdl] & Hy & Hdisk).
  destruct He as [-> | [-> | [-> | []]]].
  - unfold handle. apply wp_bind, wp_gets. destruct Hdl as (k & -> & Ha & _ & Hse). cbn [from_option id]. rewrite Hse, Ha.
    unfold ftpd_datasent. apply wp_bind, (wp_get_data _ d); [done|]. apply wp_bind, (wp_get_msg _ m); [by rewrite Hmfs|].
    rewrite Hst. by apply wp_bind, wp_ret, wp_ret.
  - unfold handle. apply wp_bind, wp_gets. destruct Hcp as (k & -> & Ha & _ & _ & Hpo). cbn [from_option id]. rewrite Hpo, Ha.
    unfold ftpd_msgpoll. destruct (Z.eqb_spec fsm 0); [done|]. apply wp_bind, (wp_get_msg _ m); [done|]. rewrite Hdf, Hst.
    destruct (Z.eqb_spec fsd 0); [done|]. cbn [negb transfer]. apply wp_bind, wp_bind, (wp_get_data _ d); [done|]. rewrite Hco.
    by apply wp_ret, wp_ret.
  - apply (control_event cp fsm cp_ok s m); [done|done|by rewrite Hst|apply Hro|done|]. intros f' n' Hmv.
    pose proof (moves_said _ _ _ _ _ Hmv) as [[Ho _] Hsaid]. destruct s as [ms ds ps rt de pt sp n]. norm.
    exists (set_mfifo f' m), d. norm. split; [apply lookup_insert_eq|]. split; [done|].
    split; [cbn; split; [done|]; split; [done|]; split; [done|]; split; [done|]; by eapply roomy_moves|].
    split; [done|]. split; [done|]. split; [cbn; by rewrite Hsaid|done].
Qed.

(** The client closes the data connection: the file is complete. *)
Lemma store_close data s :
  receiving data s →
  wp (handle (Received dp None)) (λ _ s', disk (<[p := data]> st) mm s' ∧ control cp fsm s' ∧
    ∃ m, msgs s' !! fsm = Some m ∧ state m = FTPD_IDLE ∧ said cp (mfifo m) (tcp s') = y0 ++ msg226 ++ newline) s.
Proof.
  intros (m & d & Hm & Hd & (Hst & Hdf & Hdp & Hlp & Hf & Hsp) & (Hco & Hmfs & Hmp & Hh) & [(k' & Hk' & Hctl) (k & Hk & Ha & Hr & Hse)] & Hy & Hdisk).
  unfold handle. apply wp_bind, wp_gets. rewrite Hk. cbn [from_option id]. rewrite Hr, Ha. unfold ftpd_datarecv.
  change (ERR_OK =? ERR_OK) with true. apply wp_bind, wp_bind, (wp_get_data _ d); [done|]. rewrite Hh.
  apply wp_bind. eapply wp_vfs_close; [exact Hdisk|apply lookup_insert_eq|]. cbn [vwrite vpath vdata].
  rewrite delete_insert_id by done. intros rt Hdisk'. destruct s as [ms ds ps rt0 de pt sp n]. norm.
  apply wp_bind, (wp_upd_data _ _ d); [done|]. norm.
  eapply (wp_finish dp fsd (set_vfile None d) m); [done|cbn; by rewrite Hmp|apply lookup_insert_eq|cbn; by rewrite Hmfs|done|].
  cbn [msgpcb msgfs set_vfile]. rewrite Hmp, Hmfs. intros f' ps' n' Hf' [_ Hps] Hn Hsaid. apply wp_ret. norm.
  split; [done|]. split; [exists k'; norm; by rewrite Hps|].
  exists (after_transfer f' m). norm. split; [apply lookup_insert_eq|]. split; [done|]. cbn [mfifo after_transfer].
  rewrite Hsaid, Hy. f_equal. change (Z.of_nat (length (msg226 ++ newline))) with 30.
  by destruct (Z.ltb_spec (sfifo_space (mfifo m)) 30); [lia|].
Qed.

(** The segments of the client, with whatever happens between them. *)
Inductive uploads : list Z → server (accessor F D X) N → server (accessor F D X) N → Prop :=
| upload_end s : uploads [] s s
| upload_tcp data s n' s' :
    (∀ q, delivered q n' = delivered q (tcp s)) → uploads data (set_tcp n' s) s' → uploads data s s'
| upload_event data e s r s1 s' :
    e ∈ [Sent dp; Polled cp; Sent cp] → handle e s = Ok (r, s1) → uploads data s1 s' → uploads data s s'
| upload_segment data q s r s1 s' :
    handle (Received dp (Some q)) s = Ok (r, s1) → uploads data s1 s' → uploads (concat q ++ data) s s'.

Lemma uploads_receiving data s s' : uploads data s s' → ∀ before,
  receiving before s → Z.of_nat (length (before ++ data)) <= room → receiving (before ++ data) s'.
Proof.
  induction 1 as [s|data s n' s' Hn _ IH|data e s r s1 s' He E _ IH|data q s r s1 s' E _ IH]; intros before Hs Hroom.
  - by rewrite app_nil_r.
  - apply IH; [|done]. destruct Hs as (m & d & ? & ? & ? & ? & ? & ? & ?). exists m, d. unfold said in *. norm. by rewrite Hn.
  - apply IH; [|done]. exact (wp_result _ _ _ _ _ (store_event before e s He Hs) E).
  - rewrite app_assoc in *. apply IH; [|done]. refine (wp_result _ _ _ _ _ (receive_step before q s Hs _) E).
    rewrite !length_app in *. lia.
Qed.

End store.

End FtpdRun.
