(* ===== verification/FtpdText.v ===== *)
(** * Texts of the FTP server

    What the formats of the replies and of the listings print, how a line of the
    client is taken apart, and which function of the table gets it. *)

From Stdlib Require Import String.
From stdpp Require Import gmap.
From S2P Require Import Prelude Strtol Format Strings Partition FatFiles VirtualRoot LwipTcp Sfifo Ftpd.

Module FtpdText.
Import LwipTcp Sfifo Ftpd.
Import VirtualRoot(ChildFS).
Import Format(text, va, VInt, VStr, vsprintf, vsprintf_loop, layout, number_layout_eq, SIGN, ZEROPAD).
Import Strtol(isalpha, at_).
Import Strings(cstr, toupper, strcmp).

Abbreviation length := List.length.

(** ** Formats *)

Definition prints (fmt : list Z) (args : list va) (out : list Z) : Prop :=
  ∀ fuel o st, (length fmt <= fuel)%nat → vsprintf_loop fuel fmt args o st = Ok (o ++ out, st).

Lemma prints_vsprintf fmt args out : prints fmt args out → vsprintf fmt args = Ok (out, []).
Proof. intros H. unfold vsprintf. by rewrite H. Qed.

Lemma prints_nil : prints [] [] [].
Proof. intros [|fuel] o st _; cbn; by rewrite app_nil_r. Qed.

Lemma prints_char c fmt args out : c ≠ 37 → prints fmt args out → prints (c :: fmt) args (c :: out).
Proof.
  intros Hc H fuel o st Hf. destruct fuel as [|fuel]; cbn [length] in Hf; [lia|]. cbn [vsprintf_loop].
  destruct (Z.eqb_spec c 37); [done|]. cbn [negb]. rewrite H by lia. by rewrite <- app_assoc.
Qed.

Lemma prints_text lit fmt args out : Forall (λ c, c ≠ 37) lit → prints fmt args out → prints (lit ++ fmt) args (lit ++ out).
Proof. induction 1 as [|c lit Hc _ IH]; [done|]. intros H. by apply prints_char, IH. Qed.

Lemma prints_s a fmt args out : prints fmt args out → prints (text "%s" ++ fmt) (VStr (Some a) :: args) (a ++ out).
Proof.
  intros H fuel o st Hf. change (length (text "%s" ++ fmt)) with (S (S (length fmt))) in Hf.
  destruct fuel as [|fuel]; [lia|].
  change (vsprintf_loop (S fuel) (text "%s" ++ fmt) (VStr (Some a) :: args) o st)
    with (vsprintf_loop fuel (drop 0 fmt) args (o ++ Format.conv_string 0 (-1) (-1) (Some a)) (st ++ [])).
  unfold Format.conv_string. change (Format.has 0 Format.LEFT) with false. change (-1 <? 0) with true. cbv iota.
  replace (Z.to_nat (-1 - Z.of_nat (length a))) with 0%nat by lia. cbn [replicate app drop].
  rewrite H by lia. by rewrite <- app_assoc, app_nil_r.
Qed.

(** A conversion of an integer: the directive sets the width and the flags. *)
Definition directive (dir : list Z) (width flags : Z) : Prop :=
  (1 <= length dir)%nat ∧
  ∀ fuel fmt z args o st,
    vsprintf_loop (S fuel) (dir ++ fmt) (VInt z :: args) o st =
      (x ← Format.number (s32 z) 10 width (-1) flags; vsprintf_loop fuel fmt args (o ++ x) (st ++ [])).

Lemma bind_assoc_o {A B C} (m : outcome A) (f : A → outcome B) (g : B → outcome C) :
  ((m ≫= f) ≫= g) = (m ≫= λ x, f x ≫= g).
Proof. by destruct m. Qed.

(** The loop computes up to the conversion. *)
Ltac directive :=
  split; [cbn; lia|]; intros fuel fmt z args o st;
  match goal with
  | |- _ = (Format.number _ _ ?w _ ?fl ≫= _) =>
      change (((x ← Format.number (s32 z) 10 w (-1) fl; Ok (x, args, fmt, @nil (Z * Z))) ≫=
        λ '(x, args, fmt, s), vsprintf_loop fuel fmt args (o ++ x) (st ++ s)) =
        (Format.number (s32 z) 10 w (-1) fl ≫= λ x, vsprintf_loop fuel fmt args (o ++ x) (st ++ [])))
  end; by rewrite bind_assoc_o.

Lemma directive_i : directive (text "%i") (-1) SIGN.
Proof. directive. Qed.
Lemma directive_ld : directive (text "%11ld") 11 SIGN.
Proof. directive. Qed.
Lemma directive_02i : directive (text "%02i") 2 (ZEROPAD .| SIGN).
Proof. directive. Qed.

Lemma prints_int dir width flags z fmt args out :
  directive dir width flags → prints fmt args out →
  prints (dir ++ fmt) (VInt z :: args) (layout (s32 z) 10 width (-1) flags ++ out).
Proof.
  intros [Hd Hl] H fuel o st Hf. rewrite length_app in Hf. destruct fuel as [|fuel]; [lia|]. rewrite Hl.
  rewrite number_layout_eq, bind_ok, H by lia. by rewrite <- app_assoc, app_nil_r.
Qed.

Lemma digits_length fuel large num base : (length (Format.digits_of fuel large num base) <= fuel)%nat.
Proof. revert num. induction fuel as [|fuel IH]; intros num; cbn; [lia|]. destruct (_ =? _); cbn; [lia|]. specialize (IH (u32 num / base)). lia. Qed.

Lemma layout_length z width flags : width <= 11 → (length (layout z 10 width (-1) flags) <= 46)%nat.
Proof.
  intros Hw. unfold layout. destruct (Format.sign_of z flags) as [sign n].
  set (head := _ ++ Format.prefix_of 10 flags). set (digs := rev _).
  assert (length head <= 3)%nat as Hh.
  { unfold head, Format.prefix_of. rewrite length_app. destruct sign, (Format.has flags Format.SPECIAL); cbn; lia. }
  assert (length digs <= 32)%nat as Hd.
  { unfold digs. rewrite length_rev. destruct (n =? 0); [cbn; lia|apply digits_length]. }
  replace (Z.to_nat (-1 - Z.of_nat (length digs))) with 0%nat by lia. cbn [replicate app].
  destruct (Format.has flags Format.LEFT), (Format.has flags ZEROPAD); rewrite !length_app, ?length_replicate; lia.
Qed.

(** ** Replies *)

Lemma prints_150recv a z :
  prints msg150recv [VStr (Some a); VInt z]
    (text "150 Opening BINARY mode data connection for " ++ a ++ text " (" ++
     layout (s32 z) 10 (-1) (-1) SIGN ++ text " bytes).").
Proof.
  change msg150recv with (text "150 Opening BINARY mode data connection for " ++ text "%s" ++ text " (" ++
    text "%i" ++ text " bytes)."  ++ []). replace (text " bytes).") with (text " bytes)." ++ []) at 2 by apply app_nil_r.
  apply prints_text; [by repeat constructor|]. apply prints_s, prints_text; [by repeat constructor|].
  apply prints_int; [apply directive_i|]. apply prints_text; [by repeat constructor|]. apply prints_nil.
Qed.

Lemma prints_150stor a :
  prints msg150stor [VStr (Some a)] (text "150 Opening BINARY mode data connection for " ++ a ++ text ".").
Proof.
  change msg150stor with (text "150 Opening BINARY mode data connection for " ++ text "%s" ++ text "." ++ []).
  replace (text ".") with (text "." ++ []) at 2 by apply app_nil_r.
  apply prints_text; [by repeat constructor|]. apply prints_s, prints_text; [by repeat constructor|]. apply prints_nil.
Qed.

(** ** Lines *)

Definition plain (s : list Z) : Prop := Forall (λ c, c ≠ 0 ∧ c ≠ 13 ∧ c ≠ 10) s.

Lemma cstr_id s : Forall (λ c, c ≠ 0) s → cstr s = s.
Proof. induction 1 as [|c s Hc _ IH]; [done|]. cbn [cstr]. destruct (Z.eqb_spec c 0); [done|]. by rewrite IH. Qed.

(** The line ends. *)
Definition line_ends (e : list Z) : Prop := Forall (λ c, c = 13 ∨ c = 10) e.

Lemma newline_ends : line_ends newline.
Proof. constructor; [by left|]. constructor; [by right|]. constructor. Qed.

Lemma drop_line_ends e r : line_ends e → drop_ends (reverse e ++ r) = drop_ends r.
Proof.
  intros He. induction He as [|c e Hc He IH]; [done|]. rewrite reverse_cons, <- app_assoc.
  etrans; [|exact IH]. clear -Hc He. induction e as [|d e IH] using rev_ind.
  - by destruct Hc as [-> | ->].
  - apply Forall_app in He as [He Hd]. apply Forall_cons_1 in Hd as [Hd _]. rewrite reverse_snoc. cbn.
    destruct Hd as [-> | ->]; by apply IH.
Qed.

(** A line loses its ends; nothing but ends is undefined. *)
Lemma trim_line s e : plain s → line_ends e → trim (cstr (s ++ e)) = match s with [] => UB | _ => Ok s end.
Proof.
  intros Hs He. rewrite cstr_id.
  2:{ apply Forall_app; split; [eapply Forall_impl; [|exact Hs]; by intros c []|].
      eapply Forall_impl; [|exact He]. by intros c [-> | ->]. }
  unfold trim. rewrite reverse_app, drop_line_ends by done.
  destruct s as [|c s _] using rev_ind; [done|]. apply Forall_app in Hs as [_ Hc].
  apply Forall_cons_1 in Hc as [(_ & Hcr & Hlf) _]. rewrite reverse_snoc. cbn [drop_ends].
  destruct (Z.eqb_spec c 13), (Z.eqb_spec c 10); [done..|]. cbn [orb]. rewrite reverse_cons, reverse_involutive.
  by destruct s.
Qed.

Lemma letters_word word rest :
  Forall (λ c, isalpha c = true) word → match rest with [] => True | c :: _ => isalpha c = false end →
  letters (word ++ rest) = toupper <$> word.
Proof.
  intros Hw Hr. induction Hw as [|c word Hc _ IH]; cbn [app letters fmap list_fmap].
  - destruct rest as [|c rest]; [done|]. cbn [letters]. by rewrite Hr.
  - rewrite Hc. f_equal. exact IH.
Qed.

(** The first letters of a line, up to four. *)
Definition first_word (word tail : list Z) : Prop :=
  Forall (λ c, isalpha c = true) word ∧ (length word <= 4)%nat ∧
  (length word = 4%nat ∨ match tail with [] => True | c :: _ => isalpha c = false end).

(** The first letters are the command; the argument is what follows the octet
    behind them. *)
Lemma line_parts word tail :
  first_word word tail →
  command_of (word ++ tail) = (toupper <$> word) ∧ argument_of (word ++ tail) = drop 1 tail.
Proof.
  intros (Hw & Hl & Ht).
  assert (command_of (word ++ tail) = toupper <$> word) as Hc.
  { unfold command_of. rewrite take_app_ge by done. apply letters_word; [done|].
    destruct Ht as [->|Ht]; [done|]. by destruct (4 - length word)%nat, tail as [|c t]. }
  split; [done|]. unfold argument_of. rewrite Hc, length_fmap, length_app.
  destruct (Nat.ltb_spec (length word + length tail) (length word + 1)) as [Hlt|Hlt].
  - destruct tail; [done|cbn in Hlt; lia].
  - rewrite drop_app_ge by lia. f_equal. lia.
Qed.

(** ** The table *)

Section table.
Context {A N : Type} `{!ChildFS A} `{!Tcp N}.
Implicit Types s : server A N.

(** The names of the table are different, so the first match is the entry. *)
Lemma run_entry i name f line pcb fsm :
  ftpd_commands (A := A) (N := N) !! i = Some (name, f) → command_of line = name →
  run_line line pcb fsm = f (argument_of line) pcb fsm.
Proof.
  intros Hi Hc. unfold run_line. rewrite Hc.
  do 25 (destruct i as [|i]; [cbn in Hi; injection Hi as <- <-; reflexivity|]). done.
Qed.

Lemma name_length i name f : ftpd_commands (A := A) (N := N) !! i = Some (name, f) → (1 <= length name <= 4)%nat.
Proof. intros Hi. do 25 (destruct i as [|i]; [cbn in Hi; injection Hi as <- <-; vm_compute; lia|]). done. Qed.

Lemma strcmp_eq a b : Forall (λ c, c ≠ 0) a → Forall (λ c, c ≠ 0) b → strcmp a b = 0 → a = b.
Proof.
  revert b. induction a as [|c a IH]; intros b Ha Hb; cbn [strcmp].
  - destruct b as [|d b]; [done|]. apply Forall_cons_1 in Hb as [Hd _]. cbn. lia.
  - apply Forall_cons_1 in Ha as [Hc Ha]. destruct b as [|d b]; cbn [at_ nth drop].
    + destruct (Z.eqb_spec c 0); [done|lia].
    + apply Forall_cons_1 in Hb as [_ Hb]. destruct (Z.eqb_spec c d) as [->|]; [|lia]. intros H. f_equal. by apply IH.
Qed.

Lemma letter_nonzero c : isalpha c = true → toupper c ≠ 0.
Proof.
  intros Hc. unfold toupper. destruct (Z.leb_spec 97 c), (Z.leb_spec c 122); cbn [andb]; try lia; intros ->;
    by vm_compute in Hc.
Qed.

(** No entry has the name: reply 502. *)
Lemma unknown_line line pcb fsm :
  Forall (λ c, c ≠ 0) (command_of line) → command_of line ∉ (ftpd_commands (A := A) (N := N)).*1 →
  run_line (A := A) (N := N) line pcb fsm = send_msg pcb fsm msg502 [].
Proof.
  intros Hnz Hno. unfold run_line. destruct (List.find _ _) as [e|] eqn:E; [|done]. exfalso. apply Hno.
  apply List.find_some in E as [Hin He%Z.eqb_eq]. apply list_elem_of_In in Hin.
  assert (Forall (Forall (λ c, c ≠ 0)) (ftpd_commands (A := A) (N := N)).*1) as Hall
    by (apply (bool_decide_unpack _); vm_compute; exact I).
  assert (e.1 ∈ (ftpd_commands (A := A) (N := N)).*1) as He1 by by apply list_elem_of_fmap_2.
  rewrite Forall_forall in Hall. rewrite <- (strcmp_eq e.1 (command_of line)); [done| |done|done].
  by apply Hall, list_elem_of_In.
Qed.

(** A segment with one line. *)
Lemma recv_line fsm pcb chain line ends s n' :
  concat chain = line ++ ends → plain line → line_ends ends →
  malloc (Z.of_nat (length (concat chain)) + 1) (tcp_recved pcb (u16 (Z.of_nat (length (concat chain)))) (tcp s)) = (true, n') →
  ftpd_msgrecv fsm pcb (Some chain) ERR_OK s =
    match line with [] => UB | _ => (run_line line pcb fsm ;; mret ERR_OK) (set_tcp n' s) end.
Proof.
  intros Hc Hp He Hm. unfold ftpd_msgrecv. change (ERR_OK =? ERR_OK) with true. cbv iota zeta.
  unfold call', call, on_tcp, modify. unfold mbind, ST_mbind, zoom, net. cbn [set_tcp tcp]. rewrite Hm, Hc, trim_line by done.
  by destruct s, line.
Qed.

End table.

(** ** The address of PORT *)

(** A number as [%i] prints it. *)
Definition decimal (a : Z) : list Z := layout a 10 (-1) (-1) SIGN.

Definition stops (tail : list Z) : Prop := tail = [] ∨ ∃ t, tail = 44 :: t.

Lemma convert_stops base cutoff cutlim s tail : ∀ acc any,
  stops tail → Strtol.convert base cutoff cutlim (s ++ tail) acc any = Strtol.convert base cutoff cutlim s acc any.
Proof.
  induction s as [|c s IH]; intros acc any Ht; [by destruct Ht as [->|[t ->]]|]. cbn [app Strtol.convert].
  destruct (Strtol.digit c); [|done]. destruct (_ <=? _); [done|]. destruct (_ || _); by apply IH.
Qed.

Lemma skip_digits_stops s tail : Forall (λ c, 48 <= c <= 57) s → stops tail → Strings.skip_digits 10 (s ++ tail) = tail.
Proof.
  intros Hs Ht. induction Hs as [|c s Hc _ IH]; [by destruct Ht as [->|[t ->]]|]. cbn [app Strings.skip_digits].
  unfold Strtol.digit, Strtol.isdigit. rewrite u8_id by (unfold byte; lia).
  destruct (Z.leb_spec 48 c), (Z.leb_spec c 57); try lia. cbn [andb]. by destruct (Z.leb_spec 10 (c - 48)); [lia|].
Qed.

(** What is to be known about the 256 numbers. *)
Definition octet_ok (a : Z) : bool :=
  let s := decimal a in
  forallb (λ c, (48 <=? c) && (c <=? 57)) s && (0 <? length s)%nat &&
  bool_decide (Strtol.convert 10 (Strtol.LONG_MAX / 10) (Strtol.LONG_MAX mod 10) s 0 0 = (a, 1)).

Lemma octets_ok a : byte a → octet_ok a = true.
Proof.
  intros Ha. assert (forallb octet_ok (seqZ 0 256) = true) as H by (vm_compute; reflexivity).
  rewrite forallb_forall in H. apply H. apply list_elem_of_In, elem_of_seqZ. unfold byte in Ha. lia.
Qed.

Lemma strtol_octet a tail : byte a → stops tail →
  Strtol.strtol (decimal a ++ tail) 10 = a ∧ strtol_end (decimal a ++ tail) 10 = tail ∧
  ∃ c t, decimal a ++ tail = c :: t ∧ c ≠ 44.
Proof.
  intros Ha Ht. pose proof (octets_ok a Ha) as Hok. unfold octet_ok in Hok.
  apply andb_true_iff in Hok as [[Hd Hl]%andb_true_iff Hc%bool_decide_eq_true]. apply Nat.ltb_lt in Hl.
  assert (Forall (λ c, 48 <= c <= 57) (decimal a)) as Hdig.
  { apply List.Forall_forall. intros c Hin. rewrite forallb_forall in Hd. specialize (Hd c Hin). lia. }
  destruct (decimal a) as [|c s] eqn:Ed; [cbn in Hl; lia|]. pose proof (Forall_inv Hdig) as Hc0. cbn in Hc0.
  pose proof (convert_stops 10 (Strtol.LONG_MAX / 10) (Strtol.LONG_MAX mod 10) (c :: s) tail 0 0 Ht) as Hconv. rewrite Hc in Hconv.
  pose proof (skip_digits_stops (c :: s) tail Hdig Ht) as Hskip.
  unfold Strtol.strtol, strtol_end. cbn [app] in *. rewrite Strtol.skip_digit by done. change (Strtol.at_ (c :: s ++ tail) 0) with c.
  destruct (Z.eqb_spec c 45), (Z.eqb_spec c 43); try lia. cbn [orb].
  change (Strtol.radix (c :: s ++ tail) 10) with (c :: s ++ tail, 10). cbv beta iota zeta. rewrite Hconv.
  change (1 <? 0) with false. change (negb (1 =? 0)) with true. cbv iota.
  split; [rewrite s32_id; unfold byte in Ha; lia|]. split; [done|]. exists c, (s ++ tail). split; [done|lia].
Qed.

Lemma port_step n a tail : byte a → stops tail → port_values (S n) (decimal a ++ tail) = a :: port_values n tail.
Proof.
  intros Ha Ht. destruct (strtol_octet a tail Ha Ht) as (Hv & He & c & t & Hct & Hc). cbn [port_values].
  rewrite Hct in *. cbn [skip_commas]. destruct (Z.eqb_spec c 44); [done|]. rewrite Hv, He, u32_id; [done|].
  unfold byte, word32 in *. lia.
Qed.

Lemma port_comma n s : port_values n (44 :: s) = port_values n s.
Proof. by destruct n. Qed.

Definition port_line (a b c d hi lo : Z) : list Z :=
  decimal a ++ [44] ++ decimal b ++ [44] ++ decimal c ++ [44] ++ decimal d ++ [44] ++ decimal hi ++ [44] ++ decimal lo.

Lemma port_line_values a b c d hi lo :
  byte a → byte b → byte c → byte d → byte hi → byte lo →
  port_values 6 (port_line a b c d hi lo) = [a; b; c; d; hi; lo].
Proof.
  intros. unfold port_line. replace (decimal lo) with (decimal lo ++ []) by apply app_nil_r. cbn [app].
  do 5 (rewrite port_step by (done || (right; by eexists)); rewrite port_comma).
  by rewrite port_step by (done || by left).
Qed.

(** ** Properties *)

(** C21: a segment that holds one line, of octets other than zero and line ends and
    with any run of line ends behind it, is handled by its first letters, up to four.
    When they are the name of a table entry, in any mix of cases, the function of the
    entry runs, and its argument is the text behind the octet that follows the letters;
    when no entry has that name, reply 502 is sent.  An empty line is undefined: the
    octet in front of the text is read. *)
Theorem ftp_line_runs_command {A N : Type} `{!ChildFS A} `{!Tcp N} (s : server A N) word tail ends chain fsm pcb n' :
  first_word word tail → plain (word ++ tail) → line_ends ends → concat chain = (word ++ tail) ++ ends →
  malloc (Z.of_nat (length (concat chain)) + 1) (tcp_recved pcb (u16 (Z.of_nat (length (concat chain)))) (tcp s)) = (true, n') →
  (∀ i name f, ftpd_commands (A := A) (N := N) !! i = Some (name, f) → toupper <$> word = name →
     ftpd_msgrecv fsm pcb (Some chain) ERR_OK s = (f (drop 1 tail) pcb fsm ;; mret ERR_OK) (set_tcp n' s)) ∧
  (word ++ tail ≠ [] → (toupper <$> word) ∉ (ftpd_commands (A := A) (N := N)).*1 →
     ftpd_msgrecv fsm pcb (Some chain) ERR_OK s = (send_msg pcb fsm msg502 [] ;; mret ERR_OK) (set_tcp n' s)) ∧
  (word ++ tail = [] → ftpd_msgrecv fsm pcb (Some chain) ERR_OK s = UB).
Proof.
  intros Hw Hp He Hch Hm. destruct (line_parts word tail Hw) as [Hc Ha].
  rewrite (recv_line fsm pcb chain (word ++ tail) ends s n') by done. split_and!.
  - intros i name f Hi Hname. pose proof (name_length i name f Hi) as Hl. rewrite <- Hname, length_fmap in Hl.
    rewrite (run_entry i name f (word ++ tail)), Ha by (rewrite ?Hc; done). by destruct word; [cbn in Hl; lia|].
  - intros Hne Hno. rewrite unknown_line; [by destruct (word ++ tail)| |by rewrite Hc].
    rewrite Hc. apply Forall_fmap. eapply Forall_impl; [|apply Hw]. apply letter_nonzero.
  - by intros ->.
Qed.

#[local] Existing Instance VirtualRoot.toy_child.

(** A server with one control connection, whose block is 1. *)
Definition toy_server : server unit wire :=
  mkServer {[ 1 := no_msg ]} ∅ ∅ (VirtualRoot.VirtualRootInit tt) [] 4096 4096 (mkWire ∅ ∅ ∅).

(** A known command with an argument, and an unknown one. *)
Lemma ftp_line_runs_command_witness :
  ftpd_msgrecv 1 5 (Some [text "Cwd e" ++ newline]) ERR_OK toy_server =
    (cmd_cwd (text "e") 5 1 ;; mret ERR_OK) toy_server ∧
  ftpd_msgrecv 1 5 (Some [text "PWDX" ++ newline]) ERR_OK toy_server =
    (send_msg 5 1 msg502 [] ;; mret ERR_OK) toy_server.
Proof.
  split.
  - apply (ftp_line_runs_command toy_server (text "Cwd") (text " e") newline [text "Cwd e" ++ newline] 1 5
      (mkWire ∅ ∅ ∅)) with (i := 4%nat) (name := text "CWD"); try reflexivity.
    + split; [by repeat constructor|]. split; [vm_compute; lia|by right].
    + by repeat constructor.
    + apply newline_ends.
  - apply (ftp_line_runs_command toy_server (text "PWDX") [] newline [text "PWDX" ++ newline] 1 5
      (mkWire ∅ ∅ ∅)); try reflexivity.
    + split; [by repeat constructor|]. split; [vm_compute; lia|by right].
    + by repeat constructor.
    + apply newline_ends.
    + discriminate.
    + apply (bool_decide_unpack _). vm_compute. exact I.
Defined.

(** C39: PORT takes the address it is given: for every address and port written as six
    decimal octets, the data connections of the session go to that address and to port
    [256 * hi + lo]. *)
Theorem ftp_port_sets_address {A N : Type} `{!ChildFS A} `{!Tcp N} (s : server A N) a b c d hi lo pcb fsm m :
  byte a → byte b → byte c → byte d → byte hi → byte lo → msgs s !! fsm = Some m →
  cmd_port (port_line a b c d hi lo) pcb fsm s =
    send_msg pcb fsm msg200 []
      (set_msgs (<[fsm := set_dataport (256 * hi + lo) (set_dataip [a; b; c; d] m)]> (msgs s)) s).
Proof.
  intros Ha Hb Hc Hd Hh Hl Hm. unfold cmd_port. rewrite port_line_values by done.
  destruct s as [ms ds ps rt de pt sp n]. cbn [msgs] in Hm.
  unfold upd_msg, get_msg, modify, mbind, ST_mbind, set_msgs. cbn [msgs datas pcbs root dir_ent port start_port tcp].
  rewrite Hm. cbn [msgs datas pcbs root dir_ent port start_port tcp]. rewrite lookup_insert_eq.
  cbn [msgs datas pcbs root dir_ent port start_port tcp]. rewrite insert_insert_eq.
  rewrite !u8_id by done. do 3 f_equal. unfold byte in *. rewrite Z.shiftl_mul_pow2 by lia.
  unfold u16. rewrite (Z.mod_small hi), (Z.mod_small lo) by lia.
  assert (Z.lor (hi * 2 ^ 8) lo = hi * 2 ^ 8 + lo) as ->.
  { rewrite <- Z.add_lor_land. assert (Z.land (hi * 2 ^ 8) lo = 0) as ->; [|lia].
    apply Z.bits_inj'. intros k Hk. rewrite Z.land_spec, Z.bits_0, <- Z.shiftl_mul_pow2, Z.shiftl_spec by lia.
    destruct (decide (k < 8)); [by rewrite Z.testbit_neg_r by lia|].
    rewrite (testbit_above lo 8 k) by lia. apply andb_false_r. }
  rewrite Z.mod_small by lia. f_equal. lia.
Qed.

Lemma ftp_port_sets_address_witness :
  cmd_port (text "10,0,0,1,4,1") 5 1 toy_server =
    send_msg 5 1 msg200 [] (set_msgs {[ 1 := set_dataport 1025 (set_dataip [10; 0; 0; 1] no_msg) ]} toy_server).
Proof.
  rewrite <- (insert_singleton_eq (M := gmap Z) 1 (set_dataport 1025 (set_dataip [10; 0; 0; 1] no_msg)) no_msg).
  apply (ftp_port_sets_address toy_server 10 0 0 1 4 1 5 1 no_msg); unfold byte; lia || reflexivity.
Defined.

End FtpdText.
