(* ===== verification/FtpdSession.v ===== *)
(** * Sessions of the FTP server

    From the line of the client to the end of the transfer: RETR and STOR. *)

From Stdlib Require Import String.
From stdpp Require Import gmap.
From S2P Require Import Prelude Strtol Format Strings Partition FatFiles VirtualRoot FatStore LwipTcp Sfifo Ftpd FtpdRun FtpdText.

Module FtpdSession.
Import LwipTcp Sfifo Ftpd FtpdRun FtpdText.
Import VirtualRoot(vroot, ChildFS, inside, fs, cwd, FatFSAccess, combinePath).
Import FatFiles(FatFs, FatFsLaws, accessor).
Import FatStore(FatFsFiles, view, mkView, vpos, vdata, vpath, vwrite, sees, writing, path).
Import Format(text, va, VInt, VStr, layout, SIGN).

#[local] Existing Instance FatFSAccess.
#[local] Existing Instances FatStore.ram_fs FatStore.ram_laws FatStore.ram_files.

Abbreviation length := List.length.

(** ** Resources *)

Section resources.
Context {A N : Type} `{!ChildFS A} `{!Tcp N} `{!TcpLaws N}.
Implicit Types s : server A N.

Definition quiet (n n' : N) : Prop := (∀ q, delivered q n' = delivered q n) ∧ keeps n n'.

Lemma quiet_trans n1 n2 n3 : quiet n1 n2 → quiet n2 n3 → quiet n1 n3.
Proof. intros [H1 [U1 P1]] [H2 [U2 P2]]. split; [intros q; by rewrite H2|split; [congruence|auto]]. Qed.

Lemma wp_malloc k (Q : bool → server A N → Prop) s :
  plenty (tcp s) → (∀ n', quiet (tcp s) n' → Q true (set_tcp n' s)) → wp (call (malloc k)) Q s.
Proof.
  intros Hp HQ. apply wp_zoom. unfold wp, net. pose proof (malloc_served k (tcp s) Hp) as Hb.
  pose proof (λ q, malloc_delivered q k (tcp s)) as Hd. pose proof (malloc_keeps k (tcp s)) as Hk.
  destruct (malloc k (tcp s)) as [b n']. cbn in *. subst b. by apply HQ.
Qed.

Lemma wp_handle_block k (Q : unit → server A N → Prop) s :
  plenty (tcp s) → (∀ n', quiet (tcp s) n' → Q tt (set_tcp n' s)) → wp (handle_block k) Q s.
Proof. intros Hp HQ. apply wp_bind, wp_malloc; [done|]. intros n' Hn. apply wp_assert; [done|]. by apply HQ. Qed.

Definition empty_fifo : sfifo_t := mkFifo (Some (replicate 2048 0)) 2048 0 0.

Lemma empty_ok : fifo_ok empty_fifo.
Proof. exists 11, (replicate 2048 0). split; [lia|]. split; [done|]. split; [done|]. cbn. lia. Qed.

Lemma wp_sfifo_init (Q : Z * sfifo_t → server A N → Prop) s :
  plenty (tcp s) → (∀ n', quiet (tcp s) n' → Q (0, empty_fifo) (set_tcp n' s)) →
  wp (on_tcp (sfifo_init FtpdBufferSize)) Q s.
Proof.
  intros Hp HQ. apply wp_zoom. unfold sfifo_init. change (SFIFO_MAX_BUFFER_SIZE <? FtpdBufferSize) with false. cbv iota.
  change (power_above 30 1 FtpdBufferSize) with (Ok 2048). apply wp_bind. unfold wp at 1, liftO. apply wp_bind.
  unfold wp at 1, net. pose proof (malloc_served 2048 (tcp s) Hp) as Hb.
  pose proof (λ q, malloc_delivered q 2048 (tcp s)) as Hd. pose proof (malloc_keeps 2048 (tcp s)) as Hk.
  destruct (malloc 2048 (tcp s)) as [b n']. cbn [fst snd] in *. subst b. apply wp_ret. by apply HQ.
Qed.

Definition fresh_data (fsm cp : Z) : ftpd_datastate := mkData false None false None empty_fifo cp fsm.
Definition opening_pcb (fsd : Z) : tcp_pcb := mkPcb fsd None None None None None (Some Data).

(** An active data connection. *)
Lemma wp_open_data cp fsm m (Q : Z → server A N → Prop) s :
  msgs s !! fsm = Some m → passive m = false → plenty (tcp s) →
  (∀ fsd dp n', fsd ≠ 0 → datas s !! fsd = None → dp ≠ 0 → dp ∉ in_use (tcp s) → delivered dp n' = [] →
     (∀ q, q ≠ dp → delivered q n' = delivered q (tcp s)) →
     Q 0 (mkServer (<[fsm := set_datapcb dp (set_datafs fsd m)]> (msgs s)) (<[fsd := fresh_data fsm cp]> (datas s))
            (<[dp := opening_pcb fsd]> (pcbs s)) (root s) (dir_ent s) (port s) (start_port s) n')) →
  wp (open_dataconnection cp fsm) Q s.
Proof.
  intros Hm Hpas Hp HQ. unfold open_dataconnection. apply wp_bind, (wp_get_msg _ m); [done|]. rewrite Hpas.
  apply wp_bind. unfold new_data. apply wp_bind, wp_malloc; [done|]. intros n1 Hn1.
  destruct s as [ms ds ps rt de pt sp n]. norm. unfold wp at 1, add_data. norm.
  pose proof (is_fresh (({[0]} : gset Z) ∪ dom ds)) as Hfresh. set (fsd := fresh _) in *. clearbody fsd.
  rewrite not_elem_of_union, not_elem_of_singleton, not_elem_of_dom in Hfresh. destruct Hfresh as [Hf0 Hfd].
  apply wp_bind, (wp_upd_msg _ _ m); [done|]. norm. destruct (Z.eqb_spec fsd 0); [done|].
  apply wp_bind. eapply wp_upd_data; [apply lookup_insert_eq|]. norm. rewrite insert_insert_eq.
  apply wp_bind, wp_sfifo_init; [by apply Hn1|]. intros n2 Hn2. norm.
  apply wp_bind. eapply wp_upd_data; [apply lookup_insert_eq|]. norm. rewrite insert_insert_eq. cbn [Z.eqb negb].
  apply wp_bind. unfold new_pcb. apply wp_bind, wp_zoom. unfold wp at 1, net. cbn [tcp].
  pose proof (quiet_trans _ _ _ Hn1 Hn2) as [Hdel [Huse Hpl]].
  pose proof (new_served n2 (Hpl Hp)) as Hnz. pose proof (new_fresh n2) as Hnew. pose proof (λ q, new_delivered q n2) as Hnd.
  destruct (tcp_new n2) as [dp n3]. cbn [fst snd] in *. norm. destruct (Z.eqb_spec dp 0); [done|].
  apply wp_bind, wp_modify, wp_ret. apply wp_bind. eapply wp_upd_msg; [apply lookup_insert_eq|]. norm. rewrite insert_insert_eq.
  destruct (Z.eqb_spec dp 0); [done|]. unfold tcp_arg, set_on_connected.
  do 2 (apply wp_bind, wp_upd_pcb; [done|]; intros ? ->; rewrite lookup_insert_eq, insert_insert_eq).
  apply wp_bind. eapply wp_get_msg; [apply lookup_insert_eq|]. apply wp_bind, wp_modify, wp_ret. norm.
  apply HQ; try done; [by rewrite <- Huse| |].
  - rewrite connect_delivered, Hnd. by rewrite bool_decide_eq_true_2.
  - intros q Hq. rewrite connect_delivered, Hnd, bool_decide_eq_false_2 by done. apply Hdel.
Qed.

(** ** Sessions *)

(** A control connection that has no data connection, with room for replies. *)
Definition session (cp fsm : Z) (m : ftpd_msgstate) s : Prop :=
  (cp ≠ 0 ∧ fsm ≠ 0 ∧ control cp fsm s ∧ msgs s !! fsm = Some m) ∧
  (passive m = false ∧ datalistenpcb m ≠ cp ∧ fifo_ok (mfifo m) ∧ 1100 <= sfifo_space (mfifo m)) ∧
  (plenty (tcp s) ∧ cp ∈ in_use (tcp s)).

Lemma session_tcp cp fsm m s n' : session cp fsm m s → quiet (tcp s) n' → session cp fsm m (set_tcp n' s).
Proof.
  intros (H1 & H2 & Hpl & Huse) [_ [Hu Hp]]. split; [done|]. split; [done|]. norm. rewrite Hu. auto.
Qed.

(** The client was told, and the data connection is to come. *)
Definition awaiting (cp dp fsm fsd : Z) (d : ftpd_datastate) (stt : ftpd_state_e) (y0 : list Z) s : Prop := ∃ m,
  msgs s !! fsm = Some m ∧ datas s !! fsd = Some d ∧
  (state m = stt ∧ datafs m = fsd ∧ datapcb m = dp ∧ datalistenpcb m ≠ cp ∧ roomy (mfifo m)) ∧
  (control cp fsm s ∧ pcbs s !! dp = Some (opening_pcb fsd)) ∧
  delivered dp (tcp s) = [] ∧ said cp (mfifo m) (tcp s) = y0.

Lemma awaiting_tcp cp dp fsm fsd d stt y0 s n' :
  (∀ q, delivered q n' = delivered q (tcp s)) →
  awaiting cp dp fsm fsd d stt y0 s → awaiting cp dp fsm fsd d stt y0 (set_tcp n' s).
Proof. intros Hn (m & ? & ? & ? & ? & ? & ?). exists m. unfold said in *. norm. by rewrite !Hn. Qed.

(** The data connection is there. *)
Lemma wp_connected cp dp fsm fsd d stt y0 (Q : Z → server A N → Prop) s :
  dp ≠ 0 → dp ≠ cp → msgfs d = fsm → awaiting cp dp fsm fsd d stt y0 s →
  (∀ m ps', (state m = stt ∧ datafs m = fsd ∧ datapcb m = dp ∧ datalistenpcb m ≠ cp ∧ roomy (mfifo m)) →
     said cp (mfifo m) (tcp s) = y0 →
     let s' := mkServer (<[fsm := m]> (msgs s)) (<[fsd := set_connected true d]> (datas s)) ps' (root s) (dir_ent s) (port s) (start_port s) (tcp s) in
     control cp fsm s' → dataline dp fsd s' → wp (transfer stt fsd dp) (λ _, Q ERR_OK) s') →
  wp (handle (Connected dp)) Q s.
Proof.
  intros Hdp Hne Hmfs (m & Hm & Hd & Hst & [(k & Hk & Hhooks) Hdl] & Hdel & Hsaid) HQ. unfold handle. apply wp_bind, wp_gets. rewrite Hdl.
  cbn [from_option id on_connected opening_pcb callback_arg]. destruct s as [ms ds ps rt de pt sp n]. norm.
  unfold ftpd_dataconnected. apply wp_bind. eapply wp_get_data; [exact Hd|]. rewrite Hmfs.
  apply wp_bind, (wp_upd_msg _ _ m); [done|]. norm. apply wp_bind. eapply wp_upd_data; [exact Hd|]. norm.
  replace (set_datapcb dp m) with m by (destruct m, Hst as (_ & _ & Hx & _); cbn in *; by subst).
  unfold tcp_recv, tcp_sent, tcp_err. do 3 (apply wp_bind, wp_upd_pcb; [done|]; intros ? ->; rewrite ?lookup_insert_eq, ?insert_insert_eq).
  rewrite Hdl. cbn [from_option id opening_pcb callback_arg recv sent errf accept poll on_connected].
  apply wp_bind. eapply wp_get_msg; [apply lookup_insert_eq|]. pose proof Hst as (-> & _). apply wp_bind.
  eapply wp_mono; [apply HQ; [exact Hst|done| |]|].
  - exists k. norm. by rewrite lookup_insert_ne.
  - eexists. norm. split; [apply lookup_insert_eq|done].
  - intros ? s' H'. by apply wp_ret.
Qed.

(** A line reaches its command. *)
Lemma wp_line i name f tail cp fsm m chain (Q : Z → server A N → Prop) s :
  session cp fsm m s → ftpd_commands (A := A) (N := N) !! i = Some (name, f) →
  concat chain = name ++ tail ++ newline →
  match tail with [] => True | c :: arg => c = 32 ∧ plain arg end → plain name →
  Forall (λ c, Strtol.isalpha c = true) name →
  (Strings.toupper <$> name) = name →
  (∀ n', quiet (tcp s) n' → wp (f (drop 1 tail) cp fsm) (λ _, Q ERR_OK) (set_tcp n' s)) →
  wp (handle (Received cp (Some chain))) Q s.
Proof.
  intros ((Hcp & Hfsm & (k & Hk & Ha & Hr & _) & Hm) & _ & (Hpl & Huse)) Hi Hch Htail Hpn Hal Hup HQ.
  unfold handle. apply wp_bind, wp_gets. rewrite Hk. cbn [from_option id]. rewrite Hr, Ha.
  pose proof (name_length i name f Hi) as Hnl.
  assert (plain (name ++ tail)) as Hpl'.
  { apply Forall_app. split; [done|]. destruct tail; [constructor|]. destruct Htail as [-> ?]. by constructor. }
  set (n1 := tcp_recved cp (u16 (Z.of_nat (length (concat chain)))) (tcp s)).
  assert (quiet (tcp s) n1) as Hq1 by (split; [intros q; apply recved_delivered|apply recved_keeps]).
  pose proof (malloc_served (Z.of_nat (length (concat chain)) + 1) n1 ltac:(by apply Hq1)) as Hb.
  pose proof (λ q, malloc_delivered q (Z.of_nat (length (concat chain)) + 1) n1) as Hd.
  pose proof (malloc_keeps (Z.of_nat (length (concat chain)) + 1) n1) as Hkp.
  destruct (malloc (Z.of_nat (length (concat chain)) + 1) n1) as [b n2] eqn:E. cbn [fst snd] in *. subst b.
  unfold wp. rewrite (recv_line fsm cp chain (name ++ tail) newline s n2); [|by rewrite <- app_assoc|done|apply newline_ends|exact E].
  destruct (line_parts name tail) as [Hc Hargs].
  { split; [done|]. split; [lia|right]. by destruct tail; [|destruct Htail as [-> _]]. }
  rewrite (run_entry i name f) by (rewrite ?Hc; done). rewrite Hargs.
  destruct (name ++ tail) eqn:Ent; [by destruct name; [cbn in Hnl; lia|]|].
  change (wp (f (drop 1 tail) cp fsm ;; mret ERR_OK) Q (set_tcp n2 s)). apply wp_bind.
  eapply wp_mono; [apply HQ, (quiet_trans _ n1); done|]. intros ? s' H'. by apply wp_ret.
Qed.

End resources.

(** ** Opening a file *)

(** A name that a line can carry and that the replies have room for. *)
Definition name_fits (n : list Z) : Prop := plain n ∧ n ≠ [] ∧ (length n <= 800)%nat.

Section transfers.
Context {F D X N : Type} `{!FatFs F D X} `{!FatFsLaws F D X} {known : path → Prop} {room : Z}
  `{!FatFsFiles F D X known room} `{!Tcp N} `{!TcpLaws N}.
Implicit Types s : server (accessor F D X) N.

Abbreviation disk := (disk (known := known) (room := room)).

Lemma wp_stat st mm p c name (Q : Z * Z → server (accessor F D X) N → Prop) s :
  disk st mm s → combinePath (root s) name = Ok p → known p → st !! p = Some c →
  (∀ attr, VFS_ISREG attr = true → Q (Z.of_nat (length c), attr) s) → wp (stat_or_junk name) Q s.
Proof.
  intros [Hin Hs] Hc Hk Hp HQ. unfold stat_or_junk. apply wp_bind. unfold wp at 1, vfs_stat, VirtualRoot.vroot_stat.
  rewrite Hin, Hc. cbn [mbind outcome_mbind outcome_bind VirtualRoot.fs_stat FatFSAccess].
  destruct (FatStore.stat_regular st mm _ p c Hs Hk Hp) as (Hsz & Hat & Hn & Hname). unfold Strtol.at_, FatFiles.FATX_FILENAME_MAX.
  destruct (Z.eqb_spec (nth 0 (FatFiles.name (FatFiles.fatxstat (fs (root s)) p)) 0) 0); [done|].
  destruct (Z.eqb_spec (FatFiles.nameLength (FatFiles.fatxstat (fs (root s)) p)) 0); [lia|].
  destruct (Z.ltb_spec 42 (FatFiles.nameLength (FatFiles.fatxstat (fs (root s)) p))); [lia|]. cbn [orb].
  apply wp_ret. rewrite Hsz. apply HQ. unfold VFS_ISREG. by rewrite Hat.
Qed.

Lemma wp_vfs_open st st' mm p name mode flags v (Q : option Z → server (accessor F D X) N → Prop) s :
  disk st mm s → combinePath (root s) name = Ok p → plenty (tcp s) → open_flags mode 0 = flags →
  (let r := FatFiles.fatxopen p flags (fs (root s)) in
   1 <= r.1 ∧ mm !! r.1 = None ∧ sees (known := known) (room := room) st' (<[r.1 := v]> mm) r.2) →
  (∀ h n' rt, mm !! h = None → quiet (tcp s) n' →
     disk st' (<[h := v]> mm) (set_root rt (set_tcp n' s)) → Q (Some h) (set_root rt (set_tcp n' s))) →
  wp (vfs_open name mode) Q s.
Proof.
  intros [Hin Hs] Hc Hp <- Ho HQ. unfold vfs_open. apply wp_bind, wp_handle_block; [done|]. intros n' Hn.
  apply wp_bind, wp_zoom. unfold wp at 1, VirtualRoot.vroot_open. destruct s as [ms ds ps rt de pt sp n]. norm.
  rewrite Hc, bind_ok, Hin. cbn [VirtualRoot.fs_open FatFSAccess].
  destruct (FatFiles.fatxopen p (open_flags mode 0) (fs rt)) as [h a']. cbn [fst snd] in Ho. destruct Ho as (Hh & Hm & Hsees).
  apply wp_ret. destruct (Z.eqb_spec h 0); [lia|]. apply HQ; [done|done|]. by split.
Qed.

Lemma wp_begin cp fsm m h stt st mm msg args line stores s :
  session cp fsm m s → disk st mm s →
  Format.vsprintf msg args = Ok (line, stores) → (length line < 1000)%nat →
  wp (send_msg cp fsm msg args ;; begin_transfer cp fsm h stt)
    (λ _ s1, ∃ dp fsd, dp ≠ 0 ∧ fsd ≠ 0 ∧ dp ≠ cp ∧
       awaiting cp dp fsm fsd (set_vfile (Some h) (fresh_data fsm cp)) stt (said cp (mfifo m) (tcp s) ++ line ++ newline) s1 ∧ disk st mm s1) s.
Proof.
  intros ((Hcp & Hfsm & (k & Hk & Hhooks) & Hm) & (Hpas & Hlp & Hf & Hsp) & (Hpl & Huse)) Hdisk Hv Hl.
  apply wp_bind. eapply wp_send_msg; [done|done|done|done|lia|]. intros f' n' Hf' [Ho [Hu Hp]] Hsp' Hsaid.
  rewrite length_app in *. cbn [length newline] in *.
  destruct (Z.ltb_spec (sfifo_space (mfifo m)) (Z.of_nat (length line + 2))); [lia|].
  unfold begin_transfer. apply wp_bind. eapply wp_open_data; [apply lookup_insert_eq|done|by apply Hp|].
  destruct s as [ms ds ps rt de pt sp n]. norm.
  intros fsd dp n2 Hfsd Hdn Hdp Hnu Hdd Hdo. cbn [Z.eqb negb]. apply wp_bind.
  assert (dp ≠ cp) as Hne by (intros ->; apply Hnu; by rewrite Hu).
  eapply wp_get_msg; [apply lookup_insert_eq|]. cbn [datafs set_datapcb set_datafs].
  apply wp_bind. eapply wp_upd_data; [apply lookup_insert_eq|]. eapply wp_upd_msg; [apply lookup_insert_eq|].
  norm. rewrite !insert_insert_eq. exists dp, fsd. split; [done|]. split; [done|]. split; [done|]. split; [|done].
  eexists. norm. split; [apply lookup_insert_eq|]. split; [apply lookup_insert_eq|]. split; [|split].
  - split; [done|]. split; [done|]. split; [done|]. split; [done|]. split; [done|]. cbn. lia.
  - split; [|apply lookup_insert_eq]. exists k. norm. by rewrite lookup_insert_ne.
  - split; [done|]. cbn [mfifo set_state set_datapcb set_datafs set_mfifo]. unfold said in *. by rewrite Hdo.
Qed.

(** ** RETR *)

Definition retr_reply (name c : list Z) : list Z :=
  text "150 Opening BINARY mode data connection for " ++ name ++ text " (" ++
  layout (s32 (Z.of_nat (length c))) 10 (-1) (-1) SIGN ++ text " bytes).".

Lemma session_root cp fsm m s rt : session cp fsm m s → session cp fsm m (set_root rt s).
Proof. done. Qed.

Lemma retr_begins cp fsm m name p c chain st mm s :
  session cp fsm m s → disk st mm s → (base.size mm < 2)%nat → name_fits name →
  combinePath (root s) name = Ok p → known p → st !! p = Some c →
  concat chain = text "RETR" ++ 32 :: name ++ newline →
  wp (handle (Received cp (Some chain))) (λ _ s1, ∃ dp fsd h, dp ≠ 0 ∧ fsd ≠ 0 ∧ dp ≠ cp ∧ mm !! h = None ∧
    awaiting cp dp fsm fsd (set_vfile (Some h) (fresh_data fsm cp)) FTPD_RETR (said cp (mfifo m) (tcp s) ++ retr_reply name c ++ newline) s1 ∧
    disk st (<[h := mkView p 0 c false]> mm) s1) s.
Proof.
  intros Hses Hdisk Hsz (Hpn & Hne & Hlen) Hc Hk Hp Hch.
  eapply (wp_line 10 _ _ (32 :: name)); [done|reflexivity|done|done|by repeat constructor|by repeat constructor|done|].
  intros n1 Hn1. pose proof (session_tcp _ _ _ _ _ Hses Hn1) as Hses1. change (drop 1 (32 :: name)) with name. unfold cmd_retr.
  apply wp_bind, (wp_stat st mm p c); [done..|]. intros attr ->. cbn [negb]. apply wp_bind.
  eapply (wp_vfs_open st st mm p name (text "rb") 1 (mkView p 0 c false)); [done|done|by apply Hses1|done| |].
  { apply FatStore.fatxopen_read; try done. apply Hdisk. }
  intros h n2 rt Hh Hn2 Hdisk2. pose proof (session_root _ _ _ _ rt (session_tcp _ _ _ _ _ Hses1 Hn2)) as Hses2.
  pose proof (quiet_trans _ _ _ Hn1 Hn2) as [Hdel _].
  eapply wp_mono.
  - eapply (wp_begin cp fsm m h FTPD_RETR); [done|exact Hdisk2|apply prints_vsprintf, prints_150recv|].
    pose proof (layout_length (s32 (Z.of_nat (length c))) (-1) SIGN ltac:(lia)). rewrite !length_app.
    change (length (text "150 Opening BINARY mode data connection for ")) with 44%nat.
    change (length (text " (")) with 2%nat. change (length (text " bytes).")) with 8%nat. lia.
  - intros ? s1 (dp & fsd & Hdp & Hfsd & Hdc & Haw & Hd1). exists dp, fsd, h. split; [done|]. split; [done|]. split; [done|].
    split; [done|]. split; [|done]. unfold said in *. norm. by rewrite Hdel in Haw.
Qed.

Lemma retr_connected cp dp fsm fsd h p c y0 st mm s :
  cp ≠ 0 → dp ≠ 0 → fsm ≠ 0 → fsd ≠ 0 → dp ≠ cp → mm !! h = None →
  awaiting cp dp fsm fsd (set_vfile (Some h) (fresh_data fsm cp)) FTPD_RETR y0 s → disk st (<[h := mkView p 0 c false]> mm) s →
  wp (handle (Connected dp)) (λ _, streams cp dp fsm c y0 (volume (known := known) (room := room) st mm)) s.
Proof.
  intros Hcp Hdp Hfsm Hfsd Hne Hh Haw Hdisk. pose proof Haw as (_ & _ & _ & _ & _ & Hdel & _).
  eapply wp_connected; [done|done| |exact Haw|]; [done|]. intros m ps' Hst Hsaid s' Hctl Hdl. cbn [transfer].
  pose proof (send_file_step cp dp fsm fsd h p c y0 st mm Hcp Hdp Hne Hh) as Hstep.
  eapply wp_mono; [apply Hstep|].
  - eexists m, _. split; [apply lookup_insert_eq|]. split; [apply lookup_insert_eq|]. split; [done|].
    split; [split; [done|]; split; [done|]; split; [done|]; split; [apply empty_ok|done]|]. split; [done|]. split; [done|].
    cbn. rewrite Hdel. split; [done|]. split; [apply prefix_nil|done].
  - intros ? s2 (Hs2 & _). by apply (sending_streams cp dp fsm fsd FTPD_RETR c y0 (from_file h p c st mm));
      try apply from_file_prefix.
Qed.

(** ** STOR *)

Definition stor_reply (name : list Z) : list Z := text "150 Opening BINARY mode data connection for " ++ name ++ text ".".

Lemma stor_begins cp fsm m name p chain st mm s :
  session cp fsm m s → disk st mm s → (base.size mm < 2)%nat → name_fits name →
  combinePath (root s) name = Ok p → known p → map_Forall (λ _ v, vpath v ≠ p) mm →
  concat chain = text "STOR" ++ 32 :: name ++ newline →
  wp (handle (Received cp (Some chain))) (λ _ s1, ∃ dp fsd h, dp ≠ 0 ∧ fsd ≠ 0 ∧ dp ≠ cp ∧ mm !! h = None ∧
    awaiting cp dp fsm fsd (set_vfile (Some h) (fresh_data fsm cp)) FTPD_STOR (said cp (mfifo m) (tcp s) ++ stor_reply name ++ newline) s1 ∧
    disk (delete p st) (<[h := mkView p 0 [] true]> mm) s1) s.
Proof.
  intros Hses Hdisk Hsz (Hpn & Hne & Hlen) Hc Hk Hp Hch.
  eapply (wp_line 11 _ _ (32 :: name)); [done|reflexivity|done|done|by repeat constructor|by repeat constructor|done|].
  intros n1 Hn1. pose proof (session_tcp _ _ _ _ _ Hses Hn1) as Hses1. change (drop 1 (32 :: name)) with name. unfold cmd_stor. apply wp_bind.
  eapply (wp_vfs_open st (delete p st) mm p name (text "wb") 10 (mkView p 0 [] true)); [done|done|by apply Hses1|done| |].
  { apply FatStore.fatxopen_create; try done. apply Hdisk. }
  intros h n2 rt Hh Hn2 Hdisk2. pose proof (session_root _ _ _ _ rt (session_tcp _ _ _ _ _ Hses1 Hn2)) as Hses2.
  pose proof (quiet_trans _ _ _ Hn1 Hn2) as [Hdel _].
  eapply wp_mono.
  - eapply (wp_begin cp fsm m h FTPD_STOR); [done|exact Hdisk2|apply prints_vsprintf, prints_150stor|].
    rewrite !length_app. change (length (text "150 Opening BINARY mode data connection for ")) with 44%nat.
    change (length (text ".")) with 1%nat. lia.
  - intros ? s1 (dp & fsd & Hdp & Hfsd & Hdc & Haw & Hd1). exists dp, fsd, h. split; [done|]. split; [done|]. split; [done|].
    split; [done|]. split; [|done]. unfold said in *. norm. by rewrite Hdel in Haw.
Qed.

Lemma stor_connected cp dp fsm fsd h p y0 st mm s :
  dp ≠ 0 → dp ≠ cp → awaiting cp dp fsm fsd (set_vfile (Some h) (fresh_data fsm cp)) FTPD_STOR y0 s → disk st (<[h := mkView p 0 [] true]> mm) s →
  wp (handle (Connected dp)) (λ _, receiving (known := known) (room := room) cp dp fsm fsd h p y0 st mm []) s.
Proof.
  intros Hdp Hne Haw Hdisk. eapply wp_connected; [done|done| |exact Haw|]; [done|]. intros m ps' Hst Hsaid s' Hctl Hdl. cbn [transfer].
  apply wp_ret. eexists m, _. split; [apply lookup_insert_eq|]. split; [apply lookup_insert_eq|]. done.
Qed.

End transfers.

(** ** Properties *)

(** C5: RETR sends the file.  For every file of the volume, after the line of the
    client and the connection of the data port, whatever TCP accepts and in whichever
    order it calls the callbacks: no callback is undefined, the octets accepted on the
    data connection are a prefix of the file, and when the session is idle again they
    are the whole file, the client was told 150 and 226, and the file is closed.  It
    is idle after as many calls with an open window as the file has octets, and two. *)
Theorem ftp_retr_sends_file {F D X N : Type} `{!FatFs F D X} `{!FatFsLaws F D X} {known : path → Prop} {room : Z}
    `{!FatFsFiles F D X known room} `{!Tcp N} `{!TcpLaws N} (s : server (accessor F D X) N)
    cp fsm m name p c chain st mm :
  session cp fsm m s → disk (known := known) (room := room) st mm s → (base.size mm < 2)%nat → name_fits name →
  combinePath (root s) name = Ok p → known p → st !! p = Some c →
  concat chain = text "RETR" ++ 32 :: name ++ newline →
  ∃ dp r1 s1, handle (Received cp (Some chain)) s = Ok (r1, s1) ∧
    ∀ n1, (∀ q, delivered q n1 = delivered q (tcp s1)) →
    ∃ r2 s2, handle (Connected dp) (set_tcp n1 s1) = Ok (r2, s2) ∧
      streams cp dp fsm c (said cp (mfifo m) (tcp s) ++ retr_reply name c ++ newline)
        (volume (known := known) (room := room) st mm) s2.
Proof.
  intros Hses Hdisk Hsz Hname Hc Hk Hp Hch. pose proof Hses as ((Hcp & Hfsm & _) & _).
  pose proof (retr_begins cp fsm m name p c chain st mm s Hses Hdisk Hsz Hname Hc Hk Hp Hch) as H1.
  apply wp_run in H1 as (r1 & s1 & E1 & dp & fsd & h & Hdp & Hfsd & Hne & Hh & Haw & Hdisk1).
  exists dp, r1, s1. split; [done|]. intros n1 Hn1. apply wp_run.
  eapply (retr_connected cp dp fsm fsd h p c); try done. by apply awaiting_tcp.
Qed.

(** A client on connection 5 whose block is 1; the volume in memory has a file. *)
Definition sample_msg : ftpd_msgstate := mkMsg FTPD_IDLE empty_fifo [10; 0; 0; 1] 1025 0 0 0 false None.
Definition sample_file : path := text "/MASTER_C/a".
Definition sample_disk : gmap path (list Z) := {[ sample_file := [1; 2; 3] ]}.
Definition sample_server : server (accessor view unit FatStore.ram) wire :=
  mkServer {[ 1 := sample_msg ]} ∅ {[ 5 := mkPcb 1 (Some Msg) (Some Msg) (Some Msg) None (Some Msg) None ]}
    (VirtualRoot.mkRoot true (text "/MASTER_C") 0 (FatStore.ram_disk sample_disk)) [] 4096 4096
    (mkWire ∅ ∅ {[ 5 ]}).

Lemma sample_session : session 5 1 sample_msg sample_server.
Proof.
  split; [|split].
  - split; [done|]. split; [done|]. split; [by eexists|done].
  - split; [done|]. split; [done|]. split; [apply empty_ok|done].
  - split; [done|]. apply (bool_decide_unpack _). vm_compute. exact I.
Qed.

Lemma ftp_retr_sends_file_witness :
  ∃ dp r1 s1, handle (Received 5 (Some [text "RETR a" ++ newline])) sample_server = Ok (r1, s1) ∧
    ∃ r2 s2, handle (Connected dp) s1 = Ok (r2, s2) ∧
      streams 5 dp 1 [1; 2; 3] (said 5 empty_fifo (tcp sample_server) ++ retr_reply (text "a") [1; 2; 3] ++ newline)
        (volume (known := λ _, True) (room := 100) sample_disk ∅) s2.
Proof.
  destruct (ftp_retr_sends_file (known := λ _, True) (room := 100) sample_server 5 1 sample_msg (text "a") sample_file [1; 2; 3]
    [text "RETR a" ++ newline] sample_disk ∅) as (dp & r1 & s1 & E1 & H).
  - apply sample_session.
  - split; [done|apply FatStore.ram_disk_sees].
  - vm_compute. lia.
  - split; [by repeat constructor|]. split; [done|]. vm_compute. lia.
  - reflexivity.
  - done.
  - reflexivity.
  - reflexivity.
  - exists dp, r1, s1. split; [exact E1|]. destruct (H (tcp s1) ltac:(done)) as (r2 & s2 & E2 & H3).
    exists r2, s2. replace (set_tcp (tcp s1) s1) with s1 in E2 by (by destruct s1). split; [exact E2|exact H3].
Defined.

(** C6: STOR keeps what the client sends.  After the line of the client and the
    connection of the data port, however the octets are cut into segments and buffers
    and whatever else happens in between: every callback is defined while the volume
    has room, and when the client closes the data connection the file holds exactly
    the octets that were sent, the session is idle, and the client was told 150 and
    226. *)
Theorem ftp_stor_keeps_data {F D X N : Type} `{!FatFs F D X} `{!FatFsLaws F D X} {known : path → Prop} {room : Z}
    `{!FatFsFiles F D X known room} `{!Tcp N} `{!TcpLaws N} (s : server (accessor F D X) N)
    cp fsm m name p chain st mm :
  session cp fsm m s → disk (known := known) (room := room) st mm s → (base.size mm < 2)%nat → name_fits name →
  combinePath (root s) name = Ok p → known p → map_Forall (λ _ v, vpath v ≠ p) mm → room < 2 ^ 32 →
  concat chain = text "STOR" ++ 32 :: name ++ newline →
  ∃ dp r1 s1, handle (Received cp (Some chain)) s = Ok (r1, s1) ∧
    ∀ n1, (∀ q, delivered q n1 = delivered q (tcp s1)) →
    ∃ r2 s2, handle (Connected dp) (set_tcp n1 s1) = Ok (r2, s2) ∧
      ∀ data s3, uploads cp dp data s2 s3 → Z.of_nat (length data) <= room →
        (∀ e, e ∈ [Sent dp; Polled cp; Sent cp] → ∃ r4 s4, handle e s3 = Ok (r4, s4)) ∧
        (∀ q, Z.of_nat (length (data ++ concat q)) <= room → ∃ r4 s4, handle (Received dp (Some q)) s3 = Ok (r4, s4)) ∧
        ∃ r4 s4 m4, handle (Received dp None) s3 = Ok (r4, s4) ∧
          disk (known := known) (room := room) (<[p := data]> st) mm s4 ∧
          msgs s4 !! fsm = Some m4 ∧ state m4 = FTPD_IDLE ∧
          said cp (mfifo m4) (tcp s4) =
            (said cp (mfifo m) (tcp s) ++ stor_reply name ++ newline) ++ msg226 ++ newline.
Proof.
  intros Hses Hdisk Hsz Hname Hc Hk Hp Hroom Hch. pose proof Hses as ((Hcp & Hfsm & _) & _).
  pose proof (stor_begins cp fsm m name p chain st mm s Hses Hdisk Hsz Hname Hc Hk Hp Hch) as H1.
  apply wp_run in H1 as (r1 & s1 & E1 & dp & fsd & h & Hdp & Hfsd & Hne & Hh & Haw & Hdisk1).
  exists dp, r1, s1. split; [done|]. intros n1 Hn1. set (y0 := said cp (mfifo m) (tcp s) ++ _) in *.
  pose proof (awaiting_tcp _ _ _ _ _ _ _ _ n1 Hn1 Haw) as Haw1.
  pose proof (stor_connected cp dp fsm fsd h p y0 (delete p st) mm _ Hdp Hne Haw1 Hdisk1) as H2.
  apply wp_run in H2 as (r2 & s2 & E2 & Hs2). exists r2, s2. split; [done|]. intros data s3 Hup Hdata.
  eapply (uploads_receiving cp dp fsm fsd h p y0 (delete p st) mm) with (before := []) in Hup; [|done..]. cbn [app] in Hup.
  split; [|split].
  - intros e He. pose proof (store_event cp dp fsm fsd h p y0 (delete p st) mm Hcp data e s3 He Hup) as H.
    apply wp_run in H as (r4 & s4 & E & _). eauto.
  - intros q Hq. pose proof (receive_step cp dp fsm fsd h p y0 (delete p st) mm Hroom data q s3 Hup Hq) as H.
    apply wp_run in H as (r4 & s4 & E & _). eauto.
  - pose proof (store_close cp dp fsm fsd h p y0 (delete p st) mm Hcp Hdp Hne Hh data s3 Hup) as H.
    apply wp_run in H as (r4 & s4 & E & Hd4 & _ & m4 & Hm4 & Hst4 & Hsaid4). exists r4, s4, m4.
    rewrite insert_delete_eq in Hd4. done.
Qed.

(** Two octets in two buffers of a segment. *)
Lemma ftp_stor_keeps_data_witness :
  ∃ dp r1 s1, handle (Received 5 (Some [text "STOR b" ++ newline])) sample_server = Ok (r1, s1) ∧
    ∃ r2 s2 r3 s3 r4 s4, handle (Connected dp) s1 = Ok (r2, s2) ∧
      handle (Received dp (Some [[7]; [8]])) s2 = Ok (r3, s3) ∧ handle (Received dp None) s3 = Ok (r4, s4) ∧
      disk (known := λ _, True) (room := 100) (<[text "/MASTER_C/b" := [7; 8]]> sample_disk) ∅ s4.
Proof.
  destruct (ftp_stor_keeps_data (known := λ _, True) (room := 100) sample_server 5 1 sample_msg (text "b") (text "/MASTER_C/b")
    [text "STOR b" ++ newline] sample_disk ∅) as (dp & r1 & s1 & E1 & H).
  - apply sample_session.
  - split; [done|apply FatStore.ram_disk_sees].
  - vm_compute. lia.
  - split; [by repeat constructor|]. split; [done|]. vm_compute. lia.
  - reflexivity.
  - done.
  - apply map_Forall_empty.
  - lia.
  - reflexivity.
  - exists dp, r1, s1. split; [exact E1|]. destruct (H (tcp s1) ltac:(done)) as (r2 & s2 & E2 & H3).
    replace (set_tcp (tcp s1) s1) with s1 in E2 by (by destruct s1).
    destruct (H3 [] s2 ltac:(constructor) ltac:(cbn; lia)) as (_ & Hrecv & _).
    destruct (Hrecv [[7]; [8]] ltac:(cbn; lia)) as (r3 & s3 & E3).
    destruct (H3 [7; 8] s3 ltac:(exact (upload_segment 5 dp [] [[7]; [8]] s2 r3 s3 s3 E3 (upload_end 5 dp s3)))
                ltac:(cbn; lia)) as (_ & _ & r4 & s4 & m4 & E4 & Hd & _).
    exists r2, s2, r3, s3, r4, s4. split; [exact E2|]. split; [exact E3|]. by split.
Defined.

End FtpdSession.
