(* ===== verification/FtpdList.v ===== *)
(** * Directory listings of the FTP server

    NLST and LIST: every entry of the directory gets one line, in the order of the
    directory, however the lines fit the FIFO and the window. *)

From Stdlib Require Import String.
From stdpp Require Import gmap.
From S2P Require Import Prelude Strtol Format Strings Partition FatFiles VirtualRoot FatStore LwipTcp Sfifo Ftpd FtpdRun FtpdText FtpdSession.

Module FtpdList.
Import LwipTcp Sfifo Ftpd FtpdRun FtpdText FtpdSession.
Import VirtualRoot(vroot, ChildFS, vroot_readdir, vroot_stat, vroot_closedir).
Import VirtualRoot(inside, fs).
Import FatStore(view).
Import FatFiles(accessor, FileInfo, name, nameLength, size, attributes, FATX_FILENAME_MAX).
Import Format(text, va, VInt, VStr, layout, SIGN, ZEROPAD).

#[local] Existing Instance VirtualRoot.FatFSAccess.
#[local] Existing Instances FatStore.ram_fs FatStore.ram_laws FatStore.ram_files.

Abbreviation length := List.length.

(** ** Lines *)

Definition valid (i : FileInfo) : bool :=
  negb ((Strtol.at_ (name i) 0 =? 0) || (nameLength i =? 0) || (FATX_FILENAME_MAX <? nameLength i)).
Definition entry_name (i : FileInfo) : list Z := Strings.cstr (take (Z.to_nat (nameLength i)) (name i)).

(** The line of LIST; the date is always the beginning of 1970. *)
Definition long_line (n : list Z) (sz mode : Z) : list Z :=
  let line := text "-rw-rw-rw-   1 user     ftp  " ++ layout (s32 sz) 10 11 (-1) SIGN ++ text " Jan 01 00:00 " ++ n ++ newline in
  if VFS_ISDIR mode then <[0%nat := 100]> line else line.

Definition shows {A} `{!ChildFS A} (short : bool) (rt : vroot A) (n line : list Z) : Prop :=
  if short then line = n ++ newline
  else ∃ i, vroot_stat n rt = Ok i ∧ valid i = true ∧ line = long_line n (size i) (attributes i).

Lemma long_line_prints n sz :
  prints (text "-rw-rw-rw-   1 user     ftp  %11ld %s %02i %02i:%02i %s" ++ newline)
    [VInt sz; VStr (Some (text "Jan")); VInt 1; VInt 0; VInt 0; VStr (Some n)]
    (text "-rw-rw-rw-   1 user     ftp  " ++ layout (s32 sz) 10 11 (-1) SIGN ++ text " Jan 01 00:00 " ++ n ++ newline).
Proof.
  change (text "-rw-rw-rw-   1 user     ftp  %11ld %s %02i %02i:%02i %s" ++ newline)
    with (text "-rw-rw-rw-   1 user     ftp  " ++ text "%11ld" ++ text " " ++ text "%s" ++ text " " ++ text "%02i" ++
          text " " ++ text "%02i" ++ text ":" ++ text "%02i" ++ text " " ++ text "%s" ++ newline ++ []).
  change (text " Jan 01 00:00 " ++ n ++ newline)
    with (text " " ++ text "Jan" ++ text " " ++ layout (s32 1) 10 2 (-1) (ZEROPAD .| SIGN) ++ text " " ++
          layout (s32 0) 10 2 (-1) (ZEROPAD .| SIGN) ++ text ":" ++ layout (s32 0) 10 2 (-1) (ZEROPAD .| SIGN) ++ text " " ++
          n ++ newline).
  replace (n ++ newline) with (n ++ newline ++ []) by (by rewrite app_nil_r).
  repeat first [apply prints_nil | apply prints_s | apply prints_int; [apply directive_ld|]
    | apply prints_int; [apply directive_02i|] | apply prints_text; [by repeat constructor|]].
Qed.

Section lines.
Context {A N : Type} `{!ChildFS A} `{!Tcp N}.
Implicit Types s : server A N.

Lemma shows_length short (rt : vroot A) n line :
  shows short rt n line → (length n <= 42)%nat → (2 <= length line < 300)%nat.
Proof.
  unfold shows. destruct short.
  - intros -> Hn. rewrite length_app. cbn. lia.
  - intros (i & _ & _ & ->) Hn. unfold long_line. pose proof (layout_length (s32 (size i)) 11 SIGN ltac:(lia)).
    assert (2 <= length (text "-rw-rw-rw-   1 user     ftp  " ++ layout (s32 (size i)) 10 11 (-1) SIGN ++
      text " Jan 01 00:00 " ++ n ++ newline) < 300)%nat as H'.
    { rewrite !length_app. change (length (text "-rw-rw-rw-   1 user     ftp  ")) with 29%nat.
      change (length (text " Jan 01 00:00 ")) with 14%nat. cbn [length newline]. lia. }
    destruct (VFS_ISDIR _); [by rewrite length_insert|done].
Qed.

Lemma wp_list_line short line (Q : list Z → server A N → Prop) s :
  shows short (root s) (dir_ent s) line → (length (dir_ent s) <= 42)%nat → Q line s → wp (list_line short) Q s.
Proof.
  intros Hsh Hn HQ. pose proof (shows_length _ _ _ _ Hsh Hn) as Hl. unfold list_line. apply wp_bind, wp_gets.
  apply wp_bind. eapply (wp_mono _ (λ l s', l = line ∧ s' = s)).
  2:{ intros l s' [-> ->]. apply wp_bind, wp_assert; [apply Nat.ltb_lt; lia|]. by apply wp_ret. }
  destruct short; cbn [shows] in Hsh.
  - apply wp_bind. eapply wp_liftO; [apply prints_vsprintf|].
    { apply prints_s. replace newline with (newline ++ []) by apply app_nil_r. apply prints_text; [by repeat constructor|apply prints_nil]. }
    apply wp_ret. by rewrite Hsh.
  - destruct Hsh as (i & Hi & Hv & ->). apply wp_bind. unfold stat_or_junk, vfs_stat. apply wp_bind. unfold wp at 1.
    rewrite Hi, bind_ok. unfold valid in Hv. apply negb_true_iff in Hv. rewrite Hv. apply wp_ret.
    change (tm_year gmtime =? tm_year gmtime) with true. cbv iota. apply wp_bind.
    eapply wp_liftO; [apply prints_vsprintf, long_line_prints|]. apply wp_ret. by split.
Qed.

(** The entries that [vroot_readdir] yields, and the lines for them.  The volume may
    not change while the directory is read. *)
Inductive listing (short : bool) (h : Z) : vroot A → list (list Z) → vroot A → Prop :=
| listing_end rt i rt' : vroot_readdir h rt = Ok (i, rt') → valid i = false → listing short h rt [] rt'
| listing_entry rt i rt1 line lines rt' :
    vroot_readdir h rt = Ok (i, rt1) → valid i = true → shows short rt1 (entry_name i) line →
    listing short h rt1 lines rt' → listing short h rt (line :: lines) rt'.

(** The lines, computed. *)
Definition line_of (short : bool) (rt : vroot A) (n : list Z) : option (list Z) :=
  if short then Some (n ++ newline)
  else match vroot_stat n rt with
       | Ok i => if valid i then Some (long_line n (size i) (attributes i)) else None
       | UB => None
       end.
Fixpoint read_lines (fuel : nat) (short : bool) (h : Z) (rt : vroot A) : option (list (list Z) * vroot A) :=
  match fuel with
  | O => None
  | S fuel =>
      match vroot_readdir h rt with
      | UB => None
      | Ok (i, rt) =>
          if valid i then
            line ← line_of short rt (entry_name i);
            '(lines, rt) ← read_lines fuel short h rt;
            Some (line :: lines, rt)
          else Some ([], rt)
      end
  end.

Lemma read_lines_listing fuel short h : ∀ rt lines rt',
  read_lines fuel short h rt = Some (lines, rt') → listing short h rt lines rt'.
Proof.
  induction fuel as [|fuel IH]; intros rt lines rt' H; cbn [read_lines] in H; [done|].
  destruct (vroot_readdir h rt) as [[i rt1]|] eqn:Er; [|done]. destruct (valid i) eqn:Ev; [|injection H as <- <-; by econstructor].
  destruct (line_of short rt1 (entry_name i)) as [line|] eqn:El; [|done]. cbn in H.
  destruct (read_lines fuel short h rt1) as [[ls rt2]|] eqn:Els; [|done]. injection H as <- <-.
  econstructor; [done|done| |by apply IH]. unfold line_of in El. unfold shows. destruct short; [by injection El as <-|].
  destruct (vroot_stat (entry_name i) rt1) as [j|] eqn:Es; [|done]. destruct (valid j) eqn:Ej; [|done].
  injection El as <-. by exists j.
Qed.

Lemma cstr_length l : (length (Strings.cstr l) <= length l)%nat.
Proof. induction l as [|c l IH]; cbn; [lia|]. destruct (c =? 0); cbn; lia. Qed.

Lemma entry_length i : valid i = true → (length (entry_name i) <= 42)%nat.
Proof.
  unfold valid. intros Hv%negb_true_iff. apply orb_false_iff in Hv as [_ Hv%Z.ltb_ge]. unfold entry_name.
  etrans; [apply cstr_length|]. rewrite length_take. unfold FATX_FILENAME_MAX in Hv. lia.
Qed.

End lines.

(** ** The transfer *)

Section list.
Context {A N : Type} `{!ChildFS A} `{!Tcp N} `{!TcpLaws N}.
Implicit Types s : server A N.
Context (short : bool) (cp dp fsm fsd h : Z) (c y0 : list Z) (final : vroot A → Prop).
Context (cp_ok : cp ≠ 0) (dp_ok : dp ≠ 0) (distinct : dp ≠ cp) (fsm_ok : fsm ≠ 0) (fsd_ok : fsd ≠ 0).

Definition stt : ftpd_state_e := if short then FTPD_NLST else FTPD_LIST.

(** The rest of the lines; an entry that did not fit the FIFO is in [de]. *)
Definition remains (rt : vroot A) (lines : list (list Z)) : Prop :=
  ∃ rt' rt'', listing short h rt lines rt' ∧ vroot_closedir h rt' = Ok rt'' ∧ final rt''.
Definition from_dir (rt : vroot A) (de : list Z) (dir : option Z) (ent : bool) (file : option Z) (z : list Z) : Prop :=
  file = None ∧
  match dir, ent with
  | Some h', false => h' = h ∧ ∃ lines, remains rt lines ∧ z ++ concat lines = c
  | Some h', true => h' = h ∧ (length de <= 42)%nat ∧
      ∃ line lines, shows short rt de line ∧ remains rt lines ∧ z ++ line ++ concat lines = c
  | None, false => z = c ∧ final rt
  | None, true => False
  end.

Lemma from_dir_prefix rt de dir ent file z : from_dir rt de dir ent file z → z `prefix_of` c.
Proof.
  intros [_ H]. destruct dir, ent; [| |done|by destruct H as [-> _]].
  - destruct H as (_ & _ & line & lines & _ & _ & <-). by apply prefix_app_r.
  - destruct H as (_ & lines & _ & <-). by apply prefix_app_r.
Qed.

Abbreviation sending := (sending cp dp fsm fsd stt y0 from_dir).
Abbreviation step_ok := (step_ok cp dp fsm fsd stt c y0 from_dir final).

Lemma flush s s0 d0 d :
  tcp s = tcp s0 → datas s0 !! fsd = Some d0 → datas s !! fsd = Some d → vfs_file d = vfs_file d0 →
  queue (dfifo d) ≠ [] → sending s → wp (send_data dp fsd) (λ _ s', step_ok s0 s') s.
Proof. apply flush_step; try done. apply from_dir_prefix. Qed.

(** A round leaves the loop with the transfer a step further, or goes on with less
    space in the FIFO. *)
Definition round_ok s0 (space : Z) (left : bool) s : Prop :=
  if left then step_ok s0 s
  else sending s ∧ tcp s = tcp s0 ∧
    ∃ d, datas s !! fsd = Some d ∧ vfs_file d = None ∧ sfifo_space (dfifo d) < space.

Lemma put_line_round s s0 d0 d :
  sending s → tcp s = tcp s0 → datas s0 !! fsd = Some d0 → vfs_file d0 = None →
  datas s !! fsd = Some d → vfs_dirent d = true →
  wp (put_line fsd dp short) (λ left s', round_ok s0 (sfifo_space (dfifo d)) left s') s.
Proof.
  intros Hs Ht Hd0 Hf0 Hd Hent. pose proof Hs as (m & d' & Hm & Hd' & Hms & Hds & Hhooks & Hy & Hfile & Hsrc).
  assert (d' = d) as -> by congruence. rewrite Hent in Hsrc. destruct (vfs_dir d) as [h'|] eqn:Edir; [|done].
  destruct Hsrc as (-> & Hde & line & lines & Hsh & Hrem & Hc). pose proof Hds as (Hco & Hmfs & Hmp & Hf & Hsz).
  pose proof (shows_length _ _ _ _ Hsh Hde) as Hl. pose proof (used_cases _ Hf) as [Hu _].
  unfold put_line. apply wp_bind. eapply wp_list_line; [exact Hsh|done|]. apply wp_bind, (wp_get_data _ d); [done|].
  destruct (Z.ltb_spec (sfifo_space (dfifo d)) (Z.of_nat (length line))) as [Hlt|Hge].
  - apply wp_bind. eapply wp_mono; [apply (flush s s0 d0 d); try done; [congruence|]|].
    + apply some_octets; [done|]. unfold sfifo_space in Hlt. lia.
    + intros ? s' H'. by apply wp_ret.
  - destruct (write_appends (dfifo d) line Hf) as (f & E & Hf' & Hsz' & Hq).
    rewrite Z.min_r in E, Hq by lia. rewrite Nat2Z.id, take_ge in Hq by done.
    apply wp_bind, (wp_liftO _ _ _ _ E). apply wp_bind, (wp_upd_data _ _ d); [done|].
    apply wp_bind. eapply wp_upd_data; [apply lookup_insert_eq|]. apply wp_ret. destruct s as [ms ds ps rt de pt sp n].
    norm. rewrite insert_insert_eq. split; [|split; [done|]].
    + exists m, (set_dirent false (set_dfifo f d)). norm. split; [done|]. split; [apply lookup_insert_eq|]. split; [done|].
      split; [split_and!; cbn; congruence|]. split; [done|]. split; [done|].
      cbn [vfs_file vfs_dir vfs_dirent set_dirent set_dfifo dfifo]. rewrite Hfile, Edir. split; [done|]. split; [done|].
      exists lines. split; [done|]. by rewrite Hq, app_assoc, <- Hc, <- !app_assoc.
    + eexists. split; [apply lookup_insert_eq|]. split; [done|]. cbn [dfifo set_dirent set_dfifo]. unfold sfifo_space.
      pose proof (length_queue _ Hf). pose proof (length_queue _ Hf') as Hlq'. rewrite Hq, length_app in Hlq'. lia.
Qed.

Lemma no_entry_round s s0 d0 m d rt' :
  msgs s !! fsm = Some m → busy cp dp fsd stt m → owned cp fsm d → control cp fsm s ∧ dataline dp fsd s →
  said cp (mfifo m) (tcp s) = y0 → vfs_file d = None →
  tcp s = tcp s0 → datas s0 !! fsd = Some d0 → vfs_file d0 = None →
  datas s !! fsd = Some d → vfs_dirent d = false → delivered dp (tcp s) ++ queue (dfifo d) = c →
  (match vfs_dir d with Some h => vroot_closedir h (root s) | None => Ok (root s) end) = Ok rt' → final rt' →
  wp (no_entry fsd dp) (λ left s', round_ok s0 (sfifo_space (dfifo d)) left s') s.
Proof.
  intros Hm Hms Hds Hhooks Hy Hfile Ht Hd0 Hf0 Hd Hent Hall Hcl Hfin. pose proof Hds as (Hco & Hmfs & Hmp & Hf & Hsz).
  unfold no_entry. apply wp_bind, (wp_get_data _ d); [done|]. apply wp_bind.
  destruct s as [ms ds ps rt de pt sp n]. norm.
  apply (wp_mono _ (λ _ s', s' = mkServer ms (<[fsd := set_dir None d]> ds) ps rt' de pt sp n)).
  - destruct (vfs_dir d) as [h'|] eqn:Edir.
    + apply wp_bind, wp_zoom. unfold wp. norm. rewrite Hcl, bind_ok. change (wp (upd_data (A := A) (N := N) fsd (set_dir None))
        (λ _ s', s' = mkServer ms (<[fsd := set_dir None d]> ds) ps rt' de pt sp n) (mkServer ms ds ps rt' de pt sp n)).
      by apply (wp_upd_data _ _ d).
    + apply wp_ret. injection Hcl as <-. rewrite insert_id; [done|]. rewrite Hd. by destruct d; cbn in *; subst.
  - intros _ s1 ->.
    assert (sending (mkServer ms (<[fsd := set_dir None d]> ds) ps rt' de pt sp n)) as Hs1.
    { exists m, (set_dir None d). norm. split; [done|]. split; [apply lookup_insert_eq|]. split; [done|]. split; [done|].
      split; [done|]. split; [done|]. cbn [vfs_file vfs_dir vfs_dirent set_dir dfifo]. rewrite Hent. done. }
    apply wp_bind. eapply wp_mono with (P := λ _ s', step_ok s0 s'); [|intros ? s' H'; by apply wp_ret].
    destruct (Z.ltb_spec 0 (sfifo_used (dfifo d))) as [Hpos|Hzero].
    + eapply (flush _ s0 d0 (set_dir None d)); [done|done|apply lookup_insert_eq|cbn; congruence| |done].
      by apply some_octets.
    + apply no_octets in Hzero; [|done]. rewrite Hzero, app_nil_r in Hall.
      by eapply (finish_step cp dp fsm fsd stt c y0 from_dir final); try exact Hs1.
Qed.

Lemma next_entry_round s s0 d0 d :
  sending s → tcp s = tcp s0 → datas s0 !! fsd = Some d0 → vfs_file d0 = None → datas s !! fsd = Some d →
  wp (next_entry fsd dp short) (λ left s', round_ok s0 (sfifo_space (dfifo d)) left s') s.
Proof.
  intros Hs Ht Hd0 Hf0 Hd. pose proof Hs as (m & d' & Hm & Hd' & Hms & Hds & Hhooks & Hy & Hfile & Hsrc).
  assert (d' = d) as -> by congruence. unfold next_entry. apply wp_bind, (wp_get_data _ d); [done|].
  destruct (vfs_dir d) as [h'|] eqn:Edir, (vfs_dirent d) eqn:Eent; [| |done|].
  - apply wp_bind, wp_ret. by apply (put_line_round s s0 d0 d).
  - destruct Hsrc as (-> & lines & (rt' & rt'' & Hls & Hcl & Hfin) & Hc). destruct s as [ms ds ps rt de pt sp n]. norm.
    apply wp_bind, wp_bind. unfold vfs_readdir. apply wp_bind, wp_zoom. unfold wp at 1. norm.
    revert Hc Hy. inversion Hls as [rt0 i rt1 Hrd Hv|rt0 i rt1 line ls rt2 Hrd Hv Hsh Hls']; subst; intros Hc Hy; rewrite Hrd;
      unfold valid in Hv; [apply negb_false_iff in Hv|pose proof Hv as Hv'; apply negb_true_iff in Hv]; rewrite Hv.
    + apply wp_ret. apply wp_bind, (wp_upd_data _ _ d); [done|]. norm. apply wp_ret.
      replace (set_dirent false d) with d by (destruct d; cbn in *; by subst). rewrite insert_id by done.
      eapply (no_entry_round _ s0 d0 m d rt''); norm; try done; [by rewrite <- Hc, app_nil_r|by rewrite Edir].
    + apply wp_bind, wp_modify, wp_ret. norm. apply wp_bind, (wp_upd_data _ _ d); [done|]. norm. apply wp_ret.
      eapply (put_line_round _ s0 d0 (set_dirent true d)); norm; [|done|done|done|apply lookup_insert_eq|done].
      exists m, (set_dirent true d). norm. split; [done|]. split; [apply lookup_insert_eq|]. split; [done|]. split; [done|].
      split; [done|]. split; [done|]. cbn [vfs_file vfs_dir vfs_dirent set_dirent dfifo]. rewrite Edir. split; [done|].
      split; [done|]. split; [by apply entry_length|]. exists line, ls. split; [done|]. split; [by exists rt', rt''|done].
  - destruct Hsrc as [Hz Hfin]. apply wp_bind, wp_ret.
    apply (no_entry_round s s0 d0 m d (root s)); try done. by rewrite Edir.
Qed.

Lemma directory_loop_step fuel : ∀ s s0 d0 d,
  sending s → tcp s = tcp s0 → datas s0 !! fsd = Some d0 → vfs_file d0 = None → datas s !! fsd = Some d →
  sfifo_space (dfifo d) < Z.of_nat fuel →
  wp (directory_loop fuel fsd dp short) (λ _ s', step_ok s0 s') s.
Proof.
  induction fuel as [|fuel IH]; intros s s0 d0 d Hs Ht Hd0 Hf0 Hd Hfuel.
  { destruct Hs as (m & d' & _ & Hd' & _ & (_ & _ & _ & Hf & Hsz) & _). assert (d' = d) as -> by congruence.
    pose proof (used_cases _ Hf) as [Hu _]. unfold sfifo_space in Hfuel. lia. }
  cbn [directory_loop]. apply wp_bind. eapply wp_mono; [by eapply next_entry_round|].
  intros left s1 Hr. destruct left; cbn [round_ok] in Hr; [by apply wp_ret|].
  destruct Hr as (Hs1 & Ht1 & d1 & Hd1 & _ & Hsp). apply (IH s1 s0 d0 d1); try done. lia.
Qed.

Lemma list_step s : sending s → wp (transfer stt fsd dp) (λ _ s', step_ok s s') s.
Proof.
  intros Hs. pose proof Hs as (m & d & _ & Hd & _ & (_ & _ & _ & Hf & Hsz) & _ & _ & Hfile & _).
  assert (transfer stt fsd dp = send_next_directory (A := A) (N := N) fsd dp short) as -> by (unfold stt; by destruct short).
  unfold send_next_directory. apply (directory_loop_step _ s s d d); try done.
  pose proof (used_cases _ Hf) as [Hu _]. unfold sfifo_space. lia.
Qed.

End list.

(** ** The command *)

Section command.
Context {A N : Type} `{!ChildFS A} `{!Tcp N} `{!TcpLaws N}.
Implicit Types s : server A N.

Lemma msg150_prints : Format.vsprintf msg150 [] = Ok (msg150, []).
Proof. vm_compute. reflexivity. Qed.

Lemma wp_getcwd (Q : option (list Z) → server A N → Prop) s :
  plenty (tcp s) → (1 <= length (VirtualRoot.cwd (root s)) < 255)%nat →
  (∀ n', quiet (tcp s) n' → Q (Some (VirtualRoot.cwd (root s))) (set_tcp n' s)) → wp vfs_getcwd Q s.
Proof.
  intros Hp Hl HQ. unfold vfs_getcwd. apply wp_bind, wp_handle_block; [done|]. intros n' Hn. apply wp_bind, wp_gets.
  unfold VirtualRoot.vroot_getcwd. apply wp_bind, wp_assert; [apply Nat.ltb_lt; cbn; lia|]. apply wp_ret.
  cbn [root set_tcp]. destruct (Nat.eqb_spec (length (VirtualRoot.cwd (root s))) 0); [lia|]. by apply HQ.
Qed.

Lemma wp_opendir dir h rt' (Q : option Z → server A N → Prop) s :
  plenty (tcp s) → VirtualRoot.vroot_opendir dir (root s) = (h, rt') → h ≠ 0 →
  (∀ n', quiet (tcp s) n' → Q (Some h) (set_root rt' (set_tcp n' s))) → wp (vfs_opendir dir) Q s.
Proof.
  intros Hp Ho Hh HQ. unfold vfs_opendir. apply wp_bind, wp_handle_block; [done|]. intros n' Hn. apply wp_bind, wp_zoom.
  unfold wp at 1. cbn [root set_tcp]. rewrite Ho. apply wp_ret. destruct (Z.eqb_spec h 0); [done|]. by apply HQ.
Qed.

Lemma list_begins short cp fsm m h rt' arg s :
  session cp fsm m s → (1 <= length (VirtualRoot.cwd (root s)) < 255)%nat →
  VirtualRoot.vroot_opendir (VirtualRoot.cwd (root s)) (root s) = (h, rt') → h ≠ 0 →
  wp (cmd_list_common arg cp fsm short) (λ _ s1, ∃ dp fsd, dp ≠ 0 ∧ fsd ≠ 0 ∧ dp ≠ cp ∧
    awaiting cp dp fsm fsd (set_dir (Some h) (fresh_data fsm cp)) (stt short)
      (said cp (mfifo m) (tcp s) ++ msg150 ++ newline) s1 ∧ root s1 = rt') s.
Proof.
  intros Hses Hcwd Ho Hh. unfold cmd_list_common. apply wp_bind, wp_getcwd; [by apply Hses|done|]. intros n1 Hn1.
  pose proof (session_tcp _ _ _ _ _ Hses Hn1) as Hses1. destruct s as [ms ds ps rt de pt sp n]. norm.
  apply wp_bind. eapply wp_opendir; [by apply Hses1|exact Ho|done|]. intros n2 Hn2.
  pose proof (session_tcp _ _ _ _ _ Hses1 Hn2) as Hses2. pose proof (quiet_trans _ _ _ Hn1 Hn2) as [Hdel _]. norm.
  destruct Hses2 as ((Hcp & Hfsm & (k & Hk & Hhooks) & Hm) & (Hpas & Hlp & Hf & Hsp) & (Hpl & Huse)). norm.
  apply wp_bind. eapply wp_open_data; [exact Hm|done|done|]. norm.
  intros fsd dp n3 Hfsd Hdn Hdp Hnu Hdd Hdo. cbn [Z.eqb negb]. assert (dp ≠ cp) as Hne by (intros ->; by apply Hnu).
  apply wp_bind. eapply wp_get_msg; [apply lookup_insert_eq|]. cbn [datafs set_datapcb set_datafs].
  do 2 (apply wp_bind; eapply wp_upd_data; [apply lookup_insert_eq|]; norm; rewrite insert_insert_eq).
  apply wp_bind. eapply wp_upd_msg; [apply lookup_insert_eq|]. norm. rewrite insert_insert_eq.
  eapply wp_send_msg; [done|apply lookup_insert_eq|done|apply msg150_prints|vm_compute; lia|].
  intros f' n4 Hf' [Ho4 _] Hsp4 Hsaid. norm. rewrite insert_insert_eq. exists dp, fsd. split; [done|]. split; [done|].
  split; [done|]. split; [|done]. change (Z.of_nat (length (msg150 ++ newline))) with 54 in *.
  cbn [mfifo set_state set_datapcb set_datafs] in *.
  destruct (Z.ltb_spec (sfifo_space (mfifo m)) 54) as [Hl|_]; [lia|].
  eexists. norm. split; [apply lookup_insert_eq|]. split; [apply lookup_insert_eq|].
  split; [|split; [split; [|apply lookup_insert_eq]|]].
  - split; [done|]. split; [done|]. split; [done|]. split; [done|]. split; [done|]. cbn. lia.
  - exists k. norm. by rewrite lookup_insert_ne.
  - split; [by rewrite Ho4|]. cbn [mfifo set_mfifo]. rewrite Hsaid. unfold said. by rewrite Hdo, Hdel by done.
Qed.

Lemma list_connected short cp dp fsm fsd h lines rt' rt'' y0 s :
  cp ≠ 0 → dp ≠ 0 → fsm ≠ 0 → fsd ≠ 0 → dp ≠ cp →
  awaiting cp dp fsm fsd (set_dir (Some h) (fresh_data fsm cp)) (stt short) y0 s →
  listing short h (root s) lines rt' → VirtualRoot.vroot_closedir h rt' = Ok rt'' →
  wp (handle (Connected dp)) (λ _, streams cp dp fsm (concat lines) y0 (λ rt, rt = rt'')) s.
Proof.
  intros Hcp Hdp Hfsm Hfsd Hne Haw Hls Hcl. pose proof Haw as (_ & _ & _ & _ & _ & Hdel & _).
  pose proof (list_step short cp dp fsm fsd h (concat lines) y0 (λ rt, rt = rt'') Hcp Hdp Hne) as Hstep.
  eapply wp_connected; [done|done| |exact Haw|]; [done|]. intros m ps' Hst Hsaid s' Hctl Hdl.
  eapply wp_mono; [apply Hstep|].
  - eexists m, _. split; [apply lookup_insert_eq|]. split; [apply lookup_insert_eq|]. split; [done|].
    split; [split; [done|]; split; [done|]; split; [done|]; split; [apply empty_ok|done]|]. split; [done|]. split; [done|].
    cbn. rewrite Hdel. split; [done|]. split; [done|]. exists lines. split; [by exists rt', rt''|done].
  - intros ? s2 (Hs2 & _).
    apply (sending_streams cp dp fsm fsd (stt short) (concat lines) y0 (from_dir short h (concat lines) (λ rt, rt = rt'')));
      try done; [by destruct short|apply from_dir_prefix].
Qed.

End command.

(** ** Property *)

(** C12: LIST and NLST over an active connection, of the one client there is, in a
    directory that can be opened, whose path has at most 254 octets and which does
    not change meanwhile, and for LIST every entry of which the volume describes,
    send one line for each entry, in the order of the directory, whatever TCP accepts
    and in whichever order it calls the callbacks; when the session is idle again all
    lines were sent, the directory is closed, and the client was told 150 and 226.
    The rounds of the loop in the server are bounded by the size of the FIFO. *)
Theorem ftp_list_sends_entries {A N : Type} `{!ChildFS A} `{!Tcp N} `{!TcpLaws N} (s : server A N)
    (short : bool) cp fsm m h rt rt' rt'' lines chain :
  session cp fsm m s → (1 <= length (VirtualRoot.cwd (root s)) < 255)%nat →
  VirtualRoot.vroot_opendir (VirtualRoot.cwd (root s)) (root s) = (h, rt) → h ≠ 0 →
  listing short h rt lines rt' → VirtualRoot.vroot_closedir h rt' = Ok rt'' →
  concat chain = (if short then text "NLST" else text "LIST") ++ newline →
  ∃ dp r1 s1, handle (Received cp (Some chain)) s = Ok (r1, s1) ∧
    ∀ n1, (∀ q, delivered q n1 = delivered q (tcp s1)) →
    ∃ r2 s2, handle (Connected dp) (set_tcp n1 s1) = Ok (r2, s2) ∧
      streams cp dp fsm (concat lines) (said cp (mfifo m) (tcp s) ++ msg150 ++ newline) (λ rt, rt = rt'') s2.
Proof.
  intros Hses Hcwd Ho Hh Hls Hcl Hch. pose proof Hses as ((Hcp & Hfsm & _) & _).
  assert (wp (handle (Received cp (Some chain))) (λ _ s1, ∃ dp fsd, dp ≠ 0 ∧ fsd ≠ 0 ∧ dp ≠ cp ∧
    awaiting cp dp fsm fsd (set_dir (Some h) (fresh_data fsm cp)) (stt short)
      (said cp (mfifo m) (tcp s) ++ msg150 ++ newline) s1 ∧ root s1 = rt) s) as H1.
  { assert (∀ n', quiet (tcp s) n' → wp (cmd_list_common [] cp fsm short) (λ _ s1, ∃ dp fsd, dp ≠ 0 ∧ fsd ≠ 0 ∧ dp ≠ cp ∧
      awaiting cp dp fsm fsd (set_dir (Some h) (fresh_data fsm cp)) (stt short)
        (said cp (mfifo m) (tcp s) ++ msg150 ++ newline) s1 ∧ root s1 = rt) (set_tcp n' s)) as Hcmd.
    { intros n' Hn. pose proof (list_begins short cp fsm m h rt [] (set_tcp n' s) (session_tcp _ _ _ _ _ Hses Hn) Hcwd Ho Hh) as H.
      unfold said in *. norm. by rewrite (proj1 Hn) in H. }
    destruct short.
    - eapply (wp_line 8 _ _ []); [done|reflexivity|done|done|by repeat constructor|by repeat constructor|done|exact Hcmd].
    - eapply (wp_line 9 _ _ []); [done|reflexivity|done|done|by repeat constructor|by repeat constructor|done|exact Hcmd]. }
  apply wp_run in H1 as (r1 & s1 & E1 & dp & fsd & Hdp & Hfsd & Hne & Haw & Hrt).
  exists dp, r1, s1. split; [done|]. intros n1 Hn1. apply wp_run.
  eapply (list_connected short cp dp fsm fsd h); try done; [by apply awaiting_tcp|]. cbn [root set_tcp]. by rewrite Hrt.
Qed.

(** The client of the sample in the root, whose entries are the volumes. *)
Definition sample_root : server (accessor view unit FatStore.ram) wire :=
  set_root (VirtualRoot.VirtualRootInit (FatStore.ram_disk sample_disk)) sample_server.

Definition sample_lines : list (list Z) :=
  match read_lines 32 false VirtualRoot.VirtualRootDirHandle (root sample_root) with Some (lines, _) => lines | None => [] end.

Lemma sample_listed :
  match read_lines 32 false VirtualRoot.VirtualRootDirHandle (root sample_root) with
  | Some (_, rt) => negb (inside rt)
  | None => false
  end = true.
Proof. vm_compute. reflexivity. Qed.

Lemma ftp_list_sends_entries_witness :
  ∃ dp r1 s1, handle (Received 5 (Some [text "LIST" ++ newline])) sample_root = Ok (r1, s1) ∧
    ∃ r2 s2 rt, handle (Connected dp) s1 = Ok (r2, s2) ∧
      streams 5 dp 1 (concat sample_lines) (said 5 (mfifo sample_msg) (tcp sample_root) ++ msg150 ++ newline) (λ r, r = rt) s2.
Proof.
  pose proof sample_listed as Hin. unfold sample_lines.
  destruct (read_lines 32 false VirtualRoot.VirtualRootDirHandle (root sample_root)) as [[lines rt']|] eqn:E; [|done].
  destruct (ftp_list_sends_entries sample_root false 5 1 sample_msg VirtualRoot.VirtualRootDirHandle (root sample_root) rt'
    (VirtualRoot.mkRoot (inside rt') (VirtualRoot.cwd rt') 0 (fs rt')) lines [text "LIST" ++ newline]) as (dp & r1 & s1 & E1 & H).
  - apply sample_session.
  - vm_compute. lia.
  - reflexivity.
  - done.
  - by eapply read_lines_listing.
  - unfold VirtualRoot.vroot_closedir. by apply negb_true_iff in Hin as ->.
  - reflexivity.
  - exists dp, r1, s1. split; [exact E1|]. destruct (H (tcp s1) ltac:(done)) as (r2 & s2 & E2 & H3).
    exists r2, s2. eexists. replace (set_tcp (tcp s1) s1) with s1 in E2 by (by destruct s1). split; [exact E2|exact H3].
Defined.

End FtpdList.
