(* ===== verification/FtpdFaults.v ===== *)
(** * Where the FTP server leaves defined behaviour

    Lines and events a client can cause for which a callback follows a null pointer
    or one to a freed block. *)

From Stdlib Require Import String.
From stdpp Require Import gmap.
From S2P Require Import Prelude Strtol Format Strings Partition FatFiles VirtualRoot LwipTcp Sfifo Ftpd FtpdRun.

Module FtpdFaults.
Import LwipTcp Sfifo Ftpd FtpdRun.
Import VirtualRoot(ChildFS).

Section faults.
Context {A N : Type} `{!ChildFS A} `{!Tcp N}.
Implicit Types s : server A N.

Lemma bind_ub {B C} (m : ST (server A N) B) (f : B → ST (server A N) C) s :
  (∀ b s', m s = Ok (b, s') → f b s' = UB) → (m ≫= f) s = UB.
Proof. unfold mbind, ST_mbind. destruct (m s) as [[b s']|]; auto. Qed.

Lemma get_msg_ok p (m : ftpd_msgstate) s s' : get_msg p s = Ok (m, s') → s' = s ∧ msgs s !! p = Some m.
Proof. unfold get_msg. destruct (msgs s !! p); [|done]. by intros [= -> ->]. Qed.

Lemma free_msg_gone p s r s' : free_msg p s = Ok (r, s') → msgs s' !! p = None.
Proof.
  unfold free_msg, get_msg, modify, mbind, ST_mbind. destruct (msgs s !! p); [|done]. intros [= _ <-]. cbn. apply lookup_delete_eq.
Qed.

(** The flag for passive mode is never cleared: after a passive transfer the next one
    without PASV follows the null pointer [datafs]. *)
Lemma passive_again_undefined pcb fsm m h stt s :
  msgs s !! fsm = Some m → passive m = true → datafs m = 0 → datas s !! 0 = None →
  begin_transfer pcb fsm h stt s = UB.
Proof.
  intros Hm Hp Hd H0. unfold begin_transfer, open_dataconnection, get_msg, upd_data, get_data, mbind, ST_mbind. rewrite Hm, Hp.
  unfold mret, ST_mret. cbn [Z.eqb negb]. by rewrite Hm, Hd, H0.
Qed.

(** ABOR aborts the control connection instead of the data connection: the error
    callback frees the session, which the command then uses. *)
Lemma abort_undefined arg pcb fsm m c s :
  pcb ≠ 0 → msgs s !! fsm = Some m → datafs m ≠ 0 → fsm ≠ 0 → pcb ≠ datapcb m →
  pcbs s !! pcb = Some c → errf c = Some Msg → callback_arg c = fsm →
  cmd_abrt arg pcb fsm s = UB.
Proof.
  intros Hp Hm Hd Hf Hne Hc He Ha. unfold cmd_abrt. apply bind_ub. intros m' s0 [-> Hm']%get_msg_ok.
  assert (m' = m) as -> by congruence. destruct (Z.eqb_spec (datafs m) 0); [done|]. cbn [negb]. apply bind_ub. intros r s' E. exfalso.
  revert E. cut (∀ s1, pcbs s1 !! pcb = Some c →
    (tcp_abort pcb ;; m0 ← get_msg fsm; free_data (datafs m0) ;; upd_msg fsm (set_datafs 0)) s1 = UB).
  - intros Habort. unfold tcp_arg, tcp_sent, tcp_recv, upd_pcb. destruct (Z.eqb_spec (datapcb m) 0).
    + unfold mbind at 1 2 3, ST_mbind at 1 2 3, mret, ST_mret. by rewrite Habort.
    + unfold mbind at 1 2 3, ST_mbind at 1 2 3, modify. rewrite Habort; [done|]. cbn [pcbs set_pcbs]. by rewrite !lookup_insert_ne.
  - intros s1 Hc1. apply bind_ub. intros ? s2 E. unfold mbind, ST_mbind.
    assert (msgs s2 !! fsm = None) as Hgone; [|unfold get_msg; by rewrite Hgone].
    unfold tcp_abort in E. destruct (Z.eqb_spec pcb 0); [done|].
    unfold mbind at 1 2 3, ST_mbind at 1 2 3, gets, call', modify in E. cbn [pcbs set_pcbs set_tcp] in E. rewrite Hc1 in E.
    cbn [from_option id] in E. unfold event_err in E. rewrite He, Ha in E. unfold ftpd_msgerr in E.
    destruct (Z.eqb_spec fsm 0); [done|]. unfold mbind, ST_mbind in E.
    repeat match type of E with match ?x with _ => _ end = _ => destruct x as [[? ?]|]; [|done] end.
    by apply free_msg_gone in E.
Qed.

(** The client closes the data connection of a listing: [vfs_close] gets NULL. *)
Lemma close_listing_undefined fsd pcb d s :
  datas s !! fsd = Some d → vfs_file d = None → ftpd_datarecv fsd pcb None ERR_OK s = UB.
Proof. intros Hd Hf. unfold ftpd_datarecv, get_data, mbind, ST_mbind. cbn [Z.eqb ERR_OK]. by rewrite Hd, Hf. Qed.

(** A line that is only a line end: the octet in front of the text is read. *)
Lemma empty_line_undefined fsm pcb s n' :
  malloc 3 (tcp_recved pcb 2 (tcp s)) = (true, n') → ftpd_msgrecv fsm pcb (Some [newline]) ERR_OK s = UB.
Proof.
  intros Hm. unfold ftpd_msgrecv. change (ERR_OK =? ERR_OK) with true. cbv iota zeta.
  unfold call', call, on_tcp, modify, mbind, ST_mbind, zoom, net. cbn [set_tcp tcp].
  change (Z.of_nat (List.length (concat [newline])) + 1) with 3. change (u16 (Z.of_nat (List.length (concat [newline])))) with 2.
  by rewrite Hm.
Qed.

(** The session ends after PASV and before the data connection: [tcp_close] gets
    NULL. *)
Lemma close_after_pasv_undefined pcb fsm m s :
  msgs s !! fsm = Some m → datafs m ≠ 0 → datapcb m = 0 → pcb ≠ 0 → ftpd_msgclose pcb fsm s = UB.
Proof.
  intros Hm Hd Hp Hpcb. unfold ftpd_msgclose. do 3 (apply bind_ub; intros ? ? E;
    unfold tcp_arg, tcp_sent, tcp_recv, upd_pcb in E; destruct (Z.eqb_spec pcb 0); [done|]; injection E as _ <-).
  apply bind_ub. intros m' s' [-> Hm']%get_msg_ok. cbn [msgs set_pcbs] in Hm'. assert (m' = m) as -> by congruence.
  destruct (Z.eqb_spec (datafs m) 0); [done|]. cbn [negb]. apply bind_ub. intros r s' E. exfalso. revert E. rewrite Hp.
  unfold ftpd_dataclose. rewrite (bind_ub (tcp_arg 0 0)); [done|]. intros ? ? ?. do 2 (apply bind_ub; intros ? ? ?).
  do 2 (apply bind_ub; intros ? ? ?). do 4 (apply bind_ub; intros ? ? ?). done.
Qed.

(** No port can be bound: the data connection is closed before it belongs to a
    session. *)
Lemma no_port_undefined pcb fsd d s :
  datas s !! fsd = Some d → msgfs d = 0 → msgs s !! 0 = None → pcb ≠ 0 → ftpd_dataclose pcb fsd s = UB.
Proof.
  intros Hd Hm H0 Hp. unfold ftpd_dataclose. do 3 (apply bind_ub; intros ? ? E;
    unfold tcp_arg, tcp_sent, tcp_recv, upd_pcb in E; destruct (Z.eqb_spec pcb 0); [done|]; injection E as _ <-).
  apply bind_ub. intros d' s' E. unfold get_data in E. cbn [datas set_pcbs] in E. rewrite Hd in E. injection E as <- <-.
  apply bind_ub. intros m' s' [_ Hm']%get_msg_ok. cbn [msgs set_pcbs] in Hm'. congruence.
Qed.

End faults.

End FtpdFaults.
