(* ===== verification/Script.v ===== *)
(** * The script engine ([src/xblast/scriptEngine/xblastScriptEngine.c])

    [runScript] tokenizes one line at a time into at most five arguments,
    decodes them and executes them from the last to the first around one
    accumulator.  The lists of variables, labels and IF statements are lists
    here (an entry is only ever appended); what the device functions of
    [functionsAccessor.c] do is recorded as an [effect], and what they read is
    an argument, [inputs].

    Undefined behaviour is [UB]: an index outside an array or a block, a null
    or uninitialised pointer, a division by zero, a shift out of range.  One
    point is taken as the compiled code has it: signed overflow wraps. *)

From Stdlib Require Import String Ascii.
From S2P Require Import Prelude Strtol.
Import Strtol(at_, strtol).

Abbreviation length := List.length.

Module Script.

(** The octets of a string constant. *)
Definition str (s : string) : list Z := map (λ c, Z.of_nat (nat_of_ascii c)) (list_ascii_of_string s).

(** ** Constants *)

Definition ARGTYPE_UNKNOWN : Z := 255.   (* -1 stored in an unsigned char *)
Definition ARGTYPE_FUNCTION : Z := 0.
Definition ARGTYPE_OPERATOR : Z := 1.
Definition ARGTYPE_VARIABLE : Z := 2.
Definition ARGTYPE_NUMERIC : Z := 3.
Definition ARGTYPE_STRING : Z := 4.

Definition OPTYPE_EQ : Z := 6.
Definition OPTYPE_PLUS : Z := 7.
Definition OPTYPE_MINUS : Z := 8.
Definition OPTYPE_MULT : Z := 9.
Definition OPTYPE_DIVIDE : Z := 10.
Definition OPTYPE_MOD : Z := 11.
Definition OPTYPE_SHIFTUP : Z := 12.
Definition OPTYPE_SHIFTDOWN : Z := 13.

Definition functionCallList : list (list Z) :=
  Eval cbv in map str ["IF"; "ELSE"; "ENDIF"; "GOTO"; "GPI"; "GPO"; "WAIT"; "BOOT"; "FAN"; "LED"; "LCDW";
                       "LCDC"; "LCDR"; "LCDB"; "LCDP"; "VAR"; "SPIR"; "SPIW"; "XPAD"; "END"]%string.

(** The operators, by their [OPTYPE] number. *)
Definition operators : list (list Z) :=
  Eval cbv in map str ["=="; "!="; ">"; "<"; ">="; "<="; "="; "+"; "-"; "*"; "/"; "%"; "<<"; ">>"]%string.

Definition MAXINSTRUCTIONLENGTH : Z := 100.
Definition TRIGGER_XPAD_KEY_A : Z := 0.
Definition TRIGGER_XPAD_KEY_WHITE : Z := 5.

(** ** Data *)

Record variableEntry := mkVar { name : list Z; vvalue : Z; readOnly : bool }.
Record labelEntry := mkLabel { lname : list Z; stringPos : Z }.
Record ifStatementEntry := mkIf {
  ifPosition : Z; elsePosition : Z; endifPosition : Z; validAssertion : bool }.

Record argument := mkArg { exist : bool; type : Z; value : Z; text : option (list Z) }.

(** Calls of the device functions. *)
Inductive effect :=
| gpoFunction (port value : Z) | waitFunction (ms : Z) | bootFunction (bank : Z)
| fanFunction (value : Z) | ledFunction (text : list Z)
| lcdPrintFunction (line : Z) (text : list Z) (stringLength : Z)
| lcdClearLineFunction (line : Z) | lcdResetFunction | lcdBacklightFunction (value : Z)
| lcdPowerFunction (value : Z) | SPIWrite (data : Z).

(** What the device functions read while a line runs. *)
Record inputs := mkInputs {
  gpiFunction : Z → Z; SPIRead : Z; XPADRead : Z → Z; emergencyEscape : bool; LineSize : Z }.

(** ** Variables *)

Definition is_name (n : list Z) (v : variableEntry) : bool := bool_decide (name v = n).

Definition variableFunction (n : list Z) (initValue : Z) (ro : bool) (vars : list variableEntry)
    : bool * list variableEntry :=
  if existsb (is_name n) vars then (false, vars)
  else (true, vars ++ [mkVar n initValue ro]).

(** An empty list is reported as an update. *)
Fixpoint update_entries (n : list Z) (v : Z) (vars : list variableEntry)
    : bool * list variableEntry :=
  match vars with
  | [] => (false, [])
  | e :: vars' =>
      if is_name n e then (true, (if readOnly e then e else mkVar (name e) v (readOnly e)) :: vars')
      else let '(b, vs) := update_entries n v vars' in (b, e :: vs)
  end.

Definition updateVariable (n : list Z) (v : Z) (vars : list variableEntry)
    : bool * list variableEntry :=
  match vars with [] => (true, []) | _ => update_entries n v vars end.

(** ** Tokenizer *)

Definition rd (buf : list Z) (i : Z) : outcome Z :=
  if 0 <=? i then match buf !! Z.to_nat i with Some c => Ok c | None => UB end else UB.

Definition is_arith (c : Z) : bool := bool_decide (c ∈ str "+-*/%").

(** The tests of [checkEndOfArgument] outside a text string, on the characters
    before and at the position; [true] is "not the end". *)
Definition in_argument (buf : list Z) (position prev2 prev cur : Z) : bool :=
  if bool_decide (cur ∈ [0; 40; 35; 41; 44]) then false
  else if is_arith cur then false
  else if (1 <=? position) &&
          ((cur =? 33) || ((cur =? 62) && negb (prev =? 62)) || ((cur =? 60) && negb (prev =? 60)) ||
           ((cur =? 61) && negb (bool_decide (prev ∈ [61; 33; 62; 60])))) then false
  else if (2 <=? position) &&
          (((prev2 =? 62) && (prev =? 62)) || ((prev2 =? 60) && (prev =? 60))) then false
  else if (1 <=? position) &&
          (is_arith prev || ((prev =? 61) && negb (cur =? 61)) ||
           ((prev =? 62) && negb (cur =? 61) && negb (cur =? 62)) ||
           ((prev =? 60) && negb (cur =? 61) && negb (cur =? 60))) then false
  else if (position =? 3) && bool_decide (take 3 buf = str "VAR") then false
  else if (position =? 4) && bool_decide (take 4 buf = str "GOTO") then false
  else true.

(** [checkEndOfArgument]: the result and the new [stringDeclaration]. *)
Definition checkEndOfArgument (buf : list Z) (position : Z) (decl : bool) : outcome (bool * bool) :=
  prev ← (if 1 <=? position then rd buf (position - 1) else Ok 0);
  if (1 <=? position) && (prev =? 34) && negb decl then Ok (true, true)
  else if (1 <=? position) && decl then
    if prev =? 34 then Ok (false, false)
    else cur ← rd buf position; Ok (if cur =? 0 then (false, false) else (true, true))
  else
    cur ← rd buf position;
    prev2 ← (if 2 <=? position then rd buf (position - 2) else Ok 0);
    Ok (in_argument buf position prev2 prev cur, false).

(** [while(checkEndOfArgument(compareBuf, tempPtr)) tempPtr += 1]; the buffer
    bounds the walk. *)
Fixpoint end_of_argument (fuel : nat) (buf : list Z) (tempPtr : Z) (decl : bool)
    : outcome (Z * bool) :=
  match fuel with
  | O => UB
  | S fuel' =>
      '(go, decl) ← checkEndOfArgument buf tempPtr decl;
      if (go : bool) then end_of_argument fuel' buf (tempPtr + 1) decl else Ok (tempPtr, decl)
  end.

Fixpoint skip_separators (fuel : nat) (buf : list Z) (tempPtr : Z) : outcome Z :=
  match fuel with
  | O => UB
  | S fuel' =>
      c ← rd buf tempPtr;
      if bool_decide (c ∈ [40; 44; 41]) then skip_separators fuel' buf (tempPtr + 1) else Ok tempPtr
  end.

(** The argument positions of a line, first and last octet of each. *)
Fixpoint split_arguments (n : nat) (buf : list Z) (tempPtr : Z) (decl : bool)
    : outcome (list (Z * Z) * bool) :=
  match n with
  | O => Ok ([], decl)
  | S n' =>
      c ← rd buf tempPtr;
      if negb (c =? 0) && (tempPtr <? 100) then
        '(p, decl) ← end_of_argument 101 buf (tempPtr + 1) decl;
        q ← skip_separators 101 buf p;
        '(l, decl) ← split_arguments n' buf q decl;
        Ok ((tempPtr, p - 1) :: l, decl)
      else Ok ([], decl)
  end.

(** A C string: the octets before the first zero. *)
Fixpoint c_string (l : list Z) : list Z :=
  match l with [] => [] | c :: l' => if c =? 0 then [] else c :: c_string l' end.

(** The copy of an argument in [tempBuf], which has 50 octets. *)
Definition argument_text (buf : list Z) (a : Z * Z) : outcome (list Z) :=
  let n := a.2 + 1 - a.1 in
  if n <? 50 then Ok (c_string (take (Z.to_nat n) (drop (Z.to_nat a.1) buf))) else UB.

(** ** Decoding *)

(** The index of [s] in a list of constants. *)
Fixpoint index_of (s : list Z) (l : list (list Z)) : option Z :=
  match l with
  | [] => None
  | x :: l' => if bool_decide (x = s) then Some 0 else (λ i, i + 1) <$> index_of s l'
  end.

(** [decodeArgument]; [old] is the value left from an earlier line, which a
    string argument keeps. *)
Definition decodeArgument (s : list Z) (old : Z) (vars : list variableEntry)
    : outcome (Z * Z * option (list Z)) :=
  match index_of s functionCallList with
  | Some i => Ok (ARGTYPE_FUNCTION, i, Some s)
  | None =>
  match index_of s operators with
  | Some i => Ok (ARGTYPE_OPERATOR, i, None)
  | None =>
      let quoted := at_ s 0 =? 34 in
      match (if quoted then None else List.find (is_name s) vars) with
      | Some v => Ok (ARGTYPE_VARIABLE, vvalue v, Some (name v))
      | None =>
          if negb quoted && (((48 <=? at_ s 0) && (at_ s 0 <=? 57)) || (at_ s 0 =? 45))
          then Ok (ARGTYPE_NUMERIC, strtol s 0, None)
          else
            let n := Z.of_nat (length s) - (if quoted then 2 else 0) in
            if n <? 0 then UB
            else Ok (ARGTYPE_STRING, old, Some (take (Z.to_nat n) (if quoted then drop 1 s else s)))
      end
  end
  end.

(** ** The file *)

(** The script, the size passed with it and the size of the block it is in;
    the loops read the octet after the last line when it has no line feed. *)
Record script := mkScript { octets : mem; fileSize : Z; allocated : Z }.

Definition rdf (f : script) (i : Z) : outcome Z :=
  if (0 <=? i) && (i <? allocated f) then Ok (octets f i) else UB.

(** [while(file[p] != '\n' && p < fileSize && counter < limit) p++]; without a
    limit the size of the file bounds it. *)
Fixpoint end_of_line (fuel : nat) (f : script) (p : Z) : outcome Z :=
  c ← rdf f p;
  match fuel with
  | O => Ok p
  | S fuel' => if negb (c =? 10) && (p <? fileSize f) then end_of_line fuel' f (p + 1) else Ok p
  end.

Definition whole_line (f : script) (p : Z) : outcome Z :=
  end_of_line (S (Z.to_nat (fileSize f))) f p.

(** [strncpy(buf, &file[start], n)]: the copied string, and the buffer with a
    terminator after [n] octets. *)
Definition line_text (f : script) (start n : Z) : list Z :=
  c_string (mem_read (octets f) start (Z.to_nat n)).
Definition copy_line (f : script) (start n : Z) (buf : list Z) : list Z :=
  let t := line_text f start n in
  t ++ replicate (Z.to_nat n - length t) 0 ++ [0] ++ drop (Z.to_nat n + 1) buf.

(** ** Labels *)

(** [addNewLabel]; [compareBuf] holds the line with its dollar sign. *)
Definition addNewLabel (labels : list labelEntry) (line : list Z) (position : Z) : list labelEntry :=
  if decide (2 <= length line)%nat then labels ++ [mkLabel (drop 1 line) position] else labels.

Fixpoint parseFileForLabels_loop (fuel : nat) (f : script) (start stop : Z) (labels : list labelEntry)
    : outcome (list labelEntry) :=
  if stop <? fileSize f then
    match fuel with
    | O => UB
    | S fuel' =>
        stop ← whole_line f stop;
        c ← rdf f start;
        labels ← (if c =? 36 then
                    if stop - start <? 100
                    then Ok (addNewLabel labels (line_text f start (stop - start)) start)
                    else UB
                  else Ok labels);
        parseFileForLabels_loop fuel' f (stop + 1) (stop + 1) labels
    end
  else Ok labels.

Definition parseFileForLabels (f : script) : outcome (list labelEntry) :=
  parseFileForLabels_loop (Z.to_nat (fileSize f)) f 0 0 [].

(** ** IF statements *)

(** The first six octets of a line, up to a parenthesis or its end. *)
Fixpoint keyword_end (fuel : nat) (f : script) (t : Z) : outcome Z :=
  c ← rdf f t;
  match fuel with
  | O => Ok t
  | S fuel' => if bool_decide (c ∈ [40; 10; 0]) then Ok t else keyword_end fuel' f (t + 1)
  end.

(** The latest entry whose field is still -1, else the first one, is updated. *)
Fixpoint attach (get : ifStatementEntry → Z) (set : ifStatementEntry → ifStatementEntry)
    (rev_ifs : list ifStatementEntry) : option (list ifStatementEntry) :=
  match rev_ifs with
  | [] => None
  | e :: es =>
      if get e =? -1 then Some (set e :: es)
      else match es with [] => None | _ => (λ es', e :: es') <$> attach get set es end
  end.

Definition attach_last (get : ifStatementEntry → Z) (set : ifStatementEntry → ifStatementEntry)
    (ifs : list ifStatementEntry) : option (list ifStatementEntry) :=
  (λ l, rev l) <$> attach get set (rev ifs).

Definition set_else (p : Z) (e : ifStatementEntry) : ifStatementEntry :=
  mkIf (ifPosition e) p (endifPosition e) (validAssertion e).
Definition set_endif (p : Z) (e : ifStatementEntry) : ifStatementEntry :=
  mkIf (ifPosition e) (elsePosition e) p (validAssertion e).
Definition set_valid (b : bool) (e : ifStatementEntry) : ifStatementEntry :=
  mkIf (ifPosition e) (elsePosition e) (endifPosition e) b.

(** What a keyword does to the table; [None] is the error return. *)
Definition if_keyword (word : list Z) (pos : Z) (ifs : list ifStatementEntry)
    : option (list ifStatementEntry) :=
  if bool_decide (word = str "IF") then Some (ifs ++ [mkIf pos (-1) (-1) false])
  else if bool_decide (word = str "ELSE") then attach_last elsePosition (set_else pos) ifs
  else if bool_decide (word = str "ENDIF") then attach_last endifPosition (set_endif pos) ifs
  else Some ifs.

(** [compareBuf] has six octets: a word of six has no room for its terminator. *)
Fixpoint parseFileForIFStatements_loop (fuel : nat) (f : script) (start stop : Z)
    (ifs : list ifStatementEntry) : outcome (option (list ifStatementEntry)) :=
  if stop <? fileSize f then
    match fuel with
    | O => UB
    | S fuel' =>
        stop ← whole_line f stop;
        t ← keyword_end 6 f start;
        if 6 <=? t - start then UB else
        let word := if 2 <=? t - start then line_text f start (t - start) else [] in
        match if_keyword word (stop + 1) ifs with
        | None => Ok None
        | Some ifs => parseFileForIFStatements_loop fuel' f (stop + 1) (stop + 1) ifs
        end
    end
  else Ok (Some ifs).

Definition parseFileForIFStatements (f : script) : outcome (option (list ifStatementEntry)) :=
  parseFileForIFStatements_loop (Z.to_nat (fileSize f)) f 0 0 [].

(** ** Conditions and arithmetic *)

Definition ifFunction (param1 op param2 : Z) : bool :=
  if op =? 0 then param1 =? param2
  else if op =? 1 then negb (param1 =? param2)
  else if op =? 2 then param2 <? param1
  else if op =? 3 then param1 <? param2
  else if op =? 4 then param2 <=? param1
  else if op =? 5 then param1 <=? param2
  else false.

(** [/], [%], [<<] and [>>] of C on [int]. *)
Definition c_div (a b : Z) : outcome Z :=
  if (b =? 0) || ((a =? - 2 ^ 31) && (b =? -1)) then UB else Ok (Z.quot a b).
Definition c_mod (a b : Z) : outcome Z :=
  if (b =? 0) || ((a =? - 2 ^ 31) && (b =? -1)) then UB else Ok (Z.rem a b).
Definition c_shl (a b : Z) : outcome Z :=
  if (0 <=? b) && (b <? 32) then Ok (s32 (Z.shiftl a b)) else UB.
Definition c_shr (a b : Z) : outcome Z :=
  if (0 <=? b) && (b <? 32) then Ok (Z.shiftr a b) else UB.

(** A variable met with the accumulator in use. *)
Definition arith_variable (op v acc : Z) : outcome Z :=
  if op =? OPTYPE_PLUS then Ok (s32 (acc + v))
  else if op =? OPTYPE_MINUS then Ok (s32 (v - acc))
  else if op =? OPTYPE_MULT then Ok (s32 (acc * v))
  else if op =? OPTYPE_DIVIDE then c_div v acc
  else if op =? OPTYPE_MOD then c_mod v acc
  else if op =? OPTYPE_SHIFTUP then c_shl v acc
  else if op =? OPTYPE_SHIFTDOWN then c_shr v acc
  else Ok acc.

(** A number met with the accumulator in use. *)
Definition arith_numeric (op v acc : Z) : outcome Z :=
  if op =? OPTYPE_PLUS then Ok (s32 (acc + v))
  else if op =? OPTYPE_MINUS then Ok (s32 (acc - v))
  else if op =? OPTYPE_MULT then Ok (s32 (acc * v))
  else if op =? OPTYPE_DIVIDE then c_div acc v
  else if op =? OPTYPE_MOD then c_mod v acc
  else if op =? OPTYPE_SHIFTUP then c_shl v acc
  else if op =? OPTYPE_SHIFTDOWN then c_shr v acc
  else Ok acc.

(** ** Execution of a line *)

(** The local variables of [runScript] that outlive a line. *)
Record state := mkState {
  stringStartPtr : Z;
  stringStopPtr : Z;
  argumentList : list argument;
  variables : list variableEntry;
  ifs : list ifStatementEntry;
  ifEntry : option nat;          (* the index of the entry; [None] before it is set *)
  compareBuf : list Z;
  stringDeclaration : bool;
  effects : list effect
}.

Definition set_ptr (a b : Z) (s : state) : state :=
  mkState a b (argumentList s) (variables s) (ifs s) (ifEntry s) (compareBuf s)
          (stringDeclaration s) (effects s).
Definition set_args (l : list argument) (s : state) : state :=
  mkState (stringStartPtr s) (stringStopPtr s) l (variables s) (ifs s) (ifEntry s) (compareBuf s)
          (stringDeclaration s) (effects s).
Definition set_vars (v : list variableEntry) (s : state) : state :=
  mkState (stringStartPtr s) (stringStopPtr s) (argumentList s) v (ifs s) (ifEntry s) (compareBuf s)
          (stringDeclaration s) (effects s).
Definition set_ifs (l : list ifStatementEntry) (e : option nat) (s : state) : state :=
  mkState (stringStartPtr s) (stringStopPtr s) (argumentList s) (variables s) l e (compareBuf s)
          (stringDeclaration s) (effects s).
Definition set_buf (b : list Z) (d : bool) (s : state) : state :=
  mkState (stringStartPtr s) (stringStopPtr s) (argumentList s) (variables s) (ifs s) (ifEntry s) b d
          (effects s).
Definition emit (e : effect) : ST state unit := modify (λ s,
  mkState (stringStartPtr s) (stringStopPtr s) (argumentList s) (variables s) (ifs s) (ifEntry s)
          (compareBuf s) (stringDeclaration s) (effects s ++ [e])).

(** The accumulator of a line. *)
Record line := mkLine { arithAccumulator : Z; accumulatorInUse : bool; arithOpInLine : Z }.

(** [false] is [goto endExecution]. *)
Definition flow : Type := bool * line.

Definition arg (i : nat) : ST state argument := λ s,
  match argumentList s !! i with Some a => Ok (a, s) | None => UB end.

Definition is_number (a : argument) : bool :=
  (type a =? ARGTYPE_VARIABLE) || (type a =? ARGTYPE_NUMERIC).

(** The index of the first entry from [from] on that passes the test, else of
    the last entry: how the search loops leave [ifEntry]. *)
Fixpoint search_if (test : ifStatementEntry → bool) (from : nat) (l : list ifStatementEntry) : option nat :=
  match l with
  | [] => None
  | [_] => Some from
  | e :: l' => if test e then Some from else search_if test (S from) l'
  end.

(** [ifEntry] is left at index [j]; its entry is read. *)
Definition select_if (j : option nat) : ST state ifStatementEntry := λ s,
  match j with
  | None => UB
  | Some j => match ifs s !! j with
              | Some e => Ok (e, set_ifs (ifs s) (Some j) s)
              | None => UB
              end
  end.

Definition assert_if (b : bool) : ST state unit := modify (λ s,
  match ifEntry s with
  | Some j => set_ifs (alter (set_valid b) j (ifs s)) (ifEntry s) s
  | None => s
  end).

Definition jump (p : Z) : ST state unit := modify (set_ptr p p).

Definition exec_if (i : nat) (l : line) : ST state flow :=
  a1 ← arg (i + 1);
  if negb (exist a1) then mret (false, l) else
  a2 ← arg (i + 2);
  if negb (exist a2) then mret (false, l) else
  a3 ← arg (i + 3);
  if negb (exist a3) then mret (false, l) else
  s ← gets id;
  e ← select_if (search_if (λ e, ifPosition e =? stringStartPtr s) 0 (ifs s));
  let v := ifFunction (value a1) (u8 (value a2)) (value a3) in
  assert_if v;;
  (if v then mret tt
   else jump (if elsePosition e =? -1 then endifPosition e else elsePosition e));;
  mret (true, l).

Definition exec_else (l : line) : ST state flow :=
  s ← gets id;
  e ← select_if (search_if (λ e, elsePosition e =? stringStartPtr s) 0 (ifs s));
  (if validAssertion e then jump (endifPosition e) else mret tt);;
  mret (true, l).

Definition exec_endif (l : line) : ST state flow :=
  s ← gets id;
  _ ← select_if (match ifEntry s with
                 | Some j => search_if (λ e, endifPosition e =? stringStartPtr s) j (drop j (ifs s))
                 | None => None
                 end);
  assert_if false;;
  mret (true, l).

Definition exec_goto (labels : list labelEntry) (i : nat) (l : line) : ST state flow :=
  a1 ← arg 1;
  if (i =? 0)%nat && exist a1 then
    match labels, text a1 with
    | [], _ => mret (true, l)
    | _, None => ub
    | _, Some t =>
        match List.find (λ x, bool_decide (lname x = t)) labels with
        | Some x => jump (stringPos x);; mret (true, l)
        | None => mret (true, l)
        end
    end
  else mret (true, l).

Definition load (v : Z) (l : line) : flow := (true, mkLine v true (arithOpInLine l)).

Definition exec_var (i : nat) (l : line) : ST state flow :=
  a1 ← arg 1;
  a3 ← arg 3;
  if (i =? 0)%nat && exist a1 then
    match text a1 with
    | None => ub
    | Some t =>
        modify (λ s, set_vars (variableFunction t (if exist a3 then value a3 else 0) false
                                                (variables s)).2 s);;
        mret (true, l)
    end
  else mret (false, l).

(** The first pressed button of the six, or the last reading. *)
Fixpoint cycle_buttons (read : Z → Z) (n : nat) (b : Z) : Z :=
  match n with
  | O => 0
  | S n' => let r := read b in
            if negb (r =? 0) then r else match n' with O => r | _ => cycle_buttons read n' (b + 1) end
  end.

Definition exec_xpad (inp : inputs) (l : line) : ST state flow :=
  a0 ← arg 0;
  a1 ← arg 1;
  a3 ← arg 3;
  mret (if (type a0 =? ARGTYPE_VARIABLE) && exist a1 then
          load (if negb (exist a3) then cycle_buttons (XPADRead inp) 6 (TRIGGER_XPAD_KEY_A + 1)
                else if (type a3 =? ARGTYPE_VARIABLE) && (TRIGGER_XPAD_KEY_A + 1 <=? value a3) &&
                        (value a3 <=? TRIGGER_XPAD_KEY_WHITE + 1)
                then XPADRead inp (value a3) else 0) l
        else (true, l)).

(** A function of one number. *)
Definition exec_unary (mk : Z → effect) (l : line) : ST state flow :=
  a1 ← arg 1;
  (if exist a1 && is_number a1 then emit (mk (value a1)) else mret tt);;
  mret (true, l).

Definition exec_gpi (inp : inputs) (l : line) : ST state flow :=
  a0 ← arg 0;
  a3 ← arg 3;
  mret (if (type a0 =? ARGTYPE_VARIABLE) && exist a3
        then load (gpiFunction inp (u8 (value a3))) l else (true, l)).

Definition exec_gpo (l : line) : ST state flow :=
  a1 ← arg 1;
  a2 ← arg 2;
  (if exist a1 && exist a2 then emit (gpoFunction (u8 (value a1)) (u8 (value a2))) else mret tt);;
  mret (true, l).

Definition exec_led (l : line) : ST state flow :=
  a1 ← arg 1;
  match (if exist a1 then text a1 else None) with
  | Some t => emit (ledFunction t);; mret (true, l)
  | None => mret (true, l)
  end.

Definition exec_lcdw (inp : inputs) (l : line) : ST state flow :=
  a1 ← arg 1;
  a2 ← arg 2;
  a3 ← arg 3;
  match (if exist a1 && exist a2 && (type a2 =? ARGTYPE_STRING) then text a2 else None) with
  | Some t =>
      emit (lcdPrintFunction (u8 (value a1)) t
              (u8 (if exist a3 && is_number a3 then value a3 else LineSize inp)));;
      mret (true, l)
  | None => mret (true, l)
  end.

Definition exec_spir (inp : inputs) (l : line) : ST state flow :=
  a0 ← arg 0;
  a1 ← arg 1;
  mret (if (type a0 =? ARGTYPE_VARIABLE) && exist a1 then load (SPIRead inp) l else (true, l)).

(** The [switch] on the function number. *)
Definition exec_function (inp : inputs) (labels : list labelEntry) (i : nat) (fn : Z) (l : line)
    : ST state flow :=
  match fn with
  | 0 => exec_if i l
  | 1 => exec_else l
  | 2 => exec_endif l
  | 3 => exec_goto labels i l
  | 4 => exec_gpi inp l
  | 5 => exec_gpo l
  | 6 => exec_unary waitFunction l
  | 7 => exec_unary bootFunction l
  | 8 => exec_unary (λ v, fanFunction (u8 v)) l
  | 9 => exec_led l
  | 10 => exec_lcdw inp l
  | 11 => exec_unary (λ v, lcdClearLineFunction (u8 v)) l
  | 12 => emit lcdResetFunction;; mret (true, l)
  | 13 => exec_unary (λ v, lcdBacklightFunction (u8 v)) l
  | 14 => exec_unary (λ v, lcdPowerFunction (u8 v)) l
  | 15 => exec_var i l
  | 16 => exec_spir inp l
  | 17 => exec_unary (λ v, SPIWrite (u8 v)) l
  | 18 => exec_xpad inp l
  | _ => mret (false, l)
  end.

(** The variable on the left of an assignment. *)
Definition exec_assign (a : argument) (l : line) : ST state flow :=
  a1 ← arg 1;
  if accumulatorInUse l && (type a1 =? ARGTYPE_OPERATOR) && (value a1 =? OPTYPE_EQ) then
    match text a with
    | None => ub
    | Some t =>
        modify (λ s, set_args (alter (λ a, mkArg (exist a) (type a) (arithAccumulator l) (text a)) 0%nat
                                     (argumentList s)) s);;
        ok ← gets (λ s, (updateVariable t (arithAccumulator l) (variables s)).1);
        modify (λ s, set_vars (updateVariable t (arithAccumulator l) (variables s)).2 s);;
        mret (ok, l)
    end
  else mret (true, l).

Definition accumulate (arith : Z → Z → Z → outcome Z) (v : Z) (l : line) : ST state flow :=
  if accumulatorInUse l then
    r ← liftO (arith (arithOpInLine l) v (arithAccumulator l));
    mret (true, mkLine r true (arithOpInLine l))
  else mret (load v l).

Definition exec_arg (inp : inputs) (labels : list labelEntry) (i : nat) (l : line) : ST state flow :=
  a ← arg i;
  if negb (exist a) then mret (true, l)
  else if type a =? ARGTYPE_FUNCTION then exec_function inp labels i (value a) l
  else if type a =? ARGTYPE_VARIABLE then
    if (i =? 0)%nat then exec_assign a l else accumulate arith_variable (value a) l
  else if type a =? ARGTYPE_OPERATOR then
    mret (true, mkLine (arithAccumulator l) (accumulatorInUse l) (value a))
  else if type a =? ARGTYPE_NUMERIC then accumulate arith_numeric (value a) l
  else mret (true, l).

(** [for(i = 4; i >= 0; i--)]. *)
Fixpoint exec_args (inp : inputs) (labels : list labelEntry) (n : nat) (l : line) : ST state bool :=
  match n with
  | O => mret true
  | S i =>
      '(go, l) ← exec_arg inp labels i l;
      if (go : bool) then exec_args inp labels i l else mret false
  end.

(** ** One line of the file *)

(** The cleanup from the last line. *)
Definition forget (a : argument) : argument :=
  mkArg false (type a) (value a) (if type a =? ARGTYPE_STRING then None else text a).

(** Decoding the arguments found on the line into the first entries. *)
Fixpoint decode_arguments (buf : list Z) (vars : list variableEntry) (ps : list (Z * Z))
    (old : list argument) : outcome (list argument) :=
  match ps, old with
  | p :: ps, a :: old =>
      t ← argument_text buf p;
      '(ty, v, tx) ← decodeArgument t (value a) vars;
      rest ← decode_arguments buf vars ps old;
      Ok (mkArg true ty v tx :: rest)
  | _, _ => Ok old
  end.

(** The value of [arithAccumulator] before it is set is never used. *)
Definition fresh_line : line := mkLine 0 false (-1).

Definition run_line (inp : inputs) (f : script) (labels : list labelEntry) : ST state bool :=
  s ← gets id;
  stop ← liftO (end_of_line 100 f (stringStopPtr s));
  c ← liftO (rdf f (stringStartPtr s));
  if c =? 36 then modify (set_ptr (stop + 1) (stop + 1));; mret true
  else
    let n := stop - stringStartPtr s in
    if MAXINSTRUCTIONLENGTH <=? n then mret false
    else
      let buf := copy_line f (stringStartPtr s) n (compareBuf s) in
      modify (set_buf buf (stringDeclaration s));;
      modify (set_ptr (stop + 1) (stop + 1));;
      modify (set_args (forget <$> argumentList s));;
      if emergencyEscape inp then mret false
      else
        '(ps, d) ← liftO (split_arguments 5 buf 0 (stringDeclaration s));
        modify (set_buf buf d);;
        args ← liftO (decode_arguments buf (variables s) ps (forget <$> argumentList s));
        modify (set_args args);;
        exec_args inp labels 5 fresh_line.

(** The main loop from the [n]th line run; [true] when it ends within the fuel. *)
Fixpoint run_lines (fuel : nat) (n : nat) (inp : nat → inputs) (f : script) (labels : list labelEntry)
    : ST state bool :=
  s ← gets id;
  if u32 (stringStopPtr s) <? fileSize f then
    match fuel with
    | O => mret false
    | S fuel' =>
        go ← run_line (inp n) f labels;
        if (go : bool) then run_lines fuel' (S n) inp f labels else mret true
    end
  else mret true.

(** ** [runScript] *)

(** [sprintf("%u")]. *)
Fixpoint decimal (fuel : nat) (n : Z) : list Z :=
  match fuel with
  | O => []
  | S fuel' => if n <? 10 then [48 + n] else decimal fuel' (n / 10) ++ [48 + n mod 10]
  end.

Fixpoint add_params (i : Z) (params : list Z) (vars : list variableEntry) : list variableEntry :=
  match params with
  | [] => vars
  | p :: params =>
      add_params (i + 1) params (variableFunction (str "_param" ++ decimal 10 i) p false vars).2
  end.

Definition constants : list (list Z * Z) :=
  [(str "BNK512", 0x84); (str "BNK256", 0x86); (str "BNKOS", 0x87); (str "BNKFULLTSOP", 0);
   (str "BNKTSOPSPLIT0", 0x10); (str "BNKTSOPSPLIT1", 0x18); (str "xpadA", 1); (str "xpadB", 2);
   (str "xpadX", 3); (str "xpadY", 4); (str "xpadBl", 5); (str "xpadW", 6)].

Definition add_constants (vars : list variableEntry) : list variableEntry :=
  foldl (λ vs c, (variableFunction c.1 c.2 true vs).2) vars constants.

Definition initial_variables (params : list Z) : list variableEntry :=
  add_constants (add_params 0 params []).

(** [stack] is what [compareBuf] holds before the first line. *)
Definition initial_state (stack : list Z) (params : list Z) (table : list ifStatementEntry) : state :=
  mkState 0 0 (replicate 5 (mkArg false ARGTYPE_UNKNOWN 0 None)) (initial_variables params)
          table None stack false [].

(** The effects of a run, the variables at its end, and whether it ended. *)
Definition runScript (fuel : nat) (inp : nat → inputs) (f : script) (stack params : list Z)
    : outcome (bool * state) :=
  labels ← parseFileForLabels f;
  table ← parseFileForIFStatements f;
  match table with
  | None => Ok (true, initial_state stack params [])
  | Some table => run_lines fuel 0 inp f labels (initial_state stack params table)
  end.

(** ** [trimScript] *)

Definition is_blank (c : Z) : bool := (c =? 32) || (c =? 9).

Fixpoint skip_blanks (fuel : nat) (f : script) (start stop : Z) : outcome Z :=
  match fuel with
  | O => Ok start
  | S fuel' =>
      c ← rdf f start;
      if is_blank c && (start <? stop) then skip_blanks fuel' f (start + 1) stop else Ok start
  end.

(** The octets of a line that are copied: no comment, and outside text strings
    no blank; in a text string a tab becomes a space. *)
Fixpoint trim_line (l : list Z) (insideTextString : bool) : list Z :=
  match l with
  | [] => []
  | c :: l' =>
      if c =? 35 then []
      else
        let inside := if c =? 34 then negb insideTextString else insideTextString in
        if negb (is_blank c) || inside
        then (if (c =? 9) && inside then 32 else c) :: trim_line l' inside
        else trim_line l' inside
  end.

(** The segments: [lineBuf] up to its line feed. *)
Fixpoint trim_lines (fuel : nat) (f : script) (stop : Z) (segments : list (list Z))
    : outcome (list (list Z)) :=
  if stop <? fileSize f then
    match fuel with
    | O => UB
    | S fuel' =>
        let start := stop in
        stop ← whole_line f stop;
        start ← skip_blanks (S (Z.to_nat (stop - start))) f start stop;
        c ← rdf f start;
        if (c =? 35) || (start =? stop) then trim_lines fuel' f (stop + 1) segments
        else
          cr ← rdf f (stop - 1);
          let CRdetected := if cr =? 13 then 1 else 0 in
          let t := trim_line (mem_read (octets f) start (Z.to_nat (stop - CRdetected - start))) false in
          if Z.of_nat (length t) <? 100
          then trim_lines fuel' f (stop + 1) (segments ++ [t ++ [10]])
          else UB
    end
  else Ok segments.

(** The first line feed of the last segment becomes a zero. *)
Fixpoint terminate (l : list Z) : list Z :=
  match l with [] => [] | c :: l' => if c =? 10 then 0 :: l' else c :: terminate l' end.

Fixpoint terminate_last (segments : list (list Z)) : list (list Z) :=
  match segments with
  | [] => []
  | [l] => [terminate l]
  | l :: ls => l :: terminate_last ls
  end.

(** A segment as it is counted and copied: up to its line feed or zero. *)
Fixpoint segment (l : list Z) : list Z :=
  match l with
  | [] => []
  | c :: l' => if (c =? 10) || (c =? 0) then [c] else c :: segment l'
  end.

(** The new contents of the file; a file without a line to keep dereferences
    the null [currentSegment]. *)
Definition trimScript (f : script) : outcome (list Z) :=
  segments ← trim_lines (Z.to_nat (fileSize f)) f 0 [];
  match segments with
  | [] => UB
  | _ => Ok (List.concat (map segment (terminate_last segments)))
  end.

End Script.
