(* ===== verification/ScriptText.v ===== *)
(** * The script as lines of text

    [trimScript] and the two parse passes of [runScript] walk an array of
    octets.  Here a file is the list of its lines: trimming keeps or drops a
    line and rewrites it, a label is a line with its position, and the table of
    IF statements is a fold over the lines.  The walks are compared with these
    definitions. *)

From Stdlib Require Import String.
From S2P Require Import Prelude Strtol Script.
From stdpp Require Import list sets.

Open Scope Z_scope.
Abbreviation length := List.length.

Module ScriptText.
Import Script.

(** An octet of a line. *)
Definition inner (c : Z) : Prop := c ≠ 0 ∧ c ≠ 10.

(** Lines that end with a line feed. *)
Definition lines_text (ls : list (list Z)) : list Z := List.concat (map (λ l, l ++ [10]) ls).

(** A trimmed file: a line feed after each line but the last, and a zero. *)
Fixpoint trimmed_text (ls : list (list Z)) : list Z :=
  match ls with
  | [] => []
  | [l] => l ++ [0]
  | l :: ls' => l ++ 10 :: trimmed_text ls'
  end.

(** Where the lines of a trimmed file are: the position of each, the position
    the walks go on from after it, and its text.  The last line is followed by
    the zero, and left one past the end of the file. *)
Fixpoint layout (pos : Z) (ls : list (list Z)) : list (Z * Z * list Z) :=
  match ls with
  | [] => []
  | [l] => [(pos, pos + Z.of_nat (length l) + 2, l)]
  | l :: ls' => (pos, pos + Z.of_nat (length l) + 1, l) :: layout (pos + Z.of_nat (length l) + 1) ls'
  end.

(** A label line is a dollar sign and a name of at least one octet. *)
Definition label_of (e : Z * Z * list Z) : option labelEntry :=
  match e.2 with
  | c :: d :: n => if c =? 36 then Some (mkLabel (d :: n) e.1.1) else None
  | _ => None
  end.

(** The word before the first parenthesis of a line. *)
Fixpoint word_of (l : list Z) : list Z :=
  match l with [] => [] | c :: l' => if c =? 40 then [] else c :: word_of l' end.

(** The IF table of a script: each line does what its word says; a word of six
    octets or more does not fit in the buffer of the parser. *)
Fixpoint if_table (es : list (Z * Z * list Z)) (ifs : list ifStatementEntry)
    : outcome (option (list ifStatementEntry)) :=
  match es with
  | [] => Ok (Some ifs)
  | e :: es' =>
      if 6 <=? Z.of_nat (length (word_of e.2)) then UB
      else match if_keyword (word_of e.2) e.1.2 ifs with
           | None => Ok None
           | Some ifs => if_table es' ifs
           end
  end.

(** What is left of a line: nothing of a blank line or a comment line, else the
    line without its leading blanks and its carriage return, trimmed. *)
Fixpoint unindent (l : list Z) : list Z :=
  match l with [] => [] | c :: l' => if is_blank c then unindent l' else l end.

Definition strip_cr (l : list Z) : list Z :=
  if bool_decide (list.last l = Some 13) then take (length l - 1) l else l.

Definition keep (l : list Z) : option (list Z) :=
  match unindent l with
  | [] => None
  | c :: l' => if c =? 35 then None else Some (trim_line (strip_cr (c :: l')) false)
  end.

(** A buffer that holds the octets [out], in a block that is larger: the walks read
    the octet behind the file, and the firmware's [malloc] leaves at least one
    behind the requested size ([Allocator.malloc_slack]). *)
Record holds (f : script) (out : list Z) : Prop := {
  holds_size : fileSize f = Z.of_nat (length out);
  holds_octets : mem_read (octets f) 0 (length out) = out;
  holds_room : fileSize f < allocated f
}.

(** ** Reading the file *)

Lemma holds_octet f out (i : nat) c : holds f out → out !! i = Some c → octets f (Z.of_nat i) = c.
Proof.
  intros [_ E _] Hi. pose proof (lookup_lt_Some _ _ _ Hi) as Hlt.
  rewrite <- E, mem_read_lookup in Hi by done. by injection Hi as <-.
Qed.

Lemma rdf_ok f i : 0 <= i < allocated f → rdf f i = Ok (octets f i).
Proof. intros Hi. unfold rdf. destruct (Z.leb_spec 0 i), (Z.ltb_spec i (allocated f)); cbn; lia || done. Qed.

Lemma rdf_at f pre c post : holds f (pre ++ c :: post) → rdf f (Z.of_nat (length pre)) = Ok c.
Proof.
  intros H. pose proof (holds_size _ _ H) as Hs. pose proof (holds_room _ _ H).
  rewrite length_app in Hs. cbn [length] in Hs. rewrite rdf_ok by lia. f_equal.
  eapply holds_octet; [done|]. by apply list_lookup_middle.
Qed.

Lemma rdf_past f out : holds f out → rdf f (Z.of_nat (length out)) = Ok (octets f (fileSize f)).
Proof. intros [Hs _ Hr]. rewrite rdf_ok by lia. by rewrite Hs. Qed.

(** A stretch of the file. *)
Lemma read_at f pre t post : holds f (pre ++ t ++ post) → mem_read (octets f) (Z.of_nat (length pre)) (length t) = t.
Proof.
  intros H. apply list_eq. intros i. destruct (decide (i < length t)%nat) as [Hi|Hi].
  - rewrite mem_read_lookup by done. destruct (lookup_lt_is_Some_2 t i Hi) as [c Hc]. rewrite Hc. f_equal.
    rewrite <- Nat2Z.inj_add. eapply holds_octet; [done|].
    rewrite lookup_app_r, Nat.add_comm, Nat.add_sub by lia. by rewrite lookup_app_l.
  - rewrite !lookup_ge_None_2; [done|lia|by rewrite length_mem_read; lia].
Qed.

Lemma end_of_line_lf f pre l post fuel :
  holds f (pre ++ l ++ 10 :: post) → Forall inner l → (length l <= fuel)%nat →
  end_of_line fuel f (Z.of_nat (length pre)) = Ok (Z.of_nat (length pre) + Z.of_nat (length l)).
Proof.
  revert pre fuel. induction l as [|c l IH]; intros pre fuel Hf Hl Hfuel.
  - destruct fuel; cbn [end_of_line]; rewrite (rdf_at f pre 10 post Hf), bind_ok; cbn; f_equal; lia.
  - inversion_clear Hl as [|? ? [_ Hc] Hl']. destruct fuel as [|fuel]; [cbn in Hfuel; lia|].
    cbn [end_of_line]. pose proof (holds_size _ _ Hf) as Hs. rewrite !length_app in Hs. cbn [length] in *.
    rewrite (rdf_at f pre c _ Hf), bind_ok. destruct (Z.eqb_spec c 10); [done|].
    destruct (Z.ltb_spec (Z.of_nat (length pre)) (fileSize f)); [cbn [negb andb]|lia].
    specialize (IH (pre ++ [c]) fuel). rewrite length_app, <- app_assoc in IH. cbn [app length] in IH.
    replace (Z.of_nat (length pre) + 1) with (Z.of_nat (length pre + 1)) by lia.
    rewrite IH by (done || lia). f_equal. lia.
Qed.

Lemma end_of_line_end f pre l fuel :
  holds f (pre ++ l) → Forall (λ c, c ≠ 10) l → (length l <= fuel)%nat →
  end_of_line fuel f (Z.of_nat (length pre)) = Ok (Z.of_nat (length pre) + Z.of_nat (length l)).
Proof.
  revert pre fuel. induction l as [|c l IH]; intros pre fuel Hf Hl Hfuel.
  - rewrite app_nil_r in Hf. destruct fuel; cbn [end_of_line]; rewrite (rdf_past f pre Hf), bind_ok; cbn.
    + f_equal. lia.
    + rewrite (holds_size _ _ Hf), Z.ltb_irrefl, andb_false_r. f_equal. lia.
  - inversion_clear Hl as [|? ? Hc Hl']. destruct fuel as [|fuel]; [cbn in Hfuel; lia|].
    cbn [end_of_line]. pose proof (holds_size _ _ Hf) as Hs. rewrite !length_app in Hs. cbn [length] in *.
    rewrite (rdf_at f pre c _ Hf), bind_ok. destruct (Z.eqb_spec c 10); [done|].
    destruct (Z.ltb_spec (Z.of_nat (length pre)) (fileSize f)); [cbn [negb andb]|lia].
    specialize (IH (pre ++ [c]) fuel). rewrite length_app, <- app_assoc in IH. cbn [app length] in IH.
    replace (Z.of_nat (length pre) + 1) with (Z.of_nat (length pre + 1)) by lia.
    rewrite IH by (done || lia). f_equal. lia.
Qed.

Lemma whole_line_lf f pre l post :
  holds f (pre ++ l ++ 10 :: post) → Forall inner l →
  whole_line f (Z.of_nat (length pre)) = Ok (Z.of_nat (length pre) + Z.of_nat (length l)).
Proof.
  intros Hf Hl. eapply end_of_line_lf; [done|done|].
  rewrite (holds_size _ _ Hf), !length_app. lia.
Qed.

Lemma whole_line_end f pre l :
  holds f (pre ++ l) → Forall (λ c, c ≠ 10) l →
  whole_line f (Z.of_nat (length pre)) = Ok (Z.of_nat (length pre) + Z.of_nat (length l)).
Proof.
  intros Hf Hl. apply end_of_line_end; [done|done|]. rewrite (holds_size _ _ Hf), !length_app. lia.
Qed.

Lemma c_string_inner t r : Forall inner t → c_string (t ++ r) = t ++ c_string r.
Proof. induction 1 as [|c t [H _] Ht IH]; [done|]. cbn. rewrite IH. by cells. Qed.

Lemma inner_lf t : Forall inner t → Forall (λ c, c ≠ 10) t.
Proof. induction 1 as [|c t [_ H] Ht IH]; by constructor. Qed.

(** ** A line of a trimmed file *)

(** The line at [pos] of a trimmed file: the walks stop at [stop], and what
    they copy of it is [l]. *)
Record line_at (f : script) (pos stop : Z) (l : list Z) : Prop := {
  la_pos : 0 <= pos < fileSize f;
  la_stop : pos <= stop <= fileSize f;
  la_length : stop - pos <= Z.of_nat (length l) + 1;
  la_end : ∀ fuel, (S (length l) <= fuel)%nat → end_of_line fuel f pos = Ok stop;
  la_text : line_text f pos (stop - pos) = l;
  la_octet : ∀ i, (i <= length l)%nat → rdf f (pos + Z.of_nat i) = Ok (octets f (pos + Z.of_nat i));
  la_in : ∀ i c, l !! i = Some c → octets f (pos + Z.of_nat i) = c;
  la_after : octets f (pos + Z.of_nat (length l)) ∈ [10; 0]
}.

Lemma line_at_start f pre l c post :
  holds f (pre ++ l ++ c :: post) →
  (∀ i, (i <= length l)%nat →
     rdf f (Z.of_nat (length pre) + Z.of_nat i) = Ok (octets f (Z.of_nat (length pre) + Z.of_nat i))) ∧
  (∀ i d, l !! i = Some d → octets f (Z.of_nat (length pre) + Z.of_nat i) = d) ∧
  octets f (Z.of_nat (length pre) + Z.of_nat (length l)) = c.
Proof.
  intros Hf. pose proof (holds_size _ _ Hf) as Hs. pose proof (holds_room _ _ Hf).
  rewrite !length_app in Hs. cbn [length] in Hs. split; [|split].
  - intros i Hi. apply rdf_ok. lia.
  - intros i d Hi. pose proof (lookup_lt_Some _ _ _ Hi). rewrite <- Nat2Z.inj_add. eapply holds_octet; [done|].
    rewrite lookup_app_r, Nat.add_comm, Nat.add_sub by lia. by rewrite lookup_app_l.
  - rewrite <- Nat2Z.inj_add. eapply holds_octet; [done|].
    rewrite lookup_app_r, Nat.add_comm, Nat.add_sub by lia. by apply list_lookup_middle.
Qed.

Lemma line_at_lf f pre l post :
  holds f (pre ++ l ++ 10 :: post) → Forall inner l →
  line_at f (Z.of_nat (length pre)) (Z.of_nat (length pre) + Z.of_nat (length l)) l.
Proof.
  intros Hf Hl. destruct (line_at_start _ _ _ _ _ Hf) as (H1 & H2 & H3).
  pose proof (holds_size _ _ Hf) as Hs. rewrite !length_app in Hs. cbn [length] in Hs.
  split; try done; try lia.
  - intros fuel Hfuel. eapply end_of_line_lf; [done|done|lia].
  - unfold line_text. rewrite Z.add_simpl_l, Nat2Z.id, (read_at f pre l (10 :: post)) by done.
    rewrite <- (app_nil_r l) at 1. by rewrite c_string_inner, app_nil_r.
  - rewrite H3. set_solver.
Qed.

Lemma line_at_end f pre l :
  holds f (pre ++ l ++ [0]) → Forall inner l →
  line_at f (Z.of_nat (length pre)) (Z.of_nat (length pre) + Z.of_nat (length l) + 1) l.
Proof.
  intros Hf Hl. destruct (line_at_start _ _ _ _ _ Hf) as (H1 & H2 & H3).
  pose proof (holds_size _ _ Hf) as Hs. rewrite !length_app in Hs. cbn [length] in Hs.
  split; try done; try lia.
  - intros fuel Hfuel. rewrite (end_of_line_end f pre (l ++ [0])), length_app; [cbn; f_equal; lia|done| |len].
    apply list.Forall_app. split; [by apply inner_lf|]. by repeat constructor.
  - unfold line_text. replace (Z.to_nat _) with (length (l ++ [0])) by (rewrite length_app; cbn; lia).
    rewrite (read_at f pre (l ++ [0]) []) by by rewrite app_nil_r. rewrite c_string_inner by done. cbn.
    by rewrite app_nil_r.
  - rewrite H3. set_solver.
Qed.

(** The line of an entry of the layout, and what follows it. *)
Lemma layout_lines pos ls e :
  e ∈ layout pos ls → ∃ us l vs, ls = us ++ l :: vs ∧ e.2 = l ∧
    e.1.1 = pos + Z.of_nat (length (lines_text us)) ∧
    e.1.2 = e.1.1 + Z.of_nat (length l) + (if vs is [] then 2 else 1).
Proof.
  revert pos. induction ls as [|l [|l' ls] IH]; intros pos He; [by apply elem_of_nil in He| |].
  - apply list_elem_of_singleton in He as ->. exists [], l, []. cbn. split; [done|]. split; [done|]. lia.
  - change (layout pos (l :: l' :: ls)) with
      ((pos, pos + Z.of_nat (length l) + 1, l) :: layout (pos + Z.of_nat (length l) + 1) (l' :: ls)) in He.
    apply elem_of_cons in He as [->|He].
    + exists [], l, (l' :: ls). cbn. split; [done|]. split; [done|]. lia.
    + destruct (IH _ He) as (us & m & vs & E & H1 & H2 & H3). exists (l :: us), m, vs. rewrite E.
      split; [done|]. split; [done|]. split; [|done]. rewrite H2. unfold lines_text. cbn [map List.concat].
      rewrite !length_app. cbn [length]. lia.
Qed.

Lemma trimmed_text_split us l vs :
  trimmed_text (us ++ l :: vs) = lines_text us ++ l ++ (if vs is [] then [0] else 10 :: trimmed_text vs).
Proof.
  induction us as [|u us IH]; cbn [app trimmed_text]; [by destruct vs|].
  rewrite IH. unfold lines_text. cbn [map List.concat].
  destruct us; cbn [app]; by rewrite <- !app_assoc.
Qed.

Lemma layout_line_at f ls e :
  holds f (trimmed_text ls) → Forall (Forall inner) ls → e ∈ layout 0 ls →
  line_at f e.1.1 (e.1.2 - 1) e.2.
Proof.
  intros Hf Hls (us & l & vs & -> & -> & -> & ->)%layout_lines.
  apply list.Forall_app in Hls as [_ Hls]. inversion_clear Hls as [|? ? Hl _].
  rewrite trimmed_text_split in Hf. rewrite Z.add_0_l. destruct vs.
  - replace (_ - 1) with (Z.of_nat (length (lines_text us)) + Z.of_nat (length l) + 1) by lia.
    by apply line_at_end.
  - replace (_ - 1) with (Z.of_nat (length (lines_text us)) + Z.of_nat (length l)) by lia.
    by eapply line_at_lf.
Qed.

Lemma layout_cons pos l l' ls :
  layout pos (l :: l' :: ls) =
    (pos, pos + Z.of_nat (length l) + 1, l) :: layout (pos + Z.of_nat (length l) + 1) (l' :: ls).
Proof. done. Qed.

Lemma trimmed_length l l' ls :
  length (trimmed_text (l :: l' :: ls)) = (length l + S (length (trimmed_text (l' :: ls))))%nat.
Proof. change (trimmed_text (l :: l' :: ls)) with (l ++ 10 :: trimmed_text (l' :: ls)). by rewrite length_app. Qed.

(** The walks visit the lines one by one and stop behind the last. *)
Lemma layout_walk {A B} (fin : A → B) (f : script) (loop : nat → Z → A → outcome B) (good : Z * Z * list Z → Prop) :
  (∀ fuel p a, fileSize f <= p → loop fuel p a = Ok (fin a)) →
  ∀ (spec : list (Z * Z * list Z) → A → outcome B),
  (∀ a, spec [] a = Ok (fin a)) →
  (∀ fuel e es a, good e → (∀ a, loop fuel e.1.2 a = spec es a) → e.1.1 < fileSize f →
     loop (S fuel) e.1.1 a = spec (e :: es) a) →
  ∀ ls fuel pos a, (∀ e, e ∈ layout pos ls → good e) →
    pos + Z.of_nat (length (trimmed_text ls)) = fileSize f → (length (trimmed_text ls) <= fuel)%nat →
    loop fuel pos a = spec (layout pos ls) a.
Proof.
  intros Hend spec Hnil Hstep. induction ls as [|l [|l' ls] IH]; intros fuel pos a Hg Hsize Hfuel.
  - cbn in *. rewrite Hend by lia. done.
  - cbn [trimmed_text layout] in *. rewrite length_app in *. cbn [length] in *.
    destruct fuel as [|fuel]; [lia|].
    apply (Hstep fuel (pos, _, l)); [by apply Hg; left| |cbn; lia].
    intros b. rewrite Hend, Hnil; [done|cbn; lia].
  - rewrite layout_cons in *. rewrite trimmed_length in *. destruct fuel as [|fuel]; [lia|].
    apply (Hstep fuel (pos, _, l)); [apply Hg; left| |cbn; lia].
    intros b. apply IH; [|cbn [fst snd]; lia|lia]. intros e He. apply Hg. by right.
Qed.

(** ** Labels *)

(** What the passes need of a line. *)
Definition good_line (f : script) (e : Z * Z * list Z) : Prop :=
  line_at f e.1.1 (e.1.2 - 1) e.2 ∧ (length e.2 <= 98)%nat.

Lemma la_whole f pos stop l : line_at f pos stop l → whole_line f pos = Ok stop.
Proof.
  intros H. apply (la_end _ _ _ _ H). destruct H as [Hp Hs Hl _ Ht _ _ _].
  assert (length l <= Z.to_nat (stop - pos))%nat; [|lia].
  rewrite <- Ht. unfold line_text. generalize (length_mem_read (octets f) pos (Z.to_nat (stop - pos))).
  generalize (mem_read (octets f) pos (Z.to_nat (stop - pos))). intros t <-.
  clear. induction t as [|c t IH]; cbn; [lia|]. destruct (c =? 0); cbn; lia.
Qed.

Lemma la_first f pos stop l : line_at f pos stop l → ∃ c, rdf f pos = Ok c ∧
  match l with [] => c ∈ [10; 0] | d :: _ => c = d end.
Proof.
  intros H. pose proof (la_octet _ _ _ _ H 0 ltac:(lia)) as E. rewrite Z.add_0_r in E.
  eexists. split; [done|]. destruct l as [|d l].
  - pose proof (la_after _ _ _ _ H) as E'. cbn in E'. by rewrite Z.add_0_r in E'.
  - rewrite <- (la_in _ _ _ _ H 0%nat d) by done. cbn. by rewrite Z.add_0_r.
Qed.

Lemma parse_label_step f fuel e labels :
  good_line f e → e.1.1 < fileSize f →
  parseFileForLabels_loop (S fuel) f e.1.1 e.1.1 labels =
    parseFileForLabels_loop fuel f e.1.2 e.1.2 (labels ++ option_list (label_of e)).
Proof.
  intros [Hl Hlen] Hlt. destruct e as [[pos next] l]. cbn [fst snd] in *. cbn [parseFileForLabels_loop].
  destruct (Z.ltb_spec pos (fileSize f)); [|lia]. rewrite (la_whole _ _ _ _ Hl), bind_ok.
  destruct (la_first _ _ _ _ Hl) as (c & -> & Hc). rewrite bind_ok, (la_text _ _ _ _ Hl).
  replace (next - 1 + 1) with next by lia. pose proof (la_length _ _ _ _ Hl).
  destruct (Z.ltb_spec (next - 1 - pos) 100); [|lia].
  unfold label_of, addNewLabel. cbn [fst snd]. destruct l as [|d [|d' l]]; cbn [option_list].
  - rewrite app_nil_r. destruct (Z.eqb_spec c 36) as [->|]; [set_solver|by rewrite bind_ok].
  - rewrite app_nil_r. by destruct (c =? 36); rewrite bind_ok.
  - subst d. by destruct (c =? 36); rewrite bind_ok, ?app_nil_r.
Qed.

Lemma parse_labels f ls :
  holds f (trimmed_text ls) → (∀ e, e ∈ layout 0 ls → good_line f e) →
  parseFileForLabels f = Ok (omap label_of (layout 0 ls)).
Proof.
  intros Hf Hg. unfold parseFileForLabels.
  set (spec := λ es a, Ok (a ++ omap label_of es) : outcome (list labelEntry)).
  rewrite (layout_walk id f (λ n p, parseFileForLabels_loop n f p p) (good_line f)) with (spec := spec) (ls := ls);
    [done| |intros a; unfold spec; cbn; by rewrite app_nil_r| |done| |].
  - intros fuel p a Hp. destruct fuel; cbn [parseFileForLabels_loop]; by destruct (Z.ltb_spec p (fileSize f)); [lia|].
  - intros fuel e es a He Hr Hlt. cbn beta. rewrite parse_label_step, Hr by done. unfold spec.
    cbn [omap list_omap]. rewrite <- app_assoc. by destruct (label_of e).
  - rewrite (holds_size _ _ Hf). lia.
  - rewrite (holds_size _ _ Hf). lia.
Qed.

(** ** IF statements *)

(** The end of the word, at most six octets on. *)
Lemma keyword_end_word f pos stop l n i :
  line_at f pos stop l → Forall inner l → (i <= length l)%nat →
  keyword_end n f (pos + Z.of_nat i) = Ok (pos + Z.of_nat (i + Nat.min n (length (word_of (drop i l))))).
Proof.
  intros Hl Hin. revert i. induction n as [|n IH]; intros i Hi; cbn [keyword_end];
    rewrite (la_octet _ _ _ _ Hl i Hi), bind_ok; [f_equal; lia|].
  destruct (decide (i = length l)) as [->|Hne].
  - rewrite bool_decide_true.
    + rewrite drop_all. cbn. f_equal. lia.
    + pose proof (la_after _ _ _ _ Hl). set_solver.
  - destruct (lookup_lt_is_Some_2 l i) as [c Hc]; [lia|]. rewrite (la_in _ _ _ _ Hl i c Hc).
    rewrite (drop_S l c i Hc). cbn [word_of].
    rewrite list.Forall_lookup in Hin. destruct (Hin i c Hc) as [H0 H10].
    destruct (Z.eqb_spec c 40) as [->|Hp].
    + rewrite bool_decide_true by set_solver. cbn. f_equal. lia.
    + rewrite bool_decide_false by set_solver. replace (_ + 1) with (pos + Z.of_nat (S i)) by lia.
      rewrite IH by lia. cbn [length]. f_equal. lia.
Qed.

Lemma word_of_prefix l : word_of l `prefix_of` l.
Proof.
  induction l as [|c l IH]; cbn; [done|]. destruct (c =? 40); [apply prefix_nil|by apply prefix_cons].
Qed.

Lemma c_string_id t : Forall inner t → c_string t = t.
Proof. intros Ht. rewrite <- (app_nil_r t) at 1. by rewrite c_string_inner, app_nil_r. Qed.

(** A part of the line at its start. *)
Lemma line_text_prefix f pos stop l w :
  line_at f pos stop l → Forall inner l → w `prefix_of` l → line_text f pos (Z.of_nat (length w)) = w.
Proof.
  intros Hl Hin [r E]. unfold line_text. rewrite Nat2Z.id.
  assert (mem_read (octets f) pos (length w) = w) as ->.
  { apply list_eq. intros i. destruct (decide (i < length w)%nat) as [Hi|Hi].
    - rewrite mem_read_lookup by done. destruct (lookup_lt_is_Some_2 w i Hi) as [c Hc]. rewrite Hc. f_equal.
      apply (la_in _ _ _ _ Hl). rewrite E. by rewrite lookup_app_l.
    - rewrite !lookup_ge_None_2; [done|lia|by rewrite length_mem_read; lia]. }
  apply c_string_id. rewrite E in Hin. by apply list.Forall_app in Hin as [? _].
Qed.

Lemma if_keyword_short w pos ifs : (length w < 2)%nat → if_keyword w pos ifs = Some ifs.
Proof. intros Hw. unfold if_keyword. by rewrite !bool_decide_false by (intros ->; cbn in Hw; lia). Qed.

Lemma parse_if_step f fuel e ifs :
  good_line f e → Forall inner e.2 → e.1.1 < fileSize f →
  parseFileForIFStatements_loop (S fuel) f e.1.1 e.1.1 ifs =
    if 6 <=? Z.of_nat (length (word_of e.2)) then UB
    else match if_keyword (word_of e.2) e.1.2 ifs with
         | None => Ok None
         | Some ifs => parseFileForIFStatements_loop fuel f e.1.2 e.1.2 ifs
         end.
Proof.
  intros [Hl Hlen] Hin Hlt. destruct e as [[pos next] l]. cbn [fst snd] in *.
  cbn [parseFileForIFStatements_loop]. destruct (Z.ltb_spec pos (fileSize f)); [|lia].
  rewrite (la_whole _ _ _ _ Hl), bind_ok.
  pose proof (keyword_end_word f pos _ l 6 0 Hl Hin ltac:(lia)) as E. rewrite Z.add_0_r in E.
  rewrite E, bind_ok, drop_0, Z.add_simpl_l. replace (next - 1 + 1) with next by lia. cbn [Nat.add].
  destruct (Z.leb_spec 6 (Z.of_nat (length (word_of l)))).
  - destruct (Z.leb_spec 6 (Z.of_nat (Nat.min 6 (length (word_of l))))); [done|lia].
  - destruct (Z.leb_spec 6 (Z.of_nat (Nat.min 6 (length (word_of l))))); [lia|]. cbv zeta.
    replace (Nat.min 6 (length (word_of l))) with (length (word_of l)) by lia.
    destruct (Z.leb_spec 2 (Z.of_nat (length (word_of l)))).
    + by rewrite (line_text_prefix f pos (next - 1) l) by (done || apply word_of_prefix).
    + rewrite !if_keyword_short by (cbn; lia). done.
Qed.

Lemma parse_ifs f ls :
  holds f (trimmed_text ls) → (∀ e, e ∈ layout 0 ls → good_line f e ∧ Forall inner e.2) →
  parseFileForIFStatements f = if_table (layout 0 ls) [].
Proof.
  intros Hf Hg. unfold parseFileForIFStatements.
  rewrite (layout_walk Some f (λ n p, parseFileForIFStatements_loop n f p p)
             (λ e, good_line f e ∧ Forall inner e.2)) with (spec := if_table) (ls := ls);
    [done| |done| |done| |].
  - intros fuel p a Hp. destruct fuel; cbn [parseFileForIFStatements_loop];
      by destruct (Z.ltb_spec p (fileSize f)); [lia|].
  - intros fuel e es a [He Hin] Hr Hlt. cbn beta. rewrite parse_if_step by done. cbn [if_table].
    destruct (6 <=? _); [done|]. by destruct (if_keyword _ _ _).
  - rewrite (holds_size _ _ Hf). lia.
  - rewrite (holds_size _ _ Hf). lia.
Qed.

(** Both passes over a trimmed file. *)
Lemma parse_passes f ls :
  holds f (trimmed_text ls) → Forall (λ l, Forall inner l ∧ (length l <= 98)%nat) ls →
  parseFileForLabels f = Ok (omap label_of (layout 0 ls)) ∧
  parseFileForIFStatements f = if_table (layout 0 ls) [].
Proof.
  intros Hf Hls. assert (∀ e, e ∈ layout 0 ls → good_line f e ∧ Forall inner e.2) as Hg.
  { intros e He. assert (e.2 ∈ ls) as Hin.
    { destruct (layout_lines _ _ _ He) as (us & l & vs & -> & -> & _). set_solver. }
    rewrite list.Forall_forall in Hls. destruct (Hls _ Hin) as [? ?]. split; [split; [|done]|done].
    eapply layout_line_at; [done| |done]. apply list.Forall_forall. intros l Hl. by apply Hls. }
  split; [apply parse_labels; [done|]|by apply parse_ifs]. intros e He. by apply Hg.
Qed.

(** ** [trimScript] *)

Lemma skip_blanks_unindent f pre l post :
  holds f (pre ++ l ++ post) →
  skip_blanks (S (length l)) f (Z.of_nat (length pre)) (Z.of_nat (length pre) + Z.of_nat (length l)) =
    Ok (Z.of_nat (length pre) + Z.of_nat (length l) - Z.of_nat (length (unindent l))).
Proof.
  revert pre. induction l as [|c l IH]; intros pre Hf; cbn [skip_blanks].
  - assert (∃ d, rdf f (Z.of_nat (length pre)) = Ok d) as [d ->].
    { destruct post as [|d post]; [|by exists d; eapply rdf_at].
      rewrite app_nil_r in Hf. eexists. by apply rdf_past. }
    rewrite bind_ok. cbn. rewrite Z.add_0_r, Z.ltb_irrefl, andb_false_r, Z.sub_0_r. done.
  - rewrite (rdf_at f pre c (l ++ post) Hf), bind_ok. cbn [unindent].
    destruct (is_blank c); cbn [andb]; [|f_equal; lia].
    destruct (Z.ltb_spec (Z.of_nat (length pre)) (Z.of_nat (length pre) + Z.of_nat (length (c :: l)))); [|cbn in *; lia].
    specialize (IH (pre ++ [c])). rewrite length_app, <- app_assoc in IH. cbn [app length] in IH |- *.
    replace (Z.of_nat (length pre) + 1) with (Z.of_nat (length pre + 1)) by lia.
    replace (Z.of_nat (length pre) + Z.of_nat (S (length l))) with (Z.of_nat (length pre + 1) + Z.of_nat (length l)) by lia.
    by apply IH.
Qed.

Lemma unindent_suffix l : ∃ b, l = b ++ unindent l.
Proof.
  induction l as [|c l [b IH]]; [by exists []|]. cbn. destruct (is_blank c); [|by exists []].
  exists (c :: b). cbn. by rewrite <- IH.
Qed.

(** The carriage return before the end of the line. *)
Lemma cr_read f pre l post :
  holds f (pre ++ l ++ post) → l ≠ [] →
  ∃ c, rdf f (Z.of_nat (length pre) + Z.of_nat (length l) - 1) = Ok c ∧ list.last l = Some c ∧
    mem_read (octets f) (Z.of_nat (length pre)) (length l - (if c =? 13 then 1 else 0)) = strip_cr l.
Proof.
  intros Hf Hne. destruct (exists_last Hne) as (l' & c & ->). exists c. rewrite <- app_assoc, app_assoc in Hf.
  split; [|split; [by rewrite last_snoc|]].
  - rewrite <- (rdf_at f (pre ++ l') c post Hf). f_equal. rewrite !length_app. cbn. lia.
  - unfold strip_cr. rewrite last_snoc. rewrite <- app_assoc in Hf.
    destruct (Z.eqb_spec c 13) as [->|Hc]; [rewrite bool_decide_true by done|rewrite bool_decide_false by congruence].
    + rewrite length_app. cbn. rewrite Nat.add_sub, take_app_length. by eapply read_at.
    + rewrite Nat.sub_0_r. eapply (read_at _ _ _ post). by rewrite <- app_assoc.
Qed.

Lemma trim_step f fuel pre l post segs :
  holds f (pre ++ l ++ post) → (length pre < length (pre ++ l ++ post))%nat →
  whole_line f (Z.of_nat (length pre)) = Ok (Z.of_nat (length pre) + Z.of_nat (length l)) →
  (∀ t, keep l = Some t → (length t <= 98)%nat) →
  trim_lines (S fuel) f (Z.of_nat (length pre)) segs =
    trim_lines fuel f (Z.of_nat (length pre) + Z.of_nat (length l) + 1)
               (segs ++ option_list ((λ t, t ++ [10]) <$> keep l)).
Proof.
  intros Hf Hlt Hline Hkeep. cbn [trim_lines]. rewrite (holds_size _ _ Hf).
  destruct (Z.ltb_spec (Z.of_nat (length pre)) (Z.of_nat (length (pre ++ l ++ post)))); [|lia]. cbv zeta.
  rewrite Hline, bind_ok, Z.add_simpl_l, Nat2Z.id, (skip_blanks_unindent f pre l post Hf), bind_ok.
  destruct (unindent_suffix l) as [b E]. unfold keep in *. destruct (unindent l) as [|c l'] eqn:El.
  - cbn [length fmap option_fmap option_map option_list]. rewrite Z.sub_0_r, app_nil_r, Z.eqb_refl.
    assert (∃ d, rdf f (Z.of_nat (length pre) + Z.of_nat (length l)) = Ok d) as [d ->];
      [|by rewrite bind_ok, orb_true_r].
    eexists. apply rdf_ok. pose proof (holds_size _ _ Hf) as Hs. pose proof (holds_room _ _ Hf).
    rewrite !length_app in Hs. lia.
  - rewrite E, <- app_assoc, app_assoc in Hf. set (start := _ - _).
    assert (start = Z.of_nat (length (pre ++ b))) as -> by (subst start; rewrite E, !length_app; lia).
    rewrite (rdf_at f (pre ++ b) c (l' ++ post) Hf), bind_ok.
    destruct (c =? 35); cbn [orb]; [by cbn; rewrite app_nil_r|].
    destruct (Z.eqb_spec (Z.of_nat (length (pre ++ b))) (Z.of_nat (length pre) + Z.of_nat (length l))) as [Eq|_];
      [rewrite E, !length_app in Eq; cbn in Eq; lia|].
    destruct (cr_read f (pre ++ b) (c :: l') post Hf) as (d & Hd & _ & Hread); [done|].
    rewrite (length_app pre b) in Hd. replace (Z.of_nat (length pre) + Z.of_nat (length l) - 1) with
      (Z.of_nat (length pre + length b) + Z.of_nat (length (c :: l')) - 1) by (rewrite E, length_app; lia).
    rewrite Hd, bind_ok. cbv zeta.
    replace (Z.to_nat _) with (length (c :: l') - (if (d =? 13)%Z then 1 else 0))%nat
      by (rewrite E, !length_app; destruct (d =? 13); cbn [length]; lia).
    rewrite Hread. specialize (Hkeep _ eq_refl). destruct (Z.ltb_spec (Z.of_nat (length (trim_line (strip_cr (c :: l')) false))) 100);
      [done|lia].
Qed.

Lemma trim_lines_keep f l ls : ∀ fuel pre segs,
  holds f (pre ++ lines_text ls ++ l) → Forall (Forall inner) (ls ++ [l]) →
  Forall (λ t, length t <= 98)%nat (omap keep (ls ++ [l])) →
  (length (lines_text ls ++ l) <= fuel)%nat →
  trim_lines fuel f (Z.of_nat (length pre)) segs = Ok (segs ++ map (λ t, t ++ [10]) (omap keep (ls ++ [l]))).
Proof.
  assert (∀ fuel p segs, fileSize f <= p → trim_lines fuel f p segs = Ok segs) as Hend.
  { intros fuel p segs Hp. destruct fuel; cbn [trim_lines]; by destruct (Z.ltb_spec p (fileSize f)); [lia|]. }
  induction ls as [|m ls IH]; intros fuel pre segs Hf Hin Hkeep Hfuel.
  - cbn [app lines_text map List.concat] in *. inversion_clear Hin as [|? ? Hl _].
    pose proof (holds_size _ _ Hf) as Hs. rewrite length_app in Hs. destruct l as [|c l].
    + rewrite Hend by (cbn in Hs; lia). cbn. by rewrite app_nil_r.
    + destruct fuel as [|fuel]; [cbn in Hfuel; lia|].
      rewrite (trim_step f fuel pre (c :: l) [] segs);
        [|by rewrite app_nil_r|rewrite app_nil_r, length_app; cbn; lia|by apply whole_line_end; [|apply inner_lf]|].
      * rewrite Hend by lia. f_equal. f_equal. cbn. by destruct (keep (c :: l)).
      * intros t Ht. cbn in Hkeep. rewrite Ht in Hkeep. by inversion Hkeep.
  - cbn [app] in Hin, Hkeep |- *. inversion_clear Hin as [|? ? Hl Hls].
    unfold lines_text in Hf, Hfuel. cbn [map List.concat] in Hf, Hfuel. fold (lines_text ls) in Hf, Hfuel.
    rewrite <- !app_assoc in Hf. cbn [app] in Hf. rewrite !length_app in Hfuel. cbn [length] in Hfuel.
    destruct fuel as [|fuel]; [lia|]. cbn [omap list_omap] in Hkeep |- *.
    rewrite (trim_step f fuel pre m (10 :: lines_text ls ++ l) segs); [|done|len|by eapply whole_line_lf|].
    + specialize (IH fuel (pre ++ m ++ [10])). rewrite <- !app_assoc, !length_app in IH. cbn [app length] in IH.
      replace (Z.of_nat (length pre) + Z.of_nat (length m) + 1) with (Z.of_nat (length pre + (length m + 1))) by lia.
      rewrite IH; [|done|done| |lia].
      * f_equal. rewrite <- app_assoc. f_equal. by destruct (keep m).
      * destruct (keep m); [by inversion Hkeep|done].
    + intros t Ht. rewrite Ht in Hkeep. by inversion Hkeep.
Qed.

(** What the copy makes of the lines. *)
Lemma segment_line t e : Forall inner t → e = 10 ∨ e = 0 → segment (t ++ [e]) = t ++ [e].
Proof.
  intros Ht He. induction Ht as [|c t [H0 H10] Ht IH]; cbn; [by destruct He as [-> | ->]|].
  rewrite IH. by cells.
Qed.

Lemma terminate_line t : Forall inner t → terminate (t ++ [10]) = t ++ [0].
Proof. intros Ht. induction Ht as [|c t [H0 H10] Ht IH]; cbn; [done|]. rewrite IH. by cells. Qed.

Lemma copied_lines ts :
  Forall (Forall inner) ts →
  List.concat (map segment (terminate_last (map (λ t, t ++ [10]) ts))) = trimmed_text ts.
Proof.
  induction 1 as [|t ts Ht Hts IH]; [done|]. destruct ts as [|t' ts].
  - cbn. by rewrite terminate_line, segment_line, app_nil_r by auto.
  - change (terminate_last (map (λ t, t ++ [10]) (t :: t' :: ts))) with
      ((t ++ [10]) :: terminate_last (map (λ t, t ++ [10]) (t' :: ts))).
    cbn [map List.concat] in *. by rewrite IH, segment_line, <- app_assoc by auto.
Qed.

Lemma trim_line_inner l b : Forall inner l → Forall inner (trim_line l b).
Proof.
  revert b. induction l as [|c l IH]; intros b Hl; [done|]. inversion_clear Hl as [|? ? Hc Hl'].
  cbn [trim_line]. destruct (c =? 35); [constructor|]. cbv zeta.
  destruct (negb (is_blank c) || _); [|by apply IH]. constructor; [|by apply IH].
  destruct (_ && _); [by split|done].
Qed.

Lemma keep_inner l t : Forall inner l → keep l = Some t → Forall inner t.
Proof.
  intros Hl. unfold keep. destruct (unindent_suffix l) as [b E]. destruct (unindent l) as [|c l'] eqn:El; [done|].
  rewrite E in Hl. apply list.Forall_app in Hl as [_ Hl].
  destruct (c =? 35); [done|]. intros [= <-]. apply trim_line_inner. unfold strip_cr.
  destruct (bool_decide _); [by apply list.Forall_take|done].
Qed.

(** ** Property *)

(** C20: take a text file without zeros, in a block larger than the file, whose
    lines have at most 98 octets once trimmed.  When no line is left,
    [trimScript] is undefined (it dereferences a null pointer).  Otherwise it
    returns the lines that are neither blank nor comments, each as [keep]
    rewrites it, with a final zero; and over that file, again in a larger block,
    the label pass finds exactly the lines that start with a dollar sign and
    have a name, at their positions, and the IF pass builds the table of
    [if_table]: an error for an ELSE or ENDIF without an IF, undefined behaviour
    at the first line whose word before a parenthesis has six octets or more. *)
Theorem trimScript_parses f ls l :
  holds f (lines_text ls ++ l) → Forall (Forall inner) (ls ++ [l]) →
  Forall (λ t, length t <= 98)%nat (omap keep (ls ++ [l])) →
  match omap keep (ls ++ [l]) with
  | [] => trimScript f = UB
  | ts => trimScript f = Ok (trimmed_text ts) ∧
      ∀ g, holds g (trimmed_text ts) →
        parseFileForLabels g = Ok (omap label_of (layout 0 ts)) ∧
        parseFileForIFStatements g = if_table (layout 0 ts) []
  end.
Proof.
  intros Hf Hin Hlen. unfold trimScript.
  rewrite (trim_lines_keep f l ls _ [] []), bind_ok; [|done|done|done|rewrite (holds_size _ _ Hf); lia].
  assert (Forall (Forall inner) (omap keep (ls ++ [l]))) as Hk.
  { apply list.Forall_forall. intros t (m & Hm & Hk)%list_elem_of_omap. eapply keep_inner; [|done].
    rewrite list.Forall_forall in Hin. by apply Hin. }
  destruct (omap keep (ls ++ [l])) as [|t ts]; [done|].
  rewrite <- (copied_lines _ Hk). split; [done|]. rewrite copied_lines by done. intros g Hg.
  apply parse_passes; [done|]. by apply list.Forall_and.
Qed.

(** A block with room behind the text. *)
Definition script_in (t : list Z) : script :=
  mkScript (mem_of_list t) (Z.of_nat (length t)) (Z.of_nat (length t) + 1).

Lemma script_in_holds t : holds (script_in t) t.
Proof. split; cbn; [done|by apply mem_read_of_list|lia]. Qed.

(** A commented, indented script with a label and an IF statement. *)
Definition demo : list (list Z) :=
  map str ["# demo"; "$top"; "  WAIT( 10 )  # ms"; "IF(x == 1)"; "  GOTO(top)"; "ENDIF"]%string.

Lemma trimScript_parses_witness :
  trimScript (script_in (lines_text demo)) =
    Ok (trimmed_text (map str ["$top"; "WAIT(10)"; "IF(x==1)"; "GOTO(top)"; "ENDIF"]%string)) ∧
  ∀ g, holds g (trimmed_text (map str ["$top"; "WAIT(10)"; "IF(x==1)"; "GOTO(top)"; "ENDIF"]%string)) →
    parseFileForLabels g = Ok [mkLabel (str "top") 0] ∧
    parseFileForIFStatements g = Ok (Some [mkIf 23 (-1) 40 false]).
Proof.
  refine (trimScript_parses (script_in (lines_text demo)) demo [] _ _ _).
  - rewrite app_nil_r. apply script_in_holds.
  - by repeat (constructor; [by repeat constructor|]).
  - apply (bool_decide_unpack _). vm_compute. exact I.
Defined.

End ScriptText.
