(* ===== verification/ScriptTheorems.v ===== *)
(** * Theorems about the script engine

    [keeps m]: whatever [m] does, variable names stay distinct and read-only
    variables stay as they are.  The rules follow the constructs of the monad,
    so the interpreter keeps the variables because each of its parts does. *)

From Stdlib Require Import String.
From S2P Require Import Prelude Strtol Script ScriptText.
From stdpp Require Import list sets.

Open Scope Z_scope.
Abbreviation length := List.length.

Module ScriptTheorems.
Import Script.

(** ** Variables *)

Definition names (vs : list variableEntry) : list (list Z) := name <$> vs.

(** [vs'] is [vs] after declarations and updates. *)
Definition vars_le (vs vs' : list variableEntry) : Prop :=
  (NoDup (names vs) → NoDup (names vs')) ∧ ∀ v, v ∈ vs → readOnly v = true → v ∈ vs'.

#[export] Instance vars_le_preorder : PreOrder vars_le.
Proof.
  split.
  - by intros vs.
  - intros a b c [H1 H2] [H3 H4]. split; [by auto|]. intros v Hv Hr. by auto.
Qed.

Lemma existsb_name n vs : existsb (is_name n) vs = true ↔ n ∈ names vs.
Proof.
  unfold names, is_name. rewrite existsb_exists, list_elem_of_fmap. split.
  - intros (v & Hin & Hn). apply bool_decide_eq_true in Hn. exists v.
    split; [done|]. by apply list_elem_of_In.
  - intros (v & -> & Hv). exists v. split; [by apply list_elem_of_In|]. by apply bool_decide_eq_true.
Qed.

Lemma variableFunction_le n v ro vs : vars_le vs (variableFunction n v ro vs).2.
Proof.
  unfold variableFunction. destruct (existsb (is_name n) vs) eqn:E; cbn [snd]; [reflexivity|]. split.
  - intros Hnd. unfold names. rewrite fmap_app. apply NoDup_app. split; [done|]. split.
    + intros m Hm [->|Hnil]%elem_of_cons; [|by apply elem_of_nil in Hnil].
      apply existsb_name in Hm. cbn [name] in Hm. congruence.
    + apply NoDup_singleton.
  - intros w Hw _. apply elem_of_app. by left.
Qed.

Lemma update_entries_names n v vs : names (update_entries n v vs).2 = names vs.
Proof.
  induction vs as [|e vs IH]; [done|]. cbn [update_entries]. destruct (is_name n e).
  - cbn. by destruct (readOnly e).
  - destruct (update_entries n v vs) as [b us]. cbn in *. by rewrite IH.
Qed.

Lemma update_entries_read_only n v vs w :
  w ∈ vs → readOnly w = true → w ∈ (update_entries n v vs).2.
Proof.
  induction vs as [|e vs IH]; [by intros ?%elem_of_nil|].
  intros [->|Hw]%elem_of_cons Hr; cbn [update_entries]; destruct (is_name n _).
  - rewrite Hr. cbn. left.
  - destruct (update_entries n v vs). cbn. left.
  - cbn. by right.
  - destruct (update_entries n v vs). cbn in *. right. by apply IH.
Qed.

Lemma updateVariable_le n v vs : vars_le vs (updateVariable n v vs).2.
Proof.
  destruct vs as [|e vs]; [reflexivity|]. split.
  - unfold updateVariable. by rewrite update_entries_names.
  - intros w. apply update_entries_read_only.
Qed.

(** ** The rules of [keeps] *)

Definition keeps {A} (m : ST state A) : Prop :=
  ∀ s a s', m s = Ok (a, s') → vars_le (variables s) (variables s').

Lemma keeps_ret {A} (a : A) : keeps (mret a).
Proof. intros s b s' [= <- <-]. reflexivity. Qed.
Lemma keeps_ub {A} : keeps (ub : ST state A).
Proof. by intros s a s'. Qed.
Lemma keeps_gets {A} (f : state → A) : keeps (gets f).
Proof. intros s b s' [= <- <-]. reflexivity. Qed.
Lemma keeps_liftO {A} (o : outcome A) : keeps (liftO o : ST state A).
Proof. intros s b s' H. unfold liftO in H. destruct o; [|done]. injection H as <- <-. reflexivity. Qed.
Lemma keeps_modify f : (∀ s, vars_le (variables s) (variables (f s))) → keeps (modify f).
Proof. intros H s b s' [= <- <-]. apply H. Qed.
Lemma keeps_bind {A B} (m : ST state A) (f : A → ST state B) :
  keeps m → (∀ a, keeps (f a)) → keeps (m ≫= f).
Proof.
  intros Hm Hf s b s' H. unfold mbind, ST_mbind in H. destruct (m s) as [[a s1]|] eqn:E; [|done].
  etrans; [by apply (Hm s a s1)|]. by apply (Hf a s1 b).
Qed.
Lemma keeps_arg i : keeps (arg i).
Proof. intros s a s' H. unfold arg in H. destruct (_ !! _); [|done]. injection H as <- <-. reflexivity. Qed.
Lemma keeps_select j : keeps (select_if j).
Proof.
  intros s a s' H. unfold select_if in H. destruct j; [|done]. destruct (_ !! _); [|done].
  injection H as <- <-. reflexivity.
Qed.

Create HintDb keeps.
#[export] Hint Resolve keeps_ret keeps_ub keeps_gets keeps_liftO keeps_arg keeps_select : keeps.

(** One construct at a time: binds, conditionals, updates of the state. *)
Ltac keeps_step :=
  match goal with
  | |- keeps (mbind _ _) => apply keeps_bind; [|intros ?]
  | |- keeps (if ?b then _ else _) => destruct b
  | |- keeps (match ?x with _ => _ end) => destruct x
  | |- keeps (modify _) => apply keeps_modify; intros ?;
      first [reflexivity | apply variableFunction_le | apply updateVariable_le]
  | |- keeps _ => solve [auto with keeps]
  end.
Ltac keeps := repeat keeps_step.

Lemma keeps_emit e : keeps (emit e).
Proof. unfold emit. keeps. Qed.
Lemma keeps_jump p : keeps (jump p).
Proof. unfold jump. keeps. Qed.
Lemma keeps_assert_if b : keeps (assert_if b).
Proof. apply keeps_modify. intros s. by destruct (ifEntry s). Qed.
#[export] Hint Resolve keeps_emit keeps_jump keeps_assert_if : keeps.

Lemma keeps_function inp labels i fn l : keeps (exec_function inp labels i fn l).
Proof.
  unfold exec_function, exec_if, exec_else, exec_endif, exec_goto, exec_gpi, exec_gpo, exec_unary,
    exec_led, exec_lcdw, exec_var, exec_spir, exec_xpad. keeps.
Qed.

Lemma keeps_exec_arg inp labels i l : keeps (exec_arg inp labels i l).
Proof.
  unfold exec_arg, exec_assign, accumulate. keeps. apply keeps_function.
Qed.

Lemma keeps_exec_args inp labels n l : keeps (exec_args inp labels n l).
Proof.
  revert l. induction n as [|n IH]; intros l; cbn [exec_args]; [auto with keeps|].
  apply keeps_bind; [apply keeps_exec_arg|]. intros [go l']. destruct go; [apply IH|auto with keeps].
Qed.

Lemma keeps_run_line inp f labels : keeps (run_line inp f labels).
Proof. unfold run_line. keeps. apply keeps_exec_args. Qed.

Lemma keeps_run_lines fuel n inp f labels : keeps (run_lines fuel n inp f labels).
Proof.
  revert n. induction fuel as [|fuel IH]; intros n; cbn [run_lines]; keeps_step; keeps.
  apply keeps_run_line.
Qed.

(** ** The initial variables *)

Lemma add_params_le i params vs : vars_le vs (add_params i params vs).
Proof.
  revert i vs. induction params as [|p ps IH]; intros i vs; cbn [add_params]; [reflexivity|].
  etrans; [apply variableFunction_le|apply IH].
Qed.

(** No parameter is named as a constant. *)
Lemma add_params_names i params vs n :
  n ∈ names (add_params i params vs) → n ∈ names vs ∨ take 6 n = str "_param".
Proof.
  revert i vs. induction params as [|p ps IH]; intros i vs; cbn [add_params]; [by left|].
  intros [Hn|]%IH; [|by right]. unfold variableFunction in Hn.
  destruct (existsb _ _); cbn [snd] in Hn; [by left|].
  unfold names in Hn. rewrite fmap_app in Hn. apply elem_of_app in Hn as [|Hn]; [by left|].
  right. apply list_elem_of_singleton in Hn as ->. done.
Qed.

Lemma add_constant_in c vs : c.1 ∉ names vs → mkVar c.1 c.2 true ∈ (variableFunction c.1 c.2 true vs).2.
Proof.
  intros Hn. unfold variableFunction. destruct (existsb _ _) eqn:E.
  - by apply existsb_name in E.
  - cbn. apply elem_of_app. right. left.
Qed.

Lemma variableFunction_names n v ro vs m :
  m ∈ names (variableFunction n v ro vs).2 → m = n ∨ m ∈ names vs.
Proof.
  unfold variableFunction. destruct (existsb _ _); cbn [snd]; [by right|].
  unfold names. rewrite fmap_app. intros [?|?%list_elem_of_singleton]%elem_of_app; [by right|by left].
Qed.

Lemma add_constants_in cs vs :
  NoDup cs.*1 → (∀ c, c ∈ cs → c.1 ∉ names vs) →
  ∀ c, c ∈ cs → mkVar c.1 c.2 true ∈ foldl (λ vs c, (variableFunction c.1 c.2 true vs).2) vs cs.
Proof.
  revert vs. induction cs as [|d cs IH]; intros vs Hnd Hnew c; [by intros ?%elem_of_nil|].
  cbn [fmap list_fmap] in Hnd. apply NoDup_cons in Hnd as [Hd Hnd]. cbn [foldl].
  set (vs1 := (variableFunction d.1 d.2 true vs).2).
  assert (vars_le vs1 (foldl (λ vs c, (variableFunction c.1 c.2 true vs).2) vs1 cs)) as [_ Hle].
  { generalize vs1. clear. induction cs as [|e cs IH]; intros vs; [reflexivity|].
    cbn [foldl]. etrans; [apply variableFunction_le|apply IH]. }
  intros [->|Hc]%elem_of_cons.
  - apply Hle; [|done]. apply add_constant_in. apply Hnew. left.
  - apply IH; [done| |done]. intros e He [E|Hin]%variableFunction_names.
    + apply Hd. rewrite <- E. apply list_elem_of_fmap. by exists e.
    + by apply (Hnew e); [right|].
Qed.

Lemma initial_le_nodup params : NoDup (names (initial_variables params)).
Proof.
  assert (∀ cs vs, vars_le vs (foldl (λ vs c, (variableFunction c.1 c.2 true vs).2) vs cs)) as Hf.
  { induction cs as [|e cs IH]; intros vs; [reflexivity|]. cbn [foldl].
    etrans; [apply variableFunction_le|apply IH]. }
  apply (Hf constants), (add_params_le 0 params []). constructor.
Qed.

Lemma initial_constants params c :
  c ∈ constants → mkVar c.1 c.2 true ∈ initial_variables params.
Proof.
  apply add_constants_in.
  - apply (bool_decide_unpack _). vm_compute. exact I.
  - intros d Hd [Hn|Ht]%add_params_names; [by apply elem_of_nil in Hn|].
    revert Ht. assert (Forall (λ d, take 6 d.1 ≠ str "_param") constants) as Hall
      by (apply (bool_decide_unpack _); vm_compute; exact I).
    rewrite Forall_forall in Hall. by apply Hall.
Qed.

(** ** The tokenizer stays in the line *)

(** Whether a text string is open after [l]. *)
Definition open_after (l : list Z) : bool :=
  foldl (λ b c, if c =? 34 then negb b else b) false l.

(** The line ends with a quote that opens a text string. *)
Definition opening_quote_last (l : list Z) : bool :=
  match last l with Some c => (c =? 34) && open_after l | None => false end.

Section tokenizer.
Context (ln rest : list Z) (Hln : Forall (λ c, c ≠ 0) ln) (Hq : opening_quote_last ln = false).

Local Definition buf : list Z := ln ++ 0 :: rest.
Local Definition inq (k : nat) : bool := open_after (take k ln).

Local Lemma rd_line (k : nat) c : ln !! k = Some c → rd buf (Z.of_nat k) = Ok c.
Proof.
  intros Hk. unfold rd, buf. destruct (Z.leb_spec 0 (Z.of_nat k)); [|lia].
  rewrite Nat2Z.id, lookup_app_l by by eapply lookup_lt_Some. by rewrite Hk.
Qed.

Local Lemma rd_end : rd buf (Z.of_nat (length ln)) = Ok 0.
Proof.
  unfold rd, buf. destruct (Z.leb_spec 0 (Z.of_nat (length ln))); [|lia].
  by rewrite Nat2Z.id, list_lookup_middle.
Qed.

(** A character of the line, or its terminator. *)
Local Lemma rd_in (k : nat) :
  (k <= length ln)%nat → ∃ c, rd buf (Z.of_nat k) = Ok c ∧ (c = 0 ↔ k = length ln) ∧
    (k < length ln → ln !! k = Some c)%nat.
Proof.
  intros Hk. destruct (decide (k = length ln)) as [->|Hne].
  - exists 0. split; [apply rd_end|]. split; [done|lia].
  - destruct (lookup_lt_is_Some_2 ln k) as [c Hc]; [lia|]. exists c. split; [by apply rd_line|].
    split; [|done]. rewrite Forall_lookup in Hln. specialize (Hln k c Hc). naive_solver.
Qed.

Local Lemma inq_S k c : ln !! k = Some c → inq (S k) = if c =? 34 then negb (inq k) else inq k.
Proof. intros Hc. unfold inq. rewrite (take_S_r _ _ c) by done. unfold open_after. by rewrite foldl_app. Qed.

(** One test at position [S k], the quotes before [k] accounted for. *)
Local Lemma check_line (k : nat) :
  (k < length ln)%nat →
  ∃ go d, checkEndOfArgument buf (Z.of_nat (S k)) (inq k) = Ok (go, d) ∧
    (go = true → d = inq (S k) ∧ S k < length ln)%nat ∧
    (go = false → d = false ∧ (S k = length ln ∨ inq (S k) = false)).
Proof.
  intros Hk. destruct (lookup_lt_is_Some_2 ln k Hk) as [prev Hprev]. rewrite (inq_S k prev Hprev).
  unfold checkEndOfArgument. destruct (Z.leb_spec 1 (Z.of_nat (S k))); [|lia].
  replace (Z.of_nat (S k) - 1) with (Z.of_nat k) by lia. rewrite (rd_line k prev Hprev), bind_ok. cbn [andb].
  destruct (rd_in (S k) Hk) as (cur & Hcur & H0 & _).
  destruct (Z.eqb_spec prev 34) as [->|Hp]; destruct (inq k) eqn:Ek; cbn [andb negb].
  - exists false, false. split; [done|]. split; [done|]. auto.
  - exists true, true. split; [done|]. split; [|done]. split; [done|].
    destruct (decide (S k = length ln)) as [E|]; [|lia]. exfalso.
    revert Hq. unfold opening_quote_last. rewrite last_lookup, <- E. cbn [pred]. rewrite Hprev.
    rewrite <- (take_ge ln (S k)) by lia. change (open_after (take (S k) ln)) with (inq (S k)).
    by rewrite (inq_S k 34 Hprev), Ek.
  - rewrite Hcur, bind_ok. destruct (Z.eqb_spec cur 0) as [E|E].
    + exists false, false. split; [done|]. split; [done|]. intros _. split; [done|]. left. by apply H0.
    + exists true, true. split; [done|]. split; [|done]. intros _. split; [done|].
      destruct (decide (S k = length ln)); [by destruct E; apply H0|lia].
  - rewrite Hcur, bind_ok.
    assert (∃ c2, (if 2 <=? Z.of_nat (S k) then rd buf (Z.of_nat (S k) - 2) else Ok 0) = Ok c2) as [c2 ->].
    { destruct (Z.leb_spec 2 (Z.of_nat (S k))); [|by exists 0].
      destruct (rd_in (k - 1)) as (c2 & Hc2 & _); [lia|]. exists c2. rewrite <- Hc2. f_equal. lia. }
    rewrite bind_ok. eexists _, false. split; [done|]. split; [|by auto].
    intros Hgo. split; [done|]. destruct (decide (S k = length ln)) as [E|]; [|lia].
    apply H0 in E. subst cur. unfold in_argument in Hgo. by rewrite bool_decide_true in Hgo by set_solver.
Qed.

Local Lemma end_line fuel (k : nat) :
  (k < length ln)%nat → (length ln - k <= fuel)%nat →
  ∃ q : nat, end_of_argument fuel buf (Z.of_nat (S k)) (inq k) = Ok (Z.of_nat q, false) ∧
    (k < q <= length ln)%nat ∧ (q = length ln ∨ inq q = false).
Proof.
  revert k. induction fuel as [|fuel IH]; intros k Hk Hf; [lia|]. cbn [end_of_argument].
  destruct (check_line k Hk) as (go & d & -> & Hgo & Hend). rewrite bind_ok. destruct go.
  - destruct (Hgo eq_refl) as [-> Hlt].
    replace (Z.of_nat (S k) + 1) with (Z.of_nat (S (S k))) by lia.
    destruct (IH (S k)) as (q & -> & Hq1 & Hq2); [lia|lia|]. exists q. split; [done|]. split; [lia|done].
  - destruct (Hend eq_refl) as [-> H]. exists (S k). split; [done|]. split; [lia|done].
Qed.

Local Lemma skip_line fuel (k : nat) :
  (k <= length ln)%nat → (length ln - k < fuel)%nat → (k = length ln ∨ inq k = false) →
  ∃ q : nat, skip_separators fuel buf (Z.of_nat k) = Ok (Z.of_nat q) ∧
    (k <= q <= length ln)%nat ∧ (q = length ln ∨ inq q = false).
Proof.
  revert k. induction fuel as [|fuel IH]; intros k Hk Hf Hi; [lia|]. cbn [skip_separators].
  destruct (rd_in k Hk) as (c & -> & H0 & Hc). rewrite bind_ok.
  destruct (bool_decide_reflect (c ∈ [40; 44; 41])) as [Hs|Hs].
  - assert (k < length ln)%nat as Hlt.
    { destruct (decide (k = length ln)) as [E|]; [|lia]. apply H0 in E. subst c. set_solver. }
    replace (Z.of_nat k + 1) with (Z.of_nat (S k)) by lia.
    destruct (IH (S k)) as (q & -> & Hq1 & Hq2); [lia|lia| |].
    + right. rewrite (inq_S k c) by auto. destruct (Z.eqb_spec c 34); [set_solver|].
      by destruct Hi as [->|]; [lia|].
    + exists q. split; [done|]. split; [lia|done].
  - exists k. split; [done|]. split; [lia|done].
Qed.

(** Every argument lies in the line. *)
Lemma split_line n (k : nat) :
  (length ln <= 100)%nat → (k <= length ln)%nat → (k = length ln ∨ inq k = false) →
  ∃ ps, split_arguments n buf (Z.of_nat k) false = Ok (ps, false) ∧ (length ps <= n)%nat ∧
    Forall (λ p, Z.of_nat k <= p.1 <= p.2 ∧ p.2 < Z.of_nat (length ln)) ps.
Proof.
  intros Hlen. revert k. induction n as [|n IH]; intros k Hk Hi; cbn [split_arguments]; [by exists []|].
  destruct (rd_in k Hk) as (c & -> & H0 & Hc). rewrite bind_ok.
  destruct (Z.eqb_spec c 0) as [E|E]; cbn [negb andb].
  { exists []. split; [done|]. split; [cbn; lia|constructor]. }
  assert (k < length ln)%nat as Hlt by (destruct (decide (k = length ln)); [by destruct E; apply H0|lia]).
  destruct Hi as [|Hi]; [lia|]. destruct (Z.ltb_spec (Z.of_nat k) 100); [|lia]. cbn [andb].
  replace (Z.of_nat k + 1) with (Z.of_nat (S k)) by lia.
  destruct (end_line 101 k Hlt) as (q & Hend & Hq1 & Hq2); [lia|].
  rewrite Hi in Hend. rewrite Hend, bind_ok.
  destruct (skip_line 101 q) as (r & -> & Hr1 & Hr2); [lia|lia|done|]. rewrite bind_ok.
  destruct (IH r) as (ps & -> & Hps & Hall); [lia|done|]. rewrite bind_ok.
  eexists. split; [done|]. split; [cbn; lia|]. constructor.
  - cbn. lia.
  - eapply Forall_impl; [exact Hall|]. cbn. lia.
Qed.

End tokenizer.

(** ** IF statements *)

Lemma attach_spec get set es e es' :
  get e = -1 → Forall (λ e, get e ≠ -1) es → attach get set (es ++ e :: es') = Some (es ++ set e :: es').
Proof.
  intros He Hes. induction Hes as [|x es Hx Hes IH]; cbn [app attach].
  - by rewrite He.
  - destruct (Z.eqb_spec (get x) (-1)); [done|]. rewrite IH. by destruct es.
Qed.

(** The last entry whose field is not set gets it. *)
Lemma attach_last_spec get set pre e post :
  get e = -1 → Forall (λ e, get e ≠ -1) post →
  attach_last get set (pre ++ e :: post) = Some (pre ++ set e :: post).
Proof.
  intros He Hpost. unfold attach_last. rewrite rev_app_distr. cbn [rev]. rewrite <- app_assoc. cbn [app].
  rewrite attach_spec; [|done|by apply Forall_rev].
  cbn [fmap option_fmap option_map]. rewrite rev_app_distr. cbn [rev].
  by rewrite !rev_involutive, <- app_assoc.
Qed.

(** ** Properties *)

(** A script, one line per string, as [trimScript] leaves it. *)
Definition script_of (ls : list string) : script :=
  ScriptText.script_in (ScriptText.trimmed_text (map str ls)).

Definition quiet : nat → inputs := λ _, mkInputs (λ _, 1) 0 (λ _, 0) false 20.



(** For a line of fewer than 100 octets without zeros, whose last octet does
    not open a text string, the tokenizer returns at most five arguments, all
    inside the line, whatever the buffer holds behind the line. *)
Theorem split_arguments_in_line ln rest :
  Forall (λ c, c ≠ 0) ln → (length ln < 100)%nat → opening_quote_last ln = false →
  ∃ ps, split_arguments 5 (ln ++ 0 :: rest) 0 false = Ok (ps, false) ∧ (length ps <= 5)%nat ∧
    Forall (λ p, 0 <= p.1 <= p.2 ∧ p.2 < Z.of_nat (length ln)) ps.
Proof. intros Hln Hlen Hq. apply (split_line ln rest Hln Hq 5 0); [lia|lia|by right]. Qed.

Lemma split_arguments_in_line_witness :
  ∃ ps, split_arguments 5 (str "x=GPI(3)" ++ 0 :: [7; 7]) 0 false = Ok (ps, false) ∧
    (length ps <= 5)%nat ∧
    Forall (λ p, 0 <= p.1 <= p.2 ∧ p.2 < Z.of_nat (length (str "x=GPI(3)"))) ps.
Proof.
  apply (split_arguments_in_line (str "x=GPI(3)") [7; 7]);
    [by repeat constructor|vm_compute; lia|reflexivity].
Defined.

(** ENDIF closes the innermost IF that has none yet, but ELSE goes to the
    last IF without ELSE even when that IF is closed.  So in a script whose
    outer IF fails and whose inner IF, without ELSE, is closed, the ELSE branch
    of the outer IF does not run: nothing is executed. *)
Theorem else_attaches_to_closed_if :
  (∀ pre e post pos, endifPosition e = -1 → Forall (λ e, endifPosition e ≠ -1) post →
     if_keyword (str "ENDIF") pos (pre ++ e :: post) = Some (pre ++ set_endif pos e :: post)) ∧
  (∀ pre e post pos, elsePosition e = -1 → Forall (λ e, elsePosition e ≠ -1) post →
     if_keyword (str "ELSE") pos (pre ++ e :: post) = Some (pre ++ set_else pos e :: post)) ∧
  ∃ s, runScript 20 quiet
         (script_of ["VAR(a)=1"; "VAR(b)=1"; "IF(a==2)"; "IF(b==1)"; "WAIT(1)"; "ENDIF"; "ELSE"; "WAIT(2)";
                     "ENDIF"; "END"]%string) (replicate 100 0) [] = Ok (true, s) ∧ effects s = [].
Proof.
  split; [|split].
  - intros pre e post pos. apply attach_last_spec.
  - intros pre e post pos. apply attach_last_spec.
  - destruct (runScript _ _ _ _ _) as [[b s]|] eqn:E; [|vm_compute in E; discriminate E].
    vm_compute in E. injection E as <- <-. by eexists.
Qed.

End ScriptTheorems.
