(* ===== verification/ScriptAssign.v ===== *)
(** * Assignments in scripts

    A line [x=a op b] of a trimmed script, from its octets to the variables:
    the tokenizer splits it in five arguments, [decodeArgument] reads them, and
    the execution from the last to the first leaves the value in [x]. *)

From Stdlib Require Import String.
From S2P Require Import Prelude Strtol Script ScriptText ScriptTheorems.
Import Strtol(at_).
From stdpp Require Import list sets.

Open Scope Z_scope.
Abbreviation length := List.length.

Module ScriptAssign.
Import Script ScriptText ScriptTheorems.

(** ** Words and operators *)

(** The octets of names and numbers: letters, digits and underscores. *)
Definition word_octet (c : Z) : bool :=
  ((48 <=? c) && (c <=? 57)) || ((65 <=? c) && (c <=? 90)) || (c =? 95) || ((97 <=? c) && (c <=? 122)).

Definition word (w : list Z) : Prop := w ≠ [] ∧ Forall (λ c, word_octet c = true) w.

(** The arithmetic operators, by their number. *)
Definition op_text (op : Z) : list Z := nth (Z.to_nat op) operators [].

(** ** Tokens *)

(** The octets that end a word in such a line: the terminator and the first
    octets of the operators. *)
Definition word_stop (c : Z) : bool := bool_decide (c ∈ [0; 61; 43; 45; 42; 47; 37; 60; 62]).

Local Lemma word_not c : word_octet c = true → c ∉ [0; 10; 33; 34; 35; 37; 40; 41; 42; 43; 44; 45; 47; 60; 61; 62].
Proof.
  intros Hc Hs. repeat (apply elem_of_cons in Hs as [->|Hs]; [by vm_compute in Hc|]). by apply elem_of_nil in Hs.
Qed.

Local Lemma word_arith c : word_octet c = true → is_arith c = false.
Proof. intros Hc%word_not. apply bool_decide_eq_false. change (str "+-*/%") with [43; 45; 42; 47; 37]. set_solver. Qed.

(** Comparisons of a word octet with the octets the tokenizer looks for. *)
Local Ltac word_cells :=
  repeat match goal with
  | H : word_octet ?c = true |- context [is_arith ?c] => rewrite (word_arith c H)
  | H : word_octet ?c = true |- context [bool_decide (?c ∈ ?l)] =>
      rewrite (bool_decide_false (c ∈ l)) by (pose proof (word_not c H); set_solver)
  | H : word_octet ?c = true |- context [?c =? ?n] =>
      rewrite (proj2 (Z.eqb_neq c n)) by (pose proof (word_not c H); set_solver)
  end.

Lemma word_inner t : word t → Forall inner t ∧ t ≠ [].
Proof.
  intros [Hne Ht]. split; [|done]. induction Ht as [|c t Hc Ht IH]; constructor.
  - pose proof (word_not c Hc). split; set_solver.
  - destruct t; [constructor|by apply IH].
Qed.

Lemma op_text_inner op : OPTYPE_EQ <= op <= OPTYPE_SHIFTDOWN →
  Forall inner (op_text op) ∧ op_text op ≠ [] ∧ (length (op_text op) <= 2)%nat ∧
  ∀ c, head (op_text op) = Some c → word_stop c = true.
Proof.
  intros Hop. assert (op = 6 ∨ op = 7 ∨ op = 8 ∨ op = 9 ∨ op = 10 ∨ op = 11 ∨ op = 12 ∨ op = 13) as Hc'
    by (unfold OPTYPE_EQ, OPTYPE_SHIFTDOWN in *; lia).
  destruct Hc' as [-> | [-> | [-> | [-> | [-> | [-> | [-> | ->]]]]]]];
    (split; [unfold inner; apply (bool_decide_unpack _); vm_compute; exact I|]; split; [done|];
     split; [vm_compute; lia|]; by intros c [= <-]).
Qed.

Section tokens.
Context (buf : list Z) (Hvar : take 3 buf ≠ str "VAR") (Hgoto : take 4 buf ≠ str "GOTO").

Local Lemma in_word pos p2 prev cur :
  word_octet prev = true → word_octet cur = true → in_argument buf pos p2 prev cur = true.
Proof.
  intros Hp Hc. unfold in_argument. word_cells. rewrite !andb_false_r. cbn [andb orb].
  rewrite !(bool_decide_false (take _ buf = _)) by done. by rewrite !andb_false_r.
Qed.

Local Lemma in_word_end pos p2 prev cur :
  1 <= pos → word_octet prev = true → word_stop cur = true → in_argument buf pos p2 prev cur = false.
Proof.
  intros Hpos Hp Hs. apply bool_decide_eq_true in Hs. destruct (Z.leb_spec 1 pos) as [Hle|]; [|lia].
  unfold in_argument. rewrite (proj2 (Z.leb_le 1 pos) Hle).
  word_cells. repeat (apply elem_of_cons in Hs as [->|Hs]; [by vm_compute|]). by apply elem_of_nil in Hs.
Qed.

(** An operator of one octet before a word. *)
Local Lemma in_operator pos p2 prev cur :
  1 <= pos → prev ∈ [61; 43; 45; 42; 47; 37] → word_octet cur = true → in_argument buf pos p2 prev cur = false.
Proof.
  intros Hpos Hs Hc. unfold in_argument. rewrite (proj2 (Z.leb_le 1 pos) Hpos). word_cells. cbn [andb orb negb].
  destruct ((2 <=? pos) && _); [done|].
  repeat (apply elem_of_cons in Hs as [->|Hs]; [by vm_compute|]). by apply elem_of_nil in Hs.
Qed.

(** A shift operator goes on at its second octet and ends behind it. *)
Local Lemma in_shift pos p2 o :
  1 <= pos → o = 60 ∨ o = 62 → word_octet p2 = true → in_argument buf pos p2 o o = true.
Proof.
  intros Hpos Ho Hp. unfold in_argument. rewrite (proj2 (Z.leb_le 1 pos) Hpos). word_cells.
  rewrite !(bool_decide_false (take _ buf = _)) by done. rewrite !andb_false_r.
  by destruct Ho as [-> | ->]; vm_compute (is_arith _); vm_compute (bool_decide _); cbn.
Qed.

Local Lemma in_shift_end pos o cur :
  2 <= pos → o = 60 ∨ o = 62 → word_octet cur = true → in_argument buf pos o o cur = false.
Proof.
  intros Hpos Ho Hc. unfold in_argument. rewrite (proj2 (Z.leb_le 2 pos) Hpos). word_cells.
  rewrite !andb_false_r. by destruct Ho as [-> | ->].
Qed.

(** One test of the tokenizer, outside text strings. *)
Local Lemma rd_app pre c post : buf = pre ++ c :: post → rd buf (Z.of_nat (length pre)) = Ok c.
Proof.
  intros ->. unfold rd. destruct (Z.leb_spec 0 (Z.of_nat (length pre))); [|lia].
  by rewrite Nat2Z.id, list_lookup_middle.
Qed.

Local Lemma check_at pre prev cur post :
  buf = pre ++ prev :: cur :: post → prev ≠ 34 →
  checkEndOfArgument buf (Z.of_nat (length pre) + 1) false =
    Ok (in_argument buf (Z.of_nat (length pre) + 1) (default 0 (list.last pre)) prev cur, false).
Proof.
  intros E Hp. unfold checkEndOfArgument. destruct (Z.leb_spec 1 (Z.of_nat (length pre) + 1)); [|lia].
  rewrite Z.add_simpl_r, (rd_app pre prev (cur :: post) E), bind_ok.
  destruct (Z.eqb_spec prev 34); [done|]. cbn [andb].
  replace (Z.of_nat (length pre) + 1) with (Z.of_nat (length (pre ++ [prev]))) by len.
  rewrite (rd_app (pre ++ [prev]) cur post), bind_ok by by rewrite <- app_assoc.
  destruct pre as [|p pre _] using rev_ind; [done|].
  rewrite last_snoc. destruct (Z.leb_spec 2 (Z.of_nat (length ((pre ++ [p]) ++ [prev])))) as [|Hlt];
    [|rewrite !length_app in Hlt; cbn in Hlt; lia].
  replace (Z.of_nat (length ((pre ++ [p]) ++ [prev])) - 2) with (Z.of_nat (length pre)) by len.
  by rewrite (rd_app pre p (prev :: cur :: post)), bind_ok by by rewrite <- app_assoc in E.
Qed.

Lemma word_end w : ∀ pre u c post fuel,
  buf = pre ++ (u :: w) ++ c :: post → Forall (λ c, word_octet c = true) (u :: w) → word_stop c = true →
  (S (length w) <= fuel)%nat →
  end_of_argument fuel buf (Z.of_nat (length pre) + 1) false = Ok (Z.of_nat (length pre) + 1 + Z.of_nat (length w), false).
Proof.
  induction w as [|v w IH]; intros pre u c post fuel E Hw Hc Hfuel; (destruct fuel as [|fuel]; [lia|]);
    inversion_clear Hw as [|? ? Hu Hw']; pose proof (word_not u Hu) as Hu'; cbn [end_of_argument].
  - rewrite (check_at pre u c post), bind_ok by (done || set_solver).
    rewrite in_word_end by (done || lia). cbn. f_equal. f_equal. lia.
  - inversion_clear Hw' as [|? ? Hv Hw'']. rewrite (check_at pre u v (w ++ c :: post)), bind_ok by (done || set_solver).
    rewrite in_word by done. replace (Z.of_nat (length pre) + 1) with (Z.of_nat (length (pre ++ [u]))) at 1 by len.
    rewrite (IH (pre ++ [u]) v c post fuel);
      [f_equal; f_equal; len|by rewrite <- app_assoc|by constructor|done|cbn in Hfuel; lia].
Qed.

Lemma operator_end op pre p c post :
  OPTYPE_EQ <= op <= OPTYPE_SHIFTDOWN → buf = (pre ++ [p]) ++ op_text op ++ c :: post →
  word_octet p = true → word_octet c = true →
  end_of_argument 101 buf (Z.of_nat (length (pre ++ [p])) + 1) false =
    Ok (Z.of_nat (length (pre ++ [p])) + Z.of_nat (length (op_text op)), false).
Proof.
  intros Hop E Hp Hc.
  assert ((∃ o, op_text op = [o] ∧ o ∈ [61; 43; 45; 42; 47; 37]) ∨
          ∃ o, op_text op = [o; o] ∧ (o = 60 ∨ o = 62)) as [(o & Eo & Ho)|(o & Eo & Ho)].
  { assert (op = 6 ∨ op = 7 ∨ op = 8 ∨ op = 9 ∨ op = 10 ∨ op = 11 ∨ op = 12 ∨ op = 13) as Hc'
      by (unfold OPTYPE_EQ, OPTYPE_SHIFTDOWN in *; lia).
    destruct Hc' as [-> | [-> | [-> | [-> | [-> | [-> | [-> | ->]]]]]]];
      (left; eexists; split; [done|set_solver]) || (right; eexists; split; [done|lia]). }
  - rewrite Eo in *. cbn [app length] in *. cbn [end_of_argument].
    rewrite (check_at _ o c post), bind_ok by (done || set_solver).
    by rewrite in_operator by (done || lia).
  - rewrite Eo in *. cbn [app length] in *. cbn [end_of_argument].
    rewrite (check_at _ o o (c :: post)), bind_ok by (done || lia). rewrite last_snoc. cbn [default].
    rewrite in_shift by (done || lia).
    replace (Z.of_nat (length (pre ++ [p])) + 1) with (Z.of_nat (length ((pre ++ [p]) ++ [o]))) by len.
    rewrite (check_at _ o c post), bind_ok by (lia || by rewrite <- app_assoc). rewrite last_snoc. cbn [default].
    rewrite in_shift_end by (done || len). f_equal. f_equal. len.
Qed.

Local Lemma skip_none pre c post fuel :
  buf = pre ++ c :: post → c ∉ [40; 44; 41] →
  skip_separators (S fuel) buf (Z.of_nat (length pre)) = Ok (Z.of_nat (length pre)).
Proof. intros E Hc. cbn [skip_separators]. by rewrite (rd_app _ _ _ E), bind_ok, bool_decide_false. Qed.

(** One argument. *)
Lemma split_step n pre t c post :
  buf = pre ++ t ++ c :: post → Forall inner t → t ≠ [] → c ∉ [40; 44; 41] → (length pre < 100)%nat →
  end_of_argument 101 buf (Z.of_nat (length pre) + 1) false =
    Ok (Z.of_nat (length pre) + Z.of_nat (length t), false) →
  split_arguments (S n) buf (Z.of_nat (length pre)) false =
    match split_arguments n buf (Z.of_nat (length (pre ++ t))) false with
    | UB => UB
    | Ok (l, d) => Ok ((Z.of_nat (length pre), Z.of_nat (length pre) + Z.of_nat (length t) - 1) :: l, d)
    end.
Proof.
  intros E Ht Hne Hc Hlen Hend. cbn [split_arguments]. destruct t as [|u t]; [done|].
  inversion_clear Ht as [|? ? [Hu _] _].
  rewrite (rd_app pre u (t ++ c :: post) E), bind_ok. destruct (Z.eqb_spec u 0); [done|].
  destruct (Z.ltb_spec (Z.of_nat (length pre)) 100); [cbn [negb andb]|lia]. rewrite Hend, bind_ok.
  rewrite <- Nat2Z.inj_add, <- length_app.
  rewrite (skip_none (pre ++ u :: t) c post 100), bind_ok by (done || by rewrite <- app_assoc).
  by destruct (split_arguments n buf _ false) as [[l d]|].
Qed.

Lemma split_word n pre t c post :
  buf = pre ++ t ++ c :: post → word t → word_stop c = true → (length pre + length t < 100)%nat →
  split_arguments (S n) buf (Z.of_nat (length pre)) false =
    match split_arguments n buf (Z.of_nat (length (pre ++ t))) false with
    | UB => UB
    | Ok (l, d) => Ok ((Z.of_nat (length pre), Z.of_nat (length pre) + Z.of_nat (length t) - 1) :: l, d)
    end.
Proof.
  intros E Hw Hc Hlen. destruct (word_inner t Hw) as [Hin Hne]. apply (split_step n pre t c post); try done; try lia.
  - apply bool_decide_eq_true in Hc. set_solver.
  - destruct t as [|u t]; [done|]. rewrite (word_end t pre u c post 101 E); [f_equal; f_equal; cbn; lia|apply Hw|done|].
    cbn in *. lia.
Qed.

Lemma split_operator n pre w op c post :
  buf = (pre ++ w) ++ op_text op ++ c :: post → word w → OPTYPE_EQ <= op <= OPTYPE_SHIFTDOWN →
  word_octet c = true → (length (pre ++ w) < 100)%nat →
  split_arguments (S n) buf (Z.of_nat (length (pre ++ w))) false =
    match split_arguments n buf (Z.of_nat (length ((pre ++ w) ++ op_text op))) false with
    | UB => UB
    | Ok (l, d) => Ok ((Z.of_nat (length (pre ++ w)),
                        Z.of_nat (length (pre ++ w)) + Z.of_nat (length (op_text op)) - 1) :: l, d)
    end.
Proof.
  intros E [Hne Hw] Hop Hc Hlen. destruct (op_text_inner op Hop) as (Hin & Hne' & _ & _).
  apply (split_step n (pre ++ w) (op_text op) c post); try done.
  - pose proof (word_not c Hc). set_solver.
  - destruct (exists_last Hne) as (w' & p & ->). apply list.Forall_app in Hw as [_ Hp]. inversion_clear Hp.
    rewrite (app_assoc pre w' [p]) in *. by apply (operator_end op (pre ++ w') p c post).
Qed.

(** The arguments of adjacent tokens. *)
Fixpoint spans (pos : Z) (ts : list (list Z)) : list (Z * Z) :=
  match ts with
  | [] => []
  | t :: ts => (pos, pos + Z.of_nat (length t) - 1) :: spans (pos + Z.of_nat (length t)) ts
  end.

Lemma split_assignment x a op b rest :
  buf = (x ++ op_text OPTYPE_EQ ++ a ++ op_text op ++ b) ++ 0 :: rest →
  word x → word a → word b → OPTYPE_EQ <= op <= OPTYPE_SHIFTDOWN →
  (length (x ++ op_text OPTYPE_EQ ++ a ++ op_text op ++ b) < 100)%nat →
  split_arguments 5 buf 0 false = Ok (spans 0 [x; op_text OPTYPE_EQ; a; op_text op; b], false).
Proof.
  intros E Hx Ha Hb Hop Hlen. rewrite <- !app_assoc in E. rewrite !length_app in Hlen.
  destruct (op_text_inner op Hop) as (_ & Hone & _ & Hohead).
  destruct (op_text op) as [|o ot] eqn:Eo; [done|]. specialize (Hohead o eq_refl).
  destruct a as [|a0 a'] eqn:Ea; [by destruct Ha|]. destruct b as [|b0 b'] eqn:Eb; [by destruct Hb|].
  assert (word_octet a0 = true ∧ word_octet b0 = true) as [Ha0 Hb0]
    by (destruct Ha as [_ Ha], Hb as [_ Hb]; split; [by inversion Ha|by inversion Hb]).
  rewrite <- Ea, <- Eb in *.
  change 0 with (Z.of_nat (length (@nil Z))) at 1.
  rewrite (split_word 4 [] x 61 (a ++ op_text op ++ b ++ 0 :: rest)); [|by rewrite Eo|done|done|cbn; lia].
  rewrite (split_operator 3 [] x OPTYPE_EQ a0 (a' ++ op_text op ++ b ++ 0 :: rest));
    [|by rewrite Eo, E, Ea|done|done|done|cbn; lia].
  rewrite (split_word 2 (([] ++ x) ++ op_text OPTYPE_EQ) a o (ot ++ b ++ 0 :: rest));
    [|by rewrite E, <- !app_assoc|done|done|rewrite !length_app; cbn in *; lia].
  rewrite (split_operator 1 (([] ++ x) ++ op_text OPTYPE_EQ) a op b0 (b' ++ 0 :: rest));
    [|by rewrite Eo, E, Eb, <- !app_assoc|done|done|done|rewrite !length_app; cbn in *; lia].
  rewrite (split_word 0 (((([] ++ x) ++ op_text OPTYPE_EQ) ++ a) ++ op_text op) b 0 rest);
    [|by rewrite Eo, E, <- !app_assoc|done|done|rewrite Eo, !length_app; cbn in *; lia].
  cbn [split_arguments spans]. rewrite Eo. cbn [app]. rewrite !length_app. repeat (f_equal; try lia).
Qed.

End tokens.

(** ** Execution *)

(** [a op b] as the script writes it. *)
Definition c_op (op a b : Z) : outcome Z :=
  if op =? OPTYPE_PLUS then Ok (s32 (a + b))
  else if op =? OPTYPE_MINUS then Ok (s32 (a - b))
  else if op =? OPTYPE_MULT then Ok (s32 (a * b))
  else if op =? OPTYPE_DIVIDE then c_div a b
  else if op =? OPTYPE_MOD then c_mod a b
  else if op =? OPTYPE_SHIFTUP then c_shl a b
  else c_shr a b.

Local Ltac op_cases op :=
  assert (op = 7 ∨ op = 8 ∨ op = 9 ∨ op = 10 ∨ op = 11 ∨ op = 12 ∨ op = 13) as Hc
    by (unfold OPTYPE_PLUS, OPTYPE_SHIFTDOWN in *; lia);
  destruct Hc as [-> | [-> | [-> | [-> | [-> | [-> | ->]]]]]].

Lemma arith_variable_op op v acc :
  OPTYPE_PLUS <= op <= OPTYPE_SHIFTDOWN → arith_variable op v acc = c_op op v acc.
Proof.
  intros Hop. op_cases op; unfold arith_variable, c_op; cbn; by rewrite ?(Z.add_comm v), ?(Z.mul_comm v).
Qed.

(** With a number on the left, subtraction and division take their operands
    in the wrong order. *)
Lemma arith_numeric_op op v acc :
  OPTYPE_PLUS <= op <= OPTYPE_SHIFTDOWN →
  arith_numeric op v acc =
    if (op =? OPTYPE_MINUS) || (op =? OPTYPE_DIVIDE) then c_op op acc v else c_op op v acc.
Proof.
  intros Hop. op_cases op; unfold arith_numeric, c_op; cbn; by rewrite ?(Z.add_comm v), ?(Z.mul_comm v).
Qed.

Definition operand (a : argument) : Prop :=
  exist a = true ∧ (type a = ARGTYPE_VARIABLE ∨ type a = ARGTYPE_NUMERIC).

(** The arguments of a line [x = a op b]. *)
Record assignment (x a b : argument) (n : list Z) (op : Z) (l : list argument) : Prop := {
  asg_args : ∃ eq o, l = [x; eq; a; o; b] ∧
    exist eq = true ∧ type eq = ARGTYPE_OPERATOR ∧ value eq = OPTYPE_EQ ∧
    exist o = true ∧ type o = ARGTYPE_OPERATOR ∧ value o = op;
  asg_target : exist x = true ∧ type x = ARGTYPE_VARIABLE ∧ text x = Some n;
  asg_left : operand a;
  asg_right : operand b
}.

(** The value the line computes from the operands' values. *)
Definition line_value (a b : argument) (op : Z) : outcome Z :=
  (if type a =? ARGTYPE_VARIABLE then arith_variable else arith_numeric) op (value a) (value b).

Lemma arg_bind {A} i a (f : argument → ST state A) s :
  argumentList s !! i = Some a → (arg i ≫= f) s = f a s.
Proof. intros Ha. apply bind_run. unfold arg. by rewrite Ha. Qed.

Lemma exec_arg_operand inp labels i a l s :
  argumentList s !! S i = Some a → operand a →
  exec_arg inp labels (S i) l s =
    accumulate (if type a =? ARGTYPE_VARIABLE then arith_variable else arith_numeric) (value a) l s.
Proof.
  intros Ha [He Ht]. unfold exec_arg. rewrite (arg_bind _ a), He by done.
  by destruct Ht as [-> | ->].
Qed.

Lemma exec_arg_operator inp labels i a l s :
  argumentList s !! i = Some a → exist a = true → type a = ARGTYPE_OPERATOR →
  exec_arg inp labels i l s =
    Ok ((true, mkLine (arithAccumulator l) (accumulatorInUse l) (value a)), s).
Proof. intros Ha He Ht. unfold exec_arg. by rewrite (arg_bind _ a), He, Ht by done. Qed.

Lemma exec_args_S inp labels i l s :
  exec_args inp labels (S i) l s =
    match exec_arg inp labels i l s with
    | UB => UB
    | Ok ((go, l), s) => if (go : bool) then exec_args inp labels i l s else Ok (false, s)
    end.
Proof. cbn [exec_args]. rewrite bind_cases. by destruct (exec_arg inp labels i l s) as [[[[] ?] ?]|]. Qed.

(** Execution of the line: the accumulator takes [b], then [a op b], and goes
    to the variable. *)
Lemma exec_args_assignment inp labels x a b n op s :
  assignment x a b n op (argumentList s) →
  exec_args inp labels 5 fresh_line s =
    match line_value a b op with
    | UB => UB
    | Ok r => let '(ok, vs) := updateVariable n r (variables s) in
        Ok (ok, set_vars vs (set_args (alter (λ a, mkArg (exist a) (type a) r (text a)) 0%nat
                                             (argumentList s)) s))
    end.
Proof.
  intros [(eq & o & Hl & Heq & Hteq & Hveq & Ho & Hto & <-) (Hx & Htx & Hnx) Ha Hb].
  rewrite exec_args_S, (exec_arg_operand _ _ _ b) by (done || by rewrite Hl). cbn -[exec_args].
  rewrite exec_args_S, (exec_arg_operator _ _ _ o) by (done || by rewrite Hl).
  rewrite exec_args_S, (exec_arg_operand _ _ _ a) by (done || by rewrite Hl).
  unfold accumulate. cbn [accumulatorInUse arithOpInLine arithAccumulator]. rewrite bind_cases. unfold liftO.
  unfold line_value. destruct ((if type a =? ARGTYPE_VARIABLE then _ else _) _ _ _) as [r|]; [|done].
  cbn -[exec_args updateVariable]. rewrite exec_args_S, (exec_arg_operator _ _ _ eq) by (done || by rewrite Hl).
  rewrite exec_args_S. unfold exec_arg. rewrite (arg_bind _ x), Hx, Htx by by rewrite Hl.
  cbn -[updateVariable exec_assign]. unfold exec_assign. rewrite (arg_bind _ eq), Hteq, Hveq, Hnx by by rewrite Hl.
  cbn [accumulatorInUse arithAccumulator andb Z.eqb Pos.eqb ARGTYPE_OPERATOR OPTYPE_EQ].
  repeat (rewrite bind_cases; unfold modify, gets; cbn -[updateVariable alter]).
  by destruct (updateVariable n r (variables s)) as [[] vs].
Qed.

Definition lookup (n : list Z) (vs : list variableEntry) : option variableEntry := List.find (is_name n) vs.

(** The update of a declared variable changes that variable only, and only when
    it is writable. *)
Lemma updateVariable_lookup n r v vs :
  lookup n vs = Some v →
  (updateVariable n r vs).1 = true ∧
  ∀ m, lookup m (updateVariable n r vs).2 =
    if decide (m = n ∧ readOnly v = false) then Some (mkVar n r false) else lookup m vs.
Proof.
  unfold updateVariable. destruct vs as [|e vs]; [done|]. generalize (e :: vs). clear e vs. intros vs.
  induction vs as [|e vs IH]; [done|]. unfold lookup in *. cbn [List.find update_entries].
  destruct (is_name n e) eqn:En.
  - intros [= ->]. cbn [fst snd]. split; [done|]. intros m.
    unfold is_name in *. apply bool_decide_eq_true in En as <-. destruct (readOnly v) eqn:Er; cbn [List.find].
    + by rewrite decide_False by naive_solver.
    + destruct (decide (m = name v)) as [->|Hm].
      * rewrite decide_True by done. by rewrite bool_decide_true.
      * rewrite decide_False by naive_solver. by rewrite !bool_decide_false by (cbn; congruence).
  - intros H. destruct (IH H) as (H1 & H2). destruct (update_entries n r vs) as [b us]. cbn in *.
    split; [done|]. intros m. rewrite H2. destruct (is_name m e) eqn:Em; [|done].
    rewrite decide_False; [done|]. intros [-> _]. congruence.
Qed.

(** ** Decoding *)

Lemma index_of_None s l : s ∉ l → index_of s l = None.
Proof.
  induction l as [|x l IH]; [done|]. intros [Hx Hl]%not_elem_of_cons. cbn.
  by rewrite bool_decide_false, IH by done.
Qed.

Lemma word_not_operator w : word w → w ∉ operators.
Proof.
  intros [Hne Hw]. destruct w as [|c w]; [done|]. inversion_clear Hw as [|? ? Hc _].
  apply word_not in Hc. unfold operators. set_solver.
Qed.

(** The value of an operand, and whether it is a number: a declared variable,
    or else what [strtol] reads in a word that starts with a digit. *)
Definition operand_of (vars : list variableEntry) (w : list Z) : option (bool * Z) :=
  match lookup w vars with
  | Some v => Some (false, vvalue v)
  | None => if (48 <=? at_ w 0) && (at_ w 0 <=? 57) then Some (true, Strtol.strtol w 0) else None
  end.

Lemma word_head w : word w → at_ w 0 ≠ 34.
Proof.
  intros [Hne Hw]. destruct w as [|c w]; [done|]. inversion_clear Hw as [|? ? Hc _].
  apply word_not in Hc. cbn. set_solver.
Qed.

Lemma find_name n vs v : lookup n vs = Some v → name v = n.
Proof. intros [_ H]%List.find_some. by apply bool_decide_eq_true in H. Qed.

(** An operand as the argument it becomes. *)
Definition operand_type (k : bool) : Z := if k then ARGTYPE_NUMERIC else ARGTYPE_VARIABLE.

Lemma decode_operand vars w old k v :
  word w → w ∉ functionCallList → operand_of vars w = Some (k, v) →
  ∃ tx, decodeArgument w old vars = Ok (operand_type k, v, tx) ∧ (k = false → tx = Some w).
Proof.
  intros Hw Hf Ho. unfold decodeArgument. rewrite index_of_None by done.
  rewrite index_of_None by by apply word_not_operator. cbv zeta.
  destruct (Z.eqb_spec (at_ w 0) 34) as [E|_]; [by destruct (word_head w Hw)|].
  unfold operand_of, lookup in Ho. destruct (List.find (is_name w) vars) as [e|] eqn:E.
  - injection Ho as <- <-. eexists. split; [done|]. intros _. f_equal. by eapply find_name.
  - destruct ((48 <=? at_ w 0) && (at_ w 0 <=? 57)); [|done]. injection Ho as <- <-. by exists None.
Qed.

Lemma decode_operator vars op old :
  OPTYPE_EQ <= op <= OPTYPE_SHIFTDOWN → decodeArgument (op_text op) old vars = Ok (ARGTYPE_OPERATOR, op, None).
Proof.
  intros Hop. assert (op = 6 ∨ op = 7 ∨ op = 8 ∨ op = 9 ∨ op = 10 ∨ op = 11 ∨ op = 12 ∨ op = 13) as Hc'
    by (unfold OPTYPE_EQ, OPTYPE_SHIFTDOWN in *; lia).
  by destruct Hc' as [-> | [-> | [-> | [-> | [-> | [-> | [-> | ->]]]]]]].
Qed.

(** Decoding the tokens of the line in order. *)
Fixpoint decode_tokens (vars : list variableEntry) (ts : list (list Z)) (old : list argument)
    : outcome (list argument) :=
  match ts, old with
  | t :: ts, a :: old =>
      '(ty, v, tx) ← decodeArgument t (value a) vars;
      rest ← decode_tokens vars ts old;
      Ok (mkArg true ty v tx :: rest)
  | _, _ => Ok old
  end.

Lemma decode_spans buf vars ts : ∀ pre post old,
  buf = pre ++ List.concat ts ++ post → Forall (λ t, Forall inner t ∧ (length t < 50)%nat) ts →
  decode_arguments buf vars (spans (Z.of_nat (length pre)) ts) old = decode_tokens vars ts old.
Proof.
  induction ts as [|t ts IH]; intros pre post old E Hts; [by destruct old|]. destruct old as [|o old]; [done|].
  inversion_clear Hts as [|? ? [Hin Hlen] Hts']. cbn [spans decode_arguments decode_tokens List.concat] in *.
  assert (argument_text buf (Z.of_nat (length pre), Z.of_nat (length pre) + Z.of_nat (length t) - 1) = Ok t) as ->.
  { unfold argument_text. cbn [fst snd]. replace (_ + 1 - _) with (Z.of_nat (length t)) by lia.
    destruct (Z.ltb_spec (Z.of_nat (length t)) 50); [|lia]. rewrite !Nat2Z.id, E, drop_app_length.
    rewrite <- app_assoc, take_app_length. by rewrite c_string_id. }
  rewrite bind_ok. destruct (decodeArgument t (value o) vars) as [[[ty v] tx]|]; [|done]. rewrite !bind_ok.
  replace (Z.of_nat (length pre) + Z.of_nat (length t)) with (Z.of_nat (length (pre ++ t))) by len.
  by rewrite (IH (pre ++ t) post) by (done || by rewrite <- !app_assoc in *).
Qed.

(** ** A line that is not a label *)

(** The script is about to run the line at [p]. *)
Record at_line (p : Z) (s : state) : Prop := {
  al_start : stringStartPtr s = p;
  al_stop : stringStopPtr s = p;
  al_args : length (argumentList s) = 5%nat;
  al_decl : stringDeclaration s = false
}.

Lemma copy_line_at f pos stop l buf :
  line_at f pos stop l → ∃ rest, copy_line f pos (stop - pos) buf = l ++ 0 :: rest.
Proof.
  intros H. unfold copy_line. rewrite (la_text _ _ _ _ H).
  destruct (Z.to_nat (stop - pos) - length l)%nat; cbn; by eexists.
Qed.

Lemma run_line_args inp f labels s p q l rest ps args :
  line_at f p (q - 1) l → (length l <= 98)%nat → head l ≠ Some 36 → l ≠ [] →
  at_line p s → emergencyEscape inp = false →
  copy_line f p (q - 1 - p) (compareBuf s) = l ++ 0 :: rest →
  split_arguments 5 (l ++ 0 :: rest) 0 false = Ok (ps, false) →
  decode_arguments (l ++ 0 :: rest) (variables s) ps (forget <$> argumentList s) = Ok args →
  run_line inp f labels s =
    exec_args inp labels 5 fresh_line
      (mkState q q args (variables s) (ifs s) (ifEntry s) (l ++ 0 :: rest) false (effects s)).
Proof.
  intros Hl Hlen Hhead Hne [Hs1 Hs2 _ Hd] He Hcopy Hsplit Hdec. unfold run_line.
  pose proof (la_length _ _ _ _ Hl).
  erewrite bind_run by done. cbn [id]. rewrite Hs1, Hs2, He, Hd.
  erewrite bind_run by (unfold liftO; by rewrite (la_end _ _ _ _ Hl) by lia).
  destruct (la_first _ _ _ _ Hl) as (c & Ec & Hc). destruct l as [|d l]; [done|]. subst d.
  erewrite bind_run by (unfold liftO; by rewrite Ec).
  destruct (Z.eqb_spec c 36) as [->|_]; [done|]. cbv zeta.
  unfold MAXINSTRUCTIONLENGTH. destruct (Z.leb_spec 100 (q - 1 - p)); [lia|]. rewrite Hcopy.
  do 3 (erewrite bind_run by done). erewrite bind_run by (unfold liftO; by rewrite Hsplit). cbn beta iota.
  erewrite bind_run by done. erewrite bind_run by (unfold liftO; by rewrite Hdec). erewrite bind_run by done.
  by replace (q - 1 + 1) with q by lia.
Qed.
(** ** The assignment line *)

Definition assignment_text (x a : list Z) (op : Z) (b : list Z) : list Z :=
  x ++ op_text OPTYPE_EQ ++ a ++ op_text op ++ b.

(** The line fits in the buffers, and none of its words is taken for
    something else: a function name, or the start of a declaration or a jump. *)
Record assignment_ok (x a : list Z) (op : Z) (b : list Z) : Prop := {
  ao_op : OPTYPE_PLUS <= op <= OPTYPE_SHIFTDOWN;
  ao_words : Forall (λ w, word w ∧ w ∉ functionCallList ∧ (length w < 50)%nat) [x; a; b];
  ao_line : (length (assignment_text x a op b) <= 98)%nat;
  ao_start : take 3 (assignment_text x a op b) ≠ str "VAR" ∧ take 4 (assignment_text x a op b) ≠ str "GOTO"
}.

(** The value the line computes: [a op b], but [b op a] when [a] is a number
    and the operator a subtraction or a division. *)
Definition assigned (op : Z) (a b : bool * Z) : outcome Z :=
  if a.1 && ((op =? OPTYPE_MINUS) || (op =? OPTYPE_DIVIDE)) then c_op op b.2 a.2 else c_op op a.2 b.2.

Lemma line_value_assigned ka va ta kb vb tb op :
  OPTYPE_PLUS <= op <= OPTYPE_SHIFTDOWN →
  line_value (mkArg true (operand_type ka) va ta) (mkArg true (operand_type kb) vb tb) op =
    assigned op (ka, va) (kb, vb).
Proof.
  intros Hop. unfold line_value, assigned. cbn [type value fst snd].
  destruct ka; cbn [operand_type andb].
  - change (ARGTYPE_NUMERIC =? ARGTYPE_VARIABLE) with false. cbn match. by apply arith_numeric_op.
  - change (ARGTYPE_VARIABLE =? ARGTYPE_VARIABLE) with true. cbn match. by apply arith_variable_op.
Qed.

(** The five arguments of the line. *)
Lemma decode_assignment vars old x a op b v ka va kb vb :
  assignment_ok x a op b → length old = 5%nat →
  lookup x vars = Some v → operand_of vars a = Some (ka, va) → operand_of vars b = Some (kb, vb) →
  ∃ ta tb, decode_tokens vars [x; op_text OPTYPE_EQ; a; op_text op; b] old =
    Ok [mkArg true ARGTYPE_VARIABLE (vvalue v) (Some x); mkArg true ARGTYPE_OPERATOR OPTYPE_EQ None;
        mkArg true (operand_type ka) va ta; mkArg true ARGTYPE_OPERATOR op None;
        mkArg true (operand_type kb) vb tb].
Proof.
  intros [Hop Hws _ _] Hold Hx Ha Hb. rewrite !list.Forall_cons in Hws.
  destruct Hws as ((Hx1 & Hx2 & _) & (Ha1 & Ha2 & _) & (Hb1 & Hb2 & _) & _).
  destruct old as [|o0 [|o1 [|o2 [|o3 [|o4 [|]]]]]]; try done.
  assert (operand_of vars x = Some (false, vvalue v)) as Hx' by (unfold operand_of; by rewrite Hx).
  destruct (decode_operand vars x (value o0) _ _ Hx1 Hx2 Hx') as (tx & Dx & Htx).
  destruct (decode_operand vars a (value o2) _ _ Ha1 Ha2 Ha) as (ta & Da & _).
  destruct (decode_operand vars b (value o4) _ _ Hb1 Hb2 Hb) as (tb & Db & _).
  exists ta, tb. cbn [decode_tokens]. unfold OPTYPE_PLUS, OPTYPE_SHIFTDOWN in Hop.
  rewrite Dx, bind_ok, !decode_operator, !bind_ok, Da, bind_ok, Db, !bind_ok, Htx
    by (done || unfold OPTYPE_EQ, OPTYPE_SHIFTDOWN; lia). done.
Qed.

Lemma take_line n (l : list Z) r : (n <= length l)%nat → take n (l ++ r) = take n l.
Proof. apply take_app_le. Qed.

(** The line is split and decoded into the arguments of an assignment. *)
Lemma assignment_line_args x a op b rest vars old v ka va kb vb :
  assignment_ok x a op b → length old = 5%nat →
  lookup x vars = Some v → operand_of vars a = Some (ka, va) → operand_of vars b = Some (kb, vb) →
  ∃ ps ta tb, split_arguments 5 (assignment_text x a op b ++ 0 :: rest) 0 false = Ok (ps, false) ∧
    decode_arguments (assignment_text x a op b ++ 0 :: rest) vars ps old =
      Ok [mkArg true ARGTYPE_VARIABLE (vvalue v) (Some x); mkArg true ARGTYPE_OPERATOR OPTYPE_EQ None;
          mkArg true (operand_type ka) va ta; mkArg true ARGTYPE_OPERATOR op None;
          mkArg true (operand_type kb) vb tb].
Proof.
  intros Hok Hold Hx Ha Hb. destruct (decode_assignment vars old _ _ _ _ _ _ _ _ _ Hok Hold Hx Ha Hb) as (ta & tb & Hdec).
  destruct Hok as [Hop Hws Hlen [Hv Hg]]. rewrite !list.Forall_cons in Hws.
  destruct Hws as ((Hx1 & _ & Hx3) & (Ha1 & _ & Ha3) & (Hb1 & _ & Hb3) & _).
  assert (OPTYPE_EQ <= op <= OPTYPE_SHIFTDOWN) as Hop' by (unfold OPTYPE_EQ, OPTYPE_PLUS in *; lia).
  destruct (op_text_inner op Hop') as (Hoi & Hone & Holen & _).
  destruct (op_text_inner OPTYPE_EQ) as (Hei & _ & Helen & _); [done|].
  assert (4 <= length (assignment_text x a op b))%nat as H4.
  { unfold assignment_text. rewrite !length_app. destruct Hx1 as [? _], Ha1 as [? _], Hb1 as [? _].
    change (length (op_text OPTYPE_EQ)) with 1%nat.
    destruct x, a, b, (op_text op); try done. cbn. lia. }
  rewrite <- (take_line 3 _ (0 :: rest)) in Hv by lia. rewrite <- (take_line 4 _ (0 :: rest)) in Hg by lia.
  eexists _, ta, tb. split.
  - apply (split_assignment _ Hv Hg x a op b rest); try done. unfold assignment_text in Hlen. lia.
  - rewrite <- Hdec. apply (decode_spans _ vars [x; op_text OPTYPE_EQ; a; op_text op; b] [] (0 :: rest)).
    + unfold assignment_text. cbn. by rewrite app_nil_r, <- !app_assoc.
    + destruct (word_inner x Hx1), (word_inner a Ha1), (word_inner b Hb1).
      repeat (constructor; [split; [done|lia]|]). constructor.
Qed.

Lemma assignment_head x a op b :
  assignment_ok x a op b → head (assignment_text x a op b) ≠ Some 36 ∧ assignment_text x a op b ≠ [].
Proof.
  intros [_ Hws _ _]. inversion_clear Hws as [|? ? ([Hne Hw] & _) _]. destruct x as [|c x]; [done|].
  inversion_clear Hw as [|? ? Hc _]. split; [|done]. cbn. intros [= ->]. by vm_compute in Hc.
Qed.

(** C32: let a trimmed script hold the line [x=a op b], where [op] is one of the
    seven arithmetic operators, [x] is declared, and [a] and [b] are declared
    variables or numbers (words that start with a digit, read by [strtol]), in a
    line of at most 98 octets with words of fewer than 50 that are no function
    names and that do not start like a declaration or a jump.  When the engine
    gets to the line it writes to [x], if it is writable, the 32-bit value of
    [a op b] or, when [a] is a number and [op] subtracts or divides, of
    [b op a]; no other variable changes, nothing else is executed, and the next
    line follows.  Overflow wraps; a division by zero or of -2^31 by -1, a
    remainder of the same and a shift by less than 0 or more than 31 are
    undefined. *)
Theorem assignment_computes inp f labels ls p q x a op b v va vb s :
  holds f (trimmed_text ls) → Forall (Forall inner) ls →
  (p, q, assignment_text x a op b) ∈ layout 0 ls → assignment_ok x a op b →
  at_line p s → emergencyEscape inp = false →
  lookup x (variables s) = Some v →
  operand_of (variables s) a = Some va → operand_of (variables s) b = Some vb →
  match assigned op va vb with
  | UB => run_line inp f labels s = UB
  | Ok r => ∃ s', run_line inp f labels s = Ok (true, s') ∧ at_line q s' ∧
      effects s' = effects s ∧ ifs s' = ifs s ∧
      ∀ m, lookup m (variables s') =
        if decide (m = x ∧ readOnly v = false) then Some (mkVar x r false) else lookup m (variables s)
  end.
Proof.
  intros Hf Hls Hin Hok Hs He Hx Ha Hb. destruct va as [ka va], vb as [kb vb].
  pose proof (layout_line_at _ _ _ Hf Hls Hin) as Hl. cbn [fst snd] in Hl.
  destruct (copy_line_at _ _ _ _ (compareBuf s) Hl) as [rest Hcopy].
  destruct (assignment_line_args x a op b rest (variables s) (forget <$> argumentList s) v ka va kb vb)
    as (ps & ta & tb & Hsplit & Hdec); [done|rewrite length_fmap; apply Hs|done..|].
  destruct (assignment_head x a op b Hok) as [Hhead Hne].
  rewrite (run_line_args _ _ _ _ _ _ _ _ _ _ Hl (ao_line _ _ _ _ Hok) Hhead Hne Hs He Hcopy Hsplit Hdec).
  rewrite (exec_args_assignment inp labels (mkArg true ARGTYPE_VARIABLE (vvalue v) (Some x))
             (mkArg true (operand_type ka) va ta) (mkArg true (operand_type kb) vb tb) x op).
  2: { split; cbn [argumentList]; [by do 2 eexists|done| |]; by split; [|destruct ka, kb; cbn; auto]. }
  rewrite line_value_assigned by apply Hok. destruct (assigned op (ka, va) (kb, vb)) as [r|]; [|done].
  cbn [variables]. destruct (updateVariable_lookup x r v (variables s) Hx) as [H1 H2].
  destruct (updateVariable x r (variables s)) as [ok vs]. cbn [fst snd] in *. subst ok.
  eexists. by repeat split.
Qed.
(** The script [VAR(x)], [x=10-y], at its second line with [y] 7. *)
Definition demo_lines : list (list Z) := map str ["VAR(x)"; "x=10-y"]%string.
Definition demo_state : state :=
  mkState 7 7 (replicate 5 (mkArg false ARGTYPE_UNKNOWN 0 None))
          [mkVar (str "x") 0 false; mkVar (str "y") 7 false] [] None [] false [].

(** The number on the left: [x] is 7 - 10. *)
Lemma assignment_computes_witness :
  ∃ s', run_line (quiet 0) (script_in (trimmed_text demo_lines)) [] demo_state = Ok (true, s') ∧ at_line 15 s' ∧
    effects s' = [] ∧ ifs s' = [] ∧
    ∀ m, lookup m (variables s') =
      if decide (m = str "x" ∧ false = false) then Some (mkVar (str "x") (-3) false)
      else lookup m (variables demo_state).
Proof.
  refine (assignment_computes (quiet 0) (script_in (trimmed_text demo_lines)) [] demo_lines 7 15
           (str "x") (str "10") OPTYPE_MINUS (str "y") (mkVar (str "x") 0 false) (true, 10) (false, 7) demo_state
           (script_in_holds _) _ _ _ _ eq_refl eq_refl eq_refl eq_refl).
  - unfold inner. apply (bool_decide_unpack _). vm_compute. exact I.
  - apply (bool_decide_unpack _). vm_compute. exact I.
  - split; [unfold OPTYPE_PLUS, OPTYPE_MINUS, OPTYPE_SHIFTDOWN; lia| |vm_compute; lia|done].
    unfold word. apply (bool_decide_unpack _). vm_compute. exact I.
  - by split.
Defined.

End ScriptAssign.
