(* ===== verification/FlashUi.v ===== *)
(** * The flash user interface and the boot requests
      ([src/drivers/flash/FlashUi.c], [src/xblast/PowerManagement.c])

    The user interface starts a flash job and drives the flash state machine
    until it is idle; the boot requests save the settings through it, write the
    EEPROM back, select the bank and restart the console.

    What is drawn is left out, except the final message.  A loop of the program
    runs with fuel and its result is [Running] when the fuel is used up; the
    restart of the console, after which the code spins, is [Restarted].  The
    answers of the dialogs, the reading of the system controller and the two
    EEPROM images are arguments. *)

From S2P Require Import Prelude Layout Md5 Eeprom Hardware Settings FlashTypes FlashLowLevel.
From S2P Require Import FlashDriver FlashContract FlashJedec FlashTheorems FlashProperties.

Module FlashUi.
Import LowLevel Chip Hardware FlashTypes FlashDriver FlashTheorems.

Inductive run (A : Type) := Done (a : A) | Restarted | Running.
Arguments Done {A} a.
Arguments Restarted {A}.
Arguments Running {A}.

(** What leaves the program: a message, a command on the SMBus, the end of the
    USB stack, the log. *)
Inductive event :=
| FlashResult (e : FlashErrorcodes)
| Smbus (w : Eeprom.smbus_write)
| StopUSB
| FlushLog.

Section ui.
Context {L : Type} `{FlashLowLevel L}.

(** [ConfirmDialog] returns [true] when the user refuses; [confirm n] is the
    answer to the [n]th dialog. *)
Context (confirm : nat → bool) (isXBE : bool).

Record ui := mkUi {
  flash : world L;
  mustRestart : bool;
  dialogs : nat;
  events : list event
}.

Definition set_flash (w : world L) (u : ui) : ui := mkUi w (mustRestart u) (dialogs u) (events u).
Definition flashM {A} (m : ST (world L) A) : ST ui A := zoom flash set_flash m.
Definition emit (e : event) : ST ui unit :=
  modify (λ u, mkUi (flash u) (mustRestart u) (dialogs u) (events u ++ [e])).
Definition set_mustRestart : ST ui unit := modify (λ u, mkUi (flash u) true (dialogs u) (events u)).
Definition on_system (f : sys → sys) : ST ui unit :=
  flashM (modify (λ w, set_system (f (system w)) w)).

Definition ConfirmDialog : ST ui bool := λ u,
  Ok (confirm (dialogs u), mkUi (flash u) (mustRestart u) (S (dialogs u)) (events u)).

(** ** Restart *)

Definition canPowerDown : ST ui bool :=
  p ← flashM Flash_getProgress;
  mret (bool_decide (progressOp p = FlashOp_Idle)).

(** [I2CRebootQuick] and [I2CRebootSlow], with their command. *)
Definition I2CReboot (command : Z) : ST ui (run unit) :=
  idle ← canPowerDown;
  if (idle : bool) then emit (Smbus (Eeprom.mkWrite 0x10 0x02 1 command));; mret Restarted
  else mret (Done tt).
Definition I2CRebootQuick : ST ui (run unit) := I2CReboot 0x01.
Definition I2CRebootSlow : ST ui (run unit) := I2CReboot 0x40.

(** ** The end of a job *)

Definition is_critical (e : FlashErrorcodes) : bool :=
  bool_decide (e = FlashErrorcodes_FailedErase) || bool_decide (e = FlashErrorcodes_FailedProgram).

(** [FlashPrintResult] in a release build: with [mustRestart] the console
    restarts, and the code spins even if the restart is refused. *)
Definition FlashPrintResult : ST ui (run bool) :=
  must ← gets mustRestart;
  if (must : bool) then
    flashM Flash_freeFlashFSM;;
    I2CRebootSlow;;
    mret Restarted
  else
    p ← flashM Flash_getProgress;
    emit (FlashResult (progressError p));;
    mret (Done (is_critical (progressError p))).

(** The end of a write job: the result is shown and the machine freed. *)
Definition finish_bios : ST ui (run bool) :=
  r ← FlashPrintResult;
  match r with
  | Done _ => flashM Flash_freeFlashFSM;; mret (Done true)
  | Restarted => mret Restarted
  | Running => mret Running
  end.

Definition settings_failed : ST ui (run bool) :=
  r ← FlashPrintResult;
  match r with
  | Done critical =>
      ok ← (if (critical : bool) then mret false
            else refused ← ConfirmDialog; mret (negb refused));
      flashM Flash_freeFlashFSM;;
      mret (Done ok)
  | Restarted => mret Restarted
  | Running => mret Running
  end.

Definition executeFlashDriverUI : ST ui (run bool) :=
  p ← flashM Flash_getProgress;
  match progressTask p, progressOp p with
  | FlashTask_WriteBios, FlashOp_Completed | FlashTask_WriteBios, FlashOp_Error => finish_bios
  | FlashTask_WriteSettings, FlashOp_Completed => flashM Flash_freeFlashFSM;; mret (Done true)
  | FlashTask_WriteSettings, FlashOp_Error => settings_failed
  | _, _ => mret (Done true)
  end.

(** [while(cromwellLoop())] until the machine is idle; [result] is the result of
    the last round. *)
Fixpoint ui_loop (fuel : nat) (result : bool) : ST ui (run bool) :=
  match fuel with
  | O => mret Running
  | S fuel' =>
      p ← flashM Flash_getProgress;
      if decide (progressOp p = FlashOp_Idle) then mret (Done result)
      else
        r ← executeFlashDriverUI;
        match r with
        | Done ok => flashM Flash_executeFlashFSM;; ui_loop fuel' ok
        | Restarted => mret Restarted
        | Running => mret Running
        end
  end.

(** ** Settings *)

Definition SaveXBlastOSSettings (fuel : nat) : ST ui (run bool) :=
  w ← gets flash;
  if bool_decide (LPCmodSettings w = LPCmodSettingsOrigFromFlash w) then mret (Done true)
  else if isXBlastOnTSOP (system w) then mret (Done true)
  else if negb (isXBlastCompatible (system w)) && isXBE then mret (Done true)
  else
    on_system (switchOSBank FlashBank_OSBank);;
    flashM Flash_SaveXBlastOSSettings;;
    ui_loop fuel false.

(** ** Images *)

Definition ask (askConfirm : bool) : ST ui bool :=
  if askConfirm then refused ← ConfirmDialog; mret (negb refused) else mret true.

(** An update of the operating system; a downgrade asks a second time. *)
Definition update_os (stack : Md5.MD5_CTX) (data : list Z) (size : Z) : ST ui unit :=
  p ← flashM (Flash_XBlastOSBankFlash stack data size 0 false);
  p ← (if decide (progressError p = FlashErrorcodes_DowngradeWarning) then
         refused ← ConfirmDialog;
         if (refused : bool) then flashM Flash_forceUserAbort;; mret p
         else flashM Flash_freeFlashFSM;; flashM (Flash_XBlastOSBankFlash stack data size 0 true)
       else mret p);
  if decide (progressOp p = FlashOp_PendingOp) then set_mustRestart else mret tt.

Definition setBiosJob (stack : Md5.MD5_CTX) (data : list Z) (size : Z) (askConfirm : bool) : ST ui unit :=
  s ← gets (λ u, system (flash u));
  ok ← ask askConfirm;
  if negb ok then flashM Flash_forceUserAbort
  else if isXBlastOnLPC s then
    if currentFlashBank s =? FlashBank_OSBank then update_os stack data size
    else flashM (Flash_XBlastUserBankFlash data size 0 (currentFlashBank s));; mret tt
  else set_mustRestart;; flashM (Flash_SimpleBIOSBankFlash data size 0);; mret tt.

Definition blockExecuteFlashJob (fuel : nat) : ST ui (run unit) :=
  r ← ui_loop fuel false;
  match r with
  | Done _ => on_system (switchOSBank FlashBank_OSBank);; mret (Done tt)
  | Restarted => mret Restarted
  | Running => mret Running
  end.

Definition FlashFileFromBuffer (fuel : nat) (stack : Md5.MD5_CTX) (data : list Z) (size : Z)
    (askConfirm : bool) : ST ui (run unit) :=
  p ← flashM Flash_getProgress;
  (if decide (progressOp p = FlashOp_Idle) then setBiosJob stack data size askConfirm else mret tt);;
  blockExecuteFlashJob fuel.

(** ** Boot requests *)

(** The EEPROM image in memory and the one read at boot; [smc1b] is what the
    system controller returns for register 0x1b. *)
Context (eeprom origEeprom : list Z) (smc1b : Z).

Definition I2CTransmitWord (address word : Z) : ST ui unit :=
  emit (Smbus (Eeprom.mkWrite address (Z.shiftr (u16 word) 8) 1 (Z.land (u16 word) 0xff))).

(** The bit that suppresses the boot animation. *)
Definition clear_noani : ST ui unit := I2CTransmitWord 0x10 (0x1b00 + Z.land smc1b 0xfb).
Definition set_noani : ST ui unit := I2CTransmitWord 0x10 (0x1b00 + Z.lor smc1b 0x04).

Fixpoint emits (es : list event) : ST ui unit :=
  match es with [] => mret tt | e :: es => emit e;; emits es end.

Definition write_eeprom : ST ui unit := emits (Smbus <$> Eeprom.assertWriteEEPROM eeprom origEeprom).

(** What follows a successful save. *)
Definition when_saved (fuel : nat) (boot : ST ui (run unit)) : ST ui (run unit) :=
  r ← SaveXBlastOSSettings fuel;
  match r with
  | Done true => boot
  | Done false => mret (Done tt)
  | Restarted => mret Restarted
  | Running => mret Running
  end.

Definition BootOriginalBios (fuel : nat) (bank : FlashBank) : ST ui (run unit) :=
  when_saved fuel (
    write_eeprom;;
    emit StopUSB;;
    s ← gets (λ u, system (flash u));
    (if isXBlastCompatible s then
       (if bool_decide (getMotherboardRevision s = XboxMotherboardRevision_1_6) ||
           bool_decide (getMotherboardRevision s = XboxMotherboardRevision_UNKNOWN)
        then on_system (switchBootBank KILL_MOD)
        else on_system (switchBootBank bank));;
       clear_noani
     else set_noani);;
    emit FlushLog;;
    I2CRebootQuick).

Definition BootModBios (fuel : nat) (bank : FlashBank) : ST ui (run unit) :=
  when_saved fuel (
    write_eeprom;;
    on_system (switchBootBank bank);;
    emit StopUSB;;
    s ← gets (λ u, system (flash u));
    (if negb isXBE || isXBlastOnTSOP s then clear_noani else set_noani);;
    emit FlushLog;;
    I2CRebootQuick).

End ui.
Arguments ui : clear implicits.

(** ** What a step of the flash machine keeps *)

Section steps.
Context {L : Type} `{FlashLowLevel L}.
Abbreviation W := (world L).

(** The task and the rest of the system. *)
Definition kept {A} (m : ST W A) : Prop := ∀ w a w', m w = Ok (a, w') →
  currentFlashTask (drv w') = currentFlashTask (drv w) ∧ system w' = system w.

Lemma kept_ret {A} (a : A) : kept (mret a).
Proof. by intros w b w' [= <- <-]. Qed.
Lemma kept_gets {A} (f : W → A) : kept (gets f).
Proof. by intros w b w' [= <- <-]. Qed.
Lemma kept_liftO {A} (o : outcome A) : kept (liftO o : ST W A).
Proof. intros w b w' E. unfold liftO in E. destruct o; [|done]. by injection E as <- <-. Qed.
Lemma kept_assert b : kept (assert_ub b : ST W unit).
Proof. intros w a w' E. unfold assert_ub in E. destruct b; [|done]. by injection E as <- <-. Qed.
Lemma kept_settings f : kept (modify (λ w : W, set_settings (f w) w)).
Proof. by intros w b w' [= <- <-]. Qed.
Lemma kept_low {A} (m : ST L A) : kept (lowM m).
Proof.
  intros w b w' E. unfold lowM, zoom in E. destruct (m (low w)) as [[a l]|]; [|done]. by injection E as <- <-.
Qed.
Lemma kept_drv f : (∀ d, currentFlashTask (f d) = currentFlashTask d) → kept (on_drv (L := L) f).
Proof. intros Hf w b w' [= <- <-]. split; [apply Hf|done]. Qed.
Lemma kept_bind {A B} (m : ST W A) (f : A → ST W B) : kept m → (∀ a, kept (f a)) → kept (m ≫= f).
Proof.
  intros Hm Hf w b w' E. rewrite bind_cases in E. destruct (m w) as [[a w1]|] eqn:E1; [|done].
  destruct (Hm w a w1 E1) as [E2 E3], (Hf a w1 b w' E) as [E4 E5]. by rewrite E4, E5.
Qed.

Create HintDb kept.
#[local] Hint Resolve kept_ret kept_gets kept_liftO kept_assert kept_settings kept_low : kept.

Local Ltac kept :=
  repeat match goal with
  | |- kept (mbind _ _) => apply kept_bind; [|intros ?]
  | |- kept (on_drv _) => apply kept_drv; reflexivity
  | |- kept (if ?b then _ else _) => destruct b
  | |- kept (match ?x with _ => _ end) => destruct x
  | |- kept _ => solve [auto with kept]
  end.

Lemma kept_read n a : kept (read_flash (L := L) n a).
Proof. revert a. induction n as [|n IH]; intros a; cbn [read_flash]; kept. Qed.

Lemma kept_step : kept (Flash_executeFlashFSM (L := L)).
Proof.
  pose proof kept_read. unfold Flash_executeFlashFSM, pending_step, erase_step, write_step, verify_step, read_step, polled,
    erase_ready, erase_advance, erase_retry, next_method, evaluateReadBackRange, initiate_erase, write_ready,
    verify_ready, read_ready, read_finish, getBiosIdentifierFromFlash, injectSettingsInBuf, buffer_at, buffer_set,
    buffer_copy, cursor, methodSize, deviceType, get. kept; auto.
Qed.

(** An operation that has ended stays as it is. *)
Definition ended (w : W) : Prop :=
  currentFlashOp (drv w) = FlashOp_Idle ∨ currentFlashOp (drv w) = FlashOp_Completed ∨
  currentFlashOp (drv w) = FlashOp_Error.

Lemma step_ended w : ended w → Flash_executeFlashFSM w = Ok (tt, w).
Proof.
  intros Hw. unfold Flash_executeFlashFSM. rewrite bind_cases. cbn.
  by destruct Hw as [->|[->| ->]].
Qed.

Lemma repeat_ended n w : ended w → repeatM n Flash_executeFlashFSM w = Ok (tt, w).
Proof. intros Hw. induction n as [|n IH]; [done|]. cbn [repeatM]. by rewrite bind_cases, step_ended. Qed.

Definition freed (w : W) : W :=
  set_system (switchOSBank FlashBank_OSBank (system w))
    (set_drv (set_task FlashTask_NoTask (set_addr 0 (set_error FlashErrorcodes_NoError
       (set_op FlashOp_Idle (set_size 0 (drv w)))))) w).

Lemma free_run w : Flash_freeFlashFSM w = Ok (tt, freed w).
Proof. reflexivity. Qed.

Lemma flashM_run {A} (m : ST W A) (u : ui L) a w' :
  m (flash u) = Ok (a, w') → flashM m u = Ok (a, set_flash w' u).
Proof. intros E. unfold flashM, zoom. by rewrite E. Qed.

Context (confirm : nat → bool).

(** While the operation runs, a round of the loop is one step of the machine. *)
Lemma round_running u w1 fuel b :
  ¬ ended (flash u) → Flash_executeFlashFSM (flash u) = Ok (tt, w1) →
  ui_loop confirm (S fuel) b u = ui_loop confirm fuel true (set_flash w1 u).
Proof.
  intros Hrun Hstep. cbn [ui_loop]. rewrite (bind_run _ _ _ _ u) by (by destruct u). cbn [progressOp].
  destruct (decide _) as [E|_]; [destruct Hrun; by left|].
  rewrite (bind_run _ _ _ (Done true) u).
  - rewrite (bind_run _ _ _ tt (set_flash w1 u)); [done|]. by apply flashM_run.
  - unfold executeFlashDriverUI. rewrite (bind_run _ _ _ _ u) by (by destruct u).
    cbn [progressOp progressTask]. unfold ended in Hrun.
    destruct (currentFlashTask (drv (flash u))), (currentFlashOp (drv (flash u))); try done;
      destruct Hrun; auto.
Qed.

(** The end of a save. *)
Lemma round_completed u fuel b :
  currentFlashTask (drv (flash u)) = FlashTask_WriteSettings →
  currentFlashOp (drv (flash u)) = FlashOp_Completed →
  ui_loop confirm (S (S fuel)) b u = Ok (Done true, set_flash (freed (flash u)) u).
Proof.
  intros Ht Ho. cbn [ui_loop]. rewrite (bind_run _ _ _ _ u) by (by destruct u). cbn [progressOp].
  destruct (decide _) as [E|_]; [congruence|].
  rewrite (bind_run _ _ _ (Done true) (set_flash (freed (flash u)) u)).
  - rewrite (bind_run _ _ _ tt (set_flash (freed (flash u)) u)); [|reflexivity].
    reflexivity.
  - unfold executeFlashDriverUI. rewrite (bind_run _ _ _ _ u) by (by destruct u).
    cbn [progressOp progressTask]. by rewrite Ht, Ho.
Qed.

(** A save that the machine completes ends the loop with success, and the
    machine is freed. *)
Lemma ui_loop_saved n : ∀ u w' b,
  currentFlashTask (drv (flash u)) = FlashTask_WriteSettings →
  repeatM n Flash_executeFlashFSM (flash u) = Ok (tt, w') →
  currentFlashOp (drv w') = FlashOp_Completed →
  ui_loop confirm (S (S n)) b u = Ok (Done true, set_flash (freed w') u).
Proof.
  induction n as [n IH] using lt_wf_ind. intros u w' b Htask Hrep Hdone.
  destruct (decide (currentFlashOp (drv (flash u)) = FlashOp_Completed)) as [Ec|Hnc].
  - rewrite repeat_ended in Hrep by (right; by left). injection Hrep as <-. by apply round_completed.
  - assert (¬ ended (flash u)) as Hrun.
    { intros He. rewrite repeat_ended in Hrep by done. injection Hrep as <-. done. }
    destruct n as [|n]; [injection Hrep as <-; done|]. cbn [repeatM] in Hrep. rewrite bind_cases in Hrep.
    destruct (Flash_executeFlashFSM (flash u)) as [[[] w1]|] eqn:E; [|done].
    rewrite (round_running u w1) by done. rewrite (IH n) with (w' := w'); [by destruct u|lia| |done|done].
    cbn. by rewrite (proj1 (kept_step _ _ _ E)).
Qed.

(** An error without a task, as a refused request leaves it, is never cleared. *)
Lemma ui_loop_stuck fuel b u :
  currentFlashOp (drv (flash u)) = FlashOp_Error → currentFlashTask (drv (flash u)) = FlashTask_NoTask →
  ui_loop confirm fuel b u = Ok (Running, u).
Proof.
  intros Ho Ht. revert b. induction fuel as [|fuel IH]; intros b; [done|]. cbn [ui_loop].
  rewrite (bind_run _ _ _ _ u) by (by destruct u). cbn [progressOp]. destruct (decide _) as [E|_]; [congruence|].
  rewrite (bind_run _ _ _ (Done true) u).
  - rewrite (bind_run _ _ _ tt u); [apply IH|]. unfold flashM, zoom. rewrite step_ended; [by destruct u|].
    by right; right.
  - unfold executeFlashDriverUI. rewrite (bind_run _ _ _ _ u) by (by destruct u).
    cbn [progressOp progressTask]. by rewrite Ht.
Qed.

Lemma repeat_kept n (w w' : W) :
  repeatM n Flash_executeFlashFSM w = Ok (tt, w') →
  currentFlashTask (drv w') = currentFlashTask (drv w) ∧ system w' = system w.
Proof.
  revert w. induction n as [|n IH]; intros w; cbn [repeatM]; [by intros [= <-]|]. rewrite bind_cases.
  destruct (Flash_executeFlashFSM w) as [[[] w1]|] eqn:E; [|done]. intros Hr.
  destruct (kept_step _ _ _ E) as [E1 E2], (IH _ Hr) as [E3 E4]. by rewrite E3, E4.
Qed.

Lemma emits_run es (u : ui L) :
  emits es u = Ok (tt, mkUi (flash u) (mustRestart u) (dialogs u) (events u ++ es)).
Proof.
  revert u. induction es as [|e es IH]; intros u; cbn [emits].
  - rewrite app_nil_r. by destruct u.
  - unfold emit. rewrite bind_cases. cbn. rewrite IH. cbn. by rewrite <- app_assoc.
Qed.

End steps.

Section boot.
Context {L : Type} `{FlashContract L}.
Context (confirm : nat → bool) (isXBE : bool) (eeprom origEeprom : list Z) (smc1b : Z).

(** The save of changed settings on an XBlast that runs from its own flash. *)
Lemma SaveXBlastOSSettings_run (u : ui L) :
  ImageSize256KB <= m_dwLengthInBytes attached <= ImageSize1024KB →
  let w := flash u in
  fresh w → chip_idle (low w) → works EraseSequenceMethod_Sector = true →
  length (LPCmodSettings w) = 3840%nat → Forall byte (LPCmodSettings w) →
  getXBlastOSSettingStartingOffset (flash_id (content (low w))) = settings_base →
  LPCmodSettings w ≠ LPCmodSettingsOrigFromFlash w → isXBlastOnLPC (system w) = true →
  ∃ fuel w2, SaveXBlastOSSettings confirm isXBE fuel u = Ok (Done true, set_flash (freed w2) u) ∧
    saved (content (low w)) (LPCmodSettings w) w2 ∧ system w2 = switchOSBank FlashBank_OSBank (system w).
Proof.
  intros Hlen w Hf Hidle Hworks Hl Hb Hoff Hne Hlpc.
  set (w0 := set_system (switchOSBank FlashBank_OSBank (system w)) w).
  assert (wp Flash_SaveXBlastOSSettings
            (λ _ w1, currentFlashTask (drv w1) = FlashTask_WriteSettings ∧ system w1 = system w0 ∧
               reaches w1 (saved (content (low w)) (LPCmodSettings w))) w0) as Hsave.
  { eapply (save_setup Hlen (content (low w))); [done|done|done|done|].
    intros l w1 Hr Hi1. pose proof Hr as (Hd & _ & _ & _ & Hfr). injection Hfr as Hs _ _.
    split; [by rewrite Hd|]. split; [done|].
    eapply save_readback; [done|done|done|done|apply Hf| |done|exact Hr|done].
    intros x. by apply content_byte, idle_inv. }
  apply wp_run in Hsave as (p & w1 & Hrun & Htask & Hsys & n & Hn).
  apply wp_run in Hn as ([] & w2 & Hrep & Hsaved).
  exists (S (S n)), w2. split; [|split; [done|]].
  - unfold SaveXBlastOSSettings. rewrite (bind_run _ _ _ w u) by done. rewrite bool_decide_false by done.
    assert (isXBlastOnTSOP (system w) = false ∧ isXBlastCompatible (system w) = true) as [-> ->].
    { unfold isXBlastCompatible. rewrite Hlpc. split; [|done]. revert Hlpc.
      unfold isXBlastOnLPC, isXBlastOnTSOP, SYSCON_ID_V1, SYSCON_ID_XT, SYSCON_ID_V1_TSOP, SYSCON_ID_XT_TSOP.
      cells. }
    cbn [negb andb]. rewrite (bind_run _ _ _ tt (set_flash w0 u)) by done.
    rewrite (bind_run _ _ _ p (set_flash w1 u)); [|exact (flashM_run _ (set_flash w0 u) p w1 Hrun)].
    rewrite (ui_loop_saved confirm n (set_flash w1 u) w2); [done|done|done|apply Hsaved].
  - by rewrite (proj2 (repeat_kept _ _ _ Hrep)), Hsys.
Qed.

Definition log (u : ui L) (es : list event) : ui L :=
  mkUi (flash u) (mustRestart u) (dialogs u) (events u ++ es).

Lemma noani_run c (u : ui L) :
  ∃ e, (if c : bool then clear_noani smc1b else set_noani smc1b) u = Ok (tt, log u [e]).
Proof. destruct c; by eexists. Qed.

(** The last commands of a boot request. *)
Lemma restart_run (u : ui L) :
  currentFlashOp (drv (flash u)) = FlashOp_Idle →
  (emit FlushLog;; I2CRebootQuick) u =
    Ok (Restarted, log u [FlushLog; Smbus (Eeprom.mkWrite 0x10 0x02 1 0x01)]).
Proof.
  intros Hidle. rewrite (bind_run _ _ _ tt (log u [FlushLog])) by done. unfold I2CRebootQuick, I2CReboot.
  rewrite (bind_run _ _ _ true (log u [FlushLog])).
  - rewrite (bind_run _ _ _ tt (log u [FlushLog; Smbus (Eeprom.mkWrite 0x10 0x02 1 0x01)])); [done|].
    unfold emit, modify, log. cbn. by rewrite <- app_assoc.
  - unfold canPowerDown. rewrite (bind_run _ _ _ _ (log u [FlushLog])) by (by destruct u). cbn.
    by rewrite Hidle.
Qed.

(** What the boot of a bank does after the save. *)
Lemma BootModBios_after fuel bank (u u1 : ui L) :
  SaveXBlastOSSettings confirm isXBE fuel u = Ok (Done true, u1) →
  currentFlashOp (drv (flash u1)) = FlashOp_Idle →
  ∃ noani u2, BootModBios confirm isXBE eeprom origEeprom smc1b fuel bank u = Ok (Restarted, u2) ∧
    flash u2 = set_system (switchBootBank bank (system (flash u1))) (flash u1) ∧
    events u2 = events u1 ++ (Smbus <$> Eeprom.assertWriteEEPROM eeprom origEeprom) ++
                [StopUSB; noani; FlushLog; Smbus (Eeprom.mkWrite 0x10 0x02 1 0x01)].
Proof.
  intros Hs Hidle. unfold BootModBios, when_saved, write_eeprom.
  rewrite (bind_run _ _ _ _ _ Hs), (bind_run _ _ _ _ _ (emits_run _ _)).
  set (evs := Smbus <$> _).
  set (u2 := mkUi (set_system (switchBootBank bank (system (flash u1))) (flash u1)) (mustRestart u1)
               (dialogs u1) (events u1 ++ evs)).
  rewrite (bind_run _ _ _ tt u2) by done. rewrite (bind_run _ _ _ tt (log u2 [StopUSB])) by done.
  rewrite (bind_run _ _ _ (system (flash u2)) (log u2 [StopUSB])) by done.
  destruct (noani_run (negb isXBE || isXBlastOnTSOP (system (flash u2))) (log u2 [StopUSB])) as [e He].
  rewrite (bind_run _ _ _ _ _ He), restart_run by done. eexists e, _. split; [done|]. split; [done|].
  unfold log, u2. cbn [events]. by rewrite <- !app_assoc.
Qed.

End boot.

Lemma switchOSBank_keeps bank s :
  isXBlastOnLPC (switchOSBank bank s) = isXBlastOnLPC s ∧
  A19controlModBoot (switchOSBank bank s) = A19controlModBoot s.
Proof. unfold switchOSBank. destruct (isXBlastOnLPC s) eqn:E; [|done]. split; [exact E|done]. Qed.

Lemma switchBootBank_out bank s :
  isXBlastOnLPC s = true →
  head (io_out (switchBootBank bank s)) =
    Some (XBLAST_CONTROL, u8 (if BOOTFROMTSOP <? bank then u8 bank .| A19controlModBoot s else u8 bank)).
Proof. intros Hs. unfold switchBootBank, isXBlastCompatible. by rewrite Hs. Qed.

(** ** Properties *)

(** C9: booting a bank of an XBlast that runs from its own flash, with settings
    that have changed, a fresh driver and an idle, recognised chip of 256KB to 1MB
    whose sector erase works and whose image identifier puts the settings at 192KB.
    The request ends in a restart; the flash then holds the settings and is
    otherwise unchanged, the EEPROM has been written back, the last port write
    selects the bank, and the restart is the last command.  (With a chip that is
    not recognised the request never ends: [SaveXBlastOSSettings_hangs].) *)
Theorem BootModBios_saves_then_restarts {L} `{FlashContract L} confirm isXBE e orig smc1b bank (u : ui L) :
  ImageSize256KB <= m_dwLengthInBytes attached <= ImageSize1024KB →
  let w := flash u in
  fresh w → chip_idle (low w) → works EraseSequenceMethod_Sector = true →
  length (LPCmodSettings w) = 3840%nat → Forall byte (LPCmodSettings w) →
  getXBlastOSSettingStartingOffset (flash_id (content (low w))) = settings_base →
  LPCmodSettings w ≠ LPCmodSettingsOrigFromFlash w → isXBlastOnLPC (system w) = true →
  ∃ fuel noani u', BootModBios confirm isXBE e orig smc1b fuel bank u = Ok (Restarted, u') ∧
    (∀ x, content (low (flash u')) x =
       if (settings_base <=? x) && (x <? settings_base + 3840)
       then mem_of_list (stamped (LPCmodSettings w)) (x - settings_base) else content (low w) x) ∧
    events u' = events u ++ (Smbus <$> Eeprom.assertWriteEEPROM e orig) ++
                [StopUSB; noani; FlushLog; Smbus (Eeprom.mkWrite 0x10 0x02 1 0x01)] ∧
    head (io_out (system (flash u'))) =
      Some (XBLAST_CONTROL, u8 (if BOOTFROMTSOP <? bank then u8 bank .| A19controlModBoot (system w) else u8 bank)).
Proof.
  intros Hlen w Hf Hidle Hworks Hl Hb Hoff Hne Hlpc.
  destruct (SaveXBlastOSSettings_run confirm isXBE u Hlen Hf Hidle Hworks Hl Hb Hoff Hne Hlpc)
    as (fuel & w2 & Hrun & Hsaved & Hsys).
  destruct (BootModBios_after confirm isXBE e orig smc1b fuel bank u _ Hrun eq_refl)
    as (noani & u' & Hboot & Hflash & Hev).
  exists fuel, noani, u'. split; [done|]. split; [rewrite Hflash; apply Hsaved|]. split; [done|].
  rewrite Hflash. cbn [flash set_flash freed system set_system]. rewrite Hsys.
  rewrite switchBootBank_out by (by rewrite !(proj1 (switchOSBank_keeps _ _))).
  by rewrite !(proj2 (switchOSBank_keeps _ _)).
Qed.

(** A machine with no events yet, the sample flash and settings to save. *)
Definition sample_ui : ui (LowLevel.ll Chip.chip) := mkUi FlashProperties.sample_world false 0 [].

Lemma BootModBios_saves_then_restarts_witness :
  ∃ fuel noani u',
    BootModBios (λ _, false) false [1; 2] [1; 3] 0 fuel FlashBank_512Bank sample_ui = Ok (Restarted, u') ∧
    (∀ x, content (low (flash u')) x =
       if (settings_base <=? x) && (x <? settings_base + 3840)
       then mem_of_list (stamped (LPCmodSettings (flash sample_ui))) (x - settings_base)
       else content (low (flash sample_ui)) x) ∧
    events u' = events sample_ui ++ (Smbus <$> Eeprom.assertWriteEEPROM [1; 2] [1; 3]) ++
                [StopUSB; noani; FlushLog; Smbus (Eeprom.mkWrite 0x10 0x02 1 0x01)] ∧
    head (io_out (system (flash u'))) = Some (XBLAST_CONTROL, 0x84).
Proof.
  apply (BootModBios_saves_then_restarts (λ _, false) false [1; 2] [1; 3] 0 FlashBank_512Bank sample_ui).
  - split; vm_compute; discriminate.
  - apply FlashProperties.sample_fresh.
  - apply Chip.ll_with_idle.
  - reflexivity.
  - reflexivity.
  - apply FlashProperties.sample_settings_byte.
  - apply FlashProperties.sample_offset.
  - discriminate.
  - reflexivity.
Defined.

(** When the flash device is not recognised, saving changed settings never
    returns: the request leaves an error without a task, which the loop neither
    shows nor clears.  Booting a bank then hangs before the EEPROM is written. *)
Theorem SaveXBlastOSSettings_hangs {L} `{FlashLowLevel L} confirm isXBE e orig smc1b bank (u : ui L) l :
  currentFlashOp (drv (flash u)) = FlashOp_Idle → currentFlashTask (drv (flash u)) = FlashTask_NoTask →
  FlashLowLevel_ReadDevice (low (flash u)) = Ok (false, l) →
  LPCmodSettings (flash u) ≠ LPCmodSettingsOrigFromFlash (flash u) →
  isXBlastOnTSOP (system (flash u)) = false →
  isXBlastCompatible (system (flash u)) = true ∨ isXBE = false →
  ∃ u', ∀ fuel,
    SaveXBlastOSSettings confirm isXBE fuel u = Ok (Running, u') ∧
    BootModBios confirm isXBE e orig smc1b fuel bank u = Ok (Running, u') ∧ events u' = events u.
Proof.
  intros Hop Htask Hrd Hne Htsop Hxbe.
  destruct u as [[d lw sy ls lo] must dl ev]. cbn in *.
  set (sy' := switchOSBank FlashBank_OSBank sy).
  set (err := if isXecuter3 sy' then FlashErrorcodes_WriteProtect else FlashErrorcodes_UnknownFlash).
  set (u' := mkUi (mkWorld (set_error err (set_op FlashOp_Error d)) l sy' ls lo) must dl ev).
  assert (∀ fuel, SaveXBlastOSSettings confirm isXBE fuel (mkUi (mkWorld d lw sy ls lo) must dl ev) = Ok (Running, u'))
    as Hsave.
  { intros fuel. unfold SaveXBlastOSSettings. rewrite (bind_run _ _ _ (mkWorld d lw sy ls lo) (mkUi (mkWorld d lw sy ls lo) must dl ev)) by done.
    cbn [LPCmodSettings LPCmodSettingsOrigFromFlash system].
    rewrite bool_decide_false, Htsop by done.
    assert (negb (isXBlastCompatible sy) && isXBE = false) as -> by (destruct Hxbe as [-> | ->]; [done|apply andb_false_r]).
    rewrite (bind_run _ _ _ tt (mkUi (mkWorld d lw sy' ls lo) must dl ev)) by done.
    rewrite (bind_run _ _ _ (mkProgress FlashOp_Error FlashTask_NoTask err) u'); [by apply ui_loop_stuck|].
    unfold flashM, zoom. cbn [flash]. unfold Flash_SaveXBlastOSSettings.
    rewrite bind_cases. cbn [gets drv currentFlashOp]. rewrite Hop. destruct (decide _) as [_|]; [|done].
    repeat (rewrite bind_cases; unfold lowM, zoom; cbn -[FlashLowLevel_ReadDevice isXecuter3]; rewrite ?Hrd).
    by rewrite Htask. }
  exists u'. intros fuel. split; [done|]. split; [|done].
  unfold BootModBios, when_saved. by rewrite (bind_run _ _ _ _ _ (Hsave fuel)).
Qed.

(** A chip that answers with an unknown identity. *)
Definition unknown_ui : ui (ll chip) :=
  mkUi (mkWorld FlashProperties.sample_driver
          (mkLL false true 0 (mkObject 0 SST49LF080A String.EmptyString true) (mkChip (λ _, 0) Array 0 false))
          FlashProperties.sample_system [1] [2]) false 0 [].

Lemma SaveXBlastOSSettings_hangs_witness :
  ∃ u', ∀ fuel,
    SaveXBlastOSSettings (λ _, false) false fuel unknown_ui = Ok (Running, u') ∧
    BootModBios (λ _, false) false [] [] 0 fuel FlashBank_512Bank unknown_ui = Ok (Running, u') ∧
    events u' = events unknown_ui.
Proof.
  eapply (SaveXBlastOSSettings_hangs (λ _, false) false [] [] 0 FlashBank_512Bank unknown_ui).
  - reflexivity.
  - reflexivity.
  - vm_compute. reflexivity.
  - discriminate.
  - reflexivity.
  - by left.
Defined.

(** An image of a refused size, flashed to a user bank, is dropped without
    a message: the request ends at once, nothing is shown or written, and the
    error code stays behind. *)
Theorem FlashFileFromBuffer_drops_silently {L} `{FlashLowLevel L} confirm stack data size (u : ui L) l :
  currentFlashOp (drv (flash u)) = FlashOp_Idle →
  FlashLowLevel_ReadDevice (low (flash u)) = Ok (true, l) →
  isXBlastOnLPC (system (flash u)) = true → currentFlashBank (system (flash u)) ≠ FlashBank_OSBank →
  checkImageSize (m_dwLengthInBytes (flashType l)) size ≠ FlashErrorcodes_NoError →
  ∃ u', (∀ fuel, FlashFileFromBuffer confirm (S fuel) stack data size false u = Ok (Done tt, u')) ∧
    events u' = events u ∧ low (flash u') = l ∧ currentFlashOp (drv (flash u')) = FlashOp_Idle ∧
    flashErrorCode (drv (flash u')) = FlashErrorcodes_FileSizeError.
Proof.
  intros Hop Hrd Hlpc Hbank Hsize.
  destruct u as [[d lw sy ls lo] must dl ev]. cbn in *.
  assert (checkImageSize (m_dwLengthInBytes (flashType l)) size = FlashErrorcodes_FileSizeError) as He.
  { unfold checkImageSize in *. by destruct (_ && _); [destruct (_ =? 0)|]. }
  set (w' := mkWorld (set_error FlashErrorcodes_FileSizeError (set_error FlashErrorcodes_FileSizeError d)) l sy ls lo).
  assert (Flash_XBlastUserBankFlash data size 0 (currentFlashBank sy) (mkWorld d lw sy ls lo) =
            Ok (mkProgress FlashOp_Idle (currentFlashTask d) FlashErrorcodes_FileSizeError, w')) as Hreq.
  { unfold Flash_XBlastUserBankFlash, Flash_WriteBios. rewrite bind_cases, bind_cases.
    cbn [gets drv currentFlashOp]. rewrite Hop. destruct (decide _) as [_|]; [|done].
    repeat (rewrite bind_cases; unfold lowM, zoom, deviceType, gets;
            cbn -[FlashLowLevel_ReadDevice checkImageSize flashType write_setup]; rewrite ?Hrd, ?He).
    destruct (decide (FlashErrorcodes_FileSizeError = FlashErrorcodes_NoError)); [done|].
    cbn. by rewrite bind_cases, <- Hop. }
  exists (mkUi (set_system (switchOSBank FlashBank_OSBank sy) w') must dl ev).
  split; [|by split_and!]. intros fuel. unfold FlashFileFromBuffer.
  rewrite (bind_run _ _ _ _ (mkUi (mkWorld d lw sy ls lo) must dl ev)) by done.
  cbn [progressOp drv currentFlashOp flash]. rewrite Hop. destruct (decide _) as [_|]; [|done].
  rewrite (bind_run _ _ _ tt (mkUi w' must dl ev)).
  - unfold blockExecuteFlashJob. rewrite (bind_run _ _ _ (Done false) (mkUi w' must dl ev)); [done|].
    cbn [ui_loop]. rewrite (bind_run _ _ _ _ (mkUi w' must dl ev)) by done. cbn. rewrite Hop.
    by destruct (decide _).
  - unfold setBiosJob. rewrite (bind_run _ _ _ sy (mkUi (mkWorld d lw sy ls lo) must dl ev)) by done.
    rewrite (bind_run _ _ _ true (mkUi (mkWorld d lw sy ls lo) must dl ev)) by done. cbn [negb].
    rewrite Hlpc. destruct (Z.eqb_spec (currentFlashBank sy) FlashBank_OSBank); [done|].
    by rewrite (bind_run _ _ _ _ _ (flashM_run _ (mkUi (mkWorld d lw sy ls lo) must dl ev) _ _ Hreq)).
Qed.

(** The sample flash with a user bank selected. *)
Definition user_bank_ui : ui (ll chip) :=
  mkUi (mkWorld FlashProperties.sample_driver (ll_with (λ _, 0))
          (set_bank FlashBank_512Bank 0x84 FlashProperties.sample_system) [] []) false 0 [].

Lemma FlashFileFromBuffer_drops_silently_witness :
  ∃ l u', (∀ fuel, FlashFileFromBuffer (λ _, false) (S fuel) (Md5.mkMD5 (0, 0, 0, 0) 0 0 []) [1; 2; 3] 3 false
                     user_bank_ui = Ok (Done tt, u')) ∧
    events u' = events user_bank_ui ∧ low (flash u') = l ∧
    currentFlashOp (drv (flash u')) = FlashOp_Idle ∧
    flashErrorCode (drv (flash u')) = FlashErrorcodes_FileSizeError.
Proof.
  eexists. eapply (FlashFileFromBuffer_drops_silently (λ _, false) _ [1; 2; 3] 3 user_bank_ui).
  - reflexivity.
  - vm_compute. reflexivity.
  - reflexivity.
  - discriminate.
  - vm_compute. discriminate.
Defined.

End FlashUi.
