(* ===== verification/ScriptDevices.v ===== *)
(** * The device functions of scripts ([src/xblast/scriptEngine/functionsAccessor.c])

    The functions a script calls, over the general-purpose lines, the display,
    the fan and the boot requests.  [ports n] is what the [n]th [in] instruction
    reads; the display, the fan and the game pad appear as what is sent to them
    or read from them. *)

From S2P Require Import Prelude Hardware FlashTypes FlashLowLevel FlashDriver Identify FlashUi.

Module ScriptDevices.
Import Hardware FlashTypes FlashDriver.

(** ** Lines *)

(** The value and the system after the lines have been read. *)
Definition gpiFunction (ports : Z → Z) (port : Z) (s : sys) : Z * sys :=
  let s := LPCMod_ReadIO ports s in
  (if negb (port =? 0) then GPI1 (gpio s) else GPI0 (gpio s), s).

Definition gpoFunction (ports : Z → Z) (port value : Z) (s : sys) : sys := LPCMod_WriteIO ports port value s.

(** One clock cycle of [SPIRead]: the [i]th bit of the eight. *)
Definition spi_bit (ports : nat → Z → Z) (i : nat) (result : Z) (s : sys) : Z * sys :=
  let result := u8 (Z.shiftl result 1) in
  let s := LPCMod_FastWriteIO 0x2 0 s in
  let s := LPCMod_FastWriteIO 0x2 0x2 s in
  let s := LPCMod_ReadIO (ports i) s in
  (u8 (result .| Z.shiftl (GPI1 (gpio s)) (Z.of_nat i)), s).

Fixpoint spi_read (ports : nat → Z → Z) (n i : nat) (result : Z) (s : sys) : Z * sys :=
  match n with
  | O => (result, s)
  | S n' => let '(result, s) := spi_bit ports i result s in spi_read ports n' (S i) result s
  end.

Definition SPIRead (ports : nat → Z → Z) (s : sys) : Z * sys := spi_read ports 8 0 0 s.

(** [for(i = 7; i >= 0; i--)]. *)
Fixpoint spi_write (n : nat) (data : Z) (s : sys) : sys :=
  match n with
  | O => s
  | S i =>
      let s := LPCMod_FastWriteIO 0x3 (Z.shiftr data (Z.of_nat i) .& 0x01) s in
      let s := LPCMod_FastWriteIO 0x2 0x2 s in
      spi_write i data s
  end.

Definition SPIWrite (data : Z) (s : sys) : sys := LPCMod_FastWriteIO 0x3 0 (spi_write 8 data s).

(** ** Display, fan, game pad *)

Record display := mkDisplay { nbLines : Z; LineSize : Z }.

(** The line and the text that are printed, if any; [text] is the C string. *)
Definition lcdPrintFunction (d : display) (line : Z) (text : list Z) (stringLength : Z) : option (Z * list Z) :=
  if nbLines d - 1 <? line then None
  else
    let stringLength :=
      if stringLength <? LineSize d then
        let inputStringLength := u8 (Z.of_nat (length text)) in
        if inputStringLength <? stringLength then inputStringLength else stringLength
      else u8 (LineSize d) in
    Some (line, take (Z.to_nat stringLength) text).

Definition lcdClearLineFunction (d : display) (line : Z) : option Z :=
  if nbLines d - 1 <? line then None else Some line.

(** The speed given to the fan controller. *)
Definition fanFunction (value : Z) : option Z :=
  if (10 <=? value) && (value <=? 100) then Some value else None.

(** [risefall] is the edge of a button: 1 when it has just been pressed. *)
Definition XPADRead (risefall : Z → Z) (xpadVariable : Z) : Z :=
  let b := xpadVariable - 1 in
  if (0 <=? b) && (b <=? 5) && (risefall b =? 1) then b + 1 else 0.

(** ** Boot *)

Section boot.
Context {L : Type} `{FlashLowLevel L}.
Context (confirm : nat → bool) (isXBE : bool) (eeprom origEeprom : list Z) (smc1b : Z).

Definition bootFunction (fuel : nat) (bank : FlashBank) : ST (FlashUi.ui L) (FlashUi.run bool) :=
  if (bank =? FlashBank_512Bank) || (bank =? FlashBank_256Bank) || (bank =? FlashBank_OSBank) then
    r ← FlashUi.BootModBios confirm isXBE eeprom origEeprom smc1b fuel bank;
    mret match r with FlashUi.Done _ => FlashUi.Done true | FlashUi.Restarted => FlashUi.Restarted
                    | FlashUi.Running => FlashUi.Running end
  else if (bank =? FlashBank_SplitTSOP0Bank) || (bank =? FlashBank_SplitTSOP1Bank) ||
          (bank =? FlashBank_FullTSOPBank) then
    r ← FlashUi.BootOriginalBios confirm isXBE eeprom origEeprom smc1b fuel bank;
    mret match r with FlashUi.Done _ => FlashUi.Done true | FlashUi.Restarted => FlashUi.Restarted
                    | FlashUi.Running => FlashUi.Running end
  else mret (FlashUi.Done false).

End boot.

(** ** Lemmas *)

Lemma read_input ports s :
  isPureXBlast s = true → GPI1 (gpio (LPCMod_ReadIO ports s)) = Z.b2z (Z.testbit (ports XBLAST_IO) 3).
Proof.
  intros Hs. unfold LPCMod_ReadIO, gpio_input. rewrite Hs. cbn [gpio set_gpio GPI1].
  rewrite Identify.bit_b2z by lia. unfold ReadFromIO, u8. f_equal. by rewrite Z.mod_pow2_bits_low by lia.
Qed.

(** Each bit is shifted both when it is stored and by the later rounds. *)
Definition collapsed (any : bool) (i : nat) : Z := if any then 2 ^ Z.of_nat i else 0.

Lemma spi_bit_spec ports i r any s :
  isPureXBlast s = true → (i < 8)%nat → u8 (Z.shiftl r 1) = collapsed any i →
  ∃ s', spi_bit ports i r s = (collapsed (any || Z.testbit (ports i XBLAST_IO) 3) i, s') ∧
    isPureXBlast s' = true.
Proof.
  intros Hs Hi Hr. unfold spi_bit. rewrite Hr.
  exists (LPCMod_ReadIO (ports i) (LPCMod_FastWriteIO 0x2 0x2 (LPCMod_FastWriteIO 0x2 0 s))). split; [|exact Hs].
  f_equal. rewrite read_input by exact Hs. unfold collapsed.
  do 8 (destruct i as [|i]; [by destruct any, (Z.testbit _ 3)|]). lia.
Qed.

Lemma collapsed_next any i : (i < 7)%nat → u8 (Z.shiftl (collapsed any i) 1) = collapsed any (S i).
Proof. intros Hi. do 7 (destruct i as [|i]; [by destruct any|]). lia. Qed.

Lemma spi_read_spec ports n : ∀ i any r s,
  isPureXBlast s = true → (i + n < 8)%nat → u8 (Z.shiftl r 1) = collapsed any i →
  (spi_read ports (S n) i r s).1 =
    collapsed (any || existsb (λ k, Z.testbit (ports k XBLAST_IO) 3) (seq i (S n))) (i + n).
Proof.
  induction n as [|n IH]; intros i any r s Hs Hi Hr;
    destruct (spi_bit_spec ports i r any s Hs) as (s' & E & Hs'); try done; try lia.
  - cbn [spi_read seq existsb]. rewrite E. cbn. by rewrite orb_false_r, Nat.add_0_r.
  - change (spi_read ports (S (S n)) i r s)
      with (let '(r, s) := spi_bit ports i r s in spi_read ports (S n) (S i) r s). rewrite E.
    rewrite (IH (S i) (any || Z.testbit (ports i XBLAST_IO) 3)); [|done|lia|apply collapsed_next; lia].
    cbn [seq existsb]. rewrite <- orb_assoc. f_equal. lia.
Qed.

(** The lines as they are: each 0 or 1. *)
Definition is_bit (v : Z) : Prop := v = 0 ∨ v = 1.

(** The octet on the port with the clock and data lines given. *)
Definition octet (g : GenPurposeIOs) (clk mosi : bool) : Z :=
  u8 (Z.shiftl (GPO3 g) 7 .| Z.shiftl (GPO2 g) 6 .| Z.shiftl (Z.b2z clk) 5 .| Z.shiftl (Z.b2z mosi) 4 .| EN_5V g).

Lemma octet_lines g clk mosi :
  is_bit (GPO3 g) → is_bit (GPO2 g) → is_bit (EN_5V g) →
  Z.testbit (octet g clk mosi) 5 = clk ∧ Z.testbit (octet g clk mosi) 4 = mosi.
Proof. unfold octet. intros [-> | ->] [-> | ->] [-> | ->]; by destruct clk, mosi. Qed.

(** What a receiver that samples the data line at each rising clock edge gets. *)
Fixpoint receive (clk : bool) (sent : list Z) : list bool :=
  match sent with
  | [] => []
  | v :: sent =>
      let c := Z.testbit v 5 in
      (if c && negb clk then [Z.testbit v 4] else []) ++ receive c sent
  end.

(** The clock low and then high with each bit on the data line. *)
Fixpoint spi_trace (n : nat) (data : Z) (g : GenPurposeIOs) : list Z :=
  match n with
  | O => []
  | S i => let b := Z.testbit data (Z.of_nat i) in octet g false b :: octet g true b :: spi_trace i data g
  end.

(** The lines that the transfer does not use. *)
Definition same_lines (g g' : GenPurposeIOs) : Prop :=
  GPO3 g' = GPO3 g ∧ GPO2 g' = GPO2 g ∧ EN_5V g' = EN_5V g.

Lemma octet_same g g' clk mosi : same_lines g g' → octet g' clk mosi = octet g clk mosi.
Proof. intros (E1 & E2 & E3). unfold octet. by rewrite E1, E2, E3. Qed.

Lemma spi_trace_same n data g g' : same_lines g g' → spi_trace n data g' = spi_trace n data g.
Proof. intros H. induction n as [|n IH]; [done|]. cbn. by rewrite !(octet_same g g'), IH. Qed.

Lemma send_bit b s :
  let s1 := LPCMod_FastWriteIO 0x3 (Z.b2z b) s in
  let s2 := LPCMod_FastWriteIO 0x2 0x2 s1 in
  same_lines (gpio s) (gpio s2) ∧
  io_out s2 = (XBLAST_IO, octet (gpio s) true b) :: (XBLAST_IO, octet (gpio s) false b) :: io_out s.
Proof. by destruct b. Qed.

Lemma testbit_land data i : 0 <= i → Z.shiftr data i .& 0x01 = Z.b2z (Z.testbit data i).
Proof.
  intros Hi. change 0x01 with (Z.ones 1). rewrite Z.land_ones, <- Z.bit0_mod, Z.shiftr_spec by lia. f_equal.
Qed.

Lemma spi_write_sends n data : ∀ s,
  same_lines (gpio s) (gpio (spi_write n data s)) ∧
  io_out (spi_write n data s) = rev ((λ v, (XBLAST_IO, v)) <$> spi_trace n data (gpio s)) ++ io_out s.
Proof.
  induction n as [|n IH]; intros s; [by split|]. cbn [spi_write spi_trace]. rewrite testbit_land by lia.
  destruct (send_bit (Z.testbit data (Z.of_nat n)) s) as [Hl Ho].
  destruct (IH (LPCMod_FastWriteIO 0x2 0x2 (LPCMod_FastWriteIO 0x3 (Z.b2z (Z.testbit data (Z.of_nat n))) s)))
    as [Hl' Ho'].
  split; [destruct Hl as (? & ? & ?), Hl' as (? & ? & ?); split_and!; congruence|].
  rewrite Ho', Ho, (spi_trace_same n data _ _ Hl). cbn [fmap list_fmap rev]. by rewrite <- !app_assoc.
Qed.

Lemma receive_trace n data g clk rest :
  is_bit (GPO3 g) → is_bit (GPO2 g) → is_bit (EN_5V g) →
  receive clk (spi_trace n data g ++ rest) =
    ((λ i, Z.testbit data (Z.of_nat i)) <$> rev (seq 0 n)) ++ receive (if decide (n = 0)%nat then clk else true) rest.
Proof.
  intros H1 H2 H3. revert clk. induction n as [|n IH]; intros clk; [done|]. cbn [spi_trace app receive].
  destruct (octet_lines g false (Z.testbit data (Z.of_nat n)) H1 H2 H3) as [-> _].
  destruct (octet_lines g true (Z.testbit data (Z.of_nat n)) H1 H2 H3) as [-> ->]. cbn [andb negb app].
  rewrite IH, seq_S, rev_app_distr. cbn [rev app fmap list_fmap]. f_equal. f_equal.
  by destruct n.
Qed.

(** ** Properties *)

(** C33: [SPIRead] loses the position of every bit: the eight samples all end in
    bit 7, so the octet read is 0x80 if any sample is 1 and 0 otherwise. *)
Theorem SPIRead_collapses ports s :
  isPureXBlast s = true →
  (SPIRead ports s).1 = if existsb (λ k, Z.testbit (ports k XBLAST_IO) 3) (seq 0 8) then 0x80 else 0.
Proof. intros Hs. unfold SPIRead. rewrite (spi_read_spec ports 7 0 false 0 s); [done|done|lia|done]. Qed.

(** The octet 0x01 on the wire is read as 0x80. *)
Lemma SPIRead_collapses_witness :
  (SPIRead (λ k _, if (k =? 7)%nat then 0x08 else 0) (Identify.sample_sys SYSCON_ID_V1)).1 = 0x80.
Proof.
  rewrite (SPIRead_collapses (λ k _, if (k =? 7)%nat then 0x08 else 0) (Identify.sample_sys SYSCON_ID_V1));
    reflexivity.
Defined.

(** [SPIWrite] sends the octet, most significant bit first, to a receiver that
    samples at rising clock edges, and ends with both lines low. *)
Theorem SPIWrite_delivers data clk s :
  is_bit (GPO3 (gpio s)) → is_bit (GPO2 (gpio s)) → is_bit (EN_5V (gpio s)) →
  ∃ sent : list Z, io_out (SPIWrite data s) = rev ((λ v, (XBLAST_IO, v)) <$> sent) ++ io_out s ∧
    receive clk sent = (λ i, Z.testbit data i) <$> [7; 6; 5; 4; 3; 2; 1; 0] ∧
    List.last sent 0 = octet (gpio s) false false.
Proof.
  intros H1 H2 H3. destruct (spi_write_sends 8 data s) as [Hl Ho].
  pose proof (receive_trace 8 data (gpio s) clk [octet (gpio s) false false] H1 H2 H3) as Hr.
  destruct (octet_lines (gpio s) false false H1 H2 H3) as [Hclk _].
  unfold SPIWrite. rewrite <- (octet_same _ _ false false Hl) in *.
  generalize dependent (spi_write 8 data s). generalize dependent (spi_trace 8 data (gpio s)).
  intros t s' Hl Ho Hr' Hclk.
  exists (t ++ [octet (gpio s') false false]). split_and!.
  - rewrite fmap_app, rev_app_distr. cbn [fmap list_fmap rev app]. by rewrite <- Ho.
  - rewrite Hr'. cbn [receive]. by rewrite Hclk.
  - apply List.last_last.
Qed.

End ScriptDevices.
