(* ===== verification/Deflate.v ===== *)
(** * The compressed format (RFC 1951 and RFC 1952)

    What a gzip file is, as the lists of octets and bits that encode one: the
    Huffman codes that a list of code lengths stands for, the symbols of a block
    and what they append to the output, blocks, and the file around them.  The
    decompressor in [src/lib/gzip] is held against this.

    Bits are lists of [bool] in the order of the stream, and numbers have their
    lowest bit first, as in the RFC. *)

From S2P Require Import Prelude Crc32.

Module Deflate.

(** ** Bits *)

Fixpoint bits_of (n : nat) (z : Z) : list bool :=
  match n with
  | O => []
  | S n => Z.odd z :: bits_of n (Z.div2 z)
  end.

Fixpoint value (l : list bool) : Z :=
  match l with
  | [] => 0
  | b :: l => Z.b2z b + 2 * value l
  end.

Definition octet_bits (l : list Z) : list bool := flat_map (bits_of 8) l.

(** Octets that hold a list of bits, the last one filled up with zeros. *)
Fixpoint pack (n : nat) (l : list bool) : list Z :=
  match n with
  | O => []
  | S n => value (take 8 l) :: pack n (drop 8 l)
  end.

Definition octets_of (l : list bool) : list Z := pack ((length l + 7) / 8) l.

(** ** Huffman codes (RFC 1951, 3.2.2) *)

Section codes.
(** The length of the code of each symbol, zero if it has none. *)
Context (lens : list Z).

Definition bl_count (n : Z) : Z := Z.of_nat (length (filter (λ x, x = n) lens)).

Fixpoint next_code (n : nat) : Z :=
  match n with
  | O => 0
  | S O => 0
  | S (S _ as n') => 2 * (next_code n' + bl_count (Z.of_nat n'))
  end.

Definition code_length (sym : nat) : Z := nth sym lens 0.

Definition code (sym : nat) : Z :=
  let len := code_length sym in
  next_code (Z.to_nat len) + Z.of_nat (length (filter (λ x, x = len) (take sym lens))).

(** A code goes into the stream with its highest bit first. *)
Definition code_bits (sym : nat) : list bool :=
  reverse (bits_of (Z.to_nat (code_length sym)) (code sym)).

(** The codes fill the patterns of [15] bits. *)
Definition patterns : Z :=
  foldr (λ n acc, (if n =? 0 then 0 else 2 ^ (15 - n)) + acc) 0 lens.
Definition complete : Prop := patterns = 2 ^ 15.

End codes.

(** ** Symbols (RFC 1951, 3.2.5) *)

(** A literal, or a match with the numbers of its length code (less 257) and of its
    distance code, and the values of the extra bits of each. *)
Inductive symbol := Literal (c : Z) | Match (lc lx dc dx : Z).

Definition length_extra (lc : Z) : Z := if (lc <? 8) || (lc =? 28) then 0 else lc / 4 - 1.
Definition length_base (lc : Z) : Z :=
  if lc <? 8 then 3 + lc else if lc =? 28 then 258 else 3 + (4 + lc mod 4) * 2 ^ length_extra lc.
Definition distance_extra (dc : Z) : Z := if dc <? 4 then 0 else dc / 2 - 1.
Definition distance_base (dc : Z) : Z :=
  if dc <? 4 then 1 + dc else 1 + (2 + dc mod 2) * 2 ^ distance_extra dc.

Definition match_length (lc lx : Z) : Z := length_base lc + lx.
Definition match_distance (dc dx : Z) : Z := distance_base dc + dx.

(** [n] octets, each a copy of the one [dist] octets before it. *)
Fixpoint copy_back (n : nat) (dist : Z) (out : list Z) : list Z :=
  match n with
  | O => out
  | S n => copy_back n dist (out ++ [nth (length out - Z.to_nat dist) out 0])
  end.

Definition apply_symbol (out : list Z) (y : symbol) : list Z :=
  match y with
  | Literal c => out ++ [c]
  | Match lc lx dc dx => copy_back (Z.to_nat (match_length lc lx)) (match_distance dc dx) out
  end.

Section symbols.
(** The lengths of the codes for literals and lengths, and for distances. *)
Context (llens dlens : list Z).

Definition symbol_bits (y : symbol) : list bool :=
  match y with
  | Literal c => code_bits llens (Z.to_nat c)
  | Match lc lx dc dx =>
      code_bits llens (257 + Z.to_nat lc) ++ bits_of (Z.to_nat (length_extra lc)) lx ++
      code_bits dlens (Z.to_nat dc) ++ bits_of (Z.to_nat (distance_extra dc)) dx
  end.

(** Behind the symbols of a block comes the code 256. *)
Definition symbols_bits (ys : list symbol) : list bool := flat_map symbol_bits ys ++ code_bits llens 256.

(** The symbol can be encoded, and its match does not begin before the output. *)
Definition symbol_ok (out : list Z) (y : symbol) : Prop :=
  match y with
  | Literal c => byte c ∧ code_length llens (Z.to_nat c) ≠ 0
  | Match lc lx dc dx =>
      0 <= lc <= 28 ∧ 0 <= lx < 2 ^ length_extra lc ∧ 0 <= dc <= 29 ∧ 0 <= dx < 2 ^ distance_extra dc ∧
      code_length llens (257 + Z.to_nat lc) ≠ 0 ∧ code_length dlens (Z.to_nat dc) ≠ 0 ∧
      match_distance dc dx <= Z.of_nat (length out)
  end.

Fixpoint symbols_ok (out : list Z) (ys : list symbol) : Prop :=
  match ys with
  | [] => True
  | y :: ys => symbol_ok out y ∧ symbols_ok (apply_symbol out y) ys
  end.

End symbols.

(** ** Blocks (RFC 1951, 3.2.3 to 3.2.7) *)

(** The code lengths of a dynamic block are themselves encoded: a length, the
    length before repeated 3 to 6 times, or 3 to 10 or 11 to 138 zeros. *)
Inductive item := Len (n : Z) | Repeat (x : Z) | Zeros (x : Z) | ManyZeros (x : Z).

Definition item_symbol (i : item) : nat :=
  match i with Len n => Z.to_nat n | Repeat _ => 16 | Zeros _ => 17 | ManyZeros _ => 18 end%nat.
Definition item_extra (i : item) : list bool :=
  match i with Len _ => [] | Repeat x => bits_of 2 x | Zeros x => bits_of 3 x | ManyZeros x => bits_of 7 x end.
Definition item_range (i : item) : Prop :=
  match i with Len n => 0 <= n < 16 | Repeat x => 0 <= x < 4 | Zeros x => 0 <= x < 8 | ManyZeros x => 0 <= x < 128 end.

(** The lengths an item stands for behind a length [l]. *)
Definition item_lengths (l : Z) (i : item) : list Z :=
  match i with
  | Len n => [n]
  | Repeat x => replicate (Z.to_nat (3 + x)) l
  | Zeros x => replicate (Z.to_nat (3 + x)) 0
  | ManyZeros x => replicate (Z.to_nat (11 + x)) 0
  end.
Definition item_last (l : Z) (i : item) : Z := match i with Len n => n | Repeat _ => l | _ => 0 end.

Fixpoint items_lengths (l : Z) (its : list item) : list Z :=
  match its with
  | [] => []
  | i :: its => item_lengths l i ++ items_lengths (item_last l i) its
  end.

(** The order in which the lengths of the codes of the items are stored. *)
Definition order : list nat := [16; 17; 18; 0; 8; 7; 9; 6; 10; 5; 11; 4; 12; 3; 13; 2; 14; 1; 15]%nat.

(** The number [hclen] of lengths stored, these lengths by symbol, the numbers of
    codes for literals and distances, and the items. *)
Record header := mkHeader { hclen : nat; clens : list Z; hlit : nat; hdist : nat; items : list item }.

Definition all_lengths (h : header) : list Z := items_lengths 0 (items h).
Definition literal_lengths (h : header) : list Z := take (hlit h) (all_lengths h).
Definition distance_lengths (h : header) : list Z := drop (hlit h) (all_lengths h).

Definition header_bits (h : header) : list bool :=
  bits_of 5 (Z.of_nat (hlit h) - 257) ++ bits_of 5 (Z.of_nat (hdist h) - 1) ++
  bits_of 4 (Z.of_nat (hclen h) - 4) ++
  flat_map (λ j, bits_of 3 (nth j (clens h) 0)) (take (hclen h) order) ++
  flat_map (λ i, code_bits (clens h) (item_symbol i) ++ item_extra i) (items h).

(** The distance code: complete, a single code of one bit, or none. *)
Definition distances_ok (lens : list Z) : Prop :=
  complete lens ∨ lens = [1] ∨ Forall (λ n, n = 0) lens.

Record header_ok (h : header) : Prop := {
  hok_hclen : (4 <= hclen h <= 19)%nat;
  hok_clens : length (clens h) = 19%nat ∧ Forall (λ n, 0 <= n < 8) (clens h);
  hok_stored : Forall (λ j, nth j (clens h) 0 = 0) (drop (hclen h) order);
  hok_ccode : complete (clens h);
  hok_hlit : (257 <= hlit h <= 286)%nat;
  hok_hdist : (1 <= hdist h <= 30)%nat;
  hok_items : Forall (λ i, item_range i ∧ code_length (clens h) (item_symbol i) ≠ 0) (items h);
  hok_number : length (all_lengths h) = (hlit h + hdist h)%nat;
  hok_literals : complete (literal_lengths h);
  hok_end : code_length (literal_lengths h) 256 ≠ 0;
  hok_distances : distances_ok (distance_lengths h)
}.

(** A stored block has bits of any value in front of its first whole octet. *)
Inductive block :=
  | Stored (fill : list bool) (data : list Z)
  | Fixed (ys : list symbol)
  | Dynamic (h : header) (ys : list symbol).

Definition fixed_literals : list Z := replicate 144 8 ++ replicate 112 9 ++ replicate 24 7 ++ replicate 8 8.
Definition fixed_distances : list Z := replicate 30 5.

Definition apply_block (out : list Z) (b : block) : list Z :=
  match b with
  | Stored _ data => out ++ data
  | Fixed ys | Dynamic _ ys => foldl apply_symbol out ys
  end.

(** The type of a block and what follows it. *)
Definition block_bits (b : block) : list bool :=
  match b with
  | Stored fill data =>
      bits_of 2 0 ++ fill ++ bits_of 16 (Z.of_nat (length data)) ++
      bits_of 16 (Z.lnot (Z.of_nat (length data))) ++ octet_bits data
  | Fixed ys => bits_of 2 1 ++ symbols_bits fixed_literals fixed_distances ys
  | Dynamic h ys =>
      bits_of 2 2 ++ header_bits h ++ symbols_bits (literal_lengths h) (distance_lengths h) ys
  end.

(** [pos] bits come before the block; the two fixed codes that are not used are
    left out of the distance lengths. *)
Definition block_ok (pos : nat) (out : list Z) (b : block) : Prop :=
  match b with
  | Stored fill data =>
      (length fill < 8)%nat ∧ ((pos + 3 + length fill) mod 8 = 0)%nat ∧
      Forall byte data ∧ (length data < 2 ^ 16)%nat
  | Fixed ys => symbols_ok fixed_literals fixed_distances out ys
  | Dynamic h ys => header_ok h ∧ symbols_ok (literal_lengths h) (distance_lengths h) out ys
  end.

(** The blocks, the last one marked. *)
Fixpoint blocks_bits (bs : list block) : list bool :=
  match bs with
  | [] => []
  | [b] => true :: block_bits b
  | b :: bs => false :: block_bits b ++ blocks_bits bs
  end.

Fixpoint blocks_ok (pos : nat) (out : list Z) (bs : list block) : Prop :=
  match bs with
  | [] => True
  | b :: bs => block_ok pos out b ∧ blocks_ok (pos + 1 + length (block_bits b)) (apply_block out b) bs
  end.

(** ** The file (RFC 1952) *)

(** The optional fields but the header checksum (flag 2), and the octets of the
    time, the extra flags and the system. *)
Record member := mkMember {
  extra : option (list Z); file_name : option (list Z); comment : option (list Z);
  mtime_xfl_os : list Z; text_flag : bool; blocks : list block
}.

Definition flag {A} (o : option A) (z : Z) : Z := match o with Some _ => z | None => 0 end.
Definition member_flags (m : member) : Z :=
  (if text_flag m then 1 else 0) + flag (extra m) 4 + flag (file_name m) 8 + flag (comment m) 16.

Definition string_octets (o : option (list Z)) : list Z := match o with Some s => s ++ [0] | None => [] end.
Definition extra_octets (o : option (list Z)) : list Z :=
  match o with Some x => le_bytes 2 (Z.of_nat (length x)) ++ x | None => [] end.

Definition original (m : member) : list Z := foldl apply_block [] (blocks m).

(** The checksum that every octet enters with the lowest bit first. *)
Definition crc32 (l : list Z) : Z := Z.lxor (Crc32.crc_ref l) 0xffffffff.

Definition file_header (m : member) : list Z :=
  [0x1f; 0x8b; 8; member_flags m] ++ mtime_xfl_os m ++
  extra_octets (extra m) ++ string_octets (file_name m) ++ string_octets (comment m).

Definition gzip_file (m : member) : list Z :=
  file_header m ++ octets_of (blocks_bits (blocks m)) ++
  le_bytes 4 (crc32 (original m)) ++ le_bytes 4 (Z.of_nat (length (original m))).

Definition string_ok (o : option (list Z)) : Prop :=
  match o with Some s => Forall (λ c, 0 < c < 256) s | None => True end.

Record member_ok (m : member) : Prop := {
  mok_extra : match extra m with Some x => Forall byte x ∧ (length x < 2 ^ 16)%nat | None => True end;
  mok_name : string_ok (file_name m);
  mok_comment : string_ok (comment m);
  mok_fixed : Forall byte (mtime_xfl_os m) ∧ length (mtime_xfl_os m) = 6%nat;
  mok_some : blocks m ≠ [];
  mok_blocks : blocks_ok 0 [] (blocks m)
}.

End Deflate.
