(* ===== verification/Inflate.v ===== *)
(** * The decompressor of the boot loader
      ([src/lib/gzip/inflate.c], [src/lib/gzip/misc.c], [src/boot_rom/2bBootLibrary.c])

    [decompress_kernel] unpacks a gzip file in memory: [gunzip] reads the header,
    [inflate] the blocks and [gunzip] the checksum and the length behind them.
    Huffman codes are decoded with tables of several levels, which [huft_build]
    makes from the code lengths in memory from [gzip_malloc].

    The static variables are the record [gz].  An operation ends with [Done], with
    [Stall] when it enters one of the endless loops [while(1);], or with [Undef]
    when it reads what was never written, or writes out of range.  The table
    entries are a map from their addresses; a heap of the loader's RAM can hold
    anything to begin with.  Loops that read input have as fuel the number of bits
    left in it, and end with [Stall] when it runs out. *)

From stdpp Require Import gmap.
From S2P Require Import Prelude.

Module Inflate.

(** ** Tables *)

(** The union of an entry: a value, or a pointer to the next table. *)
Inductive union := Unset | VN (n : Z) | VT (t : Z).

Record huft := mkHuft { huft_e : Z; huft_b : Z; huft_v : union }.

Definition sizeof_huft : Z := 8.
Definition WSIZE : Z := 0x8000.
Definition BMAX : Z := 16.
Definition N_MAX : Z := 288.
Definition lbits : Z := 9.
Definition dbits : Z := 6.

Definition border : list Z := [16; 17; 18; 0; 8; 7; 9; 6; 10; 5; 11; 4; 12; 3; 13; 2; 14; 1; 15].
Definition cplens : list Z :=
  [3; 4; 5; 6; 7; 8; 9; 10; 11; 13; 15; 17; 19; 23; 27; 31;
   35; 43; 51; 59; 67; 83; 99; 115; 131; 163; 195; 227; 258; 0; 0].
Definition cplext : list Z :=
  [0; 0; 0; 0; 0; 0; 0; 0; 1; 1; 1; 1; 2; 2; 2; 2;
   3; 3; 3; 3; 4; 4; 4; 4; 5; 5; 5; 5; 0; 99; 99].
Definition cpdist : list Z :=
  [1; 2; 3; 4; 5; 7; 9; 13; 17; 25; 33; 49; 65; 97; 129; 193;
   257; 385; 513; 769; 1025; 1537; 2049; 3073; 4097; 6145;
   8193; 12289; 16385; 24577].
Definition cpdext : list Z :=
  [0; 0; 0; 0; 1; 1; 2; 2; 3; 3; 4; 4; 5; 5; 6; 6;
   7; 7; 8; 8; 9; 9; 10; 10; 11; 11; 12; 12; 13; 13].
Definition mask_bits : list Z :=
  [0x0000; 0x0001; 0x0003; 0x0007; 0x000f; 0x001f; 0x003f; 0x007f; 0x00ff;
   0x01ff; 0x03ff; 0x07ff; 0x0fff; 0x1fff; 0x3fff; 0x7fff; 0xffff].

(** ** The static variables *)

Record gz := mkGz {
  input_data : list Z; insize : Z; inptr : Z;
  bb : Z; bk : Z;
  window : list Z; outcnt : Z;
  output_data : list Z; bytes_out : Z;
  crc_32_tab : list Z; crc : Z;
  free_mem_ptr : Z; free_mem_end_ptr : Z; hufts : Z;
  heap : gmap Z huft
}.

Definition set_input (n p : Z) (s : gz) : gz :=
  mkGz (input_data s) n p (bb s) (bk s) (window s) (outcnt s) (output_data s) (bytes_out s)
    (crc_32_tab s) (crc s) (free_mem_ptr s) (free_mem_end_ptr s) (hufts s) (heap s).
Definition set_inptr (p : Z) (s : gz) : gz := set_input (insize s) p s.
Definition set_bits (b k : Z) (s : gz) : gz :=
  mkGz (input_data s) (insize s) (inptr s) b k (window s) (outcnt s) (output_data s) (bytes_out s)
    (crc_32_tab s) (crc s) (free_mem_ptr s) (free_mem_end_ptr s) (hufts s) (heap s).
Definition set_window (x : list Z) (s : gz) : gz :=
  mkGz (input_data s) (insize s) (inptr s) (bb s) (bk s) x (outcnt s) (output_data s) (bytes_out s)
    (crc_32_tab s) (crc s) (free_mem_ptr s) (free_mem_end_ptr s) (hufts s) (heap s).
Definition set_outcnt (w : Z) (s : gz) : gz :=
  mkGz (input_data s) (insize s) (inptr s) (bb s) (bk s) (window s) w (output_data s) (bytes_out s)
    (crc_32_tab s) (crc s) (free_mem_ptr s) (free_mem_end_ptr s) (hufts s) (heap s).
Definition set_output (o : list Z) (n : Z) (s : gz) : gz :=
  mkGz (input_data s) (insize s) (inptr s) (bb s) (bk s) (window s) (outcnt s) o n
    (crc_32_tab s) (crc s) (free_mem_ptr s) (free_mem_end_ptr s) (hufts s) (heap s).
Definition set_crc (t : list Z) (c : Z) (s : gz) : gz :=
  mkGz (input_data s) (insize s) (inptr s) (bb s) (bk s) (window s) (outcnt s) (output_data s) (bytes_out s)
    t c (free_mem_ptr s) (free_mem_end_ptr s) (hufts s) (heap s).
Definition set_free (p e : Z) (s : gz) : gz :=
  mkGz (input_data s) (insize s) (inptr s) (bb s) (bk s) (window s) (outcnt s) (output_data s) (bytes_out s)
    (crc_32_tab s) (crc s) p e (hufts s) (heap s).
Definition set_hufts (n : Z) (s : gz) : gz :=
  mkGz (input_data s) (insize s) (inptr s) (bb s) (bk s) (window s) (outcnt s) (output_data s) (bytes_out s)
    (crc_32_tab s) (crc s) (free_mem_ptr s) (free_mem_end_ptr s) n (heap s).
Definition set_heap (h : gmap Z huft) (s : gz) : gz :=
  mkGz (input_data s) (insize s) (inptr s) (bb s) (bk s) (window s) (outcnt s) (output_data s) (bytes_out s)
    (crc_32_tab s) (crc s) (free_mem_ptr s) (free_mem_end_ptr s) (hufts s) h.

(** ** Results *)

Inductive result (A : Type) := Done (a : A) (s : gz) | Stall | Undef.
Arguments Done {A}. Arguments Stall {A}. Arguments Undef {A}.

Definition G (A : Type) : Type := gz → result A.

#[export] Instance G_mret : MRet G := λ A a s, Done a s.
#[export] Instance G_mbind : MBind G := λ A B f m s,
  match m s with Done a s => f a s | Stall => Stall | Undef => Undef end.

Definition stall {A} : G A := λ _, Stall.
Definition undef {A} : G A := λ _, Undef.
Definition get {A} (f : gz → A) : G A := λ s, Done (f s) s.
Definition put (f : gz → gz) : G unit := λ s, Done tt (f s).

(** Arrays: out of range is undefined. *)
Definition rd {A} (l : list A) (i : Z) : G A :=
  match (if i <? 0 then None else l !! Z.to_nat i) with Some x => mret x | None => undef end.
Definition wr {A} (l : list A) (i : Z) (x : A) : G (list A) :=
  if (0 <=? i) && (i <? Z.of_nat (length l)) then mret (<[Z.to_nat i:=x]> l) else undef.

(** Arrays with cells never written. *)
Definition rdo (l : list (option Z)) (i : Z) : G Z :=
  c ← rd l i; match c with Some x => mret x | None => undef end.

(** Entries of the tables. *)
Definition load (a : Z) : G huft := λ s, match heap s !! a with Some t => Done t s | None => Undef end.
Definition store (a : Z) (t : huft) : G unit := put (λ s, set_heap (<[a:=t]> (heap s)) s).

(** The pointer in the union; the other fields of a link are never read. *)
Definition link_cell (hp : gmap Z huft) (a t : Z) : huft :=
  match hp !! a with
  | Some x => mkHuft (huft_e x) (huft_b x) (VT t)
  | None => mkHuft 0 0 (VT t)
  end.
Definition store_link (a t : Z) : G unit :=
  put (λ s, set_heap (<[a:=link_cell (heap s) a t]> (heap s)) s).
Definition value_of (t : huft) : G Z := match huft_v t with VN n => mret (u16 n) | _ => undef end.
Definition table_of (t : huft) : G Z := match huft_v t with VT a => mret a | _ => undef end.

(** ** Memory ([src/lib/gzip/misc.c]) *)

Definition gzip_malloc (size : Z) : G Z :=
  p ← get free_mem_ptr;
  if (size <? 0) || (p <=? 0) then stall
  else
    let p := Z.land (p + 3) (Z.lnot 3) in
    e ← get free_mem_end_ptr;
    put (set_free (p + size) e);;
    if e <=? p + size then stall else mret p.

Definition gzip_free (where_ : Z) : G unit := mret tt.
Definition gzip_mark : G Z := get free_mem_ptr.
Definition gzip_release (ptr : Z) : G unit := e ← get free_mem_end_ptr; put (set_free ptr e).

(** ** Input and output *)

Definition fill_inbuf : G Z := λ s,
  if negb (insize s =? 0) then Stall
  else match input_data s with
       | c :: _ => Done c (set_input (Z.of_nat (length (input_data s))) 1 s)
       | [] => Undef
       end.

Definition get_byte : G Z := λ s,
  if inptr s <? insize s then (c ← rd (input_data s) (inptr s); put (set_inptr (inptr s + 1));; mret c) s
  else fill_inbuf s.

Definition crc_step (t : list Z) (c ch : Z) : Z :=
  nth (Z.to_nat ((c .^ ch) .& 0xff)) t 0 .^ Z.shiftr c 8.

Definition flush_window : G unit :=
  n ← get outcnt;
  win ← get window;
  let chunk := take (Z.to_nat n) win in
  put (λ s, set_crc (crc_32_tab s) (foldl (crc_step (crc_32_tab s)) (crc s) chunk) s);;
  put (λ s, set_output (output_data s ++ chunk) (u32 (bytes_out s + n)) s);;
  put (set_outcnt 0).

Definition flush_output (w : Z) : G unit := put (set_outcnt w);; flush_window.

(** [rep movsl], [movsw], [movsb]: [n] octets of the window moved by parts of four,
    two and one. *)
Definition movs (part : nat) (dst src : Z) (win : list Z) : G (list Z) :=
  if (src <? 0) || (dst <? 0) || (Z.of_nat (length win) <? src + Z.of_nat part)
     || (Z.of_nat (length win) <? dst + Z.of_nat part) then undef
  else mret (take (Z.to_nat dst) win ++ take part (drop (Z.to_nat src) win)
               ++ drop (Z.to_nat dst + part) win).

Fixpoint movsl (n : nat) (dst src : Z) (win : list Z) : G (Z * Z * list Z) :=
  match n with
  | O => mret (dst, src, win)
  | S n => win ← movs 4 dst src win; movsl n (dst + 4) (src + 4) win
  end.

Definition memcpy (dst src n : Z) (win : list Z) : G (list Z) :=
  '(dst, src, win) ← movsl (Z.to_nat (n / 4)) dst src win;
  '(dst, src, win) ← (if truthy (n .& 2) then win ← movs 2 dst src win; mret (dst + 2, src + 2, win)
                      else mret (dst, src, win));
  if truthy (n .& 1) then movs 1 dst src win else mret win.

(** ** The bit buffer *)

(** The local copies [b] and [k] of the buffer. *)
Definition bits : Type := Z * Z.

Fixpoint needbits (fuel : nat) (n : Z) (bs : bits) : G bits :=
  let '(b, k) := bs in
  if k <? n then
    match fuel with
    | O => undef
    | S fuel =>
        if 32 <=? k then undef
        else c ← get_byte; needbits fuel n (b .| u32 (Z.shiftl (u8 c) k), k + 8)
    end
  else mret bs.

(** Five octets are more than the buffer can take. *)
Definition NEEDBITS (n : Z) (bs : bits) : G bits := needbits 5 n bs.

Definition DUMPBITS (n : Z) (bs : bits) : G bits :=
  if (n <? 0) || (32 <=? n) then undef else mret (Z.shiftr (fst bs) n, u32 (snd bs - n)).

(** [NEEDBITS], the value under a mask and [DUMPBITS]. *)
Definition take_bits (n : Z) (bs : bits) : G (Z * bits) :=
  bs ← NEEDBITS n bs;
  m ← rd mask_bits n;
  let x := fst bs .& m in
  bs ← DUMPBITS n bs;
  mret (x, bs).

Definition local_bits : G bits := get (λ s, (bb s, bk s)).
Definition restore_bits (bs : bits) : G unit := put (set_bits (fst bs) (snd bs)).

(** The bits that are left, buffered or not. *)
Definition bits_left (s : gz) : nat := S (Z.to_nat (8 * (insize s - inptr s) + 64)).

(** ** Building the tables *)

(** How many codes have each length. *)
Fixpoint count_lengths (c : list Z) (b : list Z) : G (list Z) :=
  match b with
  | [] => mret c
  | p :: b => x ← rd c p; c ← wr c p (x + 1); count_lengths c b
  end.

(** [for (j = 1; j <= BMAX; j++) if (c[j]) break;] over the counts from [j] on. *)
Fixpoint first_used (c : list Z) (j : Z) : Z :=
  match c with
  | [] => j
  | x :: c => if truthy x then j else first_used c (j + 1)
  end.

(** [for (i = BMAX; i; i--) if (c[i]) break;] *)
Fixpoint last_used (c : list Z) (i : nat) : Z :=
  match i with
  | O => 0
  | S i' => if truthy (nth i c 0) then Z.of_nat i else last_used c i'
  end.

(** The patterns left over, [None] if there are more codes than patterns. *)
Fixpoint patterns_left (n : nat) (c : list Z) (j y : Z) : option Z :=
  let y := y - nth (Z.to_nat j) c 0 in
  if y <? 0 then None
  else match n with
       | O => Some y
       | S n => patterns_left n c (j + 1) (2 * y)
       end.

(** [while (--i) *xp++ = (j += *p++);] *)
Fixpoint offsets (n : nat) (c : list Z) (p j : Z) (x : list (option Z)) : G (list (option Z)) :=
  match n with
  | O => mret x
  | S n => y ← rd c p; x ← wr x (p + 1) (Some (j + y)); offsets n c (p + 1) (j + y) x
  end.

(** [v[x[j]++] = i] for every code that is used. *)
Fixpoint sort_values (b : list Z) (i : Z) (x v : list (option Z)) : G (list (option Z) * list (option Z)) :=
  match b with
  | [] => mret (x, v)
  | j :: b =>
      '(x, v) ← (if truthy j then
                   o ← rdo x j;
                   v ← wr v o (Some i);
                   x ← wr x j (Some (o + 1));
                   mret (x, v)
                 else mret (x, v));
      sort_values b (i + 1) x v
  end.

(** Where the address of the next table goes: the variable of the caller, or the
    link in front of the table before. *)
Inductive link := Caller | Link (a : Z).

(** The local variables of the main loop; [result] is what [*t] of the caller is. *)
Record builder := mkBuilder {
  i_ : Z; p_ : Z; h_ : Z; w_ : Z; z_ : Z; q_ : Z;
  u_ : list (option Z); x_ : list (option Z);
  r_ : huft; t_ : link; result_ : Z
}.

Section build.
(** The arguments, the counts, the values, and the lengths [l] of a table and
    [g] of the longest code. *)
Context (n s : Z) (d e : list Z) (c : list Z) (v : list (option Z)) (l g : Z).

(** [while (++j < z) { if ((f <<= 1) <= *++xp) break; f -= *xp; }] *)
Fixpoint grow (fuel : nat) (f j z xp : Z) : G Z :=
  let j := j + 1 in
  if j <? z then
    match fuel with
    | O => undef
    | S fuel =>
        let f := u32 (2 * f) in
        y ← rd c (xp + 1);
        if f <=? y then mret j else grow fuel (u32 (f - y)) j z (xp + 1)
    end
  else mret j.

(** The number of bits of a table for the [a + 1] codes of length [k] left. *)
Definition table_bits (k w a : Z) : G Z :=
  let z := if l <? g - w then l else g - w in
  let j := k - w in
  let f := Z.shiftl 1 j in
  if a + 1 <? f then grow 16 (f - (a + 1)) j z k else mret j.

(** The next level: a table, linked into the list for [huft_free] and into the table
    above it. *)
Definition make_table (k a : Z) (B : builder) : G builder :=
  let h := h_ B + 1 in
  let w := w_ B + l in
  j ← table_bits k w a;
  let z := Z.shiftl 1 j in
  q ← gzip_malloc ((z + 1) * sizeof_huft);
  put (λ s, set_hufts (u32 (hufts s + z + 1)) s);;
  let t := q + sizeof_huft in
  (match t_ B with Caller => mret tt | Link a => store_link a t end);;
  let res := match t_ B with Caller => t | Link _ => result_ B end in
  store_link q 0;;
  u ← wr (u_ B) h (Some t);
  '(x, r) ← (if truthy h then
               x ← wr (x_ B) h (Some (i_ B));
               let r := mkHuft (u8 (16 + j)) (u8 l) (VT t) in
               up ← rdo u (h - 1);
               store (up + sizeof_huft * Z.shiftr (i_ B) (w - l)) r;;
               mret (x, r)
             else mret (x_ B, r_ B));
  mret (mkBuilder (i_ B) (p_ B) h w z t u x r (Link q) res).

(** [while (k > w + l)]: tables down to the level of a code of length [k]. *)
Fixpoint make_tables (fuel : nat) (k a : Z) (B : builder) : G builder :=
  if w_ B + l <? k then
    match fuel with
    | O => undef
    | S fuel => B ← make_table k a B; make_tables fuel k a B
    end
  else mret B.

(** The entry of the next value, and the pointer behind it. *)
Definition entry (k : Z) (B : builder) : G (huft * Z) :=
  let b := u8 (k - w_ B) in
  if n <=? p_ B then mret (mkHuft 99 b (huft_v (r_ B)), p_ B)
  else
    val ← rdo v (p_ B);
    if val <? s then mret (mkHuft (if val <? 256 then 16 else 15) b (VN (u16 val)), p_ B + 1)
    else
      x ← rd e (val - s);
      y ← rd d (val - s);
      mret (mkHuft (u8 x) b (VN y), p_ B + 1).

(** [for (j = i >> w; j < z; j += f) q[j] = r;] *)
Fixpoint fill_table (fuel : nat) (q j z f : Z) (r : huft) : G unit :=
  if j <? z then
    match fuel with
    | O => undef
    | S fuel => store (q + sizeof_huft * j) r;; fill_table fuel q (j + f) z f r
    end
  else mret tt.

(** [for (; i & j; j >>= 1) i ^= j; i ^= j;] *)
Fixpoint back_increment (fuel : nat) (i j : Z) : Z :=
  match fuel with
  | O => i
  | S fuel => if truthy (i .& j) then back_increment fuel (i .^ j) (Z.shiftr j 1) else i .^ j
  end.

(** [while ((i & ((1 << w) - 1)) != x[h]) { h--; w -= l; }] *)
Fixpoint back_up (fuel : nat) (i h w : Z) (x : list (option Z)) : G (Z * Z) :=
  y ← rdo x h;
  if negb (i .& (Z.shiftl 1 w - 1) =? y) then
    match fuel with
    | O => undef
    | S fuel => if w <? l then undef else back_up fuel i (h - 1) (w - l) x
    end
  else mret (h, w).

(** One code of length [k]; [a] more follow. *)
Definition make_code (k a : Z) (B : builder) : G builder :=
  B ← make_tables 17 k a B;
  '(r, p) ← entry k B;
  let f := Z.shiftl 1 (k - w_ B) in
  fill_table (Z.to_nat (z_ B)) (q_ B) (Z.shiftr (i_ B) (w_ B)) (z_ B) f r;;
  let i := back_increment (Z.to_nat k + 1) (i_ B) (Z.shiftl 1 (k - 1)) in
  '(h, w) ← back_up 17 i (h_ B) (w_ B) (x_ B);
  mret (mkBuilder i p h w (z_ B) (q_ B) (u_ B) (x_ B) r (t_ B) (result_ B)).

(** [while (a--)] *)
Fixpoint make_codes (a : nat) (k : Z) (B : builder) : G builder :=
  match a with
  | O => mret B
  | S a => B ← make_code k (Z.of_nat a) B; make_codes a k B
  end.

(** [for (; k <= g; k++)], [m] rounds. *)
Fixpoint make_lengths (m : nat) (k : Z) (B : builder) : G builder :=
  match m with
  | O => mret B
  | S m =>
      a ← rd c k;
      B ← make_codes (Z.to_nat a) k B;
      make_lengths m (k + 1) B
  end.

End build.

(** The values in order of bit length, and the tables: from the starting offsets
    on. *)
Definition sort_and_make (b : list Z) (s : Z) (d e c : list Z) (l g j : Z) : G builder :=
  x ← wr (replicate 17 None) 1 (Some 0);
  x ← offsets (Z.to_nat (g - 1)) c 1 0 x;
  '(x, v) ← sort_values b 0 x (replicate (Z.to_nat N_MAX) None);
  x ← wr x 0 (Some 0);
  make_lengths (Z.of_nat (length b)) s d e c v l g (Z.to_nat (g - j + 1)) j
    (mkBuilder 0 0 (-1) (- l) 0 0 (replicate 16 None) x (mkHuft 0 0 Unset) Caller 0).

(** The result, the table and its bits. *)
Definition huft_build (b : list Z) (s : Z) (d e : list Z) (m : Z) : G (Z * Z * Z) :=
  let n := Z.of_nat (length b) in
  c ← count_lengths (replicate 17 0) b;
  if nth 0 c 0 =? n then mret (0, 0, 0)
  else
    let j := first_used (drop 1 c) 1 in
    let l := if m <? j then j else m in
    let g := last_used c 16 in
    let l := if g <? l then g else l in
    match patterns_left (Z.to_nat (g - j)) c j (Z.shiftl 1 j) with
    | None => mret (2, 0, l)
    | Some y =>
        cg ← rd c g;
        c ← wr c g (cg + y);
        B ← sort_and_make b s d e c l g j;
        mret (c_bool (truthy y && negb (g =? 1)), result_ B, l)
    end.

(** A list longer than the heap has a cycle. *)
Fixpoint free_list (fuel : nat) (p : Z) : G unit :=
  if p =? 0 then mret tt
  else match fuel with
       | O => stall
       | S fuel =>
           x ← load (p - sizeof_huft);
           q ← table_of x;
           gzip_free (p - sizeof_huft);;
           free_list fuel q
       end.

Definition huft_free (t : Z) : G unit := n ← get (λ s, S (size (heap s))); free_list n t.

(** ** Decoding *)

(** The entry a code leads to, [None] for an unused code. *)
Fixpoint follow (fuel : nat) (t : huft) (bs : bits) : G (option huft * bits) :=
  if 16 <? huft_e t then
    if huft_e t =? 99 then mret (None, bs)
    else
      match fuel with
      | O => stall
      | S fuel =>
          bs ← DUMPBITS (huft_b t) bs;
          let e := huft_e t - 16 in
          bs ← NEEDBITS e bs;
          m ← rd mask_bits e;
          a ← table_of t;
          t ← load (a + sizeof_huft * (fst bs .& m));
          follow fuel t bs
      end
  else
    bs ← DUMPBITS (huft_b t) bs;
    mret (Some t, bs).

(** A code of more than sixteen tables does not exist. *)
Definition decode (table nbits mask : Z) (bs : bits) : G (option huft * bits) :=
  bs ← NEEDBITS nbits bs;
  t ← load (table + sizeof_huft * (fst bs .& mask));
  follow 16 t bs.

(** An octet put into the window. *)
Definition put_octet (w c : Z) : G Z :=
  win ← get window;
  win ← wr win w c;
  put (set_window win);;
  if w + 1 =? WSIZE then flush_output (w + 1);; mret 0 else mret (w + 1).

(** [do { slide[w++] = slide[d++]; } while (--e);] *)
Fixpoint copy_slow (e : nat) (w d : Z) : G (Z * Z) :=
  win ← get window;
  c ← rd win d;
  win ← wr win w c;
  put (set_window win);;
  match e with
  | S (S _ as e) => copy_slow e (w + 1) (d + 1)
  | _ => mret (w + 1, d + 1)
  end.

(** [do] the copy [while (n)]. *)
Fixpoint copy (fuel : nat) (n w d : Z) : G Z :=
  match fuel with
  | O => stall
  | S fuel =>
      let d := d .& (WSIZE - 1) in
      let e := WSIZE - (if w <? d then d else w) in
      let e := if n <? e then n else e in
      let n := n - e in
      '(w, d) ← (if e <=? u32 (w - d) then
                   win ← get window;
                   win ← memcpy w d e win;
                   put (set_window win);;
                   mret (w + e, d + e)
                 else copy_slow (Z.to_nat e) w d);
      w ← (if w =? WSIZE then flush_output w;; mret 0 else mret w);
      if truthy n then copy fuel n w d else mret w
  end.

Section codes.
Context (tl td bl bd ml md : Z).

(** The loop over the codes of a block, [None] for an error. *)
Fixpoint codes_loop (fuel : nat) (bs : bits) (w : Z) : G (option (bits * Z)) :=
  match fuel with
  | O => stall
  | S fuel =>
      '(t, bs) ← decode tl bl ml bs;
      match t with
      | None => mret None
      | Some t =>
          if huft_e t =? 16 then
            c ← value_of t;
            w ← put_octet w (u8 c);
            codes_loop fuel bs w
          else if huft_e t =? 15 then mret (Some (bs, w))
          else
            '(x, bs) ← take_bits (huft_e t) bs;
            n ← value_of t;
            let n := n + x in
            '(t, bs) ← decode td bd md bs;
            match t with
            | None => mret None
            | Some t =>
                '(x, bs) ← take_bits (huft_e t) bs;
                dist ← value_of t;
                let d := u32 (w - dist - x) in
                w ← copy (S (Z.to_nat n)) n w d;
                codes_loop fuel bs w
            end
      end
  end.

End codes.

Definition inflate_codes (tl td bl bd : Z) : G Z :=
  bs ← local_bits;
  w ← get outcnt;
  ml ← rd mask_bits bl;
  md ← rd mask_bits bd;
  fuel ← get bits_left;
  o ← codes_loop tl td bl bd ml md fuel bs w;
  match o with
  | None => mret 1
  | Some (bs, w) => put (set_outcnt w);; restore_bits bs;; mret 0
  end.

(** ** Blocks *)

(** [while (n--)] *)
Fixpoint stored_loop (n : nat) (bs : bits) (w : Z) : G (bits * Z) :=
  match n with
  | O => mret (bs, w)
  | S n =>
      bs ← NEEDBITS 8 bs;
      w ← put_octet w (u8 (fst bs));
      bs ← DUMPBITS 8 bs;
      stored_loop n bs w
  end.

Definition inflate_stored : G Z :=
  bs ← local_bits;
  w ← get outcnt;
  bs ← DUMPBITS (snd bs .& 7) bs;
  bs ← NEEDBITS 16 bs;
  let n := fst bs .& 0xffff in
  bs ← DUMPBITS 16 bs;
  bs ← NEEDBITS 16 bs;
  if negb (n =? Z.lnot (fst bs) .& 0xffff) then mret 1
  else
    bs ← DUMPBITS 16 bs;
    '(bs, w) ← stored_loop (Z.to_nat n) bs w;
    put (set_outcnt w);;
    restore_bits bs;;
    mret 0.

Definition fixed_lengths : list Z := replicate 144 8 ++ replicate 112 9 ++ replicate 24 7 ++ replicate 8 8.

Definition inflate_fixed : G Z :=
  '(i, tl, bl) ← huft_build fixed_lengths 257 cplens cplext 7;
  if truthy i then mret i
  else
    '(i, td, bd) ← huft_build (replicate 30 5) 0 cpdist cpdext 5;
    if 1 <? i then huft_free tl;; mret i
    else
      r ← inflate_codes tl td bl bd;
      if truthy r then mret 1
      else huft_free tl;; huft_free td;; mret 0.

(** The lengths of the codes for lengths, in the order of [border]. *)
Fixpoint read_border (js : list Z) (ll : list (option Z)) (bs : bits) : G (list (option Z) * bits) :=
  match js with
  | [] => mret (ll, bs)
  | j :: js =>
      '(x, bs) ← take_bits 3 bs;
      ll ← wr ll j (Some x);
      read_border js ll bs
  end.

Fixpoint clear_border (js : list Z) (ll : list (option Z)) : G (list (option Z)) :=
  match js with
  | [] => mret ll
  | j :: js => ll ← wr ll j (Some 0); clear_border js ll
  end.

(** [while (j--) ll[i++] = l;] *)
Fixpoint put_lengths (j : nat) (i l : Z) (ll : list (option Z)) : G (list (option Z)) :=
  match j with
  | O => mret ll
  | S j => ll ← wr ll i (Some l); put_lengths j (i + 1) l ll
  end.

(** [while (i < n)], [None] for a run that ends behind [n]. *)
Fixpoint read_lengths (fuel : nat) (tl bl m n i l : Z) (ll : list (option Z)) (bs : bits)
    : G (option (list (option Z) * bits)) :=
  if i <? n then
    match fuel with
    | O => stall
    | S fuel =>
        bs ← NEEDBITS bl bs;
        td ← load (tl + sizeof_huft * (fst bs .& m));
        bs ← DUMPBITS (huft_b td) bs;
        j ← value_of td;
        if j <? 16 then
          ll ← wr ll i (Some j);
          read_lengths fuel tl bl m n (i + 1) j ll bs
        else
          '(x, bs) ← take_bits (if j =? 16 then 2 else if j =? 17 then 3 else 7) bs;
          let run := (if (j =? 16) || (j =? 17) then 3 else 11) + x in
          if n <? i + run then mret None
          else
            let l := if j =? 16 then l else 0 in
            ll ← put_lengths (Z.to_nat run) i l ll;
            read_lengths fuel tl bl m n (i + run) l ll bs
    end
  else mret (Some (ll, bs)).

(** An array from one index to another, all written. *)
Definition filled (ll : list (option Z)) (from n : Z) : G (list Z) :=
  match mapM id (take (Z.to_nat n) (drop (Z.to_nat from) ll)) with
  | Some l => mret l
  | None => undef
  end.

(** The codes of the block from the lengths in [ll], and the block. *)
Definition dynamic_codes (nl nd : Z) (ll : list (option Z)) : G Z :=
  lens ← filled ll 0 nl;
  '(i, tl, bl) ← huft_build lens 257 cplens cplext lbits;
  if truthy i then (if i =? 1 then stall else mret i)
  else
    lens ← filled ll nl nd;
    '(i, td, bd) ← huft_build lens 0 cpdist cpdext dbits;
    if truthy i then (if i =? 1 then stall else huft_free tl;; mret i)
    else
      r ← inflate_codes tl td bl bd;
      if truthy r then mret 1
      else huft_free tl;; huft_free td;; mret 0.

(** The codes for the lengths, from their own lengths in [ll], and the lengths. *)
Definition dynamic_lengths (nl nd : Z) (ll : list (option Z)) (bs : bits) : G Z :=
  lens ← filled ll 0 19;
  '(i, tl, bl) ← huft_build lens 19 [] [] 7;
  if truthy i then (if i =? 1 then huft_free tl else mret tt);; mret i
  else
    let n := nl + nd in
    m ← rd mask_bits bl;
    o ← read_lengths (Z.to_nat n) tl bl m n 0 0 ll bs;
    match o with
    | None => mret 1
    | Some (ll, bs) =>
        huft_free tl;;
        restore_bits bs;;
        dynamic_codes nl nd ll
    end.

Definition inflate_dynamic : G Z :=
  bs ← local_bits;
  '(x, bs) ← take_bits 5 bs;
  let nl := 257 + x in
  '(x, bs) ← take_bits 5 bs;
  let nd := 1 + x in
  '(x, bs) ← take_bits 4 bs;
  let nb := 4 + x in
  if (286 <? nl) || (30 <? nd) then mret 1
  else
    '(ll, bs) ← read_border (take (Z.to_nat nb) border) (replicate (286 + 30) None) bs;
    ll ← clear_border (drop (Z.to_nat nb) border) ll;
    dynamic_lengths nl nd ll bs.

(** The result, and the flag of the last block. *)
Definition inflate_block : G (Z * Z) :=
  bs ← local_bits;
  '(e, bs) ← take_bits 1 bs;
  '(t, bs) ← take_bits 2 bs;
  restore_bits bs;;
  r ← (if t =? 2 then inflate_dynamic
       else if t =? 0 then inflate_stored
       else if t =? 1 then inflate_fixed
       else mret 2);
  mret (r, e).

(** [do { ... } while (!e)], the result. *)
Fixpoint blocks_loop (fuel : nat) : G Z :=
  match fuel with
  | O => stall
  | S fuel =>
      put (set_hufts 0);;
      ptr ← gzip_mark;
      '(r, e) ← inflate_block;
      gzip_release ptr;;
      if truthy r then mret r
      else if truthy e then mret 0
      else blocks_loop fuel
  end.

(** [while (bk >= 8) { bk -= 8; inptr--; }] *)
Fixpoint undo_lookahead (fuel : nat) : G unit :=
  k ← get bk;
  if 8 <=? k then
    match fuel with
    | O => undef
    | S fuel => put (λ s, set_bits (bb s) (k - 8) (set_inptr (u32 (inptr s - 1)) s));; undo_lookahead fuel
    end
  else mret tt.

Definition inflate : G Z :=
  put (set_outcnt 0);;
  put (set_bits 0 0);;
  fuel ← get bits_left;
  r ← blocks_loop fuel;
  if truthy r then mret r
  else
    k ← get bk;
    undo_lookahead (Z.to_nat k);;
    w ← get outcnt;
    flush_output w;;
    mret 0.

(** ** The checksum *)

(** The exclusive-or pattern, from the terms of the polynomial. *)
Definition polynomial : list Z := [0; 1; 2; 4; 5; 7; 8; 10; 11; 12; 16; 22; 23; 26].
Definition crc_pattern : Z := foldl (λ e p, e .| Z.shiftl 1 (31 - p)) 0 polynomial.

(** [for (k = i | 256; k != 1; k >>= 1)] *)
Fixpoint crc_entry (fuel : nat) (k c : Z) : Z :=
  match fuel with
  | O => c
  | S fuel =>
      if k =? 1 then c
      else
        let c := if truthy (c .& 1) then Z.shiftr c 1 .^ crc_pattern else Z.shiftr c 1 in
        crc_entry fuel (Z.shiftr k 1) (if truthy (k .& 1) then c .^ crc_pattern else c)
  end.

Definition makecrc : G unit :=
  put (set_crc (0 :: ((λ i, crc_entry 9 (Z.of_nat i .| 256) 0) <$> seq 1 255)) 0xffffffff).

Definition CRC_VALUE (s : gz) : Z := crc s .^ 0xffffffff.

(** ** The file *)

Definition CONTINUATION : Z := 0x02.
Definition EXTRA_FIELD : Z := 0x04.
Definition ORIG_NAME : Z := 0x08.
Definition COMMENT : Z := 0x10.
Definition ENCRYPTED : Z := 0x20.
Definition RESERVED : Z := 0xC0.

(** [while (len--) (void)get_byte();] *)
Fixpoint skip_octets (len : nat) : G unit :=
  match len with
  | O => mret tt
  | S len => _ ← get_byte; skip_octets len
  end.

(** [while (get_byte() != 0);] *)
Fixpoint skip_string (fuel : nat) : G unit :=
  match fuel with
  | O => stall
  | S fuel => c ← get_byte; if truthy c then skip_string fuel else mret tt
  end.

Definition octets_left (s : gz) : nat := S (Z.to_nat (insize s - inptr s)).

(** Four octets, the lowest first. *)
Definition get_dword : G Z :=
  a ← get_byte;
  b ← get_byte;
  c ← get_byte;
  d ← get_byte;
  mret (a .| Z.shiftl b 8 .| Z.shiftl c 16 .| Z.shiftl d 24).

Definition gunzip : G Z :=
  magic0 ← get_byte;
  magic1 ← get_byte;
  method ← get_byte;
  if negb (magic0 =? 0x1f) || (negb (magic1 =? 0x8b) && negb (magic1 =? 0x9e)) then stall
  else if negb (method =? 8) then stall
  else
    flags ← get_byte;
    if truthy (flags .& ENCRYPTED) then stall
    else if truthy (flags .& CONTINUATION) then stall
    else if truthy (flags .& RESERVED) then stall
    else
      put (λ s, set_inptr (u32 (inptr s + 6)) s);;
      (if truthy (flags .& EXTRA_FIELD) then
         a ← get_byte;
         b ← get_byte;
         skip_octets (Z.to_nat (a .| Z.shiftl b 8))
       else mret tt);;
      (if truthy (flags .& ORIG_NAME) then n ← get octets_left; skip_string n else mret tt);;
      (if truthy (flags .& COMMENT) then n ← get octets_left; skip_string n else mret tt);;
      res ← inflate;
      if truthy res then stall
      else
        orig_crc ← get_dword;
        orig_len ← get_dword;
        s ← get id;
        if negb (orig_crc =? CRC_VALUE s) then stall
        else if negb (orig_len =? bytes_out s) then stall
        else mret 0.

(** [data] becomes the input; the output begins where [out] points. *)
Definition set_data (data : list Z) (s : gz) : gz :=
  mkGz data (insize s) (inptr s) (bb s) (bk s) (window s) (outcnt s) (output_data s) (bytes_out s)
    (crc_32_tab s) (crc s) 0x01000000 0x02000000 (hufts s) (heap s).

Definition decompress_kernel (data : list Z) : G Z :=
  put (set_data data);;
  makecrc;;
  _ ← gunzip;
  mret 1.

(** The static variables when the loader starts: cleared, but for what the RAM of
    the window and of the tables holds. *)
Definition boot_state (win : list Z) (ram : gmap Z huft) : gz :=
  mkGz [] 0 0 0 0 win 0 [] 0 [] 0 0 0 0 ram.

End Inflate.
