(* ===== verification/InflateBits.v ===== *)
(** * Bits and octets of the compressed stream

    Lemmas on lists of bits and the numbers they stand for; total correctness of
    operations of the decompressor ([runs]); and the bit buffer: what [NEEDBITS]
    and [DUMPBITS] do is taking bits from the front of the stream that the buffer
    and the rest of the input make up ([reads]). *)

From stdpp Require Import gmap.
From S2P Require Import Prelude Deflate Inflate.

Module InflateBits.
Import Deflate Inflate.

(** ** Lists of bits *)

Lemma length_bits_of n z : length (bits_of n z) = n.
Proof. revert z. induction n as [|n IH]; intros z; simpl; [done|]. by rewrite IH. Qed.

Lemma bits_of_lookup n z i : (i < n)%nat → bits_of n z !! i = Some (Z.testbit z (Z.of_nat i)).
Proof.
  revert z i. induction n as [|n IH]; intros z i Hi; [lia|]. destruct i as [|i]; cbn [bits_of].
  - change (Some (Z.odd z) = Some (Z.testbit z 0)). by rewrite Z.bit0_odd.
  - change (bits_of n (Z.div2 z) !! i = Some (Z.testbit z (Z.of_nat (S i)))). rewrite IH by lia. f_equal. rewrite Z.div2_spec, Z.shiftr_spec by lia. f_equal. lia.
Qed.

Lemma bits_of_ext n x y :
  (∀ i, 0 <= i < Z.of_nat n → Z.testbit x i = Z.testbit y i) → bits_of n x = bits_of n y.
Proof.
  intros H. apply list_eq. intros i. destruct (decide (i < n)%nat) as [Hi|Hi].
  - rewrite !bits_of_lookup by done. f_equal. apply H. lia.
  - rewrite !lookup_ge_None_2; rewrite ?length_bits_of; [done|lia..].
Qed.

Lemma bits_of_app n m z : bits_of (n + m) z = bits_of n z ++ bits_of m (Z.shiftr z (Z.of_nat n)).
Proof.
  revert z. induction n as [|n IH]; intros z; simpl.
  - by rewrite Z.shiftr_0_r.
  - rewrite IH. do 2 f_equal. rewrite Z.div2_spec, Z.shiftr_shiftr by lia. do 2 f_equal. lia.
Qed.

Lemma value_range l : 0 <= value l < 2 ^ Z.of_nat (length l).
Proof.
  induction l as [|b l IH]; cbn [value length]; [lia|].
  rewrite Nat2Z.inj_succ, Z.pow_succ_r by lia. destruct b; cbn; lia.
Qed.

Lemma value_below l n : (length l <= n)%nat → 0 <= value l < 2 ^ Z.of_nat n.
Proof.
  intros Hn. pose proof (value_range l) as [H1 H2]. split; [done|]. eapply Z.lt_le_trans; [exact H2|].
  apply Z.pow_le_mono_r; lia.
Qed.

Lemma bits_value_app l k : value (l ++ k) = value l + 2 ^ Z.of_nat (length l) * value k.
Proof.
  induction l as [|b l IH]; cbn [value length app]; [lia|].
  rewrite Nat2Z.inj_succ, Z.pow_succ_r, IH by lia. lia.
Qed.

Lemma value_bits n z : value (bits_of n z) = z mod 2 ^ Z.of_nat n.
Proof.
  revert z. induction n as [|n IH]; intros z; cbn [value bits_of].
  - by rewrite Z.mod_1_r.
  - rewrite IH, Nat2Z.inj_succ, Z.pow_succ_r, Z.rem_mul_r by lia.
    rewrite Z.div2_div, Zmod_odd. by destruct (Z.odd z).
Qed.

Lemma testbit_value l i : Z.testbit (value l) (Z.of_nat i) = default false (l !! i).
Proof.
  revert i. induction l as [|b l IH]; intros i; cbn [value]; [by rewrite Z.testbit_0_l|].
  rewrite Z.add_comm. destruct i as [|i].
  - rewrite Z.testbit_0_r. done.
  - rewrite Nat2Z.inj_succ, Z.testbit_succ_r by lia. apply IH.
Qed.

Lemma bits_of_value l : bits_of (length l) (value l) = l.
Proof.
  apply list_eq. intros i. destruct (decide (i < length l)%nat) as [Hi|Hi].
  - rewrite bits_of_lookup, testbit_value by done. by destruct (lookup_lt_is_Some_2 _ _ Hi) as [b ->].
  - rewrite !lookup_ge_None_2; rewrite ?length_bits_of; [done|lia..].
Qed.

Lemma value_inj l k : length l = length k → value l = value k → l = k.
Proof. intros Hl Hv. rewrite <- (bits_of_value l), <- (bits_of_value k). congruence. Qed.

Lemma value_take n l : value (take n l) = value l mod 2 ^ Z.of_nat n.
Proof.
  destruct (decide (n <= length l)%nat) as [Hn|Hn].
  - rewrite <- (take_drop n l) at 2. rewrite bits_value_app, length_take, Nat.min_l by done.
    rewrite (Z.mul_comm (2 ^ _)), Z_mod_plus_full, Z.mod_small; [done|].
    pose proof (value_range (take n l)) as H. by rewrite length_take, Nat.min_l in H.
  - rewrite take_ge by lia. symmetry. apply Z.mod_small, value_below. lia.
Qed.

Lemma value_drop n l : value (drop n l) = value l / 2 ^ Z.of_nat n.
Proof.
  destruct (decide (n <= length l)%nat) as [Hn|Hn].
  - rewrite <- (take_drop n l) at 2. rewrite bits_value_app, length_take, Nat.min_l by done.
    rewrite (Z.mul_comm (2 ^ _)), Z.div_add by lia. rewrite Z.div_small; [lia|].
    pose proof (value_range (take n l)) as H. by rewrite length_take, Nat.min_l in H.
  - rewrite drop_ge by lia. symmetry. apply Z.div_small, value_below. lia.
Qed.

(** ** Runs that end *)

(** The operation ends, with a result and a state in [Q]. *)
Definition runs {A} (m : G A) (s : gz) (Q : A → gz → Prop) : Prop :=
  match m s with Done a s' => Q a s' | _ => False end.

Lemma runs_ret {A} (a : A) s (Q : A → gz → Prop) : Q a s → runs (mret a) s Q.
Proof. done. Qed.

Lemma runs_bind {A B} (m : G A) (f : A → G B) s (Q : B → gz → Prop) :
  runs m s (λ a s', runs (f a) s' Q) → runs (m ≫= f) s Q.
Proof. unfold runs, mbind, G_mbind. by destruct (m s). Qed.

Lemma runs_mono {A} (m : G A) s (P Q : A → gz → Prop) :
  runs m s P → (∀ a s', P a s' → Q a s') → runs m s Q.
Proof. unfold runs. destruct (m s); eauto. Qed.

Lemma runs_get {A} (f : gz → A) s (Q : A → gz → Prop) : Q (f s) s → runs (get f) s Q.
Proof. done. Qed.

Lemma runs_put (f : gz → gz) s (Q : unit → gz → Prop) : Q tt (f s) → runs (put f) s Q.
Proof. done. Qed.

Lemma runs_rd {A} (l : list A) i x s (Q : A → gz → Prop) :
  0 <= i → l !! Z.to_nat i = Some x → Q x s → runs (rd l i) s Q.
Proof. intros Hi Hx HQ. unfold runs, rd. destruct (Z.ltb_spec i 0); [lia|]. by rewrite Hx. Qed.

Lemma runs_rdo l i x s (Q : Z → gz → Prop) :
  0 <= i → l !! Z.to_nat i = Some (Some x) → Q x s → runs (rdo l i) s Q.
Proof. intros Hi Hx HQ. unfold rdo. apply runs_bind. by eapply runs_rd. Qed.

Lemma runs_wr {A} (l : list A) i x s (Q : list A → gz → Prop) :
  0 <= i < Z.of_nat (length l) → Q (<[Z.to_nat i:=x]> l) s → runs (wr l i x) s Q.
Proof.
  intros Hi HQ. unfold runs, wr. destruct (Z.leb_spec 0 i), (Z.ltb_spec i (Z.of_nat (length l))); try lia. done.
Qed.

Lemma runs_load a t s (Q : huft → gz → Prop) : heap s !! a = Some t → Q t s → runs (load a) s Q.
Proof. intros H HQ. unfold runs, load. by rewrite H. Qed.

(** What a run that ends means. *)
Lemma runs_done {A} (m : G A) s (Q : A → gz → Prop) : runs m s Q → ∃ a s', m s = Done a s' ∧ Q a s'.
Proof. unfold runs. destruct (m s); naive_solver. Qed.

(** ** The stream *)

Record reads (s : gz) (bs : bits) (σ : list bool) : Prop := {
  reads_size : insize s = Z.of_nat (length (input_data s));
  reads_some : 0 < insize s;
  reads_ptr : 0 <= inptr s <= insize s;
  reads_octets : Forall byte (input_data s);
  reads_k : 0 <= snd bs <= 23;
  reads_b : 0 <= fst bs < 2 ^ snd bs;
  reads_stream : σ = bits_of (Z.to_nat (snd bs)) (fst bs) ++
                     octet_bits (drop (Z.to_nat (inptr s)) (input_data s))
}.

(** The states differ in the position in the input only. *)
Definition advanced (s s' : gz) : Prop := s' = set_inptr (inptr s') s.

Lemma advanced_refl s : advanced s s.
Proof. by destruct s. Qed.
Lemma advanced_trans s s' s'' : advanced s s' → advanced s' s'' → advanced s s''.
Proof. unfold advanced. intros H ->. rewrite H. by destruct s. Qed.
Lemma advanced_set s p : advanced s (set_inptr p s).
Proof. by destruct s. Qed.

Lemma length_octet_bits l : length (octet_bits l) = (8 * length l)%nat.
Proof.
  induction l as [|c l IH]; [done|]. change (octet_bits (c :: l)) with (bits_of 8 c ++ octet_bits l).
  rewrite length_app, IH, length_bits_of. simpl. lia.
Qed.

Lemma octet_bits_app l k : octet_bits (l ++ k) = octet_bits l ++ octet_bits k.
Proof. unfold octet_bits. apply flat_map_app. Qed.

(** How many bits are left decides what is in the buffer up to whole octets. *)
Lemma reads_length s bs σ : reads s bs σ → Z.of_nat (length σ) = snd bs + 8 * (insize s - inptr s).
Proof.
  intros [Hs Hn Hp _ Hk Hb ->]. rewrite length_app, length_bits_of, length_octet_bits, length_drop. lia.
Qed.

Lemma buffer_octet b k c :
  0 <= k → 0 <= b < 2 ^ k →
  bits_of (Z.to_nat k) b ++ bits_of 8 c = bits_of (Z.to_nat (k + 8)) (b .| Z.shiftl c k).
Proof.
  intros Hk Hb. replace (Z.to_nat (k + 8)) with (Z.to_nat k + 8)%nat by lia. rewrite bits_of_app. f_equal.
  - apply bits_of_ext. intros i Hi. rewrite Z.lor_spec, Z.shiftl_spec_low by lia. by rewrite orb_false_r.
  - apply bits_of_ext. intros i Hi. rewrite Z.shiftr_spec, Z.lor_spec, Z.shiftl_spec by lia.
    rewrite (testbit_above b k) by lia. simpl. f_equal. lia.
Qed.

Lemma shiftl_octet c k : byte c → 0 <= k <= 24 → u32 (Z.shiftl (u8 c) k) = Z.shiftl c k ∧ 0 <= Z.shiftl c k < 2 ^ (k + 8).
Proof.
  intros Hc Hk. rewrite u8_id, Z.shiftl_mul_pow2 by (done || lia). unfold byte in Hc.
  assert (0 < 2 ^ k) by lia. assert (0 <= c * 2 ^ k < 2 ^ (k + 8)).
  { rewrite Z.pow_add_r by lia. change (2 ^ 8) with 256. nia. }
  split; [|done]. apply u32_id. unfold word32. split; [lia|]. eapply Z.lt_le_trans; [apply H0|].
  apply Z.pow_le_mono_r; lia.
Qed.

Lemma get_byte_run s c :
  insize s = Z.of_nat (length (input_data s)) → 0 <= inptr s → input_data s !! Z.to_nat (inptr s) = Some c →
  get_byte s = Done c (set_inptr (inptr s + 1) s).
Proof.
  intros Hs Hp Hc. unfold get_byte. assert (inptr s < insize s).
  { apply lookup_lt_Some in Hc. lia. }
  destruct (Z.ltb_spec (inptr s) (insize s)); [|lia]. unfold mbind, G_mbind, rd.
  destruct (Z.ltb_spec (inptr s) 0); [lia|]. by rewrite Hc.
Qed.

(** One octet more in the buffer. *)
Lemma reads_octet s b k σ :
  reads s (b, k) σ → k <= 15 → k < Z.of_nat (length σ) →
  ∃ c, get_byte s = Done c (set_inptr (inptr s + 1) s) ∧
       reads (set_inptr (inptr s + 1) s) (b .| u32 (Z.shiftl (u8 c) k), k + 8) σ.
Proof.
  intros H Hk Hl. pose proof (reads_length _ _ _ H) as Hlen. destruct H as [Hs Hn Hp Ho Hk' Hb Hσ]. cbn in *.
  destruct (lookup_lt_is_Some_2 (input_data s) (Z.to_nat (inptr s))) as [c Hc]; [lia|].
  exists c. split; [apply get_byte_run; [done|lia|done]|].
  assert (byte c) as Hcb by (eapply (Forall_lookup_1 _ _ _ _ Ho Hc)).
  destruct (shiftl_octet c k) as [-> Hr]; [done|lia|].
  constructor; try done; cbn; [lia|lia| |].
  - apply lor_bound; [lia| |lia]. split; [lia|]. eapply Z.lt_le_trans; [apply Hb|].
    apply Z.pow_le_mono_r; lia.
  - rewrite <- buffer_octet, Hσ by lia. rewrite (drop_S _ _ _ Hc). cbn [octet_bits flat_map].
    rewrite <- app_assoc. do 3 f_equal. unfold octet_bits. do 2 f_equal. lia.
Qed.

Lemma needbits_runs fuel n bs σ s (Q : bits → gz → Prop) :
  reads s bs σ → n <= 16 → n <= Z.of_nat (length σ) → n <= snd bs + 8 * Z.of_nat fuel →
  (∀ bs' s', reads s' bs' σ → advanced s s' → n <= snd bs' → Q bs' s') →
  runs (needbits fuel n bs) s Q.
Proof.
  revert bs s. induction fuel as [|fuel IH]; intros [b k] s Hr Hn Hl Hf HQ; cbn [needbits snd] in *.
  { destruct (Z.ltb_spec k n); [lia|]. apply runs_ret, HQ; auto using advanced_refl. }
  destruct (Z.ltb_spec k n); [|apply runs_ret, HQ; auto using advanced_refl].
  destruct (Z.leb_spec 32 k); [lia|].
  destruct (reads_octet s b k σ Hr) as (c & Hc & Hr'); [lia..|].
  apply runs_bind. unfold runs at 1. rewrite Hc. apply IH; [done|done|done|cbn; lia|].
  intros bs' s' H1 H2 H3. apply HQ; [done| |done]. eapply advanced_trans; [apply advanced_set|done].
Qed.

Lemma NEEDBITS_runs n bs σ s (Q : bits → gz → Prop) :
  reads s bs σ → n <= 16 → n <= Z.of_nat (length σ) →
  (∀ bs' s', reads s' bs' σ → advanced s s' → n <= snd bs' → Q bs' s') →
  runs (NEEDBITS n bs) s Q.
Proof. intros Hr Hn Hl HQ. pose proof (reads_k _ _ _ Hr). apply (needbits_runs 5 n bs σ); [done..|lia|done]. Qed.

Lemma mask_value s bs σ n :
  reads s bs σ → 0 <= n <= 16 → n <= snd bs →
  mask_bits !! Z.to_nat n = Some (2 ^ n - 1) ∧ fst bs .& (2 ^ n - 1) = value (take (Z.to_nat n) σ).
Proof.
  intros [_ _ _ _ Hk Hb ->] Hn Hle. split.
  - rewrite <- (Z2Nat.id n) at 2 by lia. assert (Z.to_nat n < 17)%nat as H by lia. revert H.
    generalize (Z.to_nat n). intros m Hm. do 17 (destruct m as [|m]; [done|]). lia.
  - rewrite take_app_le by (rewrite length_bits_of; lia). rewrite value_take, value_bits.
    rewrite !Z2Nat.id by lia. rewrite (Z.mod_small (fst bs)) by lia.
    rewrite <- Z.land_ones by lia. by rewrite Z.ones_equiv.
Qed.

Lemma DUMPBITS_runs n bs σ s (Q : bits → gz → Prop) :
  reads s bs σ → 0 <= n <= snd bs →
  (∀ bs', reads s bs' (drop (Z.to_nat n) σ) → snd bs' = snd bs - n → Q bs' s) →
  runs (DUMPBITS n bs) s Q.
Proof.
  intros [Hs Hm Hp Ho Hk Hb ->] Hn HQ. unfold DUMPBITS.
  destruct (Z.ltb_spec n 0), (Z.leb_spec 32 n); try lia. apply runs_ret.
  assert (u32 (snd bs - n) = snd bs - n) as Hu by (apply u32_id; unfold word32; lia).
  apply HQ; cbn; [|done]. constructor; try done; cbn; rewrite ?Hu; [lia| |].
  - rewrite Z.shiftr_div_pow2 by lia. split; [apply Z.div_pos; lia|].
    apply Z.div_lt_upper_bound; [lia|]. rewrite <- Z.pow_add_r by lia. replace (n + (snd bs - n)) with (snd bs) by lia. lia.
  - rewrite drop_app_le by (rewrite length_bits_of; lia). f_equal.
    replace (Z.to_nat (snd bs)) with (Z.to_nat n + Z.to_nat (snd bs - n))%nat by lia.
    rewrite bits_of_app, drop_app_length' by (by rewrite length_bits_of). do 2 f_equal. lia.
Qed.

(** The next [n] bits as a number. *)
Lemma take_bits_runs n x bs σ s (Q : Z * bits → gz → Prop) :
  reads s bs (bits_of (Z.to_nat n) x ++ σ) → 0 <= n <= 16 → 0 <= x < 2 ^ n →
  (∀ bs' s', reads s' bs' σ → advanced s s' → Q (x, bs') s') →
  runs (take_bits n bs) s Q.
Proof.
  intros Hr Hn Hx HQ. unfold take_bits. apply runs_bind. eapply NEEDBITS_runs; [done|lia| |].
  { rewrite length_app, length_bits_of. lia. }
  intros bs1 s1 Hr1 Ha Hk. destruct (mask_value _ _ _ n Hr1) as [Hm Hv]; [lia..|].
  apply runs_bind. eapply runs_rd; [lia|exact Hm|]. apply runs_bind.
  eapply DUMPBITS_runs; [done|lia|]. intros bs2 Hr2 _. apply runs_ret. rewrite Hv.
  rewrite take_app_length' by (by rewrite length_bits_of). rewrite value_bits, Z2Nat.id, Z.mod_small by lia.
  apply HQ; [|done]. by rewrite drop_app_length' in Hr2 by (by rewrite length_bits_of).
Qed.

End InflateBits.
