(* ===== verification/Huft.v ===== *)
(** * The decoding tables

    [huft_build] is correct: in the tables it makes, the bits of each canonical
    code lead to the entry of its symbol ([leads]).

    A stream of at least [g] bits, [g] the longest code, is ordered by the number
    [num] of its first [g] bits, the first bit the highest.  A code of length [k]
    then is an interval of [2 ^ (g - k)] numbers, the codes follow each other
    without gaps, and a table for the streams that begin with some [w] bits is for
    an interval too.  [rev] takes such a number to the reversed pattern the source
    counts with. *)

From stdpp Require Import gmap.
From S2P Require Import Prelude Deflate Inflate InflateBits.

Module Huft.
Import Deflate Inflate InflateBits.

(** ** Reversed patterns *)

Definition rev (g z : Z) : Z := value (reverse (bits_of (Z.to_nat g) z)).
Definition num (g : Z) (σ : list bool) : Z := value (reverse (take (Z.to_nat g) σ)).

Lemma rev_range g z : 0 <= g → 0 <= rev g z < 2 ^ g.
Proof.
  intros Hg. pose proof (value_range (reverse (bits_of (Z.to_nat g) z))) as H.
  by rewrite length_reverse, length_bits_of, Z2Nat.id in H.
Qed.

Lemma rev_0 z : rev 0 z = 0.
Proof. done. Qed.

Lemma rev_double k D b : 0 <= k → rev (k + 1) (2 * D + Z.b2z b) = rev k D + 2 ^ k * Z.b2z b.
Proof.
  intros Hk. unfold rev. replace (Z.to_nat (k + 1)) with (S (Z.to_nat k)) by lia. cbn [bits_of].
  rewrite reverse_cons, bits_value_app, length_reverse, length_bits_of, Z2Nat.id by lia.
  assert (Z.div2 (2 * D + Z.b2z b) = D) as -> by (rewrite Z.div2_div; destruct b; cbn [Z.b2z];
    Z.to_euclidean_division_equations; lia).
  assert (Z.odd (2 * D + Z.b2z b) = b) as ->.
  { rewrite Z.odd_add, Z.odd_mul. by destruct b. }
  cbn [value]. lia.
Qed.

Lemma rev_mod g k x : 0 <= k <= g → rev g x mod 2 ^ k = rev k (x / 2 ^ (g - k)).
Proof.
  intros Hk. unfold rev. rewrite <- (Z2Nat.id k) at 1 by lia. rewrite <- value_take. f_equal.
  replace (Z.to_nat g) with (Z.to_nat (g - k) + Z.to_nat k)%nat by lia.
  rewrite bits_of_app, reverse_app, take_app_length' by (by rewrite length_reverse, length_bits_of).
  rewrite Z2Nat.id, Z.shiftr_div_pow2 by lia. done.
Qed.

Lemma rev_inj k x y : 0 <= k → 0 <= x < 2 ^ k → 0 <= y < 2 ^ k → rev k x = rev k y → x = y.
Proof.
  intros Hk Hx Hy H. apply value_inj in H; [|by rewrite !length_reverse, !length_bits_of].
  apply (f_equal reverse) in H. rewrite !reverse_involutive in H. apply (f_equal value) in H.
  rewrite !value_bits, !Z2Nat.id, !Z.mod_small in H by lia. done.
Qed.

(** A pattern has as many bits as its code. *)
Lemma rev_mult g k q : 0 <= k <= g → rev g (q * 2 ^ (g - k)) = rev k q.
Proof.
  intros Hk. assert (0 <= g - k) as Hd by lia. replace g with (k + (g - k)) at 1 by lia.
  revert Hd. generalize (g - k). clear Hk. intros d Hd. revert q. pattern d. apply natlike_ind; [..|done].
  - intros q. rewrite Z.add_0_r, Z.mul_1_r. done.
  - intros e He IH q. replace (k + Z.succ e) with (k + e + 1) by lia. rewrite Z.pow_succ_r by done.
    destruct (decide (0 <= k + e)) as [Hke|Hke].
    + replace (q * (2 * 2 ^ e)) with (2 * (q * 2 ^ e) + Z.b2z false) by (cbn; lia).
      rewrite rev_double, IH by done. cbn. lia.
    + unfold rev. by replace (Z.to_nat (k + e + 1)) with O by lia; replace (Z.to_nat k) with O by lia.
Qed.

Lemma same_prefix g k x y :
  0 <= k <= g → 0 <= x < 2 ^ g → 0 <= y < 2 ^ g →
  rev g x mod 2 ^ k = rev g y mod 2 ^ k ↔ x / 2 ^ (g - k) = y / 2 ^ (g - k).
Proof.
  intros Hk Hx Hy. rewrite !rev_mod by done. split; [|by intros ->]. apply rev_inj; [lia|..].
  all: split; [apply Z.div_pos; lia|]; apply Z.div_lt_upper_bound; [lia|].
  all: rewrite <- Z.pow_add_r by lia; replace (g - k + k) with g by lia; lia.
Qed.

Lemma interval d P x : 0 <= d → (2 ^ d | P) → x / 2 ^ d = P / 2 ^ d ↔ P <= x < P + 2 ^ d.
Proof.
  intros Hd [q ->]. assert (0 < 2 ^ d) by lia. rewrite Z.div_mul by lia.
  generalize dependent (2 ^ d). intros D HD. split; [intros <-|]; Z.to_euclidean_division_equations; nia.
Qed.

Lemma rev_prefix g k P : 0 <= k <= g → (2 ^ (g - k) | P) → 0 <= rev g P < 2 ^ k.
Proof. intros Hk [q ->]. rewrite rev_mult by done. apply rev_range. lia. Qed.

Lemma num_range g σ : 0 <= g → 0 <= num g σ < 2 ^ g.
Proof.
  intros Hg. unfold num. rewrite <- (Z2Nat.id g) at 3 by done. apply value_below.
  rewrite length_reverse, length_take. lia.
Qed.

Lemma value_num g σ k :
  0 <= k <= g → g <= Z.of_nat (length σ) → value (take (Z.to_nat k) σ) = rev g (num g σ) mod 2 ^ k.
Proof.
  intros Hk Hl. unfold rev, num.
  replace (Z.to_nat g) with (length (reverse (take (Z.to_nat g) σ))) at 1
    by (rewrite length_reverse, length_take; lia).
  rewrite bits_of_value, reverse_involutive. rewrite <- (Z2Nat.id k) at 2 by lia.
  rewrite <- value_take. f_equal. rewrite take_take. f_equal. lia.
Qed.

(** The streams that begin with a code are an interval. *)
Lemma prefix_interval g k P σ :
  0 <= k <= g → g <= Z.of_nat (length σ) → 0 <= P < 2 ^ g → (2 ^ (g - k) | P) →
  value (take (Z.to_nat k) σ) = rev g P ↔ P <= num g σ < P + 2 ^ (g - k).
Proof.
  intros Hk Hl HP Hd. rewrite (value_num g) by done.
  rewrite <- (Z.mod_small (rev g P) (2 ^ k)) by (by apply rev_prefix).
  rewrite same_prefix by (done || apply num_range; lia). apply interval; [lia|done].
Qed.

(** Any number is that of a stream. *)
Definition stream_of (g P : Z) : list bool := reverse (bits_of (Z.to_nat g) P).

Lemma num_stream_of g P : 0 <= g → 0 <= P < 2 ^ g → num g (stream_of g P) = P ∧ g <= Z.of_nat (length (stream_of g P)).
Proof.
  intros Hg HP. unfold num, stream_of. rewrite length_reverse, length_bits_of. split; [|lia].
  rewrite take_ge by (rewrite length_reverse, length_bits_of; lia).
  by rewrite reverse_involutive, value_bits, Z2Nat.id, Z.mod_small.
Qed.

(** Counting backwards. *)
Lemma back_increment_rev k C fuel :
  0 <= k → (Z.to_nat k < fuel)%nat →
  back_increment fuel (rev k C) (2 ^ k / 2) = rev k (C + 1).
Proof.
  intros Hk. revert C fuel. pattern k. apply natlike_ind; [..|done]; clear k Hk.
  - intros C fuel Hf. destruct fuel as [|fuel]; [lia|]. done.
  - intros k Hk IH C fuel Hf. destruct fuel as [|fuel]; [lia|]. cbn [back_increment].
    rewrite Z.pow_succ_r by done. rewrite (Z.mul_comm 2), Z.div_mul by lia.
    destruct (Z.odd C) eqn:Hodd.
    all: rewrite (Z.div2_odd C), Hodd; rewrite <- Z.add_1_r, !rev_double by done; cbn [Z.b2z].
    all: pose proof (rev_range k (Z.div2 C) Hk) as Hr.
    + assert ((rev k (Z.div2 C) + 2 ^ k * 1) = rev k (Z.div2 C) .^ 2 ^ k) as ->.
      { rewrite Z.mul_1_r. apply Z.add_nocarry_lxor. apply Z.bits_inj'. intros n Hn.
        rewrite Z.land_spec, Z.bits_0, Z.pow2_bits_eqb by done. destruct (Z.eqb_spec k n); [|by rewrite andb_false_r].
        subst. by rewrite (testbit_above _ n). }
      assert (truthy ((rev k (Z.div2 C) .^ 2 ^ k) .& 2 ^ k) = true) as ->.
      { unfold truthy. apply negb_true_iff, Z.eqb_neq. intros H. apply (f_equal (λ x, Z.testbit x k)) in H.
        rewrite Z.land_spec, Z.lxor_spec, Z.bits_0, Z.pow2_bits_true, (testbit_above _ k) in H by lia. done. }
      rewrite Z.lxor_assoc, Z.lxor_nilpotent, Z.lxor_0_r.
      rewrite Z.shiftr_div_pow2 by lia. change (2 ^ 1) with 2. rewrite IH by lia.
      replace (2 * Z.div2 C + 1 + 1) with (2 * (Z.div2 C + 1) + Z.b2z false) by (cbn; lia).
      rewrite rev_double by done. cbn. lia.
    + rewrite Z.mul_0_r, !Z.add_0_r.
      assert (rev k (Z.div2 C) .& 2 ^ k = 0) as Hz.
      { apply Z.bits_inj'. intros n Hn.
        rewrite Z.land_spec, Z.bits_0, Z.pow2_bits_eqb by done. destruct (Z.eqb_spec k n); [|by rewrite andb_false_r].
        subst. by rewrite (testbit_above _ n). }
      rewrite Hz. cbn [truthy Z.eqb negb].
      rewrite <- Z.add_nocarry_lxor by done.
      change (2 * Z.div2 C + 1) with (2 * Z.div2 C + Z.b2z true). rewrite rev_double by done. cbn. lia.
Qed.

(** ** Following the bits *)

(** From the table at [t] for [nb] bits, the stream leads through at most [n] links
    to the entry [r], by its first [k] bits. *)
Inductive leads (hp : gmap Z huft) (l : Z) : nat → Z → Z → list bool → Z → huft → Prop :=
  | leads_here n t nb σ r :
      nb <= Z.of_nat (length σ) → hp !! (t + 8 * value (take (Z.to_nat nb) σ)) = Some r →
      1 <= huft_b r <= nb → leads hp l n t nb σ (huft_b r) r
  | leads_down n t nb σ t' nb' k r :
      nb <= Z.of_nat (length σ) →
      hp !! (t + 8 * value (take (Z.to_nat nb) σ)) = Some (mkHuft (16 + nb') l (VT t')) →
      0 <= l <= nb → 1 <= nb' <= 16 → leads hp l n t' nb' (drop (Z.to_nat l) σ) k r →
      leads hp l (S n) t nb σ (l + k) r.

(** ** Codes as intervals *)

(** A table: the address of its first entry, the bits decoded before it and by it,
    the first stream it is for, and its number of entries. *)
Record tab := mkTab { ta : Z; tw : Z; tJ : Z; tT : Z; tsz : Z }.

Section tables.
(** The bits of a table, the longest code, and the number of codes of each length,
    with those that fill up the patterns. *)
Context (l g : Z) (c : list Z).

Definition cnt (k : Z) : Z := nth (Z.to_nat k) c 0.

(** The patterns of [g] bits that the codes of up to [n] bits take. *)
Fixpoint taken (n : nat) : Z :=
  match n with
  | O => 0
  | S n' => taken n' + cnt (Z.of_nat n) * 2 ^ (g - Z.of_nat n)
  end.
Definition kr (k : Z) : Z := taken (Z.to_nat k).

(** Where the code number [m] of length [k] begins. *)
Definition pos (k m : Z) : Z := kr (k - 1) + m * 2 ^ (g - k).

Record full : Prop := {
  full_l : 1 <= l <= g;
  full_g : g <= 16;
  full_c : length c = 17%nat;
  full_cnt : ∀ k, 0 <= cnt k;
  full_max : 1 <= cnt g;
  full_all : kr g = 2 ^ g
}.

Context (F : full).

Lemma kr_step k : 1 <= k → kr k = kr (k - 1) + cnt k * 2 ^ (g - k).
Proof.
  intros Hk. unfold kr. replace (Z.to_nat k) with (S (Z.to_nat (k - 1))) at 1 by lia.
  cbn [taken]. replace (Z.of_nat (S (Z.to_nat (k - 1)))) with k by lia. done.
Qed.

Lemma taken_mono n m : (n <= m)%nat → taken n <= taken m.
Proof.
  induction 1 as [|m _ IH]; [lia|]. cbn [taken]. pose proof (full_cnt F (Z.of_nat (S m))).
  assert (0 <= 2 ^ (g - Z.of_nat (S m))) by (apply Z.pow_nonneg; lia). nia.
Qed.

Lemma kr_mono a b : a <= b → kr a <= kr b.
Proof. intros H. apply taken_mono. lia. Qed.

Lemma kr_nonneg k : 0 <= kr k.
Proof. unfold kr. etrans; [|apply (taken_mono 0); lia]. done. Qed.

Lemma kr_max k : k < g → kr k < 2 ^ g.
Proof.
  intros Hk. pose proof (full_l F). pose proof (kr_mono k (g - 1)). pose proof (kr_step g). pose proof (full_max F).
  pose proof (full_all F). rewrite Z.sub_diag, Z.pow_0_r in *. lia.
Qed.

Lemma pow_divide a b : 0 <= a <= b → (2 ^ a | 2 ^ b).
Proof. intros H. exists (2 ^ (b - a)). rewrite <- Z.pow_add_r by lia. f_equal. lia. Qed.

Lemma kr_divide k : k <= g → (2 ^ (g - k) | kr k).
Proof.
  intros Hk. unfold kr. assert (∀ n, (n <= Z.to_nat k)%nat → (2 ^ (g - k) | taken n)) as H; [|by apply H].
  induction n as [|n IH]; intros Hn; [apply Z.divide_0_r|]. cbn [taken]. apply Z.divide_add_r; [apply IH; lia|].
  apply Z.divide_mul_r, pow_divide. lia.
Qed.

Lemma pos_divide k m : 1 <= k <= g → (2 ^ (g - k) | pos k m).
Proof.
  intros Hk. apply Z.divide_add_r; [|apply Z.divide_factor_r].
  eapply Z.divide_trans; [|apply kr_divide; lia]. apply pow_divide. lia.
Qed.

(** A code, and its last pattern. *)
Definition is_code (k m : Z) : Prop := 1 <= k <= g ∧ 0 <= m < cnt k.

Lemma pos_range k m : is_code k m → 0 <= pos k m ∧ pos k m + 2 ^ (g - k) <= kr k ∧ kr k <= 2 ^ g.
Proof.
  intros [Hk Hm]. unfold pos. pose proof (kr_step k). pose proof (kr_nonneg (k - 1)).
  pose proof (kr_mono k g). rewrite (full_all F) in *. assert (0 < 2 ^ (g - k)) by lia. nia.
Qed.

(** ** The index of a stream in a table *)

Definition idx (τ : tab) (σ : list bool) : Z :=
  value (take (Z.to_nat (tJ τ)) (drop (Z.to_nat (tw τ)) σ)).
Definition contains (τ : tab) (P : Z) : Prop := tT τ <= P < tT τ + 2 ^ (g - tw τ).

Record tab_ok (τ : tab) : Prop := {
  ok_level : ∃ h, 0 <= h ∧ tw τ = l * h;
  ok_bits : 1 <= tJ τ <= l;
  ok_g : tw τ + tJ τ <= g;
  ok_size : 2 ^ tJ τ <= tsz τ;
  ok_first : (2 ^ (g - tw τ) | tT τ) ∧ 0 <= tT τ ∧ tT τ + 2 ^ (g - tw τ) <= 2 ^ g;
  ok_full : tJ τ = l ∨ tT τ + 2 ^ (g - tw τ) <= kr (tw τ + tJ τ)
}.

Lemma ok_w τ : tab_ok τ → 0 <= tw τ < g.
Proof.
  intros []. destruct ok_level0 as (h & ? & Hh). pose proof (full_l F).
  assert (0 <= l * h) by (apply Z.mul_nonneg_nonneg; lia). lia.
Qed.

Lemma idx_range τ σ : tab_ok τ → 0 <= idx τ σ < 2 ^ tJ τ.
Proof.
  intros []. unfold idx. rewrite <- (Z2Nat.id (tJ τ)) at 3 by lia. apply value_below. rewrite length_take. lia.
Qed.

Lemma value_idx τ σ k :
  tab_ok τ → contains τ (num g σ) → g <= Z.of_nat (length σ) → tw τ <= k <= tw τ + tJ τ →
  value (take (Z.to_nat k) σ) = rev g (tT τ) + 2 ^ tw τ * (idx τ σ mod 2 ^ (k - tw τ)).
Proof.
  intros Hok Hc Hl Hk. pose proof (ok_w _ Hok). destruct Hok.
  replace (Z.to_nat k) with (Z.to_nat (tw τ) + Z.to_nat (k - tw τ))%nat by lia.
  rewrite <- (take_drop (Z.to_nat (tw τ)) σ) at 1.
  rewrite take_app_add' by (rewrite length_take; lia).
  rewrite bits_value_app, length_take, Nat.min_l, Z2Nat.id by lia. f_equal; [|f_equal].
  - apply prefix_interval; [lia|lia| |apply ok_first0|done]. assert (0 < 2 ^ (g - tw τ)) by lia. lia.
  - unfold idx. rewrite <- (Z2Nat.id (k - tw τ)) at 2 by lia. rewrite <- value_take, take_take. do 2 f_equal. lia.
Qed.

Lemma rev_split τ P :
  tab_ok τ → contains τ P → rev g P = rev g (tT τ) + 2 ^ tw τ * Z.shiftr (rev g P) (tw τ).
Proof.
  intros Hok Hc. pose proof (ok_w _ Hok). destruct Hok. destruct ok_first0 as (Hd & H0 & H1).
  assert (0 < 2 ^ (g - tw τ)) by lia. unfold contains in Hc.
  assert (rev g (tT τ) = rev g P mod 2 ^ tw τ) as ->.
  { rewrite <- (Z.mod_small (rev g (tT τ)) (2 ^ tw τ)) by (apply rev_prefix; [lia|done]).
    apply same_prefix; [lia..|]. symmetry. apply interval; [lia|done..]. }
  rewrite Z.shiftr_div_pow2 by lia. rewrite (Z_div_mod_eq_full (rev g P) (2 ^ tw τ)) at 1. lia.
Qed.

(** The entries of the streams that begin with a code. *)
Lemma idx_code τ σ k P :
  tab_ok τ → contains τ (num g σ) → contains τ P → g <= Z.of_nat (length σ) → tw τ <= k <= tw τ + tJ τ →
  (2 ^ (g - k) | P) →
  idx τ σ mod 2 ^ (k - tw τ) = Z.shiftr (rev g P) (tw τ) ↔ P <= num g σ < P + 2 ^ (g - k).
Proof.
  intros Hok Hσ HP Hl Hk Hd. pose proof (ok_w _ Hok). destruct (ok_first _ Hok) as (_ & H0 & H1).
  unfold contains in HP. pose proof (ok_g _ Hok).
  rewrite <- (prefix_interval g k P) by (done || lia).
  rewrite (value_idx τ) by done. pose proof (rev_split τ P Hok HP) as E.
  set (y := Z.shiftr _ _) in *. rewrite E. assert (0 < 2 ^ tw τ) by lia. split; [intros ->; done|nia].
Qed.

Lemma idx_child τ σ P :
  tab_ok τ → tJ τ = l → contains τ (num g σ) → contains τ P → g <= Z.of_nat (length σ) →
  (2 ^ (g - (tw τ + l)) | P) →
  idx τ σ = Z.shiftr (rev g P) (tw τ) ↔ P <= num g σ < P + 2 ^ (g - (tw τ + l)).
Proof.
  intros Hok HJ Hσ HP Hl Hd. pose proof (full_l F). rewrite <- (idx_code τ σ (tw τ + l) P) by (done || lia).
  replace (tw τ + l - tw τ) with l by lia. pose proof (idx_range τ σ Hok) as Hi. rewrite HJ in Hi.
  by rewrite Z.mod_small.
Qed.

(** ** The tables in memory *)

(** [E k m r]: [r] is an entry for the code number [m] of length [k]. *)
Context (E : Z → Z → huft → Prop).

Record lay (lo hi : Z) (tabs : list tab) : Prop := {
  lay_in : ∀ τ, τ ∈ tabs → lo <= ta τ - 8 ∧ ta τ + 8 * tsz τ <= hi;
  lay_apart : ∀ τ τ', τ ∈ tabs → τ' ∈ tabs →
    τ = τ' ∨ ta τ + 8 * tsz τ <= ta τ' - 8 ∨ ta τ' + 8 * tsz τ' <= ta τ - 8
}.

(** The codes that end at or before [P] have their entries. *)
Definition paths (hp : gmap Z huft) (tabs : list tab) (P : Z) : Prop :=
  ∀ k m σ, is_code k m → pos k m + 2 ^ (g - k) <= P → g <= Z.of_nat (length σ) →
    pos k m <= num g σ < pos k m + 2 ^ (g - k) →
    ∃ τ r, τ ∈ tabs ∧ contains τ (num g σ) ∧ tw τ < k <= tw τ + tJ τ ∧
      hp !! (ta τ + 8 * idx τ σ) = Some r ∧ E k m r ∧ huft_b r = k - tw τ.

(** Every table but the first has an entry in the table above it. *)
Definition child_of (hp : gmap Z huft) (τp τ : tab) : Prop :=
  tw τ = tw τp + l ∧ tJ τp = l ∧ contains τp (tT τ) ∧
  hp !! (ta τp + 8 * Z.shiftr (rev g (tT τ)) (tw τp)) = Some (mkHuft (16 + tJ τ) l (VT (ta τ))).
Definition links (hp : gmap Z huft) (tabs : list tab) : Prop :=
  ∀ τ, τ ∈ tabs → tw τ = 0 ∨ ∃ τp, τp ∈ tabs ∧ child_of hp τp τ.

(** The list that [huft_free] goes through. *)
Fixpoint chain (hp : gmap Z huft) (tabs : list tab) : Prop :=
  match tabs with
  | [] => True
  | τ :: tabs => (∃ x, hp !! (ta τ - 8) = Some x ∧
                       huft_v x = VT (match tabs with [] => 0 | τ' :: _ => ta τ' end)) ∧ chain hp tabs
  end.

Lemma ok_in tabs τ : Forall tab_ok tabs → τ ∈ tabs → tab_ok τ.
Proof. intros H. induction H; [set_solver|]. intros [->|]%elem_of_cons; auto. Qed.

Lemma addr_inj lo hi tabs τ τ' j j' :
  lay lo hi tabs → τ ∈ tabs → τ' ∈ tabs → 0 <= j < tsz τ → 0 <= j' < tsz τ' →
  ta τ + 8 * j = ta τ' + 8 * j' → τ = τ' ∧ j = j'.
Proof.
  intros HL Hτ Hτ' Hj Hj' H. destruct (lay_apart _ _ _ HL τ τ' Hτ Hτ') as [->|[?|?]]; [|lia..].
  split; [done|lia].
Qed.

Lemma link_index τp τ :
  tab_ok τp → tab_ok τ → tw τ = tw τp + l → tJ τp = l → 0 <= Z.shiftr (rev g (tT τ)) (tw τp) < 2 ^ l.
Proof.
  intros Hp Hok Hw HJ. pose proof (ok_w _ Hok). pose proof (ok_w _ Hp). destruct (ok_first _ Hok) as (Hd & _ & _).
  assert (0 <= rev g (tT τ) < 2 ^ tw τ) as Hr by (apply rev_prefix; [lia|done]).
  rewrite Z.shiftr_div_pow2 by lia. pose proof (full_l F).
  split; [apply Z.div_pos; lia|]. apply Z.div_lt_upper_bound; [lia|].
  rewrite <- Z.pow_add_r by lia. rewrite <- Hw. apply Hr.
Qed.

Lemma idx_size τ σ : tab_ok τ → 0 <= idx τ σ < tsz τ.
Proof. intros Hok. pose proof (idx_range τ σ Hok). pose proof (ok_size _ Hok). lia. Qed.

Lemma link_size τp τ :
  tab_ok τp → tab_ok τ → tw τ = tw τp + l → tJ τp = l → 0 <= Z.shiftr (rev g (tT τ)) (tw τp) < tsz τp.
Proof.
  intros Hp Hok Hw HJ. pose proof (link_index _ _ Hp Hok Hw HJ). pose proof (ok_size _ Hp). rewrite HJ in *. lia.
Qed.

(** Entries [W] of a table written where no code before [P] has one. *)
Section update.
Context (hp hp' : gmap Z huft) (lo hi : Z) (tabs : list tab) (P : Z) (τ0 : tab) (W : Z → Prop).
Context (Hok : Forall tab_ok tabs) (HL : lay lo hi tabs) (Hτ0 : τ0 ∈ tabs).
Context (HW : ∀ j, W j → 0 <= j < tsz τ0).
Context (Hhp : ∀ a, (∀ j, W j → a ≠ ta τ0 + 8 * j) → hp' !! a = hp !! a).
Context (Hn : ∀ σ, g <= Z.of_nat (length σ) → contains τ0 (num g σ) → num g σ < P → ¬ W (idx τ0 σ)).

Lemma paths_update : paths hp tabs P → paths hp' tabs P.
Proof.
  intros H k m σ Hc HP Hl Hσ. destruct (H k m σ Hc HP Hl Hσ) as (τ & r' & Hτ & Hin & Hk & Hr & HE & Hb).
  exists τ, r'. repeat split; try done; try apply Hin; try apply Hk.
  rewrite Hhp; [done|]. intros j Hj Ha. assert (tab_ok τ) as Hokτ by (by eapply ok_in).
  destruct (addr_inj _ _ _ τ τ0 (idx τ σ) j HL Hτ Hτ0 (idx_size _ _ Hokτ) (HW _ Hj) Ha) as [-> <-].
  apply (Hn σ); [done|done|lia|done].
Qed.

Lemma links_update : (∀ τ, τ ∈ tabs → tw τ = tw τ0 + l → tT τ < P) → links hp tabs → links hp' tabs.
Proof.
  intros Hch H τ Hτ. destruct (H τ Hτ) as [?|(τp & Hτp & Hw & HJ & Hin & Hr)]; [by left|right].
  exists τp. split; [done|]. split_and!; [done..|]. rewrite Hhp; [done|]. intros j Hj Ha.
  assert (tab_ok τp) as Hokp by (by eapply ok_in).
  assert (tab_ok τ) as Hokτ by (by eapply ok_in).
  destruct (addr_inj _ _ _ τp τ0 _ j HL Hτp Hτ0 (link_size _ _ Hokp Hokτ Hw HJ) (HW _ Hj) Ha) as [-> Hidx].
  destruct (ok_first _ Hokτ) as (Hd & H0 & H1). pose proof (ok_w _ Hokτ).
  assert (0 < 2 ^ (g - tw τ)) by lia.
  destruct (num_stream_of g (tT τ)) as [Hnum Hlen]; [lia..|].
  apply (Hn (stream_of g (tT τ))); rewrite ?Hnum; [done|done|auto|].
  assert (idx τ0 (stream_of g (tT τ)) = j) as ->; [|done]. rewrite <- Hidx.
  apply idx_child; rewrite ?Hnum, <- ?Hw; try done. lia.
Qed.

End update.

Lemma paths_store hp lo hi tabs P τ0 j r :
  Forall tab_ok tabs → lay lo hi tabs → τ0 ∈ tabs → 0 <= j < tsz τ0 →
  (∀ σ, g <= Z.of_nat (length σ) → contains τ0 (num g σ) → num g σ < P → idx τ0 σ ≠ j) →
  paths hp tabs P → paths (<[ta τ0 + 8 * j:=r]> hp) tabs P.
Proof.
  intros Hok HL Hτ0 Hj Hn. eapply (paths_update _ _ _ _ _ _ τ0 (λ i, i = j)); try done; [by intros ? ->|].
  intros a Ha. apply lookup_insert_ne. specialize (Ha j eq_refl). done.
Qed.

Lemma links_store hp lo hi tabs P τ0 j r :
  Forall tab_ok tabs → lay lo hi tabs → τ0 ∈ tabs → 0 <= j < tsz τ0 →
  (∀ σ, g <= Z.of_nat (length σ) → contains τ0 (num g σ) → num g σ < P → idx τ0 σ ≠ j) →
  (∀ τ, τ ∈ tabs → tw τ = tw τ0 + l → tT τ < P) →
  links hp tabs → links (<[ta τ0 + 8 * j:=r]> hp) tabs.
Proof.
  intros Hok HL Hτ0 Hj Hn. eapply (links_update _ _ _ _ _ _ τ0 (λ i, i = j)); try done; [by intros ? ->|].
  intros a Ha. apply lookup_insert_ne. specialize (Ha j eq_refl). done.
Qed.

(** Other cells. *)
Lemma paths_ext hp hp' tabs P :
  Forall tab_ok tabs → (∀ τ j, τ ∈ tabs → 0 <= j < tsz τ → hp' !! (ta τ + 8 * j) = hp !! (ta τ + 8 * j)) →
  paths hp tabs P → paths hp' tabs P.
Proof.
  intros Hok He H k m σ Hc HP Hl Hσ. destruct (H k m σ Hc HP Hl Hσ) as (τ & r' & Hτ & Hin & Hk & Hr & HE & Hb).
  exists τ, r'. repeat split; try done; try apply Hin; try apply Hk. rewrite He; [done..|].
  apply idx_size. by eapply ok_in.
Qed.

Lemma links_ext hp hp' tabs :
  Forall tab_ok tabs → (∀ τ j, τ ∈ tabs → 0 <= j < tsz τ → hp' !! (ta τ + 8 * j) = hp !! (ta τ + 8 * j)) →
  links hp tabs → links hp' tabs.
Proof.
  intros Hok He H τ Hτ. destruct (H τ Hτ) as [?|(τp & Hτp & Hw & HJ & Hin & Hr)]; [by left|right].
  exists τp. split; [done|]. split_and!; [done..|]. rewrite He; [done..|].
  apply link_size; [by eapply ok_in..|done|done].
Qed.

Lemma chain_ext hp hp' tabs :
  (∀ τ, τ ∈ tabs → hp' !! (ta τ - 8) = hp !! (ta τ - 8)) → chain hp tabs → chain hp' tabs.
Proof.
  induction tabs as [|τ tabs IH]; intros He H; [done|]. destruct H as [Hx Hc]. split.
  - by rewrite He by set_solver.
  - apply IH; [|done]. intros τ' Hτ'. apply He. set_solver.
Qed.

Lemma paths_more hp tabs P τ : paths hp tabs P → paths hp (tabs ++ [τ]) P.
Proof.
  intros H k m σ Hc HP Hl Hσ. destruct (H k m σ Hc HP Hl Hσ) as (τ' & r' & Hτ & Hr).
  exists τ', r'. split; [set_solver|done].
Qed.

Lemma links_more hp tabs τ :
  links hp tabs → (tw τ = 0 ∨ ∃ τp, τp ∈ tabs ∧ child_of hp τp τ) → links hp (tabs ++ [τ]).
Proof.
  intros H Hτ τ' [Hin|Hin]%elem_of_app.
  - destruct (H τ' Hin) as [?|(τp & ? & ?)]; [by left|right]. exists τp. split; [set_solver|done].
  - apply list_elem_of_singleton in Hin as ->. destruct Hτ as [?|(τp & ? & ?)]; [by left|right].
    exists τp. split; [set_solver|done].
Qed.

(** ** The size of a table *)

Lemma full_pattern P w : 0 <= w <= g → (2 ^ (g - w) | P) → P < 2 ^ g → P + 2 ^ (g - w) <= 2 ^ g.
Proof.
  intros Hw [q ->] HP. assert (2 ^ g = 2 ^ w * 2 ^ (g - w)) as Hp.
  { rewrite <- Z.pow_add_r by lia. f_equal. lia. }
  assert (0 < 2 ^ (g - w)) by lia. rewrite Hp in *. assert (q < 2 ^ w) by nia. nia.
Qed.

Lemma c_lookup k : 0 <= k <= 16 → c !! Z.to_nat k = Some (cnt k).
Proof.
  intros Hk. unfold cnt. destruct (lookup_lt_is_Some_2 c (Z.to_nat k)) as [x Hx]; [rewrite (full_c F); lia|].
  by rewrite Hx, (nth_lookup_Some _ _ _ _ Hx).
Qed.

Lemma grow_runs fuel f j z w P s (Q : Z → gz → Prop) :
  0 <= w → 0 <= j < z → w + z <= g → z - j <= Z.of_nat fuel → 0 < f <= 2 ^ j →
  f * 2 ^ (g - (w + j)) = P + 2 ^ (g - w) - kr (w + j) →
  (∀ j', j < j' <= z → j' = z ∨ P + 2 ^ (g - w) <= kr (w + j') → Q j' s) →
  runs (grow c fuel f j z (w + j)) s Q.
Proof.
  revert f j. induction fuel as [|fuel IH]; intros f j Hw Hj Hz Hfu Hf Hinv HQ; [lia|]. cbn [grow].
  destruct (Z.ltb_spec (j + 1) z); [|apply runs_ret, HQ; [lia|left; lia]].
  pose proof (full_g F). pose proof (full_cnt F (w + j + 1)) as Hc.
  assert (2 ^ j <= 2 ^ 15) by (apply Z.pow_le_mono_r; lia).
  rewrite (u32_id (2 * f)) by (unfold word32; lia).
  apply runs_bind. eapply runs_rd; [|apply c_lookup|]; [lia..|].
  pose proof (kr_step (w + j + 1) ltac:(lia)) as Hk. replace (w + j + 1 - 1) with (w + j) in Hk by lia.
  assert (2 ^ (g - (w + j)) = 2 * 2 ^ (g - (w + j + 1))) as Hp.
  { rewrite <- Z.pow_succ_r by lia. f_equal. lia. }
  assert (0 < 2 ^ (g - (w + j + 1))) by lia.
  destruct (Z.leb_spec (2 * f) (cnt (w + j + 1))).
  - apply runs_ret, HQ; [lia|right]. replace (w + (j + 1)) with (w + j + 1) by lia. nia.
  - rewrite (u32_id (2 * f - _)) by (unfold word32; lia). replace (w + j + 1) with (w + (j + 1)) by lia.
    apply IH; [lia|lia|lia|lia| | |].
    + rewrite Z.pow_add_r by lia. replace (w + (j + 1)) with (w + j + 1) by lia. lia.
    + replace (w + (j + 1)) with (w + j + 1) by lia. nia.
    + intros j' Hj' Hor. apply HQ; [lia|done].
Qed.

(** What the source relies on below the first table: the codes there are at most
    [l] bits longer than what is decoded, and fill the table if they are. *)
Definition short_below (k w a : Z) : Prop := k - w <= l ∧ (k - w = l → 0 < w → 2 ^ l <= a + 1).

Lemma table_bits_runs k w a P s (Q : Z → gz → Prop) :
  0 <= w < k → k <= g → 0 <= a → 0 <= P < 2 ^ g → (2 ^ (g - w) | P) → kr k = P + (a + 1) * 2 ^ (g - k) →
  short_below k w a →
  (∀ j J, 1 <= J <= l → J <= j <= l + 1 → w + J <= g → (0 < w → j = J) →
     J = l ∨ P + 2 ^ (g - w) <= kr (w + J) → Q j s) →
  runs (table_bits c l g k w a) s Q.
Proof.
  intros Hw Hk Ha HP Hd Hkr [Hs1 Hs2] HQ. unfold table_bits. pose proof (full_l F). pose proof (full_g F).
  rewrite Z.shiftl_1_l. assert (2 ^ (g - w) = 2 ^ (k - w) * 2 ^ (g - k)) as Hp.
  { rewrite <- Z.pow_add_r by lia. f_equal. lia. }
  assert (0 < 2 ^ (g - k)) by lia. assert (0 < 2 ^ (k - w)) by lia.
  pose proof (full_pattern P w ltac:(lia) Hd ltac:(lia)) as HP2.
  destruct (Z.ltb_spec (a + 1) (2 ^ (k - w))).
  2: { apply runs_ret. eapply (HQ _ (k - w)); try lia. right. replace (w + (k - w)) with k by lia. nia. }
  destruct (Z.ltb_spec l (g - w)) as [Hz|Hz].
  - destruct (decide (k - w < l)) as [Hkl|Hkl].
    + replace k with (w + (k - w)) at 3 by lia. eapply (grow_runs _ _ _ _ w P); try lia.
      { replace (w + (k - w)) with k by lia. nia. }
      intros j' Hj' Hor. eapply (HQ _ j'); [lia..|]. destruct Hor; [by left|by right].
    + assert (k - w = l) as Hkw by lia. destruct (decide (0 < w)); [specialize (Hs2 Hkw ltac:(lia)); rewrite Hkw in *; lia|].
      cbn [grow]. destruct (Z.ltb_spec (k - w + 1) l); [lia|]. apply runs_ret. eapply (HQ _ l); try lia.
  - destruct (decide (k < g)) as [Hkg|Hkg].
    + replace k with (w + (k - w)) at 3 by lia. eapply (grow_runs _ _ _ _ w P); try lia.
      { replace (w + (k - w)) with k by lia. nia. }
      intros j' Hj' Hor. eapply (HQ _ j'); [lia..|]. right. destruct Hor as [->|]; [|done].
      replace (w + (g - w)) with g by lia. by rewrite (full_all F).
    + assert (k = g) by lia. subst k. rewrite (full_all F), Z.sub_diag, Z.pow_0_r in *. lia.
Qed.

(** ** The invariant of the main loop *)

Lemma lay_more lo hi hi' tabs τ :
  lay lo hi tabs → lo <= hi → hi <= ta τ - 8 → 0 <= tsz τ → ta τ + 8 * tsz τ <= hi' → lay lo hi' (tabs ++ [τ]).
Proof.
  intros [Hi Ha] Hlo H1 H2 H3. split.
  - intros τ' [Hin|Hin]%elem_of_app; [destruct (Hi _ Hin); lia|].
    apply list_elem_of_singleton in Hin as ->. lia.
  - intros τ1 τ2 [H|H]%elem_of_app [H'|H']%elem_of_app; [by apply Ha|..].
    all: rewrite ?list_elem_of_singleton in *; subst.
    + right. left. destruct (Hi _ H). lia.
    + right. right. destruct (Hi _ H'). lia.
    + by left.
Qed.

Lemma cell_apart lo hi tabs τ τ' j :
  lay lo hi tabs → τ ∈ tabs → τ' ∈ tabs → 0 <= j < tsz τ → 0 <= tsz τ' → ta τ + 8 * j ≠ ta τ' - 8.
Proof. intros HL Hτ Hτ' Hj Hj'. destruct (lay_apart _ _ _ HL τ τ' Hτ Hτ') as [->|[?|?]]; lia. Qed.

Lemma link_cell_v hp a t : huft_v (link_cell hp a t) = VT t.
Proof. unfold link_cell. by destruct (hp !! a). Qed.

Lemma chain_more hp hp' tabs τl τ x y :
  NoDup tabs → list.last tabs = Some τl →
  (∀ τ', τ' ∈ tabs → τ' ≠ τl → hp' !! (ta τ' - 8) = hp !! (ta τ' - 8)) →
  hp' !! (ta τl - 8) = Some x → huft_v x = VT (ta τ) →
  hp' !! (ta τ - 8) = Some y → huft_v y = VT 0 →
  chain hp tabs → chain hp' (tabs ++ [τ]).
Proof.
  intros Hd Hlast He Hx Hvx Hy Hvy. induction tabs as [|τ1 tabs IH]; [done|]. intros [(x1 & Hx1 & Hv1) Hc].
  apply list.NoDup_cons in Hd as [Hn Hd]. destruct tabs as [|τ2 tabs].
  - injection Hlast as ->. cbn. split; [by exists x|]. split; [|done]. by exists y.
  - change (list.last (τ2 :: tabs) = Some τl) in Hlast. split.
    + exists x1. split; [|done]. rewrite He; [done|set_solver|]. intros ->. apply Hn.
      apply last_Some_elem_of in Hlast. done.
    + apply IH; try done; set_solver.
Qed.

(** The states differ in the tables and the memory for them. *)
Definition built (s s' : gz) : Prop :=
  s' = set_heap (heap s') (set_hufts (hufts s') (set_free (free_mem_ptr s') (free_mem_end_ptr s) s)).

Lemma built_refl s : built s s.
Proof. by destruct s. Qed.
Lemma built_trans s s' s'' : built s s' → built s' s'' → built s s''.
Proof. unfold built. intros H ->. rewrite H. by destruct s. Qed.

(** The table at level [h] of the stack. *)
Definition on_stack (tabs : list tab) (B : builder) (P h : Z) (τ : tab) : Prop :=
  τ ∈ tabs ∧ u_ B !! Z.to_nat h = Some (Some (ta τ)) ∧ x_ B !! Z.to_nat h = Some (Some (rev g (tT τ))) ∧
  tw τ = l * h ∧ contains τ P.

(** The next code has length [k] and begins at [P]; the memory was that of [s0]. *)
Record inv (s0 : gz) (k P : Z) (B : builder) (s : gz) (tabs : list tab) : Prop := {
  inv_i : i_ B = rev g P;
  inv_h : -1 <= h_ B ∧ w_ B = l * h_ B ∧ w_ B < k;
  inv_len : length (u_ B) = 16%nat ∧ length (x_ B) = 17%nat ∧ x_ B !! 0%nat = Some (Some 0);
  inv_stack : P < 2 ^ g → ∀ h, 0 <= h <= h_ B → ∃ τ, on_stack tabs B P h τ;
  inv_deep : ∀ h, h_ B < h → l * h <= g → (2 ^ (g - l * h) | P);
  inv_off : ∀ τ, τ ∈ tabs → tT τ + 2 ^ (g - tw τ) <= P ∨ (tw τ <= w_ B ∧ contains τ P);
  inv_first : match tabs with
              | [] => h_ B = -1
              | τ :: rest => 0 <= h_ B ∧ tw τ = 0 ∧ tJ τ = l ∧ Forall (λ τ', 0 < tw τ') rest
              end;
  inv_top : P < 2 ^ g → 0 <= h_ B → k <= w_ B + l → ∃ τ, on_stack tabs B P (h_ B) τ ∧ q_ B = ta τ ∧ z_ B = tsz τ;
  inv_tabs : Forall tab_ok tabs;
  inv_nodup : NoDup tabs;
  inv_lay : lay (free_mem_ptr s0) (free_mem_ptr s) tabs;
  inv_paths : paths (heap s) tabs P;
  inv_links : links (heap s) tabs;
  inv_chain : chain (heap s) tabs;
  inv_t : t_ B = match list.last tabs with None => Caller | Some τ => Link (ta τ - 8) end;
  inv_result : result_ B = match tabs with [] => 0 | τ :: _ => ta τ end;
  inv_built : built s0 s;
  inv_below : ∀ a, a < free_mem_ptr s0 → heap s !! a = heap s0 !! a;
  inv_free : (4 | free_mem_ptr s) ∧ 0 < free_mem_ptr s0 <= free_mem_ptr s
}.

(** A table that is not full yet takes codes of all lengths up to [l] bits more. *)
Lemma stack_full τ k P :
  tab_ok τ → contains τ P → kr (k - 1) <= P → tJ τ = l ∨ k <= tw τ + tJ τ.
Proof.
  intros Hok HP Hkr. destruct (ok_full _ Hok) as [?|Hf]; [by left|right]. unfold contains in HP.
  destruct (decide (k <= tw τ + tJ τ)); [done|]. pose proof (kr_mono (tw τ + tJ τ) (k - 1) ltac:(lia)). lia.
Qed.

Lemma child_index τ P :
  tab_ok τ → tJ τ = l → contains τ P → tw τ + l <= g → (2 ^ (g - (tw τ + l)) | P) →
  0 <= Z.shiftr (rev g P) (tw τ) < tsz τ ∧
  (∀ σ, g <= Z.of_nat (length σ) → contains τ (num g σ) → num g σ < P → idx τ σ ≠ Z.shiftr (rev g P) (tw τ)).
Proof.
  intros Hok HJ HP Hw Hd. pose proof (ok_w _ Hok). pose proof (full_l F). split.
  - assert (0 <= rev g P < 2 ^ (tw τ + l)) as Hr by (apply rev_prefix; [lia|done]).
    rewrite Z.shiftr_div_pow2 by lia. split; [apply Z.div_pos; lia|].
    eapply Z.lt_le_trans; [|apply (ok_size _ Hok)]. rewrite HJ.
    apply Z.div_lt_upper_bound; [lia|]. rewrite <- Z.pow_add_r by lia. apply Hr.
  - intros σ Hl Hσ Hn Hi. apply (idx_child τ σ P) in Hi; [|done..]. lia.
Qed.

Lemma inv_child_heap lo hi hp tabs P τ0 τl q J x y :
  Forall tab_ok tabs → lay lo hi tabs → NoDup tabs → τ0 ∈ tabs → list.last tabs = Some τl → hi <= q →
  tJ τ0 = l → contains τ0 P → tw τ0 + l <= g → (2 ^ (g - (tw τ0 + l)) | P) →
  (∀ τ, τ ∈ tabs → tw τ = tw τ0 + l → tT τ < P) →
  huft_v x = VT (q + 8) → huft_v y = VT 0 →
  let hp' := <[ta τ0 + 8 * Z.shiftr (rev g P) (tw τ0):=mkHuft (16 + J) l (VT (q + 8))]>
               (<[q:=y]> (<[ta τl - 8:=x]> hp)) in
  let τ := mkTab (q + 8) (tw τ0 + l) J P (2 ^ J) in
  paths hp tabs P → links hp tabs → chain hp tabs →
  paths hp' (tabs ++ [τ]) P ∧ links hp' (tabs ++ [τ]) ∧ chain hp' (tabs ++ [τ]).
Proof.
  intros Hok HL Hnd Hτ0 Hlast Hq HJ HP Hg Hd Hch Hx Hy hp' τ Hpa Hli Hc.
  assert (tab_ok τ0) as Hok0 by (by eapply ok_in).
  assert (τl ∈ tabs) as Hτl by (by apply last_Some_elem_of).
  destruct (child_index τ0 P Hok0 HJ HP Hg Hd) as [Hi Hn].
  assert (∀ τ', τ' ∈ tabs → 0 <= tsz τ' ∧ ta τ' + 8 * tsz τ' <= q) as Hsz.
  { intros τ' Hτ'. pose proof (ok_size _ (ok_in _ _ Hok Hτ')). destruct (lay_in _ _ _ HL τ' Hτ').
    assert (0 < 2 ^ tJ τ'); [|lia]. apply Z.pow_pos_nonneg; [lia|]. pose proof (ok_bits _ (ok_in _ _ Hok Hτ')). lia. }
  assert (∀ τ' j, τ' ∈ tabs → 0 <= j < tsz τ' →
    (<[q:=y]> (<[ta τl - 8:=x]> hp)) !! (ta τ' + 8 * j) = hp !! (ta τ' + 8 * j)) as He.
  { intros τ' j Hτ' Hj. destruct (Hsz _ Hτ'). rewrite lookup_insert_ne by lia.
    apply lookup_insert_ne. intros Heq. apply (cell_apart _ _ _ τ' τl j HL); [done..|apply Hsz; done|done]. }
  split_and!.
  - apply paths_more. eapply paths_store; [done..|]. by eapply paths_ext.
  - apply links_more.
    + eapply links_store; [done..|]. by eapply links_ext.
    + right. exists τ0. split; [done|]. split_and!; [done..|]. apply lookup_insert_eq.
  - destruct (Hsz _ Hτ0). destruct (Hsz _ Hτl).
    assert (∀ τ', τ' ∈ tabs → ta τ0 + 8 * Z.shiftr (rev g P) (tw τ0) ≠ ta τ' - 8) as Hne.
    { intros τ' Hτ'. eapply cell_apart; [done..|]. apply Hsz. done. }
    eapply (chain_more hp); [done|done| |idtac|exact Hx| |exact Hy|done].
    + intros τ' Hτ' Hl. unfold hp'. destruct (Hsz _ Hτ'). rewrite !lookup_insert_ne; [done| |lia|auto].
      intros Heq. destruct (lay_apart _ _ _ HL τ' τl) as [?|[?|?]]; [done..|lia|lia].
    + unfold hp'. rewrite lookup_insert_ne by auto. rewrite lookup_insert_ne by lia. apply lookup_insert_eq.
    + unfold hp'. cbn. replace (q + 8 - 8) with q by lia. rewrite lookup_insert_ne by lia. apply lookup_insert_eq.
Qed.

(** The table number [h] fits the arrays. *)
Lemma level_small w h k : w = l * h → w < k → k <= g → h < 16.
Proof. intros -> Hw Hk. pose proof (full_l F). pose proof (full_g F). nia. Qed.

Definition child_builder (B : builder) (J q : Z) (r : huft) : builder :=
  mkBuilder (i_ B) (p_ B) (h_ B + 1) (w_ B + l) (2 ^ J) (q + 8)
    (<[Z.to_nat (h_ B + 1):=Some (q + 8)]> (u_ B)) (<[Z.to_nat (h_ B + 1):=Some (i_ B)]> (x_ B))
    r (Link q) (result_ B).

Lemma inv_child s0 k P B s tabs τ0 τl J x y r s' :
  inv s0 k P B s tabs → 0 <= h_ B → w_ B + l < k → k <= g → 0 <= P < 2 ^ g → kr (k - 1) <= P →
  1 <= J <= l → w_ B + l + J <= g → J = l ∨ P + 2 ^ (g - (w_ B + l)) <= kr (w_ B + l + J) →
  on_stack tabs B P (h_ B) τ0 → list.last tabs = Some τl →
  let q := free_mem_ptr s in
  huft_v x = VT (q + 8) → huft_v y = VT 0 → built s s' → free_mem_ptr s' = q + (2 ^ J + 1) * 8 →
  heap s' = <[ta τ0 + 8 * Z.shiftr (i_ B) (w_ B):=mkHuft (16 + J) l (VT (q + 8))]>
              (<[q:=y]> (<[ta τl - 8:=x]> (heap s))) →
  inv s0 k P (child_builder B J q r) s' (tabs ++ [mkTab (q + 8) (w_ B + l) J P (2 ^ J)]).
Proof.
  intros I Hh Hw Hk HP Hkr HJ HJg HJf (Hτ0 & Hu0 & Hx0 & Hw0 & HP0) Hlast q Hx Hy Hb Hf Hhp.
  destruct (inv_h _ _ _ _ _ _ I) as (_ & Hwh & _). rewrite <- Hwh in Hw0.
  assert (tab_ok τ0) as Hok0 by (eapply ok_in; [apply I|done]).
  assert (tJ τ0 = l) as HJ0.
  { destruct (stack_full τ0 k P Hok0 HP0 Hkr); [done|]. destruct (ok_bits _ Hok0). lia. }
  pose proof (full_l F) as Hl. pose proof (full_g F).
  assert (2 ^ (g - (w_ B + l)) | P) as Hd.
  { replace (w_ B + l) with (l * (h_ B + 1)) by lia. apply (inv_deep _ _ _ _ _ _ I); lia. }
  assert (0 < 2 ^ J) by lia. assert (0 < 2 ^ (g - (w_ B + l))) by lia.
  assert (h_ B + 1 < 16) by (eapply (level_small (w_ B + l)); [lia|done|done]).
  destruct (inv_len _ _ _ _ _ _ I) as (Hlu & Hlx & Hx00). destruct (inv_free _ _ _ _ _ _ I) as (H4 & Hf0 & Hs).
  assert (lay (free_mem_ptr s0) q tabs) as HL by apply I.
  destruct (inv_child_heap (free_mem_ptr s0) q (heap s) tabs P τ0 τl q J x y) as (Hpa & Hli & Hc);
    rewrite ?Hw0; try done; try apply I; try lia.
  { intros τ Hτ Hwτ. destruct (inv_off _ _ _ _ _ _ I τ Hτ); [|lia]. assert (0 < 2 ^ (g - tw τ)) by lia. lia. }
  rewrite Hw0, <- (inv_i _ _ _ _ _ _ I), <- Hhp in *.
  assert (on_stack (tabs ++ [mkTab (q + 8) (w_ B + l) J P (2 ^ J)]) (child_builder B J q r) P (h_ B + 1)
            (mkTab (q + 8) (w_ B + l) J P (2 ^ J))) as Hnew.
  { split_and!; [set_solver|..]; cbn; [apply list_lookup_insert_eq; lia| |lia|unfold contains; cbn; lia].
    rewrite (inv_i _ _ _ _ _ _ I). apply list_lookup_insert_eq. lia. }
  constructor; cbn [child_builder i_ h_ w_ u_ x_ t_ q_ z_ result_]; try done; try apply I.
  - lia.
  - rewrite !length_insert. split_and!; [done..|]. rewrite list_lookup_insert_ne by lia. done.
  - intros HP' h Hhh. destruct (decide (h = h_ B + 1)) as [->|Hne]; [by eexists|].
    destruct (inv_stack _ _ _ _ _ _ I HP' h) as (τ & ? & ? & ? & ? & ?); [lia|]. exists τ.
    split_and!; [set_solver|cbn; rewrite list_lookup_insert_ne by lia; done..|done|done].
  - intros h Hhh. apply (inv_deep _ _ _ _ _ _ I). lia.
  - intros τ [Hτ|Hτ]%elem_of_app.
    + destruct (inv_off _ _ _ _ _ _ I τ Hτ) as [?|[? ?]]; [by left|right]. split; [lia|done].
    + apply list_elem_of_singleton in Hτ as ->. right. cbn. split; [lia|]. unfold contains. cbn. lia.
  - pose proof (inv_first _ _ _ _ _ _ I) as Hfi. destruct tabs as [|τ1 rest]; [done|]. cbn.
    destruct Hfi as (? & ? & ? & ?). split_and!; [lia|done|done|]. apply Forall_app. split; [done|].
    apply Forall_singleton. cbn. destruct (ok_w _ Hok0). lia.
  - intros _ _ _. eexists. split; [exact Hnew|]. done.
  - apply Forall_app. split; [apply I|]. apply Forall_singleton. constructor; cbn; try done; try lia.
    + exists (h_ B + 1). lia.
    + split; [done|]. split; [lia|]. apply full_pattern; [|done|lia]. destruct (ok_w _ Hok0). lia.
  - apply list.NoDup_app. split; [apply I|]. split; [|apply list.NoDup_singleton]. intros τ Hτ Hτ'.
    apply list_elem_of_singleton in Hτ' as ->. destruct (lay_in _ _ _ HL _ Hτ) as [_ Ht]. cbn in Ht. lia.
  - eapply lay_more; [done|lia|cbn; lia|cbn; lia|cbn; lia].
  - rewrite last_snoc. cbn. f_equal. lia.
  - rewrite (inv_result _ _ _ _ _ _ I). by destruct tabs.
  - eapply built_trans; [apply I|done].
  - intros a Ha. rewrite Hhp, !lookup_insert_ne; [by apply I| | |].
    + assert (τl ∈ tabs) as Hτl by (by apply last_Some_elem_of). destruct (lay_in _ _ _ HL _ Hτl). lia.
    + lia.
    + destruct (lay_in _ _ _ HL _ Hτ0). destruct (child_index τ0 P Hok0 HJ0 HP0) as [Hi _]; rewrite ?Hw0; [lia|done|].
      rewrite Hw0, <- (inv_i _ _ _ _ _ _ I) in Hi. lia.
  - split; [|lia]. rewrite Hf. apply Z.divide_add_r; [done|]. exists (2 * (2 ^ J + 1)). lia.
Qed.

Lemma rev_zero : rev g 0 = 0.
Proof. pose proof (full_l F). by apply (rev_mult g 0 0); lia. Qed.

Definition root_builder (B : builder) (j q : Z) : builder :=
  mkBuilder (i_ B) (p_ B) 0 0 (2 ^ j) (q + 8) (<[0%nat:=Some (q + 8)]> (u_ B)) (x_ B) (r_ B) (Link q) (q + 8).

Lemma inv_root s0 k P B s j y s' :
  inv s0 k P B s [] → 1 <= k <= l → 0 <= P < 2 ^ g → l <= j →
  let q := free_mem_ptr s in
  huft_v y = VT 0 → built s s' → free_mem_ptr s' = q + (2 ^ j + 1) * 8 → heap s' = <[q:=y]> (heap s) →
  inv s0 k P (root_builder B j q) s' [mkTab (q + 8) 0 l 0 (2 ^ j)].
Proof.
  intros I Hk HP Hj q Hy Hb Hf Hhp. pose proof (full_l F) as Hl. pose proof (full_g F).
  pose proof (inv_first _ _ _ _ _ _ I) as Hh. cbn in Hh.
  destruct (inv_h _ _ _ _ _ _ I) as (_ & Hw & _). destruct (inv_len _ _ _ _ _ _ I) as (Hlu & Hlx & Hx0).
  destruct (inv_free _ _ _ _ _ _ I) as (H4 & Hf0 & Hs).
  assert (P = 0) as ->.
  { destruct (inv_deep _ _ _ _ _ _ I 0) as [d Hd]; [lia..|]. rewrite Z.mul_0_r, Z.sub_0_r in Hd.
    assert (0 < 2 ^ g) by lia. assert (d < 1) by nia. assert (-1 < d) by nia. nia. }
  assert (0 < 2 ^ l) by lia. assert (0 < 2 ^ g) by lia. assert (0 < 2 ^ j) by lia.
  set (τ := mkTab (q + 8) 0 l 0 (2 ^ j)).
  assert (contains τ 0) as Hc0 by (unfold contains; cbn; rewrite Z.sub_0_r; lia).
  assert (on_stack [τ] (root_builder B j q) 0 0 τ) as Hst.
  { split_and!; [set_solver|..]; [apply list_lookup_insert_eq; lia| |cbn; lia|done].
    change (x_ B !! 0%nat = Some (Some (rev g 0))). by rewrite Hx0, rev_zero. }
  constructor; cbn [root_builder i_ h_ w_ u_ x_ t_ q_ z_ result_]; try done; try apply I.
  - lia.
  - rewrite length_insert. done.
  - intros _ h Hh'. replace h with 0 by lia. by exists τ.
  - intros h _ _. apply Z.divide_0_r.
  - intros τ' ->%list_elem_of_singleton. right. done.
  - intros _ _ _. by exists τ.
  - apply Forall_singleton. constructor; cbn; try lia.
    + exists 0. lia.
    + apply Z.pow_le_mono_r; lia.
    + rewrite Z.sub_0_r. split; [apply Z.divide_0_r|lia].
  - apply list.NoDup_singleton.
  - apply (lay_more _ q _ [] τ); [apply I|lia|cbn; lia|cbn; lia|cbn; lia].
  - intros k' m' σ Hc HP'. pose proof (pos_range _ _ Hc). assert (0 < 2 ^ (g - k')); [|lia].
    destruct Hc. apply Z.pow_pos_nonneg; lia.
  - intros τ' ->%list_elem_of_singleton. by left.
  - split; [|done]. exists y. split; [|done]. rewrite Hhp. cbn. replace (q + 8 - 8) with q by lia. apply lookup_insert_eq.
  - cbn. f_equal. lia.
  - eapply built_trans; [apply I|done].
  - intros a Ha. rewrite Hhp, lookup_insert_ne by lia. by apply I.
  - split; [|lia]. rewrite Hf. apply Z.divide_add_r; [done|]. exists (2 * (2 ^ j + 1)). lia.
Qed.

(** ** The main loop *)

Lemma gzip_malloc_runs size s (Q : Z → gz → Prop) :
  (4 | free_mem_ptr s) → 0 < free_mem_ptr s → 0 <= size → free_mem_ptr s + size < free_mem_end_ptr s →
  Q (free_mem_ptr s) (set_free (free_mem_ptr s + size) (free_mem_end_ptr s) s) →
  runs (gzip_malloc size) s Q.
Proof.
  intros [p Hp] H0 Hs He HQ. unfold gzip_malloc. apply runs_bind, runs_get.
  destruct (Z.ltb_spec size 0), (Z.leb_spec (free_mem_ptr s) 0); try lia. cbn [orb].
  assert (Z.land (free_mem_ptr s + 3) (Z.lnot 3) = free_mem_ptr s) as ->.
  { rewrite <- Z.ldiff_land. change 3 with (Z.ones 2). rewrite Z.ldiff_ones_r by lia.
    rewrite Z.shiftl_mul_pow2, Z.shiftr_div_pow2 by lia. change (Z.ones 2) with 3. change (2 ^ 2) with 4.
    Z.to_euclidean_division_equations. lia. }
  apply runs_bind, runs_get, runs_bind, runs_put.
  destruct (Z.leb_spec (free_mem_end_ptr s) (free_mem_ptr s + size)); [lia|]. by apply runs_ret.
Qed.

(** More than a table takes. *)
Definition table_max : Z := (2 ^ (l + 1) + 1) * 8.

Lemma table_max_bound j : 0 <= j <= l + 1 → 0 <= (2 ^ j + 1) * 8 <= table_max.
Proof.
  intros Hj. unfold table_max. assert (2 ^ j <= 2 ^ (l + 1)) by (apply Z.pow_le_mono_r; lia).
  assert (0 < 2 ^ j) by lia. lia.
Qed.

(** Below the first table, codes are short enough for the levels. *)
Definition shallow (k a P : Z) : Prop :=
  ∀ h, 0 < h → l * h < k → (2 ^ (g - l * h) | P) → short_below k (l * h) a.

(** The first table. *)
Lemma make_root_runs s0 k a P B s (Q : builder → gz → Prop) :
  inv s0 k P B s [] → 1 <= k <= l → 0 <= a → 0 <= P < 2 ^ g → kr k = P + (a + 1) * 2 ^ (g - k) →
  free_mem_ptr s + table_max < free_mem_end_ptr s →
  (∀ B' s' tabs', inv s0 k P B' s' tabs' → h_ B' = 0 → p_ B' = p_ B → tabs' ≠ [] →
     free_mem_ptr s' <= free_mem_ptr s + table_max → Q B' s') →
  runs (make_table c l g k a B) s Q.
Proof.
  intros I Hk Ha HP Hkk Hmem HQ. pose proof (full_l F) as Hl. pose proof (full_g F).
  destruct (inv_h _ _ _ _ _ _ I) as (_ & Hw & _). pose proof (inv_first _ _ _ _ _ _ I) as Hh. cbn in Hh.
  rewrite Hh in Hw. replace (l * -1) with (- l) in Hw by lia.
  destruct (inv_free _ _ _ _ _ _ I) as (H4 & Hf0 & Hs0). destruct (inv_len _ _ _ _ _ _ I) as (Hlu & _).
  unfold make_table. rewrite Hh, Hw, (inv_t _ _ _ _ _ _ I). replace (- l + l) with 0 by lia.
  change (-1 + 1) with 0. apply runs_bind. eapply (table_bits_runs k 0 a P); [lia|lia|done|done| |done| |].
  { replace 0 with (l * 0) by lia. apply (inv_deep _ _ _ _ _ _ I); lia. }
  { unfold short_below. lia. }
  intros j J HJ Hj HJg _ Hor. assert (l <= j) as Hlj.
  { destruct Hor as [?|Hor]; [lia|]. rewrite Z.add_0_l, Z.sub_0_r in Hor. pose proof (kr_max J).
    destruct (decide (J < g)); lia. }
  pose proof (table_max_bound j ltac:(lia)) as Hmax. unfold sizeof_huft.
  rewrite Z.shiftl_1_l. apply runs_bind, gzip_malloc_runs; [done|lia|lia|lia|].
  apply runs_bind, runs_put. apply runs_bind, runs_ret. apply runs_bind, runs_put.
  apply runs_bind, runs_wr; [lia|]. apply runs_bind, runs_ret. apply runs_ret.
  eapply HQ; [eapply (inv_root _ _ _ _ _ j); [done|done|done|done|..]| | | |]; try done.
  - apply link_cell_v.
  - cbn. lia.
Qed.


Lemma make_child_runs s0 k a P B s tabs (Q : builder → gz → Prop) :
  inv s0 k P B s tabs → 0 <= h_ B → w_ B + l < k → k <= g → 0 <= a → 0 <= P < 2 ^ g → kr (k - 1) <= P →
  kr k = P + (a + 1) * 2 ^ (g - k) → shallow k a P →
  free_mem_ptr s + table_max < free_mem_end_ptr s →
  (∀ B' s' tabs', inv s0 k P B' s' tabs' → h_ B' = h_ B + 1 → p_ B' = p_ B → tabs' ≠ [] →
     free_mem_ptr s' <= free_mem_ptr s + table_max → Q B' s') →
  runs (make_table c l g k a B) s Q.
Proof.
  intros I Hh Hwk Hk Ha HP Hkr Hkk Hsh Hmem HQ. pose proof (full_l F) as Hl. pose proof (full_g F).
  destruct (inv_h _ _ _ _ _ _ I) as (_ & Hw & _). assert (w_ B + l = l * (h_ B + 1)) as Hw' by lia.
  assert (2 ^ (g - (w_ B + l)) | P) as Hd by (rewrite Hw'; apply (inv_deep _ _ _ _ _ _ I); lia).
  assert (h_ B + 1 < 16) by (by eapply (level_small (w_ B + l))).
  destruct (inv_stack _ _ _ _ _ _ I ltac:(lia) (h_ B) ltac:(lia)) as (τ0 & Hst).
  destruct (inv_free _ _ _ _ _ _ I) as (H4 & Hf0 & Hs0). destruct (inv_len _ _ _ _ _ _ I) as (Hlu & Hlx & _).
  pose proof (inv_t _ _ _ _ _ _ I) as Ht. destruct (list.last tabs) as [τl|] eqn:Hlast.
  2: { apply last_None in Hlast as ->. pose proof (inv_first _ _ _ _ _ _ I) as Hfi. cbn in Hfi. lia. }
  unfold make_table. rewrite Ht. apply runs_bind. eapply (table_bits_runs k _ a P); [nia|lia|done|done|done|done| |].
  { rewrite Hw'. apply Hsh; [lia|lia|by rewrite <- Hw']. }
  intros j J HJ Hj HJg HjJ Hor. rewrite (HjJ ltac:(nia)) in *. clear j Hj HjJ.
  pose proof (table_max_bound J ltac:(lia)) as Hmax. unfold sizeof_huft.
  rewrite Z.shiftl_1_l. apply runs_bind, gzip_malloc_runs; [done|lia|lia|lia|].
  apply runs_bind, runs_put. apply runs_bind, runs_put. apply runs_bind, runs_put.
  apply runs_bind, runs_wr; [lia|]. apply runs_bind.
  replace (truthy (h_ B + 1)) with true by (unfold truthy; destruct (Z.eqb_spec (h_ B + 1) 0); [lia|done]).
  apply runs_bind, runs_wr; [lia|]. apply runs_bind. replace (h_ B + 1 - 1) with (h_ B) by lia.
  eapply runs_rdo; [lia|rewrite list_lookup_insert_ne by lia; apply Hst|].
  apply runs_bind, runs_put, runs_ret. replace (w_ B + l - l) with (w_ B) by lia.
  rewrite (u8_id (16 + J)), (u8_id l) by (unfold byte; lia). apply runs_ret.
  eapply HQ; [eapply (inv_child _ _ _ _ _ _ τ0 τl J); [done..| | | | |]| | | |]; try done.
  - apply link_cell_v.
  - apply link_cell_v.
  - by destruct tabs.
  - cbn. lia.
Qed.

Lemma make_tables_runs fuel s0 k a P B s tabs M (Q : builder → gz → Prop) :
  inv s0 k P B s tabs → 1 <= k <= g → 0 <= a → 0 <= P < 2 ^ g → kr (k - 1) <= P →
  kr k = P + (a + 1) * 2 ^ (g - k) → (tabs = [] → k <= l) → shallow k a P →
  k <= w_ B + l + l * Z.of_nat fuel → 0 <= M → k <= w_ B + l + l * M →
  free_mem_ptr s + M * table_max < free_mem_end_ptr s →
  (∀ B' s' tabs', inv s0 k P B' s' tabs' → 0 <= h_ B' → k <= w_ B' + l → p_ B' = p_ B →
     free_mem_ptr s' <= free_mem_ptr s + M * table_max → Q B' s') →
  runs (make_tables c l g fuel k a B) s Q.
Proof.
  revert B s tabs M. induction fuel as [|fuel IH]; intros B s tabs M I Hk Ha HP Hkr Hkk Hroot Hsh Hfu HM HkM Hmem HQ.
  all: pose proof (full_l F) as Hl; destruct (inv_h _ _ _ _ _ _ I) as (Hh1 & Hw & Hwk).
  all: pose proof (table_max_bound 0 ltac:(lia)) as Hmax0; cbn [make_tables].
  all: destruct (Z.ltb_spec (w_ B + l) k); [try lia|apply runs_ret, (HQ B s tabs); [done|nia|lia|done|nia]].
  assert (0 < M) by nia. apply runs_bind.
  assert (∀ B' s' tabs', inv s0 k P B' s' tabs' → h_ B' = h_ B + 1 → p_ B' = p_ B → tabs' ≠ [] →
     free_mem_ptr s' <= free_mem_ptr s + table_max → runs (make_tables c l g fuel k a B') s' Q) as Hnext.
  { intros B' s' tabs' I' Hh' Hp' Ht' Hf'. destruct (inv_h _ _ _ _ _ _ I') as (_ & Hw' & _).
    assert (free_mem_end_ptr s' = free_mem_end_ptr s) as He.
    { pose proof (inv_built _ _ _ _ _ _ I) as Hb. pose proof (inv_built _ _ _ _ _ _ I') as Hb'.
      by rewrite Hb', Hb. }
    apply (IH _ _ tabs' (M - 1)); try done; try nia.
    intros B'' s'' tabs'' I'' ? ? ? ?. apply (HQ B'' s'' tabs''); [done|done|done|congruence|nia]. }
  destruct (decide (tabs = [])) as [->|Hne].
  - pose proof (inv_first _ _ _ _ _ _ I) as Hfi. cbn in Hfi.
    eapply make_root_runs; [done| |done|done|done|nia|]; [specialize (Hroot eq_refl); lia|].
    intros B' s' tabs' I' Hh' ? ? ?. apply (Hnext B' s' tabs'); [done|lia|done..].
  - eapply (make_child_runs _ _ _ _ _ _ tabs); [done| |done|lia|done|done|done|done|done|nia|done].
    pose proof (inv_first _ _ _ _ _ _ I) as Hfi. destruct tabs; [done|]. apply Hfi.
Qed.

(** Every [f]th entry from [j] on. *)
Lemma fill_table_runs fuel q j z f r s (Q : unit → gz → Prop) :
  0 < f → z - j <= Z.of_nat fuel →
  (∀ hp', (∀ i, j <= i < z → (i - j) mod f = 0 → hp' !! (q + 8 * i) = Some r) →
     (∀ a, (∀ i, j <= i < z → (i - j) mod f = 0 → a ≠ q + 8 * i) → hp' !! a = heap s !! a) →
     Q tt (set_heap hp' s)) →
  runs (fill_table fuel q j z f r) s Q.
Proof.
  intros Hf. revert j s. induction fuel as [|fuel IH]; intros j s Hfu HQ; cbn [fill_table].
  all: destruct (Z.ltb_spec j z); [try lia|apply runs_ret].
  1, 3: replace s with (set_heap (heap s) s) by (by destruct s); apply HQ; [intros; lia|by intros].
  apply runs_bind, runs_put. unfold sizeof_huft. apply IH; [lia|]. intros hp' H1 H2. cbn [heap set_heap] in H2.
  change (set_heap hp' (set_heap _ s)) with (set_heap hp' s).
  assert (∀ i, (i - j) mod f = (i - (j + f)) mod f) as Hm.
  { intros i. replace (i - j) with (i - (j + f) + 1 * f) by lia. by rewrite Z_mod_plus_full. }
  apply HQ.
  - intros i Hi Him. destruct (decide (j + f <= i)) as [Hji|Hji].
    + apply H1; [lia|]. by rewrite <- Hm.
    + assert (i = j) as -> by (rewrite Z.mod_small in Him; lia).
      rewrite H2 by (intros; lia). apply lookup_insert_eq.
  - intros a Ha. rewrite H2; [apply lookup_insert_ne|].
    + intros Heq. apply (Ha j); [lia|by rewrite Z.sub_diag, Z.mod_0_l by lia|done].
    + intros i Hi Him. apply Ha; [lia|by rewrite Hm].
Qed.

(** The level at which the next code is still in the table. *)
Lemma back_up_runs fuel i h x (T : Z → Z) s (Q : Z * Z → gz → Prop) :
  0 <= h → h <= Z.of_nat fuel → x !! 0%nat = Some (Some 0) →
  (∀ h', 0 <= h' <= h → x !! Z.to_nat h' = Some (Some (T h'))) →
  (∀ h', 0 <= h' <= h → i mod 2 ^ (l * h') = T h' →
     (∀ h'', h' < h'' <= h → i mod 2 ^ (l * h'') ≠ T h'') → Q (h', l * h') s) →
  runs (back_up l fuel i h (l * h) x) s Q.
Proof.
  pose proof (full_l F). revert h. induction fuel as [|fuel IH]; intros h Hh Hfu Hx0 Hx HQ; cbn [back_up].
  all: apply runs_bind; eapply runs_rdo; [lia|apply Hx; lia|].
  all: rewrite Z.shiftl_1_l; replace (2 ^ (l * h) - 1) with (Z.ones (l * h)) by (rewrite Z.ones_equiv; lia).
  all: rewrite Z.land_ones by nia.
  all: destruct (Z.eqb_spec (i mod 2 ^ (l * h)) (T h)) as [Heq|Hne]; cbn [negb];
    [apply runs_ret, HQ; [lia|done|lia]|].
  all: assert (0 < h) by (destruct (decide (h = 0)) as [->|]; [|lia]; exfalso; apply Hne;
    rewrite Z.mul_0_r, Z.mod_1_r; specialize (Hx 0 ltac:(lia)); change (Z.to_nat 0) with O in Hx; congruence).
  1: lia.
  destruct (Z.ltb_spec (l * h) l); [nia|]. replace (l * h - l) with (l * (h - 1)) by lia.
  apply IH; [lia|lia|done| |].
  - intros h' Hh'. apply Hx. lia.
  - intros h' Hh' Hm Hn. apply HQ; [lia|done|]. intros h'' Hh''. destruct (decide (h'' = h)) as [->|]; [done|].
    apply Hn. lia.
Qed.

Lemma contains_mod τ P : tab_ok τ → 0 <= P < 2 ^ g → rev g P mod 2 ^ tw τ = rev g (tT τ) ↔ contains τ P.
Proof.
  intros Hok HP. pose proof (ok_w _ Hok). destruct (ok_first _ Hok) as (Hd & H0 & H1).
  assert (0 < 2 ^ (g - tw τ)) by lia.
  rewrite <- (Z.mod_small (rev g (tT τ)) (2 ^ tw τ)) by (apply rev_prefix; [lia|done]).
  rewrite same_prefix by lia. apply interval; [lia|done].
Qed.

(** Codes of one length are apart by the patterns of one. *)
Lemma pos_next k m : pos k (m + 1) = pos k m + 2 ^ (g - k).
Proof. unfold pos. lia. Qed.

(** Only one code ends between one position and the next. *)
Lemma code_before k m k' m' :
  is_code k m → is_code k' m' → pos k' m' + 2 ^ (g - k') <= pos k (m + 1) →
  pos k' m' + 2 ^ (g - k') <= pos k m ∨ (k' = k ∧ m' = m).
Proof.
  intros Hc Hc' Hle. rewrite pos_next in Hle. pose proof (pos_range _ _ Hc). pose proof (pos_range _ _ Hc').
  destruct Hc as [Hk Hm], Hc' as [Hk' Hm']. assert (0 < 2 ^ (g - k')) by lia.
  destruct (decide (k' < k)) as [?|?]; [|destruct (decide (k' = k)) as [->|?]].
  - left. pose proof (kr_mono k' (k - 1) ltac:(lia)). unfold pos in *. assert (0 < 2 ^ (g - k)) by lia. nia.
  - unfold pos in *. destruct (decide (m' = m)); [by right|left]. assert (m' + 1 <= m + 1) by nia. nia.
  - pose proof (kr_mono k (k' - 1) ltac:(lia)). unfold pos in *. nia.
Qed.

(** The end of a table is at a step of the codes in it. *)
Lemma leave_table τ k P :
  tab_ok τ → tw τ < k <= g → (2 ^ (g - k) | P) → contains τ P → ¬ contains τ (P + 2 ^ (g - k)) →
  P + 2 ^ (g - k) = tT τ + 2 ^ (g - tw τ).
Proof.
  intros Hok Hk [p ->] Hc Hn. pose proof (ok_w _ Hok). destruct (ok_first _ Hok) as ([t Ht] & _ & _).
  unfold contains in *. rewrite Ht in *. assert (2 ^ (g - tw τ) = 2 ^ (k - tw τ) * 2 ^ (g - k)) as Hp.
  { rewrite <- Z.pow_add_r by lia. f_equal. lia. }
  rewrite Hp in *. assert (0 < 2 ^ (g - k)) by lia. generalize dependent (2 ^ (g - k)). intros D. intros.
  generalize dependent (2 ^ (k - tw τ)). intros K. intros.
  assert (p < t * K + K) by nia. assert (t * K + K <= p + 1) by nia. nia.
Qed.

Section advance.
(** The tables are there for the code number [m] of length [k]. *)
Context (s0 : gz) (k m : Z) (B : builder) (s : gz) (tabs : list tab).
Context (I : inv s0 k (pos k m) B s tabs) (Hc : is_code k m).
Context (Hh : 0 <= h_ B) (Hk : k <= w_ B + l).

Lemma top_table :
  ∃ τ, on_stack tabs B (pos k m) (h_ B) τ ∧ tab_ok τ ∧ q_ B = ta τ ∧ z_ B = tsz τ ∧ tw τ = w_ B ∧
       tw τ < k <= tw τ + tJ τ.
Proof.
  destruct (pos_range _ _ Hc) as (H0 & H1 & H2). assert (0 < 2 ^ (g - k)) by (destruct Hc; lia).
  destruct (inv_top _ _ _ _ _ _ I) as (τ & Hst & Hq & Hz); [lia|done|done|]. exists τ.
  assert (tab_ok τ) as Hok by (eapply ok_in; [apply I|apply Hst]).
  destruct (inv_h _ _ _ _ _ _ I) as (_ & Hw & Hwk). destruct Hst as (Hτ & ? & ? & Htw & HP).
  split_and!; try done; [lia..|]. destruct (stack_full τ k (pos k m) Hok HP); [|lia|lia].
  destruct Hc. unfold pos. nia.
Qed.

(** The entries of the code. *)
Definition code_entries (τ : tab) (j : Z) : Prop :=
  0 <= j < tsz τ ∧ j mod 2 ^ (k - tw τ) = Z.shiftr (rev g (pos k m)) (tw τ).

Lemma entries_fresh τ σ :
  tab_ok τ → contains τ (pos k m) → tw τ < k <= tw τ + tJ τ → g <= Z.of_nat (length σ) →
  contains τ (num g σ) → (pos k m <= num g σ < pos k m + 2 ^ (g - k)) ↔ code_entries τ (idx τ σ).
Proof.
  intros Hok HP Hkt Hl Hσ. destruct Hc as [Hk1 _]. rewrite <- (idx_code τ σ k (pos k m)); try done; [|lia|by apply pos_divide].
  unfold code_entries. pose proof (idx_size τ σ Hok). tauto.
Qed.

Lemma paths_next τ hp' r :
  on_stack tabs B (pos k m) (h_ B) τ → tab_ok τ → tw τ < k <= tw τ + tJ τ →
  (∀ j, code_entries τ j → hp' !! (ta τ + 8 * j) = Some r) →
  (∀ a, (∀ j, code_entries τ j → a ≠ ta τ + 8 * j) → hp' !! a = heap s !! a) →
  E k m r → huft_b r = k - tw τ → paths hp' tabs (pos k (m + 1)).
Proof.
  intros (Hτ & _ & _ & _ & HP) Hok Hkt Hin Hout HE Hb k' m' σ Hc' HP' Hl Hσ.
  assert (paths hp' tabs (pos k m)) as Hpa.
  { eapply (paths_update (heap s) hp' _ _ tabs _ τ (code_entries τ)); try apply I; try done; [by intros j []|].
    intros σ' Hl' Hσ' Hlt Hj. apply (entries_fresh τ σ') in Hj; [lia|done..]. }
  destruct (code_before k m k' m' Hc Hc' HP') as [Hle|[-> ->]]; [by apply Hpa|].
  assert (contains τ (num g σ)) as Hcσ.
  { unfold contains in *. destruct (ok_first _ Hok) as (Hd & ? & ?). destruct Hc as [Hk1 _]. pose proof (ok_w _ Hok).
    split; [lia|]. rewrite pos_next in HP'. eapply Z.lt_le_trans; [apply Hσ|].
    destruct (decide (contains τ (pos k m + 2 ^ (g - k)))) as [Hx|Hx]; [unfold contains in Hx; lia|].
    rewrite (leave_table τ k) by (done || lia || by apply pos_divide). lia. }
  exists τ, r. split_and!; try done; [apply Hcσ..|lia|lia|]. apply Hin. by apply entries_fresh.
Qed.

(** The level [h] to which the builder backs up, with the next position. *)
Context (h : Z) (Hhr : 0 <= h <= h_ B).
Context (Hin : pos k (m + 1) < 2 ^ g → ∀ h' τ, 0 <= h' <= h → on_stack tabs B (pos k m) h' τ → contains τ (pos k (m + 1))).
Context (Hout : pos k (m + 1) < 2 ^ g → ∀ h' τ, h < h' <= h_ B → on_stack tabs B (pos k m) h' τ → ¬ contains τ (pos k (m + 1))).

Lemma pos_facts : 0 <= pos k m < 2 ^ g ∧ (2 ^ (g - k) | pos k m) ∧ 0 < 2 ^ (g - k) ∧ pos k (m + 1) <= 2 ^ g.
Proof.
  destruct (pos_range _ _ Hc) as (H0 & H1 & H2). destruct Hc as [Hk1 _]. assert (0 < 2 ^ (g - k)) by lia.
  rewrite pos_next. split_and!; [lia|lia|by apply pos_divide|done|lia].
Qed.

Lemma deep_next h' : h < h' → l * h' <= g → (2 ^ (g - l * h') | pos k (m + 1)).
Proof.
  intros Hh' Hg'. destruct pos_facts as (H0 & Hd & Hp & H2). destruct Hc as [Hk1 _]. pose proof (full_l F).
  destruct (inv_h _ _ _ _ _ _ I) as (_ & Hw & Hwk). rewrite pos_next in *.
  destruct (decide (k <= l * h')) as [Hkl|Hkl].
  { apply Z.divide_add_r; [eapply Z.divide_trans; [|exact Hd]|]; apply pow_divide; lia. }
  assert (h' <= h_ B) by nia. destruct (inv_stack _ _ _ _ _ _ I ltac:(lia) h' ltac:(lia)) as (τ & Hst).
  assert (tab_ok τ) as Hok by (eapply ok_in; [apply I|apply Hst]). destruct Hst as (Hτ & Hu & Hx & Htw & HP) eqn:?.
  destruct (decide (pos k m + 2 ^ (g - k) < 2 ^ g)) as [Hlt|Hge].
  - rewrite (leave_table τ k); [|done|lia|done|done|].
    + rewrite Htw. apply Z.divide_add_r; [|apply Z.divide_refl]. rewrite <- Htw. apply (ok_first _ Hok).
    + rewrite <- pos_next in *. apply (Hout Hlt h' τ); [lia|]. done.
  - replace (pos k m + 2 ^ (g - k)) with (2 ^ g) by lia. apply pow_divide. nia.
Qed.

Lemma off_next τ :
  τ ∈ tabs → tT τ + 2 ^ (g - tw τ) <= pos k (m + 1) ∨ (tw τ <= l * h ∧ contains τ (pos k (m + 1))).
Proof.
  intros Hτ. destruct pos_facts as (H0 & Hd & Hp & H2). rewrite pos_next.
  destruct (inv_off _ _ _ _ _ _ I τ Hτ) as [?|[Hwτ HP]]; [left; lia|].
  assert (tab_ok τ) as Hok by (eapply ok_in; [apply I|done]). destruct (ok_first _ Hok) as (Hdτ & ? & ?).
  destruct (decide (tT τ + 2 ^ (g - tw τ) <= pos k m + 2 ^ (g - k))) as [|Hn]; [by left|right].
  assert (contains τ (pos k m + 2 ^ (g - k))) as HP' by (unfold contains in *; lia). split; [|done].
  destruct (ok_level _ Hok) as (hτ & Hh0 & Hhτ). destruct (inv_h _ _ _ _ _ _ I) as (_ & Hw & _). pose proof (full_l F).
  assert (hτ <= h); [|nia]. destruct (decide (hτ <= h)) as [|Hgt]; [done|exfalso].
  destruct (inv_stack _ _ _ _ _ _ I ltac:(lia) hτ ltac:(nia)) as (τ' & Hst).
  assert (pos k (m + 1) < 2 ^ g) as Hlt by (rewrite pos_next; unfold contains in HP'; lia).
  apply (Hout Hlt hτ τ'); [nia|done|]. rewrite pos_next. destruct Hst as (Hτ' & _ & _ & Htw' & HPτ').
  assert (tab_ok τ') as Hok' by (eapply ok_in; [apply I|done]). destruct (ok_first _ Hok') as (Hdτ' & _).
  pose proof (ok_w _ Hok). unfold contains in *. rewrite Htw', <- Hhτ in *.
  apply (interval (g - tw τ)) in HPτ'; [|lia|done]. apply (interval (g - tw τ)) in HP; [|lia|done].
  apply (interval (g - tw τ)) in HP'; [|lia|done]. apply (interval (g - tw τ)); [lia|done|congruence].
Qed.

Definition next_builder (p : Z) (r : huft) : builder :=
  mkBuilder (rev g (pos k (m + 1))) p h (l * h) (z_ B) (q_ B) (u_ B) (x_ B) r (t_ B) (result_ B).

Lemma inv_advance τ hp' p r :
  on_stack tabs B (pos k m) (h_ B) τ → tab_ok τ → tw τ < k <= tw τ + tJ τ → q_ B = ta τ → z_ B = tsz τ →
  (∀ j, code_entries τ j → hp' !! (ta τ + 8 * j) = Some r) →
  (∀ a, (∀ j, code_entries τ j → a ≠ ta τ + 8 * j) → hp' !! a = heap s !! a) →
  E k m r → huft_b r = k - tw τ →
  inv s0 k (pos k (m + 1)) (next_builder p r) (set_heap hp' s) tabs.
Proof.
  intros Hst Hok Hkt Hq Hz H1 H2 HE Hb. pose proof Hst as (Hτ & _ & _ & Htw & HP).
  destruct pos_facts as (H0 & Hd & Hp & H3). destruct (inv_h _ _ _ _ _ _ I) as (_ & Hw & Hwk). pose proof (full_l F).
  pose proof (inv_lay _ _ _ _ _ _ I) as HL.
  assert (∀ h', 0 <= h' <= h → pos k (m + 1) < 2 ^ g → ∃ τ, on_stack tabs B (pos k (m + 1)) h' τ) as Hst'.
  { intros h' Hh' Hlt. destruct (inv_stack _ _ _ _ _ _ I ltac:(lia) h' ltac:(lia)) as (τ' & Hs'). exists τ'.
    pose proof (Hin Hlt h' τ' Hh' Hs') as Hx. destruct Hs' as (? & ? & ? & ? & ?). by split_and!. }
  assert (∀ a, (∀ j, code_entries τ j → a ≠ ta τ + 8 * j) → heap (set_heap hp' s) !! a = heap s !! a) as H2' by done.
  constructor; cbn [next_builder i_ h_ w_ u_ x_ t_ q_ z_ result_]; try apply I; try done.
  - split_and!; [lia|done|nia].
  - intros Hlt h' Hh'. apply Hst'; [lia|done].
  - apply deep_next.
  - apply off_next.
  - pose proof (inv_first _ _ _ _ _ _ I) as Hf. destruct tabs as [|τ1 rest]; [set_solver|]. destruct Hf. split; [lia|done].
  - intros Hlt _ Hkl. assert (h = h_ B) as -> by nia. destruct (Hst' (h_ B)) as (τ' & Hs'); [lia|done|].
    pose proof Hst as (_ & Hu & _). exists τ. split; [|done]. apply (Hin Hlt) in Hst as Hc'; [|lia].
    destruct Hst as (? & ? & ? & ? & ?). by split_and!.
  - by apply (paths_next τ hp' r).
  - eapply (links_update (heap s) hp' _ _ tabs (pos k m) τ (code_entries τ)); try apply I; try done; [by intros j []| |].
    + intros σ' Hl' Hσ' Hlt Hj. apply (entries_fresh τ σ') in Hj; [lia|done..].
    + intros τ' Hτ' Hw'. destruct (inv_off _ _ _ _ _ _ I τ' Hτ') as [?|[? _]]; [|lia].
      assert (tab_ok τ') as Hok' by (eapply ok_in; [apply I|done]). pose proof (ok_w _ Hok').
      assert (0 < 2 ^ (g - tw τ')) by lia. lia.
  - eapply chain_ext; [|apply I]. intros τ' Hτ'. apply H2'. intros j [Hj _] Heq.
    assert (tab_ok τ') as Hok' by (eapply ok_in; [apply I|done]). pose proof (idx_size τ' [] Hok').
    eapply (cell_apart _ _ _ τ τ' j HL); [done..|lia|done].
  - eapply built_trans; [apply I|]. by destruct s.
  - intros a Ha. rewrite H2'; [by apply I|]. intros j [Hj _] ->. destruct (lay_in _ _ _ HL τ Hτ). lia.
Qed.

End advance.

Lemma inv_mono s0 k k' P B s tabs : k <= k' → inv s0 k P B s tabs → inv s0 k' P B s tabs.
Proof.
  intros Hk I. destruct I. constructor; try done.
  - destruct inv_h0 as (? & ? & ?). split_and!; [done|done|lia].
  - intros HP Hh Hkl. apply inv_top0; [done|done|lia].
Qed.

Lemma contains_up τ τ' P P' :
  tab_ok τ → tab_ok τ' → tw τ' <= tw τ → contains τ P → contains τ P' → contains τ' P → contains τ' P'.
Proof.
  intros Hok Hok' Hw H1 H2 H3. pose proof (ok_w _ Hok). pose proof (ok_w _ Hok').
  destruct (ok_first _ Hok) as (Hd & _). destruct (ok_first _ Hok') as (Hd' & _). unfold contains in *.
  apply interval in H1, H2, H3; try done; try lia. apply interval; try done; try lia. rewrite <- H3.
  replace (g - tw τ') with ((g - tw τ) + (tw τ - tw τ')) by lia. rewrite Z.pow_add_r by lia.
  rewrite <- !Z.div_div by lia. congruence.
Qed.

(** The loop that fills the entries. *)
Lemma entries_loop k m τ w j0 j :
  tw τ = w → w < k → Z.shiftr (rev g (pos k m)) w = j0 → 0 <= j0 < 2 ^ (k - w) →
  code_entries k m τ j ↔ j0 <= j < tsz τ ∧ (j - j0) mod 2 ^ (k - w) = 0.
Proof.
  intros Hw Hwk Hj0 Hr. unfold code_entries. rewrite Hw, Hj0. assert (0 < 2 ^ (k - w)) by lia. split.
  - intros [Hj1 <-]. split; [|rewrite Zminus_mod_idemp_r, Z.sub_diag; apply Z.mod_0_l; lia].
    assert (j mod 2 ^ (k - w) <= j) by (apply Z.mod_le; lia). lia.
  - intros [Hj1 Hj2]. split; [lia|]. apply Z.mod_divide in Hj2 as [x Hx]; [|lia].
    replace j with (j0 + x * 2 ^ (k - w)) by lia. by rewrite Z_mod_plus_full, Z.mod_small.
Qed.

Lemma increment_pos k m :
  is_code k m → back_increment (Z.to_nat k + 1) (rev g (pos k m)) (2 ^ (k - 1)) = rev g (pos k (m + 1)).
Proof.
  intros Hc. destruct (pos_facts k m Hc) as (_ & [C HC] & _ & _). destruct Hc as [Hk _].
  rewrite pos_next, HC. replace (C * 2 ^ (g - k) + 2 ^ (g - k)) with ((C + 1) * 2 ^ (g - k)) by lia.
  rewrite !rev_mult by lia. rewrite <- (back_increment_rev k C (Z.to_nat k + 1)) by lia. f_equal.
  replace k with (1 + (k - 1)) at 2 by lia. rewrite Z.pow_add_r, (Z.mul_comm (2 ^ 1)), Z.div_mul by lia. done.
Qed.

Lemma shifted_pos k m w :
  is_code k m → 0 <= w < k → 0 <= Z.shiftr (rev g (pos k m)) w < 2 ^ (k - w).
Proof.
  intros Hc Hw. destruct (pos_facts k m Hc) as (_ & Hd & _ & _). destruct Hc as [Hk _].
  rewrite Z.shiftr_div_pow2 by lia. assert (0 <= rev g (pos k m) < 2 ^ k) by (apply rev_prefix; [lia|done]).
  split; [apply Z.div_pos; lia|]. apply Z.div_lt_upper_bound; [lia|]. rewrite <- Z.pow_add_r by lia.
  replace (w + (k - w)) with k by lia. lia.
Qed.

(** What [back_up] finds is the level of the next code. *)
Lemma backed_up s0 k m B s tabs h :
  inv s0 k (pos k m) B s tabs → is_code k m → 0 <= h <= h_ B →
  (∀ τ, on_stack tabs B (pos k m) h τ → rev g (pos k (m + 1)) mod 2 ^ (l * h) = rev g (tT τ)) →
  pos k (m + 1) < 2 ^ g → ∀ h' τ, 0 <= h' <= h → on_stack tabs B (pos k m) h' τ → contains τ (pos k (m + 1)).
Proof.
  intros I Hc Hh Hm Hlt h' τ' Hh' Hst'. destruct (pos_facts k m Hc) as (H0 & Hd & Hpow & _). pose proof (full_l F).
  destruct (inv_stack _ _ _ _ _ _ I ltac:(lia) h Hh) as (τ & Hst).
  assert (tab_ok τ) as Hok by (eapply ok_in; [apply I|apply Hst]).
  assert (tab_ok τ') as Hok' by (eapply ok_in; [apply I|apply Hst']).
  pose proof (Hm τ Hst) as Heq. destruct Hst as (_ & _ & _ & Hw & HP), Hst' as (_ & _ & _ & Hw' & HP').
  rewrite <- Hw in Heq. apply contains_mod in Heq; [|done|rewrite pos_next in *; lia].
  apply (contains_up τ τ' (pos k m)); try done. nia.
Qed.

Section loop.
(** The arguments of the source's loop, and the value pointer at each code. *)
Context (n sv : Z) (d e : list Z) (v : list (option Z)) (pp : Z → Z → Z).
Context (Hent : ∀ k m B s (Q : huft * Z → gz → Prop), is_code k m → p_ B = pp k m → 0 <= k - w_ B <= 16 →
  (∀ r, E k m r → huft_b r = k - w_ B → Q (r, pp k (m + 1)) s) → runs (entry n sv d e v k B) s Q).

Lemma make_code_runs s0 k m B s tabs M (Q : builder → gz → Prop) :
  inv s0 k (pos k m) B s tabs → is_code k m → p_ B = pp k m → (tabs = [] → k <= l) →
  shallow k (cnt k - 1 - m) (pos k m) → k <= l * M → free_mem_ptr s + M * table_max < free_mem_end_ptr s →
  (∀ B' s' tabs', inv s0 k (pos k (m + 1)) B' s' tabs' → p_ B' = pp k (m + 1) → tabs' ≠ [] →
     free_mem_ptr s' <= free_mem_ptr s + M * table_max → Q B' s') →
  runs (make_code n sv d e c v l g k (cnt k - 1 - m) B) s Q.
Proof.
  intros I Hc Hp Hroot Hsh HkM Hmem HQ. pose proof (full_l F) as Hl. pose proof (full_g F).
  destruct (pos_facts k m Hc) as (H0 & Hd & Hpow & H3). pose proof Hc as [Hk1 Hm].
  destruct (inv_h _ _ _ _ _ _ I) as (Hh1 & Hw1 & _). unfold make_code. apply runs_bind.
  eapply (make_tables_runs 17 s0 k _ (pos k m) B s tabs M); try done; try nia.
  { unfold pos. nia. }
  { rewrite kr_step by lia. unfold pos. lia. }
  clear I Hh1 Hw1 Hmem. intros B1 s1 tabs1 I Hh Hkw Hp1 Hf1. destruct (inv_h _ _ _ _ _ _ I) as (_ & Hw & Hwk).
  destruct (top_table s0 k m B1 s1 tabs1 I Hc Hh Hkw) as (τ & Hst & Hok & Hq & Hz & Htw & Hkt).
  apply runs_bind. apply Hent with m; [done|congruence|lia|]. intros r HE Hb.
  rewrite !Z.shiftl_1_l. apply runs_bind. rewrite (inv_i _ _ _ _ _ _ I).
  pose proof (shifted_pos k m (w_ B1) Hc ltac:(nia)) as Hj.
  apply fill_table_runs; [lia|lia|]. intros hp' HW Hnw. rewrite Hq, Hz in HW, Hnw.
  apply runs_bind. rewrite increment_pos, Hw by done.
  eapply (back_up_runs 17 _ _ _ (λ h, match x_ B1 !! Z.to_nat h with Some (Some y) => y | _ => 0 end)); try apply I.
  { done. }
  { pose proof (level_small _ _ _ Hw Hwk ltac:(lia)). lia. }
  { intros h' Hh'. destruct (inv_stack _ _ _ _ _ _ I ltac:(lia) h' Hh') as (τ' & _ & _ & -> & _). done. }
  intros h Hhh Hin Hout. apply runs_ret. eapply (HQ (next_builder k m B1 h _ r) (set_heap hp' s1) tabs1); [|done| |done].
  - eapply inv_advance; try done.
    + eapply backed_up; [done|done|lia|]. intros τ' (_ & _ & Hx & _). rewrite Hin, Hx. done.
    + intros Hlt h' τ' Hh' Hst' Hcn. apply (Hout h' Hh'). destruct Hst' as (Hτ' & _ & Hx & Htw' & _). rewrite Hx, <- Htw'.
      apply contains_mod; [eapply ok_in; [apply I|done]|rewrite pos_next in *; lia|done].
    + intros j Hje. apply (entries_loop k m τ (w_ B1) _ j Htw Hwk eq_refl Hj) in Hje as [? ?]. by apply HW.
    + intros a Ha. apply Hnw. intros i Hi Him. apply Ha. by apply (entries_loop k m τ (w_ B1) _ i Htw Hwk eq_refl Hj).
    + lia.
  - intros ->. pose proof (inv_first _ _ _ _ _ _ I) as Hfi. cbn in Hfi. lia.
Qed.

Context (Hshallow : ∀ k m, is_code k m → shallow k (cnt k - 1 - m) (pos k m)).
Context (Hpp : ∀ k, 1 <= k → pp k (cnt k) = pp (k + 1) 0).

Lemma make_codes_runs a s0 k m B s tabs M (Q : builder → gz → Prop) :
  inv s0 k (pos k m) B s tabs → 1 <= k <= g → 0 <= m → Z.of_nat a = cnt k - m → p_ B = pp k m →
  (tabs = [] → k <= l) → k <= l * M → free_mem_ptr s + Z.of_nat a * (M * table_max) < free_mem_end_ptr s →
  (∀ B' s' tabs', inv s0 k (pos k (cnt k)) B' s' tabs' → p_ B' = pp k (cnt k) →
     (tabs' = [] → a = O ∧ tabs = []) →
     free_mem_ptr s' <= free_mem_ptr s + Z.of_nat a * (M * table_max) → Q B' s') →
  runs (make_codes n sv d e c v l g a k B) s Q.
Proof.
  revert m B s tabs. induction a as [|a IH]; intros m B s tabs I Hk Hm Ha Hp Hroot HM Hmem HQ; cbn [make_codes].
  { apply runs_ret, (HQ B s tabs); [by replace (cnt k) with m by lia..|done|lia]. }
  assert (0 <= M * table_max).
  { pose proof (full_l F). pose proof (table_max_bound 0 ltac:(lia)). apply Z.mul_nonneg_nonneg; nia. }
  rewrite Nat2Z.inj_succ, Z.mul_succ_l in *. apply runs_bind. replace (Z.of_nat a) with (cnt k - 1 - m) by lia.
  assert (is_code k m) as Hc by (split; lia).
  eapply (make_code_runs s0 k m B s tabs M); try done; [by apply Hshallow|nia|].
  intros B1 s1 tabs1 I1 Hp1 Hne Hf1.
  assert (free_mem_end_ptr s1 = free_mem_end_ptr s) as He.
  { pose proof (inv_built _ _ _ _ _ _ I) as Hb. pose proof (inv_built _ _ _ _ _ _ I1) as Hb1. by rewrite Hb1, Hb. }
  apply (IH (m + 1) B1 s1 tabs1); try done; try lia.
  intros B' s' tabs' I' Hp' Ht' Hf'. apply (HQ B' s' tabs'); [done|done| |lia]. intros Hnil. by destruct (Ht' Hnil).
Qed.

Fixpoint codes_in (m : nat) (k : Z) : Z :=
  match m with O => 0 | S m => cnt k + codes_in m (k + 1) end.

Lemma codes_in_nonneg m k : 0 <= codes_in m k.
Proof. revert k. induction m as [|m IH]; intros k; cbn; [lia|]. pose proof (full_cnt F k). specialize (IH (k + 1)). lia. Qed.

Lemma pos_length k : 1 <= k → pos k (cnt k) = pos (k + 1) 0.
Proof. intros Hk. unfold pos. replace (k + 1 - 1) with k by lia. rewrite (kr_step k) by done. lia. Qed.

Lemma make_lengths_runs rounds s0 k B s tabs M (Q : builder → gz → Prop) :
  inv s0 k (pos k 0) B s tabs → 1 <= k → k + Z.of_nat rounds = g + 1 → p_ B = pp k 0 →
  (tabs = [] → k <= l ∧ 1 <= cnt k) → g <= l * M →
  free_mem_ptr s + codes_in rounds k * (M * table_max) < free_mem_end_ptr s →
  (∀ B' s' tabs', inv s0 (g + 1) (2 ^ g) B' s' tabs' → tabs' ≠ [] →
     free_mem_ptr s' <= free_mem_ptr s + codes_in rounds k * (M * table_max) → Q B' s') →
  runs (make_lengths n sv d e c v l g rounds k B) s Q.
Proof.
  revert k B s tabs. induction rounds as [|r IH]; intros k B s tabs I Hk Hr Hp Hroot HM Hmem HQ; cbn [make_lengths].
  { apply runs_ret. assert (k = g + 1) as -> by lia.
    assert (pos (g + 1) 0 = 2 ^ g) as Hpos.
    { unfold pos. replace (g + 1 - 1) with g by lia. rewrite (full_all F). lia. }
    rewrite Hpos in I. apply (HQ B s tabs); [done| |cbn; lia]. intros ->. pose proof (full_l F). destruct (Hroot eq_refl). lia. }
  pose proof (full_l F). pose proof (full_g F). pose proof (full_cnt F k). pose proof (codes_in_nonneg r (k + 1)).
  assert (0 <= M * table_max).
  { pose proof (table_max_bound 0 ltac:(lia)). apply Z.mul_nonneg_nonneg; nia. }
  cbn [codes_in] in *. rewrite Z.mul_add_distr_r in *.
  apply runs_bind. eapply runs_rd; [lia|apply c_lookup; lia|]. apply runs_bind.
  eapply (make_codes_runs _ s0 k 0 B s tabs M); try done; try lia.
  { by apply Hroot. }
  intros B1 s1 tabs1 I1 Hp1 Hne Hf1. rewrite Z2Nat.id in Hf1 by lia.
  assert (free_mem_end_ptr s1 = free_mem_end_ptr s) as He.
  { pose proof (inv_built _ _ _ _ _ _ I) as Hb. pose proof (inv_built _ _ _ _ _ _ I1) as Hb1. by rewrite Hb1, Hb. }
  rewrite pos_length in I1 by lia.
  apply (IH (k + 1) B1 s1 tabs1); try lia.
  - apply (inv_mono _ k); [lia|done].
  - by rewrite Hp1, Hpp by lia.
  - intros Hnil. destruct (Hne Hnil) as [Ha Ht]. destruct (Hroot Ht). lia.
  - intros B' s' tabs' I' Hne' Hf'. apply (HQ B' s' tabs'); [done|done|lia].
Qed.

End loop.

(** ** The result *)

Lemma first_unique τ0 tabs τ :
  (∀ τ', τ' ∈ tabs → 0 < tw τ') → τ ∈ τ0 :: tabs → tw τ = 0 → τ = τ0.
Proof. intros H [?|Hτ]%elem_of_cons Hw; [done|]. specialize (H _ Hτ). lia. Qed.

(** What a table finds, the first one finds. *)
Lemma leads_from hp tabs root rest h : ∀ τ σ n k r,
  tabs = root :: rest → (∀ τ', τ' ∈ rest → 0 < tw τ') → tJ root = l → Forall tab_ok tabs → links hp tabs →
  τ ∈ tabs → tw τ = l * Z.of_nat h → contains τ (num g σ) → g <= Z.of_nat (length σ) →
  leads hp l n (ta τ) (tJ τ) (drop (Z.to_nat (tw τ)) σ) k r →
  leads hp l (h + n) (ta root) l σ (tw τ + k) r.
Proof.
  induction h as [|h IH]; intros τ σ n k r Htabs Hrest HJ Hok Hli Hτ Hw Hσ Hl Hle.
  - assert (tw τ = 0) as Hw0 by lia. rewrite Htabs in Hτ. apply (first_unique root) in Hτ as ->; [|done|done].
    rewrite Hw0, HJ in *. done.
  - pose proof (full_l F). destruct (Hli τ Hτ) as [?|(τp & Hτp & Hwp & HJp & Hin & Hr)]; [nia|].
    assert (tab_ok τ) as Hokτ by (by eapply ok_in). assert (tab_ok τp) as Hokp by (by eapply ok_in).
    destruct (ok_first _ Hokτ) as (Hd & H0 & H1). pose proof (ok_w _ Hokτ). pose proof (ok_w _ Hokp).
    pose proof (ok_g _ Hokp). pose proof (ok_bits _ Hokτ). pose proof (full_g F). assert (0 < 2 ^ (g - tw τ)) by lia.
    assert (contains τp (num g σ)) as Hσp.
    { apply (contains_up τ τp (tT τ)); try done; [lia|]. unfold contains. lia. }
    replace (S h + n)%nat with (h + S n)%nat by lia. replace (tw τ + k) with (tw τp + (l + k)) by lia.
    apply (IH τp); try done; [lia|]. apply leads_down with (ta τ) (tJ τ); [rewrite length_drop; lia| |lia|lia|].
    + change (value (take (Z.to_nat (tJ τp)) (drop (Z.to_nat (tw τp)) σ))) with (idx τp σ).
      rewrite (proj2 (idx_child τp σ (tT τ) Hokp HJp Hσp Hin Hl ltac:(by rewrite <- Hwp))); [done|].
      unfold contains in Hσ. by rewrite <- Hwp.
    + rewrite drop_drop. replace (Z.to_nat (tw τp) + Z.to_nat l)%nat with (Z.to_nat (tw τ)) by lia. done.
Qed.

(** Two heaps that agree from one address to another. *)
Definition agree (lo hi : Z) (hp hp' : gmap Z huft) : Prop := ∀ a, lo <= a < hi → hp' !! a = hp !! a.

Lemma agree_entries lo hi hp hp' tabs :
  agree lo hi hp hp' → lay lo hi tabs →
  ∀ τ j, τ ∈ tabs → 0 <= j < tsz τ → hp' !! (ta τ + 8 * j) = hp !! (ta τ + 8 * j).
Proof. intros Ha HL τ j Hτ Hj. destruct (lay_in _ _ _ HL τ Hτ). apply Ha. lia. Qed.

(** In the finished tables every code leads to its entry, in any memory that holds
    the tables. *)
Lemma inv_leads s0 B s tabs k m σ hp :
  inv s0 (g + 1) (2 ^ g) B s tabs → agree (free_mem_ptr s0) (free_mem_ptr s) (heap s) hp →
  is_code k m → g <= Z.of_nat (length σ) → pos k m <= num g σ < pos k m + 2 ^ (g - k) →
  ∃ r, E k m r ∧ leads hp l 16 (result_ B) l σ k r.
Proof.
  intros I Ha Hc Hl Hσ. pose proof (pos_range _ _ Hc) as (_ & HP & HP2).
  pose proof (inv_tabs _ _ _ _ _ _ I) as Hok. pose proof (agree_entries _ _ _ _ _ Ha (inv_lay _ _ _ _ _ _ I)) as He.
  pose proof (paths_ext _ _ _ _ Hok He (inv_paths _ _ _ _ _ _ I)) as Hpa.
  pose proof (links_ext _ _ _ Hok He (inv_links _ _ _ _ _ _ I)) as Hli.
  destruct (Hpa k m σ Hc) as (τ & r & Hτ & Hin & Hk & Hr & HE & Hb); [lia|done|done|].
  exists r. split; [done|]. rewrite (inv_result _ _ _ _ _ _ I).
  pose proof (inv_first _ _ _ _ _ _ I) as Hfi. destruct tabs as [|root rest] eqn:Htabs; [set_solver|].
  destruct Hfi as (_ & _ & HJ & Hrest). assert (tab_ok τ) as Hokτ by (by eapply ok_in).
  destruct (ok_level _ Hokτ) as (h & Hh & Hwh). pose proof (ok_w _ Hokτ). pose proof (full_l F). pose proof (full_g F).
  replace k with (tw τ + (k - tw τ)) by lia.
  assert (h < 16) by nia. replace 16%nat with (Z.to_nat h + (16 - Z.to_nat h))%nat by lia.
  eapply (leads_from hp (root :: rest) root rest); try done.
  - intros τ' Hτ'. apply list_elem_of_In in Hτ'. by apply (proj1 (List.Forall_forall _ _) Hrest).
  - lia.
  - rewrite <- Hb. pose proof (ok_g _ Hokτ). apply leads_here; [rewrite length_drop; lia|done|lia].
Qed.

(** The list that [huft_free] walks, for any such memory. *)
Fixpoint listed (hp : gmap Z huft) (t : Z) (ts : list Z) : Prop :=
  match ts with
  | [] => t = 0
  | a :: ts => t = a ∧ a ≠ 0 ∧ ∃ x t', hp !! (a - 8) = Some x ∧ huft_v x = VT t' ∧ listed hp t' ts
  end.

Lemma chain_listed hp tabs :
  chain hp tabs → (∀ τ, τ ∈ tabs → ta τ ≠ 0) → listed hp (match tabs with [] => 0 | τ :: _ => ta τ end) (ta <$> tabs).
Proof.
  induction tabs as [|τ tabs IH]; intros Hc H0; [done|]. destruct Hc as [(x & Hx & Hv) Hc]. cbn. split_and!; [done| |].
  - apply H0. set_solver.
  - exists x. eexists. split_and!; [done|done|]. apply IH; [done|]. intros τ' Hτ'. apply H0. set_solver.
Qed.

Lemma inv_listed s0 k P B s tabs hp :
  inv s0 k P B s tabs → agree (free_mem_ptr s0) (free_mem_ptr s) (heap s) hp →
  ∃ ts, listed hp (result_ B) ts ∧ NoDup ts.
Proof.
  intros I Ha. destruct (inv_free _ _ _ _ _ _ I) as (_ & H0 & _). pose proof (inv_lay _ _ _ _ _ _ I) as HL.
  assert (∀ τ, τ ∈ tabs → 0 <= tsz τ) as Hsz.
  { intros τ Hτ. pose proof (idx_size τ [] (ok_in _ _ (inv_tabs _ _ _ _ _ _ I) Hτ)). lia. }
  exists (ta <$> tabs). split.
  - rewrite (inv_result _ _ _ _ _ _ I). apply chain_listed.
    + eapply chain_ext; [|apply I]. intros τ Hτ. destruct (lay_in _ _ _ HL τ Hτ). specialize (Hsz _ Hτ). apply Ha. lia.
    + intros τ Hτ. destruct (lay_in _ _ _ HL τ Hτ). lia.
  - pose proof (inv_nodup _ _ _ _ _ _ I) as Hd. clear I Ha. induction tabs as [|τ tabs IH]; [constructor|].
    apply list.NoDup_cons in Hd as [Hn Hd]. cbn. constructor.
    + intros (τ' & Heq & Hτ')%list_elem_of_fmap. destruct (lay_apart _ _ _ HL τ τ') as [->|[?|?]]; [set_solver..|done| |].
      * specialize (Hsz τ ltac:(set_solver)). lia.
      * specialize (Hsz τ' ltac:(set_solver)). lia.
    + apply IH; [|set_solver|done]. split; intros; apply HL; set_solver.
Qed.

(** The codes left at a position fill what is left. *)
Lemma rest_taken n k :
  1 <= k → k + Z.of_nat n = g + 1 → 2 ^ g - kr (k - 1) <= codes_in n k * 2 ^ (g - k).
Proof.
  revert k. induction n as [|n IH]; intros k Hk Hn; cbn [codes_in].
  - replace (k - 1) with g by lia. rewrite (full_all F). lia.
  - specialize (IH (k + 1) ltac:(lia) ltac:(lia)). replace (k + 1 - 1) with k in IH by lia.
    rewrite (kr_step k) in IH by lia. pose proof (codes_in_nonneg n (k + 1)).
    destruct (decide (k = g)) as [->|].
    + assert (n = O) as -> by lia. cbn [codes_in] in *. rewrite Z.sub_diag, Z.pow_0_r in *. lia.
    + assert (2 ^ (g - k) = 2 * 2 ^ (g - (k + 1))) as Hp.
      { rewrite <- Z.pow_succ_r by lia. f_equal. lia. }
      assert (0 < 2 ^ (g - (k + 1))) by lia. rewrite Hp in *. nia.
Qed.

Lemma codes_in_split a b k : codes_in (a + b) k = codes_in a k + codes_in b (k + Z.of_nat a).
Proof.
  revert k. induction a as [|a IH]; intros k; cbn [codes_in Nat.add]; [by rewrite Z.add_0_r|].
  rewrite IH. replace (k + 1 + Z.of_nat a) with (k + Z.of_nat (S a)) by lia. lia.
Qed.

(** Few codes, or codes not much longer than a table. *)
Lemma shallow_codes :
  g <= 2 * l ∨ codes_in (Z.to_nat g) 1 < 2 ^ l → ∀ k m, is_code k m → shallow k (cnt k - 1 - m) (pos k m).
Proof.
  intros Hor k m Hc h Hh Hw Hd. destruct (pos_facts k m Hc) as (H0 & _ & Hpow & _). destruct Hc as [Hk Hm].
  pose proof (full_l F). pose proof (full_pattern (pos k m) (l * h) ltac:(nia) Hd ltac:(lia)) as HP.
  assert (0 < 2 ^ (g - l * h)) by lia. unfold short_below. destruct Hor as [Hg|Hn].
  - split; [nia|]. intros Hkw _. assert (k = g) as -> by nia. unfold pos in HP. rewrite Z.sub_diag, Z.pow_0_r in HP.
    pose proof (kr_step g ltac:(lia)) as Hks. rewrite (full_all F), Z.sub_diag, Z.pow_0_r in Hks.
    replace (g - l * h) with l in HP by lia. lia.
  - assert (k - l * h < l); [|lia]. apply (Z.pow_lt_mono_r_iff 2); [lia|lia|].
    pose proof (rest_taken (Z.to_nat (g - k + 1)) k ltac:(lia) ltac:(lia)) as Hr.
    replace (Z.to_nat g) with (Z.to_nat (k - 1) + Z.to_nat (g - k + 1))%nat in Hn by lia.
    rewrite codes_in_split in Hn. replace (1 + Z.of_nat (Z.to_nat (k - 1))) with k in Hn by lia.
    pose proof (codes_in_nonneg (Z.to_nat (k - 1)) 1).
    assert (2 ^ (g - l * h) = 2 ^ (k - l * h) * 2 ^ (g - k)) as Hp.
    { rewrite <- Z.pow_add_r by lia. f_equal. lia. }
    unfold pos in HP. rewrite Hp in *. nia.
Qed.

End tables.

End Huft.
