(* ===== verification/HuftBuild.v ===== *)
(** * [huft_build] and [decode]

    The counts, offsets and sorted values that [huft_build] prepares, and its
    correctness: the bits of every canonical code lead to the entry of its symbol
    ([huft_build_runs]); and [decode] follows them ([decode_runs]). *)

From stdpp Require Import gmap.
From S2P Require Import Prelude Deflate Inflate InflateBits Huft.

Module HuftBuild.
Import Deflate Inflate InflateBits Huft.

(** ** Counts *)

Lemma bl_count_cons x lens n : bl_count (x :: lens) n = (if decide (x = n) then 1 else 0) + bl_count lens n.
Proof. unfold bl_count. rewrite filter_cons. destruct (decide (x = n)); cbn [length]; lia. Qed.

Lemma bl_count_nonneg lens n : 0 <= bl_count lens n.
Proof. unfold bl_count. lia. Qed.

Lemma bl_count_app l1 l2 n : bl_count (l1 ++ l2) n = bl_count l1 n + bl_count l2 n.
Proof. unfold bl_count. rewrite list.filter_app, length_app. lia. Qed.

Lemma bl_count_take lens i n : bl_count (take i lens) n <= bl_count lens n.
Proof.
  rewrite <- (take_drop i lens) at 2. rewrite bl_count_app. pose proof (bl_count_nonneg (drop i lens) n). lia.
Qed.

Lemma bl_count_take_S lens i n :
  lens !! i = Some n → bl_count (take (S i) lens) n = bl_count (take i lens) n + 1.
Proof.
  intros Hi. rewrite (take_S_r _ _ _ Hi), bl_count_app, bl_count_cons.
  destruct (decide (n = n)); [|done]. unfold bl_count at 2. cbn. lia.
Qed.

Lemma bl_count_take_mono lens i j n : (i <= j)%nat → bl_count (take i lens) n <= bl_count (take j lens) n.
Proof. intros H. replace (take i lens) with (take i (take j lens)) by (rewrite take_take; f_equal; lia). apply bl_count_take. Qed.

(** The rank of a symbol among those of its length identifies it. *)
Lemma rank_lt lens i n : lens !! i = Some n → bl_count (take i lens) n < bl_count lens n.
Proof. intros Hi. pose proof (bl_count_take lens (S i) n). rewrite (bl_count_take_S _ _ _ Hi) in *. lia. Qed.

Lemma rank_unique lens i j n :
  lens !! i = Some n → lens !! j = Some n → bl_count (take i lens) n = bl_count (take j lens) n → i = j.
Proof.
  intros Hi Hj H. destruct (Nat.lt_trichotomy i j) as [?|[?|?]]; [|done|]; exfalso.
  - pose proof (bl_count_take_mono lens (S i) j n ltac:(lia)). rewrite (bl_count_take_S _ _ _ Hi) in *. lia.
  - pose proof (bl_count_take_mono lens (S j) i n ltac:(lia)). rewrite (bl_count_take_S _ _ _ Hj) in *. lia.
Qed.

Lemma rank_exists lens m n :
  0 <= m < bl_count lens n → ∃ i, lens !! i = Some n ∧ bl_count (take i lens) n = m.
Proof.
  revert m. induction lens as [|x lens IH]; intros m Hm; [unfold bl_count in Hm; cbn in Hm; lia|]. rewrite bl_count_cons in Hm.
  destruct (decide (x = n)) as [->|].
  - destruct (decide (m = 0)) as [->|]; [by exists O|]. destruct (IH (m - 1)) as (i & Hi & Hr); [lia|].
    exists (S i). split; [done|]. cbn [take]. rewrite bl_count_cons. destruct (decide (n = n)); [lia|done].
  - destruct (IH m) as (i & Hi & Hr); [lia|]. exists (S i). split; [done|]. cbn [take]. rewrite bl_count_cons.
    destruct (decide (x = n)); [done|lia].
Qed.

Lemma cnt_insert c i k x :
  0 <= i < Z.of_nat (length c) → 0 <= k → cnt (<[Z.to_nat i:=x]> c) k = if decide (k = i) then x else cnt c k.
Proof.
  intros Hi Hk. unfold cnt. rewrite !nth_lookup. destruct (decide (k = i)) as [->|Hne].
  - rewrite list_lookup_insert_eq by lia. done.
  - rewrite list_lookup_insert_ne by lia. done.
Qed.

Lemma cnt_lookup c k : 0 <= k < Z.of_nat (length c) → c !! Z.to_nat k = Some (cnt c k).
Proof.
  intros Hk. unfold cnt. destruct (lookup_lt_is_Some_2 c (Z.to_nat k)) as [x Hx]; [lia|].
  by rewrite Hx, (nth_lookup_Some _ _ _ _ Hx).
Qed.

Lemma count_lengths_runs b c s (Q : list Z → gz → Prop) :
  length c = 17%nat → Forall (λ x, 0 <= x <= 16) b →
  (∀ c', length c' = 17%nat → (∀ k, 0 <= k → cnt c' k = cnt c k + bl_count b k) → Q c' s) →
  runs (count_lengths c b) s Q.
Proof.
  intros Hc Hb. revert c Hc. induction Hb as [|x b Hx _ IH]; intros c Hc HQ; cbn [count_lengths].
  - apply runs_ret, HQ; [done|]. intros k Hk. unfold bl_count. cbn. lia.
  - apply runs_bind. eapply runs_rd; [lia|apply cnt_lookup; lia|]. apply runs_bind, runs_wr; [lia|].
    apply IH; [by rewrite length_insert|]. intros c' Hc' Hcnt. apply HQ; [done|]. intros k Hk.
    rewrite Hcnt, cnt_insert, bl_count_cons by lia.
    destruct (decide (k = x)), (decide (x = k)); subst; done || lia.
Qed.

(** ** The shortest and the longest code *)

Lemma first_used_spec c j :
  (∃ i x, c !! i = Some x ∧ x ≠ 0) →
  ∃ i x, first_used c j = j + Z.of_nat i ∧ c !! i = Some x ∧ x ≠ 0 ∧ ∀ i', (i' < i)%nat → c !! i' = Some 0.
Proof.
  revert j. induction c as [|x c IH]; intros j (i & y & Hi & Hy); [done|]. cbn [first_used]. unfold truthy.
  destruct (Z.eqb_spec x 0) as [->|Hx]; cbn [negb].
  - destruct i as [|i]; [cbn in Hi; congruence|]. destruct (IH (j + 1)) as (k & z & -> & Hk & Hz & Hb); [by exists i, y|].
    exists (S k), z. split_and!; [lia|done|done|]. intros [|i'] Hi'; [done|]. apply Hb. lia.
  - exists O, x. split_and!; [lia|done|done|lia].
Qed.

Lemma first_used_cnt c k :
  length c = 17%nat → 1 <= k <= 16 → cnt c k ≠ 0 →
  let j := first_used (drop 1 c) 1 in 1 <= j <= 16 ∧ cnt c j ≠ 0 ∧ ∀ k', 1 <= k' < j → cnt c k' = 0.
Proof.
  intros Hc Hk Hn. destruct (first_used_spec (drop 1 c) 1) as (i & x & Hj & Hi & Hx & Hb).
  { exists (Z.to_nat (k - 1)), (cnt c k). split; [|done]. rewrite lookup_drop.
    replace (1 + Z.to_nat (k - 1))%nat with (Z.to_nat k) by lia. apply cnt_lookup. lia. }
  rewrite Hj. cbn. rewrite lookup_drop in Hi. assert (i < 16)%nat by (apply lookup_lt_Some in Hi; lia).
  split; [lia|]. split.
  - unfold cnt. replace (Z.to_nat (1 + Z.of_nat i)) with (1 + i)%nat by lia.
    by rewrite (nth_lookup_Some _ _ _ _ Hi).
  - intros k' Hk'. specialize (Hb (Z.to_nat (k' - 1)) ltac:(lia)). rewrite lookup_drop in Hb.
    unfold cnt. replace (Z.to_nat k') with (1 + Z.to_nat (k' - 1))%nat by lia. by rewrite (nth_lookup_Some _ _ _ _ Hb).
Qed.

Lemma last_used_spec c i k :
  1 <= k <= Z.of_nat i → cnt c k ≠ 0 →
  1 <= last_used c i <= Z.of_nat i ∧ cnt c (last_used c i) ≠ 0 ∧ ∀ k', last_used c i < k' <= Z.of_nat i → cnt c k' = 0.
Proof.
  induction i as [|i IH]; intros Hk Hn; [lia|]. cbn [last_used]. unfold truthy.
  destruct (Z.eqb_spec (nth (S i) c 0) 0) as [Hz|Hz]; cbn [negb].
  - assert (cnt c (Z.of_nat (S i)) = 0) as Hz' by (unfold cnt; by rewrite Nat2Z.id).
    destruct IH as (H1 & H2 & H3); [|done|].
    { destruct (decide (k = Z.of_nat (S i))) as [->|]; [done|lia]. }
    split_and!; [lia|lia|done|]. intros k' Hk'. destruct (decide (k' = Z.of_nat (S i))) as [->|]; [done|]. apply H3. lia.
  - split_and!; [lia|lia| |lia]. unfold cnt. by rewrite Nat2Z.id.
Qed.

(** ** The patterns left over *)

Lemma taken_le g c n m : (∀ k, 0 <= cnt c k) → (n <= m)%nat → taken g c n <= taken g c m.
Proof.
  intros Hc. induction 1 as [|m _ IH]; [lia|]. cbn [taken]. pose proof (Hc (Z.of_nat (S m))).
  assert (0 <= 2 ^ (g - Z.of_nat (S m))) by (apply Z.pow_nonneg; lia). nia.
Qed.

Lemma kr_le g c a b : (∀ k, 0 <= cnt c k) → a <= b → kr g c a <= kr g c b.
Proof. intros Hc H. apply taken_le; [done|lia]. Qed.

(** Only the counts matter. *)
Lemma kr_ext g c c' k : (∀ k', 1 <= k' <= k → cnt c k' = cnt c' k') → kr g c k = kr g c' k.
Proof.
  intros H. unfold kr. assert (∀ n, (n <= Z.to_nat k)%nat → taken g c n = taken g c' n) as Ht; [|by apply Ht].
  induction n as [|n IH]; intros Hn; [done|]. cbn [taken]. rewrite IH, H by lia. done.
Qed.

Lemma kr_zero g c k : (∀ k', 1 <= k' <= k → cnt c k' = 0) → kr g c k = 0.
Proof.
  intros H. unfold kr. assert (∀ n, (n <= Z.to_nat k)%nat → taken g c n = 0) as Ht; [|by apply Ht].
  induction n as [|n IH]; intros Hn; [done|]. cbn [taken]. rewrite IH, H by lia. lia.
Qed.

Lemma patterns_left_spec n g c j y :
  (∀ k, 0 <= cnt c k) → 1 <= j → j + Z.of_nat n = g → y * 2 ^ (g - j) = 2 ^ g - kr g c (j - 1) →
  kr g c g <= 2 ^ g → patterns_left n c j y = Some (2 ^ g - kr g c g).
Proof.
  intros Hc. revert j y. induction n as [|n IH]; intros j y Hj Hn Hy Hle; cbn [patterns_left].
  all: fold (cnt c j); pose proof (kr_step g c j Hj) as Hk; pose proof (kr_le g c j g Hc ltac:(lia)).
  all: assert (0 < 2 ^ (g - j)) by lia; destruct (Z.ltb_spec (y - cnt c j) 0); [nia|].
  - assert (j = g) as -> by lia. rewrite Z.sub_diag, Z.pow_0_r in *. f_equal. lia.
  - apply IH; [lia|lia| |done]. replace (j + 1 - 1) with j by lia.
    replace (2 ^ (g - j)) with (2 * 2 ^ (g - (j + 1))) in *; [nia|]. rewrite <- Z.pow_succ_r by lia. f_equal. lia.
Qed.

(** ** Offsets and sorted values *)

(** The number of codes shorter than [k]. *)
Definition off (c : list Z) (k : Z) : Z := codes_in c (Z.to_nat (k - 1)) 1.

Lemma off_step c k : 1 <= k → off c (k + 1) = off c k + cnt c k.
Proof.
  intros Hk. unfold off. replace (Z.to_nat (k + 1 - 1)) with (Z.to_nat (k - 1) + 1)%nat by lia.
  rewrite codes_in_split. cbn [codes_in]. rewrite Z.add_0_r. do 2 f_equal. lia.
Qed.

Lemma off_mono c a b : (∀ k, 0 <= cnt c k) → 1 <= a <= b → off c a <= off c b.
Proof.
  intros Hc Hab. replace b with (a + Z.of_nat (Z.to_nat (b - a))) by lia. generalize (Z.to_nat (b - a)). intros n.
  induction n as [|n IH]; [rewrite Z.add_0_r; lia|]. rewrite Nat2Z.inj_succ, <- Z.add_1_r, Z.add_assoc, off_step by lia.
  pose proof (Hc (a + Z.of_nat n)). lia.
Qed.

Lemma offsets_runs n c p j x s (Q : list (option Z) → gz → Prop) :
  length c = 17%nat → length x = 17%nat → 1 <= p → p + Z.of_nat n <= 16 → j = off c p →
  (∀ x', length x' = 17%nat → (∀ k, p < k <= p + Z.of_nat n → x' !! Z.to_nat k = Some (Some (off c k))) →
     (∀ k, 0 <= k <= p → x' !! Z.to_nat k = x !! Z.to_nat k) → Q x' s) →
  runs (offsets n c p j x) s Q.
Proof.
  intros Hc. revert p j x. induction n as [|n IH]; intros p j x Hx Hp Hn -> HQ; cbn [offsets].
  { apply runs_ret, HQ; [done|lia|done]. }
  apply runs_bind. eapply runs_rd; [lia|apply cnt_lookup; lia|]. rewrite <- off_step by done.
  apply runs_bind, runs_wr; [lia|]. apply IH; [by rewrite length_insert|lia|lia|done|].
  intros x' Hx' Hin Hout. apply HQ; [done| |].
  - intros k Hk. destruct (decide (k = p + 1)) as [->|]; [|apply Hin; lia].
    rewrite Hout by lia. apply list_lookup_insert_eq. lia.
  - intros k Hk. rewrite Hout, list_lookup_insert_ne by lia. done.
Qed.

Lemma codes_in_nonneg_raw c n k : (∀ k, 0 <= cnt c k) → 0 <= codes_in c n k.
Proof. intros Hc. revert k. induction n as [|n IH]; intros k; cbn; [lia|]. pose proof (Hc k). specialize (IH (k + 1)). lia. Qed.

Lemma codes_in_zero c n k : (∀ i, k <= i < k + Z.of_nat n → cnt c i = 0) → codes_in c n k = 0.
Proof. revert k. induction n as [|n IH]; intros k H; cbn [codes_in]; [done|]. rewrite H, IH by (intros; (apply H || idtac); lia). done. Qed.

Section sort.
(** The code lengths, at most [g], and counts that the lengths fit in. *)
Context (lens c : list Z) (g : Z).
Context (Hlens : Forall (λ x, 0 <= x <= g) lens) (Hg : g <= 16).
Context (Hc0 : ∀ k, 0 <= cnt c k) (Hcnt : ∀ k, 1 <= k <= g → bl_count lens k <= cnt c k).
Context (Hroom : off c g + bl_count lens g <= 288).

(** Where the value of a symbol goes. *)
Definition place (sym : nat) (k : Z) : Z := off c k + bl_count (take sym lens) k.

Lemma off_room k : 1 <= k <= g → 0 <= off c k ∧ off c k + bl_count lens k <= 288.
Proof.
  intros Hk. split; [apply codes_in_nonneg_raw; done|]. destruct (decide (k = g)) as [->|]; [done|].
  pose proof (off_step c k ltac:(lia)). pose proof (off_mono c (k + 1) g Hc0 ltac:(lia)). pose proof (Hcnt k ltac:(lia)).
  pose proof (bl_count_nonneg lens g). lia.
Qed.

Lemma place_inj i j k k' :
  lens !! i = Some k → lens !! j = Some k' → 1 <= k <= g → 1 <= k' <= g → place i k = place j k' → i = j.
Proof.
  intros Hi Hj Hk Hk' H. unfold place in H.
  assert (∀ a b ka kb, lens !! a = Some ka → lens !! b = Some kb → 1 <= ka < kb → kb <= g →
    off c ka + bl_count (take a lens) ka < off c kb + bl_count (take b lens) kb) as Hlt.
  { intros a b ka kb Ha Hb Hab Hkb. pose proof (rank_lt _ _ _ Ha). pose proof (Hcnt ka ltac:(lia)).
    pose proof (off_step c ka ltac:(lia)). pose proof (off_mono c (ka + 1) kb Hc0 ltac:(lia)).
    pose proof (bl_count_nonneg (take b lens) kb). lia. }
  destruct (Z.lt_trichotomy k k') as [?|[->|?]].
  - pose proof (Hlt i j k k' Hi Hj ltac:(lia) ltac:(lia)). lia.
  - apply (rank_unique lens i j k'); [done..|lia].
  - pose proof (Hlt j i k' k Hj Hi ltac:(lia) ltac:(lia)). lia.
Qed.

Lemma sort_values_runs b pre x v s (Q : list (option Z) * list (option Z) → gz → Prop) :
  lens = pre ++ b → length x = 17%nat → length v = 288%nat →
  (∀ k, 1 <= k <= g → x !! Z.to_nat k = Some (Some (off c k + bl_count pre k))) →
  (∀ sym k, (sym < length pre)%nat → lens !! sym = Some k → 1 <= k → v !! Z.to_nat (place sym k) = Some (Some (Z.of_nat sym))) →
  (∀ x' v', length x' = 17%nat →
     (∀ sym k, lens !! sym = Some k → 1 <= k → v' !! Z.to_nat (place sym k) = Some (Some (Z.of_nat sym))) → Q (x', v') s) →
  runs (sort_values b (Z.of_nat (length pre)) x v) s Q.
Proof.
  revert pre x v. induction b as [|j b IH]; intros pre x v Hl Hx Hv Hxk Hvk HQ; cbn [sort_values].
  { apply runs_ret, HQ; [done|]. intros sym k Hs Hk. apply Hvk; [|done|done].
    apply lookup_lt_Some in Hs. by rewrite Hl, app_nil_r in Hs. }
  assert (lens !! length pre = Some j) as Hj by (rewrite Hl; by apply list_lookup_middle).
  assert (0 <= j <= g) as Hjg by (by apply (Forall_lookup_1 _ _ _ _ Hlens Hj)).
  assert (take (length pre) lens = pre) as Ht by (rewrite Hl; apply take_app_length).
  replace (Z.of_nat (length pre) + 1) with (Z.of_nat (length (pre ++ [j]))) by (rewrite length_app; cbn; lia).
  assert (lens = (pre ++ [j]) ++ b) as Hl' by (rewrite <- app_assoc; done).
  assert (∀ sym k, (sym < length (pre ++ [j]))%nat → lens !! sym = Some k → 1 <= k → j = 0 →
    v !! Z.to_nat (place sym k) = Some (Some (Z.of_nat sym))) as Hz.
  { intros sym k Hs Hk Hk1 ->. apply Hvk; [|done|done]. rewrite length_app in Hs. cbn in Hs.
    destruct (decide (sym = length pre)) as [->|]; [|lia]. rewrite Hj in Hk. injection Hk as <-. lia. }
  apply runs_bind. unfold truthy. destruct (Z.eqb_spec j 0) as [Hj0|Hj0]; cbn [negb].
  - apply runs_ret. apply IH; [done|done|done| |auto|done]. intros k Hk. rewrite (Hxk k Hk), bl_count_app, bl_count_cons.
    destruct (decide (j = k)); [lia|]. unfold bl_count at 3. cbn. by rewrite Z.add_0_r.
  - destruct (off_room j ltac:(lia)) as [Ho1 Ho2]. pose proof (rank_lt _ _ _ Hj) as Hr. rewrite Ht in Hr.
    pose proof (bl_count_nonneg pre j).
    apply runs_bind. eapply runs_rdo; [lia|apply Hxk; lia|]. apply runs_bind, runs_wr; [lia|].
    apply runs_bind, runs_wr; [lia|]. apply runs_ret.
    apply IH; [done|by rewrite length_insert|by rewrite length_insert| | |done].
    + intros k Hk. rewrite bl_count_app, bl_count_cons. unfold bl_count at 3. cbn [filter length].
      destruct (decide (j = k)) as [->|].
      * rewrite list_lookup_insert_eq by lia. do 2 f_equal. cbn. lia.
      * rewrite list_lookup_insert_ne by lia. rewrite (Hxk k Hk). do 2 f_equal. cbn. lia.
    + intros sym k Hs Hk Hk1. rewrite length_app in Hs. cbn in Hs.
      assert (k <= g) as Hkg by (by apply (Forall_lookup_1 _ _ _ _ Hlens Hk)).
      destruct (decide (sym = length pre)) as [->|Hne].
      * rewrite Hj in Hk. injection Hk as <-. unfold place. rewrite Ht. apply list_lookup_insert_eq. lia.
      * rewrite list_lookup_insert_ne; [apply Hvk; [lia|done|done]|].
        intros Heq. apply Hne. symmetry. apply (place_inj _ _ j k); [done|done|lia|lia|].
        unfold place in *. rewrite Ht. destruct (off_room k ltac:(lia)). pose proof (bl_count_nonneg (take sym lens) k). lia.
Qed.

End sort.

(** ** Sums over the lengths *)

Definition longest (lens : list Z) : Z := foldr Z.max 0 lens.
Definition used (g : Z) (lens : list Z) : Z :=
  foldr (λ n acc, (if n =? 0 then 0 else 2 ^ (g - n)) + acc) 0 lens.
Definition spare (lens : list Z) : Z := 2 ^ longest lens - used (longest lens) lens.

Lemma longest_le lens g : 0 <= g → Forall (λ x, x <= g) lens → longest lens <= g.
Proof. intros Hg. induction 1; [done|]. change (Z.max x (longest l) <= g). lia. Qed.

Lemma longest_nonneg lens : 0 <= longest lens.
Proof. induction lens as [|x lens IH]; [done|]. change (0 <= Z.max x (longest lens)). lia. Qed.

Lemma longest_ge lens : Forall (λ x, x <= longest lens) lens.
Proof.
  assert (∀ a, longest lens <= a → Forall (λ x, x <= a) lens) as H; [|by apply H].
  induction lens as [|x lens IH]; intros a Ha; constructor; change (Z.max x (longest lens) <= a) in Ha; [lia|].
  apply IH. lia.
Qed.

Lemma longest_in lens : longest lens ≠ 0 → longest lens ∈ lens.
Proof.
  induction lens as [|x lens IH]; [done|]. change (longest (x :: lens)) with (Z.max x (longest lens)). intros H.
  destruct (Z.max_spec x (longest lens)) as [[? ->]|[? ->]]; [right|left]. apply IH. lia.
Qed.

(** Weights summed by length, or by symbol. *)
Fixpoint by_length (f : Z → Z) (lens : list Z) (n : nat) : Z :=
  match n with O => 0 | S n' => by_length f lens n' + bl_count lens (Z.of_nat n) * f (Z.of_nat n) end.

Lemma by_length_cons f x lens n :
  by_length f (x :: lens) n = (if decide (1 <= x <= Z.of_nat n) then f x else 0) + by_length f lens n.
Proof.
  induction n as [|n IH]; cbn [by_length].
  - destruct (decide (1 <= x <= Z.of_nat 0)); lia.
  - rewrite IH, bl_count_cons. destruct (decide (1 <= x <= Z.of_nat n)), (decide (x = Z.of_nat (S n))) as [Hx|],
      (decide (1 <= x <= Z.of_nat (S n))); try lia. rewrite <- Hx. lia.
Qed.

Lemma by_length_nil f n : by_length f [] n = 0.
Proof. induction n as [|n IH]; cbn [by_length]; [done|]. rewrite IH. unfold bl_count. cbn. lia. Qed.

Lemma taken_by_length g c lens n :
  (∀ k, 1 <= k <= Z.of_nat n → cnt c k = bl_count lens k) → taken g c n = by_length (λ k, 2 ^ (g - k)) lens n.
Proof. induction n as [|n IH]; intros H; cbn [taken by_length]; [done|]. rewrite IH, H by (intros; (apply H || idtac); lia). done. Qed.

Lemma codes_by_length c lens n :
  (∀ k, 1 <= k <= Z.of_nat n → cnt c k = bl_count lens k) → codes_in c n 1 = by_length (λ _, 1) lens n.
Proof.
  induction n as [|n IH]; intros H; [done|]. replace (S n) with (n + 1)%nat at 1 by lia.
  rewrite codes_in_split, IH by (intros; apply H; lia). cbn [codes_in by_length].
  replace (1 + Z.of_nat n) with (Z.of_nat (S n)) by lia. rewrite H by lia. lia.
Qed.

Lemma used_by_length g lens : Forall (λ x, 0 <= x <= g) lens → used g lens = by_length (λ k, 2 ^ (g - k)) lens (Z.to_nat g).
Proof.
  induction 1 as [|x lens Hx _ IH]; [by rewrite by_length_nil|]. rewrite by_length_cons, <- IH. cbn. f_equal.
  destruct (Z.eqb_spec x 0), (decide (1 <= x <= Z.of_nat (Z.to_nat g))); lia || done.
Qed.

Lemma codes_number g lens :
  Forall (λ x, 0 <= x <= g) lens →
  by_length (λ _, 1) lens (Z.to_nat g) <= Z.of_nat (length lens) ∧
  (Forall (λ x, x ≠ 0) lens → by_length (λ _, 1) lens (Z.to_nat g) = Z.of_nat (length lens)).
Proof.
  induction 1 as [|x lens Hx _ [IH1 IH2]]; [by rewrite by_length_nil|]. rewrite by_length_cons. cbn [length]. split.
  - destruct (decide _); lia.
  - intros [H1 H2]%Forall_cons_1. rewrite IH2 by done. destruct (decide _); lia.
Qed.

(** Complete for fifteen bits is complete. *)
Lemma complete_spare lens : Forall (λ x, 0 <= x <= 15) lens → complete lens → spare lens = 0.
Proof.
  intros Hr Hc. unfold spare. assert (0 <= longest lens <= 15) as Hg.
  { split; [apply longest_nonneg|]. apply longest_le; [lia|]. eapply list.Forall_impl; [done|]. cbn. lia. }
  assert (used 15 lens = used (longest lens) lens * 2 ^ (15 - longest lens)) as Hu.
  { assert (Forall (λ x, 0 <= x <= longest lens) lens) as Hle.
    { apply Forall_forall. intros x Hx. pose proof (proj1 (List.Forall_forall _ _) Hr x Hx).
      pose proof (proj1 (List.Forall_forall _ _) (longest_ge lens) x Hx). cbn in *. lia. }
    revert Hle Hg. generalize (longest lens). intros g Hle Hg. clear Hr Hc. induction Hle as [|x lens Hx _ IH]; [done|].
    cbn [used foldr] in *. fold (used 15 lens) (used g lens) in *. rewrite IH, Z.mul_add_distr_r. f_equal.
    destruct (Z.eqb_spec x 0); [done|]. rewrite <- Z.pow_add_r by lia. f_equal. lia. }
  unfold complete, patterns in Hc. change (used 15 lens = 2 ^ 15) in Hc. rewrite Hu in Hc.
  assert (2 ^ 15 = 2 ^ longest lens * 2 ^ (15 - longest lens)) as Hp by (rewrite <- Z.pow_add_r by lia; f_equal; lia).
  rewrite Hp in Hc. assert (0 < 2 ^ (15 - longest lens)) by lia. nia.
Qed.

(** ** Correctness of [huft_build] *)

(** What the entry of a symbol holds besides the number of its bits. *)
Definition symbol_entry (sv : Z) (d e : list Z) (sym : nat) : Z * union :=
  let v := Z.of_nat sym in
  if v <? sv then (if v <? 256 then 16 else 15, VN (u16 v))
  else (u8 (nth (Z.to_nat (v - sv)) e 0), VN (nth (Z.to_nat (v - sv)) d 0)).

(** Lengths and a table size that the source can build tables for. *)
Record buildable (lens : list Z) (sv : Z) (d e : list Z) (m : Z) : Prop := {
  b_range : Forall (λ x, 0 <= x <= 15) lens;
  b_short : ∃ x, x ∈ lens ∧ 1 <= x <= m;
  b_over : 0 <= spare lens;
  b_zero : spare lens = 0 ∨ Forall (λ x, x ≠ 0) lens;
  b_codes : Z.of_nat (length lens) + spare lens <= 288;
  b_deep : longest lens <= 2 * m ∨ Z.of_nat (length lens) + spare lens < 2 ^ m;
  b_m : 5 <= m <= 9;
  b_sv : 0 <= sv;
  b_values : Z.of_nat (length lens) - sv <= Z.of_nat (length d) ∧ Z.of_nat (length lens) - sv <= Z.of_nat (length e)
}.

Lemma bl_count_in lens k : bl_count lens k ≠ 0 ↔ k ∈ lens.
Proof.
  induction lens as [|x lens IH]; [split; [by unfold bl_count|set_solver]|].
  rewrite bl_count_cons, elem_of_cons. pose proof (bl_count_nonneg lens k).
  destruct (decide (x = k)) as [->|Hne]; [split; [by left|lia]|]. rewrite Z.add_0_l, IH. split; [by right|].
  intros [->|]; done.
Qed.

(** In [hp] the table at [t] for [l] bits takes the bits of every code to an entry
    with what belongs to its symbol. *)
Definition decodes (hp : gmap Z huft) (t l : Z) (lens : list Z) (entry : nat → Z * union) : Prop :=
  ∀ sym k σ, lens !! sym = Some k → 1 <= k → longest lens <= Z.of_nat (length (code_bits lens sym ++ σ)) →
    ∃ r, (huft_e r, huft_v r) = entry sym ∧ leads hp l 16 t l (code_bits lens sym ++ σ) k r.

(** Any memory that holds the cells has the tables, and the list of them. *)
Definition tables_in (lo hi : Z) (hp0 : gmap Z huft) (t l : Z) (lens : list Z) (entry : nat → Z * union) : Prop :=
  ∀ hp, agree lo hi hp0 hp → decodes hp t l lens entry ∧ ∃ ts, listed hp t ts ∧ NoDup ts.

Definition build_memory (m : Z) : Z := 288 * (3 * table_max m).

Lemma bl_count_zero lens x : x ∈ lens → x ≠ 0 → bl_count lens 0 < Z.of_nat (length lens).
Proof.
  assert (∀ ls : list Z, bl_count ls 0 <= Z.of_nat (length ls)) as Hle.
  { induction ls as [|y ls IH]; [done|]. rewrite bl_count_cons. cbn [length]. destruct (decide _); lia. }
  induction lens as [|y lens IH]; intros Hx Hne; [set_solver|]. rewrite bl_count_cons. cbn [length].
  apply elem_of_cons in Hx as [->|Hx].
  - specialize (Hle lens). destruct (decide _); [done|lia].
  - specialize (IH Hx Hne). destruct (decide _); lia.
Qed.

Lemma table_max_mono l m : 0 <= l <= m → 0 <= table_max l <= table_max m.
Proof.
  intros H. unfold table_max. assert (2 ^ (l + 1) <= 2 ^ (m + 1)) by (apply Z.pow_le_mono_r; lia).
  assert (0 < 2 ^ (l + 1)) by lia. lia.
Qed.

Lemma cnt_zeros n k : cnt (replicate n 0) k = 0.
Proof.
  unfold cnt. rewrite nth_lookup. destruct (replicate n 0 !! Z.to_nat k) as [x|] eqn:Hx; [|done].
  by apply lookup_replicate in Hx as [-> _].
Qed.

Lemma nth_lookup_or_length_Z (l : list Z) i : 0 <= i < Z.of_nat (length l) → l !! Z.to_nat i = Some (nth (Z.to_nat i) l 0).
Proof. apply (cnt_lookup l i). Qed.

Section build.
Context (lens : list Z) (sv : Z) (d e : list Z) (m : Z) (b : buildable lens sv d e m).
Let g := longest lens.
(** The counts before the last one is filled up. *)
Context (c1 : list Z) (Hc1 : length c1 = 17%nat) (Hcnt1 : ∀ k, 0 <= k → cnt c1 k = bl_count lens k).
Let c2 := <[Z.to_nat g:=bl_count lens g + spare lens]> c1.
Let j := first_used (drop 1 c1) 1.
Let l := Z.min (Z.max m j) g.

Lemma lens_le : Forall (λ x, 0 <= x <= g) lens.
Proof.
  apply List.Forall_forall. intros x Hx. pose proof (proj1 (List.Forall_forall _ _) (b_range _ _ _ _ _ b) x Hx).
  pose proof (proj1 (List.Forall_forall _ _) (longest_ge lens) x Hx). unfold g. cbn in *. lia.
Qed.

Lemma g_range : 1 <= g <= 15.
Proof.
  destruct (b_short _ _ _ _ _ b) as (x & Hx & Hxm). apply list_elem_of_In in Hx.
  pose proof (proj1 (List.Forall_forall _ _) (longest_ge lens) x Hx). cbn in *. split; [unfold g; lia|].
  apply longest_le; [lia|]. eapply list.Forall_impl; [apply (b_range _ _ _ _ _ b)|]. cbn. lia.
Qed.

Lemma count_g : 1 <= bl_count lens g.
Proof.
  pose proof g_range. assert (bl_count lens g ≠ 0); [|pose proof (bl_count_nonneg lens g); lia].
  apply bl_count_in, longest_in. fold g. lia.
Qed.

Lemma cnt1_nonneg k : 0 <= cnt c1 k.
Proof.
  destruct (decide (0 <= k)); [rewrite Hcnt1 by done; apply bl_count_nonneg|].
  unfold cnt. replace (Z.to_nat k) with (Z.to_nat 0) by lia. fold (cnt c1 0). rewrite Hcnt1 by lia. apply bl_count_nonneg.
Qed.

Lemma j_range : 1 <= j <= m ∧ 1 <= cnt c1 j ∧ ∀ k, 1 <= k < j → cnt c1 k = 0.
Proof.
  destruct (b_short _ _ _ _ _ b) as (x & Hx & Hxm). pose proof (b_m _ _ _ _ _ b).
  assert (cnt c1 x ≠ 0) as Hn by (rewrite Hcnt1 by lia; by apply bl_count_in).
  destruct (first_used_cnt c1 x Hc1 ltac:(lia) Hn) as (H1 & H2 & H3). fold j in H1, H2, H3.
  pose proof (cnt1_nonneg j). split_and!; [lia| |lia|done].
  destruct (decide (j <= m)); [done|]. exfalso. apply Hn, H3. lia.
Qed.

Lemma last_g : last_used c1 16 = g.
Proof.
  pose proof g_range. pose proof count_g. destruct (last_used_spec c1 16 g) as (H1 & H2 & H3); [lia|rewrite Hcnt1 by lia; lia|].
  destruct (Z.lt_trichotomy (last_used c1 16) g) as [Hlt|[?|Hgt]]; [|done|].
  - specialize (H3 g ltac:(lia)). rewrite Hcnt1 in H3 by lia. lia.
  - rewrite Hcnt1 in H2 by lia. apply bl_count_in, list_elem_of_In in H2.
    pose proof (proj1 (List.Forall_forall _ _) lens_le _ H2). cbn in *. lia.
Qed.

Lemma j_le_g : j <= g.
Proof.
  destruct j_range as (? & Hj & _). destruct (decide (j <= g)) as [|Hn]; [done|exfalso].
  rewrite Hcnt1 in Hj by lia. assert (bl_count lens j ≠ 0) as Hin by lia. apply bl_count_in, list_elem_of_In in Hin.
  pose proof (proj1 (List.Forall_forall _ _) lens_le _ Hin). cbn in *. lia.
Qed.

Lemma kr1_used : kr g c1 g = used g lens.
Proof.
  pose proof g_range. unfold kr. rewrite (taken_by_length g c1 lens), used_by_length; [done|apply lens_le|].
  intros k Hk. apply Hcnt1. lia.
Qed.

Lemma patterns_spare : patterns_left (Z.to_nat (g - j)) c1 j (Z.shiftl 1 j) = Some (spare lens).
Proof.
  pose proof g_range. destruct j_range as (? & _ & Hz). pose proof j_le_g. pose proof (b_over _ _ _ _ _ b) as Ho.
  unfold spare in *. fold g in Ho |- *. rewrite Z.shiftl_1_l, (patterns_left_spec _ g c1 j).
  - by rewrite kr1_used.
  - apply cnt1_nonneg.
  - lia.
  - lia.
  - rewrite <- Z.pow_add_r by lia. rewrite kr_zero by (intros; apply Hz; lia). rewrite Z.sub_0_r. f_equal. lia.
  - rewrite kr1_used. lia.
Qed.

Lemma cnt2 k : 0 <= k → cnt c2 k = bl_count lens k + (if decide (k = g) then spare lens else 0).
Proof.
  intros Hk. pose proof g_range. unfold c2. rewrite cnt_insert by lia. destruct (decide (k = g)) as [->|]; [lia|].
  rewrite Hcnt1 by done. lia.
Qed.

Lemma cnt2_nonneg k : 0 <= cnt c2 k.
Proof.
  pose proof g_range. pose proof (b_over _ _ _ _ _ b). destruct (decide (0 <= k)) as [Hk|Hk].
  - rewrite cnt2 by done. pose proof (bl_count_nonneg lens k). destruct (decide _); lia.
  - unfold cnt. replace (Z.to_nat k) with (Z.to_nat 0) by lia. fold (cnt c2 0). rewrite cnt2 by lia.
    pose proof (bl_count_nonneg lens 0). destruct (decide _); lia.
Qed.

Lemma build_full : full l g c2.
Proof.
  pose proof g_range. destruct j_range as (? & _). pose proof j_le_g. pose proof (b_m _ _ _ _ _ b).
  pose proof (b_over _ _ _ _ _ b) as Ho. constructor.
  - lia.
  - lia.
  - unfold c2. by rewrite length_insert.
  - apply cnt2_nonneg.
  - rewrite cnt2 by lia. pose proof count_g. destruct (decide _); lia.
  - rewrite kr_step, (kr_ext _ c2 c1) by (lia || (intros; rewrite cnt2, Hcnt1 by lia; destruct (decide _); lia)).
    rewrite cnt2 by lia. destruct (decide (g = g)); [|done]. pose proof (kr_step g c1 g ltac:(lia)) as Hk.
    rewrite kr1_used, Hcnt1 in Hk by lia. rewrite Z.sub_diag in *. unfold spare. fold g. lia.
Qed.

Lemma build_codes :
  off c2 g + bl_count lens g <= Z.of_nat (length lens) ∧ codes_in c2 (Z.to_nat g) 1 <= Z.of_nat (length lens) + spare lens ∧
  (Forall (λ x, x ≠ 0) lens → off c2 g + bl_count lens g = Z.of_nat (length lens)).
Proof.
  pose proof g_range. assert (off c2 g + bl_count lens g = by_length (λ _, 1) lens (Z.to_nat g)) as Ho.
  { unfold off. rewrite (codes_by_length c2 lens).
    - replace (Z.to_nat g) with (S (Z.to_nat (g - 1))) by lia. cbn [by_length].
      replace (Z.of_nat (S (Z.to_nat (g - 1)))) with g by lia. lia.
    - intros k Hk. rewrite cnt2 by lia. destruct (decide _); lia. }
  destruct (codes_number g lens lens_le) as [H1 H2]. rewrite Ho. split_and!; [done| |done].
  pose proof (off_step c2 g ltac:(lia)) as Hs. unfold off in Hs at 1. replace (g + 1 - 1) with g in Hs by lia.
  rewrite Hs, cnt2 by lia. destruct (decide (g = g)); [lia|done].
Qed.

Lemma build_shallow : g <= 2 * l ∨ codes_in c2 (Z.to_nat g) 1 < 2 ^ l.
Proof.
  destruct build_codes as (_ & Hc & _). destruct j_range as (? & _). pose proof g_range. pose proof (b_m _ _ _ _ _ b).
  destruct (decide (g <= m)) as [?|?]; [left; unfold l; lia|]. assert (l = m) as -> by (unfold l; lia).
  destruct (b_deep _ _ _ _ _ b); [left; done|right]. lia.
Qed.

(** The code of a symbol is the interval of its length and rank. *)
Lemma next_code_kr k : 1 <= k <= g → next_code lens (Z.to_nat k) * 2 ^ (g - k) = kr g c2 (k - 1).
Proof.
  intros Hk. assert (∀ n, 1 <= Z.of_nat (S n) <= g → next_code lens (S n) * 2 ^ (g - Z.of_nat (S n)) = kr g c2 (Z.of_nat n)) as H.
  { induction n as [|n IH]; intros Hn; [done|]. rewrite (kr_step g c2 (Z.of_nat (S n))) by lia.
    replace (Z.of_nat (S n) - 1) with (Z.of_nat n) by lia. rewrite <- IH, cnt2 by lia. destruct (decide _); [lia|].
    change (next_code lens (S (S n))) with (2 * (next_code lens (S n) + bl_count lens (Z.of_nat (S n)))).
    replace (g - Z.of_nat (S n)) with (Z.succ (g - Z.of_nat (S (S n)))) by lia. rewrite Z.pow_succ_r by lia. lia. }
  specialize (H (Z.to_nat (k - 1))). replace (S (Z.to_nat (k - 1))) with (Z.to_nat k) in H by lia.
  rewrite !Z2Nat.id in H by lia. by apply H.
Qed.

Lemma symbol_interval sym k σ :
  lens !! sym = Some k → 1 <= k → g <= Z.of_nat (length (code_bits lens sym ++ σ)) →
  is_code g c2 k (bl_count (take sym lens) k) ∧
  pos g c2 k (bl_count (take sym lens) k) <= num g (code_bits lens sym ++ σ)
    < pos g c2 k (bl_count (take sym lens) k) + 2 ^ (g - k).
Proof.
  intros Hs Hk Hl. pose proof g_range.
  assert (k <= g) as Hkg by (by apply (Forall_lookup_1 _ _ _ _ lens_le Hs)).
  assert (is_code g c2 k (bl_count (take sym lens) k)) as Hc.
  { split; [lia|]. split; [apply bl_count_nonneg|]. rewrite cnt2 by lia. pose proof (rank_lt _ _ _ Hs).
    pose proof (b_over _ _ _ _ _ b). destruct (decide _); lia. }
  split; [done|]. destruct (pos_range _ _ _ build_full _ _ Hc) as (H0 & H1 & H2).
  assert (0 < 2 ^ (g - k)) by lia.
  assert (code_length lens sym = k) as Hcl by (unfold code_length; by apply nth_lookup_Some).
  apply (prefix_interval g k); [lia|done|lia|apply pos_divide; lia|].
  unfold code_bits. rewrite Hcl.
  rewrite take_app_length' by (by rewrite length_reverse, length_bits_of).
  change (rev k (code lens sym) = rev g (pos g c2 k (bl_count (take sym lens) k))).
  rewrite <- (rev_mult g k) by lia. f_equal. unfold code, pos. rewrite Hcl, <- next_code_kr by lia.
  unfold bl_count. lia.
Qed.

Definition build_entry (k i : Z) (r : huft) : Prop :=
  i < bl_count lens k → ∀ sym, lens !! sym = Some k → bl_count (take sym lens) k = i →
  (huft_e r, huft_v r) = symbol_entry sv d e sym.
Definition value_pointer (k i : Z) : Z := Z.min (off c2 k + i) (Z.of_nat (length lens)).

Lemma entry_runs v k i B s (Q : huft * Z → gz → Prop) :
  (∀ sym k, lens !! sym = Some k → 1 <= k → v !! Z.to_nat (place lens c2 sym k) = Some (Some (Z.of_nat sym))) →
  is_code g c2 k i → p_ B = value_pointer k i → 0 <= k - w_ B <= 16 →
  (∀ r, build_entry k i r → huft_b r = k - w_ B → Q (r, value_pointer k (i + 1)) s) →
  runs (entry (Z.of_nat (length lens)) sv d e v k B) s Q.
Proof.
  intros Hv [Hk Hi] Hp Hw HQ. pose proof g_range. destruct build_codes as (Hroom & _ & Hall).
  assert (u8 (k - w_ B) = k - w_ B) as Hu by (apply u8_id; unfold byte; lia). unfold entry. rewrite Hp, Hu.
  pose proof (codes_in_nonneg_raw c2 (Z.to_nat (k - 1)) 1 cnt2_nonneg) as Ho0. fold (off c2 k) in Ho0.
  destruct (decide (i < bl_count lens k)) as [Hlt|Hge].
  - assert (off c2 k + i < Z.of_nat (length lens)) as Hpn.
    { destruct (decide (k = g)) as [->|]; [lia|]. pose proof (off_step c2 k ltac:(lia)) as Hs. rewrite cnt2 in Hs by lia.
      destruct (decide _); [lia|]. pose proof (off_mono c2 (k + 1) g cnt2_nonneg ltac:(lia)).
      pose proof (bl_count_nonneg lens g). lia. }
    unfold value_pointer in *. rewrite (Z.min_l (off c2 k + i)) by lia. rewrite Z.min_l in HQ by lia.
    destruct (Z.leb_spec (Z.of_nat (length lens)) (off c2 k + i)); [lia|].
    destruct (rank_exists lens i k) as (sym & Hs & Hr); [lia|]. pose proof (Hv sym k Hs ltac:(lia)) as Hvs.
    unfold place in Hvs. rewrite Hr in Hvs. apply runs_bind. eapply runs_rdo; [lia|exact Hvs|].
    assert (∀ r, (huft_e r, huft_v r) = symbol_entry sv d e sym → build_entry k i r) as HE.
    { intros r Hre _ sym' Hs' Hr'. rewrite Hre. f_equal. apply (rank_unique lens _ _ k); [done|done|lia]. }
    unfold symbol_entry in HE. pose proof (lookup_lt_Some _ _ _ Hs). destruct (b_values _ _ _ _ _ b).
    destruct (Z.ltb_spec (Z.of_nat sym) sv).
    + apply runs_ret. replace (off c2 k + i + 1) with (off c2 k + (i + 1)) by lia. apply HQ; [|done]. by apply HE.
    + apply runs_bind. eapply runs_rd; [lia|apply nth_lookup_or_length_Z; lia|].
      apply runs_bind. eapply runs_rd; [lia|apply nth_lookup_or_length_Z; lia|].
      apply runs_ret. replace (off c2 k + i + 1) with (off c2 k + (i + 1)) by lia. apply HQ; [|done]. by apply HE.
  - rewrite cnt2 in Hi by lia. destruct (decide (k = g)) as [->|]; [|lia].
    destruct (b_zero _ _ _ _ _ b) as [?|Hnz]; [lia|]. specialize (Hall Hnz).
    unfold value_pointer in *. rewrite Z.min_r by lia. rewrite Z.min_r in HQ by lia.
    destruct (Z.leb_spec (Z.of_nat (length lens)) (Z.of_nat (length lens))); [|lia]. apply runs_ret, HQ; [|done].
    intros Hlt. lia.
Qed.

(** Before the first code. *)
Lemma inv_start s x :
  length x = 17%nat → x !! 0%nat = Some (Some 0) → (4 | free_mem_ptr s) → 0 < free_mem_ptr s →
  inv l g c2 build_entry s j (pos g c2 j 0)
    (mkBuilder 0 0 (-1) (- l) 0 0 (replicate 16 None) x (mkHuft 0 0 Unset) Caller 0) s [].
Proof.
  intros Hx Hx0 H4 H0. pose proof g_range. destruct j_range as (Hj & _ & Hz). pose proof build_full as F.
  assert (pos g c2 j 0 = 0) as ->.
  { unfold pos. rewrite kr_zero; [done|]. intros k Hk. pose proof j_le_g. rewrite cnt2 by lia.
    destruct (decide _); [lia|]. rewrite <- Hcnt1, Hz by lia. done. }
  destruct (full_l _ _ _ F).
  constructor; cbn; try done; try lia.
  - symmetry. eapply rev_zero. done.
  - intros h _ _. apply Z.divide_0_r.
  - set_solver.
  - constructor.
  - split; intros; set_solver.
  - intros k i σ Hc HP. destruct (pos_range _ _ _ F _ _ Hc) as (? & _). destruct Hc. assert (0 < 2 ^ (g - k)) by lia. lia.
  - intros τ Hτ. set_solver.
  - apply built_refl.
Qed.

Lemma sort_and_make_runs s (Q : builder → gz → Prop) :
  (4 | free_mem_ptr s) → 0 < free_mem_ptr s → free_mem_ptr s + build_memory m < free_mem_end_ptr s →
  (∀ B s' tabs, inv l g c2 build_entry s (g + 1) (2 ^ g) B s' tabs →
     free_mem_ptr s' <= free_mem_ptr s + build_memory m → Q B s') →
  runs (sort_and_make lens sv d e c2 l g j) s Q.
Proof.
  intros H4 H0 Hmem HQ. pose proof g_range as Hg. destruct j_range as (Hj & Hcj & Hz). pose proof j_le_g as Hjg.
  pose proof (b_m _ _ _ _ _ b) as Hm. pose proof build_full as F. pose proof (full_l _ _ _ F) as Hl.
  destruct build_codes as (Hroom & Hcodes & _). pose proof (b_codes _ _ _ _ _ b). pose proof (b_over _ _ _ _ _ b).
  assert (length c2 = 17%nat) as Hc2l by (unfold c2; by rewrite length_insert). unfold sort_and_make.
  apply runs_bind, runs_wr; [cbn; lia|]. apply runs_bind, offsets_runs; [done|by rewrite length_insert|lia|lia|done|].
  intros x Hx Hxk Hx1. apply runs_bind.
  apply (sort_values_runs lens c2 g lens_le ltac:(lia) cnt2_nonneg) with (pre := []); try done.
  { intros k Hk. rewrite cnt2 by lia. destruct (decide _); lia. }
  { lia. }
  { intros k Hk. unfold bl_count at 1. cbn [filter length]. change (Z.of_nat 0) with 0. rewrite Z.add_0_r.
    destruct (decide (k = 1)) as [->|]; [|apply Hxk; lia]. rewrite Hx1 by lia. done. }
  { cbn. lia. }
  intros x' v Hx' Hv. apply runs_bind, runs_wr; [lia|].
  assert (free_mem_ptr s + codes_in c2 (Z.to_nat (g - j + 1)) j * (3 * table_max l) <= free_mem_ptr s + build_memory m) as Hbound.
  { destruct (table_max_mono l m) as [? ?]; [unfold l; lia|]. unfold build_memory.
    pose proof (codes_in_nonneg_raw c2 (Z.to_nat (g - j + 1)) j cnt2_nonneg).
    pose proof (codes_in_nonneg_raw c2 (Z.to_nat (j - 1)) 1 cnt2_nonneg).
    replace (Z.to_nat g) with (Z.to_nat (j - 1) + Z.to_nat (g - j + 1))%nat in Hcodes by lia.
    rewrite codes_in_split in Hcodes. replace (1 + Z.of_nat (Z.to_nat (j - 1))) with j in Hcodes by lia. nia. }
  eapply (make_lengths_runs l g c2 F build_entry _ sv d e v value_pointer) with (tabs := []) (M := 3).
  - intros. by eapply entry_runs.
  - apply shallow_codes; [done|]. apply build_shallow.
  - intros k Hk. unfold value_pointer. rewrite off_step by lia. f_equal. lia.
  - apply inv_start; [by rewrite length_insert| |done|done]. apply list_lookup_insert_eq. lia.
  - lia.
  - lia.
  - cbn. unfold value_pointer, off. rewrite codes_in_zero; [lia|]. intros k Hk. rewrite cnt2 by lia.
    destruct (decide _); [lia|]. rewrite <- Hcnt1, Hz by lia. done.
  - intros _. split; [unfold l; lia|]. rewrite cnt2 by lia. rewrite Hcnt1 in Hcj by lia. destruct (decide _); lia.
  - unfold l. lia.
  - lia.
  - intros B' s' tabs' I' _ Hf. eapply HQ; [done|lia].
Qed.

Lemma tables_ready s B s' tabs :
  inv l g c2 build_entry s (g + 1) (2 ^ g) B s' tabs →
  tables_in (free_mem_ptr s) (free_mem_ptr s') (heap s') (result_ B) l lens (symbol_entry sv d e).
Proof.
  intros I hp Ha. pose proof build_full as F. split.
  - intros sym k σ Hs Hk Hl. destruct (symbol_interval sym k σ Hs Hk Hl) as [Hc Hi].
    destruct (inv_leads _ _ _ F _ _ _ _ _ _ _ _ _ I Ha Hc Hl Hi) as (r & HE & Hle).
    exists r. split; [|done]. apply (HE (rank_lt _ _ _ Hs)); done.
  - by eapply inv_listed.
Qed.

End build.


Lemma table_size m j g :
  j <= m → (let l := if m <? j then j else m in if g <? l then g else l) = Z.min (Z.max m j) g.
Proof. intros H. cbn. destruct (Z.ltb_spec m j), (Z.ltb_spec g m); try lia. Qed.

(** Tables are made for the codes of the lengths. *)
Lemma huft_build_runs lens sv d e m s (Q : Z * Z * Z → gz → Prop) :
  buildable lens sv d e m → (4 | free_mem_ptr s) → 0 < free_mem_ptr s →
  free_mem_ptr s + build_memory m < free_mem_end_ptr s →
  (∀ t l s', built s s' → (∀ a, a < free_mem_ptr s → heap s' !! a = heap s !! a) → (4 | free_mem_ptr s') →
     free_mem_ptr s <= free_mem_ptr s' <= free_mem_ptr s + build_memory m →
     1 <= l <= m ∧ (longest lens <= m → longest lens <= l) →
     tables_in (free_mem_ptr s) (free_mem_ptr s') (heap s') t l lens (symbol_entry sv d e) →
     Q (c_bool (truthy (spare lens) && negb (longest lens =? 1)), t, l) s') →
  runs (huft_build lens sv d e m) s Q.
Proof.
  intros b H4 H0 Hmem HQ. unfold huft_build. apply runs_bind, count_lengths_runs; [done| |].
  { eapply list.Forall_impl; [apply (b_range _ _ _ _ _ b)|]. cbn. lia. }
  intros c1 Hc1 Hcnt. assert (∀ k, 0 <= k → cnt c1 k = bl_count lens k) as Hcnt1.
  { intros k Hk. rewrite Hcnt by done. by rewrite cnt_zeros. }
  clear Hcnt. destruct (b_short _ _ _ _ _ b) as (x0 & Hx0 & Hx1). change (nth 0 c1 0) with (cnt c1 0).
  destruct (Z.eqb_spec (cnt c1 0) (Z.of_nat (length lens))) as [Heq|_].
  { exfalso. pose proof (bl_count_zero lens x0 Hx0 ltac:(lia)). rewrite Hcnt1 in Heq by lia. lia. }
  pose proof (g_range _ _ _ _ _ b c1 Hc1) as Hg. pose proof (b_m _ _ _ _ _ b) as Hm.
  destruct (j_range _ _ _ _ _ b c1 Hc1 Hcnt1) as (Hj & _). rewrite (last_g _ _ _ _ _ b c1 Hc1 Hcnt1).
  rewrite (table_size m _ (longest lens)) by lia. rewrite (patterns_spare _ _ _ _ _ b c1 Hc1 Hcnt1).
  apply runs_bind. eapply runs_rd; [lia|apply cnt_lookup; lia|]. rewrite Hcnt1 by lia.
  apply runs_bind, runs_wr; [lia|]. apply runs_bind.
  eapply sort_and_make_runs; [exact b|done|done|done|done|done|].
  intros B s' tabs I Hf. apply runs_ret. pose proof (inv_free _ _ _ _ _ _ _ _ _ _ I) as (? & ? & ?).
  apply HQ; [apply I|apply I|done|lia|lia|]. eapply tables_ready; done.
Qed.

(** No codes, no table. *)
Lemma huft_build_none lens sv d e m s (Q : Z * Z * Z → gz → Prop) :
  Forall (λ x, x = 0) lens → Q (0, 0, 0) s → runs (huft_build lens sv d e m) s Q.
Proof.
  intros Hz HQ. unfold huft_build. apply runs_bind, count_lengths_runs; [done| |].
  { eapply list.Forall_impl; [exact Hz|]. cbn. lia. }
  intros c1 Hc1 Hcnt. change (nth 0 c1 0) with (cnt c1 0). rewrite Hcnt, cnt_zeros by lia.
  assert (bl_count lens 0 = Z.of_nat (length lens)) as ->.
  { clear HQ Hcnt. induction Hz as [|x lens -> _ IH]; [done|]. rewrite bl_count_cons, IH. cbn [length].
    destruct (decide _); [lia|done]. }
  rewrite Z.add_0_l, Z.eqb_refl. by apply runs_ret.
Qed.

End HuftBuild.
