(* ===== verification/InflateWindow.v ===== *)
(** * The window

    What has been unpacked so far is in the output and the window ([hist]).  An
    octet put into the window appends it; [copy], with [memcpy] where the octets do
    not overlap and one at a time where they do, appends what [copy_back] does. *)

From stdpp Require Import gmap.
From S2P Require Import Prelude Crc32 Deflate Inflate InflateBits.

Module InflateWindow.
Import Deflate Inflate InflateBits.

(** The octets [out] have been unpacked, [w] of them not flushed yet. *)
Record hist (s : gz) (w : Z) (out : list Z) : Prop := {
  hist_win : Z.of_nat (length (window s)) = WSIZE;
  hist_w : 0 <= w <= WSIZE ∧ w <= Z.of_nat (length out) ∧ (Z.of_nat (length out) - w) mod WSIZE = 0;
  hist_out : output_data s = take (length out - Z.to_nat w) out;
  hist_look : ∀ p, 0 <= p < Z.of_nat (length out) → Z.of_nat (length out) <= p + WSIZE →
    window s !! Z.to_nat (p mod WSIZE) = out !! Z.to_nat p;
  hist_bytes : bytes_out s = u32 (Z.of_nat (length (output_data s)));
  hist_crc : crc_32_tab s = Crc32.table ∧ crc s = foldl Crc32.crc_octet 0xffffffff (output_data s);
  hist_octets : Forall byte out
}.

(** The states differ in the window and the output. *)
Definition wrote (s s' : gz) : Prop :=
  s' = set_window (window s') (set_output (output_data s') (bytes_out s')
         (set_crc (crc_32_tab s) (crc s') (set_outcnt (outcnt s') s))).

Lemma wrote_refl s : wrote s s.
Proof. by destruct s. Qed.
Lemma wrote_trans s s' s'' : wrote s s' → wrote s' s'' → wrote s s''.
Proof. unfold wrote. intros H ->. rewrite H. by destruct s. Qed.

Lemma WSIZE_pos : WSIZE = 2 ^ 15.
Proof. done. Qed.

(** The octets written last are not in the slots of the next [n]. *)
Lemma slot_apart W w n p :
  (W - w) mod WSIZE = 0 → 0 <= w <= W → 0 <= n → w + n <= WSIZE → 0 <= p < W → W + n <= p + WSIZE →
  0 <= p mod WSIZE < w ∨ w + n <= p mod WSIZE.
Proof.
  intros Hw3 ?????. assert (0 < WSIZE) by done. apply Z.mod_divide in Hw3 as [q Hq]; [|done].
  generalize dependent WSIZE. intros WS. intros. destruct (decide (p < W - w)).
  - assert (p mod WS = p - (q - 1) * WS) as ->; [|right; nia].
    symmetry. apply Z.mod_unique with (q - 1); [left; nia|lia].
  - assert (p mod WS = p - q * WS) as ->; [|left; nia].
    symmetry. apply Z.mod_unique with q; [left; nia|lia].
Qed.

(** Octets appended in the window. *)
Lemma hist_append s w out data :
  hist s w out → w + Z.of_nat (length data) <= WSIZE → Forall byte data →
  hist (set_window (take (Z.to_nat w) (window s) ++ data ++ drop (Z.to_nat w + length data) (window s)) s)
       (w + Z.of_nat (length data)) (out ++ data).
Proof.
  intros [Hwin (Hw1 & Hw2 & Hw3) Hout Hlook Hb Hcrc Hoct] Hd Hdata.
  assert (length (take (Z.to_nat w) (window s)) = Z.to_nat w) as Hlt by (rewrite length_take; lia).
  constructor; cbn; try done.
  - rewrite !length_app, Hlt, length_drop. lia.
  - rewrite length_app. split_and!; [lia..|]. by replace (_ - _) with (Z.of_nat (length out) - w) by lia.
  - rewrite Hout. rewrite take_app_le by (rewrite length_app; lia). f_equal. rewrite length_app. lia.
  - intros p Hp1 Hp2. rewrite length_app in *. set (W := Z.of_nat (length out)) in *.
    assert (W mod WSIZE = w mod WSIZE) as Hm.
    { replace W with (W - w + w) by lia. rewrite Z.add_mod, Hw3, Z.add_0_l, Z.mod_mod by (rewrite WSIZE_pos; lia). done. }
    destruct (decide (p < W)) as [Hlt'|Hge].
    + rewrite (lookup_app_l out), <- Hlook by lia.
      assert (Z.to_nat (p mod WSIZE) < Z.to_nat w ∨ Z.to_nat w + length data <= Z.to_nat (p mod WSIZE))%nat as [Hc|Hc].
      { pose proof (slot_apart W w (Z.of_nat (length data)) p) as Hs. lia. }
      * rewrite lookup_app_l, lookup_take_lt by lia. done.
      * rewrite lookup_app_r, lookup_app_r, lookup_drop by lia. f_equal. lia.
    + rewrite (lookup_app_r out) by lia. assert (p mod WSIZE = w + (p - W)) as ->.
      { apply Z.mod_divide in Hw3 as [q Hq]; [|rewrite WSIZE_pos; lia]. symmetry.
        apply Z.mod_unique with q; [left; lia|lia]. }
      rewrite lookup_app_r, lookup_app_l by lia. f_equal. lia.
  - apply Forall_app. done.
Qed.

(** The window written out. *)
Lemma window_tail s w out : hist s w out → take (Z.to_nat w) (window s) = drop (length out - Z.to_nat w) out.
Proof.
  intros [Hwin (Hw1 & Hw2 & Hw3) Hout Hlook _ _ _]. apply list_eq. intros i.
  destruct (decide (i < Z.to_nat w)%nat) as [Hi|Hi].
  - rewrite lookup_take_lt, lookup_drop by done. specialize (Hlook (Z.of_nat (length out) - w + Z.of_nat i)).
    replace (Z.to_nat (Z.of_nat (length out) - w + Z.of_nat i)) with (length out - Z.to_nat w + i)%nat in Hlook by lia.
    rewrite <- Hlook by lia. f_equal. rewrite Z.add_mod, Hw3, Z.add_0_l by (rewrite WSIZE_pos; lia).
    rewrite Z.mod_mod by done. rewrite Z.mod_small by lia. lia.
  - rewrite lookup_take_ge by lia. symmetry. apply lookup_ge_None. rewrite length_drop. lia.
Qed.

Lemma crc_step_octet c o : byte o → crc_step Crc32.table c o = Crc32.crc_octet c o.
Proof. intros Ho. by rewrite <- Crc32.UPDC32_octet. Qed.

Lemma foldl_crc_step l c : Forall byte l → foldl (crc_step Crc32.table) c l = foldl Crc32.crc_octet c l.
Proof. intros H. revert c. induction H as [|o l Ho _ IH]; intros c; cbn; [done|]. by rewrite crc_step_octet, IH. Qed.

Lemma flush_output_runs s w out (Q : unit → gz → Prop) :
  hist s w out →
  (∀ s', wrote s s' → output_data s' = out → bytes_out s' = u32 (Z.of_nat (length out)) →
     crc s' = foldl Crc32.crc_octet 0xffffffff out → (w = WSIZE → hist s' 0 out) → Q tt s') →
  runs (flush_output w) s Q.
Proof.
  intros H HQ. pose proof (window_tail _ _ _ H) as Ht. destruct H as [Hwin (Hw1 & Hw2 & Hw3) Hout Hlook Hb [Ht' Hcrc] Hoct].
  unfold flush_output, flush_window. apply runs_bind, runs_put, runs_bind, runs_get, runs_bind, runs_get, runs_bind, runs_put,
    runs_bind, runs_put, runs_put. cbn. rewrite Ht, Ht'.
  assert (output_data s ++ drop (length out - Z.to_nat w) out = out) as Ho by (rewrite Hout; apply take_drop).
  assert (Forall byte (drop (length out - Z.to_nat w) out)) as Hf by (by apply Forall_drop).
  assert (u32 (bytes_out s + w) = u32 (Z.of_nat (length out))) as Hlen.
  { rewrite Hb, Hout, length_take. unfold u32. rewrite Zplus_mod_idemp_l. f_equal. lia. }
  apply HQ; cbn; rewrite ?foldl_crc_step, ?Ho, ?Hlen by done; try done.
  - destruct s. unfold wrote. cbn in *. by rewrite Ht'.
  - rewrite Hcrc, <- foldl_app, Ho. done.
  - intros ->. constructor; cbn; rewrite ?foldl_crc_step, ?Ho, ?Hlen by done; try done.
    + rewrite WSIZE_pos in *. split_and!; [lia..|]. rewrite Z.sub_0_r.
      replace (Z.of_nat (length out)) with (Z.of_nat (length out) - 2 ^ 15 + 1 * 2 ^ 15) by lia. by rewrite Z_mod_plus_full.
    + rewrite take_ge by lia. done.
    + rewrite Hcrc, <- foldl_app, Ho. done.
Qed.

Lemma put_octet_runs s w out c (Q : Z → gz → Prop) :
  hist s w out → w < WSIZE → byte c →
  (∀ w' s', wrote s s' → hist s' w' (out ++ [c]) → w' < WSIZE → Q w' s') →
  runs (put_octet w c) s Q.
Proof.
  intros H Hw Hc HQ. pose proof (hist_win _ _ _ H). destruct (hist_w _ _ _ H) as (Hw1 & _).
  pose proof (hist_append s w out [c] H ltac:(cbn; lia) ltac:(by constructor)) as H'. cbn [length] in H'.
  rewrite Nat.add_1_r in H'. change (Z.of_nat 1) with 1 in H'.
  unfold put_octet. apply runs_bind, runs_get, runs_bind, runs_wr; [lia|]. apply runs_bind, runs_put.
  rewrite insert_take_drop by lia. destruct (Z.eqb_spec (w + 1) WSIZE) as [Heq|Hne].
  - apply runs_bind. eapply flush_output_runs; [exact H'|]. intros s' Hwr _ _ _ Hh. apply runs_ret, HQ; [| |done].
    + eapply wrote_trans; [|exact Hwr]. by destruct s.
    + by apply Hh.
  - apply runs_ret, HQ; [by destruct s|done|lia].
Qed.

(** ** Copies *)

Lemma copy_back_add a b dist out : copy_back (a + b) dist out = copy_back b dist (copy_back a dist out).
Proof. revert out. induction a; intros out; cbn; auto. Qed.

Lemma length_copy_back n dist out : length (copy_back n dist out) = (length out + n)%nat.
Proof. revert out. induction n; intros out; cbn; [lia|]. rewrite IHn, length_app. cbn. lia. Qed.

(** A copy that does not reach what it appends. *)
Lemma copy_back_block n dist out :
  0 <= dist <= Z.of_nat (length out) → Z.of_nat n <= dist →
  copy_back n dist out = out ++ take n (drop (length out - Z.to_nat dist) out).
Proof.
  revert out. induction n as [|n IH]; intros out Hd Hn; cbn; [by rewrite app_nil_r|].
  destruct (lookup_lt_is_Some_2 out (length out - Z.to_nat dist)) as [c Hc]; [lia|].
  rewrite (nth_lookup_Some _ _ _ _ Hc), IH by (rewrite ?length_app; cbn; lia).
  rewrite <- app_assoc. f_equal. rewrite (drop_S _ _ _ Hc). cbn. f_equal.
  rewrite length_app. cbn. rewrite drop_app_le by lia. rewrite take_app_le by (rewrite length_drop; lia).
  f_equal. f_equal. lia.
Qed.

(** What one forward copy of [e] octets from [d] to [w] leaves. *)
Definition blit (w d e : nat) (win : list Z) : list Z :=
  take w win ++ take e (drop d win) ++ drop (w + e) win.

Lemma length_blit w d e win : (w + e <= length win)%nat → (d + e <= length win)%nat → length (blit w d e win) = length win.
Proof. intros. unfold blit. rewrite !length_app, !length_take, !length_drop. lia. Qed.

Lemma lookup_blit w d e win i :
  (w + e <= length win)%nat → (d + e <= length win)%nat →
  blit w d e win !! i = if decide (w <= i < w + e)%nat then win !! (d + (i - w))%nat else win !! i.
Proof.
  intros. unfold blit. assert (length (take w win) = w) by (rewrite length_take; lia).
  assert (length (take e (drop d win)) = e) by (rewrite length_take, length_drop; lia).
  destruct (decide (i < w)%nat); [rewrite lookup_app_l, lookup_take_lt by lia; case_decide; [lia|done]|].
  rewrite lookup_app_r by lia. case_decide.
  - rewrite lookup_app_l, lookup_take_lt, lookup_drop by lia. f_equal. lia.
  - rewrite lookup_app_r, lookup_drop by lia. f_equal. lia.
Qed.

Lemma blit_add w d a b win :
  (w + (a + b) <= length win)%nat → (d + (a + b) <= length win)%nat → (w < d ∨ d + (a + b) <= w)%nat →
  blit (w + a) (d + a) b (blit w d a win) = blit w d (a + b) win.
Proof.
  intros. apply list_eq. intros i. rewrite !lookup_blit by (rewrite ?length_blit; lia).
  repeat case_decide; try lia; try done; f_equal; lia.
Qed.

Lemma blit_0 w d win : (w <= length win)%nat → blit w d 0 win = win.
Proof. intros. unfold blit. rewrite take_0, Nat.add_0_r. cbn. apply take_drop. Qed.

Lemma movs_runs part w d win s (Q : list Z → gz → Prop) :
  (w + part <= length win)%nat → (d + part <= length win)%nat → Q (blit w d part win) s →
  runs (movs part (Z.of_nat w) (Z.of_nat d) win) s Q.
Proof.
  intros. unfold movs. destruct (Z.ltb_spec (Z.of_nat d) 0), (Z.ltb_spec (Z.of_nat w) 0); try lia.
  destruct (Z.ltb_spec (Z.of_nat (length win)) (Z.of_nat d + Z.of_nat part)),
    (Z.ltb_spec (Z.of_nat (length win)) (Z.of_nat w + Z.of_nat part)); try lia. cbn.
  rewrite !Nat2Z.id. done.
Qed.

Lemma movsl_runs n w d win s (Q : Z * Z * list Z → gz → Prop) :
  (w + 4 * n <= length win)%nat → (d + 4 * n <= length win)%nat → (w < d ∨ d + 4 * n <= w)%nat →
  Q (Z.of_nat (w + 4 * n), Z.of_nat (d + 4 * n), blit w d (4 * n) win) s →
  runs (movsl n (Z.of_nat w) (Z.of_nat d) win) s Q.
Proof.
  revert w d win. induction n as [|n IH]; intros w d win Hw Hd Ho HQ; cbn [movsl].
  - apply runs_ret. rewrite Nat.mul_0_r, !Nat.add_0_r, blit_0 in HQ by lia. done.
  - apply runs_bind, movs_runs; [lia..|].
    replace (Z.of_nat w + 4) with (Z.of_nat (w + 4)) by lia. replace (Z.of_nat d + 4) with (Z.of_nat (d + 4)) by lia.
    apply IH; rewrite ?length_blit by lia; [lia..|]. rewrite blit_add by lia.
    by replace (w + 4 + 4 * n)%nat with (w + 4 * S n)%nat by lia;
      replace (d + 4 + 4 * n)%nat with (d + 4 * S n)%nat by lia; replace (4 + 4 * n)%nat with (4 * S n)%nat by lia.
Qed.

Lemma parts n : (n = 4 * (n / 4) + (if truthy (Z.of_nat n .& 2) then 2 else 0) + (if truthy (Z.of_nat n .& 1) then 1 else 0))%nat.
Proof.
  assert (∀ x, x = 1 ∨ x = 2 → Z.of_nat n .& x = (Z.of_nat n mod 4) .& x) as Hx.
  { intros x Hx. change 4 with (2 ^ 2). rewrite <- Z.land_ones, <- Z.land_assoc by lia. by destruct Hx as [-> | ->]. }
  rewrite !Hx by lia. pose proof (Nat.div_mod_eq n 4). change 4 with (Z.of_nat 4). rewrite <- Nat2Z.inj_mod.
  assert (n mod 4 < 4)%nat by (apply Nat.mod_upper_bound; lia).
  generalize dependent (n / 4)%nat. intros q Hq. destruct (n mod 4)%nat as [|[|[|[|]]]]; [..|lia];
    cbv -[Nat.mul Nat.add]; lia.
Qed.

Lemma memcpy_runs w d e win s (Q : list Z → gz → Prop) :
  (w + e <= length win)%nat → (d + e <= length win)%nat → (w < d ∨ d + e <= w)%nat → Q (blit w d e win) s →
  runs (memcpy (Z.of_nat w) (Z.of_nat d) (Z.of_nat e) win) s Q.
Proof.
  intros Hw Hd Ho HQ. unfold memcpy. pose proof (parts e) as He.
  replace (Z.to_nat (Z.of_nat e / 4)) with (e / 4)%nat by (rewrite Z2Nat.inj_div, Nat2Z.id by lia; done).
  set (a := (4 * (e / 4))%nat) in *. set (b := if truthy (Z.of_nat e .& 2) then 2%nat else 0%nat) in *.
  set (c := if truthy (Z.of_nat e .& 1) then 1%nat else 0%nat) in *.
  apply runs_bind, movsl_runs; fold a; [lia..|]. apply runs_bind.
  apply (runs_mono _ _ (λ r s', s' = s ∧ r = (Z.of_nat (w + a + b), Z.of_nat (d + a + b), blit w d (a + b) win))).
  { subst b. destruct (truthy (Z.of_nat e .& 2)).
    - apply runs_bind, movs_runs; rewrite ?length_blit by lia; [lia..|]. apply runs_ret. split; [done|].
      rewrite blit_add by lia. do 2 f_equal; lia.
    - apply runs_ret. by rewrite !Nat.add_0_r. }
  intros ? s' [-> ->]. subst c. destruct (truthy (Z.of_nat e .& 1)).
  - apply movs_runs; rewrite ?length_blit by lia; [lia..|].
    replace (w + a + b)%nat with (w + (a + b))%nat by lia. replace (d + a + b)%nat with (d + (a + b))%nat by lia.
    rewrite blit_add by lia. by replace (a + b + 1)%nat with e by lia.
  - apply runs_ret. by replace (a + b)%nat with e by lia.
Qed.

(** ** Matches *)

Section matches.
Context (dist : Z) (Hdist : 1 <= dist <= WSIZE).

(** The slot of the octet [dist] octets back. *)
Definition slot (out : list Z) : Z := (Z.of_nat (length out) - dist) mod WSIZE.

Lemma slot_range out : 0 <= slot out < WSIZE.
Proof. by apply Z.mod_pos_bound. Qed.

Lemma slot_source s w out i :
  hist s w out → dist <= Z.of_nat (length out) → 0 <= i < dist → slot out + i < WSIZE →
  window s !! Z.to_nat (slot out + i) = out !! (length out - Z.to_nat dist + Z.to_nat i)%nat.
Proof.
  intros H Hd Hi Hs. pose proof (slot_range out).
  pose proof (hist_look _ _ _ H (Z.of_nat (length out) - dist + i) ltac:(lia) ltac:(lia)) as Hl.
  replace (Z.to_nat (Z.of_nat (length out) - dist + i)) with (length out - Z.to_nat dist + Z.to_nat i)%nat in Hl by lia.
  rewrite <- Hl. do 2 f_equal. unfold slot in *. rewrite <- Zplus_mod_idemp_l, (Z.mod_small (_ + i)) by lia. done.
Qed.

Lemma slot_distance s w out :
  hist s w out → w < WSIZE → slot out = if decide (dist <= w) then w - dist else w - dist + WSIZE.
Proof.
  intros H Hw. destruct (hist_w _ _ _ H) as (Hw1 & Hw2 & Hw3). unfold slot.
  apply Z.mod_divide in Hw3 as [q Hq]; [|done]. symmetry.
  case_decide; [apply Z.mod_unique with q; [left; lia|lia]|apply Z.mod_unique with (q - 1); [left; lia|lia]].
Qed.

Lemma slot_next out c : slot out + 1 < WSIZE → slot (out ++ [c]) = slot out + 1.
Proof.
  intros H. unfold slot in *. rewrite length_app, Nat2Z.inj_add. cbn [length].
  replace (_ + _ - dist) with (Z.of_nat (length out) - dist + 1) by lia.
  pose proof (Z.mod_pos_bound (Z.of_nat (length out) - dist) WSIZE ltac:(done)).
  rewrite <- Zplus_mod_idemp_l, Z.mod_small by lia. done.
Qed.

Lemma copy_slow_runs e s w out (Q : Z * Z → gz → Prop) :
  (1 <= e)%nat → hist s w out → dist <= Z.of_nat (length out) →
  w + Z.of_nat e <= WSIZE → slot out + Z.of_nat e <= WSIZE →
  (∀ s', wrote s s' → hist s' (w + Z.of_nat e) (copy_back e dist out) →
     Q (w + Z.of_nat e, slot out + Z.of_nat e) s') →
  runs (copy_slow e w (slot out)) s Q.
Proof.
  revert s w out Q. induction e as [|e IH]; intros s w out Q He H Hd Hw Hs HQ; [lia|].
  pose proof (slot_range out). pose proof (hist_win _ _ _ H). destruct (hist_w _ _ _ H) as (Hw1 & _).
  destruct (lookup_lt_is_Some_2 out (length out - Z.to_nat dist)) as [c Hc]; [lia|].
  pose proof (slot_source s w out 0 H Hd ltac:(lia) ltac:(lia)) as Hsrc.
  rewrite Z.add_0_r, Nat.add_0_r, Hc in Hsrc.
  assert (byte c) as Hb by (eapply (Forall_lookup_1 byte); [exact (hist_octets _ _ _ H)|exact Hc]).
  pose proof (hist_append s w out [c] H ltac:(cbn; lia) ltac:(by constructor)) as H'. cbn [length] in H'.
  rewrite Nat.add_1_r in H'. change (Z.of_nat 1) with 1 in H'.
  cbn [copy_slow copy_back] in HQ |- *. rewrite (nth_lookup_Some _ _ _ _ Hc) in HQ.
  apply runs_bind, runs_get, runs_bind. eapply runs_rd; [lia|exact Hsrc|].
  apply runs_bind, runs_wr; [lia|]. apply runs_bind, runs_put. rewrite insert_take_drop by lia.
  destruct e as [|e]; [apply runs_ret, HQ; [by destruct s|done]|].
  rewrite <- (slot_next out c) by lia. eapply IH; [lia|exact H'|rewrite length_app; cbn; lia|lia|rewrite slot_next; lia|].
  rewrite slot_next by lia. intros s' Hwr Hh.
  replace (w + 1 + Z.of_nat (S e)) with (w + Z.of_nat (S (S e))) in * by lia.
  replace (slot out + 1 + Z.of_nat (S e)) with (slot out + Z.of_nat (S (S e))) by lia.
  apply HQ; [|done]. eapply wrote_trans; [|exact Hwr]. by destruct s.
Qed.

(** A part that [memcpy] moves. *)
Lemma hist_blit s w out e :
  hist s w out → dist <= Z.of_nat (length out) → (0 <= e) → e <= dist →
  w + e <= WSIZE → slot out + e <= WSIZE →
  hist (set_window (blit (Z.to_nat w) (Z.to_nat (slot out)) (Z.to_nat e) (window s)) s) (w + e)
       (copy_back (Z.to_nat e) dist out).
Proof.
  intros H Hd He Hed Hw Hs. pose proof (slot_range out). pose proof (hist_win _ _ _ H). destruct (hist_w _ _ _ H) as (Hw1 & _).
  rewrite copy_back_block by lia. unfold blit.
  set (data := take (Z.to_nat e) (drop (length out - Z.to_nat dist) out)).
  assert (length data = Z.to_nat e) as Hlen by (unfold data; rewrite length_take, length_drop; lia).
  assert (take (Z.to_nat e) (drop (Z.to_nat (slot out)) (window s)) = data) as ->.
  { apply list_eq. intros i. unfold data. destruct (decide (i < Z.to_nat e)%nat) as [Hi|Hi];
      [|by rewrite !lookup_take_ge by lia].
    rewrite !lookup_take_lt, !lookup_drop by lia.
    pose proof (slot_source s w out (Z.of_nat i) H Hd ltac:(lia) ltac:(lia)) as Hi'. rewrite Nat2Z.id in Hi'.
    rewrite <- Hi'. f_equal. lia. }
  rewrite <- Hlen. replace (w + e) with (w + Z.of_nat (length data)) by lia.
  apply hist_append; [done|lia|]. unfold data. apply Forall_take, Forall_drop, (hist_octets _ _ _ H).
Qed.

(** Which part goes at once: the octets up to the end of the window, from the later
    of the two places on, and [memcpy] only where nothing is read that it wrote. *)
Lemma fast_part s w out e :
  hist s w out → w < WSIZE → 1 <= e → w + e <= WSIZE → slot out + e <= WSIZE → (e <=? u32 (w - slot out)) = true →
  e <= dist ∧ (w < slot out ∨ slot out + e <= w).
Proof.
  intros H Hw He Hwe Hs Hfast. apply Z.leb_le in Hfast. destruct (hist_w _ _ _ H) as (Hw1 & _).
  pose proof (slot_distance s w out H Hw) as Hsl. unfold u32 in Hfast. pose proof WSIZE_pos.
  case_decide; [rewrite Z.mod_small in Hfast by lia; lia|].
  destruct (decide (w = slot out)) as [Heq|]; [|lia]. rewrite Heq, Z.sub_diag in Hfast. change (0 mod 2 ^ 32) with 0 in Hfast. lia.
Qed.

Definition part (n w d : Z) : Z := let e := WSIZE - (if w <? d then d else w) in if n <? e then n else e.

Lemma part_range n w d :
  1 <= n → 0 <= w < WSIZE → 0 <= d < WSIZE →
  1 <= part n w d ∧ part n w d <= n ∧ w + part n w d <= WSIZE ∧ d + part n w d <= WSIZE.
Proof.
  unfold part. intros. destruct (Z.ltb_spec w d); [destruct (Z.ltb_spec n (WSIZE - d))|destruct (Z.ltb_spec n (WSIZE - w))]; lia.
Qed.

Lemma copy_part_runs s w out e (Q : Z * Z → gz → Prop) :
  hist s w out → w < WSIZE → dist <= Z.of_nat (length out) → 1 <= e →
  w + e <= WSIZE → slot out + e <= WSIZE →
  (∀ s', wrote s s' → hist s' (w + e) (copy_back (Z.to_nat e) dist out) → Q (w + e, slot out + e) s') →
  runs (if e <=? u32 (w - slot out) then
          win ← get window; win ← memcpy w (slot out) e win; put (set_window win);; mret (w + e, slot out + e)
        else copy_slow (Z.to_nat e) w (slot out)) s Q.
Proof.
  intros H Hw Hd He Hwe Hs HQ. pose proof (slot_range out). pose proof (hist_win _ _ _ H).
  destruct (hist_w _ _ _ H) as (Hw1 & _). destruct (e <=? _) eqn:Hfast.
  - destruct (fast_part s w out e H Hw He Hwe Hs Hfast) as [Hed Ho]. apply runs_bind, runs_get, runs_bind.
    pose proof (hist_blit s w out e H Hd ltac:(lia) Hed Hwe Hs) as Hb.
    replace (memcpy w (slot out) e) with (memcpy (Z.of_nat (Z.to_nat w)) (Z.of_nat (Z.to_nat (slot out))) (Z.of_nat (Z.to_nat e)))
      by (by rewrite !Z2Nat.id by lia).
    apply memcpy_runs; [lia..|]. apply runs_bind, runs_put, runs_ret.
    apply HQ; [by destruct s|done].
  - apply copy_slow_runs; [lia|done|done|lia|lia|]. rewrite Z2Nat.id by lia. done.
Qed.

End matches.

Lemma low_slot d : d .& (WSIZE - 1) = d mod WSIZE.
Proof. change (WSIZE - 1) with (Z.ones 15). by rewrite Z.land_ones. Qed.

(** A match appends what it copies from [dist] octets back. *)
Lemma copy_runs fuel n w d dist s out (Q : Z → gz → Prop) :
  1 <= dist <= WSIZE → hist s w out → w < WSIZE → dist <= Z.of_nat (length out) → 1 <= n →
  (Z.to_nat n <= fuel)%nat → d mod WSIZE = slot dist out →
  (∀ w' s', wrote s s' → hist s' w' (copy_back (Z.to_nat n) dist out) → w' < WSIZE → Q w' s') →
  runs (copy fuel n w d) s Q.
Proof.
  intros Hdist. revert n w d s out. induction fuel as [|fuel IH]; intros n w d s out H Hw Hd Hn Hf Hslot HQ; [lia|].
  cbn [copy]. rewrite low_slot, Hslot. fold (part n w (slot dist out)).
  destruct (hist_w _ _ _ H) as (Hw1 & _). pose proof (slot_range dist out).
  destruct (part_range n w (slot dist out)) as (He1 & He2 & He3 & He4); [lia..|].
  set (e := part n w (slot dist out)) in *. apply runs_bind.
  apply copy_part_runs; [done..|]. intros s1 Hwr1 H1. apply runs_bind.
  set (out1 := copy_back (Z.to_nat e) dist out) in *.
  assert (Hl1 : Z.of_nat (length out1) = Z.of_nat (length out) + e) by (unfold out1; rewrite length_copy_back; lia).
  apply (runs_mono _ _ (λ w' s', wrote s s' ∧ hist s' w' out1 ∧ w' < WSIZE)).
  { destruct (Z.eqb_spec (w + e) WSIZE) as [Heq|Hne].
    - apply runs_bind. eapply flush_output_runs; [exact H1|]. intros s2 Hwr2 _ _ _ Hh. apply runs_ret.
      split; [by eapply wrote_trans|]. split; [by apply Hh|done].
    - apply runs_ret. split; [done|]. split; [done|lia]. }
  intros w2 s2 (Hwr2 & H2 & Hw2).
  replace (Z.to_nat n) with (Z.to_nat e + Z.to_nat (n - e))%nat in HQ by lia. rewrite copy_back_add in HQ. fold out1 in HQ.
  unfold truthy. destruct (Z.eqb_spec (n - e) 0) as [Hz|Hz]; cbn [negb].
  - apply runs_ret. rewrite Hz in HQ. by apply HQ.
  - apply (IH _ _ _ _ out1); [done|done|lia|lia|lia| |].
    + unfold slot in *. rewrite Hl1, <- Hslot, Zplus_mod_idemp_l, <- (Zplus_mod_idemp_l d), Hslot, Zplus_mod_idemp_l.
      f_equal. lia.
    + intros w3 s3 Hwr3. apply HQ. by eapply wrote_trans.
Qed.


End InflateWindow.
