(* ===== verification/InflateCodes.v ===== *)
(** * The symbols of a block

    [decode] follows the tables, [huft_free] goes through the list of them, and
    [inflate_codes] unpacks the symbols of a block. *)

From stdpp Require Import gmap.
From S2P Require Import Prelude Deflate Inflate InflateBits InflateWindow Huft HuftBuild.

Module InflateCodes.
Import Deflate Inflate InflateBits InflateWindow Huft HuftBuild.

(** ** Tables *)

Lemma leads_length hp l n t nb σ k r : leads hp l n t nb σ k r → nb <= Z.of_nat (length σ).
Proof. by destruct 1. Qed.

Lemma leads_range hp l n t nb σ k r : leads hp l n t nb σ k r → 1 <= k.
Proof. induction 1; lia. Qed.

Lemma advanced_heap s s' : advanced s s' → heap s' = heap s.
Proof. intros ->. by destruct s. Qed.

Lemma follow_runs hp l n t nb σ k r :
  leads hp l n t nb σ k r → ∀ fuel bs s (Q : option huft * bits → gz → Prop),
  reads s bs σ → nb <= snd bs → 0 <= nb <= 16 → (n <= fuel)%nat → heap s = hp → huft_e r <= 16 →
  (∀ bs' s', reads s' bs' (drop (Z.to_nat k) σ) → advanced s s' → Q (Some r, bs') s') →
  ∃ r0, hp !! (t + 8 * (fst bs .& (2 ^ nb - 1))) = Some r0 ∧ runs (follow fuel r0 bs) s Q.
Proof.
  induction 1 as [n t nb σ r Hl Hr Hb|n t nb σ t' nb' k r Hl Hr Hb Hnb Hle IH];
    intros fuel bs s Q Hrd Hk H16 Hf Hh He HQ; destruct (mask_value _ _ _ nb Hrd H16 Hk) as [_ ->].
  - exists r. split; [done|].
    assert (runs (bs ← DUMPBITS (huft_b r) bs; mret (Some r, bs)) s Q) as Hend.
    { apply runs_bind. eapply DUMPBITS_runs; [done|lia|]. intros bs' Hr' _. apply runs_ret, HQ; [done|apply advanced_refl]. }
    destruct fuel; cbn [follow]; destruct (Z.ltb_spec 16 (huft_e r)); [lia|done|lia|done].
  - eexists. split; [done|]. destruct fuel as [|fuel]; [lia|]. cbn [follow huft_e huft_b].
    destruct (Z.ltb_spec 16 (16 + nb')); [|lia]. destruct (Z.eqb_spec (16 + nb') 99); [lia|].
    apply runs_bind. eapply DUMPBITS_runs; [done|lia|]. intros bs1 Hr1 _.
    replace (16 + nb' - 16) with nb' by lia. pose proof (leads_length _ _ _ _ _ _ _ _ Hle) as Hll.
    apply runs_bind. eapply NEEDBITS_runs; [done|lia|lia|]. intros bs2 s2 Hr2 Ha2 Hk2.
    destruct (mask_value _ _ _ nb' Hr2 ltac:(lia) Hk2) as [Hm _].
    apply runs_bind. eapply runs_rd; [lia|exact Hm|]. apply runs_bind, runs_ret. apply runs_bind.
    destruct (IH fuel bs2 s2 Q) as (r1 & Hr1' & Hrun); try done; try lia; [by rewrite (advanced_heap _ _ Ha2)| |].
    + intros bs' s' Hr' Ha'. apply HQ; [|by eapply advanced_trans]. rewrite drop_drop in Hr'.
      pose proof (leads_range _ _ _ _ _ _ _ _ Hle). by replace (Z.to_nat (l + k)) with (Z.to_nat l + Z.to_nat k)%nat by lia.
    + eapply runs_load; [|exact Hrun]. by rewrite (advanced_heap _ _ Ha2), Hh.
Qed.

Lemma decode_runs l t nb σ k r bs s (Q : option huft * bits → gz → Prop) :
  leads (heap s) l 16 t nb σ k r → reads s bs σ → 0 <= nb <= 16 → huft_e r <= 16 →
  (∀ bs' s', reads s' bs' (drop (Z.to_nat k) σ) → advanced s s' → Q (Some r, bs') s') →
  runs (decode t nb (2 ^ nb - 1) bs) s Q.
Proof.
  intros Hle Hrd Hnb He HQ. pose proof (leads_length _ _ _ _ _ _ _ _ Hle). unfold decode. apply runs_bind.
  eapply NEEDBITS_runs; [done|lia|done|]. intros bs1 s1 Hr1 Ha1 Hk1.
  destruct (follow_runs _ _ _ _ _ _ _ _ Hle 16 bs1 s1 Q) as (r0 & Hr0 & Hrun); try done; try lia; [by apply advanced_heap| |].
  - intros bs' s' Hr' Ha'. apply HQ; [done|by eapply advanced_trans].
  - apply runs_bind. eapply runs_load; [|exact Hrun]. by rewrite (advanced_heap _ _ Ha1).
Qed.

Lemma free_list_runs ts fuel t s (Q : unit → gz → Prop) :
  listed (heap s) t ts → (length ts < fuel)%nat → Q tt s → runs (free_list fuel t) s Q.
Proof.
  revert fuel t. induction ts as [|a ts IH]; intros fuel t Hl Hf HQ; destruct fuel as [|fuel]; cbn in Hf; try lia.
  - cbn in Hl. subst. by apply runs_ret.
  - destruct Hl as (-> & Ha & x & t' & Hx & Hv & Hl). cbn [free_list]. destruct (Z.eqb_spec a 0); [done|].
    apply runs_bind. eapply runs_load; [exact Hx|]. apply runs_bind. unfold table_of. rewrite Hv. apply runs_ret.
    apply runs_bind, runs_ret. apply IH; [done|lia|done].
Qed.

Lemma listed_dom hp t ts a : listed hp t ts → a ∈ ts → is_Some (hp !! (a - 8)).
Proof.
  revert t. induction ts as [|b ts IH]; intros t Hl Ha; [set_solver|]. destruct Hl as (_ & _ & x & t' & Hx & _ & Hl).
  apply elem_of_cons in Ha as [->|Ha]; [by eexists|by eapply IH].
Qed.

Lemma huft_free_runs ts t s (Q : unit → gz → Prop) :
  listed (heap s) t ts → NoDup ts → Q tt s → runs (huft_free t) s Q.
Proof.
  intros Hl Hd HQ. unfold huft_free. apply runs_bind, runs_get. eapply free_list_runs; [done| |done].
  assert (length ts <= size (heap s))%nat; [|lia].
  rewrite <- size_dom, <- (length_fmap (λ a, a - 8) ts).
  assert (NoDup ((λ a, a - 8) <$> ts)) as Hd' by (apply NoDup_fmap; [intros ? ?; lia|done]).
  rewrite <- (size_list_to_set (C := gset Z) _ Hd'). apply subseteq_size. intros x Hx.
  apply elem_of_list_to_set, list_elem_of_fmap in Hx as (a & -> & Ha). apply elem_of_dom. by eapply listed_dom.
Qed.

(** ** Symbols *)

(** The input, the tables and the memory are the same. *)
Record keeps (s s' : gz) : Prop := {
  keeps_input : input_data s' = input_data s;
  keeps_size : insize s' = insize s;
  keeps_heap : heap s' = heap s;
  keeps_free : free_mem_ptr s' = free_mem_ptr s;
  keeps_end : free_mem_end_ptr s' = free_mem_end_ptr s
}.

Lemma keeps_refl s : keeps s s.
Proof. done. Qed.
Lemma keeps_trans s s' s'' : keeps s s' → keeps s' s'' → keeps s s''.
Proof. intros [] []. constructor; congruence. Qed.
Lemma keeps_advanced s s' : advanced s s' → keeps s s'.
Proof. intros ->. by destruct s. Qed.
Lemma keeps_wrote s s' : wrote s s' → keeps s s'.
Proof. intros ->. by destruct s. Qed.

(** The history is in the window, the output and the checksum; the stream in the
    input. *)
Lemma hist_advanced s s' w out : advanced s s' → hist s w out → hist s' w out.
Proof. intros ->. destruct s. by intros []. Qed.
Lemma reads_wrote s s' bs σ : wrote s s' → reads s bs σ → reads s' bs σ.
Proof. intros ->. destruct s. by intros []. Qed.

Lemma u16_small n : 0 <= n < 2 ^ 16 → u16 n = n.
Proof. intros H. apply Z.mod_small. exact H. Qed.

(** One code of the stream. *)
Lemma decode_symbol_runs t l lens entry sym σ bs s (Q : option huft * bits → gz → Prop) :
  decodes (heap s) t l lens entry → 0 <= l <= 16 → Forall (λ x, 0 <= x <= 15) lens →
  code_length lens sym ≠ 0 → fst (entry sym) <= 16 → reads s bs (code_bits lens sym ++ σ) →
  (16 <= length σ)%nat →
  (∀ r bs' s', (huft_e r, huft_v r) = entry sym → reads s' bs' σ → advanced s s' → Q (Some r, bs') s') →
  runs (decode t l (2 ^ l - 1) bs) s Q.
Proof.
  intros Hd Hl Hr Hne He Hrd Hσ HQ. unfold code_length in Hne.
  destruct (lens !! sym) as [k|] eqn:Hk; [|by rewrite nth_overflow in Hne by (apply lookup_ge_None; done)].
  rewrite (nth_lookup_Some _ _ _ _ Hk) in Hne. pose proof (Forall_lookup_1 _ _ _ _ Hr Hk) as Hk'. cbn in Hk'.
  assert (longest lens <= 15) as Hlong.
  { apply longest_le; [lia|]. eapply list.Forall_impl; [exact Hr|]. cbn. lia. }
  destruct (Hd sym k σ Hk ltac:(lia)) as (r & Hentry & Hle); [rewrite length_app; lia|].
  eapply decode_runs; [exact Hle|done|done|rewrite <- Hentry in He; done|]. intros bs' s' Hr' Ha. apply HQ; [done| |done].
  rewrite drop_app_length' in Hr'; [done|]. unfold code_bits, code_length.
  by rewrite length_reverse, length_bits_of, (nth_lookup_Some _ _ _ _ Hk).
Qed.

(** The bases and the extra bits. *)
Lemma length_entry lc :
  0 <= lc <= 28 → symbol_entry 257 cplens cplext (257 + Z.to_nat lc) = (length_extra lc, VN (length_base lc)) ∧
  0 <= length_extra lc <= 5 ∧ 3 <= length_base lc ∧ length_base lc + 2 ^ length_extra lc <= 259.
Proof.
  intros H. rewrite <- (Z2Nat.id lc) by lia. rewrite Nat2Z.id. assert (Z.to_nat lc < 29)%nat as Hn by lia.
  revert Hn. generalize (Z.to_nat lc). clear H. intros n Hn.
  do 29 (destruct n as [|n]; [split; [reflexivity|vm_compute; intuition discriminate]|]). lia.
Qed.

Lemma distance_entry dc :
  0 <= dc <= 29 → symbol_entry 0 cpdist cpdext (Z.to_nat dc) = (distance_extra dc, VN (distance_base dc)) ∧
  0 <= distance_extra dc <= 13 ∧ 1 <= distance_base dc ∧ distance_base dc + 2 ^ distance_extra dc <= 32769.
Proof.
  intros H. rewrite <- (Z2Nat.id dc) by lia. rewrite Nat2Z.id. assert (Z.to_nat dc < 30)%nat as Hn by lia.
  revert Hn. generalize (Z.to_nat dc). clear H. intros n Hn.
  do 30 (destruct n as [|n]; [split; [reflexivity|vm_compute; intuition discriminate]|]). lia.
Qed.

Lemma literal_entry c : byte c → symbol_entry 257 cplens cplext (Z.to_nat c) = (16, VN c).
Proof.
  unfold byte. intros H. unfold symbol_entry. rewrite Z2Nat.id by lia.
  destruct (Z.ltb_spec c 257), (Z.ltb_spec c 256); try lia. unfold u16. by rewrite Z.mod_small by lia.
Qed.

Section codes.
Context (tl td bl bd : Z) (llens dlens : list Z) (hp : gmap Z huft).
Context (Hl : decodes hp tl bl llens (symbol_entry 257 cplens cplext)) (Hbl : 0 <= bl <= 16).
Context (Hd : decodes hp td bd dlens (symbol_entry 0 cpdist cpdext)) (Hbd : 0 <= bd <= 16).
Context (Hlr : Forall (λ x, 0 <= x <= 15) llens) (Hdr : Forall (λ x, 0 <= x <= 15) dlens).

Definition loop := codes_loop tl td bl bd (2 ^ bl - 1) (2 ^ bd - 1).

Lemma literal_runs fuel c σ bs w out s (Q : option (bits * Z) → gz → Prop) :
  symbol_ok llens dlens out (Literal c) → heap s = hp → hist s w out → w < WSIZE → (16 <= length σ)%nat →
  reads s bs (symbol_bits llens dlens (Literal c) ++ σ) →
  (∀ bs' w' s', keeps s s' → reads s' bs' σ → hist s' w' (out ++ [c]) → w' < WSIZE → runs (loop fuel bs' w') s' Q) →
  runs (loop (S fuel) bs w) s Q.
Proof.
  intros [Hc Hlen] Hh H Hw Hσ Hrd HQ. unfold loop at 1. cbn [codes_loop]. fold loop. apply runs_bind.
  pose proof (literal_entry c Hc) as He. eapply decode_symbol_runs; [by rewrite Hh|done|done|exact Hlen|by rewrite He|done|done|].
  intros r bs1 s1 Hr Hr1 Ha1. rewrite He in Hr. injection Hr as -> Hv. cbn [Z.eqb Pos.eqb]. apply runs_bind.
  unfold value_of. rewrite Hv. apply runs_ret. rewrite u16_small, u8_id by (unfold byte in *; lia). apply runs_bind.
  eapply put_octet_runs; [by eapply hist_advanced|done|done|]. intros w2 s2 Hwr2 H2 Hw2.
  apply HQ; [|by eapply reads_wrote|done|done]. eapply keeps_trans; [by apply keeps_advanced|by apply keeps_wrote].
Qed.

Lemma end_runs fuel σ bs w s (Q : option (bits * Z) → gz → Prop) :
  code_length llens 256 ≠ 0 → heap s = hp → (16 <= length σ)%nat → reads s bs (code_bits llens 256 ++ σ) →
  (∀ bs' s', advanced s s' → reads s' bs' σ → Q (Some (bs', w)) s') →
  runs (loop (S fuel) bs w) s Q.
Proof.
  intros Hlen Hh Hσ Hrd HQ. unfold loop. cbn [codes_loop]. apply runs_bind.
  eapply decode_symbol_runs; [by rewrite Hh|done|done|exact Hlen|done|done|done|].
  intros r bs1 s1 Hr Hr1 Ha1. injection Hr as -> Hv. apply runs_ret. by apply HQ.
Qed.

Lemma match_slot s w out dist :
  hist s w out → 1 <= dist <= WSIZE → u32 (w - dist) mod WSIZE = slot dist out.
Proof.
  intros H Hd'. destruct (hist_w _ _ _ H) as (_ & _ & Hw3). unfold slot, u32.
  rewrite Z.mod_mod_divide by (by exists (2 ^ 17)).
  replace (Z.of_nat (length out) - dist) with ((Z.of_nat (length out) - w) + (w - dist)) by lia.
  by rewrite Z.add_mod, Hw3, Z.add_0_l, Z.mod_mod.
Qed.

Lemma match_runs fuel lc lx dc dx σ bs w out s (Q : option (bits * Z) → gz → Prop) :
  symbol_ok llens dlens out (Match lc lx dc dx) → heap s = hp → hist s w out → w < WSIZE → (16 <= length σ)%nat →
  reads s bs (symbol_bits llens dlens (Match lc lx dc dx) ++ σ) →
  (∀ bs' w' s', keeps s s' → reads s' bs' σ → hist s' w' (apply_symbol out (Match lc lx dc dx)) → w' < WSIZE →
     runs (loop fuel bs' w') s' Q) →
  runs (loop (S fuel) bs w) s Q.
Proof.
  intros (Hlc & Hlx & Hdc & Hdx & Hll & Hdl & Hdist) Hh H Hw Hσ Hrd HQ.
  destruct (length_entry lc Hlc) as (He & Hle & Hlb & Hlmax). destruct (distance_entry dc Hdc) as (He' & Hde & Hdb & Hdmax).
  cbn [symbol_bits] in Hrd. rewrite <- !app_assoc in Hrd. unfold match_distance in Hdist.
  unfold loop at 1. cbn [codes_loop]. fold loop. apply runs_bind.
  eapply decode_symbol_runs; [by rewrite Hh|done|done|exact Hll|rewrite He; cbn [fst]; lia|done|rewrite !length_app; lia|].
  intros r bs1 s1 Hr Hr1 Ha1. rewrite He in Hr. injection Hr as -> Hv.
  destruct (Z.eqb_spec (length_extra lc) 16); [lia|]. destruct (Z.eqb_spec (length_extra lc) 15); [lia|].
  apply runs_bind. eapply take_bits_runs; [done|lia|done|]. intros bs2 s2 Hr2 Ha2.
  apply runs_bind. unfold value_of at 1. rewrite Hv. apply runs_ret. rewrite u16_small by lia. apply runs_bind.
  pose proof (advanced_trans _ _ _ Ha1 Ha2) as Ha12.
  eapply decode_symbol_runs; [by rewrite (advanced_heap _ _ Ha12), Hh|done|done|exact Hdl|rewrite He'; cbn [fst]; lia|done|rewrite length_app; lia|].
  intros r' bs3 s3 Hr' Hr3 Ha3. rewrite He' in Hr'. injection Hr' as -> Hv'.
  apply runs_bind. eapply take_bits_runs; [done|lia|done|]. intros bs4 s4 Hr4 Ha4.
  apply runs_bind. unfold value_of. rewrite Hv'. apply runs_ret. rewrite u16_small by lia. apply runs_bind.
  pose proof (advanced_trans _ _ _ (advanced_trans _ _ _ Ha12 Ha3) Ha4) as Ha.
  replace (w - distance_base dc - dx) with (w - match_distance dc dx) by (unfold match_distance; lia).
  assert (1 <= match_distance dc dx <= WSIZE) as HD by (unfold match_distance; change WSIZE with 32768; lia).
  eapply (copy_runs _ _ _ _ (match_distance dc dx)); [done|by eapply hist_advanced|done|done|lia|lia|by eapply match_slot|].
  intros w5 s5 Hwr5 H5 Hw5. apply HQ; [|by eapply reads_wrote|done|done].
  eapply keeps_trans; [by apply keeps_advanced|by apply keeps_wrote].
Qed.

Lemma symbols_cons_bits y ys : symbols_bits llens dlens (y :: ys) = symbol_bits llens dlens y ++ symbols_bits llens dlens ys.
Proof. unfold symbols_bits. cbn. by rewrite app_assoc. Qed.

Lemma codes_loop_runs ys fuel σ bs w out s (Q : option (bits * Z) → gz → Prop) :
  symbols_ok llens dlens out ys → code_length llens 256 ≠ 0 → heap s = hp → hist s w out → w < WSIZE →
  (16 <= length σ)%nat → reads s bs (symbols_bits llens dlens ys ++ σ) → (length ys < fuel)%nat →
  (∀ bs' w' s', keeps s s' → reads s' bs' σ → hist s' w' (foldl apply_symbol out ys) → w' < WSIZE → Q (Some (bs', w')) s') →
  runs (loop fuel bs w) s Q.
Proof.
  intros Hok Hend. revert fuel bs w out s Hok.
  induction ys as [|y ys IH]; intros fuel bs w out s Hok Hh H Hw Hσ Hrd Hf HQ; cbn [length] in Hf; destruct fuel as [|fuel]; try lia.
  - eapply end_runs; [done..|]. intros bs' s' Ha Hr. apply HQ; [by apply keeps_advanced|done|by eapply hist_advanced|done].
  - destruct Hok as [Hy Hok]. rewrite symbols_cons_bits, <- app_assoc in Hrd.
    assert (16 <= length (symbols_bits llens dlens ys ++ σ))%nat by (rewrite length_app; lia).
    assert (∀ bs' w' s', keeps s s' → reads s' bs' (symbols_bits llens dlens ys ++ σ) → hist s' w' (apply_symbol out y) → w' < WSIZE →
     runs (loop fuel bs' w') s' Q) as Hrest.
    { intros bs' w' s' Hk Hr H' Hw'. eapply IH; [done|by rewrite (keeps_heap _ _ Hk)|done|done|done|done|lia|].
      intros bs2 w2 s2 Hk2. apply HQ. by eapply keeps_trans. }
    destruct y; [eapply literal_runs|eapply match_runs]; done.
Qed.

End codes.

(** What the blocks before have left: the rest of the stream and the history. *)
Record ready (s : gz) (σ : list bool) (out : list Z) : Prop := {
  ready_reads : reads s (bb s, bk s) σ;
  ready_hist : hist s (outcnt s) out;
  ready_room : outcnt s < WSIZE
}.

Lemma mask_lookup n : 0 <= n <= 16 → mask_bits !! Z.to_nat n = Some (2 ^ n - 1).
Proof.
  intros Hn. rewrite <- (Z2Nat.id n) at 2 by lia. assert (Z.to_nat n < 17)%nat as H by lia. revert H.
  generalize (Z.to_nat n). intros m Hm. do 17 (destruct m as [|m]; [done|]). lia.
Qed.

Lemma symbol_bits_pos llens dlens out y : symbol_ok llens dlens out y → Forall (λ x, 0 <= x <= 15) llens → (1 <= length (symbol_bits llens dlens y))%nat.
Proof.
  intros Hok Hr. assert (∀ sym, code_length llens sym ≠ 0 → (1 <= length (code_bits llens sym))%nat) as Hp.
  { intros sym Hne. unfold code_bits. rewrite length_reverse, length_bits_of. unfold code_length in *.
    destruct (llens !! sym) as [k|] eqn:Hk; [|by rewrite nth_overflow in Hne by (apply lookup_ge_None; done)].
    rewrite (nth_lookup_Some _ _ _ _ Hk) in *. pose proof (Forall_lookup_1 _ _ _ _ Hr Hk). cbn in *. lia. }
  destruct y as [c|lc lx dc dx]; [by apply Hp, Hok|]. destruct Hok as (_ & _ & _ & _ & Hne & _). specialize (Hp _ Hne).
  cbn [symbol_bits]. rewrite length_app. lia.
Qed.

Lemma symbols_bits_length llens dlens out ys :
  symbols_ok llens dlens out ys → Forall (λ x, 0 <= x <= 15) llens → (length ys <= length (symbols_bits llens dlens ys))%nat.
Proof.
  intros Hok Hr. revert out Hok. induction ys as [|y ys IH]; intros out Hok; [cbn; lia|]. destruct Hok as [Hy Hok].
  rewrite symbols_cons_bits, length_app. specialize (IH _ Hok). pose proof (symbol_bits_pos _ _ _ _ Hy Hr). cbn [length]. lia.
Qed.

Lemma bits_left_enough s σ : reads s (bb s, bk s) σ → (length σ < bits_left s)%nat.
Proof. intros H. pose proof (reads_length _ _ _ H). destruct (reads_k _ _ _ H). cbn in *. unfold bits_left. lia. Qed.

Lemma inflate_codes_runs tl td bl bd llens dlens ys σ out s (Q : Z → gz → Prop) :
  decodes (heap s) tl bl llens (symbol_entry 257 cplens cplext) → 0 <= bl <= 16 →
  decodes (heap s) td bd dlens (symbol_entry 0 cpdist cpdext) → 0 <= bd <= 16 →
  Forall (λ x, 0 <= x <= 15) llens → Forall (λ x, 0 <= x <= 15) dlens → code_length llens 256 ≠ 0 →
  symbols_ok llens dlens out ys → (16 <= length σ)%nat → ready s (symbols_bits llens dlens ys ++ σ) out →
  (∀ s', keeps s s' → ready s' σ (foldl apply_symbol out ys) → Q 0 s') →
  runs (inflate_codes tl td bl bd) s Q.
Proof.
  intros Hl Hbl Hd Hbd Hlr Hdr Hend Hok Hσ [Hrd H Hw] HQ. unfold inflate_codes, local_bits.
  do 2 apply runs_bind, runs_get. apply runs_bind. eapply runs_rd; [lia|by apply mask_lookup|].
  apply runs_bind. eapply runs_rd; [lia|by apply mask_lookup|]. apply runs_bind, runs_get. apply runs_bind.
  pose proof (bits_left_enough _ _ Hrd) as Hf. rewrite length_app in Hf. pose proof (symbols_bits_length _ _ _ _ Hok Hlr).
  eapply (codes_loop_runs _ _ _ _ llens dlens (heap s) Hl Hbl Hd Hbd Hlr Hdr ys); [done..|lia|].
  intros bs' w' s' Hk Hr' H' Hw'. apply runs_bind, runs_put. unfold restore_bits. apply runs_bind, runs_put, runs_ret.
  apply HQ.
  - destruct s', Hk. by constructor.
  - destruct bs' as [b k]. constructor; cbn; [|by destruct H'|done]. by destruct Hr'.
Qed.

End InflateCodes.
