(* ===== verification/InflateBlocks.v ===== *)
(** * Blocks

    Each kind of block unpacks what it encodes: stored octets, symbols with the
    fixed codes, and symbols with codes whose lengths the block itself encodes.
    [blocks_loop] goes through the blocks up to the last one. *)

From stdpp Require Import gmap.
From S2P Require Import Prelude Deflate Inflate InflateBits InflateWindow Huft HuftBuild InflateCodes.

Module InflateBlocks.
Import Deflate Inflate InflateBits InflateWindow Huft HuftBuild InflateCodes.

(** ** Stored blocks *)

Lemma low_octet s bs σ c : reads s bs (bits_of 8 c ++ σ) → 8 <= snd bs → byte c → u8 (fst bs) = c.
Proof.
  intros Hr Hk Hc. destruct (mask_value _ _ _ 8 Hr) as [_ Hv]; [lia..|].
  rewrite take_app_length' in Hv by (by rewrite length_bits_of). rewrite value_bits in Hv. change (2 ^ 8 - 1) with (Z.ones 8) in Hv.
  rewrite Z.land_ones in Hv by lia. unfold u8, byte in *. change 256 with (2 ^ 8). rewrite Hv.
  change (2 ^ Z.of_nat (Z.to_nat 8)) with 256. rewrite Z.mod_small; lia.
Qed.

Lemma stored_loop_runs data bs w out σ s (Q : bits * Z → gz → Prop) :
  Forall byte data → reads s bs (octet_bits data ++ σ) → hist s w out → w < WSIZE →
  (∀ bs' w' s', keeps s s' → reads s' bs' σ → hist s' w' (out ++ data) → w' < WSIZE → Q (bs', w') s') →
  runs (stored_loop (length data) bs w) s Q.
Proof.
  intros Hd. revert bs w out s. induction Hd as [|c data Hc Hd IH]; intros bs w out s Hr H Hw HQ; cbn [stored_loop length].
  - apply runs_ret, HQ; [apply keeps_refl|done| |done]. by rewrite app_nil_r.
  - change (octet_bits (c :: data)) with (bits_of 8 c ++ octet_bits data) in Hr. rewrite <- app_assoc in Hr.
    apply runs_bind. eapply NEEDBITS_runs; [done|lia|rewrite length_app, length_bits_of; lia|]. intros bs1 s1 Hr1 Ha1 Hk1.
    apply runs_bind. rewrite (low_octet _ _ _ _ Hr1 Hk1 Hc).
    eapply put_octet_runs; [by eapply hist_advanced|done|done|]. intros w2 s2 Hwr2 H2 Hw2. apply runs_bind.
    eapply DUMPBITS_runs; [by eapply reads_wrote|lia|]. intros bs3 Hr3 _.
    rewrite drop_app_length' in Hr3 by (by rewrite length_bits_of).
    eapply IH; [done|done|done|]. intros bs' w' s' Hk. rewrite <- app_assoc. apply HQ.
    eapply keeps_trans; [|done]. eapply keeps_trans; [by apply keeps_advanced|by apply keeps_wrote].
Qed.

(** Bits that are skipped to the next octet. *)
Lemma skip_fill s bs (fill σ : list bool) :
  reads s bs (fill ++ σ) → (length fill < 8)%nat → (length σ mod 8 = 0)%nat →
  snd bs .& 7 = Z.of_nat (length fill) ∧ Z.of_nat (length fill) <= snd bs.
Proof.
  intros Hr Hf Hσ. pose proof (reads_length _ _ _ Hr) as Hl. destruct (reads_k _ _ _ Hr). rewrite length_app in Hl.
  apply Nat.Div0.div_exact in Hσ.
  change 7 with (Z.ones 3). rewrite Z.land_ones by lia. change (2 ^ 3) with 8.
  assert (snd bs mod 8 = Z.of_nat (length fill)) as Hm.
  { symmetry. apply Z.mod_unique with (Z.of_nat (length σ / 8) - (insize s - inptr s)); [left; lia|lia]. }
  split; [done|]. rewrite <- Hm. apply Z.mod_le; lia.
Qed.

Lemma complement_check n b :
  0 <= n < 2 ^ 16 → b .& 0xffff = (Z.lnot n) mod 2 ^ 16 → Z.lnot b .& 0xffff = n.
Proof.
  intros Hn Hb. apply Z.bits_inj'. intros i Hi. change 0xffff with (Z.ones 16) in *. rewrite Z.land_spec.
  destruct (decide (i < 16)) as [Hlt|Hge].
  - rewrite Z.ones_spec_low, andb_true_r, Z.lnot_spec by lia.
    apply (f_equal (λ z, Z.testbit z i)) in Hb. rewrite Z.land_spec, Z.ones_spec_low, andb_true_r in Hb by lia.
    rewrite Z.mod_pow2_bits_low, Z.lnot_spec in Hb by lia. by rewrite Hb, negb_involutive.
  - rewrite Z.ones_spec_high, andb_false_r by lia. symmetry. apply (testbit_above n 16); lia.
Qed.

Lemma inflate_stored_runs fill data σ out s (Q : Z → gz → Prop) :
  (length fill < 8)%nat → Forall byte data → (length data < 2 ^ 16)%nat → (length σ mod 8 = 0)%nat →
  ready s (fill ++ bits_of 16 (Z.of_nat (length data)) ++ bits_of 16 (Z.lnot (Z.of_nat (length data))) ++
           octet_bits data ++ σ) out →
  (∀ s', keeps s s' → ready s' σ (out ++ data) → Q 0 s') →
  runs inflate_stored s Q.
Proof.
  intros Hf Hd Hn Hσ [Hr H Hw] HQ. unfold inflate_stored, local_bits. do 2 apply runs_bind, runs_get.
  assert (Z.of_nat (length data) < 2 ^ 16) as Hn' by (apply Nat2Z.inj_lt in Hn; by rewrite Nat2Z.inj_pow in Hn). clear Hn.
  destruct (skip_fill _ _ _ _ Hr Hf) as [Hk1 Hk2].
  { rewrite !length_app, !length_bits_of, length_octet_bits.
    replace (16 + (16 + (8 * length data + length σ)))%nat with (length σ + (4 + length data) * 8)%nat by lia.
    by rewrite Nat.Div0.mod_add. }
  apply runs_bind. rewrite Hk1. eapply DUMPBITS_runs; [done|lia|]. intros bs1 Hr1 _.
  rewrite drop_app_length' in Hr1 by lia. apply runs_bind.
  eapply NEEDBITS_runs; [done|lia|rewrite length_app, length_bits_of; lia|]. intros bs2 s2 Hr2 Ha2 Hk.
  destruct (mask_value _ _ _ 16 Hr2) as [_ Hv]; [lia..|]. rewrite take_app_length' in Hv by (by rewrite length_bits_of).
  rewrite value_bits, Z.mod_small in Hv by lia. change (2 ^ 16 - 1) with 0xffff in Hv. rewrite Hv.
  apply runs_bind. eapply DUMPBITS_runs; [done|lia|]. intros bs3 Hr3 _.
  rewrite drop_app_length' in Hr3 by (by rewrite length_bits_of). apply runs_bind.
  eapply NEEDBITS_runs; [done|lia|rewrite length_app, length_bits_of; lia|]. intros bs4 s4 Hr4 Ha4 Hk4.
  destruct (mask_value _ _ _ 16 Hr4) as [_ Hv4]; [lia..|]. rewrite take_app_length' in Hv4 by (by rewrite length_bits_of).
  rewrite value_bits in Hv4. change (2 ^ 16 - 1) with 0xffff in Hv4.
  rewrite (complement_check _ _ ltac:(split; [|exact Hn']; lia) Hv4), Z.eqb_refl. cbn [negb].
  apply runs_bind. eapply DUMPBITS_runs; [done|lia|]. intros bs5 Hr5 _.
  rewrite drop_app_length' in Hr5 by (by rewrite length_bits_of). apply runs_bind. rewrite Nat2Z.id.
  pose proof (advanced_trans _ _ _ Ha2 Ha4) as Ha. eapply stored_loop_runs; [done|done|by eapply hist_advanced|done|].
  intros [b k] w' s' Hks Hr' H' Hw'. apply runs_bind, runs_put. unfold restore_bits. apply runs_bind, runs_put, runs_ret.
  pose proof (keeps_trans _ _ _ (keeps_advanced _ _ Ha) Hks) as Hks'. apply HQ.
  - destruct s', Hks'. by constructor.
  - constructor; cbn; [by destruct Hr'|by destruct H'|done].
Qed.

(** ** Codes in a block *)

(** Memory for [need] octets of tables. *)
Record room (s : gz) (need : Z) : Prop := {
  room_aligned : (4 | free_mem_ptr s);
  room_pos : 0 < free_mem_ptr s;
  room_left : free_mem_ptr s + need < free_mem_end_ptr s
}.

(** The same input and the same memory, up to the tables made. *)
Record follows (s s' : gz) : Prop := {
  follows_input : input_data s' = input_data s;
  follows_size : insize s' = insize s;
  follows_end : free_mem_end_ptr s' = free_mem_end_ptr s
}.

Lemma follows_refl s : follows s s.
Proof. done. Qed.
Lemma follows_trans s s' s'' : follows s s' → follows s' s'' → follows s s''.
Proof. intros [] []. constructor; congruence. Qed.
Lemma follows_keeps s s' : keeps s s' → follows s s'.
Proof. by intros []. Qed.
Lemma follows_built s s' : built s s' → follows s s'.
Proof. intros ->. by destruct s. Qed.

Lemma ready_built s s' σ out : built s s' → ready s σ out → ready s' σ out.
Proof. intros ->. destruct s. intros [[] [] ?]. by constructor. Qed.

Lemma room_less s a b : room s a → b <= a → room s b.
Proof. intros [] ?. constructor; [done|done|lia]. Qed.

Lemma reads_built s s' bs σ : built s s' → reads s bs σ → reads s' bs σ.
Proof. intros ->. destruct s. by intros []. Qed.
Lemma hist_built s s' w out : built s s' → hist s w out → hist s' w out.
Proof. intros ->. destruct s. by intros []. Qed.

(** [huft_build] with its results for codes that can be built. *)
Lemma build_tables_runs lens sv d e m s need (Q : Z * Z * Z → gz → Prop) :
  buildable lens sv d e m → room s (build_memory m + need) → 0 <= need →
  (∀ t l s', built s s' → room s' need → free_mem_ptr s <= free_mem_ptr s' →
     (∀ a, a < free_mem_ptr s → heap s' !! a = heap s !! a) →
     1 <= l <= m ∧ (longest lens <= m → longest lens <= l) →
     tables_in (free_mem_ptr s) (free_mem_ptr s') (heap s') t l lens (symbol_entry sv d e) →
     Q (c_bool (truthy (spare lens) && negb (longest lens =? 1)), t, l) s') →
  runs (huft_build lens sv d e m) s Q.
Proof.
  intros Hb [H4 H0 Hl] Hn HQ. eapply huft_build_runs; [done|done|done|lia|].
  intros t l s' Hbt Hheap H4' Hf Hl' Ht. pose proof (follows_built _ _ Hbt) as Hfo. apply HQ; try done; [|lia].
  constructor; [done|lia|]. rewrite (follows_end _ _ Hfo). lia.
Qed.

Lemma build_runs lens sv d e m s σ out need (Q : Z * Z * Z → gz → Prop) :
  buildable lens sv d e m → room s (build_memory m + need) → 0 <= need → ready s σ out →
  (∀ t l s', follows s s' → ready s' σ out → room s' need → free_mem_ptr s <= free_mem_ptr s' →
     (∀ a, a < free_mem_ptr s → heap s' !! a = heap s !! a) →
     1 <= l <= m ∧ (longest lens <= m → longest lens <= l) →
     tables_in (free_mem_ptr s) (free_mem_ptr s') (heap s') t l lens (symbol_entry sv d e) →
     Q (c_bool (truthy (spare lens) && negb (longest lens =? 1)), t, l) s') →
  runs (huft_build lens sv d e m) s Q.
Proof.
  intros Hb Hroom Hn Hrd HQ. eapply build_tables_runs; [done|done|done|].
  intros t l s' Hbt. apply HQ; [by apply follows_built|by eapply ready_built].
Qed.

Definition has_tables (hp : gmap Z huft) (t l : Z) (lens : list Z) (entry : nat → Z * union) : Prop :=
  decodes hp t l lens entry ∧ ∃ ts, listed hp t ts ∧ NoDup ts.

(** The symbols, and the tables freed. *)
Lemma codes_and_free_runs tl td bl bd llens dlens ys σ out s (Q : Z → gz → Prop) :
  has_tables (heap s) tl bl llens (symbol_entry 257 cplens cplext) → 0 <= bl <= 16 →
  has_tables (heap s) td bd dlens (symbol_entry 0 cpdist cpdext) → 0 <= bd <= 16 →
  Forall (λ x, 0 <= x <= 15) llens → Forall (λ x, 0 <= x <= 15) dlens → code_length llens 256 ≠ 0 →
  symbols_ok llens dlens out ys → (16 <= length σ)%nat → ready s (symbols_bits llens dlens ys ++ σ) out →
  (∀ s', follows s s' → ready s' σ (foldl apply_symbol out ys) → Q 0 s') →
  runs (r ← inflate_codes tl td bl bd; if truthy r then mret 1 else huft_free tl;; huft_free td;; mret 0) s Q.
Proof.
  intros [Hl (tls & Hll & Hln)] Hbl [Hd (tds & Hdl & Hdn)] Hbd Hlr Hdr Hend Hok Hσ Hrd HQ. apply runs_bind.
  eapply inflate_codes_runs; [exact Hl|done|exact Hd|done..|]. intros s' Hk Hrd'. cbn.
  apply runs_bind. eapply huft_free_runs; [rewrite (keeps_heap _ _ Hk); exact Hll|done|].
  apply runs_bind. eapply huft_free_runs; [rewrite (keeps_heap _ _ Hk); exact Hdl|done|].
  apply runs_ret, HQ; [by apply follows_keeps|done].
Qed.

Lemma tables_kept lo hi s s' t l lens entry :
  tables_in lo hi (heap s) t l lens entry → hi <= free_mem_ptr s → (∀ a, a < free_mem_ptr s → heap s' !! a = heap s !! a) →
  has_tables (heap s') t l lens entry.
Proof. intros Ht Hhi Hh. apply Ht. intros a Ha. apply Hh. lia. Qed.

Lemma tables_now lo hi s t l lens entry : tables_in lo hi (heap s) t l lens entry → has_tables (heap s) t l lens entry.
Proof. intros Ht. by apply Ht. Qed.

(** ** Fixed codes *)

Definition lengths_in (lens : list Z) : Prop := Forall (λ x, 0 <= x <= 15) lens.
#[local] Instance lengths_in_dec lens : Decision (lengths_in lens).
Proof. unfold lengths_in. apply _. Defined.

Lemma fixed_literals_buildable : buildable fixed_literals 257 cplens cplext 7.
Proof.
  constructor; try done.
  - apply (bool_decide_unpack (lengths_in fixed_literals)). by vm_compute.
  - exists 7. split; [|lia]. apply (bool_decide_unpack _). by vm_compute.
  - left. by vm_compute.
  - left. by vm_compute.
Qed.

Lemma fixed_distances_buildable : buildable fixed_distances 0 cpdist cpdext 5.
Proof.
  constructor; try done.
  - apply (bool_decide_unpack (lengths_in fixed_distances)). by vm_compute.
  - exists 5. split; [|lia]. apply (bool_decide_unpack _). by vm_compute.
  - right. apply Forall_replicate. done.
  - left. by vm_compute.
Qed.

Definition block_memory : Z := build_memory 7 + (build_memory 9 + build_memory 6).

Lemma build_memories :
  0 <= build_memory 5 ∧ 0 <= build_memory 6 ∧ 0 <= build_memory 7 ∧ 0 <= build_memory 9 ∧
  build_memory 7 + (build_memory 5 + 0) <= block_memory.
Proof. by vm_compute. Qed.

Lemma inflate_fixed_runs ys σ out s (Q : Z → gz → Prop) :
  symbols_ok fixed_literals fixed_distances out ys → (16 <= length σ)%nat → room s block_memory →
  ready s (symbols_bits fixed_literals fixed_distances ys ++ σ) out →
  (∀ s', follows s s' → ready s' σ (foldl apply_symbol out ys) → Q 0 s') →
  runs inflate_fixed s Q.
Proof.
  intros Hok Hσ Hroom Hrd HQ. destruct build_memories as (H5 & H6 & H7 & H9 & Hm). unfold inflate_fixed. apply runs_bind.
  change fixed_lengths with fixed_literals. change (replicate 30 5) with fixed_distances.
  eapply (build_runs _ _ _ _ _ _ _ _ (build_memory 5 + 0)); [apply fixed_literals_buildable|by eapply room_less|lia|done|].
  intros tl bl s1 Hf1 Hrd1 Hroom1 Hle1 Hh1 [Hbl _] Ht1. replace (spare fixed_literals) with 0 by (by vm_compute). cbn [truthy Z.eqb negb andb c_bool].
  apply runs_bind. eapply build_runs; [apply fixed_distances_buildable|done|lia|done|].
  intros td bd s2 Hf2 Hrd2 Hroom2 Hle2 Hh2 [Hbd _] Ht2.
  replace (spare fixed_distances) with 2 by (by vm_compute). replace (longest fixed_distances) with 5 by (by vm_compute).
  cbn [truthy Z.eqb Pos.eqb negb andb c_bool Z.ltb Z.compare Pos.compare Pos.compare_cont].
  eapply codes_and_free_runs; [by eapply tables_kept|lia|by eapply tables_now|lia| | |done|done|done|done|].
  - apply (b_range _ _ _ _ _ fixed_literals_buildable).
  - apply (b_range _ _ _ _ _ fixed_distances_buildable).
  - intros s3 Hf3. apply HQ. eapply follows_trans; [done|]. by eapply follows_trans.
Qed.

End InflateBlocks.
