(* ===== verification/InflateDynamic.v ===== *)
(** * Blocks with their own codes

    The lengths of the codes are read back from the items that encode them, the
    codes can be built, and [inflate_dynamic] unpacks the block. *)

From stdpp Require Import gmap.
From S2P Require Import Prelude Deflate Inflate InflateBits InflateWindow Huft HuftBuild InflateCodes InflateBlocks.

Module InflateDynamic.
Import Deflate Inflate InflateBits InflateWindow Huft HuftBuild InflateCodes InflateBlocks.

(** ** The lengths of the codes of the items *)

Section border.
Context (cl : list Z) (Hcl : length cl = 19%nat) (Hr : Forall (λ n, 0 <= n < 8) cl).

Definition put_length (ll : list (option Z)) (j : nat) : list (option Z) := <[j:=Some (nth j cl 0)]> ll.

Lemma length_put_lengths js ll : length (foldl put_length ll js) = length ll.
Proof. revert ll. induction js as [|j js IH]; intros ll; cbn; [done|]. by rewrite IH; unfold put_length; rewrite length_insert. Qed.

Lemma read_border_runs js ll bs σ s (Q : list (option Z) * bits → gz → Prop) :
  Forall (λ j, (j < 19)%nat) js → (19 <= length ll)%nat →
  reads s bs (flat_map (λ j, bits_of 3 (nth j cl 0)) js ++ σ) →
  (∀ bs' s', advanced s s' → reads s' bs' σ → Q (foldl put_length ll js, bs') s') →
  runs (read_border (Z.of_nat <$> js) ll bs) s Q.
Proof.
  intros Hj. revert ll bs s. induction Hj as [|j js Hj Hjs IH]; intros ll bs s Hll Hrd HQ; cbn [fmap list_fmap read_border].
  - apply runs_ret, HQ; [apply advanced_refl|done].
  - cbn [flat_map] in Hrd. rewrite <- app_assoc in Hrd. apply runs_bind.
    assert (0 <= nth j cl 0 < 8) as Hn by (apply (List.Forall_forall (λ n, 0 <= n < 8) cl); [done|apply nth_In; lia]).
    eapply take_bits_runs; [exact Hrd|lia|exact Hn|]. intros bs1 s1 Hrd1 Ha1. apply runs_bind, runs_wr; [lia|].
    rewrite Nat2Z.id. apply IH; [by rewrite length_insert|done|]. intros bs2 s2 Ha2. apply HQ. by eapply advanced_trans.
Qed.

Lemma clear_border_runs js ll s (Q : list (option Z) → gz → Prop) :
  Forall (λ j, (j < 19)%nat) js → Forall (λ j, nth j cl 0 = 0) js → (19 <= length ll)%nat →
  Q (foldl put_length ll js) s → runs (clear_border (Z.of_nat <$> js) ll) s Q.
Proof.
  intros Hj. revert ll. induction Hj as [|j js Hj Hjs IH]; intros ll Hz Hll HQ; cbn [fmap list_fmap clear_border].
  - by apply runs_ret.
  - apply Forall_cons_1 in Hz as [Hz Hzs]. apply runs_bind, runs_wr; [lia|]. rewrite Nat2Z.id.
    apply IH; [done|by rewrite length_insert|]. cbn in HQ. unfold put_length at 2 in HQ. by rewrite Hz in HQ.
Qed.

End border.

(** All of them are written, wherever reading ends and clearing begins. *)
Lemma border_written cl n :
  length cl = 19%nat →
  foldl (put_length cl) (foldl (put_length cl) (replicate 316 None) (take n order)) (drop n order) =
  (Some <$> cl) ++ replicate 297 None.
Proof.
  intros H. rewrite <- foldl_app, take_drop. unfold put_length.
  do 19 (destruct cl as [|? cl]; [done|]). destruct cl; [|done]. reflexivity.
Qed.

Lemma border_order : border = Z.of_nat <$> order.
Proof. done. Qed.

Lemma order_in n : Forall (λ j, (j < 19)%nat) (take n order) ∧ Forall (λ j, (j < 19)%nat) (drop n order).
Proof. apply Forall_app. rewrite take_drop. unfold order. repeat constructor. Qed.

(** ** The items *)

Lemma mapM_Some (l : list Z) : mapM id (Some <$> l) = Some l.
Proof. induction l as [|x l IH]; [done|]. cbn. cbn in IH. by rewrite IH. Qed.

Lemma filled_runs ll from n L s (Q : list Z → gz → Prop) :
  take (length L) ll = Some <$> L → (Z.to_nat from + Z.to_nat n <= length L)%nat →
  Q (take (Z.to_nat n) (drop (Z.to_nat from) L)) s → runs (filled ll from n) s Q.
Proof.
  intros Hll Hn HQ. unfold filled. assert (take (Z.to_nat n) (drop (Z.to_nat from) ll) = Some <$> take (Z.to_nat n) (drop (Z.to_nat from) L)) as ->.
  { rewrite fmap_take, fmap_drop, <- Hll. rewrite !take_drop_commute, !take_take. f_equal. f_equal. lia. }
  by rewrite mapM_Some.
Qed.

Lemma put_lengths_runs j i l ll s (Q : list (option Z) → gz → Prop) :
  (i + j <= length ll)%nat →
  (∀ ll', length ll' = length ll → take (i + j) ll' = take i ll ++ replicate j (Some l) → Q ll' s) →
  runs (put_lengths j (Z.of_nat i) l ll) s Q.
Proof.
  revert i ll. induction j as [|j IH]; intros i ll Hi HQ; cbn [put_lengths].
  - apply runs_ret, HQ; [done|]. by rewrite Nat.add_0_r, app_nil_r.
  - apply runs_bind, runs_wr; [lia|]. rewrite Nat2Z.id. replace (Z.of_nat i + 1) with (Z.of_nat (S i)) by lia.
    apply IH; [rewrite length_insert; lia|]. intros ll' Hl Ht. rewrite length_insert in Hl. apply HQ; [done|].
    replace (i + S j)%nat with (S i + j)%nat by lia. rewrite Ht. erewrite take_S_r by (apply list_lookup_insert_eq; lia).
    rewrite take_insert_ge by lia. rewrite <- app_assoc. done.
Qed.

Definition item_bits (cl : list Z) (i : item) : list bool := code_bits cl (item_symbol i) ++ item_extra i.

Section items.
Context (tl bl : Z) (cl : list Z) (hp : gmap Z huft) (n : nat).
Context (Hcl : length cl = 19%nat) (Hr : Forall (λ x, 0 <= x < 8) cl).
Context (Ht : decodes hp tl bl cl (symbol_entry 19 [] [])) (Hbl : 1 <= bl <= 7) (Hlong : longest cl <= bl).

(** One look into the table finds an item. *)
Lemma item_lookup sym σ :
  code_length cl sym ≠ 0 → (16 <= length σ)%nat →
  ∃ r, hp !! (tl + 8 * value (take (Z.to_nat bl) (code_bits cl sym ++ σ))) = Some r ∧
       huft_v r = VN (Z.of_nat sym) ∧ (sym < 19)%nat ∧ huft_b r = Z.of_nat (length (code_bits cl sym)) ∧ huft_b r <= bl.
Proof.
  intros Hne Hσ. unfold code_length in Hne.
  destruct (cl !! sym) as [k|] eqn:Hk; [|by rewrite nth_overflow in Hne by (apply lookup_ge_None; done)].
  rewrite (nth_lookup_Some _ _ _ _ Hk) in Hne. pose proof (Forall_lookup_1 _ _ _ _ Hr Hk) as Hk'. cbn in Hk'.
  pose proof (Forall_lookup_1 _ _ _ _ (longest_ge cl) Hk) as Hkl. cbn in Hkl.
  assert (Z.of_nat (length (code_bits cl sym)) = k) as Hlen.
  { unfold code_bits, code_length. rewrite length_reverse, length_bits_of, (nth_lookup_Some _ _ _ _ Hk). lia. }
  destruct (Ht sym k σ Hk) as (r & He & Hle); [lia|rewrite length_app; lia|].
  pose proof (lookup_lt_Some _ _ _ Hk) as Hs.
  inversion Hle as [? ? ? ? ? Hl Hrr Hb|? ? ? ? ? ? k' ? Hl Hrr Hb Hnb Hle']; subst.
  - exists r. split; [done|]. split; [|lia]. unfold symbol_entry in He. destruct (Z.ltb_spec (Z.of_nat sym) 19); [|lia].
    injection He as _ ->. unfold u16. by rewrite Z.mod_small by lia.
  - pose proof (leads_range _ _ _ _ _ _ _ _ Hle'). lia.
Qed.

Lemma item_code_runs {A} (K : bits → Z → G A) sym σ bs s (Q : A → gz → Prop) :
  code_length cl sym ≠ 0 → heap s = hp → reads s bs (code_bits cl sym ++ σ) → (16 <= length σ)%nat →
  (∀ bs' s', advanced s s' → reads s' bs' σ → runs (K bs' (Z.of_nat sym)) s' Q) →
  runs (bs ← NEEDBITS bl bs; td ← load (tl + sizeof_huft * (fst bs .& (2 ^ bl - 1)));
        bs ← DUMPBITS (huft_b td) bs; j ← value_of td; K bs j) s Q.
Proof.
  intros Hne Hh Hrd Hσ HQ. destruct (item_lookup sym σ Hne Hσ) as (r & Hr' & Hv & Hsym & Hb & Hbb).
  apply runs_bind. eapply NEEDBITS_runs; [done|lia|rewrite length_app; lia|]. intros bs1 s1 Hrd1 Ha1 Hk1.
  destruct (mask_value _ _ _ bl Hrd1) as [_ ->]; [lia..|]. apply runs_bind.
  eapply runs_load; [rewrite (advanced_heap _ _ Ha1), Hh; exact Hr'|]. apply runs_bind.
  eapply DUMPBITS_runs; [done|lia|]. intros bs2 Hrd2 _. apply runs_bind. unfold value_of. rewrite Hv. apply runs_ret.
  rewrite u16_small by lia.
  apply HQ; [done|]. rewrite drop_app_length' in Hrd2 by lia. done.
Qed.

Definition lengths_loop (fuel : nat) (i : nat) := read_lengths fuel tl bl (2 ^ bl - 1) (Z.of_nat n) (Z.of_nat i).

Definition item_ok (i : item) : Prop := item_range i ∧ code_length cl (item_symbol i) ≠ 0.

(** One item. *)
Lemma read_item_runs it l fuel i ll bs σ s (Q : option (list (option Z) * bits) → gz → Prop) :
  item_ok it → heap s = hp → reads s bs (item_bits cl it ++ σ) → (16 <= length σ)%nat →
  (i + length (item_lengths l it) <= n)%nat → (n <= length ll)%nat →
  (∀ ll' bs' s', advanced s s' → reads s' bs' σ → length ll' = length ll →
     take (i + length (item_lengths l it)) ll' = take i ll ++ (Some <$> item_lengths l it) →
     runs (lengths_loop fuel (i + length (item_lengths l it)) (item_last l it) ll' bs') s' Q) →
  runs (lengths_loop (S fuel) i l ll bs) s Q.
Proof.
  intros [Hrng Hne] Hh Hrd Hσ Hi Hll HQ. unfold lengths_loop at 1. cbn [read_lengths].
  assert (1 <= length (item_lengths l it))%nat as Hone.
  { destruct it; cbn [item_lengths length item_range] in *; rewrite ?length_replicate; lia. }
  destruct (Z.ltb_spec (Z.of_nat i) (Z.of_nat n)); [|lia]. unfold item_bits in Hrd. rewrite <- app_assoc in Hrd.
  apply (item_code_runs _ _ _ _ _ _ Hne Hh Hrd); [rewrite length_app; lia|]. intros bs1 s1 Ha1 Hrd1.
  assert (∀ xb x k (v : Z), item_extra it = bits_of (Z.to_nat xb) x → 0 <= xb <= 16 → 0 <= x < 2 ^ xb →
    k = Z.to_nat (v + x) → 0 <= v → ∀ l', item_lengths l it = replicate k l' → item_last l it = l' →
    runs ('(x, bs) ← take_bits xb bs1; let run := v + x in
          if Z.of_nat n <? Z.of_nat i + run then mret None
          else ll ← put_lengths (Z.to_nat run) (Z.of_nat i) l' ll;
               read_lengths fuel tl bl (2 ^ bl - 1) (Z.of_nat n) (Z.of_nat i + run) l' ll bs) s1 Q) as Hrun.
  { intros xb x k v Hx Hxb Hxr Hk Hv l' Hlens Hlast. rewrite Hx in Hrd1. apply runs_bind.
    eapply take_bits_runs; [exact Hrd1|done|done|]. intros bs2 s2 Hrd2 Ha2. cbv zeta. rewrite Hlens, length_replicate, Hlast in *.
    destruct (Z.ltb_spec (Z.of_nat n) (Z.of_nat i + (v + x))); [lia|]. apply runs_bind.
    rewrite <- Hk. apply put_lengths_runs; [lia|]. intros ll' Hl1 Hl2.
    replace (Z.of_nat i + (v + x)) with (Z.of_nat (i + k)) by lia.
    apply HQ; [by eapply advanced_trans|done|done|]. by rewrite Hl2, fmap_replicate. }
  destruct it as [m|x|x|x]; cbn [item_symbol item_range] in *.
  - rewrite Z2Nat.id by lia. destruct (Z.ltb_spec m 16); [|lia]. apply runs_bind, runs_wr; [cbn in Hi; lia|].
    replace (Z.of_nat i + 1) with (Z.of_nat (i + 1)) by lia. cbn in Hi. apply HQ; [done|done|by rewrite length_insert|].
    cbn [length item_lengths]. rewrite Nat2Z.id, Nat.add_1_r. erewrite take_S_r by (apply list_lookup_insert_eq; lia).
    by rewrite take_insert_ge by lia.
  - by apply (Hrun 2 x (Z.to_nat (3 + x))).
  - by apply (Hrun 3 x (Z.to_nat (3 + x))).
  - by apply (Hrun 7 x (Z.to_nat (11 + x))).
Qed.

Lemma read_lengths_runs its l fuel i ll bs σ s (Q : option (list (option Z) * bits) → gz → Prop) :
  Forall item_ok its → heap s = hp → reads s bs (flat_map (item_bits cl) its ++ σ) → (16 <= length σ)%nat →
  (i + length (items_lengths l its) = n)%nat → (n <= length ll)%nat → (length its <= fuel)%nat →
  (∀ ll' bs' s', advanced s s' → reads s' bs' σ → take n ll' = take i ll ++ (Some <$> items_lengths l its) → Q (Some (ll', bs')) s') →
  runs (lengths_loop fuel i l ll bs) s Q.
Proof.
  intros Hok. revert l fuel i ll bs s. induction Hok as [|it its Hit Hits IH]; intros l fuel i ll bs s Hh Hrd Hσ Hi Hll Hf HQ.
  - cbn in Hi. assert (i = n) as -> by lia. unfold lengths_loop. destruct fuel; cbn [read_lengths];
      destruct (Z.ltb_spec (Z.of_nat n) (Z.of_nat n)); try lia; apply runs_ret, HQ; try done; try apply advanced_refl;
      cbn; by rewrite app_nil_r.
  - destruct fuel as [|fuel]; cbn [length] in Hf; [lia|]. cbn [flat_map] in Hrd. rewrite <- app_assoc in Hrd.
    cbn [items_lengths] in *. rewrite length_app in Hi.
    eapply read_item_runs; [done|done|exact Hrd|rewrite length_app; lia|lia|done|].
    intros ll1 bs1 s1 Ha1 Hrd1 Hl1 Ht1. apply IH; [by rewrite (advanced_heap _ _ Ha1)|done|done|lia|lia|lia|].
    intros ll2 bs2 s2 Ha2 Hrd2 Ht2. apply HQ; [by eapply advanced_trans|done|].
    rewrite Ht2, Ht1, fmap_app, app_assoc. done.
Qed.

End items.

(** ** The codes can be built *)

Lemma patterns_short lens m :
  0 <= m <= 14 → Forall (λ x, 0 <= x <= 15) lens → Forall (λ x, ¬ 1 <= x <= m) lens →
  patterns lens <= Z.of_nat (length lens) * 2 ^ (14 - m).
Proof.
  intros Hm Hr. induction Hr as [|x lens Hx Hr IH]; intros Hn; [done|]. apply Forall_cons_1 in Hn as [Hx' Hn].
  specialize (IH Hn). cbn [patterns foldr length] in *. fold (patterns lens) in *.
  assert ((if x =? 0 then 0 else 2 ^ (15 - x)) <= 2 ^ (14 - m)); [|lia].
  destruct (Z.eqb_spec x 0); [lia|]. apply Z.pow_le_mono_r; lia.
Qed.

Lemma complete_short lens m :
  0 <= m <= 14 → Forall (λ x, 0 <= x <= 15) lens → complete lens → Z.of_nat (length lens) * 2 ^ (14 - m) < 2 ^ 15 →
  ∃ x, x ∈ lens ∧ 1 <= x <= m.
Proof.
  intros Hm Hr Hc Hlen. destruct (decide (Exists (λ x, 1 <= x <= m) lens)) as [H|H].
  - apply list.Exists_exists in H. naive_solver.
  - apply not_Exists_Forall in H; [|apply _]. pose proof (patterns_short lens m Hm Hr H). unfold complete in Hc. lia.
Qed.

Lemma complete_buildable lens sv d e m :
  Forall (λ x, 0 <= x <= 15) lens → complete lens → 5 <= m <= 9 → 0 <= sv →
  (length lens <= 288)%nat → Z.of_nat (length lens) * 2 ^ (14 - m) < 2 ^ 15 →
  longest lens <= 2 * m ∨ Z.of_nat (length lens) < 2 ^ m →
  Z.of_nat (length lens) - sv <= Z.of_nat (length d) ∧ Z.of_nat (length lens) - sv <= Z.of_nat (length e) →
  buildable lens sv d e m.
Proof.
  intros Hr Hc Hm Hsv Hlen Hshort Hdeep Hv. pose proof (complete_spare lens Hr Hc) as Hsp.
  constructor; try done; [by apply complete_short; [lia|..]|lia|by left|lia|lia].
Qed.

Lemma longest_range lens n : 0 <= n → Forall (λ x, 0 <= x <= n) lens → longest lens <= n.
Proof. intros Hn H. apply longest_le; [done|]. eapply list.Forall_impl; [exact H|]. cbn. lia. Qed.

Lemma items_range l its : 0 <= l <= 15 → Forall item_range its → Forall (λ x, 0 <= x <= 15) (items_lengths l its).
Proof.
  intros Hl H. revert l Hl. induction H as [|i its Hi _ IH]; intros l Hl; cbn [items_lengths]; [constructor|].
  apply Forall_app. destruct i; cbn [item_lengths item_last item_range] in *; (split; [|apply IH; lia]);
    try (apply Forall_replicate; lia). repeat constructor; lia.
Qed.

Section headers.
Context (h : header) (ok : header_ok h).

Lemma all_range : Forall (λ x, 0 <= x <= 15) (all_lengths h).
Proof. apply items_range; [lia|]. eapply list.Forall_impl; [apply (hok_items _ ok)|]. by intros i []. Qed.

Lemma length_literals : length (literal_lengths h) = hlit h.
Proof. unfold literal_lengths. rewrite length_take, (hok_number _ ok). lia. Qed.
Lemma length_distances : length (distance_lengths h) = hdist h.
Proof. unfold distance_lengths. rewrite length_drop, (hok_number _ ok). lia. Qed.
Lemma literals_range : Forall (λ x, 0 <= x <= 15) (literal_lengths h).
Proof. apply Forall_take, all_range. Qed.
Lemma distances_range : Forall (λ x, 0 <= x <= 15) (distance_lengths h).
Proof. apply Forall_drop, all_range. Qed.

Lemma items_buildable : buildable (clens h) 19 [] [] 7 ∧ longest (clens h) <= 7.
Proof.
  destruct (hok_clens _ ok) as [Hlen Hr].
  assert (longest (clens h) <= 7) as Hl.
  { apply longest_range; [lia|]. eapply list.Forall_impl; [exact Hr|]. cbn. lia. }
  split; [|done]. apply complete_buildable; rewrite ?Hlen; [|apply (hok_ccode _ ok)|lia|lia|lia|done|lia|cbn; lia].
  eapply list.Forall_impl; [exact Hr|]. cbn. lia.
Qed.

Lemma literals_buildable : buildable (literal_lengths h) 257 cplens cplext 9.
Proof.
  pose proof (hok_hlit _ ok). apply complete_buildable; rewrite ?length_literals; try lia.
  - apply literals_range.
  - apply (hok_literals _ ok).
  - change (Z.of_nat (length cplens)) with 31. change (Z.of_nat (length cplext)) with 31. lia.
Qed.

Lemma distances_buildable :
  (buildable (distance_lengths h) 0 cpdist cpdext 6 ∧
   c_bool (truthy (spare (distance_lengths h)) && negb (longest (distance_lengths h) =? 1)) = 0) ∨
  Forall (λ x, x = 0) (distance_lengths h).
Proof.
  pose proof (hok_hdist _ ok). destruct (hok_distances _ ok) as [Hc|[H1|H0]]; [left|left|by right].
  - split; [|by rewrite (complete_spare _ distances_range Hc)].
    apply complete_buildable; rewrite ?length_distances; try lia; [apply distances_range|done|].
    change (Z.of_nat (length cpdist)) with 30. change (Z.of_nat (length cpdext)) with 30. lia.
  - rewrite H1. split; [|done]. constructor; try done; [repeat constructor; lia|exists 1; split; [set_solver|lia]| |].
    + right. repeat constructor. done.
    + by left.
Qed.

(** ** The block *)

Lemma build_distances_runs s σ out (Q : Z * Z * Z → gz → Prop) :
  room s (build_memory 6 + 0) → ready s σ out →
  (∀ t l s', follows s s' → ready s' σ out → (∀ a, a < free_mem_ptr s → heap s' !! a = heap s !! a) →
     0 <= l <= 16 → has_tables (heap s') t l (distance_lengths h) (symbol_entry 0 cpdist cpdext) → Q (0, t, l) s') →
  runs (huft_build (distance_lengths h) 0 cpdist cpdext dbits) s Q.
Proof.
  intros Hroom Hrd HQ. change dbits with 6. destruct distances_buildable as [[Hb H0]|Hz].
  - eapply build_runs; [exact Hb|done|lia|done|]. rewrite H0. intros t l s' Hf Hrd' _ _ Hh [Hl _] Ht.
    apply HQ; try done; [lia|by eapply tables_now].
  - apply huft_build_none; [done|]. apply HQ; try done. split; [|by exists []; split; [done|constructor]].
    intros sym k σ' Hs Hk. pose proof (Forall_lookup_1 _ _ _ _ Hz Hs). cbn in *. lia.
Qed.

Lemma dynamic_codes_runs ll ys σ out s (Q : Z → gz → Prop) :
  take (length (all_lengths h)) ll = Some <$> all_lengths h →
  symbols_ok (literal_lengths h) (distance_lengths h) out ys → (16 <= length σ)%nat →
  room s (build_memory 9 + build_memory 6) →
  ready s (symbols_bits (literal_lengths h) (distance_lengths h) ys ++ σ) out →
  (∀ s', follows s s' → ready s' σ (foldl apply_symbol out ys) → Q 0 s') →
  runs (dynamic_codes (Z.of_nat (hlit h)) (Z.of_nat (hdist h)) ll) s Q.
Proof.
  intros Hll Hok Hσ Hroom Hrd HQ. pose proof (hok_number _ ok) as Hn. unfold dynamic_codes. change lbits with 9. apply runs_bind.
  apply (filled_runs _ _ _ (all_lengths h)); [done|lia|]. rewrite drop_0, Nat2Z.id. fold (literal_lengths h). apply runs_bind.
  eapply (build_runs _ _ _ _ _ _ _ _ (build_memory 6 + 0)); [apply literals_buildable| | |exact Hrd|];
    [eapply room_less; [done|lia]|by vm_compute|].
  intros tl bl s1 Hf1 Hrd1 Hroom1 Hle1 Hh1 [Hbl _] Ht1.
  rewrite (complete_spare _ literals_range (hok_literals _ ok)). cbn [truthy Z.eqb negb andb c_bool].
  apply runs_bind. apply (filled_runs _ _ _ (all_lengths h)); [done|lia|]. rewrite !Nat2Z.id.
  assert (take (hdist h) (drop (hlit h) (all_lengths h)) = distance_lengths h) as ->
    by (apply take_ge; change (length (distance_lengths h) <= hdist h)%nat; by rewrite length_distances).
  apply runs_bind. eapply build_distances_runs; [exact Hroom1|exact Hrd1|]. intros td bd s2 Hf2 Hrd2 Hh2 Hbd Ht2.
  cbn [truthy Z.eqb negb].
  eapply codes_and_free_runs; [by eapply tables_kept|lia|exact Ht2|done|apply literals_range|apply distances_range| |done|done|done|].
  - apply (hok_end _ ok).
  - intros s3 Hf3. apply HQ. eapply follows_trans; [done|]. by eapply follows_trans.
Qed.

Lemma items_count l its : Forall item_range its → (length its <= length (items_lengths l its))%nat.
Proof.
  intros H. revert l. induction H as [|i its Hi _ IH]; intros l; cbn [items_lengths length]; [lia|].
  rewrite length_app. specialize (IH (item_last l i)).
  destruct i; cbn [item_lengths length item_range item_last] in *; rewrite ?length_replicate; lia.
Qed.

Lemma dynamic_lengths_runs ll bs w ys σ out s (Q : Z → gz → Prop) :
  ll = (Some <$> clens h) ++ replicate 297 None → outcnt s = w →
  symbols_ok (literal_lengths h) (distance_lengths h) out ys → (16 <= length σ)%nat →
  room s block_memory → hist s w out → w < WSIZE →
  reads s bs (flat_map (item_bits (clens h)) (items h) ++ symbols_bits (literal_lengths h) (distance_lengths h) ys ++ σ) →
  (∀ s', follows s s' → ready s' σ (foldl apply_symbol out ys) → Q 0 s') →
  runs (dynamic_lengths (Z.of_nat (hlit h)) (Z.of_nat (hdist h)) ll bs) s Q.
Proof.
  intros Hll Hcnt Hok Hσ Hroom H Hw Hrd HQ. destruct (hok_clens _ ok) as [Hlen Hr]. destruct items_buildable as [Hb Hlong].
  pose proof (hok_hlit _ ok) as Hlit. pose proof (hok_hdist _ ok) as Hdis. pose proof (hok_number _ ok) as Hn.
  assert (length ll = 316%nat) as Hl by (subst ll; rewrite length_app, length_fmap, length_replicate, Hlen; done).
  unfold dynamic_lengths. apply runs_bind. apply (filled_runs _ _ _ (clens h)); [|cbn; lia|].
  { subst ll. rewrite take_app_length'; [done|by rewrite length_fmap]. }
  rewrite drop_0, take_ge by (cbn; lia). apply runs_bind.
  eapply build_tables_runs; [exact Hb|exact Hroom|by vm_compute|]. intros tl bl s1 Hb1 Hroom1 _ _ [Hbl Hll1] Ht1.
  rewrite (complete_spare _ (b_range _ _ _ _ _ Hb) (hok_ccode _ ok)). cbn [truthy Z.eqb negb andb c_bool].
  cbv zeta. apply runs_bind. eapply runs_rd; [lia|apply mask_lookup; lia|]. rewrite <- Nat2Z.inj_add, Nat2Z.id. apply runs_bind.
  destruct (tables_now _ _ _ _ _ _ _ Ht1) as [Hd1 (ts & Hts & Hnd)].
  eapply (read_lengths_runs tl bl (clens h) (heap s1) (hlit h + hdist h) Hlen Hr Hd1 Hbl (Hll1 Hlong) (items h) 0 _ 0);
    [apply (hok_items _ ok)|done|by eapply reads_built|rewrite length_app; lia|exact Hn|lia| |].
  { rewrite <- Hn. apply items_count. eapply list.Forall_impl; [apply (hok_items _ ok)|]. by intros i []. }
  intros ll2 bs2 s2 Ha2 Hrd2 Ht2. rewrite take_0, <- Hn in Ht2. apply runs_bind.
  eapply huft_free_runs; [rewrite (advanced_heap _ _ Ha2); exact Hts|done|]. apply runs_bind, runs_put.
  assert (hist s2 w out) as H2 by (eapply hist_advanced; [exact Ha2|by eapply hist_built]).
  apply dynamic_codes_runs with ys σ out; [exact Ht2|done|done| | |].
  - rewrite Ha2. destruct s1, Hroom1. by constructor.
  - destruct bs2. constructor; [by destruct Hrd2| |]; cbn; rewrite Ha2, Hb1; destruct s; cbn in *; subst; [|done].
    rewrite Ha2, Hb1 in H2. by destruct H2.
  - intros s3 Hf3. apply HQ. eapply follows_trans; [|exact Hf3]. rewrite Ha2, Hb1. by destruct s.
Qed.

Lemma inflate_dynamic_runs ys σ out s (Q : Z → gz → Prop) :
  symbols_ok (literal_lengths h) (distance_lengths h) out ys → (16 <= length σ)%nat → room s block_memory →
  ready s (header_bits h ++ symbols_bits (literal_lengths h) (distance_lengths h) ys ++ σ) out →
  (∀ s', follows s s' → ready s' σ (foldl apply_symbol out ys) → Q 0 s') →
  runs inflate_dynamic s Q.
Proof.
  intros Hok Hσ Hroom [Hrd H Hw] HQ. unfold header_bits in Hrd. rewrite <- !app_assoc in Hrd.
  destruct (hok_clens _ ok) as [Hlen Hr]. destruct (order_in (hclen h)) as [Ho1 Ho2].
  pose proof (hok_hlit _ ok) as Hlit. pose proof (hok_hdist _ ok) as Hdis. pose proof (hok_hclen _ ok) as Hcl.
  unfold inflate_dynamic, local_bits. apply runs_bind, runs_get.
  apply runs_bind. apply (take_bits_runs 5 _ _ _ _ _ Hrd); [lia|lia|]. intros bs1 s1 Hr1 Ha1.
  apply runs_bind. apply (take_bits_runs 5 _ _ _ _ _ Hr1); [lia|lia|]. intros bs2 s2 Hr2 Ha2.
  apply runs_bind. apply (take_bits_runs 4 _ _ _ _ _ Hr2); [lia|lia|]. intros bs3 s3 Hr3 Ha3. cbv zeta.
  replace (257 + (Z.of_nat (hlit h) - 257)) with (Z.of_nat (hlit h)) by lia.
  replace (1 + (Z.of_nat (hdist h) - 1)) with (Z.of_nat (hdist h)) by lia.
  replace (4 + (Z.of_nat (hclen h) - 4)) with (Z.of_nat (hclen h)) by lia.
  destruct (Z.ltb_spec 286 (Z.of_nat (hlit h))), (Z.ltb_spec 30 (Z.of_nat (hdist h))); try lia. cbn [orb].
  rewrite Nat2Z.id, border_order, <- fmap_take, <- fmap_drop. apply runs_bind.
  eapply (read_border_runs (clens h)); [done|done|done|cbn; lia|exact Hr3|]. intros bs4 s4 Ha4 Hr4.
  apply runs_bind. eapply (clear_border_runs (clens h)); [done|done|apply (hok_stored _ ok)|rewrite length_put_lengths; cbn; lia|].
  change (286 + 30)%nat with 316%nat. rewrite border_written by done.
  pose proof (advanced_trans _ _ _ (advanced_trans _ _ _ (advanced_trans _ _ _ Ha1 Ha2) Ha3) Ha4) as Ha.
  eapply (dynamic_lengths_runs _ _ (outcnt s)); [done|by rewrite Ha|done|done| |by eapply hist_advanced|done|exact Hr4|].
  - rewrite Ha. destruct s, Hroom. by constructor.
  - intros s5 Hf5. apply HQ. eapply follows_trans; [|exact Hf5]. apply follows_keeps, keeps_advanced, Ha.
Qed.

End headers.

End InflateDynamic.
