(* ===== verification/Gunzip.v ===== *)
(** * The file

    [blocks_loop] goes through the blocks up to the last one, [inflate] gives back
    what it read ahead, and [decompress_kernel] unpacks a file, whatever blocks it
    was packed into; what it accepts has the length and the checksum at its end. *)

From stdpp Require Import gmap.
From S2P Require Import Prelude Crc32 Deflate Inflate InflateBits InflateWindow Huft HuftBuild InflateCodes InflateBlocks InflateDynamic.

Module Gunzip.
Import Deflate Inflate InflateBits InflateWindow Huft HuftBuild InflateCodes InflateBlocks InflateDynamic.

(** ** Blocks *)

Definition block_type (b : block) : Z := match b with Stored _ _ => 0 | Fixed _ => 1 | Dynamic _ _ => 2 end.
Definition block_body (b : block) : list bool := drop 2 (block_bits b).

Lemma block_bits_split b : block_bits b = bits_of 2 (block_type b) ++ block_body b.
Proof. by destruct b. Qed.

Lemma room_follows s s' n : follows s s' → free_mem_ptr s' = free_mem_ptr s → room s n → room s' n.
Proof. intros [_ _ He] Hf []. constructor; rewrite ?Hf, ?He; done. Qed.

(** The body of a block. *)
Lemma block_body_runs b pos out σ s (Q : Z → gz → Prop) :
  block_ok pos out b → ((pos + 3 + length (block_body b ++ σ)) mod 8 = 0)%nat → (16 <= length σ)%nat →
  room s block_memory → ready s (block_body b ++ σ) out →
  (∀ s', follows s s' → ready s' σ (apply_block out b) → Q 0 s') →
  runs (if block_type b =? 2 then inflate_dynamic
        else if block_type b =? 0 then inflate_stored
        else if block_type b =? 1 then inflate_fixed
        else mret 2) s Q.
Proof.
  intros Hok Hpos Hσ Hroom Hrd HQ. destruct b as [fill data|ys|h ys]; cbn [block_type Z.eqb Pos.eqb].
  - destruct Hok as (Hf & Hal & Hd & Hn). change (block_body (Stored fill data)) with
      (fill ++ bits_of 16 (Z.of_nat (length data)) ++ bits_of 16 (Z.lnot (Z.of_nat (length data))) ++ octet_bits data) in *.
    rewrite <- !app_assoc in Hrd, Hpos. rewrite !length_app, !length_bits_of, length_octet_bits in Hpos.
    apply (inflate_stored_runs fill data σ out); [done|done|done| |exact Hrd|].
    + apply Nat.Div0.div_exact in Hal, Hpos.
      match type of Hal with _ = (8 * ?a)%nat => match type of Hpos with _ = (8 * ?b)%nat =>
        replace (length σ) with ((b - a - 4 - length data) * 8)%nat by lia end end. apply Nat.Div0.mod_mul.
    + intros s' Hk. apply HQ. by apply follows_keeps.
  - by apply (inflate_fixed_runs ys σ out).
  - destruct Hok as [Hh Hok]. change (block_body (Dynamic h ys)) with
      (header_bits h ++ symbols_bits (literal_lengths h) (distance_lengths h) ys) in *.
    rewrite <- app_assoc in Hrd. by apply (inflate_dynamic_runs h Hh ys σ out).
Qed.

Lemma inflate_block_runs e b pos out σ s (Q : Z * Z → gz → Prop) :
  block_ok pos out b → ((pos + length (e :: block_bits b ++ σ)) mod 8 = 0)%nat → (16 <= length σ)%nat →
  room s block_memory → ready s (e :: block_bits b ++ σ) out →
  (∀ s', follows s s' → ready s' σ (apply_block out b) → Q (0, Z.b2z e) s') →
  runs inflate_block s Q.
Proof.
  intros Hok Hpos Hσ Hroom [Hrd H Hw] HQ. unfold inflate_block, local_bits. apply runs_bind, runs_get.
  assert (e :: block_bits b ++ σ = bits_of 1 (Z.b2z e) ++ bits_of 2 (block_type b) ++ block_body b ++ σ) as Hst.
  { rewrite block_bits_split, <- app_assoc. by destruct e. }
  rewrite Hst in Hrd, Hpos. rewrite !length_app, !length_bits_of in Hpos.
  apply runs_bind. apply (take_bits_runs 1 _ _ _ _ _ Hrd); [lia|destruct e; cbn; lia|]. intros bs1 s1 Hr1 Ha1.
  apply runs_bind. apply (take_bits_runs 2 _ _ _ _ _ Hr1); [lia|destruct b; cbn; lia|]. intros bs2 s2 Hr2 Ha2.
  pose proof (advanced_trans _ _ _ Ha1 Ha2) as Ha. apply runs_bind, runs_put, runs_bind.
  apply (block_body_runs b pos out σ); [done| |done| | |].
  - rewrite length_app. by replace (pos + 3 + (length (block_body b) + length σ))%nat
      with (pos + (1 + (2 + (length (block_body b) + length σ))))%nat by lia.
  - rewrite Ha. destruct s, Hroom. by constructor.
  - pose proof (hist_advanced _ _ _ _ Ha H) as H2. destruct bs2. constructor; [by destruct Hr2| |];
      cbn; rewrite Ha; [|by destruct s]. rewrite Ha in H2. destruct s. by destruct H2.
  - intros s3 Hf Hrd3. apply runs_ret, HQ; [|done]. eapply follows_trans; [|exact Hf]. rewrite Ha. by destruct s.
Qed.

Lemma blocks_cons b bs :
  bs ≠ [] → blocks_bits (b :: bs) = false :: block_bits b ++ blocks_bits bs.
Proof. by destruct bs. Qed.

Lemma ready_release s σ out p e : ready s σ out → ready (set_free p e s) σ out.
Proof. destruct s. intros [[] [] ?]. by constructor. Qed.

Lemma blocks_loop_runs bs fuel pos out σ s (Q : Z → gz → Prop) :
  bs ≠ [] → blocks_ok pos out bs → ((pos + length (blocks_bits bs ++ σ)) mod 8 = 0)%nat → (16 <= length σ)%nat →
  room s block_memory → ready s (blocks_bits bs ++ σ) out → (length bs <= fuel)%nat →
  (∀ s', follows s s' → ready s' σ (foldl apply_block out bs) → Q 0 s') →
  runs (blocks_loop fuel) s Q.
Proof.
  revert fuel pos out s. induction bs as [|b bs IH]; intros fuel pos out s Hne Hok Hpos Hσ Hroom Hrd Hf HQ; [done|].
  destruct fuel as [|fuel]; cbn [length] in Hf; [lia|]. destruct Hok as [Hb Hbs]. cbn [blocks_loop].
  apply runs_bind, runs_put. unfold gzip_mark. apply runs_bind, runs_get, runs_bind.
  set (s1 := set_hufts 0 s). assert (room s1 block_memory) as Hroom1 by (destruct s, Hroom; by constructor).
  assert (follows s s1) as Hf1 by (by destruct s).
  assert (∀ τ, ready s τ out → ready s1 τ out) as Hrd1 by (intros τ; destruct s; intros [[] [] ?]; by constructor).
  destruct (decide (bs = [])) as [->|Hbne].
  - cbn [blocks_bits app] in Hrd, Hpos. eapply inflate_block_runs; [done|exact Hpos|done|done|by apply Hrd1|].
    intros s2 Hf2 Hrd2. unfold gzip_release. apply runs_bind, runs_bind, runs_get, runs_put, runs_ret.
    apply HQ; [|by apply ready_release]. eapply follows_trans; [done|]. destruct s2, Hf2. by constructor.
  - rewrite blocks_cons in Hrd, Hpos by done. cbn [app] in Hrd, Hpos. rewrite <- app_assoc in Hrd, Hpos.
    eapply inflate_block_runs; [done|exact Hpos|rewrite length_app; lia|done|by apply Hrd1|].
    intros s2 Hf2 Hrd2. unfold gzip_release. apply runs_bind, runs_bind, runs_get, runs_put. cbn [truthy Z.b2z Z.eqb negb].
    set (s3 := set_free (free_mem_ptr s1) (free_mem_end_ptr s2) s2).
    assert (follows s s3) as Hf3 by (destruct s2, Hf1, Hf2; constructor; cbn in *; congruence).
    eapply IH; [done|exact Hbs| |done| |apply ready_release, Hrd2|lia|].
    + cbn [length] in Hpos. rewrite !length_app in *. etrans; [|exact Hpos]. f_equal. lia.
    + eapply room_follows; [exact Hf3|by destruct s, s2|done].
    + intros s4 Hf4. apply HQ. by eapply follows_trans.
Qed.

(** ** Packed octets *)

Lemma bits_of_zero n : bits_of n 0 = replicate n false.
Proof. induction n as [|n IH]; [done|]. cbn. by rewrite IH. Qed.

Lemma bits_of_short n l : (length l <= n)%nat → bits_of n (value l) = l ++ replicate (n - length l) false.
Proof.
  intros H. replace n with (length l + (n - length l))%nat at 1 by lia. rewrite bits_of_app, bits_of_value. f_equal.
  rewrite Z.shiftr_div_pow2, Z.div_small by (pose proof (value_range l); lia). apply bits_of_zero.
Qed.

Lemma pack_bits n l : octet_bits (pack n l) = take (8 * n) l ++ replicate (8 * n - length l) false.
Proof.
  revert l. induction n as [|n IH]; intros l; [done|]. cbn [pack].
  change (octet_bits (?x :: ?y)) with (bits_of 8 x ++ octet_bits y).
  rewrite IH, bits_of_short, length_take, length_drop by (rewrite length_take; lia).
  destruct (decide (length l <= 8)%nat) as [Hl|Hl].
  - rewrite (take_ge l), (take_ge l), (drop_ge l), take_nil by lia. rewrite <- app_assoc. cbn [app].
    rewrite <- replicate_add. do 2 f_equal. lia.
  - rewrite Nat.min_l, Nat.sub_diag, app_nil_r, app_assoc by lia. cbn [replicate app]. f_equal; [|f_equal; lia].
    replace (8 * S n)%nat with (8 + 8 * n)%nat by lia. by rewrite take_take_drop.
Qed.

Lemma pack_octets n l : Forall byte (pack n l).
Proof.
  revert l. induction n as [|n IH]; intros l; cbn; constructor; [|done].
  pose proof (value_below (take 8 l) 8 ltac:(rewrite length_take; lia)) as H. exact H.
Qed.

Lemma octets_of_bits l : ∃ fill, octet_bits (octets_of l) = l ++ fill ∧ (length fill < 8)%nat.
Proof.
  unfold octets_of. rewrite pack_bits. pose proof (Nat.div_mod_eq (length l + 7) 8) as Hq.
  pose proof (Nat.mod_upper_bound (length l + 7) 8 ltac:(lia)).
  exists (replicate (8 * ((length l + 7) / 8) - length l) false). rewrite length_replicate, take_ge by lia. split; [done|lia].
Qed.

(** ** The end of the blocks *)

Lemma undo_lookahead_runs fuel s (Q : unit → gz → Prop) :
  0 <= bk s → bk s / 8 <= Z.of_nat fuel → bk s / 8 <= inptr s < 2 ^ 32 →
  Q tt (set_bits (bb s) (bk s mod 8) (set_inptr (inptr s - bk s / 8) s)) →
  runs (undo_lookahead fuel) s Q.
Proof.
  revert s. induction fuel as [|fuel IH]; intros s Hk Hf Hp HQ; cbn [undo_lookahead]; apply runs_bind, runs_get;
    destruct (Z.leb_spec 8 (bk s)) as [H8|H8].
  1: { exfalso. pose proof (Z.div_le_mono 8 (bk s) 8 ltac:(lia) H8). change (8 / 8) with 1 in *. lia. }
  2: { apply runs_bind, runs_put.
       assert ((bk s - 8) / 8 = bk s / 8 - 1 ∧ (bk s - 8) mod 8 = bk s mod 8) as [Hd Hm].
       { pose proof (Z.div_mod (bk s) 8 ltac:(lia)). pose proof (Z.mod_pos_bound (bk s) 8 ltac:(lia)).
         split; symmetry; [apply Z.div_unique with (bk s mod 8)|apply Z.mod_unique with (bk s / 8 - 1)]; lia. }
       assert (1 <= bk s / 8) by (apply Z.div_le_lower_bound; lia).
       apply IH; cbn; rewrite ?Hd, ?Hm, ?u32_id by (unfold word32; lia); try lia.
       destruct s; cbn in *. by replace (inptr0 - 1 - (bk0 / 8 - 1)) with (inptr0 - bk0 / 8) by lia. }
  all: apply runs_ret; rewrite Z.div_small, Z.mod_small, Z.sub_0_r in HQ by lia; by destruct s.
Qed.

(** The state in which [inflate] starts. *)
Record starts (s : gz) (packed tail : list Z) : Prop := {
  starts_size : insize s = Z.of_nat (length (input_data s));
  starts_max : 0 < insize s < 2 ^ 32;
  starts_ptr : 0 <= inptr s <= insize s;
  starts_octets : Forall byte (input_data s);
  starts_drop : drop (Z.to_nat (inptr s)) (input_data s) = packed ++ tail;
  starts_window : Z.of_nat (length (window s)) = WSIZE;
  starts_output : output_data s = [] ∧ bytes_out s = 0;
  starts_crc : crc_32_tab s = Crc32.table ∧ crc s = 0xffffffff;
  starts_room : room s block_memory
}.

(** What it leaves. *)
Record unpacked (s s' : gz) (n : Z) (out : list Z) : Prop := {
  un_input : input_data s' = input_data s;
  un_size : insize s' = insize s;
  un_ptr : inptr s' = inptr s + n;
  un_output : output_data s' = out;
  un_bytes : bytes_out s' = u32 (Z.of_nat (length out));
  un_crc : crc s' = foldl Crc32.crc_octet 0xffffffff out;
  un_octets : Forall byte out
}.

Lemma hist_start s w : Z.of_nat (length (window s)) = WSIZE → output_data s = [] → bytes_out s = 0 →
  crc_32_tab s = Crc32.table → crc s = 0xffffffff → w = 0 → hist s w [].
Proof.
  intros Hw Ho Hb Ht Hc ->. constructor; rewrite ?Ho; try done. intros p Hp. cbn in Hp. lia.
Qed.

Lemma blocks_count bs : (length bs <= length (blocks_bits bs))%nat.
Proof.
  induction bs as [|b bs IH]; [done|]. destruct bs as [|b' bs]; [cbn; lia|].
  rewrite blocks_cons by done. cbn [length] in *. rewrite length_app. lia.
Qed.

Lemma inflate_runs bs tail s (Q : Z → gz → Prop) :
  bs ≠ [] → blocks_ok 0 [] bs → (2 <= length tail)%nat → starts s (octets_of (blocks_bits bs)) tail →
  (∀ s', unpacked s s' (Z.of_nat (length (octets_of (blocks_bits bs)))) (foldl apply_block [] bs) → Q 0 s') →
  runs inflate s Q.
Proof.
  intros Hne Hok Ht [Hs Hm Hp Ho Hd Hw [Hout Hby] [Htab Hcrc] Hroom] HQ. unfold inflate.
  destruct (octets_of_bits (blocks_bits bs)) as (fill & Hfill & Hfl). set (packed := octets_of (blocks_bits bs)) in *.
  set (σ := fill ++ octet_bits tail). assert (Hσ : (16 <= length σ)%nat) by (unfold σ; rewrite length_app, length_octet_bits; lia).
  apply runs_bind, runs_put, runs_bind, runs_put, runs_bind, runs_get, runs_bind.
  set (s1 := set_bits 0 0 (set_outcnt 0 s)).
  assert (ready s1 (blocks_bits bs ++ σ) []) as Hrd1.
  { constructor; [|by apply hist_start|done]. constructor; cbn; try done; try lia.
    rewrite Hd, octet_bits_app, Hfill, <- app_assoc. done. }
  assert (length (blocks_bits bs ++ σ) = 8 * length (packed ++ tail))%nat as Hlen.
  { unfold σ. rewrite app_assoc, <- Hfill, <- octet_bits_app. apply length_octet_bits. }
  apply (blocks_loop_runs bs _ 0 [] σ); try done.
  { cbn [Nat.add]. rewrite Hlen, Nat.mul_comm. apply Nat.Div0.mod_mul. }
  { by destruct Hroom. }
  { pose proof (bits_left_enough _ _ (ready_reads _ _ _ Hrd1)) as Hb. pose proof (blocks_count bs).
    rewrite length_app in Hb. lia. }
  intros s2 [Hi2 Hs2 _] [Hr2 H2 Hw2]. cbn [truthy Z.eqb negb]. apply runs_bind, runs_get. apply runs_bind.
  pose proof (reads_length _ _ _ Hr2) as Hl2. destruct (reads_k _ _ _ Hr2) as [Hk _]. cbn [snd] in *.
  change (insize s1) with (insize s) in Hs2. assert (bk s2 / 8 = inptr s2 - (inptr s + Z.of_nat (length packed))) as Hq.
  { assert (Z.of_nat (length packed) + Z.of_nat (length tail) = insize s - inptr s).
    { apply (f_equal length) in Hd. rewrite length_drop, length_app in Hd. lia. }
    unfold σ in Hl2. rewrite length_app, length_octet_bits in Hl2. symmetry. apply Z.div_unique with (Z.of_nat (length fill)); lia. }
  pose proof (reads_ptr _ _ _ Hr2). rewrite Hs2 in *.
  apply undo_lookahead_runs; [done| |lia|]. { pose proof (Z.div_le_upper_bound (bk s2) 8 (bk s2)). lia. }
  apply runs_bind, runs_get. apply runs_bind. eapply flush_output_runs; [by destruct H2|].
  intros s3 Hwr Ho3 Hb3 Hc3 _. apply runs_ret, HQ. unfold wrote in Hwr.
  constructor; [| | |done|done|done|apply (hist_octets _ _ _ H2)]; rewrite Hwr; [done|done|]. change (inptr s2 - bk s2 / 8 = inptr s + Z.of_nat (length packed)). lia.
Qed.

(** ** Octets of the file *)

Lemma lor_shiftl a b n : 0 <= n → 0 <= a < 2 ^ n → a .| Z.shiftl b n = a + 2 ^ n * b.
Proof.
  intros Hn Ha. assert (Z.land a (Z.shiftl b n) = 0) as Hl.
  { apply Z.bits_inj'. intros i Hi. rewrite Z.land_spec, Z.testbit_0_l. destruct (decide (i < n)).
    - by rewrite Z.shiftl_spec_low, andb_false_r by lia.
    - by rewrite (testbit_above a n) by lia. }
  rewrite <- Z.lxor_lor, <- Z.add_nocarry_lxor, Z.shiftl_mul_pow2 by done. lia.
Qed.

Lemma le_val_wrap n z : le_val (le_bytes n z) = z mod 256 ^ Z.of_nat n.
Proof.
  revert z. induction n as [|n IH]; intros z; cbn [le_bytes le_val]; [by rewrite Z.mod_1_r|].
  rewrite Nat2Z.inj_succ, Z.pow_succ_r, Z.rem_mul_r, IH by lia. done.
Qed.

(** The octets from the position on are [rest]. *)
Record follow_on (s : gz) (rest : list Z) : Prop := {
  fo_size : insize s = Z.of_nat (length (input_data s));
  fo_max : insize s < 2 ^ 32;
  fo_ptr : 0 <= inptr s;
  fo_octets : Forall byte (input_data s);
  fo_rest : drop (Z.to_nat (inptr s)) (input_data s) = rest
}.

Lemma follow_on_drop s l rest :
  follow_on s (l ++ rest) → follow_on (set_inptr (inptr s + Z.of_nat (length l)) s) rest ∧
  inptr s + Z.of_nat (length l) + Z.of_nat (length rest) = Z.max (inptr s) (insize s).
Proof.
  intros [Hs Hm Hp Ho Hr]. split.
  - constructor; cbn; try done; [lia|]. replace (Z.to_nat _) with (Z.to_nat (inptr s) + length l)%nat by lia.
    by rewrite <- drop_drop, Hr, drop_app_length.
  - apply (f_equal length) in Hr. rewrite length_drop, length_app in Hr. lia.
Qed.

Lemma get_byte_runs c rest s (Q : Z → gz → Prop) :
  follow_on s (c :: rest) → (∀ s', advanced s s' → byte c → follow_on s' rest → Q c s') → runs get_byte s Q.
Proof.
  intros H HQ. destruct (follow_on_drop s [c] rest H) as [H' _]. destruct H as [Hs Hm Hp Ho Hr].
  assert (input_data s !! Z.to_nat (inptr s) = Some c) as Hc.
  { rewrite <- (Nat.add_0_r (Z.to_nat (inptr s))), <- lookup_drop, Hr. done. }
  unfold runs. rewrite (get_byte_run s c Hs Hp Hc). apply HQ; [apply advanced_set| |exact H'].
  by apply (Forall_lookup_1 _ _ _ _ Ho Hc).
Qed.

Lemma skip_octets_runs l rest s (Q : unit → gz → Prop) :
  follow_on s (l ++ rest) → (∀ s', advanced s s' → follow_on s' rest → Q tt s') → runs (skip_octets (length l)) s Q.
Proof.
  revert s. induction l as [|c l IH]; intros s H HQ; cbn [skip_octets length].
  - apply runs_ret, HQ; [apply advanced_refl|done].
  - apply runs_bind. eapply get_byte_runs; [exact H|]. intros s1 Ha1 _ H1. apply IH; [done|].
    intros s2 Ha2. apply HQ. by eapply advanced_trans.
Qed.

Lemma skip_string_runs l rest fuel s (Q : unit → gz → Prop) :
  Forall (λ c, 0 < c < 256) l → follow_on s (l ++ 0 :: rest) → (length l < fuel)%nat →
  (∀ s', advanced s s' → follow_on s' rest → Q tt s') → runs (skip_string fuel) s Q.
Proof.
  intros Hl. revert fuel s. induction Hl as [|c l Hc _ IH]; intros fuel s H Hf HQ; destruct fuel as [|fuel];
    cbn [length skip_string] in *; try lia; apply runs_bind.
  - eapply get_byte_runs; [exact H|]. intros s1 Ha1 _ H1. by apply runs_ret, HQ.
  - eapply get_byte_runs; [exact H|]. intros s1 Ha1 _ H1. unfold truthy. destruct (Z.eqb_spec c 0); [lia|]. cbn [negb].
    apply IH; [done|lia|]. intros s2 Ha2. apply HQ. by eapply advanced_trans.
Qed.

Lemma word_value a b : byte a → a .| Z.shiftl b 8 = le_val [a; b].
Proof. unfold byte. intros. rewrite lor_shiftl by lia. cbn. lia. Qed.

Lemma dword_value a b c d : byte a → byte b → byte c → a .| Z.shiftl b 8 .| Z.shiftl c 16 .| Z.shiftl d 24 = le_val [a; b; c; d].
Proof.
  unfold byte. intros. rewrite (lor_shiftl a b 8) by lia. rewrite (lor_shiftl _ c 16) by lia.
  rewrite lor_shiftl by lia. cbn [le_val]. lia.
Qed.

Lemma get_dword_runs z rest s (Q : Z → gz → Prop) :
  follow_on s (le_bytes 4 z ++ rest) → (∀ s', advanced s s' → follow_on s' rest → Q (u32 z) s') → runs get_dword s Q.
Proof.
  intros H HQ. pose proof (le_val_wrap 4 z) as Hv. pose proof (le_bytes_byte 4 z) as Hb. cbn [le_bytes] in Hv, Hb, H.
  set (a := z mod 256) in *. set (b := (z / 256) mod 256) in *. set (c := (z / 256 / 256) mod 256) in *.
  set (d := (z / 256 / 256 / 256) mod 256) in *.
  unfold get_dword. do 4 (apply runs_bind; eapply get_byte_runs; [eassumption|]; intros ? ? ? ?). apply runs_ret.
  rewrite dword_value, Hv by done. change (256 ^ Z.of_nat 4) with (2 ^ 32). fold (u32 z).
  apply HQ; [|done]. repeat (eapply advanced_trans; [eassumption|]). apply advanced_refl.
Qed.

(** ** The header *)

Definition given {A} (o : option A) : bool := match o with Some _ => true | None => false end.

Lemma flag_bits m :
  truthy (member_flags m .& ENCRYPTED) = false ∧ truthy (member_flags m .& CONTINUATION) = false ∧
  truthy (member_flags m .& RESERVED) = false ∧
  truthy (member_flags m .& EXTRA_FIELD) = given (extra m) ∧
  truthy (member_flags m .& ORIG_NAME) = given (file_name m) ∧
  truthy (member_flags m .& COMMENT) = given (comment m).
Proof. destruct m as [e n c ? t ?]. unfold member_flags. cbn. by destruct e, n, c, t. Qed.

Lemma skip_extra_runs o rest s (Q : unit → gz → Prop) :
  match o with Some x => Forall byte x ∧ (length x < 2 ^ 16)%nat | None => True end →
  follow_on s (extra_octets o ++ rest) → (∀ s', advanced s s' → follow_on s' rest → Q tt s') →
  runs (if given o then
          a ← get_byte; b ← get_byte; skip_octets (Z.to_nat (a .| Z.shiftl b 8))
        else mret tt) s Q.
Proof.
  intros Ho H HQ. destruct o as [x|]; [|apply runs_ret, HQ; [apply advanced_refl|done]]. destruct Ho as [_ Hx].
  assert (Z.of_nat (length x) < 2 ^ 16) as Hx' by (apply Nat2Z.inj_lt in Hx; by rewrite Nat2Z.inj_pow in Hx). clear Hx.
  unfold extra_octets in H. cbn [le_bytes app] in H.
  do 2 (apply runs_bind; eapply get_byte_runs; [eassumption|]; intros ? ? ? ?).
  rewrite word_value by done. change [?a; ?b] with (le_bytes 2 (Z.of_nat (length x))).
  rewrite le_val_bytes, Nat2Z.id by (change (256 ^ Z.of_nat 2) with (2 ^ 16); lia).
  eapply skip_octets_runs; [eassumption|]. intros s3 Ha3. apply HQ.
  eapply advanced_trans; [eassumption|]. by eapply advanced_trans.
Qed.

Lemma skip_name_runs o rest s (Q : unit → gz → Prop) :
  string_ok o → follow_on s (string_octets o ++ rest) → (∀ s', advanced s s' → follow_on s' rest → Q tt s') →
  runs (if given o then n ← get octets_left; skip_string n else mret tt) s Q.
Proof.
  intros Ho H HQ. destruct o as [x|]; [|apply runs_ret, HQ; [apply advanced_refl|done]].
  apply runs_bind, runs_get. cbn [string_octets] in H. rewrite <- app_assoc in H.
  eapply skip_string_runs; [exact Ho|exact H| |done].
  pose proof (f_equal length (fo_rest _ _ H)) as Hl. rewrite length_drop, length_app in Hl.
  pose proof (fo_size _ _ H). pose proof (fo_ptr _ _ H). unfold octets_left. lia.
Qed.

Lemma skip_fixed_runs l rest s (Q : unit → gz → Prop) :
  length l = 6%nat → follow_on s (l ++ rest) → (∀ s', advanced s s' → follow_on s' rest → Q tt s') →
  runs (put (λ s, set_inptr (u32 (inptr s + 6)) s)) s Q.
Proof.
  intros Hl H HQ. destruct (follow_on_drop _ _ _ H) as [H' Hle]. pose proof (fo_max _ _ H). pose proof (fo_ptr _ _ H).
  pose proof (f_equal length (fo_rest _ _ H)) as Hr. rewrite length_drop, length_app in Hr. pose proof (fo_size _ _ H).
  rewrite Hl in *. apply runs_put. rewrite u32_id by (unfold word32; lia). apply HQ; [apply advanced_set|exact H'].
Qed.

(** The first octet fills the buffer. *)
Lemma first_byte_runs c l s (Q : Z → gz → Prop) :
  input_data s = c :: l → insize s = 0 → inptr s = 0 → Q c (set_input (Z.of_nat (length (c :: l))) 1 s) → runs get_byte s Q.
Proof. intros Hi Hs Hp HQ. unfold runs, get_byte, fill_inbuf. rewrite Hs, Hp, Hi. exact HQ. Qed.

Lemma makecrc_table s : makecrc s = Done tt (set_crc Crc32.table 0xffffffff s).
Proof.
  unfold makecrc, put. replace (0 :: ((λ i, crc_entry 9 (Z.of_nat i .| 256) 0) <$> seq 1 255)) with Crc32.table; [done|by vm_compute].
Qed.

Lemma makecrc_runs s (Q : unit → gz → Prop) : Q tt (set_crc Crc32.table 0xffffffff s) → runs makecrc s Q.
Proof. unfold runs. by rewrite makecrc_table. Qed.

(** ** The file *)

Lemma file_octets m : member_ok m → Forall byte (gzip_file m).
Proof.
  intros [He Hn Hc [Hf _] _ _]. unfold gzip_file, file_header.
  assert (∀ o, string_ok o → Forall byte (string_octets o)) as Hstr.
  { intros [x|] Hx; cbn; [|constructor]. apply Forall_app. split; [|repeat constructor; unfold byte; lia].
    eapply list.Forall_impl; [exact Hx|]. unfold byte. cbn. lia. }
  repeat (apply Forall_app; split); auto using le_bytes_byte.
  - repeat constructor; unfold byte; try lia; destruct m as [e n c ? t ?]; unfold member_flags; cbn; destruct e, n, c, t; cbn; lia.
  - unfold extra_octets. destruct (extra m); [|constructor]. apply Forall_app. split; [apply le_bytes_byte|apply He].
  - apply pack_octets.
Qed.

Lemma crc32_range l : Forall byte l → word32 (crc32 l).
Proof.
  intros Hl. unfold crc32. assert (word32 (Crc32.crc_ref l)) as H by (apply Crc32.foldl_octet_range; [by vm_compute|done]).
  unfold word32 in *. change 0xffffffff with (Z.ones 32). by apply (lxor_bound _ _ 32).
Qed.

Definition trailer (m : member) : list Z := le_bytes 4 (crc32 (original m)) ++ le_bytes 4 (Z.of_nat (length (original m))).

Lemma trailer_runs m rest s (Q : Z → gz → Prop) :
  Forall byte (original m) → follow_on s (trailer m ++ rest) → output_data s = original m →
  bytes_out s = u32 (Z.of_nat (length (original m))) → crc s = foldl Crc32.crc_octet 0xffffffff (original m) →
  (∀ s', output_data s' = original m → Q 0 s') →
  runs (orig_crc ← get_dword; orig_len ← get_dword; s ← get id;
        if negb (orig_crc =? CRC_VALUE s) then stall
        else if negb (orig_len =? bytes_out s) then stall
        else mret 0) s Q.
Proof.
  intros Ho H Hout Hb Hc HQ. unfold trailer in H. rewrite <- app_assoc in H.
  apply runs_bind. eapply get_dword_runs; [exact H|]. intros s1 Ha1 H1.
  apply runs_bind. eapply get_dword_runs; [exact H1|]. intros s2 Ha2 _. apply runs_bind, runs_get. change (id s2) with s2.
  pose proof (advanced_trans _ _ _ Ha1 Ha2) as Ha. rewrite u32_id by (by apply crc32_range).
  assert (CRC_VALUE s2 = crc32 (original m)) as -> by (unfold CRC_VALUE; rewrite Ha; cbn; by rewrite Hc).
  assert (bytes_out s2 = u32 (Z.of_nat (length (original m)))) as -> by (by rewrite Ha).
  rewrite !Z.eqb_refl. cbn [negb]. apply runs_ret, HQ. by rewrite Ha.
Qed.

(** The state of [decompress_kernel] in front of [gunzip]. *)
Record fresh (s : gz) (data : list Z) : Prop := {
  fresh_input : input_data s = data;
  fresh_zero : insize s = 0 ∧ inptr s = 0;
  fresh_window : Z.of_nat (length (window s)) = WSIZE;
  fresh_output : output_data s = [] ∧ bytes_out s = 0;
  fresh_crc : crc_32_tab s = Crc32.table ∧ crc s = 0xffffffff;
  fresh_room : room s block_memory
}.

Lemma starts_after s data n s' packed tail :
  fresh s data → advanced (set_input n 1 s) s' → follow_on s' (packed ++ tail) → tail ≠ [] → starts s' packed tail.
Proof.
  intros [Hi [Hs Hp] Hw [Ho Hb] [Ht Hc] [Hr1 Hr2 Hr3]] Ha [Fs Fm Fp Fo Fr] Hne.
  assert (0 < length tail)%nat by (destruct tail; [done|cbn; lia]).
  pose proof (f_equal length Fr) as Hl. rewrite length_drop, length_app in Hl.
  constructor; try done; try lia; rewrite Ha; done.
Qed.

Lemma follow_on_unpacked s s' packed rest out :
  follow_on s (packed ++ rest) → unpacked s s' (Z.of_nat (length packed)) out → follow_on s' rest.
Proof.
  intros H Hun. destruct (follow_on_drop _ _ _ H) as [[Fs Fm Fp Fo Fr] _]. cbn in *.
  constructor; rewrite ?(un_size _ _ _ _ Hun), ?(un_input _ _ _ _ Hun), ?(un_ptr _ _ _ _ Hun); done.
Qed.

Lemma gunzip_runs m rest s (Q : Z → gz → Prop) :
  member_ok m → Forall byte rest → Z.of_nat (length (gzip_file m ++ rest)) < 2 ^ 32 → fresh s (gzip_file m ++ rest) →
  (∀ s', output_data s' = original m → Q 0 s') →
  runs gunzip s Q.
Proof.
  intros ok Hrest Hmax [Hi [Hs Hp] Hw Hout Hcrc Hroom] HQ.
  assert (Forall byte (gzip_file m ++ rest)) as Hby by (apply Forall_app; split; [by apply file_octets|done]).
  destruct (flag_bits m) as (F1 & F2 & F3 & F4 & F5 & F6). destruct (mok_fixed _ ok) as [_ H6].
  assert (gzip_file m ++ rest = 0x1f :: 0x8b :: 8 :: member_flags m :: mtime_xfl_os m ++ extra_octets (extra m) ++
    string_octets (file_name m) ++ string_octets (comment m) ++ octets_of (blocks_bits (blocks m)) ++ trailer m ++ rest) as Hl.
  { unfold gzip_file, file_header, trailer. rewrite <- !app_assoc. done. }
  rewrite Hl in *. unfold gunzip. apply runs_bind. eapply first_byte_runs; [exact Hi|done|done|].
  set (s0 := set_input _ 1 s).
  assert (follow_on s0 (drop 1 (input_data s))) as H0.
  { constructor; cbn -[length]; rewrite ?Hi; try done. }
  rewrite Hi in H0. cbn [drop] in H0.
  apply runs_bind. eapply get_byte_runs; [exact H0|]. intros s1 Ha1 _ H1.
  apply runs_bind. eapply get_byte_runs; [exact H1|]. intros s2 Ha2 _ H2. cbn [Z.eqb Pos.eqb negb andb orb].
  apply runs_bind. eapply get_byte_runs; [exact H2|]. intros s3 Ha3 _ H3. rewrite F1, F2, F3, F4, F5, F6.
  apply runs_bind. eapply skip_fixed_runs; [exact H6|exact H3|]. intros s4 Ha4 H4.
  apply runs_bind. eapply skip_extra_runs; [apply (mok_extra _ ok)|exact H4|]. intros s5 Ha5 H5.
  apply runs_bind. eapply skip_name_runs; [apply (mok_name _ ok)|exact H5|]. intros s6 Ha6 H6'.
  apply runs_bind. eapply skip_name_runs; [apply (mok_comment _ ok)|exact H6'|]. intros s7 Ha7 H7.
  assert (advanced s0 s7) as Ha by (repeat (eapply advanced_trans; [eassumption|]); apply advanced_refl).
  apply runs_bind. eapply (inflate_runs (blocks m) (trailer m ++ rest)); [apply (mok_some _ ok)|apply (mok_blocks _ ok)| | |].
  { unfold trailer. rewrite !length_app, !length_le_bytes. lia. }
  { eapply starts_after; [|exact Ha|exact H7|done]. by constructor. }
  intros s8 Hun. cbn [truthy Z.eqb negb]. eapply trailer_runs; [apply (un_octets _ _ _ _ Hun)| |apply Hun..|done].
  by eapply follow_on_unpacked.
Qed.

(** The memory between 16 and 32 megabytes holds the tables of a block. *)
Lemma enough_memory s : free_mem_ptr s = 0x01000000 → free_mem_end_ptr s = 0x02000000 → room s block_memory.
Proof. intros Hp He. constructor; rewrite Hp, ?He; [by exists 0x00400000|done|by vm_compute]. Qed.

Lemma decompress_runs m rest win ram (Q : Z → gz → Prop) :
  member_ok m → Z.of_nat (length win) = WSIZE → Forall byte rest → Z.of_nat (length (gzip_file m ++ rest)) < 2 ^ 32 →
  (∀ s', output_data s' = original m → Q 1 s') →
  runs (decompress_kernel (gzip_file m ++ rest)) (boot_state win ram) Q.
Proof.
  intros ok Hwin Hrest Hmax HQ. unfold decompress_kernel. apply runs_bind, runs_put, runs_bind, makecrc_runs, runs_bind.
  eapply gunzip_runs; [exact ok|exact Hrest|exact Hmax| |].
  - constructor; try done. by apply enough_memory.
  - intros s' Ho. by apply runs_ret, HQ.
Qed.

(** C2: the decompressor restores what was packed, for every gzip file without the
    optional header checksum: whatever its blocks, matches and complete codes are,
    whichever of the extra field, the name and the comment it has, and whatever
    follows it in memory. *)
Theorem decompress_restores m rest win ram :
  member_ok m → Z.of_nat (length win) = WSIZE → Forall byte rest → Z.of_nat (length (gzip_file m ++ rest)) < 2 ^ 32 →
  ∃ s, decompress_kernel (gzip_file m ++ rest) (boot_state win ram) = Done 1 s ∧ output_data s = original m.
Proof.
  intros ok Hw Hr Hm. destruct (runs_done _ _ (λ r s, r = 1 ∧ output_data s = original m) (decompress_runs m rest win ram _ ok Hw Hr Hm
    (λ s Ho, conj eq_refl Ho))) as (r & s & Hrun & -> & Ho). by exists s.
Qed.

(** ** A file with a block of each kind *)

Definition sample_header : header :=
  mkHeader 18 [0; 2; 2; 0; 0; 0; 0; 0; 0; 0; 0; 0; 0; 0; 0; 0; 0; 0; 1] 258 2
    [ManyZeros 54; Len 1; ManyZeros 127; ManyZeros 41; Len 2; Len 2; Len 1; Len 1].

Definition sample : member :=
  mkMember (Some [1; 2; 3]) (Some [120; 98]) None [0; 0; 0; 0; 0; 3] false
    [Fixed [Literal 88; Match 0 0 0 0]; Stored (replicate 7 true) [66; 108];
     Dynamic sample_header [Literal 65; Match 0 0 1 0]].

Lemma sample_header_ok : header_ok sample_header.
Proof.
  constructor; try (by vm_compute); try (cbn; lia).
  - split; [done|]. cbn. repeat constructor; lia.
  - cbn. repeat constructor.
  - cbn [items sample_header]. repeat (apply List.Forall_cons; [split; [cbn; lia|by vm_compute]|]). apply List.Forall_nil.
  - by left.
Qed.

Lemma short_length {A} (l : list A) : Z.of_nat (length l) < 2 ^ 16 → (length l < 2 ^ 16)%nat.
Proof. intros H. apply Nat2Z.inj_lt. by rewrite Nat2Z.inj_pow. Qed.

Lemma sample_ok : member_ok sample.
Proof.
  constructor; try done; cbn [extra file_name comment mtime_xfl_os blocks sample].
  - split; [repeat constructor; unfold byte; lia|by apply short_length].
  - repeat constructor; lia.
  - split; [repeat constructor; unfold byte; lia|done].
  - split; [|split; [|split; [|done]]].
    + split; [split; [unfold byte; lia|done]|]. split; [|done]. by vm_compute.
    + split_and!; [cbn; lia|by vm_compute|repeat constructor; unfold byte; lia|by apply short_length].
    + split; [apply sample_header_ok|]. split; [split; [unfold byte; lia|by vm_compute]|]. split; [|done]. by vm_compute.
Qed.

Definition cleared : list Z := replicate (Z.to_nat WSIZE) 0.

Lemma length_cleared : Z.of_nat (length cleared) = WSIZE.
Proof. unfold cleared. rewrite length_replicate. by apply Z2Nat.id. Qed.

Lemma sample_length rest : rest = [] → Z.of_nat (length (gzip_file sample ++ rest)) < 2 ^ 32.
Proof. intros ->. rewrite app_nil_r. by vm_compute. Qed.

Lemma sample_runs :
  runs (decompress_kernel (gzip_file sample)) (boot_state cleared ∅) (λ r s, r = 1 ∧ output_data s = original sample).
Proof.
  rewrite <- (app_nil_r (gzip_file sample)).
  refine (decompress_runs sample [] cleared ∅ _ sample_ok length_cleared (List.Forall_nil _) (sample_length [] eq_refl) _).
  intros s Ho. exact (conj eq_refl Ho).
Qed.

Lemma decompress_restores_witness :
  ∃ s, decompress_kernel (gzip_file sample ++ []) (boot_state cleared ∅) = Done 1 s ∧
       output_data s = [88; 88; 88; 88; 66; 108; 65; 108; 65; 108].
Proof.
  apply (decompress_restores sample [] cleared ∅); [apply sample_ok|apply length_cleared|constructor|].
  by apply sample_length.
Defined.

End Gunzip.
