(* ===== verification/GunzipChecks.v ===== *)
(** * What the decompressor accepts

    For any input: the checksum and the count of the output are those of what has
    been written ([sums], kept by every operation), and [gunzip] returns only if the
    last eight octets it read are this checksum and this length. *)

From stdpp Require Import gmap.
From S2P Require Import Prelude Crc32 Deflate Inflate InflateBits InflateWindow Gunzip.

Module GunzipChecks.
Import Deflate Inflate InflateBits InflateWindow.

Section checks.
Context (data : list Z) (Hdata : Forall byte data).

Record sums (s : gz) : Prop := {
  sums_input : input_data s = data;
  sums_size : insize s = 0 ∨ insize s = Z.of_nat (length data);
  sums_ptr : 0 <= inptr s;
  sums_window : Z.of_nat (length (window s)) = WSIZE ∧ Forall byte (window s);
  sums_outcnt : 0 <= outcnt s <= WSIZE;
  sums_bytes : bytes_out s = u32 (Z.of_nat (length (output_data s)));
  sums_crc : crc_32_tab s = Crc32.table ∧ crc s = foldl Crc32.crc_octet 0xffffffff (output_data s);
  sums_output : Forall byte (output_data s)
}.

(** If the operation returns, the sums are kept and the value is in [P]. *)
Definition sound {A} (P : A → Prop) (m : G A) : Prop :=
  ∀ s, sums s → match m s with Done a s' => sums s' ∧ P a | _ => True end.

Definition anything {A} (a : A) : Prop := True.

Lemma sound_ret {A} (P : A → Prop) a : P a → sound P (mret a).
Proof. by intros H s Hs. Qed.
Lemma sound_bind {A B} (P : A → Prop) (Q : B → Prop) (m : G A) f :
  sound P m → (∀ a, P a → sound Q (f a)) → sound Q (m ≫= f).
Proof.
  intros Hm Hf s Hs. specialize (Hm s Hs). unfold mbind, G_mbind. destruct (m s) as [a s'| |]; [|done..].
  destruct Hm as [Hs' Ha]. by apply Hf.
Qed.
Lemma sound_any {A} (P : A → Prop) m : sound P m → sound anything m.
Proof. intros H s Hs. specialize (H s Hs). destruct (m s); [|done..]. by destruct H. Qed.
Lemma sound_stall {A} (P : A → Prop) : sound P stall.
Proof. done. Qed.
Lemma sound_undef {A} (P : A → Prop) : sound P undef.
Proof. done. Qed.
Lemma sound_get {A} (P : A → Prop) f : (∀ s, sums s → P (f s)) → sound P (get f).
Proof. intros H s Hs. split; auto. Qed.
Lemma sound_put f : (∀ s, sums s → sums (f s)) → sound anything (put f).
Proof. intros H s Hs. split; [auto|done]. Qed.
Lemma sound_rd {A} (l : list A) i : sound (λ x, x ∈ l) (rd l i).
Proof.
  intros s Hs. unfold rd. destruct (i <? 0); [done|]. destruct (l !! Z.to_nat i) eqn:E; [|done].
  split; [done|]. by eapply list_elem_of_lookup_2.
Qed.
Lemma sound_wr {A} (l : list A) i x :
  sound (λ l', l' = <[Z.to_nat i:=x]> l ∧ 0 <= i < Z.of_nat (length l)) (wr l i x).
Proof. intros s Hs. unfold wr. destruct (Z.leb_spec 0 i), (Z.ltb_spec i (Z.of_nat (length l))); cbn; try done. Qed.
Lemma sound_load a : sound anything (load a).
Proof. intros s Hs. unfold load. by destruct (heap s !! a). Qed.

(** Steps that touch the tables and the memory only. *)
Lemma sums_heap s h : sums s → sums (set_heap h s).
Proof. by destruct s; intros []. Qed.
Lemma sums_hufts s n : sums s → sums (set_hufts n s).
Proof. by destruct s; intros []. Qed.
Lemma sums_free s p e : sums s → sums (set_free p e s).
Proof. by destruct s; intros []. Qed.
Lemma sums_bits s b k : sums s → sums (set_bits b k s).
Proof. by destruct s; intros []. Qed.
Lemma sums_inptr s p : 0 <= p → sums s → sums (set_inptr p s).
Proof. intros Hp. by destruct s; intros []. Qed.
Lemma sums_set_outcnt s w : 0 <= w <= WSIZE → sums s → sums (set_outcnt w s).
Proof. intros Hp. by destruct s; intros []. Qed.
Lemma sums_set_window s win : Z.of_nat (length win) = WSIZE → Forall byte win → sums s → sums (set_window win s).
Proof. intros H1 H2. by destruct s; intros []. Qed.

End checks.

Create HintDb sound discriminated.
#[export] Hint Constants Opaque : sound.
#[export] Hint Transparent bits G : sound.
#[export] Hint Resolve sums_heap sums_hufts sums_free sums_bits : sound.

(** Operations whose value does not matter, by their structure. *)
Ltac sound_step :=
  match goal with
  | |- sound _ _ (if ?b then _ else _) => destruct b
  | |- sound _ _ (match ?x with _ => _ end) => destruct x
  | |- sound _ _ (let _ := _ in _) => cbv zeta
  | |- sound _ _ (mret _) => by apply sound_ret
  | |- sound _ _ stall => apply sound_stall
  | |- sound _ _ undef => apply sound_undef
  | |- sound _ _ (get _) => by apply sound_get
  | |- sound _ _ (put _) => apply sound_put; intros; eauto with sound
  | |- sound _ _ (rd _ _) => eapply sound_any, sound_rd
  | |- sound _ _ (wr _ _ _) => eapply sound_any, sound_wr
  | |- sound _ _ (load _) => apply sound_load
  | |- sound _ _ (_ ≫= _) => eapply (sound_bind _ anything); [|intros ? _]
  | |- sound _ _ _ => solve [eauto with sound]
  end.
Ltac sound := repeat sound_step.

Section operations.
Context (data : list Z) (Hdata : Forall byte data).
#[local] Abbreviation sound := (sound data anything).

(** ** Tables *)

Lemma rdo_sound l i : sound (rdo l i).
Proof. unfold rdo. sound. Qed.
Lemma store_sound a t : sound (store a t).
Proof. unfold store. sound. Qed.
Lemma store_link_sound a t : sound (store_link a t).
Proof. unfold store_link. sound. Qed.
Lemma value_of_sound t : sound (value_of t).
Proof. unfold value_of. sound. Qed.
Lemma table_of_sound t : sound (table_of t).
Proof. unfold table_of. sound. Qed.
Hint Resolve rdo_sound store_sound store_link_sound value_of_sound table_of_sound : sound.

Lemma malloc_sound n : sound (gzip_malloc n).
Proof. unfold gzip_malloc. sound. Qed.
Lemma release_sound p : sound (gzip_release p).
Proof. unfold gzip_release. sound. Qed.
Hint Resolve malloc_sound release_sound : sound.

Lemma count_lengths_sound b : ∀ c, sound (count_lengths c b).
Proof. induction b; intros c; cbn [count_lengths]; sound. Qed.
Lemma offsets_sound n : ∀ c p j x, sound (offsets n c p j x).
Proof. induction n; intros; cbn [offsets]; sound. Qed.
Lemma sort_values_sound b : ∀ i x v, sound (sort_values b i x v).
Proof. induction b; intros; cbn [sort_values]; sound. Qed.
Lemma grow_sound c fuel : ∀ f j z xp, sound (grow c fuel f j z xp).
Proof. induction fuel; intros; cbn [grow]; sound. Qed.
Hint Resolve count_lengths_sound offsets_sound sort_values_sound grow_sound : sound.
Lemma make_table_sound c l g k a B : sound (make_table c l g k a B).
Proof. unfold make_table, table_bits. sound. Qed.
Hint Resolve make_table_sound : sound.
Lemma make_tables_sound c l g fuel : ∀ k a B, sound (make_tables c l g fuel k a B).
Proof. induction fuel; intros; cbn [make_tables]; sound. Qed.
Lemma entry_sound n s d e v k B : sound (entry n s d e v k B).
Proof. unfold entry. sound. Qed.
Lemma fill_table_sound fuel : ∀ q j z f r, sound (fill_table fuel q j z f r).
Proof. induction fuel; intros; cbn [fill_table]; sound. Qed.
Lemma back_up_sound l fuel : ∀ i h w x, sound (back_up l fuel i h w x).
Proof. induction fuel; intros; cbn [back_up]; sound. Qed.
Hint Resolve make_tables_sound entry_sound fill_table_sound back_up_sound : sound.
Lemma make_code_sound n s d e c v l g k a B : sound (make_code n s d e c v l g k a B).
Proof. unfold make_code. sound. Qed.
Hint Resolve make_code_sound : sound.
Lemma make_codes_sound n s d e c v l g a : ∀ k B, sound (make_codes n s d e c v l g a k B).
Proof. induction a; intros; cbn [make_codes]; sound. Qed.
Hint Resolve make_codes_sound : sound.
Lemma make_lengths_sound n s d e c v l g m : ∀ k B, sound (make_lengths n s d e c v l g m k B).
Proof. induction m; intros; cbn [make_lengths]; sound. Qed.
Hint Resolve make_lengths_sound : sound.
Lemma huft_build_sound b s d e m : sound (huft_build b s d e m).
Proof. unfold huft_build, sort_and_make. sound. Qed.
Lemma free_list_sound fuel : ∀ p, sound (free_list fuel p).
Proof. induction fuel; intros; cbn [free_list]; unfold gzip_free; sound. Qed.
Hint Resolve free_list_sound : sound.
Lemma huft_free_sound t : sound (huft_free t).
Proof. unfold huft_free. sound. Qed.
Hint Resolve huft_build_sound huft_free_sound : sound.

(** ** Bits *)

Lemma get_byte_byte : GunzipChecks.sound data byte get_byte.
Proof.
  intros s Hs. unfold get_byte. destruct (Z.ltb_spec (inptr s) (insize s)) as [Hlt|Hge].
  - unfold mbind, G_mbind, rd. destruct (Z.ltb_spec (inptr s) 0); [done|].
    destruct (input_data s !! Z.to_nat (inptr s)) as [c|] eqn:Hc; [|done]. cbn.
    split; [apply sums_inptr; [lia|done]|]. rewrite (sums_input _ _ Hs) in Hc. by apply (Forall_lookup_1 _ _ _ _ Hdata Hc).
  - unfold fill_inbuf. destruct (insize s =? 0); cbn; [|done]. destruct (input_data s) as [|c l] eqn:Hi; [done|].
    destruct Hs as [Hin ? ? ? ? ? ? ?]. rewrite Hi in Hin. split; [|rewrite <- Hin in Hdata; by apply Forall_cons_1 in Hdata as [? _]].
    destruct s. constructor; cbn in *; try done; [congruence|right; by rewrite <- Hin].
Qed.
Lemma get_byte_sound : sound get_byte.
Proof. eapply sound_any, get_byte_byte. Qed.
Hint Resolve get_byte_sound : sound.
Lemma needbits_sound fuel : ∀ n bs, sound (needbits fuel n bs).
Proof. induction fuel; intros n [b k]; cbn [needbits]; sound. Qed.
Lemma NEEDBITS_sound n bs : sound (NEEDBITS n bs).
Proof. apply needbits_sound. Qed.
Lemma DUMPBITS_sound n bs : sound (DUMPBITS n bs).
Proof. unfold DUMPBITS. sound. Qed.
Hint Resolve NEEDBITS_sound DUMPBITS_sound : sound.
Lemma take_bits_sound n bs : sound (take_bits n bs).
Proof. unfold take_bits. sound. Qed.
Lemma follow_sound fuel : ∀ t bs, sound (follow fuel t bs).
Proof. induction fuel; intros; cbn [follow]; sound. Qed.
Hint Resolve take_bits_sound follow_sound : sound.
Lemma decode_sound t n m bs : sound (decode t n m bs).
Proof. unfold decode. sound. Qed.
Lemma local_bits_sound : sound local_bits.
Proof. unfold local_bits. sound. Qed.
Lemma restore_bits_sound bs : sound (restore_bits bs).
Proof. unfold restore_bits. sound. Qed.
Hint Resolve decode_sound local_bits_sound restore_bits_sound : sound.

(** ** The window *)

Definition in_window (w : Z) : Prop := 0 <= w <= WSIZE.

Lemma window_sound {B} (Q : B → Prop) (f : list Z → G B) :
  (∀ win, Z.of_nat (length win) = WSIZE → Forall byte win → GunzipChecks.sound data Q (f win)) →
  GunzipChecks.sound data Q (get window ≫= f).
Proof.
  intros H. apply (sound_bind _ (λ win, Z.of_nat (length win) = WSIZE ∧ Forall byte win)).
  - apply sound_get. intros s Hs. apply Hs.
  - intros win [? ?]. by apply H.
Qed.

Lemma put_window_sound win : Z.of_nat (length win) = WSIZE → Forall byte win → sound (put (set_window win)).
Proof. intros. apply sound_put. intros. by apply sums_set_window. Qed.

Lemma flush_output_sound w : in_window w → sound (flush_output w).
Proof.
  intros Hw s [Hi Hs Hp [Hl Hb] Ho Hby [Ht Hc] Hout]. unfold in_window in Hw.
  unfold flush_output, flush_window, mbind, G_mbind, put, get. cbn. rewrite Ht.
  assert (Forall byte (take (Z.to_nat w) (window s))) as Hchunk by (by apply Forall_take).
  split; [|done]. constructor; cbn; try done.
  - rewrite Hby, length_app, length_take. unfold u32. rewrite Zplus_mod_idemp_l. f_equal. lia.
  - by rewrite foldl_crc_step, Hc, <- foldl_app.
  - by apply Forall_app.
Qed.

Lemma put_octet_sound w c : byte c → GunzipChecks.sound data in_window (put_octet w c).
Proof.
  intros Hc. unfold put_octet. apply window_sound. intros win Hl Hb.
  eapply sound_bind; [apply sound_wr|]. intros win' [-> Hw].
  eapply sound_bind; [apply put_window_sound; [by rewrite length_insert|by apply Forall_insert]|]. intros _ _.
  destruct (Z.eqb_spec (w + 1) WSIZE).
  - eapply sound_bind; [apply flush_output_sound; unfold in_window; lia|]. intros _ _. by apply sound_ret.
  - apply sound_ret. unfold in_window. lia.
Qed.

Lemma copy_slow_sound e : ∀ w d, 0 <= w → GunzipChecks.sound data (λ p, in_window (fst p)) (copy_slow e w d).
Proof.
  induction e as [|e IH]; intros w d Hw; cbn [copy_slow]; apply window_sound; intros win Hl Hb;
    (eapply sound_bind; [apply sound_rd|]; intros c Hc; cbn beta in Hc;
     eapply sound_bind; [apply sound_wr|]; intros win' [-> Hw'];
     eapply sound_bind; [apply put_window_sound; [by rewrite length_insert|apply Forall_insert; [done|]]|]).
  1, 3: by apply (proj1 (list.Forall_forall _ _) Hb).
  all: intros _ _. 1: apply sound_ret; unfold in_window; cbn; lia.
  destruct e; [apply sound_ret; unfold in_window; cbn; lia|apply IH; lia].
Qed.

Definition windows (win : list Z) : Prop := Z.of_nat (length win) = WSIZE ∧ Forall byte win.

Lemma movs_sound part dst src win :
  windows win → GunzipChecks.sound data (λ win', windows win' ∧ 0 <= dst ∧ dst + Z.of_nat part <= WSIZE) (movs part dst src win).
Proof.
  intros [Hl Hb]. unfold movs. destruct (Z.ltb_spec src 0), (Z.ltb_spec dst 0); cbn [orb]; try apply sound_undef.
  destruct (Z.ltb_spec (Z.of_nat (length win)) (src + Z.of_nat part)),
    (Z.ltb_spec (Z.of_nat (length win)) (dst + Z.of_nat part)); cbn [orb]; try apply sound_undef.
  apply sound_ret. split; [|lia]. split.
  - rewrite !length_app, !length_take, !length_drop. lia.
  - repeat (apply Forall_app; split); auto using Forall_take, Forall_drop.
Qed.

Lemma movsl_sound n : ∀ dst src win, windows win → GunzipChecks.sound data (λ p, windows (snd p)) (movsl n dst src win).
Proof.
  induction n as [|n IH]; intros dst src win Hw; cbn [movsl]; [by apply sound_ret|].
  eapply sound_bind; [by apply movs_sound|]. intros win' [Hw' _]. by apply IH.
Qed.

Lemma memcpy_sound dst src n win : windows win → GunzipChecks.sound data windows (memcpy dst src n win).
Proof.
  intros Hw. unfold memcpy. eapply sound_bind; [by apply movsl_sound|]. intros [[dst1 src1] win1] Hw1. cbn in Hw1.
  eapply (sound_bind _ (λ p, windows (snd p))).
  - destruct (truthy (n .& 2)); [|by apply sound_ret]. eapply sound_bind; [by apply movs_sound|].
    intros win2 [Hw2 _]. by apply sound_ret.
  - intros [[dst2 src2] win2] Hw2. destruct (truthy (n .& 1)); [|by apply sound_ret].
    intros s Hs. pose proof (movs_sound 1 dst2 src2 win2 Hw2 s Hs) as H. destruct (movs 1 dst2 src2 win2 s); [|done..].
    destruct H as [? [? _]]. done.
Qed.

Lemma copy_sound fuel : ∀ n w d, 0 <= n → in_window w → GunzipChecks.sound data in_window (copy fuel n w d).
Proof.
  induction fuel as [|fuel IH]; intros n w d Hn Hw; cbn [copy]; [apply sound_stall|]. rewrite low_slot.
  pose proof (Z.mod_pos_bound d WSIZE ltac:(done)) as Hd. set (d' := d mod WSIZE) in *. unfold in_window in Hw.
  set (e := if n <? _ then _ else _). assert (0 <= e ∧ e <= n ∧ w + e <= WSIZE) as He.
  { unfold e. destruct (Z.ltb_spec w d'); [destruct (Z.ltb_spec n (WSIZE - d'))|destruct (Z.ltb_spec n (WSIZE - w))]; lia. }
  clearbody e. cbv zeta. eapply (sound_bind _ (λ p, in_window (fst p))).
  - destruct (e <=? u32 (w - d')); [|apply copy_slow_sound; lia]. apply window_sound. intros win Hl Hb.
    eapply sound_bind; [by apply memcpy_sound|]. intros win' [Hl' Hb'].
    eapply sound_bind; [by apply put_window_sound|]. intros _ _. apply sound_ret. unfold in_window. cbn. lia.
  - intros [w1 d1] Hw1. cbn in Hw1. eapply (sound_bind _ in_window).
    + destruct (Z.eqb_spec w1 WSIZE); [|by apply sound_ret]. eapply sound_bind; [by apply flush_output_sound|].
      intros _ _. by apply sound_ret.
    + intros w2 Hw2. destruct (truthy (n - e)); [|by apply sound_ret]. apply IH; [lia|done].
Qed.

(** ** Blocks *)

Lemma value_of_nonneg t : GunzipChecks.sound data (λ n, 0 <= n) (value_of t).
Proof. unfold value_of. destruct (huft_v t); try apply sound_undef. apply sound_ret. apply Z.mod_pos_bound. done. Qed.

Lemma take_bits_nonneg n bs : GunzipChecks.sound data (λ p, 0 <= fst p) (take_bits n bs).
Proof.
  unfold take_bits. eapply (sound_bind _ anything); [apply NEEDBITS_sound|]. intros bs1 _.
  eapply sound_bind; [apply sound_rd|]. intros m Hm. eapply (sound_bind _ anything); [apply DUMPBITS_sound|].
  intros bs2 _. apply sound_ret. cbn. apply Z.land_nonneg. right.
  assert (Forall (λ x, 0 <= x) mask_bits) as H by (unfold mask_bits; repeat constructor; lia).
  by apply (proj1 (list.Forall_forall _ _) H).
Qed.

Lemma codes_loop_sound tl td bl bd ml md fuel : ∀ bs w, in_window w →
  GunzipChecks.sound data (λ o, ∀ p, o = Some p → in_window (snd p)) (codes_loop tl td bl bd ml md fuel bs w).
Proof.
  induction fuel as [|fuel IH]; intros bs w Hw; cbn [codes_loop]; [apply sound_stall|].
  eapply (sound_bind _ anything); [apply decode_sound|]. intros [[t|] bs1] _; [|by apply sound_ret].
  destruct (huft_e t =? 16).
  { eapply (sound_bind _ anything); [apply value_of_sound|]. intros c _.
    eapply sound_bind; [apply put_octet_sound, Z.mod_pos_bound; done|]. intros w1 Hw1. by apply IH. }
  destruct (huft_e t =? 15); [apply sound_ret; by intros ? [= <-]|].
  eapply sound_bind; [apply take_bits_nonneg|]. intros [x bs2] Hx. cbn in Hx.
  eapply sound_bind; [apply value_of_nonneg|]. intros n Hn. cbv beta zeta in *.
  eapply (sound_bind _ anything); [apply decode_sound|]. intros [[t'|] bs3] _; [|by apply sound_ret].
  eapply (sound_bind _ anything); [apply take_bits_sound|]. intros [x' bs4] _.
  eapply (sound_bind _ anything); [apply value_of_sound|]. intros dist _. cbv zeta.
  eapply sound_bind; [apply copy_sound; [lia|done]|]. intros w1 Hw1. by apply IH.
Qed.

Lemma outcnt_sound {B} (Q : B → Prop) (f : Z → G B) :
  (∀ w, in_window w → GunzipChecks.sound data Q (f w)) → GunzipChecks.sound data Q (get outcnt ≫= f).
Proof. intros H. apply (sound_bind _ in_window); [|done]. apply sound_get. intros s Hs. apply Hs. Qed.

Lemma put_outcnt_sound w : in_window w → sound (put (set_outcnt w)).
Proof. intros Hw. apply sound_put. intros. by apply sums_set_outcnt. Qed.

Lemma inflate_codes_sound tl td bl bd : sound (inflate_codes tl td bl bd).
Proof.
  unfold inflate_codes. eapply (sound_bind _ anything); [apply local_bits_sound|]. intros bs _.
  apply outcnt_sound. intros w Hw. do 3 (eapply (sound_bind _ anything); [sound|]; intros ? _).
  eapply sound_bind; [by apply codes_loop_sound|]. intros [[bs' w']|] Hw'; [|by apply sound_ret].
  eapply sound_bind; [apply put_outcnt_sound; by apply (Hw' _ eq_refl)|]. intros _ _. sound.
Qed.

Lemma stored_loop_sound n : ∀ bs w, in_window w → GunzipChecks.sound data (λ p, in_window (snd p)) (stored_loop n bs w).
Proof.
  induction n as [|n IH]; intros bs w Hw; cbn [stored_loop]; [by apply sound_ret|].
  eapply (sound_bind _ anything); [apply NEEDBITS_sound|]. intros bs1 _.
  eapply sound_bind; [apply put_octet_sound, Z.mod_pos_bound; done|]. intros w1 Hw1.
  eapply (sound_bind _ anything); [apply DUMPBITS_sound|]. intros bs2 _. by apply IH.
Qed.

Lemma inflate_stored_sound : sound inflate_stored.
Proof.
  unfold inflate_stored. eapply (sound_bind _ anything); [apply local_bits_sound|]. intros bs _.
  apply outcnt_sound. intros w Hw. do 4 (eapply (sound_bind _ anything); [sound|]; intros ? _; cbv zeta).
  destruct (negb _); [by apply sound_ret|]. eapply (sound_bind _ anything); [sound|]. intros ? _.
  eapply sound_bind; [by apply stored_loop_sound|]. intros [bs' w'] Hw'.
  eapply sound_bind; [by apply put_outcnt_sound|]. intros _ _. sound.
Qed.
Hint Resolve inflate_codes_sound inflate_stored_sound : sound.

Lemma inflate_fixed_sound : sound inflate_fixed.
Proof. unfold inflate_fixed. sound. Qed.
Lemma read_border_sound js : ∀ ll bs, sound (read_border js ll bs).
Proof. induction js; intros; cbn [read_border]; sound. Qed.
Lemma clear_border_sound js : ∀ ll, sound (clear_border js ll).
Proof. induction js; intros; cbn [clear_border]; sound. Qed.
Lemma put_lengths_sound j : ∀ i l ll, sound (put_lengths j i l ll).
Proof. induction j; intros; cbn [put_lengths]; sound. Qed.
Hint Resolve inflate_fixed_sound read_border_sound clear_border_sound put_lengths_sound : sound.
Lemma read_lengths_sound fuel : ∀ tl bl m n i l ll bs, sound (read_lengths fuel tl bl m n i l ll bs).
Proof. induction fuel; intros; cbn [read_lengths]; sound. Qed.
Lemma filled_sound ll from n : sound (filled ll from n).
Proof. unfold filled. sound. Qed.
Hint Resolve read_lengths_sound filled_sound : sound.
Lemma dynamic_codes_sound nl nd ll : sound (dynamic_codes nl nd ll).
Proof. unfold dynamic_codes. sound. Qed.
Hint Resolve dynamic_codes_sound : sound.
Lemma inflate_dynamic_sound : sound inflate_dynamic.
Proof. unfold inflate_dynamic, dynamic_lengths. sound. Qed.
Hint Resolve inflate_dynamic_sound : sound.
Lemma inflate_block_sound : sound inflate_block.
Proof. unfold inflate_block. sound. Qed.
Hint Resolve inflate_block_sound : sound.
Lemma blocks_loop_sound fuel : sound (blocks_loop fuel).
Proof. induction fuel; cbn [blocks_loop]; unfold gzip_mark; sound. Qed.
Lemma undo_lookahead_sound fuel : sound (undo_lookahead fuel).
Proof.
  induction fuel; cbn [undo_lookahead]; sound. apply sums_bits, sums_inptr; [|done]. by apply Z.mod_pos_bound.
Qed.

Lemma inflate_sound : sound inflate.
Proof.
  unfold inflate. eapply sound_bind; [by apply put_outcnt_sound|]. intros _ _.
  eapply (sound_bind _ anything); [sound|]. intros _ _. eapply (sound_bind _ anything); [sound|]. intros n _.
  eapply sound_bind; [apply blocks_loop_sound|]. intros r _. destruct (truthy r); [by apply sound_ret|].
  eapply (sound_bind _ anything); [sound|]. intros k _. eapply sound_bind; [apply undo_lookahead_sound|]. intros _ _.
  apply outcnt_sound. intros w Hw. eapply sound_bind; [by apply flush_output_sound|]. intros _ _. by apply sound_ret.
Qed.

(** ** The end of the file *)

(** An octet has been read at [p]. *)
Record read_at (p : Z) (s s' : gz) : Prop := {
  at_ptr : inptr s' = p + 1 ∧ 0 <= p;
  at_size : insize s' = Z.of_nat (length data) ∧ insize s' ≠ 0;
  at_output : output_data s' = output_data s ∧ bytes_out s' = bytes_out s ∧ crc s' = crc s
}.

Lemma get_byte_inv s c s' :
  sums data s → get_byte s = Done c s' →
  ∃ p, data !! Z.to_nat p = Some c ∧ read_at p s s' ∧ (insize s ≠ 0 → p = inptr s).
Proof.
  intros Hs. unfold get_byte. destruct (Z.ltb_spec (inptr s) (insize s)) as [Hlt|Hge].
  - unfold mbind, G_mbind, rd. destruct (Z.ltb_spec (inptr s) 0); [done|].
    destruct (input_data s !! Z.to_nat (inptr s)) as [x|] eqn:Hc; [|done]. intros [= -> <-].
    rewrite (sums_input _ _ Hs) in Hc. exists (inptr s). split; [done|]. split; [|done].
    destruct (sums_size _ _ Hs); constructor; cbn; auto; lia.
  - unfold fill_inbuf. destruct (Z.eqb_spec (insize s) 0); cbn; [|done].
    destruct (input_data s) as [|x l] eqn:Hi; [done|]. rewrite (sums_input _ _ Hs) in Hi. intros [= -> <-].
    exists 0. split; [by rewrite Hi|]. split; [|done]. constructor; cbn; rewrite ?Hi; auto; cbn; lia.
Qed.

Lemma sums_get_byte s c s' : sums data s → get_byte s = Done c s' → sums data s' ∧ byte c.
Proof. intros Hs Hg. pose proof (get_byte_byte s Hs) as H. by rewrite Hg in H. Qed.

(** [n] octets in a row from [p] on. *)
Definition reads_row (p : Z) (l : list Z) (s s' : gz) : Prop :=
  take (length l) (drop (Z.to_nat p) data) = l ∧ Forall byte l ∧ sums data s' ∧
  read_at (p + Z.of_nat (length l) - 1) s s' ∧ 0 <= p.

Lemma row_first s c s' :
  sums data s → get_byte s = Done c s' → ∃ p, reads_row p [c] s s' ∧ (insize s ≠ 0 → p = inptr s).
Proof.
  intros Hs Hg. destruct (get_byte_inv _ _ _ Hs Hg) as (p & Hp & Ha & Hpi). destruct (sums_get_byte _ _ _ Hs Hg) as [Hs' Hc].
  exists p. split; [|done]. destruct (at_ptr _ _ _ Ha). split_and!; [by rewrite (drop_S _ _ _ Hp)|by apply Forall_singleton|done| |done].
  cbn [length]. by replace (p + Z.of_nat 1 - 1) with p by lia.
Qed.

Lemma row_app p l k s s1 s2 :
  reads_row p l s s1 → reads_row (inptr s1) k s1 s2 → reads_row p (l ++ k) s s2.
Proof.
  intros (Hl & Hb & _ & [[Hp1 _] _ [Ho1 [Hb1 Hc1]]] & H0) (Hk & Hb' & Hs' & [[Hp2 Hp2'] Hz2 [Ho2 [Hb2 Hc2]]] & H0').
  unfold reads_row. rewrite length_app. split_and!; [|by apply Forall_app|done| |done].
  - rewrite <- Hl at 2. rewrite <- Hk at 2. rewrite <- take_take_drop, drop_drop. do 3 f_equal. lia.
  - constructor; [|done|split_and!; congruence]. lia.
Qed.

Lemma row_next p l s s1 c s2 :
  reads_row p l s s1 → get_byte s1 = Done c s2 → reads_row p (l ++ [c]) s s2.
Proof.
  intros Hr Hg. pose proof Hr as (_ & _ & Hs1 & [_ [_ Hn] _] & _).
  destruct (row_first _ _ _ Hs1 Hg) as (q & Hq & Hqi). rewrite (Hqi Hn) in Hq. by eapply row_app.
Qed.

Lemma get_dword_inv s x s' :
  sums data s → get_dword s = Done x s' → ∃ p, reads_row p (le_bytes 4 x) s s' ∧ word32 x ∧ (insize s ≠ 0 → p = inptr s).
Proof.
  intros H0. unfold get_dword, mbind, G_mbind.
  destruct (get_byte s) as [a s1| |] eqn:Ea; [|done..]. destruct (row_first _ _ _ H0 Ea) as (p & Hr & Hp).
  destruct (get_byte s1) as [b s2| |] eqn:Eb; [|done..]. pose proof (row_next _ _ _ _ _ _ Hr Eb) as Hr2.
  destruct (get_byte s2) as [c s3| |] eqn:Ec; [|done..]. pose proof (row_next _ _ _ _ _ _ Hr2 Ec) as Hr3.
  destruct (get_byte s3) as [d s4| |] eqn:Ed; [|done..]. pose proof (row_next _ _ _ _ _ _ Hr3 Ed) as Hr4.
  cbn [app] in Hr4. pose proof Hr4 as (_ & Hb & _). intros [= <- <-]. exists p.
  assert (byte a ∧ byte b ∧ byte c) as (Ha & Hb' & Hc) by (by repeat (apply Forall_cons_1 in Hb as [? Hb])).
  rewrite Gunzip.dword_value by done. pose proof (le_bytes_val _ Hb) as Hle. cbn [length] in Hle. rewrite Hle.
  split; [done|]. split; [|done]. apply (le_val_range _ Hb).
Qed.

(** The checksum and the length of the output are in the input. *)
Definition accepted (s : gz) : Prop :=
  ∃ p, take 8 (drop p data) =
       le_bytes 4 (crc32 (output_data s)) ++ le_bytes 4 (Z.of_nat (length (output_data s))).

Definition ends (m : G Z) : Prop := ∀ s, sums data s → match m s with Done _ s' => accepted s' | _ => True end.

Lemma ends_bind {A} (m : G A) f : sound m → (∀ a, ends (f a)) → ends (m ≫= f).
Proof.
  intros Hm Hf s Hs. specialize (Hm s Hs). unfold mbind, G_mbind. destruct (m s); [|done..]. destruct Hm. by apply Hf.
Qed.

Lemma le_bytes_u32 z : le_bytes 4 (u32 z) = le_bytes 4 z.
Proof.
  pose proof (Gunzip.le_val_wrap 4 z) as H. change (256 ^ Z.of_nat 4) with (2 ^ 32) in H. fold (u32 z) in H. rewrite <- H.
  apply (le_bytes_val (le_bytes 4 z)), le_bytes_byte.
Qed.

Lemma trailer_ends :
  ends (orig_crc ← get_dword; orig_len ← get_dword; s ← get id;
        if negb (orig_crc =? CRC_VALUE s) then stall
        else if negb (orig_len =? bytes_out s) then stall
        else mret 0).
Proof.
  intros s Hs. unfold mbind, G_mbind.
  destruct (get_dword s) as [x s1| |] eqn:E1; [|done..]. destruct (get_dword_inv _ _ _ Hs E1) as (p & Hr1 & _ & _).
  pose proof Hr1 as (_ & _ & Hs1 & [_ [_ Hn1] _] & Hp0).
  destruct (get_dword s1) as [y s2| |] eqn:E2; [|done..]. destruct (get_dword_inv _ _ _ Hs1 E2) as (q & Hr2 & _ & Hq).
  rewrite (Hq Hn1) in Hr2. pose proof (row_app _ _ _ _ _ _ Hr1 Hr2) as (Hrow & _ & Hs2 & _ & _).
  unfold get, id. destruct (Z.eqb_spec x (CRC_VALUE s2)) as [Hx|]; cbn [negb]; [|done].
  destruct (Z.eqb_spec y (bytes_out s2)) as [Hy|]; cbn [negb]; [|done]. exists (Z.to_nat p).
  rewrite Hx, Hy, (sums_bytes _ _ Hs2), le_bytes_u32 in Hrow. unfold CRC_VALUE in Hrow.
  rewrite (proj2 (sums_crc _ _ Hs2)) in Hrow. exact Hrow.
Qed.

Lemma skip_octets_sound n : sound (skip_octets n).
Proof. induction n; cbn [skip_octets]; sound. Qed.
Lemma skip_string_sound n : sound (skip_string n).
Proof. induction n; cbn [skip_string]; sound. Qed.
Hint Resolve skip_octets_sound skip_string_sound : sound.

Lemma gunzip_ends : ends gunzip.
Proof.
  unfold gunzip. do 3 (apply ends_bind; [sound|]; intros ?).
  destruct (_ || _); [done|]. destruct (negb _); [done|]. apply ends_bind; [sound|]. intros flags.
  do 3 (destruct (truthy _); [done|]).
  apply ends_bind; [apply sound_put; intros; apply sums_inptr; [by apply Z.mod_pos_bound|done]|]. intros _.
  do 3 (apply ends_bind; [sound|]; intros _). apply ends_bind; [apply inflate_sound|]. intros res.
  destruct (truthy res); [done|]. apply trailer_ends.
Qed.

End operations.

Lemma decompress_ends data win ram :
  Forall byte data → Z.of_nat (length win) = WSIZE → Forall byte win →
  match decompress_kernel data (boot_state win ram) with Done r s => r = 1 ∧ accepted data s | _ => True end.
Proof.
  intros Hd Hl Hb. unfold decompress_kernel, mbind, G_mbind, put at 1. rewrite Gunzip.makecrc_table.
  set (s0 := set_crc _ _ _). assert (sums data s0) as Hs0 by (constructor; try done; by left).
  pose proof (gunzip_ends data Hd s0 Hs0) as He. by destruct (gunzip s0).
Qed.

(** C8: whatever the data is, an output is accepted only with its checksum and its
    length: if the decompressor returns, the data holds them somewhere. *)
Theorem decompress_accepts data win ram r s :
  Forall byte data → Z.of_nat (length win) = WSIZE → Forall byte win →
  decompress_kernel data (boot_state win ram) = Done r s →
  r = 1 ∧ ∃ p, take 8 (drop p data) =
    le_bytes 4 (crc32 (output_data s)) ++ le_bytes 4 (Z.of_nat (length (output_data s))).
Proof. intros Hd Hl Hb Hrun. pose proof (decompress_ends data win ram Hd Hl Hb) as H. by rewrite Hrun in H. Qed.

Lemma decompress_accepts_witness :
  ∃ s, decompress_kernel (gzip_file Gunzip.sample) (boot_state Gunzip.cleared ∅) = Done 1 s ∧
       ∃ p, take 8 (drop p (gzip_file Gunzip.sample)) =
         le_bytes 4 (crc32 (output_data s)) ++ le_bytes 4 (Z.of_nat (length (output_data s))).
Proof.
  destruct (runs_done _ _ _ (Gunzip.sample_runs)) as (r & s & Hrun & -> & Ho). exists s. split; [done|].
  apply (decompress_accepts _ _ _ _ _ (Gunzip.file_octets _ Gunzip.sample_ok)) in Hrun; [apply Hrun|apply Gunzip.length_cleared|].
  apply Forall_replicate. unfold byte. lia.
Defined.

End GunzipChecks.
