(* ===== verification/BootRom.v ===== *)
(** * The image builder and the boot loader
      ([src/pc_tools/imagebld/imagebld.c], [src/boot_rom/2bBootStartBios.c],
       [src/boot_rom/2bPicResponseAction.c])

    [romcopy] puts the loader and the compressed kernel into a 256KB image, with
    the SHA-1 of each and an identifier with the MD5 of the whole.  At power-on
    the loader has been copied to RAM; it checks its own hash, copies the kernel
    from the flash, checks its hash and unpacks and starts it, or gives up and
    restarts the console.

    A buffer is a [mem] with the bounds of its accesses checked; what a stack
    variable holds on entry is an argument, and so is what the RAM of the
    decompressor's window and tables holds. *)

From stdpp Require Import gmap.
From S2P Require Import Prelude Sha1 Md5 Layout Hardware FlashTypes FlashDriver FlashTheorems.
From S2P Require Import Deflate Inflate InflateBits Gunzip GunzipChecks.

Module BootRom.
Import Hardware FlashTypes FlashDriver.
Import FlashTheorems(flash_id, settings_base, sizeof_BiosIdentifier).

Definition write_list (m : mem) (a : Z) (l : list Z) : mem :=
  mem_copy m a (mem_of_list l) 0 (Z.of_nat (length l)).

(** [SHA1Reset], [SHA1Input] of [n] octets from [off] on, [SHA1Result]. *)
Definition sha1_mem (context : Sha1.SHA1Context) (m : mem) (off n : Z)
    : outcome (list Z * Sha1.SHA1Context) :=
  '(_, c) ← Sha1.SHA1Input (Sha1.SHA1Reset context) (mem_read m off (Z.to_nat n));
  '(_, h, c) ← Sha1.SHA1Result c;
  Ok (h, c).

(** ** The image builder *)

Definition KB256 : Z := 256 * 1024.
Definition compressed_image_start : Z := 0x3018.

(** ["XBlast OS 0.59"] with its terminator, from [PROG_NAME] and [VERSION]. *)
Definition image_name : list Z := PROG_NAME ++ [32] ++ [48; 46; 53; 57] ++ [0].

(** An octet or a field of the identifier at the end of the image. *)
Definition id_at (f : bios_field) : Z :=
  KB256 - Z.of_nat (sizeof BiosIdentifier) + Z.of_nat (offsetof BiosIdentifier f).

Definition writeBiosIdentifier (hashcontext : Md5.MD5_CTX) (cromimage : mem) (biosSize : Z) : outcome mem :=
  let m := write_list cromimage (id_at Magic) [65; 85; 84; 79] in
  let m := mem_set m (id_at HeaderVersion) HeaderVersionV2 in
  let m := write_list m (id_at BiosSize) (le_bytes 4 biosSize) in
  let m := write_list m (id_at Name) image_name in
  let m := mem_set m (id_at XboxVersion) 0xff in
  let m := mem_set m (id_at VideoEncoder) 0x07 in
  let m := mem_set m (id_at Option1) Option1_SaveSettingsLocationBit in
  let version := m (id_at HeaderVersion) in
  if (version =? HeaderVersionV2) || (version =? HeaderVersionV1) then
    let md5Size := if version =? HeaderVersionV2 then le_val (mem_read m (id_at BiosSize) 4)
                   else KB256 - 0x1000 in
    c ← Md5.MD5Update (Md5.MD5Init hashcontext) (mem_read m 0 (Z.to_nat KB256)) md5Size;
    '(digest, _) ← Md5.MD5Final c;
    Ok (write_list m (id_at MD5Hash) digest)
  else Ok m.

(** The octets stored at the top of the loader image. *)
Definition top_octets : list (Z * Z) :=
  [(0x3ffcf, 0xfc); (0x3ffd0, 0xea); (0x3ffd2, 0x10); (0x3ffd3, 0xfc); (0x3ffd4, 0xff); (0x3ffd5, 0x08);
   (0x3ffd7, 0x90); (0x3ffe0, 0xff); (0x3ffe1, 0xff); (0x3ffe5, 0x9b); (0x3ffe6, 0xcf); (0x3ffe8, 0xff);
   (0x3ffe9, 0xff); (0x3ffed, 0x93); (0x3ffee, 0xcf); (0x3fff4, 0x18); (0x3fff5, 0x00); (0x3fff6, 0xd8);
   (0x3fff7, 0xff); (0x3fff8, 0xff); (0x3fff9, 0xff)].

(** The loader file with the top octets; [fread] takes at most 256KB. *)
Definition load_loader (loader : list Z) : mem :=
  let m := write_list (λ _, 0) 0 (take (Z.to_nat KB256) loader) in
  let m := mem_fill m 0x3fe00 0x90 512 in
  let m := mem_fill m 0x3ffd0 0x00 32 in
  foldl (λ m '(a, v), mem_set m a v) m top_octets.

(** The buffers on the stack: the hash contexts and the kernel's checksum. *)
Record builder_stack := mkStack {
  sha_context : Sha1.SHA1Context;
  md5_context : Md5.MD5_CTX;
  checksum_octets : list Z
}.

Definition sizeof_Checksumstruct : Z := 24.

(** The loader sealed: its position, its checksum structure (hash and length), the
    image and the hash context.  The position is at 0x40, the length follows the
    hash. *)
Definition seal_loader (st : builder_stack) (m : mem) : outcome (Z * list Z * mem * Sha1.SHA1Context) :=
  let bootloaderpos := le_val (mem_read m 0x40 4) in
  let m := mem_fill m 0x40 0 4 in
  if KB256 <? bootloaderpos + sizeof_Checksumstruct then UB
  else
    let Size_ramcopy := le_val (mem_read m (bootloaderpos + 20) 4) in
    let n := u32 (Size_ramcopy - sizeof_Checksumstruct) in
    if KB256 <? bootloaderpos + sizeof_Checksumstruct + n then UB
    else
      '(h, c) ← sha1_mem (sha_context st) m (bootloaderpos + sizeof_Checksumstruct) n;
      let bootloaderstruct := h ++ le_bytes 4 Size_ramcopy in
      Ok (bootloaderpos, bootloaderstruct, write_list m bootloaderpos bootloaderstruct, c).

(** [None]: no image is written.  [crom] is the whole kernel file, read into a
    buffer of 256KB. *)
Definition romcopy (st : builder_stack) (loader crom : list Z) : outcome (option mem) :=
  let romsize := Z.of_nat (length crom) in
  if KB256 <? romsize then UB
  else
    '(bootloaderpos, bootloaderstruct, flash256, c) ← seal_loader st (load_loader loader);
    let Size_ramcopy := le_val (drop 20 bootloaderstruct) in
    if 0x3000 <? u32 (bootloaderpos + Size_ramcopy) then Ok None
    else
      let freeflashspace := 252 * 1024 - compressed_image_start in
      if freeflashspace <? romsize then Ok None
      else
        let m := write_list flash256 bootloaderpos bootloaderstruct in
        let m := write_list m 0x3000 (checksum_octets st ++ le_bytes 4 romsize) in
        let m := mem_fill m (compressed_image_start + romsize) 0xff
                   (KB256 - (compressed_image_start + romsize) - 512) in
        let m := write_list m compressed_image_start crom in
        '(h, _) ← sha1_mem c m compressed_image_start romsize;
        let m := write_list m 0x3000 h in
        m ← writeBiosIdentifier (md5_context st) m (compressed_image_start + romsize);
        Ok (Some m).

(** ** The challenge of the system controller *)

Fixpoint pic_rounds (n : nat) (b1 b2 b3 b4 : Z) : Z * Z :=
  match n with
  | O => (b1, b2)
  | S n' =>
      let b1 := u8 (b1 + (b2 .^ b3)) in
      let b2 := u8 (b2 + (b1 .^ b4)) in
      pic_rounds n' b1 b2 b3 b4
  end.

Definition BootPicManipulation (bC bD bE bF : Z) : Z :=
  let b3 := u8 (Z.shiftl bC 2 .^ (bD + 0x39) .^ Z.shiftr bE 2 .^ (bF + 0x63)) in
  let b4 := u8 ((bC + 0x0b) .^ Z.shiftr bD 2 .^ (bE + 0x1b)) in
  let '(b1, b2) := pic_rounds 4 0x33 0xed b3 b4 in
  u16 (Z.shiftl b2 8 .| b1).

(** What the loader sends: a word to the SMBus, an octet to a port, a double word
    to a register in memory. *)
Inductive boot_event := Word (address word : Z) | Out (port v : Z) | Store (address v : Z).

(** ** The boot loader *)

Definition PROGRAMM_Memory_2bl : Z := 0x00100000.
Definition CROMWELL_Memory_pos : Z := 0x03800000.
Definition CROMWELL_compress_temploc : Z := 0x02000000.
Definition LPCFlashadress : Z := 0xFF000000.
Definition SHA1Length : Z := 20.
Definition BootloaderVersion1 : Z := 1.
Definition FB_START : Z := 0xf0000000 .| (64 * 1024 * 1024 - 0x00400000).

(** [Stalled]: the decompressor stops at a file it does not accept. *)
Inductive boot_end := Kernel (ram : mem) | Restart | PowerCycle | Stalled.

(** Where the RAM ends. *)
Definition RAM_end : Z := 0x04000000.

Section loader.
(** [pic] is what the system controller returns for a register, [inb] what a port
    returns, and [flash k] what the [k]th copy from the flash sees. *)
Context (win : list Z) (tables : gmap Z Inflate.huft) (pic inb : Z → Z) (flash : nat → mem).
(** [_size_code_2bl], less the address the loader is linked to. *)
Context (size_code : Z).

Definition BootPerformPicChallengeResponseAction : list boot_event :=
  let bC := u8 (pic 0x1c) in
  let bD := u8 (pic 0x1d) in
  let bE := u8 (pic 0x1e) in
  let bF := u8 (pic 0x1f) in
  let w := BootPicManipulation bC bD bE bF in
  (if (bC =? 0) && (bD =? 0) && (bE =? 0) && (bF =? 0) then [Word 0x10 0x0240] else []) ++
  [Word 0x10 (0x2000 .| (w .& 0xff)); Word 0x10 (0x2100 .| Z.shiftr w 8); Word 0x10 0x0100].

(** The label [kill]. *)
Definition kill : boot_end * list boot_event :=
  let sysID := u8 (inb SYSCON_REG) in
  if ((sysID =? SYSCON_ID_V1) || (sysID =? SYSCON_ID_V1_PRE_EDITION) || (sysID =? SYSCON_ID_XT)) &&
     (u8 (inb XODUS_CONTROL) =? 0x0C)
  then (Restart, [Out XBLAST_CONTROL BNK512; Word 0x10 0x0201])
  else (PowerCycle, [Word 0x10 0x0240]).

(** What [decompress_kernel] writes to [CROMWELL_Memory_pos], if it returns. *)
Definition unpack (image : list Z) : outcome (option (list Z)) :=
  match Inflate.decompress_kernel image (Inflate.boot_state win tables) with
  | Inflate.Done _ s =>
      if RAM_end <? CROMWELL_Memory_pos + Z.of_nat (length (Inflate.output_data s)) then UB
      else Ok (Some (Inflate.output_data s))
  | Inflate.Stall => Ok None
  | Inflate.Undef => UB
  end.

(** The kernel unpacked, and the four words the kernel finds at 0x20. *)
Definition start_kernel (ram : mem) (kernel : list Z) (loadretry bootloadersize : Z) : mem :=
  let m := mem_fill ram CROMWELL_Memory_pos 0 0x400000 in
  let m := write_list m CROMWELL_Memory_pos kernel in
  let m := write_list m (CROMWELL_Memory_pos + 0x20) (le_bytes 4 1) in
  let m := write_list m (CROMWELL_Memory_pos + 0x24) (le_bytes 4 loadretry) in
  let m := write_list m (CROMWELL_Memory_pos + 0x28) (le_bytes 4 BootloaderVersion1) in
  write_list m (CROMWELL_Memory_pos + 0x2c) (le_bytes 4 bootloadersize).

(** [for(loadretry = 0; loadretry < 10; loadretry++)], with [tries] rounds to go;
    each round copies three times from the flash. *)
Fixpoint load_loop (tries : nat) (loadretry : nat) (c : Sha1.SHA1Context) (ram : mem) (bootloadersize : Z)
    : outcome (boot_end * list boot_event) :=
  match tries with
  | O => Ok kill
  | S tries' =>
      let compressedKernelChecksum := mem_read (flash (3 * loadretry)) (LPCFlashadress + 0x3000) 20 in
      let compressed_image_size :=
        le_val (mem_read (flash (3 * loadretry + 1)) (LPCFlashadress + 0x3000 + SHA1Length) 4) in
      if (compressed_image_size <? 50000) ||
         (256 * 1024 - compressed_image_start - 4 * 1024 <? compressed_image_size)
      then Ok kill
      else
        let ram := mem_copy ram CROMWELL_compress_temploc (flash (3 * loadretry + 2))
                     (LPCFlashadress + compressed_image_start) compressed_image_size in
        '(SHA1_result, c) ← sha1_mem c ram CROMWELL_compress_temploc compressed_image_size;
        if bool_decide (compressedKernelChecksum = SHA1_result) then
          unpacked ← unpack (mem_read ram CROMWELL_compress_temploc (Z.to_nat compressed_image_size));
          match unpacked with
          | Some kernel => Ok (Kernel (start_kernel ram kernel (Z.of_nat loadretry) bootloadersize), [])
          | None => Ok (Stalled, [])
          end
        else load_loop tries' (S loadretry) c ram bootloadersize
  end.

(** The start of the frame buffer is set once the loader has verified itself. *)
Definition set_framebuffer : boot_event := Store 0xFD600800 FB_START.

(** [ram] holds the copied loader. *)
Definition BootStartBiosLoader (context : Sha1.SHA1Context) (ram : mem)
    : outcome (boot_end * list boot_event) :=
  let pre := BootPerformPicChallengeResponseAction in
  let bootloaderChecksum := mem_read ram PROGRAMM_Memory_2bl 20 in
  let bootloadersize := le_val (mem_read ram (PROGRAMM_Memory_2bl + SHA1Length) 4) in
  '(e, evs) ←
    (if negb (bootloadersize =? size_code) then Ok kill
     else if bootloadersize <? SHA1Length + 4 then UB
     else
       '(SHA1_result, c) ← sha1_mem context ram (PROGRAMM_Memory_2bl + SHA1Length + 4)
                             (bootloadersize - SHA1Length - 4);
       if negb (bool_decide (bootloaderChecksum = SHA1_result)) then Ok kill
       else
         '(e, evs) ← load_loop 10 0 c ram bootloadersize;
         Ok (e, set_framebuffer :: evs));
  Ok (e, pre ++ evs).

End loader.

(** What the startup code copies to RAM: [n] double words from the position of
    the loader in the flash. *)
Definition ram_copy (ram flash : mem) (bootloaderpos n : Z) : mem :=
  mem_copy ram PROGRAMM_Memory_2bl flash (LPCFlashadress + bootloaderpos) (4 * n).

(** ** Memory *)

Lemma write_list_in m a l x :
  a <= x < a + Z.of_nat (length l) → write_list m a l x = nth (Z.to_nat (x - a)) l 0.
Proof.
  intros Hx. unfold write_list. rewrite mem_copy_in by done. unfold mem_of_list.
  rewrite Z.add_0_l. by destruct (Z.ltb_spec (x - a) 0); [lia|].
Qed.

Lemma write_list_out m a l x :
  x < a ∨ a + Z.of_nat (length l) <= x → write_list m a l x = m x.
Proof. intros Hx. unfold write_list. by rewrite mem_copy_out. Qed.

Lemma read_write m a l n : n = length l → mem_read (write_list m a l) a n = l.
Proof.
  intros ->. etrans; [|apply mem_read_of_list]. apply mem_read_ext. intros i Hi.
  rewrite write_list_in by lia. unfold mem_of_list. destruct (Z.ltb_spec (0 + i) 0); [lia|]. f_equal. lia.
Qed.

Lemma read_part m a k o n :
  (o + n <= k)%nat → take n (drop o (mem_read m a k)) = mem_read m (a + Z.of_nat o) n.
Proof.
  intros H. apply list_eq. intros i. destruct (decide (i < n)%nat) as [Hi|Hi].
  - rewrite lookup_take_lt, lookup_drop, !mem_read_lookup by lia. do 2 f_equal. lia.
  - rewrite lookup_take_ge by lia. symmetry. apply lookup_ge_None. rewrite length_mem_read. lia.
Qed.

(** A part of what has been written. *)
Lemma read_write_part m a l o n b :
  b = a + Z.of_nat o → (o + n <= length l)%nat → mem_read (write_list m a l) b n = take n (drop o l).
Proof.
  intros -> H. rewrite <- (read_part _ a (length l)) by done. by rewrite read_write.
Qed.

(** A range that a write leaves alone. *)
Lemma read_write_out m a l b n :
  b + Z.of_nat n <= a ∨ a + Z.of_nat (length l) <= b → mem_read (write_list m a l) b n = mem_read m b n.
Proof. intros H. apply mem_read_ext. intros i Hi. apply write_list_out. lia. Qed.

Lemma read_set_out m a v b n : a < b ∨ b + Z.of_nat n <= a → mem_read (mem_set m a v) b n = mem_read m b n.
Proof. intros H. apply mem_read_ext. intros i Hi. apply mem_set_ne. lia. Qed.

Lemma read_fill_out m a v k b n :
  b + Z.of_nat n <= a ∨ a + k <= b → mem_read (mem_fill m a v k) b n = mem_read m b n.
Proof. intros H. apply mem_read_ext. intros i Hi. apply mem_fill_out. lia. Qed.

Definition octets (m : mem) : Prop := ∀ x, byte (m x).

Lemma read_octets m a n : octets m → Forall byte (mem_read m a n).
Proof. intros Hm. unfold mem_read. apply Forall_map, Forall_forall. intros i _. apply Hm. Qed.

Lemma nth_byte l i : Forall byte l → byte (nth i l 0).
Proof.
  intros Hl. destruct (decide (i < length l)%nat) as [Hi|Hi].
  - apply (proj1 (List.Forall_forall _ _) Hl). by apply nth_In.
  - rewrite nth_overflow by lia. unfold byte. lia.
Qed.

Lemma write_octets m a l : octets m → Forall byte l → octets (write_list m a l).
Proof.
  intros Hm Hl x. unfold write_list, mem_copy, mem_of_list. destruct (_ && _); [|apply Hm].
  destruct (_ <? 0); [unfold byte; lia|]. by apply nth_byte.
Qed.

Lemma set_octets m a v : octets m → byte v → octets (mem_set m a v).
Proof. intros Hm Hv x. unfold mem_set. by destruct (_ =? _). Qed.

Lemma fill_octets m a v n : octets m → byte v → octets (mem_fill m a v n).
Proof. intros Hm Hv x. unfold mem_fill. by destruct (_ && _). Qed.

(** ** Hashes *)

Lemma length_sha1_hash m : length (Sha1.sha1_hash m) = 20%nat.
Proof.
  unfold Sha1.sha1_hash, Sha1.sha1_hash_from. generalize (Blocks.absorb Sha1.sha1_compress Sha1.sha1_iv
    (m ++ Sha1.sha1_padding (0 + Z.of_nat (length m)))).1. by intros [[[[h0 h1] h2] h3] h4].
Qed.

Lemma sha1_hash_octets m : Forall byte (Sha1.sha1_hash m).
Proof.
  unfold Sha1.sha1_hash, Sha1.sha1_hash_from. generalize (Blocks.absorb Sha1.sha1_compress Sha1.sha1_iv
    (m ++ Sha1.sha1_padding (0 + Z.of_nat (length m)))).1. intros [[[[h0 h1] h2] h3] h4].
  unfold Sha1.hash_octets. apply Forall_flat_map, Forall_forall. intros w _.
  apply Forall_map, Forall_forall. intros i _. apply u8_range.
Qed.

Lemma length_md5_hash m : length (Md5.md5_hash m) = 16%nat.
Proof.
  unfold Md5.md5_hash. generalize (Blocks.absorb Md5.MD5Transform Md5.md5_iv (Md5.md5_padded m)).1.
  by intros [[[a b] c] d].
Qed.

Lemma md5_hash_octets m : Forall byte (Md5.md5_hash m).
Proof.
  unfold Md5.md5_hash, Md5.Encode. apply Forall_flat_map, Forall_forall. intros w _.
  assert (∀ z, byte (z .& 0xff)) as H.
  { intros z. change 0xff with (Z.ones 8). rewrite Z.land_ones by lia. apply Z.mod_pos_bound. lia. }
  do 4 (constructor; [apply H|]). constructor.
Qed.

(** A context whose block has its 64 octets. *)
Definition context_ok (c : Sha1.SHA1Context) : Prop := length (Sha1.Message_Block c) = 64%nat.

Lemma sha1_mem_hash c m off n :
  context_ok c → Forall byte (mem_read m off (Z.to_nat n)) → n < 2 ^ 32 →
  ∃ c', sha1_mem c m off n = Ok (Sha1.sha1_hash (mem_read m off (Z.to_nat n)), c') ∧ context_ok c'.
Proof.
  intros Hc Hb Hn. unfold sha1_mem.
  destruct (Sha1.SHA1Input_inv Sha1.sha1_iv 0 (mem_read m off (Z.to_nat n)) _ [] (Sha1.SHA1Reset_inv c Hc) Hb)
    as (c1 & -> & Hinv); [rewrite length_mem_read; cbn [length]; lia|].
  rewrite bind_ok. destruct (Sha1.SHA1Result_hash _ _ _ _ Hinv) as (c' & -> & Hblock). rewrite bind_ok.
  exists c'. split; [done|]. unfold context_ok. by rewrite Hblock.
Qed.

(** ** The identifier *)

(** A field of the identifier of an image. *)
Lemma bid_read m f : bid f (flash_id m) = mem_read m (id_at f) (sizeof_field BiosIdentifier f).
Proof.
  unfold get_field, flash_id. rewrite read_part; [done|].
  pose proof (field_bound BiosIdentifier f) as H. exact H.
Qed.

(** The image with every field but the hash. *)
Definition identified (m : mem) (size : Z) : mem :=
  mem_set (mem_set (mem_set (write_list (write_list (mem_set (write_list m (id_at Magic) [65; 85; 84; 79])
    (id_at HeaderVersion) HeaderVersionV2) (id_at BiosSize) (le_bytes 4 size)) (id_at Name) image_name)
    (id_at XboxVersion) 0xff) (id_at VideoEncoder) 0x07) (id_at Option1) Option1_SaveSettingsLocationBit.

(** Where the fields are. *)
Lemma id_places :
  id_at Magic = KB256 - 63 ∧ id_at HeaderVersion = KB256 - 59 ∧ id_at XboxVersion = KB256 - 58 ∧
  id_at VideoEncoder = KB256 - 57 ∧ id_at Option1 = KB256 - 55 ∧ id_at BiosSize = KB256 - 52 ∧
  id_at Name = KB256 - 48 ∧ id_at MD5Hash = KB256 - 16.
Proof. split_and!; reflexivity. Qed.

Lemma identified_out m size x : x < KB256 - 63 → identified m size x = m x.
Proof.
  intros Hx. unfold identified. destruct id_places as (-> & -> & -> & -> & -> & -> & -> & _).
  rewrite !mem_set_ne, !write_list_out, mem_set_ne, write_list_out; [done|..]; try lia;
    rewrite ?length_le_bytes; cbn; lia.
Qed.

Lemma identified_octets m size : octets m → octets (identified m size).
Proof.
  intros Hm. unfold identified. repeat (apply set_octets || apply write_octets || apply le_bytes_byte); try done.
  all: apply (bool_decide_unpack _); vm_compute; exact I.
Qed.

Lemma identified_fields m size :
  identified m size (id_at HeaderVersion) = HeaderVersionV2 ∧
  identified m size (id_at Option1) = Option1_SaveSettingsLocationBit ∧
  mem_read (identified m size) (id_at BiosSize) 4 = le_bytes 4 size ∧
  mem_read (identified m size) (id_at Name) 9 = PROG_NAME.
Proof. split_and!; reflexivity. Qed.

Lemma writeBiosIdentifier_spec c m size :
  length (Md5.buffer c) = 64%nat → 0 <= size <= KB256 - 63 →
  ∃ m', writeBiosIdentifier c m size = Ok m' ∧
    (octets m → octets m') ∧ (∀ x, x < KB256 - 63 → m' x = m x) ∧
    le_val (bid HeaderVersion (flash_id m')) = HeaderVersionV2 ∧
    le_val (bid Option1 (flash_id m')) = Option1_SaveSettingsLocationBit ∧
    le_val (bid BiosSize (flash_id m')) = size ∧
    has_prog_name (flash_id m') = true ∧
    bid MD5Hash (flash_id m') = Md5.md5_hash (mem_read m 0 (Z.to_nat size)).
Proof.
  intros Hc Hs. unfold writeBiosIdentifier. cbv zeta. fold (identified m size).
  destruct (identified_fields m size) as (Hv & Ho & Hb & Hn). rewrite Hv, Hb.
  cbn [Z.eqb HeaderVersionV2 Pos.eqb orb]. unfold KB256 in *.
  rewrite le_val_bytes by (cbn; lia).
  destruct (Md5.MD5Update_inv (Md5.MD5Init c) [] (mem_read (identified m size) 0 (Z.to_nat KB256)) size)
    as (c1 & Hu & Hinv); [by apply Md5.MD5Init_inv|rewrite length_mem_read; unfold KB256; lia|lia|].
  unfold KB256 in Hu. rewrite Hu, bind_ok, (Md5.MD5Final_hash _ _ Hinv), bind_ok.
  set (d := Md5.md5_hash _). eexists. split; [done|].
  assert (∀ x, x < 256 * 1024 - 16 → write_list (identified m size) (id_at MD5Hash) d x = identified m size x) as Hout.
  { intros x Hx. apply write_list_out. left. exact Hx. }
  split; [intros Hm; apply write_octets; [by apply identified_octets|apply md5_hash_octets]|].
  split; [intros x Hx; rewrite Hout by lia; by apply identified_out|].
  assert (∀ a n, a + Z.of_nat n <= 256 * 1024 - 16 →
            mem_read (write_list (identified m size) (id_at MD5Hash) d) a n = mem_read (identified m size) a n) as Hr.
  { intros a n Ha. apply mem_read_ext. intros i Hi. apply Hout. lia. }
  unfold has_prog_name. rewrite !bid_read. destruct id_places as (_ & E1 & _ & _ & E2 & E3 & E4 & E5).
  rewrite !Hr by (rewrite ?E1, ?E2, ?E3, ?E4; vm_compute; discriminate).
  split_and!.
  - change (sizeof_field BiosIdentifier HeaderVersion) with 1%nat. unfold mem_read. cbn [seq map Z.of_nat]. rewrite Z.add_0_r, Hv. reflexivity.
  - change (sizeof_field BiosIdentifier Option1) with 1%nat. unfold mem_read. cbn [seq map Z.of_nat]. rewrite Z.add_0_r, Ho. reflexivity.
  - change (sizeof_field BiosIdentifier BiosSize) with 4%nat. rewrite Hb. apply le_val_bytes. cbn. lia.
  - apply bool_decide_eq_true. reflexivity.
  - change (sizeof_field BiosIdentifier MD5Hash) with 16%nat. rewrite read_write by (unfold d; by rewrite length_md5_hash).
    unfold d. f_equal. rewrite app_nil_l. rewrite <- (drop_0 (mem_read _ 0 _)), read_part by (unfold KB256; lia).
    apply mem_read_ext. intros i Hi. apply identified_out. unfold KB256. lia.
Qed.

(** ** The image *)

Lemma load_loader_octets loader : Forall byte loader → octets (load_loader loader).
Proof.
  intros Hl. unfold load_loader. cbv zeta.
  assert (Forall (λ p : Z * Z, byte p.2) top_octets) as Ht.
  { apply (bool_decide_unpack _). vm_compute. exact I. }
  generalize dependent top_octets. intros l Hl'.
  assert (octets (mem_fill (mem_fill (write_list (λ _, 0) 0 (take (Z.to_nat KB256) loader)) 0x3fe00 0x90 512)
                    0x3ffd0 0x00 32)) as Hm.
  { apply fill_octets; [|unfold byte; lia]. apply fill_octets; [|unfold byte; lia].
    apply write_octets; [intros x; unfold byte; lia|by apply Forall_take]. }
  generalize dependent (mem_fill (mem_fill (write_list (λ _, 0) 0 (take (Z.to_nat KB256) loader)) 0x3fe00 0x90 512)
                    0x3ffd0 0x00 32). 
  induction Hl' as [|[a v] l Hv Hl' IH]; intros m Hm; [done|]. cbn [foldl]. apply IH. by apply set_octets.
Qed.

(** What the builder reads in the loader image. *)
Definition base_image (m : mem) : mem := mem_fill m 0x40 0 4.
Definition loader_pos (m : mem) : Z := le_val (mem_read m 0x40 4).
Definition loader_size (m : mem) : Z := le_val (mem_read (base_image m) (loader_pos m + 20) 4).

Lemma base_octets m : octets m → octets (base_image m).
Proof. intros Hm. apply fill_octets; [done|unfold byte; lia]. Qed.

Definition stack_ok (st : builder_stack) : Prop :=
  context_ok (sha_context st) ∧ length (Md5.buffer (md5_context st)) = 64%nat ∧
  length (checksum_octets st) = 20%nat ∧ Forall byte (checksum_octets st).

(** Files for which an image is built. *)
Definition fits (m : mem) (crom : list Z) : Prop :=
  24 <= loader_size m ∧ loader_pos m + loader_size m <= 0x3000 ∧
  Z.of_nat (length crom) <= 252 * 1024 - compressed_image_start.

(** An image that the loader starts: both hashes and both lengths are right. *)
Definition bootable (m : mem) (pos size : Z) (crom : list Z) : Prop :=
  mem_read m pos 20 = Sha1.sha1_hash (mem_read m (pos + 24) (Z.to_nat (size - 24))) ∧
  mem_read m (pos + 20) 4 = le_bytes 4 size ∧
  mem_read m 0x3000 20 = Sha1.sha1_hash crom ∧
  mem_read m 0x3014 4 = le_bytes 4 (Z.of_nat (length crom)) ∧
  mem_read m 0x3018 (length crom) = crom.

(** Only the loader and the kernel matter. *)
Lemma bootable_ext m m' pos size crom :
  24 <= size →
  (∀ x, pos <= x < pos + size ∨ 0x3000 <= x < 0x3018 + Z.of_nat (length crom) → m' x = m x) →
  bootable m pos size crom → bootable m' pos size crom.
Proof.
  intros Hs Hx. assert (∀ a n, pos <= a ∧ a + Z.of_nat n <= pos + size ∨
      0x3000 <= a ∧ a + Z.of_nat n <= 0x3018 + Z.of_nat (length crom) → mem_read m' a n = mem_read m a n) as Hr.
  { intros a n Ha. apply mem_read_ext. intros i Hi. apply Hx. lia. }
  unfold bootable. by rewrite !Hr by lia.
Qed.

Lemma loader_pos_range m : octets m → 0 <= loader_pos m.
Proof. intros Hm. by apply le_val_range, read_octets. Qed.

Lemma seal_loader_spec st m :
  stack_ok st → octets m → 24 <= loader_size m → loader_pos m + loader_size m <= 0x3000 →
  let pos := loader_pos m in let size := loader_size m in
  let seal := Sha1.sha1_hash (mem_read (base_image m) (pos + 24) (Z.to_nat (size - 24))) ++ le_bytes 4 size in
  ∃ c, seal_loader st m = Ok (pos, seal, write_list (base_image m) pos seal, c) ∧ context_ok c.
Proof.
  intros Hst Hm H24 Hfit pos size seal. pose proof (loader_pos_range m Hm) as Hpos.
  unfold seal_loader, sizeof_Checksumstruct, KB256. cbv zeta.
  change (mem_fill m 0x40 0 4) with (base_image m). change (le_val (mem_read m 0x40 4)) with pos.
  change (le_val (mem_read (base_image m) (pos + 20) 4)) with size. fold pos size in H24, Hfit, Hpos.
  assert (u32 (size - 24) = size - 24) as -> by (apply u32_id; unfold word32; lia).
  destruct (Z.ltb_spec (256 * 1024) (pos + 24)); [lia|].
  destruct (Z.ltb_spec (256 * 1024) (pos + 24 + (size - 24))); [lia|].
  destruct (sha1_mem_hash (sha_context st) (base_image m) (pos + 24) (size - 24)) as (c & -> & Hc);
    [apply Hst|by apply read_octets, base_octets|lia|].
  rewrite bind_ok. by exists c.
Qed.

(** What is in the image when the identifier is written. *)
Lemma romcopy_spec st loader crom :
  let l := load_loader loader in
  stack_ok st → Forall byte loader → Forall byte crom → fits l crom →
  ∃ m img, bootable m (loader_pos l) (loader_size l) crom ∧ octets m ∧
    writeBiosIdentifier (md5_context st) m (compressed_image_start + Z.of_nat (length crom)) = Ok img ∧
    romcopy st loader crom = Ok (Some img).
Proof.
  intros l Hst Hl%load_loader_octets Hr (H24 & Hfit & Hrom). unfold romcopy. fold l in Hl |- *. clearbody l.
  pose proof (loader_pos_range l Hl) as Hpos.
  destruct (seal_loader_spec st l Hst Hl H24 Hfit) as (c & -> & Hc). rewrite bind_ok. cbv zeta.
  unfold KB256, compressed_image_start in *.
  destruct (Z.ltb_spec (256 * 1024) (Z.of_nat (length crom))); [lia|].
  set (pos := loader_pos l) in *. set (size := loader_size l) in *.
  set (h := Sha1.sha1_hash _) in *.
  pose proof (length_sha1_hash (mem_read (base_image l) (pos + 24) (Z.to_nat (size - 24)))) as Hh. fold h in Hh.
  assert (drop 20 (h ++ le_bytes 4 size) = le_bytes 4 size) as -> by (by rewrite drop_app_length').
  rewrite le_val_bytes by (cbn; lia). rewrite u32_id by (unfold word32; lia).
  destruct (Z.ltb_spec 0x3000 (pos + size)); [lia|].
  destruct (Z.ltb_spec (252 * 1024 - 0x3018) (Z.of_nat (length crom))); [lia|].
  set (seal := h ++ le_bytes 4 size). assert (length seal = 24%nat) as Hseal by (unfold seal; rewrite length_app, length_le_bytes; lia).
  set (m2 := write_list _ 0x3000 _). set (m4 := write_list _ 0x3018 crom).
  destruct (sha1_mem_hash c m4 0x3018 (Z.of_nat (length crom))) as (c' & Hsha & _);
    [done|rewrite Nat2Z.id; unfold m4; by rewrite read_write|lia|].
  rewrite Hsha, bind_ok, Nat2Z.id.
  assert (mem_read m4 0x3018 (length crom) = crom) as Hcrom by (by apply read_write). rewrite Hcrom.
  set (m := write_list m4 0x3000 (Sha1.sha1_hash crom)).
  destruct (writeBiosIdentifier_spec (md5_context st) m (0x3018 + Z.of_nat (length crom))) as (img & Hid & _);
    [apply Hst|unfold KB256; lia|].
  pose proof (length_sha1_hash crom) as Hh2. destruct Hst as (_ & _ & Hjunk & Hjb).
  exists m, img. split; [|split; [|split; [done|by rewrite Hid, bind_ok]]]; cycle 1.
  { unfold m, m4, m2, seal, h. repeat (apply write_octets || apply fill_octets || apply Forall_app_2);
      auto using sha1_hash_octets, le_bytes_byte, base_octets; unfold byte; lia. }
  assert (∀ a n, a + Z.of_nat n <= 0x3000 →
            mem_read m a n = mem_read (write_list (write_list (base_image l) pos seal) pos seal) a n) as Hlow.
  { intros a n Ha. unfold m, m4, m2. rewrite (read_write_out _ 0x3000), (read_write_out _ 0x3018) by lia.
    by rewrite read_fill_out, (read_write_out _ 0x3000) by lia. }
  unfold bootable. rewrite (Hlow pos 20%nat), (Hlow (pos + 20) 4%nat), (Hlow (pos + 24)) by lia.
  split_and!.
  - rewrite (read_write_part _ pos seal 0), !read_write_out by (lia || (unfold seal; len)).
    unfold seal. rewrite drop_0, take_app_length'; [done|len].
  - rewrite (read_write_part _ pos seal 20) by (lia || (unfold seal; len)).
    unfold seal. rewrite drop_app_length' by len. done.
  - unfold m. by apply read_write.
  - unfold m, m4. rewrite !read_write_out, read_fill_out by lia. unfold m2.
    rewrite (read_write_part _ 0x3000 _ 20) by (rewrite ?length_app, ?length_le_bytes; lia).
    by rewrite drop_app_length'.
  - unfold m. by rewrite read_write_out by lia.
Qed.

(** ** The loader *)

(** The kernel as the loader leaves it: the unpacked octets, and from 0x20 on the
    words for the mark, the retries, the version and the size. *)
Definition kernel_in (ram : mem) (kernel : list Z) (loadretry size : Z) : Prop :=
  (∀ i, 0 <= i < Z.of_nat (length kernel) → i < 0x20 ∨ 0x30 <= i →
     ram (CROMWELL_Memory_pos + i) = nth (Z.to_nat i) kernel 0) ∧
  mem_read ram (CROMWELL_Memory_pos + 0x20) 16 =
    le_bytes 4 1 ++ le_bytes 4 loadretry ++ le_bytes 4 BootloaderVersion1 ++ le_bytes 4 size.

Lemma mem_read_app m a n k : mem_read m a (n + k) = mem_read m a n ++ mem_read m (a + Z.of_nat n) k.
Proof.
  rewrite <- (take_drop n (mem_read m a (n + k))), <- (take_ge (drop n _) k) by (rewrite length_drop, length_mem_read; lia).
  rewrite read_part by lia. f_equal. rewrite <- (drop_0 (mem_read _ _ _)), read_part by lia. f_equal. lia.
Qed.

Lemma start_kernel_in ram kernel retry size : kernel_in (start_kernel ram kernel retry size) kernel retry size.
Proof.
  unfold start_kernel, kernel_in. cbv zeta. split.
  - intros i Hi Ho. rewrite !write_list_out by (rewrite length_le_bytes; lia).
    rewrite write_list_in by lia. f_equal. lia.
  - change 16%nat with (4 + (4 + (4 + 4)))%nat. rewrite !mem_read_app. unfold CROMWELL_Memory_pos. cbn [Z.of_nat Pos.of_succ_nat Pos.succ Z.add Pos.add].
    repeat (rewrite read_write || rewrite read_write_out); rewrite ?length_le_bytes; lia || done.
Qed.

Section loading.
Context (win : list Z) (tables : gmap Z Inflate.huft) (pic inb : Z → Z) (flash : nat → mem) (size_code : Z).
Hypothesis flash_octets : ∀ k, octets (flash k).

(** What the [j]th round reads in the flash. *)
Definition stored_sum (j : nat) : list Z := mem_read (flash (3 * j)) (LPCFlashadress + 0x3000) 20.
Definition stored_size (j : nat) : Z := le_val (mem_read (flash (3 * j + 1)) (LPCFlashadress + 0x3014) 4).
Definition stored_image (j : nat) : list Z :=
  mem_read (flash (3 * j + 2)) (LPCFlashadress + 0x3018) (Z.to_nat (stored_size j)).

Definition size_ok (j : nat) : Prop := 50000 <= stored_size j <= 252 * 1024 - 0x3018.

(** How a round with a verified image ends. *)
Definition finish (ram : mem) (j : nat) (bs : Z) : outcome (boot_end * list boot_event) :=
  unpacked ← unpack win tables (stored_image j);
  match unpacked with
  | Some kernel => Ok (Kernel (start_kernel ram kernel (Z.of_nat j) bs), [])
  | None => Ok (Stalled, [])
  end.

Lemma load_round tries j c ram bs :
  context_ok c → size_ok j →
  ∃ c' ram', context_ok c' ∧
    load_loop win tables inb flash (S tries) j c ram bs =
      if bool_decide (stored_sum j = Sha1.sha1_hash (stored_image j)) then finish ram' j bs
      else load_loop win tables inb flash tries (S j) c' ram' bs.
Proof.
  intros Hc [Hlo Hhi]. cbn [load_loop]. unfold compressed_image_start.
  change (LPCFlashadress + 0x3000 + SHA1Length) with (LPCFlashadress + 0x3014).
  fold (stored_size j) (stored_sum j).
  destruct (Z.ltb_spec (stored_size j) 50000), (Z.ltb_spec (256 * 1024 - 0x3018 - 4 * 1024) (stored_size j));
    try lia. cbn [orb].
  set (ram' := mem_copy _ _ _ _ _).
  assert (mem_read ram' CROMWELL_compress_temploc (Z.to_nat (stored_size j)) = stored_image j) as Hi.
  { apply mem_read_ext. intros i Hi. unfold ram'. rewrite mem_copy_in by lia. f_equal. lia. }
  destruct (sha1_mem_hash c ram' CROMWELL_compress_temploc (stored_size j)) as (c' & -> & Hc');
    [done|rewrite Hi; by apply read_octets|lia|].
  rewrite bind_ok, Hi. by exists c', ram'.
Qed.

(** Rounds that read a wrong image are repeated, up to ten. *)
Lemma load_loop_starts k : ∀ tries j c ram bs,
  context_ok c → (k < tries)%nat →
  (∀ i, (j <= i < j + k)%nat → size_ok i ∧ stored_sum i ≠ Sha1.sha1_hash (stored_image i)) →
  size_ok (j + k) → stored_sum (j + k) = Sha1.sha1_hash (stored_image (j + k)) →
  ∃ ram', load_loop win tables inb flash tries j c ram bs = finish ram' (j + k) bs.
Proof.
  induction k as [|k IH]; intros [|tries] j c ram bs Hc Hk Hbad Hsize Hgood; try lia.
  - rewrite Nat.add_0_r in *. destruct (load_round tries j c ram bs Hc Hsize) as (c' & ram' & _ & ->).
    rewrite bool_decide_true by done. by exists ram'.
  - destruct (Hbad j) as [Hs Hne]; [lia|].
    destruct (load_round tries j c ram bs Hc Hs) as (c' & ram' & Hc' & ->). rewrite bool_decide_false by done.
    destruct (IH tries (S j) c' ram' bs Hc') as [r Hr]; [lia| | | |].
    + intros i Hi. apply Hbad. lia.
    + by rewrite Nat.add_succ_comm.
    + by rewrite Nat.add_succ_comm.
    + exists r. rewrite Hr. by rewrite Nat.add_succ_comm.
Qed.

(** The loop gives up, or ends with an image whose hash has been checked. *)
Lemma load_loop_sound tries : ∀ j c ram bs,
  context_ok c →
  load_loop win tables inb flash tries j c ram bs = Ok (kill inb) ∨
  ∃ i r, (j <= i < j + tries)%nat ∧ size_ok i ∧ stored_sum i = Sha1.sha1_hash (stored_image i) ∧
    load_loop win tables inb flash tries j c ram bs = finish r i bs.
Proof.
  induction tries as [|tries IH]; intros j c ram bs Hc; [by left|]. destruct (decide (size_ok j)) as [Hs|Hs].
  - destruct (load_round tries j c ram bs Hc Hs) as (c' & r & Hc' & ->). case_bool_decide as Hsum.
    + right. exists j, r. split; [lia|]. done.
    + destruct (IH (S j) c' r bs Hc') as [->|(i & r' & Hi & Hrest)]; [by left|]. right. exists i, r'. split; [lia|done].
  - left. cbn [load_loop]. unfold compressed_image_start.
    change (LPCFlashadress + 0x3000 + SHA1Length) with (LPCFlashadress + 0x3014).
    fold (stored_size j). unfold size_ok in Hs.
    destruct (Z.ltb_spec (stored_size j) 50000), (Z.ltb_spec (256 * 1024 - 0x3018 - 4 * 1024) (stored_size j));
      cbn [orb]; try done. lia.
Qed.

(** The flash shows a bootable image in the [k]th round. *)
Lemma stored_bootable img pos size crom k :
  bootable img pos size crom → Z.of_nat (length crom) < 2 ^ 32 →
  (∀ j x, (3 * k <= j <= 3 * k + 2)%nat → 0x3000 <= x < 0x3018 + Z.of_nat (length crom) →
     flash j (LPCFlashadress + x) = img x) →
  stored_size k = Z.of_nat (length crom) ∧ stored_image k = crom ∧ stored_sum k = Sha1.sha1_hash crom.
Proof.
  intros (_ & _ & Hsum & Hlen & Himg) Hn Hx.
  assert (∀ j a n, (3 * k <= j <= 3 * k + 2)%nat → 0x3000 <= a ∧ a + Z.of_nat n <= 0x3018 + Z.of_nat (length crom) →
            mem_read (flash j) (LPCFlashadress + a) n = mem_read img a n) as Hr.
  { intros j a n Hj Ha. apply mem_read_ext. intros i Hi. rewrite <- Z.add_assoc. apply Hx; lia. }
  assert (stored_size k = Z.of_nat (length crom)) as Hs.
  { unfold stored_size. rewrite Hr, Hlen by lia. apply le_val_bytes. cbn. lia. }
  unfold stored_image, stored_sum. rewrite Hs, Nat2Z.id, !Hr by lia. by rewrite Himg.
Qed.

(** The copied loader verifies itself and goes on to the kernel. *)
Lemma copied_loader_runs img pos crom startup ram n context :
  bootable img pos size_code crom → 24 <= size_code < 2 ^ 32 → size_code <= 4 * n → octets startup →
  context_ok context → (∀ x, pos <= x < pos + size_code → startup (LPCFlashadress + x) = img x) →
  ∃ c, context_ok c ∧
    BootStartBiosLoader win tables pic inb flash size_code context (ram_copy ram startup pos n) =
      '(e, evs) ← load_loop win tables inb flash 10 0 c (ram_copy ram startup pos n) size_code;
      Ok (e, BootPerformPicChallengeResponseAction pic ++ set_framebuffer :: evs).
Proof.
  intros (Hsum & Hsize & _) Hs Hn Hso Hc Hx. set (ram1 := ram_copy ram startup pos n).
  assert (∀ a k, 0 <= a → a + Z.of_nat k <= size_code →
            mem_read ram1 (PROGRAMM_Memory_2bl + a) k = mem_read img (pos + a) k ∧
            mem_read ram1 (PROGRAMM_Memory_2bl + a) k = mem_read startup (LPCFlashadress + (pos + a)) k) as Hr.
  { intros a k Ha Hk. split; apply mem_read_ext; intros i Hi; unfold ram1, ram_copy; rewrite mem_copy_in by lia.
    - rewrite <- Hx by lia. f_equal. lia.
    - f_equal. lia. }
  unfold BootStartBiosLoader. cbv zeta. unfold SHA1Length. rewrite <- !Z.add_assoc.
  change (20 + 4) with 24. rewrite (proj1 (Hr 20 4%nat ltac:(lia) ltac:(lia))), Hsize, le_val_bytes by (cbn; lia).
  rewrite Z.eqb_refl. cbn [negb]. destruct (Z.ltb_spec size_code 24); [lia|].
  replace (size_code - 20 - 4) with (size_code - 24) by lia.
  destruct (sha1_mem_hash context ram1 (PROGRAMM_Memory_2bl + 24) (size_code - 24)) as (c & -> & Hc');
    [done|rewrite (proj2 (Hr 24 (Z.to_nat (size_code - 24)) ltac:(lia) ltac:(lia))); by apply read_octets|lia|].
  rewrite bind_ok, (proj1 (Hr 24 (Z.to_nat (size_code - 24)) ltac:(lia) ltac:(lia))), <- Hsum.
  pose proof (proj1 (Hr 0 20%nat ltac:(lia) ltac:(lia))) as H0. rewrite !Z.add_0_r in H0. rewrite H0.
  rewrite bool_decide_true by done. cbn [negb]. exists c. split; [done|].
  by destruct (load_loop _ _ _ _ _ _ _ _ _) as [[e evs]|].
Qed.

End loading.

Lemma built_image_starts st loader crom kernel win tables :
  let l := load_loader loader in
  stack_ok st → Forall byte loader → Forall byte crom → fits l crom → 50000 <= Z.of_nat (length crom) →
  unpack win tables crom = Ok (Some kernel) →
  ∃ img, romcopy st loader crom = Ok (Some img) ∧ octets img ∧
    ∀ pic inb flash startup ram n context k,
      context_ok context → (∀ j, octets (flash j)) → octets startup → (k < 10)%nat → loader_size l <= 4 * n →
      (∀ x, loader_pos l <= x < loader_pos l + loader_size l → startup (LPCFlashadress + x) = img x) →
      (∀ i, (i < k)%nat → size_ok flash i ∧ stored_sum flash i ≠ Sha1.sha1_hash (stored_image flash i)) →
      (∀ j x, (3 * k <= j <= 3 * k + 2)%nat → 0x3000 <= x < 0x3018 + Z.of_nat (length crom) →
         flash j (LPCFlashadress + x) = img x) →
      ∃ ram', BootStartBiosLoader win tables pic inb flash (loader_size l) context
                (ram_copy ram startup (loader_pos l) n) =
                Ok (Kernel ram', BootPerformPicChallengeResponseAction pic ++ [set_framebuffer]) ∧
        kernel_in ram' kernel (Z.of_nat k) (loader_size l).
Proof.
  intros l Hst Hl Hr Hfit Hmin Hunpack.
  destruct (romcopy_spec st loader crom Hst Hl Hr Hfit) as (m & img & Hboot & Hm & Hid & Hrom).
  pose proof Hfit as (H24 & Hpos & Hmax). unfold compressed_image_start in Hid, Hmax.
  pose proof (loader_pos_range _ (load_loader_octets _ Hl)) as Hp. fold l in Hp, Hboot. clearbody l.
  destruct (writeBiosIdentifier_spec (md5_context st) m (0x3018 + Z.of_nat (length crom)))
    as (img' & Hid' & Hio & Hkeep & _); [apply Hst|unfold KB256; lia|]. rewrite Hid in Hid'. injection Hid' as <-.
  exists img. split; [done|]. split; [by apply Hio|].
  intros pic inb flash startup ram n context k Hc Hfo Hso Hk Hn Hstart Hbad Hgood.
  assert (bootable img (loader_pos l) (loader_size l) crom) as Hb.
  { eapply bootable_ext; [exact H24| |exact Hboot]. intros x Hx. apply Hkeep. unfold KB256. lia. }
  destruct (stored_bootable flash img _ _ crom k Hb ltac:(lia) Hgood) as (Hsz & Him & Hsum).
  destruct (copied_loader_runs win tables pic inb flash (loader_size l) img _ crom startup ram n context Hb)
    as (c & Hc' & ->); [lia|done|done|done|done|].
  destruct (load_loop_starts win tables inb flash Hfo k 10 0 c (ram_copy ram startup (loader_pos l) n) (loader_size l))
    as (ram' & ->); [done|done| | |by rewrite Nat.add_0_l, Him, Hsum|].
  - intros i Hi. apply Hbad. lia.
  - unfold size_ok. rewrite Nat.add_0_l, Hsz. lia.
  - unfold finish. rewrite Nat.add_0_l, Him, Hunpack, !bind_ok. eexists. split; [done|]. apply start_kernel_in.
Qed.

(** A gzip file is unpacked, whatever follows it. *)
Lemma unpack_file m rest win tables :
  Deflate.member_ok m → Forall byte rest → Z.of_nat (length win) = Inflate.WSIZE →
  Z.of_nat (length (Deflate.gzip_file m ++ rest)) < 2 ^ 32 → Z.of_nat (length (Deflate.original m)) <= 0x800000 →
  unpack win tables (Deflate.gzip_file m ++ rest) = Ok (Some (Deflate.original m)).
Proof.
  intros Hm Hr Hw Hl Ho. unfold unpack.
  destruct (InflateBits.runs_done _ _ _ (Gunzip.decompress_runs m rest win tables
    (λ _ s, Inflate.output_data s = Deflate.original m) Hm Hw Hr Hl (λ s H, H))) as (r & s & -> & ->).
  unfold RAM_end, CROMWELL_Memory_pos. destruct (Z.ltb_spec 0x04000000 (0x03800000 + Z.of_nat (length (Deflate.original m)))); [lia|done].
Qed.

(** A loader of 24 octets at 0x80, and a packed kernel with zeros behind it. *)
Definition sample_loader : list Z := replicate 64 0 ++ [0x80; 0; 0; 0] ++ replicate 80 0 ++ [24; 0; 0; 0].
Definition sample_rest : list Z := replicate (Z.to_nat 50000) 0.
Definition sample_crom : list Z := Deflate.gzip_file Gunzip.sample ++ sample_rest.
Definition sample_context : Sha1.SHA1Context := Sha1.mkSHA1 Sha1.sha1_iv 0 0 0 (replicate 64 0) 0 0.
Definition sample_stack : builder_stack :=
  mkStack sample_context (Md5.mkMD5 Md5.md5_iv 0 0 (replicate 64 0)) (replicate 20 0).

Lemma sample_stack_ok : stack_ok sample_stack.
Proof. repeat split. apply Forall_replicate. unfold byte. lia. Qed.

Lemma sample_rest_octets : Forall byte sample_rest.
Proof. apply Forall_replicate. unfold byte. lia. Qed.

Lemma sample_octets : Forall byte sample_loader ∧ Forall byte sample_crom.
Proof.
  split; [apply (bool_decide_unpack _); vm_compute; exact I|]. apply Forall_app.
  split; [apply Gunzip.file_octets, Gunzip.sample_ok|apply sample_rest_octets].
Qed.

Lemma sample_place : loader_pos (load_loader sample_loader) = 0x80 ∧ loader_size (load_loader sample_loader) = 24.
Proof. split; vm_compute; reflexivity. Qed.

Lemma sample_crom_length : Z.of_nat (length sample_crom) = 50051.
Proof.
  unfold sample_crom, sample_rest. rewrite length_app, length_replicate, Nat2Z.inj_add, Z2Nat.id by lia.
  replace (Z.of_nat (length (Deflate.gzip_file Gunzip.sample))) with 51 by (by vm_compute). done.
Qed.

Lemma sample_fits : fits (load_loader sample_loader) sample_crom.
Proof.
  unfold fits. destruct sample_place as [-> ->]. rewrite sample_crom_length. unfold compressed_image_start. lia.
Qed.

Lemma sample_small : Z.of_nat (length (Deflate.original Gunzip.sample)) <= 0x800000.
Proof. by vm_compute. Qed.

Lemma sample_unpacks : unpack Gunzip.cleared ∅ sample_crom = Ok (Some (Deflate.original Gunzip.sample)).
Proof.
  apply unpack_file; [apply Gunzip.sample_ok|apply sample_rest_octets|apply Gunzip.length_cleared| |apply sample_small].
  fold sample_crom. rewrite sample_crom_length. lia.
Qed.

(** The image in the flash, read without errors. *)
Lemma sample_boots :
  ∃ img ram', romcopy sample_stack sample_loader sample_crom = Ok (Some img) ∧ octets img ∧
    BootStartBiosLoader Gunzip.cleared ∅ (λ _, 1) (λ _, 0) (λ _ x, img (x - LPCFlashadress)) 24 sample_context
      (ram_copy (λ _, 0) (λ x, img (x - LPCFlashadress)) 0x80 30) =
      Ok (Kernel ram', BootPerformPicChallengeResponseAction (λ _, 1) ++ [set_framebuffer]).
Proof.
  destruct (built_image_starts sample_stack sample_loader sample_crom (Deflate.original Gunzip.sample) Gunzip.cleared ∅ sample_stack_ok (proj1 sample_octets)
              (proj2 sample_octets) sample_fits) as (img & Hrom & Ho & Hboot); [rewrite sample_crom_length; lia|apply sample_unpacks|].
  destruct sample_place as [Hp Hs]. rewrite Hp, Hs in Hboot.
  destruct (Hboot (λ _, 1) (λ _, 0) (λ _ x, img (x - LPCFlashadress)) (λ x, img (x - LPCFlashadress))
              (λ _, 0) 30 sample_context 0%nat) as (ram' & Hrun & _).
  - reflexivity.
  - intros j x. apply Ho.
  - intros x. apply Ho.
  - lia.
  - lia.
  - intros x _. f_equal. lia.
  - intros i Hi. lia.
  - intros j x _ _. f_equal. lia.
  - exists img, ram'. split; [exact Hrom|]. split; [exact Ho|exact Hrun].
Qed.

(** A sealed image is accepted as an update. *)
Lemma sealed_accepted stack img size :
  length (Md5.buffer stack) = 64%nat → 0 <= size <= KB256 - 63 →
  le_val (bid HeaderVersion (flash_id img)) = HeaderVersionV2 → le_val (bid BiosSize (flash_id img)) = size →
  has_prog_name (flash_id img) = true →
  bid MD5Hash (flash_id img) = Md5.md5_hash (mem_read img 0 (Z.to_nat size)) →
  validateOSImage stack (mem_read img 0 (Z.to_nat KB256)) KB256 = Ok FlashErrorcodes_NoError.
Proof.
  intros Hst Hs Hv Hb Hn Hh. unfold validateOSImage. change ImageSize256KB with KB256. rewrite Z.eqb_refl. cbn [negb].
  assert (0 <= KB256) as HK by (unfold KB256; lia).
  rewrite length_mem_read, Z2Nat.id, Z.ltb_irrefl by done.
  assert (take (sizeof BiosIdentifier) (drop (Z.to_nat KB256 - sizeof BiosIdentifier)
            (mem_read img 0 (Z.to_nat KB256))) = flash_id img) as ->.
  { rewrite sizeof_BiosIdentifier, read_part by (unfold KB256; lia). unfold flash_id.
    assert (0 + Z.of_nat (Z.to_nat KB256 - 63) = ImageSize256KB - 63) as -> by (unfold KB256, ImageSize256KB; lia).
    reflexivity. }
  rewrite Hn, Hv, Hb. cbn [negb Z.eqb HeaderVersionV2 Pos.eqb orb].
  destruct (Md5.MD5Update_inv (Md5.MD5Init stack) [] (mem_read img 0 (Z.to_nat KB256)) size) as (c & -> & Hinv);
    [by apply Md5.MD5Init_inv|rewrite length_mem_read; lia|unfold KB256 in *; lia|].
  rewrite bind_ok, (Md5.MD5Final_hash _ _ Hinv), bind_ok. rewrite bool_decide_true; [done|].
  rewrite Hh, app_nil_l. f_equal. rewrite <- (drop_0 (mem_read img 0 (Z.to_nat KB256))), read_part by lia. done.
Qed.

(** ** Properties *)

(** C1: what the builder makes, the loader starts.  From a loader and a gzip file
    that fit (the file and what follows it of at least 50000 octets, complete codes,
    no header checksum, and at most 8MB when unpacked), [romcopy] writes an image;
    with that image in the flash, whatever lies behind the kernel, the loader that
    has been copied to RAM checks itself, repeats up to nine rounds that read a wrong
    image, and ends by starting the kernel that was packed, with the 16 octets at
    0x20 that the loader sets for it. *)
Theorem built_image_boots st loader m rest win tables :
  let l := load_loader loader in
  let crom := Deflate.gzip_file m ++ rest in
  stack_ok st → Forall byte loader → Deflate.member_ok m → Forall byte rest → fits l crom →
  50000 <= Z.of_nat (length crom) → Z.of_nat (length (Deflate.original m)) <= 0x800000 →
  Z.of_nat (length win) = Inflate.WSIZE →
  ∃ img, romcopy st loader crom = Ok (Some img) ∧ octets img ∧
    ∀ pic inb flash startup ram n context k,
      context_ok context → (∀ j, octets (flash j)) → octets startup → (k < 10)%nat → loader_size l <= 4 * n →
      (∀ x, loader_pos l <= x < loader_pos l + loader_size l → startup (LPCFlashadress + x) = img x) →
      (∀ i, (i < k)%nat → size_ok flash i ∧ stored_sum flash i ≠ Sha1.sha1_hash (stored_image flash i)) →
      (∀ j x, (3 * k <= j <= 3 * k + 2)%nat → 0x3000 <= x < 0x3018 + Z.of_nat (length crom) →
         flash j (LPCFlashadress + x) = img x) →
      ∃ ram', BootStartBiosLoader win tables pic inb flash (loader_size l) context
                (ram_copy ram startup (loader_pos l) n) =
                Ok (Kernel ram', BootPerformPicChallengeResponseAction pic ++ [set_framebuffer]) ∧
        kernel_in ram' (Deflate.original m) (Z.of_nat k) (loader_size l).
Proof.
  intros l crom Hst Hl Hm Hr Hfit Hmin Ho Hw. pose proof Hfit as (_ & _ & Hmax). unfold compressed_image_start in Hmax.
  apply built_image_starts; try done.
  - apply Forall_app. split; [by apply Gunzip.file_octets|done].
  - apply unpack_file; try done. fold crom. lia.
Qed.

(** The image in the flash, read without errors. *)
Lemma built_image_boots_witness :
  ∃ img ram', romcopy sample_stack sample_loader sample_crom = Ok (Some img) ∧
    BootStartBiosLoader Gunzip.cleared ∅ (λ _, 1) (λ _, 0) (λ _ x, img (x - LPCFlashadress))
      (loader_size (load_loader sample_loader)) sample_context
      (ram_copy (λ _, 0) (λ x, img (x - LPCFlashadress)) (loader_pos (load_loader sample_loader)) 30) =
      Ok (Kernel ram', BootPerformPicChallengeResponseAction (λ _, 1) ++ [set_framebuffer]) ∧
    kernel_in ram' [88; 88; 88; 88; 66; 108; 65; 108; 65; 108] 0 (loader_size (load_loader sample_loader)).
Proof.
  destruct (built_image_boots sample_stack sample_loader Gunzip.sample sample_rest Gunzip.cleared ∅ sample_stack_ok
              (proj1 sample_octets) Gunzip.sample_ok sample_rest_octets sample_fits) as (img & Hrom & Ho & Hboot);
    [fold sample_crom; rewrite sample_crom_length; lia|apply sample_small|apply Gunzip.length_cleared|].
  destruct (Hboot (λ _, 1) (λ _, 0) (λ _ x, img (x - LPCFlashadress)) (λ x, img (x - LPCFlashadress))
              (λ _, 0) 30 sample_context 0%nat) as (ram' & Hrun & Hk).
  - reflexivity.
  - intros j x. apply Ho.
  - intros x. apply Ho.
  - lia.
  - rewrite (proj2 sample_place). lia.
  - intros x _. f_equal. lia.
  - intros i Hi. lia.
  - intros j x _ _. f_equal. lia.
  - exists img, ram'. split; [exact Hrom|]. split; [exact Hrun|exact Hk].
Defined.

(** C7: whatever the flash holds, the loader starts a kernel only if its own octets
    have the hash stored with them and, in one of the ten rounds, the copied image
    is of a permitted size, has the hash stored before it, and holds the checksum
    and the length of the kernel that was unpacked from it.  Otherwise it restarts
    the console, switches it off, or stays in the decompressor with such an image;
    it is undefined only where the decompressor is. *)
Theorem loader_starts_only_verified win tables pic inb flash size_code context ram :
  context_ok context → octets ram → (∀ k, octets (flash k)) → 24 <= size_code →
  Z.of_nat (length win) = Inflate.WSIZE → Forall byte win →
  (∃ pre, BootStartBiosLoader win tables pic inb flash size_code context ram =
            Ok ((kill inb).1, pre ++ (kill inb).2)) ∨
  mem_read ram PROGRAMM_Memory_2bl 20 =
    Sha1.sha1_hash (mem_read ram (PROGRAMM_Memory_2bl + 24) (Z.to_nat (size_code - 24))) ∧
  ∃ j, (j < 10)%nat ∧ size_ok flash j ∧ stored_sum flash j = Sha1.sha1_hash (stored_image flash j) ∧
    match BootStartBiosLoader win tables pic inb flash size_code context ram with
    | Ok (Kernel ram', evs) =>
        evs = BootPerformPicChallengeResponseAction pic ++ [set_framebuffer] ∧
        ∃ kernel p, kernel_in ram' kernel (Z.of_nat j) size_code ∧
          take 8 (drop p (stored_image flash j)) =
            le_bytes 4 (Deflate.crc32 kernel) ++ le_bytes 4 (Z.of_nat (length kernel))
    | Ok (Stalled, evs) => evs = BootPerformPicChallengeResponseAction pic ++ [set_framebuffer]
    | Ok _ => False
    | UB => unpack win tables (stored_image flash j) = UB
    end.
Proof.
  intros Hc Ho Hf H24 Hwl Hwb. unfold BootStartBiosLoader. cbv zeta. unfold SHA1Length.
  rewrite <- !Z.add_assoc. change (20 + 4) with 24.
  pose proof (le_val_range _ (read_octets ram (PROGRAMM_Memory_2bl + 20) 4 Ho)) as Hs.
  rewrite length_mem_read in Hs.
  set (size := le_val (mem_read ram (PROGRAMM_Memory_2bl + 20) 4)) in *. clearbody size.
  destruct (kill inb) as [ke kevs] eqn:Hkill. cbn [fst snd].
  destruct (Z.eqb_spec size size_code) as [<-|]; cbn [negb]; [|left; by eexists].
  destruct (Z.ltb_spec size 24); [lia|]. replace (size - 20 - 4) with (size - 24) by lia.
  destruct (sha1_mem_hash context ram (PROGRAMM_Memory_2bl + 24) (size - 24) Hc) as (c & -> & Hc');
    [by apply read_octets|lia|]. rewrite bind_ok. case_bool_decide as Hsum; cbn [negb]; [|left; by eexists].
  destruct (load_loop_sound win tables inb flash Hf 10 0 c ram size Hc') as [->|(j & r & Hj & Hok & Hst & ->)].
  - left. rewrite Hkill, !bind_ok. exists (BootPerformPicChallengeResponseAction pic ++ [set_framebuffer]).
    by rewrite <- app_assoc.
  - right. split; [done|]. exists j. split; [lia|]. split; [done|]. split; [done|]. unfold finish, unpack.
    pose proof (GunzipChecks.decompress_ends (stored_image flash j) win tables (read_octets _ _ _ (Hf _)) Hwl Hwb) as He.
    destruct (Inflate.decompress_kernel _ _) as [? s| |]; [|done..]. destruct He as [_ [p He]].
    destruct (RAM_end <? _); [done|]. rewrite !bind_ok. split; [done|]. exists (Inflate.output_data s), p.
    split; [apply start_kernel_in|done].
Qed.

Lemma loader_starts_only_verified_witness :
  ∃ img ram' kernel p j, romcopy sample_stack sample_loader sample_crom = Ok (Some img) ∧ (j < 10)%nat ∧
    let flash (_ : nat) (x : Z) := img (x - LPCFlashadress) in
    stored_sum flash j = Sha1.sha1_hash (stored_image flash j) ∧
    kernel_in ram' kernel (Z.of_nat j) 24 ∧
    take 8 (drop p (stored_image flash j)) = le_bytes 4 (Deflate.crc32 kernel) ++ le_bytes 4 (Z.of_nat (length kernel)).
Proof.
  destruct sample_boots as (img & ram' & Hrom & Ho & Hrun).
  destruct (loader_starts_only_verified Gunzip.cleared ∅ (λ _, 1) (λ _, 0) (λ _ x, img (x - LPCFlashadress)) 24
              sample_context (ram_copy (λ _, 0) (λ x, img (x - LPCFlashadress)) 0x80 30))
    as [[pre Hk]|(_ & j & Hj & _ & Hsum & Hk)].
  - reflexivity.
  - intros x. unfold ram_copy, mem_copy. destruct (_ && _); [apply Ho|unfold byte; lia].
  - intros k x. apply Ho.
  - lia.
  - apply Gunzip.length_cleared.
  - apply Forall_replicate. unfold byte. lia.
  - exfalso. rewrite Hrun in Hk. injection Hk as Hk _. vm_compute in Hk. discriminate Hk.
  - rewrite Hrun in Hk. destruct Hk as (_ & kernel & p & Hk & Hp). exists img, ram', kernel, p, j.
    split; [exact Hrom|]. split; [exact Hj|]. split; [exact Hsum|]. split; [exact Hk|exact Hp].
Defined.

(** The image is accepted as an update, and below 192KB the settings are kept
    behind its kernel: whatever is stored in their place, the image boots. *)
Theorem built_image_accepted st loader crom stack :
  let l := load_loader loader in
  stack_ok st → Forall byte loader → Forall byte crom → fits l crom → length (Md5.buffer stack) = 64%nat →
  ∃ img, romcopy st loader crom = Ok (Some img) ∧
    validateOSImage stack (mem_read img 0 (Z.to_nat KB256)) KB256 = Ok FlashErrorcodes_NoError ∧
    (compressed_image_start + Z.of_nat (length crom) < settings_base →
     getXBlastOSSettingStartingOffset (flash_id img) = settings_base ∧
     ∀ m, (∀ x, x < settings_base ∨ settings_base + 3840 <= x → m x = img x) →
       bootable m (loader_pos l) (loader_size l) crom).
Proof.
  intros l Hst Hl Hr Hfit Hstack.
  destruct (romcopy_spec st loader crom Hst Hl Hr Hfit) as (m & img & Hboot & Hm & Hid & Hrom).
  pose proof Hfit as (H24 & Hpos & Hmax). fold l in Hboot. clearbody l. unfold compressed_image_start in *.
  destruct (writeBiosIdentifier_spec (md5_context st) m (0x3018 + Z.of_nat (length crom)))
    as (img' & Hid' & _ & Hkeep & Hv & Ho & Hb & Hn & Hh); [apply Hst|unfold KB256; lia|].
  rewrite Hid in Hid'. injection Hid' as <-. exists img. split; [done|]. split.
  { eapply sealed_accepted; [done| |done|exact Hb|done|]; [unfold KB256; lia|]. rewrite Hh. f_equal.
    apply mem_read_ext. intros i Hi. rewrite Hkeep; [done|]. unfold KB256. lia. }
  intros Hsize. split.
  - unfold getXBlastOSSettingStartingOffset. rewrite Hv, Hn, Ho, Hb.
    cbn [Z.eqb HeaderVersionV2 Pos.eqb orb truthy negb Option1_SaveSettingsLocationBit Z.land Pos.land].
    unfold settings_base, FlashBlockSize_64KB, ImageSize256KB in *.
    destruct (Z.leb_spec (256 * 1024) (0x3018 + Z.of_nat (length crom))); [lia|].
    by destruct (Z.ltb_spec (0x3018 + Z.of_nat (length crom)) (3 * (64 * 1024))); [|lia].
  - intros m' Hm'. eapply bootable_ext; [exact H24| |exact Hboot]. intros x Hx.
    unfold settings_base, FlashBlockSize_64KB, KB256 in *. rewrite Hm', Hkeep; [done|lia|lia].
Qed.

Lemma built_image_accepted_witness :
  ∃ img, romcopy sample_stack sample_loader sample_crom = Ok (Some img) ∧
    validateOSImage (md5_context sample_stack) (mem_read img 0 (Z.to_nat KB256)) KB256 = Ok FlashErrorcodes_NoError ∧
    getXBlastOSSettingStartingOffset (flash_id img) = settings_base.
Proof.
  destruct (built_image_accepted sample_stack sample_loader sample_crom (md5_context sample_stack) sample_stack_ok
              (proj1 sample_octets) (proj2 sample_octets) sample_fits eq_refl) as (img & Hrom & Hval & Hset).
  exists img. split; [exact Hrom|]. split; [exact Hval|]. apply Hset.
  rewrite sample_crom_length. unfold compressed_image_start, settings_base, FlashBlockSize_64KB. lia.
Defined.

End BootRom.
