(* ===== verification/LoaderSmbus.v ===== *)
(** * The SMBus transfers of the boot loader
      ([src/boot_rom/2bPicResponseAction.c])

    The loader has transfers of its own, with four hundred tries.  The system
    controller resets the console unless it gets the answer to its challenge; on a
    bus that loses cycles it gets it. *)

From S2P Require Import Prelude Identify Smbus SmbusHost BootRom.

Module LoaderSmbus.
Import Identify Smbus SmbusHost.

#[local] Arguments Z.add : simpl nomatch.

Section loader.
Context {W : Type} `{!SmbusPorts W} (fuel : positive).

Definition get_try (bPicAddressI2cFormat bDataToWrite : Z) : ST W (option Z) :=
  IoOutputByte (I2C_IO_BASE + 4) (Z.shiftl bPicAddressI2cFormat 1 .| 1) ;;
  IoOutputByte (I2C_IO_BASE + 8) bDataToWrite ;;
  IoOutputWord (I2C_IO_BASE + 0) 0xffff ;;
  IoOutputByte (I2C_IO_BASE + 2) 0x0a ;;
  b ← cycle_end fuel;
  if b .& 0x10 =? 0 then mret None
  else v ← IoInputByte (I2C_IO_BASE + 6); mret (Some v).

Definition I2CTransmitByteGetReturn (bPicAddressI2cFormat bDataToWrite : Z) : ST W Z :=
  bus_idle fuel ;;
  r ← retries 400 (get_try bPicAddressI2cFormat bDataToWrite);
  mret (default ERR_I2C_ERROR_BUS r).

Definition word_try (bPicAddressI2cFormat wDataToWrite : Z) : ST W (option Z) :=
  IoOutputByte (I2C_IO_BASE + 4) (Z.shiftl bPicAddressI2cFormat 1 .| 0) ;;
  IoOutputByte (I2C_IO_BASE + 8) (Z.shiftr wDataToWrite 8) ;;
  IoOutputByte (I2C_IO_BASE + 6) wDataToWrite ;;
  IoOutputWord (I2C_IO_BASE + 0) 0xffff ;;
  IoOutputByte (I2C_IO_BASE + 2) 0x1a ;;
  b ← cycle_end fuel;
  if b .& 0x10 =? 0 then mret None else mret (Some ERR_SUCCESS).

Definition I2CTransmitWord (bPicAddressI2cFormat wDataToWrite : Z) : ST W Z :=
  bus_idle fuel ;;
  r ← retries 400 (word_try bPicAddressI2cFormat (u16 wDataToWrite));
  mret (default ERR_I2C_ERROR_BUS r).

Definition BootPerformPicChallengeResponseAction : ST W Z :=
  bC ← I2CTransmitByteGetReturn 0x10 0x1c;
  bD ← I2CTransmitByteGetReturn 0x10 0x1d;
  bE ← I2CTransmitByteGetReturn 0x10 0x1e;
  bF ← I2CTransmitByteGetReturn 0x10 0x1f;
  (if (u8 bC =? 0) && (u8 bD =? 0) && (u8 bE =? 0) && (u8 bF =? 0)
   then I2CTransmitWord 0x10 0x0240 else mret 0) ;;
  let w := BootRom.BootPicManipulation (u8 bC) (u8 bD) (u8 bE) (u8 bF) in
  I2CTransmitWord 0x10 (0x2000 .| (w .& 0xff)) ;;
  I2CTransmitWord 0x10 (0x2100 .| Z.shiftr w 8) ;;
  I2CTransmitWord 0x10 0x0100 ;;
  mret ERR_SUCCESS.
End loader.

(** The system controller: registers at address 0x10. *)
Class PicChip (D : Type) `{!SmbusDevices D} := {
  regs : D → Z → Z;
  pic_returns d r : byte r → dev_read 0x10 r d = Some (regs d r, d);
  pic_stores d r v : byte r → byte v →
    ∃ d', dev_write 0x10 r v d = Some d' ∧ ∀ x, regs d' x = if x =? r then v else regs d x
}.

#[export, refine] Instance board_pic : PicChip board := {| regs := pic |}.
Proof. all: intros; done || by eexists. Defined.

Section pic.
Context {D : Type} `{!SmbusDevices D} `{!PicChip D} (fuel : positive).

(** Never four hundred cycles in a row without an answer. *)
Definition steady (h : host D) : Prop :=
  ∀ k, existsb (λ j, acked (sched h (k + j))) (seq 0 400) = true.

(** The start of a cycle, the errors being cleared without a look at them. *)
Lemma cleared_runs {A} control (f : Z → ST (host D) A) g : ready fuel g →
  Z.testbit (u8 control) 3 && (u8 control .& 7 =? 2) = true →
  ∃ g', (IoOutputWord (I2C_IO_BASE + 0) 0xffff ;; IoOutputByte (I2C_IO_BASE + 2) control ;;
         b ← cycle_end fuel; f b) g = f (verdict g) g' ∧
    after fuel 1 (if answer g is Some (_, d) then d else devices g) g g' ∧
    hdata g' = (if answer g is Some (v, _) then v else hdata g).
Proof.
  intros Hr Hc. rewrite (bind_run _ _ _ tt (set_stat 0 (set_busy (busy g) g))).
  - apply (start_runs fuel control f (set_stat 0 (set_busy (busy g) g))); [|done..]. by apply cleared_ready.
  - assert (Z.ldiff (stat g) 0xffff = 0) as Hz.
    { destruct Hr as (Hs & _). change 0xffff with (Z.ones 16). apply Z.ldiff_ones_r_low; [lia|].
      pose proof (Z.log2_le_mono (stat g) 255 ltac:(lia)) as Hl. change (Z.log2 255) with 7 in Hl. lia. }
    destruct g as [st a dt c cy b k sc d]. unfold IoOutputWord. cbn in Hz |- *. unfold set_stat. cbn.
    change (u16 65535) with 65535. by rewrite Hz.
Qed.

Lemma get_tries dev reg : 0 <= dev < 128 → byte reg →
  tries fuel (get_try fuel dev reg) (λ d, '(v, d) ← dev_read dev reg d; Some (u8 v, d)).
Proof.
  intros Hd Hg h Hr. destruct (address_read dev Hd) as [Ha Hw]. unfold get_try, wp.
  set (g := set_hcmd (u8 reg) (set_haddr (u8 (Z.shiftl dev 1 .| 1)) h)).
  rewrite (bind_run _ _ _ tt (set_haddr (u8 (Z.shiftl dev 1 .| 1)) h)) by done.
  rewrite (bind_run _ _ _ tt g) by done.
  edestruct (cleared_runs 0x0a (λ b, if b .& 0x10 =? 0 then mret None
    else v ← IoInputByte (I2C_IO_BASE + 6); mret (Some v)) g) as (g' & -> & Haf & Hv); [done..|].
  assert (answer g = (if acked (sched h (count h)) then '(v, d) ← dev_read dev reg (devices h); Some (v, d) else None)) as Hans.
  { unfold answer. cbn -[u8 Z.testbit Z.shiftr]. rewrite Ha, Hw, (u8_id reg) by done. by destruct (acked _). }
  unfold verdict. rewrite Hans in Haf, Hv |- *.
  destruct (acked _); [destruct (dev_read _ _ _) as [[v d]|]; cbn in Haf, Hv |- *|]; [|split; done..].
  subst v. by split.
Qed.

Lemma high_octet w : 0 <= w < 2 ^ 16 → byte (Z.shiftr w 8).
Proof.
  intros Hw. unfold byte. rewrite Z.shiftr_div_pow2 by lia.
  split; [apply Z.div_pos; lia|apply Z.div_lt_upper_bound; lia].
Qed.

Lemma word_tries dev w : 0 <= dev < 128 → 0 <= w < 2 ^ 16 →
  tries fuel (word_try fuel dev w) (λ d, d ← dev_write dev (Z.shiftr w 8) (u8 w) d; Some (ERR_SUCCESS, d)).
Proof.
  intros Hd Hb h Hr. destruct (address_write dev Hd) as [Ha Hw]. unfold word_try, wp.
  set (g := set_hdata (u8 w) (set_hcmd (u8 (Z.shiftr w 8)) (set_haddr (u8 (Z.shiftl dev 1 .| 0)) h))).
  rewrite (bind_run _ _ _ tt (set_haddr (u8 (Z.shiftl dev 1 .| 0)) h)) by done.
  rewrite (bind_run _ _ _ tt (set_hcmd (u8 (Z.shiftr w 8)) (set_haddr (u8 (Z.shiftl dev 1 .| 0)) h))) by done.
  rewrite (bind_run _ _ _ tt g) by done.
  edestruct (cleared_runs 0x1a (λ b, if b .& 0x10 =? 0 then mret None else mret (Some ERR_SUCCESS)) g)
    as (g' & -> & Haf & _); [done..|].
  pose proof (high_octet w Hb) as Hs.
  assert (answer g = (if acked (sched h (count h))
    then d ← dev_write dev (Z.shiftr w 8) (u8 w) (devices h); Some (hdata g, d) else None)) as Hans.
  { unfold answer. cbn -[u8 Z.testbit Z.shiftr].
    rewrite Ha, Hw, (u8_id (Z.shiftr w 8)), (u8_id (u8 w)) by (done || apply u8_range). by destruct (acked _). }
  unfold verdict. rewrite Hans in Haf |- *.
  destruct (acked _); [destruct (dev_write _ _ _ _); cbn in *|]; split; done.
Qed.

Lemma wp_get r h (Q : Z → host D → Prop) : byte r → ready fuel h → steady h →
  (∀ h', ready fuel h' → steady h' → devices h' = devices h → Q (u8 (regs (devices h) r)) h') →
  wp (I2CTransmitByteGetReturn fuel 0x10 r) Q h.
Proof.
  intros Hr Hh Hs HQ. eapply wp_mono; [by apply (transfer_runs fuel 400 _ _ _ h (get_tries 0x10 r ltac:(lia) Hr))|].
  cbn beta. intros v h'. assert (answered 400 h = true) as -> by apply Hs. rewrite (pic_returns _ _ Hr).
  intros [-> (Hr' & Hs' & Hd')]. apply HQ; [done|unfold steady; by rewrite Hs'|done].
Qed.

Lemma wp_word w h (Q : Z → host D → Prop) : 0 <= w < 2 ^ 16 → ready fuel h → steady h →
  (∀ h', ready fuel h' → steady h' →
     (∀ x, regs (devices h') x = if x =? Z.shiftr w 8 then u8 w else regs (devices h) x) → Q ERR_SUCCESS h') →
  wp (I2CTransmitWord fuel 0x10 w) Q h.
Proof.
  intros Hw Hh Hs HQ. unfold I2CTransmitWord. unfold u16. rewrite (Z.mod_small w) by done.
  eapply wp_mono; [by apply (transfer_runs fuel 400 _ _ _ h (word_tries 0x10 w ltac:(lia) Hw))|].
  cbn beta. intros v h'. assert (answered 400 h = true) as -> by apply Hs.
  destruct (pic_stores (devices h) (Z.shiftr w 8) (u8 w)) as (d & -> & Hd); [by apply high_octet|apply u8_range|].
  intros [-> (Hr' & Hs' & Hd')]. apply HQ; [done|unfold steady; by rewrite Hs'|]. intros x. by rewrite Hd', Hd.
Qed.

(** The octets of a word put together. *)
Lemma word_octets c x : byte c → byte x →
  0 <= Z.shiftl c 8 .| x < 2 ^ 16 ∧ Z.shiftr (Z.shiftl c 8 .| x) 8 = c ∧ u8 (Z.shiftl c 8 .| x) = x.
Proof.
  unfold byte. intros Hc Hx. assert (Z.shiftl c 8 .| x = c * 2 ^ 8 + x) as ->.
  { rewrite <- Z.shiftl_mul_pow2 by lia. symmetry. apply Z.add_nocarry_lor. apply Z.bits_inj'. intros i Hi.
    rewrite Z.land_spec, Z.bits_0. destruct (Z.lt_ge_cases i 8).
    - by rewrite Z.shiftl_spec_low.
    - rewrite (testbit_above x 8) by lia. apply andb_false_r. }
  rewrite Z.shiftr_div_pow2 by lia. unfold u8. split_and!; [lia..| |].
  - rewrite Z.div_add_l, Z.div_small; lia.
  - rewrite Z.add_comm, Z.mod_add, Z.mod_small; lia.
Qed.

(** The system controller gets the answer to its challenge in registers 0x20 and
    0x21, whatever cycles the bus loses short of four hundred in a row. *)
Lemma challenge_answered h : ready fuel h → steady h →
  (∀ r, byte (regs (devices h) r)) →
  let c r := regs (devices h) r in
  let w := BootRom.BootPicManipulation (c 0x1c) (c 0x1d) (c 0x1e) (c 0x1f) in
  wp (BootPerformPicChallengeResponseAction fuel)
    (λ r h', r = ERR_SUCCESS ∧ regs (devices h') 0x20 = w .& 0xff ∧ regs (devices h') 0x21 = Z.shiftr w 8) h.
Proof.
  intros Hr Hs Hb c w.
  assert (∀ r, u8 (c r) = c r) as Hc by (intros r; apply u8_id, Hb).
  assert (0 <= w < 2 ^ 16) as Hw.
  { unfold w, BootRom.BootPicManipulation. destruct (BootRom.pic_rounds _ _ _ _ _). apply Z.mod_pos_bound. lia. }
  assert (byte (w .& 0xff)) as Hlo
    by (change 0xff with (Z.ones 8); rewrite Z.land_ones by lia; apply Z.mod_pos_bound; lia).
  pose proof (high_octet w Hw) as Hhi.
  unfold BootPerformPicChallengeResponseAction.
  apply wp_bind, wp_get; [unfold byte; lia|done..|]. intros h1 Hr1 Hs1 Hd1.
  apply wp_bind, wp_get; [unfold byte; lia|done..|]. intros h2 Hr2 Hs2 Hd2.
  apply wp_bind, wp_get; [unfold byte; lia|done..|]. intros h3 Hr3 Hs3 Hd3.
  apply wp_bind, wp_get; [unfold byte; lia|done..|]. intros h4 Hr4 Hs4 Hd4.
  rewrite Hd3, Hd2, Hd1. change (regs (devices h)) with c. rewrite !Hc. fold w.
  apply wp_bind, (wp_mono _ (λ _ h', ready fuel h' ∧ steady h')).
  { destruct (_ && _); [|done]. apply wp_word; [lia|done..|]. done. }
  intros _ h5 [Hr5 Hs5]. clear Hd1 Hd2 Hd3 Hd4.
  destruct (word_octets 0x20 (w .& 0xff)) as (Ha & Ha1 & Ha2); [unfold byte; lia|done|].
  destruct (word_octets 0x21 (Z.shiftr w 8)) as (Hb1 & Hb2 & Hb3); [unfold byte; lia|done|].
  apply wp_bind, wp_word; [done..|]. change 0x2000 with (Z.shiftl 0x20 8). rewrite Ha1, Ha2. intros h6 Hr6 Hs6 H6.
  apply wp_bind, wp_word; [done..|]. change 0x2100 with (Z.shiftl 0x21 8). rewrite Hb2, Hb3. intros h7 Hr7 Hs7 H7.
  apply wp_bind, wp_word; [lia|done..|]. intros h8 _ _ H8. apply wp_ret.
  by rewrite !H8, !H7, !H6.
Qed.
End pic.
End LoaderSmbus.
